(* ===== verification/_CoqProject ===== *)
-Q . S2P
Prelude.v
Subject.v
Bytes.v
Util.v
Sublist.v
SublistOrder.v
GoLib.v
Channels.v
Limits.v
MemStore.v
MsgStore.v
GenericStore.v
ClientStore.v
SubState.v
Delivery.v
DeliverySpec.v
DeliverySys.v
Replication.v
ReplicationSpec.v
ReplicationSys.v
QueueSpec.v
Redelivery.v
RedeliverySpec.v
SubStore.v
SubStoreSpec.v
Crypto.v
CryptoSpec.v
Proto.v
ProtoSpec.v
Spb.v
Crc.v
Records.v
RecordsSpec.v
FileSubs.v
FileSubsSpec.v
FileClients.v
FileClientsSpec.v
Cache.v
FilesManager.v
FileMsgs.v
FileMsgsSpec.v
FileMsgsRemove.v
FileMsgsWrite.v
FileMsgsStore.v
FileMsgsLookup.v
FileMsgsTime.v
FileMsgsRefine.v
FileMsgsRecover.v
MsgRestore.v
FileMsgsLog.v
Effects.v
ChannelStore.v
PublishLoop.v
DeliveryTotal.v
ChannelStoreSpec.v
PublishSpec.v
PublishPanic.v
PublishCases.v
ChannelDelete.v
Connect.v
ConnectSpec.v
RestoreMsgs.v
RestoreSpec.v
RestoreSys.v
RestoreLive.v
RestoreCases.v
Partitions.v
Fsm.v
FsmSpec.v
FsmAgree.v
FsmPublish.v
FsmCases.v
Snapshot.v
SnapshotSpec.v
SnapshotTake.v
SnapshotDrop.v
SnapshotNode.v
SnapshotSys.v
SnapshotCases.v
