(* ===== verification/Prelude.v ===== *)
(** * A verification development of NATS Streaming Server

    The program (under [src/]) keeps channels of messages in a store and delivers them
    to subscriptions.  Clients publish to a channel, subscribe to it from some position
    on, alone or as members of a queue group, and acknowledge what they get; what is not
    acknowledged in time is sent again.  Servers may form a cluster, where the leader
    replicates to the followers what it sent and what was acknowledged.

    ** Conventions

    Go integers are [Z] with the wrap-around of their width written out; bytes are
    [ascii]; a Go map is a [gmap], and the order of an iteration over it is an argument
    (class [RangeOrder], below), so that theorems hold for every order; [sort.Sort] is
    any sorting function (class [Sorter], in GoLib.v).  Objects that the program shares
    through pointers live in a heap and are named by addresses.  A call that may fail
    returns an [outcome]: a value, an error, or a panic.  Every handler runs under the
    locks that the code takes, and is one step: interleavings are sequences of handlers,
    timers and callbacks.  Logging and tracing are left out.

    ** Files

    - Prelude.v: machine integers, outcomes, iteration orders, list lemmas.
    - Subject.v: tokens of subjects and what a pattern matches.
    - Bytes.v: bytes, fixed-width integers, reading from a stream.
    - Util.v: [util/util.go], the names of channels, integers on streams, back-off.
    - Sublist.v, SublistOrder.v: [util/sublist.go], the trie of subjects with its cache.
    - GoLib.v: timers, [sort.Search], [sort.Sort].
    - Channels.v: [util/channels.go], lists of channels split over requests.
    - Limits.v: [stores/limits.go], inheritance of per-channel limits.
    - MemStore.v: [stores/memstore.go], the message store in memory.
    - MsgStore.v: the interface of message stores that the server uses, and the memory
      store as an instance.
    - GenericStore.v: [stores/common.go] and [stores/raftstore.go], channels, limits and
      identifiers of subscriptions.
    - ClientStore.v: [server/client.go], the registry of clients.
    - SubState.v: subscriptions and queue groups of [server/server.go].
    - Delivery.v, DeliverySpec.v, DeliverySys.v, QueueSpec.v: sending messages and
      processing acknowledgements, for one subscription and for groups.
    - Replication.v, ReplicationSpec.v, ReplicationSys.v: replication of what was sent
      and acknowledged.
    - Redelivery.v, RedeliverySpec.v: sending again.
    - SubStore.v, SubStoreSpec.v: the subscriptions of a channel, subscribing, closing
      and unsubscribing.
    - Crypto.v, CryptoSpec.v: [stores/cryptostore.go], the encrypted store.
    - Proto.v, ProtoSpec.v: the code that the protobuf compiler generates in
      [spb/protocol.pb.go], as combinators over the fields of a message.
    - Spb.v: the messages of [spb/protocol.pb.go].
    - Crc.v: checksums of [hash/crc32].
    - Records.v, RecordsSpec.v: options, buffered writers and records of
      [stores/filestore.go].
    - FileSubs.v, FileSubsSpec.v: the subscription store in a file.
    - FileClients.v, FileClientsSpec.v: the files of the server and of its clients.
    - Cache.v: the cache of messages, a linked list ordered by last use.
    - FilesManager.v: the states of files and the limit on open descriptors.
    - FileMsgs.v: the message store in files.
    - FileMsgsSpec.v, FileMsgsRemove.v, FileMsgsWrite.v, FileMsgsStore.v,
      FileMsgsLookup.v, FileMsgsTime.v, FileMsgsRefine.v: its invariant, removal of
      messages, writing, storing, looking up, positions by time and expiration, and the
      refinement of a window, with the store as an instance of the interface.
    - FileMsgsRecover.v: its recovery from a directory.
    - FileMsgsLog.v: the file store as an instance of the interface that publishing uses,
      and runs that the refinement excludes.
    - Effects.v: the monad of handlers that change a state and may fail or panic.
    - ChannelStore.v: the channels of [server/server.go], their creation, lookup, timers
      and deletion; ChannelStoreSpec.v: the invariant and what each operation does.
    - PublishLoop.v: receiving and publishing messages, up to [ioLoop]; DeliveryTotal.v:
      delivery always returns; PublishSpec.v, PublishPanic.v: what the loop guarantees;
      PublishCases.v: servers with a memory store, and runs.
    - ChannelDelete.v: deleting channels while subscriptions come and go.
    - Connect.v, ConnectSpec.v: requests to connect and to close,
      heartbeats and pings.
    - MsgRestore.v: what restoring messages needs of a store; RestoreMsgs.v: the requests of
      a node for messages ([server/snapshot.go]) and the answers of the leader
      ([server/server.go]); RestoreSpec.v: what a node has restored, over any connection;
      RestoreSys.v, RestoreLive.v: the node and the leader together; RestoreCases.v: runs.
    - Partitions.v: [server/partitions.go], servers that share the channels of a cluster.
    - Fsm.v: applying committed entries of the replicated log ([server/clustering.go]);
      FsmSpec.v, FsmAgree.v: what the log determines; FsmPublish.v: entries with messages;
      FsmCases.v: runs.
    - Snapshot.v: taking and restoring snapshots ([server/snapshot.go], with
      [recoverOneSub] of [server/server.go]); SnapshotSpec.v: what a snapshot says of the
      subscriptions of a channel, and recovering them; SnapshotTake.v: what is written;
      SnapshotDrop.v: dropping the subscriptions of a channel; SnapshotNode.v: dropping the
      state of a node, restoring its clients, and the attempts to restore messages;
      SnapshotSys.v: two nodes; SnapshotCases.v: runs.

    ** What is shown

    A plain subscription is the implementation of an abstract subscriber
    ([delivery_refines], [delivery_complete]); a follower converges to the leader
    ([replication_converges]); a queue group gets every message once, as far as its
    members have room; expired messages are sent again, and a member that leaves passes
    its messages on; a durable resumes where it was.  The trie matches what it should
    with any content of its cache.  The memory store is a window of consecutive messages
    under its limits when it is given messages without gaps.  Encrypted messages are read
    back, and nonces are not reused unless a store fails and two restarts draw the same
    random bytes.
    Every message of the protocol is read back from its bytes, and reading any bytes
    ends.  The subscription store in a file recovers, after a crash, what it was at some
    moment since the last flush ([subs_crash_safe], [subs_torn_write]), and the server
    recovers its own information and its clients.  The message store in files is a
    window of messages under any operations ([file_store_refines_window]), its files are
    well formed at any time ([file_slices_well_formed]), and what was flushed survives a
    restart ([flushed_messages_survive]).  The refinement assumes that a write buffer and
    a limit on file descriptors are not used together, that the read buffer holds an index
    record, and that the sequences of a store span less than 2^31, so that offsets stay
    below 2^63; FileMsgsLog.v shows what happens without the first two.

    On a server that runs alone, a message is acknowledged to its publisher when it is in a
    flushed store ([publish_durable_before_ack]), for every store that implements the
    interface: the memory store and the store in files do; in a cluster, when Raft has
    applied the entry with it ([replicated_before_ack]); and never when the server gives up
    ([no_ack_when_flush_fails]).  The publish loop of a server that runs alone answers every
    request once ([every_request_answered]), and a channel in use is not deleted there
    ([subscribed_channel_not_deleted]).  Every request to connect is answered once and
    registered clients are watched ([connections_orderly]), alone and in a cluster.

    The theorems on delivery, redelivery and replication of what was sent assume that
    publishing and storage do not fail, and concern plain subscriptions unless they speak of
    groups: runs of QueueSpec.v, SubStoreSpec.v, RedeliverySpec.v and ReplicationSys.v show
    what members of a group and mixed expirations can do otherwise.

    A node that restores messages from the leader never stores them with a gap, whatever
    is lost ([restored_without_gap]), and gets them when nothing is lost
    ([leader_serves_restore]).  Nodes that apply the same log have the same channels and
    clients ([log_determines_registry]) as long as the log has nothing of a channel that was
    deleted before, and what they have of a channel has no gap ([applied_without_gap]).  A node that restores the snapshot of another one has the same
    channels, clients and subscriptions ([snapshot_transfers_state]), and goes on like a
    node that has applied the log before the snapshot ([snapshot_replaces_log]).  This
    assumes that stores do not fail on channels and clients, that the node is behind, and
    that its durables have subscribers: SnapshotCases.v shows what happens without the
    last two.  Servers that share the channels of a cluster find out when
    two of them are configured with the same channel ([partition_conflicts_detected]).
    Some theorems show what the code does against its intention; they carry concrete
    runs.

    ** Bounds and fuel

    Loops that are not structural take fuel, and theorems show that the fuel computed by
    the caller is enough: [next_fuel] and [send_fuel] (the distance to the last sequence
    of the channel), [expire_fuel] of the memory store (the number of sequences between
    first and last), the recursion of [performAckExpirationRedelivery] (twice).
    Sequences stay below 2^64 and counters below 2^63 where a theorem says so.
    The readers of protobuf messages and of record files take the number of bytes as
    fuel, since every round reads at least one.  The loops of the message store in files
    take the number of messages or of slices.  A round of the publish loop takes at least
    one message of the queue, and so does a round of the loop that fills a batch.  The loop
    that restores messages takes one round per sequence at most, and the attempts to
    restore a channel are as many as the source says.

    ** Not modelled

    NATS connections, TLS, configuration, monitoring, logging, signals and services, the
    raft library and its transport, the SQL store and the command line: these are I/O or
    code of libraries. *)

From Stdlib Require Import ZArith Lia Ascii String.
From stdpp Require Import base list gmap strings.

(** ** Machine integers

    Go integers are kept as [Z] with their wrap-around written out: the
    conversions below are what an assignment to a variable of the given type
    does to an arbitrary integer. *)

Declare Scope go_scope.
Delimit Scope go_scope with go.

Definition two64 : Z := 18446744073709551616.
Definition two63 : Z := 9223372036854775808.
Definition two32 : Z := 4294967296.
Definition two31 : Z := 2147483648.
Definition two16 : Z := 65536.

(** The values of [uint64], [uint32] and [uint16]. *)
Definition u64 (z : Z) : Z := (z mod two64)%Z.
Definition u32 (z : Z) : Z := (z mod two32)%Z.
Definition u16 (z : Z) : Z := (z mod two16)%Z.

(** The values of [int64] ([int] and [time.Duration] on a 64-bit build) and
    of [int32]. *)
Definition i64 (z : Z) : Z := ((z + two63) mod two64 - two63)%Z.
Definition i32 (z : Z) : Z := ((z + two31) mod two32 - two31)%Z.

Definition is_u64 (z : Z) : Prop := (0 <= z < two64)%Z.
Definition is_i64 (z : Z) : Prop := (- two63 <= z < two63)%Z.
Definition is_i32 (z : Z) : Prop := (- two31 <= z < two31)%Z.

#[global] Arguments u64 _ : simpl never.
#[global] Arguments u32 _ : simpl never.
#[global] Arguments u16 _ : simpl never.
#[global] Arguments i64 _ : simpl never.
#[global] Arguments i32 _ : simpl never.

Notation "a +u64 b" := (u64 (a + b)) (at level 50, left associativity) : go_scope.
Notation "a -u64 b" := (u64 (a - b)) (at level 50, left associativity) : go_scope.
Notation "a +i64 b" := (i64 (a + b)) (at level 50, left associativity) : go_scope.
Notation "a -i64 b" := (i64 (a - b)) (at level 50, left associativity) : go_scope.

Create HintDb go.
Create Rewrite HintDb go.

Section MachineIntegers.
Local Open Scope Z_scope.

Lemma u64_small z : is_u64 z -> u64 z = z.
Proof. intros H. apply Z.mod_small. exact H. Qed.

Lemma u64_range z : is_u64 (u64 z).
Proof. apply Z.mod_pos_bound. reflexivity. Qed.

Lemma u32_small z : 0 <= z < two32 -> u32 z = z.
Proof. intros H. apply Z.mod_small. exact H. Qed.

Lemma u32_range z : 0 <= u32 z < two32.
Proof. apply Z.mod_pos_bound. reflexivity. Qed.

Lemma u16_small z : 0 <= z < two16 -> u16 z = z.
Proof. intros H. apply Z.mod_small. exact H. Qed.

Lemma i64_small z : is_i64 z -> i64 z = z.
Proof.
  unfold is_i64, i64, two63, two64. intros H. rewrite Z.mod_small; lia.
Qed.

Lemma i64_range z : is_i64 (i64 z).
Proof.
  unfold is_i64, i64.
  pose proof (Z.mod_pos_bound (z + two63) two64 ltac:(reflexivity)).
  unfold two63, two64 in *. lia.
Qed.

Lemma i32_small z : is_i32 z -> i32 z = z.
Proof.
  unfold is_i32, i32, two31, two32. intros H. rewrite Z.mod_small; lia.
Qed.

(** Wrapped additions compose: only the final wrap matters. *)
Lemma u64_add_l a b : u64 (u64 a + b) = u64 (a + b).
Proof. apply Zplus_mod_idemp_l. Qed.

Lemma u64_add_r a b : u64 (a + u64 b) = u64 (a + b).
Proof. apply Zplus_mod_idemp_r. Qed.

Lemma u64_sub_l a b : u64 (u64 a - b) = u64 (a - b).
Proof. apply Zminus_mod_idemp_l. Qed.

Lemma u64_sub_r a b : u64 (a - u64 b) = u64 (a - b).
Proof. apply Zminus_mod_idemp_r. Qed.

Lemma u32_add_l a b : u32 (u32 a + b) = u32 (a + b).
Proof. apply Zplus_mod_idemp_l. Qed.

Lemma u32_sub_l a b : u32 (u32 a - b) = u32 (a - b).
Proof. apply Zminus_mod_idemp_l. Qed.
End MachineIntegers.

#[export] Hint Rewrite u64_add_l u64_add_r u64_sub_l u64_sub_r u32_add_l u32_sub_l : go.
#[export] Hint Resolve u64_range u32_range i64_range : go.

(** ** Outcomes of Go calls

    A call either returns a value, returns an error, or panics (a nil pointer
    dereference or an index out of range). *)

Inductive outcome (E A : Type) : Type :=
| Ok (a : A)
| Err (e : E)
| Panic.
Arguments Ok {E A} a.
Arguments Err {E A} e.
Arguments Panic {E A}.

#[export] Instance outcome_ret (E : Type) : MRet (outcome E) := fun A a => Ok a.
#[export] Instance outcome_bind (E : Type) : MBind (outcome E) := fun A B f x =>
  match x with Ok a => f a | Err e => Err e | Panic => Panic end.

Lemma bind_Ok_inv {E A B : Type} (x : outcome E A) (f : A -> outcome E B) b :
  x ≫= f = Ok b -> exists a, x = Ok a /\ f a = Ok b.
Proof. destruct x; try done. by eexists. Qed.

(** ** Lists *)

Lemma fmap_bind {A B C : Type} (g : B -> C) (h : A -> list B) (l : list A) :
  g <$> (l ≫= h) = l ≫= (fun x => g <$> h x).
Proof. induction l as [|x l IH]; [done|]. by rewrite !bind_cons, fmap_app, IH. Qed.

Lemma filter_none {A : Type} (P : A -> Prop) `{forall x, Decision (P x)} (l : list A) :
  (forall x, x ∈ l -> ~ P x) -> filter P l = [].
Proof.
  induction l as [|x l IH]; intros Hl; [done|]. rewrite filter_cons_False by (apply Hl; by left).
  apply IH. intros y Hy. apply Hl. by right.
Qed.

Lemma filter_all {A : Type} (P : A -> Prop) `{forall x, Decision (P x)} (l : list A) :
  (forall x, x ∈ l -> P x) -> filter P l = l.
Proof.
  induction l as [|x l IH]; intros Hl; [done|]. rewrite filter_cons_True by (apply Hl; by left).
  f_equal. apply IH. intros y Hy. apply Hl. by right.
Qed.

(** An element that is not in the part before it in one decomposition is where
    any other decomposition finds it. *)
Lemma app_cons_snoc {A : Type} (l l1 l2 : list A) x :
  l ++ [x] = l1 ++ x :: l2 -> x ∉ l -> l1 = l.
Proof.
  revert l1. induction l as [|y l IH]; intros l1 Heq Hx.
  - destruct l1 as [|z l1]; [done|]. injection Heq as _ Heq. by destruct l1.
  - rewrite not_elem_of_cons in Hx. destruct Hx as [Hne Hx].
    destruct l1 as [|z l1]; injection Heq as ? Heq; [by subst|]. subst z. f_equal. by apply IH.
Qed.

(** ** Ranging over maps

    Go does not specify the order in which [for k, v := range m] visits a map.
    Definitions that range over a map take the order from this class, so that
    their theorems hold whatever the order is. *)

Class RangeOrder (K : Type) `{Countable K} := {
  order : gset K -> list K;
  order_perm : forall X : gset K, order X ≡ₚ elements X
}.

(** The visited pairs, in order. *)
Definition range {K : Type} `{RangeOrder K} {A : Type} (m : gmap K A) : list (K * A) :=
  omap (fun k => (fun x => (k, x)) <$> m !! k) (order (dom m)).

(** The order of [elements] is one of the possible orders; it is the one
    concrete evaluations use. *)
Definition default_order (K : Type) `{Countable K} : RangeOrder K :=
  {| order := elements; order_perm := fun X => reflexivity (elements X) |}.

Section Range.
Context {K : Type} `{Countable K} `{!RangeOrder K} {A : Type}.

Lemma elem_of_order (X : gset K) k : k ∈ order X <-> k ∈ X.
Proof. rewrite order_perm. apply elem_of_elements. Qed.

Lemma elem_of_range (m : gmap K A) k x : (k, x) ∈ range m <-> m !! k = Some x.
Proof.
  unfold range. rewrite list_elem_of_omap. split.
  - intros (k' & _ & Hk'). apply fmap_Some in Hk' as (x' & Hx & [= <- <-]). done.
  - intros Hk. exists k. rewrite elem_of_order, elem_of_dom, Hk. eauto.
Qed.

Lemma range_fst (m : gmap K A) : (range m).*1 = order (dom m).
Proof.
  unfold range. assert (Hall : forall k, k ∈ order (dom m) -> is_Some (m !! k)).
  { intros k. by rewrite elem_of_order, elem_of_dom. }
  induction (order (dom m)) as [|k ks IH]; [done|].
  cbn [omap list_omap]. destruct (Hall k) as [x Hx]; [by left|].
  rewrite Hx. cbn. f_equal. apply IH. intros k' Hk'. apply Hall. by right.
Qed.

Lemma NoDup_range_fst (m : gmap K A) : NoDup (range m).*1.
Proof. rewrite range_fst, order_perm. apply NoDup_elements. Qed.

Lemma NoDup_range (m : gmap K A) : NoDup (range m).
Proof. eapply NoDup_fmap_1, NoDup_range_fst. Qed.

Lemma range_perm (m : gmap K A) : range m ≡ₚ map_to_list m.
Proof.
  apply NoDup_Permutation; [apply NoDup_range|apply NoDup_map_to_list|].
  intros [k x]. by rewrite elem_of_range, elem_of_map_to_list.
Qed.

Lemma length_range (m : gmap K A) : length (range m) = size m.
Proof. rewrite range_perm. apply length_map_to_list. Qed.

Lemma range_fmap {B : Type} (f : A -> B) (m : gmap K A) :
  range (f <$> m) = (fun kx => (kx.1, f kx.2)) <$> range m.
Proof.
  unfold range. rewrite dom_fmap_L.
  induction (order (dom m)) as [|k ks IH]; [done|].
  cbn [omap list_omap]. rewrite IH, lookup_fmap. by destruct (m !! k).
Qed.
End Range.
