(* ===== verification/Subject.v ===== *)
(** * Subjects and their tokens

    Channel names and subscription subjects are byte strings whose tokens are
    separated by dots.  This file holds the byte constants and the token
    splitting of [src/util/sublist.go], the token-level notion of a well formed
    channel name, and the string lemmas that the files on subjects share. *)

From Stdlib Require Import Ascii String.
From stdpp Require Import base list strings.
From S2P Require Import Prelude.

(** The byte constants of [src/util/sublist.go]. *)
Definition pwc : ascii := "*".
Definition fwc : ascii := ">".
Definition btsep : ascii := ".".
Definition tsep : string := ".".
Definition slash : ascii := "/".

(** [tokens s] are the sub-slices of [s] between separators, as the loop at
    the head of [Insert], [Match] and [Remove] collects them: there is always
    at least one, and consecutive separators give empty tokens. *)
Fixpoint tokens (s : string) : list string :=
  match s with
  | EmptyString => [EmptyString]
  | String c s' =>
      if Ascii.eqb c btsep then EmptyString :: tokens s'
      else match tokens s' with
           | t :: ts => String c t :: ts
           | [] => [String c EmptyString]
           end
  end.

(** [join ts] puts a separator between consecutive tokens. *)
Fixpoint join (ts : list string) : string :=
  match ts with
  | [] => EmptyString
  | [t] => t
  | t :: ts' => (t ++ String btsep (join ts'))%string
  end.

Fixpoint string_forall (f : ascii -> bool) (s : string) : bool :=
  match s with
  | EmptyString => true
  | String c s' => f c && string_forall f s'
  end.

Definition is_wild (c : ascii) : bool := Ascii.eqb c pwc || Ascii.eqb c fwc.
Definition no_sep (s : string) : bool := string_forall (fun c => negb (Ascii.eqb c btsep)) s.

(** A token with neither wildcard nor slash. *)
Definition plain (t : string) : bool :=
  string_forall (fun c => negb (is_wild c) && negb (Ascii.eqb c slash)) t.

(** A token of a well formed name: a non empty plain token or, when wildcards
    are allowed, a wildcard on its own, [>] in last position only. *)
Definition token_ok (wildcardsAllowed is_last : bool) (t : string) : bool :=
  (negb (String.eqb t "") && plain t)
  || (wildcardsAllowed && String.eqb t "*")
  || (wildcardsAllowed && is_last && String.eqb t ">").

Fixpoint tokens_ok (wildcardsAllowed : bool) (ts : list string) : bool :=
  match ts with
  | [] => false
  | [t] => token_ok wildcardsAllowed true t
  | t :: ts' => token_ok wildcardsAllowed false t && tokens_ok wildcardsAllowed ts'
  end.

(** ** Lemmas *)

Section Tokens.

Lemma append_empty_l s : ("" ++ s)%string = s.
Proof. done. Qed.

Lemma append_char c s s' : (String c s ++ s')%string = String c (s ++ s').
Proof. done. Qed.

Lemma append_empty_r s : (s ++ "")%string = s.
Proof. induction s as [|c s IH]; [done|]. by rewrite append_char, IH. Qed.

Lemma tokens_nonempty s : tokens s <> [].
Proof.
  destruct s as [|c s]; simpl; [done|].
  destruct (Ascii.eqb c btsep); [done|]. by destruct (tokens s).
Qed.

Lemma tokens_cons s : exists t ts, tokens s = t :: ts.
Proof.
  destruct (tokens s) as [|t ts] eqn:E; [by apply tokens_nonempty in E|eauto].
Qed.

(** The tokens of a string hold no separator. *)
Lemma tokens_no_sep s : Forall (fun t => no_sep t = true) (tokens s).
Proof.
  induction s as [|c s IH]; simpl; [by repeat constructor|].
  destruct (Ascii.eqb c btsep) eqn:E; [by constructor|].
  destruct (tokens_cons s) as (t & ts & Ets). rewrite Ets in *.
  inversion IH; subst. constructor; [|done].
  unfold no_sep in *; simpl. by rewrite E.
Qed.

Lemma join_cons t ts :
  ts <> [] -> join (t :: ts) = (t ++ String btsep (join ts))%string.
Proof. by destruct ts. Qed.

Lemma join_cons_char c t ts : join (String c t :: ts) = String c (join (t :: ts)).
Proof. by destruct ts. Qed.

Lemma join_tokens s : join (tokens s) = s.
Proof.
  induction s as [|c s IH]; simpl; [done|].
  destruct (Ascii.eqb_spec c btsep) as [->|Hc].
  - rewrite join_cons by apply tokens_nonempty. by rewrite IH.
  - destruct (tokens_cons s) as (t & ts & E). rewrite E in *.
    by rewrite join_cons_char, IH.
Qed.

Lemma tokens_app_sep t s :
  no_sep t = true -> tokens (t ++ String btsep s) = t :: tokens s.
Proof.
  induction t as [|c t IH]; simpl; intros H.
  - done.
  - unfold no_sep in H; simpl in H. apply andb_prop in H as [Hc Ht].
    apply negb_true_iff in Hc. rewrite Hc, IH; done.
Qed.

Lemma tokens_single t : no_sep t = true -> tokens t = [t].
Proof.
  induction t as [|c t IH]; simpl; intros H; [done|].
  unfold no_sep in H; simpl in H. apply andb_prop in H as [Hc Ht].
  apply negb_true_iff in Hc. rewrite Hc, IH; done.
Qed.

Lemma tokens_join ts :
  ts <> [] -> Forall (fun t => no_sep t = true) ts -> tokens (join ts) = ts.
Proof.
  induction ts as [|t ts IH]; [done|]. intros _ Hall.
  inversion Hall as [|?? Ht Hts]; subst.
  destruct ts as [|t' ts'].
  - simpl. by apply tokens_single.
  - rewrite join_cons, tokens_app_sep by done. by rewrite IH.
Qed.

(** Two strings with the same tokens are equal. *)
Lemma tokens_inj s1 s2 : tokens s1 = tokens s2 -> s1 = s2.
Proof. intros H. by rewrite <- (join_tokens s1), <- (join_tokens s2), H. Qed.
End Tokens.
