(* ===== verification/Bytes.v ===== *)
(** * Bytes, fixed-width integers and readers

    Go byte slices are lists of [ascii] (so that conversions between strings
    and byte slices are conversions between [string] and [list ascii]).  This
    file holds the little-endian layout that [util.ByteOrder] selects
    ([src/util/util.go]), and the readers of package [io] that the record
    formats use: [io.ReadFull] and its two error values. *)

From Stdlib Require Import ZArith Lia Ascii String.
From stdpp Require Import base list strings.
From S2P Require Import Prelude.

Local Open Scope Z_scope.

Abbreviation byte := ascii.

Definition byte_of (z : Z) : byte := ascii_of_N (Z.to_N (z mod 256)).
Definition byte_val (b : byte) : Z := Z.of_N (N_of_ascii b).

(** [put_le n z] are the [n] bytes that [ByteOrder.PutUint16], [PutUint32] and
    [PutUint64] write ([n = 2, 4, 8]); [get_le] is what [Uint16], [Uint32] and
    [Uint64] read back from their argument's first [n] bytes. *)
Fixpoint put_le (n : nat) (z : Z) : list byte :=
  match n with
  | O => []
  | S n' => byte_of z :: put_le n' (z / 256)
  end.

Fixpoint get_le (bs : list byte) : Z :=
  match bs with
  | [] => 0
  | b :: bs' => byte_val b + 256 * get_le bs'
  end.

(** [io.ReadFull] on a reader that holds [r]: all [n] bytes, or [io.EOF] when
    the reader is exhausted, or [io.ErrUnexpectedEOF] in between. *)
Inductive read_error := EOF | ErrUnexpectedEOF.

Definition ReadFull (n : nat) (r : list byte) : (list byte + read_error) * list byte :=
  if (n <=? length r)%nat then (inl (take n r), drop n r)
  else match r with
       | [] => (inr EOF, [])
       | _ => (inr ErrUnexpectedEOF, [])
       end.

Lemma byte_val_range b : 0 <= byte_val b < 256.
Proof. unfold byte_val. pose proof (N_ascii_bounded b). lia. Qed.

Lemma byte_val_of z : byte_val (byte_of z) = z mod 256.
Proof.
  unfold byte_val, byte_of. pose proof (Z.mod_pos_bound z 256 ltac:(lia)).
  rewrite N_ascii_embedding; lia.
Qed.

Lemma byte_of_val b : byte_of (byte_val b) = b.
Proof.
  unfold byte_of. rewrite Z.mod_small by apply byte_val_range.
  unfold byte_val. rewrite N2Z.id. apply ascii_N_embedding.
Qed.

Lemma length_put_le n z : length (put_le n z) = n.
Proof. revert z. induction n as [|n IH]; intros z; simpl; [done|]. by rewrite IH. Qed.

Lemma get_le_range bs : 0 <= get_le bs < 256 ^ Z.of_nat (length bs).
Proof.
  induction bs as [|b bs IH]; [done|].
  cbn [get_le length]. rewrite Nat2Z.inj_succ, Z.pow_succ_r by lia.
  pose proof (byte_val_range b). lia.
Qed.

Lemma get_put_le n z : get_le (put_le n z) = z mod 256 ^ Z.of_nat n.
Proof.
  revert z. induction n as [|n IH]; intros z.
  - by rewrite Z.mod_1_r.
  - cbn [put_le get_le]. rewrite IH, byte_val_of, Nat2Z.inj_succ, Z.pow_succ_r by lia.
    rewrite Z.rem_mul_r; lia.
Qed.

Lemma put_get_le bs : put_le (length bs) (get_le bs) = bs.
Proof.
  induction bs as [|b bs IH]; [done|]. cbn [put_le get_le length].
  pose proof (byte_val_range b) as Hb. f_equal.
  - unfold byte_of. rewrite Z.mul_comm, Z.mod_add by lia.
    fold (byte_of (byte_val b)). apply byte_of_val.
  - rewrite Z.mul_comm, Z.div_add by lia.
    rewrite (Z.div_small (byte_val b)) by lia. apply IH.
Qed.

Lemma get_put_le_small n z : 0 <= z < 256 ^ Z.of_nat n -> get_le (put_le n z) = z.
Proof. intros H. rewrite get_put_le. by apply Z.mod_small. Qed.

Lemma ReadFull_app n a r :
  length a = n -> ReadFull n (a ++ r) = (inl a, r).
Proof.
  intros <-. unfold ReadFull. rewrite length_app.
  destruct (Nat.leb_spec (length a) (length a + length r)); [|lia].
  by rewrite take_app_length, drop_app_length.
Qed.

Lemma ReadFull_inl n r a r' : ReadFull n r = (inl a, r') -> r = a ++ r' /\ length a = n.
Proof.
  unfold ReadFull. destruct (Nat.leb_spec n (length r)) as [Hn|Hn].
  - intros [= <- <-]. rewrite take_drop, length_take. split; [done|lia].
  - by destruct r.
Qed.

#[export] Hint Rewrite length_put_le : go.
