(* ===== verification/Util.v ===== *)
(** * Utilities ([src/util/util.go])

    Validation of channel names, the back-off time check, the integer and
    buffer helpers. *)

From Stdlib Require Import ZArith Lia Ascii String.
From stdpp Require Import base list strings.
From S2P Require Import Prelude Subject Bytes.

(** ** Channel names *)

Module ChannelName.

(** The loop of [IsChannelNameValid] at position [i]: [prev] is
    [channel[i-1]] when [i > 0], and [s] is [channel[i:]]. *)
Fixpoint valid_loop (wildcardsAllowed : bool) (prev : option ascii) (s : string) : bool :=
  match s with
  | EmptyString => true
  | String c rest =>
      if Ascii.eqb c slash then false
      else if Ascii.eqb c btsep
              && match rest with
                 | EmptyString => true
                 | String d _ => Ascii.eqb d btsep
                 end
      then false
      else if negb wildcardsAllowed then
        if Ascii.eqb c pwc || Ascii.eqb c fwc then false
        else valid_loop wildcardsAllowed (Some c) rest
      else if Ascii.eqb c pwc || Ascii.eqb c fwc then
        if match prev with Some p => negb (Ascii.eqb p btsep) | None => false end
        then false
        else if Ascii.eqb c fwc && negb (String.eqb rest "") then false
        else if match rest with
                | EmptyString => false
                | String d _ => negb (Ascii.eqb d btsep)
                end
        then false
        else valid_loop wildcardsAllowed (Some c) rest
      else valid_loop wildcardsAllowed (Some c) rest
  end.

Definition IsChannelNameValid (channel : string) (wildcardsAllowed : bool) : bool :=
  match channel with
  | EmptyString => false
  | String c _ =>
      if Ascii.eqb c btsep then false else valid_loop wildcardsAllowed None channel
  end.

Fixpoint IsChannelNameLiteral (channel : string) : bool :=
  match channel with
  | EmptyString => true
  | String c rest =>
      if Ascii.eqb c pwc || Ascii.eqb c fwc then false else IsChannelNameLiteral rest
  end.

(** In the middle of a token: the rest of the token is plain, and what
    follows the separator is well formed. *)
Definition mid_ok (w : bool) (ts : list string) : bool :=
  match ts with
  | [] => true
  | [t] => plain t
  | t :: ts' => plain t && tokens_ok w ts'
  end.

Definition starts_with (c : ascii) (s : string) : bool :=
  match s with EmptyString => false | String d _ => Ascii.eqb d c end.

(** ** Correctness of the validation *)

Lemma token_ok_plain w l c t :
  is_wild c = false ->
  token_ok w l (String c t) = plain (String c t).
Proof.
  intros Hc. unfold token_ok.
  replace (String.eqb (String c t) "*") with false.
  2:{ symmetry. apply String.eqb_neq. intros [= -> _]. done. }
  replace (String.eqb (String c t) ">") with false.
  2:{ symmetry. apply String.eqb_neq. intros [= -> _]. done. }
  simpl. by rewrite !andb_false_r, !orb_false_r.
Qed.

Lemma token_ok_wild w l c t :
  is_wild c = true ->
  token_ok w l (String c t) = w && String.eqb t "" && (Ascii.eqb c pwc || l).
Proof.
  intros Hc. unfold token_ok, plain. simpl. rewrite Hc. simpl.
  unfold is_wild in Hc. apply orb_prop in Hc as [Hc|Hc];
    apply Ascii.eqb_eq in Hc; subst c; simpl; destruct t; destruct w, l; done.
Qed.

Lemma tokens_ok_cons w t ts :
  tokens_ok w (t :: ts)
  = token_ok w (match ts with [] => true | _ => false end) t
    && match ts with [] => true | _ => tokens_ok w ts end.
Proof. destruct ts; simpl; [by rewrite andb_true_r|done]. Qed.

Lemma mid_ok_cons w t ts :
  mid_ok w (t :: ts) = plain t && match ts with [] => true | _ => tokens_ok w ts end.
Proof. destruct ts; simpl; [by rewrite andb_true_r|done]. Qed.

Lemma tokens_starts_sep s ts :
  tokens s = EmptyString :: ts ->
  (s = EmptyString /\ ts = []) \/ exists s', s = String btsep s' /\ ts = tokens s'.
Proof.
  destruct s as [|c s]; simpl; [intros [= <-]; by left|].
  destruct (Ascii.eqb_spec c btsep) as [->|Hc].
  - intros [= <-]. right. eauto.
  - destruct (tokens_cons s) as (t & ts' & E). by rewrite E.
Qed.

(** After a complete wildcard token, what is left is empty or starts with a
    separator. *)
Lemma tokens_ok_fails_on_sep w s :
  s = EmptyString \/ starts_with btsep s = true -> tokens_ok w (tokens s) = false.
Proof.
  intros [->|H]; [by destruct w|].
  destruct s as [|c s]; [done|]. simpl in H. apply Ascii.eqb_eq in H as ->.
  simpl. destruct (tokens_cons s) as (t & ts & E). rewrite E.
  by rewrite andb_comm; destruct w; simpl; rewrite ?andb_false_r.
Qed.

#[local] Arguments tokens_ok : simpl never.
#[local] Arguments mid_ok : simpl never.
#[local] Arguments plain : simpl never.

Definition fresh (prev : option ascii) : bool :=
  match prev with None => true | Some p => Ascii.eqb p btsep end.

Lemma mid_ok_sep w s : mid_ok w (EmptyString :: tokens s) = tokens_ok w (tokens s).
Proof. destruct (tokens_cons s) as (t & ts & ->). done. Qed.

Lemma plain_cons c t :
  c <> slash -> is_wild c = false -> plain (String c t) = plain t.
Proof.
  intros Hs Hw. unfold plain; simpl. rewrite Hw.
  by apply Ascii.eqb_neq in Hs as ->.
Qed.

(** The byte loop computes the token-level predicate: at the start of a
    token it checks the remaining tokens, inside one it checks that the rest
    of the token is plain. *)
Lemma valid_loop_spec w s : forall prev,
  (fresh prev = false -> valid_loop w prev s = mid_ok w (tokens s)) /\
  (fresh prev = true -> s <> EmptyString -> starts_with btsep s = false ->
   valid_loop w prev s = tokens_ok w (tokens s)).
Proof.
  induction s as [|c s IH]; intros prev; [by split|].
  assert (Hmid : forall d, Ascii.eqb d btsep = false ->
            valid_loop w (Some d) s = mid_ok w (tokens s))
    by (intros d; apply (proj1 (IH (Some d)))).
  assert (Hfresh : s <> EmptyString -> starts_with btsep s = false ->
            valid_loop w (Some btsep) s = tokens_ok w (tokens s))
    by (intros; by apply (proj2 (IH (Some btsep)))).
  clear IH. destruct (tokens_cons s) as (t & ts & Ets).
  split.
  - intros Hp. cbn [valid_loop tokens].
    destruct (Ascii.eqb_spec c slash) as [->|Hs].
    { rewrite Ets. simpl. by rewrite mid_ok_cons. }
    destruct (Ascii.eqb_spec c btsep) as [->|Hc]; simpl.
    + rewrite mid_ok_sep. destruct s as [|d s']; [by destruct w|].
      destruct (Ascii.eqb d btsep) eqn:Hd.
      { rewrite tokens_ok_fails_on_sep; [done|by right]. }
      rewrite Hfresh by done. by destruct w.
    + rewrite Ets, mid_ok_cons. fold (is_wild c).
      destruct (is_wild c) eqn:Hw.
      * unfold plain; simpl; rewrite Hw; simpl.
        destruct w; simpl; [|done]. destruct prev as [p|]; simpl in *; [|done].
        by rewrite Hp.
      * rewrite (Hmid c), Ets, mid_ok_cons by by apply Ascii.eqb_neq.
        rewrite plain_cons by done. by destruct w.
  - intros Hp _ Hsep. simpl in Hsep. cbn [valid_loop tokens].
    destruct (Ascii.eqb_spec c slash) as [->|Hs].
    { rewrite Hsep, Ets, tokens_ok_cons. by rewrite token_ok_plain. }
    rewrite Hsep, Ets, tokens_ok_cons. simpl. fold (is_wild c).
    destruct (is_wild c) eqn:Hw.
    + rewrite token_ok_wild by done.
      destruct w; simpl; [|done].
      replace (match prev with Some p => negb (Ascii.eqb p btsep) | None => false end)
        with false by (destruct prev; simpl in *; by rewrite ?Hp).
      rewrite (Hmid c Hsep). destruct s as [|d s'].
      { injection Ets as <- <-. by rewrite andb_false_r, orb_true_r. }
      simpl in Ets. destruct (Ascii.eqb d btsep) eqn:Hd.
      * injection Ets as <- <-. apply Ascii.eqb_eq in Hd as ->.
        unfold is_wild in Hw. destruct (tokens_cons s') as (t' & ts' & E).
        simpl. rewrite mid_ok_sep, E.
        apply orb_prop in Hw as [Hw|Hw]; apply Ascii.eqb_eq in Hw; by subst c.
      * destruct (tokens_cons s') as (t' & ts' & E). rewrite E in Ets.
        injection Ets as <- <-. simpl. by destruct (Ascii.eqb c fwc).
    + rewrite token_ok_plain, (Hmid c Hsep), Ets, mid_ok_cons by done.
      rewrite plain_cons by done. by destruct w.
Qed.

(** The byte loop accepts exactly the well formed token lists. *)
Lemma IsChannelNameValid_tokens channel w :
  IsChannelNameValid channel w = tokens_ok w (tokens channel).
Proof.
  unfold IsChannelNameValid. destruct channel as [|c s]; [by destruct w|].
  destruct (Ascii.eqb c btsep) eqn:Hc.
  - rewrite tokens_ok_fails_on_sep; [done|by right].
  - by apply valid_loop_spec.
Qed.

Lemma token_ok_true w l t :
  token_ok w l t = true <->
  (t <> EmptyString /\ plain t = true)
  \/ (w = true /\ (t = "*"%string \/ (t = ">"%string /\ l = true))).
Proof.
  unfold token_ok. rewrite !orb_true_iff, !andb_true_iff, negb_true_iff, String.eqb_neq,
    !String.eqb_eq. tauto.
Qed.

Lemma tokens_ok_lookup w ts :
  tokens_ok w ts = true <->
  ts <> [] /\ forall i t, ts !! i = Some t ->
              token_ok w (bool_decide (S i = length ts)) t = true.
Proof.
  induction ts as [|t ts IH]; [naive_solver|].
  rewrite tokens_ok_cons, andb_true_iff. split.
  - intros [Ht Hts]. split; [done|]. intros [|i] t' Hi; simpl in Hi.
    + injection Hi as <-. by destruct ts.
    + destruct ts as [|t2 ts]; [done|]. apply IH in Hts as [_ Hts].
      rewrite (bool_decide_ext _ (S i = length (t2 :: ts))) by (simpl; lia). by apply Hts.
  - intros [_ H]. split.
    + specialize (H 0 t eq_refl). by destruct ts.
    + destruct ts as [|t2 ts]; [done|]. apply IH. split; [done|]. intros i t' Hi.
      rewrite (bool_decide_ext _ (S (S i) = length (t :: t2 :: ts))) by (simpl; lia).
      by apply H.
Qed.

(** [C33] The byte-by-byte validation of a channel name accepts exactly the
    names all of whose dot-separated tokens are non empty and hold neither
    slash nor wildcard, except that when wildcards are allowed a token may
    be [*], and the last token may be [>]. *)
Theorem IsChannelNameValid_spec channel w :
  IsChannelNameValid channel w = true <->
  forall i t, tokens channel !! i = Some t ->
    (t <> EmptyString /\ plain t = true)
    \/ (w = true /\ (t = "*"%string
                     \/ (t = ">"%string /\ S i = length (tokens channel)))).
Proof.
  rewrite IsChannelNameValid_tokens, tokens_ok_lookup.
  setoid_rewrite token_ok_true. setoid_rewrite bool_decide_eq_true.
  pose proof (tokens_nonempty channel). naive_solver.
Qed.

Lemma IsChannelNameLiteral_spec channel :
  IsChannelNameLiteral channel = string_forall (fun c => negb (is_wild c)) channel.
Proof.
  induction channel as [|c s IH]; simpl; [done|].
  fold (is_wild c). destruct (is_wild c); [done|]. by rewrite IH.
Qed.

End ChannelName.

(** ** Integers on a stream *)

Module Ints.
Local Open Scope Z_scope.

(** [WriteInt] appends the four bytes to what the writer already holds (the
    writer is an in-memory buffer or a file that accepts the bytes). *)
Definition WriteInt (w : list byte) (v : Z) : list byte := w ++ put_le 4 (u32 v).

Definition ReadInt (r : list byte) : (Z + read_error) * list byte :=
  match ReadFull 4 r with
  | (inr err, r') => (inr err, r')
  | (inl bs, r') => (inl (get_le bs), r')
  end.

(** [CloseFile err f] reports the error of [f.Close()] only when [err] is
    not already set. *)
Definition CloseFile {E : Type} (err closeErr : option E) : option E :=
  match closeErr, err with
  | Some lerr, None => Some lerr
  | _, _ => err
  end.

Lemma ReadInt_WriteInt v rest :
  0 <= v < two32 -> ReadInt (WriteInt [] v ++ rest) = (inl v, rest).
Proof.
  intros Hv. unfold ReadInt, WriteInt. rewrite app_nil_l.
  rewrite ReadFull_app by apply length_put_le.
  rewrite u32_small, get_put_le_small by (unfold two32 in *; lia). done.
Qed.
End Ints.

(** ** BackoffTimeCheck *)

Module Backoff.
Local Open Scope Z_scope.

(** Times are nanoseconds; [nextTime = None] is the zero [time.Time]. *)
Record BackoffTimeCheck := mkBackoff {
  nextTime : option Z;
  frequency : Z;
  minFrequency : Z;
  maxFrequency : Z;
  factor : Z
}.

Definition NewBackoffTimeCheck (minFrequency factor maxFrequency : Z)
  : option BackoffTimeCheck :=
  if (minFrequency <=? 0) || (factor <? 1) || (maxFrequency <? minFrequency) then None
  else Some (mkBackoff None minFrequency minFrequency maxFrequency factor).

(** [Reset] clears the state so that the next [Ok] returns true. *)
Definition Reset (bp : BackoffTimeCheck) : BackoffTimeCheck :=
  mkBackoff None bp.(minFrequency) bp.(minFrequency) bp.(maxFrequency) bp.(factor).

(** [time.Time.Sub] saturates at the bounds of a [time.Duration]. *)
Definition time_sub (t u : Z) : Z := Z.max (- two63) (Z.min (two63 - 1) (t - u)).

(** The frequency after a successful call: multiplied by the factor and
    capped. *)
Definition bump (bp : BackoffTimeCheck) : Z :=
  if bp.(frequency) <? bp.(maxFrequency) then
    let f := i64 (bp.(frequency) * bp.(factor)) in
    if bp.(maxFrequency) <? f then bp.(maxFrequency) else f
  else bp.(frequency).

(** [Ok], with the time that its call to [time.Now()] returns. *)
Definition Ok (now : Z) (bp : BackoffTimeCheck) : bool * BackoffTimeCheck :=
  match bp.(nextTime) with
  | None =>
      (true, mkBackoff (Some (now + bp.(minFrequency))) bp.(frequency)
               bp.(minFrequency) bp.(maxFrequency) bp.(factor))
  | Some next =>
      if now <? next then (false, bp)
      else if (bp.(frequency) =? bp.(maxFrequency))
              && (i64 (2 * bp.(maxFrequency)) <=? time_sub now next)
      then (true, Reset bp)
      else
        (true, mkBackoff (Some (now + bump bp)) (bump bp)
                 bp.(minFrequency) bp.(maxFrequency) bp.(factor))
  end.

(** What [NewBackoffTimeCheck] establishes and every call preserves, as
    long as the largest step fits in a [time.Duration]. *)
Record wf (bp : BackoffTimeCheck) : Prop := {
  wf_min : 0 < bp.(minFrequency);
  wf_freq : bp.(minFrequency) <= bp.(frequency) <= bp.(maxFrequency);
  wf_factor : 1 <= bp.(factor);
  wf_fits : bp.(maxFrequency) * bp.(factor) < two63
}.

Lemma New_wf minF fac maxF bp :
  maxF * fac < two63 -> NewBackoffTimeCheck minF fac maxF = Some bp -> wf bp.
Proof.
  unfold NewBackoffTimeCheck. intros Hfit.
  destruct (Z.leb_spec minF 0), (Z.ltb_spec fac 1), (Z.ltb_spec maxF minF); try done.
  intros [= <-]. constructor; simpl; lia.
Qed.

Lemma Reset_wf bp : wf bp -> wf (Reset bp).
Proof. intros []. constructor; simpl; lia. Qed.

Lemma bump_bounds bp :
  wf bp -> bp.(minFrequency) <= bump bp <= bp.(maxFrequency).
Proof.
  intros [Hmin Hfreq Hfac Hfit]. unfold bump.
  destruct (Z.ltb_spec (frequency bp) (maxFrequency bp)); [|lia].
  assert (frequency bp <= i64 (frequency bp * factor bp)).
  { rewrite i64_small; [nia|]. unfold is_i64. split; [unfold two63; nia|nia]. }
  simpl. destruct (Z.ltb_spec (maxFrequency bp) (i64 (frequency bp * factor bp))); lia.
Qed.

Lemma Ok_wf now bp : wf bp -> wf (Ok now bp).2.
Proof.
  intros Hwf. pose proof (bump_bounds bp Hwf) as Hb.
  unfold Ok. destruct (nextTime bp) as [next|].
  - destruct (now <? next); [done|].
    destruct (_ && _); [by apply Reset_wf|].
    destruct Hwf. constructor; simpl; lia.
  - destruct Hwf. by constructor.
Qed.

(** Once [Ok] has returned true and scheduled a next time, it returns false
    until at least [minFrequency] has elapsed, and the invariant on the
    frequency is kept; the only call that returns true without scheduling a
    next time is the automatic reset, which leaves the object as new. *)
Theorem Ok_spacing now bp b bp' :
  wf bp -> Ok now bp = (b, bp') ->
  wf bp' /\
  (b = true -> bp' = Reset bp' \/ forall now', now' < now + bp.(minFrequency) -> Ok now' bp' = (false, bp')).
Proof.
  intros Hwf HOk. split.
  { pose proof (Ok_wf now bp Hwf) as H. by rewrite HOk in H. }
  intros ->. revert HOk. unfold Ok at 1.
  pose proof (bump_bounds bp Hwf) as Hb.
  destruct (nextTime bp) as [next|].
  - destruct (Z.ltb_spec now next); [done|].
    destruct (_ && _); [by intros [= <-]; left|].
    intros [= <-]. right. intros now' Hlt. unfold Ok; simpl.
    by destruct (Z.ltb_spec now' (now + bump bp)); [|lia].
  - intros [= <-]. right. intros now' Hlt. unfold Ok; simpl.
    by destruct (Z.ltb_spec now' (now + minFrequency bp)); [|lia].
Qed.
End Backoff.
