(* ===== verification/Sublist.v ===== *)
(** * The subject trie ([src/util/sublist.go])

    A [Sublist] stores elements under subjects that may hold wildcards and
    retrieves the elements whose subject matches a literal subject, through a
    trie of levels and a front-end cache of results.  The theorems relate the
    trie and its cache to a plain list of entries (pattern, element). *)

From Stdlib Require Import ZArith Lia Ascii String.
From stdpp Require Import base list gmap strings.
From S2P Require Import Prelude Subject Util.

(** ** Data *)

Inductive sublist_error := ErrInvalidSubject | ErrNotFound.

(** [slCacheMax] *)
Definition slCacheMax : nat := 1024.

(** A node holds its elements and the next level; a level holds the nodes of
    its literal tokens and the two wildcard nodes. *)
Inductive node (E : Type) : Type :=
| Node (next : option (level E)) (elements : list E)
with level (E : Type) : Type :=
| Level (nodes : gmap string (node E)) (lpwc lfwc : option (node E)).
Arguments Node {E} next elements.
Arguments Level {E} nodes lpwc lfwc.

Record Sublist (E : Type) : Type := mkSublist {
  root : level E;
  cache : gmap string (list E);
  count : Z
}.
Arguments mkSublist {E} root cache count.
Arguments root {E} s.
Arguments cache {E} s.
Arguments count {E} s.

(** The branch of a level that a token selects. *)
Inductive key := Pwc | Fwc | Lit (t : string).

#[export] Instance key_eq_dec : EqDecision key.
Proof. solve_decision. Defined.

(** [switch t[0]] *)
Definition key_of (t : string) : key :=
  match t with
  | EmptyString => Lit t
  | String c _ => if Ascii.eqb c pwc then Pwc else if Ascii.eqb c fwc then Fwc else Lit t
  end.

Section Operations.
Context {E : Type} `{EqDecision E}.

Definition next (n : node E) : option (level E) := let '(Node nx _) := n in nx.
Definition elements (n : node E) : list E := let '(Node _ es) := n in es.

Definition newNode : node E := Node None [].
Definition newLevel : level E := Level ∅ None None.
Definition NewSublist : Sublist E := mkSublist newLevel ∅ 0.

Definition child (l : level E) (k : key) : option (node E) :=
  let '(Level nodes p f) := l in
  match k with Pwc => p | Fwc => f | Lit t => nodes !! t end.

Definition set_child (l : level E) (k : key) (n : node E) : level E :=
  let '(Level nodes p f) := l in
  match k with
  | Pwc => Level nodes (Some n) f
  | Fwc => Level nodes p (Some n)
  | Lit t => Level (<[t := n]> nodes) p f
  end.

(** [pruneNode]: [n == l.fwc] and [n == l.pwc] compare pointers, and the node
    was reached through exactly one branch of the level. *)
Definition pruneNode (l : level E) (k : key) : level E :=
  let '(Level nodes p f) := l in
  match k with
  | Fwc => Level nodes p None
  | Pwc => Level nodes None f
  | Lit t => Level (delete t nodes) p f
  end.

Definition numNodes (l : level E) : nat :=
  let '(Level nodes p f) := l in
  size nodes + match p with Some _ => 1 | None => 0 end
  + match f with Some _ => 1 | None => 0 end.

Definition isEmpty (n : node E) : bool :=
  match elements n with
  | [] => match next n with None => true | Some l => Nat.eqb (numNodes l) 0 end
  | _ => false
  end.

(** ** Insert *)

(** The loop over the tokens.  It creates the missing nodes and levels on
    its way, also when a later token turns out to be invalid. *)
Fixpoint insert_tokens (l : level E) (toks : list string) (sfwc : bool) (e : E)
  : level E * option sublist_error :=
  match toks with
  | [] => (l, None)
  | t :: ts =>
      if String.eqb t "" || sfwc then (l, Some ErrInvalidSubject)
      else
        let k := key_of t in
        let n := default newNode (child l k) in
        let nx := default newLevel (next n) in
        let '(nx', err) := insert_tokens nx ts (bool_decide (k = Fwc)) e in
        let els := match ts with [] => elements n ++ [e] | _ => elements n end in
        (set_child l k (Node (Some nx') els), err)
  end.

(** [matchLiteral literal subject].  The two arguments are what is left of
    the strings at the indices [li] and [i]; skipping a token leaves [li] on
    the next separator or at the end. *)
Fixpoint skip_token (literal : string) : string :=
  match literal with
  | EmptyString => EmptyString
  | String c rest => if Ascii.eqb c btsep then literal else skip_token rest
  end.

Fixpoint matchLiteral (literal subject : string) : bool :=
  match subject with
  | EmptyString => String.eqb literal ""
  | String b subject' =>
      match literal with
      | EmptyString => false
      | String c literal' =>
          if Ascii.eqb b pwc then matchLiteral (skip_token literal) subject'
          else if Ascii.eqb b fwc then true
          else if negb (Ascii.eqb b c) then false
          else matchLiteral literal' subject'
      end
  end.

Definition addToCache (c : gmap string (list E)) (subject : string) (e : E)
  : gmap string (list E) :=
  map_imap (fun k r => Some (if matchLiteral k subject then r ++ [e] else r)) c.

Definition removeFromCache (c : gmap string (list E)) (subject : string)
  : gmap string (list E) :=
  filter (fun kr => matchLiteral kr.1 subject = false) c.

Definition Insert (s : Sublist E) (subject : string) (e : E)
  : Sublist E * option sublist_error :=
  let '(l, err) := insert_tokens (root s) (tokens subject) false e in
  match err with
  | Some err => (mkSublist l (cache s) (count s), Some err)
  | None => (mkSublist l (addToCache (cache s) subject e) (u32 (count s + 1)), None)
  end.

(** ** Match *)

Definition node_elements (n : option (node E)) : list E :=
  match n with Some n => elements n | None => [] end.

(** The loop of [matchLevel]: [p] and [n] are the variables [pwc] and [n]
    that the last iteration left. *)
Fixpoint match_loop (l : option (level E)) (toks : list string) (p n : option (node E))
  : list E :=
  match toks with
  | [] => node_elements p ++ node_elements n
  | t :: ts =>
      match l with
      | None => []
      | Some (Level nodes lp lf) =>
          node_elements lf
          ++ match lp with Some pn => match_loop (next pn) ts None None | None => [] end
          ++ match_loop (nodes !! t ≫= next) ts lp (nodes !! t)
      end
  end.

Definition matchLevel (l : option (level E)) (toks : list string) : list E :=
  match_loop l toks None None.

Definition Match `{!RangeOrder string} (s : Sublist E) (subject : string)
  : list E * Sublist E :=
  match cache s !! subject with
  | Some rc => (rc, s)
  | None =>
      let result := matchLevel (Some (root s)) (tokens subject) in
      let c := <[subject := result]> (cache s) in
      let c' := if (slCacheMax <? size c)%nat
                then match range c with (k, _) :: _ => delete k c | [] => c end
                else c in
      (result, mkSublist (root s) c' (count s))
  end.

(** ** Remove *)

(** [removeFromList]: the last element takes the place of the removed one.
    [shrinkAsNeeded] only reallocates the slice. *)
Fixpoint removeFromList (e : E) (l : list E) : option (list E) :=
  match l with
  | [] => None
  | x :: xs =>
      if decide (x = e)
      then Some (match last xs with
                 | None => []
                 | Some y => y :: take (length xs - 1) xs
                 end)
      else match removeFromList e xs with
           | None => None
           | Some xs' => Some (x :: xs')
           end
  end.

Definition put_or_prune (l : level E) (k : key) (n : node E) : level E :=
  if isEmpty n then pruneNode l k else set_child l k n.

(** The descent along the tokens, the removal at the last node, and the
    pruning of the empty nodes on the way back. *)
Fixpoint remove_tokens (l : option (level E)) (toks : list string) (sfwc : bool) (e : E)
  : level E + sublist_error :=
  match toks with
  | [] => inr ErrNotFound
  | t :: ts =>
      if String.eqb t "" || sfwc then inr ErrInvalidSubject
      else match l with
      | None => inr ErrNotFound
      | Some lv =>
          let k := key_of t in
          match ts with
          | [] =>
              match child lv k with
              | None => inr ErrNotFound
              | Some n =>
                  match removeFromList e (elements n) with
                  | None => inr ErrNotFound
                  | Some els => inl (put_or_prune lv k (Node (next n) els))
                  end
              end
          | _ =>
              match child lv k with
              | None => remove_tokens None ts (bool_decide (k = Fwc)) e
              | Some n =>
                  match remove_tokens (next n) ts (bool_decide (k = Fwc)) e with
                  | inr err => inr err
                  | inl nx => inl (put_or_prune lv k (Node (Some nx) (elements n)))
                  end
              end
          end
      end
  end.

Definition Remove (s : Sublist E) (subject : string) (e : E)
  : Sublist E * option sublist_error :=
  match remove_tokens (Some (root s)) (tokens subject) false e with
  | inr err => (s, Some err)
  | inl l => (mkSublist l (removeFromCache (cache s) subject)
                (u32 (count s - 1)), None)
  end.

Definition Count (s : Sublist E) : Z := count s.
Definition CacheCount (s : Sublist E) : nat := size (cache s).
End Operations.

(** ** The trie as a map from paths to elements *)

Section Paths.
Context {E : Type} `{EqDecision E}.
Implicit Types (l : level E) (n : node E) (q : list key).

(** The elements stored at the node that a path reaches. *)
Fixpoint elems_at (l : option (level E)) (q : list key) : list E :=
  match q with
  | [] => []
  | k :: ks =>
      match l ≫= (fun lv => child lv k) with
      | None => []
      | Some n => match ks with [] => elements n | _ => elems_at (next n) ks end
      end
  end.

Lemma elems_at_None q : elems_at None q = [].
Proof. by destruct q. Qed.

Lemma elems_at_cons l k n q :
  child l k = Some n ->
  elems_at (Some l) (k :: q) = match q with [] => elements n | _ => elems_at (next n) q end.
Proof. intros H. simpl. by rewrite H. Qed.

Lemma elems_at_cons_None l k q : child l k = None -> elems_at (Some l) (k :: q) = [].
Proof. intros H. simpl. by rewrite H. Qed.

Lemma child_set_child l k k' n :
  child (set_child l k n) k' = if decide (k = k') then Some n else child l k'.
Proof.
  destruct l as [nodes p f], k as [| |t], k' as [| |t']; simpl; try done.
  rewrite lookup_insert. repeat case_decide; congruence.
Qed.

Lemma child_pruneNode l k k' :
  child (pruneNode l k) k' = if decide (k = k') then None else child l k'.
Proof.
  destruct l as [nodes p f], k as [| |t], k' as [| |t']; simpl; try done.
  rewrite lookup_delete. repeat case_decide; congruence.
Qed.

Lemma numNodes_0 l : numNodes l = 0 -> forall k, child l k = None.
Proof.
  destruct l as [nodes p f]; simpl. intros H k.
  destruct p; [lia|]. destruct f; [lia|].
  destruct k; try done. assert (Hs : size nodes = 0) by lia.
  apply map_size_empty_inv in Hs. subst. apply lookup_empty.
Qed.

Lemma isEmpty_elems n :
  isEmpty n = true -> elements n = [] /\ forall q, elems_at (next n) q = [].
Proof.
  unfold isEmpty. destruct (elements n); [|done]. intros H. split; [done|].
  destruct (next n) as [l|]; [|intros; apply elems_at_None].
  apply Nat.eqb_eq in H. intros [|k q]; [done|].
  by rewrite elems_at_cons_None by by apply numNodes_0.
Qed.

(** Replacing, or pruning, the child of one key. *)
Lemma elems_at_put l k n q :
  elems_at (Some (put_or_prune l k n)) q =
  match q with
  | k' :: q' => if decide (k = k')
                then match q' with [] => elements n | _ => elems_at (next n) q' end
                else elems_at (Some l) q
  | [] => []
  end.
Proof.
  destruct q as [|k' q']; [done|].
  unfold put_or_prune. destruct (isEmpty n) eqn:He.
  - apply isEmpty_elems in He as [He Hn].
    simpl. rewrite child_pruneNode. case_decide; [|done].
    rewrite He. destruct q'; [done|by rewrite Hn].
  - simpl. rewrite child_set_child. by case_decide.
Qed.

Lemma elems_at_set l k n q :
  elems_at (Some (set_child l k n)) q =
  match q with
  | k' :: q' => if decide (k = k')
                then match q' with [] => elements n | _ => elems_at (next n) q' end
                else elems_at (Some l) q
  | [] => []
  end.
Proof. destruct q as [|k' q']; [done|]. simpl. rewrite child_set_child. by case_decide. Qed.

Lemma elems_at_newLevel q : elems_at (Some (newLevel : level E)) q = [].
Proof. destruct q as [|[]]; done. Qed.

Lemma elems_at_default (o : option (level E)) q :
  elems_at (Some (default newLevel o)) q = elems_at o q.
Proof. destruct o; [done|]. by rewrite elems_at_newLevel, elems_at_None. Qed.

(** *** Insert *)

(** The subjects that [Insert] and [Remove] accept: no empty token, and no
    token after one that starts with [>]. *)
Fixpoint accepted (toks : list string) : bool :=
  match toks with
  | [] => true
  | t :: ts => negb (String.eqb t "")
               && match ts with [] => true | _ => negb (bool_decide (key_of t = Fwc)) end
               && accepted ts
  end.

Lemma insert_tokens_err l toks sfwc e :
  toks <> [] ->
  (insert_tokens l toks sfwc e).2
  = if negb sfwc && accepted toks then None else Some ErrInvalidSubject.
Proof.
  revert l sfwc. induction toks as [|t ts IH]; [done|]. intros l sfwc _.
  cbn [insert_tokens accepted].
  destruct (String.eqb t ""), sfwc; simpl; try done.
  destruct (insert_tokens (default newLevel (next (default newNode (child l (key_of t))))) ts
              (bool_decide (key_of t = Fwc)) e) as [nx' err] eqn:Hrec.
  simpl. destruct ts as [|t' ts].
  - simpl in Hrec. by injection Hrec as <- <-.
  - specialize (IH (default newLevel (next (default newNode (child l (key_of t)))))
                  (bool_decide (key_of t = Fwc)) ltac:(done)).
    rewrite Hrec in IH. simpl in IH. by rewrite IH.
Qed.

(** Inserting changes the elements of one path, and none on error. *)
Lemma elems_at_insert l toks sfwc e q :
  toks <> [] ->
  elems_at (Some (insert_tokens l toks sfwc e).1) q
  = elems_at (Some l) q
    ++ (if negb sfwc && accepted toks && bool_decide (q = key_of <$> toks) then [e] else []).
Proof.
  revert l sfwc q. induction toks as [|t ts IH]; [done|]. intros l sfwc q _.
  cbn [insert_tokens accepted].
  destruct (String.eqb t "") eqn:Ht, sfwc; cbn [orb negb andb];
    try by rewrite app_nil_r.
  set (k := key_of t).
  set (n := default newNode (child l k)).
  assert (Hn : forall q', elems_at (Some l) (k :: q')
            = match q' with [] => elements n | _ => elems_at (next n) q' end).
  { intros q'. unfold n. simpl. destruct (child l k) as [n0|]; simpl; [done|].
    destruct q'; [done|]. by rewrite elems_at_None. }
  destruct (insert_tokens (default newLevel (next n)) ts (bool_decide (k = Fwc)) e)
    as [nx' err] eqn:Hrec.
  simpl fst. rewrite elems_at_set. destruct q as [|k' q'].
  { rewrite (bool_decide_false ([] = _)) by done. by rewrite andb_false_r. }
  destruct (decide (k = k')) as [<-|Hk].
  2:{ rewrite (bool_decide_false (k' :: q' = _)) by (unfold k in *; simpl; congruence).
      by rewrite andb_false_r, app_nil_r. }
  rewrite Hn. destruct ts as [|t' ts].
  - simpl in Hrec. injection Hrec as <- <-. simpl. destruct q' as [|k' q'].
    + by rewrite bool_decide_true.
    + rewrite bool_decide_false by done. cbn [next]. rewrite elems_at_default.
      by rewrite app_nil_r.
  - cbn [elements next]. destruct q' as [|k' q'].
    + rewrite (bool_decide_false ([k] = _)) by (simpl; congruence).
      by rewrite andb_false_r, app_nil_r.
    + specialize (IH (default newLevel (next n)) (bool_decide (k = Fwc)) (k' :: q') ltac:(done)).
      rewrite Hrec in IH. cbn [fst] in IH. rewrite IH, elems_at_default.
      f_equal. rewrite (bool_decide_ext (k :: k' :: q' = key_of <$> t :: t' :: ts)
                          (k' :: q' = key_of <$> t' :: ts)).
      * done.
      * unfold k. simpl. split; congruence.
Qed.
End Paths.

(** ** Matching *)

(** A pattern matches the tokens of a literal subject. *)
Inductive matches : list key -> list string -> Prop :=
| matches_nil : matches [] []
| matches_fwc t ts : matches [Fwc] (t :: ts)
| matches_pwc p t ts : matches p ts -> matches (Pwc :: p) (t :: ts)
| matches_lit p t ts : matches p ts -> matches (Lit t :: p) (t :: ts).

(** The patterns that match a given subject, in the order in which the trie
    visits them. *)
Fixpoint patterns (toks : list string) : list (list key) :=
  match toks with
  | [] => [[]]
  | t :: ts => [Fwc] :: (cons Pwc <$> patterns ts) ++ (cons (Lit t) <$> patterns ts)
  end.

Section Patterns.
Lemma elem_of_patterns p toks : p ∈ patterns toks <-> matches p toks.
Proof.
  revert p. induction toks as [|t ts IH]; intros p; simpl.
  - rewrite list_elem_of_singleton. split; [intros ->; constructor|by inversion 1].
  - rewrite elem_of_cons, elem_of_app, !list_elem_of_fmap. split.
    + intros [->|[(p' & -> & Hp)|(p' & -> & Hp)]]; constructor; by apply IH.
    + inversion 1; subst; [by left| |]; right; [left|right]; eexists; split; try done;
        by apply IH.
Qed.

Lemma NoDup_patterns toks : NoDup (patterns toks).
Proof.
  induction toks as [|t ts IH]; simpl; [by apply NoDup_singleton|].
  apply NoDup_cons. split.
  - rewrite elem_of_app, !list_elem_of_fmap. by intros [(? & ? & _)|(? & ? & _)].
  - apply NoDup_app. split_and!.
    + apply NoDup_fmap_2; [by intros ?? [= ->]|done].
    + intros p. rewrite !list_elem_of_fmap. by intros (? & -> & _) (? & ? & _).
    + apply NoDup_fmap_2; [by intros ?? [= ->]|done].
Qed.

Lemma patterns_nonempty_elem t ts p : p ∈ patterns (t :: ts) -> p <> [].
Proof. rewrite elem_of_patterns. by inversion 1. Qed.
End Patterns.

Section MatchLevel.
Context {E : Type} `{EqDecision E}.
Implicit Types (l : level E).

Lemma bind_elems_cons (l : level E) k (n : node E) t ts :
  child l k = Some n ->
  (cons k <$> patterns (t :: ts)) ≫= elems_at (Some l)
  = patterns (t :: ts) ≫= elems_at (next n).
Proof.
  intros Hk. rewrite list_fmap_bind. apply Forall_bind_ext, Forall_forall.
  intros p Hp. simpl. rewrite Hk. apply patterns_nonempty_elem in Hp. by destruct p.
Qed.

Lemma bind_elems_child_None (l : level E) k (ps : list (list key)) :
  child l k = None -> (cons k <$> ps) ≫= elems_at (Some l) = [].
Proof.
  intros Hk. induction ps as [|p ps IH]; [done|]. rewrite fmap_cons, bind_cons, IH.
  simpl. by rewrite Hk.
Qed.

Lemma bind_elems_None (ps : list (list key)) :
  ps ≫= elems_at (None : option (level E)) = [].
Proof. induction ps as [|p ps IH]; [done|]. by rewrite bind_cons, IH, elems_at_None. Qed.

(** The recursive descent visits exactly the matching patterns, in order. *)
Lemma match_loop_patterns (o : option (level E)) t ts p n :
  match_loop o (t :: ts) p n = patterns (t :: ts) ≫= elems_at o.
Proof.
  revert o t p n. induction ts as [|t' ts IH]; intros o t p n.
  - destruct o as [[nodes lp lf]|]; [|done]. simpl.
    rewrite app_nil_r. destruct lf, lp, (nodes !! t); simpl; rewrite ?app_nil_r; done.
  - destruct o as [[nodes lp lf]|]; [|by rewrite bind_elems_None].
    change (patterns (t :: t' :: ts))
      with ([Fwc] :: (cons Pwc <$> patterns (t' :: ts)) ++ (cons (Lit t) <$> patterns (t' :: ts))).
    rewrite bind_cons, bind_app. cbn [match_loop].
    apply (f_equal2 app); [by destruct lf|]. apply (f_equal2 app).
    + destruct lp as [pn|] eqn:Hp.
      * rewrite (bind_elems_cons _ _ pn) by done. exact (IH _ _ None None).
      * by rewrite bind_elems_child_None.
    + destruct (nodes !! t) as [n'|] eqn:Hn; cbn [mbind option_bind].
      * rewrite (bind_elems_cons _ _ n') by done. exact (IH _ _ lp (Some n')).
      * rewrite bind_elems_child_None by done. done.
Qed.

(** [matchLevel] on a subject: the elements of the matching patterns, in the
    order of [patterns]. *)
Lemma matchLevel_patterns l toks :
  toks <> [] -> matchLevel (Some l) toks = patterns toks ≫= elems_at (Some l).
Proof. destruct toks; [done|]. intros _. apply match_loop_patterns. Qed.
End MatchLevel.

#[export] Instance matches_dec p toks : Decision (matches p toks).
Proof. refine (cast_if (decide (p ∈ patterns toks))); by rewrite <- elem_of_patterns. Defined.

(** ** The cache's test on strings agrees with the trie's test on tokens *)

Section MatchLiteral.

Lemma key_of_plain t : t <> EmptyString -> plain t = true -> key_of t = Lit t.
Proof.
  destruct t as [|c t]; [done|]. unfold plain. simpl. intros _ H.
  apply andb_prop in H as [H _]. apply andb_prop in H as [H _].
  unfold is_wild in H. destruct (Ascii.eqb c pwc), (Ascii.eqb c fwc); done.
Qed.

(** What a well formed token can be. *)
Lemma token_ok_inv l t :
  token_ok true l t = true ->
  (t <> EmptyString /\ plain t = true /\ key_of t = Lit t)
  \/ (t = "*"%string /\ key_of t = Pwc)
  \/ (t = ">"%string /\ key_of t = Fwc /\ l = true).
Proof.
  unfold token_ok. intros H. apply orb_prop in H as [H|H]; [apply orb_prop in H as [H|H]|].
  - apply andb_prop in H as [H1 H2]. apply negb_true_iff, String.eqb_neq in H1.
    left. auto using key_of_plain.
  - apply String.eqb_eq in H. subst. auto.
  - apply andb_prop in H as [H1 H2]. apply String.eqb_eq in H2. destruct l; [|done].
    subst. auto.
Qed.

Lemma tokens_ok_head w t ts :
  tokens_ok w (t :: ts) = true ->
  token_ok w (match ts with [] => true | _ => false end) t = true /\
  (ts = [] \/ tokens_ok w ts = true).
Proof.
  destruct ts; simpl; [auto|]. intros H. apply andb_prop in H as [H1 H2]. auto.
Qed.

Lemma tokens_ok_join_nonempty w ts : tokens_ok w ts = true -> join ts <> EmptyString.
Proof.
  destruct ts as [|t ts]; [done|]. intros H. apply tokens_ok_head in H as [H _].
  destruct t as [|c t]; [by destruct w, ts|]. rewrite join_cons_char. done.
Qed.

Lemma matchLiteral_empty subject :
  subject <> EmptyString -> matchLiteral "" subject = false.
Proof. by destruct subject. Qed.

Lemma skip_token_join t ts :
  no_sep t = true ->
  skip_token (join (t :: ts)) = match ts with [] => EmptyString | _ => String btsep (join ts) end.
Proof.
  intros Ht. induction t as [|c t IH].
  - destruct ts; [done|]. by rewrite join_cons.
  - rewrite join_cons_char. unfold no_sep in Ht. simpl in Ht.
    apply andb_prop in Ht as [Hc Ht]. apply negb_true_iff in Hc. simpl. rewrite Hc.
    by apply IH.
Qed.

Lemma plain_char c t : plain (String c t) = true -> is_wild c = false /\ plain t = true.
Proof.
  unfold plain. simpl. intros H. apply andb_prop in H as [H1 H2].
  apply andb_prop in H1 as [H1 _]. by apply negb_true_iff in H1.
Qed.

Lemma matchLiteral_char c k s :
  is_wild c = false ->
  matchLiteral k (String c s)
  = match k with EmptyString => false | String d k' => Ascii.eqb c d && matchLiteral k' s end.
Proof.
  intros Hc. unfold is_wild in Hc. apply orb_false_iff in Hc as [H1 H2].
  destruct k as [|d k]; [done|]. simpl. rewrite H1, H2. by destruct (Ascii.eqb c d).
Qed.

(** A plain token at the head of the subject must be the first token of the
    literal. *)
Lemma matchLiteral_token t r tk tks :
  plain t = true -> no_sep tk = true -> no_sep t = true ->
  (r = EmptyString \/ exists r', r = String btsep r') ->
  matchLiteral (join (tk :: tks)) (t ++ r)
  = String.eqb t tk
    && matchLiteral (match tks with [] => EmptyString | _ => String btsep (join tks) end) r.
Proof.
  intros Hp Htk Ht Hr. revert tk Htk. induction t as [|c t IH]; intros tk Htk;
    rewrite ?append_empty_l, ?append_char.
  - destruct tk as [|d tk]; [by destruct tks|].
    rewrite join_cons_char. unfold no_sep in Htk. simpl in Htk.
    apply andb_prop in Htk as [Hd _]. apply negb_true_iff in Hd.
    destruct Hr as [->|(r' & ->)]; [done|].
    rewrite (matchLiteral_char btsep (String d _)) by done. by rewrite Ascii.eqb_sym, Hd.
  - apply plain_char in Hp as [Hc Hp]. unfold no_sep in Ht. simpl in Ht.
    apply andb_prop in Ht as [Hsep Ht]. apply negb_true_iff in Hsep.
    rewrite matchLiteral_char by done. destruct tk as [|d tk].
    + destruct tks as [|t' tks]; [done|].
      rewrite join_cons, append_empty_l by done. by rewrite Hsep.
    + rewrite join_cons_char. unfold no_sep in Htk. simpl in Htk.
      apply andb_prop in Htk as [_ Htk]. rewrite IH by done.
      simpl. by destruct (Ascii.eqb_spec c d); simpl.
Qed.
End MatchLiteral.

Section MatchLiteralSpec.

(** On well formed names, [matchLiteral k subject] holds exactly when the
    tokens of [subject], as a pattern, match the tokens of [k]. *)
Lemma matchLiteral_join kts sts :
  tokens_ok true kts = true -> tokens_ok true sts = true ->
  Forall (fun t => no_sep t = true) kts -> Forall (fun t => no_sep t = true) sts ->
  matchLiteral (join kts) (join sts) = bool_decide (matches (key_of <$> sts) kts).
Proof.
  revert kts. induction sts as [|t sts IH]; [done|]. intros kts Hk Hs Hnk Hns.
  destruct kts as [|tk kts]; [done|].
  inversion Hnk as [|?? Htk Hnk']; inversion Hns as [|?? Ht Hns']; subst.
  pose proof (tokens_ok_join_nonempty _ _ Hk) as Hkne.
  apply tokens_ok_head in Hs as [Hst Hs]. apply tokens_ok_head in Hk as [Hkt Hk].
  set (r := match sts with [] => EmptyString | _ => String btsep (join sts) end).
  assert (Hj : join (t :: sts) = (t ++ r)%string).
  { unfold r. destruct sts; [by rewrite append_empty_r|by rewrite join_cons]. }
  assert (Hr : matchLiteral (match kts with [] => EmptyString | _ => String btsep (join kts) end) r
               = bool_decide (matches (key_of <$> sts) kts)).
  { unfold r. destruct Hs as [->|Hs].
    - destruct kts as [|t' kts]; [by rewrite bool_decide_true by constructor|].
      rewrite bool_decide_false; [done|by inversion 1].
    - assert (sts <> []) by by intros ->.
      destruct sts as [|t' sts]; [done|].
      destruct kts as [|tk' kts].
      { rewrite bool_decide_false; [done|by inversion 1]. }
      rewrite matchLiteral_char by done. destruct Hk as [?|Hk]; [done|].
      rewrite Ascii.eqb_refl. by apply IH. }
  rewrite Hj.
  apply token_ok_inv in Hst as [(Hne & Hp & Hkey)|[(-> & Hkey)|(-> & Hkey & Hlast)]].
  - rewrite matchLiteral_token; [|done..|unfold r; destruct sts; eauto].
    rewrite Hr, fmap_cons, Hkey.
    destruct (String.eqb_spec t tk) as [->|Hneq]; simpl.
    + apply bool_decide_ext. split; [by constructor|by inversion 1].
    + rewrite bool_decide_false; [done|]. by inversion 1.
  - rewrite append_char, append_empty_l, fmap_cons, Hkey.
    destruct (join (tk :: kts)) as [|c k] eqn:Ek; [done|].
    change (matchLiteral (skip_token (String c k)) r = bool_decide (matches (Pwc :: (key_of <$> sts)) (tk :: kts))).
    rewrite <- Ek, skip_token_join, Hr by done.
    apply bool_decide_ext. split; [by constructor|by inversion 1].
  - rewrite append_char, append_empty_l, fmap_cons, Hkey.
    destruct sts; [|done].
    destruct (join (tk :: kts)) as [|c k] eqn:Ek; [done|].
    rewrite bool_decide_true by constructor. done.
Qed.

Lemma matchLiteral_spec k subject :
  ChannelName.IsChannelNameValid k true = true ->
  ChannelName.IsChannelNameValid subject true = true ->
  matchLiteral k subject = bool_decide (matches (key_of <$> tokens subject) (tokens k)).
Proof.
  rewrite !ChannelName.IsChannelNameValid_tokens. intros Hk Hs.
  rewrite <- (join_tokens k) at 1. rewrite <- (join_tokens subject) at 1.
  apply matchLiteral_join; auto using tokens_no_sep.
Qed.
End MatchLiteralSpec.

(** ** Entries: the abstract specification of a sublist *)

Section Entries.
Context {E : Type} `{EqDecision E}.
Implicit Types (es : list (list key * E)).

Definition at_path (p : list key) (es : list (list key * E)) : list E :=
  snd <$> filter (fun x => x.1 = p) es.

(** What [Match] promises: the elements whose pattern matches. *)
Definition matching (toks : list string) (es : list (list key * E)) : list E :=
  snd <$> filter (fun x => matches x.1 toks) es.

(** Removing one entry. *)
Fixpoint remove_entry (x : list key * E) (es : list (list key * E)) : list (list key * E) :=
  match es with
  | [] => []
  | y :: es' => if decide (y = x) then es' else y :: remove_entry x es'
  end.

Lemma remove_entry_perm x es : x ∈ es -> es ≡ₚ x :: remove_entry x es.
Proof.
  induction es as [|y es IH]; [by intros ?%elem_of_nil|]. simpl. intros H.
  destruct (decide (y = x)) as [->|Hne]; [done|].
  apply elem_of_cons in H as [?|H]; [congruence|].
  rewrite Permutation_swap. by rewrite <- IH.
Qed.

Lemma at_path_app p es es' : at_path p (es ++ es') = at_path p es ++ at_path p es'.
Proof. unfold at_path. by rewrite filter_app, fmap_app. Qed.

Lemma at_path_singleton p q e : at_path p [(q, e)] = if decide (q = p) then [e] else [].
Proof. unfold at_path. rewrite filter_cons. simpl. by case_decide. Qed.

Lemma matching_app toks es es' : matching toks (es ++ es') = matching toks es ++ matching toks es'.
Proof. unfold matching. by rewrite filter_app, fmap_app. Qed.

Lemma matching_singleton toks q e :
  matching toks [(q, e)] = if decide (matches q toks) then [e] else [].
Proof. unfold matching. rewrite filter_cons. simpl. by case_decide. Qed.

#[export] Instance at_path_proper p : Proper ((≡ₚ) ==> (≡ₚ)) (at_path p).
Proof. intros es es' H. unfold at_path. by rewrite H. Qed.

#[export] Instance matching_proper toks : Proper ((≡ₚ) ==> (≡ₚ)) (matching toks).
Proof. intros es es' H. unfold matching. by rewrite H. Qed.

Lemma elem_of_at_path p e es : e ∈ at_path p es <-> (p, e) ∈ es.
Proof.
  unfold at_path. rewrite list_elem_of_fmap. split.
  - intros ([q e'] & -> & [Hq H]%list_elem_of_filter). simpl in *. by subst.
  - intros H. exists (p, e). split; [done|]. by apply list_elem_of_filter.
Qed.

(** Collecting the entries path by path over the matching patterns collects
    the matching entries. *)
Lemma bind_at_path (ps : list (list key)) es :
  NoDup ps -> (ps ≫= fun p => at_path p es) ≡ₚ snd <$> filter (fun x => x.1 ∈ ps) es.
Proof.
  intros Hnd. induction es as [|[q e] es IH].
  - unfold at_path. simpl. induction ps as [|p ps IH]; [done|]. rewrite bind_cons.
    apply NoDup_cons in Hnd as [_ Hnd]. by rewrite IH.
  - rewrite filter_cons. simpl.
    assert (Hsplit : forall p, at_path p ((q, e) :: es)
              = (if decide (q = p) then [e] else []) ++ at_path p es).
    { intros p. change ((q, e) :: es) with ([(q, e)] ++ es).
      by rewrite at_path_app, at_path_singleton. }
    case_decide as Hin.
    + apply list_elem_of_split in Hin as (ps1 & ps2 & ->).
      apply NoDup_app in Hnd as (Hnd1 & Hdisj & Hnd2).
      apply NoDup_cons in Hnd2 as [Hnq Hnd2].
      rewrite fmap_cons. simpl. rewrite <- IH.
      rewrite !bind_app, !bind_cons, Hsplit. rewrite decide_True by done.
      assert (Hoff : forall ps', q ∉ ps' ->
                ps' ≫= (fun p => at_path p ((q, e) :: es)) = ps' ≫= (fun p => at_path p es)).
      { intros ps' Hq. apply Forall_bind_ext, Forall_forall. intros p Hp.
        rewrite Hsplit, decide_False; [done|]. by intros ->. }
      rewrite !Hoff; [|done|intros ?; eapply Hdisj; [done|apply elem_of_cons; by left]].
      simpl. symmetry. apply Permutation_middle.
    + rewrite <- IH. apply reflexive_eq. apply Forall_bind_ext, Forall_forall.
      intros p Hp. rewrite Hsplit, decide_False; [done|]. by intros ->.
Qed.

Lemma matching_patterns toks es :
  (patterns toks ≫= fun p => at_path p es) ≡ₚ matching toks es.
Proof.
  rewrite bind_at_path by apply NoDup_patterns.
  apply reflexive_eq. unfold matching. f_equal.
  apply list_filter_iff. intros x. apply elem_of_patterns.
Qed.
End Entries.

(** *** Remove *)

Section RemoveFacts.
Context {E : Type} `{EqDecision E}.
Implicit Types (l : level E).

Lemma removeFromList_Some (e : E) (l l' : list E) : removeFromList e l = Some l' -> l ≡ₚ e :: l'.
Proof.
  revert l'. induction l as [|x xs IH]; [done|]. simpl. intros l'.
  destruct (decide (x = e)) as [->|Hne].
  - intros [= <-]. destruct xs as [|y ys] using rev_ind; [done|].
    rewrite last_snoc, length_app, Nat.add_sub, take_app_length. simpl.
    apply perm_skip. by rewrite (comm (++)). 
  - destruct (removeFromList e xs) as [xs'|]; [|done]. intros [= <-].
    rewrite (IH xs') by done. apply Permutation_swap.
Qed.

Lemma removeFromList_None (e : E) (l : list E) : removeFromList e l = None <-> e ∉ l.
Proof.
  induction l as [|x xs IH]; simpl; [set_solver|].
  destruct (decide (x = e)) as [->|Hne]; [set_solver|].
  destruct (removeFromList e xs); set_solver.
Qed.

(** Removal touches only the elements of its own path, and pruning the empty
    nodes on the way back changes no path. *)
Lemma remove_tokens_inl l toks sfwc e l' :
  remove_tokens (Some l) toks sfwc e = inl l' ->
  exists els, removeFromList e (elems_at (Some l) (key_of <$> toks)) = Some els /\
    forall q, elems_at (Some l') q
              = if decide (q = key_of <$> toks) then els else elems_at (Some l) q.
Proof.
  revert l sfwc l'. induction toks as [|t ts IH]; intros l sfwc l'; [done|].
  cbn [remove_tokens]. destruct (_ || _); [done|].
  destruct ts as [|t' ts].
  - destruct (child l (key_of t)) as [n|] eqn:Hn; [|done].
    destruct (removeFromList e (elements n)) as [els|] eqn:Hr; [|done].
    intros [= <-]. exists els. split.
    { simpl. by rewrite Hn. }
    intros q. rewrite elems_at_put. destruct q as [|k q]; [done|]. simpl.
    case_decide as Hk.
    + subst k. destruct q as [|k' q]; [by rewrite decide_True|].
      rewrite decide_False by done. by rewrite Hn.
    + rewrite decide_False by congruence. done.
  - destruct (child l (key_of t)) as [n|] eqn:Hn.
    2:{ cbn [remove_tokens]. by destruct (_ || _). }
    destruct (remove_tokens (next n) (t' :: ts) _ e) as [nx|] eqn:Hrec; [|done].
    intros [= <-]. destruct (next n) as [ln|] eqn:Hnx.
    2:{ cbn [remove_tokens] in Hrec. by destruct (_ || _). }
    apply IH in Hrec as (els & Hr & Hq). exists els. split.
    { rewrite !fmap_cons in *. rewrite (elems_at_cons _ _ n), Hnx by done. done. }
    intros q. rewrite elems_at_put. destruct q as [|k q]; [done|].
    destruct (decide (key_of t = k)) as [<-|Hk].
    + rewrite (elems_at_cons _ _ n) by done. cbn [elements next]. rewrite Hnx.
      destruct q as [|k' q]; [by rewrite decide_False by done|].
      rewrite Hq. apply decide_ext. rewrite !fmap_cons. split; congruence.
    + rewrite decide_False by (rewrite !fmap_cons; congruence). done.
Qed.

(** On an accepted subject the only failure is that the element is not
    there. *)
Lemma remove_tokens_inr (o : option (level E)) toks sfwc e err :
  toks <> [] -> sfwc = false -> accepted toks = true ->
  remove_tokens o toks sfwc e = inr err ->
  err = ErrNotFound /\ e ∉ elems_at o (key_of <$> toks).
Proof.
  revert o sfwc. induction toks as [|t ts IH]; intros o sfwc Hne -> Hacc; [done|]; clear Hne.
  cbn [remove_tokens accepted] in *.
  apply andb_prop in Hacc as [Hacc Hts]. apply andb_prop in Hacc as [Ht Hfwc].
  apply negb_true_iff in Ht. rewrite Ht. simpl orb. cbv iota.
  destruct o as [l|].
  2:{ intros [= <-]. rewrite elems_at_None. set_solver. }
  destruct ts as [|t' ts].
  - simpl. destruct (child l (key_of t)) as [n|] eqn:Hn.
    + destruct (removeFromList e (elements n)) eqn:Hr; [done|]. intros [= <-].
      by apply removeFromList_None in Hr.
    + intros [= <-]. set_solver.
  - apply negb_true_iff in Hfwc. rewrite Hfwc.
    rewrite fmap_cons. destruct (child l (key_of t)) as [n|] eqn:Hn.
    + rewrite (elems_at_cons _ _ n) by done.
      destruct (remove_tokens (next n) (t' :: ts) false e) as [nx|err'] eqn:Hrec; [done|].
      intros [= <-]. by apply IH in Hrec.
    + intros Hrec. apply IH in Hrec as [-> _]; [|done..].
      rewrite elems_at_cons_None by done. set_solver.
Qed.

Lemma remove_tokens_rejected (o : option (level E)) toks sfwc e :
  toks <> [] -> sfwc || negb (accepted toks) = true ->
  exists err, remove_tokens o toks sfwc e = inr err.
Proof.
  revert o sfwc. induction toks as [|t ts IH]; intros o sfwc Hne Hrej; [done|]; clear Hne.
  cbn [remove_tokens accepted] in *.
  destruct (String.eqb t "") eqn:Ht, sfwc; simpl; eauto. simpl in Hrej.
  destruct o as [l|]; [|eauto].
  destruct ts as [|t' ts]; [done|].
  assert (Hrec : forall o, exists err, remove_tokens o (t' :: ts) (bool_decide (key_of t = Fwc)) e = inr err).
  { intros o. apply IH; [done|]. by destruct (bool_decide (key_of t = Fwc)). }
  destruct (child l (key_of t)) as [n|]; [|apply Hrec].
  destruct (Hrec (next n)) as [err ->]. eauto.
Qed.
End RemoveFacts.

(** ** Refinement: the trie and its cache implement the list of entries *)

Section Refinement.
Context {E : Type} `{EqDecision E} `{!RangeOrder string}.
Implicit Types (s : Sublist E) (es : list (list key * E)).

Definition path (subject : string) : list key := key_of <$> tokens subject.
Definition valid (subject : string) : Prop :=
  ChannelName.IsChannelNameValid subject true = true.

(** The trie holds the entries, every cached result is what a fresh match
    would give (up to order), and the count is the number of entries. *)
Record refines (s : Sublist E) (es : list (list key * E)) : Prop := {
  refines_trie p : elems_at (Some (root s)) p ≡ₚ at_path p es;
  refines_cache k r :
    cache s !! k = Some r -> valid k /\ r ≡ₚ matching (tokens k) es;
  refines_count : count s = u32 (Z.of_nat (length es))
}.

Lemma valid_accepted subject : valid subject -> accepted (tokens subject) = true.
Proof.
  unfold valid. rewrite ChannelName.IsChannelNameValid_tokens.
  generalize (tokens subject). intros ts.
  induction ts as [|t ts IH]; [done|]. intros H.
  apply tokens_ok_head in H as [Ht Hts]. cbn [accepted].
  apply andb_true_iff. split; [|by destruct Hts as [->|?]; auto].
  apply token_ok_inv in Ht as [(Hne & _ & Hk)|[(-> & Hk)|(-> & Hk & Hl)]].
  - apply String.eqb_neq in Hne. rewrite Hne, Hk. by destruct ts.
  - by destruct ts.
  - by destruct ts.
Qed.

Lemma NewSublist_refines : refines NewSublist [].
Proof.
  constructor; [|done|done]. intros p. simpl. by rewrite elems_at_newLevel.
Qed.

(** A fresh computation over the trie gives the matching entries. *)
Lemma matchLevel_refines s es toks :
  refines s es -> toks <> [] ->
  matchLevel (Some (root s)) toks ≡ₚ matching toks es.
Proof.
  intros Hr Hne. rewrite matchLevel_patterns, <- matching_patterns by done.
  induction (patterns toks) as [|p ps IH]; [done|]. rewrite !bind_cons, IH.
  by rewrite (refines_trie _ _ Hr).
Qed.

Lemma refines_trie_insert l es subject e :
  valid subject ->
  (forall p, elems_at (Some l) p ≡ₚ at_path p es) ->
  forall p, elems_at (Some (insert_tokens l (tokens subject) false e).1) p
            ≡ₚ at_path p (es ++ [(path subject, e)]).
Proof.
  intros Hv H p. rewrite elems_at_insert by apply tokens_nonempty.
  rewrite valid_accepted, at_path_app, at_path_singleton, H by done. simpl.
  unfold path. case_bool_decide; case_decide; first [done|congruence].
Qed.

Lemma Insert_refines s es subject e :
  refines s es -> valid subject ->
  (Insert s subject e).2 = None /\
  refines (Insert s subject e).1 (es ++ [(path subject, e)]).
Proof.
  intros [Ht Hc Hn] Hv. unfold Insert.
  pose proof (insert_tokens_err (root s) (tokens subject) false e (tokens_nonempty _)) as Herr.
  rewrite valid_accepted in Herr by done. simpl in Herr.
  pose proof (refines_trie_insert (root s) es subject e Hv Ht) as Htrie.
  destruct (insert_tokens _ _ _ _) as [l err]. simpl in Herr. subst err.
  split; [done|]. constructor; simpl; [done| |].
  - intros k r. unfold addToCache. rewrite map_lookup_imap.
    destruct (cache s !! k) as [r0|] eqn:Hk; [|done]. simpl. intros [= <-].
    apply Hc in Hk as [Hvk Hr0]. split; [done|].
    rewrite matchLiteral_spec, matching_app, matching_singleton by done.
    unfold path. case_bool_decide; case_decide; try done; rewrite Hr0, ?app_nil_r; done.
  - rewrite Hn, length_app, u32_add_l. f_equal. simpl. lia.
Qed.

Lemma refines_perm s es es' : es ≡ₚ es' -> refines s es -> refines s es'.
Proof.
  intros Hp [Ht Hc Hn]. constructor.
  - intros p. by rewrite <- Hp.
  - intros k r Hk. apply Hc in Hk as [? Hr]. split; [done|]. by rewrite <- Hp.
  - by rewrite <- Hp.
Qed.

Lemma Remove_refines_found s es subject e :
  refines s ((path subject, e) :: es) -> valid subject ->
  (Remove s subject e).2 = None /\ refines (Remove s subject e).1 es.
Proof.
  intros [Ht Hc Hn] Hv. unfold Remove.
  assert (Hin : e ∈ elems_at (Some (root s)) (path subject)).
  { rewrite Ht, elem_of_at_path. by left. }
  destruct (remove_tokens (Some (root s)) (tokens subject) false e) as [l|err] eqn:Hrem.
  2:{ apply remove_tokens_inr in Hrem as [_ ?];
        [done|apply tokens_nonempty|done|by apply valid_accepted]. }
  apply remove_tokens_inl in Hrem as (els & Hels & Hl).
  apply removeFromList_Some in Hels.
  split; [done|]. constructor; simpl.
  - intros p. rewrite Hl. fold (path subject) in *. case_decide as Hp; subst.
    + specialize (Ht (path subject)). rewrite Hels in Ht.
      change ((path subject, e) :: es) with ([(path subject, e)] ++ es) in Ht.
      rewrite at_path_app, at_path_singleton, decide_True in Ht by done.
      by apply Permutation_cons_inv in Ht.
    + rewrite Ht. change ((path subject, e) :: es) with ([(path subject, e)] ++ es).
      by rewrite at_path_app, at_path_singleton, decide_False.
  - intros k r Hk. unfold removeFromCache in Hk.
    apply map_lookup_filter_Some in Hk as [Hk Hm]. simpl in Hm.
    apply Hc in Hk as [Hvk Hr]. split; [done|]. rewrite Hr.
    change ((path subject, e) :: es) with ([(path subject, e)] ++ es).
    rewrite matchLiteral_spec in Hm by done. apply bool_decide_eq_false in Hm.
    by rewrite matching_app, matching_singleton, decide_False.
  - rewrite Hn, u32_sub_l. f_equal. simpl. lia.
Qed.

(** Removing an entry that is not there changes nothing. *)
Lemma Remove_refines_absent s es subject e :
  refines s es -> valid subject -> (path subject, e) ∉ es ->
  Remove s subject e = (s, Some ErrNotFound).
Proof.
  intros [Ht _ _] Hv Hin. unfold Remove.
  destruct (remove_tokens (Some (root s)) (tokens subject) false e) as [l|err] eqn:Hrem.
  - apply remove_tokens_inl in Hrem as (els & Hels & _).
    apply removeFromList_Some in Hels. exfalso. apply Hin, elem_of_at_path.
    fold (path subject) in Hels. rewrite <- Ht, Hels. by left.
  - apply remove_tokens_inr in Hrem as [-> _];
      [done|apply tokens_nonempty|done|by apply valid_accepted].
Qed.

Lemma Match_refines s es subject :
  refines s es -> valid subject ->
  (Match s subject).1 ≡ₚ matching (tokens subject) es /\ refines (Match s subject).2 es.
Proof.
  intros Hr Hv. unfold Match. destruct (cache s !! subject) as [rc|] eqn:Hk.
  - split; [|done]. by apply (refines_cache _ _ Hr) in Hk as [_ ?].
  - pose proof (matchLevel_refines s es (tokens subject) Hr (tokens_nonempty _)) as Hm.
    split; [done|]. destruct Hr as [Ht Hc Hn]. constructor; [done| |done]. simpl.
    assert (Hins : forall k r,
              <[subject := matchLevel (Some (root s)) (tokens subject)]> (cache s) !! k = Some r ->
              valid k /\ r ≡ₚ matching (tokens k) es).
    { intros k r. rewrite lookup_insert. case_decide; [|by apply Hc].
      intros [= <-]. by subst. }
    intros k r. destruct (_ <? _)%nat; [|by apply Hins].
    destruct (range _) as [|[k' r'] rest]; [by apply Hins|].
    rewrite lookup_delete. case_decide; [done|]. by apply Hins.
Qed.

(** The cache never holds more than [slCacheMax] results. *)
Lemma Match_cache_bound s subject :
  (size (cache s) <= slCacheMax)%nat -> (size (cache (Match s subject).2) <= slCacheMax)%nat.
Proof.
  intros Hs. unfold Match. destruct (cache s !! subject) eqn:Hk; [done|]. simpl.
  set (c := <[subject := _]> (cache s)).
  assert (Hsz : size c = S (size (cache s))) by by apply map_size_insert_None.
  destruct (Nat.ltb_spec slCacheMax (size c)); [|lia].
  destruct (range c) as [|[k r] rest] eqn:Hrange.
  - pose proof (length_range c) as Hl. rewrite Hrange in Hl. simpl in Hl. lia.
  - rewrite map_size_delete_Some; [lia|]. exists r. apply elem_of_range.
    rewrite Hrange. by left.
Qed.
End Refinement.

(** ** Sequences of operations *)

Section Traces.
Context {E : Type} `{EqDecision E} `{!RangeOrder string}.

Inductive op := OpInsert (subject : string) (e : E)
              | OpRemove (subject : string) (e : E)
              | OpMatch (subject : string).

Definition op_subject (o : op) : string :=
  match o with OpInsert x _ => x | OpRemove x _ => x | OpMatch x => x end.

Definition step (s : Sublist E) (o : op) : Sublist E :=
  match o with
  | OpInsert x e => (Insert s x e).1
  | OpRemove x e => (Remove s x e).1
  | OpMatch x => (Match s x).2
  end.

Definition spec_step (es : list (list key * E)) (o : op) : list (list key * E) :=
  match o with
  | OpInsert x e => es ++ [(path x, e)]
  | OpRemove x e => remove_entry (path x, e) es
  | OpMatch _ => es
  end.

Lemma remove_entry_absent (x : list key * E) es : x ∉ es -> remove_entry x es = es.
Proof.
  induction es as [|y es IH]; [done|]. simpl. rewrite not_elem_of_cons. intros [Hne Hin].
  rewrite decide_False by congruence. by rewrite IH.
Qed.

Lemma step_refines s es o :
  refines s es -> valid (op_subject o) -> refines (step s o) (spec_step es o).
Proof.
  intros Hr Hv. destruct o as [x e|x e|x]; simpl in *.
  - by apply Insert_refines.
  - destruct (decide ((path x, e) ∈ es)) as [Hin|Hin].
    + apply Remove_refines_found; [|done].
      eapply refines_perm; [by apply remove_entry_perm|done].
    + rewrite remove_entry_absent by done. by rewrite (Remove_refines_absent s es).
  - by apply Match_refines.
Qed.

Lemma run_refines ops :
  Forall (fun o => valid (op_subject o)) ops ->
  refines (foldl step NewSublist ops) (foldl spec_step [] ops).
Proof.
  cut (forall s es, refines s es -> Forall (fun o => valid (op_subject o)) ops ->
         refines (foldl step s ops) (foldl spec_step es ops)).
  { intros H. apply H, NewSublist_refines. }
  induction ops as [|o ops IH]; intros s es Hr Hall; [done|].
  inversion Hall; subst. simpl. apply IH; [by apply step_refines|done].
Qed.

(** [C4] After any sequence of insertions, removals and matches on well
    formed subjects, whatever the cache holds, a match on a subject returns
    (up to order) exactly the elements of the entries whose pattern matches
    the subject. *)
Theorem Match_correct ops subject :
  Forall (fun o => valid (op_subject o)) ops -> valid subject ->
  (Match (foldl step NewSublist ops) subject).1
  ≡ₚ matching (tokens subject) (foldl spec_step [] ops).
Proof.
  intros Hops Hv. apply Match_refines; [by apply run_refines|done].
Qed.
End Traces.

(** A sequence with wildcards, a cached result that later operations update
    and invalidate, and a removal. *)
Definition sample_ops : list (@op nat) :=
  [ OpInsert "foo.*" 1; OpInsert "foo.bar" 2; OpMatch "foo.bar"; OpInsert ">" 3;
    OpMatch "foo.bar"; OpRemove "foo.*" 1; OpInsert "foo.>" 4; OpInsert "bar" 5 ].

Lemma Match_correct_witness :
  (@Match nat (default_order string)
     (foldl (@step nat _ (default_order string)) NewSublist sample_ops) "foo.bar").1
  ≡ₚ [2; 3; 4].
Proof.
  assert (H := @Match_correct nat _ (default_order string) sample_ops "foo.bar"
                 ltac:(repeat constructor) ltac:(reflexivity)).
  exact H.
Defined.
