(* ===== verification/SublistOrder.v ===== *)
(** * Order and enumeration in the subject trie ([src/util/sublist.go])

    [Match] returns wider subjects before narrower ones, and [Subjects]
    enumerates the stored subjects; the store limits rely on both. *)

From Stdlib Require Import ZArith Lia Ascii String.
From stdpp Require Import base list gmap strings sorting.
From S2P Require Import Prelude Subject Util Sublist.

(** ** Width of patterns *)

(** [covers p q]: every literal subject that [q] matches, [p] matches. *)
Definition covers (p q : list key) : Prop := forall toks, matches q toks -> matches p toks.

Section Width.

Lemma matches_cons_inv k p t ts :
  k <> Fwc -> matches (k :: p) (t :: ts) -> matches p ts /\ (k = Pwc \/ k = Lit t).
Proof. intros Hk H. inversion H; subst; auto. done. Qed.

Lemma covers_fwc_only k p : k <> Fwc -> ~ covers (k :: p) [Fwc].
Proof.
  intros Hk H.
  destruct (matches_cons_inv k p "a" [] Hk) as [H1 _]; [apply H; constructor|].
  destruct (matches_cons_inv k p "a" ["a"%string] Hk) as [H2 _]; [apply H; constructor|].
  inversion H1; subst. inversion H2.
Qed.

Lemma covers_lit_pwc t p q : (exists toks, matches q toks) -> ~ covers (Lit t :: p) (Pwc :: q).
Proof.
  intros [toks Hq] H.
  assert (Hfresh : exists x, x <> t).
  { destruct (decide (t = EmptyString)) as [->|Hne]; [by exists "a"%string|by exists EmptyString]. }
  destruct Hfresh as [x Hx].
  specialize (H (x :: toks) (matches_pwc _ _ _ Hq)). inversion H; subst. done.
Qed.

Lemma covers_cons_inv k p q : k <> Fwc -> covers (k :: p) (k :: q) -> covers p q.
Proof.
  intros Hk H toks Hq.
  destruct k as [| |t]; [|done|].
  - specialize (H ("a"%string :: toks) (matches_pwc _ _ _ Hq)). by inversion H; subst.
  - specialize (H (t :: toks) (matches_lit _ _ _ Hq)). by inversion H; subst.
Qed.

(** In the order of the trie, no pattern comes before a wider one. *)
Lemma patterns_sorted toks i j p q :
  patterns toks !! i = Some p -> patterns toks !! j = Some q -> (i < j)%nat -> ~ covers q p.
Proof.
  revert i j p q. induction toks as [|t ts IH]; intros i j p q Hi Hj Hij.
  - simpl in *. destruct j; [lia|done].
  - simpl in *. destruct j as [|j]; [lia|].
    assert (Hsat : forall k r, patterns ts !! k = Some r -> exists toks, matches r toks).
    { intros k r Hr. exists ts. apply elem_of_patterns. by eapply list_elem_of_lookup_2. }
    simpl in Hj. destruct i as [|i]; simpl in Hi.
    + injection Hi as <-.
      apply lookup_app_Some in Hj as [Hj|[_ Hj]];
        rewrite list_lookup_fmap in Hj; apply fmap_Some in Hj as (q' & _ & ->);
        by apply covers_fwc_only.
    + apply lookup_app_Some in Hi as [Hi|[Hle Hi]], Hj as [Hj|[Hle' Hj]];
        rewrite list_lookup_fmap in Hi, Hj;
        apply fmap_Some in Hi as (p' & Hi & ->); apply fmap_Some in Hj as (q' & Hj & ->).
      * intros Hc. apply covers_cons_inv in Hc; [|done]. eapply IH; [exact Hi|exact Hj|lia|done].
      * apply covers_lit_pwc. eauto.
      * apply lookup_lt_Some in Hj. rewrite length_fmap in Hle. lia.
      * intros Hc. apply covers_cons_inv in Hc; [|done]. eapply IH; [exact Hi|exact Hj|lia|done].
Qed.
End Width.

Section LastMatch.
Context {E : Type} `{EqDecision E}.
Implicit Types (l : level E).

(** The last element of a concatenation comes from the last list that is not
    empty. *)
Lemma bind_last {A B} (f : A -> list B) (xs : list A) e :
  last (xs ≫= f) = Some e ->
  exists i x, xs !! i = Some x /\ e ∈ f x /\
    forall j y, xs !! j = Some y -> f y <> [] -> (j <= i)%nat.
Proof.
  induction xs as [|x xs IH]; [done|]. rewrite bind_cons, last_app.
  destruct (last (xs ≫= f)) as [e'|] eqn:Hl.
  - intros [= <-]. destruct (IH eq_refl) as (i & y & Hi & He & Hmax).
    exists (S i), y. split_and!; [done|done|]. intros [|j] y' Hj Hy; [lia|].
    simpl in Hj. specialize (Hmax j y' Hj Hy). lia.
  - intros He. exists 0, x. split_and!; [done|by apply last_Some_elem_of|].
    intros [|j] y Hj Hy; [lia|]. exfalso. simpl in Hj.
    apply last_None in Hl. apply list_elem_of_lookup_2 in Hj.
    apply Hy. destruct (f y) as [|b bs] eqn:Hf; [done|exfalso].
    assert (b ∈ xs ≫= f) as Hb. { apply list_elem_of_bind. exists y. rewrite Hf. split; [by left|done]. }
    rewrite Hl in Hb. by apply elem_of_nil in Hb.
Qed.

(** The order in a concatenation of lists of length at most one. *)
Lemma bind_before {A B} (f : A -> list B) (xs : list A) r1 c r2 b :
  (forall x, (length (f x) <= 1)%nat) -> xs ≫= f = r1 ++ c :: r2 -> b ∈ r1 ->
  exists i j x y, (i < j)%nat /\ xs !! i = Some x /\ xs !! j = Some y /\ b ∈ f x /\ c ∈ f y.
Proof.
  intros Hf. revert r1. induction xs as [|x xs IH]; intros r1 Heq Hb.
  { apply (f_equal length) in Heq. rewrite length_app in Heq. simpl in Heq. lia. }
  rewrite bind_cons in Heq.
  destruct (f x) as [|b0 [|]] eqn:Hfx; [| |specialize (Hf x); rewrite Hfx in Hf; simpl in Hf; lia].
  - destruct (IH r1 Heq Hb) as (i & j & y & z & ? & ? & ? & ? & ?).
    exists (S i), (S j), y, z. split_and!; try done. lia.
  - destruct r1 as [|b1 r1]; [by apply elem_of_nil in Hb|]. injection Heq as <- Heq.
    apply elem_of_cons in Hb as [->|Hb].
    + assert (Hc : c ∈ xs ≫= f) by (rewrite Heq; set_solver).
      apply list_elem_of_bind in Hc as (z & Hz & Hin).
      apply list_elem_of_lookup in Hin as [j Hj].
      exists 0%nat, (S j), x, z. split_and!; try done; [lia|]. rewrite Hfx. by left.
    + destruct (IH r1 Heq Hb) as (i & j & y & z & ? & ? & ? & ? & ?).
      exists (S i), (S j), y, z. split_and!; try done. lia.
Qed.

(** The last element that a match on the trie returns is stored under a
    matching pattern that is as narrow as possible: every other stored
    pattern that matches the subject and is covered by it is that same
    pattern.  This is what [getChannelLimits] relies on when it takes the
    last result. *)
Theorem matchLevel_last_narrowest l toks e :
  toks <> [] -> last (matchLevel (Some l) toks) = Some e ->
  exists p, matches p toks /\ e ∈ elems_at (Some l) p /\
    forall q, matches q toks -> elems_at (Some l) q <> [] -> covers p q -> q = p.
Proof.
  intros Hne. rewrite matchLevel_patterns by done. intros Hl.
  apply bind_last in Hl as (i & p & Hi & He & Hmax).
  exists p. split_and!.
  - apply elem_of_patterns. by eapply list_elem_of_lookup_2.
  - done.
  - intros q Hq Hels Hc. apply elem_of_patterns, list_elem_of_lookup in Hq as [j Hj].
    specialize (Hmax j q Hj Hels). destruct (decide (j = i)) as [->|Hji]; [congruence|].
    exfalso. eapply (patterns_sorted toks j i); [done|done|lia|done].
Qed.
End LastMatch.

(** ** Enumeration *)

Section Enumeration.
Context {E : Type} `{EqDecision E} `{!RangeOrder string}.

(** [subject + tsep + tok], or [tok] at the root. *)
Definition sub_subject (subject tok : string) : string :=
  if String.eqb subject "" then tok else (subject ++ tsep ++ tok)%string.

(** [getSubjects l subject]: what the call appends to the result. *)
Fixpoint getSubjects (l : level E) : string -> list string :=
  match l with
  | Level nodes p f =>
      fun subject =>
      if Nat.eqb (numNodes l) 0 then []
      else
        (match f with Some _ => [sub_subject subject ">"] | None => [] end)
        ++ (match p with
            | Some (Node nx els) =>
                let fs := sub_subject subject "*" in
                (match els with [] => [] | _ => [fs] end)
                ++ (match nx with Some l' => getSubjects l' fs | None => [] end)
            | None => []
            end)
        ++ (range ((fun n => match n with
                             | Node nx els =>
                                 (els, match nx with
                                       | Some l' => getSubjects l'
                                       | None => fun _ => []
                                       end)
                             end) <$> nodes)
            ≫= fun '(t, (els, sub)) =>
                 let fs := sub_subject subject t in
                 (match els with [] => [] | _ => [fs] end) ++ sub fs)
  end.

Definition Subjects (s : Sublist E) : list string := getSubjects (root s) "".

(** [visitLevel l depth].  The loop over the nodes computes a maximum, which
    does not depend on the order. *)
Fixpoint visitLevel (l : level E) : nat -> nat :=
  match l with
  | Level nodes p f =>
      fun depth =>
      if Nat.eqb (numNodes l) 0 then depth
      else
        let depth := S depth in
        let visit (n : node E) :=
          match n with
          | Node (Some l') _ => visitLevel l' depth
          | Node None _ => depth
          end in
        let maxDepth := map_fold (fun _ n m => Nat.max m (visit n)) depth nodes in
        let maxDepth := match p with Some n => Nat.max maxDepth (visit n) | None => maxDepth end in
        match f with Some n => Nat.max maxDepth (visit n) | None => maxDepth end
  end.

Definition NumLevels (s : Sublist E) : nat := visitLevel (root s) 0.

(** *** The tries that insertions build *)

Definition lit_ok (t : string) : Prop := key_of t = Lit t /\ t <> EmptyString.

(** Literal branches carry literal tokens, and a [>] node is a leaf with at
    least one element. *)
Inductive wf_level : level E -> Prop :=
| wf_Level nodes p f :
    (forall t n l, nodes !! t = Some n -> next n = Some l -> wf_level l) ->
    (forall n l, p = Some n -> next n = Some l -> wf_level l) ->
    (forall t n, nodes !! t = Some n -> lit_ok t) ->
    (forall n, f = Some n -> elements n <> [] /\ forall l, next n = Some l -> numNodes l = 0) ->
    wf_level (Level nodes p f).

Lemma wf_newLevel : wf_level newLevel.
Proof. constructor; done. Qed.

Lemma key_of_lit_ok t : t <> EmptyString -> forall t', key_of t = Lit t' -> t' = t /\ lit_ok t.
Proof.
  unfold lit_ok, key_of. intros Hne t'.
  destruct t as [|c t]; [done|].
  destruct (Ascii.eqb c pwc); [done|]. destruct (Ascii.eqb c fwc); [done|].
  intros [= <-]. done.
Qed.

Lemma wf_child l k n l' :
  wf_level l -> k <> Fwc -> child l k = Some n -> next n = Some l' -> wf_level l'.
Proof. intros Hwf Hk. inversion Hwf; subst. destruct k; simpl; eauto. done. Qed.

(** Insertion on an accepted subject keeps the trie well formed. *)
Lemma insert_tokens_wf l toks e :
  wf_level l -> accepted toks = true -> wf_level (insert_tokens l toks false e).1.
Proof.
  revert l. induction toks as [|t ts IH]; intros l Hwf Hacc; [done|].
  cbn [accepted insert_tokens] in Hacc |- *.
  apply andb_prop in Hacc as [Hacc Hts]. apply andb_prop in Hacc as [Ht Hfwc].
  apply negb_true_iff in Ht. rewrite Ht. simpl orb. cbv iota.
  apply String.eqb_neq in Ht.
  set (n := default newNode (child l (key_of t))).
  destruct ts as [|t' ts].
  - simpl. inversion Hwf as [nodes p f H1 H2 H3 H4]; subst.
    assert (Hnx : key_of t <> Fwc -> wf_level (default newLevel (next n))).
    { intros Hk. unfold n. destruct (child _ (key_of t)) as [n0|] eqn:Hn0; simpl; [|apply wf_newLevel].
      destruct (next n0) as [l'|] eqn:Hl'; simpl; [|apply wf_newLevel].
      by eapply wf_child. }
    destruct (key_of t) as [| |t0] eqn:Hk; simpl; constructor; try done.
    + intros n' l' [= <-]. simpl. intros [= <-]. by apply Hnx.
    + intros n' [= <-]. simpl. split; [by destruct (elements n)|]. intros l' [= <-].
      unfold n. simpl. destruct f as [n0|]; simpl; [|done].
      destruct (next n0) as [l'|] eqn:Hl'; simpl; [|done].
      by eapply H4.
    + intros t1 n1 l1. rewrite lookup_insert. destruct (decide (t0 = t1)); [|by apply H1].
      intros [= <-]. simpl. intros [= <-]. by apply Hnx.
    + intros t1 n1. rewrite lookup_insert. destruct (decide (t0 = t1)); [|by apply H3].
      intros _. subst. by apply key_of_lit_ok in Hk as [-> ?].
  - apply negb_true_iff in Hfwc. rewrite Hfwc. apply bool_decide_eq_false in Hfwc.
    assert (Hrec : wf_level (insert_tokens (default newLevel (next n)) (t' :: ts) false e).1).
    { apply IH; [|done]. unfold n.
      destruct (child l (key_of t)) as [n0|] eqn:Hn0; simpl; [|apply wf_newLevel].
      destruct (next n0) as [l'|] eqn:Hl'; simpl; [|apply wf_newLevel].
      by eapply wf_child. }
    destruct (insert_tokens (default newLevel (next n)) (t' :: ts) false e) as [nx' err].
    simpl in *. inversion Hwf as [nodes p f H1 H2 H3 H4]; subst.
    destruct (key_of t) as [| |t0] eqn:Hk; simpl; [|done|]; constructor; try done.
    + intros n' l' [= <-]. simpl. by intros [= <-].
    + intros t1 n1 l1. rewrite lookup_insert. destruct (decide (t0 = t1)); [|by apply H1].
      intros [= <-]. simpl. by intros [= <-].
    + intros t1 n1. rewrite lookup_insert. destruct (decide (t0 = t1)); [|by apply H3].
      intros _. subst. by apply key_of_lit_ok in Hk as [-> ?].
Qed.

Definition key_str (k : key) : string :=
  match k with Pwc => "*" | Fwc => ">" | Lit t => t end.

Definition render (subject : string) (q : list key) : string :=
  foldl (fun acc k => sub_subject acc (key_str k)) subject q.

Lemma child_numNodes (l : level E) k n : child l k = Some n -> numNodes l <> 0.
Proof. intros Hk H0. by rewrite numNodes_0 in Hk. Qed.
End Enumeration.

(** ** The order of the enumeration *)

Section SubjectsOrder.
Context {E : Type} `{EqDecision E} `{!RangeOrder string}.

(** The paths that [getSubjects] visits, in its order. *)
Fixpoint level_paths (l : level E) : list (list key) :=
  match l with
  | Level nodes p f =>
      (match f with Some _ => [[Fwc]] | None => [] end)
      ++ (match p with
          | Some (Node nx els) =>
              (match els with [] => [] | _ => [[Pwc]] end)
              ++ (cons Pwc <$> match nx with Some l' => level_paths l' | None => [] end)
          | None => []
          end)
      ++ (range ((fun n => match n with
                           | Node nx els =>
                               (els, match nx with Some l' => level_paths l' | None => [] end)
                           end) <$> nodes)
          ≫= fun '(t, (els, sub)) =>
               (match els with [] => [] | _ => [[Lit t]] end) ++ (cons (Lit t) <$> sub))
  end.

Lemma level_paths_empty l : numNodes l = 0 -> level_paths l = [].
Proof.
  intros H. pose proof (numNodes_0 l H) as Hc. destruct l as [nodes p f].
  rewrite (Hc Fwc : f = None), (Hc Pwc : p = None).
  assert (nodes = ∅) as ->.
  { apply map_empty. intros t. exact (Hc (Lit t)). }
  cbn [level_paths app]. rewrite fmap_empty.
  assert (Hr : range (∅ : gmap string (list E * list (list key))) = []).
  { apply length_zero_iff_nil. rewrite length_range. apply map_size_empty. }
  by rewrite Hr.
Qed.

(** The strings that [getSubjects] builds are the renderings of the paths. *)
Lemma getSubjects_paths l subject :
  wf_level l -> getSubjects l subject = render subject <$> level_paths l.
Proof.
  intros Hwf. revert subject. induction Hwf as [nodes p f H1 IH1 H2 IH2 H3 H4].
  intros subject. cbn [getSubjects].
  destruct (Nat.eqb_spec (numNodes (Level nodes p f)) 0) as [Hz|_].
  { by rewrite level_paths_empty. }
  cbn [level_paths]. rewrite !fmap_app.
  apply (f_equal2 app); [by destruct f|]. apply (f_equal2 app).
  - destruct p as [[nx els]|]; [|done]. rewrite fmap_app.
    apply (f_equal2 app); [by destruct els|].
    destruct nx as [l'|]; [|done]. rewrite <- list_fmap_compose.
    rewrite (IH2 (Node (Some l') els) l') by done. done.
  - rewrite fmap_bind, !range_fmap, !list_fmap_bind.
    apply Forall_bind_ext, Forall_forall. intros [t [nx els]] Hin.
    apply elem_of_range in Hin. simpl. rewrite fmap_app.
    apply (f_equal2 app); [by destruct els|].
    destruct nx as [l'|]; [|done]. rewrite <- list_fmap_compose.
    rewrite (IH1 t (Node (Some l') els) l') by done. done.
Qed.

(** Every enumerated path is matched by some subject. *)
Lemma level_paths_sat l q : wf_level l -> q ∈ level_paths l -> exists toks, matches q toks /\ q <> [].
Proof.
  intros Hwf. revert q. induction Hwf as [nodes p f H1 IH1 H2 IH2 H3 H4].
  intros q. cbn [level_paths]. rewrite !elem_of_app. intros [Hq|[Hq|Hq]].
  - destruct f; [|by apply elem_of_nil in Hq]. apply list_elem_of_singleton in Hq as ->.
    exists [EmptyString]. split; [constructor|done].
  - destruct p as [[nx els]|]; [|by apply elem_of_nil in Hq].
    apply elem_of_app in Hq as [Hq|Hq].
    + destruct els; [by apply elem_of_nil in Hq|]. apply list_elem_of_singleton in Hq as ->.
      exists [EmptyString]. split; [repeat constructor|done].
    + apply list_elem_of_fmap in Hq as (q' & -> & Hq).
      destruct nx as [l'|]; [|by apply elem_of_nil in Hq].
      edestruct IH2 as (toks & Hm & _); [done|done|exact Hq|].
      exists (EmptyString :: toks). split; [by constructor|done].
  - apply list_elem_of_bind in Hq as ([t [els sub]] & Hq & Hin).
    apply elem_of_range in Hin. rewrite lookup_fmap in Hin.
    apply fmap_Some in Hin as ([nx els'] & Hn & [= -> ->]).
    apply elem_of_app in Hq as [Hq|Hq].
    + destruct els'; [by apply elem_of_nil in Hq|]. apply list_elem_of_singleton in Hq as ->.
      exists [t]. split; [repeat constructor|done].
    + apply list_elem_of_fmap in Hq as (q' & -> & Hq).
      destruct nx as [l'|]; [|by apply elem_of_nil in Hq].
      edestruct IH1 as (toks & Hm & _); [done|done|exact Hq|].
      exists (t :: toks). split; [by constructor|done].
Qed.

Lemma level_paths_sound l q : wf_level l -> q ∈ level_paths l -> elems_at (Some l) q <> [].
Proof.
  intros Hwf. revert q. induction Hwf as [nodes p f H1 IH1 H2 IH2 H3 H4].
  intros q. cbn [level_paths]. rewrite !elem_of_app. intros [Hq|[Hq|Hq]].
  - destruct f as [n|]; [|by apply elem_of_nil in Hq].
    apply list_elem_of_singleton in Hq as ->. by apply H4.
  - destruct p as [[nx els]|]; [|by apply elem_of_nil in Hq].
    apply elem_of_app in Hq as [Hq|Hq].
    + destruct els; [by apply elem_of_nil in Hq|]. by apply list_elem_of_singleton in Hq as ->.
    + apply list_elem_of_fmap in Hq as (q' & -> & Hq).
      destruct nx as [l'|]; [|by apply elem_of_nil in Hq].
      eapply IH2 in Hq; [|done..]. simpl. by destruct q'.
  - apply list_elem_of_bind in Hq as ([t [els sub]] & Hq & Hin).
    apply elem_of_range in Hin. rewrite lookup_fmap in Hin.
    apply fmap_Some in Hin as ([nx els'] & Hn & [= -> ->]).
    apply elem_of_app in Hq as [Hq|Hq].
    + destruct els'; [by apply elem_of_nil in Hq|]. apply list_elem_of_singleton in Hq as ->.
      simpl. by rewrite Hn.
    + apply list_elem_of_fmap in Hq as (q' & -> & Hq).
      destruct nx as [l'|]; [|by apply elem_of_nil in Hq].
      eapply IH1 in Hq; [|done..]. simpl. rewrite Hn. by destruct q'.
Qed.

Lemma level_paths_complete l q : wf_level l -> elems_at (Some l) q <> [] -> q ∈ level_paths l.
Proof.
  revert l. induction q as [|k q IH]; intros l Hwf Hq; [done|].
  destruct l as [nodes p f]. cbn [elems_at mbind option_bind] in Hq.
  destruct (child (Level nodes p f) k) as [n|] eqn:Hk; [|done].
  cbn [level_paths]. rewrite !elem_of_app.
  inversion Hwf as [? ? ? H1 H2 H3 H4]; subst.
  destruct k as [| |t]; simpl in Hk; subst.
  - right. left. destruct n as [nx els]. rewrite elem_of_app. destruct q as [|k' q].
    + left. simpl in Hq. destruct els; [done|]. by apply list_elem_of_singleton.
    + right. destruct nx as [l'|]; [|done]. apply list_elem_of_fmap_2, IH; [by eapply H2|done].
  - left. destruct q as [|k' q]; [by apply list_elem_of_singleton|].
    exfalso. apply Hq. destruct (next n) as [l'|] eqn:Hl'; [|done].
    apply elems_at_cons_None, numNodes_0. by eapply H4.
  - right. right. apply list_elem_of_bind. destruct n as [nx els].
    eexists (t, (els, _)). split.
    2:{ apply elem_of_range. rewrite lookup_fmap, Hk. done. }
    rewrite elem_of_app. destruct q as [|k' q].
    + left. simpl in Hq. destruct els; [done|]. by apply list_elem_of_singleton.
    + right. destruct nx as [l'|]; [|done]. apply list_elem_of_fmap_2, IH; [by eapply H1|done].
Qed.

Definition not_wider (p q : list key) : Prop := ~ covers q p.

(** One branch: the node itself, then what is below it. *)
Lemma branch_sorted k (els : list E) (sub : list (list key)) :
  k <> Fwc -> (forall q, q ∈ sub -> q <> []) ->
  StronglySorted not_wider sub ->
  StronglySorted not_wider ((match els with [] => [] | _ => [[k]] end) ++ (cons k <$> sub)).
Proof.
  intros Hk Hne Hs. apply StronglySorted_app_2.
  - intros x y Hx Hy. destruct els; [by apply elem_of_nil in Hx|].
    apply list_elem_of_singleton in Hx as ->.
    apply list_elem_of_fmap in Hy as (q & -> & Hq). intros Hc.
    apply covers_cons_inv in Hc; [|done]. apply (Hne _ Hq).
    specialize (Hc [] matches_nil). by inversion Hc.
  - destruct els; repeat constructor.
  - induction Hs as [|q sub Hs IH Hall]; [constructor|].
    rewrite fmap_cons. constructor.
    + apply IH. intros q' Hq'. apply Hne. by right.
    + apply Forall_fmap. eapply Forall_impl; [exact Hall|].
      intros q' Hq' Hc. apply Hq'. by apply covers_cons_inv in Hc.
Qed.

Lemma branch_head k (els : list E) (sub : list (list key)) q :
  q ∈ (match els with [] => [] | _ => [[k]] end) ++ (cons k <$> sub) ->
  exists q', q = k :: q'.
Proof.
  rewrite elem_of_app, list_elem_of_fmap. intros [Hq|(q' & -> & _)]; [|by eauto].
  destruct els; [by apply elem_of_nil in Hq|]. apply list_elem_of_singleton in Hq. eauto.
Qed.

(** What the enumeration appends for one literal node. *)
Definition lit_paths (x : string * (list E * list (list key))) : list (list key) :=
  let '(t, (els, sub)) := x in
  (match els with [] => [] | _ => [[Lit t]] end) ++ (cons (Lit t) <$> sub).

Lemma covers_lit_ne t t' p q :
  t <> t' -> (exists toks, matches (Lit t :: q) toks) -> ~ covers (Lit t' :: p) (Lit t :: q).
Proof. intros Hne [toks Hq] H. specialize (H _ Hq). inversion Hq; subst. by inversion H. Qed.

Lemma lit_paths_sorted (xs : list (string * (list E * list (list key)))) :
  NoDup xs.*1 ->
  Forall (fun x => StronglySorted not_wider x.2.2 /\
                   forall q, q ∈ x.2.2 -> (exists toks, matches q toks) /\ q <> []) xs ->
  StronglySorted not_wider (xs ≫= lit_paths).
Proof.
  induction xs as [|[t [els sub]] xs IH]; intros Hnd Hall; [constructor|].
  rewrite bind_cons. apply NoDup_cons in Hnd as [Hnin Hnd].
  inversion Hall as [|?? [Hs Hsat] Hall']; subst. simpl in Hs, Hsat.
  apply StronglySorted_app_2; [|apply branch_sorted; naive_solver|by apply IH].
  intros x y Hx Hy. apply list_elem_of_bind in Hy as ([t' [els' sub']] & Hy & Hin).
  assert (Hne : t <> t').
  { intros ->. apply Hnin. apply list_elem_of_fmap. by exists (t', (els', sub')). }
  apply branch_head in Hy as [y' ->].
  assert (Hxs : exists toks, matches x toks).
  { apply elem_of_app in Hx as [Hx|Hx].
    - destruct els; [by apply elem_of_nil in Hx|]. apply list_elem_of_singleton in Hx as ->.
      exists [t]. repeat constructor.
    - apply list_elem_of_fmap in Hx as (q & -> & Hq). apply Hsat in Hq as [[toks Hq] _].
      exists (t :: toks). by constructor. }
  apply branch_head in Hx as [x' ->]. by apply covers_lit_ne.
Qed.

Lemma level_paths_sorted l : wf_level l -> StronglySorted not_wider (level_paths l).
Proof.
  induction 1 as [nodes p f H1 IH1 H2 IH2 H3 H4].
  assert (Hwf : wf_level (Level nodes p f)) by by constructor.
  pose proof (fun q => level_paths_sat _ q Hwf) as Hsat. cbn [level_paths] in *.
  apply StronglySorted_app_2; [|destruct f; repeat constructor|apply StronglySorted_app_2].
  - intros x y Hx Hy. destruct f; [|by apply elem_of_nil in Hx].
    apply list_elem_of_singleton in Hx as ->.
    assert (exists k y', k <> Fwc /\ y = k :: y') as (k & y' & Hk & ->).
    2:{ by apply covers_fwc_only. }
    apply elem_of_app in Hy as [Hy|Hy].
    + destruct p as [[nx els]|]; [|by apply elem_of_nil in Hy].
      apply branch_head in Hy as [y' ->]. by exists Pwc, y'.
    + apply list_elem_of_bind in Hy as ([t [els sub]] & Hy & _).
      apply branch_head in Hy as [y' ->]. by exists (Lit t), y'.
  - intros x y Hx Hy.
    destruct (Hsat x) as (toks & Hm & _); [rewrite !elem_of_app; auto|].
    destruct p as [[nx els]|]; [|by apply elem_of_nil in Hx].
    apply branch_head in Hx as [x' ->].
    apply list_elem_of_bind in Hy as ([t [els' sub]] & Hy & _).
    apply branch_head in Hy as [y' ->]. apply covers_lit_pwc.
    inversion Hm; subst. eauto.
  - destruct p as [[nx els]|]; [|constructor]. apply branch_sorted; [done| |].
    + intros q Hq. destruct nx as [l'|]; [|by apply elem_of_nil in Hq].
      by eapply level_paths_sat in Hq as (? & _ & ?); [|by eapply H2].
    + destruct nx as [l'|]; [|constructor]. by eapply IH2.
  - apply (lit_paths_sorted (range _)); [apply NoDup_range_fst|].
    apply Forall_forall. intros [t [els sub]] Hin.
    apply elem_of_range in Hin. rewrite lookup_fmap in Hin.
    apply fmap_Some in Hin as ([nx els'] & Hn & [= -> ->]). simpl.
    destruct nx as [l'|].
    + split; [by eapply IH1|]. intros q Hq.
      eapply level_paths_sat in Hq as (toks & ? & ?); [|by eapply H1]. eauto.
    + split; [constructor|]. intros q Hq. by apply elem_of_nil in Hq.
Qed.
End SubjectsOrder.

(** ** What [Subjects] returns *)

Section SubjectsSpec.
Context {E : Type} `{EqDecision E} `{!RangeOrder string}.

Lemma sub_subject_nonempty subject tok :
  subject <> EmptyString -> sub_subject subject tok = (subject ++ tsep ++ tok)%string.
Proof. intros H. unfold sub_subject. by apply String.eqb_neq in H as ->. Qed.

Lemma append_nonempty (s1 s2 : string) : s1 <> EmptyString -> (s1 ++ s2)%string <> EmptyString.
Proof. by destruct s1. Qed.

Lemma append_assoc (s1 s2 s3 : string) : ((s1 ++ s2) ++ s3 = s1 ++ (s2 ++ s3))%string.
Proof. induction s1 as [|c s1 IH]; [done|]. rewrite !append_char. by rewrite IH. Qed.

Lemma foldl_sub_subject acc ts :
  acc <> EmptyString -> foldl sub_subject acc ts = join (acc :: ts).
Proof.
  revert acc. induction ts as [|t ts IH]; intros acc Hacc; [done|].
  cbn [foldl]. rewrite sub_subject_nonempty, IH by (try apply append_nonempty; done).
  rewrite (join_cons acc) by done. destruct ts as [|t' ts]; [done|].
  rewrite !join_cons by done. unfold tsep. by rewrite !append_assoc, append_char, append_empty_l.
Qed.

Lemma key_str_ok w l t : token_ok w l t = true -> key_str (key_of t) = t.
Proof.
  intros H. assert (H' : token_ok true l t = true).
  { apply ChannelName.token_ok_true. apply ChannelName.token_ok_true in H. naive_solver. }
  apply token_ok_inv in H' as [(_ & _ & ->)|[(-> & ->)|(-> & -> & _)]]; done.
Qed.

Lemma foldl_key_str acc ts :
  Forall (fun t => key_str (key_of t) = t) ts ->
  foldl (fun acc k => sub_subject acc (key_str k)) acc (key_of <$> ts) = foldl sub_subject acc ts.
Proof.
  intros Hall. revert acc. induction Hall as [|t ts Ht Hall IH]; intros acc; [done|].
  cbn. rewrite Ht. apply IH.
Qed.

Lemma render_path x : valid x -> render "" (path x) = x.
Proof.
  unfold valid. rewrite ChannelName.IsChannelNameValid_tokens. intros Hok.
  pose proof (proj2 (proj1 (ChannelName.tokens_ok_lookup _ _) Hok)) as Hl.
  unfold render, path. rewrite foldl_key_str.
  2:{ apply Forall_lookup. intros i t Hi. by eapply key_str_ok, Hl. }
  destruct (tokens_cons x) as (t & ts & E0).
  rewrite <- (join_tokens x) at 2. rewrite E0 in *. cbn [foldl].
  change (sub_subject "" t) with t. apply foldl_sub_subject.
  intros ->. by specialize (Hl 0 EmptyString eq_refl); destruct ts.
Qed.

(** The sublist that inserting the given subjects and elements builds. *)
Definition build (xs : list (string * E)) : Sublist E :=
  foldl (fun s x => (Insert s x.1 x.2).1) NewSublist xs.

Lemma Insert_wf (s : Sublist E) subject e :
  wf_level (root s) -> valid subject -> wf_level (root (Insert s subject e).1).
Proof.
  intros Hwf Hv. unfold Insert.
  pose proof (insert_tokens_wf (root s) (tokens subject) e Hwf (valid_accepted _ Hv)) as H.
  destruct (insert_tokens _ _ _ _) as [l [err|]]; done.
Qed.

Lemma build_snoc xs x e : build (xs ++ [(x, e)]) = (Insert (build xs) x e).1.
Proof. unfold build. by rewrite foldl_app. Qed.

Lemma build_refines xs :
  Forall (fun x => valid x.1) xs ->
  refines (build xs) ((fun x => (path x.1, x.2)) <$> xs) /\ wf_level (root (build xs)).
Proof.
  induction xs as [|[x e] xs IH] using rev_ind; intros Hall.
  - split; [apply NewSublist_refines|apply wf_newLevel].
  - apply Forall_app in Hall as [Hall Hx]. inversion Hx as [|?? Hv _]; subst. simpl in Hv.
    destruct (IH Hall) as [Hr Hwf]. rewrite build_snoc, fmap_app. split.
    + by apply Insert_refines.
    + by apply Insert_wf.
Qed.

(** The paths enumerated in a built sublist are those of the subjects. *)
Lemma build_paths xs q :
  Forall (fun x => valid x.1) xs ->
  q ∈ level_paths (root (build xs)) <-> exists x, x ∈ xs.*1 /\ valid x /\ q = path x.
Proof.
  intros Hall. destruct (build_refines xs Hall) as [Hr Hwf]. split.
  - intros Hq. apply level_paths_sound in Hq; [|done].
    destruct (elems_at (Some (root (build xs))) q) as [|e es] eqn:Hel; [done|].
    assert (Hin : e ∈ at_path q ((fun x => (path x.1, x.2)) <$> xs)).
    { rewrite <- (refines_trie _ _ Hr), Hel. by left. }
    apply elem_of_at_path, list_elem_of_fmap in Hin as ([x e'] & [= -> ->] & Hin).
    exists x. split_and!; [|exact (proj1 (Forall_forall _ _) Hall _ Hin)|done].
    apply list_elem_of_fmap. by exists (x, e').
  - intros (x & Hx & _ & ->). apply list_elem_of_fmap in Hx as ([x' e] & -> & Hin). simpl.
    apply level_paths_complete; [done|]. intros Hnil.
    pose proof (refines_trie _ _ Hr (path x')) as Hp. rewrite Hnil in Hp.
    assert (He : e ∈ at_path (path x') ((fun x => (path x.1, x.2)) <$> xs)).
    { apply elem_of_at_path, list_elem_of_fmap. by exists (x', e). }
    rewrite <- Hp in He. by apply elem_of_nil in He.
Qed.

Lemma not_wider_irrefl p : ~ not_wider p p.
Proof. intros H. apply H. by intros toks Hm. Qed.

Lemma StronglySorted_irrefl_NoDup {A} (R : relation A) (l : list A) :
  (forall x, ~ R x x) -> StronglySorted R l -> NoDup l.
Proof.
  intros Hirr. induction 1 as [|x l Hs IH Hall]; [constructor|].
  constructor; [|done]. intros Hin. rewrite Forall_forall in Hall. by apply (Hirr x), Hall.
Qed.

Lemma StronglySorted_fmap_elem {A B} (R : relation A) (R' : relation B) (f : A -> B) l :
  (forall x y, x ∈ l -> y ∈ l -> R x y -> R' (f x) (f y)) ->
  StronglySorted R l -> StronglySorted R' (f <$> l).
Proof.
  intros Hf. induction 1 as [|x l Hs IH Hall]; [constructor|].
  rewrite fmap_cons. constructor.
  - apply IH. intros y z Hy Hz. apply Hf; by right.
  - apply Forall_fmap, Forall_forall. intros y Hy. apply Hf; [by left|by right|].
    by eapply Forall_forall in Hall.
Qed.

Lemma elem_of_Subjects xs x :
  Forall (fun x => valid x.1) xs -> x ∈ Subjects (build xs) <-> x ∈ xs.*1.
Proof.
  intros Hall. pose proof (build_paths xs) as Hp. destruct (build_refines xs Hall) as [Hr Hwf].
  unfold Subjects. rewrite getSubjects_paths, list_elem_of_fmap by done. split.
  - intros (q & -> & Hq). apply Hp in Hq as (y & Hy & Hv & ->); [|done]. by rewrite render_path.
  - intros Hx. exists (path x).
    assert (Hv : valid x).
    { apply list_elem_of_fmap in Hx as (y & -> & Hy).
      exact (proj1 (Forall_forall _ _) Hall _ Hy). }
    rewrite render_path by done. split; [done|]. apply Hp; eauto.
Qed.

(** The enumeration of a sublist built by insertions of well formed
    subjects lists every inserted subject, nothing else, each once, and never
    lists a subject after a narrower one. *)
Theorem Subjects_spec xs :
  Forall (fun x => valid x.1) xs ->
  (forall x, x ∈ Subjects (build xs) <-> x ∈ xs.*1) /\
  NoDup (Subjects (build xs)) /\
  StronglySorted (fun x y => ~ covers (path y) (path x)) (Subjects (build xs)).
Proof.
  intros Hall. pose proof (build_paths xs) as Hp.
  destruct (build_refines xs Hall) as [Hr Hwf].
  assert (Hs : StronglySorted (fun x y => ~ covers (path y) (path x)) (Subjects (build xs))).
  { unfold Subjects. rewrite getSubjects_paths by done.
    eapply StronglySorted_fmap_elem; [|by apply level_paths_sorted].
    intros p q Hin Hin' Hnw.
    apply Hp in Hin as (x & _ & Hx & ->); [|done]. apply Hp in Hin' as (y & _ & Hy & ->); [|done].
    by rewrite !render_path. }
  split_and!; [|eapply StronglySorted_irrefl_NoDup; [|done]|done].
  - intros x. by apply elem_of_Subjects.
  - intros x. by apply (not_wider_irrefl (path x)).
Qed.
End SubjectsSpec.

(** ** Matching in a built sublist

    The clients of a sublist in package [stores] build it once and then only
    match: the cache then holds exactly what a fresh match returns, in the same
    order. *)

Section BuiltMatch.
Context {E : Type} `{EqDecision E} `{!RangeOrder string}.
Implicit Types (s : Sublist E) (xs : list (string * E)).

Definition cache_exact s : Prop :=
  forall k r, cache s !! k = Some r -> r = matchLevel (Some (root s)) (tokens k).

Lemma Match_exact s x :
  cache_exact s ->
  (Match s x).1 = matchLevel (Some (root s)) (tokens x) /\
  root (Match s x).2 = root s /\ cache_exact (Match s x).2.
Proof.
  intros Hc. unfold Match. destruct (cache s !! x) as [r|] eqn:Hx.
  { split_and!; [by apply Hc|done|done]. }
  split_and!; [done|done|]. intros k r. simpl.
  assert (Hins : forall k r,
            <[x := matchLevel (Some (root s)) (tokens x)]> (cache s) !! k = Some r ->
            r = matchLevel (Some (root s)) (tokens k)).
  { intros k' r'. rewrite lookup_insert. case_decide; [|by apply Hc]. by intros [= <-]; subst. }
  destruct (_ <? _)%nat; [|by apply Hins].
  destruct (range _) as [|[k' r'] rest]; [by apply Hins|].
  rewrite lookup_delete. case_decide; [done|]. by apply Hins.
Qed.

Lemma Insert_cache_empty s x e : cache s = ∅ -> cache (Insert s x e).1 = ∅.
Proof.
  intros Hc. unfold Insert. destruct (insert_tokens _ _ _ _) as [l [err|]]; simpl; [done|].
  unfold addToCache. rewrite Hc. by rewrite map_imap_empty.
Qed.

Lemma build_cache xs : cache (build xs) = ∅.
Proof.
  induction xs as [|[x e] xs IH] using rev_ind; [done|].
  rewrite build_snoc. by apply Insert_cache_empty.
Qed.

Lemma build_exact xs : cache_exact (build xs).
Proof. intros k r. by rewrite build_cache, lookup_empty. Qed.

Lemma path_inj x y : valid x -> valid y -> path x = path y -> x = y.
Proof. intros Hx Hy H. by rewrite <- (render_path x), <- (render_path y), H. Qed.

(** The element stored under a pattern, as a list of length at most one. *)
Definition named xs (p : list key) : list E :=
  snd <$> filter (fun x => path x.1 = p) xs.

Lemma named_at_path xs p : at_path p ((fun x => (path x.1, x.2)) <$> xs) = named xs p.
Proof.
  unfold at_path, named. induction xs as [|x xs IH]; [done|].
  rewrite fmap_cons, !filter_cons. cbn [fst]. case_decide; rewrite ?fmap_cons, IH; done.
Qed.

Lemma elem_of_named xs p e : e ∈ named xs p <-> exists x, (x, e) ∈ xs /\ path x = p.
Proof.
  unfold named. rewrite list_elem_of_fmap. split.
  - intros ([x e'] & -> & Hx). apply list_elem_of_filter in Hx as [Hp Hx]. eauto.
  - intros (x & Hx & Hp). exists (x, e). split; [done|]. by apply list_elem_of_filter.
Qed.

Lemma named_singleton xs x e :
  Forall (fun x => valid x.1) xs -> NoDup xs.*1 -> (x, e) ∈ xs -> named xs (path x) = [e].
Proof.
  intros Hv Hnd Hin. unfold named. induction xs as [|[y f] xs IH]; [by apply elem_of_nil in Hin|].
  inversion Hv as [|?? Hvy Hvs]; subst. inversion Hnd as [|?? Hny Hnds]; subst.
  rewrite filter_cons. simpl in *.
  assert (Hvx : valid x).
  { apply elem_of_cons in Hin as [[= -> ->]|Hin]; [done|].
    by apply (proj1 (Forall_forall _ _) Hvs) in Hin. }
  apply elem_of_cons in Hin as [[= -> ->]|Hin].
  - rewrite decide_True by done. rewrite fmap_cons. f_equal.
    rewrite filter_none; [done|]. intros [z g] Hz Hp.
    apply Hny, list_elem_of_fmap. exists (z, g). split; [|done]. simpl in *.
    apply path_inj in Hp; [done| |done]. by apply (proj1 (Forall_forall _ _) Hvs) in Hz.
  - rewrite decide_False by (intros Hp%path_inj; [|done|done]; subst;
      apply Hny, list_elem_of_fmap; by eexists (_, _)).
    by apply IH.
Qed.

Lemma length_named xs p :
  Forall (fun x => valid x.1) xs -> NoDup xs.*1 -> (length (named xs p) <= 1)%nat.
Proof.
  intros Hv Hnd. destruct (named xs p) as [|e es] eqn:Hn; [simpl; lia|].
  assert (He : e ∈ named xs p) by (rewrite Hn; by left).
  apply elem_of_named in He as (x & Hx & <-).
  rewrite (named_singleton xs x e) in Hn by done. by injection Hn as <-.
Qed.

Lemma matchLevel_build xs toks :
  Forall (fun x => valid x.1) xs -> NoDup xs.*1 -> toks <> [] ->
  matchLevel (Some (root (build xs))) toks = patterns toks ≫= named xs.
Proof.
  intros Hv Hnd Hne. rewrite matchLevel_patterns by done.
  apply Forall_bind_ext, Forall_forall. intros p _.
  destruct (build_refines xs Hv) as [Hr _]. pose proof (refines_trie _ _ Hr p) as Hp.
  rewrite named_at_path in Hp.
  destruct (named xs p) as [|e es] eqn:Hn; [by apply Permutation_nil_r in Hp|].
  assert (He : e ∈ named xs p) by (rewrite Hn; by left).
  apply elem_of_named in He as (x & Hx & <-).
  rewrite (named_singleton xs x e) in Hn by done. injection Hn as <-.
  by apply Permutation_singleton_r in Hp.
Qed.
End BuiltMatch.

Definition sample_subjects : list (string * nat) :=
  [("foo.bar", 1); ("*.*", 2); ("foo.>", 3); ("bar", 4); (">", 5)].

Lemma Subjects_spec_witness :
  StronglySorted (fun x y => ~ covers (path y) (path x))
    (@Subjects nat (default_order string) (build sample_subjects)).
Proof.
  apply (@Subjects_spec nat (default_order string) sample_subjects).
  repeat constructor.
Defined.

Lemma matchLevel_last_narrowest_witness :
  exists p, matches p ["foo"; "bar"]%string /\
    1 ∈ elems_at (Some (root (build sample_subjects))) p.
Proof.
  destruct (matchLevel_last_narrowest (root (build sample_subjects)) ["foo"; "bar"]%string 1)
    as (p & H1 & H2 & _); [done|reflexivity|].
  exists p. split; assumption.
Defined.
