(* ===== verification/GoLib.v ===== *)
(** * Pieces of Go's standard library

    The library code that the server calls and whose behaviour matters to
    it: the binary search and the sort of package [sort], and the state of a timer
    of package [time]. *)

From Stdlib Require Import ZArith Lia.
From stdpp Require Import base list.
From S2P Require Import Prelude.

Local Open Scope Z_scope.

(** ** [time.Timer]

    A timer that [AfterFunc] or [Reset] armed fires at its deadline; a timer
    that fired, or that [Stop] disarmed, is idle. *)

Inductive timer := Idle | Armed (deadline : Z).

(** ** [sort.Search]

    [for i < j { h := int(uint(i+j) >> 1); if !f(h) { i = h + 1 } else { j = h } }].
    The predicate may panic.  The interval is halved at each round, so [n]
    rounds are enough. *)

Fixpoint search_loop {E : Type} (fuel : nat) (f : Z -> outcome E bool) (i j : Z) : outcome E Z :=
  if i <? j then
    match fuel with
    | O => Panic
    | S fuel' =>
        let h := Z.shiftr (i + j) 1 in
        b ← f h;
        if negb b then search_loop fuel' f (h + 1) j else search_loop fuel' f i h
    end
  else Ok i.

Definition Search {E : Type} (n : Z) (f : Z -> outcome E bool) : outcome E Z :=
  search_loop (Z.to_nat n) f 0 n.

Section SearchSpec.
Context {E : Type} (f : Z -> outcome E bool) (p : Z -> bool).

Lemma search_loop_spec fuel i j :
  i <= j -> j - i <= Z.of_nat fuel ->
  (forall k, i <= k < j -> f k = Ok (p k)) ->
  (forall k k', i <= k -> k <= k' -> k' < j -> p k = true -> p k' = true) ->
  exists r, search_loop fuel f i j = Ok r /\ i <= r <= j /\
    (forall k, i <= k < r -> p k = false) /\ (r < j -> p r = true).
Proof.
  revert i j. induction fuel as [|fuel IH]; intros i j Hij Hfuel Hf Hmono; cbn [search_loop];
    destruct (Z.ltb_spec i j) as [Hlt|Hge]; try lia;
    try (exists i; split_and!; [done|lia|lia|lia|lia]).
  rewrite Z.shiftr_div_pow2, Z.pow_1_r by lia.
  set (h := (i + j) / 2).
  assert (Hh : i <= h < j).
  { subst h. split; [apply Z.div_le_lower_bound|apply Z.div_lt_upper_bound]; lia. }
  rewrite Hf by lia. cbn [mbind outcome_bind]. destruct (p h) eqn:Hp; cbn [negb].
  - destruct (IH i h) as (r & -> & Hr & Hlow & Hhigh); [lia|lia|intros; apply Hf; lia| |].
    { intros k k' ? ? ?. apply Hmono; lia. }
    exists r. split_and!; [done|lia|lia|done|]. intros _.
    destruct (decide (r = h)) as [->|]; [done|]. apply Hhigh. lia.
  - destruct (IH (h + 1) j) as (r & -> & Hr & Hlow & Hhigh); [lia|lia|intros; apply Hf; lia| |].
    { intros k k' ? ? ?. apply Hmono; lia. }
    exists r. split_and!; [done|lia|lia| |done]. intros k Hk.
    destruct (decide (h < k)); [apply Hlow; lia|].
    destruct (p k) eqn:Hpk; [|done]. rewrite (Hmono k h) in Hp; [done|lia|lia|lia|done].
Qed.

(** On a monotone predicate, [Search] finds the least index at which it
    holds, or [n]. *)
Lemma Search_spec n :
  0 <= n ->
  (forall k, 0 <= k < n -> f k = Ok (p k)) ->
  (forall k k', 0 <= k -> k <= k' -> k' < n -> p k = true -> p k' = true) ->
  exists r, Search n f = Ok r /\ 0 <= r <= n /\
    (forall k, 0 <= k < r -> p k = false) /\ (r < n -> p r = true).
Proof. intros Hn Hf Hm. apply search_loop_spec; try done; lia. Qed.
End SearchSpec.

(** ** [sort.Sort]

    The result is a permutation of the input.  Provided [Less] is a strict weak order
    on the elements, no element is less than one before it.  The order of elements
    neither of which is less is not specified, so that a sort is a parameter. *)

Definition weak_order {A : Type} (less : A -> A -> bool) (l : list A) : Prop :=
  (forall a b, a ∈ l -> b ∈ l -> less a b = true -> less b a = false) /\
  (forall a b c, a ∈ l -> b ∈ l -> c ∈ l -> less b a = false -> less c b = false -> less c a = false).

Definition in_order {A : Type} (less : A -> A -> bool) (l : list A) : Prop :=
  forall i j a b, (i < j)%nat -> l !! i = Some a -> l !! j = Some b -> less b a = false.

Class Sorter := {
  sort : forall {A : Type}, (A -> A -> bool) -> list A -> list A;
  sort_perm : forall {A : Type} (less : A -> A -> bool) (l : list A), sort less l ≡ₚ l;
  sort_in_order : forall {A : Type} (less : A -> A -> bool) (l : list A),
    weak_order less l -> in_order less (sort less l)
}.

(** Insertion sort is one. *)
Section InsertionSort.
Context {A : Type} (less : A -> A -> bool).

Fixpoint insert_sorted (x : A) (l : list A) : list A :=
  match l with
  | [] => [x]
  | y :: l' => if less y x then y :: insert_sorted x l' else x :: l
  end.

Definition insertion_sort (l : list A) : list A := foldr insert_sorted [] l.

Lemma insert_sorted_perm x l : insert_sorted x l ≡ₚ x :: l.
Proof.
  induction l as [|y l IH]; simpl; [done|]. destruct (less y x); [|done]. rewrite IH. constructor.
Qed.

Lemma insertion_sort_perm l : insertion_sort l ≡ₚ l.
Proof. induction l as [|x l IH]; simpl; [done|]. by rewrite insert_sorted_perm, IH. Qed.

Lemma in_order_cons x l :
  (forall y, y ∈ l -> less y x = false) -> in_order less l -> in_order less (x :: l).
Proof.
  intros Hx Hl [|i] [|j] a b Hij Ha Hb; simpl in *; [lia| |lia|].
  - injection Ha as <-. apply Hx. by eapply list_elem_of_lookup_2.
  - apply (Hl i j); [lia|done|done].
Qed.

Lemma in_order_inv x l :
  in_order less (x :: l) -> (forall y, y ∈ l -> less y x = false) /\ in_order less l.
Proof.
  intros H. split.
  - intros y [j Hj]%list_elem_of_lookup. apply (H 0%nat (S j)); [lia|done|done].
  - intros i j a b Hij Ha Hb. apply (H (S i) (S j)); [lia|done|done].
Qed.

Lemma insert_sorted_in_order x l :
  weak_order less (x :: l) -> in_order less l -> in_order less (insert_sorted x l).
Proof.
  intros [Has Htr] Hl. induction l as [|y l IH]; simpl.
  { apply in_order_cons; [|done]. by intros z Hz%elem_of_nil. }
  apply in_order_inv in Hl as Hl'. destruct Hl' as [Hy Hl'].
  destruct (less y x) eqn:Hyx.
  - apply in_order_cons.
    + intros z. rewrite insert_sorted_perm. intros [->|Hz]%elem_of_cons; [|by apply Hy].
      apply Has; [|by left|done]. right. by left.
    + apply IH; [| |done].
      * intros a b [->|Ha]%elem_of_cons [->|Hb]%elem_of_cons; apply Has; try (by left); right; by right.
      * intros a b c [->|Ha]%elem_of_cons [->|Hb]%elem_of_cons [->|Hc]%elem_of_cons;
          apply Htr; try (by left); right; by right.
  - apply in_order_cons; [|done]. intros z [->|Hz]%elem_of_cons; [done|].
    apply (Htr x y z); [by left|right; by left|right; by right|done|by apply Hy].
Qed.

Lemma insertion_sort_in_order l : weak_order less l -> in_order less (insertion_sort l).
Proof.
  induction l as [|x l IH]; intros [Has Htr]; simpl; [by intros ? ? ? ? ? ?|].
  apply insert_sorted_in_order.
  - split.
    + intros a b. rewrite !insertion_sort_perm. apply Has.
    + intros a b c. rewrite !insertion_sort_perm. apply Htr.
  - apply IH. split.
    + intros a b Ha Hb. apply Has; by right.
    + intros a b c Ha Hb Hc. apply Htr; by right.
Qed.
End InsertionSort.

Definition insertion_sorter : Sorter := {|
  sort := @insertion_sort;
  sort_perm := @insertion_sort_perm;
  sort_in_order := @insertion_sort_in_order
|}.
