(* ===== verification/Channels.v ===== *)
(** * The encoding of channel lists

    Model of [src/util/channels.go], by which partitioned servers exchange
    the list of the channels they own: each name is a 2-byte length followed by
    its bytes, and the list is cut in as many requests as the maximum payload
    of the NATS connection demands.  A request is an [spb.CtrlMsg]; its [Size],
    which [MarshalTo] fills exactly, is modelled from the generated code. *)

From Stdlib Require Import ZArith Lia Ascii String.
From stdpp Require Import base list strings.
From S2P Require Import Prelude Bytes.

Local Open Scope Z_scope.

(** ** [spb.CtrlMsg] *)

Module CtrlMsg.
Definition Partitioning : Z := 4.

Record CtrlMsg := mkCtrlMsg {
  MsgType : Z;
  ServerID : list byte;
  Data : list byte;
  RefID : list byte;
}.

(** [math/bits.Len64]: the number of bits of [x]. *)
Definition Len64 (x : Z) : Z := if x =? 0 then 0 else Z.log2 x + 1.

Definition sovProtocol (x : Z) : Z := (Len64 (Z.lor x 1) + 6) / 7.

(** The contribution of a length-delimited field. *)
Definition size_field (b : list byte) : Z :=
  let l := Z.of_nat (length b) in
  if 0 <? l then 1 + l + sovProtocol (u64 l) else 0.

Definition Size (m : CtrlMsg) : Z :=
  (if MsgType m =? 0 then 0 else 1 + sovProtocol (u64 (MsgType m)))
  + size_field (ServerID m) + size_field (Data m) + size_field (RefID m).

Definition with_Data (m : CtrlMsg) (data : list byte) : CtrlMsg :=
  mkCtrlMsg (MsgType m) (ServerID m) data (RefID m).
End CtrlMsg.
Import CtrlMsg.

(** ** Decoding *)

Definition encodedChannelLen : Z := 2.

Inductive decode_error := UnableToDecodeSize | UnableToDecodeChannel.

(** The loop of [DecodeChannels] on the bytes that remain from [pos] on; each
    round consumes at least the two bytes of a length. *)
Fixpoint decode_loop (fuel : nat) (data : list byte) (channels : list (list byte))
  : option (list (list byte) + decode_error) :=
  match fuel with
  | O => None
  | S fuel' =>
      match data with
      | [] => Some (inl channels)
      | [_] => Some (inr UnableToDecodeSize)
      | b0 :: b1 :: rest =>
          let cl := get_le [b0; b1] in
          if Z.of_nat (length rest) <? cl then Some (inr UnableToDecodeChannel)
          else decode_loop fuel' (drop (Z.to_nat cl) rest)
                 (channels ++ [take (Z.to_nat cl) rest])
      end
  end.

Definition DecodeChannels (data : list byte) : option (list (list byte) + decode_error) :=
  decode_loop (S (length data)) data [].

(** ** Encoding *)

(** The [for] loop of [encodeChannelsRequest] over [channels[start:]]: the
    buffer, the number of encoded channels and the estimated size; [None] is
    the special case of a first channel that does not fit. *)
Fixpoint encode_loop (channels : list (list byte)) (maxPayload : Z)
  (chanBuf : list byte) (count : nat) (estimatedSize : Z)
  : option (list byte * nat * Z) :=
  match channels with
  | [] => Some (chanBuf, count, estimatedSize)
  | c :: cs =>
      let cl := Z.of_nat (length c) in
      let needed := encodedChannelLen + cl in
      if maxPayload <? estimatedSize + needed then
        match count with
        | O => None
        | _ => Some (chanBuf, count, estimatedSize)
        end
      else encode_loop cs maxPayload (chanBuf ++ put_le 2 (u16 cl) ++ c) (S count)
             (estimatedSize + needed)
  end.

(** The request to marshal and the number of channels it holds; the request
    is [None] when there is nothing to marshal. *)
Definition encodeChannelsRequest (request : CtrlMsg) (channels : list (list byte))
  (headerSize maxPayload : Z) : outcome Empty_set (option CtrlMsg * nat) :=
  match encode_loop channels maxPayload [] 0 headerSize with
  | None => Ok (None, O)
  | Some (_, O, _) => Ok (None, O)
  | Some (chanBuf, count, _) =>
      let request := with_Data request chanBuf in
      if maxPayload <? Size request then Panic else Ok (Some request, count)
  end.

(** ** Sending *)

Section Send.
(** The NATS connection is a parameter: what [PublishRequest] returns after
    the requests already published, and what [Flush] returns. *)
Context {E : Type} (PublishRequest : list CtrlMsg -> CtrlMsg -> option E)
  (Flush : list CtrlMsg -> option E).

Inductive send_error := PayloadTooSmall | ConnError (e : E).

(** The requests published, and the error returned. *)
Fixpoint send_loop (fuel : nat) (header : CtrlMsg) (headerSize maxPayload : Z)
  (channels : list (list byte)) (sent : list CtrlMsg)
  : option (outcome Empty_set (list CtrlMsg * option send_error)) :=
  match fuel with
  | O => None
  | S fuel' =>
      match channels with
      | [] => Some (Ok (sent, ConnError <$> Flush sent))
      | _ =>
          match encodeChannelsRequest header channels headerSize maxPayload with
          | Panic => Some Panic
          | Err e => Some (Err e)
          | Ok (Some request, (S _) as count) =>
              match PublishRequest sent request with
              | Some e => Some (Ok (sent, Some (ConnError e)))
              | None => send_loop fuel' request headerSize maxPayload
                          (drop count channels) (sent ++ [request])
              end
          | Ok _ => Some (Ok (sent, Some PayloadTooSmall))
          end
      end
  end.

Definition SendChannelsList (channels : list (list byte)) (maxPayload : Z)
  (serverID : list byte) : option (outcome Empty_set (list CtrlMsg * option send_error)) :=
  let header := mkCtrlMsg Partitioning serverID [] [] in
  send_loop (S (length channels)) header (Size header + 1 + 8) maxPayload channels [].
End Send.

(** ** Round trip *)

(** The bytes of one name, and of a list of names. *)
Definition encode_channel (c : list byte) : list byte :=
  put_le 2 (u16 (Z.of_nat (length c))) ++ c.
Definition encode_channels (cs : list (list byte)) : list byte := cs ≫= encode_channel.

Definition short (c : list byte) : Prop := Z.of_nat (length c) < two16.

Lemma decode_loop_cons fuel c rest acc :
  short c ->
  decode_loop (S fuel) (encode_channel c ++ rest) acc = decode_loop fuel rest (acc ++ [c]).
Proof.
  intros Hc. unfold encode_channel, short, two16 in *. rewrite u16_small by (unfold two16; lia).
  pose proof (get_put_le_small 2 (Z.of_nat (length c)) ltac:(simpl; lia)) as Hg.
  destruct (put_le 2 (Z.of_nat (length c))) as [|b0 [|b1 [|]]] eqn:Hp;
    pose proof (length_put_le 2 (Z.of_nat (length c))) as Hl; rewrite Hp in Hl; try done.
  cbn [app decode_loop]. rewrite Hg, length_app.
  destruct (Z.ltb_spec (Z.of_nat (length c + length rest)) (Z.of_nat (length c))); [lia|].
  by rewrite Nat2Z.id, drop_app_length, take_app_length.
Qed.

Lemma decode_loop_encode cs fuel acc :
  Forall short cs -> (length (encode_channels cs) < fuel)%nat ->
  decode_loop fuel (encode_channels cs) acc = Some (inl (acc ++ cs)).
Proof.
  intros Hs. revert fuel acc.
  induction Hs as [|c cs Hc Hs IH]; intros [|fuel] acc Hf; try (simpl in *; lia).
  - simpl. by rewrite app_nil_r.
  - change (encode_channels (c :: cs)) with (encode_channel c ++ encode_channels cs) in *.
    rewrite decode_loop_cons, IH by
      (try done; revert Hf; unfold encode_channel; rewrite !length_app, length_put_le; lia).
    by rewrite <- app_assoc.
Qed.

Lemma decode_loop_total fuel data acc :
  (length data < fuel)%nat ->
  (exists e, decode_loop fuel data acc = Some (inr e)) \/
  (exists cs, decode_loop fuel data acc = Some (inl (acc ++ cs)) /\
     data = encode_channels cs /\ Forall short cs).
Proof.
  revert data acc. induction fuel as [|fuel IH]; intros data acc Hf; [lia|].
  destruct data as [|b0 [|b1 rest]]; simpl in Hf; [..|cbn [decode_loop]].
  - right. exists []. by rewrite app_nil_r.
  - left. by eexists.
  - pose proof (get_le_range [b0; b1]) as Hr.
    change (256 ^ Z.of_nat (length [b0; b1])) with two16 in Hr.
    destruct (Z.ltb_spec (Z.of_nat (length rest)) (get_le [b0; b1])) as [Hlt|Hge];
      [left; by eexists|].
    set (n := Z.to_nat (get_le [b0; b1])).
    destruct (IH (drop n rest) (acc ++ [take n rest])) as [[e He]|(cs & He & Hd & Hs)].
    { rewrite length_drop. lia. }
    { left. by eexists. }
    assert (Hn : Z.of_nat (length (take n rest)) = get_le [b0; b1]).
    { rewrite length_take. lia. }
    right. exists (take n rest :: cs). repeat split.
    + rewrite He. by rewrite <- app_assoc.
    + change (encode_channels (take n rest :: cs))
        with (encode_channel (take n rest) ++ encode_channels cs).
      rewrite <- Hd. unfold encode_channel. rewrite Hn, u16_small by lia.
      change 2%nat with (length [b0; b1]). rewrite put_get_le. cbn [app].
      by rewrite take_drop.
    + constructor; [|done]. unfold short. lia.
Qed.

(** [DecodeChannels] always returns, and it returns the names [cs] exactly on
    the encoding of [cs], for names of less than 65536 bytes; on any other
    input it returns an error. *)
Theorem DecodeChannels_spec data :
  (exists r, DecodeChannels data = Some r) /\
  forall cs, DecodeChannels data = Some (inl cs) <->
    data = encode_channels cs /\ Forall short cs.
Proof.
  unfold DecodeChannels.
  destruct (decode_loop_total (S (length data)) data []) as [[e He]|(cs' & He & Hd & Hs)];
    [lia|..]; (split; [by eexists|]); intros cs; rewrite He; (split; [|intros [-> Hc]]).
  - done.
  - rewrite decode_loop_encode in He by (done || lia). done.
  - intros [= <-]. done.
  - rewrite decode_loop_encode in He by (done || lia). by injection He as ->.
Qed.

(** ** Requests *)

Lemma sovProtocol_le x : 0 <= x < 2 ^ 56 -> 0 <= sovProtocol x <= 8.
Proof.
  intros Hx. unfold sovProtocol, Len64.
  assert (Hl : 0 <= Z.log2 (Z.lor x 1) <= 55).
  { rewrite Z.log2_lor by lia. change (Z.log2 1) with 0.
    pose proof (Z.log2_nonneg x). rewrite Z.max_l by done. split; [done|].
    destruct (decide (x = 0)) as [->|]; [done|].
    assert (Z.log2 x < 56) by (apply Z.log2_lt_pow2; lia). lia. }
  destruct (Z.lor x 1 =? 0); split; try (apply Z.div_pos; lia); done || idtac.
  assert ((Z.log2 (Z.lor x 1) + 1 + 6) / 7 < 9) by (apply Z.div_lt_upper_bound; lia). lia.
Qed.

Lemma Size_with_Data h buf :
  Z.of_nat (length buf) < 2 ^ 56 ->
  Size (with_Data h buf) <= Size (with_Data h []) + 1 + 8 + Z.of_nat (length buf).
Proof.
  intros Hb. unfold Size, with_Data. cbn [MsgType ServerID Data RefID].
  assert (size_field buf <= 1 + 8 + Z.of_nat (length buf)); [|unfold size_field at 5; simpl; lia].
  unfold size_field. destruct (Z.ltb_spec 0 (Z.of_nat (length buf))); [|lia].
  pose proof (sovProtocol_le (u64 (Z.of_nat (length buf)))) as Hs.
  rewrite u64_small in * by (unfold is_u64, two64; lia). specialize (Hs ltac:(lia)). lia.
Qed.

(** What the loop of [encodeChannelsRequest] computes: the encoding of the
    longest prefix whose estimated size is within [maxPayload]. *)
Lemma encode_loop_spec channels maxPayload chanBuf count est :
  est <= maxPayload ->
  match encode_loop channels maxPayload chanBuf count est with
  | None => count = O /\ exists c cs, channels = c :: cs /\
              maxPayload < est + 2 + Z.of_nat (length c)
  | Some (buf, n, est') =>
      exists cs rest, channels = cs ++ rest /\ buf = chanBuf ++ encode_channels cs /\
        n = (count + length cs)%nat /\ est' <= maxPayload /\
        est' = est + Z.of_nat (length (encode_channels cs)) /\
        (n = O -> channels = [])
  end.
Proof.
  revert chanBuf count est. induction channels as [|c cs IH]; intros chanBuf count est He.
  - simpl. exists [], []. simpl. rewrite ?app_nil_r. split_and!; done || lia.
  - cbn [encode_loop]. unfold encodedChannelLen.
    destruct (Z.ltb_spec maxPayload (est + (2 + Z.of_nat (length c)))) as [Hlt|Hge].
    + destruct count as [|count].
      * split; [done|]. exists c, cs. split; [done|lia].
      * exists [], (c :: cs). simpl. rewrite ?app_nil_r. repeat split; done || lia.
    + specialize (IH (chanBuf ++ encode_channel c) (S count) _ Hge).
      fold (encode_channel c).
      destruct (encode_loop _ _ _ _ _) as [[[buf n] est']|]; [|by destruct IH].
      destruct IH as (cs' & rest & -> & -> & -> & Hle & -> & _).
      exists (c :: cs'), rest.
      change (encode_channels (c :: cs')) with (encode_channel c ++ encode_channels cs').
      rewrite !length_app. unfold encode_channel. rewrite !length_app, length_put_le.
      rewrite <- !app_assoc. simpl length. repeat split; done || lia.
Qed.

(** A request never exceeds [maxPayload], so the panic is not reached; it
    holds a non-empty prefix of the channels unless the first one does not
    fit. *)
Lemma encodeChannelsRequest_spec h channels maxPayload :
  let headerSize := Size (with_Data h []) + 1 + 8 in
  maxPayload < 2 ^ 56 -> headerSize <= maxPayload -> channels <> [] ->
  0 <= Size (with_Data h []) ->
  match encodeChannelsRequest h channels headerSize maxPayload with
  | Ok (Some r, n) => exists cs, cs <> [] /\ cs = take n channels /\ length cs = n /\
      r = with_Data h (encode_channels cs) /\ Size r <= maxPayload
  | Ok (None, n) => exists c, head channels = Some c /\
      maxPayload < headerSize + 2 + Z.of_nat (length c)
  | Err _ | Panic => False
  end.
Proof.
  intros hs Hmax Hh Hne H0. unfold encodeChannelsRequest.
  pose proof (encode_loop_spec channels maxPayload [] 0 hs Hh) as Hl.
  destruct (encode_loop _ _ _ _ _) as [[[buf n] est']|].
  - destruct Hl as (cs & rest & -> & -> & -> & Hle & -> & Hn). simpl app.
    destruct (0 + length cs)%nat as [|n] eqn:Hc.
    { by destruct Hne; apply Hn. }
    pose proof (Size_with_Data h (encode_channels cs) ltac:(lia)) as HS.
    destruct (Z.ltb_spec maxPayload (Size (with_Data h (encode_channels cs)))); [lia|].
    exists cs. simpl in Hc. rewrite <- Hc, take_app_length.
    split_and!; try (done || lia). by intros ->.
  - destruct Hl as (_ & c & cs & -> & Hl). by exists c.
Qed.

Lemma Size_nonneg h : 0 <= Size h.
Proof.
  assert (Hs : forall x, 0 <= x -> 0 <= sovProtocol x).
  { intros x Hx. apply Z.div_pos; [|lia]. unfold Len64.
    pose proof (Z.log2_nonneg (Z.lor x 1)). by destruct (_ =? 0); lia. }
  assert (Hf : forall b, 0 <= size_field b).
  { intros b. unfold size_field. destruct (_ <? _); [|lia].
    specialize (Hs (u64 (Z.of_nat (length b)))). pose proof (u64_range (Z.of_nat (length b))) as [? ?].
    lia. }
  unfold Size. pose proof (Hf (ServerID h)). pose proof (Hf (Data h)). pose proof (Hf (RefID h)).
  pose proof (u64_range (MsgType h)) as [Hr _]. specialize (Hs _ Hr).
  destruct (_ =? 0); lia.
Qed.

Section SendSpec.
Context {E : Type} (PublishRequest : list CtrlMsg -> CtrlMsg -> option E)
  (Flush : list CtrlMsg -> option E).

(** The requests of [sent] carry, in order, the channels [cs]. *)
Definition carries (sent : list CtrlMsg) (cs : list (list byte)) : Prop :=
  exists parts, Forall2 (fun r p => DecodeChannels (Data r) = Some (inl p)) sent parts /\
    cs = mjoin parts.

Lemma carries_snoc sent cs r part :
  carries sent cs -> DecodeChannels (Data r) = Some (inl part) ->
  carries (sent ++ [r]) (cs ++ part).
Proof.
  intros (parts & Hp & ->) Hr. exists (parts ++ [part]). split.
  - apply Forall2_app; [done|]. by constructor.
  - by rewrite join_app; simpl; rewrite app_nil_r.
Qed.

Lemma send_loop_spec fuel h headerSize maxPayload channels sent done :
  headerSize = Size (with_Data h []) + 1 + 8 ->
  maxPayload < 2 ^ 56 -> headerSize <= maxPayload ->
  Forall short channels -> (length channels < fuel)%nat ->
  carries sent done -> Forall (fun r => Size r <= maxPayload) sent ->
  exists sent' err cs rest,
    send_loop PublishRequest Flush fuel h headerSize maxPayload channels sent
      = Some (Ok (sent', err)) /\
    carries sent' cs /\ done ++ channels = cs ++ rest /\
    Forall (fun r => Size r <= maxPayload) sent' /\
    (err = None -> rest = []) /\
    (err = Some PayloadTooSmall -> exists c, head rest = Some c /\
       maxPayload < headerSize + 2 + Z.of_nat (length c)).
Proof.
  intros Hhs Hmax Hh Hs Hf Hc Hb.
  revert h channels sent done Hhs Hs Hf Hc Hb.
  induction fuel as [|fuel IH]; intros h channels sent done Hhs Hs Hf Hc Hb; [lia|].
  destruct channels as [|c0 cs0]; cbn [send_loop].
  { exists sent, (ConnError <$> Flush sent), done, []. repeat split; try done.
    by destruct (Flush sent). }
  set (channels := c0 :: cs0) in *.
  pose proof (encodeChannelsRequest_spec h channels maxPayload) as Hr.
  rewrite <- Hhs in Hr. specialize (Hr Hmax Hh ltac:(done) (Size_nonneg _)).
  destruct (encodeChannelsRequest _ _ _ _) as [[[r|] n]|e|]; [|..|done]; [| |done].
  - destruct Hr as (cs & Hne & Hcs & Hn & -> & HS).
    destruct n as [|n]; [by destruct cs|].
    assert (Hsc : Forall short cs) by (subst cs; by apply Forall_take).
    assert (Hd : DecodeChannels (encode_channels cs) = Some (inl cs)).
    { unfold DecodeChannels. rewrite decode_loop_encode by (done || lia). done. }
    destruct (PublishRequest sent _) as [e|].
    { exists sent, (Some (ConnError e)), done, channels. repeat split; done. }
    destruct (IH (with_Data h (encode_channels cs)) (drop (S n) channels)
      (sent ++ [with_Data h (encode_channels cs)]) (done ++ cs))
      as (sent' & err & cs' & rest & He & Hca & Heq & Hb' & Hok & Hsm);
      [done|by apply Forall_drop|rewrite length_drop; subst channels; simpl in *; lia
      |by apply carries_snoc|apply Forall_app; split; [done|by constructor]|].
    exists sent', err, cs', rest. repeat split; try done.
    rewrite <- Heq, <- app_assoc, Hcs, take_drop. done.
  - destruct Hr as (c & Hh' & Hlt).
    exists sent, (Some PayloadTooSmall), done, channels. repeat split; try done.
    intros _. by exists c.
Qed.

(** [C39] For names of less than 2^16 bytes and a payload that holds the header,
    [SendChannelsList] always returns, without panicking.  No request it
    publishes exceeds the maximum payload.  What the receivers decode from
    the requests is, in order, a prefix of the channels: all of them when
    there is no error, and up to a channel that no request can hold when the
    error is that the payload is too small. *)
Theorem SendChannelsList_spec channels maxPayload serverID :
  let headerSize := Size (mkCtrlMsg Partitioning serverID [] []) + 1 + 8 in
  Forall short channels -> headerSize <= maxPayload < 2 ^ 56 ->
  exists sent err cs rest,
    SendChannelsList PublishRequest Flush channels maxPayload serverID
      = Some (Ok (sent, err)) /\
    Forall (fun r => Size r <= maxPayload) sent /\
    carries sent cs /\ channels = cs ++ rest /\
    (err = None -> rest = []) /\
    (err = Some PayloadTooSmall -> exists c, head rest = Some c /\
       maxPayload < headerSize + 2 + Z.of_nat (length c)).
Proof.
  intros hs Hs [Hh Hmax]. unfold SendChannelsList.
  edestruct (send_loop_spec (S (length channels)) (mkCtrlMsg Partitioning serverID [] [])
    hs maxPayload channels [] []) as (sent & err & cs & rest & He & Hc & Heq & Hb & H1 & H2);
    try done; [lia|by exists []|].
  by exists sent, err, cs, rest.
Qed.
End SendSpec.

Definition sample_channels : list (list byte) :=
  list_ascii_of_string <$> ["foo"; "bar.baz"; ""; "a.very.long.channel.name"]%string.

Lemma SendChannelsList_spec_witness :
  exists sent cs rest,
    SendChannelsList (fun _ _ => @None nat) (fun _ => None) sample_channels 48
      (list_ascii_of_string "server") = Some (Ok (sent, None)) /\
    length sent = 2%nat /\ carries sent cs /\ sample_channels = cs ++ rest /\ rest = [].
Proof.
  destruct (SendChannelsList_spec (fun _ _ => @None nat) (fun _ => None) sample_channels 48
    (list_ascii_of_string "server")) as (sent & err & cs & rest & He & Hb & Hc & Heq & H1 & _).
  - repeat constructor.
  - split; [by compute|done].
  - vm_compute in He. injection He as <- <-. do 3 eexists.
    split; [vm_compute; reflexivity|]. split; [reflexivity|].
    split; [exact Hc|]. split; [exact Heq|by apply H1].
Defined.
