(* ===== verification/Limits.v ===== *)
(** * Store limits and their inheritance

    Model of [src/stores/limits.go]: the limits of a store, their validation
    and the inheritance by which a per-channel limit left at 0 takes its value
    from a wider pattern or from the global limits.  The channel names of the
    [PerChannel] map identify the [*channelLimitInfo] that [Build] inserts in
    its sublist, so the elements of that sublist are names and the objects
    they point to are in a map, which [applyInheritance] updates.  A nil
    [PerChannel] map is the empty map.  The printing functions of the file are
    not modelled. *)

From Stdlib Require Import ZArith Lia Ascii String.
From stdpp Require Import base list gmap strings.
From S2P Require Import Prelude Subject Util Sublist SublistOrder.

Local Open Scope Z_scope.

(** ** Data *)

(** [MsgStoreLimits], [SubStoreLimits] and [ChannelLimits], flattened. *)
Record ChannelLimits := mkChannelLimits {
  MaxMsgs : Z;
  MaxBytes : Z;
  MaxAge : Z;
  MaxSubscriptions : Z;
  MaxInactivity : Z;
}.

#[export] Instance ChannelLimits_eq_dec : EqDecision ChannelLimits.
Proof. solve_decision. Defined.

Record StoreLimits := mkStoreLimits {
  MaxChannels : Z;
  Global : ChannelLimits;
  PerChannel : gmap string ChannelLimits;
}.

Definition DefaultStoreLimits : StoreLimits :=
  mkStoreLimits 100 (mkChannelLimits 1000000 (1000000 * 1024) 0 1000 0) ∅.

Inductive limits_error :=
| NegativeMaxChannels | NegativeMaxSubscriptions | NegativeMaxMsgs
| NegativeMaxBytes | NegativeMaxAge | NegativeMaxInactivity
| InvalidChannelName (cn : string)
| TooManyChannelsDefined (literals : Z).

Record channelLimitInfo := mkInfo {
  limits : ChannelLimits;
  isLiteral : bool;
  isProcessed : bool;
}.

(** ** Operations *)

(** A copy of a value with no shared pointers is the value. *)
Definition ClonePerChannelMap (sl : StoreLimits) : gmap string ChannelLimits := PerChannel sl.
Definition Clone (sl : StoreLimits) : StoreLimits :=
  mkStoreLimits (MaxChannels sl) (Global sl) (ClonePerChannelMap sl).

Definition AddPerChannel (sl : StoreLimits) (name : string) (cl : ChannelLimits) : StoreLimits :=
  mkStoreLimits (MaxChannels sl) (Global sl) (<[name := cl]> (PerChannel sl)).

Definition checkGlobalLimits (sl : StoreLimits) : option limits_error :=
  if MaxChannels sl <? 0 then Some NegativeMaxChannels
  else if MaxSubscriptions (Global sl) <? 0 then Some NegativeMaxSubscriptions
  else if MaxMsgs (Global sl) <? 0 then Some NegativeMaxMsgs
  else if MaxBytes (Global sl) <? 0 then Some NegativeMaxBytes
  else if MaxAge (Global sl) <? 0 then Some NegativeMaxAge
  else if MaxInactivity (Global sl) <? 0 then Some NegativeMaxInactivity
  else None.

(** One limit: negative means unlimited, 0 means inherited. *)
Definition inherit1 (v parent : Z) : Z :=
  if v <? 0 then 0 else if v =? 0 then parent else v.

Definition inherit (cl parentLimits : ChannelLimits) : ChannelLimits :=
  mkChannelLimits
    (inherit1 (MaxMsgs cl) (MaxMsgs parentLimits))
    (inherit1 (MaxBytes cl) (MaxBytes parentLimits))
    (inherit1 (MaxAge cl) (MaxAge parentLimits))
    (inherit1 (MaxSubscriptions cl) (MaxSubscriptions parentLimits))
    (inherit1 (MaxInactivity cl) (MaxInactivity parentLimits)).

Definition inheritLimits (channel : channelLimitInfo) (parentLimits : ChannelLimits)
  : channelLimitInfo :=
  mkInfo (inherit (limits channel) parentLimits) (isLiteral channel) true.

Abbreviation infos := (gmap string channelLimitInfo).

(** Dereferencing the pointer that a sublist element holds. *)
Definition deref (m : infos) (c : string) : outcome limits_error channelLimitInfo :=
  match m !! c with Some i => Ok i | None => Panic end.

Section Operations.
Context `{!RangeOrder string}.

(** The inner loop of [applyInheritance], from index 1 on. *)
Fixpoint inherit_chain (m : infos) (prev : string) (r : list string)
  : outcome limits_error infos :=
  match r with
  | [] => Ok m
  | c :: r' =>
      channel ← deref m c;
      m' ← (if isProcessed channel then Ok m
            else parent ← deref m prev;
                 Ok (<[c := inheritLimits channel (limits parent)]> m));
      inherit_chain m' c r'
  end.

Fixpoint inherit_channels (glob : ChannelLimits) (sublist : Sublist string) (m : infos)
  (channels : list string) : outcome limits_error infos :=
  match channels with
  | [] => Ok m
  | cn :: channels' =>
      let '(r, sublist') := Match sublist cn in
      match r with
      | [] => Panic
      | c0 :: r' =>
          channel ← deref m c0;
          if isLiteral channel && isProcessed channel
          then inherit_channels glob sublist' m channels'
          else
            let m1 := if isProcessed channel then m
                      else <[c0 := inheritLimits channel glob]> m in
            m2 ← inherit_chain m1 c0 r';
            inherit_channels glob sublist' m2 channels'
      end
  end.

Definition applyInheritance (sl : StoreLimits) (sublist : Sublist string) (m : infos)
  : outcome limits_error infos :=
  inherit_channels (Global sl) sublist m (Subjects sublist).

(** The loop of [Build] over the map: validation and insertion. *)
Fixpoint build_scan (maxChannels : Z) (l : list (string * ChannelLimits)) (literals : Z)
  (sublist : Sublist string) (m : infos) : outcome limits_error (Sublist string * infos) :=
  match l with
  | [] => Ok (sublist, m)
  | (cn, cl) :: l' =>
      if negb (ChannelName.IsChannelNameValid cn true) then Err (InvalidChannelName cn)
      else
        let isLit := ChannelName.IsChannelNameLiteral cn in
        let literals' := if isLit then literals + 1 else literals in
        if isLit && ((0 <? maxChannels) && (maxChannels <? literals'))
        then Err (TooManyChannelsDefined literals')
        else build_scan maxChannels l' literals' (Insert sublist cn cn).1
               (<[cn := mkInfo cl isLit false]> m)
  end.

Definition Build (sl : StoreLimits) : outcome limits_error StoreLimits :=
  match checkGlobalLimits sl with
  | Some e => Err e
  | None =>
      if bool_decide (PerChannel sl = ∅) then Ok sl
      else
        s ← build_scan (MaxChannels sl) (range (PerChannel sl)) 0 NewSublist ∅;
        m ← applyInheritance sl s.1 s.2;
        Ok (mkStoreLimits (MaxChannels sl) (Global sl) (limits <$> m))
  end.
End Operations.

(** ** Validation *)

Section Scan.
Context `{!RangeOrder string}.

Definition is_lit (c : string) : bool := ChannelName.IsChannelNameLiteral c.
Definition self (c : string) : string * string := (c, c).
Definition new_info (c : string) (cl : ChannelLimits) : channelLimitInfo :=
  mkInfo cl (is_lit c) false.
Definition add_info (m : infos) (x : string * ChannelLimits) : infos :=
  <[x.1 := new_info x.1 x.2]> m.

(** The number of literal names in a list. *)
Definition nlit (l : list string) : Z := Z.of_nat (length (filter (fun c => is_lit c = true) l)).

Lemma nlit_cons c l : nlit (c :: l) = (if is_lit c then 1 else 0) + nlit l.
Proof. unfold nlit. rewrite filter_cons. by destruct (is_lit c); simpl; lia. Qed.

Lemma nlit_nonneg l : 0 <= nlit l.
Proof. unfold nlit. lia. Qed.

Definition scan_ok (maxChannels lits : Z) (names : list string) : Prop :=
  Forall valid names /\ (0 < maxChannels -> lits + nlit names <= maxChannels).

Lemma build_scan_spec maxChannels l lits seen m :
  (0 < maxChannels -> lits <= maxChannels) ->
  match build_scan maxChannels l lits (build (self <$> seen)) m with
  | Ok (s', m') => scan_ok maxChannels lits l.*1 /\
      s' = build (self <$> (seen ++ l.*1)) /\ m' = foldl add_info m l
  | Err _ => ~ scan_ok maxChannels lits l.*1
  | Panic => False
  end.
Proof.
  revert lits seen m. induction l as [|[cn cl] l IH]; intros lits seen m Hl.
  { simpl. rewrite app_nil_r. repeat split; [constructor|]. unfold nlit. simpl. lia. }
  cbn [build_scan]. rewrite fmap_cons. cbn [fst].
  assert (Hsc : scan_ok maxChannels lits (cn :: l.*1) <-> valid cn /\ Forall valid l.*1 /\
            (0 < maxChannels -> lits + ((if is_lit cn then 1 else 0) + nlit l.*1) <= maxChannels)).
  { unfold scan_ok. rewrite Forall_cons, nlit_cons. tauto. }
  destruct (ChannelName.IsChannelNameValid cn true) eqn:Hv; cbn [negb].
  2:{ rewrite Hsc. intros [Hv' _]. unfold valid in Hv'. congruence. }
  fold (is_lit cn). pose proof (nlit_nonneg l.*1) as Hn.
  set (lits' := if is_lit cn then lits + 1 else lits).
  assert (Hlits : lits' = lits + (if is_lit cn then 1 else 0)) by (subst lits'; destruct (is_lit cn); lia).
  destruct (is_lit cn && ((0 <? maxChannels) && (maxChannels <? lits'))) eqn:Hb.
  { apply andb_true_iff in Hb as [Hlit [Hm Hb]%andb_true_iff].
    apply Z.ltb_lt in Hm, Hb. rewrite Hlit in *. rewrite Hsc. intros (_ & _ & Hbound). lia. }
  specialize (IH lits' (seen ++ [cn]) (add_info m (cn, cl))).
  rewrite fmap_app in IH. change (self <$> [cn]) with [(cn, cn)] in IH.
  rewrite build_snoc in IH. 
  change (add_info m (cn, cl)) with (<[cn := mkInfo cl (is_lit cn) false]> m) in IH.
  assert (Hl' : 0 < maxChannels -> lits' <= maxChannels).
  { intros Hm. specialize (Hl Hm). apply andb_false_iff in Hb as [Hb|Hb].
    - rewrite Hb in Hlits. lia.
    - apply andb_false_iff in Hb as [Hb|Hb]; [apply Z.ltb_ge in Hb|apply Z.ltb_ge in Hb]; lia. }
  specialize (IH Hl').
  destruct (build_scan _ _ _ _ _) as [[s' m']|e|]; [..|done].
  - destruct IH as [[Hf Hbound] [-> ->]]. rewrite <- app_assoc, Hsc. split_and!; try done. lia.
  - rewrite Hsc. intros (_ & Hf & Hbound). apply IH. split; [done|]. lia.
Qed.

Lemma foldl_add_info_notin l m c : c ∉ l.*1 -> foldl add_info m l !! c = m !! c.
Proof.
  revert m. induction l as [|[cn cl] l IH]; intros m Hc; [done|].
  rewrite fmap_cons, not_elem_of_cons in Hc. destruct Hc as [Hne Hc]. simpl.
  rewrite IH by done. unfold add_info. by rewrite lookup_insert_ne.
Qed.

Lemma foldl_add_info l m c cl :
  NoDup l.*1 -> (c, cl) ∈ l -> foldl add_info m l !! c = Some (new_info c cl).
Proof.
  revert m. induction l as [|[cn cl'] l IH]; intros m Hnd Hin; [by apply elem_of_nil in Hin|].
  inversion Hnd; subst. simpl. apply elem_of_cons in Hin as [[= <- <-]|Hin]; [|by apply IH].
  rewrite foldl_add_info_notin by done. unfold add_info. by rewrite lookup_insert_eq.
Qed.

Lemma foldl_add_info_range (P : gmap string ChannelLimits) c :
  foldl add_info ∅ (range P) !! c = new_info c <$> P !! c.
Proof.
  destruct (P !! c) as [cl|] eqn:Hc; simpl.
  - apply foldl_add_info; [apply NoDup_range_fst|by apply elem_of_range].
  - apply foldl_add_info_notin. intros Hin.
    apply list_elem_of_fmap in Hin as ([c' cl] & -> & Hin).
    apply elem_of_range in Hin. simpl in *. congruence.
Qed.
End Scan.

(** ** Literal names *)

Section Literals.
Lemma string_forall_tokens f s t :
  string_forall f s = true -> t ∈ tokens s -> string_forall f t = true.
Proof.
  revert t. induction s as [|c s IH]; intros t Hs Ht.
  - apply list_elem_of_singleton in Ht. by subst.
  - simpl in Hs. apply andb_true_iff in Hs as [Hc Hs]. simpl in Ht.
    destruct (Ascii.eqb c btsep).
    + apply elem_of_cons in Ht as [->|Ht]; [done|by apply IH].
    + destruct (tokens s) as [|t0 ts] eqn:Hts; [by apply tokens_nonempty in Hts|].
      apply elem_of_cons in Ht as [->|Ht].
      * simpl. rewrite Hc. apply IH; [done|by left].
      * apply IH; [done|by right].
Qed.

Lemma literal_path c : is_lit c = true -> path c = Lit <$> tokens c.
Proof.
  unfold is_lit. rewrite ChannelName.IsChannelNameLiteral_spec. intros Hl. unfold path.
  apply list_fmap_ext. intros i t Hi. apply list_elem_of_lookup_2 in Hi.
  pose proof (string_forall_tokens _ _ _ Hl Hi) as Ht. destruct t as [|a t]; [done|].
  simpl in *. unfold is_wild in Ht. by destruct (Ascii.eqb a pwc), (Ascii.eqb a fwc).
Qed.

Lemma matches_lits ts toks : matches (Lit <$> ts) toks -> toks = ts.
Proof.
  revert toks. induction ts as [|t ts IH]; intros toks H; inversion H; subst; [done|].
  f_equal. by apply IH.
Qed.

Lemma patterns_last toks : exists ps, patterns toks = ps ++ [Lit <$> toks].
Proof.
  induction toks as [|t ts [ps IH]]; [by exists []|]. simpl. rewrite IH.
  eexists ([Fwc] :: _ ++ _). rewrite !fmap_app. simpl. by rewrite app_assoc.
Qed.
End Literals.

(** ** Inheritance *)

Section Inherit.
Context `{!RangeOrder string}.
Context (names : list string) (Hvalid : Forall valid names) (Hnodup : NoDup names).
Context (orig : gmap string ChannelLimits) (glob : ChannelLimits).

(** The names whose pattern matches [cn], from the widest to the narrowest:
    what [Match] returns on the sublist that [Build] makes. *)
Definition matchers (cn : string) : list string :=
  patterns (tokens cn) ≫= named (self <$> names).

Lemma elem_of_self c e : (c, e) ∈ self <$> names <-> c = e /\ c ∈ names.
Proof.
  rewrite list_elem_of_fmap. split.
  - intros (? & [= -> ->] & ?). done.
  - intros [-> ?]. by exists e.
Qed.

Lemma elem_of_matchers c cn : c ∈ matchers cn <-> c ∈ names /\ matches (path c) (tokens cn).
Proof.
  unfold matchers. rewrite list_elem_of_bind. split.
  - intros (p & (x & [-> Hx]%elem_of_self & <-)%elem_of_named & Hp%elem_of_patterns). done.
  - intros [Hc Hm]. exists (path c). split; [|by apply elem_of_patterns].
    apply elem_of_named. exists c. by rewrite elem_of_self.
Qed.

Lemma self_valid : Forall (fun x => valid x.1) (self <$> names).
Proof. by apply Forall_fmap. Qed.

Lemma self_nodup : NoDup (self <$> names).*1.
Proof. rewrite <- list_fmap_compose. simpl. by rewrite list_fmap_id. Qed.

Lemma matches_key_of ts : accepted ts = true -> matches (key_of <$> ts) ts.
Proof.
  induction ts as [|t ts IH]; [constructor|]. cbn [accepted]. rewrite fmap_cons. intros H.
  apply andb_true_iff in H as [H Hts]. specialize (IH Hts).
  destruct (key_of t) as [| |t'] eqn:Hk.
  - by constructor.
  - destruct ts; [constructor|]. by rewrite andb_false_r in H.
  - assert (t' = t) as ->; [|by constructor].
    unfold key_of in Hk. destruct t as [|a t]; [congruence|].
    destruct (Ascii.eqb a pwc), (Ascii.eqb a fwc); congruence.
Qed.

Lemma in_own_matchers c : c ∈ names -> c ∈ matchers c.
Proof.
  intros Hc. apply elem_of_matchers. split; [done|]. apply matches_key_of, valid_accepted.
  by apply (proj1 (Forall_forall _ _) Hvalid).
Qed.

(** A literal comes last among the names that match, and is found only by
    its own name. *)
Lemma matchers_literal c cn :
  is_lit c = true -> c ∈ matchers cn ->
  cn = c /\ exists r0, matchers c = r0 ++ [c] /\ c ∉ r0 /\
    forall q, q ∈ r0 <-> q <> c /\ q ∈ names /\ matches (path q) (tokens c).
Proof.
  intros Hl Hc. apply elem_of_matchers in Hc as [Hin Hm].
  assert (cn = c) as ->.
  { rewrite literal_path in Hm by done. apply matches_lits in Hm. by apply tokens_inj. }
  split; [done|]. destruct (patterns_last (tokens c)) as [ps Hps].
  assert (Hn : named (self <$> names) (path c) = [c]).
  { apply named_singleton; [apply self_valid|apply self_nodup|]. by apply elem_of_self. }
  assert (Hr : matchers c = (ps ≫= named (self <$> names)) ++ [c]).
  { unfold matchers. rewrite Hps, bind_app, bind_cons, <- literal_path, Hn by done. done. }
  assert (Hnot : c ∉ ps ≫= named (self <$> names)).
  { rewrite list_elem_of_bind. intros (p & Hp & Hpp).
    apply elem_of_named in Hp as (x & [-> _]%elem_of_self & <-).
    pose proof (NoDup_patterns (tokens c)) as Hnd. rewrite Hps, <- literal_path in Hnd by done.
    apply NoDup_app in Hnd as (_ & Hd & _). by eapply Hd; [exact Hpp|left]. }
  eexists. split_and!; [exact Hr|done|]. intros q.
  pose proof (elem_of_matchers q c) as Hq. rewrite Hr, elem_of_app, list_elem_of_singleton in Hq.
  split; [|tauto]. intros Hq0. split; [congruence|]. apply Hq. by left.
Qed.

(** A name that comes before another one in a match is not narrower. *)
Lemma matchers_before cn r1 c r2 p :
  matchers cn = r1 ++ c :: r2 -> p ∈ r1 -> ~ covers (path c) (path p).
Proof.
  intros Hm Hp.
  destruct (bind_before _ _ _ _ _ _ (fun p => length_named _ p self_valid self_nodup) Hm Hp)
    as (i & j & x & y & Hij & Hx & Hy & Hpx & Hcy).
  apply elem_of_named in Hpx as (? & [-> _]%elem_of_self & <-).
  apply elem_of_named in Hcy as (? & [-> _]%elem_of_self & <-).
  by eapply patterns_sorted.
Qed.

(** The last name before a literal is as narrow as possible. *)
Lemma matchers_last_narrowest c r0 p q :
  is_lit c = true -> matchers c = r0 ++ [c] -> last r0 = Some p -> q ∈ r0 ->
  covers (path p) (path q) -> q = p.
Proof.
  intros Hl Hm Hp Hq Hc. apply last_Some in Hp as [r1 ->].
  apply elem_of_app in Hq as [Hq|Hq]; [|by apply list_elem_of_singleton in Hq].
  rewrite <- app_assoc in Hm. by destruct (matchers_before _ _ _ _ _ Hm Hq).
Qed.

(** *** The invariant of the loops *)

Definition nonneg (cl : ChannelLimits) : Prop :=
  0 <= MaxMsgs cl /\ 0 <= MaxBytes cl /\ 0 <= MaxAge cl /\ 0 <= MaxSubscriptions cl /\
  0 <= MaxInactivity cl.

Lemma inherit_nonneg cl parent : nonneg parent -> nonneg (inherit cl parent).
Proof.
  assert (H1 : forall v w, 0 <= w -> 0 <= inherit1 v w).
  { intros v w Hw. unfold inherit1. destruct (Z.ltb_spec v 0), (Z.eqb_spec v 0); lia. }
  intros (? & ? & ? & ? & ?). repeat split; simpl; by apply H1.
Qed.

Definition processed (m : infos) (c : string) : Prop :=
  exists i, m !! c = Some i /\ isProcessed i = true.

(** The limits from which [c] inherited: those of the name before it in the
    result of some match, or the global ones when it was first. *)
Definition parent_ok (m : infos) (c : string) (parent : ChannelLimits) : Prop :=
  exists cn r1 r2, matchers cn = r1 ++ c :: r2 /\
    match last r1 with
    | None => parent = glob
    | Some p => exists ip, m !! p = Some ip /\ isProcessed ip = true /\ limits ip = parent
    end.

Record inv (m : infos) : Prop := {
  inv_dom c : c ∈ names <-> is_Some (m !! c);
  inv_lit c i : m !! c = Some i -> isLiteral i = is_lit c;
  inv_todo c i : m !! c = Some i -> isProcessed i = false -> orig !! c = Some (limits i);
  inv_done c i : m !! c = Some i -> isProcessed i = true ->
    exists cl parent, orig !! c = Some cl /\ limits i = inherit cl parent /\ parent_ok m c parent;
  inv_nonneg c i : m !! c = Some i -> isProcessed i = true -> nonneg glob -> nonneg (limits i)
}.

(** Processed entries do not change any more. *)
Definition extends (m m' : infos) : Prop :=
  forall c i, m !! c = Some i -> isProcessed i = true -> m' !! c = Some i.

Lemma processed_mono m m' c : extends m m' -> processed m c -> processed m' c.
Proof. intros He (i & Hi & Hp). exists i. eauto. Qed.

Lemma parent_ok_mono m m' c parent :
  extends m m' -> parent_ok m c parent -> parent_ok m' c parent.
Proof.
  intros He (cn & r1 & r2 & Hm & Hp). exists cn, r1, r2. split; [done|].
  destruct (last r1); [|done]. destruct Hp as (ip & H1 & H2 & H3). exists ip. eauto.
Qed.

(** Processing one more name. *)
Lemma inherit_one m c i parent :
  inv m -> m !! c = Some i -> isProcessed i = false -> parent_ok m c parent ->
  let m' := <[c := inheritLimits i parent]> m in
  inv m' /\ extends m m' /\ processed m' c.
Proof.
  intros Hinv Hi Hp Hpar m'.
  assert (He : extends m m').
  { intros c' i' Hi' Hp'. unfold m'. rewrite lookup_insert_ne; [done|]. congruence. }
  split_and!; [|done|].
  2:{ exists (inheritLimits i parent). unfold m'. by rewrite lookup_insert_eq. }
  constructor.
  - intros c'. rewrite (inv_dom _ Hinv). unfold m'. rewrite lookup_insert.
    case_decide; [subst|done]. by rewrite Hi.
  - intros c' i'. unfold m'. rewrite lookup_insert. case_decide; [|by apply Hinv].
    intros [= <-]. subst. by apply (inv_lit _ Hinv _ i).
  - intros c' i'. unfold m'. rewrite lookup_insert. case_decide; [by intros [= <-]|by apply Hinv].
  - intros c' i' Hi' Hp'. unfold m' in Hi'. rewrite lookup_insert in Hi'. case_decide.
    + injection Hi' as <-. subst c'. exists (limits i), parent. split_and!.
      * by apply Hinv.
      * done.
      * by eapply parent_ok_mono.
    + destruct (inv_done _ Hinv _ _ Hi' Hp') as (cl & par & ? & ? & ?).
      exists cl, par. split_and!; [done|done|by eapply parent_ok_mono].
  - intros c' i' Hi' Hp' Hg. unfold m' in Hi'. rewrite lookup_insert in Hi'.
    case_decide; [|by eapply inv_nonneg].
    injection Hi' as <-. apply inherit_nonneg. destruct Hpar as (cn & r1 & r2 & _ & Hpar).
    destruct (last r1); [|by subst]. destruct Hpar as (ip & Hip & Hpp & <-).
    by eapply inv_nonneg.
Qed.

Lemma deref_Ok m c : inv m -> c ∈ names -> exists i, deref m c = Ok i /\ m !! c = Some i.
Proof.
  intros Hinv Hc. apply (inv_dom _ Hinv) in Hc as [i Hi]. exists i.
  unfold deref. by rewrite Hi.
Qed.

Lemma inherit_chain_spec cn r1 prev r m :
  inv m -> matchers cn = r1 ++ prev :: r -> processed m prev ->
  exists m', inherit_chain m prev r = Ok m' /\ inv m' /\ extends m m' /\
    forall c, c ∈ r -> processed m' c.
Proof.
  revert r1 prev m. induction r as [|c r IH]; intros r1 prev m Hinv Hm Hprev.
  { exists m. split_and!; [done|done|by intros ?|]. by intros ? ?%elem_of_nil. }
  assert (Hc : c ∈ names).
  { apply (elem_of_matchers c cn). rewrite Hm. set_solver. }
  destruct (deref_Ok m c Hinv Hc) as (i & Hd & Hi). cbn [inherit_chain]. rewrite Hd. simpl.
  assert (Hm' : matchers cn = (r1 ++ [prev]) ++ c :: r) by by rewrite <- app_assoc.
  assert (Hstep : exists m1, (if isProcessed i then Ok m else
      parent ← deref m prev; Ok (<[c := inheritLimits i (limits parent)]> m)) = Ok m1 /\
      inv m1 /\ extends m m1 /\ processed m1 c).
  { destruct (isProcessed i) eqn:Hp.
    - exists m. split_and!; [done|done|by intros ?|by exists i].
    - destruct Hprev as (ip & Hip & Hpp). unfold deref. rewrite Hip. simpl.
      eexists. split; [done|]. apply inherit_one; [done|done|done|].
      exists cn, (r1 ++ [prev]), r. split; [done|]. rewrite last_snoc. by exists ip. }
  destruct Hstep as (m1 & -> & Hinv1 & He1 & Hp1). simpl.
  destruct (IH _ _ _ Hinv1 Hm' Hp1) as (m2 & Heq & Hinv2 & He2 & Hall).
  exists m2. split_and!; [done|done| |].
  - intros c' i' Hi' Hp'. by apply He2; [apply He1|].
  - intros c' [->|Hc']%elem_of_cons; [by eapply processed_mono|by apply Hall].
Qed.

(** The elements of the sublist are the names. *)
Definition sublist_ok (s : Sublist string) : Prop :=
  cache_exact s /\ root s = root (build (self <$> names)).

Lemma Match_matchers s cn :
  sublist_ok s -> (Match s cn).1 = matchers cn /\ sublist_ok (Match s cn).2.
Proof.
  intros [Hc Hr]. destruct (Match_exact s cn Hc) as (Hm & Hr' & Hc').
  split; [|by split; [|rewrite Hr']]. rewrite Hm, Hr.
  apply matchLevel_build; [apply self_valid|apply self_nodup|apply tokens_nonempty].
Qed.

Lemma inherit_channels_spec channels s m :
  sublist_ok s -> inv m -> (forall cn, cn ∈ channels -> cn ∈ names) ->
  exists m', inherit_channels glob s m channels = Ok m' /\ inv m' /\ extends m m' /\
    forall cn, cn ∈ channels -> processed m' cn.
Proof.
  revert s m. induction channels as [|cn channels IH]; intros s m Hs Hinv Hall.
  { exists m. split_and!; [done|done|by intros ?|]. by intros ? ?%elem_of_nil. }
  destruct (Match_matchers s cn Hs) as [Hm Hs']. cbn [inherit_channels].
  destruct (Match s cn) as [r s'] eqn:HM. simpl in Hm, Hs'. subst r.
  assert (Hcn : cn ∈ matchers cn) by (apply in_own_matchers, Hall; by left).
  destruct (matchers cn) as [|c0 r] eqn:Hr; [by apply elem_of_nil in Hcn|].
  assert (Hc0 : c0 ∈ matchers cn) by (rewrite Hr; by left).
  destruct (deref_Ok m c0 Hinv) as (i & Hd & Hi); [by apply (elem_of_matchers c0 cn)|].
  rewrite Hd. cbn [mbind outcome_bind].
  assert (Hrest : forall m', inv m' -> extends m m' -> processed m' cn ->
    exists m'', inherit_channels glob s' m' channels = Ok m'' /\ inv m'' /\ extends m m'' /\
      forall c, c ∈ cn :: channels -> processed m'' c).
  { intros m' Hinv' He' Hp'. destruct (IH s' m' Hs' Hinv') as (m'' & Heq & Hinv'' & He'' & Hp'').
    { intros c Hc. apply Hall. by right. }
    exists m''. split_and!; [done|done| |].
    - intros c ic Hic Hpc. by apply He''; [apply He'|].
    - intros c [->|Hc]%elem_of_cons; [by eapply processed_mono|by apply Hp'']. }
  destruct (isLiteral i && isProcessed i) eqn:Hlp.
  - apply andb_true_iff in Hlp as [Hl Hp]. rewrite (inv_lit _ Hinv _ _ Hi) in Hl.
    destruct (matchers_literal c0 cn Hl Hc0) as [-> _].
    apply Hrest; [done|by intros ?|by exists i].
  - set (m1 := if isProcessed i then m else _).
    assert (Hm1 : inv m1 /\ extends m m1 /\ processed m1 c0).
    { subst m1. destruct (isProcessed i) eqn:Hp.
      - split_and!; [done|by intros ?|by exists i].
      - apply inherit_one; [done|done|done|]. by exists cn, [], r. }
    destruct Hm1 as (Hinv1 & He1 & Hp1).
    destruct (inherit_chain_spec cn [] c0 r m1 Hinv1 Hr Hp1) as (m2 & -> & Hinv2 & He2 & Hp2).
    simpl. apply Hrest; [done| |].
    + intros c ic Hic Hpc. by apply He2; [apply He1|].
    + apply elem_of_cons in Hcn as [->|Hcn]; [by eapply processed_mono|by apply Hp2].
Qed.
End Inherit.

(** ** What [Build] does *)

Section BuildSpec.
Context `{!RangeOrder string}.
Implicit Types (sl : StoreLimits).

Definition channel_names sl : list string := (range (PerChannel sl)).*1.

Lemma elem_of_channel_names sl c : c ∈ channel_names sl <-> is_Some (PerChannel sl !! c).
Proof.
  unfold channel_names. by rewrite range_fst, elem_of_order, elem_of_dom.
Qed.

Lemma checkGlobalLimits_None sl :
  checkGlobalLimits sl = None <-> 0 <= MaxChannels sl /\ nonneg (Global sl).
Proof.
  unfold checkGlobalLimits, nonneg.
  repeat match goal with |- context [?a <? 0] => destruct (Z.ltb_spec a 0) end;
    split; intros; try done; lia || tauto.
Qed.

(** The objects that the scan of the map creates satisfy the invariant. *)
Lemma scan_inv sl :
  inv (channel_names sl) (PerChannel sl) (Global sl) (foldl add_info ∅ (range (PerChannel sl))).
Proof.
  constructor.
  - intros c. rewrite elem_of_channel_names, foldl_add_info_range. by rewrite fmap_is_Some.
  - intros c i. rewrite foldl_add_info_range. intros (cl & _ & ->)%fmap_Some. done.
  - intros c i. rewrite foldl_add_info_range. intros (cl & Hc & ->)%fmap_Some _. done.
  - intros c i. rewrite foldl_add_info_range. intros (cl & _ & ->)%fmap_Some. done.
  - intros c i. rewrite foldl_add_info_range. intros (cl & _ & ->)%fmap_Some. done.
Qed.

Definition buildable sl : Prop :=
  checkGlobalLimits sl = None /\ scan_ok (MaxChannels sl) 0 (channel_names sl).

(** The processed objects that inheritance leaves. *)
Definition inherited sl (m : infos) : Prop :=
  inv (channel_names sl) (PerChannel sl) (Global sl) m /\
  forall c, c ∈ channel_names sl -> processed m c.

Lemma Build_cases sl :
  (buildable sl /\ exists m, inherited sl m /\
     Build sl = Ok (mkStoreLimits (MaxChannels sl) (Global sl) (limits <$> m))) \/
  (~ buildable sl /\ exists e, Build sl = Err e).
Proof.
  unfold Build, buildable. destruct (checkGlobalLimits sl) as [e|] eqn:Hg.
  { right. split; [by intros [? _]|by eexists]. }
  pose proof (proj1 (checkGlobalLimits_None sl) Hg) as [Hmax _].
  pose proof (build_scan_spec (MaxChannels sl) (range (PerChannel sl)) 0 [] ∅
    ltac:(lia)) as Hscan.
  fold (channel_names sl) in Hscan. case_bool_decide as Hemp.
  - left. assert (Hr : range (PerChannel sl) = []).
    { apply length_zero_iff_nil. by rewrite length_range, Hemp, map_size_empty. }
    assert (Hn : channel_names sl = []) by (unfold channel_names; by rewrite Hr).
    rewrite Hn. split; [split; [done|split; [constructor|]]; unfold nlit; simpl; lia|].
    exists ∅. unfold inherited. rewrite Hn. split_and!.
    + pose proof (scan_inv sl) as Hinv. by rewrite Hr, Hn in Hinv.
    + by intros c ?%elem_of_nil.
    + rewrite fmap_empty, <- Hemp. by destruct sl.
  - change (self <$> []) with (@nil (string * string)) in Hscan.
    change (build []) with (@NewSublist string) in Hscan.
    destruct (build_scan _ _ _ _ _) as [[s m]|e|]; [|right; split; [by intros [_ ?]|by eexists]|done].
    destruct Hscan as (Hok & -> & ->). left. split; [done|]. simpl.
    destruct Hok as [Hv _]. unfold applyInheritance.
    assert (Hnd : NoDup (channel_names sl)) by apply NoDup_range_fst.
    edestruct (inherit_channels_spec (channel_names sl) Hv Hnd (PerChannel sl) (Global sl)
      (Subjects (build (self <$> channel_names sl)))) as (m & -> & Hinv & _ & Hp);
      [split; [apply build_exact|done]|apply scan_inv| |].
    { intros cn. rewrite elem_of_Subjects by by apply self_valid.
      rewrite <- list_fmap_compose. simpl. by rewrite list_fmap_id. }
    exists m. split; [|done]. split; [done|]. intros c Hc. apply Hp.
    rewrite elem_of_Subjects by by apply self_valid.
    rewrite <- list_fmap_compose. simpl. by rewrite list_fmap_id.
Qed.

Lemma nlit_perm l l' : l ≡ₚ l' -> nlit l = nlit l'.
Proof. intros H. unfold nlit. by rewrite H. Qed.

(** Validation is exact, whatever order the map is visited in: [Build] never
    panics, and it succeeds exactly when no global limit is negative, every
    per-channel name is well formed, and there are no more literal names than
    [MaxChannels] when that limit is set. *)
Theorem Build_total sl :
  Build sl <> Panic /\
  ((exists sl', Build sl = Ok sl') <->
   0 <= MaxChannels sl /\ nonneg (Global sl) /\
   (forall c, is_Some (PerChannel sl !! c) -> valid c) /\
   (0 < MaxChannels sl -> nlit (map_to_list (PerChannel sl)).*1 <= MaxChannels sl)).
Proof.
  assert (Hb : buildable sl <-> 0 <= MaxChannels sl /\ nonneg (Global sl) /\
    (forall c, is_Some (PerChannel sl !! c) -> valid c) /\
    (0 < MaxChannels sl -> nlit (map_to_list (PerChannel sl)).*1 <= MaxChannels sl)).
  { unfold buildable, scan_ok. rewrite checkGlobalLimits_None, Forall_forall.
    setoid_rewrite elem_of_channel_names.
    rewrite (nlit_perm (channel_names sl) (map_to_list (PerChannel sl)).*1) by
      (unfold channel_names; by rewrite range_perm).
    rewrite Z.add_0_l. tauto. }
  rewrite <- Hb. destruct (Build_cases sl) as [(H & m & _ & ->)|(H & e & ->)].
  - split; [done|]. split; [done|]. by eexists.
  - split; [done|]. split; [by intros [? ?]|done].
Qed.

Lemma Build_lookup sl sl' :
  Build sl = Ok sl' -> exists m, inherited sl m /\ buildable sl /\
    sl' = mkStoreLimits (MaxChannels sl) (Global sl) (limits <$> m).
Proof.
  intros Hb. destruct (Build_cases sl) as [(H & m & Hm & Heq)|(H & e & Heq)];
    rewrite Hb in Heq; [|done]. injection Heq as ->. by exists m.
Qed.

Lemma inherited_lookup sl m c cl :
  inherited sl m -> PerChannel sl !! c = Some cl ->
  exists i parent, m !! c = Some i /\ isProcessed i = true /\ limits i = inherit cl parent /\
    parent_ok (channel_names sl) (Global sl) m c parent.
Proof.
  intros [Hinv Hp] Hc. destruct (Hp c) as (i & Hi & Hip); [by apply elem_of_channel_names; eexists|].
  destruct (inv_done _ _ _ _ Hinv _ _ Hi Hip) as (cl' & parent & Hcl & Hl & Hok).
  rewrite Hc in Hcl. injection Hcl as <-. by exists i, parent.
Qed.

(** Inheritance is applied to every per-channel limit exactly once, and to
    nothing else: in the result each limit is the original one, with its
    negative values turned into 0 (unlimited) and its zero values taken from
    the resulting limits of another entry whose pattern is not narrower, or
    from the global limits; no limit is negative any more. *)
Theorem Build_inherits sl sl' :
  Build sl = Ok sl' ->
  MaxChannels sl' = MaxChannels sl /\ Global sl' = Global sl /\
  (forall c, is_Some (PerChannel sl' !! c) <-> is_Some (PerChannel sl !! c)) /\
  forall c cl, PerChannel sl !! c = Some cl ->
    exists parent, PerChannel sl' !! c = Some (inherit cl parent) /\
      nonneg (inherit cl parent) /\
      (parent = Global sl \/
       exists p, PerChannel sl' !! p = Some parent /\ ~ covers (path c) (path p)).
Proof.
  intros Hb. apply Build_lookup in Hb as (m & Hm & [Hg [Hv _]] & ->). simpl.
  split_and!; [done|done| |].
  - intros c. rewrite lookup_fmap, fmap_is_Some, <- elem_of_channel_names.
    symmetry. by apply (proj1 Hm).
  - intros c cl Hc. destruct (inherited_lookup _ _ _ _ Hm Hc) as (i & parent & Hi & Hip & Hl & Hok).
    exists parent. rewrite lookup_fmap, Hi. simpl. rewrite Hl. split_and!; [done| |].
    { rewrite <- Hl. eapply inv_nonneg; [apply Hm|done|done|]. by apply checkGlobalLimits_None. }
    destruct Hok as (cn & r1 & r2 & Hr & Hpar).
    destruct (last r1) as [p|] eqn:Hlast; [right|by left].
    destruct Hpar as (ip & Hip' & _ & <-). exists p. split.
    + by rewrite lookup_fmap, Hip'.
    + eapply matchers_before; [done|apply NoDup_range_fst|done|by apply last_Some_elem_of].
Qed.

(** A literal channel left at 0 inherits from the right entry: the narrowest
    wildcard pattern of the map that matches it, with that pattern's own
    inheritance already applied, or the global limits when no pattern
    matches. *)
Theorem Build_literal sl sl' c cl :
  Build sl = Ok sl' -> PerChannel sl !! c = Some cl -> is_lit c = true ->
  exists parent, PerChannel sl' !! c = Some (inherit cl parent) /\
    ((parent = Global sl /\
      forall q, is_Some (PerChannel sl !! q) -> matches (path q) (tokens c) -> q = c) \/
     exists p, p <> c /\ PerChannel sl' !! p = Some parent /\ matches (path p) (tokens c) /\
       forall q, is_Some (PerChannel sl !! q) -> q <> c -> matches (path q) (tokens c) ->
         covers (path p) (path q) -> q = p).
Proof.
  intros Hb Hc Hl. apply Build_lookup in Hb as (m & Hm & [_ [Hv _]] & ->). simpl.
  assert (Hnd : NoDup (channel_names sl)) by apply NoDup_range_fst.
  destruct (inherited_lookup _ _ _ _ Hm Hc) as (i & parent & Hi & _ & Hli & (cn & r1 & r2 & Hr & Hpar)).
  exists parent. rewrite lookup_fmap, Hi. simpl. rewrite Hli. split; [done|].
  destruct (matchers_literal (channel_names sl) Hv Hnd c cn Hl) as [-> (r0 & Hr0 & Hn & Hq)].
  { rewrite Hr. set_solver. }
  assert (r1 = r0) as ->.
  { rewrite Hr0 in Hr. by eapply app_cons_snoc. }
  setoid_rewrite <- elem_of_channel_names.
  destruct (last r0) as [p|] eqn:Hlast; [right|left].
  - destruct Hpar as (ip & Hip & _ & <-). exists p.
    assert (Hp : p ∈ r0) by by apply last_Some_elem_of. apply Hq in Hp as (Hne & Hin & Hmp).
    split_and!; [done|by rewrite lookup_fmap, Hip|done|].
    intros q Hqin Hqc Hqm. eapply matchers_last_narrowest; try done. by apply Hq.
  - split; [done|]. intros q Hqin Hqm. destruct (decide (q = c)) as [|Hne]; [done|].
    apply last_None in Hlast. subst r0.
    assert (Hq0 : q ∈ ([] : list string)) by by apply Hq. by apply elem_of_nil in Hq0.
Qed.
End BuildSpec.

(** ** Concrete limits *)

Definition only_msgs (n : Z) : ChannelLimits := mkChannelLimits n 0 0 0 0.

Definition sample_limits : StoreLimits :=
  mkStoreLimits 10 (mkChannelLimits 100 1000 0 7 0)
    (list_to_map [(">", only_msgs 50); ("foo.*", only_msgs (-1)); ("foo.bar", only_msgs 0);
                  ("baz", mkChannelLimits 0 20 0 (-3) 0)]%string).

Definition sample_built : StoreLimits :=
  mkStoreLimits 10 (mkChannelLimits 100 1000 0 7 0)
    (list_to_map [(">", mkChannelLimits 50 1000 0 7 0); ("foo.*", mkChannelLimits 0 1000 0 7 0);
                  ("foo.bar", mkChannelLimits 0 1000 0 7 0);
                  ("baz", mkChannelLimits 50 20 0 0 0)]%string).

Lemma Build_inherits_witness :
  exists parent, PerChannel sample_built !! "baz"%string
      = Some (inherit (mkChannelLimits 0 20 0 (-3) 0) parent) /\
    nonneg (inherit (mkChannelLimits 0 20 0 (-3) 0) parent).
Proof.
  destruct (@Build_inherits (default_order string) sample_limits sample_built) as (_ & _ & _ & H).
  - vm_compute. reflexivity.
  - destruct (H "baz"%string (mkChannelLimits 0 20 0 (-3) 0)) as (parent & H1 & H2 & _).
    + vm_compute. reflexivity.
    + exists parent. split; assumption.
Defined.

Lemma Build_literal_witness :
  exists parent, PerChannel sample_built !! "foo.bar"%string = Some (inherit (only_msgs 0) parent).
Proof.
  destruct (@Build_literal (default_order string) sample_limits sample_built "foo.bar" (only_msgs 0))
    as (parent & H & _); [vm_compute; reflexivity..|].
  exists parent. exact H.
Defined.

(** Wildcards with no literal in common prefix order. *)
Definition crossing_limits : StoreLimits :=
  mkStoreLimits 0 (only_msgs 100)
    (list_to_map [("*.>", only_msgs 10); ("*.*", only_msgs 5); ("a.>", only_msgs 0)]%string).

(** A wildcard entry may inherit from an entry that does not cover it: with
    limits on [*.>] (10), [*.*] (5) and [a.>] (0), the channels of [a.>] get the
    limit 5 of [*.*], which does not match [a.b.c], and not the limit 10 of
    [*.>], which covers [a.>]. *)
Theorem Build_wildcard_crossing :
  exists sl', @Build (default_order string) crossing_limits = Ok sl' /\
    PerChannel sl' !! "a.>"%string = Some (only_msgs 5) /\
    PerChannel sl' !! "*.>"%string = Some (only_msgs 10) /\
    PerChannel sl' !! "*.*"%string = Some (only_msgs 5) /\
    matches (path "a.>") (tokens "a.b.c") /\ ~ matches (path "*.*") (tokens "a.b.c") /\
    covers (path "*.>") (path "a.>").
Proof.
  eexists. split; [vm_compute; reflexivity|]. do 3 (split; [vm_compute; reflexivity|]).
  split_and!.
  - repeat constructor.
  - intros H. inversion H as [| |? ? ? H'|]; subst. inversion H' as [| |? ? ? H''|]; subst.
    inversion H''.
  - intros toks H. inversion H as [| | |? ? ? H']; subst. inversion H'; subst. repeat constructor.
Qed.
