(* ===== verification/MemStore.v ===== *)
(** * The in-memory message store

    Model of [MemoryMsgStore] ([src/stores/memstore.go]) with the fields and
    methods it takes from [genericMsgStore] ([src/stores/common.go]).  The
    methods run under the store's lock, so each is one step.  Clock readings
    are arguments.  The size of a message is that of its protobuf encoding,
    which is code of another repository ([stan.go]): it is a parameter; that a
    nil message has size 0 is what the generated [Size] methods do.

    The age timer is the only source of concurrency: [time.AfterFunc] starts
    [expireMsgs] in a goroutine of its own, which may run after other methods
    took the lock.  A timer is armed with a deadline or idle (it fired, or it was
    stopped), and the calls of [expireMsgs] that started and wait for the lock are
    counted by the state of the last part of this file. *)

From Stdlib Require Import ZArith Lia Ascii String.
From stdpp Require Import base list gmap strings.
From S2P Require Import Prelude Bytes GoLib.

Local Open Scope Z_scope.

(** ** Data *)

(** [pb.MsgProto] *)
Record MsgProto := mkMsg {
  Sequence : Z;
  Subject : string;
  Reply : string;
  Data : list byte;
  Timestamp : Z;
  Redelivered : bool;
  RedeliveryCount : Z;
  CRC32 : Z;
}.

Module Mem.

Record MsgStoreLimits := mkLimits {
  MaxMsgs : Z;
  MaxBytes : Z;
  MaxAge : Z;
}.

Record MemoryMsgStore := mkMemoryMsgStore {
  closed : bool;
  limits : MsgStoreLimits;
  first : Z;
  last : Z;
  totalCount : Z;
  totalBytes : Z;
  hitLimit : bool;
  msgs : gmap Z MsgProto;
  ageTimer : option timer;
  wg : Z;
}.

Definition set_timer (ms : MemoryMsgStore) (t : option timer) (w : Z) : MemoryMsgStore :=
  mkMemoryMsgStore (closed ms) (limits ms) (first ms) (last ms) (totalCount ms) (totalBytes ms)
    (hitLimit ms) (msgs ms) t w.
Definition set_first (ms : MemoryMsgStore) (f : Z) : MemoryMsgStore :=
  mkMemoryMsgStore (closed ms) (limits ms) f (last ms) (totalCount ms) (totalBytes ms)
    (hitLimit ms) (msgs ms) (ageTimer ms) (wg ms).
Definition set_hitLimit (ms : MemoryMsgStore) : MemoryMsgStore :=
  mkMemoryMsgStore (closed ms) (limits ms) (first ms) (last ms) (totalCount ms) (totalBytes ms)
    true (msgs ms) (ageTimer ms) (wg ms).

Inductive fuel_error := OutOfFuel.

(** ** Operations *)

(** A store as [CreateChannel] makes it: [init] with the limits, all else zero. *)
Definition init (l : MsgStoreLimits) : MemoryMsgStore :=
  mkMemoryMsgStore false l 0 0 0 0 false ∅ None 0.

Definition State (ms : MemoryMsgStore) : Z * Z := (totalCount ms, totalBytes ms).
Definition FirstSequence (ms : MemoryMsgStore) : Z := first ms.
Definition LastSequence (ms : MemoryMsgStore) : Z := last ms.
Definition FirstAndLastSequence (ms : MemoryMsgStore) : Z * Z := (first ms, last ms).
Definition Lookup (ms : MemoryMsgStore) (seq : Z) : option MsgProto := msgs ms !! seq.
Definition FirstMsg (ms : MemoryMsgStore) : option MsgProto := msgs ms !! first ms.
Definition LastMsg (ms : MemoryMsgStore) : option MsgProto := msgs ms !! last ms.

Definition msgExpireIn (ms : MemoryMsgStore) (now timestamp : Z) : Z :=
  let fireIn := i64 (i64 (timestamp + MaxAge (limits ms)) - now) in
  if fireIn <? 0 then 0 else fireIn.

Section Operations.
Context (Size : MsgProto -> Z).

Definition size_ptr (m : option MsgProto) : Z :=
  match m with Some m => Size m | None => 0 end.

Definition removeFirstMsg (ms : MemoryMsgStore) : MemoryMsgStore :=
  let firstMsg := msgs ms !! first ms in
  mkMemoryMsgStore (closed ms) (limits ms) (u64 (first ms + 1)) (last ms)
    (totalCount ms - 1) (u64 (totalBytes ms - u64 (size_ptr firstMsg)))
    (hitLimit ms) (delete (first ms) (msgs ms)) (ageTimer ms) (wg ms).

(** The condition of the loop at the end of [Store]. *)
Definition over_limits (ms : MemoryMsgStore) : bool :=
  let maxMsgs := MaxMsgs (limits ms) in
  let maxBytes := MaxBytes (limits ms) in
  (1 <? totalCount ms)
  && (((0 <? maxMsgs) && (maxMsgs <? totalCount ms))
      || ((0 <? maxBytes) && (u64 maxBytes <? totalBytes ms))).

(** Each round removes one from [totalCount]. *)
Fixpoint trim_loop (fuel : nat) (ms : MemoryMsgStore) : MemoryMsgStore :=
  match fuel with
  | O => ms
  | S fuel' =>
      if over_limits ms then trim_loop fuel' (set_hitLimit (removeFirstMsg ms)) else ms
  end.

Definition Store (now : Z) (m : MsgProto) (ms : MemoryMsgStore) : Z * MemoryMsgStore :=
  if Sequence m <=? last ms then (Sequence m, ms)
  else
    let arm := (0 <? MaxAge (limits ms)) && negb (bool_decide (is_Some (ageTimer ms))) in
    let ms1 := mkMemoryMsgStore (closed ms) (limits ms)
      (if first ms =? 0 then Sequence m else first ms) (Sequence m)
      (totalCount ms + 1) (u64 (totalBytes ms + u64 (Size m))) (hitLimit ms)
      (<[Sequence m := m]> (msgs ms))
      (if arm then Some (Armed (now + msgExpireIn ms now (Timestamp m))) else ageTimer ms)
      (if arm then wg ms + 1 else wg ms) in
    let ms2 := if (0 <? MaxMsgs (limits ms)) || (0 <? MaxBytes (limits ms))
               then trim_loop (Z.to_nat (totalCount ms1)) ms1 else ms1 in
    (last ms2, ms2).

(** Reading a message that must be there; a nil pointer otherwise. *)
Definition timestamp_at (ms : MemoryMsgStore) (seq : Z) : outcome fuel_error Z :=
  match msgs ms !! seq with Some m => Ok (Timestamp m) | None => Panic end.

Definition GetSequenceFromTimestamp (ms : MemoryMsgStore) (timestamp : Z)
  : outcome fuel_error Z :=
  if first ms =? 0 then Ok 0
  else if last ms <? first ms then Ok (u64 (last ms + 1))
  else
    tfirst ← timestamp_at ms (first ms);
    if timestamp <=? tfirst then Ok (first ms)
    else
      tlast ← timestamp_at ms (last ms);
      if timestamp =? tlast then Ok (last ms)
      else if tlast <? timestamp then Ok (u64 (last ms + 1))
      else
        index ← Search (Z.of_nat (size (msgs ms)))
                  (fun i => t ← timestamp_at ms (u64 (u64 i + first ms)); Ok (timestamp <=? t));
        Ok (u64 (u64 index + first ms)).

(** The loop of [expireMsgs]: skip gaps, remove expired messages, and re-arm
    the timer for the first message that is not expired.  [Reset] on a nil timer
    panics. *)
Fixpoint expire_loop (fuel : nat) (now : Z) (ms : MemoryMsgStore)
  : outcome fuel_error MemoryMsgStore :=
  match fuel with
  | O => Err OutOfFuel
  | S fuel' =>
      let maxAge := MaxAge (limits ms) in
      match msgs ms !! first ms with
      | None =>
          if first ms <? last ms then expire_loop fuel' now (set_first ms (u64 (first ms + 1)))
          else Ok (set_timer ms None (wg ms - 1))
      | Some m =>
          let elapsed := i64 (now - Timestamp m) in
          if maxAge <=? elapsed then expire_loop fuel' now (removeFirstMsg ms)
          else
            let d := if elapsed <? 0 then i64 (i64 (Timestamp m - now) + maxAge)
                     else i64 (maxAge - elapsed) in
            match ageTimer ms with
            | None => Panic
            | Some _ => Ok (set_timer ms (Some (Armed (now + d))) (wg ms))
            end
      end
  end.

Definition expire_fuel (ms : MemoryMsgStore) : nat :=
  S (Z.to_nat (last ms - first ms) + size (msgs ms)).

Definition expireMsgs (now : Z) (ms : MemoryMsgStore) : outcome fuel_error MemoryMsgStore :=
  if closed ms then Ok (set_timer ms (ageTimer ms) (wg ms - 1))
  else expire_loop (expire_fuel ms) now ms.
End Operations.

(** [Timer.Stop] reports whether the timer was armed. *)
Definition stop (t : option timer) : bool :=
  match t with Some (Armed _) => true | _ => false end.

Definition Empty (ms : MemoryMsgStore) : MemoryMsgStore :=
  mkMemoryMsgStore (closed ms) (limits ms) 0 0 0 0 false ∅ None
    (if stop (ageTimer ms) then wg ms - 1 else wg ms).

(** [Close] up to [wg.Wait()], which returns when [wg] is 0. *)
Definition Close (ms : MemoryMsgStore) : MemoryMsgStore :=
  if closed ms then ms
  else mkMemoryMsgStore true (limits ms) (first ms) (last ms) (totalCount ms) (totalBytes ms)
         (hitLimit ms) (msgs ms)
         (match ageTimer ms with Some _ => Some Idle | None => None end)
         (if stop (ageTimer ms) then wg ms - 1 else wg ms).
End Mem.

(** ** Specification: a window of consecutive messages

    What a message store promises: it is new ([None]), or it holds the messages
    from a first sequence on, possibly none when all of them are gone. *)

Module Window.
Section Window.
Context (Size : MsgProto -> Z).

Definition bytes (q : list MsgProto) : Z := foldr (fun m n => Size m + n) 0 q.

(** Too many messages or bytes, with more than one message left. *)
Definition exceeds (l : Mem.MsgStoreLimits) (q : list MsgProto) : bool :=
  let n := Z.of_nat (length q) in
  (1 <? n)
  && (((0 <? Mem.MaxMsgs l) && (Mem.MaxMsgs l <? n))
      || ((0 <? Mem.MaxBytes l) && (u64 (Mem.MaxBytes l) <? u64 (bytes q)))).

(** The oldest messages go first, one at a time. *)
Fixpoint trim (l : Mem.MsgStoreLimits) (f : Z) (q : list MsgProto) : Z * list MsgProto :=
  match q with
  | [] => (f, [])
  | _ :: q' => if exceeds l q then trim l (f + 1) q' else (f, q)
  end.

Definition wlast (w : option (Z * list MsgProto)) : Z :=
  match w with None => 0 | Some (f, q) => f + Z.of_nat (length q) - 1 end.

Definition store (l : Mem.MsgStoreLimits) (m : MsgProto) (w : option (Z * list MsgProto))
  : option (Z * list MsgProto) :=
  if Sequence m <=? wlast w then w
  else match w with
       | None => Some (trim l (Sequence m) [m])
       | Some (f, q) => Some (trim l f (q ++ [m]))
       end.

(** A message that a store is given: the next one, or one already seen. *)
Definition accepts (w : option (Z * list MsgProto)) (m : MsgProto) : Prop :=
  0 < Sequence m < two64 - 1 /\
  match w with None => True | Some _ => Sequence m <= wlast w + 1 end.

Definition expired (maxAge now : Z) (m : MsgProto) : bool :=
  maxAge <=? i64 (now - Timestamp m).

Fixpoint expire (maxAge now f : Z) (q : list MsgProto) : Z * list MsgProto :=
  match q with
  | [] => (f, [])
  | m :: q' => if expired maxAge now m then expire maxAge now (f + 1) q' else (f, q)
  end.

Definition lookup (w : option (Z * list MsgProto)) (seq : Z) : option MsgProto :=
  match w with
  | None => None
  | Some (f, q) => if f <=? seq then q !! Z.to_nat (seq - f) else None
  end.

(** *** Facts on trimming *)

Lemma trim_length l f q : (length (trim l f q).2 <= length q)%nat.
Proof.
  revert f. induction q as [|m q IH]; intros f; simpl; [lia|].
  destruct (exceeds l (m :: q)); simpl; [|lia]. specialize (IH (f + 1)). lia.
Qed.

(** Trimming keeps a suffix, at its place. *)
Lemma trim_suffix l f q :
  exists k, (k <= length q)%nat /\ trim l f q = (f + Z.of_nat k, drop k q) /\
    exceeds l (drop k q) = false /\
    (forall j, (j < k)%nat -> exceeds l (drop j q) = true) /\
    (q <> [] -> (k < length q)%nat).
Proof.
  revert f. induction q as [|m q IH]; intros f.
  { exists 0%nat. simpl. split_and!; try done; [by rewrite Z.add_0_r|lia]. }
  simpl trim. destruct (exceeds l (m :: q)) eqn:He.
  - destruct (IH (f + 1)) as (k & Hk & -> & Hke & Hj & Hne). exists (S k). simpl.
    split_and!; [lia|f_equal; lia|done| |].
    + intros [|j] Hjk; [done|]. apply Hj. lia.
    + intros _. assert (q <> []) as Hq; [|specialize (Hne Hq); lia].
      intros ->. unfold exceeds in He. done.
  - exists 0%nat. simpl. split_and!; [lia|by rewrite Z.add_0_r|done|lia|lia].
Qed.

Lemma exceeds_false l q :
  exceeds l q = false ->
  (Z.of_nat (length q) <= 1 \/
   (0 < Mem.MaxMsgs l -> Z.of_nat (length q) <= Mem.MaxMsgs l) /\
   (0 < Mem.MaxBytes l -> u64 (bytes q) <= u64 (Mem.MaxBytes l))).
Proof.
  unfold exceeds. rewrite andb_false_iff, orb_false_iff, !andb_false_iff, !Z.ltb_ge. lia.
Qed.

Lemma expire_suffix maxAge now f q :
  exists k, (k <= length q)%nat /\ expire maxAge now f q = (f + Z.of_nat k, drop k q) /\
    Forall (fun m => expired maxAge now m = true) (take k q) /\
    (forall m, head (drop k q) = Some m -> expired maxAge now m = false).
Proof.
  revert f. induction q as [|m q IH]; intros f.
  { exists 0%nat. simpl. split_and!; try done. by rewrite Z.add_0_r. }
  simpl expire. destruct (expired maxAge now m) eqn:He.
  - destruct (IH (f + 1)) as (k & Hk & -> & Hke & Hm). exists (S k). simpl.
    split_and!; [lia|f_equal; lia|by constructor|done].
  - exists 0%nat. simpl. split_and!; [lia|by rewrite Z.add_0_r|constructor|].
    by intros ? [= <-].
Qed.
End Window.
End Window.

(** ** Refinement *)

Module MemSpec.
Import Mem.
Section Refinement.
Context (Size : MsgProto -> Z).
Implicit Types (ms : MemoryMsgStore) (q : list MsgProto) (w : option (Z * list MsgProto)).

(** The messages of [q] carry the sequences from [f] on. *)
Definition numbered (f : Z) q : Prop :=
  forall i m, q !! i = Some m -> Sequence m = f + Z.of_nat i.

Record holds ms (f : Z) q : Prop := {
  h_pos : 0 < f;
  h_last : last ms = f + Z.of_nat (length q) - 1;
  h_bound : last ms < two64 - 1;
  h_first : first ms = f;
  h_msgs : msgs ms = map_seqZ f q;
  h_num : numbered f q;
  h_count : totalCount ms = Z.of_nat (length q);
  h_bytes : totalBytes ms = u64 (Window.bytes Size q)
}.

Definition repr ms w : Prop :=
  match w with
  | None => first ms = 0 /\ last ms = 0 /\ totalCount ms = 0 /\ totalBytes ms = 0 /\ msgs ms = ∅
  | Some (f, q) => holds ms f q
  end.

Lemma numbered_cons f m q : numbered f (m :: q) -> Sequence m = f /\ numbered (f + 1) q.
Proof.
  intros H. split; [rewrite (H 0%nat m) by done; lia|].
  intros i m' Hi. rewrite (H (S i) m') by done. lia.
Qed.

Lemma numbered_snoc f q m :
  numbered f q -> Sequence m = f + Z.of_nat (length q) -> numbered f (q ++ [m]).
Proof.
  intros Hq Hm i m' Hi. apply lookup_app_Some in Hi as [Hi|[Hle Hi]]; [by apply Hq|].
  apply list_lookup_singleton_Some in Hi as [Hi <-]. rewrite Hm. lia.
Qed.

Lemma size_map_seqZ f q : size (map_seqZ (M := gmap Z MsgProto) f q) = length q.
Proof.
  revert f. induction q as [|m q IH]; intros f; [done|].
  rewrite map_seqZ_cons, map_size_insert_None, IH; [done|apply map_seqZ_cons_disjoint].
Qed.

Lemma repr_last ms w : repr ms w -> last ms = Window.wlast w.
Proof. destruct w as [[f q]|]; [by intros []|by intros (_ & ? & _)]. Qed.

Lemma bytes_cons m q : Window.bytes Size (m :: q) = Size m + Window.bytes Size q.
Proof. done. Qed.

Lemma bytes_snoc m q : Window.bytes Size (q ++ [m]) = Window.bytes Size q + Size m.
Proof.
  induction q as [|a q IH]; [unfold Window.bytes; simpl; lia|].
  rewrite <- app_comm_cons, !bytes_cons, IH. lia.
Qed.

(** *** Removing the first message *)

Lemma removeFirstMsg_holds ms f m q :
  holds ms f (m :: q) -> holds (removeFirstMsg Size ms) (f + 1) q.
Proof.
  intros [Hpos Hl Hb Hf Hm Hn Hc Hby]. simpl in Hl.
  assert (Hfm : msgs ms !! first ms = Some m).
  { by rewrite Hm, Hf, map_seqZ_cons, lookup_insert_eq. }
  constructor; simpl; rewrite ?Hfm, ?Hf; simpl.
  - lia.
  - lia.
  - done.
  - rewrite u64_small; [done|]. unfold is_u64. lia.
  - rewrite Hm, map_seqZ_cons, delete_insert_id by apply map_seqZ_cons_disjoint. done.
  - by apply numbered_cons in Hn as [_ ?].
  - rewrite Hc. simpl. lia.
  - rewrite Hby, bytes_cons. autorewrite with go. f_equal. lia.
Qed.

Lemma set_hitLimit_holds ms f q : holds ms f q -> holds (set_hitLimit ms) f q.
Proof. by intros []. Qed.

Lemma over_limits_exceeds ms f q :
  holds ms f q -> over_limits ms = Window.exceeds Size (limits ms) q.
Proof. intros []. unfold over_limits, Window.exceeds. by rewrite h_count0, h_bytes0. Qed.

Lemma limits_removeFirstMsg ms : limits (set_hitLimit (removeFirstMsg Size ms)) = limits ms.
Proof. done. Qed.

Lemma trim_loop_holds fuel ms f q :
  holds ms f q -> (length q <= fuel)%nat ->
  let r := Window.trim Size (limits ms) f q in
  holds (trim_loop Size fuel ms) r.1 r.2 /\ last (trim_loop Size fuel ms) = last ms /\
  limits (trim_loop Size fuel ms) = limits ms.
Proof.
  revert ms f q. induction fuel as [|fuel IH]; intros ms f q Hh Hfuel.
  { destruct q; [done|simpl in Hfuel; lia]. }
  cbn [trim_loop]. rewrite (over_limits_exceeds _ _ _ Hh). destruct q as [|m q]; [done|].
  cbn [Window.trim]. destruct (Window.exceeds Size (limits ms) (m :: q)); [|done].
  pose proof (set_hitLimit_holds _ _ _ (removeFirstMsg_holds _ _ _ _ Hh)) as Hh'.
  destruct (IH _ _ _ Hh') as (H1 & H2 & H3); [simpl in Hfuel; lia|].
  rewrite limits_removeFirstMsg in *. done.
Qed.

(** *** Storing *)

Lemma trim_unlimited l f q :
  (0 <? MaxMsgs l) || (0 <? MaxBytes l) = false -> Window.trim Size l f q = (f, q).
Proof.
  intros H. apply orb_false_iff in H as [H1 H2]. destruct q as [|m q]; [done|].
  cbn [Window.trim]. unfold Window.exceeds. rewrite H1, H2. simpl. by rewrite andb_false_r.
Qed.

Lemma Store_holds now m ms w :
  repr ms w -> Window.accepts w m ->
  (Store Size now m ms).1 = Sequence m /\
  repr (Store Size now m ms).2 (Window.store Size (limits ms) m w) /\
  limits (Store Size now m ms).2 = limits ms.
Proof.
  intros Hr [Hseq Hacc]. unfold Store, Window.store.
  rewrite (repr_last _ _ Hr).
  destruct (Z.leb_spec (Sequence m) (Window.wlast w)) as [Hle|Hgt]; [done|].
  set (ms1 := mkMemoryMsgStore _ _ _ _ _ _ _ _ _ _).
  assert (Hh : exists f q, holds ms1 f q /\
      (match w with
       | None => Some (Window.trim Size (limits ms) (Sequence m) [m])
       | Some (f, q) => Some (Window.trim Size (limits ms) f (q ++ [m]))
       end = Some (Window.trim Size (limits ms) f q))).
  { destruct w as [[f q]|].
    - exists f, (q ++ [m]). split; [|done]. destruct Hr as [Hpos Hl Hb Hf Hm Hn Hc Hby].
      simpl in Hgt, Hacc. assert (Hs : Sequence m = f + Z.of_nat (length q)) by lia.
      constructor; subst ms1; simpl; rewrite ?length_app; simpl.
      + done.
      + lia.
      + lia.
      + rewrite Hf. by destruct (Z.eqb_spec f 0); [lia|].
      + by rewrite Hm, Hs, map_seqZ_snoc.
      + by apply numbered_snoc.
      + rewrite Hc. lia.
      + rewrite Hby. autorewrite with go. by rewrite bytes_snoc.
    - exists (Sequence m), [m]. split; [|done]. destruct Hr as (Hf & Hl & Hc & Hby & Hm).
      constructor; subst ms1; simpl; rewrite ?Hf, ?Hm, ?Hby, ?Hc; simpl; try lia; try done.
      + intros i m' Hi. apply list_lookup_singleton_Some in Hi as [-> <-]. lia.
      + rewrite u64_add_r. f_equal. lia. }
  destruct Hh as (f & q & Hh & ->).
  assert (Hlim : limits ms1 = limits ms) by done.
  assert (Hlast : last ms1 = Sequence m) by done.
  destruct ((0 <? MaxMsgs (limits ms)) || (0 <? MaxBytes (limits ms))) eqn:Hun.
  - destruct (trim_loop_holds (Z.to_nat (totalCount ms1)) ms1 f q Hh) as (H1 & H2 & H3).
    { rewrite (h_count _ _ _ Hh). lia. }
    rewrite Hlim in *. cbn [fst snd]. rewrite H2, H3. destruct (Window.trim _ _ _ _). done.
  - rewrite trim_unlimited by done. done.
Qed.

(** The window that a new message extends. *)
Definition before w (m : MsgProto) : Z * list MsgProto :=
  match w with Some fq => fq | None => (Sequence m, []) end.

Lemma repr_Lookup ms w seq : repr ms w -> Lookup ms seq = Window.lookup w seq.
Proof.
  unfold Lookup. destruct w as [[f q]|]; simpl.
  - intros []. rewrite h_msgs0, lookup_map_seqZ. destruct (Z.leb_spec f seq).
    + by rewrite option_guard_True.
    + by rewrite option_guard_False by lia.
  - intros (_ & _ & _ & _ & ->). apply lookup_empty.
Qed.

(** [Store] returns the sequence of the message.  A sequence already seen
    changes nothing.  Otherwise the message is appended and can be looked up, and
    the oldest messages are dropped, as few as possible, until the limits hold
    again or the new message is alone. *)
Theorem Store_spec now m ms w :
  repr ms w -> Window.accepts w m ->
  let '(r, ms') := Store Size now m ms in
  r = Sequence m /\
  if Sequence m <=? last ms then ms' = ms
  else let '(f, q) := before w m in
    exists k, (k <= length q)%nat /\
      repr ms' (Some (f + Z.of_nat k, drop k q ++ [m])) /\
      LastSequence ms' = Sequence m /\ Lookup ms' (Sequence m) = Some m /\
      Window.exceeds Size (limits ms) (drop k q ++ [m]) = false /\
      forall j, (j < k)%nat -> Window.exceeds Size (limits ms) (drop j q ++ [m]) = true.
Proof.
  intros Hr Hacc. pose proof (Store_holds now m ms w Hr Hacc) as (Hret & Hr' & _).
  pose proof (repr_last _ _ Hr) as Hl.
  assert (Hdup : Sequence m <= last ms -> (Store Size now m ms).2 = ms).
  { intros Hle. unfold Store. by apply Z.leb_le in Hle as ->. }
  destruct (Store Size now m ms) as [r ms']. simpl in *. split; [done|].
  destruct (Z.leb_spec (Sequence m) (last ms)) as [Hle|Hgt]; [by apply Hdup|].
  unfold Window.store in Hr'. rewrite <- Hl in Hr'.
  destruct (Z.leb_spec (Sequence m) (last ms)); [lia|].
  assert (Hb : repr ms' (Some (Window.trim Size (limits ms) (before w m).1 ((before w m).2 ++ [m])))).
  { by destruct w as [[f q]|]. }
  destruct (before w m) as [f q] eqn:Hbef. simpl in Hb.
  destruct (Window.trim_suffix Size (limits ms) f (q ++ [m])) as (k & _ & Heq & Hex & Hj & Hk).
  assert (Hkq : (k <= length q)%nat).
  { rewrite length_app in Hk. simpl in Hk. specialize (Hk ltac:(by destruct q)). lia. }
  assert (Hlast : Sequence m = f + Z.of_nat (length q)).
  { destruct w as [[f' q']|]; injection Hbef as <- <-; simpl in *; [|lia].
    destruct Hacc as [_ Hacc]. simpl in Hacc. lia. }
  rewrite Heq, drop_app_le in Hb by done. rewrite drop_app_le in Hex by done.
  change (repr ms' (Some (f + Z.of_nat k, drop k q ++ [m]))) in Hb.
  exists k. split_and!; [done|done| | |done|].
  - unfold LastSequence. rewrite (repr_last _ _ Hb). simpl. rewrite length_app, length_drop. simpl. lia.
  - rewrite (repr_Lookup _ _ _ Hb). simpl. destruct (Z.leb_spec (f + Z.of_nat k) (Sequence m)); [|lia].
    apply lookup_app_Some. right. rewrite length_drop. split; [lia|].
    by replace (_ - _)%nat with 0%nat by lia.
  - intros j Hjk. specialize (Hj j Hjk). by rewrite drop_app_le in Hj by lia.
Qed.

(** *** Expiring *)

(** The timer's new deadline for a message that is not expired. *)
Definition rearm (maxAge now : Z) (m : MsgProto) : Z :=
  let elapsed := i64 (now - Timestamp m) in
  now + if elapsed <? 0 then i64 (i64 (Timestamp m - now) + maxAge) else i64 (maxAge - elapsed).

Lemma expire_loop_holds fuel now ms f q :
  holds ms f q -> (length q < fuel)%nat -> (q <> [] -> is_Some (ageTimer ms)) ->
  let r := Window.expire (MaxAge (limits ms)) now f q in
  exists ms', expire_loop Size fuel now ms = Ok ms' /\ holds ms' r.1 r.2 /\
    limits ms' = limits ms /\ closed ms' = closed ms /\
    match head r.2 with
    | None => ageTimer ms' = None /\ wg ms' = wg ms - 1
    | Some m => ageTimer ms' = Some (Armed (rearm (MaxAge (limits ms)) now m)) /\ wg ms' = wg ms
    end.
Proof.
  revert ms f q. induction fuel as [|fuel IH]; intros ms f q Hh Hfuel Ht; [lia|].
  cbn [expire_loop]. destruct q as [|m q].
  - simpl. pose proof Hh as [Hpos Hl Hb Hf Hm Hn Hc Hby]. assert (msgs ms !! first ms = None) as -> by (rewrite Hm; apply lookup_empty).
    destruct (Z.ltb_spec (first ms) (last ms)); [simpl in *; lia|].
    eexists. split; [done|]. split; [|done]. by destruct Hh.
  - assert (Hfm : msgs ms !! first ms = Some m).
    { rewrite (h_msgs _ _ _ Hh), (h_first _ _ _ Hh), map_seqZ_cons. by rewrite lookup_insert_eq. }
    rewrite Hfm. cbn [Window.expire]. fold (Window.expired (MaxAge (limits ms)) now m).
    destruct (Window.expired (MaxAge (limits ms)) now m) eqn:He.
    + destruct (IH (removeFirstMsg Size ms) (f + 1) q) as (ms' & H1 & H2 & H3 & H4 & H5);
        [by eapply removeFirstMsg_holds|simpl in Hfuel; lia|by intros _; apply Ht|].
      by exists ms'.
    + destruct (Ht ltac:(done)) as [t Ht']. rewrite Ht'. eexists. split; [done|]. split; [|done].
      by destruct Hh.
Qed.

Lemma expireMsgs_new now ms :
  repr ms None -> closed ms = false ->
  expireMsgs Size now ms = Ok (set_timer ms None (wg ms - 1)).
Proof.
  intros (Hf & Hl & _ & _ & Hm) Hc. unfold expireMsgs, expire_fuel. rewrite Hc.
  cbn [expire_loop]. by rewrite Hm, lookup_empty, Hf, Hl.
Qed.

(** What [Store] does to the other fields. *)
Lemma trim_loop_frame fuel ms :
  closed (trim_loop Size fuel ms) = closed ms /\ ageTimer (trim_loop Size fuel ms) = ageTimer ms /\
  wg (trim_loop Size fuel ms) = wg ms.
Proof.
  revert ms. induction fuel as [|fuel IH]; intros ms; [done|]. simpl.
  destruct (over_limits ms); [|done]. destruct (IH (set_hitLimit (removeFirstMsg Size ms))) as (-> & -> & ->).
  done.
Qed.

Lemma Store_frame now m ms :
  let ms' := (Store Size now m ms).2 in
  closed ms' = closed ms /\
  ((ageTimer ms' = ageTimer ms /\ wg ms' = wg ms /\
    (last ms < Sequence m -> 0 < MaxAge (limits ms) -> is_Some (ageTimer ms))) \/
   (ageTimer ms = None /\ 0 < MaxAge (limits ms) /\
    (exists d, ageTimer ms' = Some (Armed d)) /\ wg ms' = wg ms + 1)).
Proof.
  unfold Store. destruct (Z.leb_spec (Sequence m) (last ms)).
  { split; [done|]. left. split_and!; [done|done|lia]. }
  set (arm := (0 <? MaxAge (limits ms)) && negb (bool_decide (is_Some (ageTimer ms)))).
  set (ms1 := mkMemoryMsgStore _ _ _ _ _ _ _ _ _ _).
  assert (Hd : forall ms', closed ms' = closed ms1 -> ageTimer ms' = ageTimer ms1 -> wg ms' = wg ms1 ->
    closed ms' = closed ms /\
    ((ageTimer ms' = ageTimer ms /\ wg ms' = wg ms /\
      (last ms < Sequence m -> 0 < MaxAge (limits ms) -> is_Some (ageTimer ms))) \/
     (ageTimer ms = None /\ 0 < MaxAge (limits ms) /\
      (exists d, ageTimer ms' = Some (Armed d)) /\ wg ms' = wg ms + 1))).
  { intros ms' -> -> ->. split; [done|]. subst ms1. simpl. destruct arm eqn:Ha; subst arm.
    - right. apply andb_true_iff in Ha as [H1%Z.ltb_lt H2]. apply negb_true_iff, bool_decide_eq_false in H2.
      split_and!; [by apply eq_None_not_Some|done|by eexists|done].
    - left. split_and!; [done|done|]. intros _ Hage. apply andb_false_iff in Ha as [H1|H2].
      + apply Z.ltb_ge in H1. lia.
      + by apply negb_false_iff, bool_decide_eq_true in H2. }
  simpl. destruct (_ || _); [|by apply Hd]. apply Hd; apply trim_loop_frame.
Qed.

Lemma expire_fuel_enough ms f q : holds ms f q -> (length q < expire_fuel ms)%nat.
Proof. intros []. unfold expire_fuel. rewrite h_msgs0, size_map_seqZ. lia. Qed.

(** *** Looking up a time *)

(** Timestamps do not decrease. *)
Definition time_sorted q : Prop :=
  forall i j m m', (i <= j)%nat -> q !! i = Some m -> q !! j = Some m' ->
    Timestamp m <= Timestamp m'.

Lemma timestamp_at_holds ms f q i m :
  holds ms f q -> q !! i = Some m -> timestamp_at ms (f + Z.of_nat i) = Ok (Timestamp m).
Proof.
  intros Hh Hi. unfold timestamp_at.
  by rewrite (h_msgs _ _ _ Hh), (proj1 (lookup_map_seqZ_Some_inv f q i m)).
Qed.

(** The position that [GetSequenceFromTimestamp] looks for: the messages
    before it are older than [ts], and it is not. *)
Definition first_from q (ts : Z) (r : nat) : Prop :=
  (r <= length q)%nat /\
  (forall i m, (i < r)%nat -> q !! i = Some m -> Timestamp m < ts) /\
  (forall m, q !! r = Some m -> ts <= Timestamp m).

Lemma search_window ms f q ts :
  holds ms f q -> time_sorted q ->
  exists r, Search (Z.of_nat (length q))
      (fun i => t ← timestamp_at ms (u64 (u64 i + first ms)); Ok (ts <=? t))
    = Ok (Z.of_nat r) /\ first_from q ts r.
Proof.
  intros Hh Hs.
  set (p := fun i : Z => match q !! Z.to_nat i with Some m => ts <=? Timestamp m | None => true end).
  destruct (Search_spec (E := fuel_error)
    (fun i => t ← timestamp_at ms (u64 (u64 i + first ms)); Ok (ts <=? t)) p
    (Z.of_nat (length q))) as (r & Hr & Hrange & Hlow & Hhigh).
  - lia.
  - intros k Hk. destruct (lookup_lt_is_Some_2 q (Z.to_nat k)) as [m Hm]; [lia|].
    unfold p. rewrite Hm. pose proof (h_pos _ _ _ Hh). pose proof (h_last _ _ _ Hh).
    pose proof (h_bound _ _ _ Hh). rewrite u64_add_l, u64_small, (h_first _ _ _ Hh).
    + replace (k + f) with (f + Z.of_nat (Z.to_nat k)) by lia.
      by rewrite (timestamp_at_holds _ _ _ _ _ Hh Hm).
    + rewrite (h_first _ _ _ Hh). unfold is_u64, two64 in *. lia.
  - unfold p. intros k k' Hk Hkk Hk'.
    destruct (q !! Z.to_nat k) as [m|] eqn:Hm, (q !! Z.to_nat k') as [m'|] eqn:Hm'; try done.
    + pose proof (Hs (Z.to_nat k) (Z.to_nat k') m m' ltac:(lia) Hm Hm'). rewrite !Z.leb_le. lia.
    + apply lookup_ge_None in Hm. lia.
  - exists (Z.to_nat r). rewrite Hr. split; [f_equal; lia|]. split_and!; [lia| |].
    + intros i m Hi Hm. specialize (Hlow (Z.of_nat i) ltac:(lia)). unfold p in Hlow.
      rewrite Nat2Z.id, Hm in Hlow. by apply Z.leb_gt in Hlow.
    + intros m Hm. assert (Hlt : r < Z.of_nat (length q)).
      { apply lookup_lt_Some in Hm. lia. }
      specialize (Hhigh Hlt). unfold p in Hhigh. rewrite Hm in Hhigh. by apply Z.leb_le.
Qed.

(** With equal timestamps, the answer on a time that is exactly the last
    message's is the last message. *)
Lemma from_timestamp ms w ts :
  repr ms w -> (forall f q, w = Some (f, q) -> time_sorted q) ->
  exists seq, GetSequenceFromTimestamp ms ts = Ok seq /\
    match w with
    | None => seq = 0
    | Some (f, q) => exists r, seq = f + Z.of_nat r /\
        (first_from q ts r \/
         S r = length q /\ exists m, q !! r = Some m /\ Timestamp m = ts)
    end.
Proof.
  intros Hr Hs. unfold GetSequenceFromTimestamp. destruct w as [[f q]|]; simpl in Hr.
  2:{ destruct Hr as (-> & _). by exists 0. }
  specialize (Hs f q eq_refl). pose proof Hr as [Hpos Hl Hb Hf Hm Hn Hc Hby].
  rewrite Hf. destruct (Z.eqb_spec f 0); [lia|].
  destruct q as [|m0 q].
  { simpl in Hl. destruct (Z.ltb_spec (last ms) f); [|lia].
    eexists. split; [done|]. exists 0%nat. rewrite u64_small by (unfold is_u64; lia).
    split; [lia|left]. split_and!; [done|lia|done]. }
  set (q' := m0 :: q) in *. assert (Hlen : (0 < length q')%nat) by (simpl; lia).
  destruct (Z.ltb_spec (last ms) f); [lia|].
  pose proof (timestamp_at_holds ms f q' 0 m0 Hr eq_refl) as H0.
  rewrite Z.add_0_r in H0. rewrite H0. cbn [mbind outcome_bind].
  destruct (Z.leb_spec ts (Timestamp m0)) as [Hle|Hgt].
  { eexists. split; [done|]. exists 0%nat. split; [lia|left]. split_and!; [lia|lia|].
    by intros m [= <-]. }
  destruct (lookup_lt_is_Some_2 q' (length q' - 1)) as [ml Hml]; [lia|].
  pose proof (timestamp_at_holds ms f q' _ ml Hr Hml) as H1.
  replace (f + Z.of_nat (length q' - 1)) with (last ms) in H1 by lia.
  rewrite H1. cbn [mbind outcome_bind].
  destruct (Z.eqb_spec ts (Timestamp ml)) as [Heq|Hne]; [|destruct (Z.ltb_spec (Timestamp ml) ts)].
  - eexists. split; [done|]. exists (length q' - 1)%nat. split; [lia|].
    right. split; [lia|]. by exists ml.
  - eexists. split; [done|]. exists (length q'). rewrite u64_small by (unfold is_u64; lia).
    split; [lia|left]. split_and!; [done| |].
    + intros i m Hi Him. pose proof (Hs i (length q' - 1)%nat m ml ltac:(lia) Him Hml). lia.
    + intros m Hmm. apply lookup_lt_Some in Hmm. lia.
  - destruct (search_window ms f q' ts Hr Hs) as (r & Hsr & Hff).
    rewrite Hm, size_map_seqZ, Hf in *. rewrite Hsr. cbn [mbind outcome_bind].
    eexists. split; [done|]. exists r. split; [|by left]. destruct Hff as (Hrl & _).
    rewrite u64_add_l, u64_small by (unfold is_u64; lia). lia.
Qed.

(** On a store whose timestamps strictly increase, [GetSequenceFromTimestamp]
    never panics and returns the sequence of the first message that is not older
    than the given time, or the sequence after the last one when all are older; on
    a store that never held a message it returns 0. *)
Theorem GetSequenceFromTimestamp_spec ms w ts :
  repr ms w ->
  (forall f q i j m m', w = Some (f, q) -> (i < j)%nat -> q !! i = Some m -> q !! j = Some m' ->
     Timestamp m < Timestamp m') ->
  exists seq, GetSequenceFromTimestamp ms ts = Ok seq /\
    match w with
    | None => seq = 0
    | Some (f, q) => exists r, seq = f + Z.of_nat r /\ first_from q ts r
    end.
Proof.
  intros Hr Hs. destruct (from_timestamp ms w ts Hr) as (seq & Heq & Hseq).
  { intros f q -> i j m m' Hij Hi Hj. destruct (decide (i = j)) as [->|Hne].
    - rewrite Hi in Hj. injection Hj as <-. lia.
    - assert (Timestamp m < Timestamp m') by (eapply Hs; [done| |done|done]; lia). lia. }
  exists seq. split; [done|]. destruct w as [[f q]|]; [|done].
  destruct Hseq as (r & -> & [Hf|(Hlen & m & Hm & Hts)]); exists r; (split; [done|]); [done|].
  split_and!; [lia| |].
  - intros i m' Hi Hm'. rewrite <- Hts. eapply Hs; done.
  - intros m' Hm'. rewrite Hm in Hm'. injection Hm' as <-. lia.
Qed.
End Refinement.
End MemSpec.

(** ** The store and its timer

    [pending] counts the calls of [expireMsgs] that a timer started and that wait
    for the store's lock. *)

Module MemSys.
Import Mem MemSpec.
Section System.
Context (Size : MsgProto -> Z).

Record sys := mkSys { store : MemoryMsgStore; pending : nat }.

Inductive event :=
| EStore (now : Z) (m : MsgProto)
| EEmpty
| EClose
| EFire (now : Z)
| EExpire (now : Z).

Inductive step : sys -> event -> sys -> Prop :=
| step_store ms n now m : step (mkSys ms n) (EStore now m) (mkSys (Store Size now m ms).2 n)
| step_empty ms n : step (mkSys ms n) EEmpty (mkSys (Empty ms) n)
| step_close ms n : step (mkSys ms n) EClose (mkSys (Close ms) n)
| step_fire ms n now d :
    ageTimer ms = Some (Armed d) -> d <= now ->
    step (mkSys ms n) (EFire now) (mkSys (set_timer ms (Some Idle) (wg ms)) (S n))
| step_expire ms n now ms' :
    expireMsgs Size now ms = Ok ms' -> step (mkSys ms (S n)) (EExpire now) (mkSys ms' n).

Inductive run : sys -> list event -> sys -> Prop :=
| run_nil s : run s [] s
| run_snoc s es s' e s'' : run s es s' -> step s' e s'' -> run s (es ++ [e]) s''.

Definition start (l : MsgStoreLimits) : sys := mkSys (init l) 0.

(** The specification's steps on a window and the closed flag. *)
Definition spec_step (l : MsgStoreLimits) (x : option (Z * list MsgProto) * bool) (e : event)
  : option (Z * list MsgProto) * bool :=
  let '(w, c) := x in
  match e with
  | EStore _ m => (Window.store Size l m w, c)
  | EEmpty => (None, c)
  | EClose => (w, true)
  | EFire _ => x
  | EExpire now =>
      if c then x
      else (match w with
            | None => None
            | Some (f, q) => Some (Window.expire (MaxAge l) now f q)
            end, c)
  end.
Definition spec_run (l : MsgStoreLimits) (es : list event) : option (Z * list MsgProto) * bool :=
  foldl (spec_step l) (None, false) es.

(** Each message is one that the store may be given at that point. *)
Definition admissible (l : MsgStoreLimits) (es : list event) : Prop :=
  forall es1 now m es2, es = es1 ++ EStore now m :: es2 -> Window.accepts (spec_run l es1).1 m.

Record inv (l : MsgStoreLimits) (s : sys) (x : option (Z * list MsgProto) * bool) : Prop := {
  inv_repr : repr Size (store s) x.1;
  inv_closed : closed (store s) = x.2;
  inv_limits : limits (store s) = l;
  inv_timer : 0 < MaxAge l -> x.1 <> None -> forall f q, x.1 = Some (f, q) -> q <> [] ->
    is_Some (ageTimer (store s));
  inv_age : is_Some (ageTimer (store s)) \/ pending s <> 0%nat -> 0 < MaxAge l
}.

Lemma start_inv l : inv l (start l) (None, false).
Proof.
  constructor; simpl; try done. by intros [[? ?]|?].
Qed.

Lemma step_inv l s e s' x :
  inv l s x -> step s e s' ->
  (forall now m, e = EStore now m -> Window.accepts x.1 m) ->
  inv l s' (spec_step l x e).
Proof.
  intros [Hr Hc Hl Ht Ha] Hstep Hacc. destruct x as [w c]; simpl in *.
  inversion Hstep as [ms n now m| ms n | ms n | ms n now d Hd Hle | ms n now ms' He]; subst s e s'; simpl in *.
  - destruct (Store_holds Size now m ms w Hr (Hacc _ _ eq_refl)) as (_ & Hr' & Hl').
    destruct (Store_frame Size now m ms) as (Hc' & Htimer). rewrite Hl in *.
    constructor; simpl; [done|congruence|done| |].
    + intros Hage _ f q Hw Hq. destruct Htimer as [(-> & _ & Hsome)|(_ & _ & [d ->] & _)]; [|done].
      destruct (Z.ltb_spec (last ms) (Sequence m)) as [Hlt|Hge]; [by apply Hsome|].
      unfold Window.store in Hw. rewrite <- (repr_last _ _ _ Hr) in Hw.
      destruct (Z.leb_spec (Sequence m) (last ms)); [|lia]. subst w. by eapply Ht.
    + intros [Hs|Hp]; [|by apply Ha; right].
      destruct Htimer as [(Heq & _)|(_ & ? & _)]; [|done]. apply Ha. left. by rewrite <- Heq.
  - constructor; simpl; try done. intros [[? ?]|?]; [done|]. by apply Ha; right.
  - unfold Close. destruct (closed ms) eqn:Hcl.
    + constructor; simpl; try done. 
    + constructor; simpl; try done.
      * by destruct w as [[f q]|]; [destruct Hr|].
      * intros Hage Hw f q Hwq Hq. destruct (Ht Hage Hw f q Hwq Hq) as [t ->]. done.
      * intros [Hs|Hp]; [|by apply Ha; right]. apply Ha. left. by destruct (ageTimer ms).
  - constructor; simpl; try done.
    + by destruct w as [[f q]|]; [destruct Hr|].
    + intros _. apply Ha. left. by rewrite Hd.
  - unfold expireMsgs in He. rewrite Hc in He. destruct c.
    { injection He as <-. constructor; simpl; try done.
      - by destruct w as [[f q]|]; [destruct Hr|].
      - intros _. by apply Ha; right. }
    destruct w as [[f q]|].
    + destruct (expire_loop_holds Size (expire_fuel ms) now ms f q Hr) as
        (ms2 & Heq & Hh & Hl2 & Hc2 & Htm).
      { by eapply expire_fuel_enough. }
      { intros Hq. eapply Ht; [by apply Ha; right|done|done|done]. }
      rewrite He in Heq. injection Heq as <-. rewrite Hl in *.
      constructor; simpl; [by destruct (Window.expire _ _ _ _)|congruence|done| |].
      * intros _ _ f' q' Hq' Hne. injection Hq' as Hq'. rewrite Hq' in Htm. simpl in Htm.
        destruct q'; [done|]. destruct Htm as [-> _]. done.
      * intros _. by apply Ha; right.
    + pose proof (expireMsgs_new Size now ms Hr Hc) as Heq. unfold expireMsgs in Heq.
      rewrite Hc in Heq. rewrite He in Heq. injection Heq as ->.
      constructor; simpl; try done. intros [[? ?]|?]; [done|]. by apply Ha; right.
Qed.

Lemma run_inv l es s :
  run (start l) es s -> admissible l es -> inv l s (spec_run l es).
Proof.
  intros Hrun. remember (start l) as s0 eqn:Hs0. revert Hs0.
  induction Hrun as [s0|s0 es s1 e s2 Hrun IH Hstep]; intros -> Hadm; [apply start_inv|].
  unfold spec_run. rewrite foldl_app. simpl. eapply step_inv; [apply IH|done|].
  - done.
  - intros es1 now m es2 ->. apply (Hadm es1 now m (es2 ++ [e])). by rewrite <- app_assoc.
  - intros now m ->. by apply (Hadm es now m []).
Qed.

(** [C12] Whatever the order in which stores, purges, the closing and the age timer
    interleave, the in-memory store holds exactly the window of consecutive
    messages that its specification gives; and a pending [expireMsgs] always
    runs to its end, without a nil timer or message.  Each message that is stored has the
    sequence after the last one or one already seen, or any sequence while the store has not
    had a message ([admissible]). *)
Theorem memstore_refines l es s :
  run (start l) es s -> admissible l es ->
  repr Size (store s) (spec_run l es).1 /\
  (pending s <> 0%nat -> forall now, exists ms', expireMsgs Size now (store s) = Ok ms').
Proof.
  intros Hrun Hadm. destruct (run_inv l es s Hrun Hadm) as [Hr Hc Hl Ht Ha].
  split; [done|]. intros Hp now. destruct (spec_run l es) as [w c]. simpl in *.
  destruct (closed (store s)) eqn:Hcl.
  { unfold expireMsgs. rewrite Hcl. by eexists. }
  destruct w as [[f q]|].
  - unfold expireMsgs. rewrite Hcl.
    destruct (expire_loop_holds Size (expire_fuel (store s)) now (store s) f q Hr) as (ms' & Heq & _).
    { by eapply expire_fuel_enough. }
    { intros Hq. eapply Ht; [by apply Ha; right|done|done|done]. }
    by exists ms'.
  - eexists. by apply expireMsgs_new.
Qed.

(** *** The wait group *)

Definition armed (ms : MemoryMsgStore) : Z := if stop (ageTimer ms) then 1 else 0.

Lemma expire_loop_timer fuel now ms ms' :
  expire_loop Size fuel now ms = Ok ms' ->
  (ageTimer ms' = None /\ wg ms' = wg ms - 1) \/
  (is_Some (ageTimer ms) /\ (exists d, ageTimer ms' = Some (Armed d)) /\ wg ms' = wg ms).
Proof.
  revert ms. induction fuel as [|fuel IH]; intros ms; [done|]. cbn [expire_loop].
  destruct (msgs ms !! first ms) as [m|].
  - destruct (_ <=? _); [by intros H%IH|].
    destruct (ageTimer ms) as [tm|] eqn:Htm; [|done]. intros [= <-]. right. by split_and!; [| eexists|].
  - destruct (_ <? _); [by intros H%IH|]. intros [= <-]. by left.
Qed.

Record timer_inv (s : sys) : Prop := {
  ti_wg : wg (store s) = armed (store s) + Z.of_nat (pending s);
  ti_one : (pending s <= 1)%nat;
  ti_idle : pending s = 1%nat -> ageTimer (store s) = Some Idle
}.

Lemma step_timer_inv s e s' : timer_inv s -> step s e s' -> e <> EEmpty -> timer_inv s'.
Proof.
  intros [Hw H1 Hi] Hstep Hne. unfold armed in *.
  inversion Hstep as [ms n now m| ms n | ms n | ms n now d Hd Hle | ms n now ms' He]; subst s e s'; simpl in *.
  - destruct (Store_frame Size now m ms) as (_ & [(Ht & Hwg & _)|(Ht & _ & [d Ht'] & Hwg)]).
    + constructor; simpl; unfold armed; by rewrite ?Ht, ?Hwg.
    + assert (n = 0%nat) as -> by (destruct n as [|[|]]; [done| |lia]; by specialize (Hi eq_refl); congruence).
      constructor; simpl; unfold armed; [|lia|done]. rewrite Ht', Hwg, Hw, Ht. done.
  - done.
  - unfold Close. destruct (closed ms); [by constructor|].
    constructor; simpl; unfold armed; simpl; [|done|].
    + destruct (ageTimer ms) as [[|d]|]; simpl in *; lia.
    + intros Hn. by rewrite (Hi Hn).
  - rewrite Hd in Hw. assert (n = 0%nat) as ->.
    { destruct n as [|[|]]; [done| |lia]. specialize (Hi eq_refl). congruence. }
    constructor; simpl; unfold armed; simpl in *; [lia|lia|done].
  - assert (n = 0%nat) as -> by lia. rewrite (Hi eq_refl) in Hw. simpl in Hw.
    unfold expireMsgs in He. destruct (closed ms).
    + injection He as <-. constructor; simpl; unfold armed; simpl; [|lia|done].
      rewrite (Hi eq_refl). simpl. lia.
    + apply expire_loop_timer in He as [[Ht Hwg]|(_ & [d Ht] & Hwg)];
        constructor; simpl; unfold armed; rewrite ?Ht, ?Hwg; simpl; lia || done.
Qed.

(** While the store is not emptied, the wait group counts exactly the armed
    timer and the call of [expireMsgs] that may be waiting for the lock, of
    which there is at most one: so [Close], which disarms the timer, returns as
    soon as that call is over. *)
Theorem wait_group_exact l es s :
  run (start l) es s -> EEmpty ∉ es ->
  wg (store s) = armed (store s) + Z.of_nat (pending s) /\ (pending s <= 1)%nat.
Proof.
  intros Hrun. cut (EEmpty ∉ es -> timer_inv s); [by intros H Hne; destruct (H Hne)|].
  remember (start l) as s0 eqn:Hs0. revert Hs0.
  induction Hrun as [s0|s0 es s1 e s2 Hrun IH Hstep]; intros -> Hne.
  { constructor; simpl; [done|lia|done]. }
  rewrite not_elem_of_app, list_elem_of_singleton in Hne. destruct Hne as [Hne He].
  eapply step_timer_inv; [by apply IH|done|]. by intros ->.
Qed.

(** The wait group never loses a count, so a surplus stays for ever. *)
Lemma step_surplus s e s' k :
  step s e s' ->
  k + armed (store s) + Z.of_nat (pending s) <= wg (store s) ->
  k + armed (store s') + Z.of_nat (pending s') <= wg (store s').
Proof.
  intros Hstep Hk. unfold armed in *.
  inversion Hstep as [ms n now m| ms n | ms n | ms n now d Hd Hle | ms n now ms' He]; subst s e s'; simpl in *.
  - destruct (Store_frame Size now m ms) as (_ & [(Ht & Hwg & _)|(Ht & _ & [d Ht'] & Hwg)]).
    + by rewrite Ht, Hwg.
    + rewrite Ht', Hwg. rewrite Ht in Hk. simpl in *. lia.
  - destruct (stop (ageTimer ms)); lia.
  - unfold Close. destruct (closed ms); [done|]. simpl. destruct (ageTimer ms) as [[|]|]; simpl in *; lia.
  - rewrite Hd in Hk. simpl in *. lia.
  - unfold expireMsgs in He. destruct (closed ms); [injection He as <-; simpl; lia|].
    apply expire_loop_timer in He as [[Ht Hwg]|(_ & [d Ht] & Hwg)]; rewrite Ht, Hwg; simpl;
      destruct (stop (ageTimer ms)); lia.
Qed.

Lemma run_surplus s es s' k :
  run s es s' ->
  k + armed (store s) + Z.of_nat (pending s) <= wg (store s) ->
  k + armed (store s') + Z.of_nat (pending s') <= wg (store s').
Proof. induction 1; eauto using step_surplus. Qed.

(** *** Evaluation *)

Definition exec (s : sys) (e : event) : option sys :=
  let '(mkSys ms n) := s in
  match e with
  | EStore now m => Some (mkSys (Store Size now m ms).2 n)
  | EEmpty => Some (mkSys (Empty ms) n)
  | EClose => Some (mkSys (Close ms) n)
  | EFire now =>
      match ageTimer ms with
      | Some (Armed d) =>
          if d <=? now then Some (mkSys (set_timer ms (Some Idle) (wg ms)) (S n)) else None
      | _ => None
      end
  | EExpire now =>
      match n, expireMsgs Size now ms with
      | S n', Ok ms' => Some (mkSys ms' n')
      | _, _ => None
      end
  end.

Lemma exec_step s e s' : exec s e = Some s' -> step s e s'.
Proof.
  destruct s as [ms n], e; simpl; try (intros [= <-]; constructor).
  - destruct (ageTimer ms) as [[|d]|] eqn:Ht; try done.
    destruct (Z.leb_spec d now); [|done]. intros [= <-]. by econstructor.
  - destruct n; [done|]. destruct (expireMsgs Size now ms) eqn:He; try done.
    intros [= <-]. by constructor.
Qed.

Lemma exec_run s es s' : foldl (fun o e => o ≫= fun s => exec s e) (Some s) es = Some s' -> run s es s'.
Proof.
  revert s'. induction es as [|e es IH] using rev_ind; intros s'; simpl.
  - intros [= <-]. constructor.
  - rewrite foldl_app. simpl. intros H. apply bind_Some in H as (s1 & H1 & H2).
    eapply run_snoc; [by apply IH|by apply exec_step].
Qed.
End System.
End MemSys.

(** ** Concrete runs *)

Module MemSample.
Import Mem MemSpec MemSys.

(** Any non-negative function of the message will do as its size. *)
Definition data_size (m : MsgProto) : Z := 10 + Z.of_nat (length (Data m)).
Definition msg (seq ts : Z) : MsgProto := mkMsg seq "foo" "" [] ts false 0 0.

Definition two_msgs : MsgStoreLimits := mkLimits 2 0 0.
Definition age_10 : MsgStoreLimits := mkLimits 0 0 10.

Definition replay (l : MsgStoreLimits) (es : list event) : option sys :=
  foldl (fun o e => o ≫= fun s => exec data_size s e) (Some (start l)) es.

Definition sample_store : MemoryMsgStore :=
  (Store data_size 0 (msg 2 7) (Store data_size 0 (msg 1 5) (init two_msgs)).2).2.

Lemma sample_store_repr : repr data_size sample_store (Some (1, [msg 1 5; msg 2 7])).
Proof.
  constructor; try (vm_compute; reflexivity).
  intros [|[|i]] m; simpl; intros [= <-]; reflexivity.
Defined.

Lemma Store_spec_witness :
  exists k, repr data_size (Store data_size 0 (msg 3 9) sample_store).2
    (Some (1 + Z.of_nat k, drop k [msg 1 5; msg 2 7] ++ [msg 3 9])).
Proof.
  pose proof (Store_spec data_size 0 (msg 3 9) sample_store (Some (1, [msg 1 5; msg 2 7]))
    sample_store_repr ltac:(split; [split; reflexivity|discriminate])) as H.
  destruct H as [_ (k & _ & H & _)]. exists k. exact H.
Defined.

Lemma GetSequenceFromTimestamp_spec_witness :
  exists seq, GetSequenceFromTimestamp sample_store 6 = Ok seq /\
    exists r, seq = 1 + Z.of_nat r /\ first_from [msg 1 5; msg 2 7] 6 r.
Proof.
  apply (GetSequenceFromTimestamp_spec data_size sample_store (Some (1, [msg 1 5; msg 2 7])) 6
    sample_store_repr).
  intros f q [|[|i]] [|[|j]] m m' [= <- <-] Hij; simpl; intros [= <-] [= <-]; simpl; lia.
Defined.

(** With equal timestamps at the end, the answer is not the first message that
    is greater or equal. *)
Theorem GetSequenceFromTimestamp_tie :
  exists ms, ms = (Store data_size 0 (msg 3 7) (Store data_size 0 (msg 2 7)
                    (Store data_size 0 (msg 1 5) (init age_10)).2).2).2 /\
    GetSequenceFromTimestamp ms 7 = Ok 3 /\ Lookup ms 2 = Some (msg 2 7).
Proof. eexists. split; [reflexivity|]. split; vm_compute; reflexivity. Qed.

(** Three messages, of which two expire when the timer fires. *)
Definition sample_run : list event :=
  [EStore 100 (msg 1 100); EStore 101 (msg 2 101); EStore 108 (msg 3 108); EFire 110; EExpire 111].

Lemma sample_admissible : admissible data_size age_10 sample_run.
Proof.
  intros es1 now m es2 Heq. unfold sample_run in Heq.
  destruct es1 as [|e1 [|e2 [|e3 [|e4 [|e5 [|e6 es1]]]]]]; simplify_eq/=;
    (split; [split; reflexivity|first [exact I|vm_compute; discriminate]]).
Defined.

Lemma memstore_refines_witness :
  exists s, replay age_10 sample_run = Some s /\
    repr data_size (MemSys.store s) (Some (3, [msg 3 108])).
Proof.
  eexists. split; [vm_compute; reflexivity|].
  apply (memstore_refines data_size age_10 sample_run).
  - apply exec_run. vm_compute. reflexivity.
  - exact sample_admissible.
Defined.

Lemma wait_group_exact_witness :
  exists s, replay age_10 sample_run = Some s /\
    wg (MemSys.store s) = armed (MemSys.store s) + Z.of_nat (pending s).
Proof.
  eexists. split; [vm_compute; reflexivity|].
  eapply (wait_group_exact data_size age_10 sample_run).
  - apply exec_run. vm_compute. reflexivity.
  - unfold sample_run. intros H. repeat (apply elem_of_cons in H as [H|H]; [discriminate|]).
    by apply elem_of_nil in H.
Defined.

(** The store is emptied while a call of [expireMsgs] waits for the lock, then
    used again, then closed. *)
Definition race : list event :=
  [EStore 100 (msg 1 100); EFire 110; EEmpty; EStore 111 (msg 1 111); EExpire 111; EClose].

(** Emptying a store while its timer's call waits for the lock leaks one count
    of the wait group: after the run [race] the store is closed, no timer is
    armed and no call is pending, and yet the group is not empty and never will
    be, so that [Close] waits for ever. *)
Theorem Empty_leaks_wait_group :
  exists s, run data_size (start age_10) race s /\ closed (MemSys.store s) = true /\
    armed (MemSys.store s) = 0 /\ pending s = 0%nat /\
    forall es s', run data_size s es s' -> 0 < wg (MemSys.store s').
Proof.
  eexists. split; [apply exec_run; vm_compute; reflexivity|].
  do 3 (split; [vm_compute; reflexivity|]). intros es s' Hrun.
  apply (run_surplus data_size _ _ _ 1) in Hrun; [|vm_compute; discriminate].
  unfold armed in Hrun. destruct (stop _); lia.
Qed.
End MemSample.
