(* ===== verification/MsgStore.v ===== *)
(** * The interface of message stores

    What the server asks of a [stores.MsgStore] ([src/stores/store.go]) when it
    delivers messages, as a class of operations, and what it relies on, as a
    class of laws: the store shows a window of consecutive messages
    ([Window] of [MemStore.v]).  The server's theorems are proved against the
    laws; the in-memory store is an instance. *)

From Stdlib Require Import ZArith Lia Ascii String.
From stdpp Require Import base list gmap strings.
From S2P Require Import Prelude GoLib MemStore.

Local Open Scope Z_scope.

(** ** Operations and laws *)

Inductive lookup_error := LookupError.

Class MsgStore (S : Type) := {
  Lookup : S -> Z -> option MsgProto + lookup_error;
  FirstAndLastSequence : S -> Z * Z;
  GetSequenceFromTimestamp : S -> Z -> outcome lookup_error Z
}.

Definition FirstSequence {S : Type} `{MsgStore S} (s : S) : Z := (FirstAndLastSequence s).1.
Definition LastSequence {S : Type} `{MsgStore S} (s : S) : Z := (FirstAndLastSequence s).2.

Definition wfirst (w : option (Z * list MsgProto)) : Z :=
  match w with None => 0 | Some (f, _) => f end.

(** A window with sane numbers. *)
Definition wf_window (w : option (Z * list MsgProto)) : Prop :=
  match w with
  | None => True
  | Some (f, q) => 0 < f /\ f + Z.of_nat (length q) < two64 /\ MemSpec.numbered f q
  end.

Class MsgStoreSpec (S : Type) `{MsgStore S} := {
  view : S -> option (Z * list MsgProto) -> Prop;
  view_wf s w : view s w -> wf_window w;
  view_Lookup s w seq : view s w -> Lookup s seq = inl (Window.lookup w seq);
  view_FirstAndLast s w : view s w -> FirstAndLastSequence s = (wfirst w, Window.wlast w);
  view_FromTimestamp s w ts :
    view s w -> (forall f q, w = Some (f, q) -> MemSpec.time_sorted q) ->
    exists seq, GetSequenceFromTimestamp s ts = Ok seq /\
      match w with
      | None => seq = 0
      | Some (f, q) => f <= seq <= f + Z.of_nat (length q) /\
          (forall m, m ∈ q -> Sequence m < seq -> Timestamp m <= ts) /\
          (forall m, m ∈ q -> seq <= Sequence m -> ts <= Timestamp m)
      end
}.

(** ** Writing *)

(** What the publish loop asks of a store: [Store], at some time, and [Flush]. *)
Class MsgLog (S E : Type) := {
  StoreMsg : Z -> MsgProto -> S -> outcome E Z * S;
  FlushMsgs : S -> outcome E unit * S
}.

(** A message is added at the end; the limits may remove messages at the front, but not
    the new one. *)
Definition pushed (m : MsgProto) (w w' : option (Z * list MsgProto)) : Prop :=
  let '(f, q) := default (Sequence m, []) w in
  exists k, (k <= length q)%nat /\ w' = Some (f + Z.of_nat k, drop k (q ++ [m])).

(** Storing the next message adds it, or fails and leaves the messages as they are; a
    flush makes all of them durable, whatever that means for the store. *)
Class MsgLogSpec (S E : Type) `{MsgStoreSpec S} `{MsgLog S E} := {
  storable : MsgProto -> Prop;
  durable : S -> option (Z * list MsgProto) -> Prop;
  view_Store s w m t :
    view s w -> Sequence m = Window.wlast w + 1 -> Sequence m < two64 - 1 -> storable m ->
    (exists s' w', StoreMsg t m s = (Ok (Sequence m), s') /\ view s' w' /\ pushed m w w') \/
    (exists e s', StoreMsg t m s = (Err e, s') /\ view s' w);
  view_Flush s w : view s w -> exists s', FlushMsgs s = (Ok tt, s') /\ view s' w /\ durable s' w
}.

Lemma pushed_last m w w' : Sequence m = Window.wlast w + 1 -> pushed m w w' -> Window.wlast w' = Sequence m.
Proof.
  unfold pushed. destruct w as [[f q]|]; cbn; intros Hm (k & Hk & ->); cbn; rewrite length_drop; cbn; rewrite ?length_app; cbn in *; lia.
Qed.

(** What was in the window is still there, or before the window's start. *)
Lemma pushed_kept m w w' seq x :
  Sequence m = Window.wlast w + 1 -> pushed m w w' -> Window.lookup w seq = Some x ->
  Window.lookup w' seq = Some x \/ seq < wfirst w'.
Proof.
  unfold pushed. destruct w as [[f q]|]; [|done]. cbn. intros Hm (k & Hk & ->) Hx. cbn.
  destruct (Z.leb_spec f seq); [|done]. destruct (Z.leb_spec (f + Z.of_nat k) seq); [left|right; lia].
  rewrite lookup_drop, lookup_app_l by (apply lookup_lt_Some in Hx; lia). rewrite <- Hx. f_equal. lia.
Qed.

Lemma pushed_new m w w' : Sequence m = Window.wlast w + 1 -> pushed m w w' -> Window.lookup w' (Sequence m) = Some m.
Proof.
  unfold pushed. destruct w as [[f q]|]; cbn; intros Hm (k & Hk & ->); cbn.
  - destruct (Z.leb_spec (f + Z.of_nat k) (Sequence m)); [|lia]. rewrite lookup_drop.
    rewrite lookup_app_r by lia. replace (_ - _)%nat with 0%nat by lia. done.
  - assert (k = 0)%nat as -> by (cbn in Hk; lia). cbn. rewrite Z.add_0_r, Z.leb_refl, Z.sub_diag. done.
Qed.

(** ** The in-memory store is an instance *)

Section Memory.
Context (Size : MsgProto -> Z).

#[export] Instance memory_store : MsgStore Mem.MemoryMsgStore := {|
  Lookup ms seq := inl (Mem.Lookup ms seq);
  FirstAndLastSequence := Mem.FirstAndLastSequence;
  GetSequenceFromTimestamp ms ts :=
    match Mem.GetSequenceFromTimestamp ms ts with
    | Ok seq => Ok seq
    | Err _ => Err LookupError
    | Panic => Panic
    end
|}.

Lemma numbered_lookup f q m :
  MemSpec.numbered f q -> m ∈ q ->
  exists i, q !! i = Some m /\ Sequence m = f + Z.of_nat i.
Proof. intros Hn Hm. apply list_elem_of_lookup in Hm as [i Hi]. exists i. eauto. Qed.

#[export] Program Instance memory_store_spec : MsgStoreSpec Mem.MemoryMsgStore := {|
  view := MemSpec.repr Size
|}.
Next Obligation.
  intros ms [[f q]|] Hr; [|done]. destruct Hr. simpl. split_and!; [done|lia|done].
Qed.
Next Obligation.
  intros ms w seq Hr. simpl. f_equal. by apply (MemSpec.repr_Lookup Size).
Qed.
Next Obligation.
  intros ms [[f q]|] Hr; simpl in *; unfold Mem.FirstAndLastSequence.
  - destruct Hr. by rewrite h_first, h_last.
  - by destruct Hr as (-> & -> & _).
Qed.
Next Obligation.
  intros ms w ts Hr Hs. simpl.
  destruct (MemSpec.from_timestamp Size ms w ts Hr Hs) as (seq & -> & Hseq).
  exists seq. split; [done|]. destruct w as [[f q]|]; [|done].
  destruct Hseq as (r & -> & Hr'). specialize (Hs f q eq_refl).
  assert (Hn : MemSpec.numbered f q) by by destruct Hr.
  destruct Hr' as [(Hle & Hlow & Hhigh)|(Hlen & m & Hm & Hts)].
  - split_and!; [lia|lia| |].
    + intros m Hm Hlt. destruct (numbered_lookup _ _ _ Hn Hm) as (i & Hi & Hsm).
      assert (Timestamp m < ts) by (apply (Hlow i); [lia|done]). lia.
    + intros m Hm Hge. destruct (numbered_lookup _ _ _ Hn Hm) as (i & Hi & Hsm).
      destruct (lookup_lt_is_Some_2 q r) as [m' Hm']; [apply lookup_lt_Some in Hi; lia|].
      specialize (Hhigh m' Hm'). pose proof (Hs r i m' m ltac:(lia) Hm' Hi). lia.
  - split_and!; [lia|lia| |].
    + intros m' Hm' Hlt. destruct (numbered_lookup _ _ _ Hn Hm') as (i & Hi & Hsm).
      pose proof (Hs i r m' m ltac:(lia) Hi Hm). lia.
    + intros m' Hm' Hge. destruct (numbered_lookup _ _ _ Hn Hm') as (i & Hi & Hsm).
      pose proof (Hs r i m m' ltac:(lia) Hm Hi). lia.
Qed.

Lemma trim_pushed l m w w' :
  w' = Some (let '(f, q) := default (Sequence m, []) w in Window.trim Size l f (q ++ [m])) -> pushed m w w'.
Proof.
  intros ->. unfold pushed. destruct (default (Sequence m, []) w) as [f q].
  destruct (Window.trim_suffix Size l f (q ++ [m])) as (k & _ & -> & _ & _ & Hk). exists k. split; [|done].
  specialize (Hk ltac:(by destruct q)). rewrite length_app in Hk. cbn in Hk. lia.
Qed.

(** Nothing of this store survives the process: what it holds is all that is durable. *)
#[export] Instance memory_log (E : Type) : MsgLog Mem.MemoryMsgStore E := {|
  StoreMsg now m ms := let '(seq, ms') := Mem.Store Size now m ms in (Ok seq, ms');
  FlushMsgs ms := (Ok tt, ms)
|}.

#[export] Program Instance memory_log_spec (E : Type) : MsgLogSpec Mem.MemoryMsgStore E := {|
  storable _ := True;
  durable := MemSpec.repr Size
|}.
Next Obligation.
  intros E ms w m t Hr Hm Hb _. left.
  assert (0 <= Window.wlast w) as H0 by (destruct w as [[f q]|]; [destruct Hr; cbn; lia|done]).
  assert (Window.accepts w m) as Ha by (split; [lia|destruct w; [lia|done]]).
  pose proof (MemSpec.Store_holds Size t m ms w Hr Ha) as (Eq & Hr' & _). cbn.
  destruct (Mem.Store Size t m ms) as [r ms']. cbn in *. eexists _, _. split; [by rewrite Eq|]. split; [exact Hr'|].
  apply (trim_pushed (Mem.limits ms)). unfold Window.store. destruct (Z.leb_spec (Sequence m) (Window.wlast w)); [lia|].
  by destruct w as [[f q]|].
Qed.
Next Obligation. intros E ms w Hr. by exists ms. Qed.
End Memory.
