(* ===== verification/GenericStore.v ===== *)
(** * Stores of channels, and stores of subscriptions

    Model of the generic stores of [src/stores/common.go]: [genericStore], the
    map of channels with the limits that apply to each, and [genericSubStore],
    which numbers the subscriptions of a channel; of [MemoryStore]
    ([src/stores/memstore.go]), which is a generic store of in-memory channels;
    and of the subscription store that replaces them in clustering mode
    ([src/stores/raftstore.go]).  The stores of a channel are parameters of the
    generic store, with their [Close] methods. *)

From Stdlib Require Import ZArith Lia Ascii String.
From stdpp Require Import base list gmap strings sorting.
From S2P Require Import Prelude Subject Util Sublist SublistOrder Limits MemStore.

Local Open Scope Z_scope.

Inductive store_error := ErrTooManyChannels | ErrTooManySubs | ErrAlreadyExists | StoreErrNotFound.

(** ** [genericSubStore] and [RaftSubStore] *)

Module SubStore.

Record genericSubStore := mkSubStore {
  maxSubscriptions : Z;
  subs : gset Z;
  maxSubID : Z;
}.

Definition init (maxSubscriptions : Z) : genericSubStore := mkSubStore maxSubscriptions ∅ 0.

Definition full (gss : genericSubStore) : bool :=
  (0 <? maxSubscriptions gss) && (maxSubscriptions gss <=? Z.of_nat (size (subs gss))).

(** The new ID, which the caller finds in [sub.ID]. *)
Definition createSub (gss : genericSubStore) : (Z + store_error) * genericSubStore :=
  if full gss then (inr ErrTooManySubs, gss)
  else
    let id := u64 (maxSubID gss + 1) in
    (inl id, mkSubStore (maxSubscriptions gss) ({[id]} ∪ subs gss) id).

Definition CreateSub (gss : genericSubStore) : (Z + store_error) * genericSubStore := createSub gss.

Definition DeleteSub (gss : genericSubStore) (subid : Z) : genericSubStore :=
  mkSubStore (maxSubscriptions gss) (subs gss ∖ {[subid]}) (maxSubID gss).

(** [RaftSubStore.CreateSub], given [sub.ID]. *)
Definition RaftCreateSub (gss : genericSubStore) (id : Z) : (Z + store_error) * genericSubStore :=
  if (0 <? id) && bool_decide (id ∈ subs gss) then (inl id, gss)
  else if full gss then (inr ErrTooManySubs, gss)
  else
    let '(id', mx) :=
      if id =? 0 then (u64 (maxSubID gss + 1), u64 (maxSubID gss + 1))
      else if maxSubID gss <? id then (id, id) else (id, maxSubID gss) in
    (inl id', mkSubStore (maxSubscriptions gss) ({[id']} ∪ subs gss) mx).

(** The sub store that [replaceSubStore] puts in place of the real one, and the
    highest ID that [Recover] finds among the recovered subscriptions. *)
Definition replaceSubStore (maxSubscriptions maxSubID : Z) : genericSubStore :=
  mkSubStore maxSubscriptions ∅ maxSubID.
Definition recoveredMaxSubID (ids : list Z) : Z :=
  foldl (fun mx id => if mx <? id then id else mx) 0 ids.

Inductive op := OpCreate | OpDelete (subid : Z) | OpRaftCreate (id : Z).

(** A step, and the ID that it gives out. *)
Definition step (gss : genericSubStore) (o : op) : genericSubStore * option Z :=
  match o with
  | OpCreate => let '(r, g) := CreateSub gss in (g, match r with inl id => Some id | inr _ => None end)
  | OpDelete id => (DeleteSub gss id, None)
  | OpRaftCreate id =>
      let '(r, g) := RaftCreateSub gss id in (g, match r with inl id => Some id | inr _ => None end)
  end.

(** The IDs given out by a sequence of operations, in order. *)
Fixpoint given (gss : genericSubStore) (os : list op) : list Z :=
  match os with
  | [] => []
  | o :: os' =>
      let '(g, r) := step gss o in
      match r with Some id => id :: given g os' | None => given g os' end
  end.

Definition run (gss : genericSubStore) (os : list op) : genericSubStore :=
  foldl (fun g o => (step g o).1) gss os.

(** Registered IDs are at most [maxSubID], and no more than the limit. *)
Record wf (gss : genericSubStore) : Prop := {
  wf_max : 0 <= maxSubID gss;
  wf_ids id : id ∈ subs gss -> 0 < id <= maxSubID gss;
  wf_limit : 0 < maxSubscriptions gss -> Z.of_nat (size (subs gss)) <= maxSubscriptions gss
}.

Lemma size_insert_limit (gss : genericSubStore) id :
  full gss = false -> 0 < maxSubscriptions gss ->
  Z.of_nat (size ({[id]} ∪ subs gss)) <= maxSubscriptions gss.
Proof.
  intros Hf Hm. unfold full in Hf. apply andb_false_iff in Hf as [Hf|Hf].
  { apply Z.ltb_ge in Hf. lia. }
  apply Z.leb_gt in Hf.
  assert (Hs : (size ({[id]} ∪ subs gss) <= 1 + size (subs gss))%nat).
  { destruct (decide (id ∈ subs gss)) as [Hin|Hin].
    - rewrite subseteq_union_1_L by set_solver. lia.
    - rewrite size_union by set_solver. by rewrite size_singleton. }
  lia.
Qed.

Lemma size_delete_le (gss : genericSubStore) id :
  (size (subs gss ∖ {[id]}) <= size (subs gss))%nat.
Proof. apply subseteq_size. set_solver. Qed.

(** An operation, on a store whose IDs have not reached the largest uint64:
    the invariant is kept, the maximum does not decrease, and an ID that
    [CreateSub] chooses is greater than any before it. *)
Lemma sub_step_wf gss o :
  wf gss -> maxSubID gss < two64 - 1 ->
  (forall id, o = OpRaftCreate id -> 0 <= id < two64) ->
  wf (step gss o).1 /\ maxSubID gss <= maxSubID (step gss o).1 /\
  maxSubscriptions (step gss o).1 = maxSubscriptions gss /\
  (o = OpCreate -> forall id, (step gss o).2 = Some id ->
     id = maxSubID gss + 1 /\ maxSubID (step gss o).1 = id).
Proof.
  intros Hwf Hb Hid. pose proof Hwf as [Hm Hi Hl].
  assert (Hu : u64 (maxSubID gss + 1) = maxSubID gss + 1) by (apply u64_small; unfold is_u64; lia).
  destruct o as [|id|id]; simpl.
  - unfold CreateSub, createSub. destruct (full gss) eqn:Hf; simpl.
    { split_and!; try done. }
    rewrite Hu. split_and!; [|lia|done|by intros _ id [= <-]].
    constructor; simpl; [lia| |by apply size_insert_limit].
    intros id'. rewrite elem_of_union, elem_of_singleton. intros [->|H%Hi]; lia.
  - split_and!; [|lia|done|done]. constructor; simpl; [lia| |].
    + intros id'. rewrite elem_of_difference. intros [H%Hi _]. lia.
    + intros H. specialize (Hl H). pose proof (size_delete_le gss id). lia.
  - specialize (Hid id eq_refl). unfold RaftCreateSub.
    destruct ((0 <? id) && bool_decide (id ∈ subs gss)) eqn:Hin; simpl.
    { split_and!; done. }
    destruct (full gss) eqn:Hf; simpl; [split_and!; done|].
    destruct (Z.eqb_spec id 0) as [->|Hne]; [|destruct (Z.ltb_spec (maxSubID gss) id)]; simpl;
      (split_and!; [|lia|done|done]);
      (constructor; simpl; [lia| |by apply size_insert_limit]);
      intros id'; rewrite elem_of_union, elem_of_singleton; intros [->|H1%Hi]; lia.
Qed.

Lemma given_above gss os :
  wf gss -> Forall (fun o => match o with OpRaftCreate _ => False | _ => True end) os ->
  maxSubID gss + Z.of_nat (length os) < two64 ->
  Forall (Z.lt (maxSubID gss)) (given gss os) /\ StronglySorted Z.lt (given gss os).
Proof.
  revert gss. induction os as [|o os IH]; intros gss Hwf Hos Hb; [by split; constructor|].
  inversion Hos as [|?? Ho Hos']; subst. simpl in Hb.
  destruct (sub_step_wf gss o Hwf) as (Hwf' & Hle & _ & Hid); [lia|by intros id ->|].
  cbn [given]. destruct (step gss o) as [g r] eqn:Hs. simpl in *.
  assert (Hstep : maxSubID g <= maxSubID gss + 1).
  { destruct o as [|id|id]; simpl in Hs; [|by injection Hs as <- <-; simpl; lia|done].
    unfold CreateSub, createSub in Hs. destruct (full gss); simpl in Hs; injection Hs as <- <-; simpl; [lia|].
    rewrite u64_small by (unfold is_u64; pose proof (wf_max _ Hwf); lia). lia. }
  destruct (IH g Hwf' Hos') as [Hall Hsort]; [lia|].
  assert (Hall' : Forall (Z.lt (maxSubID gss)) (given g os)).
  { eapply Forall_impl; [exact Hall|]. simpl. intros. lia. }
  destruct r as [id|]; [|done].
  assert (o = OpCreate) as ->.
  { destruct o as [|id'|id']; [done|by injection Hs|done]. }
  destruct (Hid eq_refl id eq_refl) as [-> Hmax]. split; constructor; try done; [lia|].
  by rewrite <- Hmax.
Qed.

(** Subscription IDs are never reused: along any sequence of creations and
    deletions, the IDs that the store gives out are strictly increasing, so that
    a deleted subscription's ID does not come back; and the number of
    registered subscriptions never exceeds a limit that is set. *)
Theorem SubIDs_increasing maxSubs os :
  Forall (fun o => match o with OpRaftCreate _ => False | _ => True end) os ->
  Z.of_nat (length os) < two64 ->
  StronglySorted Z.lt (given (init maxSubs) os) /\
  (0 < maxSubs -> Z.of_nat (size (subs (run (init maxSubs) os))) <= maxSubs).
Proof.
  intros Hos Hb. assert (Hwf : wf (init maxSubs)).
  { constructor; [done|unfold init; simpl; set_solver|].
    intros Hm. change (subs (init maxSubs)) with (∅ : gset Z). rewrite size_empty. simpl in *. lia. }
  split; [by apply given_above|]. intros Hm.
  cut (wf (run (init maxSubs) os) /\ maxSubscriptions (run (init maxSubs) os) = maxSubs).
  { intros [[_ _ Hl] Heq]. rewrite Heq in Hl. by apply Hl. }
  assert (Hms : maxSubscriptions (init maxSubs) = maxSubs) by done.
  assert (Hid : maxSubID (init maxSubs) + Z.of_nat (length os) < two64) by (simpl; lia).
  clear Hb. revert Hwf Hms Hid. generalize (init maxSubs). induction os as [|o os IH]; [done|].
  intros g Hwf Hms Hid. inversion Hos as [|?? Ho Hos']; subst. simpl in Hid.
  destruct (sub_step_wf g o Hwf) as (Hwf' & _ & Heq & Hid'); [lia|by intros id ->|].
  apply IH; [done|done|congruence|].
  destruct o as [|id|id]; simpl in *; [|lia|done].
  unfold CreateSub, createSub in *. destruct (full g); simpl in *; [lia|].
  pose proof (wf_max _ Hwf). rewrite u64_small by (unfold is_u64; lia). lia.
Qed.

Lemma SubIDs_increasing_witness :
  StronglySorted Z.lt
    (given (init 2) [OpCreate; OpCreate; OpCreate; OpDelete 2; OpCreate; OpDelete 1; OpCreate]).
Proof.
  apply (SubIDs_increasing 2); [repeat constructor|reflexivity].
Defined.

(** In clustering mode the numbering starts above every recovered ID. *)
Lemma recoveredMaxSubID_ge ids : Forall (fun id => id <= recoveredMaxSubID ids) ids.
Proof.
  unfold recoveredMaxSubID.
  assert (Hm : forall l mx, mx <= foldl (fun mx id => if mx <? id then id else mx) mx l).
  { induction l as [|x l IH]; intros mx; simpl; [lia|]. specialize (IH (if mx <? x then x else mx)).
    destruct (Z.ltb_spec mx x); lia. }
  generalize 0. induction ids as [|x ids IH]; intros mx; [constructor|].
  constructor; [|apply IH]. simpl. specialize (Hm ids (if mx <? x then x else mx)).
  destruct (Z.ltb_spec mx x); lia.
Qed.
End SubStore.

(** ** [genericStore] *)

Module Generic.

Section Store.
Context `{!RangeOrder string}.
(** The message and subscription stores of a channel, and their [Close]. *)
Context {MS SS X : Type} (Msgs_Close : MS -> MS * option X) (Subs_Close : SS -> SS * option X).

Record Channel := mkChannel { Subs : SS; Msgs : MS }.

Record genericStore := mkGenericStore {
  closed : bool;
  limits : StoreLimits;
  sublist : Sublist ChannelLimits;
  channels : gmap string Channel;
}.

Definition set_sublist (gs : genericStore) (s : Sublist ChannelLimits) : genericStore :=
  mkGenericStore (closed gs) (limits gs) s (channels gs).
Definition set_channels (gs : genericStore) (cs : gmap string Channel) : genericStore :=
  mkGenericStore (closed gs) (limits gs) (sublist gs) cs.

(** [setLimits]: the store's limits are replaced by the copy before [Build]
    validates it; the sublist is replaced only after. *)
Definition setLimits (gs : genericStore) (l : StoreLimits)
  : outcome Empty_set (genericStore * option limits_error) :=
  let copy := Clone l in
  match Build copy with
  | Panic => Panic
  | Err e => Ok (mkGenericStore (closed gs) copy (sublist gs) (channels gs), Some e)
  | Ok built =>
      let s := foldl (fun s x => (Insert s x.1 x.2).1) NewSublist (range (PerChannel built)) in
      Ok (mkGenericStore (closed gs) (mkStoreLimits (MaxChannels built) (Global built) ∅) s
            (channels gs), None)
  end.

Definition SetLimits := setLimits.

(** [init] on a zero store; [None] limits are the default ones. *)
Definition init (l : option StoreLimits) : outcome Empty_set (genericStore * option limits_error) :=
  setLimits (mkGenericStore false (mkStoreLimits 0 (mkChannelLimits 0 0 0 0 0) ∅) NewSublist ∅)
    (default DefaultStoreLimits l).

(** The lookup of a sublist updates its cache. *)
Definition getChannelLimits (gs : genericStore) (channel : string) : ChannelLimits * genericStore :=
  let '(r, s) := Match (sublist gs) channel in
  (match last r with None => Global (limits gs) | Some cl => cl end, set_sublist gs s).

Definition GetChannelLimits (gs : genericStore) (channel : string)
  : option ChannelLimits * genericStore :=
  match channels gs !! channel with
  | None => (None, gs)
  | Some _ => let '(cl, gs') := getChannelLimits gs channel in (Some cl, gs')
  end.

Definition canAddChannel (gs : genericStore) (name : string) : option store_error :=
  match channels gs !! name with
  | Some _ => Some ErrAlreadyExists
  | None =>
      if (0 <? MaxChannels (limits gs)) && (MaxChannels (limits gs) <=? Z.of_nat (size (channels gs)))
      then Some ErrTooManyChannels else None
  end.

(** Both stores are closed, the first error is kept. *)
Definition keep (err lerr : option X) : option X :=
  match err with Some _ => err | None => lerr end.

Inductive delete_error := DeleteNotFound | CloseError (e : X).

Definition deleteChannel (gs : genericStore) (channel : string) : genericStore * option delete_error :=
  match channels gs !! channel with
  | None => (gs, Some DeleteNotFound)
  | Some c =>
      let '(m, err) := Msgs_Close (Msgs c) in
      let '(s, lerr) := Subs_Close (Subs c) in
      match keep err lerr with
      | Some e => (set_channels gs (<[channel := mkChannel s m]> (channels gs)), Some (CloseError e))
      | None => (set_channels gs (delete channel (channels gs)), None)
      end
  end.

Definition DeleteChannel := deleteChannel.

(** The loop of [close] over the channels: subscriptions first. *)
Fixpoint close_loop (l : list (string * Channel)) (cs : gmap string Channel) (err : option X)
  : gmap string Channel * option X :=
  match l with
  | [] => (cs, err)
  | (name, c) :: l' =>
      let '(s, lerr1) := Subs_Close (Subs c) in
      let '(m, lerr2) := Msgs_Close (Msgs c) in
      close_loop l' (<[name := mkChannel s m]> cs) (keep (keep err lerr1) lerr2)
  end.

Definition close (gs : genericStore) : genericStore * option X :=
  let '(cs, err) := close_loop (range (channels gs)) (channels gs) None in
  (set_channels gs cs, err).

Definition Close (gs : genericStore) : genericStore * option X :=
  if closed gs then (gs, None)
  else close (mkGenericStore true (limits gs) (sublist gs) (channels gs)).

(** *** [CreateChannel]

    What [MemoryStore.CreateChannel] does, with the construction of the stores
    of the channel from its limits. *)
Context (new_channel : ChannelLimits -> Channel).

Definition CreateChannel (gs : genericStore) (channel : string)
  : (Channel + store_error) * genericStore :=
  match canAddChannel gs channel with
  | Some e => (inr e, gs)
  | None =>
      let '(cl, gs') := getChannelLimits gs channel in
      let c := new_channel cl in
      (inl c, set_channels gs' (<[channel := c]> (channels gs')))
  end.

(** *** The limits of a channel *)

(** The store applies the limits that [Build] made. *)
Record has_limits (gs : genericStore) (built : StoreLimits) : Prop := {
  hl_exact : cache_exact (sublist gs);
  hl_root : root (sublist gs) = root (build (range (PerChannel built)));
  hl_global : Global (limits gs) = Global built;
  hl_max : MaxChannels (limits gs) = MaxChannels built;
  hl_valid : Forall (fun x => valid x.1) (range (PerChannel built))
}.

Lemma Clone_id l : Clone l = l.
Proof. by destruct l. Qed.

Lemma setLimits_has gs l gs' :
  setLimits gs l = Ok (gs', None) -> exists built, Build l = Ok built /\ has_limits gs' built.
Proof.
  unfold setLimits. rewrite Clone_id. destruct (Build l) as [built|e|] eqn:Hb; try done.
  intros [= <-]. exists built. split; [done|]. constructor; simpl; try done.
  - apply build_exact.
  - apply Build_lookup in Hb as (m & [Hinv _] & [_ [Hv _]] & ->). simpl.
    apply Forall_forall. intros [c cl] Hc. apply elem_of_range in Hc. simpl.
    apply (proj1 (Forall_forall _ _) Hv), (inv_dom _ _ _ _ Hinv).
    rewrite lookup_fmap in Hc. by apply fmap_Some in Hc as (i & -> & _).
Qed.

Lemma getChannelLimits_frame gs channel :
  channels (getChannelLimits gs channel).2 = channels gs /\
  limits (getChannelLimits gs channel).2 = limits gs.
Proof. unfold getChannelLimits. by destruct (Match (sublist gs) channel). Qed.

Lemma getChannelLimits_has gs built channel :
  has_limits gs built -> has_limits (getChannelLimits gs channel).2 built.
Proof.
  intros [He Hr Hg Hm Hv]. destruct (Match_exact (sublist gs) channel He) as (_ & Hroot & Hex).
  unfold getChannelLimits. destruct (Match (sublist gs) channel) as [r s]. simpl in *.
  constructor; simpl; congruence || done.
Qed.

(** The limits chosen for a channel: those of the narrowest pattern that
    matches it, the global ones when there is none. *)
Definition chosen (built : StoreLimits) (c : string) (cl : ChannelLimits) : Prop :=
  (cl = Global built /\ forall q, is_Some (PerChannel built !! q) -> ~ matches (path q) (tokens c)) \/
  exists p, PerChannel built !! p = Some cl /\ matches (path p) (tokens c) /\
    forall q, is_Some (PerChannel built !! q) -> matches (path q) (tokens c) ->
      covers (path p) (path q) -> q = p.

Lemma getChannelLimits_chosen gs built c :
  has_limits gs built -> chosen built c (getChannelLimits gs c).1.
Proof.
  intros [He Hr Hg Hm Hv]. destruct (Match_exact (sublist gs) c He) as (HM & _).
  unfold getChannelLimits. destruct (Match (sublist gs) c) as [r s]. simpl in *. subst r.
  rewrite Hr, matchLevel_build by (done || apply NoDup_range_fst || apply tokens_nonempty).
  assert (Hq : forall q cl, PerChannel built !! q = Some cl ->
            cl ∈ named (range (PerChannel built)) (path q)).
  { intros q cl Hq. apply elem_of_named. exists q. by rewrite elem_of_range. }
  destruct (last (patterns (tokens c) ≫= named (range (PerChannel built)))) as [cl|] eqn:Hl.
  - right. apply bind_last in Hl as (i & p & Hi & Hin & Hmax).
    apply elem_of_named in Hin as (x & Hx & <-). apply elem_of_range in Hx. exists x.
    split_and!; [done|apply elem_of_patterns; by eapply list_elem_of_lookup_2|].
    intros q [clq Hclq] Hmq Hc. apply elem_of_patterns, list_elem_of_lookup in Hmq as [j Hj].
    assert (Hji : (j <= i)%nat).
    { apply (Hmax j _ Hj). specialize (Hq _ _ Hclq). by destruct (named _ (path q)); [apply elem_of_nil in Hq|]. }
    destruct (decide (j = i)) as [->|Hne].
    + rewrite Hi in Hj. injection Hj as Hj. symmetry. apply path_inj; [| |done];
        eapply (proj1 (Forall_forall _ _) Hv (_, _)), elem_of_range; done.
    + exfalso. by apply (patterns_sorted (tokens c) j i _ _ Hj Hi); [lia|].
  - left. rewrite Hg. split; [done|]. intros q [clq Hclq] Hmq.
    apply last_None in Hl. apply elem_of_patterns in Hmq.
    assert (Hin : clq ∈ patterns (tokens c) ≫= named (range (PerChannel built))).
    { apply list_elem_of_bind. exists (path q). eauto. }
    rewrite Hl in Hin. by apply elem_of_nil in Hin.
Qed.

(** *** Sequences of operations *)

Inductive op := OpCreateChannel (c : string) | OpDeleteChannel (c : string) | OpGetChannelLimits (c : string).

Definition step (gs : genericStore) (o : op) : genericStore :=
  match o with
  | OpCreateChannel c => (CreateChannel gs c).2
  | OpDeleteChannel c => (DeleteChannel gs c).1
  | OpGetChannelLimits c => (GetChannelLimits gs c).2
  end.

Lemma step_has gs built o : has_limits gs built -> has_limits (step gs o) built.
Proof.
  intros Hl. destruct o as [c|c|c]; simpl.
  - unfold CreateChannel. destruct (canAddChannel gs c); [done|].
    pose proof (getChannelLimits_has gs built c Hl) as Hl'.
    destruct (getChannelLimits gs c) as [cl gs']. simpl. by destruct Hl'.
  - unfold DeleteChannel, deleteChannel. destruct (channels gs !! c) as [ch|]; [|done].
    destruct (Msgs_Close (Msgs ch)) as [m' err], (Subs_Close (Subs ch)) as [s' lerr].
    by destruct (keep err lerr), Hl.
  - unfold GetChannelLimits. destruct (channels gs !! c); [|done].
    pose proof (getChannelLimits_has gs built c Hl) as Hl'.
    by destruct (getChannelLimits gs c).
Qed.

(** [C37] Once limits are set, and after any creations, deletions and lookups, a new
    channel gets the limits of the narrowest pattern that matches its name, as
    inheritance left them, or the global limits when no pattern matches; it is
    refused exactly when it exists or when the number of channels has reached the
    maximum. *)
Theorem CreateChannel_limits gs0 l gs1 ops c :
  setLimits gs0 l = Ok (gs1, None) ->
  exists built, Build l = Ok built /\
    let gs := foldl step gs1 ops in
    match (CreateChannel gs c).1 with
    | inl ch => exists cl, chosen built c cl /\ ch = new_channel cl /\
        channels (CreateChannel gs c).2 = <[c := ch]> (channels gs) /\ channels gs !! c = None /\
        (0 < MaxChannels built ->
         Z.of_nat (size (channels (CreateChannel gs c).2)) <= MaxChannels built)
    | inr ErrAlreadyExists => is_Some (channels gs !! c) /\ (CreateChannel gs c).2 = gs
    | inr ErrTooManyChannels => 0 < MaxChannels built <= Z.of_nat (size (channels gs)) /\
        channels gs !! c = None /\ (CreateChannel gs c).2 = gs
    | inr _ => False
    end.
Proof.
  intros Hset. apply setLimits_has in Hset as (built & Hb & Hl). exists built. split; [done|].
  assert (Hgs : has_limits (foldl step gs1 ops) built).
  { revert gs1 Hl. induction ops as [|o ops IH]; intros gs1 Hl; [done|].
    simpl. by apply IH, step_has. }
  generalize dependent (foldl step gs1 ops). clear gs1 Hl. intros gs Hl. cbv zeta.
  unfold CreateChannel, canAddChannel. destruct (channels gs !! c) as [ch|] eqn:Hc; [done|].
  rewrite (hl_max _ _ Hl).
  destruct ((0 <? MaxChannels built) && (MaxChannels built <=? Z.of_nat (size (channels gs)))) eqn:Hm.
  { simpl. apply andb_true_iff in Hm as [H1%Z.ltb_lt H2%Z.leb_le]. split_and!; done || lia. }
  pose proof (getChannelLimits_chosen gs built c Hl) as Hch.
  destruct (getChannelLimits_frame gs c) as [Hf _].
  destruct (getChannelLimits gs c) as [cl gs']. simpl in *. exists cl. rewrite Hf.
  split_and!; [done|done|done|done|]. intros Hpos. rewrite map_size_insert_None by done.
  apply andb_false_iff in Hm as [Hm|Hm]; [apply Z.ltb_ge in Hm|apply Z.leb_gt in Hm]; lia.
Qed.

(** A call of [SetLimits] that is rejected still replaces the limits of the
    store, though not the per-channel ones. *)
Theorem SetLimits_error gs l gs' e :
  SetLimits gs l = Ok (gs', Some e) ->
  limits gs' = l /\ sublist gs' = sublist gs /\ channels gs' = channels gs.
Proof.
  unfold SetLimits, setLimits. rewrite Clone_id. destruct (Build l); try done.
  by intros [= <- <-].
Qed.

(** *** Closing *)

Lemma close_loop_frame l cs err c :
  c ∉ l.*1 -> (close_loop l cs err).1 !! c = cs !! c.
Proof.
  revert cs err. induction l as [|[n ch] l IH]; intros cs err Hc; [done|].
  rewrite fmap_cons, not_elem_of_cons in Hc. destruct Hc as [Hne Hc]. simpl.
  destruct (Subs_Close (Subs ch)), (Msgs_Close (Msgs ch)).
  rewrite IH by done. by rewrite lookup_insert_ne.
Qed.

Lemma close_loop_closes l cs err c ch :
  NoDup l.*1 -> (c, ch) ∈ l ->
  (close_loop l cs err).1 !! c = Some (mkChannel (Subs_Close (Subs ch)).1 (Msgs_Close (Msgs ch)).1).
Proof.
  revert cs err. induction l as [|[n ch'] l IH]; intros cs err Hnd Hin; [by apply elem_of_nil in Hin|].
  inversion Hnd; subst. simpl.
  destruct (Subs_Close (Subs ch')) as [s1 e1] eqn:H1', (Msgs_Close (Msgs ch')) as [m1 e2] eqn:H2'.
  apply elem_of_cons in Hin as [[= -> ->]|Hin]; [|by apply IH].
  rewrite close_loop_frame by done. by rewrite lookup_insert_eq, H1', H2'.
Qed.

Lemma close_loop_err l cs err :
  (close_loop l cs err).2 = None <->
  err = None /\ Forall (fun x => (Subs_Close (Subs x.2)).2 = None /\ (Msgs_Close (Msgs x.2)).2 = None) l.
Proof.
  revert cs err. induction l as [|[n ch] l IH]; intros cs err; simpl.
  { split; [by intros ->|by intros [? _]]. }
  rewrite Forall_cons. simpl.
  destruct (Subs_Close (Subs ch)) as [s1 e1], (Msgs_Close (Msgs ch)) as [m1 e2]. rewrite IH. simpl.
  destruct err, e1, e2; simpl; naive_solver.
Qed.

(** Closing a store closes both stores of every channel, even after an error,
    and reports an error exactly when one of them does; a second call does
    nothing. *)
Theorem Close_spec gs :
  let '(gs', err) := Close gs in
  closed gs' = true /\
  (closed gs = true -> gs' = gs /\ err = None) /\
  (closed gs = false ->
   (forall c ch, channels gs !! c = Some ch ->
      channels gs' !! c = Some (mkChannel (Subs_Close (Subs ch)).1 (Msgs_Close (Msgs ch)).1)) /\
   (err = None <-> forall c ch, channels gs !! c = Some ch ->
      (Subs_Close (Subs ch)).2 = None /\ (Msgs_Close (Msgs ch)).2 = None)).
Proof.
  unfold Close. destruct (closed gs) eqn:Hc; [done|]. unfold close. simpl.
  pose proof (close_loop_closes (range (channels gs)) (channels gs) None) as Hcl.
  pose proof (close_loop_err (range (channels gs)) (channels gs) None) as Herr.
  destruct (close_loop _ _ _) as [cs err]. simpl in *. split_and!; [done|done|]. intros _. split.
  - intros c ch Hch. apply Hcl; [apply NoDup_range_fst|by apply elem_of_range].
  - rewrite Herr, Forall_forall. split.
    + intros [_ H] c ch Hch. by apply (H (c, ch)), elem_of_range.
    + intros H. split; [done|]. intros [c ch] Hin. by apply (H c), elem_of_range.
Qed.
End Store.
End Generic.

(** ** [MemoryStore] *)

Module MemoryStore.

Definition Channel := @Generic.Channel Mem.MemoryMsgStore SubStore.genericSubStore.

Definition new_channel (cl : ChannelLimits) : Channel :=
  Generic.mkChannel
    (SubStore.init (MaxSubscriptions cl))
    (Mem.init (Mem.mkLimits (MaxMsgs cl) (MaxBytes cl) (MaxAge cl))).

Definition CreateChannel `{!RangeOrder string} := Generic.CreateChannel new_channel.
Definition NewMemoryStore `{!RangeOrder string} :=
  @Generic.init _ Mem.MemoryMsgStore SubStore.genericSubStore.
End MemoryStore.

(** ** Concrete stores *)

Module StoreSample.

#[local] Instance sample_order : RangeOrder string := default_order string.

Definition no_error {A : Type} (x : A) : A * option Empty_set := (x, None).

Definition zero_store : @Generic.genericStore Mem.MemoryMsgStore SubStore.genericSubStore :=
  Generic.mkGenericStore false DefaultStoreLimits NewSublist ∅.

Definition limited_store : @Generic.genericStore Mem.MemoryMsgStore SubStore.genericSubStore :=
  match Generic.setLimits zero_store sample_limits with Ok (gs, _) => gs | _ => zero_store end.

Definition after_one :=
  foldl (Generic.step no_error no_error MemoryStore.new_channel) limited_store
    [Generic.OpCreateChannel "foo.bar"].

Lemma after_one_creates :
  (Generic.CreateChannel MemoryStore.new_channel after_one "foo.xyz").1
  = inl (MemoryStore.new_channel (mkChannelLimits 0 1000 0 7 0)).
Proof. vm_compute. reflexivity. Qed.

Lemma CreateChannel_limits_witness :
  exists built, Build sample_limits = Ok built /\
    match (Generic.CreateChannel MemoryStore.new_channel after_one "foo.xyz").1 with
    | inl ch => exists cl, Generic.chosen built "foo.xyz" cl /\ ch = MemoryStore.new_channel cl
    | inr _ => True
    end.
Proof.
  destruct (Generic.CreateChannel_limits no_error no_error MemoryStore.new_channel
    zero_store sample_limits limited_store [Generic.OpCreateChannel "foo.bar"] "foo.xyz")
    as (built & Hb & H); [vm_compute; reflexivity|].
  exists built. split; [exact Hb|]. fold after_one in H. cbv zeta in H.
  destruct (Generic.CreateChannel MemoryStore.new_channel after_one "foo.xyz").1; [|exact I].
  destruct H as (cl & H1 & H2 & _). exists cl. split; [exact H1|exact H2].
Defined.

Definition negative_limits : StoreLimits := mkStoreLimits (-1) (mkChannelLimits 0 0 0 0 0) ∅.

Lemma SetLimits_error_witness :
  exists gs', Generic.SetLimits limited_store negative_limits = Ok (gs', Some NegativeMaxChannels) /\
    Generic.limits gs' = negative_limits.
Proof.
  eexists. split; [vm_compute; reflexivity|].
  eapply (Generic.SetLimits_error limited_store negative_limits). vm_compute. reflexivity.
Defined.
End StoreSample.
