(* ===== verification/ClientStore.v ===== *)
(** * The server's registry of clients

    Model of [src/server/client.go].  A [*client] is reachable under its ID and
    under its connection ID, so clients live in a heap and the maps hold their
    addresses.  Methods run under the registry's lock and are single steps, but
    for [isValidWithTimeout], which releases it to wait for the registration: its
    three steps are separate operations.  The calls of the backing store
    ([AddClient], [DeleteClient]) are parameters, given by the error they
    return.  Heartbeat timers are only present or absent here. *)

From Stdlib Require Import ZArith Lia Ascii String.
From stdpp Require Import base list gmap strings.
From S2P Require Import Prelude Subject Sublist.

(** ** Data *)

(** [spb.ClientInfo] *)
Record ClientInfo := mkClientInfo {
  ID : string;
  HbInbox : string;
  ConnID : string;
  Protocol : Z;
  PingInterval : Z;
  PingMaxOut : Z;
}.

Abbreviation ptr := nat.

(** [client]: subscriptions are addresses too. *)
Record client := mkClient {
  info : ClientInfo;
  hbt : bool;
  fhb : Z;
  csubs : list ptr;
}.

Record clientStore := mkClientStore {
  heap : gmap ptr client;
  clients : gmap string ptr;
  connIDs : gmap string ptr;
  waitOnRegister : gmap string nat;
  signalled : gset nat;
  next_chan : nat;
  knownInvalid : gset string;
}.

Definition maxKnownInvalidConns : nat := 256.
Definition pruneKnownInvalidConns : nat := 32.

(** ** Operations *)

Definition newClientStore : clientStore := mkClientStore ∅ ∅ ∅ ∅ ∅ 0 ∅.

Definition getKnownInvalidKey (id connID : string) : string := (id ++ ":" ++ connID)%string.

Inductive client_error (E : Type) := ErrInvalidClient | ClientStoreError (e : E).
Arguments ErrInvalidClient {E}.
Arguments ClientStoreError {E} e.

(** A new object in the heap. *)
Definition alloc (cs : clientStore) : ptr := fresh (dom (heap cs)).

Definition has_conn (i : ClientInfo) : bool := negb (String.eqb (ConnID i) "").

Section Register.
Context {E : Type}.

(** [register], given what [store.AddClient] returns.  A waiting call is
    signalled through its channel, which is then forgotten. *)
Definition register (cs : clientStore) (i : ClientInfo) (addClient : option E)
  : (ptr + client_error E) * clientStore :=
  match clients cs !! ID i with
  | Some _ => (inr ErrInvalidClient, cs)
  | None =>
      match addClient with
      | Some e => (inr (ClientStoreError e), cs)
      | None =>
          let p := alloc cs in
          let ch := waitOnRegister cs !! ID i in
          (inl p, mkClientStore
            (<[p := mkClient i false 0 []]> (heap cs))
            (<[ID i := p]> (clients cs))
            (if has_conn i then <[ConnID i := p]> (connIDs cs) else connIDs cs)
            (match ch with Some _ => delete (ID i) (waitOnRegister cs) | None => waitOnRegister cs end)
            (match ch with Some n => {[n]} ∪ signalled cs | None => signalled cs end)
            (next_chan cs)
            (knownInvalid cs ∖ {[getKnownInvalidKey (ID i) (ConnID i)]}))
      end
  end.

(** [unregister]: the client, and the error of [store.DeleteClient]. *)
Definition unregister (cs : clientStore) (id : string) (deleteClient : option E)
  : (option ptr * option E) * clientStore :=
  match clients cs !! id with
  | None => ((None, None), cs)
  | Some p =>
      match heap cs !! p with
      | None => ((None, None), cs)
      | Some c =>
          ((Some p, deleteClient), mkClientStore
            (<[p := mkClient (info c) false (fhb c) (csubs c)]> (heap cs))
            (delete id (clients cs))
            (if has_conn (info c) then delete (ConnID (info c)) (connIDs cs) else connIDs cs)
            (delete id (waitOnRegister cs))
            (signalled cs) (next_chan cs) (knownInvalid cs))
      end
  end.
End Register.

Definition lookupByConnIDOrID (cs : clientStore) (id connID : string) : option ptr :=
  if negb (String.eqb connID "") then connIDs cs !! connID else clients cs !! id.

Definition isValid (cs : clientStore) (id connID : string) : bool :=
  bool_decide (is_Some (lookupByConnIDOrID cs id connID)).

Definition lookup (cs : clientStore) (id : string) : option ptr := clients cs !! id.
Definition lookupByConnID (cs : clientStore) (connID : string) : option ptr := connIDs cs !! connID.
Definition count (cs : clientStore) : nat := size (clients cs).

Definition knownToBeInvalid (cs : clientStore) (id connID : string) : bool :=
  bool_decide (getKnownInvalidKey id connID ∈ knownInvalid cs).

(** The pruning loop of [addToKnownInvalid] over the keys in some order; [r] is
    the number of keys deleted so far. *)
Fixpoint prune (key : string) (ids : list string) (r : nat) (ki : gset string) : gset string :=
  match ids with
  | [] => ki
  | id :: ids' =>
      if String.eqb id key then prune key ids' r ki
      else
        let ki' := ki ∖ {[id]} in
        let r' := S r in
        if (pruneKnownInvalidConns <? r')%nat then ki' else prune key ids' r' ki'
  end.

Definition addToKnownInvalid `{!RangeOrder string} (ki : gset string) (id connID : string)
  : gset string :=
  let key := getKnownInvalidKey id connID in
  let ki' := {[key]} ∪ ki in
  if (maxKnownInvalidConns <=? size ki')%nat then prune key (order ki') 0 ki' else ki'.

(** The critical section that starts [isValidWithTimeout]: an answer, or the
    channel to wait on. *)
Inductive wait_result := Answer (valid : bool) | WaitOn (ch : nat).

Definition wait_start (cs : clientStore) (id connID : string) : wait_result * clientStore :=
  match lookupByConnIDOrID cs id connID with
  | Some _ => (Answer true, cs)
  | None =>
      if knownToBeInvalid cs id connID then (Answer false, cs)
      else
        let ch := next_chan cs in
        (WaitOn ch, mkClientStore (heap cs) (clients cs) (connIDs cs)
          (<[id := ch]> (waitOnRegister cs)) (signalled cs) (S ch) (knownInvalid cs))
  end.

(** [case <-ch]: enabled when the channel holds a value. *)
Definition wait_wake (cs : clientStore) (ch : nat) : bool := bool_decide (ch ∈ signalled cs).

(** [case <-time.After(timeout)]: the answer is false. *)
Definition wait_timeout `{!RangeOrder string} (cs : clientStore) (id connID : string) : clientStore :=
  mkClientStore (heap cs) (clients cs) (connIDs cs) (delete id (waitOnRegister cs)) (signalled cs)
    (next_chan cs) (addToKnownInvalid (knownInvalid cs) id connID).

(** Subscriptions of a client. *)
Definition set_client (cs : clientStore) (p : ptr) (c : client) : clientStore :=
  mkClientStore (<[p := c]> (heap cs)) (clients cs) (connIDs cs) (waitOnRegister cs) (signalled cs)
    (next_chan cs) (knownInvalid cs).

Definition getSubs (cs : clientStore) (id : string) : option (list ptr) :=
  p ← clients cs !! id; c ← heap cs !! p; Some (csubs c).

Definition addSub (cs : clientStore) (id : string) (sub : ptr) : bool * clientStore :=
  match p ← clients cs !! id; c ← heap cs !! p; Some (p, c) with
  | None => (false, cs)
  | Some (p, c) => (true, set_client cs p (mkClient (info c) (hbt c) (fhb c) (csubs c ++ [sub])))
  end.

(** [subState.deleteFromList] has the same effect as [removeFromList] of the
    sublist: the last element takes the place of the removed one. *)
Definition removeSub (cs : clientStore) (id : string) (sub : ptr) : bool * clientStore :=
  match p ← clients cs !! id; c ← heap cs !! p; Some (p, c) with
  | None => (false, cs)
  | Some (p, c) =>
      match removeFromList sub (csubs c) with
      | None => (false, cs)
      | Some l => (true, set_client cs p (mkClient (info c) (hbt c) (fhb c) l))
      end
  end.

(** [recoverClients] on one client of the recovered list. *)
Definition recoverClient (cs : clientStore) (i : ClientInfo) : clientStore :=
  let p := alloc cs in
  mkClientStore (<[p := mkClient i false 0 []]> (heap cs)) (<[ID i := p]> (clients cs))
    (if has_conn i then <[ConnID i := p]> (connIDs cs) else connIDs cs)
    (waitOnRegister cs) (signalled cs) (next_chan cs) (knownInvalid cs).
Definition recoverClients (cs : clientStore) (l : list ClientInfo) : clientStore :=
  foldl recoverClient cs l.

Definition setClientHB (cs : clientStore) (id : string) : clientStore :=
  match p ← clients cs !! id; c ← heap cs !! p; Some (p, c) with
  | None => cs
  | Some (p, c) => set_client cs p (mkClient (info c) true (fhb c) (csubs c))
  end.

Definition removeClientHB (cs : clientStore) (p : ptr) : clientStore :=
  match heap cs !! p with
  | None => cs
  | Some c => set_client cs p (mkClient (info c) false (fhb c) (csubs c))
  end.

(** ** Consistency of the two maps *)

(** Every entry leads to a live object with that ID; every connection ID leads
    to a client that is registered under its own ID. *)
Record wf (cs : clientStore) : Prop := {
  wf_clients id p : clients cs !! id = Some p ->
    exists c, heap cs !! p = Some c /\ ID (info c) = id;
  wf_conn k p : connIDs cs !! k = Some p -> k <> EmptyString /\
    exists c, heap cs !! p = Some c /\ ConnID (info c) = k /\ clients cs !! ID (info c) = Some p;
}.

Lemma alloc_fresh cs : heap cs !! alloc cs = None.
Proof. unfold alloc. apply not_elem_of_dom. exact (is_fresh (dom (heap cs))). Qed.

Lemma newClientStore_wf : wf newClientStore.
Proof. constructor; cbn [clients connIDs newClientStore]; intros ? ?; by rewrite lookup_empty. Qed.

Lemma has_conn_true i : has_conn i = true <-> ConnID i <> EmptyString.
Proof. unfold has_conn. rewrite negb_true_iff. apply String.eqb_neq. Qed.

(** Adding a client object under an ID that is not in use. *)
Lemma add_wf cs i w s n k :
  wf cs -> clients cs !! ID i = None ->
  wf (mkClientStore (<[alloc cs := mkClient i false 0 []]> (heap cs))
        (<[ID i := alloc cs]> (clients cs))
        (if has_conn i then <[ConnID i := alloc cs]> (connIDs cs) else connIDs cs) w s n k).
Proof.
  intros [Hc Hk] Hnew. pose proof (alloc_fresh cs) as Hf. constructor; simpl.
  - intros id p. rewrite lookup_insert. case_decide as Hid.
    + intros [= <-]. exists (mkClient i false 0 []). by rewrite lookup_insert_eq.
    + intros Hp. destruct (Hc _ _ Hp) as (c & Hh & Heq). exists c.
      rewrite lookup_insert_ne by congruence. done.
  - assert (Hold : forall k' p, connIDs cs !! k' = Some p -> k' <> EmptyString /\
      exists c, <[alloc cs := mkClient i false 0 []]> (heap cs) !! p = Some c /\ ConnID (info c) = k' /\
        <[ID i := alloc cs]> (clients cs) !! ID (info c) = Some p).
    { intros k' p Hp. destruct (Hk _ _ Hp) as (Hne & c & Hh & Heq & Hcl). split; [done|].
      exists c. rewrite !lookup_insert_ne by congruence. done. }
    intros k' p. destruct (has_conn i) eqn:Hi; [|apply Hold].
    rewrite lookup_insert. case_decide as Hkk; [|apply Hold]. intros [= <-]. subst k'.
    split; [by apply has_conn_true|]. exists (mkClient i false 0 []).
    by rewrite !lookup_insert_eq.
Qed.

Lemma register_wf {E} cs i (err : option E) : wf cs -> wf (register cs i err).2.
Proof.
  intros Hw. unfold register. destruct (clients cs !! ID i) eqn:Hc; [done|].
  destruct err; [done|]. simpl. by apply add_wf.
Qed.

Lemma recoverClient_wf cs i : wf cs -> clients cs !! ID i = None -> wf (recoverClient cs i).
Proof. apply add_wf. Qed.

Lemma recoverClients_wf cs l :
  wf cs -> NoDup (ID <$> l) -> (forall i, i ∈ l -> clients cs !! ID i = None) ->
  wf (recoverClients cs l).
Proof.
  revert cs. induction l as [|i l IH]; intros cs Hw Hnd Hnew; [done|].
  rewrite fmap_cons in Hnd. inversion Hnd as [|? ? Hni Hnd']; subst. simpl. apply IH; [|done|].
  - apply recoverClient_wf; [done|]. apply Hnew. by left.
  - intros j Hj. simpl. rewrite lookup_insert_ne; [apply Hnew; by right|].
    intros Heq. apply Hni. rewrite Heq. by apply list_elem_of_fmap_2.
Qed.

Lemma unregister_wf {E} cs id (err : option E) : wf cs -> wf (unregister cs id err).2.
Proof.
  intros Hw. pose proof Hw as [Hc Hk]. unfold unregister.
  destruct (clients cs !! id) as [p|] eqn:Hp; [|done].
  destruct (Hc _ _ Hp) as (c & Hh & Hid). rewrite Hh. simpl.
  assert (Hobj : forall q c', heap cs !! q = Some c' -> exists c'',
    <[p := mkClient (info c) false (fhb c) (csubs c)]> (heap cs) !! q = Some c'' /\ info c'' = info c').
  { intros q c' Hq. rewrite lookup_insert. case_decide; subst; [|by eexists].
    rewrite Hh in Hq. injection Hq as <-. by eexists. }
  constructor; simpl.
  - intros id' q. rewrite lookup_delete. case_decide; [done|]. intros Hq.
    destruct (Hc _ _ Hq) as (c' & Hh' & <-). destruct (Hobj _ _ Hh') as (c'' & H1 & H2).
    exists c''. by rewrite H2.
  - assert (Hrest : forall k q, connIDs cs !! k = Some q -> k <> ConnID (info c) -> k <> EmptyString /\
      exists c', <[p := mkClient (info c) false (fhb c) (csubs c)]> (heap cs) !! q = Some c' /\
        ConnID (info c') = k /\ delete id (clients cs) !! ID (info c') = Some q).
    { intros k q Hq Hne. destruct (Hk _ _ Hq) as (Hn & c' & Hh' & Heq & Hcl). split; [done|].
      destruct (Hobj _ _ Hh') as (c'' & H1 & H2). exists c''. rewrite H2. split_and!; [done|done|].
      rewrite lookup_delete_ne; [done|]. intros Hid'. rewrite <- Hid', Hp in Hcl. injection Hcl as ->.
      rewrite Hh in Hh'. injection Hh' as ->. congruence. }
    intros k q. destruct (has_conn (info c)) eqn:Hhc.
    + rewrite lookup_delete. case_decide; [done|]. intros Hq. by apply Hrest.
    + intros Hq. apply Hrest; [done|]. intros ->.
      destruct (Hk _ _ Hq) as [Hne _]. apply has_conn_true in Hne. congruence.
Qed.

(** Changing the other fields of an object. *)
Lemma set_client_wf cs p c c' :
  wf cs -> heap cs !! p = Some c -> info c' = info c -> wf (set_client cs p c').
Proof.
  intros [Hc Hk] Hh Hi. constructor; simpl.
  - intros id q Hq. destruct (Hc _ _ Hq) as (d & Hd & Hid). rewrite lookup_insert.
    case_decide; subst; [|by exists d]. rewrite Hh in Hd. injection Hd as <-.
    exists c'. by rewrite Hi.
  - intros k q Hq. destruct (Hk _ _ Hq) as (Hne & d & Hd & Hck & Hcl). split; [done|].
    rewrite lookup_insert. case_decide; subst; [|by exists d]. rewrite Hh in Hd. injection Hd as <-.
    exists c'. by rewrite Hi.
Qed.

Section Registry.
Context {E : Type} `{!RangeOrder string}.

Inductive op :=
| OpRegister (i : ClientInfo) (err : option E)
| OpUnregister (id : string) (err : option E)
| OpWaitStart (id connID : string)
| OpWaitTimeout (id connID : string)
| OpAddSub (id : string) (sub : ptr)
| OpRemoveSub (id : string) (sub : ptr)
| OpSetHB (id : string)
| OpRemoveHB (p : ptr).

Definition step (cs : clientStore) (o : op) : clientStore :=
  match o with
  | OpRegister i err => (register cs i err).2
  | OpUnregister id err => (unregister cs id err).2
  | OpWaitStart id connID => (wait_start cs id connID).2
  | OpWaitTimeout id connID => wait_timeout cs id connID
  | OpAddSub id sub => (addSub cs id sub).2
  | OpRemoveSub id sub => (removeSub cs id sub).2
  | OpSetHB id => setClientHB cs id
  | OpRemoveHB p => removeClientHB cs p
  end.

Lemma step_wf cs o : wf cs -> wf (step cs o).
Proof.
  intros Hw. destruct o as [i err|id err|id connID|id connID|id sub|id sub|id|p]; simpl.
  - by apply register_wf.
  - by apply unregister_wf.
  - unfold wait_start. destruct (lookupByConnIDOrID cs id connID); [done|].
    destruct (knownToBeInvalid cs id connID); [done|]. by destruct Hw.
  - by destruct Hw.
  - unfold addSub. destruct (clients cs !! id) as [p|]; [|done]. simpl.
    destruct (heap cs !! p) as [c|] eqn:Hh; [|done]. simpl. by eapply set_client_wf.
  - unfold removeSub. destruct (clients cs !! id) as [p|]; [|done]. simpl.
    destruct (heap cs !! p) as [c|] eqn:Hh; [|done]. simpl.
    destruct (removeFromList sub (csubs c)); [|done]. by eapply set_client_wf.
  - unfold setClientHB. destruct (clients cs !! id) as [p|]; [|done]. simpl.
    destruct (heap cs !! p) as [c|] eqn:Hh; [|done]. simpl. by eapply set_client_wf.
  - unfold removeClientHB. destruct (heap cs !! p) as [c|] eqn:Hh; [|done]. by eapply set_client_wf.
Qed.

(** [C38] Whatever clients were recovered and whatever happened since, a connection
    ID that is accepted belongs to a client that is registered now, under its own
    ID and with that very connection ID; and an ID that is accepted leads to the
    client of that ID. *)
Theorem registry_consistent recovered ops id connID p :
  NoDup (ID <$> recovered) ->
  let cs := foldl step (recoverClients newClientStore recovered) ops in
  lookupByConnIDOrID cs id connID = Some p ->
  exists c, heap cs !! p = Some c /\ lookup cs (ID (info c)) = Some p /\
    (if String.eqb connID "" then ID (info c) = id else ConnID (info c) = connID).
Proof.
  intros Hnd cs Hl.
  assert (Hw : wf cs).
  { assert (H0 : wf (recoverClients newClientStore recovered)).
    { apply recoverClients_wf; [apply newClientStore_wf|done|]. intros i _. apply lookup_empty. }
    subst cs. clear Hl. revert H0. generalize (recoverClients newClientStore recovered).
    induction ops as [|o ops IH]; intros cs0 H0; [done|]. simpl. by apply IH, step_wf. }
  unfold lookupByConnIDOrID in Hl. destruct (String.eqb_spec connID "") as [->|Hne]; simpl in Hl.
  - destruct (wf_clients _ Hw _ _ Hl) as (c & Hh & Hid). exists c. split_and!; [done| |done].
    unfold lookup. by rewrite Hid.
  - destruct (wf_conn _ Hw _ _ Hl) as (_ & c & Hh & Hck & Hcl). by exists c.
Qed.

(** A registration makes the client valid under its ID and its connection ID,
    forgets that it was known to be invalid and signals the call that waits for it;
    unregistering it undoes the former, whatever the backing store answers. *)
Theorem register_unregister cs i (err : option E) :
  wf cs -> clients cs !! ID i = None ->
  let cs1 := (register (E := E) cs i None).2 in
  let cs2 := (unregister cs1 (ID i) err).2 in
  isValid cs1 (ID i) "" = true /\ isValid cs1 (ID i) (ConnID i) = true /\
  knownToBeInvalid cs1 (ID i) (ConnID i) = false /\
  (forall ch, waitOnRegister cs !! ID i = Some ch -> wait_wake cs1 ch = true) /\
  (forall id connID, isValid cs2 id connID = true -> isValid cs id connID = true).
Proof.
  intros Hw Hnew cs1 cs2.
  assert (Hreg : clients cs1 = <[ID i := alloc cs]> (clients cs) /\
    connIDs cs1 = (if has_conn i then <[ConnID i := alloc cs]> (connIDs cs) else connIDs cs) /\
    heap cs1 = <[alloc cs := mkClient i false 0 []]> (heap cs)).
  { subst cs1. unfold register. by rewrite Hnew. }
  destruct Hreg as (Hc1 & Hk1 & Hh1).
  assert (Hcid : lookupByConnIDOrID cs1 (ID i) "" = Some (alloc cs)).
  { unfold lookupByConnIDOrID. simpl. by rewrite Hc1, lookup_insert_eq. }
  split_and!.
  - unfold isValid. by rewrite Hcid.
  - unfold isValid, lookupByConnIDOrID. fold (has_conn i). rewrite Hk1, Hc1.
    destruct (has_conn i); by rewrite lookup_insert_eq.
  - subst cs1. unfold register, knownToBeInvalid. rewrite Hnew. simpl.
    apply bool_decide_eq_false. set_solver.
  - intros ch Hch. subst cs1. unfold register, wait_wake. rewrite Hnew, Hch. simpl.
    apply bool_decide_eq_true. set_solver.
  - assert (H2 : clients cs2 = clients cs /\
      connIDs cs2 = (if has_conn i then delete (ConnID i) (connIDs cs) else connIDs cs)).
    { subst cs2. unfold unregister. rewrite Hc1, lookup_insert_eq, Hh1, lookup_insert_eq. simpl.
      rewrite ?Hc1, Hk1, delete_insert_id by done. split; [done|].
      destruct (has_conn i); [by rewrite delete_insert_eq|done]. }
    destruct H2 as (H3 & H2). intros id connID. unfold isValid, lookupByConnIDOrID.
    destruct (negb (String.eqb connID "")); rewrite ?H3, ?H2; [|done].
    rewrite !bool_decide_eq_true. intros [p Hp]. destruct (has_conn i); [|by exists p].
    apply lookup_delete_Some in Hp as [_ Hp]. by exists p.
Qed.
End Registry.

(** ** The set of clients known to be invalid *)

Lemma prune_spec key ids r ki :
  NoDup ids -> (forall x, x ∈ ids -> x ∈ ki) -> key ∈ ki -> (r <= pruneKnownInvalidConns)%nat ->
  (S pruneKnownInvalidConns - r <= length (filter (fun x => x <> key) ids))%nat ->
  key ∈ prune key ids r ki /\ prune key ids r ki ⊆ ki /\
  (size (prune key ids r ki) + (S pruneKnownInvalidConns - r) = size ki)%nat.
Proof.
  revert r ki. induction ids as [|x ids IH]; intros r ki Hnd Hin Hkey Hr Hlen; [simpl in Hlen; lia|].
  inversion Hnd as [|? ? Hx Hnd']; subst. cbn [prune]. rewrite filter_cons in Hlen.
  destruct (String.eqb_spec x key) as [->|Hne].
  - rewrite decide_False in Hlen by tauto. apply IH; try done. intros y Hy. apply Hin. by right.
  - rewrite decide_True in Hlen by done. simpl in Hlen.
    assert (Hxin : x ∈ ki) by (apply Hin; by left).
    assert (Hsz : size (ki ∖ {[x]}) = (size ki - 1)%nat).
    { rewrite size_difference by set_solver. by rewrite size_singleton. }
    assert (Hpos : (1 <= size ki)%nat).
    { rewrite <- (size_singleton (C := gset string) x). apply subseteq_size. set_solver. }
    destruct (Nat.ltb_spec pruneKnownInvalidConns (S r)).
    + split_and!; [set_solver|set_solver|lia].
    + destruct (IH (S r) (ki ∖ {[x]})) as (H1 & H2 & H3); [done| |set_solver|lia|lia|].
      * intros y Hy. apply elem_of_difference. split; [apply Hin; by right|]. set_solver.
      * split_and!; [done|set_solver|lia].
Qed.

(** [C35] The set stays below its maximum and remembers the client just added; when
    it would reach the maximum, 33 others are forgotten. *)
Theorem addToKnownInvalid_bound `{!RangeOrder string} ki id connID :
  (size ki < maxKnownInvalidConns)%nat ->
  let ki' := addToKnownInvalid ki id connID in
  let key := getKnownInvalidKey id connID in
  (size ki' < maxKnownInvalidConns)%nat /\ key ∈ ki' /\ ki' ⊆ {[key]} ∪ ki /\
  (size ({[key]} ∪ ki) = maxKnownInvalidConns ->
   size ki' = maxKnownInvalidConns - 33)%nat.
Proof.
  intros Hsz ki' key. unfold ki', addToKnownInvalid. fold key. set (k1 := {[key]} ∪ ki).
  assert (Hkey : key ∈ k1) by set_solver.
  assert (Hmax : (size k1 <= maxKnownInvalidConns)%nat).
  { subst k1. destruct (decide (key ∈ ki)).
    - rewrite subseteq_union_1_L by set_solver. lia.
    - rewrite size_union, size_singleton by set_solver. lia. }
  destruct (Nat.leb_spec maxKnownInvalidConns (size k1)) as [Hge|Hlt].
  2:{ split_and!; [done|done|done|lia]. }
  assert (Hlen : length (order k1) = size k1).
  { rewrite order_perm. done. }
  assert (Hnd : NoDup (order k1)) by (rewrite order_perm; apply NoDup_elements).
  assert (Hf : (length (filter (fun x => x <> key) (order k1)) >= size k1 - 1)%nat).
  { rewrite <- Hlen. assert (Hk : key ∈ order k1) by by apply elem_of_order.
    clear - Hnd Hk. induction (order k1) as [|x l IH]; [by apply elem_of_nil in Hk|].
    inversion Hnd as [|? ? Hx Hnd']; subst. rewrite filter_cons. destruct (decide (x = key)) as [->|Hne].
    - rewrite decide_False by tauto. rewrite filter_all; [simpl; lia|].
      intros y Hy ->. done.
    - rewrite decide_True by done. simpl. apply elem_of_cons in Hk as [->|Hk]; [done|].
      specialize (IH Hnd' Hk). lia. }
  destruct (prune_spec key (order k1) 0 k1) as (H1 & H2 & H3);
    [done|intros x; by apply elem_of_order|done|lia| |].
  { unfold pruneKnownInvalidConns, maxKnownInvalidConns in *. lia. }
  unfold pruneKnownInvalidConns, maxKnownInvalidConns in *. split_and!; [lia|done|done|lia].
Qed.

(** ** Waiting for a registration *)

Module Waiting.

Definition sample_info : ClientInfo := mkClientInfo "me" "hb" "conn" 1 0 0.

(** A publish and a subscription request arrive before the connection request of
    the same client is processed: both wait for its registration. *)
Definition two_waiters : wait_result * wait_result * clientStore :=
  let '(w1, cs1) := wait_start newClientStore "me" "" in
  let '(w2, cs2) := wait_start cs1 "me" "" in
  (w1, w2, (register (E := Empty_set) cs2 sample_info None).2).

(** The second call that waits for a client's registration takes the place of the
    first one: when the client registers, only the second is woken, and the
    first one answers that the client is not valid after its timeout, and
    marks it as known to be invalid, although it is registered. *)
Theorem second_waiter_hides_first :
  let '(w1, w2, cs) := two_waiters in
  w1 = WaitOn 0 /\ w2 = WaitOn 1 /\ isValid cs "me" "" = true /\
  wait_wake cs 1 = true /\ wait_wake cs 0 = false /\
  knownToBeInvalid (@wait_timeout (default_order string) cs "me" "") "me" "" = true.
Proof. vm_compute. repeat split. Qed.

Lemma registry_consistent_witness :
  exists c, heap (foldl (@step Empty_set (default_order string)) (recoverClients newClientStore [sample_info])
      [OpRegister (mkClientInfo "you" "hb2" "conn2" 1 0 0) None; OpUnregister "me" None]) !! 1 = Some c /\
    ConnID (info c) = "conn2"%string.
Proof.
  destruct (@registry_consistent Empty_set (default_order string) [sample_info]
    [OpRegister (mkClientInfo "you" "hb2" "conn2" 1 0 0) None; OpUnregister "me" None]
    "you" "conn2" 1) as (c & H1 & _ & H2).
  - repeat constructor. set_solver.
  - vm_compute. reflexivity.
  - exists c. split; [exact H1|exact H2].
Defined.

Lemma register_unregister_witness :
  isValid (register (E := Empty_set) newClientStore sample_info None).2 "me" "conn" = true.
Proof.
  apply (register_unregister (E := Empty_set) newClientStore sample_info None).
  - exact newClientStore_wf.
  - reflexivity.
Defined.

Lemma addToKnownInvalid_bound_witness :
  "me:"%string ∈ @addToKnownInvalid (default_order string) ∅ "me" "".
Proof.
  assert (H0 : (size (∅ : gset string) < maxKnownInvalidConns)%nat) by (vm_compute; lia).
  destruct (@addToKnownInvalid_bound (default_order string) ∅ "me" "" H0) as (_ & H & _).
  exact H.
Defined.
End Waiting.
