(* ===== verification/SubState.v ===== *)
(** * Subscriptions of a channel: their state

    The data of [src/server/server.go] on which delivery works: [subState],
    [queueState], and what a leader collects for replication
    ([subSentAndAck]).  Objects that the server shares through pointers live in a
    heap: a queue group and its members refer to each other by address.  The
    state also records what the server did to the outside: the messages it
    published to the inboxes of the subscribers and the records it wrote to the
    subscription store.  Locks are not modelled: every handler is a step. *)

From Stdlib Require Import ZArith Lia Ascii String.
From stdpp Require Import base list gmap strings.
From S2P Require Import Prelude GoLib MemStore.

Local Open Scope Z_scope.

Module Sub.

Abbreviation ptr := nat.

(** ** Data *)

(** [subSentAndAck]; nil maps are empty ones. *)
Record subSentAndAck := mkSSA {
  r_sent : gset Z;
  r_ack : gset Z;
  hiSentSeq : Z;
  hiAckSeq : Z;
  applying : bool;
  stopped : bool;
}.

Definition set_hiAckSeq (v : Z) (x : subSentAndAck) : subSentAndAck :=
  mkSSA (r_sent x) (r_ack x) (hiSentSeq x) v (applying x) (stopped x).
Definition set_applying (v : bool) (x : subSentAndAck) : subSentAndAck :=
  mkSSA (r_sent x) (r_ack x) (hiSentSeq x) (hiAckSeq x) v (stopped x).
Definition set_stopped (v : bool) (x : subSentAndAck) : subSentAndAck :=
  mkSSA (r_sent x) (r_ack x) (hiSentSeq x) (hiAckSeq x) (applying x) v.

(** [subState], with the fields of the embedded [spb.SubState] first. *)
Record subState := mkSub {
  ID : Z;
  ClientID : string;
  QGroup : string;
  Inbox : string;
  AckInbox : string;
  MaxInFlight : Z;
  AckWaitInSecs : Z;
  DurableName : string;
  LastSent : Z;
  IsDurable : bool;
  IsClosed : bool;
  subject : string;
  qstate : option ptr;
  ackWait : Z;
  ackTimer : option timer;
  acksPending : gmap Z Z;
  savedClientID : string;
  replicate : option subSentAndAck;
  rdlvCount : gmap Z Z;
  initialized : bool;
  stalled : bool;
  newOnHold : bool;
  hasFailedHB : bool;
}.

Definition set_ClientID (v : string) (x : subState) : subState :=
  mkSub (ID x) v (QGroup x) (Inbox x) (AckInbox x) (MaxInFlight x) (AckWaitInSecs x) (DurableName x) (LastSent x) (IsDurable x) (IsClosed x) (subject x) (qstate x) (ackWait x) (ackTimer x) (acksPending x) (savedClientID x) (replicate x) (rdlvCount x) (initialized x) (stalled x) (newOnHold x) (hasFailedHB x).
Definition set_Inbox (v : string) (x : subState) : subState :=
  mkSub (ID x) (ClientID x) (QGroup x) v (AckInbox x) (MaxInFlight x) (AckWaitInSecs x) (DurableName x) (LastSent x) (IsDurable x) (IsClosed x) (subject x) (qstate x) (ackWait x) (ackTimer x) (acksPending x) (savedClientID x) (replicate x) (rdlvCount x) (initialized x) (stalled x) (newOnHold x) (hasFailedHB x).
Definition set_AckInbox (v : string) (x : subState) : subState :=
  mkSub (ID x) (ClientID x) (QGroup x) (Inbox x) v (MaxInFlight x) (AckWaitInSecs x) (DurableName x) (LastSent x) (IsDurable x) (IsClosed x) (subject x) (qstate x) (ackWait x) (ackTimer x) (acksPending x) (savedClientID x) (replicate x) (rdlvCount x) (initialized x) (stalled x) (newOnHold x) (hasFailedHB x).
Definition set_MaxInFlight (v : Z) (x : subState) : subState :=
  mkSub (ID x) (ClientID x) (QGroup x) (Inbox x) (AckInbox x) v (AckWaitInSecs x) (DurableName x) (LastSent x) (IsDurable x) (IsClosed x) (subject x) (qstate x) (ackWait x) (ackTimer x) (acksPending x) (savedClientID x) (replicate x) (rdlvCount x) (initialized x) (stalled x) (newOnHold x) (hasFailedHB x).
Definition set_AckWaitInSecs (v : Z) (x : subState) : subState :=
  mkSub (ID x) (ClientID x) (QGroup x) (Inbox x) (AckInbox x) (MaxInFlight x) v (DurableName x) (LastSent x) (IsDurable x) (IsClosed x) (subject x) (qstate x) (ackWait x) (ackTimer x) (acksPending x) (savedClientID x) (replicate x) (rdlvCount x) (initialized x) (stalled x) (newOnHold x) (hasFailedHB x).
Definition set_LastSent (v : Z) (x : subState) : subState :=
  mkSub (ID x) (ClientID x) (QGroup x) (Inbox x) (AckInbox x) (MaxInFlight x) (AckWaitInSecs x) (DurableName x) v (IsDurable x) (IsClosed x) (subject x) (qstate x) (ackWait x) (ackTimer x) (acksPending x) (savedClientID x) (replicate x) (rdlvCount x) (initialized x) (stalled x) (newOnHold x) (hasFailedHB x).
Definition set_IsDurable (v : bool) (x : subState) : subState :=
  mkSub (ID x) (ClientID x) (QGroup x) (Inbox x) (AckInbox x) (MaxInFlight x) (AckWaitInSecs x) (DurableName x) (LastSent x) v (IsClosed x) (subject x) (qstate x) (ackWait x) (ackTimer x) (acksPending x) (savedClientID x) (replicate x) (rdlvCount x) (initialized x) (stalled x) (newOnHold x) (hasFailedHB x).
Definition set_IsClosed (v : bool) (x : subState) : subState :=
  mkSub (ID x) (ClientID x) (QGroup x) (Inbox x) (AckInbox x) (MaxInFlight x) (AckWaitInSecs x) (DurableName x) (LastSent x) (IsDurable x) v (subject x) (qstate x) (ackWait x) (ackTimer x) (acksPending x) (savedClientID x) (replicate x) (rdlvCount x) (initialized x) (stalled x) (newOnHold x) (hasFailedHB x).
Definition set_ID (v : Z) (x : subState) : subState :=
  mkSub v (ClientID x) (QGroup x) (Inbox x) (AckInbox x) (MaxInFlight x) (AckWaitInSecs x) (DurableName x) (LastSent x) (IsDurable x) (IsClosed x) (subject x) (qstate x) (ackWait x) (ackTimer x) (acksPending x) (savedClientID x) (replicate x) (rdlvCount x) (initialized x) (stalled x) (newOnHold x) (hasFailedHB x).
Definition set_qstate (v : option ptr) (x : subState) : subState :=
  mkSub (ID x) (ClientID x) (QGroup x) (Inbox x) (AckInbox x) (MaxInFlight x) (AckWaitInSecs x) (DurableName x) (LastSent x) (IsDurable x) (IsClosed x) (subject x) v (ackWait x) (ackTimer x) (acksPending x) (savedClientID x) (replicate x) (rdlvCount x) (initialized x) (stalled x) (newOnHold x) (hasFailedHB x).
Definition set_ackWait (v : Z) (x : subState) : subState :=
  mkSub (ID x) (ClientID x) (QGroup x) (Inbox x) (AckInbox x) (MaxInFlight x) (AckWaitInSecs x) (DurableName x) (LastSent x) (IsDurable x) (IsClosed x) (subject x) (qstate x) v (ackTimer x) (acksPending x) (savedClientID x) (replicate x) (rdlvCount x) (initialized x) (stalled x) (newOnHold x) (hasFailedHB x).
Definition set_ackTimer (v : option timer) (x : subState) : subState :=
  mkSub (ID x) (ClientID x) (QGroup x) (Inbox x) (AckInbox x) (MaxInFlight x) (AckWaitInSecs x) (DurableName x) (LastSent x) (IsDurable x) (IsClosed x) (subject x) (qstate x) (ackWait x) v (acksPending x) (savedClientID x) (replicate x) (rdlvCount x) (initialized x) (stalled x) (newOnHold x) (hasFailedHB x).
Definition set_acksPending (v : gmap Z Z) (x : subState) : subState :=
  mkSub (ID x) (ClientID x) (QGroup x) (Inbox x) (AckInbox x) (MaxInFlight x) (AckWaitInSecs x) (DurableName x) (LastSent x) (IsDurable x) (IsClosed x) (subject x) (qstate x) (ackWait x) (ackTimer x) v (savedClientID x) (replicate x) (rdlvCount x) (initialized x) (stalled x) (newOnHold x) (hasFailedHB x).
Definition set_savedClientID (v : string) (x : subState) : subState :=
  mkSub (ID x) (ClientID x) (QGroup x) (Inbox x) (AckInbox x) (MaxInFlight x) (AckWaitInSecs x) (DurableName x) (LastSent x) (IsDurable x) (IsClosed x) (subject x) (qstate x) (ackWait x) (ackTimer x) (acksPending x) v (replicate x) (rdlvCount x) (initialized x) (stalled x) (newOnHold x) (hasFailedHB x).
Definition set_replicate (v : option subSentAndAck) (x : subState) : subState :=
  mkSub (ID x) (ClientID x) (QGroup x) (Inbox x) (AckInbox x) (MaxInFlight x) (AckWaitInSecs x) (DurableName x) (LastSent x) (IsDurable x) (IsClosed x) (subject x) (qstate x) (ackWait x) (ackTimer x) (acksPending x) (savedClientID x) v (rdlvCount x) (initialized x) (stalled x) (newOnHold x) (hasFailedHB x).
Definition set_rdlvCount (v : gmap Z Z) (x : subState) : subState :=
  mkSub (ID x) (ClientID x) (QGroup x) (Inbox x) (AckInbox x) (MaxInFlight x) (AckWaitInSecs x) (DurableName x) (LastSent x) (IsDurable x) (IsClosed x) (subject x) (qstate x) (ackWait x) (ackTimer x) (acksPending x) (savedClientID x) (replicate x) v (initialized x) (stalled x) (newOnHold x) (hasFailedHB x).
Definition set_initialized (v : bool) (x : subState) : subState :=
  mkSub (ID x) (ClientID x) (QGroup x) (Inbox x) (AckInbox x) (MaxInFlight x) (AckWaitInSecs x) (DurableName x) (LastSent x) (IsDurable x) (IsClosed x) (subject x) (qstate x) (ackWait x) (ackTimer x) (acksPending x) (savedClientID x) (replicate x) (rdlvCount x) v (stalled x) (newOnHold x) (hasFailedHB x).
Definition set_stalled (v : bool) (x : subState) : subState :=
  mkSub (ID x) (ClientID x) (QGroup x) (Inbox x) (AckInbox x) (MaxInFlight x) (AckWaitInSecs x) (DurableName x) (LastSent x) (IsDurable x) (IsClosed x) (subject x) (qstate x) (ackWait x) (ackTimer x) (acksPending x) (savedClientID x) (replicate x) (rdlvCount x) (initialized x) v (newOnHold x) (hasFailedHB x).
Definition set_newOnHold (v : bool) (x : subState) : subState :=
  mkSub (ID x) (ClientID x) (QGroup x) (Inbox x) (AckInbox x) (MaxInFlight x) (AckWaitInSecs x) (DurableName x) (LastSent x) (IsDurable x) (IsClosed x) (subject x) (qstate x) (ackWait x) (ackTimer x) (acksPending x) (savedClientID x) (replicate x) (rdlvCount x) (initialized x) (stalled x) v (hasFailedHB x).
Definition set_hasFailedHB (v : bool) (x : subState) : subState :=
  mkSub (ID x) (ClientID x) (QGroup x) (Inbox x) (AckInbox x) (MaxInFlight x) (AckWaitInSecs x) (DurableName x) (LastSent x) (IsDurable x) (IsClosed x) (subject x) (qstate x) (ackWait x) (ackTimer x) (acksPending x) (savedClientID x) (replicate x) (rdlvCount x) (initialized x) (stalled x) (newOnHold x) v.

(** [queueState] *)
Record queueState := mkQueue {
  lastSent : Z;
  members : list ptr;
  q_rdlvCount : gmap Z Z;
  shadow : option ptr;
  stalledSubCount : Z;
  q_newOnHold : bool;
}.

Definition set_lastSent (v : Z) (x : queueState) : queueState :=
  mkQueue v (members x) (q_rdlvCount x) (shadow x) (stalledSubCount x) (q_newOnHold x).
Definition set_members (v : list ptr) (x : queueState) : queueState :=
  mkQueue (lastSent x) v (q_rdlvCount x) (shadow x) (stalledSubCount x) (q_newOnHold x).
Definition set_q_rdlvCount (v : gmap Z Z) (x : queueState) : queueState :=
  mkQueue (lastSent x) (members x) v (shadow x) (stalledSubCount x) (q_newOnHold x).
Definition set_shadow (v : option ptr) (x : queueState) : queueState :=
  mkQueue (lastSent x) (members x) (q_rdlvCount x) v (stalledSubCount x) (q_newOnHold x).
Definition set_stalledSubCount (v : Z) (x : queueState) : queueState :=
  mkQueue (lastSent x) (members x) (q_rdlvCount x) (shadow x) v (q_newOnHold x).
Definition set_q_newOnHold (v : bool) (x : queueState) : queueState :=
  mkQueue (lastSent x) (members x) (q_rdlvCount x) (shadow x) (stalledSubCount x) v.

(** Records written through the [SubStore] interface. *)
Inductive persist_op :=
| AddSeqPending (subid seqno : Z)
| AckSeqPending (subid seqno : Z)
| CreateSub (subid : Z)
| UpdateSub (subid : Z) (clientID : string) (lastSent : Z) (isClosed : bool)
| DeleteSub (subid : Z).

(** The part of the server that delivery works on: the heap, the sets of
    [subsSentAndAckReplication] with the state of its channel, and the outputs,
    most recent last. *)
Record server := mkServer {
  subs : gmap ptr subState;
  queues : gmap ptr queueState;
  waiting : gset ptr;
  ready : gset ptr;
  notified : bool;
  published : list (string * MsgProto);
  persisted : list persist_op;
}.

Definition set_subs (v : gmap ptr subState) (x : server) : server :=
  mkServer v (queues x) (waiting x) (ready x) (notified x) (published x) (persisted x).
Definition set_queues (v : gmap ptr queueState) (x : server) : server :=
  mkServer (subs x) v (waiting x) (ready x) (notified x) (published x) (persisted x).
Definition set_repl (w r : gset ptr) (n : bool) (x : server) : server :=
  mkServer (subs x) (queues x) w r n (published x) (persisted x).
Definition put_sub (p : ptr) (v : subState) (x : server) : server := set_subs (<[p := v]> (subs x)) x.
Definition put_queue (p : ptr) (v : queueState) (x : server) : server :=
  set_queues (<[p := v]> (queues x)) x.
Definition publish (inbox : string) (m : MsgProto) (x : server) : server :=
  mkServer (subs x) (queues x) (waiting x) (ready x) (notified x)
    (published x ++ [(inbox, m)]) (persisted x).
Definition persist (o : persist_op) (x : server) : server :=
  mkServer (subs x) (queues x) (waiting x) (ready x) (notified x) (published x)
    (persisted x ++ [o]).

(** What the environment decides.  The clock and the failures of the NATS
    connection and of the subscription store may change during a handler: they
    depend on how many messages were published and how many records were
    written so far. *)
Record env := mkEnv {
  clock : nat -> Z;
  publish_fails : nat -> bool;
  persist_fails : nat -> bool;
  isClustered : bool;
  marshal : MsgProto -> list ascii;
}.

Definition now (e : env) (st : server) : Z := clock e (length (published st) + length (persisted st)).

(** ** Accessors *)

Definition computeAckWait (wait : Z) : Z := i64 (wait * 1000000000).

Definition isQueueSubscriber (s : subState) : bool := negb (String.eqb (QGroup s) "").
Definition isQueueDurableSubscriber (s : subState) : bool :=
  negb (String.eqb (QGroup s) "") && IsDurable s.
Definition isShadowQueueDurable (s : subState) : bool :=
  IsDurable s && negb (String.eqb (QGroup s) "") && String.eqb (ClientID s) "".
Definition isDurableSubscriber (s : subState) : bool := negb (String.eqb (DurableName s) "").
Definition isOfflineDurableSubscriber (s : subState) : bool :=
  negb (String.eqb (DurableName s) "") && String.eqb (ClientID s) "".

(** [fmt.Sprintf("%s-%s-%s", clientID, subject, durableName)] *)
Definition durable_key (clientID subject durableName : string) : string :=
  if String.eqb durableName "" then EmptyString
  else (clientID ++ "-" ++ subject ++ "-" ++ durableName)%string.
Definition durableKey (s : subState) : string := durable_key (ClientID s) (subject s) (DurableName s).

Definition clearAckTimer (s : subState) : subState := set_ackTimer None s.

(** [adjustAckTimer], at time [t]. *)
Definition adjustAckTimer (t nextExpirationTime : Z) (s : subState) : subState :=
  match ackTimer s with
  | None => s
  | Some _ =>
      if (0 <? size (acksPending s))%nat then
        if nextExpirationTime <=? t then set_ackTimer (Some (Armed (t + ackWait s))) s
        else set_ackTimer (Some (Armed (t + i64 (nextExpirationTime - t)))) s
      else clearAckTimer s
  end.

Definition isMsgStillPending (s : subState) (m : MsgProto) : bool :=
  bool_decide (is_Some (acksPending s !! Sequence m)).
End Sub.
