(* ===== verification/Delivery.v ===== *)
(** * Delivery of messages to subscribers

    Model of the delivery part of [src/server/server.go]: sending a message to
    a subscriber or to a queue group, delivering the messages that became
    available, and processing acknowledgements.  The message store of the channel
    is any instance of the interface of [MsgStore.v].  Messages are marshalled by
    code of another repository ([stan.go]): [marshal] is a parameter, part of the
    environment. *)

From Stdlib Require Import ZArith Lia Ascii String.
From stdpp Require Import base list gmap strings.
From S2P Require Import Prelude GoLib MemStore MsgStore SubState.

Local Open Scope Z_scope.

Module Dlv.
Import Sub.

Definition maxSentOrAckSequences : nat := 100.

Definition with_Redelivered (m : MsgProto) : MsgProto :=
  mkMsg (Sequence m) (Subject m) (Reply m) (Data m) (Timestamp m) true (RedeliveryCount m) (CRC32 m).
Definition with_RedeliveryCount (c : Z) (m : MsgProto) : MsgProto :=
  mkMsg (Sequence m) (Subject m) (Reply m) (Data m) (Timestamp m) (Redelivered m) c (CRC32 m).

(** ** Replication of what was sent and acknowledged *)

Definition new_ssa : subSentAndAck := mkSSA ∅ ∅ 0 0 false false.

(** The update of [r] in [collectSentOrAck]. *)
Definition collect (is_queue sent : bool) (sequence : Z) (r : subSentAndAck) : subSentAndAck :=
  if sent then
    let hi := hiSentSeq r <=? sequence in
    mkSSA ({[sequence]} ∪ r_sent r) (if is_queue then r_ack r ∖ {[sequence]} else r_ack r)
      (if hi then sequence else hiSentSeq r) (if hi then 0 else hiAckSeq r)
      (applying r) (stopped r)
  else if bool_decide (sequence ∈ r_sent r) then
    mkSSA (r_sent r ∖ {[sequence]}) (r_ack r) (hiSentSeq r)
      (if sequence =? hiSentSeq r then sequence else hiAckSeq r) (applying r) (stopped r)
  else
    mkSSA (r_sent r) ({[sequence]} ∪ r_ack r) (hiSentSeq r) (hiAckSeq r) (applying r) (stopped r).

Definition collectSentOrAck (p : ptr) (sent : bool) (sequence : Z) (st : server) : server :=
  match subs st !! p with
  | None => st
  | Some sub =>
      let r := default new_ssa (replicate sub) in
      if stopped r then st
      else
        let r' := collect (bool_decide (is_Some (qstate sub))) sent sequence r in
        let st' := put_sub p (set_replicate (Some r') sub) st in
        let l := (size (r_sent r') + size (r_ack r'))%nat in
        if (l =? 1)%nat then set_repl ({[p]} ∪ waiting st') (ready st') (notified st') st'
        else if (l =? maxSentOrAckSequences)%nat
             then set_repl (waiting st' ∖ {[p]}) ({[p]} ∪ ready st') true st'
             else st'
  end.

(** ** Sending to a subscriber *)

(** One more redelivery in the given map; a count that rolls over skips 0. *)
Definition bump_count (counts : gmap Z Z) (seq : Z) : Z :=
  let c := u32 (default 0 (counts !! seq) + 1) in
  if c =? 0 then u32 (c + 1) else c.

(** The count is kept in the queue group of a member, in the subscription
    otherwise. *)
Definition updateRedeliveryCount (p : ptr) (sub : subState) (m : MsgProto) (st : server)
  : MsgProto * server :=
  match qstate sub with
  | Some q =>
      match queues st !! q with
      | None => (m, st)
      | Some qs =>
          let c := bump_count (q_rdlvCount qs) (Sequence m) in
          (with_RedeliveryCount c m,
           put_queue q (set_q_rdlvCount (<[Sequence m := c]> (q_rdlvCount qs)) qs) st)
      end
  | None =>
      let c := bump_count (rdlvCount sub) (Sequence m) in
      (with_RedeliveryCount c m,
       put_sub p (set_rdlvCount (<[Sequence m := c]> (rdlvCount sub)) sub) st)
  end.

(** What [sendMsgToSub] does once the message was published: the timer, the
    pending map, the store. *)
Definition record_sent (e : env) (p : ptr) (m : MsgProto) (force : bool) (ap : Z) (st : server)
  : (bool * bool) * server :=
  match subs st !! p with
  | None => ((false, false), st)
  | Some sub0 =>
      let sub := match ackTimer sub0 with
                 | None => set_ackTimer (Some (Armed (now e st + ackWait sub0))) sub0
                 | Some _ => sub0
                 end in
      let st := put_sub p sub st in
      match acksPending sub !! Sequence m with
      | Some expTime =>
          let expTime := if expTime =? 0 then now e st else expTime in
          ((true, true),
           put_sub p (set_acksPending (<[Sequence m := i64 (expTime + ackWait sub)]> (acksPending sub)) sub) st)
      | None =>
          let st := if isClustered e then collectSentOrAck p true (Sequence m) st else st in
          if persist_fails e (length (persisted st)) then ((false, false), st)
          else
            let st := persist (AddSeqPending (ID sub) (Sequence m)) st in
            match subs st !! p with
            | None => ((false, false), st)
            | Some sub =>
                let sub := if LastSent sub <? Sequence m then set_LastSent (Sequence m) sub else sub in
                let sub := set_acksPending
                  (<[Sequence m := i64 (now e st + ackWait sub)]> (acksPending sub)) sub in
                if negb force && (i32 (ap + 1) =? MaxInFlight sub)
                then ((true, false), put_sub p (set_stalled true sub) st)
                else ((true, true), put_sub p sub st)
            end
      end
  end.

(** [sendMsgToSub]: whether the message was sent, and whether more can be.  A nil
    subscription is a dangling address. *)
Definition sendMsgToSub (e : env) (p : ptr) (m : MsgProto) (force : bool) (st : server)
  : outcome Empty_set ((bool * bool) * server) :=
  match subs st !! p with
  | None => Ok ((false, false), st)
  | Some sub =>
      if negb (initialized sub) || String.eqb (ClientID sub) "" || (newOnHold sub && negb (Redelivered m))
      then Ok ((false, false), st)
      else
        let ap := i32 (Z.of_nat (size (acksPending sub))) in
        if negb force && (MaxInFlight sub <=? ap)
        then Ok ((false, false), put_sub p (set_stalled true sub) st)
        else
          let '(m, st) := if Redelivered m then updateRedeliveryCount p sub m st else (m, st) in
          match marshal e m with
          | [] => Panic
          | _ =>
              if publish_fails e (length (published st)) then Ok ((false, false), st)
              else Ok (record_sent e p m force ap (publish (Inbox sub) m st))
          end
  end.

(** ** The messages that became available *)

Section Channel.
Context {S : Type} `{MsgStore S}.

(** [getNextMsg]: the message, [nextSeq] and [lastSent]; [i] is the round. *)
Fixpoint getNextMsg_loop (fuel : nat) (i : nat) (c : S) (nextSeq lastSent : Z)
  : outcome Mem.fuel_error (option MsgProto * Z * Z) :=
  match fuel with
  | O => Err Mem.OutOfFuel
  | Datatypes.S fuel' =>
      match Lookup c nextSeq with
      | inr _ => Ok (None, nextSeq, lastSent)
      | inl (Some m) => Ok (Some m, nextSeq, lastSent)
      | inl None =>
          let '(first, last) := FirstAndLastSequence c in
          if last <=? nextSeq then Ok (None, nextSeq, lastSent)
          else if nextSeq <? first then
            getNextMsg_loop fuel' (Datatypes.S i) c first (u64 (first - 1))
          else if (0 <? i)%nat then
            getNextMsg_loop fuel' (Datatypes.S i) c (u64 (nextSeq + 1)) (u64 (lastSent + 1))
          else getNextMsg_loop fuel' (Datatypes.S i) c nextSeq lastSent
      end
  end.

(** Each round but the first two moves [nextSeq] forward, to [last] at most. *)
Definition next_fuel (c : S) (nextSeq : Z) : nat := Z.to_nat (LastSequence c - nextSeq) + 3.

Definition getNextMsg (c : S) (nextSeq lastSent : Z)
  : outcome Mem.fuel_error (option MsgProto * Z * Z) :=
  getNextMsg_loop (next_fuel c nextSeq) 0 c nextSeq lastSent.

(** A handler that may panic, within one that may also run out of fuel. *)
Definition lift {A : Type} (x : outcome Empty_set A) : outcome Mem.fuel_error A :=
  match x with Ok a => Ok a | Err e => match e with end | Panic => Panic end.

Fixpoint send_loop (fuel : nat) (e : env) (c : S) (p : ptr) (nextSeq : Z) (st : server)
  : outcome Mem.fuel_error server :=
  match fuel with
  | O => Err Mem.OutOfFuel
  | Datatypes.S fuel' =>
      match subs st !! p with
      | None => Panic
      | Some sub =>
          if stalled sub then Ok st
          else
            r ← getNextMsg c nextSeq (LastSent sub);
            let '(nextMsg, nextSeq, lastSent) := r in
            let st := put_sub p (set_LastSent lastSent sub) st in
            match nextMsg with
            | None => Ok st
            | Some m =>
                r ← lift (sendMsgToSub e p m false st);
                let '((sent, sendMore), st) := r in
                if negb sent || negb sendMore then Ok st
                else send_loop fuel' e c p (u64 (nextSeq + 1)) st
            end
      end
  end.

(** At most one round per message after the last one sent, and a last one. *)
Definition send_fuel (c : S) (nextSeq : Z) : nat := Z.to_nat (LastSequence c - nextSeq) + 2.

Definition sendAvailableMessages (e : env) (c : S) (p : ptr) (st : server)
  : outcome Mem.fuel_error server :=
  match subs st !! p with
  | None => Panic
  | Some sub =>
      let nextSeq := u64 (LastSent sub + 1) in
      send_loop (send_fuel c nextSeq) e c p nextSeq st
  end.

(** ** Queue groups *)

(** The scan of [findBestQueueSub]: the favourite so far and its number of
    outstanding messages.  The initial number is the largest [int]. *)
Fixpoint best_scan (st : server) (sl : list ptr) (least : Z) (rsub : option ptr) : option ptr :=
  match sl with
  | [] => rsub
  | p :: sl' =>
      match subs st !! p with
      | None => best_scan st sl' least rsub
      | Some sub =>
          let sOut := Z.of_nat (size (acksPending sub)) in
          if negb (stalled sub) && negb (hasFailedHB sub) && (sOut <? least)
          then best_scan st sl' sOut (Some p)
          else best_scan st sl' least rsub
      end
  end.

(** The pick, and the list with a picked first element moved to the end. *)
Definition findBestQueueSub (st : server) (sl : list ptr) : option ptr * list ptr :=
  let rsub := match best_scan st sl (two63 - 1) None with
              | Some p => Some p
              | None => head sl
              end in
  (rsub, match sl, rsub with
         | x :: y :: tl, Some p => if (p =? x)%nat then (y :: tl) ++ [x] else sl
         | _, _ => sl
         end).

Definition sendMsgToQueueGroup (e : env) (q : ptr) (m : MsgProto) (force : bool) (st : server)
  : outcome Empty_set ((option ptr * bool) * server) :=
  match queues st !! q with
  | None => Panic
  | Some qs =>
      let '(pick, sl) := findBestQueueSub st (members qs) in
      let st := put_queue q (set_members sl qs) st in
      match pick with
      | None => Ok ((None, false), st)
      | Some p =>
          match subs st !! p with
          | None => Panic
          | Some sub =>
              r ← sendMsgToSub e p m force st;
              let '((didSend, _), st) := r in
              match subs st !! p, queues st !! q with
              | Some sub', Some qs' =>
                  let qs' := if negb force && negb (stalled sub) && stalled sub'
                             then set_stalledSubCount (stalledSubCount qs' + 1) qs' else qs' in
                  let qs' := if didSend && (lastSent qs' <? LastSent sub')
                             then set_lastSent (LastSent sub') qs' else qs' in
                  Ok ((Some p, didSend), put_queue q qs' st)
              | _, _ => Panic
              end
          end
      end
  end.

Fixpoint queue_loop (fuel : nat) (e : env) (c : S) (q : ptr) (nextSeq : Z) (st : server)
  : outcome Mem.fuel_error server :=
  match fuel with
  | O => Err Mem.OutOfFuel
  | Datatypes.S fuel' =>
      match queues st !! q with
      | None => Panic
      | Some qs =>
          if stalledSubCount qs <? Z.of_nat (length (members qs)) then
            r ← getNextMsg c nextSeq (lastSent qs);
            let '(nextMsg, nextSeq, lst) := r in
            let st := put_queue q (set_lastSent lst qs) st in
            match nextMsg with
            | None => Ok st
            | Some m =>
                r ← lift (sendMsgToQueueGroup e q m false st);
                let '((_, sent), st) := r in
                if negb sent then Ok st
                else queue_loop fuel' e c q (u64 (nextSeq + 1)) st
            end
          else Ok st
      end
  end.

Definition sendAvailableMessagesToQueue (e : env) (c : S) (q : ptr) (st : server)
  : outcome Mem.fuel_error server :=
  match queues st !! q with
  | None => Ok st
  | Some qs =>
      match members qs with
      | [] => Ok st
      | _ =>
          if q_newOnHold qs then Ok st
          else
            let nextSeq := u64 (lastSent qs + 1) in
            queue_loop (send_fuel c nextSeq) e c q nextSeq st
      end
  end.

(** ** Acknowledgements *)

(** [persistAck]: the state and whether the store accepted the record. *)
Definition persistAck (e : env) (sub : subState) (sequence : Z) (st : server) : bool * server :=
  if persist_fails e (length (persisted st)) then (false, st)
  else (true, persist (AckSeqPending (ID sub) sequence) st).

Definition delete_pending (p : ptr) (sequence : Z) (st : server) : server :=
  match subs st !! p with
  | None => st
  | Some sub => put_sub p (set_acksPending (delete sequence (acksPending sub)) sub) st
  end.

(** Forget the number of redeliveries of a message, in the group or in the
    subscription. *)
Definition delete_count (p : ptr) (q : option ptr) (sequence : Z) (st : server) : server :=
  match q with
  | Some q =>
      match queues st !! q with
      | None => st
      | Some qs => put_queue q (set_q_rdlvCount (delete sequence (q_rdlvCount qs)) qs) st
      end
  | None =>
      match subs st !! p with
      | None => st
      | Some sub => put_sub p (set_rdlvCount (delete sequence (rdlvCount sub)) sub) st
      end
  end.

(** The loop over the other members of the group, for an ack of a message that
    the member does not have (any more). *)
Fixpoint ack_other (e : env) (p q : ptr) (l : list ptr) (sequence : Z) (st : server) : server :=
  match l with
  | [] => st
  | p' :: l' =>
      if (p' =? p)%nat then ack_other e p q l' sequence st
      else match subs st !! p' with
      | None => ack_other e p q l' sequence st
      | Some qsub =>
          match acksPending qsub !! sequence with
          | None => ack_other e p q l' sequence st
          | Some _ =>
              let st := if isClustered e then collectSentOrAck p' false sequence st else st in
              let st := delete_pending p' sequence st in
              let st := (persistAck e qsub sequence st).2 in
              delete_count p' (Some q) sequence st
          end
      end
  end.

(** The part of [processAck] up to the check of the stalled flag; [None] when
    the store refuses the ack. *)
Definition remove_acked (e : env) (p : ptr) (sub : subState) (sequence : Z) (fromUser : bool)
  (st : server) : option server :=
  match acksPending sub !! sequence with
  | Some _ =>
      let st := if isClustered e then collectSentOrAck p false sequence st else st in
      let '(ok, st) := persistAck e sub sequence st in
      if negb ok then None
      else
        let st := delete_pending p sequence st in
        Some (if fromUser then delete_count p (qstate sub) sequence st else st)
  | None =>
      match qstate sub with
      | Some q =>
          if fromUser then
            match queues st !! q with
            | None => Some st
            | Some qs => Some (ack_other e p q (members qs) sequence st)
            end
          else Some st
      | None => Some st
      end
  end.

(** The stalled flag is cleared when there is room again; the flag returned
    asks for the delivery of available messages. *)
Definition unstall (p : ptr) (st : server) : bool * server :=
  match subs st !! p with
  | None => (false, st)
  | Some sub =>
      if stalled sub && (i32 (Z.of_nat (size (acksPending sub))) <? MaxInFlight sub) then
        let st := put_sub p (set_stalled false sub) st in
        (true, match qstate sub with
               | None => st
               | Some q =>
                   match queues st !! q with
                   | None => st
                   | Some qs =>
                       if 0 <? stalledSubCount qs
                       then put_queue q (set_stalledSubCount (stalledSubCount qs - 1) qs) st else st
                   end
               end)
      else (false, st)
  end.

Definition processAck (e : env) (c : S) (p : ptr) (sequence : Z) (fromUser : bool) (st : server)
  : outcome Mem.fuel_error server :=
  match subs st !! p with
  | None => Panic
  | Some sub =>
      match remove_acked e p sub sequence fromUser st with
      | None => Ok (if isClustered e then collectSentOrAck p false sequence st else st)
      | Some st =>
          let '(more, st) := unstall p st in
          if negb more then Ok st
          else match qstate sub with
               | Some q => sendAvailableMessagesToQueue e c q st
               | None => sendAvailableMessages e c p st
               end
      end
  end.

(** [processMsg]: the plain subscribers in order, then the queue groups in some
    order. *)
Fixpoint for_each {A : Type} (f : A -> server -> outcome Mem.fuel_error server) (l : list A)
  (st : server) : outcome Mem.fuel_error server :=
  match l with
  | [] => Ok st
  | x :: l' => st ← f x st; for_each f l' st
  end.

Definition processMsg (e : env) (c : S) (psubs : list ptr) (qsubs : list ptr) (st : server)
  : outcome Mem.fuel_error server :=
  st ← for_each (sendAvailableMessages e c) psubs st;
  for_each (sendAvailableMessagesToQueue e c) qsubs st.

(** ** Start positions *)

Inductive StartPosition :=
| NewOnly | LastReceived | TimeDeltaStart (startTime : Z) | SequenceStart (startSequence : Z) | First.

(** [setSubStartSequence]: the value of [LastSent] of a new subscription; a
    [TimeDeltaStart] is given by its start time. *)
Definition setSubStartSequence (c : S) (sr : StartPosition) : outcome lookup_error Z :=
  match sr with
  | NewOnly => Ok (LastSequence c)
  | LastReceived => Ok (if 0 <? LastSequence c then u64 (LastSequence c - 1) else 0)
  | TimeDeltaStart startTime =>
      seq ← GetSequenceFromTimestamp c startTime;
      Ok (if 0 <? seq then u64 (seq - 1) else 0)
  | SequenceStart startSequence =>
      let '(firstSeq, lastSeq) := FirstAndLastSequence c in
      Ok (if startSequence <? firstSeq then u64 (firstSeq - 1)
          else if lastSeq <? startSequence then lastSeq
          else if 0 <? startSequence then u64 (startSequence - 1)
          else 0)
  | First => Ok (if 0 <? FirstSequence c then u64 (FirstSequence c - 1) else 0)
  end.
End Channel.
End Dlv.
