(* ===== verification/DeliverySpec.v ===== *)
(** * Delivery to a plain subscriber

    What [getNextMsg], [sendMsgToSub], [sendAvailableMessages] and [processAck]
    of [Delivery.v] do, against the laws of the message store. *)

From Stdlib Require Import ZArith Lia Ascii String.
From stdpp Require Import base list gmap strings.
From S2P Require Import Prelude GoLib MemStore MsgStore SubState Delivery.

Local Open Scope Z_scope.

Module DlvSpec.
Import Sub Dlv.

(** ** The next message *)

Section Next.
Context {S : Type} `{MsgStoreSpec S}.

(** The messages of a window after a given sequence. *)
Definition available (w : option (Z * list MsgProto)) (l : Z) : list MsgProto :=
  match w with
  | None => []
  | Some (f, q) => drop (Z.to_nat (l + 1 - f)) q
  end.

Lemma window_lookup_in f q n :
  f <= n -> Window.lookup (Some (f, q)) n = q !! Z.to_nat (n - f).
Proof. intros Hn. simpl. by destruct (Z.leb_spec f n); [|lia]. Qed.

Lemma window_lookup_below f q n : n < f -> Window.lookup (Some (f, q)) n = None.
Proof. intros Hn. simpl. by destruct (Z.leb_spec f n); [lia|]. Qed.

(** [getNextMsg] after [l], the last sequence sent, finds the first available
    message, and moves the last sequence just before it when older messages are
    gone; no available message is skipped. *)
Lemma getNextMsg_spec c w l :
  view c w -> 0 <= l -> l + 1 < two64 ->
  exists l', (l <= l' <= Z.max l (Window.wlast w)) /\ l' + 1 < two64 /\
    getNextMsg c (l + 1) l = Ok (head (available w l), l' + 1, l') /\
    available w l' = available w l /\
    (forall m, head (available w l) = Some m -> Sequence m = l' + 1).
Proof.
  intros Hv Hl Hb. unfold getNextMsg, next_fuel. rewrite Nat.add_comm. cbn [Nat.add getNextMsg_loop].
  pose proof (fun seq => view_Lookup c w seq Hv) as HL.
  rewrite (view_FirstAndLast c w Hv), !HL. pose proof (view_wf c w Hv) as Hwf.
  destruct w as [[f q]|]; simpl in Hwf; [|exists l; simpl].
  2:{ destruct (Z.leb_spec 0 (l + 1)); [|lia]. split_and!; done || lia. }
  destruct Hwf as (Hf & Hbq & Hn). simpl wfirst. simpl Window.wlast.
  destruct (Z.leb_spec f (l + 1)) as [Hge|Hlt].
  - (* at or after the first message *)
    exists l. rewrite (window_lookup_in f q (l + 1)) by done.
    assert (Hh : head (available (Some (f, q)) l) = q !! Z.to_nat (l + 1 - f)).
    { simpl. by rewrite head_lookup, lookup_drop, Nat.add_0_r. }
    rewrite Hh. destruct (q !! Z.to_nat (l + 1 - f)) as [m|] eqn:Hm.
    + split_and!; try (done || lia). intros m' [= <-]. rewrite (Hn _ _ Hm). lia.
    + apply lookup_ge_None in Hm. destruct (Z.leb_spec (f + Z.of_nat (length q) - 1) (l + 1)); [|lia].
      split_and!; done || lia.
  - (* before it *)
    rewrite (window_lookup_below f q (l + 1)) by done. simpl available.
    replace (Z.to_nat (l + 1 - f)) with 0%nat by lia. rewrite drop_0.
    destruct (Z.leb_spec (f + Z.of_nat (length q) - 1) (l + 1)) as [Hend|Hmore].
    + destruct q as [|m q]; [|simpl in Hend; lia]. exists l. split_and!; try done; lia || idtac.
      simpl. by rewrite drop_nil.
    + destruct (Z.ltb_spec (l + 1) f); [|lia].
      exists (f - 1). rewrite u64_small by (unfold is_u64; lia).
      rewrite (window_lookup_in f q f), Z.sub_diag by lia. simpl.
      replace (Z.to_nat (f - 1 + 1 - f)) with 0%nat by lia. rewrite drop_0.
      replace (f - 1 + 1) with f by lia.
      destruct q as [|m q]; simpl.
      * destruct (Z.leb_spec (f + Z.of_nat 0 - 1) f); [|lia].
        split_and!; done || lia.
      * split_and!; try done; try lia. intros m' [= <-]. rewrite (Hn 0%nat m) by done. lia.
Qed.
End Next.

(** ** Sending one message *)

Lemma set_replicate_self s : set_replicate (replicate s) s = s.
Proof. by destruct s. Qed.

(** What collecting leaves of [replicate]; only a clustered server collects. *)
Definition noted (e : env) (is_queue sent : bool) (seq : Z) (o : option subSentAndAck)
  : option subSentAndAck :=
  if isClustered e then
    let r := default new_ssa o in
    if stopped r then o else Some (collect is_queue sent seq r)
  else o.

Definition in_queue (sub : subState) : bool := bool_decide (is_Some (qstate sub)).

(** Collecting for replication changes nothing that delivery depends on. *)
Lemma collect_frame e p sent seq st sub :
  subs st !! p = Some sub ->
  let st' := if isClustered e then collectSentOrAck p sent seq st else st in
  published st' = published st /\ persisted st' = persisted st /\ queues st' = queues st /\
  subs st' = <[p := set_replicate (noted e (in_queue sub) sent seq (replicate sub)) sub]> (subs st).
Proof.
  intros Hp. unfold noted, in_queue, collectSentOrAck. rewrite Hp.
  destruct (isClustered e); [destruct (stopped _)|].
  - by rewrite set_replicate_self, insert_id.
  - by destruct (_ =? 1)%nat; [|destruct (_ =? maxSentOrAckSequences)%nat].
  - by rewrite set_replicate_self, insert_id.
Qed.

(** Nothing fails, and messages are not empty on the wire. *)
Record healthy (e : env) : Prop := {
  no_publish_fail n : publish_fails e n = false;
  no_persist_fail n : persist_fails e n = false;
  marshal_nonempty m : 0 < Sequence m -> marshal e m <> []
}.

(** A subscription that may be sent new messages. *)
Record can_receive (sub : subState) : Prop := {
  cr_init : initialized sub = true;
  cr_client : ClientID sub <> EmptyString;
  cr_hold : newOnHold sub = false
}.

(** The fields that sending does not change. *)
Record same_config (sub sub' : subState) : Prop := {
  sc_ID : ID sub' = ID sub;
  sc_ClientID : ClientID sub' = ClientID sub;
  sc_Inbox : Inbox sub' = Inbox sub;
  sc_MaxInFlight : MaxInFlight sub' = MaxInFlight sub;
  sc_qstate : qstate sub' = qstate sub;
  sc_ackWait : ackWait sub' = ackWait sub;
  sc_init : initialized sub' = initialized sub;
  sc_hold : newOnHold sub' = newOnHold sub;
  sc_failedHB : hasFailedHB sub' = hasFailedHB sub
}.

Lemma same_config_refl sub : same_config sub sub.
Proof. by constructor. Qed.

Lemma same_config_trans a b c : same_config a b -> same_config b c -> same_config a c.
Proof. intros [] []. constructor; congruence. Qed.

Lemma can_receive_same sub sub' : same_config sub sub' -> can_receive sub -> can_receive sub'.
Proof. intros [] []. constructor; congruence. Qed.

(** Recording a message that was not pending. *)
Lemma record_sent_new e p m force ap st sub :
  healthy e -> subs st !! p = Some sub -> acksPending sub !! Sequence m = None ->
  let stalls := negb force && (i32 (ap + 1) =? MaxInFlight sub) in
  exists st' sub', record_sent e p m force ap st = ((true, negb stalls), st') /\
    subs st' !! p = Some sub' /\ same_config sub sub' /\
    LastSent sub' = Z.max (LastSent sub) (Sequence m) /\
    (exists t, acksPending sub' = <[Sequence m := t]> (acksPending sub)) /\
    replicate sub' = noted e (in_queue sub) true (Sequence m) (replicate sub) /\
    stalled sub' = (stalls || stalled sub) /\
    published st' = published st /\
    persisted st' = persisted st ++ [AddSeqPending (ID sub) (Sequence m)] /\
    queues st' = queues st /\ (forall p', p' <> p -> subs st' !! p' = subs st !! p').
Proof.
  intros He Hp Hpend stalls. unfold record_sent. rewrite Hp.
  assert (exists tm, match ackTimer sub with
      | None => set_ackTimer (Some (Armed (now e st + ackWait sub))) sub | Some _ => sub end
    = set_ackTimer tm sub) as [tm ->].
  { destruct (ackTimer sub) eqn:Ht; eexists; [|done]. instantiate (1 := ackTimer sub). by destruct sub. }
  set (sub1 := set_ackTimer tm sub). change (acksPending sub1) with (acksPending sub). rewrite Hpend.
  destruct (collect_frame e p true (Sequence m) (put_sub p sub1 st) sub1) as (H1 & H2 & H3 & H4).
  { apply lookup_insert_eq. }
  set (st2 := if isClustered e then _ else _) in *. rewrite (no_persist_fail e He).
  cbn [subs persist]. rewrite H4, lookup_insert_eq. simpl in H1, H2, H3.
  cbn [MaxInFlight set_acksPending].
  replace (MaxInFlight (if LastSent _ <? Sequence m then _ else _)) with (MaxInFlight sub)
    by by destruct (_ <? _). fold stalls. change (LastSent (set_replicate _ _)) with (LastSent sub).
  assert (Hmax : forall b : bool, (b = (LastSent sub <? Sequence m)) ->
    (if b then Sequence m else LastSent sub) = Z.max (LastSent sub) (Sequence m)).
  { intros b ->. destruct (Z.ltb_spec (LastSent sub) (Sequence m)); lia. }
  specialize (Hmax _ eq_refl).
  destruct (LastSent sub <? Sequence m); destruct stalls; (eexists _, _; split; [reflexivity|]);
    (split; [apply lookup_insert_eq|]); simpl; rewrite ?H2; split_and!; try done;
    try (by eexists); intros p' Hne; rewrite H4; simpl; by rewrite !lookup_insert_ne.
Qed.

Definition psize (sub : subState) : Z := Z.of_nat (size (acksPending sub)).

Lemma not_ready_false sub m :
  can_receive sub -> Redelivered m = false ->
  negb (initialized sub) || String.eqb (ClientID sub) "" || (newOnHold sub && negb (Redelivered m)) = false.
Proof.
  intros [-> Hc ->] _. simpl. rewrite orb_false_r. by apply String.eqb_neq.
Qed.

(** A new message to a subscription with room for it. *)
Lemma sendMsgToSub_new e p m st sub :
  healthy e -> subs st !! p = Some sub -> can_receive sub -> Redelivered m = false ->
  0 < Sequence m -> acksPending sub !! Sequence m = None ->
  psize sub < MaxInFlight sub < two31 ->
  let stalls := psize sub + 1 =? MaxInFlight sub in
  exists st' sub', sendMsgToSub e p m false st = Ok ((true, negb stalls), st') /\
    subs st' !! p = Some sub' /\ same_config sub sub' /\
    LastSent sub' = Z.max (LastSent sub) (Sequence m) /\
    (exists t, acksPending sub' = <[Sequence m := t]> (acksPending sub)) /\
    replicate sub' = noted e (in_queue sub) true (Sequence m) (replicate sub) /\
    stalled sub' = (stalls || stalled sub) /\
    published st' = published st ++ [(Inbox sub, m)] /\
    persisted st' = persisted st ++ [AddSeqPending (ID sub) (Sequence m)] /\
    queues st' = queues st /\ (forall p', p' <> p -> subs st' !! p' = subs st !! p').
Proof.
  intros He Hp Hr Hm Hseq Hpend Hmax stalls. unfold psize in *. unfold sendMsgToSub. rewrite Hp.
  rewrite (not_ready_false _ _ Hr Hm), Hm. rewrite i32_small by (unfold is_i32, two31 in *; lia).
  cbn [negb andb]. destruct (Z.leb_spec (MaxInFlight sub) (Z.of_nat (size (acksPending sub)))); [lia|].
  pose proof (marshal_nonempty e He m Hseq) as Hne. destruct (marshal e m) as [|b bs]; [done|].
  rewrite (no_publish_fail e He).
  destruct (record_sent_new e p m false (Z.of_nat (size (acksPending sub))) (publish (Inbox sub) m st) sub)
    as (st' & sub' & Heq & H1 & H2 & H3 & H4 & H4' & H5 & H6 & H7 & H8 & H9); try done.
  rewrite i32_small in * by (unfold is_i32, two31 in *; lia). cbn [negb andb] in *.
  exists st', sub'. rewrite Heq. by split_and!.
Qed.

(** A new message to a subscription that has reached its limit. *)
Lemma sendMsgToSub_full e p m st sub :
  subs st !! p = Some sub -> can_receive sub -> Redelivered m = false ->
  MaxInFlight sub <= psize sub < two31 ->
  sendMsgToSub e p m false st = Ok ((false, false), put_sub p (set_stalled true sub) st).
Proof.
  intros Hp Hr Hm Hmax. unfold psize in *. unfold sendMsgToSub.
  rewrite Hp, (not_ready_false _ _ Hr Hm), i32_small by (unfold is_i32, two31 in *; lia).
  cbn [negb andb]. by destruct (Z.leb_spec (MaxInFlight sub) (Z.of_nat (size (acksPending sub)))); [|lia].
Qed.

(** ** Delivering what is available *)

Section Available.
Context {S : Type} `{MsgStoreSpec S}.

Lemma available_next w l m av :
  wf_window w -> available w l = m :: av -> Sequence m = l + 1 ->
  available w (l + 1) = av /\ l + 2 < two64 /\ l + 1 <= Window.wlast w.
Proof.
  destruct w as [[f q]|]; [|done]. intros (Hf & Hb & Hn) Hav Hs. simpl in *.
  assert (Hm : q !! Z.to_nat (l + 1 - f) = Some m).
  { rewrite <- (Nat.add_0_r (Z.to_nat _)), <- lookup_drop, Hav. done. }
  pose proof (Hn _ _ Hm) as Hsm. apply lookup_lt_Some in Hm.
  split; [|lia]. replace (Z.to_nat (l + 1 + 1 - f)) with (Z.to_nat (l + 1 - f) + 1)%nat by lia.
  rewrite <- drop_drop, Hav. done.
Qed.

Lemma available_in w l m :
  m ∈ available w l -> exists f q, w = Some (f, q) /\ m ∈ q.
Proof.
  destruct w as [[f q]|]; simpl; [|by intros ?%elem_of_nil]. intros Hm. exists f, q.
  split; [done|]. by eapply elem_of_list_drop || (apply list_elem_of_lookup in Hm as [i Hi];
    rewrite lookup_drop in Hi; by eapply list_elem_of_lookup_2).
Qed.

(** The state of a subscription between deliveries. *)
Record sub_ok (sub : subState) : Prop := {
  so_receive : can_receive sub;
  so_pending k : is_Some (acksPending sub !! k) -> k <= LastSent sub;
  so_last : 0 <= LastSent sub /\ LastSent sub + 1 < two64;
  so_max : 0 < MaxInFlight sub < two31;
  so_size : psize sub < two31
}.

(** What delivering the messages [n] does to the subscription and to the outside. *)
Record delivers (e : env) (p : ptr) (st st' : server) (sub sub' : subState) (n : list MsgProto) : Prop := {
  dl_config : same_config sub sub';
  dl_ok : sub_ok sub';
  dl_sub : subs st' !! p = Some sub';
  dl_published : published st' = published st ++ (pair (Inbox sub) <$> n);
  dl_persisted : persisted st' = persisted st ++ ((fun m => AddSeqPending (ID sub) (Sequence m)) <$> n);
  dl_pending : dom (acksPending sub') = dom (acksPending sub) ∪ list_to_set (Sequence <$> n);
  dl_size : psize sub' = psize sub + Z.of_nat (length n);
  dl_replicate : replicate sub' =
    foldl (fun r m => noted e (in_queue sub) true (Sequence m) r) (replicate sub) n;
  dl_last : LastSent sub <= LastSent sub';
  dl_queues : queues st' = queues st;
  dl_others p' : p' <> p -> subs st' !! p' = subs st !! p'
}.

Lemma delivers_nil e p st sub l :
  subs st !! p = Some sub -> sub_ok sub -> LastSent sub <= l -> l + 1 < two64 ->
  forall b, delivers e p st (put_sub p (set_stalled b (set_LastSent l sub)) st)
              sub (set_stalled b (set_LastSent l sub)) [].
Proof.
  intros Hp [Hr Hk [Hz0 Hz1] Hm Hsz] Hl Hb b. constructor; simpl; rewrite ?app_nil_r; try done.
  - constructor; simpl; try done; try lia. 1: by destruct Hr. intros k ?%Hk. lia.
  - by rewrite lookup_insert_eq.
  - set_solver.
  - unfold psize. simpl. lia.
  - intros p' ?. by rewrite lookup_insert_ne.
Qed.

Lemma delivers_trans e p st1 st2 st3 sub1 sub2 sub3 n1 n2 :
  delivers e p st1 st2 sub1 sub2 n1 -> delivers e p st2 st3 sub2 sub3 n2 ->
  delivers e p st1 st3 sub1 sub3 (n1 ++ n2).
Proof.
  intros [] []. constructor; rewrite ?fmap_app, ?list_to_set_app_L; try congruence || lia.
  - by eapply same_config_trans.
  - rewrite dl_published1, dl_published0, app_assoc. by destruct dl_config0 as [_ _ -> _ _ _ _ _ _].
  - rewrite dl_persisted1, dl_persisted0, app_assoc. by destruct dl_config0 as [-> _ _ _ _ _ _ _ _].
  - rewrite dl_pending1, dl_pending0. by rewrite (assoc_L (∪)).
  - rewrite length_app. lia.
  - rewrite foldl_app, <- dl_replicate0, dl_replicate1. unfold in_queue.
    by rewrite (sc_qstate _ _ dl_config0).
  - intros p' ?. rewrite dl_others1, dl_others0; done.
Qed.

(** [sendMsgToSub] on the next message, when there is room. *)
Lemma delivers_one e p st sub m l :
  healthy e -> subs st !! p = Some sub -> sub_ok sub -> stalled sub = false ->
  psize sub < MaxInFlight sub -> LastSent sub <= l -> Sequence m = l + 1 -> l + 2 < two64 ->
  Redelivered m = false ->
  exists st' sub',
    sendMsgToSub e p m false (put_sub p (set_LastSent l sub) st)
      = Ok ((true, negb (psize sub + 1 =? MaxInFlight sub)), st') /\
    delivers e p st st' sub sub' [m] /\ LastSent sub' = Sequence m /\ psize sub' = psize sub + 1 /\
    stalled sub' = (psize sub + 1 =? MaxInFlight sub).
Proof.
  intros He Hp [Hr Hk [Hz0 Hz1] Hm Hsz] Hst Hroom Hl Hs Hb Hrd.
  destruct (sendMsgToSub_new e p m (put_sub p (set_LastSent l sub) st) (set_LastSent l sub))
    as (st' & sub' & Heq & E1 & E2 & E3 & [t E4] & E4' & E5 & E6 & E7 & E8 & E9); try done; simpl.
  - by rewrite lookup_insert_eq.
  - by destruct Hr.
  - lia.
  - apply eq_None_not_Some. intros ?%Hk. lia.
  - unfold psize in *. simpl. lia.
  - simpl in *. exists st', sub'. change (psize (set_LastSent l sub)) with (psize sub) in *.
    assert (Hnone : acksPending sub !! Sequence m = None) by (apply eq_None_not_Some; intros ?%Hk; lia).
    assert (Hpsz : psize sub' = psize sub + 1).
    { unfold psize. rewrite E4, map_size_insert_None by done. lia. }
    assert (Hcfg : same_config sub sub') by (by destruct E2).
    split_and!; try done; [|lia|by rewrite E5, Hst, orb_false_r].
    constructor; try done.
    + pose proof (sc_MaxInFlight _ _ Hcfg). constructor; try lia.
      * by eapply can_receive_same.
      * intros k. rewrite E4, E3. destruct (decide (k = Sequence m)) as [->|Hne]; [lia|].
        rewrite lookup_insert_ne by done. intros ?%Hk. lia.
    + rewrite E4, dom_insert_L. set_solver.
    + lia.
    + intros p' Hne. rewrite E9 by done. simpl. by rewrite lookup_insert_ne.
Qed.

Definition room (sub : subState) : nat := Z.to_nat (MaxInFlight sub - psize sub).

Definition fresh_window (w : option (Z * list MsgProto)) : Prop :=
  forall f q m, w = Some (f, q) -> m ∈ q -> Redelivered m = false.

Lemma put_sub_twice p a b st : put_sub p b (put_sub p a st) = put_sub p b st.
Proof. unfold put_sub, set_subs. simpl. by rewrite insert_insert_eq. Qed.

Lemma sub_loop_spec e c w p : healthy e -> view c w -> fresh_window w ->
  forall av fuel st sub,
  subs st !! p = Some sub -> sub_ok sub -> stalled sub = false ->
  available w (LastSent sub) = av -> (length av < fuel)%nat ->
  exists st' sub', send_loop fuel e c p (LastSent sub + 1) st = Ok st' /\
    delivers e p st st' sub sub' (take (room sub) av) /\
    available w (LastSent sub') = drop (room sub) av /\
    LastSent sub' <= Z.max (LastSent sub) (Window.wlast w) /\
    stalled sub' = (negb (bool_decide (av = [])) && (room sub <=? length av)%nat).
Proof.
  intros He Hv Hfresh. induction av as [|m av IH]; intros fuel st sub Hp Hok Hst Hav Hfuel;
    (destruct fuel as [|fuel]; [simpl in Hfuel; lia|]); cbn [send_loop]; rewrite Hp, Hst;
    pose proof Hok as [_ _ [Hz0 Hz1] Hm Hsz];
    destruct (getNextMsg_spec c w (LastSent sub) Hv Hz0 Hz1) as (l & [Hl HlM] & Hb & -> & Hsame & Hhd);
    rewrite Hav in *; cbn [head outcome_bind mbind].
  - pose proof (delivers_nil e p st sub l Hp Hok Hl Hb false) as Hd.
    replace (set_stalled false (set_LastSent l sub)) with (set_LastSent l sub) in Hd
      by (destruct sub; simpl in *; by subst).
    eexists _, _. split_and!; [done|by rewrite take_nil| | |]; simpl; rewrite ?drop_nil; done.
  - specialize (Hhd m eq_refl).
    destruct (available_next w l m av (view_wf c w Hv) Hsame Hhd) as (Hnext & Hl2 & HlW).
    assert (Hrd : Redelivered m = false).
    { destruct (available_in w l m) as (f & q & Hw & Hin); [|by eapply Hfresh].
      rewrite Hsame. by left. }
    destruct (Z.leb_spec (MaxInFlight sub) (psize sub)) as [Hfull|Hroom].
    + rewrite (sendMsgToSub_full e p m _ (set_LastSent l sub)); try done.
      2: by simpl; rewrite lookup_insert_eq. 2: by destruct Hok as [[]].
      simpl. rewrite put_sub_twice. eexists _, _. replace (room sub) with 0%nat by (unfold room; lia).
      split_and!; [done|by apply delivers_nil| | |]; done.
    + destruct (delivers_one e p st sub m l) as (st1 & sub1 & -> & Hd & HL & Hps & Hst1); try done.
      cbn [lift mbind outcome_bind negb orb]. rewrite negb_involutive.
      assert (HM : MaxInFlight sub1 = MaxInFlight sub) by apply Hd.
      assert (Hrm : room sub = Datatypes.S (room sub1)) by (unfold room; lia).
      rewrite Hrm. cbn [take drop]. rewrite <- Hhd, <- HL in Hnext.
      destruct (Z.eqb_spec (psize sub + 1) (MaxInFlight sub)) as [Hlast|Hmore].
      * replace (room sub1) with 0%nat by (unfold room; lia).
        exists st1, sub1. split_and!; try done. lia.
      * destruct (IH fuel st1 sub1) as (st2 & sub2 & Heq & Hd2 & Hav2 & HL2 & Hst2); try done.
        1: apply Hd. 1: apply Hd. 1: simpl in Hfuel; lia.
        rewrite u64_small by (unfold is_u64; lia). rewrite <- Hhd, <- HL, Heq.
        exists st2, sub2. split_and!; try done; [by eapply (delivers_trans _ _ _ _ _ _ _ _ [m])|lia|].
        rewrite Hst2. destruct av; [|done]. simpl. unfold room. symmetry. apply Nat.leb_gt. lia.
Qed.

Lemma length_available w l :
  wf_window w -> Z.of_nat (length (available w l)) <= Z.max 0 (Window.wlast w - l).
Proof. destruct w as [[f q]|]; simpl; [|lia]. intros _. rewrite length_drop. lia. Qed.

(** A subscription that is not stalled is sent as many of the available messages as
    it has room for, in order, and stalls when that fills it. *)
Lemma sendAvailable e c w p st sub :
  healthy e -> view c w -> fresh_window w ->
  subs st !! p = Some sub -> sub_ok sub -> stalled sub = false ->
  let av := available w (LastSent sub) in
  exists st' sub', sendAvailableMessages e c p st = Ok st' /\
    delivers e p st st' sub sub' (take (room sub) av) /\
    available w (LastSent sub') = drop (room sub) av /\
    LastSent sub' <= Z.max (LastSent sub) (Window.wlast w) /\
    stalled sub' = (negb (bool_decide (av = [])) && (room sub <=? length av)%nat).
Proof.
  intros He Hv Hfr Hp Hok Hst av. unfold sendAvailableMessages. rewrite Hp.
  pose proof Hok as [_ _ [Hz0 Hz1] _ _].
  rewrite u64_small by (unfold is_u64; lia). apply sub_loop_spec; try done.
  unfold send_fuel, LastSequence. rewrite (view_FirstAndLast c w Hv). simpl.
  pose proof (length_available w (LastSent sub) (view_wf c w Hv)). unfold av. lia.
Qed.
End Available.
End DlvSpec.
