(* ===== verification/DeliverySys.v ===== *)
(** * A subscription over time

    A plain subscription and its channel as a system: messages are stored in the
    channel, acknowledgements come in, in any order.  The abstract subscriber of
    [Module Flow] has no stalled flag: it is sent the next messages whenever fewer
    than [MaxInFlight] are outstanding.  The server is shown to implement it, and
    order, completeness and flow control follow. *)

From Stdlib Require Import ZArith Lia Ascii String Sorted.
From stdpp Require Import base list gmap strings sorting.
From S2P Require Import Prelude GoLib MemStore MsgStore SubState Delivery DeliverySpec.

Local Open Scope Z_scope.

Module Flow.
Import Sub Dlv DlvSpec.

Abbreviation window := (option (Z * list MsgProto)).

Definition msgs (w : window) : list MsgProto := match w with None => [] | Some (_, q) => q end.

(** A channel only gets new messages at the end, and loses some. *)
Definition extends (w w' : window) : Prop :=
  Window.wlast w <= Window.wlast w' /\
  forall m, m ∈ msgs w' -> m ∈ msgs w \/ Window.wlast w < Sequence m.

(** ** The abstract subscriber *)

Record flow := mkFlow { cursor : Z; sent : list MsgProto; outstanding : gset Z }.

(** The next messages, as many as may be outstanding. *)
Definition batch (max : Z) (w : window) (s : flow) : list MsgProto :=
  take (Z.to_nat (max - Z.of_nat (size (outstanding s)))) (available w (cursor s)).

Definition deliver (max : Z) (w : window) (s : flow) : flow :=
  let n := batch max w s in
  mkFlow (default (cursor s) (Sequence <$> last n)) (sent s ++ n)
    (outstanding s ∪ list_to_set (Sequence <$> n)).

Definition forget (seq : Z) (s : flow) : flow :=
  mkFlow (cursor s) (sent s) (outstanding s ∖ {[seq]}).

Definition ack (max : Z) (w : window) (seq : Z) (s : flow) : flow :=
  if bool_decide (seq ∈ outstanding s) then deliver max w (forget seq s) else s.

(** ** The system *)

Section System.
Context {S : Type} `{MsgStoreSpec S}.
Context (e : env) (p : ptr).

(** A new state of the channel's store, with what it holds; an acknowledgement. *)
Inductive event :=
| Stored (c : S) (w : window)
| Acked (seq : Z).

(** The store and the server. *)
Definition step (ev : event) (s : S * server) : outcome Mem.fuel_error (S * server) :=
  match ev with
  | Stored c _ => st ← processMsg e c [p] [] s.2; Ok (c, st)
  | Acked seq => st ← processAck e s.1 p seq true s.2; Ok (s.1, st)
  end.

Fixpoint run (evs : list event) (s : S * server) : outcome Mem.fuel_error (S * server) :=
  match evs with
  | [] => Ok s
  | ev :: evs' => s ← step ev s; run evs' s
  end.

(** A new subscription is sent what is there, then the events follow. *)
Definition start (evs : list event) (s : S * server) : outcome Mem.fuel_error (S * server) :=
  st ← sendAvailableMessages e s.1 p s.2; run evs (s.1, st).

Definition flow_step (max : Z) (ev : event) (s : window * flow) : window * flow :=
  match ev with
  | Stored _ w => (w, deliver max w s.2)
  | Acked seq => (s.1, ack max s.1 seq s.2)
  end.

Definition flow_start (max : Z) (evs : list event) (w : window) (l : Z) : window * flow :=
  foldl (fun s ev => flow_step max ev s) (w, deliver max w (mkFlow l [] ∅)) evs.

Fixpoint admissible (w : window) (evs : list event) : Prop :=
  match evs with
  | [] => True
  | Stored c w' :: evs' =>
      view c w' /\ fresh_window w' /\ extends w w' /\ admissible w' evs'
  | Acked _ :: evs' => admissible w evs'
  end.

(** ** Windows *)

Lemma drop_numbered f q l :
  MemSpec.numbered f q ->
  drop (Z.to_nat (l + 1 - f)) q = filter (fun m => l < Sequence m) q.
Proof.
  revert f. induction q as [|m q IH]; intros f Hn; [by rewrite drop_nil|].
  assert (Hm : Sequence m = f) by (rewrite (Hn 0%nat m eq_refl); lia).
  assert (Hn' : MemSpec.numbered (f + 1) q).
  { intros i x Hx. rewrite (Hn (Datatypes.S i) x Hx). lia. }
  rewrite filter_cons, Hm. case_decide as Hd.
  - replace (Z.to_nat (l + 1 - f)) with 0%nat by lia. simpl. f_equal.
    rewrite <- (IH _ Hn'). by replace (Z.to_nat (l + 1 - (f + 1))) with 0%nat by lia.
  - rewrite <- (IH _ Hn').
    by replace (Z.to_nat (l + 1 - f)) with (Datatypes.S (Z.to_nat (l + 1 - (f + 1)))) by lia.
Qed.

Lemma available_filter w l :
  wf_window w -> available w l = filter (fun m => l < Sequence m) (msgs w).
Proof. destruct w as [[f q]|]; [|done]. intros (_ & _ & Hn). by apply drop_numbered. Qed.

Lemma available_iff w l l' :
  wf_window w ->
  available w l = available w l' <->
  (forall m, m ∈ msgs w -> l < Sequence m <-> l' < Sequence m).
Proof.
  intros Hw. rewrite !available_filter by done. split; intros Heq.
  - intros m Hm. assert (m ∈ filter (fun m => l < Sequence m) (msgs w) <->
      m ∈ filter (fun m => l' < Sequence m) (msgs w)) as Hf by by rewrite Heq.
    rewrite !list_elem_of_filter in Hf. tauto.
  - clear Hw. induction (msgs w) as [|m q IH]; [done|]. rewrite !filter_cons.
    rewrite IH by (intros; apply Heq; by right). specialize (Heq m ltac:(by left)).
    by repeat case_decide; [|tauto|tauto|].
Qed.

(** What is left after a batch is what comes after its last message. *)
Lemma available_after w l k :
  wf_window w ->
  available w (default l (Sequence <$> last (take k (available w l)))) = drop k (available w l).
Proof.
  destruct w as [[f q]|]; [|by simpl; rewrite drop_nil]. intros (Hf & _ & Hn). simpl.
  set (j := Z.to_nat (l + 1 - f)). set (t := take k (drop j q)).
  destruct (last t) as [m|] eqn:Hlast; simpl.
  - rewrite last_lookup in Hlast. unfold t in Hlast. rewrite length_take, length_drop in Hlast.
    apply lookup_take_Some in Hlast as [Hm Hk]. rewrite lookup_drop in Hm.
    pose proof (lookup_lt_Some _ _ _ Hm) as Hlt. rewrite (Hn _ _ Hm), drop_drop.
    destruct (Nat.le_gt_cases k (length q - j)).
    + f_equal. lia.
    + rewrite !drop_ge; [done|lia|lia].
  - apply last_None in Hlast. assert (k = 0%nat \/ drop j q = []) as [->|Hd].
    { unfold t in Hlast. destruct k; [by left|]. right. by destruct (drop j q). }
    + done.
    + fold j. by rewrite Hd, drop_nil.
Qed.

Lemma batch_cursor w l k :
  wf_window w -> l <= Window.wlast w ->
  default l (Sequence <$> last (take k (available w l))) <= Window.wlast w.
Proof.
  intros Hw Hl. destruct (last _) as [m|] eqn:Hm; [|done]. simpl.
  apply last_Some_elem_of in Hm. apply elem_of_take in Hm as (i & Hm & _).
  destruct w as [[f q]|]; [|done]. destruct Hw as (_ & _ & Hn). simpl in *.
  rewrite lookup_drop in Hm. rewrite (Hn _ _ Hm). apply lookup_lt_Some in Hm. lia.
Qed.

Lemma available_extends w w' l l' :
  wf_window w -> wf_window w' -> extends w w' ->
  l <= Window.wlast w -> l' <= Window.wlast w -> available w l = available w l' ->
  available w' l = available w' l'.
Proof.
  intros Hw Hw' [_ He] Hl Hl' Heq. rewrite available_iff in * by done.
  intros m [Hm|Hm]%He; [by apply Heq|lia].
Qed.

(** ** Acknowledgements *)

(** The record of a subscription after an acknowledgement. *)
Record acked (st st' : server) (sub sub' : subState) (seq : Z) : Prop := {
  ak_config : same_config sub sub';
  ak_sub : subs st' !! p = Some sub';
  ak_pending : acksPending sub' = delete seq (acksPending sub);
  ak_last : LastSent sub' = LastSent sub;
  ak_stalled : stalled sub' = stalled sub;
  ak_replicate : replicate sub' = noted e (in_queue sub) false seq (replicate sub);
  ak_published : published st' = published st;
  ak_persisted : persisted st' = persisted st ++ [AckSeqPending (ID sub) seq]
}.

Lemma remove_acked_plain sub seq fromUser st :
  healthy e -> subs st !! p = Some sub -> qstate sub = None ->
  is_Some (acksPending sub !! seq) ->
  exists st' sub', remove_acked e p sub seq fromUser st = Some st' /\ acked st st' sub sub' seq.
Proof.
  intros He Hp Hq [t Ht]. unfold remove_acked. rewrite Ht.
  destruct (collect_frame e p false seq st sub Hp) as (Hpub & Hper & _ & Hsubs).
  set (st1 := if isClustered e then _ else st) in *.
  assert (Hsub : subs st1 !! p = Some (set_replicate (noted e (in_queue sub) false seq (replicate sub)) sub)).
  { by rewrite Hsubs, lookup_insert_eq. }
  unfold persistAck. rewrite (no_persist_fail e He). cbn [negb].
  unfold delete_pending at 1 2. simpl. rewrite Hsub, Hq.
  destruct fromUser; simpl; rewrite ?lookup_insert_eq; eexists _, _; (split; [done|]);
    (constructor; [|by simpl; rewrite ?lookup_insert_eq|..]); simpl; rewrite ?Hper; done || by constructor.
Qed.

Lemma psize_delete sub sub' seq :
  acksPending sub' = delete seq (acksPending sub) -> is_Some (acksPending sub !! seq) ->
  psize sub' = psize sub - 1.
Proof.
  unfold psize. intros -> Hs. rewrite map_size_delete_Some by done.
  destruct Hs as [t Ht]. assert (size (acksPending sub) <> 0%nat); [|lia].
  intros Hz%map_size_empty_inv. by rewrite Hz, lookup_empty in Ht.
Qed.

(** ** The server implements the abstract subscriber *)

(** What is left in [replicate] after a batch. *)
Definition noted_batch (n : list MsgProto) (o : option subSentAndAck) : option subSentAndAck :=
  foldl (fun r m => noted e false true (Sequence m) r) o n.

Lemma not_in_queue sub : qstate sub = None -> in_queue sub = false.
Proof. intros Hq. unfold in_queue. by rewrite Hq. Qed.

Section Refinement.
Context (max : Z) (inbox : string) (pub0 : list (string * MsgProto)).

Record inv (w : window) (c : S) (st : server) (sub : subState) (s : flow) : Prop := {
  iv_view : view c w;
  iv_fresh : fresh_window w;
  iv_sub : subs st !! p = Some sub;
  iv_ok : sub_ok sub;
  iv_plain : qstate sub = None;
  iv_max : MaxInFlight sub = max;
  iv_inbox : Inbox sub = inbox;
  iv_published : published st = pub0 ++ (pair inbox <$> sent s);
  iv_pending : dom (acksPending sub) = outstanding s;
  iv_size : psize sub <= max;
  iv_bound : cursor s <= Window.wlast w /\ LastSent sub <= Window.wlast w;
  iv_cursor : available w (LastSent sub) = available w (cursor s)
}.

(** The flag says what is needed: a stalled subscription is full, one that is not has
    room and has been sent everything. *)
Definition settled (w : window) (sub : subState) : Prop :=
  if stalled sub then psize sub = max else psize sub < max /\ available w (LastSent sub) = [].

Lemma settled_flag w sub : settled w sub -> stalled sub = (max <=? psize sub).
Proof. unfold settled. destruct (stalled sub); intros Hs; symmetry; [apply Z.leb_le|apply Z.leb_gt]; lia. Qed.

Lemma inv_room w c st sub s :
  inv w c st sub s -> room sub = Z.to_nat (max - Z.of_nat (size (outstanding s))).
Proof.
  intros []. unfold room, psize. rewrite iv_max0, <- iv_pending0. do 2 f_equal. by rewrite size_dom.
Qed.

Lemma inv_extends w w' c c' st sub s :
  inv w c st sub s -> view c' w' -> fresh_window w' -> extends w w' -> inv w' c' st sub s.
Proof.
  intros [] Hv Hf He. pose proof (view_wf _ _ iv_view0). pose proof (view_wf _ _ Hv).
  pose proof (proj1 He). destruct iv_bound0.
  constructor; try done; [lia|]. by eapply (available_extends w w').
Qed.

Lemma inv_send w c st sub s :
  healthy e -> inv w c st sub s -> stalled sub = false -> psize sub < max ->
  exists st' sub', sendAvailableMessages e c p st = Ok st' /\
    inv w c st' sub' (deliver max w s) /\ settled w sub' /\
    replicate sub' = noted_batch (batch max w s) (replicate sub).
Proof.
  intros He Hi Hst Hlt. pose proof (inv_room _ _ _ _ _ Hi) as Hroom. destruct Hi.
  pose proof (view_wf _ _ iv_view0) as Hwf.
  destruct (sendAvailable e c w p st sub) as (st' & sub' & Heq & [] & Hav & HL & Hst'); try done.
  exists st', sub'. split; [done|].
  assert (HM : MaxInFlight sub' = max) by (destruct dl_config0; congruence).
  assert (Hsz : psize sub' = psize sub + Z.of_nat (Nat.min (room sub) (length (available w (LastSent sub))))).
  { by rewrite dl_size0, length_take. }
  pose proof (so_max _ dl_ok0) as Hmax.
  split_and!.
  - constructor; try done; simpl; unfold batch; try rewrite <- Hroom, <- iv_cursor0.
    + by destruct dl_config0; congruence.
    + by destruct dl_config0; congruence.
    + rewrite dl_published0, iv_published0, iv_inbox0, fmap_app. by rewrite app_assoc.
    + by rewrite dl_pending0, iv_pending0.
    + unfold room in *. lia.
    + destruct iv_bound0. split; [|lia]. rewrite iv_cursor0. by apply batch_cursor.
    + rewrite Hav, iv_cursor0. by rewrite available_after.
  - unfold settled. rewrite Hst', Hav. case_bool_decide as Hnil; simpl.
    + rewrite Hsz, Hnil, drop_nil. split; [simpl; lia|done].
    + destruct (Nat.leb_spec (room sub) (length (available w (LastSent sub)))).
      * rewrite Hsz. unfold room in *. lia.
      * split; [rewrite Hsz; unfold room in *; lia|apply drop_ge; lia].
  - unfold noted_batch, batch. by rewrite dl_replicate0, not_in_queue, <- Hroom, <- iv_cursor0.
Qed.

Lemma send_stalled c st sub :
  subs st !! p = Some sub -> stalled sub = true -> sendAvailableMessages e c p st = Ok st.
Proof.
  intros Hp Hst. unfold sendAvailableMessages, send_fuel. rewrite Hp, Nat.add_comm. simpl.
  by rewrite Hp, Hst.
Qed.

Lemma deliver_none w s : batch max w s = [] ->
  deliver max w s = s.
Proof.
  intros Hn. unfold deliver. rewrite Hn. simpl. rewrite app_nil_r, union_empty_r_L. by destruct s.
Qed.

Lemma batch_full w w0 c st sub s :
  inv w0 c st sub s -> psize sub = max -> batch max w s = [].
Proof.
  intros Hi Hfull. unfold batch. rewrite <- (inv_room _ _ _ _ _ Hi).
  unfold room. rewrite (iv_max _ _ _ _ _ Hi), Hfull, Z.sub_diag. done.
Qed.

Lemma inv_stored w c st sub s c' w' :
  healthy e -> inv w c st sub s -> settled w sub ->
  view c' w' -> fresh_window w' -> extends w w' ->
  exists st' sub', sendAvailableMessages e c' p st = Ok st' /\
    inv w' c' st' sub' (deliver max w' s) /\ settled w' sub' /\
    replicate sub' = noted_batch (batch max w' s) (replicate sub).
Proof.
  intros He Hi Hs Hv Hf Hext. pose proof (inv_extends _ _ _ _ _ _ _ Hi Hv Hf Hext) as Hi'.
  unfold settled in Hs. destruct (stalled sub) eqn:Hst; [|apply (inv_send _ _ _ sub); try done; apply Hs]. exists st, sub.
  pose proof (batch_full w' w c st sub s Hi Hs) as Hb. rewrite deliver_none, Hb by done.
  rewrite (send_stalled _ _ sub); [|apply Hi|done].
  unfold settled. by rewrite Hst.
Qed.

Lemma acked_inv w c st sub s st1 sub1 seq :
  inv w c st sub s -> acked st st1 sub sub1 seq -> is_Some (acksPending sub !! seq) ->
  inv w c st1 sub1 (forget seq s).
Proof.
  intros [] [] Hs. pose proof (psize_delete _ _ _ ak_pending0 Hs). pose proof ak_config0 as [].
  destruct iv_ok0. constructor; try (done || congruence || lia); simpl.
  - constructor; try congruence.
    + by eapply can_receive_same.
    + intros k. rewrite ak_pending0, ak_last0. intros [x [_ Hx]%lookup_delete_Some]. eauto.
    + lia.
  - by rewrite ak_published0.
  - by rewrite ak_pending0, dom_delete_L, iv_pending0.
  - by rewrite ak_last0.
  - by rewrite ak_last0.
Qed.

(** Clearing the flag. *)
Lemma unstall_inv w c st sub s :
  inv w c st sub s -> inv w c (put_sub p (set_stalled false sub) st) (set_stalled false sub) s.
Proof.
  intros []. constructor; try done; simpl; [by rewrite lookup_insert_eq|].
  destruct iv_ok0 as [[] ? ? ? ?]. by constructor.
Qed.

Lemma inv_ack w c st sub s seq :
  healthy e -> inv w c st sub s -> settled w sub ->
  exists st' sub', processAck e c p seq true st = Ok st' /\
    inv w c st' sub' (ack max w seq s) /\ settled w sub' /\
    replicate sub' = if bool_decide (seq ∈ outstanding s)
      then noted_batch (batch max w (forget seq s)) (noted e false false seq (replicate sub))
      else replicate sub.
Proof.
  intros He Hi Hs. unfold processAck, ack. rewrite (iv_sub _ _ _ _ _ Hi).
  pose proof (iv_max _ _ _ _ _ Hi) as Hm. pose proof (so_max _ (iv_ok _ _ _ _ _ Hi)) as HM.
  pose proof (iv_plain _ _ _ _ _ Hi) as Hq. pose proof (iv_size _ _ _ _ _ Hi) as Hsz.
  unfold settled in Hs. case_bool_decide as Hd; rewrite <- (iv_pending _ _ _ _ _ Hi), elem_of_dom in Hd.
  - destruct (remove_acked_plain sub seq true st He (iv_sub _ _ _ _ _ Hi) Hq Hd) as (st1 & sub1 & -> & Ha).
    pose proof (acked_inv _ _ _ _ _ _ _ _ Hi Ha Hd) as Hi1.
    pose proof (psize_delete _ _ _ (ak_pending _ _ _ _ _ Ha) Hd) as Hps.
    pose proof (iv_max _ _ _ _ _ Hi1) as Hm1.
    pose proof (ak_replicate _ _ _ _ _ Ha) as Hr. rewrite not_in_queue in Hr by done.
    unfold unstall. rewrite (iv_sub _ _ _ _ _ Hi1), (ak_stalled _ _ _ _ _ Ha), <- Hr.
    fold (psize sub1). rewrite i32_small by (unfold is_i32, two31, psize in *; lia).
    destruct (stalled sub) eqn:Hst; simpl.
    + destruct (Z.ltb_spec (psize sub1) (MaxInFlight sub1)); [|lia].
      rewrite (iv_plain _ _ _ _ _ Hi1), Hq. simpl.
      apply (inv_send w c _ (set_stalled false sub1)); [done|by apply unstall_inv|done|]. unfold psize in *. simpl. lia.
    + assert (Hb : batch max w (forget seq s) = []).
      { unfold batch. simpl. by rewrite <- (iv_cursor _ _ _ _ _ Hi), (proj2 Hs), take_nil. }
      exists st1, sub1. rewrite deliver_none, Hb by done. split_and!; try done.
      unfold settled. rewrite (ak_stalled _ _ _ _ _ Ha), Hst, (ak_last _ _ _ _ _ Ha). split; [lia|apply Hs].
  - unfold remove_acked, unstall. apply eq_None_not_Some in Hd.
    rewrite Hd, Hq, (iv_sub _ _ _ _ _ Hi). fold (psize sub).
    rewrite i32_small by (unfold is_i32, two31, psize in *; lia).
    destruct (Z.ltb_spec (psize sub) (MaxInFlight sub)); destruct (stalled sub) eqn:Hst; try lia;
      simpl; exists st, sub; unfold settled; by rewrite Hst.
Qed.

Lemma inv_step w c st sub s ev evs :
  healthy e -> inv w c st sub s -> settled w sub -> admissible w (ev :: evs) ->
  exists c' st' sub', step ev (c, st) = Ok (c', st') /\
    inv (flow_step max ev (w, s)).1 c' st' sub' (flow_step max ev (w, s)).2 /\
    settled (flow_step max ev (w, s)).1 sub' /\
    admissible (flow_step max ev (w, s)).1 evs.
Proof.
  intros He Hi Hs Ha. destruct ev as [c' w'|seq]; simpl in Ha; unfold step, flow_step; simpl.
  - destruct Ha as (Hv & Hf & Hext & Ha).
    destruct (inv_stored _ _ _ _ _ c' w' He Hi Hs Hv Hf Hext) as (st' & sub' & Heq & Hi' & Hs' & _).
    exists c', st', sub'. unfold processMsg. simpl. by rewrite Heq.
  - destruct (inv_ack _ _ _ _ _ seq He Hi Hs) as (st' & sub' & Heq & Hi' & Hs' & _).
    exists c, st', sub'. by rewrite Heq.
Qed.

Lemma inv_run evs : forall w c st sub s,
  healthy e -> inv w c st sub s -> settled w sub -> admissible w evs ->
  let t := foldl (fun s ev => flow_step max ev s) (w, s) evs in
  exists c' st' sub', run evs (c, st) = Ok (c', st') /\ inv t.1 c' st' sub' t.2 /\ settled t.1 sub'.
Proof.
  induction evs as [|ev evs IH]; intros w c st sub s He Hi Hs Ha; simpl.
  - by exists c, st, sub.
  - destruct (inv_step _ _ _ _ _ _ _ He Hi Hs Ha) as (c' & st' & sub' & -> & Hi' & Hs' & Ha').
    simpl. destruct (flow_step max ev (w, s)) as [w' s'] eqn:Hf. simpl in *. eauto.
Qed.
End Refinement.

(** ** Order and completeness of the abstract subscriber *)

Section Order.
Context (max l0 : Z).

Record ordered (w : window) (s : flow) : Prop := {
  od_wf : wf_window w;
  od_cursor : l0 <= cursor s <= Window.wlast w;
  od_last : cursor s = default l0 (Sequence <$> last (sent s));
  od_sorted : StronglySorted Z.lt (Sequence <$> sent s);
  od_range m : m ∈ sent s -> l0 < Sequence m <= cursor s;
  od_complete m : m ∈ msgs w -> l0 < Sequence m <= cursor s -> m ∈ sent s;
  od_out k : k ∈ outstanding s -> exists m, m ∈ sent s /\ Sequence m = k
}.

Lemma numbered_sorted f q : MemSpec.numbered f q -> StronglySorted Z.lt (Sequence <$> q).
Proof.
  revert f. induction q as [|m q IH]; intros f Hn; simpl; constructor.
  - apply (IH (f + 1)). intros i x Hx. rewrite (Hn (Datatypes.S i) x Hx). lia.
  - apply Forall_fmap, Forall_lookup. intros i x Hx. simpl.
    rewrite (Hn (Datatypes.S i) x Hx), (Hn 0%nat m eq_refl). lia.
Qed.

Lemma batch_sorted w l k : wf_window w -> StronglySorted Z.lt (Sequence <$> take k (available w l)).
Proof.
  destruct w as [[f q]|]; [|by simpl; rewrite take_nil; constructor]. intros (_ & _ & Hn). simpl.
  apply (numbered_sorted (f + Z.of_nat (Z.to_nat (l + 1 - f)))).
  intros i m Hm. apply lookup_take_Some in Hm as [Hm _]. rewrite lookup_drop in Hm.
  rewrite (Hn _ _ Hm). lia.
Qed.

Lemma sorted_last l m : StronglySorted Z.lt (Sequence <$> l) -> m ∈ l ->
  forall d, Sequence m <= default d (Sequence <$> last l).
Proof.
  intros Hs Hm d. destruct (last l) as [m'|] eqn:Hl.
  - simpl. apply last_Some in Hl as [l' ->]. apply elem_of_app in Hm as [Hm|Hm].
    + rewrite fmap_app in Hs. simpl in Hs.
      apply Z.lt_le_incl. eapply (StronglySorted_app_1_elem_of _ _ [Sequence m']); [exact Hs| |by left].
      by apply list_elem_of_fmap_2.
    + apply list_elem_of_singleton in Hm as ->. done.
  - apply last_None in Hl as ->. by apply elem_of_nil in Hm.
Qed.

Lemma ordered_deliver w s : ordered w s -> ordered w (deliver max w s).
Proof.
  intros []. unfold deliver, batch. set (k := Z.to_nat _). set (n := take k (available w (cursor s))).
  assert (Hin : forall m, m ∈ n -> m ∈ msgs w /\ cursor s < Sequence m).
  { intros m Hm. apply elem_of_take in Hm as (i & Hm & _). apply list_elem_of_lookup_2 in Hm.
    rewrite available_filter in Hm by done. apply list_elem_of_filter in Hm. tauto. }
  pose proof (batch_sorted w (cursor s) k od_wf0) as Hsn. fold n in Hsn.
  pose proof (batch_cursor w (cursor s) k od_wf0 ltac:(lia)) as Hb. fold n in Hb.
  pose proof (available_after w (cursor s) k od_wf0) as Haft. fold n in Haft.
  assert (Hge : cursor s <= default (cursor s) (Sequence <$> last n)).
  { destruct (last n) as [m|] eqn:Hl; simpl; [|lia].
    apply last_Some_elem_of, Hin in Hl. lia. }
  constructor; simpl; try done; try lia.
  - rewrite last_app. destruct (last n); [done|]. by rewrite od_last0.
  - rewrite fmap_app. apply StronglySorted_app_2; try done.
    intros x y (m & -> & Hm)%list_elem_of_fmap (m' & -> & Hm')%list_elem_of_fmap.
    apply od_range0 in Hm. apply Hin in Hm'. lia.
  - intros m [Hm|Hm]%elem_of_app.
    + apply od_range0 in Hm. lia.
    + pose proof (sorted_last n m Hsn Hm (cursor s)). apply Hin in Hm. lia.
  - intros m Hm Hr. apply elem_of_app. destruct (Z.le_gt_cases (Sequence m) (cursor s)).
    + left. apply od_complete0; [done|lia].
    + right. assert (m ∈ available w (cursor s)) as Hav.
      { rewrite available_filter by done. apply list_elem_of_filter. split; [lia|done]. }
      rewrite <- (take_drop k (available w (cursor s))), <- Haft in Hav.
      apply elem_of_app in Hav as [Hav|Hav]; [done|].
      rewrite available_filter in Hav by done. apply list_elem_of_filter in Hav as [Hx _]. fold n in Hx. lia.
  - intros j [Hj|Hj]%elem_of_union.
    + apply od_out0 in Hj as (m & Hm & <-). exists m. split; [|done]. apply elem_of_app. by left.
    + apply elem_of_list_to_set, list_elem_of_fmap in Hj as (m & -> & Hm).
      exists m. split; [|done]. apply elem_of_app. by right.
Qed.

Lemma ordered_extends w w' s : ordered w s -> wf_window w' -> extends w w' -> ordered w' s.
Proof.
  intros [] Hw [Hl He]. constructor; try done; [lia|].
  intros m Hm Hr. apply He in Hm as [Hm|Hm]; [by apply od_complete0|lia].
Qed.

Lemma ordered_ack w seq s : ordered w s -> ordered w (ack max w seq s).
Proof.
  intros Ho. unfold ack. case_bool_decide; [|done]. apply ordered_deliver.
  destruct Ho. constructor; try done. simpl. intros k [Hk _]%elem_of_difference. by apply od_out0.
Qed.

Lemma ordered_run evs : forall w s, ordered w s -> admissible w evs ->
  let t := foldl (fun s ev => flow_step max ev s) (w, s) evs in ordered t.1 t.2.
Proof.
  induction evs as [|[c w'|seq] evs IH]; intros w s Ho Ha; simpl in *; [done| |].
  - destruct Ha as (Hv & _ & He & Ha). apply IH; [|done]. apply ordered_deliver.
    eapply ordered_extends; [done| |done]. by eapply view_wf.
  - apply IH; [|done]. by apply ordered_ack.
Qed.
End Order.

(** ** Theorems *)

(** A plain subscription that was just created, on a channel that holds [w]. *)
Record created (c : S) (w : window) (st : server) (sub : subState) : Prop := {
  ct_view : view c w;
  ct_fresh : fresh_window w;
  ct_sub : subs st !! p = Some sub;
  ct_ok : sub_ok sub;
  ct_plain : qstate sub = None;
  ct_stalled : stalled sub = false;
  ct_none : acksPending sub = ∅;
  ct_last : LastSent sub <= Window.wlast w
}.

Lemma flow_start_inv evs c w st sub :
  healthy e -> created c w st sub -> admissible w evs ->
  let t := flow_start (MaxInFlight sub) evs w (LastSent sub) in
  exists c' st' sub', start evs (c, st) = Ok (c', st') /\
    inv (MaxInFlight sub) (Inbox sub) (published st) t.1 c' st' sub' t.2 /\
    settled (MaxInFlight sub) t.1 sub' /\ ordered (LastSent sub) t.1 t.2.
Proof.
  intros He [] Ha t. unfold start, t, flow_start. simpl.
  assert (Hi : inv (MaxInFlight sub) (Inbox sub) (published st) w c st sub (mkFlow (LastSent sub) [] ∅)).
  { pose proof (so_max _ ct_ok0). constructor; try done; simpl.
    - by rewrite app_nil_r.
    - by rewrite ct_none0, dom_empty_L.
    - unfold psize. rewrite ct_none0, map_size_empty. lia. }
  assert (psize sub < MaxInFlight sub) as Hlt.
  { pose proof (so_max _ ct_ok0). unfold psize. rewrite ct_none0, map_size_empty. lia. }
  destruct (inv_send _ _ _ _ _ _ _ _ He Hi ct_stalled0 Hlt) as (st1 & sub1 & -> & Hi1 & Hs1 & _). simpl.
  destruct (inv_run _ _ _ evs _ _ _ _ _ He Hi1 Hs1 Ha) as (c' & st' & sub' & Hr & Hi' & Hs').
  exists c', st', sub'. split_and!; try done. apply ordered_run; [|done]. apply ordered_deliver.
  constructor; try done; simpl.
  - by eapply view_wf.
  - apply SSorted_nil.
  - by intros m ?%elem_of_nil.
  - intros m Hm. lia.
Qed.

(** [C1] The server implements the abstract subscriber.  A plain subscription is
    created, then messages are stored in the channel and acknowledgements come
    in, in any order and number, also for messages that are not outstanding.  No
    handler panics or runs for ever, what is published to the inbox is what the
    abstract subscriber was sent, and the pending map holds what it has
    outstanding.  Publishing and storage do not fail. *)
Theorem delivery_refines evs c w st sub :
  healthy e -> created c w st sub -> admissible w evs ->
  let t := flow_start (MaxInFlight sub) evs w (LastSent sub) in
  exists c' st' sub', start evs (c, st) = Ok (c', st') /\ subs st' !! p = Some sub' /\
    published st' = published st ++ (pair (Inbox sub) <$> sent t.2) /\
    dom (acksPending sub') = outstanding t.2.
Proof.
  intros He Hc Ha t. destruct (flow_start_inv evs c w st sub He Hc Ha) as (c' & st' & sub' & Hr & [] & _ & _).
  exists c', st', sub'. by split_and!.
Qed.

(** [C19] Delivery is in order, complete and bounded.  In every state that a plain
    subscription reaches by storing messages and acknowledging, the messages
    published to its inbox have strictly increasing sequences after its start
    position; no message of the channel is skipped; whatever the channel holds
    after the start position was published, unless [MaxInFlight] messages are
    outstanding, and more are never outstanding; and only published messages
    are.  Publishing and storage do not fail. *)
Theorem delivery_complete evs c w st sub :
  healthy e -> created c w st sub -> admissible w evs ->
  exists c' w' st' sub' n, start evs (c, st) = Ok (c', st') /\ subs st' !! p = Some sub' /\
    view c' w' /\ published st' = published st ++ (pair (Inbox sub) <$> n) /\
    StronglySorted Z.lt (Sequence <$> n) /\
    (forall m, m ∈ n -> LastSent sub < Sequence m) /\
    (forall m m', m ∈ msgs w' -> m' ∈ n -> LastSent sub < Sequence m <= Sequence m' -> m ∈ n) /\
    psize sub' <= MaxInFlight sub /\
    (forall m, m ∈ msgs w' -> LastSent sub < Sequence m -> m ∈ n \/ psize sub' = MaxInFlight sub) /\
    (forall k, is_Some (acksPending sub' !! k) -> exists m, m ∈ n /\ Sequence m = k).
Proof.
  intros He Hc Ha. destruct (flow_start_inv evs c w st sub He Hc Ha) as (c' & st' & sub' & Hr & [] & Hs & []).
  set (t := flow_start _ _ _ _) in *. exists c', t.1, st', sub', (sent t.2). split_and!; try done.
  - intros m Hm. apply od_range0 in Hm. lia.
  - intros m m' Hm Hm' Hlt. apply od_range0 in Hm'. apply od_complete0; [done|lia].
  - intros m Hm Hlt. destruct (Z.le_gt_cases (Sequence m) (cursor t.2)).
    + left. apply od_complete0; [done|lia].
    + right. unfold settled in Hs. destruct (stalled sub'); [done|]. exfalso. destruct Hs as [_ Hs].
      rewrite iv_cursor0, available_filter in Hs by done.
      apply (not_elem_of_nil m). rewrite <- Hs. apply list_elem_of_filter. split; [lia|done].
  - intros k Hk%elem_of_dom. rewrite iv_pending0 in Hk. by apply od_out0.
Qed.
End System.
End Flow.

(** ** A concrete subscription *)

Module FlowSample.
Import Sub Dlv DlvSpec Flow MemSample.

Definition sample_env : env :=
  mkEnv (fun n => Z.of_nat n) (fun _ => false) (fun _ => false) true (fun _ => ["m"%char]).

Definition sample_sub : subState :=
  mkSub 1 "me" "" "inbox" "ack" 1 30 "" 0 false false "foo" None 30000000000 None ∅ "" None ∅
    true false false false.

Definition sample_server : server := mkServer {[0%nat := sample_sub]} ∅ ∅ ∅ false [] [].

Definition sample_window : option (Z * list MsgProto) := Some (1, [msg 1 5; msg 2 7]).

(** One message at a time: the second one is sent when the first one is
    acknowledged; the last ack is for a message that does not exist. *)
Definition sample_events : list (event (S := Mem.MemoryMsgStore)) :=
  [Stored sample_store sample_window; Acked 1; Acked 7].

Lemma sample_healthy : healthy sample_env.
Proof. by constructor. Defined.

Lemma fresh_sample : fresh_window sample_window.
Proof.
  intros f q m [= <- <-] Hm. repeat (apply elem_of_cons in Hm as [->|Hm]; [done|]).
  by apply elem_of_nil in Hm.
Defined.

Lemma sample_created :
  created (H0 := memory_store_spec data_size) 0%nat (Mem.init two_msgs) None sample_server sample_sub.
Proof.
  constructor; try done.
  constructor; try (vm_compute; done).
  intros k [x Hx]. simpl in Hx. by rewrite lookup_empty in Hx.
Defined.

Lemma sample_flow : admissible (H0 := memory_store_spec data_size) None sample_events.
Proof.
  simpl. split_and!; try done; [exact sample_store_repr|exact fresh_sample|].
  split; [done|]. intros m Hm. right. repeat (apply elem_of_cons in Hm as [->|Hm]; [done|]).
  by apply elem_of_nil in Hm.
Defined.

Lemma delivery_refines_witness :
  exists c' st', start sample_env 0%nat sample_events (Mem.init two_msgs, sample_server) = Ok (c', st') /\
    published st' = [("inbox"%string, msg 1 5); ("inbox"%string, msg 2 7)].
Proof.
  destruct (delivery_refines (H0 := memory_store_spec data_size) sample_env 0%nat sample_events
    (Mem.init two_msgs) None sample_server sample_sub sample_healthy sample_created sample_flow)
    as (c' & st' & sub' & H1 & _ & H2 & _).
  exists c', st'. split; [exact H1|]. rewrite H2. vm_compute. reflexivity.
Defined.

Lemma delivery_complete_witness :
  exists c' st' n, start sample_env 0%nat sample_events (Mem.init two_msgs, sample_server) = Ok (c', st') /\
    published st' = pair "inbox"%string <$> n /\ StronglySorted Z.lt (Sequence <$> n).
Proof.
  destruct (delivery_complete (H0 := memory_store_spec data_size) sample_env 0%nat sample_events
    (Mem.init two_msgs) None sample_server sample_sub sample_healthy sample_created sample_flow)
    as (c' & w' & st' & sub' & n & H1 & _ & _ & H2 & H3 & _).
  exists c', st', n. split; [exact H1|]. split; [exact H2|exact H3].
Defined.
End FlowSample.
