(* ===== verification/Replication.v ===== *)
(** * Replication of what was sent and acknowledged

    Model of the part of [src/server/server.go] by which the leader of a cluster
    replicates, lazily, what it sent to a subscription and what was acknowledged:
    [collectSentOrAck] (in [Delivery.v]) notes it, the replicator sends a batch
    through the log, and the followers apply it.  An entry of the log is the
    protocol structure; its encoding is generated code. *)

From Stdlib Require Import ZArith Lia Ascii String.
From stdpp Require Import base list gmap strings.
From S2P Require Import Prelude GoLib MemStore SubState Delivery.

Local Open Scope Z_scope.

Module Repl.
Import Sub Dlv.

(** [spb.SubSentAndAck] *)
Record SubSentAndAck := mkSentAck {
  s_channel : string;
  s_ackInbox : string;
  s_sent : list Z;
  s_ack : list Z
}.

Section Leader.
Context `{!RangeOrder Z}.

(** The sequences of a set in the order of the iteration, then the highest
    acknowledged one if any; the set is emptied. *)
Definition fillSentOrAckSeqs (r : subSentAndAck) (seqMap : gset Z) : list Z :=
  order seqMap ++ (if 0 <? hiAckSeq r then [hiAckSeq r] else []).

Definition createSubSentAndAckProto (sub : subState) (r : subSentAndAck)
  : SubSentAndAck * subSentAndAck :=
  (mkSentAck (subject sub) (AckInbox sub) (fillSentOrAckSeqs r (r_sent r)) (fillSentOrAckSeqs r (r_ack r)),
   mkSSA ∅ ∅ (hiSentSeq r) (hiAckSeq r) (applying r) (stopped r)).

(** Whether there is anything to replicate. *)
Definition to_replicate (r : subSentAndAck) : bool :=
  (0 <? size (r_sent r) + size (r_ack r))%nat || (0 <? hiAckSeq r).

(** [replicateSubSentAndAck] up to the call of [raft.Apply]: the entry, if any. *)
Definition replicateSubSentAndAck (p : ptr) (st : server) : option SubSentAndAck * server :=
  match subs st !! p with
  | None => (None, st)
  | Some sub =>
      match replicate sub with
      | None => (None, st)
      | Some r =>
          if to_replicate r then
            let '(data, r) := createSubSentAndAckProto sub r in
            (Some data, put_sub p (set_replicate
               (Some (mkSSA (r_sent r) (r_ack r) 0 0 true (stopped r))) sub) st)
          else (None, st)
      end
  end.

(** The rest of it, after the call returns. *)
Definition replicate_applied (p : ptr) (st : server) : server :=
  match subs st !! p with
  | None => st
  | Some sub =>
      match replicate sub with
      | None => st
      | Some r => put_sub p (set_replicate (Some (set_applying false r)) sub) st
      end
  end.

Definition clearSentAndAck (p : ptr) (st : server) : server :=
  let st := set_repl (waiting st ∖ {[p]}) (ready st ∖ {[p]}) (notified st) st in
  match subs st !! p with
  | None => st
  | Some sub =>
      match replicate sub with
      | None => st
      | Some r => put_sub p (set_replicate (Some (mkSSA ∅ ∅ 0 0 (applying r) true)) sub) st
      end
  end.

(** [endSubSentAndAckReplication] under the lock: the last entry to send, if
    any, and whether to wait first for the one that is being sent. *)
Definition endSubSentAndAckReplication (p : ptr) (unsub : bool) (st : server)
  : (option SubSentAndAck * bool) * server :=
  match subs st !! p with
  | None => ((None, false), st)
  | Some sub =>
      match replicate sub with
      | None => ((None, false), st)
      | Some r =>
          if stopped r then ((None, false), st)
          else
            let send := negb unsub && (IsDurable sub || bool_decide (is_Some (qstate sub)))
                        && to_replicate r in
            let data := if send then Some (createSubSentAndAckProto sub r).1 else None in
            ((data, applying r), clearSentAndAck p st)
      end
  end.

(** ** The replicator *)

(** The ticker: the waiting ones become ready; flush if there were any and nobody
    asked for it. *)
Definition tick (st : server) : bool * server :=
  let added := negb (bool_decide (waiting st = ∅)) in
  (added && negb (notified st), set_repl ∅ (ready st ∪ waiting st) (notified st) st).

(** One round of [flush]. *)
Definition flush_one (p : ptr) (st : server) : option SubSentAndAck * server :=
  replicateSubSentAndAck p (set_repl (waiting st) (ready st ∖ {[p]}) (notified st) st).

(** The notification is consumed. *)
Definition notify (st : server) : server := set_repl (waiting st) (ready st) false st.
End Leader.

(** ** Changes of leadership *)

Definition subChangesOnLeadershipAcquired (sub : subState) : subState :=
  match replicate sub with
  | None => sub
  | Some r => set_replicate (Some (set_stopped false r)) sub
  end.

Definition subChangesOnLeadershipLost (p : ptr) (st : server) : server :=
  match subs st !! p with
  | None => st
  | Some sub => clearSentAndAck p (put_sub p (clearAckTimer (set_rdlvCount ∅ sub)) st)
  end.

(** ** Followers *)

(** One sequence of [ssa.Sent]. *)
Definition apply_sent (p : ptr) (st : server) (sequence : Z) : server :=
  match subs st !! p with
  | None => st
  | Some sub =>
      let sub := if LastSent sub <? sequence then set_LastSent sequence sub else sub in
      let st := match qstate sub with
                | None => st
                | Some q =>
                    match queues st !! q with
                    | None => st
                    | Some qs => if lastSent qs <? sequence
                                 then put_queue q (set_lastSent sequence qs) st else st
                    end
                end in
      put_sub p (set_acksPending (<[sequence := 0]> (acksPending sub)) sub) st
  end.

(** [processReplicatedSendAndAck] on the subscription found by its ack inbox. *)
Definition processReplicatedSendAndAck (o : option ptr) (ssa : SubSentAndAck) (st : server) : server :=
  match o with
  | None => st
  | Some p =>
      let st := foldl (apply_sent p) st (s_sent ssa) in
      let st := foldl (fun st seq => delete_pending p seq st) st (s_ack ssa) in
      match subs st !! p with
      | None => st
      | Some sub =>
          put_sub p (set_stalled (MaxInFlight sub <=? Z.of_nat (size (acksPending sub))) sub) st
      end
  end.
End Repl.
