(* ===== verification/ReplicationSpec.v ===== *)
(** * Followers agree with the leader

    What the leader has noted and not yet replicated, together with what is in
    the log, always gives the follower the pending messages and the position of
    the leader; and a subscription with something to replicate is always known
    to the replicator. *)

From Stdlib Require Import ZArith Lia Ascii String Sorted.
From stdpp Require Import base list gmap strings sorting.
From S2P Require Import Prelude GoLib MemStore MsgStore SubState Delivery DeliverySpec DeliverySys Replication.

Local Open Scope Z_scope.

Module ReplSpec.
Import Sub Dlv DlvSpec Flow Repl.

(** ** A follower's view of an entry *)

(** The pending sequences and the last one sent, after an entry. *)
Definition absorb (x : gset Z * Z) (d : SubSentAndAck) : gset Z * Z :=
  ((x.1 ∪ list_to_set (s_sent d)) ∖ list_to_set (s_ack d), foldl Z.max x.2 (s_sent d)).

Definition position (sub : subState) : gset Z * Z := (dom (acksPending sub), LastSent sub).

Lemma apply_sent_all p l : forall st sub, subs st !! p = Some sub ->
  exists sub', subs (foldl (apply_sent p) st l) !! p = Some sub' /\
    position sub' = (dom (acksPending sub) ∪ list_to_set l, foldl Z.max (LastSent sub) l) /\
    MaxInFlight sub' = MaxInFlight sub.
Proof.
  induction l as [|q l IH]; intros st sub Hp; simpl.
  - exists sub. split_and!; try done. unfold position. f_equal. set_solver +.
  - set (sub1 := set_acksPending (<[q := 0]> (acksPending sub)) (set_LastSent (Z.max (LastSent sub) q) sub)).
    assert (H1 : subs (apply_sent p st q) !! p = Some sub1).
    { unfold apply_sent. rewrite Hp. simpl. rewrite lookup_insert_eq. f_equal. subst sub1.
      destruct (Z.ltb_spec (LastSent sub) q); destruct sub; unfold set_acksPending, set_LastSent; simpl in *;
        f_equal; lia. }
    destruct (IH _ _ H1) as (sub' & Hs & Hpos & Hm). exists sub'. split_and!; try done.
    rewrite Hpos. simpl. f_equal. rewrite dom_insert_L. set_solver +.
Qed.

Lemma delete_pending_all p l : forall st sub, subs st !! p = Some sub ->
  exists sub', subs (foldl (fun st seq => delete_pending p seq st) st l) !! p = Some sub' /\
    position sub' = (dom (acksPending sub) ∖ list_to_set l, LastSent sub) /\
    MaxInFlight sub' = MaxInFlight sub.
Proof.
  induction l as [|q l IH]; intros st sub Hp; simpl.
  - exists sub. split_and!; try done. unfold position. f_equal. set_solver +.
  - unfold delete_pending at 2. rewrite Hp.
    destruct (IH (put_sub p (set_acksPending (delete q (acksPending sub)) sub) st)
      (set_acksPending (delete q (acksPending sub)) sub)) as (sub' & Hs & Hpos & Hm).
    { apply lookup_insert_eq. }
    exists sub'. split_and!; try done. rewrite Hpos. simpl. f_equal. rewrite dom_delete_L. set_solver +.
Qed.

(** A follower applies an entry; the stalled flag is recomputed. *)
Lemma follower_absorbs p d st sub :
  subs st !! p = Some sub ->
  exists sub', subs (processReplicatedSendAndAck (Some p) d st) !! p = Some sub' /\
    position sub' = absorb (position sub) d /\ MaxInFlight sub' = MaxInFlight sub /\
    stalled sub' = (MaxInFlight sub <=? psize sub').
Proof.
  intros Hp. unfold processReplicatedSendAndAck.
  destruct (apply_sent_all p (s_sent d) st sub Hp) as (sub1 & H1 & E1 & M1).
  destruct (delete_pending_all p (s_ack d) _ sub1 H1) as (sub2 & H2 & E2 & M2).
  rewrite H2. eexists. split; [apply lookup_insert_eq|]. simpl. unfold psize. rewrite M2, M1.
  split_and!; try done. unfold position in *. simpl. rewrite E2. unfold absorb. simpl.
  by injection E1 as -> ->.
Qed.

(** ** What the leader has noted *)

(** The follower will be at [x]; the leader has [P] pending and last sent [H]. *)
Record noting (x : gset Z * Z) (P : gset Z) (H : Z) (r : subSentAndAck) : Prop := {
  nt_pending : P = (x.1 ∪ r_sent r) ∖ r_ack r;
  nt_sent : r_sent r ## x.1;
  nt_ack : r_ack r ⊆ x.1;
  nt_bound k : k ∈ x.1 ∪ r_sent r -> k <= H;
  nt_hi : (hiSentSeq r = 0 /\ r_sent r = ∅ /\ hiAckSeq r = 0 /\ x.2 = H) \/
          (hiSentSeq r = H /\ 0 < H /\ x.2 <= H /\
           (H ∈ r_sent r /\ hiAckSeq r = 0 \/ H ∉ x.1 ∪ r_sent r /\ hiAckSeq r = H))
}.

Lemma noting_sent x P H r q :
  noting x P H r -> 0 <= H -> H < q -> noting x (P ∪ {[q]}) q (collect false true q r).
Proof.
  intros [-> Hs Ha Hb Hh] H0 Hq. assert (Hhi : hiSentSeq r <= q).
  { destruct Hh as [(? & _)|(? & _)]; lia. }
  assert (Hqx : q ∉ x.1 ∪ r_sent r) by (intros ?%Hb; lia).
  unfold collect. apply Z.leb_le in Hhi. rewrite Hhi. constructor; simpl.
  - set_solver +Ha Hqx.
  - set_solver +Hs Hqx.
  - done.
  - intros k. rewrite (assoc_L (∪)), (comm_L (∪) x.1), <- (assoc_L (∪)).
    intros [->%elem_of_singleton|Hk]%elem_of_union; [done|]. apply Hb in Hk. lia.
  - right. split_and!; [done|lia| |left; set_solver +].
    destruct Hh as [(_ & _ & _ & ?)|(_ & _ & ? & _)]; lia.
Qed.

Lemma noting_acked x P H r q :
  noting x P H r -> q ∈ P -> noting x (P ∖ {[q]}) H (collect false false q r).
Proof.
  intros [-> Hs Ha Hb Hh] Hq. unfold collect. case_bool_decide as Hin.
  - constructor; simpl; [set_solver +Hs Hin|set_solver +Hs|done| |].
    { intros k Hk. apply Hb. set_solver +Hk. }
    destruct Hh as [(_ & Hnil & _)|(Hhi & H0 & Hx & Hc)]; [set_solver +Hnil Hin|].
    right. split_and!; try done. rewrite Hhi. destruct (Z.eqb_spec q H) as [->|Hne].
    + right. split; [set_solver +Hs Hin|done].
    + destruct Hc as [[Hc ?]|[Hc ?]]; [left|right]; (split; [set_solver +Hc Hne|done]).
  - constructor; simpl; try done; [set_solver +|set_solver +Hq Hin Ha].
Qed.

Lemma foldl_max H (l : list Z) : forall a, a <= H -> (forall k, k ∈ l -> k <= H) ->
  a = H \/ H ∈ l -> foldl Z.max a l = H.
Proof.
  induction l as [|k l IH]; intros a Ha Hl Hin; simpl.
  - destruct Hin as [?|?%elem_of_nil]; done.
  - pose proof (Hl k ltac:(by left)). apply IH; [lia|intros; apply Hl; by right|].
    destruct Hin as [->|[->|Hin]%elem_of_cons]; [left; lia|left; lia|by right].
Qed.

Section Flush.
Context `{!RangeOrder Z}.

Lemma elem_of_fill r X k :
  k ∈ fillSentOrAckSeqs r X <-> k ∈ X \/ (0 < hiAckSeq r /\ k = hiAckSeq r).
Proof.
  unfold fillSentOrAckSeqs. rewrite elem_of_app, elem_of_order.
  destruct (Z.ltb_spec 0 (hiAckSeq r)); [rewrite list_elem_of_singleton|rewrite elem_of_nil]; intuition lia.
Qed.

(** The batch brings the follower to where the leader is. *)
Lemma noting_flush x P H r sub :
  noting x P H r -> absorb x (createSubSentAndAckProto sub r).1 = (P, H).
Proof.
  intros [-> Hs Ha Hb Hh]. unfold absorb. simpl. f_equal.
  - apply set_eq. intros k. rewrite !elem_of_difference, !elem_of_union, !elem_of_list_to_set, !elem_of_fill.
    destruct (decide (0 < hiAckSeq r /\ k = hiAckSeq r)) as [[Hp ->]|Hk]; [|tauto].
    destruct Hh as [(_ & _ & ? & _)|(_ & _ & _ & [[_ ?]|[Hn Heq]])]; [lia|lia|].
    rewrite Heq, elem_of_union in *. tauto.
  - apply foldl_max.
    + destruct Hh as [(_ & _ & _ & ?)|(_ & _ & ? & _)]; lia.
    + intros k [Hk|[Hp ->]]%elem_of_fill; [apply Hb; set_solver +Hk|].
      destruct Hh as [(_ & _ & ? & _)|(_ & _ & _ & [[_ ?]|[_ ?]])]; lia.
    + destruct Hh as [(_ & _ & _ & ?)|(_ & H0 & _ & [[Hin _]|[_ Heq]])]; [by left|right|right]; apply elem_of_fill.
      * by left.
      * right. lia.
Qed.

Lemma noting_quiet x P H r : noting x P H r -> to_replicate r = false -> x = (P, H).
Proof.
  intros [-> Hs Ha Hb Hh] Hq. apply orb_false_iff in Hq as [Hq1 Hq2].
  apply Nat.ltb_ge in Hq1. apply Z.ltb_ge in Hq2.
  assert (E1 : r_sent r = ∅) by (apply leibniz_equiv, size_empty_iff; lia).
  assert (E2 : r_ack r = ∅) by (apply leibniz_equiv, size_empty_iff; lia).
  destruct Hh as [(_ & _ & _ & <-)|(_ & H0 & _ & [[Hin _]|[_ Heq]])]; [|set_solver +Hin E1|lia].
  rewrite E1, E2. destruct x as [F l]. simpl. f_equal. set_solver +.
Qed.

Lemma noting_fresh P H b c : (forall k, k ∈ P -> k <= H) -> noting (P, H) P H (mkSSA ∅ ∅ 0 0 b c).
Proof.
  intros Hb. constructor; simpl; [set_solver +|set_solver +|set_solver +| |by left].
  intros k. rewrite union_empty_r_L. apply Hb.
Qed.
End Flush.

(** ** The replicator knows *)

(** A subscription with something to replicate is in one of the sets of the
    replicator, and an idle replicator was notified of those that are ready. *)
Definition busy (o : option subSentAndAck) : Prop :=
  exists r, o = Some r /\ ((0 < size (r_sent r) + size (r_ack r))%nat \/ hiSentSeq r <> 0).

Definition scheduled (p : ptr) (idle : bool) (st : server) : Prop :=
  (forall sub, subs st !! p = Some sub -> busy (replicate sub) -> p ∈ waiting st ∪ ready st) /\
  (idle = true -> p ∈ ready st -> notified st = true).

Lemma scheduled_same p idle st st' :
  (forall sub', subs st' !! p = Some sub' ->
     exists sub, subs st !! p = Some sub /\ replicate sub' = replicate sub) ->
  waiting st' = waiting st -> ready st' = ready st -> notified st' = notified st ->
  scheduled p idle st -> scheduled p idle st'.
Proof.
  intros Hs Hw Hr Hn [H1 H2]. split; rewrite ?Hw, ?Hr, ?Hn; [|done].
  intros sub' Hsub' Hb. destruct (Hs sub' Hsub') as (sub & Hsub & Heq). apply (H1 sub); [done|].
  by rewrite <- Heq.
Qed.

Lemma scheduled_put p idle st sub sub' :
  subs st !! p = Some sub -> replicate sub' = replicate sub ->
  scheduled p idle st -> scheduled p idle (put_sub p sub' st).
Proof.
  intros Hp Hr. apply scheduled_same; try done. simpl. rewrite lookup_insert_eq.
  intros s [= <-]. by exists sub.
Qed.

(** At most one more sequence is collected. *)
Lemma collect_size is_queue sent seq r :
  let r' := collect is_queue sent seq r in
  (size (r_sent r') + size (r_ack r') <= 1 + (size (r_sent r) + size (r_ack r)))%nat /\
  (if sent then (0 < size (r_sent r'))%nat else hiSentSeq r' = hiSentSeq r).
Proof.
  assert (Hadd : forall X : gset Z, (size ({[seq]} ∪ X) <= 1 + size X)%nat).
  { intros X. rewrite size_union_alt, size_singleton.
    pose proof (subseteq_size (X ∖ {[seq]}) X ltac:(set_solver +)). lia. }
  assert (Hdel : forall X : gset Z, (size (X ∖ {[seq]}) <= size X)%nat).
  { intros X. apply subseteq_size. set_solver +. }
  pose proof (Hadd (r_sent r)). pose proof (Hadd (r_ack r)).
  pose proof (Hdel (r_sent r)). pose proof (Hdel (r_ack r)).
  unfold collect. destruct sent; simpl; [|case_bool_decide; simpl; split; done || lia].
  split; [destruct is_queue; lia|]. rewrite size_union_alt, size_singleton. lia.
Qed.

Lemma collect_scheduled e p idle sent seq st :
  scheduled p idle st ->
  scheduled p idle (if isClustered e then collectSentOrAck p sent seq st else st).
Proof.
  destruct (isClustered e); [|done]. unfold collectSentOrAck.
  destruct (subs st !! p) as [sub|] eqn:Hp; [|done]. destruct (stopped _); [done|].
  set (r := default new_ssa (replicate sub)). set (r' := collect _ sent seq r). intros [H1 H2].
  destruct (collect_size (bool_decide (is_Some (qstate sub))) sent seq r) as [Hsz Hhi]. fold r' in Hsz, Hhi.
  destruct (Nat.eqb_spec (size (r_sent r') + size (r_ack r')) 1);
    [|destruct (Nat.eqb_spec (size (r_sent r') + size (r_ack r')) maxSentOrAckSequences)];
    split; simpl; try done; try (intros _ _ _; set_solver +).
  rewrite lookup_insert_eq. intros s [= <-] (r0 & [= <-] & Hb). simpl in *.
  apply (H1 sub Hp). assert (Hr : busy (replicate sub) \/ r = new_ssa).
  { unfold busy. subst r. destruct (replicate sub) as [r0|]; [left|by right]. exists r0. split; [done|].
    simpl in *. destruct sent; [lia|]. rewrite Hhi in Hb. lia. }
  destruct Hr as [Hr|Hr]; [done|]. exfalso.
  assert (size (r_sent r) + size (r_ack r) = 0)%nat by by rewrite Hr.
  destruct sent; [lia|]. rewrite Hr in Hhi. rewrite Hhi in Hb. simpl in Hb. lia.
Qed.


(** The handlers keep it, for a plain subscription. *)
Definition known (p : ptr) (idle : bool) (st : server) : Prop :=
  scheduled p idle st /\ exists sub, subs st !! p = Some sub /\ qstate sub = None.

Lemma known_put p idle st sub sub' :
  subs st !! p = Some sub -> replicate sub' = replicate sub -> qstate sub' = qstate sub ->
  known p idle st -> known p idle (put_sub p sub' st).
Proof.
  intros Hp Hr Hq [Hs (s & Hs' & Hn)]. split; [by apply (scheduled_put p idle st sub)|].
  exists sub'. simpl. rewrite lookup_insert_eq. split; [done|congruence].
Qed.

Lemma known_same p idle st st' :
  subs st' = subs st -> waiting st' = waiting st -> ready st' = ready st -> notified st' = notified st ->
  known p idle st -> known p idle st'.
Proof.
  intros Hs Hw Hr Hn [Hk Hp]. split; [|by rewrite Hs].
  apply (scheduled_same p idle st); try done. rewrite Hs. intros s Hs'. by exists s.
Qed.

Lemma known_collect e p idle sent seq st :
  known p idle st -> known p idle (if isClustered e then collectSentOrAck p sent seq st else st).
Proof.
  intros [Hs (sub & Hp & Hq)]. split; [by apply collect_scheduled|].
  destruct (collect_frame e p sent seq st sub Hp) as (_ & _ & _ & ->).
  eexists. split; [apply lookup_insert_eq|done].
Qed.

Lemma record_sent_known e p idle m force ap st :
  known p idle st -> known p idle (record_sent e p m force ap st).2.
Proof.
  intros Hs. unfold record_sent. destruct (subs st !! p) as [sub|] eqn:Hp; [|done].
  set (sub1 := match ackTimer sub with None => _ | Some _ => _ end).
  assert (Hr : replicate sub1 = replicate sub /\ qstate sub1 = qstate sub) by (subst sub1; by destruct (ackTimer sub)).
  apply (known_put p idle st sub sub1 Hp (proj1 Hr) (proj2 Hr)) in Hs as Hs1. set (st1 := put_sub p sub1 st) in *.
  destruct (acksPending sub1 !! Sequence m).
  - simpl. by apply (known_put p idle st1 sub1); [apply lookup_insert_eq|..].
  - pose proof (known_collect e p idle true (Sequence m) st1 Hs1) as Hs2.
    set (st2 := if isClustered e then _ else _) in *. destruct (persist_fails e _); [done|].
    set (st3 := persist _ st2). assert (Hs3 : known p idle st3) by (by apply (known_same p idle st2)).
    destruct (subs st3 !! p) as [sub3|] eqn:Hp3; [|done].
    destruct (negb force && _); simpl; apply (known_put p idle st3 sub3); try done;
      simpl; by destruct (_ <? _).
Qed.

Lemma sendMsgToSub_known e p idle m force st x st' :
  sendMsgToSub e p m force st = Ok (x, st') -> known p idle st -> known p idle st'.
Proof.
  unfold sendMsgToSub. intros Heq Hs. pose proof Hs as (_ & sub & Hp & Hq). rewrite Hp in Heq.
  destruct (negb (initialized sub) || _ || _); [by injection Heq as _ <-|].
  destruct (negb force && _); [injection Heq as _ <-; by eapply known_put|].
  destruct (if Redelivered m then _ else _) as [m' st1] eqn:H1.
  assert (Hs1 : known p idle st1).
  { destruct (Redelivered m); [|by injection H1 as _ <-]. unfold updateRedeliveryCount in H1.
    rewrite Hq in H1. injection H1 as _ <-. by eapply known_put. }
  destruct (marshal e m'); [done|]. destruct (publish_fails e _); [by injection Heq as _ <-|].
  destruct (record_sent _ _ _ _ _ _) as [y st2] eqn:Hr. injection Heq as _ <-.
  change st2 with (y, st2).2. rewrite <- Hr. apply record_sent_known. by apply (known_same p idle st1).
Qed.

Section Handlers.
Context {S : Type} `{MsgStore S}.

Lemma send_loop_known fuel : forall e (c : S) p idle nextSeq st st',
  send_loop fuel e c p nextSeq st = Ok st' -> known p idle st -> known p idle st'.
Proof.
  induction fuel as [|fuel IH]; intros e c p idle nextSeq st st' Heq Hs; [done|]. simpl in Heq.
  destruct (subs st !! p) as [sub|] eqn:Hp; [|done]. destruct (stalled sub); [by injection Heq as <-|].
  destruct (getNextMsg c nextSeq (LastSent sub)) as [[[o n] l]|?|]; [|done|done]. simpl in Heq.
  apply (known_put p idle st sub (set_LastSent l sub)) in Hs; try done.
  destruct o as [m|]; [|by injection Heq as <-].
  destruct (sendMsgToSub e p m false _) as [[[b1 b2] st1]|[]|] eqn:Hm; [|done]. simpl in Heq.
  apply (sendMsgToSub_known _ _ idle) in Hm; [|done].
  destruct (negb b1 || negb b2); [by injection Heq as <-|]. by eapply IH.
Qed.

Lemma sendAvailable_known e (c : S) p idle st st' :
  sendAvailableMessages e c p st = Ok st' -> known p idle st -> known p idle st'.
Proof.
  unfold sendAvailableMessages. destruct (subs st !! p); [|done]. apply send_loop_known.
Qed.

Lemma processAck_known e (c : S) p idle seq st st' :
  processAck e c p seq true st = Ok st' -> known p idle st -> known p idle st'.
Proof.
  unfold processAck. intros Heq Hs. pose proof Hs as (_ & sub & Hp & Hq). rewrite Hp in Heq.
  unfold remove_acked in Heq. rewrite Hq in Heq.
  assert (Hun : forall st1, known p idle st1 ->
    (let '(more, st) := unstall p st1 in if negb more then Ok st else sendAvailableMessages e c p st) = Ok st' ->
    known p idle st').
  { intros st1 Hs1 H1. unfold unstall in H1. pose proof Hs1 as (_ & sub1 & Hp1 & Hq1). rewrite Hp1, Hq1 in H1.
    destruct (stalled sub1 && _); simpl in H1; [|by injection H1 as <-].
    eapply sendAvailable_known; [done|]. by eapply known_put. }
  destruct (acksPending sub !! seq); [|by eapply Hun].
  pose proof (known_collect e p idle false seq st Hs) as Hs1. set (st1 := if isClustered e then _ else _) in *.
  unfold persistAck in Heq. destruct (persist_fails e _); [by injection Heq as <-|].
  simpl in Heq. eapply Hun; [|exact Heq]. unfold delete_pending.
  set (st2 := persist _ st1). assert (Hs2 : known p idle st2) by (by apply (known_same p idle st1)).
  pose proof Hs2 as (_ & sub2 & Hp2 & Hq2). rewrite Hp2. simpl. rewrite lookup_insert_eq.
  apply (known_put _ _ _ (set_acksPending (delete seq (acksPending sub2)) sub2)); try done.
  - apply lookup_insert_eq.
  - by eapply known_put.
Qed.
End Handlers.
End ReplSpec.
