(* ===== verification/ReplicationSys.v ===== *)
(** * A leader, its replicator and a follower

    A plain subscription on a leader, the go-routine that replicates what was sent
    and acknowledged, the log, and a follower that applies it: any interleaving of
    messages, acknowledgements, rounds of the replicator and applied entries. *)

From Stdlib Require Import ZArith Lia Ascii String Sorted.
From stdpp Require Import base list gmap strings sorting.
From S2P Require Import Prelude GoLib MemStore MsgStore SubState Delivery DeliverySpec DeliverySys Replication ReplicationSpec.

Local Open Scope Z_scope.

Module ReplSys.
Import Sub Dlv DlvSpec Flow Repl ReplSpec.

(** What the replicator is doing: waiting, within [flush], or within the call of
    [raft.Apply]. *)
Inductive mode := Idle | Flushing | Applying (d : SubSentAndAck).

Definition inflight (md : mode) : list SubSentAndAck := match md with Applying d => [d] | _ => [] end.
Definition is_idle (md : mode) : bool := match md with Idle => true | _ => false end.

Section Replicated.
Context {S : Type} `{MsgStoreSpec S} `{!RangeOrder Z}.
Context (e : env) (p q : ptr).

(** [rlog] is committed and not applied by the follower yet. *)
Record rsys := mkR {
  store : S;
  leader : server;
  rmode : mode;
  rlog : list SubSentAndAck;
  follower : server
}.

Inductive revent :=
| Client (ev : event (S := S))
| Tick | Notify | Begin | Commit | EndFlush | Follow.

(** An event that is not possible in a state leaves it unchanged.  A [Range] over a
    [sync.Map] may miss a key stored meanwhile: a flush may end with the
    subscription in [ready], but then a notification is pending. *)
Definition rstep (ev : revent) (s : rsys) : outcome Mem.fuel_error rsys :=
  match ev, rmode s with
  | Client ev, md =>
      r ← step e p ev (store s, leader s);
      Ok (mkR r.1 r.2 md (rlog s) (follower s))
  | Tick, Idle =>
      let '(b, st) := tick (leader s) in
      Ok (mkR (store s) st (if b then Flushing else Idle) (rlog s) (follower s))
  | Notify, Idle =>
      if notified (leader s) then Ok (mkR (store s) (notify (leader s)) Flushing (rlog s) (follower s))
      else Ok s
  | Begin, Flushing =>
      if bool_decide (p ∈ ready (leader s)) then
        let '(o, st) := flush_one p (leader s) in
        Ok (mkR (store s) st (match o with Some d => Applying d | None => Flushing end)
              (rlog s) (follower s))
      else Ok s
  | Commit, Applying d =>
      Ok (mkR (store s) (replicate_applied p (leader s)) Flushing (rlog s ++ [d]) (follower s))
  | EndFlush, Flushing =>
      if negb (bool_decide (p ∈ ready (leader s))) || notified (leader s)
      then Ok (mkR (store s) (leader s) Idle (rlog s) (follower s)) else Ok s
  | Follow, md =>
      match rlog s with
      | [] => Ok s
      | d :: l => Ok (mkR (store s) (leader s) md l
                        (processReplicatedSendAndAck (Some q) d (follower s)))
      end
  | _, _ => Ok s
  end.

Fixpoint rrun (evs : list revent) (s : rsys) : outcome Mem.fuel_error rsys :=
  match evs with
  | [] => Ok s
  | ev :: evs' => s ← rstep ev s; rrun evs' s
  end.

Definition rstart (evs : list revent) (s : rsys) : outcome Mem.fuel_error rsys :=
  st ← sendAvailableMessages e (store s) p (leader s);
  rrun evs (mkR (store s) st (rmode s) (rlog s) (follower s)).

Definition clients (evs : list revent) : list (event (S := S)) :=
  omap (fun ev => match ev with Client ev => Some ev | _ => None end) evs.

(** Rounds of the replicator that leave nothing behind, then [n] entries. *)
Definition drain (n : nat) : list revent :=
  [Commit; Begin; Commit; EndFlush; Notify; Begin; Commit; EndFlush; Tick; Begin; Commit]
  ++ repeat Follow n.

(** ** The invariant *)

Section Invariant.
Hypothesis Hclustered : isClustered e = true.
Hypothesis Hhealthy : healthy e.
Context (max : Z) (inbox : string) (pub0 : list (string * MsgProto)) (l0 : Z).
Hypothesis Hl0 : 0 <= l0.

Definition note (sub : subState) : subSentAndAck := default new_ssa (replicate sub).

Record rinv (w : window) (s : rsys) (sub subf : subState) (fl : flow) : Prop := {
  ri_inv : inv p max inbox pub0 w (store s) (leader s) sub fl;
  ri_settled : settled max w sub;
  ri_ordered : ordered l0 w fl;
  ri_known : known p (is_idle (rmode s)) (leader s);
  ri_follower : subs (follower s) !! q = Some subf;
  ri_fmax : MaxInFlight subf = max;
  ri_fstalled : stalled subf = (max <=? psize subf);
  ri_note : noting (foldl absorb (position subf) (rlog s ++ inflight (rmode s)))
              (outstanding fl) (cursor fl) (note sub);
  ri_running : stopped (note sub) = false
}.

Lemma noted_collect is_queue sent seq o :
  stopped (default new_ssa o) = false ->
  default new_ssa (noted e is_queue sent seq o) = collect is_queue sent seq (default new_ssa o) /\
  stopped (default new_ssa (noted e is_queue sent seq o)) = false.
Proof.
  intros Hs. unfold noted. rewrite Hclustered, Hs. simpl. split; [done|]. unfold collect.
  destruct sent; [done|]. by case_bool_decide.
Qed.

Lemma noting_batch x n : forall P h o,
  noting x P h (default new_ssa o) -> stopped (default new_ssa o) = false -> 0 <= h ->
  StronglySorted Z.lt (Sequence <$> n) -> (forall m, m ∈ n -> h < Sequence m) ->
  noting x (P ∪ list_to_set (Sequence <$> n)) (default h (Sequence <$> last n))
    (default new_ssa (noted_batch e n o)) /\
  stopped (default new_ssa (noted_batch e n o)) = false.
Proof.
  induction n as [|m n IH]; intros P h o Hn Hs Hh Hsort Hlt; simpl.
  - split; [|done]. by rewrite union_empty_r_L.
  - apply StronglySorted_inv in Hsort as [Hsort Hall].
    destruct (noted_collect false true (Sequence m) o Hs) as [Hc Hs'].
    pose proof (Hlt m ltac:(by left)) as Hm.
    pose proof (noting_sent x P h _ (Sequence m) Hn Hh Hm) as Hn'. rewrite <- Hc in Hn'.
    destruct (IH _ _ _ Hn' Hs' ltac:(lia) Hsort) as [Hr1 Hr2].
    { intros m' Hm'. rewrite Forall_forall in Hall. apply Hall. by apply list_elem_of_fmap_2. }
    split; [|done]. rewrite (assoc_L (∪)). rewrite last_cons.
    by destruct (last n).
Qed.

Lemma batch_after w fl m : wf_window w -> m ∈ batch max w fl -> cursor fl < Sequence m.
Proof.
  intros Hw Hm. unfold batch in Hm. apply elem_of_take in Hm as (i & Hm & _).
  apply list_elem_of_lookup_2 in Hm. rewrite available_filter in Hm by done.
  apply list_elem_of_filter in Hm. tauto.
Qed.

(** Delivering a batch. *)
Lemma noting_deliver w fl x o :
  wf_window w -> l0 <= cursor fl -> noting x (outstanding fl) (cursor fl) (default new_ssa o) ->
  stopped (default new_ssa o) = false ->
  let o' := noted_batch e (batch max w fl) o in
  noting x (outstanding (deliver max w fl)) (cursor (deliver max w fl)) (default new_ssa o') /\
  stopped (default new_ssa o') = false.
Proof.
  intros Hw Hc Hn Hs. apply noting_batch; try done; [lia|by apply batch_sorted|].
  intros m. by apply batch_after.
Qed.

Lemma rinv_client w s sub subf fl ev evs :
  rinv w s sub subf fl -> admissible w (ev :: evs) ->
  exists s' sub', rstep (Client ev) s = Ok s' /\
    rinv (flow_step max ev (w, fl)).1 s' sub' subf (flow_step max ev (w, fl)).2 /\
    admissible (flow_step max ev (w, fl)).1 evs.
Proof.
  intros [] Ha. unfold rstep, step. destruct ev as [c' w'|seq]; simpl in Ha.
  - destruct Ha as (Hv & Hf & Hext & Ha). simpl.
    destruct (inv_stored e p max inbox pub0 w (store s) (leader s) sub fl c' w')
      as (st' & sub' & Heq & Hi & Hset & Hr); try done.
    pose proof (view_wf _ _ Hv) as Hwf. pose proof (od_cursor _ _ _ ri_ordered0) as Hcur.
    destruct (noting_deliver w' fl _ (replicate sub) Hwf (proj1 Hcur) ri_note0 ri_running0) as [Hn Hs].
    rewrite <- Hr in Hn, Hs. unfold processMsg. simpl. rewrite Heq. simpl.
    eexists _, sub'. split; [done|]. split; [|done]. constructor; simpl; try done.
    + apply ordered_deliver. by eapply ordered_extends.
    + by eapply sendAvailable_known.
  - simpl. destruct (inv_ack e p max inbox pub0 w (store s) (leader s) sub fl seq)
      as (st' & sub' & Heq & Hi & Hset & Hr); try done. rewrite Heq. simpl.
    pose proof (od_wf _ _ _ ri_ordered0) as Hwf. pose proof (od_cursor _ _ _ ri_ordered0) as Hcur.
    eexists _, sub'. split; [done|]. split; [|done].
    assert (noting (foldl absorb (position subf) (rlog s ++ inflight (rmode s)))
      (outstanding (ack max w seq fl)) (cursor (ack max w seq fl)) (note sub') /\
      stopped (note sub') = false) as [Hn Hs].
    { unfold note, ack. rewrite Hr. case_bool_decide as Hin; [|done].
      destruct (noted_collect false false seq (replicate sub) ri_running0) as [Hc Hs].
      pose proof (noting_acked _ _ _ _ _ ri_note0 Hin) as Hn. unfold note in Hn. rewrite <- Hc in Hn.
      by apply (noting_deliver w (forget seq fl)); [|apply Hcur|..]. }
    constructor; simpl; try done.
    + by apply ordered_ack.
    + by eapply processAck_known.
Qed.

(** ** The steps of the replicator *)

Lemma inv_replicate w c st sub fl o st' :
  inv p max inbox pub0 w c st sub fl ->
  subs st' = <[p := set_replicate o sub]> (subs st) -> published st' = published st ->
  inv p max inbox pub0 w c st' (set_replicate o sub) fl.
Proof.
  intros [] Hs Hp. constructor; try done.
  - by rewrite Hs, lookup_insert_eq.
  - destruct iv_ok0 as [[] ? ? ? ?]. by constructor.
  - by rewrite Hp.
Qed.

(** The leader's part of the state changes, the subscription only in what it noted. *)
Lemma rinv_leader w s sub subf fl o st' md l :
  rinv w s sub subf fl ->
  subs st' = <[p := set_replicate o sub]> (subs (leader s)) -> published st' = published (leader s) ->
  scheduled p (is_idle md) st' ->
  noting (foldl absorb (position subf) (l ++ inflight md)) (outstanding fl) (cursor fl) (default new_ssa o) ->
  stopped (default new_ssa o) = false ->
  rinv w (mkR (store s) st' md l (follower s)) (set_replicate o sub) subf fl.
Proof.
  intros [] Hs Hp Hk Hn Hst. constructor; try done; simpl.
  - by eapply inv_replicate.
  - split; [done|]. exists (set_replicate o sub). rewrite Hs, lookup_insert_eq.
    by destruct ri_inv0.
Qed.

Lemma set_note_self sub st : subs st !! p = Some sub ->
  subs st = <[p := set_replicate (replicate sub) sub]> (subs st).
Proof. intros Hp. by rewrite set_replicate_self, insert_id. Qed.

Lemma rinv_quiet w s sub subf fl :
  rinv w s sub subf fl -> ~ busy (replicate sub) -> to_replicate (note sub) = false.
Proof.
  intros [] Hb. destruct ri_note0 as [_ _ _ _ Hh]. unfold to_replicate, busy, note in *.
  destruct (replicate sub) as [r|]; simpl in *; [|done].
  assert (Hz : (size (r_sent r) + size (r_ack r) = 0)%nat /\ hiSentSeq r = 0).
  { destruct (decide (hiSentSeq r = 0)); [|exfalso; apply Hb; eauto].
    split; [|done]. apply dec_stable. intros ?. apply Hb. exists r. split; [done|]. lia. }
  destruct Hz as [-> Hz]. destruct Hh as [(_ & _ & -> & _)|(? & ? & _)]; [done|lia].
Qed.

(** After a round of the flush: the subscription is not ready any more, and has
    nothing to replicate. *)
Record flushed (s s' : rsys) (sub' : subState) : Prop := {
  fs_mode : rmode s' <> Idle;
  fs_ready : p ∉ ready (leader s');
  fs_waiting : waiting (leader s') = waiting (leader s);
  fs_notified : notified (leader s') = notified (leader s);
  fs_rlog : rlog s' = rlog s;
  fs_follower : follower s' = follower s;
  fs_quiet : to_replicate (note sub') = false
}.

Lemma quiet_not_busy x P h sub :
  noting x P h (note sub) -> to_replicate (note sub) = false -> ~ busy (replicate sub).
Proof.
  intros [_ _ _ _ Hh] Hq (r & Hrep & Hb). unfold note, to_replicate in *. rewrite Hrep in Hq, Hh. simpl in *.
  apply orb_false_iff in Hq as [Hq1%Nat.ltb_ge Hq2%Z.ltb_ge].
  destruct Hb as [?|Hb]; [lia|]. destruct Hh as [(? & _)|(_ & ? & _ & [[Hin _]|[_ ?]])]; [done| |lia].
  assert (r_sent r = ∅) as E1 by (apply leibniz_equiv, size_empty_iff; lia). set_solver +E1 Hin.
Qed.

Lemma flush_quiet s sub :
  subs (leader s) !! p = Some sub -> to_replicate (note sub) = false ->
  flush_one p (leader s) =
    (None, set_repl (waiting (leader s)) (ready (leader s) ∖ {[p]}) (notified (leader s)) (leader s)).
Proof.
  intros Hp Hq. unfold flush_one, replicateSubSentAndAck. simpl. rewrite Hp. unfold note in Hq.
  destruct (replicate sub) as [r|]; [|done]. simpl in Hq. by rewrite Hq.
Qed.

Lemma rinv_begin w s sub subf fl :
  rinv w s sub subf fl -> rmode s = Flushing -> p ∈ ready (leader s) ->
  exists s' sub', rstep Begin s = Ok s' /\ rinv w s' sub' subf fl /\ flushed s s' sub'.
Proof.
  intros Hi Hm Hr. unfold rstep. rewrite Hm, bool_decide_true by done.
  pose proof (iv_sub _ _ _ _ _ _ _ _ _ (ri_inv _ _ _ _ _ Hi)) as Hp.
  pose proof (ri_note _ _ _ _ _ Hi) as Hn. rewrite Hm in Hn. pose proof (ri_running _ _ _ _ _ Hi) as Hrun.
  destruct (to_replicate (note sub)) eqn:Htr.
  - unfold note in *. destruct (replicate sub) as [r|] eqn:Hrep; [|done]. simpl in Hn, Hrun, Htr.
    unfold flush_one, replicateSubSentAndAck. cbn [subs set_repl]. rewrite Hp, Hrep, Htr. simpl.
    eexists _, (set_replicate (Some (mkSSA ∅ ∅ 0 0 true (stopped r))) sub). split; [done|]. split.
    + apply rinv_leader; try done.
      * split; [|done]. simpl. rewrite lookup_insert_eq. intros s' [= <-] (r' & [= <-] & [Hb|Hb]); [|done].
        cbn [r_sent r_ack] in Hb. rewrite size_empty in Hb. lia.
      * rewrite app_nil_r in Hn. pose proof (noting_flush _ _ _ _ sub Hn) as Hf. simpl in Hf |- *.
        rewrite foldl_app. simpl. rewrite Hf.
        apply noting_fresh. destruct Hn as [-> _ _ Hb _]. intros k Hk. apply Hb. set_solver +Hk.
    + constructor; simpl; try done. set_solver +.
  - rewrite (flush_quiet s sub Hp Htr). eexists _, (set_replicate (replicate sub) sub). split; [done|]. split.
    + apply rinv_leader; try done; [exact (set_note_self sub (leader s) Hp)|]. split; [|done]. simpl.
      rewrite Hp. intros s' [= <-] Hb. by destruct (quiet_not_busy _ _ _ _ Hn Htr).
    + constructor; simpl; try done. set_solver +.
Qed.

Lemma rinv_commit w s sub subf fl d :
  rinv w s sub subf fl -> rmode s = Applying d ->
  exists s' sub', rstep Commit s = Ok s' /\ rinv w s' sub' subf fl /\ rmode s' = Flushing /\
    waiting (leader s') = waiting (leader s) /\ ready (leader s') = ready (leader s) /\
    notified (leader s') = notified (leader s) /\ rlog s' = rlog s ++ [d] /\ follower s' = follower s /\
    to_replicate (note sub') = to_replicate (note sub).
Proof.
  intros Hi Hm. unfold rstep. rewrite Hm.
  pose proof (iv_sub _ _ _ _ _ _ _ _ _ (ri_inv _ _ _ _ _ Hi)) as Hp.
  pose proof (ri_note _ _ _ _ _ Hi) as Hn. rewrite Hm in Hn. pose proof (ri_running _ _ _ _ _ Hi) as Hrun.
  pose proof (ri_known _ _ _ _ _ Hi) as [[Hk _] _].
  set (o := set_applying false <$> replicate sub).
  assert (Hst : subs (replicate_applied p (leader s)) = <[p := set_replicate o sub]> (subs (leader s)) /\
    published (replicate_applied p (leader s)) = published (leader s) /\
    waiting (replicate_applied p (leader s)) = waiting (leader s) /\
    ready (replicate_applied p (leader s)) = ready (leader s) /\
    notified (replicate_applied p (leader s)) = notified (leader s)).
  { unfold replicate_applied, o. rewrite Hp. destruct (replicate sub) eqn:Hrep; [done|].
    split_and!; try done. simpl. rewrite <- Hrep. by apply set_note_self. }
  destruct Hst as (Hs & Hpub & Hw & Hre & Hno). eexists _, (set_replicate o sub). split; [done|].
  unfold note in *. split_and!; try done.
  - apply rinv_leader; try done; simpl.
    + split; [|done]. rewrite Hs, lookup_insert_eq, Hw, Hre. intros s' [= <-] (r & Hrep & Hb).
      apply (Hk sub Hp). simpl in Hrep. unfold o in Hrep. destruct (replicate sub) as [r0|]; [|done].
      exists r0. split; [done|]. by injection Hrep as <-.
    + rewrite app_nil_r. by unfold o; destruct (replicate sub); destruct Hn; constructor.
    + by unfold o; destruct (replicate sub).
  - simpl. unfold o. by destruct (replicate sub).
Qed.

(** The sets or the mode change, the subscription does not. *)
Lemma rinv_sets w s sub subf fl wt rd no md :
  rinv w s sub subf fl -> inflight md = inflight (rmode s) ->
  (p ∈ waiting (leader s) ∪ ready (leader s) -> p ∈ wt ∪ rd) ->
  (is_idle md = true -> p ∈ rd -> no = true) ->
  rinv w (mkR (store s) (set_repl wt rd no (leader s)) md (rlog s) (follower s)) sub subf fl.
Proof.
  intros [] Hmd Hsub Hidle. destruct ri_known0 as [[Hk _] Hp]. constructor; simpl; try done.
  - by destruct ri_inv0.
  - split; [|done]. split; [|done]. simpl. intros s' Hs' Hb. by eapply Hsub, Hk.
  - by rewrite Hmd.
Qed.

Lemma rinv_tick w s sub subf fl :
  rinv w s sub subf fl -> rmode s = Idle ->
  exists s', rstep Tick s = Ok s' /\ rinv w s' sub subf fl /\
    ready (leader s') = ready (leader s) ∪ waiting (leader s) /\ waiting (leader s') = ∅ /\
    rlog s' = rlog s /\ follower s' = follower s /\
    rmode s' = (if negb (bool_decide (waiting (leader s) = ∅)) && negb (notified (leader s))
                then Flushing else Idle).
Proof.
  intros Hi Hm. unfold rstep, tick. rewrite Hm. eexists. split; [done|]. split_and!; try done.
  apply rinv_sets; try done.
  - rewrite Hm. by destruct (_ && _).
  - set_solver +.
  - destruct (notified (leader s)) eqn:Hno; [done|]. rewrite andb_true_r.
    case_bool_decide as Hw; [|done]. simpl. rewrite Hw, union_empty_r_L. intros _ Hr.
    pose proof (ri_known _ _ _ _ _ Hi) as [[_ Hk] _]. rewrite Hm, Hno in Hk. by apply Hk.
Qed.

Lemma rinv_notify w s sub subf fl :
  rinv w s sub subf fl -> rmode s = Idle -> notified (leader s) = true ->
  exists s', rstep Notify s = Ok s' /\ rinv w s' sub subf fl /\
    ready (leader s') = ready (leader s) /\ waiting (leader s') = waiting (leader s) /\
    notified (leader s') = false /\ rlog s' = rlog s /\ follower s' = follower s /\ rmode s' = Flushing.
Proof.
  intros Hi Hm Hn. unfold rstep, notify. rewrite Hm, Hn. eexists. split; [done|]. split_and!; try done.
  apply rinv_sets; try done. by rewrite Hm.
Qed.

Lemma set_repl_self st : set_repl (waiting st) (ready st) (notified st) st = st.
Proof. by destruct st. Qed.

Lemma rinv_endflush w s sub subf fl :
  rinv w s sub subf fl -> rmode s = Flushing ->
  negb (bool_decide (p ∈ ready (leader s))) || notified (leader s) = true ->
  rstep EndFlush s = Ok (mkR (store s) (leader s) Idle (rlog s) (follower s)) /\
  rinv w (mkR (store s) (leader s) Idle (rlog s) (follower s)) sub subf fl.
Proof.
  intros Hi Hm Hc. unfold rstep. rewrite Hm, Hc. split; [done|].
  rewrite <- (set_repl_self (leader s)) at 1. apply rinv_sets; try done; [by rewrite Hm|].
  intros _ Hr. rewrite bool_decide_true in Hc; done.
Qed.

Lemma rinv_follow w s sub subf fl d l :
  rinv w s sub subf fl -> rlog s = d :: l ->
  exists s' subf', rstep Follow s = Ok s' /\ rinv w s' sub subf' fl /\ rlog s' = l /\
    leader s' = leader s /\ rmode s' = rmode s.
Proof.
  intros [] Hl. unfold rstep. rewrite Hl.
  destruct (follower_absorbs q d (follower s) subf ri_follower0) as (subf' & Hs & Hpos & Hmx & Hst).
  rewrite Hl in ri_note0. simpl in ri_note0. rewrite <- Hpos in ri_note0.
  exists (mkR (store s) (leader s) (rmode s) l (processReplicatedSendAndAck (Some q) d (follower s))), subf'.
  split; [by destruct (rmode s)|]. split_and!; try done. constructor; simpl; try done; congruence.
Qed.

(** Every event keeps the invariant. *)
Lemma rinv_other w s sub subf fl ev :
  rinv w s sub subf fl -> clients [ev] = [] ->
  exists s' sub' subf', rstep ev s = Ok s' /\ rinv w s' sub' subf' fl.
Proof.
  intros Hi Hc. assert (Hid : forall r : outcome Mem.fuel_error rsys, r = Ok s ->
    exists s' sub' subf', r = Ok s' /\ rinv w s' sub' subf' fl) by eauto.
  destruct (rmode s) as [| |d] eqn:Hm; destruct ev as [ev| | | | | |]; try done;
    try (apply Hid; unfold rstep; by rewrite Hm).
  - destruct (rinv_tick _ _ _ _ _ Hi Hm) as (s' & ? & ? & _). eauto 6.
  - destruct (notified (leader s)) eqn:Hn; [|apply Hid; unfold rstep; by rewrite Hm, Hn].
    destruct (rinv_notify _ _ _ _ _ Hi Hm Hn) as (s' & ? & ? & _). eauto 6.
  - destruct (rlog s) as [|d l] eqn:Hl; [apply Hid; unfold rstep; by rewrite Hm, Hl|].
    destruct (rinv_follow _ _ _ _ _ _ _ Hi Hl) as (s' & subf' & ? & ? & _). eauto 6.
  - destruct (decide (p ∈ ready (leader s))) as [Hr|Hr];
      [|apply Hid; unfold rstep; by rewrite Hm, bool_decide_false].
    destruct (rinv_begin _ _ _ _ _ Hi Hm Hr) as (s' & sub' & ? & ? & _). eauto 6.
  - destruct (negb (bool_decide (p ∈ ready (leader s))) || notified (leader s)) eqn:Hb;
      [|apply Hid; unfold rstep; by rewrite Hm, Hb].
    destruct (rinv_endflush _ _ _ _ _ Hi Hm Hb). eauto 6.
  - destruct (rlog s) as [|d l] eqn:Hl; [apply Hid; unfold rstep; by rewrite Hm, Hl|].
    destruct (rinv_follow _ _ _ _ _ _ _ Hi Hl) as (s' & subf' & ? & ? & _). eauto 6.
  - destruct (rinv_commit _ _ _ _ _ _ Hi Hm) as (s' & sub' & ? & ? & _). eauto 6.
  - destruct (rlog s) as [|d' l] eqn:Hl; [apply Hid; unfold rstep; by rewrite Hm, Hl|].
    destruct (rinv_follow _ _ _ _ _ _ _ Hi Hl) as (s' & subf' & ? & ? & _). eauto 6.
Qed.

Lemma rinv_run evs : forall w s sub subf fl,
  rinv w s sub subf fl -> admissible w (clients evs) ->
  let t := foldl (fun s ev => flow_step max ev s) (w, fl) (clients evs) in
  exists s' sub' subf', rrun evs s = Ok s' /\ rinv t.1 s' sub' subf' t.2.
Proof.
  induction evs as [|ev evs IH]; intros w s sub subf fl Hi Ha; simpl; [by eauto 6|].
  destruct ev as [ev| | | | | |]; simpl in Ha;
    [|edestruct (rinv_other w s sub subf fl) as (s' & sub' & subf' & Heq & Hi'); [done| |rewrite Heq; by eapply IH]; done..].
  destruct (rinv_client _ _ _ _ _ ev (clients evs) Hi Ha) as (s' & sub' & Heq & Hi' & Ha').
  rewrite Heq. simpl. destruct (flow_step max ev (w, fl)) as [w' fl'] eqn:Hf. simpl in *. by eapply IH.
Qed.

(** ** Draining *)

Lemma rrun_app evs evs' s : rrun (evs ++ evs') s = (s' ← rrun evs s; rrun evs' s').
Proof.
  revert s. induction evs as [|ev evs IH]; intros s; simpl; [done|].
  destruct (rstep ev s); simpl; [apply IH|done|done].
Qed.

Lemma rrun_noop evs s : Forall (fun ev => rstep ev s = Ok s) evs -> rrun evs s = Ok s.
Proof. induction 1 as [|ev evs Hev _ IH]; simpl; [done|]. rewrite Hev. exact IH. Qed.

Lemma rrun_one ev s : rrun [ev] s = rstep ev s.
Proof. simpl. by destruct (rstep ev s). Qed.

Ltac noop := apply rrun_noop; repeat constructor; unfold rstep.

Lemma flush_round w s sub subf fl :
  rinv w s sub subf fl -> rmode s = Flushing ->
  exists s' sub', rrun [Begin; Commit] s = Ok s' /\ rinv w s' sub' subf fl /\ rmode s' = Flushing /\
    p ∉ ready (leader s') /\ notified (leader s') = notified (leader s) /\
    (length (rlog s') <= length (rlog s) + 1)%nat /\
    (to_replicate (note sub') = false \/ p ∉ ready (leader s) /\ sub' = sub).
Proof.
  intros Hi Hm. destruct (decide (p ∈ ready (leader s))) as [Hr|Hr].
  - destruct (rinv_begin _ _ _ _ _ Hi Hm Hr) as (s1 & sub1 & Hb & Hi1 & []).
    cbn [rrun]. rewrite Hb. simpl. destruct (rmode s1) as [| |d] eqn:Hm1; [done| |].
    + exists s1, sub1. rewrite fs_rlog0. split_and!; done || lia || (by left).
    + destruct (rinv_commit _ _ _ _ _ _ Hi1 Hm1) as (s2 & sub2 & Hc & Hi2 & Hm2 & _ & Hr2 & Hn2 & Hl2 & _ & Hq).
      unfold rstep in Hc. rewrite Hm1 in Hc. injection Hc as Hc. rewrite Hc. exists s2, sub2.
      rewrite Hr2, Hn2, Hl2, fs_rlog0, length_app, Hq. simpl. split_and!; done || lia || (by left).
  - exists s, sub. split; [noop; by rewrite Hm, ?bool_decide_false|]. split_and!; done || lia || (by right).
Qed.

Lemma end_round w s sub subf fl :
  rinv w s sub subf fl -> rmode s = Flushing ->
  exists s' sub', rrun [Begin; Commit; EndFlush] s = Ok s' /\ rinv w s' sub' subf fl /\ rmode s' = Idle /\
    p ∉ ready (leader s') /\ notified (leader s') = notified (leader s) /\
    (length (rlog s') <= length (rlog s) + 1)%nat.
Proof.
  intros Hi Hm. change [Begin; Commit; EndFlush] with ([Begin; Commit] ++ [EndFlush]). rewrite rrun_app.
  destruct (flush_round _ _ _ _ _ Hi Hm) as (s1 & sub1 & -> & Hi1 & Hm1 & Hr1 & Hn1 & Hl1 & _).
  destruct (rinv_endflush _ _ _ _ _ Hi1 Hm1) as [Heq Hi2].
  { by rewrite bool_decide_false. }
  cbn [mbind outcome_bind rrun]. rewrite Heq. simpl. eexists _, sub1. by split_and!.
Qed.

Lemma drain_idle w s sub subf fl :
  rinv w s sub subf fl ->
  exists s' sub', rrun [Commit; Begin; Commit; EndFlush] s = Ok s' /\ rinv w s' sub' subf fl /\
    rmode s' = Idle /\ (length (rlog s') <= length (rlog s) + 2)%nat.
Proof.
  intros Hi. destruct (rmode s) as [| |d] eqn:Hm.
  { exists s, sub. split; [noop; by rewrite Hm|]. split_and!; done || lia. }
  all: change [Commit; Begin; Commit; EndFlush] with ([Commit] ++ [Begin; Commit; EndFlush]); rewrite rrun_app.
  - destruct (end_round _ _ _ _ _ Hi Hm) as (s' & sub' & Heq & Hi' & Hm' & _ & _ & Hl).
    exists s', sub'. assert (rrun [Commit] s = Ok s) as -> by (noop; by rewrite Hm). cbn [mbind outcome_bind]. split_and!; try done. lia.
  - destruct (rinv_commit _ _ _ _ _ _ Hi Hm) as (s1 & sub1 & Hc & Hi1 & Hm1 & _ & _ & _ & Hl1 & _).
    destruct (end_round _ _ _ _ _ Hi1 Hm1) as (s' & sub' & Heq & Hi' & Hm' & _ & _ & Hl).
    exists s', sub'. rewrite rrun_one, Hc. cbn [mbind outcome_bind]. rewrite Hl1, length_app in Hl. simpl in Hl.
    split_and!; try done. lia.
Qed.

Lemma drain_notified w s sub subf fl :
  rinv w s sub subf fl -> rmode s = Idle ->
  exists s' sub', rrun [Notify; Begin; Commit; EndFlush] s = Ok s' /\ rinv w s' sub' subf fl /\
    rmode s' = Idle /\ p ∉ ready (leader s') /\ notified (leader s') = false /\
    (length (rlog s') <= length (rlog s) + 1)%nat.
Proof.
  intros Hi Hm. destruct (notified (leader s)) eqn:Hn.
  - change [Notify; Begin; Commit; EndFlush] with ([Notify] ++ [Begin; Commit; EndFlush]).
    rewrite rrun_app. destruct (rinv_notify _ _ _ _ _ Hi Hm Hn) as (s1 & Hc & Hi1 & _ & _ & Hn1 & Hl1 & _ & Hm1).
    destruct (end_round _ _ _ _ _ Hi1 Hm1) as (s' & sub' & Heq & Hi' & Hm' & Hr' & Hn' & Hl).
    exists s', sub'. rewrite rrun_one, Hc. cbn [mbind outcome_bind]. rewrite Hl1 in Hl.
    split_and!; try done. congruence.
  - exists s, sub. split; [noop; by rewrite Hm, ?Hn|]. split_and!; try done; [|lia]. intros Hr.
    pose proof (ri_known _ _ _ _ _ Hi) as [[_ Hk] _]. rewrite Hm, Hn in Hk. by specialize (Hk eq_refl Hr).
Qed.

Lemma drain_waiting w s sub subf fl :
  rinv w s sub subf fl -> rmode s = Idle -> p ∉ ready (leader s) -> notified (leader s) = false ->
  exists s' sub', rrun [Tick; Begin; Commit] s = Ok s' /\ rinv w s' sub' subf fl /\
    inflight (rmode s') = [] /\ to_replicate (note sub') = false /\
    (length (rlog s') <= length (rlog s) + 1)%nat.
Proof.
  intros Hi Hm Hr Hn. change [Tick; Begin; Commit] with ([Tick] ++ [Begin; Commit]). rewrite rrun_app.
  destruct (rinv_tick _ _ _ _ _ Hi Hm) as (s1 & Hc & Hi1 & Hr1 & _ & Hl1 & _ & Hm1).
  rewrite rrun_one, Hc. cbn [mbind outcome_bind]. rewrite Hn, andb_true_r in Hm1.
  assert (Hquiet : p ∉ waiting (leader s) -> to_replicate (note sub) = false).
  { intros Hw. apply (rinv_quiet _ _ _ _ _ Hi). intros Hb.
    pose proof (ri_known _ _ _ _ _ Hi) as [[Hk _] _]. pose proof (iv_sub _ _ _ _ _ _ _ _ _ (ri_inv _ _ _ _ _ Hi)) as Hp.
    specialize (Hk sub Hp Hb). set_solver +Hk Hr Hw. }
  case_bool_decide as Hw; simpl in Hm1.
  - exists s1, sub. split; [noop; by rewrite Hm1|]. rewrite Hm1.
    split_and!; try done; [|rewrite Hl1; lia]. apply Hquiet. rewrite Hw. set_solver +.
  - destruct (flush_round _ _ _ _ _ Hi1 Hm1) as (s' & sub' & Heq & Hi' & Hm' & _ & _ & Hl & Hq).
    exists s', sub'. rewrite Hl1 in Hl. split_and!; try done; [by rewrite Hm'|].
    destruct Hq as [Hq|[Hq ->]]; [done|]. apply Hquiet. rewrite Hr1 in Hq. set_solver +Hq.
Qed.

Lemma drain_log n : forall w s sub subf fl,
  rinv w s sub subf fl -> (length (rlog s) <= n)%nat ->
  exists s' subf', rrun (repeat Follow n) s = Ok s' /\ rinv w s' sub subf' fl /\ rlog s' = [] /\
    rmode s' = rmode s.
Proof.
  induction n as [|n IH]; intros w s sub subf fl Hi Hl; cbn [repeat rrun].
  - exists s, subf. split_and!; try done. by apply length_zero_iff_nil; lia.
  - destruct (rlog s) as [|d l] eqn:Hlog.
    + assert (rstep Follow s = Ok s) as -> by (unfold rstep; rewrite Hlog; by destruct (rmode s)).
      apply (IH w s sub subf fl Hi). rewrite Hlog. simpl. lia.
    + destruct (rinv_follow _ _ _ _ _ _ _ Hi Hlog) as (s1 & subf1 & Heq & Hi1 & Hl1 & _ & Hm1).
      rewrite Heq. simpl in Hl. cbn [mbind outcome_bind].
      destruct (IH _ _ _ _ _ Hi1) as (s' & subf' & Hr & Hi' & Hl' & Hm'); [rewrite Hl1; lia|].
      exists s', subf'. split_and!; try done. congruence.
Qed.

Lemma drain_all w s sub subf fl n :
  rinv w s sub subf fl -> (length (rlog s) + 4 <= n)%nat ->
  exists s' sub' subf', rrun (drain n) s = Ok s' /\ rinv w s' sub' subf' fl /\
    position subf' = (outstanding fl, cursor fl).
Proof.
  intros Hi Hn. unfold drain.
  change [Commit; Begin; Commit; EndFlush; Notify; Begin; Commit; EndFlush; Tick; Begin; Commit]
    with ([Commit; Begin; Commit; EndFlush] ++ [Notify; Begin; Commit; EndFlush] ++ [Tick; Begin; Commit]).
  destruct (drain_idle _ _ _ _ _ Hi) as (s1 & sub1 & E1 & Hi1 & Hm1 & Hl1).
  destruct (drain_notified _ _ _ _ _ Hi1 Hm1) as (s2 & sub2 & E2 & Hi2 & Hm2 & Hr2 & Hn2 & Hl2).
  destruct (drain_waiting _ _ _ _ _ Hi2 Hm2 Hr2 Hn2) as (s3 & sub3 & E3 & Hi3 & Hm3 & Hq3 & Hl3).
  destruct (drain_log n _ _ _ _ _ Hi3 ltac:(lia)) as (s4 & subf4 & E4 & Hi4 & Hl4 & Hm4).
  exists s4, sub3, subf4. rewrite <- !app_assoc, rrun_app, E1. cbn [mbind outcome_bind].
  rewrite rrun_app, E2. cbn [mbind outcome_bind]. rewrite rrun_app, E3. cbn [mbind outcome_bind].
  split_and!; try done.
  pose proof (ri_note _ _ _ _ _ Hi4) as Hnt. rewrite Hl4, Hm4, Hm3 in Hnt. simpl in Hnt.
  by apply (noting_quiet _ _ _ _ Hnt).
Qed.
End Invariant.

(** A leader with a new subscription, and a follower that has it too. *)
Record paired (w : window) (s : rsys) (sub subf : subState) : Prop := {
  pr_created : created p (store s) w (leader s) sub;
  pr_note : replicate sub = None;
  pr_ready : p ∉ ready (leader s);
  pr_mode : rmode s = Idle;
  pr_rlog : rlog s = [];
  pr_follower : subs (follower s) !! q = Some subf;
  pr_none : acksPending subf = ∅;
  pr_last : LastSent subf = LastSent sub;
  pr_max : MaxInFlight subf = MaxInFlight sub;
  pr_stalled : stalled subf = false
}.

Lemma start_rinv w s sub subf evs :
  healthy e -> isClustered e = true -> paired w s sub subf -> admissible w (clients evs) ->
  let t := flow_start (MaxInFlight sub) (clients evs) w (LastSent sub) in
  exists s' sub' subf', rstart evs s = Ok s' /\
    rinv (MaxInFlight sub) (Inbox sub) (published (leader s)) (LastSent sub) t.1 s' sub' subf' t.2.
Proof.
  intros He Hcl [Hc] Ha t. pose proof Hc as [].
  destruct (flow_start_inv e p [] (store s) w (leader s) sub He Hc I) as (c1 & st1 & sub1 & E1 & Hi1 & Hs1 & Ho1).
  unfold start in E1. simpl in E1. unfold rstart.
  assert (Hk : known p true (leader s)).
  { split; [|by exists sub]. split; [|done]. intros s0 Hs0 (r & Hr & _). congruence. }
  destruct (sendAvailableMessages e (store s) p (leader s)) as [st|?|] eqn:Hsend; [|done|done].
  simpl in E1 |- *. injection E1 as <- <-.
  assert (Hinv0 : inv p (MaxInFlight sub) (Inbox sub) (published (leader s)) w (store s) (leader s) sub
    (mkFlow (LastSent sub) [] ∅)).
  { pose proof (so_max _ ct_ok0). constructor; try done; simpl; [by rewrite app_nil_r| |].
    - by rewrite ct_none0, dom_empty_L.
    - unfold psize. rewrite ct_none0, map_size_empty. lia. }
  assert (psize sub < MaxInFlight sub) as Hlt.
  { pose proof (so_max _ ct_ok0). unfold psize. rewrite ct_none0, map_size_empty. lia. }
  destruct (inv_send e p _ _ _ _ _ _ _ _ He Hinv0 ct_stalled0 Hlt) as (st2 & sub2 & E2 & Hi2 & Hs2 & Hr2).
  rewrite Hsend in E2. injection E2 as <-.
  destruct (noting_deliver Hcl (MaxInFlight sub) (LastSent sub) (proj1 (so_last _ ct_ok0)) w
    (mkFlow (LastSent sub) [] ∅) (∅, LastSent sub) None) as [Hn Hrun]; try done.
  { by eapply view_wf. }
  { by apply noting_fresh. }
  rewrite <- pr_note0, <- Hr2 in Hn, Hrun.
  apply (rinv_run Hcl He _ _ _ _ (proj1 (so_last _ ct_ok0)) evs w _ sub2 subf); [|done].
  constructor; simpl; try done.
  - by rewrite pr_mode0; eapply sendAvailable_known.
  - unfold psize. rewrite pr_stalled0, pr_none0, map_size_empty. pose proof (so_max _ ct_ok0).
    symmetry. apply Z.leb_gt. lia.
  - rewrite pr_rlog0, pr_mode0. simpl. unfold position. by rewrite pr_none0, pr_last0, dom_empty_L.
Qed.

(** [C5] A follower catches up with the leader on a plain subscription, when
    publishing and the storage do not fail.  After any interleaving of stored
    messages, acknowledgements, rounds of the replicator and applied log entries,
    nothing that was noted is lost: once the replicator has run, and the follower has
    applied the log, the follower has the pending messages and the stalled flag of the
    leader, and is positioned at the last message published, after which the same
    messages are still to be sent as on the leader. *)
Theorem replication_converges w s sub subf evs :
  healthy e -> isClustered e = true -> paired w s sub subf -> admissible w (clients evs) ->
  exists s1 sub1 l, rstart evs s = Ok s1 /\ subs (leader s1) !! p = Some sub1 /\
    published (leader s1) = published (leader s) ++ (pair (Inbox sub) <$> l) /\
    forall n, (length (rlog s1) + 4 <= n)%nat ->
    exists s2 subf2, rrun (drain n) s1 = Ok s2 /\ subs (follower s2) !! q = Some subf2 /\
      dom (acksPending subf2) = dom (acksPending sub1) /\
      stalled subf2 = stalled sub1 /\
      LastSent subf2 = default (LastSent sub) (Sequence <$> last l) /\
      exists w1, view (store s1) w1 /\ available w1 (LastSent subf2) = available w1 (LastSent sub1).
Proof.
  intros He Hcl Hp Ha. destruct (start_rinv w s sub subf evs He Hcl Hp Ha) as (s1 & sub1 & subf1 & E1 & Hi1).
  set (t := flow_start _ _ _ _) in *. pose proof Hi1 as [[] Hset [] _ _ _ _ _ _].
  exists s1, sub1, (sent t.2). split_and!; try done. intros n Hn.
  destruct (drain_all _ _ _ _ _ _ _ _ _ n Hi1 Hn) as (s2 & sub2 & subf2 & E2 & Hi2 & Hpos).
  exists s2, subf2. injection Hpos as Hd Hl. destruct Hi2. split_and!; try done; [congruence| |congruence|].
  - rewrite ri_fstalled0, (settled_flag _ _ _ Hset). f_equal. unfold psize. rewrite <- !size_dom, Hd. congruence.
  - exists t.1. split; [done|]. rewrite iv_cursor0. f_equal. congruence.
Qed.
End Replicated.
End ReplSys.

(** ** Concrete runs *)

Module ReplSample.
Import Sub Dlv DlvSpec Flow FlowSample MemSample Repl ReplSpec ReplSys.

#[local] Existing Instance default_order.

Definition sample_rsys : rsys :=
  mkR (Mem.init two_msgs) sample_server Idle [] (mkServer {[5%nat := sample_sub]} ∅ ∅ ∅ false [] []).

(** The first message is replicated, the ack of it and the second one are noted. *)
Definition sample_revents : list (revent (S := Mem.MemoryMsgStore)) :=
  [Client (Stored sample_store sample_window); Tick; Begin; Client (Acked 1); Commit].

Lemma sample_paired :
  paired (H0 := memory_store_spec data_size) 0%nat 5%nat None sample_rsys sample_sub sample_sub.
Proof. constructor; try done. exact sample_created. Defined.

Lemma sample_rflow : admissible (H0 := memory_store_spec data_size) None (clients sample_revents).
Proof.
  destruct sample_flow as (H1 & H2 & H3 & _). simpl. split_and!; done.
Defined.

Lemma replication_converges_witness :
  exists s1 s2 subf2, rstart sample_env 0%nat 5%nat sample_revents sample_rsys = Ok s1 /\
    rrun sample_env 0%nat 5%nat (drain 5) s1 = Ok s2 /\ subs (follower s2) !! 5%nat = Some subf2 /\
    stalled subf2 = true.
Proof.
  destruct (replication_converges (H0 := memory_store_spec data_size) sample_env 0%nat 5%nat None
    sample_rsys sample_sub sample_sub sample_revents sample_healthy eq_refl sample_paired sample_rflow)
    as (s1 & sub1 & l & E1 & Hs & Hl & Hd).
  assert (E2 := E1). vm_compute in E2. injection E2 as E2.
  destruct (Hd 5%nat) as (s2 & subf2 & E3 & Hf & _ & Hst & _).
  { rewrite <- E2. simpl. lia. }
  exists s1, s2, subf2. split_and!; try assumption. rewrite Hst. rewrite <- E2 in Hs.
  vm_compute in Hs. injection Hs as <-. vm_compute. reflexivity.
Defined.

(** ** Queue members

    A member of a queue group, on the leader and on a follower, with message 5
    pending. *)

Definition member : subState :=
  mkSub 1 "me" "group" "inbox" "ack" 10 30 "" 5 false false "foo" (Some 0%nat) 30000000000 None
    {[5 := 100]} "" None ∅ true false false false.

Definition group_server : server :=
  mkServer {[0%nat := member]} {[0%nat := mkQueue 5 [0%nat] ∅ None 0 false]} ∅ ∅ false [] [].

(** Message 8 is sent to the member; 5 expires and goes to another member, with an
    implicit ack; it comes back from there, and the client acknowledges it.  Then
    the replicator runs, and the follower applies the entry. *)
Definition back_and_forth : outcome Mem.fuel_error (server * server) :=
  r ← lift (sendMsgToSub sample_env 0%nat (msg 8 1) false group_server);
  st ← processAck sample_env sample_store 0%nat 5 false r.2;
  r ← lift (sendMsgToSub sample_env 0%nat (with_Redelivered (msg 5 1)) true st);
  st ← processAck sample_env sample_store 0%nat 5 true r.2;
  let '(o, st) := replicateSubSentAndAck 0%nat st in
  Ok (st, match o with
          | Some d => processReplicatedSendAndAck (Some 0%nat) d group_server
          | None => group_server
          end).

(** For a queue member, an ack can get lost on the way to the follower: a
    message that comes back to a member after its implicit ack, within one round
    of the replicator, is noted neither as sent nor as acknowledged once the
    client acknowledges it, and stays pending on the follower. *)
Theorem queue_member_ack_lost :
  exists st st' sub sub', back_and_forth = Ok (st, st') /\
    subs st !! 0%nat = Some sub /\ subs st' !! 0%nat = Some sub' /\
    acksPending sub !! 5 = None /\ acksPending sub' !! 5 = Some 100 /\
    replicate sub = Some (mkSSA ∅ ∅ 0 0 true false).
Proof.
  eexists _, _, _, _. split; [vm_compute; reflexivity|]. split; [vm_compute; reflexivity|].
  split; [vm_compute; reflexivity|]. split; [vm_compute; reflexivity|].
  split; vm_compute; reflexivity.
Qed.
End ReplSample.
