(* ===== verification/QueueSpec.v ===== *)
(** * Delivery to a queue group

    Which member [findBestQueueSub] picks, and that a group is sent every available
    message once, to one of its members, as long as one of them has room. *)

From Stdlib Require Import ZArith Lia Ascii String.
From stdpp Require Import base list gmap strings.
From S2P Require Import Prelude GoLib MemStore MsgStore SubState Delivery DeliverySpec DeliverySys.

Local Open Scope Z_scope.

Module QueueSpec.
Import Sub Dlv DlvSpec.

(** ** The best member *)

(** A member that may be picked, with its number of outstanding messages. *)
Definition candidate (st : server) (p : ptr) (out : Z) : Prop :=
  exists sub, subs st !! p = Some sub /\ stalled sub = false /\ hasFailedHB sub = false /\ psize sub = out.

(** The first of the candidates with the fewest outstanding messages. *)
Definition first_least (st : server) (sl : list ptr) (p : ptr) : Prop :=
  exists l1 l2 out, sl = l1 ++ p :: l2 /\ candidate st p out /\
    (forall p' out', p' ∈ l1 -> candidate st p' out' -> out < out') /\
    (forall p' out', p' ∈ l2 -> candidate st p' out' -> out <= out').

Lemma candidate_inj st p out out' : candidate st p out -> candidate st p out' -> out = out'.
Proof. intros (s & Hs & _ & _ & <-) (s' & Hs' & _ & _ & <-). congruence. Qed.

Lemma scan_head st p sub least :
  subs st !! p = Some sub ->
  (candidate st p (psize sub) /\ psize sub < least /\
   negb (stalled sub) && negb (hasFailedHB sub) && (psize sub <? least) = true) \/
  ((forall out, candidate st p out -> least <= out) /\
   negb (stalled sub) && negb (hasFailedHB sub) && (psize sub <? least) = false).
Proof.
  intros Hp. destruct (negb (stalled sub) && negb (hasFailedHB sub) && (psize sub <? least)) eqn:Hc; [left|right].
  - apply andb_true_iff in Hc as [[H1%negb_true_iff H2%negb_true_iff]%andb_true_iff H3%Z.ltb_lt].
    split_and!; try done. by exists sub.
  - split; [|done]. intros out (s & Hs & H1 & H2 & <-). simplify_eq.
    rewrite H1, H2 in Hc. simpl in Hc. by apply Z.ltb_ge.
Qed.

Lemma best_scan_spec st sl : forall least rsub,
  (forall p, p ∈ sl -> is_Some (subs st !! p)) ->
  (best_scan st sl least rsub = rsub /\
   forall p out, p ∈ sl -> candidate st p out -> least <= out) \/
  (exists p out, best_scan st sl least rsub = Some p /\ first_least st sl p /\
     candidate st p out /\ out < least).
Proof.
  induction sl as [|x sl IH]; intros least rsub Hall; simpl.
  - left. split; [done|]. intros p out Hp. by apply elem_of_nil in Hp.
  - destruct (Hall x) as [sub Hx]; [by left|]. rewrite Hx. fold (psize sub).
    assert (Hall' : forall p, p ∈ sl -> is_Some (subs st !! p)) by (intros; apply Hall; by right).
    destruct (scan_head st x sub least Hx) as [(Hc & Hlt & ->)|[Hno ->]].
    + right. destruct (IH (psize sub) (Some x) Hall') as [[-> Hge]|(p & out & -> & Hf & Hp & Hlt')].
      * exists x, (psize sub). split_and!; try done. exists [], sl, (psize sub).
        split_and!; try done. intros p' out' Hp'. by apply elem_of_nil in Hp'.
      * exists p, out. split_and!; try done; [|lia].
        destruct Hf as (l1 & l2 & out1 & -> & Hc1 & H1 & H2).
        assert (out1 = out) as -> by by eapply candidate_inj.
        exists (x :: l1), l2, out. split_and!; try done.
        intros p' out' [->|Hp']%elem_of_cons Hc'; [|by eapply H1].
        assert (out' = psize sub) as -> by by eapply candidate_inj. done.
    + destruct (IH least rsub Hall') as [[-> Hge]|(p & out & -> & Hf & Hp & Hlt')]; [left|right].
      * split; [done|]. intros p out [->|Hp]%elem_of_cons Hc; [by apply Hno|by eapply Hge].
      * exists p, out. split_and!; try done.
        destruct Hf as (l1 & l2 & out1 & -> & Hc1 & H1 & H2).
        assert (out1 = out) as -> by by eapply candidate_inj.
        exists (x :: l1), l2, out. split_and!; try done.
        intros p' out' [->|Hp']%elem_of_cons Hc'; [|by eapply H1]. apply Hno in Hc'. lia.
Qed.

(** The members keep their order, save that a picked first member goes to the end. *)
Definition rotated (sl : list ptr) (p : ptr) (sl' : list ptr) : Prop :=
  match sl with
  | x :: y :: tl => sl' = if (p =? x)%nat then (y :: tl) ++ [x] else sl
  | _ => sl' = sl
  end.

Lemma rotate_perm sl p :
  exists sl', (match sl, Some p with
               | x :: y :: tl, Some p => if (p =? x)%nat then (y :: tl) ++ [x] else sl
               | _, _ => sl
               end) = sl' /\ rotated sl p sl' /\ sl' ≡ₚ sl.
Proof.
  destruct sl as [|x [|y tl]]; simpl; eauto. eexists. split; [done|]. split; [done|].
  destruct (p =? x)%nat; [|done]. apply (Permutation_app_comm (y :: tl) [x]).
Qed.

Lemma best_scan_pick st sl :
  sl <> [] -> (forall p, p ∈ sl -> exists sub, subs st !! p = Some sub /\ psize sub < two63 - 1) ->
  exists p, match best_scan st sl (two63 - 1) None with Some p => Some p | None => head sl end = Some p /\
    (first_least st sl p \/ head sl = Some p /\ forall p' out, p' ∈ sl -> ~ candidate st p' out).
Proof.
  intros Hne Hall. destruct (best_scan_spec st sl (two63 - 1) None) as [[-> Hno]|(p & out & -> & Hf & _)].
  - intros p (sub & Hs & _)%Hall. eauto.
  - destruct sl as [|x sl]; [done|]. exists x. split; [done|]. right. split; [done|].
    intros p' out Hp' Hc. pose proof (Hno p' out Hp' Hc). destruct (Hall p' Hp') as (sub & Hs & Hlt).
    destruct Hc as (s & Hs' & _ & _ & <-). simplify_eq. lia.
  - exists p. eauto.
Qed.

(** The pick of [findBestQueueSub]: among the members that are not stalled and
    have no failed heartbeat, the first with the fewest outstanding messages; the
    first member when there is none.  A picked first member moves to the end, so
    that the members take turns; nobody is lost. *)
Theorem findBestQueueSub_spec st sl :
  sl <> [] -> (forall p, p ∈ sl -> exists sub, subs st !! p = Some sub /\ psize sub < two63 - 1) ->
  exists p sl', findBestQueueSub st sl = (Some p, sl') /\ rotated sl p sl' /\ sl' ≡ₚ sl /\
    (first_least st sl p \/ head sl = Some p /\ forall p' out, p' ∈ sl -> ~ candidate st p' out).
Proof.
  intros Hne Hall. destruct (best_scan_pick st sl Hne Hall) as (p & Hp & Hbest).
  destruct (rotate_perm sl p) as (sl' & Heq & Hrot & Hperm). exists p, sl'. split_and!; try done.
  unfold findBestQueueSub. by rewrite Hp, Heq.
Qed.

(** ** A group *)

(** A member between deliveries, in a group that was sent everything up to [l]. *)
Record member_ok (q : ptr) (l : Z) (sub : subState) : Prop := {
  mb_receive : can_receive sub;
  mb_alive : hasFailedHB sub = false;
  mb_queue : qstate sub = Some q;
  mb_max : 0 < MaxInFlight sub < two31;
  mb_size : psize sub <= MaxInFlight sub;
  mb_stalled : stalled sub = (MaxInFlight sub <=? psize sub);
  mb_pending k : is_Some (acksPending sub !! k) -> k <= l;
  mb_last : LastSent sub <= l
}.

Definition is_stalled (st : server) (p : ptr) : bool :=
  match subs st !! p with Some sub => stalled sub | None => false end.

Definition stalled_members (st : server) (ms : list ptr) : nat :=
  sum_list_with (fun p => Nat.b2n (is_stalled st p)) ms.

Record group_ok (st : server) (q : ptr) (qs : queueState) : Prop := {
  gr_queue : queues st !! q = Some qs;
  gr_members : members qs <> [];
  gr_nodup : NoDup (members qs);
  gr_ok p : p ∈ members qs -> exists sub, subs st !! p = Some sub /\ member_ok q (lastSent qs) sub;
  gr_count : stalledSubCount qs = Z.of_nat (stalled_members st (members qs));
  gr_last : 0 <= lastSent qs /\ lastSent qs + 1 < two64
}.

(** The free places of the members. *)
Definition free (st : server) (p : ptr) : nat :=
  match subs st !! p with Some sub => room sub | None => 0 end.
Definition group_room (st : server) (ms : list ptr) : nat := sum_list_with (free st) ms.

Definition inbox_of (st : server) (p : ptr) : string :=
  match subs st !! p with Some sub => Inbox sub | None => EmptyString end.

Lemma sum_same (f g : ptr -> nat) ms :
  (forall x, x ∈ ms -> g x = f x) -> sum_list_with g ms = sum_list_with f ms.
Proof.
  induction ms as [|x ms IH]; intros Hx; simpl; [done|].
  rewrite Hx, IH; [done| |by left]. intros y Hy. apply Hx. by right.
Qed.

Lemma sum_update (f g : ptr -> nat) ms p :
  NoDup ms -> p ∈ ms -> (forall x, x <> p -> g x = f x) ->
  (sum_list_with g ms + f p = sum_list_with f ms + g p)%nat.
Proof.
  intros Hnd Hp Hx. induction ms as [|x ms IH]; [by apply elem_of_nil in Hp|].
  apply NoDup_cons in Hnd as [Hn Hnd]. simpl. apply elem_of_cons in Hp as [<-|Hp].
  - rewrite (sum_same f g); [lia|]. intros y Hy. apply Hx. by intros ->.
  - specialize (IH Hnd Hp). rewrite (Hx x); [lia|]. by intros ->.
Qed.

Lemma sum_perm (f : ptr -> nat) ms ms' : ms ≡ₚ ms' -> sum_list_with f ms = sum_list_with f ms'.
Proof. induction 1; simpl; lia. Qed.

(** Someone has room as long as not everybody is stalled. *)
Lemma not_all_stalled st ms :
  (stalled_members st ms < length ms)%nat -> exists p, p ∈ ms /\ is_stalled st p = false.
Proof.
  unfold stalled_members. induction ms as [|x ms IH]; simpl; [lia|]. intros Hlt.
  destruct (is_stalled st x) eqn:Hx; simpl in Hlt.
  - destruct IH as (p & Hp & Hs); [lia|]. exists p. split; [by right|done].
  - exists x. split; [by left|done].
Qed.

Lemma all_stalled st ms :
  (length ms <= stalled_members st ms)%nat -> forall p, p ∈ ms -> is_stalled st p = true.
Proof.
  unfold stalled_members. assert (Hle : forall l, (sum_list_with (fun p => Nat.b2n (is_stalled st p)) l <= length l)%nat).
  { induction l; simpl; [lia|]. destruct (is_stalled st a); simpl; lia. }
  induction ms as [|x ms IH]; simpl; intros Hl p Hp; [by apply elem_of_nil in Hp|].
  pose proof (Hle ms). destruct (is_stalled st x) eqn:Hx; simpl in Hl; [|lia].
  apply elem_of_cons in Hp as [->|Hp]; [done|]. apply IH; [lia|done].
Qed.

Lemma group_candidate st q qs p :
  group_ok st q qs -> stalledSubCount qs < Z.of_nat (length (members qs)) ->
  head (members qs) = Some p /\ (forall p' out, p' ∈ members qs -> ~ candidate st p' out) \/
    first_least st (members qs) p ->
  exists sub, p ∈ members qs /\ subs st !! p = Some sub /\ member_ok q (lastSent qs) sub /\
    psize sub < MaxInFlight sub.
Proof.
  intros [] Hlt Hp. rewrite gr_count0 in Hlt.
  destruct (not_all_stalled st (members qs)) as (p0 & Hp0 & Hs0); [lia|].
  destruct Hp as [[_ Hno]|(l1 & l2 & out & Heq & (sub & Hs & Hst & _ & _) & _)].
  - exfalso. destruct (gr_ok0 p0 Hp0) as (sub & Hs & []). unfold is_stalled in Hs0. rewrite Hs in Hs0.
    apply (Hno p0 (psize sub) Hp0). by exists sub.
  - assert (Hin : p ∈ members qs) by (rewrite Heq; set_solver +).
    destruct (gr_ok0 p Hin) as (sub' & Hs' & Hok). simplify_eq. exists sub. split_and!; try done.
    pose proof (mb_stalled _ _ _ Hok) as Hm. rewrite Hst in Hm. symmetry in Hm. apply Z.leb_gt in Hm. lia.
Qed.

Lemma member_ok_mono q l l' sub : l <= l' -> member_ok q l sub -> member_ok q l' sub.
Proof. intros Hl []. constructor; try done; [intros k ?%mb_pending0; lia|lia]. Qed.

(** The member after a message with the next sequence. *)
Lemma member_ok_sent q l sub sub' m t :
  member_ok q l sub -> psize sub < MaxInFlight sub -> Sequence m = l + 1 -> same_config sub sub' ->
  LastSent sub' = Z.max (LastSent sub) (Sequence m) ->
  acksPending sub' = <[Sequence m := t]> (acksPending sub) ->
  stalled sub' = ((psize sub + 1 =? MaxInFlight sub) || stalled sub) ->
  member_ok q (l + 1) sub' /\ psize sub' = psize sub + 1 /\ stalled sub = false.
Proof.
  intros [] Hroom Hm Hc HL Hp Hst. destruct Hc.
  assert (Hps : psize sub' = psize sub + 1).
  { unfold psize. rewrite Hp, map_size_insert_None; [lia|].
    apply eq_None_not_Some. intros ?%mb_pending0. lia. }
  assert (Hst0 : stalled sub = false) by (rewrite mb_stalled0; apply Z.leb_gt; lia).
  split; [|done]. constructor; try congruence || lia.
  - apply (can_receive_same sub); [by constructor|done].
  - rewrite Hst, Hst0, orb_false_r, Hps, sc_MaxInFlight0.
    destruct (Z.eqb_spec (psize sub + 1) (MaxInFlight sub)), (Z.leb_spec (MaxInFlight sub) (psize sub + 1)); lia || done.
  - intros k. rewrite Hp. destruct (decide (k = Sequence m)) as [->|Hne]; [lia|].
    rewrite lookup_insert_ne by done. intros ?%mb_pending0. lia.
Qed.

Record sent_one (q : ptr) (st st' : server) (qs qs' : queueState) (p : ptr) (m : MsgProto) : Prop := {
  so_member : p ∈ members qs;
  so_group : group_ok st' q qs';
  so_lastSent : lastSent qs' = Sequence m;
  so_members : members qs' ≡ₚ members qs;
  so_room : (group_room st' (members qs') + 1 = group_room st (members qs))%nat;
  so_published : published st' = published st ++ [(inbox_of st p, m)];
  so_inbox p' : inbox_of st' p' = inbox_of st p'
}.

(** The bookkeeping of a group after [m] went to [p]. *)
Lemma group_after q st st' qs qs' p m sub sub' sl t :
  group_ok st q qs -> p ∈ members qs -> sl ≡ₚ members qs ->
  subs st !! p = Some sub -> psize sub < MaxInFlight sub -> Sequence m = lastSent qs + 1 ->
  lastSent qs + 2 < two64 -> subs st' !! p = Some sub' -> same_config sub sub' ->
  LastSent sub' = Z.max (LastSent sub) (Sequence m) ->
  acksPending sub' = <[Sequence m := t]> (acksPending sub) ->
  stalled sub' = ((psize sub + 1 =? MaxInFlight sub) || stalled sub) ->
  published st' = published st ++ [(Inbox sub, m)] ->
  (forall p', p' <> p -> subs st' !! p' = subs st !! p') ->
  qs' = set_lastSent (Sequence m) (set_stalledSubCount
          (stalledSubCount qs + Z.of_nat (Nat.b2n (stalled sub'))) (set_members sl qs)) ->
  sent_one q st (put_queue q qs' st') qs qs' p m.
Proof.
  intros [] Hin Hsl Hs Hroom Hm Hb Hs' Hc HL Hp Hst Hpub Hoth ->.
  destruct (gr_ok0 p Hin) as (sub0 & Hs0 & Hok). simplify_eq.
  destruct (member_ok_sent _ _ _ _ _ _ Hok Hroom Hm Hc HL Hp Hst) as (Hok' & Hps & Hst0).
  assert (HM : MaxInFlight sub' = MaxInFlight sub) by apply Hc.
  constructor; simpl; try done.
  - constructor; simpl; try done.
    + by rewrite lookup_insert_eq.
    + intros ->. by apply Permutation_nil_l in Hsl.
    + by rewrite Hsl.
    + intros p'. rewrite Hsl. intros Hp'. destruct (decide (p' = p)) as [->|Hne].
      * exists sub'. rewrite Hm. done.
      * rewrite Hoth by done. destruct (gr_ok0 p' Hp') as (s & Hs1 & Hs2). exists s. split; [done|].
        eapply member_ok_mono; [|done]. lia.
    + rewrite gr_count0. unfold stalled_members. rewrite (sum_perm _ _ _ Hsl).
      pose proof (sum_update (fun p => Nat.b2n (is_stalled st p)) (fun p => Nat.b2n (is_stalled st' p))
        (members qs) p gr_nodup0 Hin) as Hsum.
      unfold is_stalled in Hsum |- *. simpl in Hsum |- *. rewrite Hs, Hs', Hst0 in Hsum. simpl in Hsum.
      lapply Hsum; [lia|]. intros x Hx. by rewrite Hoth.
    + lia.
  - unfold group_room. rewrite (sum_perm _ _ _ Hsl).
    pose proof (sum_update (free st) (free st') (members qs) p gr_nodup0 Hin) as Hsum.
    unfold free in Hsum |- *. simpl. rewrite Hs, Hs' in Hsum. unfold room in *. rewrite Hps, HM in Hsum.
    lapply Hsum; [lia|]. intros x Hx. by rewrite Hoth.
  - unfold inbox_of. by rewrite Hs.
  - intros p'. unfold inbox_of. simpl. destruct (decide (p' = p)) as [->|Hne]; [|by rewrite Hoth].
    rewrite Hs, Hs'. apply Hc.
Qed.

Lemma group_sizes st q qs : group_ok st q qs ->
  forall p, p ∈ members qs -> exists sub, subs st !! p = Some sub /\ psize sub < two63 - 1.
Proof.
  intros [] p Hp. destruct (gr_ok0 p Hp) as (sub & Hs & []). exists sub. split; [done|].
  unfold two63, two31 in *. lia.
Qed.

Lemma group_send e q st qs m :
  healthy e -> group_ok st q qs -> stalledSubCount qs < Z.of_nat (length (members qs)) ->
  Sequence m = lastSent qs + 1 -> lastSent qs + 2 < two64 -> Redelivered m = false ->
  exists p st' qs', sendMsgToQueueGroup e q m false st = Ok ((Some p, true), st') /\
    sent_one q st st' qs qs' p m.
Proof.
  intros He Hg Hlt Hm Hb Hrd. pose proof Hg as [].
  destruct (best_scan_pick st (members qs) gr_members0 (group_sizes _ _ _ Hg)) as (p & Hp & Hbest).
  destruct (rotate_perm (members qs) p) as (sl & Heq & _ & Hperm).
  destruct (group_candidate st q qs p Hg Hlt) as (sub & Hin & Hs & Hok & Hroom); [tauto|].
  unfold sendMsgToQueueGroup, findBestQueueSub. rewrite gr_queue0, Hp, Heq. cbn [subs put_queue set_queues].
  rewrite Hs. pose proof Hok as [].
  destruct (sendMsgToSub_new e p m (put_queue q (set_members sl qs) st) sub)
    as (st1 & sub1 & -> & E1 & E2 & E3 & [t E4] & _ & E5 & E6 & _ & E7 & E8); try done; try lia.
  { apply eq_None_not_Some. intros ?%mb_pending0. lia. }
  cbn [mbind outcome_bind]. rewrite E1, E7. simpl. rewrite lookup_insert_eq. simpl.
  destruct (member_ok_sent _ _ _ _ _ _ Hok Hroom Hm E2 E3 E4 E5) as (_ & _ & Hst0).
  assert (HL : LastSent sub1 = Sequence m) by lia.
  eexists p, _, _. split; [done|]. eapply (group_after q st st1 qs _ p m sub sub1 sl); try done.
  rewrite Hst0. destruct (stalled sub1); simpl; rewrite HL;
    (destruct (Z.ltb_spec (lastSent qs) (Sequence m)); [|lia]);
    unfold set_lastSent, set_stalledSubCount, set_members; simpl; f_equal; lia.
Qed.

Lemma group_moved st q qs l :
  group_ok st q qs -> lastSent qs <= l -> l + 1 < two64 ->
  group_ok (put_queue q (set_lastSent l qs) st) q (set_lastSent l qs).
Proof.
  intros [] Hl Hb. constructor; simpl; try done; [by rewrite lookup_insert_eq| |lia].
  intros p Hp. destruct (gr_ok0 p Hp) as (sub & Hs & Hok). exists sub. split; [done|].
  by eapply member_ok_mono.
Qed.

Lemma group_no_room st q qs :
  group_ok st q qs -> Z.of_nat (length (members qs)) <= stalledSubCount qs -> group_room st (members qs) = 0%nat.
Proof.
  intros [] Hle. rewrite gr_count0 in Hle. pose proof (all_stalled st (members qs) ltac:(lia)) as Hall.
  unfold group_room. rewrite (sum_same (fun _ => 0%nat)).
  - clear. induction (members qs); done.
  - intros p Hp. specialize (Hall p Hp). destruct (gr_ok0 p Hp) as (sub & Hs & []).
    unfold is_stalled, free in *. rewrite Hs in *. rewrite Hall in mb_stalled0. symmetry in mb_stalled0.
    apply Z.leb_le in mb_stalled0. unfold room. lia.
Qed.

Section Deliver.
Context {S : Type} `{MsgStoreSpec S}.

(** The group was sent the messages [l.*2], each to the member it is paired with. *)
Record group_sent (q : ptr) (st st' : server) (qs qs' : queueState) (l : list (ptr * MsgProto)) : Prop := {
  gs_group : group_ok st' q qs';
  gs_members : members qs' ≡ₚ members qs;
  gs_to x : x ∈ l -> x.1 ∈ members qs;
  gs_published : published st' = published st ++ ((fun x => (inbox_of st x.1, x.2)) <$> l);
  gs_inbox p : inbox_of st' p = inbox_of st p
}.

Lemma queue_loop_spec e c w q : healthy e -> view c w -> fresh_window w ->
  forall av fuel st qs,
  group_ok st q qs -> available w (lastSent qs) = av -> (length av < fuel)%nat ->
  exists st' qs' l, queue_loop fuel e c q (lastSent qs + 1) st = Ok st' /\
    group_sent q st st' qs qs' l /\ l.*2 = take (group_room st (members qs)) av /\
    available w (lastSent qs') = drop (group_room st (members qs)) av.
Proof.
  intros He Hv Hfresh. induction av as [|m av IH]; intros fuel st qs Hg Hav Hfuel;
    (destruct fuel as [|fuel]; [simpl in Hfuel; lia|]); cbn [queue_loop]; rewrite (gr_queue _ _ _ Hg);
    pose proof (gr_last _ _ _ Hg) as [Hz0 Hz1];
    (destruct (Z.ltb_spec (stalledSubCount qs) (Z.of_nat (length (members qs)))) as [Hsome|Hall];
      [|exists st, qs, []; rewrite (group_no_room _ _ _ Hg Hall); split_and!; try done;
        constructor; try done; [intros x Hx; by apply elem_of_nil in Hx|by rewrite app_nil_r]]);
    destruct (getNextMsg_spec c w (lastSent qs) Hv Hz0 Hz1) as (l & [Hl _] & Hb & -> & Hsame & Hhd);
    rewrite Hav in *; cbn [head outcome_bind mbind].
  - pose proof (group_moved _ _ _ l Hg Hl Hb) as Hg'. eexists _, (set_lastSent l qs), []. rewrite take_nil, drop_nil.
    split_and!; [done| |done|by simpl; rewrite Hsame]. constructor; try done; simpl.
    + intros x Hx. by apply elem_of_nil in Hx.
    + by rewrite app_nil_r.
  - specialize (Hhd m eq_refl).
    destruct (available_next w l m av (view_wf c w Hv) Hsame Hhd) as (Hnext & Hl2 & HlW).
    pose proof (group_moved _ _ _ l Hg Hl Hb) as Hg'.
    assert (Hrd : Redelivered m = false).
    { destruct (available_in w l m) as (f & q0 & Hw & Hin); [|by eapply Hfresh]. rewrite Hsame. by left. }
    destruct (group_send e q _ _ m He Hg') as (p & st1 & qs1 & -> & []); try done.
    cbn [lift mbind outcome_bind negb]. rewrite u64_small by (unfold is_u64; lia).
    replace (l + 1 + 1) with (lastSent qs1 + 1) by lia.
    destruct (IH fuel st1 qs1) as (st2 & qs2 & l2 & Heq & [] & Hl2' & Hav2); try done.
    { by rewrite so_lastSent0, Hhd. }
    { simpl in Hfuel. lia. }
    assert (Hroom : group_room st (members qs) = Datatypes.S (group_room st1 (members qs1))).
    { unfold group_room in *. simpl in so_room0. rewrite Nat.add_1_r in so_room0. by rewrite so_room0. }
    exists st2, qs2, ((p, m) :: l2). rewrite Hroom. simpl. split_and!; try done; [|by f_equal].
    constructor; try done; simpl.
    + by rewrite gs_members0.
    + intros x [->|Hx]%elem_of_cons; [done|]. by rewrite <- so_members0; apply gs_to0.
    + rewrite gs_published0, so_published0, <- app_assoc. simpl. do 2 f_equal.
      apply list_fmap_ext. intros i x _. by rewrite so_inbox0.
    + intros p'. by rewrite gs_inbox0, so_inbox0.
Qed.

End Deliver.
End QueueSpec.

(** ** Concrete groups *)

Module QueueSample.
Import Sub Dlv DlvSpec MemSample FlowSample QueueSpec.

(** Two members, each with room for one message. *)
Definition member_of (inbox : string) : subState :=
  mkSub 1 "me" "group" inbox "ack" 1 30 "" 0 false false "foo" (Some 0%nat) 30000000000 None
    ∅ "" None ∅ true false false false.
Definition pair_group : queueState := mkQueue 0 [0%nat; 1%nat] ∅ None 0 false.
Definition pair_server : server :=
  mkServer {[0%nat := member_of "a"; 1%nat := member_of "b"]} {[0%nat := pair_group]} ∅ ∅ false [] [].

Lemma pair_group_ok : group_ok pair_server 0%nat pair_group.
Proof.
  constructor; try done.
  - apply NoDup_cons. split; [|apply NoDup_singleton]. by intros ?%list_elem_of_singleton.
  - intros p [->|[->|Hp]%elem_of_cons]%elem_of_cons; [| |by apply elem_of_nil in Hp];
      [exists (member_of "a")|exists (member_of "b")]; (split; [reflexivity|]); constructor; try done;
      intros k [x Hx]; simpl in Hx; by rewrite lookup_empty in Hx.
Defined.

Lemma findBestQueueSub_spec_witness :
  exists p sl', findBestQueueSub pair_server [0%nat; 1%nat] = (Some p, sl') /\ sl' ≡ₚ [0%nat; 1%nat].
Proof.
  destruct (findBestQueueSub_spec pair_server [0%nat; 1%nat]) as (p & sl' & H1 & _ & H2 & _).
  - discriminate.
  - intros p Hp. exact (group_sizes _ _ _ pair_group_ok p Hp).
  - exists p, sl'. split; [exact H1|exact H2].
Defined.

End QueueSample.
