(* ===== verification/Redelivery.v ===== *)
(** * Redelivery

    Model of the redelivery part of [src/server/server.go]: the pending messages of
    a subscription in order, redelivery to a durable that is resumed, and
    redelivery of the messages whose acknowledgement is late. *)

From Stdlib Require Import ZArith Lia Ascii String.
From stdpp Require Import base list gmap strings.
From S2P Require Import Prelude GoLib MemStore MsgStore SubState Delivery.

Local Open Scope Z_scope.

Module Rdlv.
Import Sub Dlv.

(** [pendingMsg] *)
Record pendingMsg := mkPM { seq : Z; expire : Z }.

Definition bySeq (a b : Z) : bool := a <? b.

Definition byExpire (a b : pendingMsg) : bool :=
  if (expire a =? 0) || (expire b =? 0) || (expire a =? expire b)
  then seq a <? seq b else expire a <? expire b.

Definition now_limit (now : Z) : Z := i64 (now + 15000000).

Section Redelivery.
Context `{!RangeOrder Z} `{!Sorter}.

Definition makeSortedSequences (sub : subState) : list Z := sort bySeq (order (dom (acksPending sub))).

Definition makeSortedPendingMsgs (sub : subState) : list pendingMsg :=
  sort byExpire ((fun x => mkPM x.1 x.2) <$> range (acksPending sub)).

Context {S : Type} `{MsgStore S}.

(** [getMsgForRedelivery]: a message that the store lost is acknowledged. *)
Definition getMsgForRedelivery (e : env) (c : S) (p : ptr) (sequence : Z) (st : server)
  : outcome Mem.fuel_error (option MsgProto * server) :=
  match Lookup c sequence with
  | inr _ => Ok (None, st)
  | inl None => st ← processAck e c p sequence false st; Ok (None, st)
  | inl (Some m) => Ok (Some m, st)
  end.

(** Send again, unless it was acknowledged meanwhile. *)
Definition resend (e : env) (p : ptr) (m : MsgProto) (st : server) : outcome Mem.fuel_error server :=
  match subs st !! p with
  | None => Panic
  | Some sub =>
      if isMsgStillPending sub m
      then r ← lift (sendMsgToSub e p m true st); Ok r.2
      else Ok st
  end.

(** ** Durables that are resumed *)

Definition redeliver_one (e : env) (c : S) (p : ptr) (sequence : Z) (st : server)
  : outcome Mem.fuel_error server :=
  r ← getMsgForRedelivery e c p sequence st;
  match r.1 with
  | None => Ok r.2
  | Some m => resend e p (with_Redelivered m) r.2
  end.

(** [known] is whether the client is registered. *)
Definition performDurableRedelivery (e : env) (c : S) (known : string -> bool) (p : ptr) (st : server)
  : outcome Mem.fuel_error server :=
  match subs st !! p with
  | None => Panic
  | Some sub =>
      st ← (if known (ClientID sub)
            then for_each (redeliver_one e c p) (makeSortedSequences sub) st else Ok st);
      match subs st !! p with
      | None => Panic
      | Some sub' => Ok (if newOnHold sub then put_sub p (set_newOnHold false sub') st else st)
      end
  end.

(** ** Late acknowledgements *)

(** A message is given its expiration time after a restart. *)
Definition set_expire (p : ptr) (sequence expTime : Z) (m : MsgProto) (st : server) : server :=
  match subs st !! p with
  | None => st
  | Some sub =>
      if bool_decide (is_Some (acksPending sub !! sequence))
      then put_sub p (set_acksPending (<[sequence := i64 (Timestamp m + expTime)]> (acksPending sub)) sub) st
      else st
  end.

(** Redeliver to the group: whether a member was found. *)
Definition resend_group (e : env) (c : S) (p q : ptr) (m : MsgProto) (st : server)
  : outcome Mem.fuel_error (bool * server) :=
  match subs st !! p with
  | None => Panic
  | Some sub =>
      if isMsgStillPending sub m then
        r ← lift (sendMsgToQueueGroup e q m true st);
        let '((pick, sent), st) := r in
        match pick with
        | None => Ok (false, st)
        | Some p' =>
            if negb (p' =? p)%nat && sent
            then st ← processAck e c p (Sequence m) false st; Ok (true, st)
            else Ok (true, st)
        end
      else Ok (true, st)
  end.

(** The loop over the pending messages: whether one had no expiration time, and the
    time of the first that is not late. *)
Fixpoint expire_scan (e : env) (c : S) (p : ptr) (qs : option ptr) (isStartup : bool)
  (expTime limit : Z) (l : list pendingMsg) (foundWithZero : bool) (st : server)
  : outcome Mem.fuel_error (bool * Z * server) :=
  match l with
  | [] => Ok (foundWithZero, 0, st)
  | pm :: l' =>
      r ← getMsgForRedelivery e c p (seq pm) st;
      match r with
      | (None, st) => expire_scan e c p qs isStartup expTime limit l' foundWithZero st
      | (Some m, st) =>
          if foundWithZero || (expire pm =? 0) then
            expire_scan e c p qs isStartup expTime limit l' true
              (if expire pm =? 0 then set_expire p (seq pm) expTime m st else st)
          else if limit <? expire pm then Ok (false, expire pm, st)
          else
            let m := with_Redelivered m in
            match qs, isStartup with
            | Some q, false =>
                r ← resend_group e c p q m st;
                let '(found, st) := r in
                if (found : bool) then expire_scan e c p qs isStartup expTime limit l' foundWithZero st
                else Ok (foundWithZero, 0, st)
            | _, _ =>
                st ← resend e p m st;
                expire_scan e c p qs isStartup expTime limit l' foundWithZero st
            end
      end
  end.

Definition update_sub (p : ptr) (f : subState -> subState) (st : server) : server :=
  match subs st !! p with None => st | Some sub => put_sub p (f sub) st end.

(** [c] is the channel, if it still exists; [leader] is [isStandaloneOrLeader]. *)
Fixpoint performAckExpirationRedelivery (fuel : nat) (e : env) (shutdown leader : bool) (c : option S)
  (p : ptr) (isStartup : bool) (st : server) : outcome Mem.fuel_error server :=
  match fuel with
  | O => Err Mem.OutOfFuel
  | Datatypes.S fuel' =>
      if shutdown then Ok (update_sub p clearAckTimer st)
      else match subs st !! p with
      | None => Panic
      | Some sub =>
          match ackTimer sub with
          | None => Ok st
          | Some _ =>
              match makeSortedPendingMsgs sub with
              | [] => Ok (update_sub p clearAckTimer st)
              | sorted =>
                  if bool_decide (qstate sub = None) && hasFailedHB sub then
                    Ok (if leader then
                          put_sub p (set_ackTimer (Some (Armed (now e st + ackWait sub))) sub) st
                        else st)
                  else match c with
                  | None => Ok (update_sub p clearAckTimer st)
                  | Some c' =>
                      r ← expire_scan e c' p (qstate sub) isStartup (ackWait sub) (now_limit (now e st))
                            sorted false st;
                      let '(foundWithZero, nextExpirationTime, st) := r in
                      if (foundWithZero : bool)
                      then performAckExpirationRedelivery fuel' e shutdown leader c p isStartup st
                      else Ok (update_sub p (adjustAckTimer (now e st) nextExpirationTime) st)
                  end
              end
          end
      end
  end.
End Redelivery.
End Rdlv.
