(* ===== verification/RedeliverySpec.v ===== *)
(** * Redelivery to a plain subscription

    Every message whose acknowledgement is late is sent again, in the order of the
    expirations, and the timer stays armed as long as something is pending. *)

From Stdlib Require Import ZArith Lia Ascii String.
From stdpp Require Import base list gmap strings.
From S2P Require Import Prelude GoLib MemStore MsgStore SubState Delivery DeliverySpec DeliverySys Redelivery.

Local Open Scope Z_scope.

Module RdlvSpec.
Import Sub Dlv DlvSpec Rdlv.

(** ** Sending a pending message again *)

Definition again (sub : subState) (m : MsgProto) : MsgProto :=
  with_RedeliveryCount (bump_count (rdlvCount sub) (Sequence m)) (with_Redelivered m).

(** The subscription after it. *)
Definition resent_sub (m : MsgProto) (t : Z) (sub : subState) : subState :=
  set_acksPending (<[Sequence m := i64 (t + ackWait sub)]> (acksPending sub))
    (set_rdlvCount (<[Sequence m := bump_count (rdlvCount sub) (Sequence m)]> (rdlvCount sub)) sub).

(** A plain subscription with a timer, of a client that can be sent messages. *)
Record waiting_acks (sub : subState) : Prop := {
  wa_init : initialized sub = true;
  wa_client : ClientID sub <> EmptyString;
  wa_plain : qstate sub = None;
  wa_timer : is_Some (ackTimer sub)
}.

Lemma resend_again e p m t st sub :
  healthy e -> subs st !! p = Some sub -> waiting_acks sub -> 0 < Sequence m ->
  acksPending sub !! Sequence m = Some t -> t <> 0 ->
  resend e p (with_Redelivered m) st =
    Ok (put_sub p (resent_sub m t sub) (publish (Inbox sub) (again sub m) st)).
Proof.
  intros He Hp [] Hm Ht Ht0. destruct wa_timer0 as [tm Htm].
  unfold resend, isMsgStillPending. rewrite Hp. simpl. rewrite bool_decide_true by (rewrite Ht; eauto).
  unfold sendMsgToSub. rewrite Hp, wa_init0. simpl. apply String.eqb_neq in wa_client0 as ->. simpl.
  rewrite andb_false_r. simpl. unfold updateRedeliveryCount. rewrite wa_plain0. simpl.
  pose proof (marshal_nonempty e He (again sub m) Hm) as Hne. fold (again sub m).
  destruct (marshal e (again sub m)); [done|]. rewrite (no_publish_fail e He). simpl.
  unfold record_sent. simpl. rewrite lookup_insert_eq. simpl. rewrite Htm. simpl. rewrite Ht.
  destruct (Z.eqb_spec t 0) as [->|_]; [done|]. simpl.
  rewrite !put_sub_twice. unfold resent_sub, put_sub, publish, set_subs. simpl.
  by rewrite insert_insert_eq.
Qed.

(** ** The late messages *)

Section Scan.
Context `{!RangeOrder Z} `{!Sorter} {S : Type} `{MsgStoreSpec S}.

(** What happened to the subscription: the messages [ms], pending as [n], were sent
    again. *)
Record resent (p : ptr) (st st' : server) (sub sub' : subState) (n : list pendingMsg)
  (ms : list MsgProto) : Prop := {
  rs_sub : subs st' !! p = Some sub';
  rs_acks : waiting_acks sub';
  rs_config : same_config sub sub';
  rs_frame : LastSent sub' = LastSent sub /\ stalled sub' = stalled sub /\ ackTimer sub' = ackTimer sub;
  rs_published : published st' = published st ++ ((fun m => (Inbox sub, again sub m)) <$> ms);
  rs_persisted : persisted st' = persisted st;
  rs_in pm : pm ∈ n -> acksPending sub' !! seq pm = Some (i64 (expire pm + ackWait sub));
  rs_out k : k ∉ seq <$> n -> acksPending sub' !! k = acksPending sub !! k
}.

Lemma again_other sub m m' t :
  Sequence m' <> Sequence m -> again (resent_sub m t sub) m' = again sub m'.
Proof.
  intros Hne. unfold again, bump_count. simpl. by rewrite lookup_insert_ne.
Qed.

Lemma window_seq w k m : wf_window w -> Window.lookup w k = Some m -> Sequence m = k /\ 0 < k.
Proof.
  destruct w as [[f q]|]; [|done]. intros (Hf & _ & Hn). simpl.
  destruct (Z.leb_spec f k); [|done]. intros Hm. rewrite (Hn _ _ Hm). lia.
Qed.

Lemma resent_cons p st sub pm m t n ms st' sub' :
  subs st !! p = Some sub -> waiting_acks sub -> Sequence m = seq pm -> t = expire pm ->
  seq pm ∉ seq <$> n -> (forall m', m' ∈ ms -> Sequence m' <> Sequence m) ->
  resent p (put_sub p (resent_sub m t sub) (publish (Inbox sub) (again sub m) st)) st'
    (resent_sub m t sub) sub' n ms ->
  resent p st st' sub sub' (pm :: n) (m :: ms).
Proof.
  intros Hp Hw Hm -> Hnin Hne []. constructor; try done.
  - by destruct rs_config0.
  - simpl in rs_published0. rewrite rs_published0, <- app_assoc. simpl. do 2 f_equal.
    apply list_fmap_ext. intros i m' Hi. f_equal. apply again_other, Hne. by eapply list_elem_of_lookup_2.
  - intros pm' [->|Hpm]%elem_of_cons; [|by apply rs_in0].
    rewrite rs_out0 by done. simpl. by rewrite Hm, lookup_insert_eq.
  - intros k Hk. simpl in Hk. apply not_elem_of_cons in Hk as [Hk1 Hk2]. rewrite rs_out0 by done.
    simpl. by rewrite lookup_insert_ne by congruence.
Qed.

Lemma scan_late e c w p b expTime limit rest :
  healthy e -> view c w ->
  forall n st sub, subs st !! p = Some sub -> waiting_acks sub -> NoDup (seq <$> n) ->
  (forall pm, pm ∈ n -> acksPending sub !! seq pm = Some (expire pm) /\ expire pm <> 0 /\
     expire pm <= limit /\ is_Some (Window.lookup w (seq pm))) ->
  exists st' sub' ms, Forall2 (fun pm m => Window.lookup w (seq pm) = Some m) n ms /\
    resent p st st' sub sub' n ms /\
    expire_scan e c p None b expTime limit (n ++ rest) false st =
    expire_scan e c p None b expTime limit rest false st'.
Proof.
  intros He Hv. pose proof (view_wf _ _ Hv) as Hwf.
  induction n as [|pm n IH]; intros st sub Hp Hw Hnd Hall.
  - exists st, sub, []. split; [done|]. split; [|done]. constructor; try done; [by rewrite app_nil_r|].
    by intros pm ?%elem_of_nil.
  - apply NoDup_cons in Hnd as [Hnin Hnd].
    destruct (Hall pm ltac:(by left)) as (Hpend & Hz & Hlim & [m Hm]).
    destruct (window_seq w (seq pm) m Hwf Hm) as [Hsm Hpos].
    pose proof (resend_again e p m (expire pm) st sub He Hp Hw ltac:(lia)
      ltac:(by rewrite Hsm) Hz) as Hres.
    set (sub1 := resent_sub m (expire pm) sub) in *.
    set (st1 := put_sub p sub1 (publish (Inbox sub) (again sub m) st)) in *.
    destruct (IH st1 sub1) as (st' & sub' & ms & Hf2 & Hr & Heq); try done.
    { apply lookup_insert_eq. }
    { by destruct Hw. }
    { intros pm' Hpm'. destruct (Hall pm' ltac:(by right)) as (G1 & G2 & G3 & G4). split_and!; try done.
      simpl. rewrite lookup_insert_ne; [done|]. rewrite Hsm. intros Hs. apply Hnin. rewrite Hs.
      by apply list_elem_of_fmap_2. }
    exists st', sub', (m :: ms). split; [by constructor|]. split.
    + eapply resent_cons; try done. intros m' [i Hi]%list_elem_of_lookup Hs.
      destruct (Forall2_lookup_r _ _ _ _ _ Hf2 Hi) as (pm' & Hpm' & Hm').
      apply window_seq in Hm' as [Hm' _]; [|done]. apply Hnin. rewrite <- Hsm, <- Hs, Hm'.
      by eapply list_elem_of_fmap_2, list_elem_of_lookup_2.
    + simpl. unfold getMsgForRedelivery. rewrite (view_Lookup c w (seq pm) Hv), Hm. cbn [mbind outcome_bind].
      destruct (Z.eqb_spec (expire pm) 0); [done|]. simpl.
      destruct (Z.ltb_spec limit (expire pm)); [lia|]. rewrite Hres. exact Heq.
Qed.

(** ** The order of the pending messages *)

Lemma byExpire_lex a b :
  expire a <> 0 -> expire b <> 0 ->
  byExpire a b = true <-> expire a < expire b \/ (expire a = expire b /\ seq a < seq b).
Proof.
  intros Ha Hb. unfold byExpire.
  destruct (Z.eqb_spec (expire a) 0), (Z.eqb_spec (expire b) 0), (Z.eqb_spec (expire a) (expire b));
    try done; simpl; rewrite Z.ltb_lt; lia.
Qed.

Lemma byExpire_weak_order l : (forall pm, pm ∈ l -> expire pm <> 0) -> weak_order byExpire l.
Proof.
  intros Hnz. split.
  - intros a b Ha%Hnz Hb%Hnz Hab%byExpire_lex; [|done..].
    apply not_true_iff_false. rewrite byExpire_lex by done. lia.
  - intros a b c Ha%Hnz Hb%Hnz Hc%Hnz. rewrite <- !not_true_iff_false, !byExpire_lex by done. lia.
Qed.

Lemma elem_of_sorted sub pm :
  pm ∈ makeSortedPendingMsgs sub <-> acksPending sub !! seq pm = Some (expire pm).
Proof.
  unfold makeSortedPendingMsgs. rewrite sort_perm, list_elem_of_fmap. split.
  - intros ([k x] & -> & Hk). by apply elem_of_range in Hk.
  - intros Hk. exists (seq pm, expire pm). split; [by destruct pm|]. by apply elem_of_range.
Qed.

Lemma NoDup_sorted sub : NoDup (seq <$> makeSortedPendingMsgs sub).
Proof.
  unfold makeSortedPendingMsgs. rewrite sort_perm, <- list_fmap_compose.
  exact (NoDup_range_fst (acksPending sub)).
Qed.

(** Sorted, they split at any time. *)
Lemma split_at (l : list pendingMsg) limit :
  (forall pm, pm ∈ l -> expire pm <> 0) -> in_order byExpire l ->
  exists n rest, l = n ++ rest /\ (forall pm, pm ∈ n -> expire pm <= limit) /\
    (forall pm, pm ∈ rest -> limit < expire pm) /\
    (forall pm r, rest = pm :: r -> forall pm', pm' ∈ rest -> expire pm <= expire pm').
Proof.
  intros Hnz Hord. induction l as [|pm l IH].
  { exists [], []. split_and!; try done; by intros pm ?%elem_of_nil. }
  apply in_order_inv in Hord as [Hpm Hord].
  assert (Hle : forall pm', pm' ∈ l -> expire pm <= expire pm').
  { intros pm' Hpm'. pose proof (Hnz pm ltac:(by left)). pose proof (Hnz pm' ltac:(by right)).
    specialize (Hpm pm' Hpm'). rewrite <- not_true_iff_false, byExpire_lex in Hpm by done. lia. }
  destruct (Z.le_gt_cases (expire pm) limit) as [Hlate|Hlate].
  - destruct IH as (n & rest & -> & Hn & Hr & Hmin); [by intros; apply Hnz; right|done|].
    exists (pm :: n), rest. split_and!; try done. intros pm' [->|?]%elem_of_cons; [done|by apply Hn].
  - exists [], (pm :: l). split_and!; try done.
    + by intros pm' ?%elem_of_nil.
    + intros pm' [->|Hpm']%elem_of_cons; [lia|]. apply Hle in Hpm'. lia.
    + intros pm' r [= <- <-] pm'' [->|Hpm']%elem_of_cons; [lia|by apply Hle].
Qed.

Lemma scan_rest e c w p b expTime limit rest st :
  view c w ->
  (forall pm, pm ∈ rest -> expire pm <> 0 /\ limit < expire pm /\ is_Some (Window.lookup w (seq pm))) ->
  expire_scan e c p None b expTime limit rest false st = Ok (false, default 0 (expire <$> head rest), st).
Proof.
  intros Hv Hall. destruct rest as [|pm rest]; [done|]. destruct (Hall pm ltac:(by left)) as (Hz & Hl & [m Hm]).
  simpl. unfold getMsgForRedelivery. rewrite (view_Lookup c w (seq pm) Hv), Hm. cbn [mbind outcome_bind].
  destruct (Z.eqb_spec (expire pm) 0); [done|]. simpl. by destruct (Z.ltb_spec limit (expire pm)); [|lia].
Qed.

(** The whole loop, when all the messages have an expiration and are in the channel. *)
Lemma scan_all e c w p b st sub limit :
  healthy e -> view c w -> subs st !! p = Some sub -> waiting_acks sub ->
  (forall k t, acksPending sub !! k = Some t -> t <> 0 /\ is_Some (Window.lookup w k)) ->
  exists st' sub' n ms rest, makeSortedPendingMsgs sub = n ++ rest /\ in_order byExpire n /\
    (forall pm, pm ∈ n <-> acksPending sub !! seq pm = Some (expire pm) /\ expire pm <= limit) /\
    (forall k t, acksPending sub !! k = Some t -> limit < t -> default 0 (expire <$> head rest) <= t) /\
    Forall2 (fun pm m => Window.lookup w (seq pm) = Some m) n ms /\ resent p st st' sub sub' n ms /\
    expire_scan e c p None b (ackWait sub) limit (makeSortedPendingMsgs sub) false st =
      Ok (false, default 0 (expire <$> head rest), st').
Proof.
  intros He Hv Hp Hw Hall.
  assert (Hmem : forall pm, pm ∈ makeSortedPendingMsgs sub -> expire pm <> 0 /\ is_Some (Window.lookup w (seq pm))).
  { intros pm Hpm%elem_of_sorted. by apply (Hall _ _ Hpm). }
  assert (Hnz : forall pm, pm ∈ (fun x => mkPM x.1 x.2) <$> range (acksPending sub) -> expire pm <> 0).
  { intros pm Hpm. apply Hmem. unfold makeSortedPendingMsgs. by rewrite sort_perm. }
  pose proof (sort_in_order _ _ (byExpire_weak_order _ Hnz)) as Hord. fold (makeSortedPendingMsgs sub) in Hord.
  destruct (split_at _ limit (fun pm Hpm => proj1 (Hmem pm Hpm)) Hord) as (n & rest & Hsplit & Hn & Hr & Hmin).
  pose proof (NoDup_sorted sub) as Hnd. rewrite Hsplit, fmap_app in Hnd. apply NoDup_app in Hnd as (Hnd & _ & _).
  assert (Hin : forall pm, pm ∈ makeSortedPendingMsgs sub <-> pm ∈ n \/ pm ∈ rest).
  { intros pm. by rewrite Hsplit, elem_of_app. }
  destruct (scan_late e c w p b (ackWait sub) limit rest He Hv n st sub Hp Hw Hnd)
    as (st1 & sub1 & ms & Hf2 & Hres & Hscan).
  { intros pm Hpm. destruct (Hmem pm) as [? ?]; [apply Hin; by left|]. split_and!; try done; [|by apply Hn].
    apply elem_of_sorted, Hin. by left. }
  exists st1, sub1, n, ms, rest. split_and!; try done.
  - rewrite Hsplit in Hord. intros i j x y Hij Hx Hy. apply (Hord i j); [done|..]; by apply lookup_app_l_Some.
  - intros pm. rewrite <- elem_of_sorted, Hin. split; [intros Hpm; split; [by left|by apply Hn]|].
    intros [[?|Hpm] Hle]; [done|]. apply Hr in Hpm. lia.
  - intros k x Hk Hx. assert (Hpm : mkPM k x ∈ rest).
    { destruct (proj1 (Hin (mkPM k x))) as [Hpm|Hpm]; [by apply elem_of_sorted| |done].
      apply Hn in Hpm. simpl in Hpm. lia. }
    destruct rest as [|pm r]; [by apply elem_of_nil in Hpm|]. simpl. by apply (Hmin pm r eq_refl) in Hpm.
  - rewrite Hsplit, Hscan. apply (scan_rest _ _ w); [done|]. intros pm Hpm.
    destruct (Hmem pm) as [? ?]; [apply Hin; by right|]. split_and!; try done. by apply Hr.
Qed.

Lemma adjust_armed t next sub :
  is_Some (ackTimer sub) -> acksPending sub <> ∅ -> 0 <= t < two63 -> 0 <= next < two63 ->
  adjustAckTimer t next sub =
    set_ackTimer (Some (Armed (if next <=? t then t + ackWait sub else next))) sub.
Proof.
  intros [tm Htm] Hne Ht Hn. unfold adjustAckTimer. rewrite Htm.
  destruct (Nat.ltb_spec 0 (size (acksPending sub))) as [_|Hz].
  - destruct (next <=? t); [done|]. rewrite i64_small by (unfold is_i64; lia). do 3 f_equal. lia.
  - exfalso. apply Hne, map_size_empty_inv. lia.
Qed.

(** Nothing is dropped. *)
Lemma resent_pending p st st' sub sub' n ms :
  resent p st st' sub sub' n ms ->
  (forall pm, pm ∈ n -> acksPending sub !! seq pm = Some (expire pm)) ->
  dom (acksPending sub') = dom (acksPending sub).
Proof.
  intros [] Hn. apply set_eq. intros k. rewrite !elem_of_dom.
  destruct (decide (k ∈ seq <$> n)) as [Hk|Hk]; [|by rewrite rs_out0].
  apply list_elem_of_fmap in Hk as (pm & -> & Hpm). rewrite (rs_in0 pm Hpm), (Hn pm Hpm). split; by eauto.
Qed.

(** The earliest of the expirations after the limit, 0 if there is none. *)
Definition next_expiration (pend : gmap Z Z) (limit next : Z) : Prop :=
  (next = 0 /\ forall k t, pend !! k = Some t -> t <= limit) \/
  (limit < next /\ (exists k, pend !! k = Some next) /\ forall k t, pend !! k = Some t -> limit < t -> next <= t).

(** With an expiration for each message. *)
Lemma redelivery_run fuel e leader c w p isStartup st sub :
  healthy e -> view c w -> subs st !! p = Some sub -> waiting_acks sub -> hasFailedHB sub = false ->
  acksPending sub <> ∅ ->
  (forall k t, acksPending sub !! k = Some t -> 0 < t < two63 /\ is_Some (Window.lookup w k)) ->
  (forall i, 0 <= clock e i < two63) ->
  exists st' sub' n ms next,
    performAckExpirationRedelivery (Datatypes.S fuel) e false leader (Some c) p isStartup st = Ok st' /\
    subs st' !! p = Some sub' /\ in_order byExpire n /\
    (forall pm, pm ∈ n <-> acksPending sub !! seq pm = Some (expire pm) /\ expire pm <= now_limit (now e st)) /\
    Forall2 (fun pm m => Window.lookup w (seq pm) = Some m) n ms /\
    published st' = published st ++ ((fun m => (Inbox sub, again sub m)) <$> ms) /\
    (forall pm, pm ∈ n -> acksPending sub' !! seq pm = Some (i64 (expire pm + ackWait sub))) /\
    (forall k, k ∉ seq <$> n -> acksPending sub' !! k = acksPending sub !! k) /\
    next_expiration (acksPending sub) (now_limit (now e st)) next /\
    ackTimer sub' = Some (Armed (if next <=? now e st' then now e st' + ackWait sub else next)).
Proof.
  intros He Hv Hp Hw HB Hne Hall Hclock.
  destruct (scan_all e c w p isStartup st sub (now_limit (now e st)) He Hv Hp Hw)
    as (st1 & sub1 & n & ms & rest & Hsplit & Hord & Hn & Hnext & Hf2 & Hres & Hscan).
  { intros k t Hk. destruct (Hall k t Hk). split; [lia|done]. }
  pose proof (resent_pending _ _ _ _ _ _ _ Hres (fun pm Hpm => proj1 (proj1 (Hn pm) Hpm))) as Hdom.
  destruct Hres. destruct rs_frame0 as (_ & _ & Htm). pose proof Hw as [_ _ Hq [tm0 Htm0]].
  assert (Hne1 : acksPending sub1 <> ∅).
  { intros Hz. apply Hne, dom_empty_inv_L. rewrite <- Hdom, Hz. apply dom_empty_L. }
  assert (Hsorted : exists pm l, makeSortedPendingMsgs sub = pm :: l).
  { destruct (map_choose _ Hne) as (k & t & Hk). assert (mkPM k t ∈ makeSortedPendingMsgs sub) as Hin
      by by apply elem_of_sorted. destruct (makeSortedPendingMsgs sub); [by apply elem_of_nil in Hin|eauto]. }
  assert (Hnx : 0 <= default 0 (expire <$> head rest) < two63).
  { destruct rest as [|pm r]; simpl; [unfold two63; lia|].
    assert (Hpm : pm ∈ makeSortedPendingMsgs sub) by (rewrite Hsplit; set_solver +).
    apply elem_of_sorted, Hall in Hpm as [? _]. lia. }
  assert (next_expiration (acksPending sub) (now_limit (now e st)) (default 0 (expire <$> head rest))) as Hnxt.
  { destruct rest as [|pm r].
    - left. split; [done|]. intros k t Hk. destruct (Z.le_gt_cases t (now_limit (now e st))) as [Hle|Hgt]; [done|].
      assert (mkPM k t ∈ n) as [_ Hle]%Hn; [|done]. rewrite <- (app_nil_r n), <- Hsplit. by apply elem_of_sorted.
    - right. assert (Hpm : pm ∈ makeSortedPendingMsgs sub) by (rewrite Hsplit; set_solver +). apply elem_of_sorted in Hpm.
      split_and!; [|by exists (seq pm)|done]. apply Z.lt_nge. intros Hle. assert (pm ∈ n) as Hin by by apply Hn.
      pose proof (NoDup_sorted sub) as Hnd. rewrite Hsplit, fmap_app in Hnd. apply NoDup_app in Hnd as (_ & Hnd & _).
      apply (Hnd (seq pm)); [by apply list_elem_of_fmap_2|by left]. }
  set (next := default 0 (expire <$> head rest)) in *.
  exists (put_sub p (adjustAckTimer (now e st1) next sub1) st1), (adjustAckTimer (now e st1) next sub1), n, ms, next.
  cbn [performAckExpirationRedelivery]. rewrite Hp, Htm0, Hq, HB.
  destruct Hsorted as (pm & l & Hs). rewrite Hs in Hscan |- *.
  cbn [andb bool_decide]. rewrite andb_false_r. rewrite Hscan. cbn [mbind outcome_bind]. unfold update_sub. rewrite rs_sub0.
  rewrite (adjust_armed (now e st1) next sub1) by (try done; try apply Hclock; by rewrite Htm; eauto).
  simpl. rewrite lookup_insert_eq, (sc_ackWait _ _ rs_config0). by split_and!.
Qed.

(** *** After a restart *)

(** The expirations: after a restart they are not known, and are taken from the times of the
    messages. *)
Definition expirations (w : option (Z * list MsgProto)) (sub : subState) : gmap Z Z :=
  map_imap (fun k t => Some (if t =? 0 then i64 (default 0 (Timestamp <$> Window.lookup w k) + ackWait sub) else t)) (acksPending sub).

Lemma lookup_expirations w sub k :
  expirations w sub !! k = (fun t => if t =? 0 then i64 (default 0 (Timestamp <$> Window.lookup w k) + ackWait sub) else t) <$> acksPending sub !! k.
Proof. unfold expirations. rewrite map_lookup_imap. by destruct (acksPending sub !! k). Qed.

Lemma put_sub_same p sub st : subs st !! p = Some sub -> put_sub p sub st = st.
Proof. intros Hp. unfold put_sub, set_subs. rewrite insert_id by done. by destruct st. Qed.
Lemma set_acksPending_same sub : set_acksPending (acksPending sub) sub = sub.
Proof. by destruct sub. Qed.
Lemma set_acksPending_twice P P' sub : set_acksPending P (set_acksPending P' sub) = set_acksPending P sub.
Proof. done. Qed.

(** The loop gives them to the messages. *)
Lemma scan_zero e c w p b expTime limit : view c w -> forall l found st sub,
  subs st !! p = Some sub -> NoDup (seq <$> l) ->
  (forall pm, pm ∈ l -> expire pm = 0 /\ is_Some (acksPending sub !! seq pm) /\ is_Some (Window.lookup w (seq pm))) ->
  exists P, expire_scan e c p None b expTime limit l found st = Ok (found || negb (bool_decide (l = [])), 0, put_sub p (set_acksPending P sub) st) /\
    (forall pm, pm ∈ l -> P !! seq pm = Some (i64 (default 0 (Timestamp <$> Window.lookup w (seq pm)) + expTime))) /\
    (forall k, k ∉ seq <$> l -> P !! k = acksPending sub !! k).
Proof.
  intros Hv. induction l as [|pm l IH]; intros found st sub Hp Hnd Hall.
  { exists (acksPending sub). rewrite set_acksPending_same, put_sub_same by done. simpl. rewrite orb_false_r. split_and!; try done. by intros pm ?%elem_of_nil. }
  apply NoDup_cons in Hnd as [Hnin Hnd]. destruct (Hall pm ltac:(by left)) as (Hz & Hin & [m Hm]).
  set (P1 := <[seq pm := i64 (Timestamp m + expTime)]> (acksPending sub)). set (sub1 := set_acksPending P1 sub).
  destruct (IH true (put_sub p sub1 st) sub1) as (P & Heq & HP1 & HP2); [apply lookup_insert_eq|done| |].
  { intros pm' Hpm'. destruct (Hall pm' ltac:(by right)) as (G1 & G2 & G3). split_and!; try done. simpl. unfold P1.
    rewrite lookup_insert_ne; [done|]. intros Hs. apply Hnin. rewrite Hs. by apply list_elem_of_fmap_2. }
  exists P. split; [|split].
  - cbn [expire_scan]. unfold getMsgForRedelivery. rewrite (view_Lookup c w (seq pm) Hv), Hm. cbn [mbind outcome_bind]. rewrite Hz, orb_true_r. cbn [Z.eqb].
    unfold set_expire. rewrite Hp, bool_decide_true by done. fold P1 sub1. rewrite Heq. rewrite put_sub_twice. unfold sub1. rewrite set_acksPending_twice. simpl. by rewrite orb_true_r.
  - intros pm' [->|Hpm']%elem_of_cons; [|by apply HP1]. rewrite HP2 by done. simpl. unfold P1. by rewrite lookup_insert_eq, Hm.
  - intros k Hk. simpl in Hk. apply not_elem_of_cons in Hk as [Hk1 Hk2]. rewrite HP2 by done. simpl. unfold P1. by rewrite lookup_insert_ne by congruence.
Qed.

Lemma restart_pass fuel e leader c w p isStartup st sub :
  view c w -> subs st !! p = Some sub -> waiting_acks sub -> hasFailedHB sub = false -> acksPending sub <> ∅ ->
  (forall k t, acksPending sub !! k = Some t -> t = 0 /\ is_Some (Window.lookup w k)) ->
  performAckExpirationRedelivery (Datatypes.S fuel) e false leader (Some c) p isStartup st =
  performAckExpirationRedelivery fuel e false leader (Some c) p isStartup (put_sub p (set_acksPending (expirations w sub) sub) st).
Proof.
  intros Hv Hp [_ _ Hq [tm Htm]] HB Hne Hall. cbn [performAckExpirationRedelivery]. rewrite Hp, Htm, Hq, HB.
  destruct (scan_zero e c w p isStartup (ackWait sub) (now_limit (now e st)) Hv (makeSortedPendingMsgs sub) false st sub Hp (NoDup_sorted sub)) as (P & Heq & HP1 & HP2).
  { intros pm Hpm%elem_of_sorted. destruct (Hall _ _ Hpm). split_and!; [done|by eexists|done]. }
  assert (P = expirations w sub) as ->.
  { apply map_eq. intros k. rewrite lookup_expirations. destruct (acksPending sub !! k) as [t|] eqn:Hk; simpl.
    - destruct (Hall k t Hk) as [-> _]. apply (HP1 (mkPM k 0)). by apply elem_of_sorted.
    - rewrite HP2; [done|]. intros (pm & -> & Hpm%elem_of_sorted)%list_elem_of_fmap. congruence. }
  destruct (makeSortedPendingMsgs sub) as [|pm l] eqn:Hs.
  { exfalso. destruct (map_choose _ Hne) as (k & t & Hk). assert (mkPM k t ∈ makeSortedPendingMsgs sub) as Hin by by apply elem_of_sorted.
    rewrite Hs in Hin. by apply elem_of_nil in Hin. }
  rewrite andb_false_r. by rewrite Heq.
Qed.

(** [C28] Redelivery to a plain subscription of a client that answers heartbeats, when
    publishing does not fail, the pending messages are still in the channel, and either all
    of them have an expiration or, as after a restart, none has, so that it is taken from
    the times of the messages.  Exactly the messages that are late are published again, in
    the order in which they expired, flagged and with their redelivery count one higher;
    they stay pending with their expiration one ack wait later, and the others keep theirs.
    The timer is armed for the earliest of the others, or for an ack wait from now when
    there is none or its time has come. *)
Theorem performAckExpirationRedelivery_spec fuel e leader c w p isStartup st sub :
  healthy e -> view c w -> subs st !! p = Some sub -> waiting_acks sub -> hasFailedHB sub = false ->
  acksPending sub <> ∅ -> (2 <= fuel)%nat ->
  (forall k t, acksPending sub !! k = Some t -> t <> 0) \/ (forall k t, acksPending sub !! k = Some t -> t = 0) ->
  (forall k t, expirations w sub !! k = Some t -> 0 < t < two63 /\ is_Some (Window.lookup w k)) ->
  (forall i, 0 <= clock e i < two63) ->
  exists st' sub' n ms next,
    performAckExpirationRedelivery fuel e false leader (Some c) p isStartup st = Ok st' /\
    subs st' !! p = Some sub' /\ in_order byExpire n /\
    (forall pm, pm ∈ n <-> expirations w sub !! seq pm = Some (expire pm) /\ expire pm <= now_limit (now e st)) /\
    Forall2 (fun pm m => Window.lookup w (seq pm) = Some m) n ms /\
    published st' = published st ++ ((fun m => (Inbox sub, again sub m)) <$> ms) /\
    (forall pm, pm ∈ n -> acksPending sub' !! seq pm = Some (i64 (expire pm + ackWait sub))) /\
    (forall k, k ∉ seq <$> n -> acksPending sub' !! k = expirations w sub !! k) /\
    next_expiration (expirations w sub) (now_limit (now e st)) next /\
    ackTimer sub' = Some (Armed (if next <=? now e st' then now e st' + ackWait sub else next)).
Proof.
  intros He Hv Hp Hw HB Hne Hfuel Hz Hall Hclock. destruct fuel as [|[|fuel]]; [lia|lia|]. destruct Hz as [Hz|Hz].
  - assert (expirations w sub = acksPending sub) as Heq.
    { apply map_eq. intros k. rewrite lookup_expirations. destruct (acksPending sub !! k) as [t|] eqn:Hk; simpl; [|done]. destruct (Z.eqb_spec t 0); [by apply Hz in Hk|done]. }
    rewrite Heq in *. by apply redelivery_run.
  - rewrite (restart_pass _ e leader c w p isStartup st sub); try done.
    2:{ intros k t Hk. split; [by apply (Hz k)|]. apply (Hall k (i64 (default 0 (Timestamp <$> Window.lookup w k) + ackWait sub))).
        rewrite lookup_expirations, Hk. simpl. by rewrite (Hz k t Hk). }
    assert (expirations w sub <> ∅) as Hne'.
    { intros Hn. destruct (map_choose _ Hne) as (k & t & Hk). assert (expirations w sub !! k = None) as Hx by by rewrite Hn.
      by rewrite lookup_expirations, Hk in Hx. }
    destruct (redelivery_run fuel e leader c w p isStartup (put_sub p (set_acksPending (expirations w sub) sub) st) (set_acksPending (expirations w sub) sub))
      as (st' & sub' & n & ms & next & Hrun); try done; [apply lookup_insert_eq|by destruct Hw|].
    exists st', sub', n, ms, next. exact Hrun.
Qed.
End Scan.
End RdlvSpec.

(** ** Concrete subscriptions *)

Module RdlvSample.
Import Sub Dlv DlvSpec Rdlv RdlvSpec MemSample FlowSample.

(** Maps are ranged over by increasing keys here. *)
#[local] Instance by_sequence : RangeOrder Z := {|
  order X := insertion_sort Z.ltb (elements X);
  order_perm X := insertion_sort_perm Z.ltb (elements X)
|}.
#[local] Existing Instance insertion_sorter.

Definition pending_sub (pend : gmap Z Z) : subState :=
  mkSub 1 "me" "" "inbox" "ack" 10 30 "" 3 false false "foo" None 30000000000 (Some Idle) pend "" None ∅
    true false false false.
Definition pending_server (pend : gmap Z Z) : server :=
  mkServer {[0%nat := pending_sub pend]} ∅ ∅ ∅ false [] [].

(** The first message is late, the second one is not. *)
Definition one_late : gmap Z Z := {[1 := 5; 2 := 10000000000]}.

Lemma one_late_set k t : one_late !! k = Some t -> t <> 0.
Proof. unfold one_late. by intros [[<- <-]|[_ [<- <-]%lookup_singleton_Some]]%lookup_insert_Some. Defined.

Lemma one_late_ok k t : expirations sample_window (pending_sub one_late) !! k = Some t ->
  0 < t < two63 /\ is_Some (Window.lookup sample_window k).
Proof.
  rewrite lookup_expirations. destruct (acksPending (pending_sub one_late) !! k) as [t'|] eqn:Hk; [|done]. simpl in Hk.
  cbn [fmap option_fmap option_map]. destruct (Z.eqb_spec t' 0); [by apply one_late_set in Hk|]. intros [= <-]. revert Hk.
  unfold one_late. intros [[<- <-]|[_ [<- <-]%lookup_singleton_Some]]%lookup_insert_Some;
    (split; [unfold two63; lia|]); vm_compute; eauto.
Defined.

(** A clock within the range of an [int64]. *)
Definition steady_env : env :=
  mkEnv (fun _ => 1000) (fun _ => false) (fun _ => false) false (fun _ => ["m"%char]).

Lemma performAckExpirationRedelivery_spec_witness :
  exists st' ms, performAckExpirationRedelivery 2 steady_env false true (Some sample_store) 0%nat false
      (pending_server one_late) = Ok st' /\
    published st' = (fun m => ("inbox"%string, again (pending_sub one_late) m)) <$> ms.
Proof.
  destruct (performAckExpirationRedelivery_spec (H1 := memory_store_spec data_size) 2 steady_env true
    sample_store sample_window 0%nat false (pending_server one_late) (pending_sub one_late))
    as (st' & sub' & n & ms & next & H1 & _ & _ & _ & _ & H2 & _).
  - constructor; try done.
  - exact sample_store_repr.
  - reflexivity.
  - by constructor.
  - reflexivity.
  - discriminate.
  - lia.
  - left. exact one_late_set.
  - exact one_late_ok.
  - intros i. simpl. unfold two63. lia.
  - exists st', ms. split; [exact H1|exact H2].
Defined.

(** The second message has no expiration time, as after a restart; the third one is
    late, the first one is not. *)
Definition mixed : gmap Z Z := {[1 := 100000000000; 2 := 0; 3 := 5]}.

Definition three_msgs : Mem.MemoryMsgStore :=
  (Mem.Store data_size 0 (msg 3 9) (Mem.Store data_size 0 (msg 2 7)
    (Mem.Store data_size 0 (msg 1 5) (Mem.init (Mem.mkLimits 0 0 0))).2).2).2.

(** When only some of the pending messages have an expiration time, [byExpire]
    is not transitive, and a late message can hide behind one that is not: it is
    not sent again, and the timer is set for the other one. *)
Theorem mixed_expirations_hide_late :
  byExpire (mkPM 1 100000000000) (mkPM 2 0) = true /\ byExpire (mkPM 2 0) (mkPM 3 5) = true /\
  byExpire (mkPM 3 5) (mkPM 1 100000000000) = true /\
  exists st' sub', performAckExpirationRedelivery 1 steady_env false true (Some three_msgs) 0%nat false
      (pending_server mixed) = Ok st' /\ Mem.Lookup three_msgs 3 = Some (msg 3 9) /\
    subs st' !! 0%nat = Some sub' /\ published st' = [] /\ acksPending sub' !! 3 = Some 5 /\
    ackTimer sub' = Some (Armed 100000000000).
Proof.
  do 3 (split; [reflexivity|]). eexists _, _. split; [vm_compute; reflexivity|].
  do 4 (split; [vm_compute; reflexivity|]). vm_compute. reflexivity.
Qed.
End RdlvSample.
