(* ===== verification/SubStore.v ===== *)
(** * The subscriptions of a channel

    Model of [subStore] of [src/server/server.go] and of the requests that create
    and remove subscriptions: [updateState], [Remove], [processSub].  The clients
    are those of [ClientStore.v].  The identifier that the storage gives to a new
    subscription is an argument; a subscription to the ack inbox on the NATS
    connection succeeds or fails as the environment decides. *)

From Stdlib Require Import ZArith Lia Ascii String.
From stdpp Require Import base list gmap strings.
From S2P Require Import Prelude GoLib Sublist ClientStore MemStore MsgStore SubState Delivery Redelivery.

Local Open Scope Z_scope.

Module Reg.
Import Sub Dlv Rdlv.

(** ** Data *)

Record subStore := mkSubStore {
  psubs : list ptr;
  qsubs : gmap string ptr;
  durables : gmap string ptr;
  acks : gmap string ptr;
  inboxes : gmap string ptr
}.

Definition set_psubs (v : list ptr) (x : subStore) : subStore :=
  mkSubStore v (qsubs x) (durables x) (acks x) (inboxes x).
Definition set_qsubs (v : gmap string ptr) (x : subStore) : subStore :=
  mkSubStore (psubs x) v (durables x) (acks x) (inboxes x).
Definition set_durables (v : gmap string ptr) (x : subStore) : subStore :=
  mkSubStore (psubs x) (qsubs x) v (acks x) (inboxes x).
Definition set_lookups (a i : gmap string ptr) (x : subStore) : subStore :=
  mkSubStore (psubs x) (qsubs x) (durables x) a i.

Definition createSubStore : subStore := mkSubStore [] ∅ ∅ ∅ ∅.

(** The subscriptions and the objects they share. *)
Definition state : Type := subStore * server.

(** ** Adding *)

(** The group of a name, created if needed. *)
Definition group_of (name : string) (x : state) : ptr * state :=
  let '(ss, st) := x in
  match qsubs ss !! name with
  | Some q => (q, x)
  | None =>
      let q := fresh (dom (queues st)) in
      (q, (set_qsubs (<[name := q]> (qsubs ss)) ss, put_queue q (mkQueue 0 [] ∅ None 0 false) st))
  end.

Definition add_lookups (p : ptr) (sub : subState) (ss : subStore) : subStore :=
  set_lookups (<[AckInbox sub := p]> (acks ss)) (<[Inbox sub := p]> (inboxes ss)) ss.

(** What [updateState] does to the group of a queue subscriber. *)
Definition join_group (p : ptr) (sub : subState) (qs : queueState) : queueState :=
  let qs :=
    if String.eqb (ClientID sub) "" then
      if bool_decide (shadow qs = None) || (lastSent qs <? LastSent sub)
      then set_shadow (Some p) qs else qs
    else
      let qs := set_members (members qs ++ [p]) qs in
      let qs := if newOnHold sub then set_q_newOnHold true qs else qs in
      if stalled sub then set_stalledSubCount (stalledSubCount qs + 1) qs else qs in
  if lastSent qs <? LastSent sub then set_lastSent (LastSent sub) qs else qs.

Definition updateState (p : ptr) (x : state) : state :=
  match subs x.2 !! p with
  | None => x
  | Some sub =>
      if isQueueSubscriber sub then
        let '(q, (ss, st)) := group_of (QGroup sub) x in
        match queues st !! q with
        | None => x
        | Some qs =>
            (if String.eqb (ClientID sub) "" then ss else add_lookups p sub ss,
             put_sub p (set_qstate (Some q) sub) (put_queue q (join_group p sub qs) st))
        end
      else
        let ss := add_lookups p sub x.1 in
        let ss := set_psubs (psubs ss ++ [p]) ss in
        (if isDurableSubscriber sub then set_durables (<[durableKey sub := p]> (durables ss)) ss else ss,
         x.2)
  end.

(** [Store]: [CreateSub] gives an identifier to a subscription that has none; an
    error is that of [CreateSub] or of [Flush]. *)
Definition Store (e : env) (newID : Z) (p : ptr) (x : state) : bool * state :=
  let '(ss, st) := x in
  match subs st !! p with
  | None => (true, x)
  | Some sub =>
      if persist_fails e (length (persisted st)) then (false, x)
      else
        let sub := if Sub.ID sub =? 0 then set_ID newID sub else sub in
        (true, updateState p (ss, put_sub p sub (persist (CreateSub (Sub.ID sub)) st)))
  end.

(** ** Queries *)

Definition hasActiveSubs (x : state) : bool :=
  negb (bool_decide (psubs x.1 = []))
  || existsb (fun kv => match queues x.2 !! kv.2 with
                        | Some qs => negb (bool_decide (members qs = []))
                        | None => false
                        end) (map_to_list (qsubs x.1)).

Definition getAllSubs `{!RangeOrder string} (x : state) : list ptr :=
  psubs x.1 ++ (range (qsubs x.1) ≫= fun kv => match queues x.2 !! kv.2 with
                                               | Some qs => members qs
                                               | None => []
                                               end).

Definition LookupByDurable (ss : subStore) (name : string) : option ptr := durables ss !! name.
Definition LookupByAckInbox (ss : subStore) (name : string) : option ptr := acks ss !! name.
Definition LookupByInbox (ss : subStore) (name : string) : option ptr := inboxes ss !! name.

(** ** Removing *)

(** [deleteFromList]: the last element takes the place of the removed one. *)
Definition deleteFromList (p : ptr) (sl : list ptr) : list ptr * bool :=
  match removeFromList p sl with
  | Some sl' => (sl', true)
  | None => (sl, false)
  end.

(** A record written, unless the storage fails. *)
Definition try_persist (e : env) (o : persist_op) (st : server) : bool * server :=
  if persist_fails e (length (persisted st)) then (false, st) else (true, persist o st).

(** The pending messages of a member that leaves go to the other members in turn.
    [moved] holds the members that got some, by identifier; [upd] is whether the
    last message of the group has left with the member. *)
Fixpoint transfer (e : env) (groupLast expirationTime : Z) (ms : list ptr) (idx : nat)
  (l : list pendingMsg) (upd : bool) (moved : gmap Z ptr) (st : server) : bool * gmap Z ptr * server :=
  match l with
  | [] => (upd, moved, st)
  | pm :: l' =>
      match p' ← ms !! idx; (fun qsub => (p', qsub)) <$> subs st !! p' with
      | None => (upd, moved, st)
      | Some (p', qsub) =>
          let '(ok, st) := try_persist e (AddSeqPending (Sub.ID qsub) (seq pm)) st in
          if negb ok then transfer e groupLast expirationTime ms idx l' upd moved st
          else
            let upd := if upd && (seq pm =? groupLast) then false else upd in
            let qsub := if LastSent qsub <? seq pm then set_LastSent (seq pm) qsub else qsub in
            let qsub := set_acksPending (<[seq pm := expirationTime]> (acksPending qsub)) qsub in
            let moved := match moved !! Sub.ID qsub with
                         | None => <[Sub.ID qsub := p']> moved
                         | Some _ => moved
                         end in
            let st := put_sub p' qsub st in
            let st := if isClustered e then collectSentOrAck p' true (seq pm) st else st in
            let idx := if (Datatypes.S idx =? length ms)%nat then 0%nat else Datatypes.S idx in
            transfer e groupLast expirationTime ms idx l' upd moved st
      end
  end.

(** The record of the group's position goes to the shadow, or to the first member. *)
Definition update_position (e : env) (qs : queueState) (st : server) : server :=
  match (match shadow qs with Some p => Some p | None => head (members qs) end) with
  | None => st
  | Some p' =>
      match subs st !! p' with
      | None => st
      | Some qsub =>
          let qsub := set_LastSent (lastSent qs) qsub in
          (try_persist e (UpdateSub (Sub.ID qsub) (ClientID qsub) (LastSent qsub) (IsClosed qsub))
             (put_sub p' qsub st)).2
      end
  end.

(** The timers of the members that got messages fire soon. *)
Definition fire_soon (e : env) (p : ptr) (st : server) : server :=
  match subs st !! p with
  | None => st
  | Some qsub => put_sub p (set_ackTimer (Some (Armed (now e st + 100000000))) qsub) st
  end.

Section Remove.
Context `{!RangeOrder Z} `{!Sorter}.

(** A member leaves: the group, the objects, and the members that got messages.
    [sub] is the member with its client forgotten. *)
Definition leave_group (e : env) (leader unsubscribe : bool) (p : ptr) (sub : subState) (q : ptr)
  (qs : queueState) (ss : subStore) (st : server) : gmap Z ptr * state :=
  let qs := set_members (deleteFromList p (members qs)).1 qs in
  match members qs with
  | [] =>
      if negb (IsDurable sub) || unsubscribe then
        (∅, (set_qsubs (delete (QGroup sub) (qsubs ss)) ss,
             (try_persist e (DeleteSub (Sub.ID sub)) (put_queue q qs st)).2))
      else
        let qs := set_stalledSubCount 0 (set_shadow (Some p) qs) in
        (∅, (ss, update_position e qs (put_queue q qs st)))
  | _ =>
      let qs := if stalled sub && (0 <? stalledSubCount qs)
                then set_stalledSubCount (stalledSubCount qs - 1) qs else qs in
      let st := put_queue q qs st in
      let upd := LastSent sub =? lastSent qs in
      let '(upd, moved, st) :=
        if leader then
          transfer e (lastSent qs) (i64 (now e st - 1000000000)) (members qs) 0
            (makeSortedPendingMsgs sub) upd ∅ st
        else (upd, ∅, st) in
      let st := if IsDurable sub then (try_persist e (DeleteSub (Sub.ID sub)) st).2 else st in
      (moved, (ss, if upd then update_position e qs st else st))
  end.

(** [Remove], on a server that is or is not standalone or leader. *)
Definition Remove (e : env) (leader : bool) (p : ptr) (unsubscribe : bool) (x : state) : state :=
  let '(ss, st) := x in
  match subs st !! p with
  | None => x
  | Some sub0 =>
      let clientID := ClientID sub0 in
      let dkey := if isDurableSubscriber sub0 then durableKey sub0 else EmptyString in
      let sub := set_ClientID EmptyString (set_savedClientID clientID sub0) in
      let st := put_sub p sub st in
      let st := if negb (IsDurable sub) || (unsubscribe && negb (String.eqb dkey ""))
                then (try_persist e (DeleteSub (Sub.ID sub)) st).2 else st in
      let ss := set_lookups (delete (AckInbox sub) (acks ss)) (delete (Inbox sub) (inboxes ss)) ss in
      let ss := if unsubscribe && negb (String.eqb dkey "")
                then set_durables (delete dkey (durables ss)) ss else ss in
      let sub := clearAckTimer sub in
      let st := put_sub p sub st in
      match qstate sub with
      | Some q =>
          match queues st !! q with
          | None => (ss, st)
          | Some qs =>
              let '(moved, (ss, st)) := leave_group e leader unsubscribe p sub q qs ss st in
              (ss, if leader then foldr (fire_soon e) st (map_to_list moved).*2 else st)
          end
      | None =>
          let ss := set_psubs (deleteFromList p (psubs ss)).1 ss in
          if IsDurable sub && negb unsubscribe then
            let closed := set_IsClosed true (set_ClientID clientID sub) in
            (ss, (put_sub p (set_ClientID EmptyString closed)
                   (try_persist e (UpdateSub (Sub.ID closed) clientID (LastSent closed) true) st).2))
          else (ss, st)
      end
  end.
End Remove.

(** ** Subscription requests *)

(** [pb.SubscriptionRequest] *)
Record SubscriptionRequest := mkSR {
  sr_ClientID : string;
  sr_Subject : string;
  sr_QGroup : string;
  sr_Inbox : string;
  sr_MaxInFlight : Z;
  sr_AckWaitInSecs : Z;
  sr_DurableName : string;
  sr_Start : StartPosition
}.

Inductive sub_error :=
| ErrInvalidDurName | ErrDupDurable | ErrUnknownClient | ErrStore | ErrStartSequence | ErrAckSub.

Fixpoint contains_colon (s : string) : bool :=
  match s with
  | EmptyString => false
  | String c s' => Ascii.eqb c ":"%char || contains_colon s'
  end.

Definition request_key (sr : SubscriptionRequest) : string :=
  durable_key (sr_ClientID sr) (sr_Subject sr) (sr_DurableName sr).

(** A durable queue subscriber joins the group of the compound name. *)
Definition compound (sr : SubscriptionRequest) : SubscriptionRequest :=
  mkSR (sr_ClientID sr) (sr_Subject sr) (sr_DurableName sr ++ ":" ++ sr_QGroup sr)%string (sr_Inbox sr)
    (sr_MaxInFlight sr) (sr_AckWaitInSecs sr) "" (sr_Start sr).

(** The remembered subscription for a request, the request with its group's name,
    whether it is durable, and whether the start position matters. *)
Definition remembered (sr : SubscriptionRequest) (x : state)
  : outcome sub_error (option ptr * SubscriptionRequest * bool * bool * state) :=
  let '(ss, st) := x in
  if negb (String.eqb (sr_QGroup sr) "") then
    let isDurable := negb (String.eqb (sr_DurableName sr) "") in
    if isDurable && contains_colon (sr_DurableName sr) then Err ErrInvalidDurName
    else
      let sr := if isDurable then compound sr else sr in
      match qsubs ss !! sr_QGroup sr with
      | None => Ok (None, sr, isDurable, true, x)
      | Some q =>
          match queues st !! q with
          | None => Panic
          | Some qs =>
              match shadow qs with
              | None => Ok (None, sr, isDurable, false, x)
              | Some p =>
                  Ok (Some p, sr, isDurable, false,
                      (ss, put_queue q (set_members (members qs ++ [p]) (set_shadow None qs)) st))
              end
          end
      end
  else if negb (String.eqb (sr_DurableName sr) "") then
    match durables ss !! request_key sr with
    | None => Ok (None, sr, true, true, x)
    | Some p =>
        match subs st !! p with
        | None => Panic
        | Some sub => if negb (String.eqb (ClientID sub) "") then Err ErrDupDurable
                      else Ok (Some p, sr, true, false, x)
        end
    end
  else Ok (None, sr, false, true, x).

(** A remembered subscription gets the new options, but keeps its position. *)
Definition resume (e : env) (leader : bool) (sr : SubscriptionRequest) (ackInbox : string) (t : Z)
  (sub : subState) : subState :=
  let sub := set_Inbox (sr_Inbox sr) (set_ClientID (sr_ClientID sr) (set_AckInbox ackInbox sub)) in
  let sub := set_AckWaitInSecs (sr_AckWaitInSecs sr) (set_MaxInFlight (sr_MaxInFlight sr)
               (set_IsDurable true sub)) in
  let sub := set_stalled false (set_ackWait (computeAckWait (sr_AckWaitInSecs sr)) sub) in
  let sub := if (0 <? size (acksPending sub))%nat then
               let sub := set_newOnHold true sub in
               if leader then set_ackTimer (Some (Armed (t + ackWait sub))) sub else sub
             else sub in
  let sub := set_IsClosed false sub in
  let sub := set_replicate (set_stopped false <$> replicate sub) sub in
  set_initialized false (set_hasFailedHB false sub).

Definition new_sub (sr : SubscriptionRequest) (ackInbox : string) (isDurable : bool) (subID last : Z)
  : subState :=
  mkSub subID (sr_ClientID sr) (sr_QGroup sr) (sr_Inbox sr) ackInbox (sr_MaxInFlight sr)
    (sr_AckWaitInSecs sr) (sr_DurableName sr) last isDurable false (sr_Subject sr) None
    (computeAckWait (sr_AckWaitInSecs sr)) None ∅ "" None ∅ false false false false.

Definition updateDurable (e : env) (p : ptr) (clientID : string) (cl : clientStore) (x : state)
  : option sub_error * clientStore * state :=
  let '(ok, cl) := addSub cl clientID p in
  if negb ok then (Some ErrUnknownClient, cl, x)
  else
    let '(ss, st) := x in
    match subs st !! p with
    | None => (Some ErrStore, cl, x)
    | Some sub =>
        let '(ok, st) := try_persist e (UpdateSub (Sub.ID sub) (ClientID sub) (LastSent sub) (IsClosed sub)) st in
        if negb ok then (Some ErrStore, cl, (ss, st))
        else
          let ss := if isDurableSubscriber sub then set_psubs (psubs ss ++ [p]) ss else ss in
          (None, cl, (add_lookups p sub ss, st))
    end.

Definition addSubscription (e : env) (newID : Z) (p : ptr) (cl : clientStore) (x : state)
  : option sub_error * clientStore * state :=
  match subs x.2 !! p with
  | None => (Some ErrStore, cl, x)
  | Some sub =>
      let '(ok, cl) := addSub cl (ClientID sub) p in
      if negb ok then (Some ErrUnknownClient, cl, x)
      else
        let '(ok, x) := Store e newID p x in
        if negb ok then (Some ErrStore, (removeSub cl (ClientID sub) p).2, x) else (None, cl, x)
  end.

Section Process.
Context `{!RangeOrder Z} `{!Sorter} {S : Type} `{MsgStore S}.

(** A new subscription object; its address, whether it is stored. *)
Definition create_sub (e : env) (c : S) (newID : Z) (sr : SubscriptionRequest) (ackInbox : string)
  (isDurable setStartPos : bool) (subID : Z) (cl : clientStore) (x : state)
  : ptr * option sub_error * clientStore * state :=
  let '(ss, st) := x in
  let p := fresh (dom (subs st)) in
  match (if setStartPos then setSubStartSequence c (sr_Start sr) else Ok 0) with
  | Ok last =>
      let st := put_sub p (new_sub sr ackInbox isDurable subID last) st in
      let '(err, cl, x) := addSubscription e newID p cl (ss, st) in
      (p, err, cl, x)
  | _ => (p, Some ErrStartSequence, cl,
          (ss, put_sub p (new_sub sr ackInbox isDurable 0 0) st))
  end.

(** [processSub].  [ackSub] tells whether the subscription to the ack inbox succeeds. *)
Definition processSub (e : env) (leader ackSub : bool) (c : S) (newID : Z) (sr : SubscriptionRequest)
  (ackInbox : string) (subID nextSubID : Z) (cl : clientStore) (x : state)
  : outcome Empty_set ((ptr + sub_error) * Z * clientStore * state) :=
  match remembered sr x with
  | Panic => Panic
  | Err err => Ok (inr err, nextSubID, cl, x)
  | Ok (o, sr, isDurable, setStartPos, x) =>
      let '(p, err, nextSubID, cl, x) :=
        match o with
        | Some p =>
            let st := update_sub p (resume e leader sr ackInbox (now e x.2)) x.2 in
            let '(err, cl, x) := updateDurable e p (sr_ClientID sr) cl (x.1, st) in
            (p, err, nextSubID, cl, x)
        | None =>
            let '(p, err, cl, x) := create_sub e c newID sr ackInbox isDurable setStartPos subID cl x in
            (p, err,
             if bool_decide (err = None) && (0 <? subID) && (nextSubID <=? subID)
             then u64 (subID + 1) else nextSubID, cl, x)
        end in
      let err := if bool_decide (err = None) && leader && negb ackSub then Some ErrAckSub else err in
      match err with
      | None => Ok (inl p, nextSubID, cl, x)
      | Some err =>
          Ok (inr err, nextSubID, (removeSub cl (sr_ClientID sr) p).2,
              Remove e leader p (bool_decide (o = None)) x)
      end
  end.

(** [unsubscribeSub], for [Close] or [Unsubscribe] of a subscription. *)
Definition unsubscribeSub (e : env) (leader : bool) (clientID : string) (p : ptr) (isSubClose : bool)
  (cl : clientStore) (x : state) : option sub_error * clientStore * state :=
  let '(ok, cl) := removeSub cl clientID p in
  if negb ok then (Some ErrUnknownClient, cl, x)
  else (None, cl, Remove e leader p (negb isSubClose) x).
End Process.
End Reg.
