(* ===== verification/SubStoreSpec.v ===== *)
(** * Subscriptions come, go and come back

    What [Remove] leaves behind, that a durable resumes where it stopped, and some
    runs that show limits of the design. *)

From Stdlib Require Import ZArith Lia Ascii String.
From stdpp Require Import base list gmap strings.
From S2P Require Import Prelude GoLib Sublist ClientStore MemStore MsgStore SubState Delivery DeliverySpec DeliverySys Redelivery RedeliverySpec SubStore.

Local Open Scope Z_scope.

Module RegSpec.
Import Sub Dlv DlvSpec Rdlv Reg.

(** A group whose members all count as stalled is sent nothing. *)
Lemma queue_all_stalled {S : Type} `{MsgStore S} e (c : S) q st qs :
  queues st !! q = Some qs -> Z.of_nat (length (members qs)) <= stalledSubCount qs ->
  sendAvailableMessagesToQueue e c q st = Ok st.
Proof.
  intros Hq Hle. unfold sendAvailableMessagesToQueue, send_fuel. rewrite Hq.
  destruct (members qs) as [|p ms] eqn:Hms; [done|]. destruct (q_newOnHold qs); [done|].
  rewrite Nat.add_comm. simpl. rewrite Hq, Hms. by destruct (Z.ltb_spec (stalledSubCount qs) (Z.of_nat (length (p :: ms)))); [lia|].
Qed.

(** ** A member leaves its group *)

(** Subscriptions keep their identifiers and their pending messages, records stay. *)
Definition grows (st st' : server) : Prop :=
  (forall p s, subs st !! p = Some s -> exists s', subs st' !! p = Some s' /\ Sub.ID s' = Sub.ID s /\
     forall k, is_Some (acksPending s !! k) -> is_Some (acksPending s' !! k)) /\
  (forall o, o ∈ persisted st -> o ∈ persisted st').

#[local] Instance grows_preorder : PreOrder grows.
Proof.
  split.
  - intros st. split; [|done]. intros p s Hs. by exists s.
  - intros a b c [H1 H1'] [H2 H2']. split; [|by auto]. intros p s Hs.
    destruct (H1 p s Hs) as (s1 & Hs1 & Hi1 & Hk1). destruct (H2 p s1 Hs1) as (s2 & Hs2 & Hi2 & Hk2).
    exists s2. split_and!; try done; [congruence|]. auto.
Qed.

Lemma grows_put p s s' st :
  subs st !! p = Some s -> Sub.ID s' = Sub.ID s ->
  (forall k, is_Some (acksPending s !! k) -> is_Some (acksPending s' !! k)) ->
  grows st (put_sub p s' st).
Proof.
  intros Hs Hi Hk. split; [|done]. intros p' s0 Hs0. simpl.
  destruct (decide (p' = p)) as [->|Hne]; [rewrite lookup_insert_eq|rewrite lookup_insert_ne by done]; [|by exists s0].
  exists s'. by simplify_eq.
Qed.

Lemma grows_persist e o st : grows st (try_persist e o st).2.
Proof.
  unfold try_persist. destruct (persist_fails e _); [done|]. split; [intros p s Hs; by exists s|].
  intros o' Ho. simpl. apply elem_of_app. by left.
Qed.

Lemma grows_collect e p sent k st :
  grows st (if isClustered e then collectSentOrAck p sent k st else st).
Proof.
  destruct (subs st !! p) as [sub|] eqn:Hp.
  - destruct (collect_frame e p sent k st sub Hp) as (_ & Hper & _ & Hsubs).
    split; [|by rewrite Hper]. intros p' s Hs. rewrite Hsubs.
    destruct (decide (p' = p)) as [->|Hne]; [rewrite lookup_insert_eq|rewrite lookup_insert_ne by done]; [|by exists s].
    eexists. split; [done|]. by simplify_eq.
  - destruct (isClustered e); [|done]. unfold collectSentOrAck. by rewrite Hp.
Qed.

(** Message [k] is pending for [p], and recorded. *)
Definition holds_msg (st : server) (p : ptr) (k : Z) : Prop :=
  exists s, subs st !! p = Some s /\ is_Some (acksPending s !! k) /\ AddSeqPending (Sub.ID s) k ∈ persisted st.

Lemma holds_grows st st' p k : grows st st' -> holds_msg st p k -> holds_msg st' p k.
Proof.
  intros [H1 H2] (s & Hs & Hk & Ho). destruct (H1 p s Hs) as (s' & Hs' & Hi & Hk').
  exists s'. split_and!; [done|by apply Hk'|]. rewrite Hi. by apply H2.
Qed.

(** The members that got messages, by their identifiers. *)
Definition tracked (st : server) (ms : list ptr) (moved : gmap Z ptr) : Prop :=
  forall i p, moved !! i = Some p -> p ∈ ms /\ exists s, subs st !! p = Some s /\ Sub.ID s = i.

Lemma tracked_grows st st' ms moved : grows st st' -> tracked st ms moved -> tracked st' ms moved.
Proof.
  intros [H1 _] Ht i p Hi. destruct (Ht i p Hi) as (Hp & s & Hs & Hid). split; [done|].
  destruct (H1 p s Hs) as (s' & Hs' & Hi' & _). exists s'. split; [done|congruence].
Qed.

(** A member took over message [k]. *)
Definition taken (st : server) (ms : list ptr) (moved : gmap Z ptr) (k : Z) : Prop :=
  exists p s, p ∈ ms /\ holds_msg st p k /\ subs st !! p = Some s /\ is_Some (moved !! Sub.ID s).

Lemma taken_grows st st' ms moved moved' k :
  grows st st' -> (forall i, is_Some (moved !! i) -> is_Some (moved' !! i)) ->
  taken st ms moved k -> taken st' ms moved' k.
Proof.
  intros Hg Hm (p & s & Hp & Hh & Hs & Hi). pose proof Hg as [H1 _].
  destruct (H1 p s Hs) as (s' & Hs' & Hid & _). exists p, s'. split_and!; try done.
  - by eapply holds_grows.
  - rewrite Hid. by apply Hm.
Qed.

(** One message moves to member [p'], whose object is [qsub]. *)
Definition move_one (e : env) (expTime : Z) (p' : ptr) (qsub : subState) (k : Z) (st : server) : server :=
  let st := persist (AddSeqPending (Sub.ID qsub) k) st in
  let qsub := if LastSent qsub <? k then set_LastSent k qsub else qsub in
  let st := put_sub p' (set_acksPending (<[k := expTime]> (acksPending qsub)) qsub) st in
  if isClustered e then collectSentOrAck p' true k st else st.

Lemma move_one_spec e expTime p' qsub k st :
  subs st !! p' = Some qsub ->
  grows st (move_one e expTime p' qsub k st) /\ holds_msg (move_one e expTime p' qsub k st) p' k /\
  queues (move_one e expTime p' qsub k st) = queues st.
Proof.
  intros Hs. unfold move_one.
  set (q1 := if LastSent qsub <? k then set_LastSent k qsub else qsub).
  assert (Hq : Sub.ID q1 = Sub.ID qsub /\ acksPending q1 = acksPending qsub) by (subst q1; by destruct (_ <? _)).
  destruct Hq as [Hid Hpd]. set (st1 := put_sub p' _ _).
  assert (Hs1 : subs st1 !! p' = Some (set_acksPending (<[k := expTime]> (acksPending q1)) q1))
    by apply lookup_insert_eq.
  pose proof (grows_collect e p' true k st1) as Hg2.
  assert (Hg1 : grows st st1).
  { transitivity (persist (AddSeqPending (Sub.ID qsub) k) st).
    - split; [intros p s Hp; by exists s|]. intros o Ho. apply elem_of_app. by left.
    - apply (grows_put p' qsub); [done|done|]. simpl. rewrite Hpd. intros j [x Hx].
      destruct (decide (j = k)) as [->|Hne]; [rewrite lookup_insert_eq|rewrite lookup_insert_ne by done]; eauto. }
  split_and!.
  - by etransitivity.
  - eapply holds_grows; [exact Hg2|]. eexists. split; [exact Hs1|]. simpl. rewrite lookup_insert_eq.
    split; [eauto|]. rewrite Hid. apply elem_of_app. right. by left.
  - destruct (collect_frame e p' true k st1 _ Hs1) as (_ & _ & -> & _). done.
Qed.

(** The member is tracked from now on. *)
Definition track (moved : gmap Z ptr) (i : Z) (p : ptr) : gmap Z ptr :=
  match moved !! i with None => <[i := p]> moved | Some _ => moved end.

Lemma transfer_cons e groupLast expTime ms idx pm l upd moved st p' qsub :
  healthy e -> ms !! idx = Some p' -> subs st !! p' = Some qsub ->
  exists upd', transfer e groupLast expTime ms idx (pm :: l) upd moved st =
    transfer e groupLast expTime ms (if (Datatypes.S idx =? length ms)%nat then 0%nat else Datatypes.S idx) l upd'
      (track moved (Sub.ID qsub) p') (move_one e expTime p' qsub (seq pm) st).
Proof.
  intros He Hp Hs. eexists. cbn [transfer]. rewrite Hp. cbn [mbind option_bind]. rewrite Hs. cbn [fmap option_fmap option_map].
  unfold try_persist. rewrite (no_persist_fail e He). cbn [negb].
  replace (Sub.ID (set_acksPending _ _)) with (Sub.ID qsub) by (by destruct (_ <? _)). reflexivity.
Qed.

Lemma tracked_track st ms moved p s :
  tracked st ms moved -> p ∈ ms -> subs st !! p = Some s ->
  tracked st ms (track moved (Sub.ID s) p) /\ is_Some (track moved (Sub.ID s) p !! Sub.ID s) /\
  (forall i, is_Some (moved !! i) -> is_Some (track moved (Sub.ID s) p !! i)).
Proof.
  intros Ht Hp Hs. unfold track. destruct (moved !! Sub.ID s) as [p0|] eqn:Hm; [split_and!; eauto|].
  split_and!.
  - intros i p1. destruct (decide (i = Sub.ID s)) as [->|Hne].
    + rewrite lookup_insert_eq. intros [= <-]. eauto.
    + rewrite lookup_insert_ne by done. apply Ht.
  - rewrite lookup_insert_eq. eauto.
  - intros i Hi. destruct (decide (i = Sub.ID s)) as [->|Hne];
      [rewrite lookup_insert_eq; eauto|by rewrite lookup_insert_ne].
Qed.

Lemma transfer_spec e groupLast expTime ms :
  healthy e -> ms <> [] ->
  forall l idx upd moved st,
  (idx < length ms)%nat -> (forall p, p ∈ ms -> is_Some (subs st !! p)) -> tracked st ms moved ->
  let r := transfer e groupLast expTime ms idx l upd moved st in
  grows st r.2 /\ queues r.2 = queues st /\ tracked r.2 ms r.1.2 /\
  (forall i, is_Some (moved !! i) -> is_Some (r.1.2 !! i)) /\
  (forall pm, pm ∈ l -> taken r.2 ms r.1.2 (seq pm)).
Proof.
  intros He Hne. induction l as [|pm l IH]; intros idx upd moved st Hidx Hall Ht.
  { simpl. split_and!; try done. by intros pm Hpm%elem_of_nil. }
  destruct (lookup_lt_is_Some_2 ms idx Hidx) as [p' Hp'].
  pose proof (list_elem_of_lookup_2 _ _ _ Hp') as Hin. destruct (Hall p' Hin) as [qsub Hs].
  destruct (transfer_cons e groupLast expTime ms idx pm l upd moved st p' qsub He Hp' Hs) as (upd' & ->).
  destruct (move_one_spec e expTime p' qsub (seq pm) st Hs) as (Hg & Hh & Hq).
  destruct (tracked_track st ms moved p' qsub Ht Hin Hs) as (Ht1 & Hin1 & Hmono).
  set (st1 := move_one e expTime p' qsub (seq pm) st) in *. set (moved1 := track moved _ _) in *.
  set (idx1 := if (Datatypes.S idx =? length ms)%nat then 0%nat else _).
  destruct (IH idx1 upd' moved1 st1) as (Hg' & Hq' & Ht' & Hmono' & Htk).
  { subst idx1. destruct (Nat.eqb_spec (Datatypes.S idx) (length ms)); lia. }
  { intros p Hp. destruct (Hall p Hp) as [s Hps]. destruct (proj1 Hg p s Hps) as (s' & -> & _). eauto. }
  { by eapply tracked_grows. }
  split_and!; try done.
  - by etransitivity.
  - congruence.
  - auto.
  - intros pm' [->|Hpm]%elem_of_cons; [|by apply Htk].
    eapply taken_grows; [exact Hg'|exact Hmono'|]. destruct (proj1 Hg p' qsub Hs) as (s1 & Hs1 & Hid & _).
    exists p', s1. split_and!; try done. by rewrite Hid.
Qed.

(** The timers are set. *)
Lemma fire_all_spec e l : forall st,
  let st' := foldr (fire_soon e) st l in
  grows st st' /\ queues st' = queues st /\ persisted st' = persisted st /\ published st' = published st /\
  (forall p s, p ∈ l -> subs st !! p = Some s -> exists s', subs st' !! p = Some s' /\
     ackTimer s' = Some (Armed (now e st + 100000000))).
Proof.
  induction l as [|p l IH]; intros st; simpl; [split_and!; try done; by intros p s Hp%elem_of_nil|].
  destruct (IH st) as (Hg & Hq & Hper & Hpub & Ht). set (st1 := foldr (fire_soon e) st l) in *.
  unfold fire_soon at 1 2 3 4 5. destruct (subs st1 !! p) as [s1|] eqn:Hs1; simpl.
  - assert (Hnow : now e st1 = now e st) by (unfold now; by rewrite Hper, Hpub). split_and!; try done.
    + etransitivity; [exact Hg|]. by apply (grows_put p s1).
    + intros p' s [->|Hp']%elem_of_cons Hs; [rewrite lookup_insert_eq; eexists; by rewrite <- Hnow|].
      destruct (decide (p' = p)) as [->|Hne]; [rewrite lookup_insert_eq; eexists; by rewrite <- Hnow|].
      rewrite lookup_insert_ne by done. by eapply Ht.
  - split_and!; try done. intros p' s [->|Hp']%elem_of_cons Hs; [|by eapply Ht].
    destruct (proj1 Hg p s Hs) as (s' & Hs' & _). congruence.
Qed.

Lemma grows_position e qs st :
  grows st (update_position e qs st) /\ queues (update_position e qs st) = queues st.
Proof.
  unfold update_position. destruct (match shadow qs with Some p => Some p | None => head (members qs) end) as [p'|]; [|done].
  destruct (subs st !! p') as [s|] eqn:Hs; [|done]. split.
  - etransitivity; [|apply grows_persist]. by apply (grows_put p' s).
  - unfold try_persist. by destruct (persist_fails e _).
Qed.

Lemma queues_persist e o st : queues (try_persist e o st).2 = queues st.
Proof. unfold try_persist. by destruct (persist_fails e _). Qed.

Lemma deleteFromList_perm p sl : p ∈ sl -> sl ≡ₚ p :: (deleteFromList p sl).1.
Proof.
  intros Hp. unfold deleteFromList. destruct (removeFromList p sl) as [l|] eqn:Hr; simpl.
  - by apply removeFromList_Some.
  - by apply removeFromList_None in Hr.
Qed.

Section Leave.
Context `{!RangeOrder Z} `{!Sorter}.

(** The identifiers of the members tell them apart. *)
Definition distinct_ids (st : server) (ms : list ptr) : Prop :=
  forall p1 p2 s1 s2, p1 ∈ ms -> p2 ∈ ms -> subs st !! p1 = Some s1 -> subs st !! p2 = Some s2 ->
    Sub.ID s1 = Sub.ID s2 -> p1 = p2.

Lemma taken_tracked st0 st ms moved k :
  grows st0 st -> distinct_ids st0 ms -> (forall p, p ∈ ms -> is_Some (subs st0 !! p)) ->
  tracked st ms moved -> taken st ms moved k ->
  exists p, p ∈ ms /\ holds_msg st p k /\ p ∈ (map_to_list moved).*2.
Proof.
  intros [Hg _] Hd Hall Ht (p & s & Hp & Hh & Hs & [p0 Hm]).
  destruct (Ht _ _ Hm) as (Hp0 & s0 & Hs0 & Hid0). destruct (Hall p Hp) as [s1 Hs1].
  destruct (Hall p0 Hp0) as [s2 Hs2]. destruct (Hg p s1 Hs1) as (s' & Hs' & Hid' & _).
  destruct (Hg p0 s2 Hs2) as (s0' & Hs0' & Hid0' & _). simplify_eq.
  assert (p0 = p) as -> by (apply (Hd p0 p s2 s1); try done; congruence).
  exists p. split_and!; try done. apply list_elem_of_fmap. exists (Sub.ID s, p). split; [done|].
  by apply elem_of_map_to_list.
Qed.

(** The part of [Remove] on the group, for a leader and a group that keeps members. *)
Lemma leave_group_spec e unsubscribe p sub q qs ss st :
  healthy e -> queues st !! q = Some qs -> p ∈ members qs -> NoDup (members qs) ->
  (2 <= length (members qs))%nat -> (forall p', p' ∈ members qs -> is_Some (subs st !! p')) ->
  distinct_ids st (members qs) ->
  let r := leave_group e true unsubscribe p sub q qs ss st in
  exists qs', queues r.2.2 !! q = Some qs' /\ members qs ≡ₚ p :: members qs' /\ grows st r.2.2 /\
    (forall k, is_Some (acksPending sub !! k) ->
       exists p', p' ∈ members qs' /\ holds_msg r.2.2 p' k /\ p' ∈ (map_to_list r.1).*2).
Proof.
  intros He Hq Hp Hnd Hlen Hall Hd. pose proof (deleteFromList_perm p (members qs) Hp) as Hperm.
  unfold leave_group. cbn [members set_members]. destruct (deleteFromList p (members qs)).1 as [|m0 ms'] eqn:Hms.
  { apply Permutation_length in Hperm. simpl in Hperm. lia. }
  set (ms := m0 :: ms') in *.
  set (qs1 := if _ && _ then set_stalledSubCount _ _ else _).
  assert (Hqs1 : members qs1 = ms) by (subst qs1; by destruct (_ && _)). rewrite Hqs1.
  assert (Hsub : forall p', p' ∈ ms -> p' ∈ members qs) by (intros p' Hp'; rewrite Hperm; by right).
  set (st1 := put_queue q qs1 st).
  destruct (transfer_spec e (lastSent qs1) (i64 (now e st1 - 1000000000)) ms He ltac:(done)
    (makeSortedPendingMsgs sub) 0 (LastSent sub =? lastSent qs1) ∅ st1) as (Hg & Hqq & Ht & _ & Htk).
  { simpl. lia. }
  { intros p' Hp'. by apply Hall, Hsub. }
  { by intros i p' Hi. }
  destruct (transfer _ _ _ _ _ _ _ _ _) as [[upd moved] st2]. cbn [fst snd] in *.
  set (st3 := if IsDurable sub then _ else st2).
  assert (Hg3 : grows st2 st3 /\ queues st3 = queues st2).
  { subst st3. destruct (IsDurable sub); [|done]. split; [apply grows_persist|apply queues_persist]. }
  set (st4 := if upd then _ else st3).
  assert (Hg4 : grows st3 st4 /\ queues st4 = queues st3) by (subst st4; destruct upd; [apply grows_position|done]).
  exists qs1. split_and!.
  - rewrite (proj2 Hg4), (proj2 Hg3), Hqq. apply lookup_insert_eq.
  - by rewrite Hqs1.
  - change (subs st) with (subs st1) in *. etransitivity; [|exact (proj1 Hg4)]. etransitivity; [|exact (proj1 Hg3)]. exact Hg.
  - intros k [t Hk]. rewrite Hqs1.
    destruct (taken_tracked st1 st2 ms moved k Hg) as (p' & Hp' & Hh & Hin); [| |done| |].
    + intros p1 p2 s1 s2 H1 H2. apply Hd; by apply Hsub.
    + intros p' Hp'. by apply Hall, Hsub.
    + apply (Htk (mkPM k t)). by apply RdlvSpec.elem_of_sorted.
    + exists p'. split_and!; try done. eapply holds_grows; [exact (proj1 Hg4)|].
      by eapply holds_grows; [exact (proj1 Hg3)|].
Qed.

(** [C29] A member that leaves a queue group, by closing or unsubscribing, leaves no
    message behind: each of its pending messages is pending for one of the members
    that stay, recorded as such in the storage, and the timer of that member is
    armed, so that the message is sent again; what the others had pending they
    still have.  Publishing and storage do not fail, and the server runs alone or is the
    leader. *)
Theorem Remove_transfers e p q x sub qs unsubscribe :
  healthy e -> subs x.2 !! p = Some sub -> qstate sub = Some q -> queues x.2 !! q = Some qs ->
  p ∈ members qs -> NoDup (members qs) -> (2 <= length (members qs))%nat ->
  (forall p', p' ∈ members qs -> is_Some (subs x.2 !! p')) -> distinct_ids x.2 (members qs) ->
  let x' := Remove e true p unsubscribe x in
  exists qs', queues x'.2 !! q = Some qs' /\ members qs ≡ₚ p :: members qs' /\
    (forall k, is_Some (acksPending sub !! k) -> exists p' s' d, p' ∈ members qs' /\
       subs x'.2 !! p' = Some s' /\ is_Some (acksPending s' !! k) /\
       AddSeqPending (Sub.ID s') k ∈ persisted x'.2 /\ ackTimer s' = Some (Armed d)) /\
    (forall p' s, subs x.2 !! p' = Some s -> exists s', subs x'.2 !! p' = Some s' /\
       forall k, is_Some (acksPending s !! k) -> is_Some (acksPending s' !! k)).
Proof.
  destruct x as [ss st]. cbn [snd]. intros He Hs Hqs Hq Hp Hnd Hlen Hall Hd. unfold Remove. rewrite Hs.
  set (sub1 := set_ClientID EmptyString (set_savedClientID (ClientID sub) sub)).
  set (dkey := if isDurableSubscriber sub then _ else _).
  set (st1 := if _ || _ then _ else put_sub p sub1 st).
  assert (Hg1 : grows st st1 /\ queues st1 = queues st /\ subs st1 !! p = Some sub1).
  { subst st1. assert (Hg0 : grows st (put_sub p sub1 st)) by (by apply (grows_put p sub)).
    destruct (_ || _); [|by split_and!; [|done|apply lookup_insert_eq]]. split_and!.
    - etransitivity; [exact Hg0|apply grows_persist].
    - by rewrite queues_persist.
    - unfold try_persist. destruct (persist_fails e _); apply lookup_insert_eq. }
  destruct Hg1 as (Hg1 & Hq1 & Hs1). set (ss1 := if _ && _ then _ else _). set (sub2 := clearAckTimer sub1).
  set (st2 := put_sub p sub2 st1).
  assert (Hg2 : grows st st2) by (etransitivity; [exact Hg1|]; by apply (grows_put p sub1)).
  change (qstate sub2) with (qstate sub). rewrite Hqs. change (queues st2) with (queues st1). rewrite Hq1, Hq.
  assert (Hall2 : forall p', p' ∈ members qs -> is_Some (subs st2 !! p')).
  { intros p' Hp'. destruct (Hall p' Hp') as [s Hs']. destruct (proj1 Hg2 p' s Hs') as (s' & -> & _). eauto. }
  assert (Hd2 : distinct_ids st2 (members qs)).
  { intros p1 p2 s1 s2 H1 H2 E1 E2 Hid. destruct (Hall p1 H1) as [t1 T1], (Hall p2 H2) as [t2 T2].
    destruct (proj1 Hg2 p1 t1 T1) as (s1' & F1 & G1 & _), (proj1 Hg2 p2 t2 T2) as (s2' & F2 & G2 & _).
    simplify_eq. apply (Hd p1 p2 t1 t2); try done. congruence. }
  destruct (leave_group_spec e unsubscribe p sub2 q qs ss1 st2 He) as (qs' & Hq' & Hperm & Hg3 & Htk); try done.
  { change (queues st2) with (queues st1). by rewrite Hq1. }
  destruct (leave_group e true unsubscribe p sub2 q qs ss1 st2) as [moved [ss3 st3]]. cbn [fst snd] in *.
  destruct (fire_all_spec e (map_to_list moved).*2 st3) as (Hg4 & Hq4 & Hper4 & _ & Htm).
  set (st4 := foldr (fire_soon e) st3 (map_to_list moved).*2) in *.
  exists qs'. split_and!; try done; [by rewrite Hq4| |].
  - intros k Hk. destruct (Htk k Hk) as (p' & Hp' & (s3 & Hs3 & Hk3 & Ho3) & Hin).
    destruct (Htm p' s3 Hin Hs3) as (s4 & Hs4 & Ht4). destruct (proj1 Hg4 p' s3 Hs3) as (s4' & Hs4' & Hid & Hk4).
    simplify_eq. exists p', s4, (now e st3 + 100000000). split_and!; try done; [by apply Hk4|].
    rewrite Hid, Hper4. done.
  - intros p' s Hps. assert (Hg : grows st st4) by (etransitivity; [exact Hg2|]; etransitivity; [exact Hg3|exact Hg4]).
    destruct (proj1 Hg p' s Hps) as (s' & Hs' & _ & Hk). by exists s'.
Qed.
End Leave.

(** ** Durables *)

Section Durable.
Context `{!RangeOrder Z} `{!Sorter} {S : Type} `{MsgStore S}.

(** A durable subscription that is not a queue member, known under its key. *)
Record durable_sub (p : ptr) (x : state) (sub : subState) : Prop := {
  du_sub : subs x.2 !! p = Some sub;
  du_plain : qstate sub = None;
  du_durable : IsDurable sub = true;
  du_name : DurableName sub <> EmptyString;
  du_client : ClientID sub <> EmptyString;
  du_key : durables x.1 !! durableKey sub = Some p
}.

(** The subscription once it is closed. *)
Definition closed_sub (sub : subState) : subState :=
  set_ClientID EmptyString (set_IsClosed true (set_ClientID (ClientID sub)
    (clearAckTimer (set_ClientID EmptyString (set_savedClientID (ClientID sub) sub))))).

Lemma Remove_durable e leader p x sub :
  healthy e -> durable_sub p x sub ->
  exists st', Remove e leader p false x =
      (set_psubs (deleteFromList p (psubs x.1)).1
         (set_lookups (delete (AckInbox sub) (acks x.1)) (delete (Inbox sub) (inboxes x.1)) x.1), st') /\
    subs st' = <[p := closed_sub sub]> (subs x.2) /\
    persisted st' = persisted x.2 ++ [UpdateSub (Sub.ID sub) (ClientID sub) (LastSent sub) true] /\
    published st' = published x.2.
Proof.
  destruct x as [ss st]. intros He []. simpl in *. unfold Remove. rewrite du_sub0.
  cbn [IsDurable set_ClientID set_savedClientID]. rewrite du_durable0. simpl.
  unfold try_persist. cbn [negb andb orb qstate clearAckTimer set_ackTimer set_ClientID set_savedClientID persisted
    put_sub set_subs]. rewrite (no_persist_fail e He), du_plain0.
  eexists. split; [reflexivity|]. cbn [subs persisted published persist put_sub set_subs snd].
  by rewrite !insert_insert_eq.
Qed.

(** What a request changes in a remembered subscription. *)
Lemma resume_fields e leader sr ackInbox t sub :
  let sub' := resume e leader sr ackInbox t sub in
  Sub.ID sub' = Sub.ID sub /\ ClientID sub' = sr_ClientID sr /\ LastSent sub' = LastSent sub /\
  acksPending sub' = acksPending sub /\
  newOnHold sub' = ((0 <? size (acksPending sub))%nat || newOnHold sub) /\
  MaxInFlight sub' = sr_MaxInFlight sr /\ IsClosed sub' = false /\ initialized sub' = false /\
  AckInbox sub' = ackInbox /\ Inbox sub' = sr_Inbox sr /\
  isDurableSubscriber sub' = isDurableSubscriber sub.
Proof.
  unfold resume. set (s := set_stalled false _). change (acksPending sub) with (acksPending s).
  destruct (0 <? size (acksPending s))%nat; [destruct leader|]; destruct sub; vm_compute; split_and!; reflexivity.
Qed.

Lemma closed_fields sub :
  Sub.ID (closed_sub sub) = Sub.ID sub /\ LastSent (closed_sub sub) = LastSent sub /\
  acksPending (closed_sub sub) = acksPending sub /\ newOnHold (closed_sub sub) = newOnHold sub /\
  ClientID (closed_sub sub) = EmptyString /\
  isDurableSubscriber (closed_sub sub) = isDurableSubscriber sub.
Proof. split_and!; reflexivity. Qed.

(** [C30] A durable subscription resumes where it stopped: when its client closes it
    and asks for it again, it is the same subscription, with the same identifier,
    position and pending messages, whatever start position the request names; new
    messages wait until the pending ones were redelivered, and nothing is sent
    before the response. *)
Theorem durable_resumes e leader c newID sr ackInbox next cl x p sub :
  healthy e -> durable_sub p x sub ->
  sr_QGroup sr = EmptyString -> sr_ClientID sr = ClientID sub -> sr_Subject sr = subject sub ->
  sr_DurableName sr = DurableName sub -> (addSub cl (ClientID sub) p).1 = true ->
  exists cl' x' sub', processSub e leader true c newID sr ackInbox 0 next cl (Remove e leader p false x)
      = Ok (inl p, next, cl', x') /\
    subs x'.2 !! p = Some sub' /\ Sub.ID sub' = Sub.ID sub /\ ClientID sub' = ClientID sub /\
    LastSent sub' = LastSent sub /\ acksPending sub' = acksPending sub /\
    newOnHold sub' = ((0 <? size (acksPending sub))%nat || newOnHold sub) /\
    MaxInFlight sub' = sr_MaxInFlight sr /\ IsClosed sub' = false /\ initialized sub' = false /\
    LookupByAckInbox x'.1 ackInbox = Some p /\ LookupByInbox x'.1 (sr_Inbox sr) = Some p /\
    LookupByDurable x'.1 (durableKey sub) = Some p /\ p ∈ psubs x'.1 /\
    published x'.2 = published x.2.
Proof.
  intros He Hd Hq Hc Hs Hn Hadd. pose proof Hd as [].
  destruct (Remove_durable e leader p x sub He Hd) as (st' & -> & Hsubs & Hper & Hpub).
  assert (Hkey : request_key sr = durableKey sub).
  { unfold request_key, durableKey. by rewrite Hc, Hs, Hn. }
  unfold processSub, remembered. rewrite Hq, Hn. simpl. apply String.eqb_neq in du_name0 as Hne. rewrite Hne, Hkey.
  cbn [durables set_psubs set_lookups]. rewrite du_key0, Hsubs, lookup_insert_eq.
  destruct (closed_fields sub) as (C1 & C2 & C3 & C4 & C5 & C6). rewrite C5. cbn [String.eqb negb fst snd].
  unfold update_sub. rewrite Hsubs, lookup_insert_eq.
  destruct (resume_fields e leader sr ackInbox (now e st') (closed_sub sub))
    as (R1 & R2 & R3 & R4 & R5 & R6 & R7 & R8 & R9 & R10 & R11).
  set (sub' := resume e leader sr ackInbox (now e st') (closed_sub sub)) in *. clearbody sub'.
  set (cs := closed_sub sub) in *. clearbody cs. unfold updateDurable. rewrite Hc.
  destruct (addSub cl (ClientID sub) p) as [ok cl']. simpl in Hadd. subst ok.
  cbn [negb put_sub set_subs subs]. rewrite lookup_insert_eq. unfold try_persist.
  rewrite (no_persist_fail e He). cbn [negb]. assert (Hdur : isDurableSubscriber sub = true) by (unfold isDurableSubscriber; by rewrite Hne).
  rewrite R11, C6, Hdur, bool_decide_true by done. rewrite andb_false_r.
  eexists cl', _, sub'. split; [reflexivity|]. cbn [fst snd persist put_sub set_subs subs published].
  rewrite lookup_insert_eq, Hpub. unfold LookupByAckInbox, LookupByInbox, LookupByDurable.
  cbn [add_lookups set_lookups set_psubs acks inboxes durables psubs]. rewrite R9, R10, !lookup_insert_eq.
  split_and!; try done; try congruence; apply elem_of_app; right; by left.
Qed.
End Durable.
End RegSpec.

(** ** Concrete runs *)

Module RegSample.
Import RegSpec Sub Dlv DlvSpec MemSample Rdlv Reg.

#[local] Existing Instance default_order.
#[local] Existing Instance insertion_sorter.

Definition quiet_env : env :=
  mkEnv (fun _ => 1000) (fun _ => false) (fun _ => false) false (fun _ => ["m"%char]).

(** Six messages in a channel. *)
Definition six_msgs : Mem.MemoryMsgStore :=
  foldl (fun ms i => (Mem.Store data_size 0 (msg i i) ms).2) (Mem.init (Mem.mkLimits 0 0 0))
    [1; 2; 3; 4; 5; 6].

(** Two members of a group: the first has messages 3 and 4 pending; the second one
    takes one message at a time, and was sent message 5 again after it expired
    with the first one. *)
Definition group_member (id : Z) (inbox : string) (max : Z) (pend : gmap Z Z) : subState :=
  mkSub id "me" "grp" inbox inbox max 30 "" 5 false false "foo" (Some 0%nat) 30000000000 (Some Idle) pend
    "" None ∅ true false false false.
Definition late_group : server :=
  mkServer {[0%nat := group_member 1 "a" 10 {[3 := 5000; 4 := 5000]}; 1%nat := group_member 2 "b" 1 {[5 := 5000]}]}
    {[0%nat := mkQueue 5 [0%nat; 1%nat] ∅ None 0 false]} ∅ ∅ false [] [].
Definition late_registry : subStore :=
  mkSubStore [] {["grp"%string := 0%nat]} ∅ {["a"%string := 0%nat; "b"%string := 1%nat]}
    {["a"%string := 0%nat; "b"%string := 1%nat]}.

(** Message 6 arrives; the late ack of message 5 comes from the first member, which
    also acknowledges what it has, and unsubscribes. *)
Definition stuck_run : outcome Mem.fuel_error state :=
  st ← sendAvailableMessagesToQueue quiet_env six_msgs 0%nat late_group;
  st ← processAck quiet_env six_msgs 0%nat 5 true st;
  st ← processAck quiet_env six_msgs 0%nat 3 true st;
  st ← processAck quiet_env six_msgs 0%nat 4 true st;
  Ok (Remove quiet_env true 0%nat true (late_registry, st)).

(** An ack that one member of a group sends for a message of another one
    removes the message from the other member but does not clear its stalled flag.
    When the first member leaves, the group has one member with nothing pending,
    and yet no message of the channel is ever sent to it, whatever the channel
    holds. *)
Theorem group_stuck :
  exists ss st sub qs, stuck_run = Ok (ss, st) /\ queues st !! 0%nat = Some qs /\ members qs = [1%nat] /\
    subs st !! 1%nat = Some sub /\ acksPending sub = ∅ /\ ClientID sub = "me"%string /\
    lastSent qs = 5 /\ Mem.Lookup six_msgs 6 = Some (msg 6 6) /\
    forall c : Mem.MemoryMsgStore, sendAvailableMessagesToQueue quiet_env c 0%nat st = Ok st.
Proof.
  eexists _, _, _, _. split; [vm_compute; reflexivity|].
  do 7 (split; [vm_compute; reflexivity|]).
  intros c. eapply queue_all_stalled; [vm_compute; reflexivity|]. vm_compute. discriminate.
Qed.

Definition sample_clients : clientStore :=
  recoverClients newClientStore
    [mkClientInfo "a" "hb" "" 1 0 0; mkClientInfo "b" "hb" "" 1 0 0; mkClientInfo "a-foo-x" "hb" "" 1 0 0].

Definition no_subs : state := (createSubStore, mkServer ∅ ∅ ∅ ∅ false [] []).

(** The last part of a state after a request, which must succeed. *)
Definition request (sr : SubscriptionRequest) (inbox : string) (id : Z) (y : clientStore * state)
  : option (ptr * (clientStore * state)) :=
  match processSub quiet_env true true six_msgs id sr inbox 0 1 y.1 y.2 with
  | Ok (inl p, _, cl, x) => Some (p, (cl, x))
  | _ => None
  end.

Definition close (clientID : string) (p : ptr) (y : clientStore * state) : clientStore * state :=
  let '(_, cl, x) := unsubscribeSub quiet_env true clientID p true y.1 y.2 in (cl, x).

(** Client [a] joins the durable group [dur] of [grp], client [b] the group
    [dur:grp], which is not durable.  Both close their subscription, [b] last. *)
Definition colon_run : option (string * state) :=
  '(pa, y) ← request (mkSR "a" "foo" "grp" "ia" 10 30 "dur" First) "aa" 1 (sample_clients, no_subs);
  '(pb, y) ← request (mkSR "b" "foo" "dur:grp" "ib" 10 30 "" First) "ab" 2 y;
  sub ← subs y.2.2 !! pa;
  Some (QGroup sub, (close "b" pb (close "a" pa y)).2).

(** The name of a group that is not durable may be the compound name of a
    durable one: the two share their members, and when a member that is not
    durable leaves last, the durable group is deleted, although all that its
    durable members did was to close their subscription. *)
Theorem durable_group_deleted :
  exists x, colon_run = Some ("dur:grp"%string, x) /\ qsubs x.1 = ∅ /\
    DeleteSub 1 ∈ persisted x.2 /\ DeleteSub 2 ∈ persisted x.2.
Proof.
  eexists. split; [vm_compute; reflexivity|]. split; [reflexivity|].
  split; apply list_elem_of_In; vm_compute; tauto.
Qed.

(** Client [a] has the durable [x-foo-y] on channel [foo], and closes it; then client
    [a-foo-x] asks for its durable [y]. *)
Definition key_run : option (ptr * ptr * state) :=
  '(pa, y) ← request (mkSR "a" "foo" "" "ia" 10 30 "x-foo-y" First) "aa" 1 (sample_clients, no_subs);
  '(pb, y) ← request (mkSR "a-foo-x" "foo" "" "ib" 10 30 "y" First) "ab" 2 (close "a" pa y);
  Some (pa, pb, y.2).

(** Durable keys are not injective: client identifiers, channels and durable
    names may all contain the separator, so that a client can resume the durable of
    another one. *)
Theorem durable_key_collision :
  exists pa x sub, key_run = Some (pa, pa, x) /\ subs x.2 !! pa = Some sub /\
    ClientID sub = "a-foo-x"%string /\ DurableName sub = "x-foo-y"%string.
Proof.
  eexists _, _, _. split; [vm_compute; reflexivity|]. split; [vm_compute; reflexivity|].
  split; vm_compute; reflexivity.
Qed.

(** A durable on channel [foo]. *)
Definition durable_request : SubscriptionRequest := mkSR "a" "foo" "" "ia" 10 30 "dur" First.
Definition durable_state : state :=
  match request durable_request "aa" 1 (sample_clients, no_subs) with
  | Some (_, y) => y.2
  | None => no_subs
  end.
Definition the_durable : subState := new_sub durable_request "aa" true 1 0.

Lemma quiet_healthy : healthy quiet_env.
Proof. by constructor. Defined.

Lemma the_durable_ok : durable_sub 0%nat durable_state the_durable.
Proof. constructor; done || reflexivity. Defined.

Lemma durable_resumes_witness :
  exists cl' x' sub', processSub quiet_env true true six_msgs 7 durable_request "ab" 0 1 sample_clients
      (Remove quiet_env true 0%nat false durable_state) = Ok (inl 0%nat, 1, cl', x') /\
    subs x'.2 !! 0%nat = Some sub' /\ Sub.ID sub' = 1.
Proof.
  destruct (durable_resumes quiet_env true six_msgs 7 durable_request "ab" 1 sample_clients durable_state
    0%nat the_durable quiet_healthy the_durable_ok) as (cl' & x' & sub' & H1 & H2 & H3 & _);
    try reflexivity.
  exists cl', x', sub'. split; [exact H1|]. split; [exact H2|exact H3].
Defined.

Lemma Remove_transfers_witness :
  exists qs', queues (Remove quiet_env true 0%nat false (late_registry, late_group)).2 !! 0%nat = Some qs' /\
    members qs' = [1%nat] /\
    exists p' s', p' ∈ members qs' /\
      subs (Remove quiet_env true 0%nat false (late_registry, late_group)).2 !! p' = Some s' /\
      is_Some (acksPending s' !! 3).
Proof.
  destruct (Remove_transfers quiet_env 0%nat 0%nat (late_registry, late_group)
    (group_member 1 "a" 10 {[3 := 5000; 4 := 5000]}) (mkQueue 5 [0%nat; 1%nat] ∅ None 0 false) false)
    as (qs' & H1 & H2 & H3 & _); try reflexivity.
  - exact quiet_healthy.
  - by left.
  - apply NoDup_cons. split; [|apply NoDup_singleton]. by intros ?%list_elem_of_singleton.
  - intros p' [->|[->|Hp]%elem_of_cons]%elem_of_cons; [by eexists|by eexists|by apply elem_of_nil in Hp].
  - intros p1 p2 s1 s2 [->|[->|Hp]%elem_of_cons]%elem_of_cons [->|[->|Hp']%elem_of_cons]%elem_of_cons;
      try (by apply elem_of_nil in Hp); try (by apply elem_of_nil in Hp'); intros [= <-] [= <-]; done.
  - exists qs'. split; [exact H1|]. split.
    + change (members (mkQueue 5 [0%nat; 1%nat] ∅ None 0 false)) with [0%nat; 1%nat] in H2.
      apply Permutation_cons_inv in H2. by apply Permutation_singleton_l in H2.
    + destruct (H3 3) as (p' & s' & d & Hp & Hs & Hk & _); [by eexists|]. by exists p', s'.
Defined.
End RegSample.
