(* ===== verification/Crypto.v ===== *)
(** * The encrypted message store

    Model of [src/stores/cryptostore.go].  The ciphers and the hash are code of the
    Go library and of [golang.org/x/crypto]: they are parameters with the laws that
    their documentation states.  The random source and the environment variable are
    arguments. *)

From Stdlib Require Import ZArith Lia Ascii String.
From stdpp Require Import base list strings.
From S2P Require Import Prelude Bytes MemStore.

Local Open Scope Z_scope.

Module Crypto.

Inductive crypto_error :=
| ErrCryptoStoreRequiresKey | ErrCipherNotSupported | KeySizeError | NonceTooSmall
| NonceSizesDiffer | RandError | NotEncrypted | OpenError | StoreError.

Definition CryptoCodeAES : Z := 1.
Definition CryptoCodeChaCha : Z := 2.

(** [cipher.AEAD] for a key.  What [Seal] makes, [Open] with the same nonce undoes. *)
Class AEAD := {
  NonceSize : nat;
  Overhead : nat;
  Seal : list byte -> list byte -> list byte -> list byte;
  Open : list byte -> list byte -> list byte -> option (list byte)
}.

Class AEADSpec `{AEAD} := {
  open_seal key nonce data : Open key nonce (Seal key nonce data) = Some data;
  length_seal key nonce data : length (Seal key nonce data) = (length data + Overhead)%nat
}.

(** ** Keys *)

Definition to_upper (c : ascii) : ascii :=
  let n := byte_val c in if (97 <=? n) && (n <=? 122) then byte_of (n - 32) else c.

Fixpoint ToUpper (s : string) : string :=
  match s with EmptyString => EmptyString | String c s' => String (to_upper c) (ToUpper s') end.

Section Keys.
Context (sha256 : list byte -> list byte).

(** [intel] is whether the platform is amd64 or 386; [envKey] is the value of the
    environment variable.  The names of ciphers are ASCII. *)
Definition createMasterKeyHash (intel : bool) (envKey : list byte) (encryptionCipher : string)
  (encryptionKey : list byte) : outcome crypto_error (Z * list byte) :=
  code ← (if negb (String.eqb encryptionCipher "") then
            if String.eqb (ToUpper encryptionCipher) "AES" then Ok CryptoCodeAES
            else if String.eqb (ToUpper encryptionCipher) "CHACHA" then Ok CryptoCodeChaCha
            else Err ErrCipherNotSupported
          else Ok (if intel then CryptoCodeAES else CryptoCodeChaCha));
  match envKey, encryptionKey with
  | [], [] => Err ErrCryptoStoreRequiresKey
  | [], key => Ok (code, sha256 key)
  | key, _ => Ok (code, sha256 key)
  end.

(** The key of a channel; [append] comes after the zeros of [make]. *)
Definition channel_key (mkh : list byte) (channel : string) : list byte :=
  let name := list_ascii_of_string channel in
  List.repeat zero (length mkh + 1 + length name) ++ mkh ++ ["."%char] ++ name.
End Keys.

(** ** [EDStore] *)

Section Store.
Context (aes chacha : AEAD).

Record EDStore := mkEDStore {
  code : Z;
  keyHash : list byte;
  nonce : list byte
}.

Definition nonceSize : nat := NonceSize (AEAD := aes).

(** The eight bytes of an integer, the highest first. *)
Definition put_be (z : Z) : list byte := rev (put_le 8 z).

(** [rnd] are the bytes of the random source, or nothing if reading it fails.  AES takes
    keys of 16, 24 or 32 bytes, ChaCha20-Poly1305 of 32. *)
Definition newEDStore (cipherCode : Z) (keyHash : list byte) (rnd : option (list byte)) (idx : Z)
  : outcome crypto_error EDStore :=
  if negb (bool_decide (length keyHash ∈ [16; 24; 32]%nat)) then Err KeySizeError
  else if (nonceSize <? 8)%nat then Err NonceTooSmall
  else if negb (length keyHash =? 32)%nat then Err KeySizeError
  else if negb (NonceSize (AEAD := chacha) =? nonceSize)%nat then Err NonceSizesDiffer
  else match rnd with
       | None => Err RandError
       | Some bs => Ok (mkEDStore cipherCode keyHash (take (nonceSize - 8) bs ++ put_be (u64 (idx + 1))))
       end.

(** The store, and the caller's key, which is erased on success. *)
Definition NewEDStore (sha256 : list byte -> list byte) (intel : bool) (envKey : list byte)
  (encryptionCipher : string) (encryptionKey : list byte) (rnd : option (list byte)) (idx : Z)
  : outcome crypto_error EDStore * list byte :=
  let r := ck ← createMasterKeyHash sha256 intel envKey encryptionCipher encryptionKey;
           newEDStore ck.1 ck.2 rnd idx in
  (r, match r with Ok _ => List.repeat "x"%char (length encryptionKey) | _ => encryptionKey end).

Definition EncryptionOffset : nat := 1 + nonceSize.

(** The loop of [Encrypt] that increments the nonce, on its bytes from the last. *)
Fixpoint incr_le (bs : list byte) : list byte :=
  match bs with
  | [] => []
  | b :: bs' =>
      let b' := byte_of (byte_val b + 1) in
      if negb (byte_val b' =? 0) then b' :: bs' else b' :: incr_le bs'
  end.

Definition incr_nonce (n : list byte) : list byte := rev (incr_le (rev n)).

(** The cipher of a code; [s.gcm] is nil for any other. *)
Definition gcm_of (c : Z) : option AEAD :=
  if c =? CryptoCodeAES then Some aes else if c =? CryptoCodeChaCha then Some chacha else None.

(** The two ciphers have the same overhead, so that [Seal] works in the buffer. *)
Definition Encrypt (s : EDStore) (data : list byte) : outcome crypto_error (list byte * EDStore) :=
  match gcm_of (code s) with
  | None => Panic
  | Some gcm =>
      Ok (byte_of (code s) :: nonce s ++ Seal (AEAD := gcm) (keyHash s) (nonce s) data,
          mkEDStore (code s) (keyHash s) (incr_nonce (nonce s)))
  end.

Definition Decrypt (s : EDStore) (cipherText : list byte) : outcome crypto_error (list byte) :=
  match cipherText with
  | [] => Err NotEncrypted
  | b :: rest =>
      match gcm_of (byte_val b) with
      | None => Ok cipherText
      | Some gcm =>
          if (length cipherText <=? 1 + nonceSize)%nat then Err NotEncrypted
          else match Open (AEAD := gcm) (keyHash s) (take nonceSize rest) (drop nonceSize rest) with
               | Some data => Ok data
               | None => Err OpenError
               end
      end
  end.

(** ** [CryptoMsgStore] *)

Definition with_Data (m : MsgProto) (d : list byte) : MsgProto :=
  mkMsg (Sequence m) (Subject m) (Reply m) d (Timestamp m) (Redelivered m) (RedeliveryCount m) (CRC32 m).

(** The message that [Store] passes on to the wrapped store. *)
Definition StoreMsg (s : EDStore) (m : MsgProto) : outcome crypto_error (MsgProto * EDStore) :=
  match Data m with
  | [] => Ok (m, s)
  | _ => r ← Encrypt s (Data m); Ok (with_Data m r.1, r.2)
  end.

Definition decryptedMsg (s : EDStore) (m : MsgProto) : outcome crypto_error MsgProto :=
  dd ← Decrypt s (Data m); Ok (with_Data m dd).

(** [Lookup], [FirstMsg] and [LastMsg] on what the wrapped store returns: an error, or
    a message if there is one, with whether its data is nil. *)
Definition Lookup (s : EDStore) (r : option (MsgProto * bool) + crypto_error)
  : outcome crypto_error (option MsgProto) :=
  match r with
  | inr e => Err e
  | inl None => Ok None
  | inl (Some (m, true)) => Ok (Some m)
  | inl (Some (m, false)) => m' ← decryptedMsg s m; Ok (Some m')
  end.

(** ** [CryptoStore] *)

Section Channels.
Context (sha256 : list byte -> list byte).

Record CryptoStore := mkCryptoStore {
  cs_code : Z;
  mkh : list byte
}.

Definition NewCryptoStore (intel : bool) (envKey : list byte) (encryptionCipher : string)
  (encryptionKey : list byte) : outcome crypto_error CryptoStore * list byte :=
  let r := ck ← createMasterKeyHash sha256 intel envKey encryptionCipher encryptionKey;
           Ok (mkCryptoStore ck.1 ck.2) in
  (r, match r with Ok _ => List.repeat "x"%char (length encryptionKey) | _ => encryptionKey end).

(** [last] is what [LastSequence] of the wrapped message store returns. *)
Definition newCryptoMsgStore (cs : CryptoStore) (channel : string) (last : outcome crypto_error Z)
  (rnd : option (list byte)) : outcome crypto_error EDStore :=
  idx ← last;
  newEDStore (cs_code cs) (sha256 (channel_key (mkh cs) channel)) rnd idx.

(** [CreateChannel] on the message store that the wrapped store creates, given by its
    last sequence. *)
Definition CreateChannel (cs : CryptoStore) (channel : string)
  (created : outcome crypto_error (outcome crypto_error Z)) (rnd : option (list byte))
  : outcome crypto_error EDStore :=
  last ← created;
  newCryptoMsgStore cs channel last rnd.

(** The loop of [Recover] over the recovered channels. *)
Fixpoint recover_channels (cs : CryptoStore)
  (chans : list (string * outcome crypto_error Z * option (list byte)))
  : outcome crypto_error (list (string * EDStore)) :=
  match chans with
  | [] => Ok []
  | (cn, last, rnd) :: chans' =>
      cms ← newCryptoMsgStore cs cn last rnd;
      rest ← recover_channels cs chans';
      Ok ((cn, cms) :: rest)
  end.

Definition Recover (cs : CryptoStore)
  (rs : outcome crypto_error (option (list (string * outcome crypto_error Z * option (list byte)))))
  : outcome crypto_error (option (list (string * EDStore))) :=
  r ← rs;
  match r with
  | None => Ok None
  | Some chans => l ← recover_channels cs chans; Ok (Some l)
  end.
End Channels.
End Store.
End Crypto.
