(* ===== verification/CryptoSpec.v ===== *)
(** * What the encrypted message store promises

    A message comes back from the store as it went in, whichever of the two ciphers
    the reader is configured with, unless its data is empty but not nil: it is then stored
    and cannot be read.  While every message is stored, a channel never uses a nonce twice
    with its key, restarts included; when the wrapped store fails or drops messages, the
    random bytes of the restarts have to differ. *)

From Stdlib Require Import ZArith Lia Ascii String.
From stdpp Require Import base list strings.
From S2P Require Import Prelude Bytes MemStore Crypto.

Local Open Scope Z_scope.

Module CryptoSpec.
Import Crypto.

(** ** The life of a channel *)

Section Life.
Context (aes chacha : AEAD).

(** A message is handed to the store, and the wrapped store writes it or fails; or the
    server restarts and opens the channel again with fresh random bytes. *)
Inductive cevent :=
| Put (m : MsgProto) (written : bool)
| Reopen (rnd : list byte).

(** A message that has a sequence already seen is dropped by the wrapped store. *)
Definition last_after (last : Z) (m : MsgProto) (written : bool) : Z :=
  if written && (last <? Sequence m) then Sequence m else last.

(** The cipher texts that a sequence of events makes; [last] is the last sequence of the
    channel. *)
Fixpoint life (s : EDStore) (last : Z) (evs : list cevent) : outcome crypto_error (list (list byte)) :=
  match evs with
  | [] => Ok []
  | Put m written :: evs' =>
      r ← StoreMsg aes chacha s m;
      rest ← life r.2 (last_after last m written) evs';
      Ok (match Data m with [] => rest | _ => Data r.1 :: rest end)
  | Reopen rnd :: evs' =>
      s' ← newEDStore aes chacha (code s) (keyHash s) (Some rnd) last;
      life s' last evs'
  end.

Definition nonce_of (cipherText : list byte) : list byte := take (nonceSize aes) (drop 1 cipherText).

Definition ed_wf (s : EDStore) : Prop :=
  (code s = CryptoCodeAES \/ code s = CryptoCodeChaCha) /\ length (nonce s) = nonceSize aes.

(** The value of the last eight bytes of a nonce. *)
Definition counter (n : list byte) : Z := get_le (take 8 (rev n)).

(** The bytes before them. *)
Definition prefix (n : list byte) : list byte := take (nonceSize aes - 8) n.

Definition puts (evs : list cevent) : Z :=
  Z.of_nat (length (List.filter (fun e => match e with Put _ _ => true | _ => false end) evs)).

(** The sequences leave room for [n] messages more, and the random source fills the
    nonces. *)
Definition event_ok (n : Z) (e : cevent) : Prop :=
  match e with
  | Put m _ => 0 <= Sequence m /\ Sequence m + n + 1 < two64
  | Reopen rnd => length rnd = nonceSize aes
  end.

(** Every message is new and written. *)
Fixpoint all_stored (last : Z) (evs : list cevent) : Prop :=
  match evs with
  | [] => True
  | Put m written :: evs' => written = true /\ last < Sequence m /\ all_stored (Sequence m) evs'
  | Reopen _ :: evs' => all_stored last evs'
  end.

(** The random bytes that restarts keep. *)
Definition restarts (evs : list cevent) : list (list byte) :=
  omap (fun e => match e with Put _ _ => None | Reopen rnd => Some (prefix rnd) end) evs.
End Life.

Section Lemmas.
Context {aes chacha : AEAD} {Haes : AEADSpec (H := aes)} {Hchacha : AEADSpec (H := chacha)}.

Lemma incr_le_length bs : length (incr_le bs) = length bs.
Proof.
  induction bs as [|b bs IH]; [done|]. cbn [incr_le].
  destruct (negb _); cbn [length]; lia.
Qed.

Lemma incr_nonce_length n : length (incr_nonce n) = length n.
Proof. unfold incr_nonce. by rewrite length_rev, incr_le_length, length_rev. Qed.

Lemma incr_le_counts k bs :
  (k <= length bs)%nat -> get_le (take k bs) + 1 < 256 ^ Z.of_nat k ->
  get_le (take k (incr_le bs)) = get_le (take k bs) + 1.
Proof.
  revert bs. induction k as [|k IH]; intros [|b bs]; cbn [take length get_le incr_le]; try lia.
  intros Hk Hlt. rewrite Nat2Z.inj_succ, Z.pow_succ_r in Hlt by lia.
  pose proof (byte_val_range b). pose proof (byte_val_of (byte_val b + 1)) as Hv.
  destruct (Z.eqb_spec (byte_val (byte_of (byte_val b + 1))) 0) as [E|E]; cbn [negb take get_le].
  - assert (byte_val b = 255).
    { rewrite Hv in E. destruct (Z.eq_dec (byte_val b) 255); [done|].
      rewrite Z.mod_small in E; lia. }
    rewrite IH; lia.
  - rewrite Hv in E |- *. destruct (Z.eq_dec (byte_val b) 255) as [Hb|?]; [by rewrite Hb in E|].
    rewrite Z.mod_small; lia.
Qed.

Lemma counter_incr n :
  (8 <= length n)%nat -> counter n + 1 < two64 -> counter (incr_nonce n) = counter n + 1.
Proof.
  intros Hl Hc. unfold counter, incr_nonce in *. rewrite rev_involutive.
  apply incr_le_counts; [by rewrite length_rev|done].
Qed.

Lemma incr_le_drop k bs :
  (k <= length bs)%nat -> get_le (take k bs) + 1 < 256 ^ Z.of_nat k -> drop k (incr_le bs) = drop k bs.
Proof.
  revert bs. induction k as [|k IH]; intros [|b bs]; cbn [take length get_le incr_le drop]; try lia.
  intros Hk Hlt. rewrite Nat2Z.inj_succ, Z.pow_succ_r in Hlt by lia.
  pose proof (byte_val_range b). pose proof (byte_val_of (byte_val b + 1)) as Hv.
  destruct (Z.eqb_spec (byte_val (byte_of (byte_val b + 1))) 0) as [E|E]; cbn [negb drop]; [|done].
  assert (byte_val b = 255).
  { rewrite Hv in E. destruct (Z.eq_dec (byte_val b) 255); [done|]. rewrite Z.mod_small in E; lia. }
  apply IH; lia.
Qed.

Lemma prefix_incr n :
  length n = nonceSize aes -> (8 <= length n)%nat -> counter n + 1 < two64 -> prefix aes (incr_nonce n) = prefix aes n.
Proof.
  intros Hl H8 Hc. unfold prefix, incr_nonce, counter in *. rewrite <- Hl.
  assert (forall l : list byte, length l = length n -> take (length n - 8) l = rev (drop 8 (rev l))) as Hrev.
  { intros l Hll. rewrite <- (rev_involutive (take _ l)). f_equal. rewrite <- (take_drop (length n - 8) l) at 2.
    rewrite rev_app_distr, drop_app_ge; rewrite length_rev, length_drop; [|lia]. replace (8 - _)%nat with 0%nat by lia. done. }
  rewrite !Hrev; [|done|by rewrite length_rev, incr_le_length, length_rev].
  rewrite rev_involutive. f_equal. apply incr_le_drop; [by rewrite length_rev|done].
Qed.

Lemma counter_fresh (pre : list byte) z : is_u64 z -> counter (pre ++ put_be z) = z.
Proof.
  intros Hz. unfold counter, put_be. rewrite rev_app_distr, rev_involutive.
  rewrite take_app_le by (rewrite length_put_le; lia).
  rewrite take_ge by (rewrite length_put_le; lia).
  by apply get_put_le_small.
Qed.

Lemma newEDStore_Ok c kh rnd idx s :
  newEDStore aes chacha c kh rnd idx = Ok s <->
  length kh = 32%nat /\ (8 <= nonceSize aes)%nat /\ NonceSize (AEAD := chacha) = nonceSize aes /\
  exists bs, rnd = Some bs /\ s = mkEDStore c kh (take (nonceSize aes - 8) bs ++ put_be (u64 (idx + 1))).
Proof.
  unfold newEDStore. case_bool_decide as Hk; cbn [negb].
  2: { split; [done|]. intros (Hkh&_). destruct Hk. rewrite Hkh. by repeat constructor. }
  destruct (Nat.ltb_spec (nonceSize aes) 8); [split; [done|lia]|].
  destruct (Nat.eqb_spec (length kh) 32); cbn [negb]; [|split; [done|lia]].
  destruct (Nat.eqb_spec (NonceSize (AEAD := chacha)) (nonceSize aes)); cbn [negb]; [|split; [done|lia]].
  destruct rnd as [bs|]; split; [intros [= <-]|intros (_&_&_&?&[= <-]&->)|done|intros (_&_&_&?&?&_)]; try done.
  split_and!; try done. by exists bs.
Qed.

Lemma gcm_of_wf c :
  c = CryptoCodeAES \/ c = CryptoCodeChaCha ->
  exists g, gcm_of aes chacha c = Some g /\ AEADSpec (H := g) /\ byte_val (byte_of c) = c.
Proof. intros [->| ->]; [exists aes|exists chacha]; done. Qed.

Lemma Encrypt_Ok s data :
  ed_wf aes s ->
  exists body s', Encrypt aes chacha s data = Ok (byte_of (code s) :: nonce s ++ body, s') /\
    s' = mkEDStore (code s) (keyHash s) (incr_nonce (nonce s)) /\ ed_wf aes s' /\
    (length data <= length body)%nat /\
    exists g, gcm_of aes chacha (byte_val (byte_of (code s))) = Some g /\
      Open (AEAD := g) (keyHash s) (nonce s) body = Some data.
Proof.
  intros [Hc Hn]. destruct (gcm_of_wf _ Hc) as (g&Hg&HS&Hb).
  eexists _, _. unfold Encrypt. rewrite Hg. split_and!; [done|done| | |].
  - split; [done|]. cbn [nonce]. by rewrite incr_nonce_length.
  - rewrite length_seal. lia.
  - exists g. rewrite Hb. split; [done|]. apply open_seal.
Qed.

Lemma Decrypt_Encrypt s s2 data body s' :
  ed_wf aes s -> keyHash s2 = keyHash s -> data <> [] ->
  Encrypt aes chacha s data = Ok (body, s') -> Decrypt aes chacha s2 body = Ok data.
Proof.
  intros Hwf Hk Hd He. destruct (Encrypt_Ok s data Hwf) as (b&s1&E&_&_&Hlen&g&Hg&Ho).
  rewrite He in E. simplify_eq. unfold Decrypt. rewrite Hg. destruct Hwf as [_ Hn].
  rewrite <- Hn. cbn [length]. rewrite length_app. destruct data; [done|]. cbn [length] in Hlen.
  destruct (Nat.leb_spec (Datatypes.S (length (nonce s) + length b)) (1 + length (nonce s))); [lia|].
  by rewrite take_app_length, drop_app_length, Hk, Ho.
Qed.

Lemma StoreMsg_wf s m :
  ed_wf aes s ->
  exists m' s', StoreMsg aes chacha s m = Ok (m', s') /\ ed_wf aes s' /\
    code s' = code s /\ keyHash s' = keyHash s /\
    match Data m with
    | [] => m' = m /\ s' = s
    | _ => nonce_of aes (Data m') = nonce s /\ nonce s' = incr_nonce (nonce s)
    end.
Proof.
  intros Hwf. unfold StoreMsg. destruct (Data m) as [|b d] eqn:Hd.
  - exists m, s. done.
  - destruct (Encrypt_Ok s (b :: d) Hwf) as (body&s'&->&->&Hwf'&_).
    eexists _, _. split; [done|]. split; [done|]. split_and!; try done.
    unfold nonce_of. cbn [fst with_Data Data drop]. destruct Hwf as [_ <-].
    by rewrite drop_0, take_app_length.
Qed.

(** Opening a channel makes its counter the sequence of the next message. *)
Lemma newEDStore_fresh c kh rnd last :
  (c = CryptoCodeAES \/ c = CryptoCodeChaCha) -> length kh = 32%nat ->
  (8 <= nonceSize aes)%nat -> NonceSize (AEAD := chacha) = nonceSize aes ->
  length rnd = nonceSize aes -> 0 <= last -> last + 1 < two64 ->
  exists s, newEDStore aes chacha c kh (Some rnd) last = Ok s /\ ed_wf aes s /\
    keyHash s = kh /\ counter (nonce s) = last + 1 /\ prefix aes (nonce s) = prefix aes rnd.
Proof.
  intros Hc Hk H8 Hch Hr Hl Hl'. eexists. split; [apply newEDStore_Ok; split_and!; try done; by exists rnd|].
  split_and!; try done.
  - split; [done|]. cbn [nonce]. rewrite length_app, length_take, Hr. unfold put_be.
    rewrite length_rev, length_put_le. lia.
  - cbn [nonce]. rewrite u64_small by (unfold is_u64; lia). apply counter_fresh. unfold is_u64; lia.
  - unfold prefix. cbn [nonce]. rewrite take_app_le by (rewrite length_take; lia). by rewrite take_take, Nat.min_id.
Qed.

(** Messages are stored one by one: with a nonce whose counter is that of the store,
    which then goes one up. *)
Lemma put_step s m :
  ed_wf aes s -> (8 <= nonceSize aes)%nat -> counter (nonce s) + 1 < two64 ->
  exists m' s', StoreMsg aes chacha s m = Ok (m', s') /\ ed_wf aes s' /\
    code s' = code s /\ keyHash s' = keyHash s /\ prefix aes (nonce s') = prefix aes (nonce s) /\
    counter (nonce s) <= counter (nonce s') <= counter (nonce s) + 1 /\
    (Data m <> [] -> nonce_of aes (Data m') = nonce s /\ counter (nonce s') = counter (nonce s) + 1).
Proof.
  intros Hwf H8 Hc. destruct (StoreMsg_wf s m Hwf) as (m'&s'&Heq&Hwf'&Hc'&Hk'&Hcase).
  exists m', s'. destruct (Data m) as [|b d]; destruct Hcase as [Hn Hs]; [subst; split_and!; try done; lia|].
  pose proof (proj2 Hwf) as Hl. rewrite Hs, counter_incr, prefix_incr; try done; try lia.
  split_and!; try done; lia.
Qed.

(** A cipher text of a life is made after its first store by the same opening of the
    channel, or by a later one. *)
Definition later (s : EDStore) (evs : list cevent) (ct : list byte) : Prop :=
  (prefix aes (nonce_of aes ct) = prefix aes (nonce s) /\ counter (nonce s) <= counter (nonce_of aes ct)) \/
  prefix aes (nonce_of aes ct) ∈ restarts aes evs.

Section Counted.
Context (H8 : (8 <= nonceSize aes)%nat) (Hch : NonceSize (AEAD := chacha) = nonceSize aes).

Lemma life_counters evs s last n :
  ed_wf aes s -> length (keyHash s) = 32%nat -> Forall (event_ok aes n) evs -> puts evs <= n ->
  0 <= last -> last + n + 1 < two64 -> counter (nonce s) + puts evs < two64 ->
  exists cts, life aes chacha s last evs = Ok cts /\ Forall (later s evs) cts /\
    (all_stored last evs -> counter (nonce s) <= last + 1 ->
       NoDup (nonce_of aes <$> cts) /\ Forall (fun ct => counter (nonce s) <= counter (nonce_of aes ct)) cts) /\
    (NoDup (prefix aes (nonce s) :: restarts aes evs) -> NoDup (nonce_of aes <$> cts)).
Proof.
  revert s last. induction evs as [|[m written|rnd] evs IH]; intros s last Hwf Hk Hok Hn Hl Hl' Hc.
  { exists []. split_and!; [done|constructor|by intros; repeat constructor|intros; constructor]. }
  all: apply Forall_cons in Hok as [Hr Hok]; unfold puts in Hn, Hc; cbn [List.filter length] in Hn, Hc.
  all: assert (0 <= puts evs) by (unfold puts; lia).
  - rewrite Nat2Z.inj_succ in Hn, Hc. fold (puts evs) in Hn, Hc. destruct Hr as [Hr1 Hr2]. cbn [life].
    destruct (put_step s m Hwf H8) as (m'&s'&->&Hwf'&_&Hk'&Hpre&Hcs&Hct); [lia|]. cbn [mbind outcome_bind fst snd].
    assert (0 <= last_after last m written /\ last_after last m written + n + 1 < two64) as [].
    { unfold last_after. destruct (written && _); lia. }
    destruct (IH s' (last_after last m written)) as (cts&->&Hlater&Hst&Hnd); try done; try lia; [by rewrite Hk'|].
    assert (Forall (later s (Put m written :: evs)) cts).
    { eapply Forall_impl; [exact Hlater|]. intros ct [[Hp Hq]|Hp]; [left|by right]. split; [congruence|lia]. }
    assert (all_stored last (Put m written :: evs) -> counter (nonce s) <= last + 1 ->
      NoDup (nonce_of aes <$> cts) /\ Forall (fun ct => counter (nonce s') <= counter (nonce_of aes ct)) cts) as Hst'.
    { intros (-> & Hlt & Ha) Hcl. unfold last_after in Hst. simpl in Hst. rewrite (proj2 (Z.ltb_lt _ _) Hlt) in Hst. apply Hst; [done|lia]. }
    destruct (Data m) as [|b d] eqn:Hd.
    { exists cts. split_and!; try done; [|intros; apply Hnd; by rewrite Hpre]. intros Ha Hcl. destruct (Hst' Ha Hcl) as [Hx Hy].
      split; [done|]. eapply Forall_impl; [exact Hy|]. cbn beta. lia. }
    destruct (Hct ltac:(done)) as [Hnn Hcn]. eexists. split; [done|]. split_and!.
    + constructor; [|done]. left. rewrite Hnn. split; [done|lia].
    + intros Ha Hcl. destruct (Hst' Ha Hcl) as [Hx Hy]. split; [|constructor; [by rewrite Hnn|eapply Forall_impl; [exact Hy|cbn beta; lia]]].
      rewrite fmap_cons, Hnn. apply NoDup_cons. split; [|done]. intros (ct&Heq&Hin)%list_elem_of_fmap.
      rewrite Forall_forall in Hy. specialize (Hy ct Hin). rewrite <- Heq in Hy. lia.
    + intros Hnp. rewrite fmap_cons, Hnn. apply NoDup_cons. split; [|apply Hnd; by rewrite Hpre].
      intros (ct&Heq&Hin)%list_elem_of_fmap. rewrite Forall_forall in Hlater. apply NoDup_cons in Hnp as [Hnp _].
      destruct (Hlater ct Hin) as [[_ Hq]|Hq]; rewrite <- Heq in Hq; [lia|by apply Hnp].
  - fold (puts evs) in Hn, Hc. cbn [life].
    destruct (newEDStore_fresh (code s) (keyHash s) rnd last) as (s'&->&Hwf'&Hk'&Hci&Hpre); try done; try lia; [apply Hwf|].
    cbn [mbind outcome_bind]. destruct (IH s' last) as (cts&->&Hlater&Hst&Hnd); try done; try lia; [by rewrite Hk'|].
    exists cts. split_and!; [done| | |].
    + eapply Forall_impl; [exact Hlater|]. intros ct [[Hp _]|Hp]; right; simpl; [rewrite Hp, Hpre; by left|by right].
    + intros Ha Hcl. destruct (Hst Ha) as [Hx Hy]; [lia|]. split; [done|]. eapply Forall_impl; [exact Hy|]. cbn beta. lia.
    + intros Hnp. apply Hnd. rewrite Hpre. by apply NoDup_cons in Hnp as [_ Hnp].
Qed.
End Counted.

(** [C31] A message that the encrypted store writes is read back as it was published, by
    any store with the same channel key: one configured with the other cipher, one that
    was opened later.  [Store] never fails and keeps the store well formed.  [isNil] is
    whether the data that the wrapped store returns is nil, which only empty data is; the
    one message that is refused is one whose data is empty but not nil. *)
Theorem message_roundtrip s s2 m (isNil : bool) :
  ed_wf aes s -> keyHash s2 = keyHash s -> (isNil = true -> Data m = []) ->
  exists m' s',
    StoreMsg aes chacha s m = Ok (m', s') /\ ed_wf aes s' /\ keyHash s' = keyHash s /\
    Lookup aes chacha s2 (inl (Some (m', isNil))) =
      (if negb isNil && bool_decide (Data m = []) then Err NotEncrypted else Ok (Some m)).
Proof.
  intros Hwf Hk2 Hnil. destruct (StoreMsg_wf s m Hwf) as (m'&s'&Hst&Hwf'&_&Hk&Hcase).
  exists m', s'. split_and!; try done.
  unfold StoreMsg in Hst. destruct (Data m) as [|b d] eqn:Hd.
  { destruct Hcase as [-> ->]. destruct isNil; [done|]. unfold Lookup, decryptedMsg. by rewrite Hd. }
  destruct isNil; [by specialize (Hnil eq_refl)|].
  destruct (Encrypt aes chacha s (b :: d)) as [[ct s1]| |] eqn:He; try done. simplify_eq Hst.
  intros <- <-. rewrite bool_decide_false by done. cbn [Lookup decryptedMsg with_Data Data fst negb andb]. unfold decryptedMsg. cbn [with_Data Data].
  rewrite (Decrypt_Encrypt s s2 (b :: d) ct s1) by done.
  cbn [mbind outcome_bind]. destruct m. cbn in Hd. by subst.
Qed.

(** [C32] Across any number of restarts, the nonces under which a channel encrypts its
    messages are distinct: whatever the random bytes when the wrapped store writes every
    message, and when the random bytes of the restarts are distinct also when it fails on
    some of them or drops some as already seen, which use a nonce and leave the last
    sequence as it was.  The sequences stay so far below 2^64 that the counters do not
    wrap. *)
Theorem nonces_distinct c kh rnd last s evs :
  (c = CryptoCodeAES \/ c = CryptoCodeChaCha) ->
  newEDStore aes chacha c kh (Some rnd) last = Ok s ->
  Forall (event_ok aes (puts evs)) (Reopen rnd :: evs) -> 0 <= last -> last + puts evs + 1 < two64 ->
  all_stored last evs \/ NoDup (restarts aes (Reopen rnd :: evs)) ->
  exists cts, life aes chacha s last evs = Ok cts /\ NoDup (nonce_of aes <$> cts).
Proof.
  intros Hc Hs [Hr Hre]%Forall_cons Hl Hp Hor. assert (0 <= puts evs) by (unfold puts; lia).
  pose proof (proj1 (newEDStore_Ok _ _ _ _ _) Hs) as (Hk&H8&Hch&_).
  destruct (newEDStore_fresh c kh rnd last) as (s'&Hs'&Hwf&Hk'&Hcnt&Hpre); try done; try lia.
  rewrite Hs in Hs'. simplify_eq.
  destruct (life_counters H8 Hch evs s' last (puts evs)) as (cts&Hlife&_&Hst&Hnd); try done; try lia.
  exists cts. split; [done|]. destruct Hor as [Ha|Hnp]; [apply Hst; [done|lia]|apply Hnd; by rewrite Hpre].
Qed.
End Lemmas.
End CryptoSpec.

(** ** A concrete cipher *)

Module CryptoSample.
Import Crypto CryptoSpec.

(** A cipher with the sizes of the real ones, whose tag is all zeros. *)
Definition toy_aead : AEAD := {|
  NonceSize := 12; Overhead := 16;
  Seal key n data := data ++ List.repeat zero 16;
  Open key n ct := Some (take (length ct - 16) ct)
|}.

Lemma toy_spec : AEADSpec (H := toy_aead).
Proof.
  split; intros; cbn [Open Seal toy_aead Overhead].
  - rewrite length_app, repeat_length. replace (length data + 16 - 16)%nat with (length data) by lia.
    by rewrite take_app_length.
  - rewrite length_app, repeat_length. done.
Qed.

Definition toy_key : list byte := List.repeat "k"%char 32.
Definition toy_rnd : list byte := List.repeat "r"%char 12.
Definition toy_rnd2 : list byte := List.repeat "s"%char 12.
Definition toy_store : EDStore :=
  mkEDStore CryptoCodeAES toy_key (take 4 toy_rnd ++ put_be 1).
Definition toy_msg : MsgProto := mkMsg 1 "foo" "" ["a"; "b"]%char 0 false 0 0.

Lemma message_roundtrip_witness :
  exists m' s', StoreMsg toy_aead toy_aead toy_store toy_msg = Ok (m', s') /\
    Lookup toy_aead toy_aead (mkEDStore CryptoCodeChaCha toy_key []) (inl (Some (m', false))) = Ok (Some toy_msg).
Proof.
  destruct (message_roundtrip (Haes := toy_spec) (Hchacha := toy_spec) toy_store
    (mkEDStore CryptoCodeChaCha toy_key []) toy_msg false) as (m'&s'&H&_&_&H').
  - split; [by left|reflexivity].
  - reflexivity.
  - discriminate.
  - exists m', s'. split; [exact H|exact H'].
Defined.

(** The second message is not written. *)
Definition toy_put (seq : Z) (written : bool) : cevent := Put (mkMsg seq "foo" "" ["a"; "b"]%char 0 false 0 0) written.

Lemma nonces_distinct_witness :
  exists cts, life toy_aead toy_aead toy_store 0
      [toy_put 1 true; toy_put 2 false; Reopen toy_rnd2; toy_put 2 true] = Ok cts /\
    NoDup (nonce_of toy_aead <$> cts).
Proof.
  apply (nonces_distinct (Haes := toy_spec) (Hchacha := toy_spec) CryptoCodeAES toy_key toy_rnd).
  - by left.
  - vm_compute. reflexivity.
  - repeat constructor; vm_compute; congruence.
  - lia.
  - vm_compute. reflexivity.
  - right. apply (bool_decide_eq_true_1 _). vm_compute. reflexivity.
Defined.
End CryptoSample.
