(* ===== verification/Proto.v ===== *)
(** * The wire format

    Model of the code that the protobuf compiler generated in
    [src/spb/protocol.pb.go].  Every message there is marshalled and unmarshalled by
    the same scheme, field by field, so that the scheme is modelled once, over a
    description of the fields of a message; [Spb.v] holds the messages. *)

From Stdlib Require Import ZArith Lia Ascii String.
From stdpp Require Import base list strings.
From S2P Require Import Prelude Bytes Channels.

Local Open Scope Z_scope.

Module Proto.

Local Notation sovProtocol := CtrlMsg.sovProtocol.

Inductive proto_error :=
| ErrIntOverflow | UnexpectedEOF | ErrInvalidLength | EndGroup | IllegalTag | WrongWireType
| ErrUnexpectedEndOfGroup | IllegalWireType | Other | OutOfFuel.

(** ** Variable-length integers *)

(** The loop that writes seven bits at a time, for at most [n] bytes with more to come. *)
Fixpoint put_varint (n : nat) (v : Z) : list byte :=
  match n with
  | O => [byte_of v]
  | S n' => if 128 <=? v then byte_of (Z.lor (Z.land v 127) 128) :: put_varint n' (Z.shiftr v 7)
            else [byte_of v]
  end.

(** [encodeVarintProtocol]; the bytes end where the buffer was filled from. *)
Definition encodeVarint (v : Z) : list byte := put_varint 9 v.

(** The loop that reads an integer into a variable of a type given by its wrap-around. *)
Fixpoint read_varint (wrap : Z -> Z) (shift v : Z) (bs : list byte)
  : outcome proto_error (Z * list byte) :=
  if 64 <=? shift then Err ErrIntOverflow
  else match bs with
       | [] => Err UnexpectedEOF
       | b :: bs' =>
           let v := Z.lor v (wrap (Z.shiftl (Z.land (byte_val b) 127) shift)) in
           if byte_val b <? 128 then Ok (v, bs') else read_varint wrap (shift + 7) v bs'
       end.

(** The bytes of a length-delimited field, [n] being its length as an [int], and [l] the
    length of the whole input. *)
Definition take_delimited (l n : Z) (rest : list byte) : outcome proto_error (list byte * list byte) :=
  if n <? 0 then Err ErrInvalidLength
  else
    let postIndex := i64 (l - Z.of_nat (length rest) + n) in
    if postIndex <? 0 then Err ErrInvalidLength
    else if l <? postIndex then Err UnexpectedEOF
    else Ok (take (Z.to_nat n) rest, drop (Z.to_nat n) rest).

(** ** Fields *)

(** How the messages of a type are marshalled and unmarshalled; [c_get] adds to a
    message. *)
Record codec (A : Type) := mkCodec {
  c_zero : A;
  c_put : A -> list byte;
  c_size : A -> Z;
  c_get : A -> list byte -> outcome proto_error A;
  c_typed : A -> Prop  (* the values of the Go type *)
}.
#[global] Arguments c_zero {A}.
#[global] Arguments c_put {A}.
#[global] Arguments c_size {A}.
#[global] Arguments c_get {A}.
#[global] Arguments c_typed {A}.

(** A field of a message: its number, and how to read and write it in the structure. *)
Inductive field (M : Type) : Type :=
| Uint64 (num : Z) (get : M -> Z) (set : Z -> M -> M)
| Int32 (num : Z) (get : M -> Z) (set : Z -> M -> M)
| Boolean (num : Z) (get : M -> bool) (set : bool -> M -> M)
| Str (num : Z) (get : M -> string) (set : string -> M -> M)
| Raw (num : Z) (get : M -> list byte) (set : list byte -> M -> M)
| Packed (num : Z) (get : M -> list Z) (set : list Z -> M -> M)
| Embedded {A : Type} (c : codec A) (num : Z) (get : M -> option A) (set : option A -> M -> M)
| Repeated {A : Type} (c : codec A) (num : Z) (get : M -> list A) (set : list A -> M -> M).
#[global] Arguments Uint64 {M}.
#[global] Arguments Int32 {M}.
#[global] Arguments Boolean {M}.
#[global] Arguments Str {M}.
#[global] Arguments Raw {M}.
#[global] Arguments Packed {M}.
#[global] Arguments Embedded {M A}.
#[global] Arguments Repeated {M A}.

Definition number {M : Type} (f : field M) : Z :=
  match f with
  | Uint64 n _ _ | Int32 n _ _ | Boolean n _ _ | Str n _ _ | Raw n _ _ | Packed n _ _
  | Embedded _ n _ _ | Repeated _ n _ _ => n
  end.

Definition tag (num wireType : Z) : byte := byte_of (num * 8 + wireType).

(** ** Marshalling *)

Definition put_int (num v : Z) : list byte :=
  if v =? 0 then [] else tag num 0 :: encodeVarint (u64 v).

(** A length-delimited field, always written. *)
Definition put_delimited (num : Z) (data : list byte) : list byte :=
  tag num 2 :: encodeVarint (u64 (Z.of_nat (length data))) ++ data.

Definition put_bytes (num : Z) (data : list byte) : list byte :=
  match data with [] => [] | _ => put_delimited num data end.

Definition put_field {M : Type} (f : field M) (m : M) : list byte :=
  match f with
  | Uint64 num get _ | Int32 num get _ => put_int num (get m)
  | Boolean num get _ => if get m then [tag num 0; byte_of 1] else []
  | Str num get _ => put_bytes num (list_ascii_of_string (get m))
  | Raw num get _ => put_bytes num (get m)
  | Packed num get _ => put_bytes num (get m ≫= encodeVarint)
  | Embedded c num get _ => match get m with None => [] | Some a => put_delimited num (c_put c a) end
  | Repeated c num get _ => get m ≫= fun a => put_delimited num (c_put c a)
  end.

(** [MarshalToSizedBuffer] fills the buffer from its end, the last field first. *)
Definition Marshal {M : Type} (fs : list (field M)) (m : M) : list byte :=
  foldr (fun f written => put_field f m ++ written) [] fs.

(** ** Sizes *)

Definition size_int (v : Z) : Z := if v =? 0 then 0 else 1 + sovProtocol (u64 v).

Definition size_delimited (l : Z) : Z := 1 + l + sovProtocol (u64 l).

Definition size_bytes (l : Z) : Z := if 0 <? l then size_delimited l else 0.

Definition sum (l : list Z) : Z := foldr Z.add 0 l.

Definition field_size {M : Type} (f : field M) (m : M) : Z :=
  match f with
  | Uint64 _ get _ | Int32 _ get _ => size_int (get m)
  | Boolean _ get _ => if get m then 2 else 0
  | Str _ get _ => size_bytes (Z.of_nat (String.length (get m)))
  | Raw _ get _ => size_bytes (Z.of_nat (length (get m)))
  | Packed _ get _ => size_bytes (sum ((fun v => sovProtocol (u64 v)) <$> get m))
  | Embedded c _ get _ => match get m with None => 0 | Some a => size_delimited (c_size c a) end
  | Repeated c _ get _ => sum ((fun a => size_delimited (c_size c a)) <$> get m)
  end.

Definition message_size {M : Type} (fs : list (field M)) (m : M) : Z := sum ((fun f => field_size f m) <$> fs).

(** ** Unmarshalling *)

(** The loop over packed integers, until at most [stop] bytes remain. *)
Fixpoint packed_loop (fuel stop : nat) (acc : list Z) (rest : list byte)
  : outcome proto_error (list Z * list byte) :=
  if (length rest <=? stop)%nat then Ok (acc, rest)
  else match fuel with
       | O => Err OutOfFuel
       | S fuel' => r ← read_varint u64 0 0 rest; packed_loop fuel' stop (acc ++ [r.1]) r.2
       end.

(** A length kept in a [uint64], as for strings, or in an [int]. *)
Definition get_string (l : Z) (rest : list byte) : outcome proto_error (list byte * list byte) :=
  r ← read_varint u64 0 0 rest; take_delimited l (i64 r.1) r.2.
Definition get_bytes (l : Z) (rest : list byte) : outcome proto_error (list byte * list byte) :=
  r ← read_varint i64 0 0 rest; take_delimited l r.1 r.2.

Definition expect (wireType expected : Z) : outcome proto_error unit :=
  if wireType =? expected then Ok tt else Err WrongWireType.

(** One case of the switch. *)
Definition get_field {M : Type} (f : field M) (wireType l : Z) (rest : list byte) (m : M)
  : outcome proto_error (M * list byte) :=
  match f with
  | Uint64 _ _ set => _ ← expect wireType 0; r ← read_varint u64 0 0 rest; Ok (set r.1 m, r.2)
  | Int32 _ _ set => _ ← expect wireType 0; r ← read_varint i32 0 0 rest; Ok (set r.1 m, r.2)
  | Boolean _ _ set =>
      _ ← expect wireType 0; r ← read_varint i64 0 0 rest; Ok (set (negb (r.1 =? 0)) m, r.2)
  | Str _ _ set =>
      _ ← expect wireType 2; r ← get_string l rest; Ok (set (string_of_list_ascii r.1) m, r.2)
  | Raw _ _ set => _ ← expect wireType 2; r ← get_bytes l rest; Ok (set r.1 m, r.2)
  | Packed _ get set =>
      if wireType =? 0 then
        r ← read_varint u64 0 0 rest; Ok (set (get m ++ [r.1]) m, r.2)
      else
        _ ← expect wireType 2;
        r ← read_varint i64 0 0 rest;
        d ← take_delimited l r.1 r.2;
        p ← packed_loop (length r.2) (length d.2) (get m) r.2;
        Ok (set p.1 m, p.2)
  | Embedded c _ get set =>
      _ ← expect wireType 2; r ← get_bytes l rest;
      a ← c_get c (default (c_zero c) (get m)) r.1; Ok (set (Some a) m, r.2)
  | Repeated c _ get set =>
      _ ← expect wireType 2; r ← get_bytes l rest;
      a ← c_get c (c_zero c) r.1; Ok (set (get m ++ [a]) m, r.2)
  end.

(** A variable-length integer at an index: the integer and the next index. *)
Definition varint_at (wrap : Z -> Z) (dAtA : list byte) (iNdEx : Z) : outcome proto_error (Z * Z) :=
  r ← read_varint wrap 0 0 (drop (Z.to_nat iNdEx) dAtA);
  Ok (r.1, Z.of_nat (length dAtA) - Z.of_nat (length r.2)).

(** The switch of [skipProtocol] on the wire type: the next index and the nesting of groups. *)
Definition skip_wire (dAtA : list byte) (wireType iNdEx depth : Z) : outcome proto_error (Z * Z) :=
  match wireType with
  | 0 => v ← varint_at u64 dAtA iNdEx; Ok (v.2, depth)
  | 1 => Ok (iNdEx + 8, depth)
  | 2 => n ← varint_at i64 dAtA iNdEx;
         if n.1 <? 0 then Err ErrInvalidLength else Ok (i64 (n.2 + n.1), depth)
  | 3 => Ok (iNdEx, depth + 1)
  | 4 => if depth =? 0 then Err ErrUnexpectedEndOfGroup else Ok (iNdEx, depth - 1)
  | 5 => Ok (iNdEx + 4, depth)
  | _ => Err IllegalWireType
  end.

(** [skipProtocol]: the index after the field at the start of [dAtA]. *)
Fixpoint skip_loop (fuel : nat) (dAtA : list byte) (iNdEx depth : Z) : outcome proto_error Z :=
  match fuel with
  | O => Err OutOfFuel
  | S fuel' =>
      if negb (iNdEx <? Z.of_nat (length dAtA)) then Err UnexpectedEOF
      else
        w ← varint_at u64 dAtA iNdEx;
        let '(wire, iNdEx) := w in
        r ← skip_wire dAtA (Z.land wire 7) iNdEx depth;
        let '(iNdEx, depth) := r in
        if iNdEx <? 0 then Err ErrInvalidLength
        else if depth =? 0 then Ok iNdEx
        else skip_loop fuel' dAtA iNdEx depth
  end.

Definition skipProtocol (dAtA : list byte) : outcome proto_error Z :=
  skip_loop (S (length dAtA)) dAtA 0 0.

(** The default case of the switch, from the start of the field. *)
Definition skip_field (l : Z) (rest : list byte) : outcome proto_error (list byte) :=
  skippy ← skipProtocol rest;
  if (skippy <? 0) || (i64 (l - Z.of_nat (length rest) + skippy) <? 0) then Err ErrInvalidLength
  else if Z.of_nat (length rest) <? skippy then Err UnexpectedEOF
  else Ok (drop (Z.to_nat skippy) rest).

Definition find_field {M : Type} (fs : list (field M)) (fieldNum : Z) : option (field M) :=
  List.find (fun f => number f =? fieldNum) fs.

(** The body of the loop: the message and the bytes left. *)
Definition unmarshal_step {M : Type} (fs : list (field M)) (l : Z) (m : M) (rest : list byte)
  : outcome proto_error (M * list byte) :=
  w ← read_varint u64 0 0 rest;
  let fieldNum := i32 (Z.shiftr w.1 3) in
  let wireType := Z.land w.1 7 in
  if wireType =? 4 then Err EndGroup
  else if fieldNum <=? 0 then Err IllegalTag
  else match find_field fs fieldNum with
       | Some f => get_field f wireType l w.2 m
       | None => rest' ← skip_field l rest; Ok (m, rest')
       end.

Fixpoint unmarshal_loop {M : Type} (fuel : nat) (fs : list (field M)) (l : Z) (m : M) (rest : list byte)
  : outcome proto_error M :=
  match rest with
  | [] => Ok m
  | _ =>
      match fuel with
      | O => Err OutOfFuel
      | S fuel' => r ← unmarshal_step fs l m rest; unmarshal_loop fuel' fs l r.1 r.2
      end
  end.

(** [Unmarshal]: what the input adds to [m]. *)
Definition Unmarshal {M : Type} (fs : list (field M)) (m : M) (dAtA : list byte) : outcome proto_error M :=
  unmarshal_loop (length dAtA) fs (Z.of_nat (length dAtA)) m dAtA.

(** Integers fit their width. *)
Definition field_typed {M : Type} (f : field M) (m : M) : Prop :=
  match f with
  | Uint64 _ get _ => is_u64 (get m)
  | Int32 _ get _ => is_i32 (get m)
  | Packed _ get _ => Forall is_u64 (get m)
  | Embedded c _ get _ => match get m with Some a => c_typed c a | None => True end
  | Repeated c _ get _ => Forall (c_typed c) (get m)
  | _ => True
  end.

Definition message_codec {M : Type} (zero : M) (fs : list (field M)) : codec M :=
  mkCodec M zero (Marshal fs) (message_size fs) (Unmarshal fs) (fun m => Forall (fun f => field_typed f m) fs).
End Proto.
