(* ===== verification/ProtoSpec.v ===== *)
(** * The wire format round trips

    What a message is marshalled to is unmarshalled to the message, its computed size is
    the number of bytes written, and unmarshalling arbitrary bytes returns. *)

From Stdlib Require Import ZArith Lia Ascii String.
From stdpp Require Import base list strings.
From S2P Require Import Prelude Bytes Channels Proto.

Local Open Scope Z_scope.

Module ProtoSpec.
Import Proto.

(** ** Bitwise or and wrap-around *)

(** A wrap-around that keeps the low bits. *)
Class Wraps (wrap : Z -> Z) := wrap_lor a b : wrap (Z.lor a b) = Z.lor (wrap a) (wrap b).

Lemma mod_pow2_lor n a b :
  0 <= n -> (Z.lor a b) mod 2 ^ n = Z.lor (a mod 2 ^ n) (b mod 2 ^ n).
Proof. intros Hn. rewrite <- !Z.land_ones by done. apply Z.land_lor_distr_l. Qed.

#[export] Instance u64_wraps : Wraps u64.
Proof. intros a b. unfold u64. change two64 with (2 ^ 64). by apply mod_pow2_lor. Qed.

Definition fits (n z : Z) : Prop := - 2 ^ n <= z < 2 ^ n.

Lemma fits_shiftr n z : 0 <= n -> fits n z <-> Z.shiftr z n = 0 \/ Z.shiftr z n = -1.
Proof.
  intros Hn. unfold fits. rewrite Z.shiftr_div_pow2 by done.
  pose proof (Z.pow_pos_nonneg 2 n ltac:(lia) Hn) as Hp.
  pose proof (Z.div_mod z (2 ^ n) ltac:(lia)). pose proof (Z.mod_pos_bound z (2 ^ n) Hp). split.
  - intros Hz. assert (z / 2 ^ n < 1) by (apply Z.div_lt_upper_bound; lia).
    assert (-1 <= z / 2 ^ n) by (apply Z.div_le_lower_bound; lia). lia.
  - intros [E|E]; rewrite E in *; lia.
Qed.

Lemma fits_lor n a b : 0 <= n -> fits n a -> fits n b -> fits n (Z.lor a b).
Proof.
  intros Hn Ha Hb. rewrite fits_shiftr, Z.shiftr_lor by done.
  apply fits_shiftr in Ha, Hb; [|done..].
  destruct Ha as [->| ->], Hb as [->| ->]; simpl; auto.
Qed.

(** Two's complement with [n + 1] bits. *)
Definition signed (n z : Z) : Z := (z + 2 ^ n) mod 2 ^ (n + 1) - 2 ^ n.

Lemma pow2_succ n : 0 <= n -> 2 ^ (n + 1) = 2 * 2 ^ n.
Proof. intros Hn. by rewrite Z.pow_add_r, Z.mul_comm by lia. Qed.

Lemma signed_fits n z : 0 <= n -> fits n (signed n z).
Proof.
  intros Hn. unfold fits, signed. rewrite pow2_succ by done.
  pose proof (Z.pow_pos_nonneg 2 n ltac:(lia) Hn).
  pose proof (Z.mod_pos_bound (z + 2 ^ n) (2 * 2 ^ n) ltac:(lia)). lia.
Qed.

Lemma signed_mod n z : 0 <= n -> signed n z mod 2 ^ (n + 1) = z mod 2 ^ (n + 1).
Proof.
  intros Hn. unfold signed. rewrite Zminus_mod_idemp_l. f_equal. lia.
Qed.

Lemma signed_unique n z z' :
  0 <= n -> fits n z' -> z' mod 2 ^ (n + 1) = z mod 2 ^ (n + 1) -> z' = signed n z.
Proof.
  intros Hn Hf Hm. unfold signed. rewrite <- Zplus_mod_idemp_l, <- Hm, Zplus_mod_idemp_l.
  unfold fits in Hf. rewrite pow2_succ by done. rewrite Z.mod_small; lia.
Qed.

Lemma signed_lor n a b : 0 <= n -> signed n (Z.lor a b) = Z.lor (signed n a) (signed n b).
Proof.
  intros Hn. symmetry. apply signed_unique; [done| |].
  - apply fits_lor; auto using signed_fits.
  - rewrite !mod_pow2_lor, !signed_mod by lia. done.
Qed.

#[export] Instance i32_wraps : Wraps i32.
Proof. intros a b. apply (signed_lor 31). lia. Qed.

#[export] Instance i64_wraps : Wraps i64.
Proof. intros a b. apply (signed_lor 63). lia. Qed.

Lemma i32_u64 z : is_i32 z -> i32 (u64 z) = z.
Proof.
  intros Hz. symmetry. apply (signed_unique 31); [lia|exact Hz|].
  unfold u64. symmetry. rewrite Z.mod_mod_divide; [done|]. by exists (2 ^ 32).
Qed.

(** ** Integers *)

Lemma low_high v s :
  0 <= s -> Z.shiftl v s = Z.lor (Z.shiftl (Z.land v 127) s) (Z.shiftl (Z.shiftr v 7) (s + 7)).
Proof.
  intros Hs. rewrite (Z.add_comm s 7), <- Z.shiftl_shiftl by lia. rewrite <- Z.shiftl_lor. f_equal.
  apply Z.bits_inj_iff'. intros k Hk. rewrite Z.lor_spec, Z.land_spec.
  change 127 with (Z.ones 7).
  destruct (Z.lt_ge_cases k 7).
  - rewrite Z.ones_spec_low, Z.shiftl_spec_low, andb_true_r, orb_false_r by lia. done.
  - rewrite Z.ones_spec_high, andb_false_r, Z.shiftl_spec, Z.shiftr_spec by lia. simpl.
    f_equal. lia.
Qed.

Lemma more_byte v : byte_val (byte_of (Z.lor (Z.land v 127) 128)) = Z.land v 127 + 128.
Proof.
  assert (0 <= Z.land v 127 < 128) as Hl.
  { change 127 with (Z.ones 7). rewrite Z.land_ones by lia. apply Z.mod_pos_bound. lia. }
  assert (Z.lor (Z.land v 127) 128 = Z.land v 127 + 128) as ->.
  { assert (Z.land (Z.land v 127) 128 = 0) as H0.
    { rewrite <- Z.land_assoc. change (Z.land 127 128) with 0. apply Z.land_0_r. }
    by rewrite Z.add_nocarry_lxor, Z.lxor_lor. }
  rewrite byte_val_of, Z.mod_small; lia.
Qed.

Lemma land_127_small v : 0 <= v < 128 -> Z.land v 127 = v.
Proof. intros Hv. change 127 with (Z.ones 7). rewrite Z.land_ones by lia. by apply Z.mod_small. Qed.

Lemma read_put_varint wrap `{!Wraps wrap} n v s a rest :
  0 <= v < 2 ^ (7 * (Z.of_nat n + 1)) -> 0 <= s -> s + 7 * Z.of_nat n < 64 ->
  read_varint wrap s (wrap a) (put_varint n v ++ rest) = Ok (wrap (Z.lor a (Z.shiftl v s)), rest).
Proof.
  revert v s a. induction n as [|n IH]; intros v s a Hv Hs Hn.
  - change (2 ^ (7 * (Z.of_nat 0 + 1))) with 128 in Hv.
    cbn [put_varint app read_varint]. destruct (Z.leb_spec 64 s); [lia|].
    rewrite byte_val_of, (Z.mod_small v) by lia. destruct (Z.ltb_spec v 128); [|lia].
    by rewrite land_127_small, <- wrap_lor by lia.
  - cbn [put_varint]. destruct (Z.leb_spec 128 v) as [Hb|Hb].
    + cbn [app read_varint]. destruct (Z.leb_spec 64 s); [lia|]. rewrite more_byte.
      assert (0 <= Z.land v 127 < 128).
      { change 127 with (Z.ones 7). rewrite Z.land_ones by lia. apply Z.mod_pos_bound. lia. }
      destruct (Z.ltb_spec (Z.land v 127 + 128) 128); [lia|].
      assert (Z.land (Z.land v 127 + 128) 127 = Z.land v 127) as ->.
      { change 127 with (Z.ones 7). rewrite !Z.land_ones by lia. change (2 ^ 7) with 128.
        replace (v mod 128 + 128) with (v mod 128 + 1 * 128) by lia.
        by rewrite Z_mod_plus_full, Z.mod_mod. }
      rewrite <- wrap_lor, IH; [|split| |]; try lia.
      * by rewrite (low_high v s) by lia; rewrite Z.lor_assoc.
      * apply Z.shiftr_nonneg. lia.
      * rewrite Z.shiftr_div_pow2 by lia. apply Z.div_lt_upper_bound; [lia|].
        rewrite <- Z.pow_add_r by lia. replace (7 + 7 * (Z.of_nat n + 1)) with (7 * (Z.of_nat (S n) + 1)) by lia.
        lia.
    + cbn [app read_varint]. destruct (Z.leb_spec 64 s); [lia|].
      rewrite byte_val_of, (Z.mod_small v) by lia. destruct (Z.ltb_spec v 128); [|lia].
      by rewrite land_127_small, <- wrap_lor by lia.
Qed.

Lemma u64_ten_bytes v : is_u64 v -> 0 <= v < 2 ^ (7 * (Z.of_nat 9 + 1)).
Proof. intros [Hv Hv']. split; [done|]. apply Z.lt_trans with two64; [done|reflexivity]. Qed.

Lemma read_encodeVarint wrap `{!Wraps wrap} v rest :
  is_u64 v -> wrap 0 = 0 -> read_varint wrap 0 0 (encodeVarint v ++ rest) = Ok (wrap v, rest).
Proof.
  intros Hv H0. rewrite <- H0 at 2. unfold encodeVarint.
  rewrite (@read_put_varint wrap _) by (lia || by apply u64_ten_bytes).
  by rewrite Z.lor_0_l, Z.shiftl_0_r.
Qed.

Lemma length_put_varint n v :
  0 <= v < 2 ^ (7 * (Z.of_nat n + 1)) -> Z.of_nat (length (put_varint n v)) = Z.log2 v / 7 + 1.
Proof.
  assert (forall v, 0 <= v < 128 -> Z.log2 v / 7 = 0) as Hsmall.
  { intros x Hx. apply Z.div_small. split; [apply Z.log2_nonneg|].
    destruct (Z.eq_dec x 0) as [->|]; [done|]. apply Z.log2_lt_pow2; lia. }
  revert v. induction n as [|n IH]; intros v Hv; cbn [put_varint].
  - change (2 ^ (7 * (Z.of_nat 0 + 1))) with 128 in Hv. rewrite Hsmall by lia. done.
  - destruct (Z.leb_spec 128 v) as [Hb|Hb]; [|rewrite Hsmall by lia; done].
    cbn [length]. rewrite Nat2Z.inj_succ, IH.
    + rewrite Z.log2_shiftr by lia.
      assert (7 <= Z.log2 v) by (apply Z.log2_le_pow2; lia).
      rewrite Z.max_r by lia. replace (Z.log2 v) with (Z.log2 v - 7 + 1 * 7) at 2 by lia.
      rewrite Z.div_add by lia. lia.
    + split; [apply Z.shiftr_nonneg; lia|].
      rewrite Z.shiftr_div_pow2 by lia. apply Z.div_lt_upper_bound; [lia|].
      rewrite <- Z.pow_add_r by lia. replace (7 + 7 * (Z.of_nat n + 1)) with (7 * (Z.of_nat (S n) + 1)) by lia.
      lia.
Qed.

Lemma length_encodeVarint v : is_u64 v -> Z.of_nat (length (encodeVarint v)) = CtrlMsg.sovProtocol v.
Proof.
  intros Hv. unfold encodeVarint. rewrite length_put_varint by (by apply u64_ten_bytes).
  unfold CtrlMsg.sovProtocol, CtrlMsg.Len64. destruct Hv as [Hv _].
  assert (Z.lor v 1 <> 0) as Hnz by (intros [_ ?]%Z.lor_eq_0_iff; lia).
  destruct (Z.eqb_spec (Z.lor v 1) 0); [done|].
  rewrite Z.log2_lor by lia. change (Z.log2 1) with 0. rewrite Z.max_l by apply Z.log2_nonneg.
  replace (Z.log2 v + 1 + 6) with (Z.log2 v + 1 * 7) by lia. by rewrite Z.div_add.
Qed.

(** ** Unmarshalling returns *)

(** A value or an error of the code, not a lack of fuel or a panic. *)
Definition returns {A : Type} (o : outcome proto_error A) : Prop :=
  match o with Ok _ => True | Err OutOfFuel => False | Err _ => True | Panic => False end.

Lemma returns_bind {A B : Type} (o : outcome proto_error A) (f : A -> outcome proto_error B) :
  returns o -> (forall a, o = Ok a -> returns (f a)) -> returns (o ≫= f).
Proof. destruct o as [a|e|]; simpl; eauto. Qed.

Lemma read_varint_shorter wrap s v bs x bs' :
  read_varint wrap s v bs = Ok (x, bs') -> (length bs' < length bs)%nat.
Proof.
  revert s v. induction bs as [|b bs IH]; intros s v; cbn [read_varint]; destruct (64 <=? s); try done.
  destruct (byte_val b <? 128).
  - intros [= _ <-]. simpl. lia.
  - intros H%IH. simpl. lia.
Qed.

Lemma read_varint_returns wrap s v bs : returns (read_varint wrap s v bs).
Proof.
  revert s v. induction bs as [|b bs IH]; intros s v; cbn [read_varint]; destruct (64 <=? s); try done.
  destruct (byte_val b <? 128); [done|apply IH].
Qed.

Lemma read_int_fits s v bs x bs' :
  is_i64 v -> read_varint i64 s v bs = Ok (x, bs') -> is_i64 x.
Proof.
  revert s v. induction bs as [|b bs IH]; intros s v Hv; cbn [read_varint]; destruct (64 <=? s); try done.
  assert (is_i64 (Z.lor v (i64 (Z.shiftl (Z.land (byte_val b) 127) s)))) as Hv'
    by (apply (fits_lor 63); [lia|exact Hv|apply i64_range]).
  destruct (byte_val b <? 128); [intros [= <- _]; exact Hv'|by apply IH].
Qed.

Lemma take_delimited_shorter l n rest d r :
  take_delimited l n rest = Ok (d, r) -> r = drop (Z.to_nat n) rest /\ (length r <= length rest)%nat.
Proof.
  unfold take_delimited. repeat case_match; try done.
  intros [= _ <-]. rewrite length_drop. split; [done|lia].
Qed.

Lemma take_delimited_returns l n rest : returns (take_delimited l n rest).
Proof. unfold take_delimited. by repeat case_match. Qed.

Lemma packed_loop_ok fuel stop acc rest :
  (length rest <= fuel)%nat ->
  returns (packed_loop fuel stop acc rest) /\
  forall p, packed_loop fuel stop acc rest = Ok p -> (length p.2 <= length rest)%nat.
Proof.
  revert acc rest. induction fuel as [|fuel IH]; intros acc rest Hf; cbn [packed_loop];
    destruct (Nat.leb_spec (length rest) stop); try (split; [done|]; intros p [= <-]; simpl; lia).
  - lia.
  - pose proof (read_varint_returns u64 0 0 rest) as Hr.
    destruct (read_varint u64 0 0 rest) as [[x r]|e|] eqn:E; cbn [mbind outcome_bind fst snd]; try done.
    apply read_varint_shorter in E. destruct (IH (acc ++ [x]) r) as [H1 H2]; [lia|].
    split; [done|]. intros p Hp%H2. lia.
Qed.

(** Embedded messages are unmarshalled by code that returns. *)
Definition field_returns {M : Type} (f : field M) : Prop :=
  match f with
  | Embedded c _ _ _ => forall a d, Z.of_nat (length d) < two63 -> returns (c_get c a d)
  | Repeated c _ _ _ => forall a d, Z.of_nat (length d) < two63 -> returns (c_get c a d)
  | _ => True
  end.

Ltac run_bind :=
  match goal with
  | |- context [read_varint ?w ?s ?v ?b] =>
      let E := fresh "E" in
      pose proof (read_varint_returns w s v b);
      destruct (read_varint w s v b) as [[? ?]|?|] eqn:E; try done;
      pose proof (read_varint_shorter _ _ _ _ _ _ E)
  | |- context [take_delimited ?l ?n ?r] =>
      let E := fresh "E" in
      pose proof (take_delimited_returns l n r);
      destruct (take_delimited l n r) as [[? ?]|?|] eqn:E; try done;
      destruct (take_delimited_shorter _ _ _ _ _ E) as [? ?]
  end; cbn [mbind outcome_bind fst snd] in *.

Lemma take_delimited_take l n rest d r :
  take_delimited l n rest = Ok (d, r) -> d = take (Z.to_nat n) rest.
Proof.
  unfold take_delimited. repeat case_match; try done. by intros [= <- _].
Qed.

Lemma get_field_ok {M : Type} (f : field M) wireType l rest m :
  field_returns f -> Z.of_nat (length rest) < two63 ->
  returns (get_field f wireType l rest m) /\
  forall r, get_field f wireType l rest m = Ok r -> (length r.2 <= length rest)%nat.
Proof.
  intros Hf Hl. destruct f; cbn [get_field]; unfold get_string, get_bytes, expect;
    repeat (case_match; cbn [mbind outcome_bind]; try done);
    try (run_bind; try (run_bind); try (split; [done|]; intros r0 [= <-]; simpl; lia)).
  - destruct (packed_loop_ok (length l0) (length l2) (get m) l0 ltac:(lia)) as [H1' H2'].
    destruct (packed_loop _ _ _ _) as [p|e|]; cbn [mbind outcome_bind]; try done.
    split; [done|]. intros r [= <-]. specialize (H2' p eq_refl). simpl. lia.
  - assert (returns (c_get c (default (c_zero c) (get m)) l1)) as Hr.
    { apply Hf. apply take_delimited_take in E0 as ->. rewrite length_take. lia. }
    destruct (c_get _ _ _) as [a|e|]; cbn [mbind outcome_bind] in *; try done.
    split; [done|]. intros r [= <-]. simpl. lia.
  - assert (returns (c_get c (c_zero c) l1)) as Hr.
    { apply Hf. apply take_delimited_take in E0 as ->. rewrite length_take. lia. }
    destruct (c_get _ _ _) as [a|e|]; cbn [mbind outcome_bind] in *; try done.
    split; [done|]. intros r [= <-]. simpl. lia.
Qed.

Lemma varint_at_ok wrap dAtA i :
  returns (varint_at wrap dAtA i) /\
  forall p, varint_at wrap dAtA i = Ok p ->
    Z.max 0 i < p.2 <= Z.of_nat (length dAtA) /\
    (wrap = i64 -> is_i64 p.1).
Proof.
  unfold varint_at. pose proof (read_varint_returns wrap 0 0 (drop (Z.to_nat i) dAtA)) as Hr.
  destruct (read_varint _ _ _ _) as [[x r]|e|] eqn:E; cbn [mbind outcome_bind fst snd]; try done.
  split; [done|]. intros p [= <-]. cbn [fst snd].
  split; [apply read_varint_shorter in E; rewrite length_drop in E; lia|].
  intros ->. eapply read_int_fits; [|exact E]. by vm_compute.
Qed.

Lemma i64_sum_forward a b :
  0 <= a < two63 -> 0 <= b < two63 -> 0 <= i64 (a + b) -> i64 (a + b) = a + b.
Proof.
  intros Ha Hb H. destruct (decide (a + b < two63)); [apply i64_small; unfold is_i64, two63 in *; lia|].
  exfalso. revert H. unfold i64.
  replace (a + b + two63) with (a + b - two63 + 1 * two64) by (unfold two63, two64; lia).
  rewrite Z.mod_add by done. rewrite Z.mod_small; unfold two63, two64 in *; lia.
Qed.

Lemma skip_wire_ok dAtA wireType k depth :
  Z.of_nat (length dAtA) < two63 -> 0 <= k ->
  returns (skip_wire dAtA wireType k depth) /\
  forall p, skip_wire dAtA wireType k depth = Ok p -> p.1 < 0 \/ k <= p.1.
Proof.
  intros Hl Hk. unfold skip_wire.
  destruct (varint_at_ok u64 dAtA k) as [H1 H2], (varint_at_ok i64 dAtA k) as [H3 H4].
  repeat (case_match; try done); try (split; [done|]; intros ? [= <-]; simpl; lia).
  - destruct (varint_at u64 dAtA k) as [v|e|]; cbn [mbind outcome_bind]; try done.
    destruct (H2 _ eq_refl). split; [done|]. intros ? [= <-]. simpl. lia.
  - destruct (varint_at i64 dAtA k) as [[n k']|e|]; cbn [mbind outcome_bind fst snd]; try done.
    destruct (H4 _ eq_refl) as [Hk' Hn]; cbn [fst snd] in *. specialize (Hn eq_refl).
    destruct (Z.ltb_spec n 0); [done|]. split; [done|]. intros ? [= <-]. cbn [fst].
    destruct (decide (0 <= i64 (k' + n))) as [H'|]; [|lia].
    rewrite i64_sum_forward; unfold is_i64 in *; lia.
Qed.

Lemma skip_loop_ok fuel dAtA i depth :
  Z.of_nat (length dAtA) < two63 -> 0 <= i -> Z.max 0 (Z.of_nat (length dAtA) - i) < Z.of_nat fuel ->
  returns (skip_loop fuel dAtA i depth) /\
  forall j, skip_loop fuel dAtA i depth = Ok j -> i < j.
Proof.
  intros Hl. revert i depth. induction fuel as [|fuel IH]; intros i depth Hi Hf; cbn [skip_loop]; [lia|].
  destruct (Z.ltb_spec i (Z.of_nat (length dAtA))) as [Hlt|]; cbn [negb]; [|done].
  destruct (varint_at_ok u64 dAtA i) as [H1 H2].
  destruct (varint_at u64 dAtA i) as [[wire k]|e|]; cbn [mbind outcome_bind]; try done.
  destruct (H2 _ eq_refl) as [Hk _]; cbn [fst snd] in Hk.
  destruct (skip_wire_ok dAtA (Z.land wire 7) k depth Hl ltac:(lia)) as [H3 H4].
  destruct (skip_wire _ _ _ _) as [[i' depth']|e|]; cbn [mbind outcome_bind]; try done.
  specialize (H4 _ eq_refl); cbn [fst] in H4.
  destruct (Z.ltb_spec i' 0); [done|]. destruct (depth' =? 0).
  - split; [done|]. intros j [= <-]. lia.
  - destruct (IH i' depth') as [H5 H6]; [lia..|]. split; [done|]. intros j Hj%H6. lia.
Qed.

Lemma skip_field_ok l rest :
  Z.of_nat (length rest) < two63 ->
  returns (skip_field l rest) /\
  forall r, skip_field l rest = Ok r -> rest <> [] -> (length r < length rest)%nat.
Proof.
  intros Hl. unfold skip_field, skipProtocol.
  destruct (skip_loop_ok (S (length rest)) rest 0 0 Hl) as [H1 H2]; [lia..|].
  destruct (skip_loop _ _ _ _) as [n|e|]; cbn [mbind outcome_bind]; try done.
  specialize (H2 _ eq_refl). destruct (_ || _); [done|]. destruct (Z.ltb_spec (Z.of_nat (length rest)) n); [done|].
  split; [done|]. intros r [= <-] Hr. rewrite length_drop. lia.
Qed.

Lemma find_field_elem {M : Type} (fs : list (field M)) n f : find_field fs n = Some f -> f ∈ fs.
Proof. unfold find_field. intros [H _]%List.find_some. by apply list_elem_of_In. Qed.

Section Loop.
Context {M : Type} (fs : list (field M)) (Hfs : Forall field_returns fs) (l : Z).

Lemma unmarshal_step_ok m rest :
  Z.of_nat (length rest) < two63 ->
  returns (unmarshal_step fs l m rest) /\
  forall r, unmarshal_step fs l m rest = Ok r -> (length r.2 < length rest)%nat.
Proof.
  intros Hl. unfold unmarshal_step. pose proof (read_varint_returns u64 0 0 rest) as Hr.
  destruct (read_varint u64 0 0 rest) as [[w r]|e|] eqn:E; cbn [mbind outcome_bind fst snd]; try done.
  apply read_varint_shorter in E as Hs. destruct (Z.land w 7 =? 4); [done|]. destruct (i32 _ <=? 0); [done|].
  destruct (find_field fs _) as [f|] eqn:Ef.
  - apply find_field_elem in Ef. rewrite Forall_forall in Hfs.
    destruct (get_field_ok f (Z.land w 7) l r m (Hfs f Ef) ltac:(lia)) as [H1 H2].
    split; [done|]. intros r' Hr'%H2. lia.
  - destruct (skip_field_ok l rest Hl) as [H1 H2].
    destruct (skip_field l rest) as [r'|e|]; cbn [mbind outcome_bind]; try done.
    split; [done|]. intros ? [= <-]. apply H2; [done|]. by intros ->.
Qed.

(** Unmarshalling any bytes ends, and the fuel does not matter. *)
Lemma unmarshal_loop_ok fuel m rest :
  (length rest <= fuel)%nat -> Z.of_nat (length rest) < two63 ->
  returns (unmarshal_loop fuel fs l m rest) /\
  forall fuel', (length rest <= fuel')%nat -> unmarshal_loop fuel' fs l m rest = unmarshal_loop fuel fs l m rest.
Proof.
  revert m rest. induction fuel as [|fuel IH]; intros m rest Hf Hl.
  { destruct rest; [|simpl in Hf; lia]. split; [done|]. by intros [|]. }
  destruct rest as [|b rest']; [split; [done|]; by intros [|]|].
  remember (b :: rest') as rest eqn:Hb.
  assert (forall k, unmarshal_loop (S k) fs l m rest =
    (r ← unmarshal_step fs l m rest; unmarshal_loop k fs l r.1 r.2)) as Hstep by (intros; by subst rest).
  rewrite Hstep. destruct (unmarshal_step_ok m rest Hl) as [H1 H2].
  assert (forall k, (length rest <= k)%nat -> exists k', k = S k') as HS.
  { subst rest. intros [|k] ?; [simpl in *; lia|]. eauto. }
  destruct (unmarshal_step fs l m rest) as [[m' r]|e|]; cbn [mbind outcome_bind fst snd] in *; try done.
  2: { split; [done|]. intros ? [k ->]%HS. by rewrite Hstep. }
  specialize (H2 _ eq_refl). cbn [snd] in H2.
  destruct (IH m' r ltac:(lia) ltac:(lia)) as [H3 H4]. split; [done|].
  intros k Hk. destruct (HS k Hk) as [k' ->]. rewrite Hstep. apply H4. lia.
Qed.

Definition run (m : M) (rest : list byte) : outcome proto_error M := unmarshal_loop (length rest) fs l m rest.

Lemma run_step m rest m' rest' :
  rest <> [] -> Z.of_nat (length rest) < two63 ->
  unmarshal_step fs l m rest = Ok (m', rest') -> run m rest = run m' rest'.
Proof.
  intros Hne Hl E. destruct (unmarshal_step_ok m rest Hl) as [_ H]. specialize (H _ E). cbn [snd] in H.
  unfold run. destruct rest as [|b rest0]; [done|].
  change (unmarshal_loop (length (b :: rest0)) fs l m (b :: rest0)) with
    (r ← unmarshal_step fs l m (b :: rest0); unmarshal_loop (length rest0) fs l r.1 r.2).
  rewrite E. cbn [mbind outcome_bind fst snd]. simpl in *.
  symmetry. eapply unmarshal_loop_ok; lia.
Qed.
End Loop.

(** ** Round trip *)

Definition codec_ok {A : Type} (c : codec A) (a : A) : Prop :=
  c_get c (c_zero c) (c_put c a) = Ok a /\ c_size c a = Z.of_nat (length (c_put c a)).

(** The values the type of a field has. *)
Definition valid {M : Type} (f : field M) (m : M) : Prop :=
  match f with
  | Uint64 _ get _ => is_u64 (get m)
  | Int32 _ get _ => is_i32 (get m)
  | Packed _ get _ => Forall is_u64 (get m)
  | Embedded c _ get _ => match get m with Some a => codec_ok c a | None => True end
  | Repeated c _ get _ => Forall (codec_ok c) (get m)
  | _ => True
  end.

(** [acc] with the field of [m]. *)
Definition copy {M : Type} (f : field M) (m acc : M) : M :=
  match f with
  | Uint64 _ get set | Int32 _ get set => set (get m) acc
  | Boolean _ get set => set (get m) acc
  | Str _ get set => set (get m) acc
  | Raw _ get set => set (get m) acc
  | Packed _ get set => set (get m) acc
  | Embedded _ _ get set => set (get m) acc
  | Repeated _ _ get set => set (get m) acc
  end.

(** The field of [acc] has its zero value. *)
Definition unset {M : Type} (f : field M) (acc : M) : Prop :=
  match f with
  | Uint64 _ _ set | Int32 _ _ set => set 0 acc = acc
  | Boolean _ _ set => set false acc = acc
  | Str _ _ set => set EmptyString acc = acc
  | Raw _ _ set => set [] acc = acc
  | Packed _ get set => set [] acc = acc /\ get acc = []
  | Embedded _ _ get set => set None acc = acc /\ get acc = None
  | Repeated _ _ get set =>
      set [] acc = acc /\ get acc = [] /\
      (forall x, get (set x acc) = x) /\ (forall x y, set y (set x acc) = set y acc)
  end.

(** Copying the fields of [m] to [acc] gives [m]. *)
Fixpoint ready {M : Type} (fs : list (field M)) (m acc : M) : Prop :=
  match fs with
  | [] => acc = m
  | f :: fs' => unset f acc /\ ready fs' m (copy f m acc)
  end.

(** A small field number, of that field only. *)
Definition numbered {M : Type} (fs : list (field M)) (f : field M) : Prop :=
  1 <= number f <= 15 /\ find_field fs (number f) = Some f.

Lemma tag_read num wireType rest :
  1 <= num <= 15 -> 0 <= wireType < 8 ->
  read_varint u64 0 0 (tag num wireType :: rest) = Ok (num * 8 + wireType, rest).
Proof.
  intros Hn Hw. cbn [read_varint]. unfold tag. rewrite byte_val_of, Z.mod_small by lia.
  destruct (Z.leb_spec 64 0); [lia|]. destruct (Z.ltb_spec (num * 8 + wireType) 128); [|lia].
  rewrite Z.lor_0_l, land_127_small, Z.shiftl_0_r by lia. rewrite u64_small by (unfold is_u64, two64; lia). done.
Qed.

Lemma tag_parts num wireType :
  1 <= num <= 15 -> 0 <= wireType < 8 ->
  i32 (Z.shiftr (num * 8 + wireType) 3) = num /\ Z.land (num * 8 + wireType) 7 = wireType.
Proof.
  intros Hn Hw. split.
  - rewrite Z.shiftr_div_pow2 by lia. change (2 ^ 3) with 8.
    rewrite Z.div_add_l, (Z.div_small wireType 8), Z.add_0_r by lia.
    apply i32_small. unfold is_i32, two31. lia.
  - change 7 with (Z.ones 3). rewrite Z.land_ones by lia. change (2 ^ 3) with 8.
    rewrite Z.add_comm, Z.mod_add by lia. by apply Z.mod_small.
Qed.

Lemma unmarshal_step_tagged {M : Type} (fs : list (field M)) f l m wireType rest :
  numbered fs f -> wireType = 0 \/ wireType = 2 ->
  unmarshal_step fs l m (tag (number f) wireType :: rest) = get_field f wireType l rest m.
Proof.
  intros [Hn Hf] Hw. unfold unmarshal_step. rewrite tag_read by lia. cbn [mbind outcome_bind fst snd].
  destruct (tag_parts (number f) wireType) as [-> ->]; [lia..|]. rewrite Hf.
  destruct (Z.eqb_spec wireType 4); [lia|]. destruct (Z.leb_spec (number f) 0); [lia|done].
Qed.
Lemma read_length wrap `{!Wraps wrap} n rest :
  Z.of_nat n < two63 -> wrap 0 = 0 -> wrap (Z.of_nat n) = Z.of_nat n ->
  read_varint wrap 0 0 (encodeVarint (u64 (Z.of_nat n)) ++ rest) = Ok (Z.of_nat n, rest).
Proof.
  intros Hn H0 Hw. assert (is_u64 (Z.of_nat n)) by (unfold is_u64, two63, two64 in *; lia).
  rewrite u64_small by done. rewrite (@read_encodeVarint wrap _) by done. by rewrite Hw.
Qed.

Lemma take_delimited_app l d rest :
  Z.of_nat (length (d ++ rest)) <= l < two63 ->
  take_delimited l (Z.of_nat (length d)) (d ++ rest) = Ok (d, rest).
Proof.
  intros Hl. rewrite length_app in Hl. unfold take_delimited. rewrite length_app.
  rewrite i64_small by (unfold is_i64, two63 in *; lia).
  destruct (Z.ltb_spec (Z.of_nat (length d)) 0); [lia|].
  repeat match goal with |- context [?a <? ?b] => destruct (Z.ltb_spec a b); [lia|] end.
  by rewrite Nat2Z.id, take_app_length, drop_app_length.
Qed.

Lemma get_bytes_app l d rest :
  Z.of_nat (length (d ++ rest)) <= l < two63 ->
  get_bytes l (encodeVarint (u64 (Z.of_nat (length d))) ++ d ++ rest) = Ok (d, rest).
Proof.
  intros Hl. pose proof Hl as Hl'. rewrite length_app in Hl'. unfold get_bytes.
  rewrite (@read_length i64 _) by (lia || done || apply i64_small; unfold is_i64, two63 in *; lia).
  by apply take_delimited_app.
Qed.

Lemma get_string_app l d rest :
  Z.of_nat (length (d ++ rest)) <= l < two63 ->
  get_string l (encodeVarint (u64 (Z.of_nat (length d))) ++ d ++ rest) = Ok (d, rest).
Proof.
  intros Hl. pose proof Hl as Hl'. rewrite length_app in Hl'. unfold get_string.
  rewrite (@read_length u64 _) by (lia || done || apply u64_small; unfold is_u64, two63, two64 in *; lia).
  cbn [mbind outcome_bind fst snd].
  rewrite i64_small by (unfold is_i64, two63 in *; lia). by apply take_delimited_app.
Qed.

Lemma encodeVarint_nonempty v : (1 <= length (encodeVarint v))%nat.
Proof. unfold encodeVarint. generalize 9%nat. intros [|n]; simpl; [|destruct (_ <=? _)]; simpl; lia. Qed.

Lemma packed_loop_app fuel acc vs rest :
  Forall is_u64 vs -> (length vs <= fuel)%nat ->
  packed_loop fuel (length rest) acc ((vs ≫= encodeVarint) ++ rest) = Ok (acc ++ vs, rest).
Proof.
  intros Hvs. revert fuel acc. induction Hvs as [|v vs Hv Hvs IH]; intros fuel acc Hf.
  { rewrite app_nil_r. destruct fuel; simpl; by rewrite Nat.leb_refl. }
  destruct fuel as [|fuel]; [simpl in Hf; lia|].
  cbn [packed_loop mbind list_bind]. rewrite <- app_assoc.
  pose proof (encodeVarint_nonempty v) as Hne. rewrite !length_app.
  destruct (Nat.leb_spec (length (encodeVarint v) + (length (vs ≫= encodeVarint) + length rest)) (length rest));
    [lia|].
  rewrite (@read_encodeVarint u64 _) by done. cbn [mbind outcome_bind fst snd]. rewrite (u64_small v) by done.
  simpl in Hf. rewrite IH by lia. by rewrite <- app_assoc.
Qed.

Lemma length_packed vs : (length vs <= length (vs ≫= encodeVarint))%nat.
Proof.
  induction vs as [|v vs IH]; [done|]. rewrite bind_cons, length_app, length_cons.
  pose proof (encodeVarint_nonempty v). lia.
Qed.
Opaque encodeVarint.

Section RoundTrip.
Context {M : Type} (fs : list (field M)) (Hret : Forall field_returns fs).

(** A field written by one tag is read back. *)
Lemma run_tagged l f wireType body acc acc' rest :
  numbered fs f -> wireType = 0 \/ wireType = 2 ->
  Z.of_nat (length (tag (number f) wireType :: body ++ rest)) <= l < two63 ->
  get_field f wireType l (body ++ rest) acc = Ok (acc', rest) ->
  run fs l acc (tag (number f) wireType :: body ++ rest) = run fs l acc' rest.
Proof.
  intros Hn Hw Hl E. apply run_step; [done..|lia|]. by rewrite unmarshal_step_tagged.
Qed.

Lemma run_delimited l f data acc acc' rest :
  numbered fs f ->
  Z.of_nat (length (put_delimited (number f) data ++ rest)) <= l < two63 ->
  (Z.of_nat (length (data ++ rest)) <= l ->
   get_field f 2 l (encodeVarint (u64 (Z.of_nat (length data))) ++ data ++ rest) acc = Ok (acc', rest)) ->
  run fs l acc (put_delimited (number f) data ++ rest) = run fs l acc' rest.
Proof.
  intros Hn Hl Hg. unfold put_delimited in *. cbn [app] in *.
  apply run_tagged; [done|auto|done|]. rewrite <- app_assoc. apply Hg.
  simpl in Hl. rewrite !length_app in *. lia.
Qed.

Lemma run_int l f v acc acc' rest :
  numbered fs f ->
  Z.of_nat (length (put_int (number f) v ++ rest)) <= l < two63 ->
  (v = 0 -> acc' = acc) ->
  get_field f 0 l (encodeVarint (u64 v) ++ rest) acc = Ok (acc', rest) ->
  run fs l acc (put_int (number f) v ++ rest) = run fs l acc' rest.
Proof.
  intros Hn Hl H0 Hg. unfold put_int in *. destruct (Z.eqb_spec v 0); [by rewrite H0|].
  cbn [app] in *. apply run_tagged; auto.
Qed.

Lemma run_bytes l f data acc acc' rest :
  numbered fs f ->
  Z.of_nat (length (put_bytes (number f) data ++ rest)) <= l < two63 ->
  (data = [] -> acc' = acc) ->
  (Z.of_nat (length (data ++ rest)) <= l ->
   get_field f 2 l (encodeVarint (u64 (Z.of_nat (length data))) ++ data ++ rest) acc = Ok (acc', rest)) ->
  run fs l acc (put_bytes (number f) data ++ rest) = run fs l acc' rest.
Proof.
  intros Hn Hl H0 Hg. unfold put_bytes in *. destruct data; [by rewrite H0|]. by apply run_delimited.
Qed.

Lemma run_repeated l {A : Type} (c : codec A) num get set xs (acc : M) rest :
  let f := Repeated c num get set in
  numbered fs f -> Forall (codec_ok c) xs -> unset f acc ->
  Z.of_nat (length ((xs ≫= fun a => put_delimited num (c_put c a)) ++ rest)) <= l < two63 ->
  forall done_, run fs l (set done_ acc) ((xs ≫= fun a => put_delimited num (c_put c a)) ++ rest) =
                run fs l (set (done_ ++ xs) acc) rest.
Proof.
  intros f Hn Hxs (_ & _ & Hgs & Hss). induction Hxs as [|x xs Hx Hxs IH]; intros Hl done_.
  { by rewrite app_nil_r. }
  rewrite bind_cons, <- app_assoc in *.
  replace (done_ ++ x :: xs) with ((done_ ++ [x]) ++ xs) by (by rewrite <- app_assoc).
  rewrite <- IH by (rewrite length_app in Hl; lia).
  apply (run_delimited l f); [done..|]. intros Hlen. cbn [get_field f].
  cbn [expect Z.eqb Pos.eqb mbind outcome_bind]. rewrite get_bytes_app by lia. cbn [mbind outcome_bind fst snd].
  rewrite (proj1 Hx). cbn [mbind outcome_bind]. by rewrite Hgs, Hss.
Qed.

Lemma run_field l f m acc rest :
  numbered fs f -> valid f m -> unset f acc ->
  Z.of_nat (length (put_field f m ++ rest)) <= l < two63 ->
  run fs l acc (put_field f m ++ rest) = run fs l (copy f m acc) rest.
Proof.
  intros Hn Hv Hu Hl.
  destruct f as [num get set|num get set|num get set|num get set|num get set|num get set|A c num get set|A c num get set];
    cbn [put_field copy valid unset] in *.
  - eapply run_int in Hn; [exact Hn|done|by intros ->|]. cbn [get_field expect Z.eqb mbind outcome_bind].
    rewrite (@read_encodeVarint u64 _) by (done || apply u64_range). cbn [mbind outcome_bind fst snd].
    by rewrite !u64_small by (rewrite ?u64_small by done; done).
  - eapply run_int in Hn; [exact Hn|done|by intros ->|]. cbn [get_field expect Z.eqb mbind outcome_bind].
    rewrite (@read_encodeVarint i32 _) by (done || apply u64_range). cbn [mbind outcome_bind fst snd].
    by rewrite i32_u64.
  - destruct (get m) eqn:E; [|by rewrite Hu].
    eapply (run_tagged l _ 0 [byte_of 1]) in Hn; [exact Hn|auto|done|]. reflexivity.
  - eapply run_bytes in Hn; [exact Hn|done| |].
    + intros H. destruct (get m); done.
    + intros Hl'. cbn [get_field expect Z.eqb Pos.eqb mbind outcome_bind]. rewrite get_string_app by lia.
      cbn [mbind outcome_bind fst snd]. by rewrite string_of_list_ascii_of_string.
  - eapply run_bytes in Hn; [exact Hn|done|by intros ->|].
    intros Hl'. cbn [get_field expect Z.eqb Pos.eqb mbind outcome_bind]. by rewrite get_bytes_app by lia.
  - destruct Hu as [Hu Hg]. eapply run_bytes in Hn; [exact Hn|done| |].
    + pose proof (length_packed (get m)) as Hp. intros H. rewrite H in Hp. by destruct (get m); [|simpl in Hp; lia].
    + intros Hl'. cbn [get_field expect Z.eqb Pos.eqb mbind outcome_bind].
      rewrite length_app in Hl'.
      rewrite (@read_length i64 _) by (lia || done || apply i64_small; unfold is_i64, two63 in *; lia).
      cbn [mbind outcome_bind fst snd]. rewrite take_delimited_app by (rewrite length_app; lia).
      cbn [mbind outcome_bind fst snd]. rewrite packed_loop_app; [cbn [mbind outcome_bind fst snd]; by rewrite Hg|done|].
      rewrite length_app. pose proof (length_packed (get m)). lia.
  - destruct Hu as [Hu Hg]. destruct (get m) as [a|] eqn:E; [|by rewrite Hu].
    eapply run_delimited in Hn; [exact Hn|done|].
    intros Hl'. cbn [get_field expect Z.eqb Pos.eqb mbind outcome_bind]. rewrite get_bytes_app by lia.
    cbn [mbind outcome_bind fst snd]. rewrite Hg. cbn [default from_option]. by rewrite (proj1 Hv).
  - pose proof Hu as (Hu0 & _).
    pose proof (run_repeated l c num get set (get m) acc rest Hn Hv Hu Hl []) as H. by rewrite Hu0 in H.
Qed.

Lemma run_marshal l gs m acc :
  Forall (numbered fs) gs -> Forall (fun f => valid f m) gs -> ready gs m acc ->
  Z.of_nat (length (Marshal gs m)) <= l < two63 ->
  run fs l acc (Marshal gs m) = Ok m.
Proof.
  revert acc. induction gs as [|f gs IH]; intros acc Hn Hv Hr Hl; cbn [ready] in Hr.
  - by subst acc.
  - apply Forall_cons_1 in Hn as [Hnf Hn], Hv as [Hvf Hv]. destruct Hr as [Hu Hr].
    cbn [Marshal foldr] in *. rewrite run_field by done. apply IH; try done.
    rewrite length_app in Hl. unfold Marshal. lia.
Qed.

(** Unmarshalling what was marshalled gives the message. *)
Lemma unmarshal_marshal zero m :
  Forall (numbered fs) fs -> Forall (fun f => valid f m) fs -> ready fs m zero ->
  Z.of_nat (length (Marshal fs m)) < two63 ->
  Unmarshal fs zero (Marshal fs m) = Ok m.
Proof. intros. by apply run_marshal. Qed.
End RoundTrip.

(** ** Sizes *)

Lemma length_put_delimited num data :
  Z.of_nat (length (put_delimited num data)) = size_delimited (Z.of_nat (length data)).
Proof.
  unfold put_delimited, size_delimited. cbn [length]. rewrite length_app, Nat2Z.inj_succ, Nat2Z.inj_add.
  rewrite length_encodeVarint by apply u64_range. lia.
Qed.

Lemma length_put_int num v : Z.of_nat (length (put_int num v)) = size_int v.
Proof.
  unfold put_int, size_int. destruct (v =? 0); [done|]. cbn [length].
  rewrite Nat2Z.inj_succ, length_encodeVarint by apply u64_range. lia.
Qed.

Lemma length_put_bytes num data :
  Z.of_nat (length (put_bytes num data)) = size_bytes (Z.of_nat (length data)).
Proof.
  unfold put_bytes, size_bytes. destruct data as [|b d]; [done|].
  rewrite length_put_delimited. destruct (Z.ltb_spec 0 (Z.of_nat (length (b :: d)))); [done|simpl in *; lia].
Qed.

Lemma length_bind_sum {A B : Type} (f : A -> list B) xs :
  Z.of_nat (length (xs ≫= f)) = sum ((fun x => Z.of_nat (length (f x))) <$> xs).
Proof.
  induction xs as [|x xs IH]; [done|]. rewrite bind_cons, length_app, Nat2Z.inj_add, IH. done.
Qed.

Lemma sum_ext {A : Type} (f g : A -> Z) xs :
  (forall x, x ∈ xs -> f x = g x) -> sum (f <$> xs) = sum (g <$> xs).
Proof.
  induction xs as [|x xs IH]; [done|]. intros H. cbn [fmap list_fmap sum foldr].
  rewrite H by left. f_equal. apply IH. intros y Hy. apply H. by right.
Qed.
Lemma length_list_ascii s : length (list_ascii_of_string s) = String.length s.
Proof. induction s as [|a s IH]; [done|]. simpl. by rewrite IH. Qed.

Lemma length_put_field {M : Type} (f : field M) m :
  valid f m -> Z.of_nat (length (put_field f m)) = field_size f m.
Proof.
  destruct f; cbn [valid put_field field_size]; intros Hv;
    rewrite ?length_put_int, ?length_put_bytes; try done.
  - by destruct (get m).
  - by rewrite length_list_ascii.
  - f_equal. rewrite length_bind_sum. apply sum_ext. intros v Hin. rewrite Forall_forall in Hv.
    rewrite u64_small by auto. by apply length_encodeVarint, Hv.
  - destruct (get m) as [a|]; [|done]. by rewrite length_put_delimited, (proj2 Hv).
  - rewrite length_bind_sum. apply sum_ext. intros a Hin. rewrite Forall_forall in Hv.
    by rewrite length_put_delimited, (proj2 (Hv a Hin)).
Qed.

(** The computed size is the number of bytes written. *)
Lemma length_marshal {M : Type} (fs : list (field M)) m :
  Forall (fun f => valid f m) fs -> message_size fs m = Z.of_nat (length (Marshal fs m)).
Proof.
  induction 1 as [|f fs Hf _ IH]; [done|].
  unfold message_size in *. cbn [fmap list_fmap sum foldr Marshal]. unfold sum in IH at 1.
  rewrite length_app, Nat2Z.inj_add, length_put_field by done. unfold Marshal in IH. rewrite <- IH. done.
Qed.

(** A message type all of whose messages are unmarshalled, in a bounded number of steps. *)
Lemma unmarshal_returns {M : Type} (fs : list (field M)) m dAtA :
  Forall field_returns fs -> Z.of_nat (length dAtA) < two63 -> returns (Unmarshal fs m dAtA).
Proof. intros Hfs Hl. by eapply unmarshal_loop_ok. Qed.

(** ** Message types *)

(** What the users of a codec rely on. *)
Class Lawful {A : Type} (c : codec A) := {
  lawful_size a : c_typed c a -> 0 <= c_size c a;
  lawful_ok a : c_typed c a -> c_size c a < two63 -> codec_ok c a;
  lawful_returns a d : Z.of_nat (length d) < two63 -> returns (c_get c a d)
}.

Definition field_lawful {M : Type} (f : field M) : Prop :=
  match f with
  | Embedded c _ _ _ => Lawful c
  | Repeated c _ _ _ => Lawful c
  | _ => True
  end.

(** What a message type has for its messages to round trip. *)
Class Message {M : Type} (zero : M) (fs : list (field M)) := {
  message_lawful : Forall field_lawful fs;
  message_numbered : Forall (numbered fs) fs;
  message_ready m : ready fs m zero
}.

Lemma field_lawful_returns {M : Type} (f : field M) : field_lawful f -> field_returns f.
Proof. destruct f; try done; intros Hc ? ?; apply Hc. Qed.

Lemma size_delimited_ge l : l < size_delimited l.
Proof.
  unfold size_delimited. rewrite <- length_encodeVarint by apply u64_range. lia.
Qed.

Lemma size_bytes_nonneg l : 0 <= size_bytes l.
Proof. unfold size_bytes. pose proof (size_delimited_ge l). destruct (Z.ltb_spec 0 l); lia. Qed.

Lemma sum_nonneg {A : Type} (f : A -> Z) xs : (forall x, x ∈ xs -> 0 <= f x) -> 0 <= sum (f <$> xs).
Proof.
  induction xs as [|x xs IH]; intros H; [done|]. cbn [fmap list_fmap sum foldr].
  assert (0 <= f x) by (apply H; left). assert (0 <= sum (f <$> xs)) by (apply IH; intros; apply H; by right).
  unfold sum in *. lia.
Qed.

Lemma sum_ge {A : Type} (f : A -> Z) xs x :
  (forall x, x ∈ xs -> 0 <= f x) -> x ∈ xs -> f x <= sum (f <$> xs).
Proof.
  intros H Hx. induction Hx as [x xs|x y xs Hx IH]; cbn [fmap list_fmap sum foldr].
  - assert (0 <= sum (f <$> xs)) by (apply sum_nonneg; intros; apply H; by right). unfold sum in *. lia.
  - assert (0 <= f y) by (apply H; left). assert (f x <= sum (f <$> xs)) by (apply IH; intros; apply H; by right).
    unfold sum in *. lia.
Qed.

Lemma field_size_nonneg {M : Type} (f : field M) m :
  field_lawful f -> field_typed f m -> 0 <= field_size f m.
Proof.
  intros Hf Ht. destruct f; cbn [field_size field_lawful field_typed] in *; try apply size_bytes_nonneg.
  1, 2: unfold size_int; destruct (get m =? 0); [done|];
    rewrite <- length_encodeVarint by apply u64_range; lia.
  - by destruct (get m).
  - destruct (get m) as [a|]; [|done]. pose proof (size_delimited_ge (c_size c a)).
    pose proof (lawful_size a Ht). lia.
  - apply sum_nonneg. intros a Ha. rewrite Forall_forall in Ht. pose proof (lawful_size a (Ht a Ha)).
    pose proof (size_delimited_ge (c_size c a)). lia.
Qed.

Lemma field_typed_valid {M : Type} (f : field M) m :
  field_lawful f -> field_typed f m -> field_size f m < two63 -> valid f m.
Proof.
  intros Hf Ht Hs. destruct f; cbn [field_size field_lawful field_typed valid] in *; try done.
  - destruct (get m) as [a|]; [|done]. pose proof (size_delimited_ge (c_size c a)). apply lawful_ok; [done|lia].
  - rewrite Forall_forall in *. intros a Ha. apply lawful_ok; [auto|].
    pose proof (size_delimited_ge (c_size c a)).
    enough (size_delimited (c_size c a) <= sum ((fun a => size_delimited (c_size c a)) <$> get m)) by lia.
    apply (sum_ge (fun a => size_delimited (c_size c a))); [|done]. intros b Hb.
    pose proof (lawful_size b (Ht b Hb)). pose proof (size_delimited_ge (c_size c b)). lia.
Qed.

(** A message type made of lawful codecs is a lawful codec. *)
#[export] Instance message_codec_lawful {M : Type} (zero : M) fs `{!Message zero fs} :
  Lawful (message_codec zero fs).
Proof.
  pose proof message_lawful as Hlaw. pose proof (proj1 (Forall_forall _ _) Hlaw) as Hl. split.
  - intros m Hm. cbn [c_size c_typed message_codec] in *. rewrite Forall_forall in Hm.
    apply sum_nonneg. intros f Hf. apply field_size_nonneg; auto.
  - intros m Hm Hs. cbn [c_size c_typed message_codec] in *.
    assert (Forall (fun f => valid f m) fs) as Hv.
    { rewrite Forall_forall in *. intros f Hf. apply field_typed_valid; [by auto..|].
      eapply Z.le_lt_trans; [|exact Hs]. apply (sum_ge (fun f => field_size f m)); [|done].
      intros g Hg. apply field_size_nonneg; auto. }
    pose proof (length_marshal fs m Hv) as Hlen. split; [|exact Hlen].
    apply unmarshal_marshal; [|apply message_numbered|done|apply message_ready|lia].
    eapply Forall_impl; [exact Hlaw|]. apply field_lawful_returns.
  - intros m d Hd. apply unmarshal_returns; [|done].
    eapply Forall_impl; [exact Hlaw|]. apply field_lawful_returns.
Qed.
End ProtoSpec.
