(* ===== verification/Spb.v ===== *)
(** * The messages of the [spb] package

    Each message type of src/spb/protocol.pb.go is a module with its record, its fields
    with their numbers and kinds, and its [Marshal], [Size] and [Unmarshal], which follow
    the scheme of [Proto].  The messages of stan.go are parameters ([StanProto]), with
    what is relied on in [StanProtoSpec]. *)

From Stdlib Require Import ZArith Lia Ascii String.
From stdpp Require Import base list strings.
From S2P Require Import Prelude Bytes Proto ProtoSpec.
Import Proto.

Local Open Scope Z_scope.

(** The message types of stan.go that are embedded in those of the server. *)
Class StanProto := {
  pb_MsgProto : Type;
  pb_SubscriptionRequest : Type;
  pb_UnsubscribeRequest : Type;
  pb_ConnectRequest : Type;
  pb_CloseRequest : Type;
  MsgProto_codec : codec pb_MsgProto;
  SubscriptionRequest_codec : codec pb_SubscriptionRequest;
  UnsubscribeRequest_codec : codec pb_UnsubscribeRequest;
  ConnectRequest_codec : codec pb_ConnectRequest;
  CloseRequest_codec : codec pb_CloseRequest
}.

(** A subscription, as stored. *)
Module SubState.
Record t := mk {
  ID : Z;
  ClientID : string;
  QGroup : string;
  Inbox : string;
  AckInbox : string;
  MaxInFlight : Z;
  AckWaitInSecs : Z;
  DurableName : string;
  LastSent : Z;
  IsDurable : bool;
  IsClosed : bool
}.
Definition zero : t := mk 0 EmptyString EmptyString EmptyString EmptyString 0 0 EmptyString 0 false false.

Definition fields : list (field t) :=
  [Uint64 1 ID (fun v '(mk _ b c d e f g h i j k) => mk v b c d e f g h i j k);
   Str 2 ClientID (fun v '(mk a _ c d e f g h i j k) => mk a v c d e f g h i j k);
   Str 3 QGroup (fun v '(mk a b _ d e f g h i j k) => mk a b v d e f g h i j k);
   Str 4 Inbox (fun v '(mk a b c _ e f g h i j k) => mk a b c v e f g h i j k);
   Str 5 AckInbox (fun v '(mk a b c d _ f g h i j k) => mk a b c d v f g h i j k);
   Int32 6 MaxInFlight (fun v '(mk a b c d e _ g h i j k) => mk a b c d e v g h i j k);
   Int32 7 AckWaitInSecs (fun v '(mk a b c d e f _ h i j k) => mk a b c d e f v h i j k);
   Str 8 DurableName (fun v '(mk a b c d e f g _ i j k) => mk a b c d e f g v i j k);
   Uint64 9 LastSent (fun v '(mk a b c d e f g h _ j k) => mk a b c d e f g h v j k);
   Boolean 10 IsDurable (fun v '(mk a b c d e f g h i _ k) => mk a b c d e f g h i v k);
   Boolean 11 IsClosed (fun v '(mk a b c d e f g h i j _) => mk a b c d e f g h i j v)].

Definition Marshal (m : t) : list byte := Proto.Marshal fields m.
Definition Size (m : t) : Z := Proto.message_size fields m.
Definition Unmarshal (m : t) (dAtA : list byte) : outcome proto_error t := Proto.Unmarshal fields m dAtA.
Definition codec : codec t := mkCodec t zero Marshal Size Unmarshal (fun m => Forall (fun f => field_typed f m) fields).
End SubState.

(** The deletion of a subscription. *)
Module SubStateDelete.
Record t := mk {
  ID : Z
}.
Definition zero : t := mk 0.

Definition fields : list (field t) :=
  [Uint64 1 ID (fun v '(mk _) => mk v)].

Definition Marshal (m : t) : list byte := Proto.Marshal fields m.
Definition Size (m : t) : Z := Proto.message_size fields m.
Definition Unmarshal (m : t) (dAtA : list byte) : outcome proto_error t := Proto.Unmarshal fields m dAtA.
Definition codec : codec t := mkCodec t zero Marshal Size Unmarshal (fun m => Forall (fun f => field_typed f m) fields).
End SubStateDelete.

(** A message sent to, or acknowledged by, a subscription. *)
Module SubStateUpdate.
Record t := mk {
  ID : Z;
  Seqno : Z
}.
Definition zero : t := mk 0 0.

Definition fields : list (field t) :=
  [Uint64 1 ID (fun v '(mk _ b) => mk v b);
   Uint64 2 Seqno (fun v '(mk a _) => mk a v)].

Definition Marshal (m : t) : list byte := Proto.Marshal fields m.
Definition Size (m : t) : Z := Proto.message_size fields m.
Definition Unmarshal (m : t) (dAtA : list byte) : outcome proto_error t := Proto.Unmarshal fields m dAtA.
Definition codec : codec t := mkCodec t zero Marshal Size Unmarshal (fun m => Forall (fun f => field_typed f m) fields).
End SubStateUpdate.

(** What a server stores of itself. *)
Module ServerInfo.
Record t := mk {
  ClusterID : string;
  Discovery : string;
  Publish : string;
  Subscribe : string;
  Unsubscribe : string;
  Close : string;
  SubClose : string;
  AcksSubs : string;
  NodeID : string
}.
Definition zero : t := mk EmptyString EmptyString EmptyString EmptyString EmptyString EmptyString EmptyString EmptyString EmptyString.

Definition fields : list (field t) :=
  [Str 1 ClusterID (fun v '(mk _ b c d e f g h i) => mk v b c d e f g h i);
   Str 2 Discovery (fun v '(mk a _ c d e f g h i) => mk a v c d e f g h i);
   Str 3 Publish (fun v '(mk a b _ d e f g h i) => mk a b v d e f g h i);
   Str 4 Subscribe (fun v '(mk a b c _ e f g h i) => mk a b c v e f g h i);
   Str 5 Unsubscribe (fun v '(mk a b c d _ f g h i) => mk a b c d v f g h i);
   Str 6 Close (fun v '(mk a b c d e _ g h i) => mk a b c d e v g h i);
   Str 7 SubClose (fun v '(mk a b c d e f _ h i) => mk a b c d e f v h i);
   Str 8 AcksSubs (fun v '(mk a b c d e f g _ i) => mk a b c d e f g v i);
   Str 9 NodeID (fun v '(mk a b c d e f g h _) => mk a b c d e f g h v)].

Definition Marshal (m : t) : list byte := Proto.Marshal fields m.
Definition Size (m : t) : Z := Proto.message_size fields m.
Definition Unmarshal (m : t) (dAtA : list byte) : outcome proto_error t := Proto.Unmarshal fields m dAtA.
Definition codec : codec t := mkCodec t zero Marshal Size Unmarshal (fun m => Forall (fun f => field_typed f m) fields).
End ServerInfo.

(** A connected client. *)
Module ClientInfo.
Record t := mk {
  ID : string;
  HbInbox : string;
  ConnID : list byte;
  Protocol : Z;
  PingInterval : Z;
  PingMaxOut : Z
}.
Definition zero : t := mk EmptyString EmptyString [] 0 0 0.

Definition fields : list (field t) :=
  [Str 1 ID (fun v '(mk _ b c d e f) => mk v b c d e f);
   Str 2 HbInbox (fun v '(mk a _ c d e f) => mk a v c d e f);
   Raw 3 ConnID (fun v '(mk a b _ d e f) => mk a b v d e f);
   Int32 4 Protocol (fun v '(mk a b c _ e f) => mk a b c v e f);
   Int32 5 PingInterval (fun v '(mk a b c d _ f) => mk a b c d v f);
   Int32 6 PingMaxOut (fun v '(mk a b c d e _) => mk a b c d e v)].

Definition Marshal (m : t) : list byte := Proto.Marshal fields m.
Definition Size (m : t) : Z := Proto.message_size fields m.
Definition Unmarshal (m : t) (dAtA : list byte) : outcome proto_error t := Proto.Unmarshal fields m dAtA.
Definition codec : codec t := mkCodec t zero Marshal Size Unmarshal (fun m => Forall (fun f => field_typed f m) fields).
End ClientInfo.

(** The deletion of a client. *)
Module ClientDelete.
Record t := mk {
  ID : string
}.
Definition zero : t := mk EmptyString.

Definition fields : list (field t) :=
  [Str 1 ID (fun v '(mk _) => mk v)].

Definition Marshal (m : t) : list byte := Proto.Marshal fields m.
Definition Size (m : t) : Z := Proto.message_size fields m.
Definition Unmarshal (m : t) (dAtA : list byte) : outcome proto_error t := Proto.Unmarshal fields m dAtA.
Definition codec : codec t := mkCodec t zero Marshal Size Unmarshal (fun m => Forall (fun f => field_typed f m) fields).
End ClientDelete.

(** A control message between servers. *)
Module CtrlMsg.
Record t := mk {
  MsgType : Z;
  ServerID : string;
  Data : list byte;
  RefID : string
}.
Definition zero : t := mk 0 EmptyString [] EmptyString.

Definition fields : list (field t) :=
  [Int32 1 MsgType (fun v '(mk _ b c d) => mk v b c d);
   Str 2 ServerID (fun v '(mk a _ c d) => mk a v c d);
   Raw 3 Data (fun v '(mk a b _ d) => mk a b v d);
   Str 4 RefID (fun v '(mk a b c _) => mk a b c v)].

Definition Marshal (m : t) : list byte := Proto.Marshal fields m.
Definition Size (m : t) : Z := Proto.message_size fields m.
Definition Unmarshal (m : t) (dAtA : list byte) : outcome proto_error t := Proto.Unmarshal fields m dAtA.
Definition codec : codec t := mkCodec t zero Marshal Size Unmarshal (fun m => Forall (fun f => field_typed f m) fields).
End CtrlMsg.

(** A request to join the cluster. *)
Module RaftJoinRequest.
Record t := mk {
  NodeID : string;
  NodeAddr : string
}.
Definition zero : t := mk EmptyString EmptyString.

Definition fields : list (field t) :=
  [Str 1 NodeID (fun v '(mk _ b) => mk v b);
   Str 2 NodeAddr (fun v '(mk a _) => mk a v)].

Definition Marshal (m : t) : list byte := Proto.Marshal fields m.
Definition Size (m : t) : Z := Proto.message_size fields m.
Definition Unmarshal (m : t) (dAtA : list byte) : outcome proto_error t := Proto.Unmarshal fields m dAtA.
Definition codec : codec t := mkCodec t zero Marshal Size Unmarshal (fun m => Forall (fun f => field_typed f m) fields).
End RaftJoinRequest.

(** Its response. *)
Module RaftJoinResponse.
Record t := mk {
  Error_ : string
}.
Definition zero : t := mk EmptyString.

Definition fields : list (field t) :=
  [Str 1 Error_ (fun v '(mk _) => mk v)].

Definition Marshal (m : t) : list byte := Proto.Marshal fields m.
Definition Size (m : t) : Z := Proto.message_size fields m.
Definition Unmarshal (m : t) (dAtA : list byte) : outcome proto_error t := Proto.Unmarshal fields m dAtA.
Definition codec : codec t := mkCodec t zero Marshal Size Unmarshal (fun m => Forall (fun f => field_typed f m) fields).
End RaftJoinResponse.

(** Replicated sent and acknowledged messages of a subscription. *)
Module SubSentAndAck.
Record t := mk {
  Channel : string;
  AckInbox : string;
  Sent : list Z;
  Ack : list Z
}.
Definition zero : t := mk EmptyString EmptyString [] [].

Definition fields : list (field t) :=
  [Str 1 Channel (fun v '(mk _ b c d) => mk v b c d);
   Str 2 AckInbox (fun v '(mk a _ c d) => mk a v c d);
   Packed 3 Sent (fun v '(mk a b _ d) => mk a b v d);
   Packed 4 Ack (fun v '(mk a b c _) => mk a b c v)].

Definition Marshal (m : t) : list byte := Proto.Marshal fields m.
Definition Size (m : t) : Z := Proto.message_size fields m.
Definition Unmarshal (m : t) (dAtA : list byte) : outcome proto_error t := Proto.Unmarshal fields m dAtA.
Definition codec : codec t := mkCodec t zero Marshal Size Unmarshal (fun m => Forall (fun f => field_typed f m) fields).
End SubSentAndAck.

(** A subscription in a snapshot. *)
Module SubscriptionSnapshot.
Record t := mk {
  State : option SubState.t;
  AcksPending : list Z
}.
Definition zero : t := mk None [].

Definition fields : list (field t) :=
  [Embedded SubState.codec 1 State (fun v '(mk _ b) => mk v b);
   Packed 2 AcksPending (fun v '(mk a _) => mk a v)].

Definition Marshal (m : t) : list byte := Proto.Marshal fields m.
Definition Size (m : t) : Z := Proto.message_size fields m.
Definition Unmarshal (m : t) (dAtA : list byte) : outcome proto_error t := Proto.Unmarshal fields m dAtA.
Definition codec : codec t := mkCodec t zero Marshal Size Unmarshal (fun m => Forall (fun f => field_typed f m) fields).
End SubscriptionSnapshot.

(** A channel in a snapshot. *)
Module ChannelSnapshot.
Record t := mk {
  Channel : string;
  First : Z;
  Last : Z;
  Subscriptions : list SubscriptionSnapshot.t;
  NextSubID : Z;
  ChannelID : Z
}.
Definition zero : t := mk EmptyString 0 0 [] 0 0.

Definition fields : list (field t) :=
  [Str 1 Channel (fun v '(mk _ b c d e f) => mk v b c d e f);
   Uint64 2 First (fun v '(mk a _ c d e f) => mk a v c d e f);
   Uint64 3 Last (fun v '(mk a b _ d e f) => mk a b v d e f);
   Repeated SubscriptionSnapshot.codec 4 Subscriptions (fun v '(mk a b c _ e f) => mk a b c v e f);
   Uint64 5 NextSubID (fun v '(mk a b c d _ f) => mk a b c d v f);
   Uint64 6 ChannelID (fun v '(mk a b c d e _) => mk a b c d e v)].

Definition Marshal (m : t) : list byte := Proto.Marshal fields m.
Definition Size (m : t) : Z := Proto.message_size fields m.
Definition Unmarshal (m : t) (dAtA : list byte) : outcome proto_error t := Proto.Unmarshal fields m dAtA.
Definition codec : codec t := mkCodec t zero Marshal Size Unmarshal (fun m => Forall (fun f => field_typed f m) fields).
End ChannelSnapshot.

(** A snapshot of the server. *)
Module RaftSnapshot.
Record t := mk {
  Clients : list ClientInfo.t;
  Channels : list ChannelSnapshot.t;
  Padding : list byte
}.
Definition zero : t := mk [] [] [].

Definition fields : list (field t) :=
  [Repeated ClientInfo.codec 1 Clients (fun v '(mk _ b c) => mk v b c);
   Repeated ChannelSnapshot.codec 2 Channels (fun v '(mk a _ c) => mk a v c);
   Raw 3 Padding (fun v '(mk a b _) => mk a b v)].

Definition Marshal (m : t) : list byte := Proto.Marshal fields m.
Definition Size (m : t) : Z := Proto.message_size fields m.
Definition Unmarshal (m : t) (dAtA : list byte) : outcome proto_error t := Proto.Unmarshal fields m dAtA.
Definition codec : codec t := mkCodec t zero Marshal Size Unmarshal (fun m => Forall (fun f => field_typed f m) fields).
End RaftSnapshot.

(** Messages published together. *)
Module Batch.
Section WithStan.
Context `{StanProto}.

Record t := mk {
  Messages : list pb_MsgProto
}.
Definition zero : t := mk [].

Definition fields : list (field t) :=
  [Repeated MsgProto_codec 1 Messages (fun v '(mk _) => mk v)].

Definition Marshal (m : t) : list byte := Proto.Marshal fields m.
Definition Size (m : t) : Z := Proto.message_size fields m.
Definition Unmarshal (m : t) (dAtA : list byte) : outcome proto_error t := Proto.Unmarshal fields m dAtA.
Definition codec : codec t := mkCodec t zero Marshal Size Unmarshal (fun m => Forall (fun f => field_typed f m) fields).
End WithStan.
End Batch.

(** A replicated subscription request. *)
Module AddSubscription.
Section WithStan.
Context `{StanProto}.

Record t := mk {
  Request : option pb_SubscriptionRequest;
  AckInbox : string;
  ID : Z
}.
Definition zero : t := mk None EmptyString 0.

Definition fields : list (field t) :=
  [Embedded SubscriptionRequest_codec 1 Request (fun v '(mk _ b c) => mk v b c);
   Str 2 AckInbox (fun v '(mk a _ c) => mk a v c);
   Uint64 3 ID (fun v '(mk a b _) => mk a b v)].

Definition Marshal (m : t) : list byte := Proto.Marshal fields m.
Definition Size (m : t) : Z := Proto.message_size fields m.
Definition Unmarshal (m : t) (dAtA : list byte) : outcome proto_error t := Proto.Unmarshal fields m dAtA.
Definition codec : codec t := mkCodec t zero Marshal Size Unmarshal (fun m => Forall (fun f => field_typed f m) fields).
End WithStan.
End AddSubscription.

(** A replicated connect request. *)
Module AddClient.
Section WithStan.
Context `{StanProto}.

Record t := mk {
  Request : option pb_ConnectRequest;
  Refresh : bool
}.
Definition zero : t := mk None false.

Definition fields : list (field t) :=
  [Embedded ConnectRequest_codec 1 Request (fun v '(mk _ b) => mk v b);
   Boolean 2 Refresh (fun v '(mk a _) => mk a v)].

Definition Marshal (m : t) : list byte := Proto.Marshal fields m.
Definition Size (m : t) : Z := Proto.message_size fields m.
Definition Unmarshal (m : t) (dAtA : list byte) : outcome proto_error t := Proto.Unmarshal fields m dAtA.
Definition codec : codec t := mkCodec t zero Marshal Size Unmarshal (fun m => Forall (fun f => field_typed f m) fields).
End WithStan.
End AddClient.

(** An entry of the replicated log. *)
Module RaftOperation.
Section WithStan.
Context `{StanProto}.

Record t := mk {
  OpType : Z;
  PublishBatch : option Batch.t;
  Sub : option AddSubscription.t;
  Unsub : option pb_UnsubscribeRequest;
  SubSentAck : option SubSentAndAck.t;
  ClientConnect : option AddClient.t;
  ClientDisconnect : option pb_CloseRequest;
  Channel : string;
  ChannelID : Z
}.
Definition zero : t := mk 0 None None None None None None EmptyString 0.

Definition fields : list (field t) :=
  [Int32 1 OpType (fun v '(mk _ b c d e f g h i) => mk v b c d e f g h i);
   Embedded Batch.codec 2 PublishBatch (fun v '(mk a _ c d e f g h i) => mk a v c d e f g h i);
   Embedded AddSubscription.codec 3 Sub (fun v '(mk a b _ d e f g h i) => mk a b v d e f g h i);
   Embedded UnsubscribeRequest_codec 4 Unsub (fun v '(mk a b c _ e f g h i) => mk a b c v e f g h i);
   Embedded SubSentAndAck.codec 5 SubSentAck (fun v '(mk a b c d _ f g h i) => mk a b c d v f g h i);
   Embedded AddClient.codec 7 ClientConnect (fun v '(mk a b c d e _ g h i) => mk a b c d e v g h i);
   Embedded CloseRequest_codec 8 ClientDisconnect (fun v '(mk a b c d e f _ h i) => mk a b c d e f v h i);
   Str 9 Channel (fun v '(mk a b c d e f g _ i) => mk a b c d e f g v i);
   Uint64 10 ChannelID (fun v '(mk a b c d e f g h _) => mk a b c d e f g h v)].

Definition Marshal (m : t) : list byte := Proto.Marshal fields m.
Definition Size (m : t) : Z := Proto.message_size fields m.
Definition Unmarshal (m : t) (dAtA : list byte) : outcome proto_error t := Proto.Unmarshal fields m dAtA.
Definition codec : codec t := mkCodec t zero Marshal Size Unmarshal (fun m => Forall (fun f => field_typed f m) fields).
End WithStan.
End RaftOperation.

(** ** They round trip *)

Module SpbSpec.
Import ProtoSpec.

(** The generated code of stan.go follows the same scheme. *)
Class StanProtoSpec `{StanProto} := {
  #[global] MsgProto_lawful :: Lawful MsgProto_codec;
  #[global] SubscriptionRequest_lawful :: Lawful SubscriptionRequest_codec;
  #[global] UnsubscribeRequest_lawful :: Lawful UnsubscribeRequest_codec;
  #[global] ConnectRequest_lawful :: Lawful ConnectRequest_codec;
  #[global] CloseRequest_lawful :: Lawful CloseRequest_codec
}.

Ltac message :=
  apply message_codec_lawful; split;
  [ repeat (apply Forall_cons_2; [first [exact I | cbn [field_lawful]; apply _]|]); apply Forall_nil_2
  | repeat (apply Forall_cons_2; [split; [simpl; lia|reflexivity]|]); apply Forall_nil_2
  | intros []; cbn; repeat split ].

#[export] Instance SubState_lawful : Lawful SubState.codec.
Proof. message. Qed.

#[export] Instance SubStateDelete_lawful : Lawful SubStateDelete.codec.
Proof. message. Qed.

#[export] Instance SubStateUpdate_lawful : Lawful SubStateUpdate.codec.
Proof. message. Qed.

#[export] Instance ServerInfo_lawful : Lawful ServerInfo.codec.
Proof. message. Qed.

#[export] Instance ClientInfo_lawful : Lawful ClientInfo.codec.
Proof. message. Qed.

#[export] Instance ClientDelete_lawful : Lawful ClientDelete.codec.
Proof. message. Qed.

#[export] Instance CtrlMsg_lawful : Lawful CtrlMsg.codec.
Proof. message. Qed.

#[export] Instance RaftJoinRequest_lawful : Lawful RaftJoinRequest.codec.
Proof. message. Qed.

#[export] Instance RaftJoinResponse_lawful : Lawful RaftJoinResponse.codec.
Proof. message. Qed.

#[export] Instance SubSentAndAck_lawful : Lawful SubSentAndAck.codec.
Proof. message. Qed.

#[export] Instance SubscriptionSnapshot_lawful : Lawful SubscriptionSnapshot.codec.
Proof. message. Qed.

#[export] Instance ChannelSnapshot_lawful : Lawful ChannelSnapshot.codec.
Proof. message. Qed.

#[export] Instance RaftSnapshot_lawful : Lawful RaftSnapshot.codec.
Proof. message. Qed.

Section WithStan.
Context `{StanProtoSpec}.

#[export] Instance Batch_lawful : Lawful Batch.codec.
Proof. message. Qed.

#[export] Instance AddSubscription_lawful : Lawful AddSubscription.codec.
Proof. message. Qed.

#[export] Instance AddClient_lawful : Lawful AddClient.codec.
Proof. message. Qed.

#[export] Instance RaftOperation_lawful : Lawful RaftOperation.codec.
Proof. message. Qed.


(** [C23] An entry of the replicated log, with the messages, requests and acknowledgements
    embedded in it, is unmarshalled from the bytes it was marshalled to, and [Size] is the
    number of these bytes. *)
Theorem operation_roundtrip (op : RaftOperation.t) :
  c_typed RaftOperation.codec op -> RaftOperation.Size op < two63 ->
  RaftOperation.Unmarshal RaftOperation.zero (RaftOperation.Marshal op) = Ok op /\
  RaftOperation.Size op = Z.of_nat (length (RaftOperation.Marshal op)).
Proof. apply (lawful_ok (c := RaftOperation.codec)). Qed.

(** [C24] Unmarshalling an entry of the replicated log from any bytes returns a message or
    an error: the loops over fields, packed integers and skipped groups end. *)
Theorem operation_unmarshal_returns (op : RaftOperation.t) (dAtA : list byte) :
  Z.of_nat (length dAtA) < two63 -> returns (RaftOperation.Unmarshal op dAtA).
Proof. apply (lawful_returns (c := RaftOperation.codec)). Qed.
End WithStan.

(** A snapshot of the server, with its clients, channels and subscriptions, is
    unmarshalled from the bytes it was marshalled to. *)
Theorem snapshot_roundtrip (snap : RaftSnapshot.t) :
  c_typed RaftSnapshot.codec snap -> RaftSnapshot.Size snap < two63 ->
  RaftSnapshot.Unmarshal RaftSnapshot.zero (RaftSnapshot.Marshal snap) = Ok snap /\
  RaftSnapshot.Size snap = Z.of_nat (length (RaftSnapshot.Marshal snap)).
Proof. apply (lawful_ok (c := RaftSnapshot.codec)). Qed.
End SpbSpec.

(** ** Sample messages *)

Module SpbSample.
Import ProtoSpec SpbSpec.

(** Messages of stan.go as the bytes they are marshalled to. *)
Definition raw_codec : codec (list byte) :=
  mkCodec (list byte) [] (fun d => d) (fun d => Z.of_nat (length d)) (fun _ d => Ok d) (fun _ => True).

Instance raw_lawful : Lawful raw_codec.
Proof. split; [intros; cbn; lia|by split|done]. Qed.

Instance stan : StanProto := {|
  MsgProto_codec := raw_codec; SubscriptionRequest_codec := raw_codec;
  UnsubscribeRequest_codec := raw_codec; ConnectRequest_codec := raw_codec; CloseRequest_codec := raw_codec
|}.

Instance stan_spec : @StanProtoSpec stan.
Proof. split; exact raw_lawful. Qed.

Definition op : RaftOperation.t :=
  RaftOperation.mk 4 (Some (Batch.mk [[byte_of 7; byte_of 0]; []])) None None
    (Some (SubSentAndAck.mk "foo" "_INBOX.1" [1; 300; 18446744073709551615] [])) None (Some [])
    "foo" 129.

Lemma op_typed : c_typed RaftOperation.codec op.
Proof. repeat constructor; by vm_compute. Qed.

Lemma operation_roundtrip_witness :
  RaftOperation.Unmarshal RaftOperation.zero (RaftOperation.Marshal op) = Ok op /\
  RaftOperation.Size op = Z.of_nat (length (RaftOperation.Marshal op)).
Proof. apply (@operation_roundtrip stan stan_spec op op_typed). by vm_compute. Defined.

Lemma operation_unmarshal_returns_witness :
  returns (RaftOperation.Unmarshal RaftOperation.zero (map byte_of [8; 128; 99; 4])).
Proof. apply (@operation_unmarshal_returns stan stan_spec). by vm_compute. Defined.

Definition snap : RaftSnapshot.t :=
  RaftSnapshot.mk [ClientInfo.mk "me" "_INBOX.hb" [byte_of 1] 1 (-5) 3]
    [ChannelSnapshot.mk "foo" 1 9
       [SubscriptionSnapshot.mk (Some (SubState.mk 1 "me" "" "_INBOX.2" "" 1024 30 "dur" 7 true false)) [6; 7]] 2 1]
    [].

Lemma snap_typed : c_typed RaftSnapshot.codec snap.
Proof. repeat constructor; by vm_compute. Qed.

Lemma snapshot_roundtrip_witness :
  RaftSnapshot.Unmarshal RaftSnapshot.zero (RaftSnapshot.Marshal snap) = Ok snap /\
  RaftSnapshot.Size snap = Z.of_nat (length (RaftSnapshot.Marshal snap)).
Proof. apply (snapshot_roundtrip snap snap_typed). by vm_compute. Defined.
End SpbSample.
