(* ===== verification/Crc.v ===== *)
(** * CRC-32 checksums

    The checksums of the records of the file store: Go's [hash/crc32], of which the
    source uses [MakeTable] and [Checksum] (src/stores/filestore.go).  The table driven
    computation is shown equal to the division of the bits by the polynomial, from which
    follows which corruptions a checksum detects. *)

From Stdlib Require Import ZArith Lia Ascii.
From stdpp Require Import base list.
From S2P Require Import Prelude Bytes.

Local Open Scope Z_scope.

Module Crc.
(** One bit of the division by the (reversed) polynomial. *)
Definition shift1 (poly crc : Z) : Z :=
  if Z.odd crc then Z.lxor (Z.shiftr crc 1) poly else Z.shiftr crc 1.

(** [simpleMakeTable]: the entry of a byte. *)
Definition table_entry (poly b : Z) : Z := Nat.iter 8 (shift1 poly) b.

Definition MakeTable (poly : Z) : list Z := table_entry poly ∘ Z.of_nat <$> seq 0 256.

(** [simpleUpdate], without its first and last complements. *)
Definition update (tab : list Z) (crc : Z) (v : byte) : Z :=
  Z.lxor (nth (Z.to_nat (Z.lxor (crc mod 256) (byte_val v))) tab 0) (Z.shiftr crc 8).

Definition complement (crc : Z) : Z := Z.lxor crc (two32 - 1).

Definition Checksum (data : list byte) (tab : list Z) : Z :=
  complement (foldl (update tab) (complement 0) data).
End Crc.

Module CrcSpec.
Import Crc.

(** The reference: each bit of the data in turn. *)
Definition bit_update (poly crc : Z) (v : byte) : Z := Nat.iter 8 (shift1 poly) (Z.lxor crc (byte_val v)).

Definition is_word (z : Z) : Prop := 0 <= z < two32.

Lemma shift1_alt poly crc :
  shift1 poly crc = Z.lxor (Z.shiftr crc 1) (if Z.odd crc then poly else 0).
Proof. unfold shift1. destruct (Z.odd crc); [done|by rewrite Z.lxor_0_r]. Qed.

Lemma lxor_swap a b c d : Z.lxor (Z.lxor a b) (Z.lxor c d) = Z.lxor (Z.lxor a c) (Z.lxor b d).
Proof. rewrite !Z.lxor_assoc. f_equal. rewrite <- !Z.lxor_assoc. f_equal. apply Z.lxor_comm. Qed.

Lemma odd_lxor a b : Z.odd (Z.lxor a b) = xorb (Z.odd a) (Z.odd b).
Proof. by rewrite <- !Z.bit0_odd, Z.lxor_spec. Qed.

Lemma shift1_lxor poly a b : shift1 poly (Z.lxor a b) = Z.lxor (shift1 poly a) (shift1 poly b).
Proof.
  rewrite !shift1_alt, Z.shiftr_lxor, odd_lxor, lxor_swap. f_equal.
  destruct (Z.odd a), (Z.odd b); simpl; by rewrite ?Z.lxor_nilpotent, ?Z.lxor_0_r, ?Z.lxor_0_l.
Qed.

Lemma iter_shift1_lxor poly n a b :
  Nat.iter n (shift1 poly) (Z.lxor a b) = Z.lxor (Nat.iter n (shift1 poly) a) (Nat.iter n (shift1 poly) b).
Proof. induction n as [|n IH]; [done|]. cbn [Nat.iter nat_rect]. unfold Nat.iter in IH. by rewrite IH, shift1_lxor. Qed.

(** Without low bits there is nothing to divide. *)
Lemma iter_shift1_high poly n z :
  Nat.iter n (shift1 poly) (Z.shiftl z (Z.of_nat n)) = z.
Proof.
  revert z. induction n as [|n IH]; intros z; [apply Z.shiftl_0_r|].
  rewrite Nat.iter_succ_r, shift1_alt.
  replace (Z.odd (Z.shiftl z (Z.of_nat (S n)))) with false.
  - rewrite Z.lxor_0_r, Z.shiftr_shiftl_l by lia.
    replace (Z.of_nat (S n) - 1) with (Z.of_nat n) by lia. apply IH.
  - symmetry. rewrite <- Z.bit0_odd, Z.shiftl_spec by lia. apply Z.testbit_neg_r. lia.
Qed.

Lemma split_low z n : 0 <= n -> z = Z.lxor (z mod 2 ^ n) (Z.shiftl (Z.shiftr z n) n).
Proof.
  intros Hn. apply Z.bits_inj'. intros i Hi.
  rewrite Z.lxor_spec, <- Z.land_ones, Z.land_spec, Z.shiftl_spec by done.
  destruct (Z.ltb_spec i n).
  - rewrite Z.ones_spec_low, andb_true_r, (Z.testbit_neg_r _ (i - n)), xorb_false_r by lia. done.
  - rewrite Z.ones_spec_high, andb_false_r, Z.shiftr_spec by lia. cbn [xorb]. f_equal. lia.
Qed.

Lemma mod256_lxor a v : Z.lxor a (byte_val v) = Z.lxor (Z.lxor (a mod 256) (byte_val v)) (Z.shiftl (Z.shiftr a 8) 8).
Proof.
  rewrite (split_low a 8) at 1 by lia. change (2 ^ 8) with 256.
  rewrite !Z.lxor_assoc. f_equal. apply Z.lxor_comm.
Qed.

Lemma lxor_byte_range a v : 0 <= Z.lxor (a mod 256) (byte_val v) < 256.
Proof.
  pose proof (byte_val_range v). pose proof (Z.mod_pos_bound a 256 ltac:(lia)).
  assert (0 <= Z.lxor (a mod 256) (byte_val v)) by (apply Z.lxor_nonneg; lia).
  split; [done|]. destruct (Z.eq_dec (Z.lxor (a mod 256) (byte_val v)) 0) as [->|]; [done|].
  change 256 with (2 ^ 8) at 2. apply Z.log2_lt_pow2; [lia|].
  eapply Z.le_lt_trans; [apply Z.log2_lxor; lia|].
  assert (forall x, 0 <= x < 256 -> Z.log2 x < 8) as Hlog.
  { intros x Hx. destruct (Z.eq_dec x 0) as [->|]; [done|]. apply Z.log2_lt_pow2; lia. }
  apply Z.max_lub_lt; apply Hlog; lia.
Qed.

Lemma MakeTable_lookup poly b : 0 <= b < 256 -> nth (Z.to_nat b) (MakeTable poly) 0 = table_entry poly b.
Proof.
  intros Hb. unfold MakeTable.
  rewrite (nth_indep _ 0 ((table_entry poly ∘ Z.of_nat) 0%nat)) by (rewrite length_fmap, length_seq; lia).
  rewrite (map_nth (table_entry poly ∘ Z.of_nat)), seq_nth by lia. simpl. by rewrite Z2Nat.id by lia.
Qed.

(** The table computes eight steps of the division at once. *)
Lemma update_bits poly crc v : update (MakeTable poly) crc v = bit_update poly crc v.
Proof.
  unfold update, bit_update. rewrite MakeTable_lookup by apply lxor_byte_range.
  rewrite (mod256_lxor crc v), iter_shift1_lxor. unfold table_entry. f_equal.
  symmetry. apply (iter_shift1_high poly 8).
Qed.

Lemma iter_add {A : Type} (f : A -> A) n m x : Nat.iter (n + m) f x = Nat.iter n f (Nat.iter m f x).
Proof. induction n as [|n IH]; [done|]. simpl. by rewrite IH. Qed.

Lemma get_le_cons v w : get_le (v :: w) = Z.lxor (byte_val v) (Z.shiftl (get_le w) 8).
Proof.
  rewrite (split_low (get_le (v :: w)) 8) by lia. cbn [get_le].
  pose proof (byte_val_range v). rewrite Z.shiftr_div_pow2 by lia. change (2 ^ 8) with 256.
  rewrite Z.mul_comm, Z.mod_add, Z.div_add, Z.mod_small, Z.div_small by lia. by rewrite Z.add_0_l.
Qed.

(** A whole word of data is divided like one integer. *)
Lemma bit_updates poly crc w :
  foldl (bit_update poly) crc w = Nat.iter (8 * length w) (shift1 poly) (Z.lxor crc (get_le w)).
Proof.
  revert crc. induction w as [|v w IH]; intros crc; [simpl; by rewrite Z.lxor_0_r|].
  cbn [foldl]. rewrite IH, get_le_cons, <- Z.lxor_assoc.
  replace (8 * length (v :: w))%nat with (8 * length w + 8)%nat by (simpl; lia).
  rewrite iter_add. f_equal. unfold bit_update. symmetry.
  rewrite (iter_shift1_lxor poly 8 (Z.lxor crc (byte_val v))). f_equal.
  apply (iter_shift1_high poly 8).
Qed.

Lemma word_bits z : is_word z <-> 0 <= z /\ forall i, 32 <= i -> Z.testbit z i = false.
Proof.
  unfold is_word. change two32 with (2 ^ 32). split.
  - intros [Hz Hz']. split; [done|]. intros i Hi. apply Z.bits_above_log2; [done|].
    destruct (Z.eq_dec z 0) as [->|]; [simpl; lia|]. apply Z.lt_le_trans with 32; [|done].
    apply Z.log2_lt_pow2; lia.
  - intros [Hz Hb]. split; [done|]. destruct (Z.eq_dec z 0) as [->|]; [done|].
    apply Z.log2_lt_pow2; [lia|]. apply Z.nle_gt. intros Hl.
    pose proof (Z.bit_log2 z ltac:(lia)) as H. by rewrite Hb in H.
Qed.

Lemma word_lxor a b : is_word a -> is_word b -> is_word (Z.lxor a b).
Proof.
  rewrite !word_bits. intros [Ha Ha'] [Hb Hb']. split; [by apply Z.lxor_nonneg; lia|].
  intros i Hi. by rewrite Z.lxor_spec, Ha', Hb'.
Qed.

Section Detects.
Context (poly : Z) (Hpoly : is_word poly) (Htop : Z.testbit poly 31 = true).

Lemma shift1_word z : is_word z -> is_word (shift1 poly z).
Proof.
  intros Hz. rewrite shift1_alt. apply word_lxor; [|by destruct (Z.odd z)].
  unfold is_word in *. rewrite Z.shiftr_div_pow2 by lia. change (2 ^ 1) with 2.
  split; [apply Z.div_pos; lia|]. apply Z.div_lt_upper_bound; lia.
Qed.

(** The bit that is shifted out can be read from the result. *)
Lemma shift1_top z : is_word z -> Z.testbit (shift1 poly z) 31 = Z.odd z.
Proof.
  intros Hz. rewrite shift1_alt, Z.lxor_spec, Z.shiftr_spec by lia. change (31 + 1) with 32.
  apply word_bits in Hz as [_ ->]; [|done]. destruct (Z.odd z); [exact Htop|reflexivity].
Qed.

Lemma shift1_inj a b : is_word a -> is_word b -> shift1 poly a = shift1 poly b -> a = b.
Proof.
  intros Ha Hb E. pose proof (shift1_top a Ha) as Ho. rewrite E, shift1_top in Ho by done.
  rewrite !shift1_alt, Ho in E. apply (f_equal (fun x => Z.lxor x (if Z.odd a then poly else 0))) in E.
  rewrite !Z.lxor_assoc, Z.lxor_nilpotent, !Z.lxor_0_r, !Z.shiftr_div_pow2 in E by lia. change (2 ^ 1) with 2 in E.
  rewrite (Z.div_mod a 2), (Z.div_mod b 2), E by lia. f_equal. by rewrite !Zmod_odd, Ho.
Qed.

Lemma iter_shift1_word n z : is_word z -> is_word (Nat.iter n (shift1 poly) z).
Proof. intros Hz. induction n as [|n IH]; [done|]. simpl. by apply shift1_word. Qed.

Lemma iter_shift1_inj n a b :
  is_word a -> is_word b -> Nat.iter n (shift1 poly) a = Nat.iter n (shift1 poly) b -> a = b.
Proof.
  intros Ha Hb. induction n as [|n IH]; [done|]. simpl. intros E%shift1_inj; [auto|by apply iter_shift1_word..].
Qed.

Lemma short_word w : (length w <= 4)%nat -> is_word (get_le w).
Proof.
  intros Hw. pose proof (get_le_range w) as [H1 H2]. split; [done|]. eapply Z.lt_le_trans; [exact H2|].
  change two32 with (256 ^ Z.of_nat 4). apply Z.pow_le_mono_r; lia.
Qed.

Lemma updates_word crc w : is_word crc -> is_word (foldl (bit_update poly) crc w).
Proof.
  revert crc. induction w as [|v w IH]; intros crc Hc; [done|]. apply IH. apply iter_shift1_word, word_lxor; [done|].
  unfold is_word, two32. pose proof (byte_val_range v). lia.
Qed.

Lemma byte_word v : is_word (byte_val v).
Proof. unfold is_word, two32. pose proof (byte_val_range v). lia. Qed.

(** Different values of the register stay different. *)
Lemma updates_inj a b w :
  is_word a -> is_word b -> foldl (bit_update poly) a w = foldl (bit_update poly) b w -> a = b.
Proof.
  revert a b. induction w as [|v w IH]; intros a b Ha Hb; [done|]. cbn [foldl].
  intros E%IH; [|by apply (updates_word _ [v])..].
  apply iter_shift1_inj in E; [|apply word_lxor; auto using byte_word..].
  apply (f_equal (fun x => Z.lxor x (byte_val v))) in E.
  by rewrite !Z.lxor_assoc, Z.lxor_nilpotent, !Z.lxor_0_r in E.
Qed.

(** The register after up to four bytes determines them. *)
Lemma burst_inj crc w w' :
  is_word crc -> length w = length w' -> (length w <= 4)%nat ->
  foldl (bit_update poly) crc w = foldl (bit_update poly) crc w' -> w = w'.
Proof.
  intros Hc Hlen Hw. rewrite !bit_updates, <- Hlen. intros E%iter_shift1_inj.
  - apply (f_equal (fun x => Z.lxor crc x)) in E.
    rewrite <- !Z.lxor_assoc, Z.lxor_nilpotent, !Z.lxor_0_l in E.
    rewrite <- (put_get_le w), <- (put_get_le w'). by rewrite Hlen, E.
  - apply word_lxor, short_word; [done|lia].
  - apply word_lxor, short_word; [done|lia].
Qed.

Lemma complement_inj a b : complement a = complement b -> a = b.
Proof.
  unfold complement. intros E. apply (f_equal (fun x => Z.lxor x (two32 - 1))) in E.
  by rewrite !Z.lxor_assoc, Z.lxor_nilpotent, !Z.lxor_0_r in E.
Qed.

Lemma foldl_update_bits crc w : foldl (update (MakeTable poly)) crc w = foldl (bit_update poly) crc w.
Proof. revert crc. induction w as [|v w IH]; intros crc; [done|]. cbn [foldl]. by rewrite update_bits, IH. Qed.

Lemma Checksum_word data : is_word (Checksum data (MakeTable poly)).
Proof.
  unfold Checksum, complement. apply word_lxor; [|done]. rewrite foldl_update_bits.
  by apply updates_word.
Qed.

(** Changing up to four consecutive bytes changes the checksum. *)
Lemma Checksum_burst a w w' b :
  length w = length w' -> (length w <= 4)%nat ->
  Checksum (a ++ w ++ b) (MakeTable poly) = Checksum (a ++ w' ++ b) (MakeTable poly) -> w = w'.
Proof.
  intros Hlen Hw. unfold Checksum. intros E%complement_inj.
  rewrite !foldl_update_bits, !foldl_app in E.
  assert (is_word (foldl (bit_update poly) (complement 0) a)) as Ha by by apply updates_word.
  apply updates_inj in E; [|by apply updates_word..]. by eapply burst_inj.
Qed.
End Detects.

(** The check value of the IEEE polynomial. *)
Example ieee_check :
  Checksum (map byte_of [49; 50; 51; 52; 53; 54; 55; 56; 57]) (MakeTable 3988292384) = 3421780262.
Proof. vm_compute. reflexivity. Qed.
End CrcSpec.
