(* ===== verification/Records.v ===== *)
(** * Records of the file store

    The layout of the files of src/stores/filestore.go: a version, then records, each
    with a header (type and size, checksum) and a payload.  A file is its list of bytes;
    a buffered writer is Go's [bufio.Writer] in front of it.  Calls to the operating
    system succeed, but a write that a crash interrupts leaves any prefix of its bytes. *)

From Stdlib Require Import ZArith Lia Ascii String.
From stdpp Require Import base list strings.
From S2P Require Import Prelude Bytes Util Crc Proto.

Local Open Scope Z_scope.

(** ** Options *)

Module FileOptions.
Record FileStoreOptions := mkOptions {
  BufferSize : Z;
  CompactEnabled : bool;
  CompactInterval : Z;
  CompactFragmentation : Z;
  CompactMinFileSize : Z;
  DoCRC : bool;
  CRCPolynomial : Z;
  DoSync : bool;
  SliceMaxMsgs : Z;
  SliceMaxBytes : Z;
  SliceMaxAge : Z;
  SliceArchiveScript : string;
  FileDescriptorsLimit : Z;
  ParallelRecovery : Z;
  TruncateUnexpectedEOF : bool;
  ReadBufferSize : Z;
  AutoSync : Z
}.

Definition IEEE : Z := 3988292384.

Definition DefaultFileStoreOptions : FileStoreOptions :=
  mkOptions (2 * 1024 * 1024) true (5 * 60) 50 (1024 * 1024) true IEEE true 0 (64 * 1024 * 1024) 0 ""
    0 1 false (2 * 1024 * 1024) 60000000000.

Inductive option_error :=
| BadBufferSize | BadReadBufferSize | BadCompactInterval | BadCompactFragmentation
| BadCompactMinFileSize | BadCRCPolynomial | BadSliceConfig | BadFileDescriptorsLimit | BadParallelRecovery.

(** A [FileStoreOption] changes the options, or returns an error. *)
Definition FileStoreOption : Type := FileStoreOptions -> FileStoreOptions * option option_error.

Definition WithBufferSize (size : Z) : FileStoreOption := fun o =>
  if size <? 0 then (o, Some BadBufferSize)
  else (mkOptions size (CompactEnabled o) (CompactInterval o) (CompactFragmentation o) (CompactMinFileSize o)
          (DoCRC o) (CRCPolynomial o) (DoSync o) (SliceMaxMsgs o) (SliceMaxBytes o) (SliceMaxAge o)
          (SliceArchiveScript o) (FileDescriptorsLimit o) (ParallelRecovery o) (TruncateUnexpectedEOF o)
          (ReadBufferSize o) (AutoSync o), None).

Definition WithReadBufferSize (size : Z) : FileStoreOption := fun o =>
  if size <? 0 then (o, Some BadReadBufferSize)
  else (mkOptions (BufferSize o) (CompactEnabled o) (CompactInterval o) (CompactFragmentation o)
          (CompactMinFileSize o) (DoCRC o) (CRCPolynomial o) (DoSync o) (SliceMaxMsgs o) (SliceMaxBytes o)
          (SliceMaxAge o) (SliceArchiveScript o) (FileDescriptorsLimit o) (ParallelRecovery o)
          (TruncateUnexpectedEOF o) size (AutoSync o), None).

Definition WithCompactInterval (seconds : Z) : FileStoreOption := fun o =>
  if seconds <=? 0 then (o, Some BadCompactInterval)
  else (mkOptions (BufferSize o) (CompactEnabled o) seconds (CompactFragmentation o) (CompactMinFileSize o)
          (DoCRC o) (CRCPolynomial o) (DoSync o) (SliceMaxMsgs o) (SliceMaxBytes o) (SliceMaxAge o)
          (SliceArchiveScript o) (FileDescriptorsLimit o) (ParallelRecovery o) (TruncateUnexpectedEOF o)
          (ReadBufferSize o) (AutoSync o), None).

Definition WithCompactFragmentation (fragmentation : Z) : FileStoreOption := fun o =>
  if fragmentation <=? 0 then (o, Some BadCompactFragmentation)
  else (mkOptions (BufferSize o) (CompactEnabled o) (CompactInterval o) fragmentation (CompactMinFileSize o)
          (DoCRC o) (CRCPolynomial o) (DoSync o) (SliceMaxMsgs o) (SliceMaxBytes o) (SliceMaxAge o)
          (SliceArchiveScript o) (FileDescriptorsLimit o) (ParallelRecovery o) (TruncateUnexpectedEOF o)
          (ReadBufferSize o) (AutoSync o), None).

Definition WithCompactMinFileSize (fileSize : Z) : FileStoreOption := fun o =>
  if fileSize <? 0 then (o, Some BadCompactMinFileSize)
  else (mkOptions (BufferSize o) (CompactEnabled o) (CompactInterval o) (CompactFragmentation o) fileSize
          (DoCRC o) (CRCPolynomial o) (DoSync o) (SliceMaxMsgs o) (SliceMaxBytes o) (SliceMaxAge o)
          (SliceArchiveScript o) (FileDescriptorsLimit o) (ParallelRecovery o) (TruncateUnexpectedEOF o)
          (ReadBufferSize o) (AutoSync o), None).

Definition WithCRCPolynomial (polynomial : Z) : FileStoreOption := fun o =>
  if (polynomial <=? 0) || (4294967295 <? polynomial) then (o, Some BadCRCPolynomial)
  else (mkOptions (BufferSize o) (CompactEnabled o) (CompactInterval o) (CompactFragmentation o)
          (CompactMinFileSize o) (DoCRC o) polynomial (DoSync o) (SliceMaxMsgs o) (SliceMaxBytes o)
          (SliceMaxAge o) (SliceArchiveScript o) (FileDescriptorsLimit o) (ParallelRecovery o)
          (TruncateUnexpectedEOF o) (ReadBufferSize o) (AutoSync o), None).

Definition SliceConfig (maxMsgs maxBytes maxAge : Z) (script : string) : FileStoreOption := fun o =>
  if (maxMsgs <? 0) || (maxBytes <? 0) || (maxAge <? 0) then (o, Some BadSliceConfig)
  else (mkOptions (BufferSize o) (CompactEnabled o) (CompactInterval o) (CompactFragmentation o)
          (CompactMinFileSize o) (DoCRC o) (CRCPolynomial o) (DoSync o) maxMsgs maxBytes maxAge script
          (FileDescriptorsLimit o) (ParallelRecovery o) (TruncateUnexpectedEOF o)
          (ReadBufferSize o) (AutoSync o), None).

Definition WithFileDescriptorsLimit (limit : Z) : FileStoreOption := fun o =>
  if limit <? 0 then (o, Some BadFileDescriptorsLimit)
  else (mkOptions (BufferSize o) (CompactEnabled o) (CompactInterval o) (CompactFragmentation o)
          (CompactMinFileSize o) (DoCRC o) (CRCPolynomial o) (DoSync o) (SliceMaxMsgs o) (SliceMaxBytes o)
          (SliceMaxAge o) (SliceArchiveScript o) limit (ParallelRecovery o) (TruncateUnexpectedEOF o)
          (ReadBufferSize o) (AutoSync o), None).

Definition WithParallelRecovery (count : Z) : FileStoreOption := fun o =>
  if count <=? 0 then (o, Some BadParallelRecovery)
  else (mkOptions (BufferSize o) (CompactEnabled o) (CompactInterval o) (CompactFragmentation o)
          (CompactMinFileSize o) (DoCRC o) (CRCPolynomial o) (DoSync o) (SliceMaxMsgs o) (SliceMaxBytes o)
          (SliceMaxAge o) (SliceArchiveScript o) (FileDescriptorsLimit o) count (TruncateUnexpectedEOF o)
          (ReadBufferSize o) (AutoSync o), None).

Definition WithAutoSync (dur : Z) : FileStoreOption := fun o =>
  (mkOptions (BufferSize o) (CompactEnabled o) (CompactInterval o) (CompactFragmentation o)
     (CompactMinFileSize o) (DoCRC o) (CRCPolynomial o) (DoSync o) (SliceMaxMsgs o) (SliceMaxBytes o)
     (SliceMaxAge o) (SliceArchiveScript o) (FileDescriptorsLimit o) (ParallelRecovery o)
     (TruncateUnexpectedEOF o) (ReadBufferSize o) dur, None).

(** The flags that [AllOptions] copies without a check. *)
Definition set_flags (opts o : FileStoreOptions) : FileStoreOptions :=
  mkOptions (BufferSize o) (CompactEnabled opts) (CompactInterval o) (CompactFragmentation o)
     (CompactMinFileSize o) (DoCRC opts) (CRCPolynomial o) (DoSync opts) (SliceMaxMsgs o) (SliceMaxBytes o)
     (SliceMaxAge o) (SliceArchiveScript o) (FileDescriptorsLimit o) (ParallelRecovery o)
     (TruncateUnexpectedEOF opts) (ReadBufferSize o) (AutoSync o).

(** Options one after the other, up to the first error. *)
Fixpoint apply_all (l : list FileStoreOption) (o : FileStoreOptions) : FileStoreOptions * option option_error :=
  match l with
  | [] => (o, None)
  | opt :: l' => match opt o with (o', None) => apply_all l' o' | (o', Some e) => (o', Some e) end
  end.

Definition AllOptions (opts : FileStoreOptions) : FileStoreOption := fun o =>
  match apply_all
    [WithBufferSize (BufferSize opts); WithCompactInterval (CompactInterval opts);
     WithCompactFragmentation (CompactFragmentation opts); WithCompactMinFileSize (CompactMinFileSize opts);
     WithCRCPolynomial (CRCPolynomial opts);
     SliceConfig (SliceMaxMsgs opts) (SliceMaxBytes opts) (SliceMaxAge opts) (SliceArchiveScript opts);
     WithFileDescriptorsLimit (FileDescriptorsLimit opts); WithParallelRecovery (ParallelRecovery opts);
     WithReadBufferSize (ReadBufferSize opts); WithAutoSync (AutoSync opts)] o with
  | (o', None) => (set_flags opts o', None)
  | (o', Some e) => (o', Some e)
  end.

(** What the options check. *)
Record valid (o : FileStoreOptions) : Prop := {
  valid_buffer : 0 <= BufferSize o;
  valid_interval : 1 <= CompactInterval o;
  valid_fragmentation : 1 <= CompactFragmentation o;
  valid_min_size : 0 <= CompactMinFileSize o;
  valid_polynomial : 1 <= CRCPolynomial o <= 4294967295;
  valid_slice_msgs : 0 <= SliceMaxMsgs o;
  valid_slice_bytes : 0 <= SliceMaxBytes o;
  valid_slice_age : 0 <= SliceMaxAge o;
  valid_fds : 0 <= FileDescriptorsLimit o;
  valid_parallel : 1 <= ParallelRecovery o;
  valid_read_buffer : 0 <= ReadBufferSize o
}.

Lemma default_valid : valid DefaultFileStoreOptions.
Proof. split; by vm_compute. Qed.

(** [AllOptions] succeeds on valid options only, and then the options are those given. *)
Lemma AllOptions_spec opts o :
  AllOptions opts o = (opts, None) /\ valid opts \/
  (exists o' e, AllOptions opts o = (o', Some e)) /\ ~ valid opts.
Proof.
  destruct opts as [b ce ci cf cm dc cp ds sm sb sa ss fd pr tu rb au], o.
  unfold AllOptions, WithBufferSize, WithCompactInterval, WithCompactFragmentation, WithCompactMinFileSize,
    WithCRCPolynomial, SliceConfig, WithFileDescriptorsLimit, WithParallelRecovery, WithReadBufferSize, WithAutoSync.
  cbn -[Z.ltb Z.leb orb].
  repeat (match goal with
  | |- context [if ?b then _ else _] =>
      destruct b eqn:?; cbn -[Z.ltb Z.leb orb]; [right; split; [by eauto|]; intros []; cbn in *; lia|]
  end).
  left. split; [done|]. split; cbn; lia.
Qed.
End FileOptions.

(** ** Buffered writers *)

Module Buffer.
(** Go's [bufio.Writer]: the bytes not yet written, and the size of the buffer. *)
Record Writer := mkWriter { pending : list byte; bsize : Z }.

Definition NewWriterSize (n : Z) : Writer := mkWriter [] (if n <=? 0 then 4096 else n).
Definition Buffered (b : Writer) : Z := Z.of_nat (length (pending b)).
Definition Available (b : Writer) : Z := bsize b - Buffered b.

(** A writer to a file: the bytes of the file, and the buffer in front of it, if any. *)
Record io := mkIO { disk : list byte; buf : option Writer }.

Definition Flush (w : io) : io :=
  match buf w with
  | None => w
  | Some b => mkIO (disk w ++ pending b) (Some (mkWriter [] (bsize b)))
  end.

(** [bufio.Writer.Write]: what does not fit in the buffer goes to the file, without a
    copy when the buffer is empty. *)
Definition Write (w : io) (p : list byte) : io :=
  match buf w with
  | None => mkIO (disk w ++ p) None
  | Some b =>
      let n := Z.of_nat (length p) in
      if n <=? Available b then mkIO (disk w) (Some (mkWriter (pending b ++ p) (bsize b)))
      else if Buffered b =? 0 then mkIO (disk w ++ p) (Some b)
      else
        let k := Z.to_nat (Available b) in
        let disk' := disk w ++ pending b ++ take k p in
        let p' := drop k p in
        if Z.of_nat (length p') <=? bsize b then mkIO disk' (Some (mkWriter p' (bsize b)))
        else mkIO (disk' ++ p') (Some (mkWriter [] (bsize b)))
  end.

(** [bufferedWriter]. *)
Record bufferedWriter := mkBW {
  bufSize : Z;
  minShrinkSize : Z;
  maxSize : Z;
  shrinkReq : bool
}.

Definition bufShrinkThreshold : Z := 50.

Definition newBufferWriter (minShrinkSize maxSize : Z) : bufferedWriter :=
  mkBW (if maxSize <? minShrinkSize then maxSize else minShrinkSize) minShrinkSize maxSize false.

Definition createNewWriter (w : bufferedWriter) (disk : list byte) : io :=
  mkIO disk (Some (NewWriterSize (bufSize w))).

Definition flush_if_needed (f : io) : io :=
  match buf f with
  | Some b => if 0 <? Buffered b then Flush f else f
  | None => f
  end.

Definition expand (w : bufferedWriter) (f : io) (required : Z) : bufferedWriter * io :=
  let f := flush_if_needed f in
  let n := bufSize w * 2 in
  let n := if n <? required then required else n in
  let n := if maxSize w <? n then maxSize w else n in
  (mkBW n (minShrinkSize w) (maxSize w) false, mkIO (disk f) (Some (NewWriterSize n))).

Definition percentFilled (w : bufferedWriter) (b : Writer) : Z := Buffered b * 100 `quot` bufSize w.

Definition tryShrinkBuffer (w : bufferedWriter) (f : io) (b : Writer) : bufferedWriter * io :=
  if bufSize w =? minShrinkSize w then (w, f)
  else if negb (shrinkReq w) then
    (mkBW (bufSize w) (minShrinkSize w) (maxSize w) (percentFilled w b <=? bufShrinkThreshold), f)
  else
    let f := Flush f in
    let n := bufSize w `quot` 2 in
    let n := if n <? minShrinkSize w then minShrinkSize w else n in
    (mkBW n (minShrinkSize w) (maxSize w) (if n =? minShrinkSize w then true else shrinkReq w),
     mkIO (disk f) (Some (NewWriterSize n))).

Definition checkShrinkRequest (w : bufferedWriter) (b : Writer) : bufferedWriter :=
  mkBW (bufSize w) (minShrinkSize w) (maxSize w)
    (if bufShrinkThreshold <? percentFilled w b then false else shrinkReq w).

(** What the file holds once the buffer is flushed. *)
Definition contents (w : io) : list byte :=
  disk w ++ match buf w with Some b => pending b | None => [] end.

Lemma contents_Flush w : contents (Flush w) = contents w.
Proof. unfold contents, Flush. destruct w as [d [b|]]; simpl; [|done]. by rewrite app_nil_r. Qed.

Lemma disk_Flush w : disk (Flush w) = contents w.
Proof. unfold contents, Flush. destruct w as [d [b|]]; simpl; [done|]. by rewrite app_nil_r. Qed.

Lemma contents_Write w p : contents (Write w p) = contents w ++ p.
Proof.
  unfold contents, Write. destruct w as [d [b|]]; cbn [buf disk]; [|by rewrite !app_nil_r].
  destruct (_ <=? Available b); cbn [buf disk pending]; [by rewrite app_assoc|].
  destruct (Z.eqb_spec (Buffered b) 0) as [E|]; cbn [buf disk pending].
  - unfold Buffered in E. destruct (pending b); [|simpl in E; lia]. by rewrite !app_nil_r.
  - destruct (_ <=? bsize b); cbn [buf disk pending];
      rewrite ?app_nil_r, <- !app_assoc; by rewrite take_drop.
Qed.

Lemma disk_flush_if_needed f : disk (flush_if_needed f) = contents f.
Proof.
  unfold flush_if_needed, contents. destruct f as [d [b|]]; cbn [buf disk]; [|by rewrite app_nil_r].
  destruct (Z.ltb_spec 0 (Buffered b)) as [|H]; [done|]. cbn [disk].
  unfold Buffered in H. destruct (pending b); [by rewrite app_nil_r|simpl in H; lia].
Qed.

(** A write that fits is not split. *)
Lemma Write_whole w p b :
  buf w = Some b -> Z.of_nat (length p) <= Available b \/ Buffered b = 0 ->
  disk (Write w p) = disk w \/ disk (Write w p) = contents w ++ p.
Proof.
  intros Hb H. unfold Write, contents. rewrite Hb.
  destruct (Z.leb_spec (Z.of_nat (length p)) (Available b)); [by left|]. right.
  destruct (Z.eqb_spec (Buffered b) 0) as [E|]; [|lia]. cbn [disk].
  unfold Buffered in E. destruct (pending b); [|simpl in E; lia]. by rewrite app_nil_r.
Qed.
End Buffer.

(** ** Records *)

Module Rec.
Import Ints Crc Proto Buffer.

Definition fileVersion : Z := 1.
Definition recordHeaderSize : Z := 8.
Definition recNoType : Z := 0.

Inductive rec_error :=
| AtEOF
| AtUnexpectedEOF
| NeedRewind
| UnexpectedSize
| BadCRC
| BadVersion
| NoVersion
| BadRecord (e : proto_error)
| UnexpectedType
| WrongFileSize
| NoServerButChannels
| InvalidSeek
| InvalidFile
| WrongSequence
| InvalidName
| NoFuel.

Definition of_read (e : read_error) : rec_error :=
  match e with EOF => AtEOF | ErrUnexpectedEOF => AtUnexpectedEOF end.

Definition checkFileVersion (r : list byte) : outcome rec_error unit :=
  match ReadInt r with
  | (inr _, _) => Err NoVersion
  | (inl fv, _) => if (fv =? 0) || (fileVersion <? fv) then Err BadVersion else Ok tt
  end.

(** [openFileWithFlags]: a file that exists is checked, a new one gets a version. *)
Definition openFile (f : option (list byte)) : outcome rec_error (list byte) :=
  match f with
  | Some content => _ ← checkFileVersion content; Ok content
  | None => Ok (WriteInt [] fileVersion)
  end.

(** The bytes of a record: the header and the payload. *)
Definition record_header (recType recSize : Z) : Z :=
  if recType =? recNoType then recSize else Z.lor (Z.shiftl recType 24) recSize.

Definition encode (tab : list Z) (recType : Z) (payload : list byte) : list byte :=
  put_le 4 (u32 (record_header recType (Z.of_nat (length payload)))) ++
  put_le 4 (Checksum payload tab) ++ payload.

(** [writeRecord]: the number of bytes written. *)
Definition writeRecord {A : Type} (w : io) (recType : Z) (c : codec A) (rec : A) (tab : list Z)
  : outcome rec_error (io * Z) :=
  let recSize := c_size c rec in
  let totalSize := recordHeaderSize + recSize in
  if negb (recType =? recNoType) && (16777215 <? recSize) then Panic
  else
    let bytes := encode tab recType (c_put c rec) in
    let w := match buf w with
             | Some b => if (0 <? Buffered b) && (Available b <? totalSize) then Flush w else w
             | None => w
             end in
    Ok (Write w bytes, totalSize).

(** [readRecord]: the payload, the type and the rest of the file. *)
Definition readRecord (r : list byte) (recTyped : bool) (tab : list Z) (checkCRC : bool) (expectedSize : Z)
  : outcome rec_error (list byte * Z * list byte) :=
  match ReadFull 8 r with
  | (inr e, _) => Err (of_read e)
  | (inl header, r) =>
      let firstInt := get_le (take 4 header) in
      let recType := if recTyped then Z.land (Z.shiftr firstInt 24) 255 else recNoType in
      let recSize := if recTyped then Z.land firstInt 16777215 else firstInt in
      let crc := get_le (drop 4 header) in
      if (recSize =? 0) && (recType =? 0) && (crc =? 0) then Err NeedRewind
      else if (0 <? expectedSize) && negb (recSize =? expectedSize) then Err UnexpectedSize
      else match ReadFull (Z.to_nat recSize) r with
           | (inr e, _) => Err (of_read e)
           | (inl payload, r) =>
               if checkCRC && negb (Checksum payload tab =? crc) then Err BadCRC
               else Ok (payload, recType, r)
           end
  end.

(** The loop of the recovery of a file of typed records: [handle] is its switch on the
    type of the record.  The result has the offset to truncate the file at, if any:
    padding with zeros ends the records, and so does an incomplete record when
    [truncate] (the option [TruncateUnexpectedEOF]) is set ([handleUnexpectedEOF]). *)
Fixpoint recover_loop {St : Type} (fuel : nat) (handle : Z -> list byte -> St -> outcome rec_error St)
    (tab : list Z) (doCRC truncate : bool) (offset : Z) (st : St) (r : list byte)
  : outcome rec_error (St * option Z) :=
  match readRecord r true tab doCRC 0 with
  | Panic => Panic
  | Err AtEOF => Ok (st, None)
  | Err NeedRewind => Ok (st, Some offset)
  | Err AtUnexpectedEOF => if truncate then Ok (st, Some offset) else Err AtUnexpectedEOF
  | Err e => Err e
  | Ok (payload, recType, r) =>
      match fuel with
      | O => Err NoFuel
      | S fuel' =>
          st ← handle recType payload st;
          recover_loop fuel' handle tab doCRC truncate
            (offset + Z.of_nat (length payload) + recordHeaderSize) st r
      end
  end.

(** The records follow the version of the file. *)
Definition recover_file {St : Type} (handle : Z -> list byte -> St -> outcome rec_error St)
    (tab : list Z) (doCRC truncate : bool) (st : St) (content : list byte)
  : outcome rec_error (St * list byte) :=
  r ← recover_loop (length content) handle tab doCRC truncate 4 st (drop 4 content);
  Ok (r.1, match r.2 with Some offset => take (Z.to_nat offset) content | None => content end).
End Rec.
