(* ===== verification/RecordsSpec.v ===== *)
(** * Records are read as they were written

    A record is read back whatever follows it; of a record that was cut the reader
    reports the end of the file, and of one that was damaged a bad checksum.  From these
    follow what the recovery of a whole file, and of a file cut by a crash, replays. *)

From Stdlib Require Import ZArith Lia Ascii String.
From stdpp Require Import base list strings.
From S2P Require Import Prelude Bytes Util Crc Proto Records.

Local Open Scope Z_scope.

Module RecSpec.
Import Crc CrcSpec Ints Proto Buffer Rec.

(** ** Headers *)

Lemma land_low_lor t s n : 0 <= n -> 0 <= s < 2 ^ n -> Z.land (Z.lor (Z.shiftl t n) s) (Z.ones n) = s.
Proof.
  intros Hn Hs. rewrite Z.land_lor_distr_l, !Z.land_ones, Z.shiftl_mul_pow2, Z.mod_mul by lia.
  rewrite Z.lor_0_l. by apply Z.mod_small.
Qed.

Lemma shiftr_lor_high t s n : 0 <= n -> 0 <= s < 2 ^ n -> Z.shiftr (Z.lor (Z.shiftl t n) s) n = t.
Proof.
  intros Hn Hs. rewrite Z.shiftr_lor, Z.shiftr_shiftl_l, Z.sub_diag, Z.shiftl_0_r by lia.
  rewrite (Z.shiftr_div_pow2 s), Z.div_small by lia. apply Z.lor_0_r.
Qed.

(** The type and the size of a typed record. *)
Record typed (r : Z * list byte) : Prop := {
  typed_type : 0 < r.1 < 256;
  typed_size : Z.of_nat (length r.2) <= 16777215
}.

Lemma typed_header t p :
  typed (t, p) ->
  let h := record_header t (Z.of_nat (length p)) in
  0 <= h < two32 /\ Z.land (Z.shiftr h 24) 255 = t /\ Z.land h 16777215 = Z.of_nat (length p).
Proof.
  intros [Ht Hp]; cbn [fst snd] in *. unfold record_header. destruct (Z.eqb_spec t recNoType) as [->|_];
    [unfold recNoType in Ht; lia|]. cbn zeta. set (s := Z.of_nat (length p)) in *.
  assert (0 <= s < 2 ^ 24) as Hs by lia. pose proof (land_low_lor t s 24 ltac:(lia) Hs) as Hl.
  pose proof (shiftr_lor_high t s 24 ltac:(lia) Hs) as Hh. split_and!.
  - apply Z.lor_nonneg. split; [apply Z.shiftl_nonneg; lia|lia].
  - rewrite (Z.div_mod (Z.lor (Z.shiftl t 24) s) (2 ^ 24)) by lia.
    rewrite <- Z.shiftr_div_pow2, Hh by lia. rewrite <- Z.land_ones, Hl by lia. unfold two32. lia.
  - rewrite Hh. change 255 with (Z.ones 8). rewrite Z.land_ones by lia. apply Z.mod_small. lia.
  - exact Hl.
Qed.
(** ** One record *)

Section Records.
Context (poly : Z) (Hpoly : is_word poly).
Local Abbreviation tab := (MakeTable poly).

Lemma get_checksum payload : get_le (put_le 4 (Checksum payload tab)) = Checksum payload tab.
Proof. apply get_put_le_small. by apply Checksum_word. Qed.

Lemma length_encode t p : length (encode tab t p) = (8 + length p)%nat.
Proof. unfold encode. rewrite !length_app, !length_put_le. lia. Qed.

(** The header of a record, whatever follows it. *)
Lemma ReadFull_header t p rest :
  ReadFull 8 (put_le 4 (u32 t) ++ put_le 4 (Checksum p tab) ++ rest) =
  (inl (put_le 4 (u32 t) ++ put_le 4 (Checksum p tab)), rest).
Proof. rewrite app_assoc. apply ReadFull_app. by rewrite length_app, !length_put_le. Qed.

Lemma header_parts t p :
  take 4 (put_le 4 (u32 t) ++ put_le 4 (Checksum p tab)) = put_le 4 (u32 t) /\
  drop 4 (put_le 4 (u32 t) ++ put_le 4 (Checksum p tab)) = put_le 4 (Checksum p tab).
Proof. split; [apply take_app_length'|apply drop_app_length']; by rewrite length_put_le. Qed.

(** What is read after the header of a typed record. *)
Lemma read_after_header t p rest doCRC :
  typed (t, p) ->
  readRecord (put_le 4 (u32 (record_header t (Z.of_nat (length p)))) ++ put_le 4 (Checksum p tab) ++ rest)
    true tab doCRC 0 =
  match ReadFull (length p) rest with
  | (inr e, _) => Err (of_read e)
  | (inl payload, r) =>
      if doCRC && negb (Checksum payload tab =? Checksum p tab) then Err BadCRC else Ok (payload, t, r)
  end.
Proof.
  intros Ht. destruct (typed_header t p Ht) as (Hh & Hty & Hs). destruct Ht as [Ht _]; cbn [fst] in Ht.
  unfold readRecord. rewrite ReadFull_header. destruct (header_parts (record_header t (Z.of_nat (length p))) p) as [-> ->].
  rewrite get_checksum, u32_small by done. rewrite get_put_le_small by done. rewrite Hty, Hs.
  destruct (Z.eqb_spec t 0); [lia|]. rewrite andb_false_r. cbn [andb Z.ltb Z.compare]. by rewrite Nat2Z.id.
Qed.

Lemma read_encode t p rest doCRC :
  typed (t, p) -> readRecord (encode tab t p ++ rest) true tab doCRC 0 = Ok (p, t, rest).
Proof.
  intros Ht. unfold encode. rewrite <- !app_assoc, read_after_header by done.
  rewrite ReadFull_app by done. by rewrite Z.eqb_refl, andb_false_r.
Qed.

Lemma encode_typed_split t p :
  encode tab t p = put_le 4 (u32 (record_header t (Z.of_nat (length p)))) ++ put_le 4 (Checksum p tab) ++ p.
Proof. done. Qed.

Lemma ReadFull_short n r : (length r < n)%nat ->
  ReadFull n r = (inr (match r with [] => EOF | _ => ErrUnexpectedEOF end), []).
Proof. intros H. unfold ReadFull. destruct (Nat.leb_spec n (length r)); [lia|]. by destruct r. Qed.

(** A record that was cut: nothing is distinguished from no payload at all. *)
Lemma read_torn t p n doCRC :
  typed (t, p) -> (n < 8 + length p)%nat ->
  readRecord (take n (encode tab t p)) true tab doCRC 0 =
  Err (if bool_decide (n = 0%nat \/ n = 8%nat) then AtEOF else AtUnexpectedEOF).
Proof.
  intros Ht Hn. destruct (decide (n < 8)%nat) as [H8|H8].
  - unfold readRecord. rewrite ReadFull_short by (rewrite length_take, length_encode; lia).
    destruct n as [|n]; [done|]. rewrite bool_decide_false by lia. by destruct (encode tab t p) eqn:E.
  - rewrite encode_typed_split, app_assoc, take_app, length_app, !length_put_le.
    rewrite take_ge by (rewrite length_app, !length_put_le; lia).
    rewrite <- app_assoc, read_after_header by done.
    rewrite ReadFull_short by (rewrite length_take; lia). f_equal.
    destruct (decide (n = 8)%nat) as [->|Hne]; [by rewrite bool_decide_true by auto|].
    rewrite bool_decide_false by lia. destruct p as [|b p]; [simpl in Hn; lia|].
    destruct (n - (4 + 4))%nat eqn:E; [lia|done].
Qed.

(** Zeros where a record is expected are the end of the records. *)
Lemma read_zeros k rest doCRC expected :
  forall recTyped, (8 <= k)%nat ->
  readRecord (replicate k zero ++ rest) recTyped tab doCRC expected = Err NeedRewind.
Proof.
  intros recTyped Hk. replace k with (8 + (k - 8))%nat by lia. rewrite replicate_add, <- app_assoc.
  unfold readRecord. rewrite ReadFull_app by apply length_replicate. by destruct recTyped.
Qed.

(** Up to four damaged consecutive bytes of a payload are detected. *)
Lemma read_damaged t a w w' b rest :
  Z.testbit poly 31 = true -> typed (t, a ++ w ++ b) ->
  length w = length w' -> (length w <= 4)%nat -> w <> w' ->
  readRecord (take 8 (encode tab t (a ++ w ++ b)) ++ (a ++ w' ++ b) ++ rest) true tab true 0 = Err BadCRC.
Proof.
  intros Hp Ht Hlen Hw Hne. rewrite encode_typed_split.
  rewrite (app_assoc (put_le 4 _) (put_le 4 _)), take_app_length' by (by rewrite length_app, !length_put_le).
  rewrite <- (app_assoc (put_le 4 _) (put_le 4 _)), read_after_header by done.
  rewrite ReadFull_app by (rewrite !length_app; lia).
  destruct (Z.eqb_spec (Checksum (a ++ w' ++ b) tab) (Checksum (a ++ w ++ b) tab)) as [E|]; [|done].
  destruct Hne. eapply Checksum_burst; eauto.
Qed.

(** A record without a type. *)
Lemma read_encode_untyped p rest doCRC expected :
  p <> [] -> Z.of_nat (length p) < two32 -> expected = 0 \/ expected = Z.of_nat (length p) ->
  readRecord (encode tab recNoType p ++ rest) false tab doCRC expected = Ok (p, recNoType, rest).
Proof.
  intros Hp Hl He. unfold encode. rewrite <- !app_assoc. unfold readRecord. rewrite ReadFull_header.
  destruct (header_parts (record_header recNoType (Z.of_nat (length p))) p) as [-> ->].
  change (record_header recNoType (Z.of_nat (length p))) with (Z.of_nat (length p)).
  rewrite get_checksum, u32_small by lia. rewrite get_put_le_small by (change (256 ^ Z.of_nat 4) with two32; lia).
  destruct (Z.eqb_spec (Z.of_nat (length p)) 0); [destruct p; [done|simpl in *; lia]|]. cbn [andb].
  replace ((0 <? expected) && negb (Z.of_nat (length p) =? expected)) with false
    by (destruct He as [->| ->]; [done|by rewrite Z.eqb_refl, andb_false_r]).
  rewrite Nat2Z.id, ReadFull_app by done. by rewrite Z.eqb_refl, andb_false_r.
Qed.

(** [writeRecord] writes whole records: what it leaves in the file ends where a record
    ends, before or after the new one. *)
Lemma writeRecord_spec {A : Type} (c : codec A) w t rec :
  c_size c rec = Z.of_nat (length (c_put c rec)) -> typed (t, c_put c rec) ->
  exists w', writeRecord w t c rec tab = Ok (w', Z.of_nat (8 + length (c_put c rec))) /\
    contents w' = contents w ++ encode tab t (c_put c rec) /\
    (disk w' = disk w \/ disk w' = contents w \/ disk w' = contents w').
Proof.
  intros Hs [_ Hp]; cbn [snd] in Hp. unfold writeRecord. rewrite Hs.
  destruct (Z.ltb_spec 16777215 (Z.of_nat (length (c_put c rec)))); [lia|]. rewrite andb_false_r.
  set (e := encode tab t (c_put c rec)). set (w1 := match buf w with Some _ => _ | None => w end).
  assert (contents w1 = contents w /\ (disk w1 = disk w \/ disk w1 = contents w)) as [Hc Hd].
  { subst w1. destruct (buf w) as [b|]; [|auto]. destruct (_ && _); [|auto].
    rewrite contents_Flush, disk_Flush. auto. }
  exists (Write w1 e). rewrite contents_Write, Hc. unfold recordHeaderSize.
  split_and!; [do 2 f_equal; lia|done|].
  destruct (buf w1) as [b|] eqn:Eb.
  - assert (Z.of_nat (length e) <= Available b \/ Buffered b = 0) as Hfit.
    { subst w1 e. rewrite length_encode. destruct (buf w) as [b0|] eqn:E0; [|congruence].
      destruct (Z.ltb_spec 0 (Buffered b0)),
        (Z.ltb_spec (Available b0) (recordHeaderSize + Z.of_nat (length (c_put c rec))));
        cbn [andb] in Eb; unfold recordHeaderSize in *;
        [unfold Flush in Eb; rewrite E0 in Eb; injection Eb as <-; by right|..];
        rewrite E0 in Eb; injection Eb as <-; unfold Buffered in *; lia. }
    destruct (Write_whole w1 e b Eb Hfit) as [->| ->]; [destruct Hd as [->| ->]|rewrite Hc]; auto.
  - right; right. unfold Write. rewrite Eb. cbn [disk]. unfold contents in Hc. rewrite Eb, app_nil_r in Hc. by rewrite Hc.
Qed.

(** An empty record without a type reads as the end of the records. *)
Lemma read_empty_untyped rest doCRC expected :
  readRecord (encode tab recNoType [] ++ rest) false tab doCRC expected = Err NeedRewind.
Proof. reflexivity. Qed.

(** ** Files of typed records *)

Definition encode_all (recs : list (Z * list byte)) : list byte := recs ≫= fun r => encode tab r.1 r.2.

Definition version : list byte := WriteInt [] fileVersion.

Lemma encode_all_app a b : encode_all (a ++ b) = encode_all a ++ encode_all b.
Proof. apply bind_app. Qed.

Section Loop.
Context {St : Type} (handle : Z -> list byte -> St -> outcome rec_error St) (doCRC truncate : bool).

(** The records, one after the other. *)
Fixpoint replay (recs : list (Z * list byte)) (st : St) : outcome rec_error St :=
  match recs with
  | [] => Ok st
  | r :: recs' => st ← handle r.1 r.2 st; replay recs' st
  end.

Lemma replay_app a b st : replay (a ++ b) st = (st ← replay a st; replay b st).
Proof.
  revert st. induction a as [|r a IH]; intros st; [done|]. cbn [app replay].
  destruct (handle r.1 r.2 st); cbn [mbind outcome_bind]; [apply IH|done|done].
Qed.

Local Abbreviation loop fuel offset st r := (recover_loop fuel handle tab doCRC truncate offset st r).

Lemma loop_records recs fuel offset st tail :
  Forall typed recs ->
  loop (length recs + fuel)%nat offset st (encode_all recs ++ tail) =
  (st' ← replay recs st; loop fuel (offset + Z.of_nat (length (encode_all recs))) st' tail).
Proof.
  intros H. revert offset st. induction H as [|r recs Hr _ IH]; intros offset st.
  { simpl. by rewrite Z.add_0_r. }
  destruct r as [t p]. cbn [length Nat.add recover_loop replay fst snd].
  unfold encode_all. rewrite bind_cons, <- app_assoc. cbn [fst snd]. rewrite read_encode by done.
  destruct (handle t p st) as [st1|e|]; cbn [mbind outcome_bind]; [|done..].
  fold (encode_all recs). rewrite IH. rewrite length_app, length_encode.
  destruct (replay recs st1); cbn [mbind outcome_bind]; [|done..]. f_equal. unfold recordHeaderSize. lia.
Qed.

Lemma loop_eof fuel offset st : loop fuel offset st [] = Ok (st, None).
Proof. by destruct fuel. Qed.

Lemma loop_zeros fuel offset st k rest :
  (8 <= k)%nat -> loop fuel offset st (replicate k zero ++ rest) = Ok (st, Some offset).
Proof. intros Hk. destruct fuel; cbn [recover_loop]; by rewrite read_zeros. Qed.

Lemma loop_torn fuel offset st t p n :
  typed (t, p) -> (n < 8 + length p)%nat ->
  loop fuel offset st (take n (encode tab t p)) =
  if bool_decide (n = 0%nat \/ n = 8%nat) then Ok (st, None)
  else if truncate then Ok (st, Some offset) else Err AtUnexpectedEOF.
Proof.
  intros Ht Hn. destruct fuel; cbn [recover_loop]; rewrite read_torn by done; by destruct (bool_decide _).
Qed.

Lemma length_encode_all recs : (length recs <= length (encode_all recs))%nat.
Proof.
  induction recs as [|r recs IH]; [done|]. unfold encode_all in *.
  rewrite bind_cons, length_app, length_encode. simpl. lia.
Qed.

(** The records that end within the first [n] bytes, and what follows them. *)
Fixpoint whole (n : nat) (recs : list (Z * list byte)) : list (Z * list byte) * nat :=
  match recs with
  | [] => ([], 0%nat)
  | r :: recs' =>
      let k := (8 + length r.2)%nat in
      if (k <=? n)%nat then let '(l, m) := whole (n - k) recs' in (r :: l, m) else ([], n)
  end.

Lemma whole_prefix n recs : (whole n recs).1 = take (length (whole n recs).1) recs.
Proof.
  revert n. induction recs as [|r recs IH]; intros n; [done|]. cbn [whole].
  destruct (_ <=? _)%nat; [|done]. specialize (IH (n - (8 + length r.2))%nat).
  destruct (whole _ recs) as [l m]; cbn [fst length take] in *. by rewrite <- IH.
Qed.

(** Records that fit are among them. *)
Lemma whole_covers n k recs :
  (k <= length recs)%nat -> (length (encode_all (take k recs)) <= n)%nat -> (k <= length (whole n recs).1)%nat.
Proof.
  revert n k. induction recs as [|r recs IH]; intros n k Hk Hn; [done|].
  destruct k as [|k]; [lia|]. cbn [take] in Hn. unfold encode_all in Hn.
  rewrite bind_cons, length_app, length_encode in Hn. fold (encode_all (take k recs)) in Hn. cbn [whole].
  destruct (Nat.leb_spec (8 + length r.2) n); [|lia].
  specialize (IH (n - (8 + length r.2))%nat k ltac:(simpl in Hk; lia) ltac:(lia)).
  destruct (whole _ recs) as [l m]; cbn [fst length] in *. lia.
Qed.

(** A file cut after its first [n] bytes of records ends with a record that was cut. *)
Lemma take_whole n recs :
  exists recs', recs = (whole n recs).1 ++ recs' /\
  (recs' = [] /\ (whole n recs).2 = 0%nat \/
   exists r l, recs' = r :: l /\ ((whole n recs).2 < 8 + length r.2)%nat) /\
  take n (encode_all recs) =
    encode_all (whole n recs).1 ++
    match recs' with r :: _ => take (whole n recs).2 (encode tab r.1 r.2) | [] => [] end.
Proof.
  revert n. induction recs as [|r recs IH]; intros n; cbn [whole].
  { exists []. split_and!; [done|by left|]. by destruct n. }
  destruct (Nat.leb_spec (8 + length r.2) n) as [Hk|Hk].
  - destruct (IH (n - (8 + length r.2))%nat) as (recs' & E & Hr & Ht).
    destruct (whole (n - (8 + length r.2)) recs) as [l m]; cbn [fst snd] in *.
    exists recs'. split_and!; [by rewrite E at 1|done|].
    unfold encode_all in *. rewrite !bind_cons, take_app, length_encode, Ht, app_assoc.
    by rewrite take_ge by (rewrite length_encode; lia).
  - exists (r :: recs). split_and!; [done|right; by exists r, recs|].
    unfold encode_all. rewrite bind_cons, take_app, length_encode. cbn [fst snd].
    replace (n - (8 + length r.2))%nat with 0%nat by lia. by rewrite take_0, app_nil_r.
Qed.

Lemma openFile_version r : Rec.openFile (Some (version ++ r)) = Ok (version ++ r).
Proof. reflexivity. Qed.

Lemma drop_version r : drop 4 (version ++ r) = r.
Proof. done. Qed.

(** Recovering a whole file replays its records. *)
Lemma recover_file_whole recs st :
  Forall typed recs ->
  recover_file handle tab doCRC truncate st (version ++ encode_all recs) =
  (st' ← replay recs st; Ok (st', version ++ encode_all recs)).
Proof.
  intros H. unfold recover_file. rewrite drop_version.
  pose proof (length_encode_all recs) as Hl.
  rewrite <- (app_nil_r (encode_all recs)) at 2.
  replace (length (version ++ encode_all recs)) with
    (length recs + (length (version ++ encode_all recs) - length recs))%nat by (rewrite length_app; lia).
  rewrite loop_records by done.
  destruct (replay recs st); cbn [mbind outcome_bind]; [|done..]. by rewrite loop_eof.
Qed.

(** Recovering a file padded with zeros replays its records and removes the padding. *)
Lemma recover_file_padded recs st k :
  Forall typed recs -> (8 <= k)%nat ->
  recover_file handle tab doCRC truncate st (version ++ encode_all recs ++ replicate k zero) =
  (st' ← replay recs st; Ok (st', version ++ encode_all recs)).
Proof.
  intros H Hk. unfold recover_file. rewrite drop_version.
  pose proof (length_encode_all recs) as Hl.
  replace (length (version ++ encode_all recs ++ replicate k zero)) with
    (length recs + (length (version ++ encode_all recs ++ replicate k zero) - length recs))%nat
    by (rewrite !length_app; lia).
  rewrite loop_records by done. destruct (replay recs st); cbn [mbind outcome_bind]; [|done..].
  rewrite <- (app_nil_r (replicate k zero)) at 2. rewrite loop_zeros by done. cbn [mbind outcome_bind fst snd].
  do 2 f_equal. rewrite app_assoc, take_app_length'; [done|].
  rewrite length_app. change (length version) with 4%nat. lia.
Qed.

(** Reading what a crash left of the next record. *)
Definition cut (recs : list (Z * list byte)) (m : nat) : list byte :=
  match recs with r :: _ => take m (encode tab r.1 r.2) | [] => [] end.

Lemma loop_cut recs m :
  truncate = true -> Forall typed recs ->
  (recs = [] /\ m = 0%nat \/ exists r l, recs = r :: l /\ (m < 8 + length r.2)%nat) ->
  exists removed : bool,
    (forall fuel offset st, loop fuel offset st (cut recs m) = Ok (st, if removed then Some offset else None)) /\
    (if removed then m <> 8%nat else length (cut recs m) = (if decide (m = 8%nat) then 8 else 0)%nat).
Proof.
  intros Htr H [[-> ->]|([t p] & l & -> & Hm)].
  - exists false. split; [|done]. intros. apply loop_eof.
  - apply Forall_cons_1 in H as [Ht _]. cbn [cut fst snd] in *.
    exists (negb (bool_decide (m = 0%nat \/ m = 8%nat))). split.
    + intros. rewrite loop_torn, Htr by done. by destruct (bool_decide _).
    + case_bool_decide as Hm'; cbn [negb]; [|lia]. rewrite length_take, length_encode. case_decide; lia.
Qed.

(** Recovering a file that was cut, when incomplete records are removed: the complete
    records are replayed.  The file keeps these, and also the header of a record of
    which nothing but the header was written. *)
Lemma recover_file_torn recs st n :
  truncate = true -> Forall typed recs ->
  let w := whole n recs in
  exists rest,
    recover_file handle tab doCRC truncate st (version ++ take n (encode_all recs)) =
    (st' ← replay w.1 st; Ok (st', version ++ encode_all w.1 ++ rest)) /\
    (w.2 <> 8%nat -> rest = []) /\ (w.2 = 8%nat -> length rest = 8%nat).
Proof.
  intros Htr H. cbn zeta. destruct (take_whole n recs) as (recs' & Erecs & Hr & Ht).
  destruct (whole n recs) as [l m]; cbn [fst snd] in *.
  assert (Forall typed l /\ Forall typed recs') as [Hl Hrecs'] by (rewrite Erecs in H; by apply Forall_app in H).
  fold (cut recs' m) in Ht. destruct (loop_cut recs' m Htr Hrecs' Hr) as (removed & Hloop & Hlen).
  unfold recover_file. rewrite drop_version, Ht. pose proof (length_encode_all l) as Hle.
  replace (length (version ++ encode_all l ++ cut recs' m)) with
    (length l + (length (version ++ encode_all l ++ cut recs' m) - length l))%nat by (rewrite !length_app; lia).
  rewrite loop_records by done. destruct removed.
  - exists []. split; [|done]. destruct (replay l st); cbn [mbind outcome_bind]; [|done..].
    rewrite Hloop. cbn [mbind outcome_bind fst snd]. do 2 f_equal. rewrite app_nil_r, app_assoc.
    apply take_app_length'. rewrite length_app. change (length version) with 4%nat. lia.
  - exists (cut recs' m). split_and!.
    + destruct (replay l st); cbn [mbind outcome_bind]; [|done..]. by rewrite Hloop.
    + intros Hm. rewrite decide_False in Hlen by done. by apply nil_length_inv.
    + intros Hm. by rewrite decide_True in Hlen.
Qed.
End Loop.
End Records.
End RecSpec.
