(* ===== verification/FileSubs.v ===== *)
(** * Subscriptions in files

    [FileSubStore] of src/stores/filestore.go: each operation appends a record to the
    subscriptions file of the channel, and now and then the file is compacted.  The state
    has the file (what is on disk and what is buffered) beside the maps that the store
    keeps in memory.  [s] being the options, operations take the time [now] where the
    code asks for it. *)

From Stdlib Require Import ZArith Lia Ascii String.
From stdpp Require Import base list gmap strings.
From S2P Require Import Prelude Bytes Util Crc Proto Spb Records GenericStore.

Local Open Scope Z_scope.

Module FileSub.
Import Crc Proto Buffer Rec FileOptions.

Definition subRecNew : Z := 1.
Definition subRecUpdate : Z := 2.
Definition subRecDel : Z := 3.
Definition subRecAck : Z := 4.
Definition subRecMsg : Z := 5.

Definition subBufMinShrinkSize : Z := 128.
Definition defaultBufSize : Z := 10 * 1024 * 1024.

Record subscription := mkSubscription { sub : SubState.t; seqnos : gset Z }.

Record FileSubStore := mkStore {
  maxSubscriptions : Z;
  subs : gmap Z subscription;
  maxSubID : Z;
  file : io;             (* the file, and the buffer of [bw] *)
  opened : bool;
  bw : option bufferedWriter;
  fileSize : Z;
  numRecs : Z;
  delRecs : Z;
  compactTS : Z;
  activity : bool;
  synced : Z
}.

Definition set_subs (v : gmap Z subscription) (ss : FileSubStore) : FileSubStore :=
  mkStore (maxSubscriptions ss) v (maxSubID ss) (file ss) (opened ss) (bw ss) (fileSize ss) (numRecs ss)
    (delRecs ss) (compactTS ss) (activity ss) (synced ss).
Definition set_max (v : Z) (ss : FileSubStore) : FileSubStore :=
  mkStore (maxSubscriptions ss) (subs ss) v (file ss) (opened ss) (bw ss) (fileSize ss) (numRecs ss)
    (delRecs ss) (compactTS ss) (activity ss) (synced ss).
Definition set_file (f : io) (o : bool) (b : option bufferedWriter) (ss : FileSubStore) : FileSubStore :=
  mkStore (maxSubscriptions ss) (subs ss) (maxSubID ss) f o b (fileSize ss) (numRecs ss)
    (delRecs ss) (compactTS ss) (activity ss) (synced ss).
Definition set_counts (sz n d : Z) (ss : FileSubStore) : FileSubStore :=
  mkStore (maxSubscriptions ss) (subs ss) (maxSubID ss) (file ss) (opened ss) (bw ss) sz n
    d (compactTS ss) (activity ss) (synced ss).
Definition set_compactTS (t : Z) (ss : FileSubStore) : FileSubStore :=
  mkStore (maxSubscriptions ss) (subs ss) (maxSubID ss) (file ss) (opened ss) (bw ss) (fileSize ss) (numRecs ss)
    (delRecs ss) t (activity ss) (synced ss).
Definition set_activity (a : bool) (n : Z) (ss : FileSubStore) : FileSubStore :=
  mkStore (maxSubscriptions ss) (subs ss) (maxSubID ss) (file ss) (opened ss) (bw ss) (fileSize ss) (numRecs ss)
    (delRecs ss) (compactTS ss) a n.

(** [LastSent] follows the highest message that was sent. *)
Definition with_LastSent (seq : Z) (s : SubState.t) : SubState.t :=
  let '(SubState.mk id cid qg ib ai mif aw dn _ isd isc) := s in
  SubState.mk id cid qg ib ai mif aw dn seq isd isc.
Definition with_ID (id : Z) (s : SubState.t) : SubState.t :=
  let '(SubState.mk _ cid qg ib ai mif aw dn ls isd isc) := s in
  SubState.mk id cid qg ib ai mif aw dn ls isd isc.

(** What the records do to the maps, at run time and at recovery. *)
Definition put_new (newSub : SubState.t) (m : gmap Z subscription) : gmap Z subscription :=
  <[SubState.ID newSub := mkSubscription newSub ∅]> m.

Definition put_update (modifiedSub : SubState.t) (m : gmap Z subscription) : gmap Z subscription :=
  match m !! SubState.ID modifiedSub with
  | Some s => <[SubState.ID modifiedSub := mkSubscription modifiedSub (seqnos s)]> m
  | None => <[SubState.ID modifiedSub := mkSubscription modifiedSub ∅]> m
  end.

Definition put_msg (subid seqno : Z) (m : gmap Z subscription) : gmap Z subscription :=
  match m !! subid with
  | Some s =>
      let sub' := if SubState.LastSent (sub s) <? seqno then with_LastSent seqno (sub s) else sub s in
      <[subid := mkSubscription sub' ({[seqno]} ∪ seqnos s)]> m
  | None => m
  end.

Definition put_ack (subid seqno : Z) (m : gmap Z subscription) : gmap Z subscription :=
  match m !! subid with
  | Some s => <[subid := mkSubscription (sub s) (seqnos s ∖ {[seqno]})]> m
  | None => m
  end.

Section Store.
Context (opts : FileStoreOptions).

Definition crcTable : list Z := MakeTable (CRCPolynomial opts).

(** ** Files *)

Definition reset_writer (content : list byte) (b : option bufferedWriter) : io :=
  match b with Some b => createNewWriter b content | None => mkIO content None end.

Definition lockFile (ss : FileSubStore) : outcome rec_error FileSubStore :=
  if opened ss then Ok ss
  else content ← Rec.openFile (Some (disk (file ss)));
       Ok (set_file (reset_writer content (bw ss)) true (bw ss) ss).

Definition flush (forceSync : bool) (ss : FileSubStore) : FileSubStore :=
  if negb (activity ss) then ss
  else
    let ss := set_activity false (synced ss) ss in
    let ss := set_file (flush_if_needed (file ss)) (opened ss) (bw ss) ss in
    if DoSync opts || forceSync then set_activity false (synced ss + 1) ss else ss.

(** The files manager closes the file, with its [beforeClose] callback. *)
Definition closeFile (ss : FileSubStore) : FileSubStore :=
  if opened ss then
    let ss := flush false ss in set_file (mkIO (disk (file ss)) None) false (bw ss) ss
  else ss.

(** ** Records *)

(** Space for the record in the buffer. *)
Definition make_room (required : Z) (ss : FileSubStore) : FileSubStore :=
  match bw ss, buf (file ss) with
  | Some b, Some w =>
      if negb (bufSize b =? BufferSize opts) && (Available w <? required) then
        let '(b', f') := expand b (file ss) required in set_file f' (opened ss) (Some b') ss
      else ss
  | _, _ => ss
  end.

Definition check_shrink (ss : FileSubStore) : FileSubStore :=
  match bw ss, buf (file ss) with
  | Some b, Some w =>
      if shrinkReq b then set_file (file ss) (opened ss) (Some (checkShrinkRequest b w)) ss else ss
  | _, _ => ss
  end.

(** The end of [writeRecord]: records, and records that are free space. *)
Definition count (recType totalSize : Z) (ss : FileSubStore) : FileSubStore :=
  let ss := set_activity true (synced ss) ss in
  let n := numRecs ss in
  let d := delRecs ss in
  let '(n, d) :=
    if recType =? subRecNew then (n + 1, d)
    else if recType =? subRecMsg then (n + 1, d)
    else if recType =? subRecAck then (n, d + 1)
    else if recType =? subRecUpdate then (n + 1, d + 1)
    else (n, d + 1) in
  set_counts (fileSize ss + totalSize) n d ss.

(** [writeRecord] to the store's own file. *)
Definition writeRecord {A : Type} (recType : Z) (c : codec A) (rec : A) (ss : FileSubStore)
  : outcome rec_error FileSubStore :=
  ss ← lockFile ss;
  let ss := make_room (c_size c rec + recordHeaderSize) ss in
  r ← Rec.writeRecord (file ss) recType c rec crcTable;
  let ss := set_file r.1 (opened ss) (bw ss) ss in
  Ok (count recType r.2 (check_shrink ss)).

(** [writeRecord] to the file of a compaction. *)
Definition writeRecordTo {A : Type} (recType : Z) (c : codec A) (rec : A) (x : io * FileSubStore)
  : outcome rec_error (io * FileSubStore) :=
  r ← Rec.writeRecord x.1 recType c rec crcTable;
  Ok (r.1, count recType r.2 x.2).

(** ** Compaction *)

Definition shouldCompact (now : Z) (ss : FileSubStore) : bool :=
  if negb (CompactEnabled opts) then false
  else if (0 <? CompactMinFileSize opts) && (fileSize ss <? CompactMinFileSize opts) then false
  else
    let frag := if numRecs ss =? 0 then 100 else delRecs ss * 100 `quot` numRecs ss in
    if frag <? CompactFragmentation opts then false
    else if now - compactTS ss <? CompactInterval opts * 1000000000 then false
    else true.

Context `{!RangeOrder Z}.

Fixpoint compact_seqnos (id : Z) (l : list Z) (x : io * FileSubStore) : outcome rec_error (io * FileSubStore) :=
  match l with
  | [] => Ok x
  | seqno :: l' =>
      x ← writeRecordTo subRecMsg SubStateUpdate.codec (SubStateUpdate.mk id seqno) x;
      compact_seqnos id l' x
  end.

Fixpoint compact_subs (l : list (Z * subscription)) (x : io * FileSubStore)
  : outcome rec_error (io * FileSubStore) :=
  match l with
  | [] => Ok x
  | (_, s) :: l' =>
      x ← writeRecordTo subRecNew SubState.codec (sub s) x;
      x ← compact_seqnos (SubState.ID (sub s)) (order (seqnos s)) x;
      compact_subs l' x
  end.

(** A temporary file with the live subscriptions replaces the file, which was closed. *)
Definition compact (now : Z) (ss : FileSubStore) : outcome rec_error FileSubStore :=
  let tmp := mkIO (Ints.WriteInt [] fileVersion) (Some (NewWriterSize defaultBufSize)) in
  x ← compact_subs (range (subs ss)) (tmp, set_counts 0 0 0 ss);
  Ok (set_compactTS now (set_file (mkIO (disk (Flush x.1)) None) false (bw x.2) x.2)).

Definition try_compact (now : Z) (ss : FileSubStore) : outcome rec_error FileSubStore :=
  if shouldCompact now ss then compact now (closeFile ss) else Ok ss.

(** ** Operations *)

(** The embedded [genericSubStore]. *)
Definition generic (ss : FileSubStore) : SubStore.genericSubStore :=
  SubStore.mkSubStore (maxSubscriptions ss) (dom (subs ss)) (maxSubID ss).

(** The ID of the new subscription is also left in [sub.ID]. *)
Definition CreateSub (s : SubState.t) (ss : FileSubStore)
  : outcome rec_error ((Z + store_error) * FileSubStore) :=
  match SubStore.createSub (generic ss) with
  | (inr e, _) => Ok (inr e, ss)
  | (inl id, gss) =>
      let s := with_ID id s in
      ss ← writeRecord subRecNew SubState.codec s (set_max (SubStore.maxSubID gss) ss);
      Ok (inl id, set_subs (put_new s (subs ss)) ss)
  end.

Definition UpdateSub (s : SubState.t) (ss : FileSubStore) : outcome rec_error FileSubStore :=
  ss ← writeRecord subRecUpdate SubState.codec s ss;
  Ok (set_subs (put_update s (subs ss)) ss).

(** An error of the write is returned, but the subscription is removed. *)
Definition DeleteSub (now subid : Z) (ss : FileSubStore)
  : outcome rec_error (FileSubStore * option rec_error) :=
  x ← match writeRecord subRecDel SubStateDelete.codec (SubStateDelete.mk subid) ss with
      | Ok ss' => Ok (ss', None)
      | Err e => Ok (ss, Some e)
      | Panic => Panic
      end;
  let '(ss, err) := x in
  match subs ss !! subid with
  | Some s =>
      let d := delRecs ss + Z.of_nat (size (seqnos s)) in
      ss ← try_compact now (set_counts (fileSize ss) (numRecs ss) d (set_subs (delete subid (subs ss)) ss));
      Ok (ss, err)
  | None => Ok (ss, err)
  end.

Definition AddSeqPending (subid seqno : Z) (ss : FileSubStore) : outcome rec_error FileSubStore :=
  ss ← writeRecord subRecMsg SubStateUpdate.codec (SubStateUpdate.mk subid seqno) ss;
  Ok (set_subs (put_msg subid seqno (subs ss)) ss).

Definition AckSeqPending (now subid seqno : Z) (ss : FileSubStore) : outcome rec_error FileSubStore :=
  ss ← writeRecord subRecAck SubStateUpdate.codec (SubStateUpdate.mk subid seqno) ss;
  match subs ss !! subid with
  | Some _ => try_compact now (set_subs (put_ack subid seqno (subs ss)) ss)
  | None => Ok ss
  end.

Definition Flush (ss : FileSubStore) : outcome rec_error FileSubStore :=
  ss ← lockFile ss; Ok (flush false ss).

(** The timer callbacks, on a store that is not closed. *)
Definition shrinkBuffer (ss : FileSubStore) : FileSubStore :=
  if negb (opened ss) then ss
  else match bw ss, buf (file ss) with
       | Some b, Some w =>
           let '(b', f') := tryShrinkBuffer b (file ss) w in set_file f' (opened ss) (Some b') ss
       | _, _ => ss
       end.

Definition autoSync (ss : FileSubStore) : FileSubStore :=
  if activity ss then
    match lockFile ss with Ok ss' => flush true ss' | _ => ss end
  else ss.

(** [Close]: what is in the file afterwards. *)
Definition Close (ss : FileSubStore) : FileSubStore :=
  if opened ss then
    let ss := flush true ss in set_file (mkIO (disk (file ss)) None) false (bw ss) ss
  else ss.

(** ** Recovery *)

Definition unmarshal {A : Type} (c : codec A) (payload : list byte) : outcome rec_error A :=
  match c_get c (c_zero c) payload with
  | Ok a => Ok a
  | Err e => Err (BadRecord e)
  | Panic => Panic
  end.

(** The switch of [recoverSubscriptions]. *)
Definition recover_record (recType : Z) (payload : list byte) (ss : FileSubStore)
  : outcome rec_error FileSubStore :=
  let sz := fileSize ss + Z.of_nat (length payload) + recordHeaderSize in
  let n := numRecs ss in
  let d := delRecs ss in
  if recType =? subRecNew then
    newSub ← unmarshal SubState.codec payload;
    let id := SubState.ID newSub in
    Ok (set_counts sz (n + 1) d (set_max (if maxSubID ss <? id then id else maxSubID ss)
          (set_subs (put_new newSub (subs ss)) ss)))
  else if recType =? subRecUpdate then
    modifiedSub ← unmarshal SubState.codec payload;
    let id := SubState.ID modifiedSub in
    let d := match subs ss !! id with Some _ => d + 1 | None => d end in
    Ok (set_counts sz (n + 1) d (set_max (if maxSubID ss <? id then id else maxSubID ss)
          (set_subs (put_update modifiedSub (subs ss)) ss)))
  else if recType =? subRecDel then
    delSub ← unmarshal SubStateDelete.codec payload;
    let id := SubStateDelete.ID delSub in
    let d := match subs ss !! id with Some s => d + 1 + Z.of_nat (size (seqnos s)) | None => d end in
    Ok (set_counts sz n d (set_max (if maxSubID ss <? id then id else maxSubID ss)
          (set_subs (delete id (subs ss)) ss)))
  else if recType =? subRecMsg then
    u ← unmarshal SubStateUpdate.codec payload;
    let n := match subs ss !! SubStateUpdate.ID u with Some _ => n + 1 | None => n end in
    Ok (set_counts sz n d (set_subs (put_msg (SubStateUpdate.ID u) (SubStateUpdate.Seqno u) (subs ss)) ss))
  else if recType =? subRecAck then
    u ← unmarshal SubStateUpdate.codec payload;
    let d := match subs ss !! SubStateUpdate.ID u with Some _ => d + 1 | None => d end in
    Ok (set_counts sz n d (set_subs (put_ack (SubStateUpdate.ID u) (SubStateUpdate.Seqno u) (subs ss)) ss))
  else Err UnexpectedType.

Definition recoverSubscriptions (ss : FileSubStore) : outcome rec_error FileSubStore :=
  r ← recover_file recover_record crcTable (DoCRC opts) (TruncateUnexpectedEOF opts) ss (disk (file ss));
  Ok (set_file (reset_writer r.2 (bw r.1)) true (bw r.1) r.1).

(** [newFileSubStore]: [f] is the file, if it exists. *)
Definition newFileSubStore (maxSubs : Z) (f : option (list byte)) (doRecover : bool)
  : outcome rec_error FileSubStore :=
  content ← Rec.openFile f;
  let b := if 0 <? BufferSize opts then Some (newBufferWriter subBufMinShrinkSize (BufferSize opts)) else None in
  let ss := mkStore maxSubs ∅ 0 (reset_writer content b) true b 0 0 0 0 false 0 in
  if doRecover then ss ← recoverSubscriptions ss; Ok (closeFile ss) else Ok ss.
End Store.
End FileSub.
