(* ===== verification/FileSubsSpec.v ===== *)
(** * The subscriptions file recovers the subscriptions

    The file of a [FileSubStore] is a log of its operations.  Recovering it replays the
    log; a crash loses at most what was done since the last flush, and compaction keeps
    what the log means. *)

From Stdlib Require Import ZArith Lia Ascii String.
From stdpp Require Import base list gmap strings.
From S2P Require Import Prelude Bytes Util Crc Proto ProtoSpec Spb Records RecordsSpec GenericStore FileSubs.

Local Open Scope Z_scope.

Module FileSubSpec.
Import Crc CrcSpec Proto ProtoSpec SpbSpec Buffer Rec RecSpec FileOptions FileSub.

(** ** The log *)

Inductive entry :=
| ENew (s : SubState.t)
| EUpdate (s : SubState.t)
| EDel (subid : Z)
| EMsg (subid seqno : Z)
| EAck (subid seqno : Z).

(** The record of an entry: its type and payload. *)
Definition enc (e : entry) : Z * list byte :=
  match e with
  | ENew s => (subRecNew, SubState.Marshal s)
  | EUpdate s => (subRecUpdate, SubState.Marshal s)
  | EDel subid => (subRecDel, SubStateDelete.Marshal (SubStateDelete.mk subid))
  | EMsg subid seqno => (subRecMsg, SubStateUpdate.Marshal (SubStateUpdate.mk subid seqno))
  | EAck subid seqno => (subRecAck, SubStateUpdate.Marshal (SubStateUpdate.mk subid seqno))
  end.

(** What an entry does to the subscriptions. *)
Definition effect (m : gmap Z subscription) (e : entry) : gmap Z subscription :=
  match e with
  | ENew s => put_new s m
  | EUpdate s => put_update s m
  | EDel subid => delete subid m
  | EMsg subid seqno => put_msg subid seqno m
  | EAck subid seqno => put_ack subid seqno m
  end.

Definition effects (es : list entry) : gmap Z subscription := foldl effect ∅ es.

Definition max_record : Z := 16777215.

Definition state_ok (s : SubState.t) : Prop := c_typed SubState.codec s /\ SubState.Size s <= max_record.

Definition entry_ok (e : entry) : Prop :=
  match e with
  | ENew s | EUpdate s => state_ok s
  | EDel subid => is_u64 subid
  | EMsg subid seqno | EAck subid seqno => is_u64 subid /\ is_u64 seqno
  end.

Lemma unmarshal_ok {A : Type} (c : codec A) `{!Lawful c} a :
  c_typed c a /\ c_size c a <= max_record -> unmarshal c (c_put c a) = Ok a.
Proof.
  intros [Ht Hs]. destruct (lawful_ok a Ht) as [H1 _]; [unfold max_record, two63 in *; lia|].
  unfold unmarshal. by rewrite H1.
Qed.

Lemma encoded_size {A : Type} (c : codec A) `{!Lawful c} a :
  c_typed c a /\ c_size c a <= max_record -> c_size c a = Z.of_nat (length (c_put c a)).
Proof. intros [Ht Hs]. apply lawful_ok; [done|]. unfold max_record, two63 in *. lia. Qed.

Lemma encoded_length {A : Type} (c : codec A) `{!Lawful c} a :
  c_typed c a /\ c_size c a <= max_record -> Z.of_nat (length (c_put c a)) <= max_record.
Proof. intros H. rewrite <- encoded_size by done. apply H. Qed.

Lemma size_int_bound v : size_int v <= 11.
Proof.
  unfold size_int. destruct (v =? 0); [done|]. rewrite <- length_encodeVarint by apply u64_range.
  enough (length (encodeVarint (u64 v)) <= 10)%nat by lia. unfold encodeVarint.
  assert (forall n v, (length (put_varint n v) <= S n)%nat) as H; [|by apply H].
  induction n as [|n IH]; intros x; cbn [put_varint]; [simpl; lia|].
  destruct (_ <=? _); simpl; [specialize (IH (Z.shiftr x 7))|]; lia.
Qed.

Lemma size_int_nonneg v : 0 <= size_int v.
Proof.
  unfold size_int. destruct (v =? 0); [done|]. rewrite <- length_encodeVarint by apply u64_range. lia.
Qed.

Ltac typed_fields :=
  repeat (apply Forall_cons_2; [first [exact I|assumption]|]); apply Forall_nil_2.

Lemma delete_ok subid : is_u64 subid ->
  c_typed SubStateDelete.codec (SubStateDelete.mk subid) /\ SubStateDelete.Size (SubStateDelete.mk subid) <= max_record.
Proof.
  intros H. split; [typed_fields|].
  unfold SubStateDelete.Size, message_size, max_record. simpl. pose proof (size_int_bound subid). lia.
Qed.

Lemma update_ok subid seqno : is_u64 subid -> is_u64 seqno ->
  c_typed SubStateUpdate.codec (SubStateUpdate.mk subid seqno) /\
  SubStateUpdate.Size (SubStateUpdate.mk subid seqno) <= max_record.
Proof.
  intros H1 H2. split; [typed_fields|].
  unfold SubStateUpdate.Size, message_size, max_record. simpl.
  pose proof (size_int_bound subid). pose proof (size_int_bound seqno). lia.
Qed.

Lemma enc_typed e : entry_ok e -> typed (enc e).
Proof.
  assert (forall t (p : list byte), 0 < t < 256 -> Z.of_nat (length p) <= max_record -> typed (t, p)) as Hty by done.
  destruct e as [s|s|id|id q|id q]; cbn [entry_ok enc]; intros He; apply Hty; try done.
  - by apply (encoded_length SubState.codec).
  - by apply (encoded_length SubState.codec).
  - by apply (encoded_length SubStateDelete.codec), delete_ok.
  - apply (encoded_length SubStateUpdate.codec), update_ok; apply He.
  - apply (encoded_length SubStateUpdate.codec), update_ok; apply He.
Qed.

Definition same_maps (ss ss' : FileSubStore) : Prop :=
  subs ss' = subs ss /\ maxSubID ss' = maxSubID ss /\ maxSubscriptions ss' = maxSubscriptions ss.

#[export] Instance same_maps_refl : Reflexive same_maps.
Proof. done. Qed.
#[export] Instance same_maps_trans : Transitive same_maps.
Proof. intros a b c (H1 & H2 & H3) (H4 & H5 & H6). split_and!; congruence. Qed.

Section Log.
Context (opts : FileStoreOptions) (Hopts : valid opts).
Local Abbreviation poly := (CRCPolynomial opts).

Lemma poly_word : is_word poly.
Proof. destruct (valid_polynomial _ Hopts). unfold is_word, two32. lia. Qed.

(** A record replays its entry. *)
Lemma recover_enc e ss :
  entry_ok e ->
  exists ss', recover_record (enc e).1 (enc e).2 ss = Ok ss' /\ subs ss' = effect (subs ss) e /\
    maxSubID ss <= maxSubID ss' /\
    (forall s, e = ENew s \/ e = EUpdate s -> SubState.ID s <= maxSubID ss').
Proof.
  destruct e as [s|s|id|id q|id q]; cbn [entry_ok enc effect fst snd]; intros He;
    unfold recover_record; cbn [Z.eqb Pos.eqb subRecNew subRecUpdate subRecDel subRecMsg subRecAck].
  - assert (unmarshal SubState.codec (SubState.Marshal s) = Ok s) as -> by by apply (unmarshal_ok SubState.codec).
    cbn [mbind outcome_bind]. eexists; split_and!; [done|done|cbn; case_match; lia|].
    intros ? [[= <-]|[=]]. cbn. case_match; lia.
  - assert (unmarshal SubState.codec (SubState.Marshal s) = Ok s) as -> by by apply (unmarshal_ok SubState.codec).
    cbn [mbind outcome_bind]. eexists; split_and!; [done|done|cbn; case_match; lia|].
    intros ? [[=]|[= <-]]. cbn. case_match; lia.
  - assert (unmarshal SubStateDelete.codec (SubStateDelete.Marshal (SubStateDelete.mk id)) = Ok (SubStateDelete.mk id))
      as -> by (apply (unmarshal_ok SubStateDelete.codec); by apply delete_ok).
    eexists; split_and!; [done|done|cbn; case_match; lia|by intros ? [|]].
  - assert (unmarshal SubStateUpdate.codec (SubStateUpdate.Marshal (SubStateUpdate.mk id q)) = Ok (SubStateUpdate.mk id q))
      as -> by (apply (unmarshal_ok SubStateUpdate.codec), update_ok; apply He).
    eexists; split_and!; [done|done|done|by intros ? [|]].
  - assert (unmarshal SubStateUpdate.codec (SubStateUpdate.Marshal (SubStateUpdate.mk id q)) = Ok (SubStateUpdate.mk id q))
      as -> by (apply (unmarshal_ok SubStateUpdate.codec), update_ok; apply He).
    eexists; split_and!; [done|done|done|by intros ? [|]].
Qed.

Definition ids_below (ss : FileSubStore) : Prop := forall id, id ∈ dom (subs ss) -> id <= maxSubID ss.

Lemma recover_enc_ids e ss ss' :
  ids_below ss -> subs ss' = effect (subs ss) e -> maxSubID ss <= maxSubID ss' ->
  (forall s, e = ENew s \/ e = EUpdate s -> SubState.ID s <= maxSubID ss') -> ids_below ss'.
Proof.
  intros Hb Hs Hm Hid id. rewrite Hs. destruct e as [s|s|i|i q|i q]; cbn [effect].
  - unfold put_new. rewrite dom_insert. intros [->%elem_of_singleton|Hin]%elem_of_union;
      [apply Hid; by left|specialize (Hb id Hin); lia].
  - unfold put_update. case_match; rewrite dom_insert; (intros [->%elem_of_singleton|Hin]%elem_of_union;
      [apply Hid; by right|specialize (Hb id Hin); lia]).
  - rewrite dom_delete. intros [Hin _]%elem_of_difference. specialize (Hb id Hin). lia.
  - unfold put_msg. case_match eqn:E; [rewrite dom_insert_lookup by eauto|]; intros Hin; specialize (Hb id Hin); lia.
  - unfold put_ack. case_match eqn:E; [rewrite dom_insert_lookup by eauto|]; intros Hin; specialize (Hb id Hin); lia.
Qed.

Lemma replay_log es ss :
  Forall entry_ok es -> ids_below ss ->
  exists ss', replay recover_record (enc <$> es) ss = Ok ss' /\ subs ss' = foldl effect (subs ss) es /\ ids_below ss'.
Proof.
  intros H. revert ss. induction H as [|e es He _ IH]; intros ss Hb; [by exists ss|].
  destruct (recover_enc e ss He) as (ss1 & E & Hs & Hm & Hid).
  assert (ids_below ss1) as Hb1 by by eapply recover_enc_ids.
  destruct (IH ss1 Hb1) as (ss' & E' & Hs' & Hb'). exists ss'. cbn [fmap list_fmap replay foldl].
  rewrite E. cbn [mbind outcome_bind]. by rewrite <- Hs.
Qed.

Local Abbreviation bytes es := (version ++ encode_all poly (enc <$> es)).

(** Recovering a file that holds a log: what [ss'] has on disk is the same log. *)
Lemma recovers_log maxSubs es :
  Forall entry_ok es ->
  exists ss', newFileSubStore opts maxSubs (Some (bytes es)) true = Ok ss' /\ subs ss' = effects es /\
    ids_below ss'.
Proof.
  intros H. unfold newFileSubStore. rewrite openFile_version. cbn [mbind outcome_bind].
  unfold recoverSubscriptions.
  set (b := if 0 <? BufferSize opts then _ else _).
  set (ss := mkStore maxSubs ∅ 0 (reset_writer (bytes es) b) true b 0 0 0 0 false 0).
  assert (disk (file ss) = bytes es) as Hd by (subst ss b; cbn; by destruct (0 <? BufferSize opts)).
  destruct (replay_log es ss H) as (ss1 & E & Hs & Hb).
  { intros id. subst ss. cbn [subs]. by rewrite dom_empty. }
  rewrite Hd. unfold crcTable. rewrite recover_file_whole, E;
    [|apply poly_word|apply Forall_fmap; eapply Forall_impl; [exact H|apply enc_typed]].
  cbn [mbind outcome_bind fst snd]. eexists. split; [done|].
  unfold closeFile, flush. cbn [opened set_file activity]. destruct (negb (activity ss1)); cbn; [done|].
  destruct (DoSync opts || false); done.
Qed.

(** Recovering a file cut at any byte, when incomplete records are removed. *)
Lemma recovers_cut maxSubs es k n :
  TruncateUnexpectedEOF opts = true -> Forall entry_ok es -> (k <= length es)%nat ->
  (length (bytes (take k es)) <= n)%nat ->
  exists j ss', (k <= j <= length es)%nat /\
    newFileSubStore opts maxSubs (Some (take n (bytes es))) true = Ok ss' /\ subs ss' = effects (take j es).
Proof.
  intros Htr H Hk Hn. rewrite length_app in Hn. change (length version) with 4%nat in Hn.
  rewrite take_app_ge by (change (length version) with 4%nat; lia). change (length version) with 4%nat.
  set (n' := (n - 4)%nat). set (w := whole n' (enc <$> es)).
  assert (Forall typed (enc <$> es)) as Hty
    by (apply Forall_fmap; eapply Forall_impl; [exact H|apply enc_typed]).
  exists (length w.1). assert (w.1 = enc <$> take (length w.1) es) as Hw
    by (rewrite fmap_take; apply whole_prefix).
  assert (k <= length w.1 <= length es)%nat as Hj.
  { split.
    - apply (whole_covers poly); [by rewrite length_fmap|]. rewrite fmap_take in Hn. subst n'. lia.
    - rewrite Hw, length_fmap, length_take. lia. }
  unfold newFileSubStore. rewrite openFile_version. cbn [mbind outcome_bind]. unfold recoverSubscriptions.
  set (b := if 0 <? BufferSize opts then _ else _).
  set (ss := mkStore maxSubs ∅ 0 (reset_writer _ b) true b 0 0 0 0 false 0).
  destruct (replay_log (take (length w.1) es) ss) as (ss1 & E & Hs & _).
  { by apply Forall_take. }
  { intros id. subst ss. cbn [subs]. by rewrite dom_empty. }
  destruct (recover_file_torn poly poly_word recover_record (DoCRC opts) (TruncateUnexpectedEOF opts)
    (enc <$> es) ss n' Htr Hty) as (rest & Er & _).
  replace (disk (file ss)) with (version ++ take n' (encode_all poly (enc <$> es)))
    by (subst ss b; cbn; by destruct (0 <? BufferSize opts)).
  unfold crcTable. rewrite Er. fold w.
  assert (replay recover_record w.1 ss = Ok ss1) as -> by (rewrite Hw; exact E).
  cbn [mbind outcome_bind fst snd]. eexists. split; [done|]. split; [done|].
  unfold closeFile, flush. cbn [opened set_file activity]. destruct (negb (activity ss1)); cbn; [done|].
  destruct (DoSync opts || false); done.
Qed.

(** ** The file holds the log

    The first [k] entries are on disk, the others in the buffer. *)
Record log (ss : FileSubStore) (es : list entry) (k : nat) : Prop := {
  log_ok : Forall entry_ok es;
  log_disk : disk (file ss) = bytes (take k es);
  log_contents : contents (file ss) = bytes es;
  log_le : (k <= length es)%nat;
  log_clean : activity ss = false \/ opened ss = false -> k = length es
}.

Lemma contents_flush_if_needed f : contents (flush_if_needed f) = contents f.
Proof.
  unfold flush_if_needed. destruct (buf f) as [b|]; [|done]. destruct (0 <? _); [apply contents_Flush|done].
Qed.

Lemma contents_reset content b : contents (reset_writer content b) = content.
Proof. unfold reset_writer, contents. destruct b; cbn; by rewrite app_nil_r. Qed.

Lemma disk_reset content b : disk (reset_writer content b) = content.
Proof. by destruct b. Qed.

Lemma lockFile_log ss es k :
  log ss es k -> exists ss', lockFile ss = Ok ss' /\ log ss' es k /\ opened ss' = true /\ same_maps ss ss'.
Proof.
  intros H. pose proof H as [H1 H2 H3 H4 H5]. unfold lockFile. destruct (opened ss) eqn:Eo; [by exists ss|].
  rewrite H2, openFile_version. eexists. split; [done|]. split; [|done].
  assert (k = length es) as -> by auto. rewrite firstn_all.
  split; cbn [file set_file activity opened]; [done|..].
  - by rewrite disk_reset, firstn_all.
  - apply contents_reset.
  - done.
  - intros _. done.
Qed.

Lemma flush_log b ss es k :
  log ss es k -> log (flush opts b ss) es (length es) /\ same_maps ss (flush opts b ss) /\
  opened (flush opts b ss) = opened ss.
Proof.
  intros [H1 H2 H3 H4 H5]. unfold flush. destruct (activity ss) eqn:Ea; cbn [negb].
  - split; [|by destruct (_ || _)].
    assert (forall ss', file ss' = flush_if_needed (file ss) -> log ss' es (length es)) as Hl.
    { intros ss' E. split; rewrite ?E, ?disk_flush_if_needed, ?contents_flush_if_needed, ?firstn_all; done. }
    destruct (_ || _); by apply Hl.
  - split; [|done]. assert (k = length es) as -> by auto. by split.
Qed.

Lemma closeFile_log ss es k :
  log ss es k -> log (closeFile opts ss) es (length es) /\ same_maps ss (closeFile opts ss).
Proof.
  intros H. unfold closeFile. destruct (opened ss) eqn:Eo.
  - destruct (flush_log false ss es k H) as ([H1 H2 H3 H4 H5] & Hs & _). split; [|done].
    split; cbn [file set_file disk]; try done.
    rewrite firstn_all in H2. unfold contents. cbn. by rewrite app_nil_r.
  - destruct H as [H1 H2 H3 H4 H5]. assert (k = length es) as -> by auto. done.
Qed.

Lemma make_room_log required ss es k :
  log ss es k ->
  exists k', (k <= k')%nat /\ log (make_room opts required ss) es k' /\ same_maps ss (make_room opts required ss) /\
  opened (make_room opts required ss) = opened ss.
Proof.
  intros H. unfold make_room. destruct (bw ss) as [b|], (buf (file ss)) as [w|]; try (by exists k).
  destruct (_ && _); [|by exists k]. exists (length es). split; [apply H|]. split; [|done].
  destruct H as [H1 H2 H3 H4 H5]. split; cbn [file set_file expand disk]; try done.
  - by rewrite disk_flush_if_needed, firstn_all.
  - unfold contents. cbn. by rewrite app_nil_r, disk_flush_if_needed.
Qed.

Lemma check_shrink_same ss :
  file (check_shrink ss) = file ss /\ opened (check_shrink ss) = opened ss /\ same_maps ss (check_shrink ss).
Proof.
  unfold check_shrink. destruct (bw ss) as [b|], (buf (file ss)) as [w|]; try done. by destruct (shrinkReq b).
Qed.

Lemma count_same recType n ss :
  file (count recType n ss) = file ss /\ opened (count recType n ss) = opened ss /\
  activity (count recType n ss) = true /\ same_maps ss (count recType n ss).
Proof. unfold count. repeat case_match; done. Qed.

Lemma encode_all_snoc es e : bytes (es ++ [e]) = bytes es ++ encode (MakeTable poly) (enc e).1 (enc e).2.
Proof.
  rewrite fmap_app, encode_all_app, <- app_assoc. f_equal. unfold encode_all. cbn. by rewrite app_nil_r.
Qed.

(** Writing a record appends its entry to the log. *)
Lemma writeRecord_log {A : Type} (c : codec A) recType rec e ss es k :
  enc e = (recType, c_put c rec) -> entry_ok e -> c_size c rec = Z.of_nat (length (c_put c rec)) ->
  log ss es k ->
  exists ss' k', writeRecord opts recType c rec ss = Ok ss' /\ log ss' (es ++ [e]) k' /\ (k <= k')%nat /\
    same_maps ss ss'.
Proof.
  intros Ee He Hsz Hlog. unfold writeRecord.
  destruct (lockFile_log ss es k Hlog) as (ss1 & -> & Hl1 & Ho1 & Hs1). cbn [mbind outcome_bind].
  destruct (make_room_log (c_size c rec + recordHeaderSize) ss1 es k Hl1) as (k2 & Hk2 & Hl2 & Hs2 & Ho2).
  set (ss2 := make_room opts _ ss1) in *.
  pose proof (enc_typed e He) as Hty. rewrite Ee in Hty.
  destruct (writeRecord_spec poly c (file ss2) recType rec Hsz Hty) as (w & E & Hc & Hd).
  unfold crcTable. rewrite E. cbn [mbind outcome_bind fst snd].
  set (ss3 := set_file w (opened ss2) (bw ss2) ss2).
  destruct (check_shrink_same ss3) as (Hf4 & Ho4 & Hs4).
  destruct (count_same recType (Z.of_nat (8 + length (c_put c rec))) (check_shrink ss3)) as (Hf5 & Ho5 & Ha5 & Hs5).
  assert (same_maps ss (count recType (Z.of_nat (8 + length (c_put c rec))) (check_shrink ss3))) as Hsame.
  { etransitivity; [exact Hs1|]. etransitivity; [exact Hs2|]. etransitivity; [|exact Hs5].
    etransitivity; [|exact Hs4]. done. }
  destruct Hl2 as [L1 L2 L3 L4 L5].
  assert (contents w = bytes (es ++ [e])) as Hc'.
  { rewrite Hc, encode_all_snoc, Ee, L3. done. }
  assert (exists k', (k <= k')%nat /\ (k' <= length (es ++ [e]))%nat /\ disk w = bytes (take k' (es ++ [e]))) as (k' & Hk & Hk' & Hdk).
  { rewrite length_app. destruct Hd as [Hd|[Hd|Hd]]; rewrite Hd.
    - exists k2. split_and!; [lia|simpl; lia|]. by rewrite take_app_le.
    - exists (length es). split_and!; [simpl; lia..|]. by rewrite take_app_length.
    - exists (length (es ++ [e])). rewrite firstn_all, length_app. split_and!; [simpl; lia..|done]. }
  eexists _, k'. split; [done|]. split; [|done].
  assert (file (count recType (Z.of_nat (8 + length (c_put c rec))) (check_shrink ss3)) = w) as Hw
    by (rewrite Hf5, Hf4; done).
  split; rewrite ?Hw; try done.
  - apply Forall_app. split; [done|]. by apply Forall_singleton.
  - rewrite Ho5, Ho4, Ha5. change (opened ss3) with (opened ss2). rewrite Ho2, Ho1. by intros [|].
Qed.

(** ** Compaction keeps the meaning of the log *)

(** A subscription that can be written at any time, whatever it was sent. *)
Record sub_ok (id : Z) (s : subscription) : Prop := {
  sub_id : SubState.ID (sub s) = id;
  sub_typed : c_typed SubState.codec (sub s);
  sub_size seqno : is_u64 seqno -> SubState.Size (with_LastSent seqno (sub s)) <= max_record;
  sub_seqnos seqno : seqno ∈ seqnos s -> is_u64 seqno /\ seqno <= SubState.LastSent (sub s)
}.

Definition subs_ok (m : gmap Z subscription) : Prop := map_Forall sub_ok m.

Lemma with_LastSent_same s : with_LastSent (SubState.LastSent s) s = s.
Proof. by destruct s. Qed.

Lemma typed_LastSent s : c_typed SubState.codec s -> is_u64 (SubState.LastSent s) /\ is_u64 (SubState.ID s).
Proof.
  cbn [c_typed SubState.codec]. rewrite Forall_forall. intros H. unfold SubState.fields in H.
  split; [eapply (H (Uint64 9 _ _))|eapply (H (Uint64 1 _ _))]; [do 8 right; left|left].
Qed.

Lemma sub_ok_state id s : sub_ok id s -> state_ok (sub s).
Proof.
  intros [H1 H2 H3 H4]. split; [done|]. rewrite <- (with_LastSent_same (sub s)). apply H3.
  by apply typed_LastSent.
Qed.

(** What compaction writes. *)
Definition compacted_sub (s : subscription) (l : list Z) : list entry :=
  ENew (sub s) :: (EMsg (SubState.ID (sub s)) <$> l).

Context `{!RangeOrder Z}.

Definition compacted (l : list (Z * subscription)) : list entry :=
  l ≫= fun x => compacted_sub x.2 (order (seqnos x.2)).

Lemma put_msgs id sb (l : list Z) (acc : gset Z) m :
  (forall q, q ∈ l -> q <= SubState.LastSent sb) ->
  foldl effect (<[id := mkSubscription sb acc]> m) (EMsg id <$> l) =
  <[id := mkSubscription sb (list_to_set l ∪ acc)]> m.
Proof.
  revert acc. induction l as [|q l IH]; intros acc Hl; [simpl; by rewrite union_empty_l_L|].
  cbn [fmap list_fmap foldl effect]. unfold put_msg. rewrite lookup_insert_eq. cbn [sub seqnos].
  destruct (Z.ltb_spec (SubState.LastSent sb) q); [specialize (Hl q ltac:(left)); lia|].
  rewrite insert_insert_eq. rewrite IH by (intros; apply Hl; by right). do 2 f_equal. simpl.
  by rewrite (union_assoc_L (list_to_set l)), (union_comm_L (list_to_set l)).
Qed.

Lemma effects_compacted_sub id s m :
  sub_ok id s -> foldl effect m (compacted_sub s (order (seqnos s))) = <[id := s]> m.
Proof.
  intros [H1 H2 H3 H4]. cbn [compacted_sub foldl effect]. unfold put_new. rewrite H1, put_msgs.
  - f_equal. destruct s as [sb qs]. cbn [sub seqnos] in *. f_equal. rewrite union_empty_r_L.
    apply set_eq. intros q. by rewrite elem_of_list_to_set, elem_of_order.
  - intros q Hq. rewrite elem_of_order in Hq. by apply H4.
Qed.

Lemma effects_compacted_list l m :
  NoDup l.*1 -> (forall x, x ∈ l -> sub_ok x.1 x.2) -> (forall x, x ∈ l -> m !! x.1 = None) ->
  foldl effect m (compacted l) = list_to_map l ∪ m.
Proof.
  revert m. induction l as [|[id s] l IH]; intros m Hn Hok Hm; [simpl; by rewrite map_empty_union|].
  apply NoDup_cons in Hn as [Hni Hn]. unfold compacted. rewrite bind_cons, foldl_app. cbn [snd].
  rewrite (effects_compacted_sub id) by (apply (Hok (id, s)); left). fold (compacted l).
  rewrite IH; [|done|intros; apply Hok; by right|].
  - cbn [list_to_map foldr curry]. simpl. rewrite <- insert_union_r, insert_union_l; [done|].
    by apply not_elem_of_list_to_map_1.
  - intros x Hx. rewrite lookup_insert_ne; [apply Hm; by right|].
    intros ->. apply Hni. apply list_elem_of_fmap. by exists x.
Qed.

Lemma effects_compacted m : subs_ok m -> effects (compacted (range m)) = m.
Proof.
  intros Hm. unfold effects. rewrite effects_compacted_list.
  - rewrite map_union_empty. rewrite <- (list_to_map_to_list m) at 2.
    apply list_to_map_proper; [apply NoDup_range_fst|apply range_perm].
  - apply NoDup_range_fst.
  - intros [id s] Hx. apply elem_of_range in Hx. by apply Hm.
  - intros x _. apply lookup_empty.
Qed.

Lemma compacted_ok m : subs_ok m -> Forall entry_ok (compacted (range m)).
Proof.
  intros Hm. apply Forall_bind, Forall_forall. intros [id s] Hx%elem_of_range. specialize (Hm id s Hx).
  cbn [snd]. unfold compacted_sub. constructor; [by eapply sub_ok_state|].
  apply Forall_fmap, Forall_forall. intros q Hq%elem_of_order. cbn. destruct Hm as [H1 H2 H3 H4].
  split; [by apply typed_LastSent|by apply H4].
Qed.

Lemma writeRecordTo_log {A : Type} (c : codec A) recType rec e x es :
  enc e = (recType, c_put c rec) -> entry_ok e -> c_size c rec = Z.of_nat (length (c_put c rec)) ->
  contents x.1 = bytes es ->
  exists x', writeRecordTo opts recType c rec x = Ok x' /\ contents x'.1 = bytes (es ++ [e]) /\ same_maps x.2 x'.2.
Proof.
  intros Ee He Hsz Hc. pose proof (enc_typed e He) as Hty. rewrite Ee in Hty.
  destruct (writeRecord_spec poly c x.1 recType rec Hsz Hty) as (w & E & Hw & _).
  unfold writeRecordTo, crcTable. rewrite E. eexists. split; [done|]. cbn [fst snd].
  rewrite Hw, Hc, encode_all_snoc, Ee. split; [done|]. apply count_same.
Qed.

Lemma compact_seqnos_log id l x es :
  is_u64 id -> (forall q, q ∈ l -> is_u64 q) -> contents x.1 = bytes es ->
  exists x', compact_seqnos opts id l x = Ok x' /\ contents x'.1 = bytes (es ++ (EMsg id <$> l)) /\
    same_maps x.2 x'.2.
Proof.
  intros Hid. revert x es. induction l as [|q l IH]; intros x es Hl Hc.
  { exists x. by rewrite app_nil_r. }
  cbn [compact_seqnos]. assert (is_u64 q) as Hq by (apply Hl; left).
  destruct (writeRecordTo_log SubStateUpdate.codec subRecMsg (SubStateUpdate.mk id q) (EMsg id q) x es)
    as (x1 & -> & Hc1 & Hs1); [done|done|by apply (encoded_size SubStateUpdate.codec), update_ok|done|].
  destruct (IH x1 (es ++ [EMsg id q])) as (x2 & E & Hc2 & Hs2); [intros; apply Hl; by right|done|].
  exists x2. cbn [mbind outcome_bind]. rewrite E, Hc2. split_and!; [done|by rewrite <- app_assoc|].
  by etransitivity.
Qed.

Lemma compact_subs_log l x es :
  (forall y, y ∈ l -> sub_ok y.1 y.2) -> contents x.1 = bytes es ->
  exists x', compact_subs opts l x = Ok x' /\ contents x'.1 = bytes (es ++ compacted l) /\ same_maps x.2 x'.2.
Proof.
  revert x es. induction l as [|[id s] l IH]; intros x es Hl Hc.
  { exists x. by rewrite app_nil_r. }
  assert (sub_ok id s) as Hs by (apply (Hl (id, s)); left). pose proof (sub_ok_state id s Hs) as Hst.
  cbn [compact_subs].
  destruct (writeRecordTo_log SubState.codec subRecNew (sub s) (ENew (sub s)) x es)
    as (x1 & -> & Hc1 & Hs1); [done|done|by apply (encoded_size SubState.codec)|done|].
  cbn [mbind outcome_bind].
  destruct (compact_seqnos_log (SubState.ID (sub s)) (order (seqnos s)) x1 (es ++ [ENew (sub s)]))
    as (x2 & -> & Hc2 & Hs2); [by apply typed_LastSent, Hst| |done|].
  { intros q Hq%elem_of_order. by apply Hs. }
  destruct (IH x2 ((es ++ [ENew (sub s)]) ++ (EMsg (SubState.ID (sub s)) <$> order (seqnos s)))) as (x3 & E & Hc3 & Hs3);
    [intros; apply Hl; by right|done|].
  exists x3. cbn [mbind outcome_bind]. rewrite E, Hc3. split_and!; [done| |].
  - unfold compacted. rewrite bind_cons. unfold compacted_sub at 2. cbn [snd]. by rewrite <- !app_assoc.
  - etransitivity; [exact Hs1|]. by etransitivity.
Qed.

Lemma compact_log now ss :
  subs_ok (subs ss) ->
  exists ss', compact opts now ss = Ok ss' /\
    log ss' (compacted (range (subs ss))) (length (compacted (range (subs ss)))) /\ same_maps ss ss'.
Proof.
  intros Hok. unfold compact.
  destruct (compact_subs_log (range (subs ss))
    (mkIO (Ints.WriteInt [] fileVersion) (Some (NewWriterSize defaultBufSize)), set_counts 0 0 0 ss) [])
    as (x & -> & Hc & Hs).
  - intros [id s] Hx%elem_of_range. by apply Hok.
  - done.
  - eexists. split; [done|]. cbn [mbind outcome_bind].
    split; [|by etransitivity; [|exact Hs]].
    split; cbn [file set_file set_compactTS disk]; try done.
    + by apply compacted_ok.
    + by rewrite disk_Flush, Hc, firstn_all.
    + unfold contents. cbn. by rewrite app_nil_r, disk_Flush, Hc.
Qed.

(** Compaction, where the store decides on it. *)
Lemma try_compact_log now ss es k :
  subs_ok (subs ss) -> log ss es k ->
  exists ss' es' k', try_compact opts now ss = Ok ss' /\ log ss' es' k' /\ same_maps ss ss' /\
    (es' = es /\ k' = k \/ es' = compacted (range (subs ss)) /\ k' = length es').
Proof.
  intros Hok Hl. unfold try_compact. destruct (shouldCompact opts now ss); [|exists ss, es, k; split_and!; [done..|by left]].
  destruct (closeFile_log ss es k Hl) as [_ Hs].
  destruct (compact_log now (closeFile opts ss)) as (ss' & E & Hl' & Hs'); [by rewrite (proj1 Hs)|].
  rewrite (proj1 Hs) in Hl'.
  eexists ss', _, _. split; [done|]. split; [exact Hl'|]. split; [by etransitivity|]. by right.
Qed.
End Log.

(** ** Operations and crashes *)

Inductive op :=
| Create (s : SubState.t)
| Update (s : SubState.t)
| Delete (now subid : Z)
| Add (subid seqno : Z)
| Ack (now subid seqno : Z)
| DoFlush
| CloseFd     (* the files manager closes the file *)
| Shrink      (* the timers *)
| Sync.

(** The abstract store: the subscriptions and the highest ID. *)
Definition mem : Type := gmap Z subscription * Z.

Definition spec (maxSubs : Z) (x : mem) (o : op) : mem :=
  match o with
  | Create s =>
      match SubStore.createSub (SubStore.mkSubStore maxSubs (dom x.1) x.2) with
      | (inl id, g) => (put_new (with_ID id s) x.1, SubStore.maxSubID g)
      | (inr _, _) => x
      end
  | Update s => (put_update s x.1, x.2)
  | Delete _ subid => (delete subid x.1, x.2)
  | Add subid seqno => (put_msg subid seqno x.1, x.2)
  | Ack _ subid seqno => (put_ack subid seqno x.1, x.2)
  | DoFlush | CloseFd | Shrink | Sync => x
  end.

Definition spec_all (maxSubs : Z) (ops : list op) : mem := foldl (spec maxSubs) (∅, 0) ops.

(** Arguments have the types of the code, and records stay below 16 MB.  A subscription is
    updated with a last message that is not before its pending messages. *)
Definition op_ok (x : mem) (o : op) : Prop :=
  match o with
  | Create s => c_typed SubState.codec s /\ SubState.Size s + 22 <= max_record
  | Update s =>
      c_typed SubState.codec s /\ SubState.Size s + 11 <= max_record /\
      forall s', x.1 !! SubState.ID s = Some s' -> forall q, q ∈ seqnos s' -> q <= SubState.LastSent s
  | Delete _ subid => is_u64 subid
  | Add subid seqno | Ack _ subid seqno => is_u64 subid /\ is_u64 seqno
  | _ => True
  end.

Fixpoint ops_ok (maxSubs : Z) (x : mem) (ops : list op) : Prop :=
  match ops with
  | [] => True
  | o :: ops' => op_ok x o /\ ops_ok maxSubs (spec maxSubs x o) ops'
  end.

(** How many operations there were when the store was last flushed. *)
Definition is_flush (o : op) : bool := match o with DoFlush => true | _ => false end.
Definition flushed (ops : list op) : nat :=
  (foldl (fun x o => (S x.1, if is_flush o then S x.1 else x.2)) (0%nat, 0%nat) ops).2.

Lemma ops_ok_snoc maxSubs x ops o :
  ops_ok maxSubs x (ops ++ [o]) -> ops_ok maxSubs x ops /\ op_ok (foldl (spec maxSubs) x ops) o.
Proof.
  revert x. induction ops as [|o' ops IH]; intros x; cbn [app ops_ok foldl]; [intros [? _]; done|].
  intros [H1 [H2 H3]%IH]. done.
Qed.

Lemma spec_all_snoc maxSubs ops o : spec_all maxSubs (ops ++ [o]) = spec maxSubs (spec_all maxSubs ops) o.
Proof. unfold spec_all. by rewrite foldl_app. Qed.

Lemma flushed_count ops :
  (foldl (fun x o => (S x.1, if is_flush o then S x.1 else x.2)) (0%nat, 0%nat) ops).1 = length ops.
Proof.
  induction ops as [|o ops IH] using rev_ind; [done|]. rewrite foldl_app, length_app. cbn [foldl fst].
  rewrite IH. simpl. lia.
Qed.

Lemma flushed_snoc ops o : flushed (ops ++ [o]) = if is_flush o then S (length ops) else flushed ops.
Proof. unfold flushed. rewrite foldl_app. cbn [foldl snd]. by rewrite flushed_count. Qed.

Lemma flushed_le ops : (flushed ops <= length ops)%nat.
Proof.
  induction ops as [|o ops IH] using rev_ind; [done|]. rewrite flushed_snoc, length_app.
  destruct (is_flush o); simpl; lia.
Qed.

(** Every part of the log that may be on disk is the store at an operation since the last
    flush. *)
Definition history (maxSubs : Z) (es : list entry) (k : nat) (ops : list op) : Prop :=
  effects es = (spec_all maxSubs ops).1 /\
  forall j, (k <= j <= length es)%nat -> exists n, (flushed ops <= n <= length ops)%nat /\
    effects (take j es) = (spec_all maxSubs (take n ops)).1.

Lemma history_full maxSubs es ops :
  effects es = (spec_all maxSubs ops).1 -> history maxSubs es (length es) ops.
Proof.
  intros E. split; [done|]. intros j Hj. exists (length ops). rewrite !firstn_all2 by lia.
  split; [|done]. pose proof (flushed_le ops). lia.
Qed.

Lemma history_mono maxSubs es k k' ops : (k <= k')%nat -> history maxSubs es k ops -> history maxSubs es k' ops.
Proof. intros Hk [E H]. split; [done|]. intros j Hj. apply H. lia. Qed.

Lemma take_old {A : Type} n (l : list A) x : (n <= length l)%nat -> take n (l ++ [x]) = take n l.
Proof. intros H. by rewrite take_app_le. Qed.

Lemma history_same maxSubs es k ops o :
  is_flush o = false -> (spec_all maxSubs (ops ++ [o])).1 = (spec_all maxSubs ops).1 ->
  history maxSubs es k ops -> history maxSubs es k (ops ++ [o]).
Proof.
  intros Ho E [E0 H]. split; [congruence|]. intros j Hj. destruct (H j Hj) as (n & Hn & En).
  exists n. rewrite flushed_snoc, Ho, length_app, take_old by lia. split; [simpl; lia|done].
Qed.

Lemma history_snoc maxSubs es e k k' ops o :
  is_flush o = false -> (spec_all maxSubs (ops ++ [o])).1 = effect (spec_all maxSubs ops).1 e ->
  (k <= k')%nat -> history maxSubs es k ops -> history maxSubs (es ++ [e]) k' (ops ++ [o]).
Proof.
  intros Ho E Hk [E0 H]. assert (effects (es ++ [e]) = (spec_all maxSubs (ops ++ [o])).1) as E1.
  { unfold effects. rewrite foldl_app. cbn [foldl]. fold (effects es). by rewrite E0, E. }
  split; [done|]. intros j Hj. rewrite length_app in Hj. destruct (decide (j <= length es)%nat) as [Hle|Hgt].
  - destruct (H j) as (n & Hn & En); [lia|]. exists n. rewrite flushed_snoc, Ho, length_app, !take_old by lia.
    split; [simpl; lia|done].
  - exists (length (ops ++ [o])). rewrite !firstn_all2 by (rewrite ?length_app; simpl in *; lia).
    split; [|done]. pose proof (flushed_le (ops ++ [o])). lia.
Qed.

(** ** What operations preserve *)

Lemma Size_with_LastSent q s : SubState.Size (with_LastSent q s) <= SubState.Size s + 11.
Proof.
  destruct s. unfold SubState.Size, message_size. cbn -[size_int size_bytes].
  pose proof (size_int_bound q). pose proof (size_int_nonneg LastSent). lia.
Qed.

Lemma Size_with_ID id s : SubState.Size (with_ID id s) <= SubState.Size s + 11.
Proof.
  destruct s. unfold SubState.Size, message_size. cbn -[size_int size_bytes].
  pose proof (size_int_bound id). pose proof (size_int_nonneg ID). lia.
Qed.

Lemma typed_with_LastSent q s :
  is_u64 q -> c_typed SubState.codec s -> c_typed SubState.codec (with_LastSent q s).
Proof.
  intros Hq. destruct s. cbn [c_typed SubState.codec with_LastSent]. unfold SubState.fields.
  rewrite !Forall_cons. naive_solver.
Qed.

Lemma typed_with_ID id s :
  is_u64 id -> c_typed SubState.codec s -> c_typed SubState.codec (with_ID id s).
Proof.
  intros Hq. destruct s. cbn [c_typed SubState.codec with_ID]. unfold SubState.fields.
  rewrite !Forall_cons. naive_solver.
Qed.

Lemma ID_with_ID id s : SubState.ID (with_ID id s) = id.
Proof. by destruct s. Qed.
Lemma ID_with_LastSent q s : SubState.ID (with_LastSent q s) = SubState.ID s.
Proof. by destruct s. Qed.
Lemma LastSent_with_LastSent q s : SubState.LastSent (with_LastSent q s) = q.
Proof. by destruct s. Qed.
Lemma with_LastSent_twice q q' s : with_LastSent q (with_LastSent q' s) = with_LastSent q s.
Proof. by destruct s. Qed.

Lemma subs_ok_insert m id s : subs_ok m -> sub_ok id s -> subs_ok (<[id := s]> m).
Proof. intros Hm Hs. by apply map_Forall_insert_2. Qed.

Lemma subs_ok_spec maxSubs x o : op_ok x o -> subs_ok x.1 -> subs_ok (spec maxSubs x o).1.
Proof.
  intros Ho Hx. destruct o as [s|s|now id|id q|now id q| | | |]; cbn [op_ok spec] in *; try done.
  - unfold SubStore.createSub. destruct (SubStore.full _); [done|]. cbn [fst].
    set (id := u64 _). assert (is_u64 id) as Hid by apply u64_range. destruct Ho as [Ht Hs].
    apply subs_ok_insert; [done|]. rewrite ID_with_ID. split; cbn [sub seqnos].
    + apply ID_with_ID.
    + by apply typed_with_ID.
    + intros q Hq. pose proof (Size_with_LastSent q (with_ID id s)). pose proof (Size_with_ID id s). lia.
    + intros q Hq. by apply elem_of_empty in Hq.
  - destruct Ho as (Ht & Hs & Hq). cbn [fst].
    assert (forall qs : gset Z, (forall q, q ∈ qs -> is_u64 q /\ q <= SubState.LastSent s) ->
      sub_ok (SubState.ID s) (mkSubscription s qs)) as Hmk.
    { intros qs Hqs. split; cbn [sub seqnos]; [done|done| |done].
      intros q Hq'. pose proof (Size_with_LastSent q s). lia. }
    unfold put_update. destruct (x.1 !! SubState.ID s) as [s'|] eqn:E; apply subs_ok_insert; auto; apply Hmk.
    + intros q Hin. split; [by eapply Hx|by eapply Hq].
    + intros q Hin. by apply elem_of_empty in Hin.
  - by apply map_Forall_delete.
  - destruct Ho as [Hid Hq]. cbn [fst]. unfold put_msg. destruct (x.1 !! id) as [s|] eqn:E; [|done].
    destruct (Hx id s E) as [H1 H2 H3 H4]. apply subs_ok_insert; [done|].
    destruct (Z.ltb_spec (SubState.LastSent (sub s)) q); split; cbn [sub seqnos]; try done.
    + by rewrite ID_with_LastSent.
    + by apply typed_with_LastSent.
    + intros q' Hq'. rewrite with_LastSent_twice. by apply H3.
    + intros q' [->%elem_of_singleton|Hin]%elem_of_union; rewrite LastSent_with_LastSent; [done|].
      destruct (H4 q' Hin). split; [done|lia].
    + intros q' [->%elem_of_singleton|Hin]%elem_of_union; [done|by apply H4].
  - destruct Ho as [Hid Hq]. cbn [fst]. unfold put_ack. destruct (x.1 !! id) as [s|] eqn:E; [|done].
    destruct (Hx id s E) as [H1 H2 H3 H4]. apply subs_ok_insert; [done|]. split; cbn [sub seqnos]; try done.
    intros q' [Hin _]%elem_of_difference. by apply H4.
Qed.

Section Runs.
Context (opts : FileStoreOptions) (Hopts : valid opts) `{!RangeOrder Z} (maxSubs : Z).

Definition exec (ss : FileSubStore) (o : op) : outcome rec_error FileSubStore :=
  match o with
  | Create s => r ← CreateSub opts s ss; Ok r.2
  | Update s => UpdateSub opts s ss
  | Delete now subid => r ← DeleteSub opts now subid ss; Ok r.1
  | Add subid seqno => AddSeqPending opts subid seqno ss
  | Ack now subid seqno => AckSeqPending opts now subid seqno ss
  | DoFlush => Flush opts ss
  | CloseFd => Ok (closeFile opts ss)
  | Shrink => Ok (shrinkBuffer ss)
  | Sync => Ok (autoSync opts ss)
  end.

Fixpoint exec_all (ss : FileSubStore) (ops : list op) : outcome rec_error FileSubStore :=
  match ops with [] => Ok ss | o :: ops' => ss ← exec ss o; exec_all ss ops' end.

Lemma exec_all_snoc ss ops o : exec_all ss (ops ++ [o]) = (ss' ← exec_all ss ops; exec ss' o).
Proof.
  revert ss. induction ops as [|o' ops IH]; intros ss; cbn [app exec_all].
  - cbn [mbind outcome_bind]. by destruct (exec ss o).
  - destruct (exec ss o'); cbn [mbind outcome_bind]; [apply IH|done|done].
Qed.

(** The store after [ops]. *)
Record inv (ops : list op) (ss : FileSubStore) : Prop := {
  inv_maps : subs ss = (spec_all maxSubs ops).1 /\ maxSubID ss = (spec_all maxSubs ops).2 /\
             maxSubscriptions ss = maxSubs;
  inv_ok : subs_ok (subs ss);
  inv_log : exists es k, log opts ss es k /\ history maxSubs es k ops
}.

Lemma log_ext ss ss' es k :
  file ss' = file ss -> activity ss' = activity ss -> opened ss' = opened ss -> log opts ss es k -> log opts ss' es k.
Proof. intros E1 E2 E3 [H1 H2 H3 H4 H5]. split; rewrite ?E1, ?E2, ?E3; done. Qed.

(** An operation without a record. *)
Lemma inv_same ops o ss ss' :
  is_flush o = false -> spec_all maxSubs (ops ++ [o]) = spec_all maxSubs ops -> same_maps ss ss' ->
  (forall es k, log opts ss es k -> exists k', (k <= k')%nat /\ log opts ss' es k') ->
  inv ops ss -> inv (ops ++ [o]) ss'.
Proof.
  intros Ho E (S1 & S2 & S3) Hl [H1 H2 (es & k & H3 & H4)]. destruct (Hl es k H3) as (k' & Hk & Hl').
  split; rewrite ?S1, ?S2, ?S3, ?E; try done. exists es, k'. split; [done|].
  apply history_same; [done|by rewrite E|]. by eapply history_mono.
Qed.

(** An operation with a record, and then perhaps a compaction. *)
Lemma inv_record {A : Type} (c : codec A) recType rec e ops o ss ss0 (f : FileSubStore -> FileSubStore) now compacts :
  is_flush o = false -> op_ok (spec_all maxSubs ops) o ->
  enc e = (recType, c_put c rec) -> entry_ok e -> c_size c rec = Z.of_nat (length (c_put c rec)) ->
  (spec_all maxSubs (ops ++ [o])).1 = effect (spec_all maxSubs ops).1 e ->
  file ss0 = file ss -> activity ss0 = activity ss -> opened ss0 = opened ss ->
  (forall ss1, same_maps ss0 ss1 ->
     subs (f ss1) = (spec_all maxSubs (ops ++ [o])).1 /\ maxSubID (f ss1) = (spec_all maxSubs (ops ++ [o])).2 /\
     maxSubscriptions (f ss1) = maxSubs /\ file (f ss1) = file ss1 /\ activity (f ss1) = activity ss1 /\
     opened (f ss1) = opened ss1) ->
  inv ops ss ->
  exists ss1 ss', writeRecord opts recType c rec ss0 = Ok ss1 /\ same_maps ss0 ss1 /\
    (if compacts : bool then try_compact opts now (f ss1) else Ok (f ss1)) = Ok ss' /\ inv (ops ++ [o]) ss'.
Proof.
  intros Ho Hok Ee He Hsz E F1 F2 F3 Hf [H1 H2 (es & k & H3 & H4)].
  destruct (writeRecord_log opts c recType rec e ss0 es k Ee He Hsz) as (ss1 & k1 & Ew & Hl1 & Hk1 & Hs1);
    [by apply (log_ext ss)|].
  destruct (Hf ss1 Hs1) as (M1 & M2 & M3 & M4 & M5 & M6).
  assert (subs_ok (subs (f ss1))) as Hok1.
  { rewrite M1, spec_all_snoc. apply subs_ok_spec; [done|]. by rewrite <- (proj1 H1). }
  assert (log opts (f ss1) (es ++ [e]) k1) as Hl2 by by apply (log_ext ss1).
  assert (history maxSubs (es ++ [e]) k1 (ops ++ [o])) as Hh by by eapply history_snoc.
  exists ss1. destruct compacts.
  - destruct (try_compact_log opts now (f ss1) _ _ Hok1 Hl2) as (ss' & es' & k' & Et & Hl' & (S1 & S2 & S3) & Hc).
    exists ss'. split_and!; [done|done|done|]. split; rewrite ?S1, ?S2, ?S3; try done.
    exists es', k'. split; [done|]. destruct Hc as [[-> ->]|[-> ->]]; [done|].
    apply history_full. by rewrite effects_compacted.
  - exists (f ss1). split_and!; [done|done|done|]. split; try done. by exists (es ++ [e]), k1.
Qed.

Lemma shrinkBuffer_log ss es k :
  log opts ss es k -> exists k', (k <= k')%nat /\ log opts (shrinkBuffer ss) es k'.
Proof.
  intros H. unfold shrinkBuffer. destruct (opened ss) eqn:Eo; cbn [negb]; [|by exists k].
  destruct (bw ss) as [b|], (buf (file ss)) as [w|]; try (by exists k). unfold tryShrinkBuffer.
  destruct (bufSize b =? minShrinkSize b); [exists k; split; [done|]; by apply (log_ext ss)|].
  destruct (negb (shrinkReq b)); [exists k; split; [done|]; by apply (log_ext ss)|].
  exists (length es). destruct H as [H1 H2 H3 H4 H5]. split; [done|].
  split; cbn [file set_file disk]; try done.
  - by rewrite disk_Flush, firstn_all.
  - unfold contents. cbn. by rewrite app_nil_r, disk_Flush.
Qed.

Lemma shrinkBuffer_maps ss : same_maps ss (shrinkBuffer ss).
Proof.
  unfold shrinkBuffer. destruct (negb (opened ss)), (bw ss), (buf (file ss)); try done. by destruct (tryShrinkBuffer _ _ _).
Qed.

Lemma autoSync_log ss es k :
  log opts ss es k -> exists k', (k <= k')%nat /\ log opts (autoSync opts ss) es k' /\ same_maps ss (autoSync opts ss).
Proof.
  intros H. unfold autoSync. destruct (activity ss); [|by exists k].
  destruct (lockFile_log opts ss es k H) as (ss1 & -> & H1 & _ & S1).
  destruct (flush_log opts true ss1 es k H1) as (H2 & S2 & _). exists (length es).
  split_and!; [apply H|done|by etransitivity].
Qed.

(** Each operation preserves the invariant, and does not fail. *)
Lemma create_inv ops s ss :
  op_ok (spec_all maxSubs ops) (Create s) -> inv ops ss ->
  exists ss', exec ss (Create s) = Ok ss' /\ inv (ops ++ [Create s]) ss'.
Proof.
  intros Hok Hinv. pose proof (inv_maps _ _ Hinv) as (S1 & S2 & S3). pose proof Hok as [Ht Hs].
  pose proof (spec_all_snoc maxSubs ops (Create s)) as Hsp. cbn [exec spec] in *.
  unfold CreateSub, generic. rewrite S1, S2, S3.
  destruct (SubStore.createSub _) as [[id|e] g] eqn:Ec; cbn [mbind outcome_bind].
  2: { exists ss. split; [done|]. eapply inv_same; [done|exact Hsp|done|by eauto|done]. }
  assert (is_u64 id) as Hid by (revert Ec; unfold SubStore.createSub; case_match; intros [= <- _]; apply u64_range).
  assert (state_ok (with_ID id s)) as Hst.
  { split; [by apply typed_with_ID|]. pose proof (Size_with_ID id s). lia. }
  destruct (inv_record SubState.codec subRecNew (with_ID id s) (ENew (with_ID id s)) ops (Create s) ss
    (set_max (SubStore.maxSubID g) ss) (fun ss => set_subs (put_new (with_ID id s) (subs ss)) ss) 0 false)
    as (ss1 & ss' & -> & _ & [= <-] & Hi); try done.
  - by apply (encoded_size SubState.codec).
  - by rewrite Hsp.
  - intros ss1 (E1 & E2 & E3). cbn [subs maxSubID maxSubscriptions set_subs file activity opened set_max] in *.
    rewrite E1, E2, E3, Hsp, S1. done.
  - by eexists.
Qed.

Lemma update_inv ops s ss :
  op_ok (spec_all maxSubs ops) (Update s) -> inv ops ss ->
  exists ss', exec ss (Update s) = Ok ss' /\ inv (ops ++ [Update s]) ss'.
Proof.
  intros Hok Hinv. pose proof (inv_maps _ _ Hinv) as (S1 & S2 & S3). pose proof Hok as (Ht & Hs & _).
  pose proof (spec_all_snoc maxSubs ops (Update s)) as Hsp. cbn [exec spec] in *.
  assert (state_ok s) as Hst by (split; [done|lia]).
  destruct (inv_record SubState.codec subRecUpdate s (EUpdate s) ops (Update s) ss ss
    (fun ss => set_subs (put_update s (subs ss)) ss) 0 false) as (ss1 & ss' & E & _ & [= <-] & Hi); try done.
  - by apply (encoded_size SubState.codec).
  - by rewrite Hsp.
  - intros ss1 (E1 & E2 & E3). cbn [subs maxSubID maxSubscriptions set_subs file activity opened] in *.
    rewrite E1, E2, E3, Hsp, S1. done.
  - unfold UpdateSub. rewrite E. by eexists.
Qed.

Lemma add_inv ops id q ss :
  op_ok (spec_all maxSubs ops) (Add id q) -> inv ops ss ->
  exists ss', exec ss (Add id q) = Ok ss' /\ inv (ops ++ [Add id q]) ss'.
Proof.
  intros Hok Hinv. pose proof (inv_maps _ _ Hinv) as (S1 & S2 & S3). pose proof Hok as [Hid Hq].
  pose proof (spec_all_snoc maxSubs ops (Add id q)) as Hsp. cbn [exec spec] in *.
  destruct (inv_record SubStateUpdate.codec subRecMsg (SubStateUpdate.mk id q) (EMsg id q) ops (Add id q) ss ss
    (fun ss => set_subs (put_msg id q (subs ss)) ss) 0 false) as (ss1 & ss' & E & _ & [= <-] & Hi); try done.
  - by apply (encoded_size SubStateUpdate.codec), update_ok.
  - by rewrite Hsp.
  - intros ss1 (E1 & E2 & E3). cbn [subs maxSubID maxSubscriptions set_subs file activity opened] in *.
    rewrite E1, E2, E3, Hsp, S1. done.
  - unfold AddSeqPending. rewrite E. by eexists.
Qed.

Lemma ack_inv ops now id q ss :
  op_ok (spec_all maxSubs ops) (Ack now id q) -> inv ops ss ->
  exists ss', exec ss (Ack now id q) = Ok ss' /\ inv (ops ++ [Ack now id q]) ss'.
Proof.
  intros Hok Hinv. pose proof (inv_maps _ _ Hinv) as (S1 & S2 & S3). pose proof Hok as [Hid Hq].
  pose proof (spec_all_snoc maxSubs ops (Ack now id q)) as Hsp. cbn [exec spec] in *.
  destruct (inv_record SubStateUpdate.codec subRecAck (SubStateUpdate.mk id q) (EAck id q) ops (Ack now id q) ss ss
    (fun ss => set_subs (put_ack id q (subs ss)) ss) now (if decide (is_Some (subs ss !! id)) then true else false))
    as (ss1 & ss' & E & (E1 & _) & Ec & Hi); try done.
  - by apply (encoded_size SubStateUpdate.codec), update_ok.
  - by rewrite Hsp.
  - intros ss1 (E1 & E2 & E3). cbn [subs maxSubID maxSubscriptions set_subs file activity opened] in *.
    rewrite E1, E2, E3, Hsp, S1. done.
  - unfold AckSeqPending. rewrite E. cbn [mbind outcome_bind]. rewrite E1 in *.
    destruct (subs ss !! id) as [s|] eqn:Es; [rewrite decide_True in Ec by eauto; by exists ss'|].
    rewrite decide_False in Ec by (by intros [? ?]). exists ss1. split; [done|]. injection Ec as Ec.
    assert (set_subs (put_ack id q (subs ss)) ss1 = ss1) as Hsame.
    { unfold put_ack. rewrite Es, <- E1. by destruct ss1. }
    by rewrite <- Hsame, Ec.
Qed.

Lemma delete_inv ops now id ss :
  op_ok (spec_all maxSubs ops) (Delete now id) -> inv ops ss ->
  exists ss', exec ss (Delete now id) = Ok ss' /\ inv (ops ++ [Delete now id]) ss'.
Proof.
  intros Hok Hinv. pose proof (inv_maps _ _ Hinv) as (S1 & S2 & S3).
  pose proof (spec_all_snoc maxSubs ops (Delete now id)) as Hsp. cbn [exec spec] in *.
  set (d := match subs ss !! id with Some s => Z.of_nat (size (seqnos s)) | None => 0 end).
  destruct (inv_record SubStateDelete.codec subRecDel (SubStateDelete.mk id) (EDel id) ops (Delete now id) ss ss
    (fun ss => set_counts (fileSize ss) (numRecs ss) (delRecs ss + d) (set_subs (delete id (subs ss)) ss)) now
    (if decide (is_Some (subs ss !! id)) then true else false))
    as (ss1 & ss' & E & (E1 & _) & Ec & Hi); try done.
  - by apply (encoded_size SubStateDelete.codec), delete_ok.
  - by rewrite Hsp.
  - intros ss1 (E1 & E2 & E3). cbn [subs maxSubID maxSubscriptions set_subs set_counts file activity opened] in *.
    rewrite E1, E2, E3, Hsp, S1. done.
  - unfold DeleteSub. rewrite E. cbn [mbind outcome_bind]. rewrite E1 in *. subst d.
    destruct (subs ss !! id) as [s|] eqn:Es.
    + rewrite decide_True in Ec by eauto. rewrite Ec. by exists ss'.
    + rewrite decide_False in Ec by (by intros [? ?]). exists ss1. split; [done|]. injection Ec as Ec.
      assert (set_counts (fileSize ss1) (numRecs ss1) (delRecs ss1 + 0) (set_subs (delete id (subs ss)) ss1) = ss1) as Hsame.
      { rewrite delete_id, <- E1, Z.add_0_r by done. by destruct ss1. }
      by rewrite <- Hsame, Ec.
Qed.

Lemma exec_inv ops o ss :
  op_ok (spec_all maxSubs ops) o -> inv ops ss -> exists ss', exec ss o = Ok ss' /\ inv (ops ++ [o]) ss'.
Proof.
  intros Hok Hinv. pose proof (spec_all_snoc maxSubs ops o) as Hsp.
  destruct o as [s|s|now id|id q|now id q| | | |];
    eauto using create_inv, update_inv, delete_inv, add_inv, ack_inv; cbn [exec spec] in *.
  - destruct Hinv as [(S1 & S2 & S3) Hsub (es & k & Hl & Hh)].
    destruct (lockFile_log opts ss es k Hl) as (ss1 & E & Hl1 & _ & M1).
    destruct (flush_log opts false ss1 es k Hl1) as (Hl2 & M2 & _).
    unfold Flush. rewrite E. eexists. split; [done|].
    assert (same_maps ss (flush opts false ss1)) as (E1 & E2 & E3) by by etransitivity.
    split; rewrite ?E1, ?E2, ?E3, ?Hsp; try done. exists es, (length es). split; [done|].
    apply history_full. rewrite Hsp. apply Hh.
  - eexists. split; [done|]. pose proof (inv_log _ _ Hinv) as (es & k & Hl & _).
    eapply inv_same; [done|exact Hsp|by eapply closeFile_log| |done].
    intros es' k' Hl'. exists (length es'). split; [apply Hl'|by eapply closeFile_log].
  - eexists. split; [done|]. eapply inv_same; [done|exact Hsp|apply shrinkBuffer_maps|apply shrinkBuffer_log|done].
  - eexists. split; [done|]. pose proof (inv_log _ _ Hinv) as (es & k & Hl & _).
    destruct (autoSync_log ss es k Hl) as (_ & _ & _ & M).
    eapply inv_same; [done|exact Hsp|exact M| |done].
    intros es' k' Hl'. destruct (autoSync_log ss es' k' Hl') as (k2 & ? & ? & _). eauto.
Qed.

(** A new store. *)
Definition fresh : outcome rec_error FileSubStore := newFileSubStore opts maxSubs None false.

Lemma fresh_inv : exists ss, fresh = Ok ss /\ inv [] ss.
Proof.
  eexists. split; [done|]. split; [done|by apply map_Forall_empty|]. exists [], 0%nat.
  split; [|by apply (history_full maxSubs [] [])].
  split; cbn [file]; [done|by rewrite disk_reset|by rewrite contents_reset|done|done].
Qed.

Lemma subs_run_inv ops :
  ops_ok maxSubs (∅, 0) ops -> exists ss, (ss ← fresh; exec_all ss ops) = Ok ss /\ inv ops ss.
Proof.
  induction ops as [|o ops IH] using rev_ind; intros Hok.
  { destruct fresh_inv as (ss & E & Hi). exists ss. by rewrite E. }
  apply ops_ok_snoc in Hok as [Hok Ho]. destruct (IH Hok) as (ss & E & Hi).
  destruct fresh_inv as (ss0 & E0 & _). rewrite E0 in *. cbn [mbind outcome_bind] in *.
  rewrite exec_all_snoc, E. cbn [mbind outcome_bind]. by apply exec_inv.
Qed.

(** [C20] A subscription store in a file, after any operations: it holds what the
    operations mean, and recovering its file after a crash, whatever part of the buffer
    reached the disk, gives the subscriptions as they were at some moment since the last
    [Flush], with IDs not above the recovered maximum.  Files closed by the files manager,
    timers and compactions in between do not matter. *)
Theorem subs_crash_safe ops :
  ops_ok maxSubs (∅, 0) ops ->
  exists ss, (ss ← fresh; exec_all ss ops) = Ok ss /\ subs ss = (spec_all maxSubs ops).1 /\
  exists n ss', (flushed ops <= n <= length ops)%nat /\
    newFileSubStore opts maxSubs (Some (disk (file ss))) true = Ok ss' /\
    subs ss' = (spec_all maxSubs (take n ops)).1 /\ ids_below ss'.
Proof.
  intros Hok. destruct (subs_run_inv ops Hok) as (ss & E & [(Hs & _) _ (es & k & Hl & Hh)]).
  exists ss. split; [done|]. split; [done|]. destruct (proj2 Hh k) as (n & Hn & En); [split; [done|apply Hl]|].
  destruct (recovers_log opts Hopts maxSubs (take k es)) as (ss' & E' & Hs' & Hb').
  { apply Forall_take, Hl. }
  exists n, ss'. rewrite (log_disk _ _ _ _ Hl), E', Hs', En. done.
Qed.

(** [C21] When a crash interrupts a write, the file ends anywhere in what was being written.
    With [TruncateUnexpectedEOF] the store still recovers the subscriptions as they were at
    some moment since the last [Flush]. *)
Theorem subs_torn_write ops :
  TruncateUnexpectedEOF opts = true -> ops_ok maxSubs (∅, 0) ops ->
  exists ss, (ss ← fresh; exec_all ss ops) = Ok ss /\
  forall cut, (length (disk (file ss)) <= cut)%nat ->
  exists n ss', (flushed ops <= n <= length ops)%nat /\
    newFileSubStore opts maxSubs (Some (take cut (contents (file ss)))) true = Ok ss' /\
    subs ss' = (spec_all maxSubs (take n ops)).1.
Proof.
  intros Htr Hok. destruct (subs_run_inv ops Hok) as (ss & E & [_ _ (es & k & Hl & Hh)]).
  exists ss. split; [done|]. intros cut Hcut.
  rewrite (log_disk _ _ _ _ Hl) in Hcut. rewrite (log_contents _ _ _ _ Hl).
  destruct (recovers_cut opts Hopts maxSubs es k cut Htr (log_ok _ _ _ _ Hl) (log_le _ _ _ _ Hl) Hcut)
    as (j & ss' & Hj & E' & Hs').
  destruct (proj2 Hh j Hj) as (n & Hn & En). exists n, ss'. by rewrite Hs', En.
Qed.
End Runs.
End FileSubSpec.

(** ** Sample runs *)

Module FileSubSample.
Import Proto Buffer Rec RecSpec FileOptions FileSub FileSubSpec.

#[local] Instance Z_order : RangeOrder Z := default_order Z.

(** Small buffers, compaction as soon as half of the records are free, incomplete records
    removed. *)
Definition small : FileStoreOptions :=
  mkOptions 256 true 1 50 0 true IEEE true 0 0 0 "" 0 1 true 0 0.

Lemma small_valid : valid small.
Proof. split; by vm_compute. Qed.

Definition sub1 : SubState.t := SubState.mk 0 "me" "" "_INBOX.1" "_INBOX.2" 1024 30 "dur" 0 true false.

Definition ops : list op :=
  [Create sub1; Create sub1; Add 1 5; DoFlush; Add 2 6; Ack 3000000000 1 5; CloseFd; Delete 9000000000 2; Add 1 7; Shrink].

Lemma ops_sample_ok : ops_ok 0 (∅, 0) ops.
Proof.
  assert (c_typed SubState.codec sub1 /\ SubState.Size sub1 + 22 <= max_record) as H1.
  { split; [|by vm_compute]. repeat (apply Forall_cons_2; [by vm_compute|]). apply Forall_nil_2. }
  unfold ops. cbn [ops_ok op_ok]. split_and!; try exact I; try exact (proj1 H1); try exact (proj2 H1); by vm_compute.
Qed.

Lemma subs_crash_safe_witness :
  exists ss, (ss ← fresh small 0; exec_all small ss ops) = Ok ss /\ subs ss = (spec_all 0 ops).1 /\
  exists n ss', (flushed ops <= n <= length ops)%nat /\
    newFileSubStore small 0 (Some (disk (file ss))) true = Ok ss' /\
    subs ss' = (spec_all 0 (take n ops)).1 /\ ids_below ss'.
Proof. apply (subs_crash_safe small small_valid 0 ops ops_sample_ok). Defined.

Lemma subs_torn_write_witness :
  exists ss, (ss ← fresh small 0; exec_all small ss ops) = Ok ss /\
  forall cut, (length (disk (file ss)) <= cut)%nat ->
  exists n ss', (flushed ops <= n <= length ops)%nat /\
    newFileSubStore small 0 (Some (take cut (contents (file ss)))) true = Ok ss' /\
    subs ss' = (spec_all 0 (take n ops)).1.
Proof. apply (subs_torn_write small small_valid 0 ops eq_refl ops_sample_ok). Defined.

(** What the next start recovers: the highest ID, or an error. *)
Definition restart (o : FileStoreOptions) (r : outcome rec_error FileSubStore) : outcome rec_error FileSubStore :=
  ss ← r; newFileSubStore o 0 (Some (disk (file ss))) true.

Definition flushed_subs (o : FileStoreOptions) (l : list op) (r : outcome rec_error FileSubStore)
  : outcome rec_error FileSubStore := ss ← r; exec_all o ss (l ++ [DoFlush]).

Definition file_after (l : list op) : list byte :=
  match flushed_subs small l (fresh small 0) with Ok ss => disk (file ss) | _ => [] end.

(** A crash that leaves the header of a record and nothing of its payload is taken for
    the end of the file, which is not truncated: the next record is written after that
    header, and the file cannot be recovered any more, even with [TruncateUnexpectedEOF]. *)
Theorem header_cut_corrupts :
  let one := file_after [Create sub1] in
  let two := file_after [Create sub1; Create sub1] in
  let cut := take (length one + 8) two in
  take (length one) two = one /\
  exists ss, newFileSubStore small 0 (Some cut) true = Ok ss /\ disk (file ss) = cut /\
    restart small (flushed_subs small [Create sub1] (Ok ss)) = Err BadCRC.
Proof.
  split; [vm_compute; reflexivity|]. eexists. split; [vm_compute; reflexivity|].
  split; vm_compute; reflexivity.
Qed.

(** A compaction forgets the highest subscription ID when its subscription was deleted:
    after a restart the ID is given again. *)
Theorem compaction_reuses_id :
  exists ss, restart small (flushed_subs small [Create sub1; Create sub1; Delete 9000000000 2] (fresh small 0)) = Ok ss /\
    maxSubID ss = 1 /\
    (r ← CreateSub small sub1 ss; Ok r.1) = Ok (inl 2).
Proof. eexists. split; [vm_compute; reflexivity|]. vm_compute. done. Qed.
End FileSubSample.
