(* ===== verification/FileClients.v ===== *)
(** * Clients and server information in files

    The part of [FileStore] of src/stores/filestore.go that keeps the clients, in a file
    that is a log of additions and deletions and is compacted, and the identity of the
    server, in a file with one record.  These files are written without a buffer. *)

From Stdlib Require Import ZArith Lia Ascii String.
From stdpp Require Import base list gmap strings.
From S2P Require Import Prelude Bytes Util Crc Proto Spb Records FileSubs.

Local Open Scope Z_scope.

Module FileClient.
Import Crc Proto Buffer Rec FileOptions.

Definition addClient : Z := 1.
Definition delClient : Z := 2.

Record FileStore := mkStore {
  serverFile : list byte;
  clientsFile : list byte;
  clients : gmap string ClientInfo.t;
  cliFileSize : Z;
  cliDeleteRecs : Z;
  cliCompactTS : Z
}.

Section Store.
Context (opts : FileStoreOptions).

Definition crcTable : list Z := MakeTable (CRCPolynomial opts).

(** [writeRecord] to a file without a buffer. *)
Definition append {A : Type} (f : list byte) (recType : Z) (c : codec A) (rec : A)
  : outcome rec_error (list byte * Z) :=
  r ← writeRecord (mkIO f None) recType c rec crcTable; Ok (disk r.1, r.2).

(** ** Clients *)

Definition AddClient (info : ClientInfo.t) (fs : FileStore) : outcome rec_error FileStore :=
  r ← append (clientsFile fs) addClient ClientInfo.codec info;
  Ok (mkStore (serverFile fs) r.1 (<[ClientInfo.ID info := info]> (clients fs))
        (cliFileSize fs + r.2) (cliDeleteRecs fs) (cliCompactTS fs)).

Definition shouldCompactClientFile (now : Z) (fs : FileStore) : bool :=
  if negb (CompactEnabled opts) then false
  else if (0 <? CompactMinFileSize opts) && (cliFileSize fs <? CompactMinFileSize opts) then false
  else
    let frag := cliDeleteRecs fs * 100 `quot` (cliDeleteRecs fs + Z.of_nat (size (clients fs))) in
    if frag <? CompactFragmentation opts then false
    else if now - cliCompactTS fs <? CompactInterval opts * 1000000000 then false
    else true.

Context `{!RangeOrder string}.

Fixpoint compact_clients (l : list (string * ClientInfo.t)) (x : io * Z) : outcome rec_error (io * Z) :=
  match l with
  | [] => Ok x
  | (_, c) :: l' =>
      r ← writeRecord x.1 addClient ClientInfo.codec c crcTable;
      compact_clients l' (r.1, x.2 + r.2)
  end.

Definition compactClientFile (now : Z) (fs : FileStore) : outcome rec_error FileStore :=
  let tmp := mkIO (Ints.WriteInt [] fileVersion) (Some (NewWriterSize FileSub.defaultBufSize)) in
  x ← compact_clients (range (clients fs)) (tmp, 0);
  Ok (mkStore (serverFile fs) (disk (Flush x.1)) (clients fs) x.2 0 now).

Definition DeleteClient (now : Z) (clientID : string) (fs : FileStore) : outcome rec_error FileStore :=
  r ← append (clientsFile fs) delClient ClientDelete.codec (ClientDelete.mk clientID);
  let fs := mkStore (serverFile fs) r.1 (delete clientID (clients fs))
              (cliFileSize fs + r.2) (cliDeleteRecs fs + 1) (cliCompactTS fs) in
  if shouldCompactClientFile now fs then compactClientFile now fs else Ok fs.

(** The switch of [recoverClients]. *)
Definition recover_client (recType : Z) (payload : list byte) (fs : FileStore) : outcome rec_error FileStore :=
  let sz := cliFileSize fs + Z.of_nat (length payload) + recordHeaderSize in
  if recType =? addClient then
    c ← FileSub.unmarshal ClientInfo.codec payload;
    Ok (mkStore (serverFile fs) (clientsFile fs) (<[ClientInfo.ID c := c]> (clients fs)) sz
          (cliDeleteRecs fs) (cliCompactTS fs))
  else if recType =? delClient then
    c ← FileSub.unmarshal ClientDelete.codec payload;
    Ok (mkStore (serverFile fs) (clientsFile fs) (delete (ClientDelete.ID c) (clients fs)) sz
          (cliDeleteRecs fs + 1) (cliCompactTS fs))
  else Err UnexpectedType.

(** The recovered clients, in the order of an iteration over the map. *)
Definition recoverClients (fs : FileStore) : outcome rec_error (list ClientInfo.t * FileStore) :=
  r ← recover_file recover_client crcTable (DoCRC opts) (TruncateUnexpectedEOF opts) fs (clientsFile fs);
  let fs := mkStore (serverFile r.1) r.2 (clients r.1) (cliFileSize r.1) (cliDeleteRecs r.1) (cliCompactTS r.1) in
  Ok ((range (clients fs)).*2, fs).

(** ** Server information *)

(** [Init]: the file is truncated after its version. *)
Definition Init (info : ServerInfo.t) (fs : FileStore) : outcome rec_error FileStore :=
  r ← append (take 4 (serverFile fs)) recNoType ServerInfo.codec info;
  Ok (mkStore r.1 (clientsFile fs) (clients fs) (cliFileSize fs) (cliDeleteRecs fs) (cliCompactTS fs)).

(** [recoverServerInfo]: nothing when the file has no record. *)
Definition recoverServerInfo (fs : FileStore) : outcome rec_error (option ServerInfo.t) :=
  match readRecord (drop 4 (serverFile fs)) false crcTable (DoCRC opts) 0 with
  | Err AtEOF => Ok None
  | Err e => Err e
  | Panic => Panic
  | Ok (payload, _, _) =>
      if Z.of_nat (length (serverFile fs)) =? Z.of_nat (length payload) + 4 + recordHeaderSize then
        info ← FileSub.unmarshal ServerInfo.codec payload; Ok (Some info)
      else Err WrongFileSize
  end.

(** [Recover], up to the channels: the files are opened, or created. *)
Definition openFiles (server clients : option (list byte)) : outcome rec_error FileStore :=
  s ← Rec.openFile server;
  c ← Rec.openFile clients;
  Ok (mkStore s c ∅ 0 0 0).

Inductive recovered :=
| Nothing
| State (info : ServerInfo.t) (cs : list ClientInfo.t).

(** [channels] are the directories beside the files, if they can be listed. *)
Definition recoverFiles (channels : option (list string)) (server clients : option (list byte))
  : outcome rec_error (recovered * FileStore) :=
  fs ← openFiles server clients;
  info ← recoverServerInfo fs;
  match info with
  | None =>
      match channels with
      | Some (_ :: _) => Err NoServerButChannels
      | _ => Ok (Nothing, fs)
      end
  | Some info =>
      r ← recoverClients fs;
      match channels with
      | None => Ok (Nothing, r.2)       (* [return nil, err], where [err] is nil *)
      | Some _ => Ok (State info r.1, r.2)
      end
  end.
End Store.
End FileClient.
