(* ===== verification/FileClientsSpec.v ===== *)
(** * The client and server files recover what was stored *)

From Stdlib Require Import ZArith Lia Ascii String.
From stdpp Require Import base list gmap strings.
From S2P Require Import Prelude Bytes Util Crc Proto ProtoSpec Spb Records RecordsSpec FileSubs FileSubsSpec FileClients.

Local Open Scope Z_scope.

Module FileClientSpec.
Import Crc CrcSpec Proto ProtoSpec SpbSpec Buffer Rec RecSpec FileOptions FileSubSpec FileClient.

(** ** The log of clients *)

Inductive entry :=
| EAdd (info : ClientInfo.t)
| EDelete (clientID : string).

Definition enc (e : entry) : Z * list byte :=
  match e with
  | EAdd info => (addClient, ClientInfo.Marshal info)
  | EDelete clientID => (delClient, ClientDelete.Marshal (ClientDelete.mk clientID))
  end.

Definition effect (m : gmap string ClientInfo.t) (e : entry) : gmap string ClientInfo.t :=
  match e with
  | EAdd info => <[ClientInfo.ID info := info]> m
  | EDelete clientID => delete clientID m
  end.

Definition effects (es : list entry) : gmap string ClientInfo.t := foldl effect ∅ es.

Definition info_ok (info : ClientInfo.t) : Prop :=
  c_typed ClientInfo.codec info /\ ClientInfo.Size info <= max_record.
Definition delete_record_ok (id : string) : Prop :=
  c_typed ClientDelete.codec (ClientDelete.mk id) /\ ClientDelete.Size (ClientDelete.mk id) <= max_record.

Definition entry_ok (e : entry) : Prop :=
  match e with EAdd info => info_ok info | EDelete id => delete_record_ok id end.

Lemma client_enc_typed e : entry_ok e -> typed (enc e).
Proof.
  destruct e as [info|id]; cbn [entry_ok enc]; intros He; split; cbn [fst snd]; try done.
  - by apply (encoded_length ClientInfo.codec).
  - by apply (encoded_length ClientDelete.codec).
Qed.

Lemma recover_client_enc e fs :
  entry_ok e ->
  exists fs', recover_client (enc e).1 (enc e).2 fs = Ok fs' /\ clients fs' = effect (clients fs) e /\
    serverFile fs' = serverFile fs.
Proof.
  destruct e as [info|id]; cbn [entry_ok enc effect fst snd]; intros He;
    unfold recover_client; cbn [Z.eqb Pos.eqb addClient delClient].
  - assert (FileSub.unmarshal ClientInfo.codec (ClientInfo.Marshal info) = Ok info) as ->
      by by apply (unmarshal_ok ClientInfo.codec).
    by eexists.
  - assert (FileSub.unmarshal ClientDelete.codec (ClientDelete.Marshal (ClientDelete.mk id)) = Ok (ClientDelete.mk id))
      as -> by by apply (unmarshal_ok ClientDelete.codec).
    by eexists.
Qed.

Lemma replay_clients es fs :
  Forall entry_ok es ->
  exists fs', replay recover_client (enc <$> es) fs = Ok fs' /\ clients fs' = foldl effect (clients fs) es /\
    serverFile fs' = serverFile fs.
Proof.
  intros H. revert fs. induction H as [|e es He _ IH]; intros fs; [by exists fs|].
  destruct (recover_client_enc e fs He) as (fs1 & E & Hs & Hf). destruct (IH fs1) as (fs' & E' & Hs' & Hf').
  exists fs'. cbn [fmap list_fmap replay foldl]. rewrite E. cbn [mbind outcome_bind].
  split_and!; [done|by rewrite Hs', Hs|congruence].
Qed.

Section Clients.
Context (opts : FileStoreOptions) (Hopts : valid opts) `{!RangeOrder string}.
Local Abbreviation poly := (CRCPolynomial opts).
Local Abbreviation bytes es := (version ++ encode_all poly (enc <$> es)).

Lemma clients_snoc es e : bytes (es ++ [e]) = bytes es ++ encode (MakeTable poly) (enc e).1 (enc e).2.
Proof. rewrite fmap_app, encode_all_app, <- app_assoc. f_equal. unfold encode_all. cbn. by rewrite app_nil_r. Qed.

Lemma append_log {A : Type} (c : codec A) recType rec e es :
  enc e = (recType, c_put c rec) -> entry_ok e -> c_size c rec = Z.of_nat (length (c_put c rec)) ->
  exists n, append opts (bytes es) recType c rec = Ok (bytes (es ++ [e]), n).
Proof.
  intros Ee He Hs. pose proof (client_enc_typed e He) as Ht. rewrite Ee in Ht.
  destruct (writeRecord_spec poly c (mkIO (bytes es) None) recType rec Hs Ht) as (w & E & Hc & Hd).
  unfold append, crcTable. rewrite E. cbn [mbind outcome_bind fst snd]. eexists. do 2 f_equal.
  assert (buf w = None) as Hb by (revert E; unfold writeRecord; case_match; [done|]; by intros [= <- _]).
  rewrite clients_snoc, Ee. cbn [fst snd]. unfold contents in Hc. rewrite Hb in Hc. cbn [disk buf] in Hc.
  by rewrite !app_nil_r in Hc.
Qed.

(** Compaction writes the clients. *)
Lemma compact_clients_log l x es :
  (forall y, y ∈ l -> info_ok y.2) -> contents x.1 = bytes es ->
  exists x', compact_clients opts l x = Ok x' /\ contents x'.1 = bytes (es ++ (EAdd ∘ snd <$> l)).
Proof.
  revert x es. induction l as [|[id c] l IH]; intros x es Hl Hc; [exists x; by rewrite app_nil_r|].
  assert (info_ok c) as Hok by (apply (Hl (id, c)); left). cbn [compact_clients].
  pose proof (client_enc_typed (EAdd c) Hok) as Ht.
  destruct (writeRecord_spec poly ClientInfo.codec x.1 addClient c) as (w & E & Hw & _);
    [by apply (encoded_size ClientInfo.codec)|done|].
  unfold crcTable. rewrite E. cbn [mbind outcome_bind fst snd].
  destruct (IH (w, x.2 + Z.of_nat (8 + length (c_put ClientInfo.codec c))) (es ++ [EAdd c])) as (x' & E' & Hc');
    [intros; apply Hl; by right|cbn [fst]; by rewrite Hw, Hc, clients_snoc|].
  exists x'. rewrite E'. split; [done|]. by rewrite Hc', <- app_assoc.
Qed.

Lemma effects_compact l m :
  NoDup l.*1 -> (forall x, x ∈ l -> ClientInfo.ID x.2 = x.1) ->
  foldl effect m (EAdd ∘ snd <$> l) = list_to_map l ∪ m.
Proof.
  revert m. induction l as [|[id c] l IH]; intros m Hn Hid; [simpl; by rewrite map_empty_union|].
  apply NoDup_cons in Hn as [Hni Hn]. cbn [fmap list_fmap foldl effect compose snd].
  rewrite IH by (done || intros; apply Hid; by right).
  assert (ClientInfo.ID c = id) as -> by (apply (Hid (id, c)); left). simpl.
  rewrite <- insert_union_r, insert_union_l; [done|]. by apply not_elem_of_list_to_map_1.
Qed.

(** ** Operations *)

Inductive op := Add (info : ClientInfo.t) | Delete (now : Z) (clientID : string).

Definition op_ok (o : op) : Prop :=
  match o with Add info => info_ok info | Delete _ id => delete_record_ok id end.

Definition exec (fs : FileStore) (o : op) : outcome rec_error FileStore :=
  match o with Add info => AddClient opts info fs | Delete now id => DeleteClient opts now id fs end.

Fixpoint exec_all (fs : FileStore) (ops : list op) : outcome rec_error FileStore :=
  match ops with [] => Ok fs | o :: ops' => fs ← exec fs o; exec_all fs ops' end.

(** The connected clients after some operations. *)
Definition spec (m : gmap string ClientInfo.t) (o : op) : gmap string ClientInfo.t :=
  match o with Add info => <[ClientInfo.ID info := info]> m | Delete _ id => delete id m end.

Record inv (fs : FileStore) : Prop := {
  inv_keys id c : clients fs !! id = Some c -> ClientInfo.ID c = id /\ info_ok c;
  inv_log : exists es, Forall entry_ok es /\ clientsFile fs = bytes es /\ effects es = clients fs
}.

Lemma compact_inv now fs :
  (forall id c, clients fs !! id = Some c -> ClientInfo.ID c = id /\ info_ok c) ->
  exists fs', compactClientFile opts now fs = Ok fs' /\ inv fs' /\ clients fs' = clients fs /\
    serverFile fs' = serverFile fs.
Proof.
  intros Hk. unfold compactClientFile.
  destruct (compact_clients_log (range (clients fs))
    (mkIO (Ints.WriteInt [] fileVersion) (Some (NewWriterSize FileSub.defaultBufSize)), 0) []) as (x & -> & Hc).
  { intros [id c] Hx%elem_of_range. by eapply Hk. }
  { done. }
  eexists. split; [done|]. split; [|done]. split; cbn [clients clientsFile]; [done|].
  exists (EAdd ∘ snd <$> range (clients fs)). split_and!.
  - apply Forall_fmap, Forall_forall. intros [id c] Hx%elem_of_range. by eapply Hk.
  - by rewrite disk_Flush, Hc.
  - unfold effects. rewrite effects_compact, map_union_empty.
    + rewrite <- (list_to_map_to_list (clients fs)) at 2.
      apply list_to_map_proper; [apply NoDup_range_fst|apply range_perm].
    + apply NoDup_range_fst.
    + intros [id c] Hx%elem_of_range. by eapply Hk.
Qed.

Lemma exec_clients fs o :
  op_ok o -> inv fs ->
  exists fs', exec fs o = Ok fs' /\ inv fs' /\ clients fs' = spec (clients fs) o /\ serverFile fs' = serverFile fs.
Proof.
  intros Ho [Hk (es & Hes & Hf & He)]. destruct o as [info|now id]; cbn [exec op_ok spec] in *.
  - unfold AddClient. rewrite Hf.
    destruct (append_log ClientInfo.codec addClient info (EAdd info) es) as (n & ->);
      [done|done|by apply (encoded_size ClientInfo.codec)|].
    eexists. split; [done|]. split; [|done]. split; cbn [clients clientsFile].
    + intros id c. rewrite lookup_insert_Some. intros [[<- <-]|[_ H]]; [done|by apply Hk].
    + exists (es ++ [EAdd info]). split_and!; [by apply Forall_app; split; [|apply Forall_singleton]|done|].
      unfold effects. rewrite foldl_app. cbn [foldl effect]. by rewrite <- He.
  - unfold DeleteClient. rewrite Hf.
    destruct (append_log ClientDelete.codec delClient (ClientDelete.mk id) (EDelete id) es) as (n & ->);
      [done|done|by apply (encoded_size ClientDelete.codec)|].
    cbn [mbind outcome_bind fst snd]. set (fs1 := mkStore _ _ _ _ _ _).
    assert (forall id c, clients fs1 !! id = Some c -> ClientInfo.ID c = id /\ info_ok c) as Hk1.
    { intros id' c. subst fs1. cbn [clients]. rewrite lookup_delete_Some. intros [_ H]. by apply Hk. }
    case_match.
    + destruct (compact_inv now fs1 Hk1) as (fs' & -> & Hi & E1 & E2). by exists fs'.
    + exists fs1. split; [done|]. split; [|done]. split; [done|].
      exists (es ++ [EDelete id]). split_and!; [by apply Forall_app; split; [|apply Forall_singleton]|done|].
      unfold effects. rewrite foldl_app. cbn [foldl effect]. subst fs1. cbn [clients]. by rewrite <- He.
Qed.

Lemma exec_all_clients ops fs :
  Forall op_ok ops -> inv fs ->
  exists fs', exec_all fs ops = Ok fs' /\ inv fs' /\ clients fs' = foldl spec (clients fs) ops /\
    serverFile fs' = serverFile fs.
Proof.
  intros Hops. revert fs. induction Hops as [|o ops Ho _ IH]; intros fs Hi; [by exists fs|].
  destruct (exec_clients fs o Ho Hi) as (fs1 & E1 & Hi1 & C1 & S1).
  destruct (IH fs1 Hi1) as (fs2 & E2 & Hi2 & C2 & S2).
  exists fs2. cbn [exec_all foldl]. rewrite E1. cbn [mbind outcome_bind].
  split_and!; [done|done|by rewrite C2, C1|congruence].
Qed.

(** ** Recovery *)

Lemma recoverClients_log es fs :
  Forall entry_ok es -> clientsFile fs = bytes es -> clients fs = ∅ ->
  exists cs fs', recoverClients opts fs = Ok (cs, fs') /\ clients fs' = effects es /\
    cs = (range (effects es)).*2 /\ clientsFile fs' = bytes es.
Proof.
  intros H Hf Hc. destruct (replay_clients es fs H) as (fs1 & E & C & S). unfold recoverClients, crcTable.
  rewrite Hf, recover_file_whole, E;
    [|by apply poly_word|apply Forall_fmap; eapply Forall_impl; [exact H|apply client_enc_typed]].
  cbn [mbind outcome_bind fst snd]. eexists _, _. split; [done|]. cbn [clients clientsFile].
  unfold effects. rewrite C, Hc. done.
Qed.

Definition server_ok (info : ServerInfo.t) : Prop :=
  c_typed ServerInfo.codec info /\ 0 < ServerInfo.Size info <= max_record.

Lemma append_server f info :
  server_ok info ->
  exists n, append opts f recNoType ServerInfo.codec info =
    Ok (f ++ encode (MakeTable poly) recNoType (ServerInfo.Marshal info), n).
Proof. intros _. by eexists. Qed.

Lemma recoverServerInfo_spec info fs :
  server_ok info -> serverFile fs = version ++ encode (MakeTable poly) recNoType (ServerInfo.Marshal info) ->
  recoverServerInfo opts fs = Ok (Some info).
Proof.
  intros [Ht Hs] Hf. unfold recoverServerInfo, crcTable. rewrite Hf, drop_version.
  assert (c_typed ServerInfo.codec info /\ c_size ServerInfo.codec info <= max_record) as Hok by (split; [done|apply Hs]).
  pose proof (encoded_length ServerInfo.codec info Hok) as Hl. pose proof (encoded_size ServerInfo.codec info Hok) as He.
  change (c_put ServerInfo.codec info) with (ServerInfo.Marshal info) in *.
  change (c_size ServerInfo.codec info) with (ServerInfo.Size info) in *.
  rewrite <- (app_nil_r (encode _ _ _)), read_encode_untyped; [|by apply poly_word| |unfold max_record, two32 in *; lia|by left].
  2: { intros E. rewrite E in He. simpl in He. lia. }
  rewrite app_nil_r, length_app, length_encode. change (length version) with 4%nat.
  destruct (Z.eqb_spec (Z.of_nat (4 + (8 + length (ServerInfo.Marshal info))))
    (Z.of_nat (length (ServerInfo.Marshal info)) + 4 + recordHeaderSize)) as [_|Hne]; [|unfold recordHeaderSize in Hne; lia].
  assert (FileSub.unmarshal ServerInfo.codec (ServerInfo.Marshal info) = Ok info) as ->
    by by apply (unmarshal_ok ServerInfo.codec).
  done.
Qed.

(** [C22] What a server stored of itself and of its clients is what its next start recovers:
    its information, and the clients that were added and not deleted since, whether or not
    the clients file was compacted. *)
Theorem server_and_clients_recovered info ops chans :
  server_ok info -> Forall op_ok ops ->
  exists fs, (fs ← openFiles None None; fs ← Init opts info fs; exec_all fs ops) = Ok fs /\
    clients fs = foldl spec ∅ ops /\
  exists cs fs', recoverFiles opts (Some chans) (Some (serverFile fs)) (Some (clientsFile fs)) =
      Ok (State info cs, fs') /\
    clients fs' = foldl spec ∅ ops /\ cs ≡ₚ (map_to_list (foldl spec ∅ ops)).*2.
Proof.
  intros Hinfo Hops. cbn [openFiles Rec.openFile mbind outcome_bind]. unfold Init. cbn [serverFile].
  destruct (append_server version info Hinfo) as (n & E). change (take 4 (Ints.WriteInt [] fileVersion)) with version.
  rewrite E. cbn [mbind outcome_bind fst]. set (fs0 := mkStore _ _ _ _ _ _).
  assert (inv fs0) as Hi0.
  { split; [intros id c H; subst fs0; cbn [clients] in H; by rewrite lookup_empty in H|]. exists []. by split_and!. }
  destruct (exec_all_clients ops fs0 Hops Hi0) as (fs & -> & [Hk (es & Hes & Hf & He)] & C & S).
  exists fs. split; [done|]. split; [done|]. unfold recoverFiles, openFiles. rewrite S, Hf, !openFile_version.
  cbn [serverFile fs0]. rewrite openFile_version. cbn [mbind outcome_bind].
  rewrite (recoverServerInfo_spec info) by done. cbn [mbind outcome_bind].
  match goal with |- context [recoverClients opts ?x] =>
    destruct (recoverClients_log es x) as (cs & fs' & -> & C' & Hcs & _); [done..|] end.
  cbn [mbind outcome_bind fst snd]. eexists _, _. split; [done|].
  rewrite C', Hcs, He, C. split; [done|]. by rewrite range_perm.
Qed.
End Clients.
End FileClientSpec.

(** ** Sample runs *)

Module FileClientSample.
Import Proto ProtoSpec Rec FileOptions FileSubSpec FileSubSample FileClient FileClientSpec.

#[local] Instance string_order : RangeOrder string := default_order string.

Definition info : ServerInfo.t :=
  ServerInfo.mk "cluster" "_STAN.discover" "_STAN.pub" "_STAN.sub" "_STAN.unsub" "_STAN.close" "_STAN.subclose" "" "".

Lemma info_server_ok : server_ok info.
Proof. split; [|by vm_compute]. repeat (apply Forall_cons_2; [by vm_compute|]). apply Forall_nil_2. Qed.

Definition me : ClientInfo.t := ClientInfo.mk "me" "_INBOX.hb" [] 1 5 3.
Definition you : ClientInfo.t := ClientInfo.mk "you" "_INBOX.hb2" [byte_of 1] 1 5 3.

Definition ops : list op := [Add me; Add you; Delete 9000000000 "me"; Delete 9000000001 "other"].

Lemma ops_clients_ok : Forall op_ok ops.
Proof.
  assert (forall c, Forall (fun f => field_typed f c) ClientInfo.fields /\ ClientInfo.Size c <= max_record -> info_ok c)
    as Hc by done.
  assert (forall id, Forall (fun f => field_typed f (ClientDelete.mk id)) ClientDelete.fields /\
    ClientDelete.Size (ClientDelete.mk id) <= max_record -> delete_record_ok id) as Hd by done.
  repeat (apply Forall_cons_2; [first [apply Hc|apply Hd]; split; [|by vm_compute];
    repeat (apply Forall_cons_2; [by vm_compute|]); apply Forall_nil_2|]).
  apply Forall_nil_2.
Qed.

Lemma server_and_clients_recovered_witness :
  exists fs, (fs ← openFiles None None; fs ← Init small info fs; exec_all small fs ops) = Ok fs /\
    clients fs = foldl spec ∅ ops /\
  exists cs fs', recoverFiles small (Some ["foo"%string]) (Some (serverFile fs)) (Some (clientsFile fs)) =
      Ok (State info cs, fs') /\
    clients fs' = foldl spec ∅ ops /\ cs ≡ₚ (map_to_list (foldl spec ∅ ops)).*2.
Proof.
  apply (server_and_clients_recovered small small_valid info ops ["foo"%string] info_server_ok ops_clients_ok).
Defined.

(** An error of the listing of the channels is lost: [Recover] returns no state and no
    error, as for a new store, whatever is stored. *)
Theorem listing_error_swallowed :
  exists fs fs', (fs ← openFiles None None; Init small info fs) = Ok fs /\
    recoverFiles small None (Some (serverFile fs)) (Some (clientsFile fs)) = Ok (Nothing, fs').
Proof. eexists _, _. split; [vm_compute; reflexivity|]. vm_compute. reflexivity. Qed.
End FileClientSample.
