(* ===== verification/Cache.v ===== *)
(** * The cache of messages

    Model of [msgsCache] ([src/stores/filestore.go]): a map from sequences to the nodes of
    a doubly linked list that is kept in the order of use.  Nodes are in a heap and
    named by addresses; a nil pointer that is followed is a panic.  Readings of the clock
    are arguments. *)

From Stdlib Require Import ZArith Lia Ascii String.
From stdpp Require Import base list gmap strings.
From S2P Require Import Prelude Bytes MemStore Records.

Local Open Scope Z_scope.

Module Cache.
Import Rec.

(** ** Data *)

Record cachedMsg := mkCached {
  expiration : Z;
  msg : MsgProto;
  prev : option nat;
  next : option nat
}.

(** [nodes] is the memory and [fresh] the first address that is not allocated yet. *)
Record msgsCache := mkCache {
  tryEvict : bool;
  seqMaps : gmap Z nat;
  chead : option nat;
  ctail : option nat;
  nodes : gmap nat cachedMsg;
  fresh : nat
}.

Definition cacheTTL : Z := 1000000000.

Definition set_expiration (e : Z) (n : cachedMsg) : cachedMsg := mkCached e (msg n) (prev n) (next n).
Definition set_prev (p : option nat) (n : cachedMsg) : cachedMsg := mkCached (expiration n) (msg n) p (next n).
Definition set_next (p : option nat) (n : cachedMsg) : cachedMsg := mkCached (expiration n) (msg n) (prev n) p.

(** ** Operations *)

Definition initCache : msgsCache := mkCache false ∅ None None ∅ 0.

(** Reading and changing the node that a pointer names. *)
Definition deref (h : gmap nat cachedMsg) (p : option nat) : outcome rec_error cachedMsg :=
  match p with Some a => match h !! a with Some n => Ok n | None => Panic end | None => Panic end.

Definition modify (p : option nat) (f : cachedMsg -> cachedMsg) (h : gmap nat cachedMsg)
  : outcome rec_error (gmap nat cachedMsg) :=
  n ← deref h p; match p with Some a => Ok (<[a := f n]> h) | None => Panic end.

(** [if p != nil { ... }] *)
Definition if_not_nil (p : option nat) (f : cachedMsg -> cachedMsg) (h : gmap nat cachedMsg)
  : outcome rec_error (gmap nat cachedMsg) :=
  match p with None => Ok h | Some _ => modify p f h end.

(** [if cMsg.expiration < c.tail.expiration { ... }] *)
Definition not_before (tail n : cachedMsg) : cachedMsg :=
  if expiration n <? expiration tail then set_expiration (expiration tail) n else n.

(** Moves the node [a] of expiration [e] to the end of the list. *)
Definition move_to_tail (a : nat) (c : msgsCache) : outcome rec_error msgsCache :=
  n ← deref (nodes c) (Some a);
  h ← if_not_nil (prev n) (set_next (next n)) (nodes c);
  h ← if_not_nil (next n) (set_prev (prev n)) h;
  let hd := if bool_decide (chead c = Some a) then next n else chead c in
  h ← modify (Some a) (set_prev (ctail c)) h;
  h ← modify (ctail c) (set_next (Some a)) h;
  h ← modify (Some a) (set_next None) h;
  t ← deref h (ctail c);
  h ← modify (Some a) (not_before t) h;
  Ok (mkCache (tryEvict c) (seqMaps c) hd (Some a) h (fresh c)).

Definition get (now seq : Z) (c : msgsCache) : outcome rec_error (option MsgProto * msgsCache) :=
  match seqMaps c !! seq with
  | None => Ok (None, c)
  | Some a =>
      n ← deref (nodes c) (Some a);
      h ← modify (Some a) (set_expiration (i64 (now + cacheTTL))) (nodes c);
      let c := mkCache (tryEvict c) (seqMaps c) (chead c) (ctail c) h (fresh c) in
      if bool_decide (ctail c = Some a) then Ok (Some (msg n), c)
      else c ← move_to_tail a c; Ok (Some (msg n), c)
  end.

(** Adds a new node at the end of the list. *)
Definition push (seq exp : Z) (m : MsgProto) (c : msgsCache) : outcome rec_error msgsCache :=
  let a := fresh c in
  let n := mkCached exp m None None in
  hn ← match ctail c with
       | None => Ok (nodes c, n)
       | Some _ =>
           h ← modify (ctail c) (set_next (Some a)) (nodes c);
           t ← deref h (ctail c);
           Ok (h, not_before t n)
       end;
  let hd := match ctail c with None => Some a | Some _ => chead c end in
  let maps := <[seq := a]> (seqMaps c) in
  Ok (mkCache (if bool_decide (size maps = 1%nat) then true else tryEvict c) maps hd (Some a)
        (<[a := set_prev (ctail c) hn.2]> hn.1) (S a)).

Definition add (now seq : Z) (m : MsgProto) (isNew checkPresent : bool) (c : msgsCache)
  : outcome rec_error msgsCache :=
  r ← if checkPresent then get now seq c else Ok (None, c);
  match r.1 with
  | Some _ => Ok r.2
  | None => push seq (i64 (cacheTTL + (if isNew then Timestamp m else now))) m r.2
  end.

(** The loop of [evict]: the first node that stays. *)
Fixpoint evict_loop (fuel : nat) (now : Z) (p : option nat) (maps : gmap Z nat) (h : gmap nat cachedMsg)
  : outcome rec_error (option nat * gmap Z nat) :=
  match p with
  | None => Ok (None, maps)
  | Some _ =>
      n ← deref h p;
      if expiration n <=? now then
        match fuel with
        | O => Err NoFuel
        | S fuel' => evict_loop fuel' now (next n) (delete (Sequence (msg n)) maps) h
        end
      else Ok (p, maps)
  end.

Definition empty (c : msgsCache) : msgsCache := mkCache false ∅ None None (nodes c) (fresh c).

Definition evict (now : Z) (c : msgsCache) : outcome rec_error msgsCache :=
  match chead c with
  | None => Ok c
  | Some _ =>
      t ← deref (nodes c) (ctail c);
      if expiration t <=? now then Ok (empty c)
      else
        r ← evict_loop (fresh c) now (chead c) (seqMaps c) (nodes c);
        if bool_decide (r.1 = chead c) then
          Ok (mkCache (tryEvict c) r.2 (chead c) (ctail c) (nodes c) (fresh c))
        else h ← modify r.1 (set_prev None) (nodes c);
             Ok (mkCache (tryEvict c) r.2 r.1 (ctail c) h (fresh c))
  end.
End Cache.

(** ** Specification: a list of messages, the one used last at its end *)

Module Lru.
Abbreviation t := (list (Z * MsgProto)).

Definition seqs (l : t) : list Z := Sequence <$> l.*2.

(** An expiration is not before that of the message in front. *)
Definition after (l : t) (e : Z) : Z :=
  match last l with Some x => Z.max e x.1 | None => e end.

(** The message of a sequence, and the list without it. *)
Fixpoint pick (seq : Z) (l : t) : option (MsgProto * t) :=
  match l with
  | [] => None
  | x :: l' =>
      if Sequence x.2 =? seq then Some (x.2, l')
      else match pick seq l' with Some (m, r) => Some (m, x :: r) | None => None end
  end.

Definition get (now seq : Z) (l : t) : option MsgProto * t :=
  match pick seq l with
  | None => (None, l)
  | Some (m, r) =>
      let e := i64 (now + Cache.cacheTTL) in
      (Some m, r ++ [(if bool_decide (last (seqs l) = Some seq) then e else after r e, m)])
  end.

Definition push (e : Z) (m : MsgProto) (l : t) : t := l ++ [(after l e, m)].

Definition add (now : Z) (m : MsgProto) (isNew checkPresent : bool) (l : t) : t :=
  let e := i64 (Cache.cacheTTL + (if isNew then Timestamp m else now)) in
  match (if checkPresent then get now (Sequence m) l else (None, l)) with
  | (Some _, l') => l'
  | (None, l') => push e m l'
  end.

Fixpoint drop_expired (now : Z) (l : t) : t :=
  match l with
  | [] => []
  | x :: l' => if x.1 <=? now then drop_expired now l' else l
  end.

(** Nothing is kept when the message used last is expired. *)
Definition evict (now : Z) (l : t) : t :=
  match last l with
  | Some x => if x.1 <=? now then [] else drop_expired now l
  | None => []
  end.
End Lru.

Module CacheSpec.
Import Rec Cache.

(** ** Doubly linked lists *)

Definition front (ps : list nat) (nxt : option nat) : option nat :=
  match head ps with Some p => Some p | None => nxt end.
Definition back (prv : option nat) (ps : list nat) : option nat :=
  match last ps with Some p => Some p | None => prv end.

(** The nodes at [ps] hold [l], linked between [prv] and [nxt]. *)
Fixpoint lseg (h : gmap nat cachedMsg) (prv : option nat) (ps : list nat) (l : Lru.t) (nxt : option nat) : Prop :=
  match ps, l with
  | [], [] => True
  | p :: ps', x :: l' =>
      h !! p = Some (mkCached x.1 x.2 prv (front ps' nxt)) /\ lseg h (Some p) ps' l' nxt
  | _, _ => False
  end.

Lemma back_cons prv p ps : back prv (p :: ps) = back (Some p) ps.
Proof. unfold back. rewrite last_cons. by destruct (last ps). Qed.

Lemma back_snoc prv ps p : back prv (ps ++ [p]) = Some p.
Proof. unfold back. by rewrite last_snoc. Qed.

Lemma lseg_length h prv ps l nxt : lseg h prv ps l nxt -> length ps = length l.
Proof.
  revert prv l. induction ps as [|p ps IH]; intros prv [|x l] H; try done.
  cbn [length]. f_equal. eapply IH, H.
Qed.

Lemma lseg_app h prv a b la lb nxt :
  length a = length la ->
  lseg h prv (a ++ b) (la ++ lb) nxt <-> lseg h prv a la (front b nxt) /\ lseg h (back prv a) b lb nxt.
Proof.
  revert prv la. induction a as [|p a IH]; intros prv [|x la] Hl; try done; [split; [done|by intros []]|].
  cbn [app lseg]. rewrite IH by (by injection Hl). rewrite back_cons.
  assert (front (a ++ b) nxt = front a (front b nxt)) as -> by by destruct a.
  tauto.
Qed.

Lemma lseg_frame h prv ps l nxt a n : a ∉ ps -> lseg (<[a := n]> h) prv ps l nxt <-> lseg h prv ps l nxt.
Proof.
  revert prv l. induction ps as [|p ps IH]; intros prv [|x l] H; try done.
  apply not_elem_of_cons in H as [Hne H]. cbn [lseg]. by rewrite lookup_insert_ne, IH by done.
Qed.

Lemma lseg_node h prv ps l nxt i p : lseg h prv ps l nxt -> ps !! i = Some p ->
  exists x n, l !! i = Some x /\ h !! p = Some n /\ expiration n = x.1 /\ msg n = x.2.
Proof.
  revert prv l i. induction ps as [|q ps IH]; intros prv [|x l] i H Hi; try done.
  destruct H as [Hp H]. destruct i as [|i]; [|by apply (IH (Some q) l i)]. injection Hi as ->. exists x. eauto.
Qed.

(** A list that ends, or begins, with a given node. *)
Lemma lseg_snoc h prv ps p l x nxt :
  lseg h prv (ps ++ [p]) (l ++ [x]) nxt ->
  lseg h prv ps l (Some p) /\ h !! p = Some (mkCached x.1 x.2 (back prv ps) nxt).
Proof.
  intros H. assert (length ps = length l) as Hl.
  { apply lseg_length in H. rewrite !length_app in H. simpl in H. lia. }
  apply lseg_app in H as [H1 H2]; [|done]. split; [done|]. apply H2.
Qed.

Lemma lseg_set_next h prv ps l nxt p nxt' :
  NoDup ps -> last ps = Some p -> lseg h prv ps l nxt ->
  exists n, h !! p = Some n /\ lseg (<[p := set_next nxt' n]> h) prv ps l nxt'.
Proof.
  intros Hd Hp H. apply last_Some in Hp as [ps' ->].
  destruct l as [|x l _] using rev_ind; [apply lseg_length in H; rewrite length_app in H; simpl in H; lia|].
  assert (length ps' = length l) as Hl.
  { apply lseg_length in H. rewrite !length_app in H. simpl in H. lia. }
  apply lseg_snoc in H as [H Hn]. rewrite Hn. eexists. split; [done|].
  apply lseg_app; [done|]. apply NoDup_app in Hd as (_ & Hd & _). split.
  - apply lseg_frame; [|done]. intros Hin. by apply (Hd _ Hin), list_elem_of_singleton.
  - cbn [lseg]. by rewrite lookup_insert_eq.
Qed.

Lemma lseg_set_prev h prv ps l nxt p prv' :
  NoDup ps -> head ps = Some p -> lseg h prv ps l nxt ->
  exists n, h !! p = Some n /\ lseg (<[p := set_prev prv' n]> h) prv' ps l nxt.
Proof.
  destruct ps as [|q ps]; intros Hd [= ->] H; destruct l as [|x l]; try done. destruct H as [Hp H].
  rewrite Hp. eexists. split; [done|]. apply NoDup_cons in Hd as [Hd _].
  split; [by rewrite lookup_insert_eq|]. by apply lseg_frame.
Qed.
(** ** Lists and the map of sequences *)

Lemma seqs_app a b : Lru.seqs (a ++ b) = Lru.seqs a ++ Lru.seqs b.
Proof. unfold Lru.seqs. by rewrite !fmap_app. Qed.

Lemma length_seqs l : length (Lru.seqs l) = length l.
Proof. unfold Lru.seqs. by rewrite !length_fmap. Qed.

Record holds (c : msgsCache) (ps : list nat) (l : Lru.t) : Prop := {
  h_list : lseg (nodes c) None ps l None;
  h_nodup : NoDup ps;
  h_head : chead c = head ps;
  h_tail : ctail c = last ps;
  h_fresh : Forall (fun p => p < fresh c)%nat ps;
  h_maps : seqMaps c = list_to_map (zip (Lru.seqs l) ps);
  h_seqs : NoDup (Lru.seqs l);
  h_evict : tryEvict c = bool_decide (l <> [])
}.

Definition repr (c : msgsCache) (l : Lru.t) : Prop := exists ps, holds c ps l.

Lemma holds_length c ps l : holds c ps l -> length ps = length l.
Proof. intros H. eapply lseg_length, h_list, H. Qed.

Lemma NoDup_zip_fst (l : Lru.t) (ps : list nat) :
  NoDup (Lru.seqs l) -> length ps = length l -> NoDup (zip (Lru.seqs l) ps).*1.
Proof. intros H Hl. rewrite fst_zip by (rewrite length_seqs; lia). done. Qed.

(** Where the map finds a message in the list. *)
Lemma holds_split c ps l seq a :
  holds c ps l -> seqMaps c !! seq = Some a ->
  exists p1 p2 l1 x l2, ps = p1 ++ a :: p2 /\ l = l1 ++ x :: l2 /\ length p1 = length l1 /\ Sequence x.2 = seq.
Proof.
  intros H Ha. rewrite (h_maps _ _ _ H) in Ha. apply elem_of_list_to_map_2, list_elem_of_lookup in Ha as [i Hi].
  apply lookup_zip_Some in Hi as [Hs Hp]. unfold Lru.seqs in Hs. rewrite !list_lookup_fmap in Hs.
  destruct (l !! i) as [x|] eqn:Hx; [|done]. injection Hs as Hs.
  exists (take i ps), (drop (S i) ps), (take i l), x, (drop (S i) l).
  rewrite !take_drop_middle by done. apply lookup_lt_Some in Hp, Hx. rewrite !length_take. split_and!; [done|done|lia|done].
Qed.

Lemma pick_split l1 x l2 :
  NoDup (Lru.seqs (l1 ++ x :: l2)) -> Lru.pick (Sequence x.2) (l1 ++ x :: l2) = Some (x.2, l1 ++ l2).
Proof.
  induction l1 as [|y l1 IH]; intros Hd; [by cbn [app Lru.pick]; rewrite Z.eqb_refl|].
  apply NoDup_cons in Hd as [Hn Hd]. cbn [app Lru.pick]. rewrite IH by done.
  destruct (Z.eqb_spec (Sequence y.2) (Sequence x.2)) as [E|]; [|done]. destruct Hn.
  change (Sequence y.2 ∈ Lru.seqs (l1 ++ x :: l2)). rewrite E, seqs_app. apply elem_of_app. right. left.
Qed.

Lemma pick_None seq l : seq ∉ Lru.seqs l -> Lru.pick seq l = None.
Proof.
  induction l as [|y l IH]; intros H; [done|]. apply not_elem_of_cons in H as [Hne H]. cbn [Lru.pick].
  destruct (Z.eqb_spec (Sequence y.2) seq); [by subst|]. by rewrite IH.
Qed.

Lemma maps_None c ps l seq : holds c ps l -> seqMaps c !! seq = None -> seq ∉ Lru.seqs l.
Proof.
  intros H Hn Hin. rewrite (h_maps _ _ _ H) in Hn. apply not_elem_of_list_to_map in Hn. destruct Hn.
  rewrite fst_zip by (rewrite length_seqs, (holds_length _ _ _ H); done). done.
Qed.

(** Moving an element to the end does not change the map. *)
Lemma zip_move (l1 l2 : Lru.t) x e p1 a p2 :
  length p1 = length l1 -> length p2 = length l2 -> NoDup (Lru.seqs (l1 ++ x :: l2)) ->
  list_to_map (M := gmap Z nat) (zip (Lru.seqs (l1 ++ x :: l2)) (p1 ++ a :: p2)) =
  list_to_map (zip (Lru.seqs ((l1 ++ l2) ++ [(e, x.2)])) ((p1 ++ p2) ++ [a])).
Proof.
  intros H1 H2 Hd. apply list_to_map_proper; [apply NoDup_zip_fst; [done|rewrite !length_app; simpl; lia]|].
  rewrite !seqs_app, !zip_with_app by (rewrite ?length_app, ?length_seqs; lia).
  change (Lru.seqs (x :: l2)) with (Sequence x.2 :: Lru.seqs l2). cbn [zip_with].
  change (Lru.seqs [(e, x.2)]) with [Sequence x.2]. cbn [zip_with]. by rewrite <- app_assoc, <- Permutation_cons_append.
Qed.

Lemma seqs_move (l1 l2 : Lru.t) x e :
  NoDup (Lru.seqs (l1 ++ x :: l2)) -> NoDup (Lru.seqs ((l1 ++ l2) ++ [(e, x.2)])).
Proof.
  intros Hd. eapply NoDup_Permutation_proper; [|exact Hd]. rewrite !seqs_app.
  change (Lru.seqs (x :: l2)) with (Sequence x.2 :: Lru.seqs l2). change (Lru.seqs [(e, x.2)]) with [Sequence x.2].
  by rewrite <- app_assoc, <- Permutation_cons_append.
Qed.
(** ** The operations *)

Lemma deref_Some h a n : h !! a = Some n -> deref h (Some a) = Ok n.
Proof. unfold deref. by intros ->. Qed.

Lemma modify_Some h a n f : h !! a = Some n -> modify (Some a) f h = Ok (<[a := f n]> h).
Proof. unfold modify. intros H. by rewrite (deref_Some _ _ _ H). Qed.

(** Taking the node [a] out of the list. *)
Lemma unlink h p1 a p2 l1 x l2 :
  length p1 = length l1 -> NoDup (p1 ++ a :: p2) -> lseg h None (p1 ++ a :: p2) (l1 ++ x :: l2) None ->
  exists h1 h2, if_not_nil (back None p1) (set_next (front p2 None)) h = Ok h1 /\
    if_not_nil (front p2 None) (set_prev (back None p1)) h1 = Ok h2 /\
    lseg h2 None (p1 ++ p2) (l1 ++ l2) None /\
    h2 !! a = Some (mkCached x.1 x.2 (back None p1) (front p2 None)).
Proof.
  intros Hl Hd H. apply lseg_app in H as [H1 [Ha H2]]; [|done].
  apply NoDup_app in Hd as (D1 & Hd & Da). apply NoDup_cons in Da as [Na D2].
  assert (a ∉ p1) as Na1 by (intros Hin; apply (Hd _ Hin); left).
  assert (exists h1, if_not_nil (back None p1) (set_next (front p2 None)) h = Ok h1 /\
    lseg h1 None p1 l1 (front p2 None) /\ lseg h1 (Some a) p2 l2 None /\
    h1 !! a = Some (mkCached x.1 x.2 (back None p1) (front p2 None))) as (h1 & E1 & S1 & S2 & A1).
  { destruct (last p1) as [p|] eqn:Ep; unfold back; rewrite Ep.
    - destruct (lseg_set_next _ _ _ _ _ _ (front p2 None) D1 Ep H1) as (n & En & S1).
      exists (<[p := set_next (front p2 None) n]> h). cbn [if_not_nil]. rewrite (modify_Some _ _ _ _ En).
      apply last_Some in Ep as [p1' ->]. split_and!; [done|done| |].
      + apply lseg_frame; [|done]. intros Hin. apply (Hd p); [apply elem_of_app; right; left|by right].
      + rewrite lookup_insert_ne; [by rewrite back_snoc in Ha|]. intros ->. apply Na1, elem_of_app. right. left.
    - exists h. apply last_None in Ep as ->. destruct l1; [|done]. done. }
  exists h1. destruct (head p2) as [q|] eqn:Eq.
  - destruct (lseg_set_prev _ _ _ _ _ _ (back None p1) D2 Eq S2) as (n & En & S2').
    exists (<[q := set_prev (back None p1) n]> h1). unfold front at 2. rewrite Eq. cbn [if_not_nil].
    rewrite (modify_Some _ _ _ _ En). assert (q ∈ p2) by (destruct p2; [done|injection Eq as ->; left]).
    split_and!; [done|done| |].
    + apply lseg_app; [done|]. split; [|done]. apply lseg_frame; [|done]. intros Hin. apply (Hd q); [done|by right].
    + rewrite lookup_insert_ne; [done|]. by intros ->.
  - exists h1. unfold front at 2. rewrite Eq. split_and!; [done|done| |done].
    destruct p2; [|done]. destruct l2; [|done]. rewrite !app_nil_r. done.
Qed.

(** Putting the node [a] at the end of a list that is not empty. *)
Lemma link_last h ps l a t e m pr nx :
  NoDup ps -> a ∉ ps -> lseg h None ps l None -> last ps = Some t -> h !! a = Some (mkCached e m pr nx) ->
  exists h1 h2 h3 n h',
    modify (Some a) (set_prev (Some t)) h = Ok h1 /\ modify (Some t) (set_next (Some a)) h1 = Ok h2 /\
    modify (Some a) (set_next None) h2 = Ok h3 /\ deref h3 (Some t) = Ok n /\
    modify (Some a) (not_before n) h3 = Ok h' /\
    lseg h' None (ps ++ [a]) (l ++ [(Lru.after l e, m)]) None.
Proof.
  intros Hd Ha H Ht Hn.
  apply (lseg_frame _ _ _ _ _ a (set_prev (Some t) (mkCached e m pr nx)) Ha) in H.
  assert (t <> a) as Hta. { intros ->. apply last_Some in Ht as [? ->]. apply Ha, elem_of_app. right. left. }
  destruct (lseg_set_next _ _ _ _ _ _ (Some a) Hd Ht H) as (n & En & H').
  do 5 eexists. split; [exact (modify_Some _ _ _ _ Hn)|]. split; [exact (modify_Some _ _ _ _ En)|].
  split; [apply (modify_Some _ a (mkCached e m (Some t) nx)); by rewrite lookup_insert_ne, lookup_insert_eq|].
  split; [apply (deref_Some _ t (set_next (Some a) n)); by rewrite lookup_insert_ne, lookup_insert_eq|].
  split; [apply (modify_Some _ a (mkCached e m (Some t) None)); by rewrite lookup_insert_eq|].
  assert (exists l0 x0, l = l0 ++ [x0] /\ expiration n = x0.1) as (l0 & x0 & -> & Ee).
  { destruct (lseg_node _ _ _ _ _ (pred (length ps)) t H) as (x0 & n' & Hx & Hn' & He & _); [by rewrite <- last_lookup|].
    rewrite (lseg_length _ _ _ _ _ H), <- last_lookup in Hx. apply last_Some in Hx as [l0 ->].
    exists l0, x0. split; [done|]. congruence. }
  apply lseg_app; [by eapply lseg_length|]. split; [by rewrite !lseg_frame by done|].
  unfold back. rewrite Ht. cbn [lseg]. rewrite lookup_insert_eq. split; [|done]. f_equal.
  unfold not_before, Lru.after. cbn [set_next set_expiration expiration]. rewrite last_snoc, Ee. cbn [fst snd].
  destruct (Z.ltb_spec e x0.1); [by rewrite Z.max_r by lia|by rewrite Z.max_l by lia].
Qed.

Lemma last_seqs_split l1 x l2 :
  NoDup (Lru.seqs (l1 ++ x :: l2)) ->
  bool_decide (last (Lru.seqs (l1 ++ x :: l2)) = Some (Sequence x.2)) = bool_decide (l2 = []).
Proof.
  intros Hd. apply bool_decide_ext. destruct l2 as [|y l2 _] using rev_ind.
  - rewrite seqs_app. change (Lru.seqs [x]) with [Sequence x.2]. rewrite last_snoc. done.
  - assert (l1 ++ x :: l2 ++ [y] = (l1 ++ x :: l2) ++ [y]) as E by by rewrite <- app_assoc.
    rewrite E in *. rewrite seqs_app. change (Lru.seqs [y]) with [Sequence y.2]. rewrite last_snoc.
    split; [|by destruct l2]. intros [= Hs]. rewrite seqs_app in Hd. apply NoDup_app in Hd as (_ & Hd & _).
    destruct (Hd (Sequence x.2)).
    + rewrite seqs_app. apply elem_of_app. right. left.
    + change (Lru.seqs [y]) with [Sequence y.2]. rewrite Hs. left.
Qed.

(** The cache with a message moved to the end. *)
Lemma moved_holds c p1 a p2 l1 x l2 e h hd :
  holds c (p1 ++ a :: p2) (l1 ++ x :: l2) -> length p1 = length l1 ->
  lseg h None ((p1 ++ p2) ++ [a]) ((l1 ++ l2) ++ [(e, x.2)]) None -> hd = head ((p1 ++ p2) ++ [a]) ->
  holds (mkCache (tryEvict c) (seqMaps c) hd (Some a) h (fresh c)) ((p1 ++ p2) ++ [a]) ((l1 ++ l2) ++ [(e, x.2)]).
Proof.
  intros H Hl HL ->. assert (length p2 = length l2) as Hl2.
  { apply holds_length in H. rewrite !length_app in H. simpl in H. lia. }
  assert ((p1 ++ p2) ++ [a] ≡ₚ p1 ++ a :: p2) as Hp by by rewrite <- app_assoc, <- Permutation_cons_append.
  split; cbn [nodes chead ctail fresh seqMaps tryEvict].
  - done.
  - rewrite Hp. apply H.
  - done.
  - by rewrite last_snoc.
  - rewrite Hp. apply H.
  - rewrite (h_maps _ _ _ H). apply zip_move; [done..|]. apply H.
  - apply seqs_move, H.
  - rewrite (h_evict _ _ _ H), !bool_decide_true; [done| |]; by destruct l1, l2.
Qed.

Lemma get_found now c p1 a p2 l1 x l2 :
  holds c (p1 ++ a :: p2) (l1 ++ x :: l2) -> length p1 = length l1 ->
  seqMaps c !! Sequence x.2 = Some a ->
  exists c', get now (Sequence x.2) c = Ok (Some x.2, c') /\
    holds c' ((p1 ++ p2) ++ [a]) (Lru.get now (Sequence x.2) (l1 ++ x :: l2)).2.
Proof.
  intros H Hl Ha. pose proof (h_nodup _ _ _ H) as Hd.
  unfold Lru.get. rewrite pick_split, last_seqs_split by apply H. cbn [snd].
  pose proof (h_list _ _ _ H) as HA. apply lseg_app in HA as [HA1 [HA HA2]]; [|done].
  unfold get. rewrite Ha, (deref_Some _ _ _ HA). cbn [mbind outcome_bind].
  rewrite (modify_Some _ _ _ _ HA). cbn [mbind outcome_bind]. cbn zeta. cbn [ctail set_expiration msg].
  set (e := i64 (now + cacheTTL)). set (h := <[a := _]> (nodes c)).
  apply NoDup_app in Hd as (D1 & Hdd & Da). apply NoDup_cons in Da as [Na D2].
  assert (a ∉ p1) as Na1 by (intros Hin; apply (Hdd _ Hin); left).
  assert (h !! a = Some (mkCached e x.2 (back None p1) (front p2 None))) as Hh by (unfold h; by rewrite lookup_insert_eq).
  assert (lseg h None (p1 ++ a :: p2) (l1 ++ (e, x.2) :: l2) None) as HL'.
  { apply lseg_app; [done|]. unfold h at 1. rewrite lseg_frame by done. split; [done|].
    cbn [lseg]. split; [done|]. unfold h. by rewrite lseg_frame. }
  rewrite (h_tail _ _ _ H). destruct l2 as [|y l2].
  - destruct p2; [|done]. rewrite last_snoc, !bool_decide_true by done. eexists. split; [done|].
    apply (moved_holds _ _ _ [] _ _ []); [done|done|by rewrite !app_nil_r|rewrite app_nil_r; apply H].
  - destruct (last p2) as [t|] eqn:Et; [|apply last_None in Et; by subst].
    rewrite last_app, last_cons, Et, (bool_decide_false (y :: l2 = [])) by done.
    rewrite bool_decide_false; [|intros [= ->]; apply last_Some in Et as [? ->]; apply Na, elem_of_app; right; left].
    destruct (unlink h p1 a p2 l1 (e, x.2) (y :: l2) Hl (h_nodup _ _ _ H) HL') as (h1 & h2 & E1 & E2 & S2 & A2).
    destruct (link_last h2 (p1 ++ p2) (l1 ++ y :: l2) a t e x.2 (back None p1) (front p2 None))
      as (h3 & h4 & h5 & n & h' & E3 & E4 & E5 & E6 & E7 & S'); [|by apply not_elem_of_app|done|by rewrite last_app, Et|done|].
    { apply NoDup_app. split_and!; [done| |done]. intros z Hz1 Hz2. apply (Hdd z Hz1). by right. }
    unfold move_to_tail. cbn [nodes chead ctail tryEvict seqMaps fresh]. rewrite (deref_Some _ _ _ Hh).
    cbn [mbind outcome_bind prev next]. rewrite E1. cbn [mbind outcome_bind]. rewrite E2. cbn [mbind outcome_bind].
    rewrite E3. cbn [mbind outcome_bind]. rewrite E4. cbn [mbind outcome_bind]. rewrite E5. cbn [mbind outcome_bind].
    rewrite E6. cbn [mbind outcome_bind]. rewrite E7. cbn [mbind outcome_bind].
    eexists. split; [done|]. apply moved_holds; [done..|]. rewrite (h_head _ _ _ H).
    destruct p1 as [|p p1]; cbn [app head].
    + rewrite bool_decide_true by done. by destruct p2.
    + rewrite bool_decide_false; [done|]. intros [= ->]. apply Na1. left.
Qed.

Lemma get_holds now seq c l :
  repr c l ->
  exists c', get now seq c = Ok ((Lru.get now seq l).1, c') /\ repr c' (Lru.get now seq l).2.
Proof.
  intros [ps H]. destruct (seqMaps c !! seq) as [a|] eqn:Ha.
  - destruct (holds_split _ _ _ _ _ H Ha) as (p1 & p2 & l1 & x & l2 & -> & -> & Hl & <-).
    destruct (get_found now _ _ _ _ _ _ _ H Hl Ha) as (c' & E & H'). exists c'. rewrite E. split; [|by eexists].
    unfold Lru.get. by rewrite pick_split by apply H.
  - exists c. unfold get, Lru.get. rewrite Ha, pick_None by (by eapply maps_None). split; [done|by eexists].
Qed.
(** The new node, linked at the end. *)
Lemma push_list c ps l e m :
  holds c ps l ->
  exists h n, match ctail c with
       | None => Ok (nodes c, mkCached e m None None)
       | Some _ =>
           h ← modify (ctail c) (set_next (Some (fresh c))) (nodes c);
           t ← deref h (ctail c);
           Ok (h, not_before t (mkCached e m None None))
       end = Ok (h, n) /\
    lseg (<[fresh c := set_prev (ctail c) n]> h) None (ps ++ [fresh c]) (Lru.push e m l) None.
Proof.
  intros H. pose proof (h_list _ _ _ H) as HL.
  assert (fresh c ∉ ps) as Hf.
  { intros Hin. pose proof (h_fresh _ _ _ H) as Hf. rewrite Forall_forall in Hf. specialize (Hf _ Hin). lia. }
  rewrite (h_tail _ _ _ H). destruct (last ps) as [t|] eqn:Et.
  - destruct (lseg_set_next _ _ _ _ _ _ (Some (fresh c)) (h_nodup _ _ _ H) Et HL) as (n & En & HL').
    rewrite (modify_Some _ _ _ _ En). cbn [mbind outcome_bind].
    rewrite (deref_Some _ t (set_next (Some (fresh c)) n)) by by rewrite lookup_insert_eq. cbn [mbind outcome_bind].
    eexists _, _. split; [done|]. apply lseg_app; [by eapply lseg_length|].
    split; [by apply lseg_frame|]. unfold back. rewrite Et. cbn [lseg]. rewrite lookup_insert_eq.
    split; [|done]. f_equal. destruct (lseg_node _ _ _ _ _ (pred (length ps)) t HL) as (x0 & n' & Hx & Hn' & He & _);
      [by rewrite <- last_lookup|].
    rewrite (lseg_length _ _ _ _ _ HL), <- last_lookup in Hx. assert (n = n') as <- by congruence.
    unfold not_before, Lru.after. rewrite Hx. cbn [set_next expiration]. rewrite He.
    destruct (Z.ltb_spec e x0.1); cbn [fst snd]; [by rewrite Z.max_r by lia|by rewrite Z.max_l by lia].
  - apply last_None in Et as ->. destruct l; [|done]. eexists _, _. split; [done|].
    cbn [app lseg Lru.push]. by rewrite lookup_insert_eq.
Qed.

Lemma push_holds c l e m :
  repr c l -> Sequence m ∉ Lru.seqs l ->
  exists c', push (Sequence m) e m c = Ok c' /\ repr c' (Lru.push e m l).
Proof.
  intros [ps H] Hn. destruct (push_list c ps l e m H) as (h & n & E & HL). unfold push. rewrite E.
  cbn [mbind outcome_bind fst snd]. eexists. split; [done|]. exists (ps ++ [fresh c]).
  assert (fresh c ∉ ps) as Hf.
  { intros Hin. pose proof (h_fresh _ _ _ H) as Hf. rewrite Forall_forall in Hf. specialize (Hf _ Hin). lia. }
  pose proof (holds_length _ _ _ H) as Hl.
  assert (Lru.seqs (Lru.push e m l) = Lru.seqs l ++ [Sequence m]) as Es by (unfold Lru.push; by rewrite seqs_app).
  split; cbn [nodes chead ctail fresh seqMaps tryEvict].
  - done.
  - apply NoDup_app. split_and!; [apply H| |apply NoDup_singleton]. by intros p Hp ->%list_elem_of_singleton.
  - rewrite (h_tail _ _ _ H), (h_head _ _ _ H). by destruct ps as [|p ps]; [|rewrite last_cons; destruct (last ps)].
  - by rewrite last_snoc.
  - apply Forall_app. split; [|by constructor; [lia|]]. eapply Forall_impl; [apply H|]. simpl. lia.
  - rewrite Es, zip_with_app by by rewrite length_seqs. cbn [zip_with]. rewrite (h_maps _ _ _ H).
    rewrite list_to_map_snoc; [done|]. by rewrite fst_zip by (rewrite length_seqs; lia).
  - rewrite Es. apply NoDup_app. split_and!; [apply H| |apply NoDup_singleton]. by intros p Hp ->%list_elem_of_singleton.
  - rewrite (bool_decide_true (Lru.push e m l <> [])) by by destruct l.
    case_bool_decide as Hs; [done|]. rewrite (h_evict _ _ _ H). apply bool_decide_true. intros ->.
    apply Hs. rewrite (h_maps _ _ _ H). destruct ps; [|done].
    change (size (<[Sequence m := fresh c]> (∅ : gmap Z nat)) = 1%nat). by rewrite insert_empty, map_size_singleton.
Qed.
Lemma add_holds now m isNew checkPresent c l :
  repr c l -> (checkPresent = false -> Sequence m ∉ Lru.seqs l) ->
  exists c', add now (Sequence m) m isNew checkPresent c = Ok c' /\ repr c' (Lru.add now m isNew checkPresent l).
Proof.
  intros H Hn. unfold add, Lru.add. destruct checkPresent; cbn [mbind outcome_bind fst snd].
  - destruct (get_holds now (Sequence m) c l H) as (c' & -> & H'). cbn [mbind outcome_bind fst snd].
    destruct (Lru.get now (Sequence m) l) as [[m'|] l'] eqn:Eg; cbn [fst snd] in *; [by eexists|].
    apply push_holds; [done|]. unfold Lru.get in Eg. destruct (Lru.pick (Sequence m) l) as [[]|] eqn:Ep; [done|].
    injection Eg as <-. intros Hin. apply list_elem_of_lookup in Hin as [i Hi]. unfold Lru.seqs in Hi.
    rewrite !list_lookup_fmap in Hi. destruct (l !! i) as [x|] eqn:Ex; [|done]. injection Hi as Hi.
    destruct H as [ps H]. apply list_elem_of_split_length in Ex as (l1 & l2 & -> & _).
    rewrite <- Hi, pick_split in Ep by apply H. done.
  - apply push_holds; [done|]. by apply Hn.
Qed.

Lemma drop_expired_suffix now l :
  exists k, Lru.drop_expired now l = drop k l /\ (k <= length l)%nat.
Proof.
  induction l as [|x l (k & E & Hk)]; [by exists 0%nat|]. cbn [Lru.drop_expired].
  destruct (x.1 <=? now); [exists (S k); simpl; split; [done|lia]|exists 0%nat; simpl; split; [done|lia]].
Qed.

Lemma evict_loop_spec fuel now h prv ps l :
  lseg h prv ps l None -> NoDup (Lru.seqs l) -> (length ps <= fuel)%nat ->
  exists k, Lru.drop_expired now l = drop k l /\
    evict_loop fuel now (head ps) (list_to_map (zip (Lru.seqs l) ps)) h =
    Ok (head (drop k ps), list_to_map (zip (Lru.seqs (drop k l)) (drop k ps))).
Proof.
  revert fuel prv ps. induction l as [|x l IH]; intros fuel prv [|p ps] H Hd Hf; try done.
  { exists 0%nat. by destruct fuel. }
  destruct H as [Hp H]. cbn [length] in Hf. destruct fuel as [|fuel]; [lia|]. cbn [head evict_loop Lru.drop_expired].
  rewrite (deref_Some _ _ _ Hp). cbn [mbind outcome_bind expiration msg next].
  destruct (x.1 <=? now); [|by exists 0%nat].
  apply NoDup_cons in Hd as [Hn Hd].
  destruct (IH fuel (Some p) ps H Hd ltac:(lia)) as (k & Ek & El). exists (S k). split; [done|].
  cbn [drop]. rewrite <- El. f_equal; [by destruct ps|].
  change (Lru.seqs (x :: l)) with (Sequence x.2 :: Lru.seqs l). cbn [zip_with]. rewrite list_to_map_cons.
  cbn [fst snd]. rewrite delete_insert_id; [done|]. apply not_elem_of_list_to_map_1.
  rewrite fst_zip by (rewrite length_seqs; by erewrite <- lseg_length). done.
Qed.

Lemma holds_fuel c ps l : holds c ps l -> (length ps <= fresh c)%nat.
Proof.
  intros H. rewrite <- (length_seq (fresh c) 0). apply submseteq_length, NoDup_submseteq; [apply H|].
  intros p Hp. apply elem_of_seq. pose proof (h_fresh _ _ _ H) as Hf. rewrite Forall_forall in Hf.
  specialize (Hf _ Hp). lia.
Qed.

Lemma empty_holds c l : repr c l -> repr (empty c) [].
Proof. intros [ps H]. exists []. split; try done; apply NoDup_nil_2. Qed.

(** A suffix of the list, whose first node has lost its predecessor. *)
Lemma suffix_holds c ps l k p h :
  holds c ps l -> (k < length l)%nat -> head (drop k ps) = Some p -> 
  (exists n, nodes c !! p = Some n /\ h = <[p := set_prev None n]> (nodes c)) ->
  holds (mkCache (tryEvict c) (list_to_map (zip (Lru.seqs (drop k l)) (drop k ps))) (Some p) (ctail c) h (fresh c))
    (drop k ps) (drop k l).
Proof.
  intros H Hk Hp (n & Hn & ->). pose proof (holds_length _ _ _ H) as Hl.
  pose proof (h_list _ _ _ H) as HL. rewrite <- (take_drop k ps), <- (take_drop k l) in HL.
  apply lseg_app in HL as [_ HL]; [|rewrite !length_take; lia].
  pose proof (h_nodup _ _ _ H) as Hd. rewrite <- (take_drop k ps) in Hd. apply NoDup_app in Hd as (_ & _ & Hd).
  destruct (lseg_set_prev _ _ _ _ _ _ None Hd Hp HL) as (n' & Hn' & HL').
  split; cbn [nodes chead ctail fresh seqMaps tryEvict].
  - congruence.
  - done.
  - done.
  - rewrite (h_tail _ _ _ H), !last_lookup, lookup_drop, length_drop. f_equal. lia.
  - apply Forall_drop, H.
  - done.
  - pose proof (h_seqs _ _ _ H) as Hs. rewrite <- (take_drop k l), seqs_app in Hs. by apply NoDup_app in Hs as (_ & _ & Hs).
  - rewrite (h_evict _ _ _ H), !bool_decide_true; [done| |].
    + intros E. apply (f_equal length) in E. rewrite length_drop in E. simpl in E. lia.
    + intros ->. simpl in Hk. lia.
Qed.
Lemma drop_expired_nonempty now l x :
  last l = Some x -> now < x.1 -> forall k, Lru.drop_expired now l = drop k l -> (k < length l)%nat.
Proof.
  intros Hx Hn k E. destruct (decide (k < length l)%nat) as [|Hk]; [done|]. exfalso.
  rewrite drop_ge in E by lia. clear k Hk. induction l as [|y l IH]; [done|]. cbn [Lru.drop_expired] in E.
  destruct (Z.leb_spec y.1 now) as [Hy|]; [|done]. destruct l as [|z l]; [injection Hx as ->; lia|].
  apply IH; [|done]. by rewrite last_cons in Hx; destruct (last (z :: l)) eqn:El; [|by apply last_None in El].
Qed.

Lemma evict_holds now c l :
  repr c l -> exists c', evict now c = Ok c' /\ repr c' (Lru.evict now l).
Proof.
  intros [ps H]. pose proof (holds_length _ _ _ H) as Hl. unfold evict, Lru.evict. rewrite (h_head _ _ _ H).
  destruct ps as [|p0 ps0] eqn:Eps; [destruct l; [|done]; exists c; split; [done|by eexists]|].
  rewrite <- Eps in *. destruct (last ps) as [t|] eqn:Et; [|apply last_None in Et; by subst].
  destruct (lseg_node _ _ _ _ _ (pred (length ps)) t (h_list _ _ _ H)) as (x & n & Hx & Hn & He & _);
    [by rewrite <- last_lookup|]. rewrite Hl, <- last_lookup in Hx.
  replace (head ps) with (Some p0) by by rewrite Eps. rewrite (h_tail _ _ _ H), Et, (deref_Some _ _ _ Hn), Hx.
  cbn [mbind outcome_bind]. rewrite He. destruct (Z.leb_spec x.1 now) as [|Hlt].
  { eexists. split; [done|]. apply (empty_holds c l). by eexists. }
  destruct (evict_loop_spec (fresh c) now _ _ _ _ (h_list _ _ _ H) (h_seqs _ _ _ H) (holds_fuel _ _ _ H)) as (k & Ek & El).
  replace (Some p0) with (head ps) by by rewrite Eps. rewrite (h_maps _ _ _ H), El. cbn [mbind outcome_bind fst snd].
  pose proof (drop_expired_nonempty now l x Hx Hlt k Ek) as Hk. rewrite Ek.
  destruct (ps !! k) as [p|] eqn:Ep; [|apply lookup_ge_None in Ep; lia].
  assert (head (drop k ps) = Some p) as Hp by by rewrite head_lookup, lookup_drop, Nat.add_0_r.
  destruct (lseg_node _ _ _ _ _ _ _ (h_list _ _ _ H) Ep) as (y & np & _ & Hnp & _).
  assert (head ps = Some p0) as Hh by by rewrite Eps. rewrite Hp, Hh. case_bool_decide as E0.
  - destruct k as [|k]; [eexists; split; [done|]; exists ps; destruct H; split; by rewrite ?drop_0|].
    exfalso. pose proof (h_nodup _ _ _ H) as Hd. rewrite Eps in Hd, Ep. injection E0 as <-. cbn in Ep.
    apply NoDup_cons in Hd as [Hd _]. apply Hd. by eapply list_elem_of_lookup_2.
  - rewrite (modify_Some _ _ _ _ Hnp). cbn [mbind outcome_bind]. eexists. split; [done|]. exists (drop k ps).
    rewrite <- Et, <- (h_tail _ _ _ H). apply suffix_holds; [done..|]. by eexists.
Qed.

Lemma init_repr : repr initCache [].
Proof. exists []. split; try done; apply NoDup_nil_2. Qed.
(** ** What a list keeps *)

Lemma pick_Some seq l m r : Lru.pick seq l = Some (m, r) -> Sequence m = seq /\ l.*2 ≡ₚ m :: r.*2.
Proof.
  revert r. induction l as [|x l IH]; intros r; [done|]. cbn [Lru.pick].
  destruct (Z.eqb_spec (Sequence x.2) seq) as [E|].
  - intros [= <- <-]. by split.
  - destruct (Lru.pick seq l) as [[m' r']|]; [|done]. intros [= <- <-]. destruct (IH r' eq_refl) as [-> Hp].
    split; [done|]. cbn. rewrite Hp. by constructor.
Qed.

Lemma lru_get_Some now seq l m : (Lru.get now seq l).1 = Some m -> m ∈ l.*2 /\ Sequence m = seq.
Proof.
  unfold Lru.get. destruct (Lru.pick seq l) as [[m' r]|] eqn:E; [|done]. intros [= <-].
  apply pick_Some in E as [Es Hp]. rewrite Hp. split; [left|done].
Qed.

Lemma lru_get_elems now seq l : (Lru.get now seq l).2.*2 ≡ₚ l.*2.
Proof.
  unfold Lru.get. destruct (Lru.pick seq l) as [[m r]|] eqn:E; [|done]. apply pick_Some in E as [_ Hp].
  cbn [snd]. rewrite fmap_app, Hp. cbn. by rewrite <- Permutation_cons_append.
Qed.

Lemma lru_get_None now seq l : (Lru.get now seq l).1 = None -> seq ∉ Lru.seqs l.
Proof.
  unfold Lru.get. destruct (Lru.pick seq l) as [[m r]|] eqn:E; [done|]. intros _.
  induction l as [|x l IH]; [by intros ?%elem_of_nil|]. cbn [Lru.pick] in E.
  destruct (Z.eqb_spec (Sequence x.2) seq); [done|]. destruct (Lru.pick seq l) as [[]|]; [done|].
  intros Hin. apply elem_of_cons in Hin as [->|Hin]; [done|]. by apply IH.
Qed.

Lemma lru_add_elems now m isNew checkPresent l x :
  x ∈ (Lru.add now m isNew checkPresent l).*2 -> x = m \/ x ∈ l.*2.
Proof.
  unfold Lru.add. destruct checkPresent.
  - pose proof (lru_get_elems now (Sequence m) l) as Hp.
    destruct (Lru.get now (Sequence m) l) as [[m'|] l']; cbn [snd] in Hp; [rewrite Hp; by right|].
    unfold Lru.push. rewrite fmap_app, Hp, elem_of_app. cbn. rewrite list_elem_of_singleton. tauto.
  - unfold Lru.push. rewrite fmap_app, elem_of_app. cbn. rewrite list_elem_of_singleton. tauto.
Qed.

Lemma lru_evict_elems now l x : x ∈ (Lru.evict now l).*2 -> x ∈ l.*2.
Proof.
  unfold Lru.evict. destruct (last l) as [y|]; [|by intros ?%elem_of_nil].
  destruct (y.1 <=? now); [by intros ?%elem_of_nil|].
  destruct (drop_expired_suffix now l) as (k & -> & _). rewrite fmap_drop. intros Hx.
  rewrite <- (take_drop k (l.*2)). apply elem_of_app. by right.
Qed.

(** ** Any use of the cache *)

Inductive op :=
| Get (now seq : Z)
| Add (now : Z) (m : MsgProto) (isNew checkPresent : bool)
| Evict (now : Z)
| Empty.

Definition exec (c : msgsCache) (o : op) : outcome rec_error (option MsgProto * msgsCache) :=
  match o with
  | Get now seq => get now seq c
  | Add now m isNew checkPresent => c ← add now (Sequence m) m isNew checkPresent c; Ok (None, c)
  | Evict now => c ← evict now c; Ok (None, c)
  | Empty => Ok (None, empty c)
  end.

Definition spec (l : Lru.t) (o : op) : option MsgProto * Lru.t :=
  match o with
  | Get now seq => Lru.get now seq l
  | Add now m isNew checkPresent => (None, Lru.add now m isNew checkPresent l)
  | Evict now => (None, Lru.evict now l)
  | Empty => (None, [])
  end.

(** The store adds without a check only what is not in the cache. *)
Definition op_ok (l : Lru.t) (o : op) : Prop :=
  match o with Add _ m _ false => Sequence m ∉ Lru.seqs l | _ => True end.

Fixpoint ops_ok (l : Lru.t) (ops : list op) : Prop :=
  match ops with [] => True | o :: ops => op_ok l o /\ ops_ok (spec l o).2 ops end.

Fixpoint exec_all (c : msgsCache) (ops : list op) : outcome rec_error (list (option MsgProto) * msgsCache) :=
  match ops with
  | [] => Ok ([], c)
  | o :: ops => r ← exec c o; rs ← exec_all r.2 ops; Ok (r.1 :: rs.1, rs.2)
  end.

Fixpoint spec_all (l : Lru.t) (ops : list op) : list (option MsgProto) * Lru.t :=
  match ops with
  | [] => ([], l)
  | o :: ops => let r := spec l o in let rs := spec_all r.2 ops in (r.1 :: rs.1, rs.2)
  end.

Lemma exec_holds c l o :
  repr c l -> op_ok l o -> exists c', exec c o = Ok ((spec l o).1, c') /\ repr c' (spec l o).2.
Proof.
  intros H Ho. destruct o as [now seq|now m isNew cp|now|]; cbn [exec spec fst snd].
  - by apply get_holds.
  - destruct (add_holds now m isNew cp c l H) as (c' & -> & H'); [intros ->; exact Ho|]. by eexists.
  - destruct (evict_holds now c l H) as (c' & -> & H'). by eexists.
  - eexists. split; [done|]. by eapply empty_holds.
Qed.

Lemma exec_all_holds c l ops :
  repr c l -> ops_ok l ops ->
  exists c', exec_all c ops = Ok ((spec_all l ops).1, c') /\ repr c' (spec_all l ops).2.
Proof.
  revert c l. induction ops as [|o ops IH]; intros c l H Hok; [by eexists|]. destruct Hok as [Ho Hok].
  destruct (exec_holds c l o H Ho) as (c1 & E1 & H1). destruct (IH c1 _ H1 Hok) as (c2 & E2 & H2).
  exists c2. cbn [exec_all spec_all]. rewrite E1. cbn [mbind outcome_bind fst snd]. rewrite E2. done.
Qed.

(** [C26] However the cache is used, no pointer that is followed is nil, its answers are those
    of a list of messages in the order of use, and the map has an entry for each message
    of the list and for nothing else. *)
Theorem cache_is_lru ops :
  ops_ok [] ops ->
  exists c, exec_all initCache ops = Ok ((spec_all [] ops).1, c) /\
    dom (seqMaps c) = list_to_set (Lru.seqs (spec_all [] ops).2) /\
    tryEvict c = bool_decide ((spec_all [] ops).2 <> []).
Proof.
  intros Hok. destruct (exec_all_holds _ _ ops init_repr Hok) as (c & E & ps & H). exists c.
  split; [done|]. split; [|apply H]. rewrite (h_maps _ _ _ H), dom_list_to_map_L.
  by rewrite fst_zip by (rewrite length_seqs, (holds_length _ _ _ H); done).
Qed.
End CacheSpec.

Module CacheSample.
Import Cache CacheSpec MemSample.

Lemma cache_is_lru_witness :
  exists c, exec_all initCache [Add 0 (msg 1 5) true false; Add 0 (msg 2 7) true false; Get 9 1; Evict 1000000008; Get 10 2; Get 10 1] =
    Ok ([None; None; Some (msg 1 5); None; None; Some (msg 1 5)], c) /\
  dom (seqMaps c) = {[1]} /\ tryEvict c = true.
Proof.
  destruct (cache_is_lru [Add 0 (msg 1 5) true false; Add 0 (msg 2 7) true false; Get 9 1; Evict 1000000008; Get 10 2; Get 10 1])
    as (c & E & D & T).
  - cbn. split_and!; [by intros ?%elem_of_nil|by vm_compute; intros ?%list_elem_of_singleton|done..].
  - exists c. split; [exact E|]. split; [rewrite D; vm_compute; reflexivity|exact T].
Defined.
End CacheSample.
