(* ===== verification/FilesManager.v ===== *)
(** * The files manager

    Model of [filesManager] ([src/stores/filestore.go]), which keeps the number of open
    file descriptors below a limit by closing files that no store is using.  A file is
    named by its ID; [mem] has every file that was created, also those that are no more in
    the manager's list.  The states change by atomic operations, and the methods that
    close or open files hold the manager's lock: each is one step.  Whether the system
    opens a file, and whether a callback succeeds, is an argument. *)

From Stdlib Require Import ZArith Lia.
From stdpp Require Import base list gmap.
From S2P Require Import Prelude.

Local Open Scope Z_scope.

Module FM.

(** ** Data *)

Inductive file_state := fileOpened | fileInUse | fileClosing | fileClosed | fileRemoved | fmClosed.

#[export] Instance file_state_eq_dec : EqDecision file_state.
Proof. solve_decision. Defined.

(** [handle] is whether the handle is not nil. *)
Record file := mkFile { state : file_state; handle : bool }.

(** [listed] is the set of the keys of the map [files]. *)
Record filesManager := mkFM {
  openedFDs : Z;
  limit : Z;
  listed : gset Z;
  nextID : Z;
  isClosed : bool;
  mem : gmap Z file
}.

Inductive fm_error := ErrClosed | ErrRemoved | ErrOpen | ErrCallback | ErrLocked.

Definition set_file (i : Z) (f : file) (fm : filesManager) : filesManager :=
  mkFM (openedFDs fm) (limit fm) (listed fm) (nextID fm) (isClosed fm) (<[i := f]> (mem fm)).
Definition set_fds (n : Z) (fm : filesManager) : filesManager :=
  mkFM n (limit fm) (listed fm) (nextID fm) (isClosed fm) (mem fm).
Definition set_listed (X : gset Z) (fm : filesManager) : filesManager :=
  mkFM (openedFDs fm) (limit fm) X (nextID fm) (isClosed fm) (mem fm).

(** The file that a pointer names. *)
Definition get_file (i : Z) (fm : filesManager) : outcome fm_error file :=
  match mem fm !! i with Some f => Ok f | None => Panic end.

(** [atomic.CompareAndSwapInt32(&file.state, old, new)] *)
Definition swap (i : Z) (old new : file_state) (fm : filesManager) : outcome fm_error (bool * filesManager) :=
  f ← get_file i fm;
  if bool_decide (state f = old) then Ok (true, set_file i (mkFile new (handle f)) fm) else Ok (false, fm).

Section Manager.
Context `{!RangeOrder Z} (beforeClose : Z -> bool).

(** ** Operations *)

Definition createFilesManager (openedFilesLimit : Z) : filesManager :=
  mkFM 0 openedFilesLimit ∅ 0 false ∅.

(** The error of the callback is returned; the file is closed whatever it is. *)
Definition doClose (i : Z) (fm : filesManager) : option fm_error * filesManager :=
  (if beforeClose i then None else Some ErrCallback,
   set_fds (openedFDs fm - 1) (set_file i (mkFile fileClosed false) fm)).

Fixpoint close_loop (idToSkip : Z) (ids : list Z) (fm : filesManager) : outcome fm_error filesManager :=
  match ids with
  | [] => Ok fm
  | i :: ids' =>
      if i =? idToSkip then close_loop idToSkip ids' fm
      else
        r ← swap i fileOpened fileClosing fm;
        if (r.1 : bool) then
          let fm := (doClose i r.2).2 in
          if openedFDs fm <? limit fm then Ok fm else close_loop idToSkip ids' fm
        else close_loop idToSkip ids' fm
  end.

Definition closeUnusedFiles (idToSkip : Z) (fm : filesManager) : outcome fm_error filesManager :=
  close_loop idToSkip (order (listed fm)) fm.

(** [if fm.limit > 0 && fm.openedFDs >= fm.limit { ... }] *)
Definition make_room (idToSkip : Z) (fm : filesManager) : outcome fm_error filesManager :=
  if (0 <? limit fm) && (limit fm <=? openedFDs fm) then closeUnusedFiles idToSkip fm else Ok fm.

(** [ok] is whether the system opens the file. *)
Definition createFile (ok : bool) (fm : filesManager) : outcome fm_error ((Z + fm_error) * filesManager) :=
  if isClosed fm then Ok (inr ErrClosed, fm)
  else
    fm ← make_room 0 fm;
    if negb ok then Ok (inr ErrOpen, fm)
    else let i := nextID fm + 1 in
         Ok (inl i, mkFM (openedFDs fm + 1) (limit fm) (listed fm ∪ {[i]}) i (isClosed fm)
                      (<[i := mkFile fileInUse true]> (mem fm))).

Definition openFile (ok : bool) (i : Z) (fm : filesManager) : outcome fm_error (option fm_error * filesManager) :=
  if isClosed fm then Ok (Some ErrClosed, fm)
  else
    f ← get_file i fm;
    if bool_decide (state f = fileRemoved) then Ok (Some ErrRemoved, fm)
    else if negb (bool_decide (state f = fileClosed)) || handle f then Panic
    else
      fm ← make_room i fm;
      if ok then Ok (None, set_fds (openedFDs fm + 1) (set_file i (mkFile fileInUse true) fm))
      else Ok (Some ErrOpen, fm).

Definition closeLockedFile (i : Z) (fm : filesManager) : outcome fm_error (option fm_error * filesManager) :=
  r ← swap i fileInUse fileClosing fm;
  if (r.1 : bool) then Ok (doClose i r.2) else Panic.

Definition closeFileIfOpened (i : Z) (fm : filesManager) : outcome fm_error (option fm_error * filesManager) :=
  r ← swap i fileOpened fileClosing fm;
  if (r.1 : bool) then Ok (doClose i r.2) else Ok (None, fm).

Definition closeLockedOrOpenedFile (i : Z) (fm : filesManager) : outcome fm_error (option fm_error * filesManager) :=
  r ← swap i fileInUse fileClosing fm;
  if (r.1 : bool) then Ok (doClose i r.2)
  else r ← swap i fileOpened fileClosing fm; if (r.1 : bool) then Ok (doClose i r.2) else Ok (None, fm).

(** Whether the file was open already, or the error. *)
Definition lockFile (ok : bool) (i : Z) (fm : filesManager) : outcome fm_error ((bool + fm_error) * filesManager) :=
  r ← swap i fileOpened fileInUse fm;
  if (r.1 : bool) then Ok (inl true, r.2)
  else r ← openFile ok i fm; Ok (match r.1 with None => inl false | Some e => inr e end, r.2).

Definition lockFileIfOpened (i : Z) (fm : filesManager) : outcome fm_error (bool * filesManager) :=
  swap i fileOpened fileInUse fm.

Definition unlockFile (i : Z) (fm : filesManager) : outcome fm_error filesManager :=
  r ← swap i fileInUse fileOpened fm; if (r.1 : bool) then Ok r.2 else Panic.

(** The attempts of the loop are spaced in time; between two steps of this model the
    state of the file does not change, and one attempt is as good as many. *)
Definition trySwitchState (i : Z) (newState : file_state) (fm : filesManager)
  : outcome fm_error ((bool + fm_error) * filesManager) :=
  r ← swap i fileOpened newState fm;
  if (r.1 : bool) then Ok (inl true, r.2)
  else r ← swap i fileClosed newState fm; if (r.1 : bool) then Ok (inl false, r.2) else Ok (inr ErrLocked, fm).

Definition remove (i : Z) (fm : filesManager) : outcome fm_error (bool * filesManager) :=
  r ← trySwitchState i fileRemoved fm;
  match (r.1 : bool + fm_error) with
  | inr _ => Ok (false, r.2)
  | inl wasOpened =>
      let fm := set_listed (listed r.2 ∖ {[i]}) r.2 in
      Ok (true, if wasOpened then set_fds (openedFDs fm - 1) fm else fm)
  end.

(** On a file opened with [O_APPEND].  The descriptor that truncates is not counted. *)
Definition truncateFile (ok : bool) (i : Z) (fm : filesManager) : outcome fm_error (option fm_error * filesManager) :=
  r ← closeLockedFile i fm;
  match r.1 with Some e => Ok (Some e, r.2) | None => openFile ok i r.2 end.

Fixpoint close_all (ids : list Z) (err : option fm_error) (fm : filesManager)
  : outcome fm_error (option fm_error * filesManager) :=
  match ids with
  | [] => Ok (err, fm)
  | i :: ids' =>
      r ← trySwitchState i fmClosed fm;
      match (r.1 : bool + fm_error) with
      | inr e => close_all ids' (match err with None => Some e | _ => err end) r.2
      | inl true =>
          let '(cerr, fm) := doClose i r.2 in
          close_all ids' (match err, cerr with None, Some e => Some e | _, _ => err end) fm
      | inl false => close_all ids' err r.2
      end
  end.

Definition close (fm : filesManager) : outcome fm_error (option fm_error * filesManager) :=
  if isClosed fm then Ok (None, fm)
  else close_all (order (listed fm)) None
         (mkFM (openedFDs fm) (limit fm) ∅ (nextID fm) true (mem fm)).
End Manager.
End FM.

(** ** Specification *)

Module FMSpec.
Import FM.

(** The files that have a descriptor of the manager. *)
Definition is_open (f : file) : bool :=
  match state f with fileOpened | fileInUse => true | _ => false end.

Definition opens (m : gmap Z file) : Z := map_fold (fun _ f n => (if is_open f then 1 else 0) + n) 0 m.

Lemma opens_new m i f : m !! i = None -> opens (<[i := f]> m) = (if is_open f then 1 else 0) + opens m.
Proof. intros Hi. unfold opens. rewrite map_fold_insert_L; [done| |done]. intros. lia. Qed.

Lemma opens_set m i f g :
  m !! i = Some f ->
  opens (<[i := g]> m) = opens m - (if is_open f then 1 else 0) + (if is_open g then 1 else 0).
Proof.
  intros Hi. rewrite <- insert_delete_eq, opens_new by apply lookup_delete_eq.
  assert (opens m = (if is_open f then 1 else 0) + opens (delete i m)) as ->.
  { rewrite <- (opens_new _ i f) by apply lookup_delete_eq. by rewrite insert_delete_id. }
  lia.
Qed.

(** A handle is open exactly when the state says so. *)
Definition file_ok (closed : bool) (f : file) : Prop :=
  match state f with
  | fileOpened | fileInUse => handle f = true
  | fileClosed => handle f = false
  | fileClosing => False
  | fmClosed => closed = true
  | fileRemoved => True
  end.

Record inv (fm : filesManager) : Prop := {
  i_count : openedFDs fm = opens (mem fm);
  i_files : map_Forall (fun _ => file_ok (isClosed fm)) (mem fm);
  i_listed : listed fm ⊆ dom (mem fm);
  i_next : map_Forall (fun i _ => 0 < i <= nextID fm) (mem fm);
  i_pos : 0 <= nextID fm
}.

(** What no operation on other files changes: the files in use, the files known. *)
Definition keeps (X : gset Z) (fm fm' : filesManager) : Prop :=
  limit fm' = limit fm /\ dom (mem fm) ⊆ dom (mem fm') /\
  forall i f, i ∉ X -> mem fm !! i = Some f -> state f = fileInUse -> mem fm' !! i = Some f.

Lemma keeps_refl X fm : keeps X fm fm.
Proof. by split_and!. Qed.

Lemma keeps_trans X fm fm' fm'' : keeps X fm fm' -> keeps X fm' fm'' -> keeps X fm fm''.
Proof.
  intros (L1 & D1 & K1) (L2 & D2 & K2). split_and!; [congruence|set_solver|]. eauto.
Qed.

(** Changing one file. *)
Definition update (i : Z) (g : file) (n : Z) (fm : filesManager) : filesManager :=
  set_fds n (set_file i g fm).

Lemma fm_update_inv i f g n fm :
  inv fm -> mem fm !! i = Some f -> file_ok (isClosed fm) g ->
  n = openedFDs fm - (if is_open f then 1 else 0) + (if is_open g then 1 else 0) ->
  inv (update i g n fm).
Proof.
  intros H Hi Hg ->. split; cbn.
  - by rewrite (opens_set _ _ f), (i_count _ H).
  - apply map_Forall_insert_2; [done|apply H].
  - rewrite dom_insert_L. pose proof (i_listed _ H). set_solver.
  - apply map_Forall_insert_2; [by apply (i_next _ H i f)|apply H].
  - apply H.
Qed.

Lemma update_keeps X i f g n fm :
  mem fm !! i = Some f -> i ∈ X \/ state f <> fileInUse -> keeps X fm (update i g n fm).
Proof.
  intros Hi Hx. split_and!; [done|cbn; rewrite dom_insert_L; set_solver|]. intros j f' Hj Hf' Hs. cbn.
  destruct (decide (i = j)) as [->|]; [|by rewrite lookup_insert_ne].
  assert (f' = f) as -> by congruence. by destruct Hx.
Qed.

(** Two changes of the same file are one. *)
Lemma update_close i g fm : set_file i (mkFile fileClosed false) (set_file i g fm) =
  set_file i (mkFile fileClosed false) fm.
Proof. unfold set_file. cbn. by rewrite insert_insert_eq. Qed.

Lemma swap_Some i f old new fm : mem fm !! i = Some f -> swap i old new fm =
  if bool_decide (state f = old) then Ok (true, set_file i (mkFile new (handle f)) fm) else Ok (false, fm).
Proof. unfold swap, get_file. by intros ->. Qed.

Section Manager.
Context `{!RangeOrder Z} (beforeClose : Z -> bool).

(** Closing a file that is open. *)
Lemma doClose_spec X i f g fm :
  inv fm -> mem fm !! i = Some f -> is_open f = true -> i ∈ X \/ state f <> fileInUse ->
  let fm' := (doClose beforeClose i (set_file i g fm)).2 in
  inv fm' /\ keeps X fm fm' /\ openedFDs fm' = openedFDs fm - 1 /\ isClosed fm' = isClosed fm /\
  listed fm' = listed fm /\ mem fm' = <[i := mkFile fileClosed false]> (mem fm).
Proof.
  intros H Hi Ho Hx. cbn zeta. unfold doClose. cbn [snd]. rewrite update_close.
  change (set_fds (openedFDs (set_file i g fm) - 1) (set_file i (mkFile fileClosed false) fm))
    with (update i (mkFile fileClosed false) (openedFDs fm - 1) fm).
  split_and!; [|by eapply update_keeps|done..].
  eapply fm_update_inv; [done..|]. rewrite Ho. cbn. lia.
Qed.

(** [closeUnusedFiles] stops below the limit, or has closed all that is not in use. *)
Lemma close_loop_spec X idToSkip ids fm :
  inv fm -> (forall i, i ∈ ids -> i ∈ dom (mem fm)) ->
  exists fm', close_loop beforeClose idToSkip ids fm = Ok fm' /\ inv fm' /\ keeps X fm fm' /\
    isClosed fm' = isClosed fm /\ listed fm' = listed fm /\ nextID fm' = nextID fm /\ dom (mem fm') = dom (mem fm) /\
    mem fm' !! idToSkip = mem fm !! idToSkip /\
    (forall i f, mem fm' !! i = Some f -> state f = fileOpened -> mem fm !! i = Some f) /\
    (openedFDs fm' < limit fm' \/
     forall i f, i ∈ ids -> i <> idToSkip -> mem fm' !! i = Some f -> state f <> fileOpened).
Proof.
  revert fm. induction ids as [|i ids IH]; intros fm H Hd; cbn [close_loop].
  { exists fm. split_and!; try done. right. by intros i f ?%elem_of_nil. }
  assert (forall j, j ∈ ids -> j ∈ dom (mem fm)) as Hd' by (intros j Hj; apply Hd; by right).
  destruct (Z.eqb_spec i idToSkip) as [->|Hne].
  { destruct (IH fm H Hd') as (fm' & E & H' & K & C & L & N & D & S & O & R). exists fm'. split_and!; try done.
    destruct R as [R|R]; [by left|right]. intros j f [->|Hj]%elem_of_cons; [done|by apply R]. }
  destruct (mem fm !! i) as [f|] eqn:Hi; [|apply not_elem_of_dom in Hi; destruct Hi; apply Hd; left].
  rewrite (swap_Some _ f) by done. case_bool_decide as Hs; cbn [mbind outcome_bind fst snd].
  - destruct (doClose_spec X i f (mkFile fileClosing (handle f)) fm) as (H1 & K1 & F1 & C1 & L1 & M1); [done|done|unfold is_open; by rewrite Hs|right; by rewrite Hs|].
    set (fm1 := (doClose _ _ _).2) in *.
    assert (dom (mem fm1) = dom (mem fm)) as D1 by (rewrite M1, dom_insert_lookup_L; [done|by eexists]).
    assert (forall j g, mem fm1 !! j = Some g -> state g = fileOpened -> mem fm !! j = Some g) as O1.
    { intros j g Hg Hsg. rewrite M1 in Hg. apply lookup_insert_Some in Hg as [[_ <-]|[_ ?]]; done. }
    assert (mem fm1 !! idToSkip = mem fm !! idToSkip) as S1 by by rewrite M1, lookup_insert_ne.
    destruct (Z.ltb_spec (openedFDs fm1) (limit fm1)) as [Hlt|Hge].
    { exists fm1. split_and!; try done. by left. }
    destruct (IH fm1 H1) as (fm' & E & H' & K & C & L & N & D & S & O & R); [by rewrite D1|].
    exists fm'. split_and!; try done; try congruence; [by eapply keeps_trans|by eauto|].
    destruct R as [R|R]; [by left|right]. intros j g [->|Hj]%elem_of_cons Hj' Hg; [|by apply (R j g)].
    intros Hsg. specialize (O _ _ Hg Hsg). rewrite M1, lookup_insert_eq in O. by injection O as <-.
  - destruct (IH fm H Hd') as (fm' & E & H' & K & C & L & N & D & S & O & R). exists fm'. split_and!; try done.
    destruct R as [R|R]; [by left|right]. intros j g [->|Hj]%elem_of_cons Hj' Hg; [|by apply (R j g)].
    intros Hsg. specialize (O _ _ Hg Hsg). congruence.
Qed.
Lemma fm_make_room_spec X idToSkip fm :
  inv fm -> (idToSkip ∈ listed fm -> exists f, mem fm !! idToSkip = Some f /\ state f <> fileOpened) ->
  exists fm', make_room beforeClose idToSkip fm = Ok fm' /\ inv fm' /\ keeps X fm fm' /\
    isClosed fm' = isClosed fm /\ listed fm' = listed fm /\ nextID fm' = nextID fm /\ dom (mem fm') = dom (mem fm) /\
    mem fm' !! idToSkip = mem fm !! idToSkip /\
    (0 < limit fm' -> openedFDs fm' < limit fm' \/
       forall i f, i ∈ listed fm' -> mem fm' !! i = Some f -> state f <> fileOpened).
Proof.
  intros H Hskip. unfold make_room. destruct ((0 <? limit fm) && _) eqn:Hl.
  - destruct (close_loop_spec X idToSkip (order (listed fm)) fm H) as (fm' & E & H' & K & C & L & N & D & S & O & R).
    { intros i Hi. apply elem_of_order in Hi. by apply (i_listed _ H). }
    exists fm'. split_and!; try done. intros _. destruct R as [R|R]; [by left|right]. intros i f Hi Hf.
    rewrite L in Hi. destruct (decide (i = idToSkip)) as [->|Hne].
    + rewrite S in Hf. destruct (Hskip Hi) as (g & Hg & Hs). congruence.
    + apply (R i f); [by apply elem_of_order|done|done].
  - exists fm. split_and!; try done. intros Hpos. left. apply andb_false_iff in Hl. lia.
Qed.

(** A new file: the limit is exceeded only when all files are in use. *)
Lemma createFile_spec ok fm :
  inv fm ->
  exists r fm', createFile beforeClose ok fm = Ok (r, fm') /\ inv fm' /\ keeps ∅ fm fm' /\ isClosed fm' = isClosed fm /\
    nextID fm <= nextID fm' /\ listed fm' ⊆ listed fm ∪ {[nextID fm + 1]} /\
    (forall i, r = inl i -> 0 < limit fm' -> openedFDs fm' <= limit fm' \/
       forall j f, j ∈ listed fm' -> mem fm' !! j = Some f -> state f <> fileOpened).
Proof.
  intros H. unfold createFile. destruct (isClosed fm) eqn:Hc.
  { eexists _, fm. split_and!; try done. set_solver. }
  destruct (fm_make_room_spec ∅ 0 fm H) as (fm1 & E & H1 & K & C & L & N & D & S & R).
  { intros H0. apply (i_listed _ H), elem_of_dom in H0 as [f H0]. pose proof (i_next _ H _ _ H0). simpl in *. lia. }
  rewrite E. cbn [mbind outcome_bind]. pose proof (i_pos _ H1). destruct ok; cbn [negb].
  - assert (mem fm1 !! (nextID fm1 + 1) = None) as Hnew.
    { destruct (mem fm1 !! (nextID fm1 + 1)) as [f|] eqn:Hf; [|done]. pose proof (i_next _ H1 _ _ Hf). simpl in *. lia. }
    eexists _, _. split; [done|]. split_and!; cbn.
    + split; cbn.
      * rewrite opens_new, (i_count _ H1) by done. cbn. lia.
      * apply map_Forall_insert_2; [done|]. apply H1.
      * rewrite dom_insert_L. pose proof (i_listed _ H1). set_solver.
      * apply map_Forall_insert_2; [lia|]. intros j g Hg. pose proof (i_next _ H1 j g Hg). simpl in *. lia.
      * lia.
    + destruct K as (K1 & K2 & K3). split_and!; cbn; [done|rewrite dom_insert_L; set_solver|].
      intros i f Hi Hf Hs. rewrite lookup_insert_ne; [by apply K3|]. intros <-.
      specialize (K3 _ _ Hi Hf Hs). congruence.
    + congruence.
    + lia.
    + rewrite L, N. set_solver.
    + intros i _ Hpos. destruct (R Hpos) as [R'|R']; [left; lia|right]. intros j f Hj Hf.
      apply lookup_insert_Some in Hf as [[_ <-]|[Hne Hf]]; [done|]. apply (R' j f); [set_solver|done].
  - eexists _, fm1. split_and!; try done; [congruence|lia|set_solver].
Qed.

Lemma openFile_spec ok i f fm :
  inv fm -> mem fm !! i = Some f -> state f <> fileOpened -> state f <> fileInUse ->
  exists e fm', openFile beforeClose ok i fm = Ok (e, fm') /\ inv fm' /\ keeps ∅ fm fm' /\ isClosed fm' = isClosed fm /\
    nextID fm' = nextID fm /\ listed fm' = listed fm.
Proof.
  intros H Hi Ho Hu. unfold openFile, get_file. destruct (isClosed fm) eqn:Hc.
  { eexists _, fm. by split_and!. }
  rewrite Hi. cbn [mbind outcome_bind]. pose proof (i_files _ H i f Hi) as Hf. cbn in Hf. rewrite Hc in Hf.
  case_bool_decide; [eexists _, fm; by split_and!|].
  unfold file_ok in Hf. destruct f as [s h]; cbn [state handle] in *. destruct s; try done. rewrite Hf.
  cbn [negb bool_decide orb]. rewrite bool_decide_true by done. cbn [negb orb].
  destruct (fm_make_room_spec ∅ i fm H) as (fm1 & E & H1 & K & C & L & N & D & S & R).
  { intros _. eexists. split; [done|]. done. }
  rewrite E. cbn [mbind outcome_bind]. destruct ok.
  - eexists _, _. split; [done|]. rewrite Hi in S.
    change (set_fds (openedFDs fm1 + 1) (set_file i (mkFile fileInUse true) fm1))
      with (update i (mkFile fileInUse true) (openedFDs fm1 + 1) fm1).
    split_and!; [|eapply keeps_trans; [done|]; eapply update_keeps; [done|by right]|cbn; congruence..].
    eapply fm_update_inv; [done..|]. cbn. lia.
  - eexists _, fm1. split_and!; try done; congruence.
Qed.
(** ** Any use of the manager *)

Inductive op :=
| Create (ok : bool)
| Lock (ok : bool) (i : Z)
| LockIfOpened (i : Z)
| Unlock (i : Z)
| CloseLocked (i : Z)
| CloseIfOpened (i : Z)
| CloseLockedOrOpened (i : Z)
| Remove (i : Z)
| Truncate (ok : bool) (i : Z)
| CloseManager.

Definition exec (fm : filesManager) (o : op) : outcome fm_error filesManager :=
  match o with
  | Create ok => r ← createFile beforeClose ok fm; Ok r.2
  | Lock ok i => r ← lockFile beforeClose ok i fm; Ok r.2
  | LockIfOpened i => r ← lockFileIfOpened i fm; Ok r.2
  | Unlock i => unlockFile i fm
  | CloseLocked i => r ← closeLockedFile beforeClose i fm; Ok r.2
  | CloseIfOpened i => r ← closeFileIfOpened beforeClose i fm; Ok r.2
  | CloseLockedOrOpened i => r ← closeLockedOrOpenedFile beforeClose i fm; Ok r.2
  | Remove i => r ← remove i fm; Ok r.2
  | Truncate ok i => r ← truncateFile beforeClose ok i fm; Ok r.2
  | CloseManager => r ← close beforeClose fm; Ok r.2
  end.

Definition has_state (fm : filesManager) (i : Z) (P : file_state -> Prop) : Prop :=
  exists f, mem fm !! i = Some f /\ P (state f).

(** A store locks a file that it has not locked, and unlocks or closes what it has locked. *)
Definition op_ok (fm : filesManager) (o : op) : Prop :=
  match o with
  | Create _ | CloseManager => True
  | Lock _ i => has_state fm i (fun s => s <> fileInUse)
  | Unlock i | CloseLocked i | Truncate _ i => has_state fm i (fun s => s = fileInUse)
  | LockIfOpened i | CloseIfOpened i | CloseLockedOrOpened i | Remove i => has_state fm i (fun _ => True)
  end.

(** The file whose user gives it up. *)
Definition given_up (o : op) : gset Z :=
  match o with Unlock i | CloseLocked i | CloseLockedOrOpened i | Truncate _ i => {[i]} | _ => ∅ end.

(** Changing the state of a file, the number of descriptors being the same. *)
Lemma switch_spec X i f new fm :
  inv fm -> mem fm !! i = Some f -> i ∈ X \/ state f <> fileInUse ->
  file_ok (isClosed fm) (mkFile new (handle f)) -> is_open (mkFile new (handle f)) = is_open f ->
  inv (set_file i (mkFile new (handle f)) fm) /\ keeps X fm (set_file i (mkFile new (handle f)) fm).
Proof.
  intros H Hi Hx Hok Ho.
  change (set_file i (mkFile new (handle f)) fm) with (update i (mkFile new (handle f)) (openedFDs fm) fm).
  split; [|by eapply update_keeps]. eapply fm_update_inv; [done..|]. rewrite Ho. lia.
Qed.

Lemma lockFile_inv ok i fm :
  inv fm -> has_state fm i (fun s => s <> fileInUse) ->
  exists r fm', lockFile beforeClose ok i fm = Ok (r, fm') /\ inv fm' /\ keeps ∅ fm fm'.
Proof.
  intros H (f & Hi & Hs). unfold lockFile. rewrite (swap_Some _ f) by done. pose proof (i_files _ H i f Hi) as Hf.
  case_bool_decide as Ho; cbn [mbind outcome_bind fst snd].
  - eexists _, _. split; [done|]. cbn in Hf. unfold file_ok in Hf. rewrite Ho in Hf.
    apply switch_spec; [done|done|by right|done|]. unfold is_open. by rewrite Ho.
  - destruct (openFile_spec ok i f fm H Hi Ho Hs) as (e & fm' & -> & H' & K & _). cbn [mbind outcome_bind fst snd]. by eexists _, _.
Qed.

Lemma close_if_spec X i f old fm :
  inv fm -> mem fm !! i = Some f -> old = fileOpened \/ old = fileInUse -> i ∈ X \/ old <> fileInUse ->
  (state f = old -> exists h, let fm' := (doClose beforeClose i (set_file i (mkFile fileClosing h) fm)).2 in
     swap i old fileClosing fm = Ok (true, set_file i (mkFile fileClosing h) fm) /\
     inv fm' /\ keeps X fm fm' /\ isClosed fm' = isClosed fm /\ mem fm' !! i = Some (mkFile fileClosed false)) /\
  (state f <> old -> swap i old fileClosing fm = Ok (false, fm)).
Proof.
  intros H Hi Hold Hx. rewrite (swap_Some _ f) by done. split; intros Hs; [|by rewrite bool_decide_false].
  exists (handle f). rewrite bool_decide_true by done. split; [done|].
  destruct (doClose_spec X i f (mkFile fileClosing (handle f)) fm) as (H1 & K1 & F1 & C1 & L1 & M1); [done|done| |by rewrite Hs|].
  - unfold is_open. rewrite Hs. by destruct Hold as [->| ->].
  - split_and!; try done. by rewrite M1, lookup_insert_eq.
Qed.
Lemma remove_inv i f fm :
  inv fm -> mem fm !! i = Some f -> exists r fm', remove i fm = Ok (r, fm') /\ inv fm' /\ keeps ∅ fm fm'.
Proof.
  intros H Hi. unfold remove, trySwitchState. rewrite (swap_Some i f fileOpened) by done.
  assert (forall n, n = openedFDs fm - (if is_open f then 1 else 0) -> state f <> fileInUse ->
    inv (set_listed (listed fm ∖ {[i]}) (update i (mkFile fileRemoved (handle f)) n fm)) /\
    keeps ∅ fm (update i (mkFile fileRemoved (handle f)) n fm)) as Hup.
  { intros n Hn Hs. assert (inv (update i (mkFile fileRemoved (handle f)) n fm)) as H'.
    { eapply fm_update_inv; [done|done|done|]. cbn. lia. }
    split; [|eapply update_keeps; [done|by right]]. destruct H'. split; cbn in *; [done|done|set_solver|done|done]. }
  case_bool_decide as Ho; cbn [mbind outcome_bind fst snd].
  - eexists _, _. split; [done|]. apply Hup; [cbn; unfold is_open; by rewrite Ho|by rewrite Ho].
  - rewrite (swap_Some i f fileClosed) by done. case_bool_decide as Hc; cbn [mbind outcome_bind fst snd]; [|by eexists _, _].
    eexists _, _. split; [done|]. apply Hup; [cbn; unfold is_open; rewrite Hc; lia|by rewrite Hc].
Qed.

Lemma close_all_inv ids err fm :
  inv fm -> isClosed fm = true -> (forall i, i ∈ ids -> i ∈ dom (mem fm)) ->
  exists r fm', close_all beforeClose ids err fm = Ok (r, fm') /\ inv fm' /\ keeps ∅ fm fm'.
Proof.
  revert err fm. induction ids as [|i ids IH]; intros err fm H Hc Hd; cbn [close_all]; [by eexists _, _|].
  destruct (mem fm !! i) as [f|] eqn:Hi; [|apply not_elem_of_dom in Hi; destruct Hi; apply Hd; left].
  assert (forall err fm', inv fm' -> keeps ∅ fm fm' -> isClosed fm' = true ->
    exists r fm'', close_all beforeClose ids err fm' = Ok (r, fm'') /\ inv fm'' /\ keeps ∅ fm fm'') as Hnext.
  { intros err' fm' H' K Hc'. destruct (IH err' fm' H' Hc') as (r & fm'' & E & H'' & K').
    - intros j Hj. apply (proj1 (proj2 K)), Hd. by right.
    - exists r, fm''. split_and!; [done|done|by eapply keeps_trans]. }
  unfold trySwitchState. rewrite (swap_Some i f fileOpened) by done. case_bool_decide as Ho; cbn [mbind outcome_bind fst snd].
  - destruct (doClose_spec ∅ i f (mkFile fmClosed (handle f)) fm) as (H1 & K1 & F1 & C1 & L1 & M1);
      [done|done|unfold is_open; by rewrite Ho|right; by rewrite Ho|].
    destruct (doClose _ _ _) as [cerr fm1]; cbn [snd] in *. apply Hnext; [done|done|congruence].
  - rewrite (swap_Some i f fileClosed) by done. case_bool_decide as Hcl; cbn [mbind outcome_bind fst snd]; [|by apply Hnext].
    destruct (switch_spec ∅ i f fmClosed fm) as [H1 K1]; [done|done|right; by rewrite Hcl|done|unfold is_open; by rewrite Hcl|].
    by apply Hnext.
Qed.

Lemma fm_exec_inv fm o :
  inv fm -> op_ok fm o -> exists fm', exec fm o = Ok fm' /\ inv fm' /\ keeps (given_up o) fm fm'.
Proof.
  intros H Ho. destruct o as [ok|ok i|i|i|i|i|i|i|ok i|]; cbn [exec op_ok given_up] in *;
    try (destruct Ho as (f & Hi & Hs); pose proof (i_files _ H i f Hi) as Hf; cbn in Hf).
  - destruct (createFile_spec ok fm H) as (r & fm' & -> & H' & K & _). by eexists.
  - destruct (lockFile_inv ok i fm H) as (r & fm' & -> & H' & K); [by eexists|]. by eexists.
  - unfold lockFileIfOpened. rewrite (swap_Some _ f) by done. case_bool_decide as Ho; [|by eexists].
    eexists. split; [done|]. cbn [snd]. unfold file_ok in Hf. rewrite Ho in Hf.
    apply switch_spec; [done|done|right; by rewrite Ho|done|unfold is_open; by rewrite Ho].
  - unfold unlockFile. rewrite (swap_Some _ f), bool_decide_true by done. eexists. split; [done|]. cbn [snd].
    unfold file_ok in Hf. rewrite Hs in Hf. apply switch_spec; [done|done|left; set_solver|done|unfold is_open; by rewrite Hs].
  - unfold closeLockedFile. destruct (close_if_spec {[i]} i f fileInUse fm) as [Hy _]; [done|done|by right|left; set_solver|].
    destruct (Hy Hs) as (h & -> & H' & K & _). by eexists.
  - unfold closeFileIfOpened. destruct (close_if_spec ∅ i f fileOpened fm) as [Hy Hn]; [done|done|by left|by right|].
    destruct (decide (state f = fileOpened)) as [E|E]; [destruct (Hy E) as (h & -> & H' & K & _)|rewrite (Hn E)]; by eexists.
  - unfold closeLockedOrOpenedFile.
    destruct (close_if_spec {[i]} i f fileInUse fm) as [Hy Hn]; [done|done|by right|left; set_solver|].
    destruct (decide (state f = fileInUse)) as [E|E]; [destruct (Hy E) as (h & -> & H' & K & _); by eexists|].
    rewrite (Hn E). cbn [mbind outcome_bind fst snd].
    destruct (close_if_spec {[i]} i f fileOpened fm) as [Hy' Hn']; [done|done|by left|by right|].
    destruct (decide (state f = fileOpened)) as [E'|E']; [destruct (Hy' E') as (h & -> & H' & K & _)|rewrite (Hn' E')]; by eexists.
  - destruct (remove_inv i f fm H Hi) as (r & fm' & -> & H' & K). by eexists.
  - unfold truncateFile, closeLockedFile.
    destruct (close_if_spec {[i]} i f fileInUse fm) as [Hy _]; [done|done|by right|left; set_solver|].
    destruct (Hy Hs) as (h & -> & H' & K & C & M). cbn [mbind outcome_bind fst snd].
    destruct (doClose _ _ _) as [[e|] fm1]; cbn [fst snd] in *; [by eexists|].
    destruct (openFile_spec ok i _ fm1 H' M) as (e & fm2 & -> & H2 & K2 & _); [done|done|]. cbn [mbind outcome_bind snd].
    eexists. split_and!; [done|done|]. eapply keeps_trans; [done|]. destruct K2 as (? & ? & K2). split_and!; [done|done|].
    intros j g _. apply K2. set_solver.
  - unfold close. destruct (isClosed fm) eqn:Hc; [by eexists|].
    destruct (close_all_inv (order (listed fm)) None (mkFM (openedFDs fm) (limit fm) ∅ (nextID fm) true (mem fm)))
      as (r & fm' & -> & H' & K).
    + destruct H as [? Hfs ? ? ?]. split; cbn in *; [done| |set_solver|done|done]. intros j g Hg.
      specialize (Hfs j g Hg). cbn in Hfs. rewrite Hc in Hfs. unfold file_ok in *. by destruct (state g).
    + done.
    + intros j Hj. apply elem_of_order in Hj. by apply (i_listed _ H).
    + by eexists.
Qed.

Fixpoint exec_all (fm : filesManager) (ops : list op) : outcome fm_error filesManager :=
  match ops with [] => Ok fm | o :: ops => fm ← exec fm o; exec_all fm ops end.

Fixpoint ops_ok (fm : filesManager) (ops : list op) : Prop :=
  match ops with
  | [] => True
  | o :: ops => op_ok fm o /\ match exec fm o with Ok fm => ops_ok fm ops | _ => False end
  end.

Lemma exec_all_inv fm ops :
  inv fm -> ops_ok fm ops -> exists fm', exec_all fm ops = Ok fm' /\ inv fm' /\ limit fm' = limit fm.
Proof.
  revert fm. induction ops as [|o ops IH]; intros fm H Hok; [by eexists|]. destruct Hok as [Ho Hok].
  destruct (fm_exec_inv fm o H Ho) as (fm1 & E & H1 & K). cbn [exec_all]. rewrite E in *. cbn [mbind outcome_bind].
  destruct (IH fm1 H1 Hok) as (fm' & E' & H' & L'). exists fm'. rewrite L'. split_and!; [done|done|apply K].
Qed.

Lemma fm_create_inv lim : inv (createFilesManager lim).
Proof. split; cbn; [done|apply map_Forall_empty|set_solver|apply map_Forall_empty|lia]. Qed.

(** [C25] When the stores lock and unlock files in turn, no state is unexpected, so that no
    operation of the manager panics; the count of open descriptors is exact; a file in use
    is left alone until its user gives it up; and a file that is created makes the count
    exceed the limit only when every other file is in use. *)
Theorem files_manager_safe lim ops o ok :
  ops_ok (createFilesManager lim) (ops ++ [o]) ->
  exists fm fm', exec_all (createFilesManager lim) ops = Ok fm /\ exec fm o = Ok fm' /\
    openedFDs fm' = opens (mem fm') /\
    (forall i f, i ∉ given_up o -> mem fm !! i = Some f -> state f = fileInUse -> mem fm' !! i = Some f) /\
    exists r fm'', createFile beforeClose ok fm' = Ok (r, fm'') /\
      (forall i, r = inl i -> 0 < lim -> openedFDs fm'' <= lim \/
         forall j f, j ∈ listed fm'' -> mem fm'' !! j = Some f -> state f <> fileOpened).
Proof.
  intros Hok. assert (exists fm, exec_all (createFilesManager lim) ops = Ok fm /\ inv fm /\ limit fm = lim /\ op_ok fm o)
    as (fm & E & H & Hl & Ho).
  { change lim with (limit (createFilesManager lim)) at 2. pose proof (fm_create_inv lim) as H0. revert H0 Hok.
    generalize (createFilesManager lim). induction ops as [|o' ops IH]; intros fm H Hok.
    - exists fm. by destruct Hok as [Ho _].
    - destruct Hok as [Ho Hok]. destruct (fm_exec_inv fm o' H Ho) as (fm1 & E & H1 & K). cbn [exec_all]. rewrite E in *.
      cbn [mbind outcome_bind]. destruct (IH fm1 H1 Hok) as (fm2 & E2 & H2 & L2 & O2). exists fm2.
      split_and!; [done|done|rewrite L2; apply K|done]. }
  destruct (fm_exec_inv fm o H Ho) as (fm' & E' & H' & K). exists fm, fm'. split_and!; [done|done|apply H'|apply K|].
  destruct (createFile_spec ok fm' H') as (r & fm'' & Ec & H'' & Kc & _ & _ & _ & R). exists r, fm''. split; [done|].
  intros i Hr. assert (limit fm'' = lim) as <- by (rewrite (proj1 Kc), (proj1 K); done).
  by apply (R i).
Qed.
End Manager.
End FMSpec.

Module FMSample.
Import FM FMSpec.

#[local] Instance Z_order : RangeOrder Z := default_order Z.

Lemma files_manager_safe_witness :
  exists fm fm', exec_all (fun _ => true) (createFilesManager 2) [Create true; Unlock 1; Create true; Create true] = Ok fm /\
    exec (fun _ => true) fm (Unlock 2) = Ok fm' /\
    openedFDs fm' = opens (mem fm') /\
    (forall i f, i ∉ given_up (Unlock 2) -> mem fm !! i = Some f -> state f = fileInUse -> mem fm' !! i = Some f) /\
    exists r fm'', createFile (fun _ => true) true fm' = Ok (r, fm'') /\
      (forall i, r = inl i -> 0 < 2 -> openedFDs fm'' <= 2 \/
         forall j f, j ∈ listed fm'' -> mem fm'' !! j = Some f -> state f <> fileOpened).
Proof.
  apply (files_manager_safe (fun _ => true) 2 [Create true; Unlock 1; Create true; Create true] (Unlock 2) true).
  cbn [app ops_ok]. split; [done|]. vm_compute exec. split; [by eexists|]. vm_compute exec. split; [done|].
  vm_compute exec. split; [done|]. vm_compute exec. split; [by eexists|]. vm_compute exec. done.
Defined.
End FMSample.
