(* ===== verification/FileMsgs.v ===== *)
(** * Messages in files

    Model of [FileMsgStore] ([src/stores/filestore.go]).  The messages of a channel are in
    slices, each with a data file and an index file, and the last one is written to through
    a buffer.  A slice is named by its number in the map [files], which stands for the
    pointer to it; [stray] has the files of the directory that are not in the map.  A file
    is its content on disk and the state that the files manager gives it.

    Operations run under the lock of the store, and take the time [now] where the code
    asks for it.  They may fail with an error after they changed the state, so that they are
    in a monad of state and errors.  Writing to a file and opening it are taken to succeed.
    The files manager may close files that are not in use whenever another one is opened:
    [pressure] says which ones, by the number of openings so far. *)

From Stdlib Require Import ZArith Lia Ascii String.
From stdpp Require Import base list gmap strings.
From S2P Require Import Prelude Bytes Util GoLib Crc Proto MemStore Records FileSubs FilesManager Cache.

Local Open Scope Z_scope.

Module FileMsg.
Import Crc Proto Buffer Rec FileOptions FM Cache.

(** ** Data *)

Definition msgIndexRecSize : Z := 32.
Definition msgRecordOverhead : Z := recordHeaderSize + msgIndexRecSize.
Definition msgBufMinShrinkSize : Z := 512.
Definition sliceCloseInterval : Z := 1000000000.

(** What a file holds on disk, and its state for the files manager. *)
Record dfile := mkDFile { content : list byte; fstate : file_state }.

Record fileSlice := mkSlice {
  file : dfile;
  idxFile : dfile;
  firstSeq : Z;
  lastSeq : Z;
  rmCount : Z;
  msgsCount : Z;
  msgsSize : Z;
  firstWrite : Z;
  lastUsed : Z
}.

Record msgIndex := mkIndex { offset : Z; timestamp : Z; msgSize : Z }.

Record bufferedMsg := mkBuffered { bmsg : MsgProto; bindex : msgIndex }.

(** [wbuf] is the buffer of [bw], and [opens] the number of files opened so far. *)
Record FileMsgStore := mkStore {
  closed : bool;
  first : Z;
  last : Z;
  totalCount : Z;
  totalBytes : Z;
  hitLimit : bool;
  files : gmap Z fileSlice;
  writeSlice : option Z;
  firstFSlSeq : Z;
  lastFSlSeq : Z;
  bw : option bufferedWriter;
  wbuf : option Writer;
  wOffset : Z;
  firstMsg : option MsgProto;
  lastMsg : option MsgProto;
  expiration : Z;
  bufferedSeqs : list Z;
  bufferedMsgs : gmap Z bufferedMsg;
  cache : msgsCache;
  needSync : bool;
  checkSlices : bool;
  timeTick : Z;
  stray : gmap Z (list byte * list byte);
  opens : nat
}.

Definition set_closed (v : bool) (ms : FileMsgStore) : FileMsgStore :=
  mkStore v (first ms) (last ms) (totalCount ms) (totalBytes ms) (hitLimit ms) (files ms) (writeSlice ms)
    (firstFSlSeq ms) (lastFSlSeq ms) (bw ms) (wbuf ms) (wOffset ms) (firstMsg ms) (lastMsg ms) (expiration
    ms) (bufferedSeqs ms) (bufferedMsgs ms) (cache ms) (needSync ms) (checkSlices ms) (timeTick ms) (stray
    ms) (opens ms).
Definition set_first (v : Z) (ms : FileMsgStore) : FileMsgStore :=
  mkStore (closed ms) v (last ms) (totalCount ms) (totalBytes ms) (hitLimit ms) (files ms) (writeSlice ms)
    (firstFSlSeq ms) (lastFSlSeq ms) (bw ms) (wbuf ms) (wOffset ms) (firstMsg ms) (lastMsg ms) (expiration
    ms) (bufferedSeqs ms) (bufferedMsgs ms) (cache ms) (needSync ms) (checkSlices ms) (timeTick ms) (stray
    ms) (opens ms).
Definition set_last (v : Z) (ms : FileMsgStore) : FileMsgStore :=
  mkStore (closed ms) (first ms) v (totalCount ms) (totalBytes ms) (hitLimit ms) (files ms) (writeSlice ms)
    (firstFSlSeq ms) (lastFSlSeq ms) (bw ms) (wbuf ms) (wOffset ms) (firstMsg ms) (lastMsg ms) (expiration
    ms) (bufferedSeqs ms) (bufferedMsgs ms) (cache ms) (needSync ms) (checkSlices ms) (timeTick ms) (stray
    ms) (opens ms).
Definition set_totalCount (v : Z) (ms : FileMsgStore) : FileMsgStore :=
  mkStore (closed ms) (first ms) (last ms) v (totalBytes ms) (hitLimit ms) (files ms) (writeSlice ms)
    (firstFSlSeq ms) (lastFSlSeq ms) (bw ms) (wbuf ms) (wOffset ms) (firstMsg ms) (lastMsg ms) (expiration
    ms) (bufferedSeqs ms) (bufferedMsgs ms) (cache ms) (needSync ms) (checkSlices ms) (timeTick ms) (stray
    ms) (opens ms).
Definition set_totalBytes (v : Z) (ms : FileMsgStore) : FileMsgStore :=
  mkStore (closed ms) (first ms) (last ms) (totalCount ms) v (hitLimit ms) (files ms) (writeSlice ms)
    (firstFSlSeq ms) (lastFSlSeq ms) (bw ms) (wbuf ms) (wOffset ms) (firstMsg ms) (lastMsg ms) (expiration
    ms) (bufferedSeqs ms) (bufferedMsgs ms) (cache ms) (needSync ms) (checkSlices ms) (timeTick ms) (stray
    ms) (opens ms).
Definition set_hitLimit (v : bool) (ms : FileMsgStore) : FileMsgStore :=
  mkStore (closed ms) (first ms) (last ms) (totalCount ms) (totalBytes ms) v (files ms) (writeSlice ms)
    (firstFSlSeq ms) (lastFSlSeq ms) (bw ms) (wbuf ms) (wOffset ms) (firstMsg ms) (lastMsg ms) (expiration
    ms) (bufferedSeqs ms) (bufferedMsgs ms) (cache ms) (needSync ms) (checkSlices ms) (timeTick ms) (stray
    ms) (opens ms).
Definition set_files (v : gmap Z fileSlice) (ms : FileMsgStore) : FileMsgStore :=
  mkStore (closed ms) (first ms) (last ms) (totalCount ms) (totalBytes ms) (hitLimit ms) v (writeSlice ms)
    (firstFSlSeq ms) (lastFSlSeq ms) (bw ms) (wbuf ms) (wOffset ms) (firstMsg ms) (lastMsg ms) (expiration
    ms) (bufferedSeqs ms) (bufferedMsgs ms) (cache ms) (needSync ms) (checkSlices ms) (timeTick ms) (stray
    ms) (opens ms).
Definition set_writeSlice (v : option Z) (ms : FileMsgStore) : FileMsgStore :=
  mkStore (closed ms) (first ms) (last ms) (totalCount ms) (totalBytes ms) (hitLimit ms) (files ms) v
    (firstFSlSeq ms) (lastFSlSeq ms) (bw ms) (wbuf ms) (wOffset ms) (firstMsg ms) (lastMsg ms) (expiration
    ms) (bufferedSeqs ms) (bufferedMsgs ms) (cache ms) (needSync ms) (checkSlices ms) (timeTick ms) (stray
    ms) (opens ms).
Definition set_firstFSlSeq (v : Z) (ms : FileMsgStore) : FileMsgStore :=
  mkStore (closed ms) (first ms) (last ms) (totalCount ms) (totalBytes ms) (hitLimit ms) (files ms)
    (writeSlice ms) v (lastFSlSeq ms) (bw ms) (wbuf ms) (wOffset ms) (firstMsg ms) (lastMsg ms) (expiration
    ms) (bufferedSeqs ms) (bufferedMsgs ms) (cache ms) (needSync ms) (checkSlices ms) (timeTick ms) (stray
    ms) (opens ms).
Definition set_lastFSlSeq (v : Z) (ms : FileMsgStore) : FileMsgStore :=
  mkStore (closed ms) (first ms) (last ms) (totalCount ms) (totalBytes ms) (hitLimit ms) (files ms)
    (writeSlice ms) (firstFSlSeq ms) v (bw ms) (wbuf ms) (wOffset ms) (firstMsg ms) (lastMsg ms) (expiration
    ms) (bufferedSeqs ms) (bufferedMsgs ms) (cache ms) (needSync ms) (checkSlices ms) (timeTick ms) (stray
    ms) (opens ms).
Definition set_bw (v : option bufferedWriter) (ms : FileMsgStore) : FileMsgStore :=
  mkStore (closed ms) (first ms) (last ms) (totalCount ms) (totalBytes ms) (hitLimit ms) (files ms)
    (writeSlice ms) (firstFSlSeq ms) (lastFSlSeq ms) v (wbuf ms) (wOffset ms) (firstMsg ms) (lastMsg ms)
    (expiration ms) (bufferedSeqs ms) (bufferedMsgs ms) (cache ms) (needSync ms) (checkSlices ms) (timeTick
    ms) (stray ms) (opens ms).
Definition set_wbuf (v : option Writer) (ms : FileMsgStore) : FileMsgStore :=
  mkStore (closed ms) (first ms) (last ms) (totalCount ms) (totalBytes ms) (hitLimit ms) (files ms)
    (writeSlice ms) (firstFSlSeq ms) (lastFSlSeq ms) (bw ms) v (wOffset ms) (firstMsg ms) (lastMsg ms)
    (expiration ms) (bufferedSeqs ms) (bufferedMsgs ms) (cache ms) (needSync ms) (checkSlices ms) (timeTick
    ms) (stray ms) (opens ms).
Definition set_wOffset (v : Z) (ms : FileMsgStore) : FileMsgStore :=
  mkStore (closed ms) (first ms) (last ms) (totalCount ms) (totalBytes ms) (hitLimit ms) (files ms)
    (writeSlice ms) (firstFSlSeq ms) (lastFSlSeq ms) (bw ms) (wbuf ms) v (firstMsg ms) (lastMsg ms)
    (expiration ms) (bufferedSeqs ms) (bufferedMsgs ms) (cache ms) (needSync ms) (checkSlices ms) (timeTick
    ms) (stray ms) (opens ms).
Definition set_firstMsg (v : option MsgProto) (ms : FileMsgStore) : FileMsgStore :=
  mkStore (closed ms) (first ms) (last ms) (totalCount ms) (totalBytes ms) (hitLimit ms) (files ms)
    (writeSlice ms) (firstFSlSeq ms) (lastFSlSeq ms) (bw ms) (wbuf ms) (wOffset ms) v (lastMsg ms)
    (expiration ms) (bufferedSeqs ms) (bufferedMsgs ms) (cache ms) (needSync ms) (checkSlices ms) (timeTick
    ms) (stray ms) (opens ms).
Definition set_lastMsg (v : option MsgProto) (ms : FileMsgStore) : FileMsgStore :=
  mkStore (closed ms) (first ms) (last ms) (totalCount ms) (totalBytes ms) (hitLimit ms) (files ms)
    (writeSlice ms) (firstFSlSeq ms) (lastFSlSeq ms) (bw ms) (wbuf ms) (wOffset ms) (firstMsg ms) v
    (expiration ms) (bufferedSeqs ms) (bufferedMsgs ms) (cache ms) (needSync ms) (checkSlices ms) (timeTick
    ms) (stray ms) (opens ms).
Definition set_expiration (v : Z) (ms : FileMsgStore) : FileMsgStore :=
  mkStore (closed ms) (first ms) (last ms) (totalCount ms) (totalBytes ms) (hitLimit ms) (files ms)
    (writeSlice ms) (firstFSlSeq ms) (lastFSlSeq ms) (bw ms) (wbuf ms) (wOffset ms) (firstMsg ms) (lastMsg
    ms) v (bufferedSeqs ms) (bufferedMsgs ms) (cache ms) (needSync ms) (checkSlices ms) (timeTick ms) (stray
    ms) (opens ms).
Definition set_bufferedSeqs (v : list Z) (ms : FileMsgStore) : FileMsgStore :=
  mkStore (closed ms) (first ms) (last ms) (totalCount ms) (totalBytes ms) (hitLimit ms) (files ms)
    (writeSlice ms) (firstFSlSeq ms) (lastFSlSeq ms) (bw ms) (wbuf ms) (wOffset ms) (firstMsg ms) (lastMsg
    ms) (expiration ms) v (bufferedMsgs ms) (cache ms) (needSync ms) (checkSlices ms) (timeTick ms) (stray
    ms) (opens ms).
Definition set_bufferedMsgs (v : gmap Z bufferedMsg) (ms : FileMsgStore) : FileMsgStore :=
  mkStore (closed ms) (first ms) (last ms) (totalCount ms) (totalBytes ms) (hitLimit ms) (files ms)
    (writeSlice ms) (firstFSlSeq ms) (lastFSlSeq ms) (bw ms) (wbuf ms) (wOffset ms) (firstMsg ms) (lastMsg
    ms) (expiration ms) (bufferedSeqs ms) v (cache ms) (needSync ms) (checkSlices ms) (timeTick ms) (stray
    ms) (opens ms).
Definition set_cache (v : msgsCache) (ms : FileMsgStore) : FileMsgStore :=
  mkStore (closed ms) (first ms) (last ms) (totalCount ms) (totalBytes ms) (hitLimit ms) (files ms)
    (writeSlice ms) (firstFSlSeq ms) (lastFSlSeq ms) (bw ms) (wbuf ms) (wOffset ms) (firstMsg ms) (lastMsg
    ms) (expiration ms) (bufferedSeqs ms) (bufferedMsgs ms) v (needSync ms) (checkSlices ms) (timeTick ms)
    (stray ms) (opens ms).
Definition set_needSync (v : bool) (ms : FileMsgStore) : FileMsgStore :=
  mkStore (closed ms) (first ms) (last ms) (totalCount ms) (totalBytes ms) (hitLimit ms) (files ms)
    (writeSlice ms) (firstFSlSeq ms) (lastFSlSeq ms) (bw ms) (wbuf ms) (wOffset ms) (firstMsg ms) (lastMsg
    ms) (expiration ms) (bufferedSeqs ms) (bufferedMsgs ms) (cache ms) v (checkSlices ms) (timeTick ms)
    (stray ms) (opens ms).
Definition set_checkSlices (v : bool) (ms : FileMsgStore) : FileMsgStore :=
  mkStore (closed ms) (first ms) (last ms) (totalCount ms) (totalBytes ms) (hitLimit ms) (files ms)
    (writeSlice ms) (firstFSlSeq ms) (lastFSlSeq ms) (bw ms) (wbuf ms) (wOffset ms) (firstMsg ms) (lastMsg
    ms) (expiration ms) (bufferedSeqs ms) (bufferedMsgs ms) (cache ms) (needSync ms) v (timeTick ms) (stray
    ms) (opens ms).
Definition set_timeTick (v : Z) (ms : FileMsgStore) : FileMsgStore :=
  mkStore (closed ms) (first ms) (last ms) (totalCount ms) (totalBytes ms) (hitLimit ms) (files ms)
    (writeSlice ms) (firstFSlSeq ms) (lastFSlSeq ms) (bw ms) (wbuf ms) (wOffset ms) (firstMsg ms) (lastMsg
    ms) (expiration ms) (bufferedSeqs ms) (bufferedMsgs ms) (cache ms) (needSync ms) (checkSlices ms) v
    (stray ms) (opens ms).
Definition set_stray (v : gmap Z (list byte * list byte)) (ms : FileMsgStore) : FileMsgStore :=
  mkStore (closed ms) (first ms) (last ms) (totalCount ms) (totalBytes ms) (hitLimit ms) (files ms)
    (writeSlice ms) (firstFSlSeq ms) (lastFSlSeq ms) (bw ms) (wbuf ms) (wOffset ms) (firstMsg ms) (lastMsg
    ms) (expiration ms) (bufferedSeqs ms) (bufferedMsgs ms) (cache ms) (needSync ms) (checkSlices ms)
    (timeTick ms) v (opens ms).
Definition set_opens (v : nat) (ms : FileMsgStore) : FileMsgStore :=
  mkStore (closed ms) (first ms) (last ms) (totalCount ms) (totalBytes ms) (hitLimit ms) (files ms)
    (writeSlice ms) (firstFSlSeq ms) (lastFSlSeq ms) (bw ms) (wbuf ms) (wOffset ms) (firstMsg ms) (lastMsg
    ms) (expiration ms) (bufferedSeqs ms) (bufferedMsgs ms) (cache ms) (needSync ms) (checkSlices ms)
    (timeTick ms) (stray ms) v.

Definition set_files_of (f i : dfile) (sl : fileSlice) : fileSlice :=
  mkSlice f i (firstSeq sl) (lastSeq sl) (rmCount sl) (msgsCount sl) (msgsSize sl) (firstWrite sl) (lastUsed sl).
Definition set_firstSeq (v : Z) (sl : fileSlice) : fileSlice :=
  mkSlice (file sl) (idxFile sl) v (lastSeq sl) (rmCount sl) (msgsCount sl) (msgsSize sl) (firstWrite sl) (lastUsed sl).
Definition set_rmCount (v : Z) (sl : fileSlice) : fileSlice :=
  mkSlice (file sl) (idxFile sl) (firstSeq sl) (lastSeq sl) v (msgsCount sl) (msgsSize sl) (firstWrite sl) (lastUsed sl).
Definition set_lastUsed (v : Z) (sl : fileSlice) : fileSlice :=
  mkSlice (file sl) (idxFile sl) (firstSeq sl) (lastSeq sl) (rmCount sl) (msgsCount sl) (msgsSize sl) (firstWrite sl) v.

(** The data file or the index file of a slice. *)
Inductive part := Dat | Idx.

Definition get_part (p : part) (sl : fileSlice) : dfile := match p with Dat => file sl | Idx => idxFile sl end.
Definition set_part (p : part) (f : dfile) (sl : fileSlice) : fileSlice :=
  match p with Dat => set_files_of f (idxFile sl) sl | Idx => set_files_of (file sl) f sl end.

(** ** State and errors *)

Definition M (A : Type) : Type := FileMsgStore -> outcome rec_error A * FileMsgStore.

#[export] Instance M_ret : MRet M := fun A a ms => (Ok a, ms).
#[export] Instance M_bind : MBind M := fun A B f m ms =>
  match m ms with
  | (Ok a, ms') => f a ms'
  | (Err e, ms') => (Err e, ms')
  | (Panic, ms') => (Panic, ms')
  end.

Definition get_store : M FileMsgStore := fun ms => (Ok ms, ms).
Definition modify_store (f : FileMsgStore -> FileMsgStore) : M unit := fun ms => (Ok tt, f ms).
Definition lift {A : Type} (x : outcome rec_error A) : M A := fun ms => (x, ms).
Definition fail {A : Type} (e : rec_error) : M A := fun ms => (Err e, ms).
Definition panic {A : Type} : M A := fun ms => (Panic, ms).

(** Goes on after an error. *)
Definition catch {A : Type} (m : M A) : M (A + rec_error) := fun ms =>
  match m ms with
  | (Ok a, ms') => (Ok (inl a), ms')
  | (Err e, ms') => (Ok (inr e), ms')
  | (Panic, ms') => (Panic, ms')
  end.

Definition when (b : bool) (m : M unit) : M unit := if b then m else mret tt.

(** Following the pointer to a slice. *)
Definition slice_at (k : Z) : M fileSlice := fun ms =>
  match files ms !! k with Some sl => (Ok sl, ms) | None => (Panic, ms) end.
Definition update_slice (k : Z) (f : fileSlice -> fileSlice) : M unit :=
  sl ← slice_at k; modify_store (fun ms => set_files (<[k := f sl]> (files ms)) ms).

(** An operation of the cache. *)
Definition on_cache {A : Type} (f : msgsCache -> outcome rec_error (A * msgsCache)) : M A :=
  ms ← get_store; r ← lift (f (cache ms)); _ ← modify_store (set_cache r.2); mret r.1.

Section Store.
Context (opts : FileStoreOptions) (limits : Mem.MsgStoreLimits) (channelName : string)
  (codec : codec MsgProto) (pressure : nat -> list (part * Z)).

Definition crcTable : list Z := MakeTable (CRCPolynomial opts).
Definition hasFDsLimit : bool := 0 <? FileDescriptorsLimit opts.

(** ** Index records *)

Definition addIndex (seq : Z) (i : msgIndex) : list byte :=
  let buf := put_le 8 seq ++ put_le 8 (u64 (offset i)) ++ put_le 8 (u64 (timestamp i)) ++ put_le 4 (u32 (msgSize i)) in
  buf ++ put_le 4 (Checksum buf crcTable).

Definition readIndexFromBuffer (buf : list byte) : outcome rec_error (Z * msgIndex) :=
  let seq := get_le (take 8 buf) in
  let i := mkIndex (i64 (get_le (take 8 (drop 8 buf)))) (i64 (get_le (take 8 (drop 16 buf)))) (get_le (take 4 (drop 24 buf))) in
  let storedCRC := get_le (take 4 (drop 28 buf)) in
  if (seq =? 0) && (offset i =? 0) && (timestamp i =? 0) && (msgSize i =? 0) && (storedCRC =? 0) then Err NeedRewind
  else if DoCRC opts && negb (storedCRC =? Checksum (take 28 buf) crcTable) then Err BadCRC
  else Ok (seq, i).

Definition readIndex (r : list byte) : outcome rec_error (Z * msgIndex) :=
  match ReadFull 32 r with
  | (inr e, _) => Err (of_read e)
  | (inl buf, _) => readIndexFromBuffer buf
  end.

(** ** Limits of slices *)

Record sliceLimits := mkSliceLimits { slCountLim : Z; slSizeLim : Z; slAgeLim : Z; slHasLimits : bool }.

Definition has_limits (count size age : Z) : bool := (0 <? count) || (0 <? size) || (0 <? age).

Definition setSliceLimits : sliceLimits :=
  let count := SliceMaxMsgs opts in
  let size := u64 (SliceMaxBytes opts) in
  let age := SliceMaxAge opts in
  if has_limits count size age then mkSliceLimits count size age true
  else
    let at_least (min limit : Z) := if limit <? min then min else limit in
    let count := if 0 <? Mem.MaxMsgs limits then at_least 1 (Mem.MaxMsgs limits `quot` 4) else count in
    let size := if 0 <? Mem.MaxBytes limits then at_least 1 (u64 (Mem.MaxBytes limits) / 4) else size in
    let age := if 0 <? Mem.MaxAge limits then at_least 1000000000 (Mem.MaxAge limits `quot` 4) else age in
    mkSliceLimits count size age (has_limits count size age).

(** ** Files *)

Definition set_state (p : part) (k : Z) (s : file_state) : M unit :=
  update_slice k (fun sl => set_part p (mkDFile (content (get_part p sl)) s) sl).
Definition append (p : part) (k : Z) (bytes : list byte) : M unit :=
  update_slice k (fun sl => set_part p (mkDFile (content (get_part p sl) ++ bytes) (fstate (get_part p sl))) sl).

(** [ms.bw.buf.Flush()], the buffer being in front of the data file of the slice [k]. *)
Definition flush_buffer (k : Z) : M unit :=
  ms ← get_store;
  match wbuf ms with
  | Some b => if 0 <? Buffered b
              then _ ← append Dat k (pending b); modify_store (set_wbuf (Some (mkWriter [] (bsize b))))
              else mret tt
  | None => mret tt
  end.

(** The index records of the buffered messages, in the order they were stored. *)
Fixpoint pending_indexes (seqs : list Z) (m : gmap Z bufferedMsg) : list byte * gmap Z bufferedMsg :=
  match seqs with
  | [] => ([], m)
  | pseq :: seqs' =>
      match m !! pseq with
      | Some bm => let r := pending_indexes seqs' (delete pseq m) in (addIndex pseq (bindex bm) ++ r.1, r.2)
      | None => pending_indexes seqs' m
      end
  end.

Definition processBufferedMsgs (k : Z) : M unit :=
  ms ← get_store;
  let r := pending_indexes (bufferedSeqs ms) (bufferedMsgs ms) in
  _ ← append Idx k r.1;
  modify_store (fun ms => set_bufferedSeqs [] (set_bufferedMsgs r.2 ms)).

Definition process_if_buffered (k : Z) : M unit :=
  ms ← get_store; when (negb (bool_decide (bufferedMsgs ms = ∅))) (processBufferedMsgs k).

Definition is_write_slice (k : Z) (ms : FileMsgStore) : bool := bool_decide (writeSlice ms = Some k).

Definition beforeDataFileCloseCb (k : Z) : M unit :=
  ms ← get_store; when (is_write_slice k ms) (flush_buffer k).
Definition beforeIndexFileCloseCb (k : Z) : M unit :=
  ms ← get_store; when (is_write_slice k ms) (process_if_buffered k).

(** [filesManager.doClose] on a file of this store. *)
Definition doClose (p : part) (k : Z) : M unit :=
  _ ← match p with Dat => beforeDataFileCloseCb k | Idx => beforeIndexFileCloseCb k end;
  set_state p k fileClosed.

Definition closeFileIfOpened (p : part) (k : Z) : M unit :=
  sl ← slice_at k; when (bool_decide (fstate (get_part p sl) = fileOpened)) (doClose p k).
Definition closeLockedFile (p : part) (k : Z) : M unit :=
  sl ← slice_at k; if bool_decide (fstate (get_part p sl) = fileInUse) then doClose p k else panic.
Definition closeLockedOrOpenedFile (p : part) (k : Z) : M unit :=
  sl ← slice_at k;
  when (bool_decide (fstate (get_part p sl) = fileInUse) || bool_decide (fstate (get_part p sl) = fileOpened)) (doClose p k).
Definition unlockFile (p : part) (k : Z) : M unit :=
  sl ← slice_at k; if bool_decide (fstate (get_part p sl) = fileInUse) then set_state p k fileOpened else panic.

(** Files of this store that the files manager closes. *)
Fixpoint close_files (l : list (part * Z)) : M unit :=
  match l with
  | [] => mret tt
  | (p, k) :: l' =>
      ms ← get_store;
      _ ← when (bool_decide (is_Some (files ms !! k))) (closeFileIfOpened p k);
      close_files l'
  end.

Definition closeUnusedFiles : M unit :=
  ms ← get_store;
  _ ← modify_store (set_opens (S (opens ms)));
  when hasFDsLimit (close_files (pressure (opens ms))).

(** Whether the file was open. *)
Definition lockFile (p : part) (k : Z) : M bool :=
  sl ← slice_at k;
  match fstate (get_part p sl) with
  | fileOpened => _ ← set_state p k fileInUse; mret true
  | fileClosed =>
      _ ← closeUnusedFiles;
      _ ← lift (Rec.openFile (Some (content (get_part p sl))));
      _ ← set_state p k fileInUse; mret false
  | fileRemoved => fail InvalidFile
  | _ => panic
  end.

(** An [offset] of -1 is the end of the file. *)
Definition setFile (k offset : Z) : M unit :=
  sl ← slice_at k;
  _ ← modify_store (fun ms => match bw ms with
                              | Some b => set_wbuf (Some (NewWriterSize (bufSize b))) ms
                              | None => ms
                              end);
  modify_store (set_wOffset (if offset =? -1 then Z.of_nat (length (content (file sl))) else offset)).

Definition doLockFiles (k : Z) (onlyIndexFile : bool) : M unit :=
  datWasOpened ← if onlyIndexFile then mret false else lockFile Dat k;
  r ← catch (lockFile Idx k);
  match r with
  | inr e =>
      _ ← when (negb onlyIndexFile) (if (datWasOpened : bool) then unlockFile Dat k else closeLockedFile Dat k);
      fail e
  | inl idxWasOpened =>
      ms ← get_store;
      _ ← when (negb onlyIndexFile && is_write_slice k ms && negb datWasOpened) (setFile k (-1));
      ms ← get_store;
      when (hasFDsLimit || negb (is_write_slice k ms))
        (_ ← when (negb datWasOpened || negb idxWasOpened) (modify_store (set_checkSlices true));
         update_slice k (fun sl => set_lastUsed (if lastUsed sl =? 0 then timeTick ms else lastUsed sl + 1) sl))
  end.

Definition lockFiles (k : Z) : M unit := doLockFiles k false.
Definition lockIndexFile (k : Z) : M unit := doLockFiles k true.
Definition unlockIndexFile (k : Z) : M unit := unlockFile Idx k.
Definition unlockFiles (k : Z) : M unit := _ ← unlockFile Dat k; unlockFile Idx k.
Definition closeLockedFiles (k : Z) : M unit := _ ← closeLockedFile Dat k; closeLockedFile Idx k.

(** [flush]; a sync does not change what a file holds. *)
Definition flush (k : Z) (forceSync : bool) : M unit :=
  _ ← flush_buffer k;
  _ ← process_if_buffered k;
  ms ← get_store;
  when (needSync ms && (DoSync opts || forceSync)) (modify_store (set_needSync false)).

(** ** Reading the index *)

(** Reading the index record at a position of the index file, whose handle is nil when the
    file is closed. *)
Definition index_at (sl : fileSlice) (off : Z) : outcome rec_error (Z * msgIndex) :=
  if negb (bool_decide (fstate (idxFile sl) = fileInUse)) then Err InvalidFile
  else if off <? 0 then Err InvalidSeek
  else readIndex (drop (Z.to_nat off) (content (idxFile sl))).

Fixpoint backtrack_loop (fuel : nat) (sl : fileSlice) (seq off : Z) : option msgIndex :=
  match fuel with
  | O => None
  | S fuel' =>
      if off <? 4 then None
      else match index_at sl off with
           | Err AtEOF => backtrack_loop fuel' sl seq (off - msgIndexRecSize)
           | Ok (s, i) =>
               if s =? seq then Some i
               else if s <? seq then None
               else backtrack_loop fuel' sl seq (off - msgIndexRecSize)
           | _ => None
           end
  end.

(** Each round goes back by the size of a record. *)
Definition backtrackIndex (sl : fileSlice) (seq off : Z) : option msgIndex :=
  backtrack_loop (Z.to_nat (off / msgIndexRecSize)) sl seq (off - msgIndexRecSize).

(** Where the index record of a sequence should be. *)
Definition idxFileOffset (sl : fileSlice) (seq : Z) : Z :=
  4 + (i64 (u64 (seq - firstSeq sl)) + rmCount sl) * msgIndexRecSize.

Definition readMsgIndex (k seq : Z) : M (option msgIndex) :=
  sl ← slice_at k;
  let off := idxFileOffset sl seq in
  match index_at sl off with
  | Err AtEOF => mret (backtrackIndex sl seq off)
  | Err e => fail e
  | Panic => panic
  | Ok (s, i) => mret (if s =? seq then Some i else backtrackIndex sl seq off)
  end.

Definition getMsgIndex (k seq : Z) : M (option msgIndex) :=
  ms ← get_store;
  match bufferedMsgs ms !! seq with Some bm => mret (Some (bindex bm)) | None => readMsgIndex k seq end.

(** ** Removing messages *)

Definition skipMissingMsg (k : Z) : M unit :=
  _ ← modify_store (fun ms =>
        let ms := set_firstMsg None (set_first (u64 (first ms + 1)) ms) in
        if last ms <? first ms then set_lastMsg None ms else ms);
  ms ← get_store;
  update_slice k (set_firstSeq (first ms)).

(** The next slice after the first one is removed. *)
Fixpoint next_slice (fuel : nat) (ms : FileMsgStore) : FileMsgStore :=
  match fuel with
  | O => ms
  | S fuel' =>
      if firstFSlSeq ms <? lastFSlSeq ms then
        let ms := set_firstFSlSeq (firstFSlSeq ms + 1) ms in
        if bool_decide (is_Some (files ms !! firstFSlSeq ms)) then ms else next_slice fuel' ms
      else ms
  end.

(** The files are removed, or renamed for the archive script. *)
Definition removeFirstSlice : M unit :=
  ms ← get_store;
  _ ← closeLockedOrOpenedFile Dat (firstFSlSeq ms);
  _ ← closeLockedOrOpenedFile Idx (firstFSlSeq ms);
  _ ← modify_store (fun ms => set_files (delete (firstFSlSeq ms) (files ms)) ms);
  _ ← modify_store (fun ms => next_slice (Z.to_nat (lastFSlSeq ms - firstFSlSeq ms)) ms);
  ms ← get_store;
  if lastFSlSeq ms <? firstFSlSeq ms then panic else mret tt.

(** The part of [removeFirstMsg] that knows the index record. *)
Definition remove_indexed (k : Z) (i : msgIndex) : M unit :=
  _ ← update_slice k (fun sl => set_rmCount (rmCount sl + 1) sl);
  _ ← modify_store (fun ms =>
        let ms := set_totalBytes (u64 (totalBytes ms - u32 (msgSize i + msgRecordOverhead)))
                    (set_totalCount (totalCount ms - 1) ms) in
        let ms := set_firstMsg None (set_first (u64 (first ms + 1)) ms) in
        if last ms <? first ms then set_lastMsg None ms else ms);
  ms ← get_store;
  sl ← slice_at k;
  if (msgsCount sl =? rmCount sl) && (1 <? Z.of_nat (size (files ms))) then removeFirstSlice
  else update_slice k (set_firstSeq (first ms)).

Definition removeFirstMsg (mindex : option msgIndex) (lock : bool) : M unit :=
  ms ← get_store;
  let k := firstFSlSeq ms in
  sl ← slice_at k;
  mindex ←
    match mindex with
    | Some i => mret (Some i)
    | None =>
        let doLock := lock || negb (is_write_slice k ms) in
        _ ← when doLock (_ ← catch (lockIndexFile k); mret tt);
        r ← catch (getMsgIndex k (firstSeq sl));
        _ ← when doLock (unlockIndexFile k);
        match r with
        | inr e => fail e
        | inl i => sl ← slice_at k; _ ← modify_store (set_first (firstSeq sl)); mret i
        end
    end;
  match mindex with None => skipMissingMsg k | Some i => remove_indexed k i end.

(** The condition of the loop of [enforceLimits]. *)
Definition over_limits (ms : FileMsgStore) : bool :=
  (1 <? totalCount ms)
  && (((0 <? Mem.MaxMsgs limits) && (Mem.MaxMsgs limits <? totalCount ms))
      || ((0 <? Mem.MaxBytes limits) && (u64 (Mem.MaxBytes limits) <? totalBytes ms))).

Fixpoint enforce_loop (fuel : nat) (reportHitLimit lock : bool) : M unit :=
  ms ← get_store;
  if over_limits ms then
    match fuel with
    | O => fail NoFuel
    | S fuel' =>
        r ← catch (removeFirstMsg None lock);
        match r with
        | inr _ => mret tt
        | inl _ => _ ← when reportHitLimit (modify_store (set_hitLimit true)); enforce_loop fuel' reportHitLimit lock
        end
    end
  else mret tt.

(** A round removes a message or skips a missing one. *)
Definition enforceLimits (reportHitLimit lock : bool) : M unit :=
  ms ← get_store;
  enforce_loop (Z.to_nat (totalCount ms) + Z.to_nat (last ms - first ms)) reportHitLimit lock.

(** ** Storing *)

(** [flush] comes first; then each missing message is written to the files. *)
Fixpoint fill_loop (n : nat) (k : Z) (emptyMsg : MsgProto) : M unit :=
  match n with
  | O => mret tt
  | S n' =>
      ms ← get_store;
      let i := u64 (last ms + 1) in
      let m := mkMsg i (Subject emptyMsg) (Reply emptyMsg) (Data emptyMsg) (Timestamp emptyMsg)
                 (Redelivered emptyMsg) (RedeliveryCount emptyMsg) (CRC32 emptyMsg) in
      let msgSize := c_size codec m in
      sl ← slice_at k;
      r ← lift (writeRecord (mkIO (content (file sl)) None) recNoType codec m crcTable);
      _ ← update_slice k (fun sl =>
            mkSlice (mkDFile (disk r.1) (fstate (file sl)))
              (mkDFile (content (idxFile sl) ++ addIndex i (mkIndex (wOffset ms) (Timestamp m) msgSize)) (fstate (idxFile sl)))
              (firstSeq sl) i (rmCount sl) (msgsCount sl + 1) (u64 (msgsSize sl + u64 (msgSize + msgRecordOverhead)))
              (firstWrite sl) (lastUsed sl));
      _ ← modify_store (fun ms => set_wOffset (wOffset ms + r.2) (set_last i (set_totalCount (totalCount ms + 1)
            (set_totalBytes (u64 (totalBytes ms + u64 (msgSize + msgRecordOverhead))) ms))));
      fill_loop n' k emptyMsg
  end.

Definition fillGaps (k : Z) (upToMsg : MsgProto) : M unit :=
  _ ← flush k false;
  _ ← modify_store (set_lastMsg None);
  ms ← get_store;
  fill_loop (Z.to_nat (Sequence upToMsg - last ms - 1)) k (mkMsg 0 channelName "" [] (Timestamp upToMsg) false 0 0).

(** A new slice is due: there is none, or the current one has reached a limit. *)
Definition slice_full (sl : fileSlice) (now : Z) : bool :=
  let l := setSliceLimits in
  slHasLimits l &&
  (((0 <? slSizeLim l) && (slSizeLim l <=? msgsSize sl))
   || ((0 <? slCountLim l) && (slCountLim l <=? msgsCount sl))
   || ((0 <? slAgeLim l) && (slAgeLim l <=? i64 (now - firstWrite sl)))).

(** [createFile] twice: the files may be left in the directory from an empty slice. *)
Definition createFiles (n : Z) : M (dfile * dfile) :=
  _ ← closeUnusedFiles;
  ms ← get_store;
  d ← lift (Rec.openFile (fst <$> stray ms !! n));
  _ ← closeUnusedFiles;
  i ← lift (Rec.openFile (snd <$> stray ms !! n));
  _ ← modify_store (fun ms => set_stray (delete n (stray ms)) ms);
  mret (mkDFile d fileInUse, mkDFile i fileInUse).

(** The slice of the new files. *)
Definition install (n : Z) (f : dfile * dfile) : M unit :=
  _ ← modify_store (fun ms =>
        let ms := set_writeSlice (Some n) (set_files (<[n := mkSlice f.1 f.2 0 0 0 0 0 0 (timeTick ms)]> (files ms)) ms) in
        set_lastFSlSeq n (if firstFSlSeq ms =? 0 then set_firstFSlSeq n ms else ms));
  setFile n 4.

Definition new_slice (old : option Z) : M Z :=
  ms ← get_store;
  let n := lastFSlSeq ms + 1 in
  _ ← match old with Some k => closeLockedFiles k | None => mret tt end;
  f ← createFiles n;
  _ ← install n f;
  ms ← get_store;
  _ ← when (bool_decide (size (files ms) = 2%nat))
        match old with
        | Some k => sl ← slice_at k; when (msgsCount sl =? rmCount sl) removeFirstSlice
        | None => panic
        end;
  mret n.

(** The slice to write to. *)
Definition current_slice : M Z :=
  ms ← get_store;
  match writeSlice ms with
  | None => new_slice None
  | Some k => sl ← slice_at k; if slice_full sl (timeTick ms) then new_slice (Some k) else mret k
  end.

(** The buffer grows when the record does not fit; the index records follow. *)
Definition make_room (k : Z) (required : Z) : M unit :=
  ms ← get_store;
  match bw ms, wbuf ms with
  | Some b, Some w =>
      if Available w <? required then
        sl ← slice_at k;
        let r := expand b (mkIO (content (file sl)) (Some w)) required in
        _ ← update_slice k (fun sl => set_part Dat (mkDFile (disk r.2) (fstate (file sl))) sl);
        _ ← modify_store (fun ms => set_bw (Some r.1) (set_wbuf (buf r.2) ms));
        process_if_buffered k
      else mret tt
  | _, _ => mret tt
  end.

(** The index record, which waits when the message is in the buffer. *)
Definition index_msg (k : Z) (m : MsgProto) (i : msgIndex) (recSize : Z) : M unit :=
  ms ← get_store;
  match bw ms, wbuf ms with
  | Some b, Some w =>
      _ ← when (shrinkReq b) (modify_store (set_bw (Some (checkShrinkRequest b w))));
      if recSize <=? Buffered w then
        modify_store (fun ms => set_bufferedSeqs (bufferedSeqs ms ++ [Sequence m])
                                  (set_bufferedMsgs (<[Sequence m := mkBuffered m i]> (bufferedMsgs ms)) ms))
      else append Idx k (addIndex (Sequence m) i)
  | _, _ => append Idx k (addIndex (Sequence m) i)
  end.

Definition write_msg (k : Z) (m : MsgProto) : M Z :=
  let msgSize := c_size codec m in
  _ ← make_room k (msgSize + recordHeaderSize);
  ms ← get_store;
  sl ← slice_at k;
  r ← lift (writeRecord (mkIO (content (file sl)) (wbuf ms)) recNoType codec m crcTable);
  _ ← update_slice k (fun sl => set_part Dat (mkDFile (disk r.1) (fstate (file sl))) sl);
  _ ← modify_store (set_wbuf (buf r.1));
  _ ← index_msg k m (mkIndex (wOffset ms) (Timestamp m) (u32 msgSize)) r.2;
  mret r.2.

(** What [Store] counts once the message is written. *)
Definition count_msg (k : Z) (m : MsgProto) (recSize : Z) : M unit :=
  _ ← modify_store (fun ms =>
        if (first ms =? 0) || (first ms =? Sequence m) then
          let ms := set_firstMsg (Some m) (set_first (Sequence m) ms) in
          if 0 <? Mem.MaxAge limits then set_expiration (i64 (Timestamp m + Mem.MaxAge limits)) ms else ms
        else ms);
  _ ← modify_store (fun ms => set_lastMsg (Some m) (set_last (Sequence m) ms));
  _ ← on_cache (fun c => c ← add 0 (Sequence m) m true false c; Ok (tt, c));
  let size := u64 (c_size codec m + msgRecordOverhead) in
  _ ← modify_store (fun ms => set_wOffset (wOffset ms + recSize) (set_totalCount (totalCount ms + 1)
        (set_totalBytes (u64 (totalBytes ms + size)) ms)));
  update_slice k (fun sl =>
    mkSlice (file sl) (idxFile sl) (if firstSeq sl =? 0 then Sequence m else firstSeq sl) (Sequence m) (rmCount sl)
      (msgsCount sl + 1) (u64 (msgsSize sl + size)) (if firstWrite sl =? 0 then Timestamp m else firstWrite sl) (lastUsed sl)).

Definition Store (m : MsgProto) : M Z :=
  ms ← get_store;
  if Sequence m <=? last ms then mret (Sequence m)
  else
    _ ← match writeSlice ms with Some k => lockFiles k | None => mret tt end;
    _ ← modify_store (set_needSync true);
    _ ← when ((0 <? last ms) && (u64 (last ms + 1) <? Sequence m))
          match writeSlice ms with Some k => fillGaps k m | None => panic end;
    k ← current_slice;
    r ← catch (recSize ← write_msg k m;
               _ ← count_msg k m recSize;
               when ((0 <? Mem.MaxMsgs limits) || (0 <? Mem.MaxBytes limits)) (enforceLimits true false));
    _ ← unlockFiles k;
    match r with inl _ => mret (Sequence m) | inr e => fail e end.

(** ** Looking up *)

Definition covers (seq : Z) (sl : fileSlice) : bool := (firstSeq sl <=? seq) && (seq <=? lastSeq sl).

(** The first slice of an iteration that has the sequence. *)
Definition find_slice `{!RangeOrder Z} (seq : Z) (m : gmap Z fileSlice) : option Z :=
  fst <$> head (filter (fun kx => covers seq kx.2 = true) (range m)).

Definition getFileSliceForSeq `{!RangeOrder Z} (seq : Z) : M (option Z) :=
  ms ← get_store;
  if bool_decide (files ms = ∅) then mret None
  else match writeSlice ms with
       | None => panic
       | Some k => sl ← slice_at k; mret (if covers seq sl then Some k else find_slice seq (files ms))
       end.

(** The payload of a message record of a given size. *)
Definition readMsgRecord (r : list byte) (expectedMsgSize : Z) : outcome rec_error (list byte) :=
  match ReadFull (Z.to_nat (recordHeaderSize + expectedMsgSize)) r with
  | (inr e, _) => Err (of_read e)
  | (inl buf, _) =>
      let msgSize := get_le (take 4 buf) in
      let crc := get_le (take 4 (drop 4 buf)) in
      if (msgSize =? 0) && (crc =? 0) then Err NeedRewind
      else if negb (msgSize =? expectedMsgSize) then Err UnexpectedSize
      else if DoCRC opts && negb (Checksum (drop 8 buf) crcTable =? crc) then Err BadCRC
      else Ok (drop 8 buf)
  end.

(** The index records of the messages that are read at once: the offset of the first
    message and the sizes of the messages. *)
Fixpoint scan_indexes (n : nat) (i : nat) (buf : list byte) (idxSeq total : Z)
  : outcome rec_error (Z * list Z) :=
  match n with
  | O => Ok (0, [])
  | S n' =>
      r ← readIndexFromBuffer buf;
      if negb (r.1 =? idxSeq) then Err WrongSequence
      else
        let recSize := u32 (msgSize r.2 + recordHeaderSize) in
        if (0 <? i)%nat && (ReadBufferSize opts <? total + recSize) then Ok (0, [])
        else
          t ← scan_indexes n' (S i) (drop 32 buf) (u64 (idxSeq + 1)) (total + recSize);
          Ok (offset r.2, msgSize r.2 :: t.2)
  end.

(** The messages are added to the cache; the first one is the result. *)
Fixpoint read_msgs (now : Z) (sizes : list Z) (buf : list byte) (seq : Z) : M (option MsgProto) :=
  match sizes with
  | [] => mret None
  | size :: sizes' =>
      let crc := get_le (take 4 (drop 4 buf)) in
      let payload := take (Z.to_nat size) (drop 8 buf) in
      if DoCRC opts && negb (Checksum payload crcTable =? crc) then fail BadCRC
      else
        m ← lift (FileSub.unmarshal codec payload);
        _ ← on_cache (fun c => c ← add now seq m false true c; Ok (tt, c));
        _ ← read_msgs now sizes' (drop (8 + Z.to_nat size) buf) (u64 (seq + 1));
        mret (Some m)
  end.

(** The buffer has the size [ReadBufferSize], as when the pool of buffers has no larger
    one: slicing it further than that panics. *)
Definition readAheadMsgs (now k seq : Z) : M (option MsgProto) :=
  sl ← slice_at k;
  let off := idxFileOffset sl seq in
  if off <? 0 then fail InvalidSeek
  else
    let size := ReadBufferSize opts in
    let numIdx := if size / msgIndexRecSize =? 0 then 1 else size / msgIndexRecSize in
    let maxIdx := i64 (u64 (lastSeq sl - seq + 1)) in
    let numIdx := if maxIdx <? numIdx then maxIdx else numIdx in
    let idxBufSize := numIdx * msgIndexRecSize in
    if (size <? idxBufSize) || (idxBufSize <? 0) then panic
    else match ReadFull (Z.to_nat idxBufSize) (drop (Z.to_nat off) (content (idxFile sl))) with
         | (inr e, _) => fail (of_read e)
         | (inl buf, _) =>
             r ← lift (scan_indexes (Z.to_nat numIdx) 0 buf seq 0);
             let total := foldr (fun s t => u32 (s + recordHeaderSize) + t) 0 r.2 in
             if r.1 <? 0 then fail InvalidSeek
             else match ReadFull (Z.to_nat total) (drop (Z.to_nat r.1) (content (file sl))) with
                  | (inr e, _) => fail (of_read e)
                  | (inl buf, _) => read_msgs now r.2 buf seq
                  end
         end.

(** Reading one message with its index record. *)
Definition read_one (now k seq : Z) : M (option MsgProto) :=
  r ← catch (i ← readMsgIndex k seq;
             match i with
             | None => mret None
             | Some i =>
                 sl ← slice_at k;
                 if offset i <? 0 then fail InvalidSeek
                 else payload ← lift (readMsgRecord (drop (Z.to_nat (offset i)) (content (file sl))) (msgSize i));
                      mret (Some payload)
             end);
  _ ← unlockFiles k;
  match r with
  | inr e => fail e
  | inl None => mret None
  | inl (Some payload) =>
      m ← lift (FileSub.unmarshal codec payload);
      _ ← on_cache (fun c => c ← add now seq m false false c; Ok (tt, c));
      mret (Some m)
  end.

Definition read_from_disk `{!RangeOrder Z} (now seq : Z) : M (option MsgProto) :=
  k ← getFileSliceForSeq seq;
  match k with
  | None => mret None
  | Some k =>
      _ ← lockFiles k;
      sl ← slice_at k;
      if (0 <? ReadBufferSize opts) && negb (seq =? lastSeq sl) then
        r ← catch (readAheadMsgs now k seq);
        match r with
        | inl m => _ ← unlockFiles k; mret m
        | inr _ => read_one now k seq
        end
      else read_one now k seq
  end.

Definition lookup `{!RangeOrder Z} (now seq : Z) : M (option MsgProto) :=
  ms ← get_store;
  if (seq <? first ms) || (last ms <? seq) then mret None
  else
    m ← on_cache (get now seq);
    match m with
    | Some m => mret (Some m)
    | None =>
        match bufferedMsgs ms !! seq with
        | Some bm => _ ← on_cache (fun c => c ← add now seq (bmsg bm) false false c; Ok (tt, c)); mret (Some (bmsg bm))
        | None => read_from_disk now seq
        end
    end.

Definition Lookup `{!RangeOrder Z} (now seq : Z) : M (option MsgProto) := lookup now seq.

Definition FirstMsg `{!RangeOrder Z} (now : Z) : M (option MsgProto) :=
  ms ← get_store;
  match firstMsg ms with
  | Some m => mret (Some m)
  | None => m ← lookup now (first ms); _ ← modify_store (set_firstMsg m); mret m
  end.

Definition LastMsg `{!RangeOrder Z} (now : Z) : M (option MsgProto) :=
  ms ← get_store;
  match lastMsg ms with
  | Some m => mret (Some m)
  | None => m ← lookup now (last ms); _ ← modify_store (set_lastMsg m); mret m
  end.

Definition FirstAndLastSequence (ms : FileMsgStore) : Z * Z := (first ms, last ms).
Definition State (ms : FileMsgStore) : Z * Z := (totalCount ms, totalBytes ms).

(** ** Positions by time *)

(** The time of a message in the index, which must be there. *)
Definition time_at (k seq : Z) : M Z :=
  i ← getMsgIndex k seq; match i with Some i => mret (timestamp i) | None => panic end.

(** The loop over the messages of a slice, up to the one before the last. *)
Fixpoint seek_loop (fuel : nat) (k seq stop ts : Z) : M Z :=
  if seq <=? stop then
    match fuel with
    | O => fail NoFuel
    | S fuel' => t ← time_at k seq; if ts <=? t then mret seq else seek_loop fuel' k (u64 (seq + 1)) stop ts
    end
  else mret seq.

(** The sequence, when the slice has it. *)
Definition seek_in_slice (k ts : Z) : M (option Z) :=
  sl ← slice_at k;
  t ← time_at k (firstSeq sl);
  if t <? ts then
    t ← time_at k (lastSeq sl);
    if t <? ts then mret None
    else if ts <? t then
      seq ← seek_loop (Z.to_nat (lastSeq sl - firstSeq sl)) k (u64 (firstSeq sl + 1)) (u64 (lastSeq sl - 1)) ts;
      mret (Some seq)
    else mret (Some (lastSeq sl))
  else mret (Some (firstSeq sl)).

Fixpoint seek_slices (n : nat) (k ts : Z) : M (option Z) :=
  match n with
  | O => mret None
  | S n' =>
      ms ← get_store;
      if bool_decide (is_Some (files ms !! k)) then
        _ ← lockIndexFile k;
        r ← catch (seek_in_slice k ts);
        _ ← unlockIndexFile k;
        match r with
        | inr e => fail e
        | inl (Some seq) => mret (Some seq)
        | inl None => seek_slices n' (k + 1) ts
        end
      else seek_slices n' (k + 1) ts
  end.

Definition GetSequenceFromTimestamp (ts : Z) : M Z :=
  ms ← get_store;
  if first ms =? 0 then mret 0
  else if last ms <? first ms then mret (u64 (last ms + 1))
  else if match firstMsg ms with Some m => ts <=? Timestamp m | None => false end then mret (first ms)
  else if match lastMsg ms with Some m => ts =? Timestamp m | None => false end then mret (last ms)
  else if match lastMsg ms with Some m => Timestamp m <? ts | None => false end then mret (u64 (last ms + 1))
  else
    r ← seek_slices (Z.to_nat (lastFSlSeq ms - firstFSlSeq ms + 1)) (firstFSlSeq ms) ts;
    mret (match r with Some seq => seq | None => u64 (last ms + 1) end).

(** ** Expiration *)

(** The slice of the first message, locked. *)
Definition slice_to_expire `{!RangeOrder Z} : M (option (Z * Z)) :=
  ms ← get_store;
  k ← getFileSliceForSeq (first ms);
  k ← match k with
      | Some k => mret (Some k)
      | None =>
          match files ms !! firstFSlSeq ms with
          | Some sl => _ ← modify_store (set_first (firstSeq sl)); mret (Some (firstFSlSeq ms))
          | None => mret None
          end
      end;
  match k with
  | None => mret None
  | Some k => _ ← lockIndexFile k; sl ← slice_at k; mret (Some (k, lastSeq sl))
  end.

(** [slice] is the slice that is locked, with its last sequence; the result is the slice
    to unlock.  An error of the index is retried after 5 seconds. *)
Fixpoint expire_loop `{!RangeOrder Z} (fuel : nat) (now maxAge : Z) (slice : option (Z * Z)) : M (option (Z * Z)) :=
  match fuel with
  | O => fail NoFuel
  | S fuel' =>
      ms ← get_store;
      if last ms <? first ms then _ ← modify_store (set_expiration 0); mret slice
      else
        r ← match slice with
            | Some (k, l) => if l <? first ms then catch slice_to_expire else mret (inl slice)
            | None => catch slice_to_expire
            end;
        match r with
        | inr _ => mret None
        | inl None => _ ← modify_store (set_expiration 0); mret None
        | inl (Some (k, l)) =>
            ms ← get_store;
            r ← catch (getMsgIndex k (first ms));
            match r with
            | inr _ => _ ← modify_store (set_expiration (now + 5000000000)); mret (Some (k, l))
            | inl None => _ ← skipMissingMsg k; expire_loop fuel' now maxAge (Some (k, l))
            | inl (Some i) =>
                let elapsed := i64 (now - timestamp i) in
                if maxAge <=? elapsed then
                  _ ← catch (removeFirstMsg (Some i) false); expire_loop fuel' now maxAge (Some (k, l))
                else
                  _ ← modify_store (set_expiration
                        (if elapsed <? 0 then i64 (timestamp i + maxAge) else i64 (now + (maxAge - elapsed))));
                  mret (Some (k, l))
            end
        end
  end.

(** A round removes the first message, skips it, or is the last one. *)
Definition expireMsgs `{!RangeOrder Z} (now maxAge : Z) : M Z :=
  ms ← get_store;
  if first ms =? 0 then _ ← modify_store (set_expiration 0); mret 0
  else
    slice ← expire_loop (S (Z.to_nat (last ms - first ms + 1))) now maxAge None;
    _ ← match slice with Some (k, _) => unlockIndexFile k | None => mret tt end;
    ms ← get_store; mret (expiration ms).

(** ** Background tasks *)

(** The loop over the slices of [backgroundTasks]: how many stay open. *)
Fixpoint close_slices (l : list Z) (now : Z) : M Z :=
  match l with
  | [] => mret 0
  | k :: l' =>
      ms ← get_store;
      if negb hasFDsLimit && is_write_slice k ms then close_slices l' now
      else
        sl ← slice_at k;
        if (0 <? lastUsed sl) && (sliceCloseInterval <=? i64 (now - lastUsed sl)) then
          _ ← update_slice k (set_lastUsed 0);
          _ ← closeFileIfOpened Dat k;
          _ ← closeFileIfOpened Idx k;
          close_slices l' now
        else n ← close_slices l' now; mret (n + 1)
  end.

Definition closeUnusedSlices `{!RangeOrder Z} (now : Z) : M unit :=
  _ ← modify_store (set_timeTick now);
  ms ← get_store;
  when (checkSlices ms)
    (n ← close_slices (range (files ms)).*1 now; when (n =? 0) (modify_store (set_checkSlices false))).

Definition shrinkBuffer : M unit :=
  ms ← get_store;
  match bw ms, wbuf ms, writeSlice ms with
  | Some b, Some w, Some k =>
      sl ← slice_at k;
      when (bool_decide (fstate (file sl) = fileOpened))
        (let r := tryShrinkBuffer b (mkIO (content (file sl)) (Some w)) w in
         _ ← update_slice k (fun sl => set_part Dat (mkDFile (disk r.2) (fstate (file sl))) sl);
         modify_store (fun ms => set_bw (Some r.1) (set_wbuf (buf r.2) ms)))
  | _, _, _ => mret tt
  end.

Definition evictCache (now : Z) : M unit :=
  ms ← get_store;
  when (tryEvict (cache ms)) (on_cache (fun c => c ← evict now c; Ok (tt, c))).

Definition autoSync : M unit :=
  ms ← get_store;
  match writeSlice ms with
  | Some k =>
      when (needSync ms && negb (closed ms))
        (r ← catch (lockFiles k);
         match r with inl _ => _ ← catch (flush k true); unlockFiles k | inr _ => mret tt end)
  | None => mret tt
  end.

(** What the goroutine keeps between two rounds. *)
Record bkg := mkBkg { nextExpiration : Z; lastCacheCheck : Z; lastBufShrink : Z; lastAutoSync : Z }.

(** A round of [backgroundTasks]; the store is not locked between its parts. *)
Definition backgroundTasks `{!RangeOrder Z} (now : Z) (b : bkg) : M bkg :=
  _ ← closeUnusedSlices now;
  ms ← get_store;
  let shrink := bool_decide (is_Some (bw ms)) && (5000000000 <=? i64 (now - lastBufShrink b)) in
  _ ← when shrink shrinkBuffer;
  let maxAge := Mem.MaxAge limits in
  next ← if (0 <? maxAge) && (0 <? nextExpiration b) && (nextExpiration b <=? now)
         then expireMsgs now maxAge else mret (nextExpiration b);
  let check := i64 (lastCacheCheck b + cacheTTL) <=? now in
  _ ← when check (evictCache now);
  let sync := (0 <? AutoSync opts) && (i64 (lastAutoSync b + AutoSync opts) <=? now) in
  _ ← when sync autoSync;
  mret (mkBkg next (if check then now else lastCacheCheck b) (if shrink then now else lastBufShrink b)
          (if sync then now else lastAutoSync b)).

(** ** Flushing, closing, purging *)

Definition Flush : M unit :=
  ms ← get_store;
  match writeSlice ms with
  | Some k => _ ← lockFiles k; _ ← flush k false; unlockFiles k
  | None => mret tt
  end.

(** The slices are not in the files manager any more. *)
Definition removed (sl : fileSlice) : fileSlice :=
  set_files_of (mkDFile (content (file sl)) fileRemoved) (mkDFile (content (idxFile sl)) fileRemoved) sl.

Definition Close : M unit :=
  ms ← get_store;
  if closed ms then mret tt
  else
    _ ← modify_store (set_closed true);
    _ ← match writeSlice ms with
        | Some k => _ ← catch (lockFiles k); _ ← flush k true; unlockFiles k
        | None => mret tt
        end;
    modify_store (fun ms => set_files (removed <$> files ms) ms).

Definition Empty : M unit :=
  modify_store (fun ms =>
    mkStore (closed ms) 0 0 0 0 false ∅ None 0 0
      (match bw ms with Some _ => Some (newBufferWriter msgBufMinShrinkSize (BufferSize opts)) | None => None end) None 0
      None None 0 (match bw ms with Some _ => [] | None => bufferedSeqs ms end)
      (match bw ms with Some _ => ∅ | None => bufferedMsgs ms end) (empty (cache ms))
      (needSync ms) (checkSlices ms) (timeTick ms) ∅ (opens ms)).

(** ** Recovery *)

(** What is recovered of a slice so far. *)
Record stats := mkStats { s_first : Z; s_last : Z; s_count : Z; s_size : Z; s_write : Z }.

Definition no_stats : stats := mkStats 0 0 0 0 0.

Definition add_stats (seq ts size : Z) (s : stats) : stats :=
  mkStats (if s_first s =? 0 then seq else s_first s) seq (s_count s + 1) (u64 (s_size s + size))
    (if s_write s =? 0 then ts else s_write s).

(** The records of the index file: the statistics, the last record, the offset to truncate
    the file at, if any. *)
Fixpoint recover_index (fuel : nat) (off : Z) (s : stats) (lst : option (Z * msgIndex)) (r : list byte)
  : outcome rec_error (stats * option (Z * msgIndex) * option Z) :=
  match readIndex r with
  | Panic => Panic
  | Err AtEOF => Ok (s, lst, None)
  | Err NeedRewind => Ok (s, lst, Some off)
  | Err e => Err e
  | Ok (seq, i) =>
      match fuel with
      | O => Err NoFuel
      | S fuel' =>
          recover_index fuel' (off + msgIndexRecSize)
            (add_stats seq (timestamp i) (u32 (msgSize i + msgRecordOverhead)) s) (Some (seq, i)) (drop 32 r)
      end
  end.

Definition ensureLastMsgAndIndexMatch (dat : list byte) (seq : Z) (index : msgIndex) : outcome rec_error unit :=
  if offset index <? 0 then Err InvalidSeek
  else
    r ← readRecord (drop (Z.to_nat (offset index)) dat) false crcTable true (msgSize index);
    m ← FileSub.unmarshal codec r.1.1;
    if Sequence m =? seq then Ok tt else Err WrongSequence.

(** The records of the data file: the statistics, the index records, the offset to
    truncate at, if any. *)
Fixpoint recover_data (fuel : nat) (off : Z) (s : stats) (idx : list byte) (r : list byte)
  : outcome rec_error (stats * list byte * option Z) :=
  match readRecord r false crcTable (DoCRC opts) 0 with
  | Panic => Panic
  | Err AtEOF => Ok (s, idx, None)
  | Err NeedRewind => Ok (s, idx, Some off)
  | Err AtUnexpectedEOF => if TruncateUnexpectedEOF opts then Ok (s, idx, Some off) else Err AtUnexpectedEOF
  | Err e => Err e
  | Ok (payload, _, r) =>
      match fuel with
      | O => Err NoFuel
      | S fuel' =>
          m ← FileSub.unmarshal codec payload;
          let n := Z.of_nat (length payload) in
          recover_data fuel' (off + recordHeaderSize + n)
            (add_stats (Sequence m) (Timestamp m) (u64 (n + msgRecordOverhead)) s)
            (idx ++ addIndex (Sequence m) (mkIndex off (Timestamp m) n)) r
      end
  end.

(** Recovery from the data file, with the index file [idx] to add to.  The truncation is of
    the file that recovery started with, [ofIdx] being whether this is the index file: its
    handle is then another one, and the records for the old handle cannot be written. *)
Definition recover_from_data (dat idx : list byte) (ofIdx : bool) : outcome rec_error (stats * list byte * list byte) :=
  r ← recover_data (length dat) 4 no_stats [] (drop 4 dat);
  let '(s, recs, trunc) := r in
  match trunc with
  | None => Ok (s, dat, idx ++ recs)
  | Some off =>
      if ofIdx then
        if bool_decide (recs = []) then Ok (s, dat, take (Z.to_nat off) idx) else Err InvalidFile
      else Ok (s, take (Z.to_nat off) dat, idx ++ recs)
  end.

(** The contents of the files after recovery, with the statistics; the index file is there
    or it is created. *)
Definition recover_slice (dat : list byte) (idx : option (list byte)) : outcome rec_error (stats * list byte * list byte) :=
  match idx with
  | None => recover_from_data dat (Ints.WriteInt [] fileVersion) false
  | Some idx =>
      match recover_index (length idx) 4 no_stats None (drop 4 idx) with
      | Panic => Panic
      | Err _ => recover_from_data dat (take 4 idx) false
      | Ok (s, lst, trunc) =>
          let idx := match trunc with Some off => take (Z.to_nat off) idx | None => idx end in
          match lst with
          | None => recover_from_data dat idx true
          | Some (seq, i) =>
              match ensureLastMsgAndIndexMatch dat seq i with
              | Ok _ => Ok (s, dat, idx)
              | Panic => Panic
              | Err _ => recover_from_data dat (take 4 idx) false
              end
          end
      end
  end.

Definition recoverOneMsgFile (now fseq : Z) (dat : list byte) (idx : option (list byte)) : M unit :=
  _ ← closeUnusedFiles;
  d ← lift (Rec.openFile (Some dat));
  _ ← closeUnusedFiles;
  _ ← lift (match idx with Some i => Rec.openFile (Some i) | None => Ok [] end);
  r ← lift (recover_slice d idx);
  let '(s, dat, idx) := r in
  if 0 <? s_count s then
    modify_store (fun ms =>
      let ms := if (first ms =? 0) || (s_first s <? first ms) then set_first (s_first s) ms else ms in
      let ms := if last ms <? s_last s then set_last (s_last s) ms else ms in
      let ms := set_totalCount (totalCount ms + s_count s) (set_totalBytes (u64 (totalBytes ms + s_size s)) ms) in
      let sl := mkSlice (mkDFile dat fileClosed) (mkDFile idx fileClosed) (s_first s) (s_last s) 0 (s_count s) (s_size s)
                  (s_write s) now in
      let ms := set_files (<[fseq := sl]> (files ms)) ms in
      let ms := if (firstFSlSeq ms =? 0) || (fseq <? firstFSlSeq ms) then set_firstFSlSeq fseq ms else ms in
      if lastFSlSeq ms <? fseq then set_lastFSlSeq fseq ms else ms)
  else modify_store (fun ms => set_stray (<[fseq := (dat, idx)]> (stray ms)) ms).

(** A data file of the directory, with its index file if there is one; the number in the
    name may not parse. *)
Definition dir_entry : Type := option Z * list byte * option (list byte).

Fixpoint recover_files (now : Z) (dir : list dir_entry) : M unit :=
  match dir with
  | [] => mret tt
  | (None, _, _) :: _ => fail InvalidName
  | (Some fseq, dat, idx) :: dir' => _ ← recoverOneMsgFile now fseq dat idx; recover_files now dir'
  end.

Definition new_store (now : Z) : FileMsgStore :=
  let bw := if 0 <? BufferSize opts then Some (newBufferWriter msgBufMinShrinkSize (BufferSize opts)) else None in
  mkStore false 0 0 0 0 false ∅ None 0 0 bw None 4 None None 0 [] ∅ initCache false false now ∅ 0.

(** [newFileMsgStore]; [dir] is the directory, if there is one to recover. *)
Definition recover_store `{!RangeOrder Z} (now : Z) (dir : list dir_entry) : M unit :=
  _ ← recover_files now dir;
  ms ← get_store;
  _ ← when (0 <? lastFSlSeq ms)
        (let k := lastFSlSeq ms in
         _ ← modify_store (set_writeSlice (Some k));
         _ ← lockFile Dat k;
         _ ← setFile k (-1);
         _ ← unlockFile Dat k;
         modify_store (set_checkSlices true));
  _ ← enforceLimits false true;
  ms ← get_store;
  _ ← when ((0 <? Mem.MaxAge limits) && (0 <? totalCount ms)) (_ ← expireMsgs now (Mem.MaxAge limits); mret tt);
  match writeSlice ms with
  | Some k => _ ← closeFileIfOpened Dat k; closeFileIfOpened Idx k
  | None => mret tt
  end.

Definition newFileMsgStore `{!RangeOrder Z} (now : Z) (dir : option (list dir_entry)) : outcome rec_error FileMsgStore :=
  match dir with
  | None => Ok (new_store now)
  | Some dir =>
      match recover_store now dir (new_store now) with
      | (Ok _, ms) => Ok ms
      | (Err e, _) => Err e
      | (Panic, _) => Panic
      end
  end.
End Store.
End FileMsg.
