(* ===== verification/FileMsgsSpec.v ===== *)
(** * What the files of a message store hold

    Records and index records are read back; the invariant of [FileMsgStore] relates its
    slices, its buffer and its cache to a window of messages.  Locking files and reading
    the index preserve it. *)

From Stdlib Require Import ZArith Lia Ascii String Sorted.
From stdpp Require Import base list gmap strings.
From S2P Require Import Prelude Bytes Util GoLib Crc Proto ProtoSpec MemStore Records RecordsSpec FileSubs FilesManager Cache FileMsgs.

Local Open Scope Z_scope.

Module FileMsgSpec.
Import Crc CrcSpec Proto ProtoSpec Buffer Rec RecSpec FileOptions FM Cache FileMsg.

(** ** Records and index records *)

Section Files.
Context (opts : FileStoreOptions) (Hopts : FileOptions.valid opts) (codec : codec MsgProto).
Context (nonempty : forall m, 0 < Sequence m -> c_put codec m <> []).
Context `{!Lawful codec}.
Local Abbreviation tab := (crcTable opts).

Lemma msgs_poly_word : is_word (CRCPolynomial opts).
Proof. pose proof (valid_polynomial _ Hopts). unfold is_word, two32. lia. Qed.

Definition msize (m : MsgProto) : Z := c_size codec m.

(** What counts of a message for the limits. *)
Definition Size (m : MsgProto) : Z := msize m + msgRecordOverhead.

Record msg_ok (m : MsgProto) : Prop := {
  ok_typed : c_typed codec m;
  ok_seq : 0 < Sequence m < two64 - 1;
  ok_size : Size m < two32;
  ok_time : is_i64 (Timestamp m)
}.

Lemma msg_codec m : msg_ok m -> codec_ok codec m.
Proof.
  intros H. apply lawful_ok; [apply H|]. pose proof (ok_size _ H). unfold Size, msize, msgRecordOverhead, two32, two63 in *.
  change (recordHeaderSize + msgIndexRecSize) with 40 in *. lia.
Qed.

Lemma payload_length m : msg_ok m -> Z.of_nat (length (c_put codec m)) = msize m.
Proof. intros H. destruct (msg_codec m H) as [_ E]. unfold msize. lia. Qed.

Lemma msize_pos m : msg_ok m -> 0 < msize m < two32 - 40.
Proof.
  intros H. pose proof (payload_length m H) as E. pose proof (ok_size _ H) as Hs. unfold Size in Hs.
  change msgRecordOverhead with 40 in Hs. pose proof (nonempty m (proj1 (ok_seq _ H))) as Hn.
  destruct (c_put codec m); [done|]. cbn [length] in E. lia.
Qed.

Lemma unmarshal_msg m : msg_ok m -> FileSub.unmarshal codec (c_put codec m) = Ok m.
Proof. intros H. destruct (msg_codec m H) as [E _]. unfold FileSub.unmarshal. by rewrite E. Qed.

Definition enc (m : MsgProto) : list byte := encode tab recNoType (c_put codec m).
Definition records (l : list MsgProto) : list byte := l ≫= enc.
Fixpoint rec_len (l : list MsgProto) : Z := match l with [] => 0 | m :: l' => 8 + msize m + rec_len l' end.

(** The index record of the message at an offset. *)
Definition index_of (off : Z) (m : MsgProto) : msgIndex := mkIndex off (Timestamp m) (msize m).

Fixpoint indexes (off : Z) (l : list MsgProto) : list byte :=
  match l with
  | [] => []
  | m :: l' => addIndex opts (Sequence m) (index_of off m) ++ indexes (off + 8 + msize m) l'
  end.

(** The buffered messages with their index records. *)
Fixpoint buffered (off : Z) (l : list MsgProto) : gmap Z bufferedMsg :=
  match l with
  | [] => ∅
  | m :: l' => <[Sequence m := mkBuffered m (index_of off m)]> (buffered (off + 8 + msize m) l')
  end.

Lemma rec_len_app a b : rec_len (a ++ b) = rec_len a + rec_len b.
Proof. induction a as [|m a IH]; [done|]. cbn [app rec_len]. lia. Qed.

Lemma rec_len_nonneg l : Forall msg_ok l -> 0 <= rec_len l.
Proof.
  induction 1 as [|m l Hm _ IH]; [done|]. cbn [rec_len].
  pose proof (msize_pos m Hm). lia.
Qed.

Lemma records_app a b : records (a ++ b) = records a ++ records b.
Proof. apply bind_app. Qed.

Lemma length_enc m : msg_ok m -> Z.of_nat (length (enc m)) = 8 + msize m.
Proof. intros H. unfold enc, crcTable. rewrite length_encode, Nat2Z.inj_add, payload_length by done. lia. Qed.

Lemma length_records l : Forall msg_ok l -> Z.of_nat (length (records l)) = rec_len l.
Proof.
  induction 1 as [|m l Hm _ IH]; [done|]. unfold records in *. rewrite bind_cons, length_app, Nat2Z.inj_add, IH, length_enc by done.
  done.
Qed.

Lemma records_nil l : Forall msg_ok l -> records l = [] -> l = [].
Proof.
  intros H E. destruct H as [|m l Hm _]; [done|]. unfold records in E. rewrite bind_cons in E.
  apply app_eq_nil in E as [E _]. pose proof (length_enc m Hm). rewrite E in *. pose proof (msize_pos m Hm). simpl in *. lia.
Qed.

Lemma length_addIndex seq i : length (addIndex opts seq i) = 32%nat.
Proof. unfold addIndex. rewrite !length_app, !length_put_le. done. Qed.

Lemma length_indexes off l : length (indexes off l) = (32 * length l)%nat.
Proof.
  revert off. induction l as [|m l IH]; intros off; [done|]. cbn [indexes]. rewrite length_app, length_addIndex, IH.
  cbn [length]. lia.
Qed.

Lemma indexes_app off a b : indexes off (a ++ b) = indexes off a ++ indexes (off + rec_len a) b.
Proof.
  revert off. induction a as [|m a IH]; intros off; cbn [app indexes rec_len].
  - by rewrite Z.add_0_r.
  - rewrite IH, <- app_assoc. do 3 f_equal. lia.
Qed.

Lemma drop_indexes off l i :
  (i <= length l)%nat -> drop (32 * i) (indexes off l) = indexes (off + rec_len (take i l)) (drop i l).
Proof.
  intros Hi. rewrite <- (take_drop i l) at 1. rewrite indexes_app, drop_app_length'; [done|].
  rewrite length_indexes, length_take. lia.
Qed.

(** What an index record can hold. *)
Definition index_ok (seq : Z) (i : msgIndex) : Prop :=
  0 < seq < two64 /\ 0 <= offset i < two63 /\ is_i64 (timestamp i) /\ 0 <= msgSize i < two32.

Lemma i64_u64 z : is_i64 z -> i64 (u64 z) = z.
Proof.
  intros H. unfold i64, u64, is_i64, two63, two64 in *.
  rewrite Zplus_mod_idemp_l. rewrite Z.mod_small; lia.
Qed.

Lemma read_addIndex seq i : index_ok seq i -> readIndexFromBuffer opts (addIndex opts seq i) = Ok (seq, i).
Proof.
  intros (Hs & Ho & Ht & Hm). unfold readIndexFromBuffer, addIndex.
  set (a := put_le 8 seq). set (b := put_le 8 (u64 (offset i))). set (c := put_le 8 (u64 (timestamp i))).
  set (d := put_le 4 (u32 (msgSize i))). set (e := put_le 4 _).
  rewrite <- !app_assoc.
  assert (take 8 (a ++ b ++ c ++ d ++ e) = a) as -> by by apply take_app_length'.
  assert (drop 8 (a ++ b ++ c ++ d ++ e) = b ++ c ++ d ++ e) as -> by by apply drop_app_length'.
  assert (drop 16 (a ++ b ++ c ++ d ++ e) = c ++ d ++ e) as ->
    by (rewrite (app_assoc a b); by apply drop_app_length').
  assert (drop 24 (a ++ b ++ c ++ d ++ e) = d ++ e) as ->
    by (rewrite (app_assoc a b), (app_assoc (a ++ b) c); by apply drop_app_length').
  assert (drop 28 (a ++ b ++ c ++ d ++ e) = e) as ->
    by (rewrite (app_assoc a b), (app_assoc (a ++ b) c), (app_assoc _ d); by apply drop_app_length').
  assert (take 28 (a ++ b ++ c ++ d ++ e) = a ++ b ++ c ++ d) as ->
    by (rewrite (app_assoc c d), (app_assoc b (c ++ d)), (app_assoc a); apply take_app_length'; done).
  rewrite (take_app_length' b), (take_app_length' c), (take_app_length' d), (take_ge e) by done.
  assert (get_le a = seq) as -> by (apply get_put_le_small; change (256 ^ Z.of_nat 8) with two64; lia).
  assert (forall z, is_i64 z -> i64 (get_le (put_le 8 (u64 z))) = z) as H8.
  { intros z Hz. rewrite get_put_le_small; [by apply i64_u64|]. change (256 ^ Z.of_nat 8) with two64. apply u64_range. }
  assert (get_le d = msgSize i) as ->.
  { unfold d. rewrite u32_small by lia. apply get_put_le_small. change (256 ^ Z.of_nat 4) with two32. lia. }
  assert (get_le e = Checksum (a ++ b ++ c ++ d) tab) as -> by (apply get_checksum, msgs_poly_word).
  unfold b, c. rewrite !H8 by (done || (unfold is_i64; lia)). destruct i as [o t s]; cbn [offset timestamp msgSize] in *.
  replace (seq =? 0) with false by lia. by rewrite Z.eqb_refl, andb_false_r.
Qed.

Lemma readIndex_ok seq i rest : index_ok seq i -> readIndex opts (addIndex opts seq i ++ rest) = Ok (seq, i).
Proof. intros H. unfold readIndex. rewrite ReadFull_app by apply length_addIndex. by apply read_addIndex. Qed.

(** Offsets stay in the range of an [int64]. *)
Definition fits (l : list MsgProto) : Prop := 4 + rec_len l < two63.

Lemma index_of_ok l i m : Forall msg_ok l -> fits l -> l !! i = Some m -> index_ok (Sequence m) (index_of (4 + rec_len (take i l)) m).
Proof.
  intros Hl Hf Hi. pose proof (Forall_lookup_1 _ _ _ _ Hl Hi) as Hm. pose proof (msize_pos m Hm). pose proof (ok_seq _ Hm).
  unfold fits in Hf. rewrite <- (take_drop i l), rec_len_app in Hf.
  pose proof (rec_len_nonneg (take i l) (Forall_take _ _ _ Hl)). pose proof (rec_len_nonneg (drop i l) (Forall_drop _ _ _ Hl)).
  split_and!; cbn; [lia..|apply Hm|lia|lia].
Qed.

(** ** Reading files *)

Definition idx_of (l : list MsgProto) : list byte := version ++ indexes 4 l.
Definition dat_of (l : list MsgProto) : list byte := version ++ records l.

Lemma drop_idx l i :
  (i <= length l)%nat -> drop (Z.to_nat (4 + Z.of_nat i * msgIndexRecSize)) (idx_of l) = indexes (4 + rec_len (take i l)) (drop i l).
Proof.
  intros Hi. replace (Z.to_nat (4 + Z.of_nat i * msgIndexRecSize)) with (4 + 32 * i)%nat by (unfold msgIndexRecSize; lia).
  unfold idx_of. rewrite <- drop_drop, drop_version. by apply drop_indexes.
Qed.

Lemma index_at_ok sl l i m :
  content (idxFile sl) = idx_of l -> fstate (idxFile sl) = fileInUse -> Forall msg_ok l -> fits l -> l !! i = Some m ->
  index_at opts sl (4 + Z.of_nat i * msgIndexRecSize) = Ok (Sequence m, index_of (4 + rec_len (take i l)) m).
Proof.
  intros Hc Hs Hl Hf Hi. unfold index_at. rewrite Hs, bool_decide_true by done. cbn [negb].
  destruct (Z.ltb_spec (4 + Z.of_nat i * msgIndexRecSize) 0); [unfold msgIndexRecSize in *; lia|].
  rewrite Hc, drop_idx by (apply lookup_lt_Some in Hi; lia).
  rewrite (drop_S _ m) by done. cbn [indexes]. apply readIndex_ok. by apply index_of_ok.
Qed.

Lemma dat_length l : Forall msg_ok l -> Z.of_nat (length (dat_of l)) = 4 + rec_len l.
Proof. intros H. unfold dat_of. rewrite length_app, Nat2Z.inj_add, length_records by done. done. Qed.

Lemma drop_dat l i :
  Forall msg_ok l -> drop (Z.to_nat (4 + rec_len (take i l))) (dat_of l) = records (drop i l).
Proof.
  intros Hl. unfold dat_of. rewrite <- (take_drop i l) at 2. rewrite records_app, app_assoc, drop_app_length'; [done|].
  pose proof (dat_length (take i l) (Forall_take _ _ _ Hl)) as E. unfold dat_of in E. lia.
Qed.

Lemma header_of m : msg_ok m ->
  enc m = put_le 4 (msize m) ++ put_le 4 (Checksum (c_put codec m) tab) ++ c_put codec m.
Proof.
  intros H. unfold enc, encode. change (record_header recNoType (Z.of_nat (length (c_put codec m)))) with (Z.of_nat (length (c_put codec m))).
  rewrite (payload_length m H), u32_small by (pose proof (msize_pos m H); lia). done.
Qed.

Lemma readMsgRecord_ok m rest : msg_ok m -> readMsgRecord opts (enc m ++ rest) (msize m) = Ok (c_put codec m).
Proof.
  intros H. pose proof (msize_pos m H). unfold readMsgRecord.
  rewrite ReadFull_app by (apply Nat2Z.inj; rewrite length_enc by done; unfold recordHeaderSize; lia).
  rewrite (header_of m H). rewrite take_app_length' by done.
  rewrite (drop_app_length' (put_le 4 (msize m)) _ 4) by done.
  rewrite take_app_length' by done. unfold crcTable. rewrite get_checksum by apply msgs_poly_word.
  rewrite get_put_le_small by (change (256 ^ Z.of_nat 4) with two32; lia).
  rewrite (app_assoc (put_le 4 _)), drop_app_length' by done.
  replace (msize m =? 0) with false by lia. cbn [andb]. rewrite !Z.eqb_refl. cbn [negb]. by rewrite andb_false_r.
Qed.

(** ** The invariant *)

#[export] Instance part_eq_dec : EqDecision part.
Proof. solve_decision. Defined.

(** A slice that holds the messages [all], with sequences from [b] on: [r] of them are
    removed, [nd] are in the data file and [ni] in the index file. *)
Record slice_ok (b : Z) (all : list MsgProto) (r nd ni : nat) (sl : fileSlice) : Prop := {
  so_dat : content (file sl) = dat_of (take nd all);
  so_idx : content (idxFile sl) = idx_of (take ni all);
  so_bounds : (ni <= nd <= length all)%nat;
  so_rm_le : (r <= length all)%nat;
  so_msgs : Forall msg_ok all;
  so_num : MemSpec.numbered b all;
  so_fits : fits all;
  so_first : all <> [] -> firstSeq sl = b + Z.of_nat r;
  so_last : all <> [] -> lastSeq sl = b + Z.of_nat (length all) - 1;
  so_new : all = [] -> firstSeq sl = 0 /\ lastSeq sl = 0;
  so_rm : rmCount sl = Z.of_nat r;
  so_count : msgsCount sl = Z.of_nat (length all)
}.

(** The slices that are not written to any more, with their numbers. *)
Fixpoint closed_ok (m : gmap Z fileSlice) (b : Z) (r : nat) (l : list (Z * list MsgProto)) : Prop :=
  match l with
  | [] => True
  | (k, all) :: l' =>
      (exists sl, m !! k = Some sl /\ slice_ok b all r (length all) (length all) sl /\ (r < length all)%nat) /\
      closed_ok m (b + Z.of_nat (length all)) 0 l'
  end.

(** The slices of a store; the last one, [key], is written to. *)
Record shape := mkShape {
  base : Z;
  rm : nat;
  segs : list (Z * list MsgProto);
  key : Z;
  all : list MsgProto;
  nd : nat;
  ni : nat
}.

Definition before (s : shape) : list MsgProto := mjoin (segs s).*2.
Definition stored (s : shape) : list MsgProto := before s ++ all s.
Definition keys (s : shape) : list Z := (segs s).*1 ++ [key s].
Definition wbase (s : shape) : Z := base s + Z.of_nat (length (before s)).
Definition wrm (s : shape) : nat := match segs s with [] => rm s | _ => 0%nat end.
Definition live (s : shape) : list MsgProto := drop (rm s) (stored s).
Definition window (s : shape) : Z * list MsgProto := (base s + Z.of_nat (rm s), live s).

Definition pend (ms : FileMsgStore) : list byte := match wbuf ms with Some w => pending w | None => [] end.

(** Without a buffer, files may be closed at any time. *)
Definition mode (ms : FileMsgStore) : Prop :=
  hasFDsLimit opts = false \/ bw ms = None /\ wbuf ms = None /\ bufferedMsgs ms = ∅.

(** A cached message is that of the window, or is older. *)
Definition cached_ok (s : shape) (m : MsgProto) : Prop :=
  Sequence m < base s + Z.of_nat (length (stored s)) /\
  (base s + Z.of_nat (rm s) <= Sequence m -> Window.lookup (Some (window s)) (Sequence m) = Some m).

Record core (ms : FileMsgStore) (s : shape) (l : Lru.t) : Prop := {
  c_closed : closed_ok (files ms) (base s) (rm s) (segs s);
  c_write : exists sl, files ms !! key s = Some sl /\ slice_ok (wbase s) (all s) (wrm s) (nd s) (ni s) sl;
  c_keys : StronglySorted Z.lt (keys s);
  c_pos : Forall (fun k => 0 < k) (keys s);
  c_dom : dom (files ms) = list_to_set (keys s);
  c_base : 0 < base s /\ base s + Z.of_nat (length (stored s)) < two64;
  c_writeSlice : writeSlice ms = Some (key s);
  c_firstSl : head (keys s) = Some (firstFSlSeq ms);
  c_lastSl : lastFSlSeq ms = key s;
  c_first : first ms = base s + Z.of_nat (rm s);
  c_last : FileMsg.last ms = base s + Z.of_nat (length (stored s)) - 1;
  c_count : totalCount ms = Z.of_nat (length (live s));
  c_bytes : totalBytes ms = u64 (Window.bytes Size (live s));
  c_firstMsg : forall m, firstMsg ms = Some m -> head (live s) = Some m;
  c_lastMsg : forall m, lastMsg ms = Some m -> list.last (live s) = Some m;
  c_pending : pend ms = records (drop (nd s) (all s));
  c_seqs : bufferedSeqs ms = Sequence <$> drop (ni s) (all s);
  c_bufd : bufferedMsgs ms = buffered (4 + rec_len (take (ni s) (all s))) (drop (ni s) (all s));
  c_buf : match bw ms with Some _ => is_Some (wbuf ms) | None => wbuf ms = None /\ bufferedMsgs ms = ∅ end;
  c_mode : mode ms;
  c_cache : CacheSpec.repr (cache ms) l;
  c_cached : Forall (cached_ok s) l.*2;
  c_stray : map_Forall (fun _ x => x = (version, version)) (stray ms)
}.

(** The files in use are those of [lk]. *)
Definition state_ok (lk : list (part * Z)) (p : part) (k : Z) (st : file_state) : Prop :=
  if bool_decide ((p, k) ∈ lk) then st = fileInUse else st = fileOpened \/ st = fileClosed.
Definition states (lk : list (part * Z)) (ms : FileMsgStore) : Prop :=
  forall k sl p, files ms !! k = Some sl -> state_ok lk p k (fstate (get_part p sl)).

(** The data file that is written to. *)
Definition writable (ms : FileMsgStore) (s : shape) : Prop :=
  forall sl, files ms !! key s = Some sl ->
    if bool_decide (fstate (file sl) = fileClosed) then nd s = length (all s) else wOffset ms = 4 + rec_len (all s).

Definition holds (lk : list (part * Z)) (ms : FileMsgStore) (s : shape) (l : Lru.t) : Prop :=
  core ms s l /\ states lk ms /\ writable ms s.

(** ** Changes of the states of files *)

Record same_slice (sl sl' : fileSlice) : Prop := {
  ss_dat : content (file sl') = content (file sl);
  ss_idx : content (idxFile sl') = content (idxFile sl);
  ss_first : firstSeq sl' = firstSeq sl;
  ss_last : lastSeq sl' = lastSeq sl;
  ss_rm : rmCount sl' = rmCount sl;
  ss_count : msgsCount sl' = msgsCount sl
}.

#[global] Instance same_slice_refl : Reflexive same_slice.
Proof. by split. Qed.
#[global] Instance same_slice_trans : Transitive same_slice.
Proof. intros x y z [] []. split; congruence. Qed.

Record frame (ms ms' : FileMsgStore) : Prop := {
  f_files : forall k, option_Forall2 same_slice (files ms !! k) (files ms' !! k);
  f_writeSlice : writeSlice ms' = writeSlice ms;
  f_firstSl : firstFSlSeq ms' = firstFSlSeq ms;
  f_lastSl : lastFSlSeq ms' = lastFSlSeq ms;
  f_first : first ms' = first ms;
  f_last : FileMsg.last ms' = FileMsg.last ms;
  f_count : totalCount ms' = totalCount ms;
  f_bytes : totalBytes ms' = totalBytes ms;
  f_firstMsg : firstMsg ms' = firstMsg ms;
  f_lastMsg : lastMsg ms' = lastMsg ms;
  f_bw : bw ms' = bw ms;
  f_wbuf : bw ms = None -> wbuf ms' = wbuf ms;
  f_some : is_Some (wbuf ms) -> is_Some (wbuf ms');
  f_pend : pend ms' = pend ms;
  f_seqs : bufferedSeqs ms' = bufferedSeqs ms;
  f_bufd : bufferedMsgs ms' = bufferedMsgs ms;
  f_cache : cache ms' = cache ms;
  f_stray : stray ms' = stray ms
}.

#[global] Instance frame_refl : Reflexive frame.
Proof. intros ms. by split. Qed.

#[global] Instance frame_trans : Transitive frame.
Proof.
  intros a b c [] []. split; try congruence; [|intros H; rewrite f_wbuf1 by congruence; auto|auto].
  intros k. specialize (f_files0 k). specialize (f_files1 k).
  destruct f_files0 as [x y Hxy|]; inversion f_files1; subst; constructor. by etrans.
Qed.

Lemma frame_slice ms ms' k sl' :
  frame ms ms' -> files ms' !! k = Some sl' -> exists sl, files ms !! k = Some sl /\ same_slice sl sl'.
Proof.
  intros F H. pose proof (f_files _ _ F k) as Hk. rewrite H in Hk. inversion Hk; subst. eauto.
Qed.

Lemma frame_slice' ms ms' k sl :
  frame ms ms' -> files ms !! k = Some sl -> exists sl', files ms' !! k = Some sl' /\ same_slice sl sl'.
Proof.
  intros F H. pose proof (f_files _ _ F k) as Hk. rewrite H in Hk. inversion Hk; subst. eauto.
Qed.

Lemma slice_ok_same b all r nd ni sl sl' : same_slice sl sl' -> slice_ok b all r nd ni sl -> slice_ok b all r nd ni sl'.
Proof. intros [] []. split; try congruence; try done; intros; rewrite ?ss_first0, ?ss_last0; auto. Qed.

Lemma closed_ok_frame ms ms' b r l : frame ms ms' -> closed_ok (files ms) b r l -> closed_ok (files ms') b r l.
Proof.
  intros F. revert b r. induction l as [|[k al] l IH]; intros b r H; [done|]. destruct H as [(sl & Hk & Ho & Hr) H].
  split; [|by apply IH]. destruct (frame_slice' _ _ _ _ F Hk) as (sl' & Hk' & Hs). exists sl'.
  split_and!; [done|by eapply slice_ok_same|done].
Qed.

Lemma core_frame ms ms' s l : frame ms ms' -> core ms s l -> core ms' s l.
Proof.
  intros F H. destruct (c_write _ _ _ H) as (sl & Hk & Ho).
  destruct (frame_slice' _ _ _ _ F Hk) as (sl' & Hk' & Hs).
  assert (dom (files ms') = dom (files ms)) as Hd.
  { apply set_eq. intros k. rewrite !elem_of_dom. pose proof (f_files _ _ F k) as Hf.
    split; intros [x Hx]; rewrite Hx in Hf; inversion Hf; subst; eauto. }
  pose proof (closed_ok_frame _ _ _ _ _ F (c_closed _ _ _ H)) as Hc.
  destruct F, H. split; try congruence; try done.
  - exists sl'. split; [done|]. by eapply slice_ok_same.
  - intros m Hm. apply c_firstMsg0. congruence.
  - intros m Hm. apply c_lastMsg0. congruence.
  - rewrite f_bw0. destruct (bw ms) eqn:Eb; [auto|]. by rewrite f_wbuf0, f_bufd0.
  - destruct c_mode0 as [?|(? & ? & ?)]; [by left|right]. rewrite f_bw0, f_wbuf0, f_bufd0 by done. done.
  - by rewrite f_stray0.
Qed.

(** ** Running *)

Lemma run_bind {A B : Type} (m : M A) (f : A -> M B) ms a ms' :
  m ms = (Ok a, ms') -> (x ← m; f x) ms = f a ms'.
Proof. intros H. unfold mbind, M_bind. by rewrite H. Qed.

Lemma run_assoc {A B C : Type} (m : M A) (f : A -> M B) (g : B -> M C) ms :
  (y ← (x ← m; f x); g y) ms = (x ← m; y ← f x; g y) ms.
Proof. unfold mbind, M_bind. by destruct (m ms) as [[]]. Qed.

Lemma run_get {B : Type} (f : FileMsgStore -> M B) ms : (x ← get_store; f x) ms = f ms ms.
Proof. done. Qed.
Lemma run_modify {B : Type} g (f : unit -> M B) ms : (x ← modify_store g; f x) ms = f tt (g ms).
Proof. done. Qed.
Lemma run_ret {A B : Type} (a : A) (f : A -> M B) ms : (x ← mret a; f x) ms = f a ms.
Proof. done. Qed.
Lemma run_lift {A B : Type} (a : A) (f : A -> M B) ms : (x ← lift (Ok a); f x) ms = f a ms.
Proof. done. Qed.

Lemma slice_at_Some k sl ms : files ms !! k = Some sl -> slice_at k ms = (Ok sl, ms).
Proof. intros H. unfold slice_at. by rewrite H. Qed.

Lemma run_slice {B : Type} k sl (f : fileSlice -> M B) ms :
  files ms !! k = Some sl -> (x ← slice_at k; f x) ms = f sl ms.
Proof. intros H. by rewrite (run_bind _ _ _ _ _ (slice_at_Some _ _ _ H)). Qed.

Lemma catch_Ok {A : Type} (m : M A) ms a ms' : m ms = (Ok a, ms') -> catch m ms = (Ok (inl a), ms').
Proof. intros H. unfold catch. by rewrite H. Qed.

(** The store with another slice at [k]. *)
Definition put (k : Z) (sl : fileSlice) (ms : FileMsgStore) : FileMsgStore := set_files (<[k := sl]> (files ms)) ms.

Lemma update_slice_Some k f sl ms : files ms !! k = Some sl -> update_slice k f ms = (Ok tt, put k (f sl) ms).
Proof. intros H. unfold update_slice. by rewrite (run_slice _ _ _ _ H). Qed.

Definition with_state (p : part) (st : file_state) (sl : fileSlice) : fileSlice :=
  set_part p (mkDFile (content (get_part p sl)) st) sl.

Lemma set_state_Some p k st sl ms : files ms !! k = Some sl -> set_state p k st ms = (Ok tt, put k (with_state p st sl) ms).
Proof. apply update_slice_Some. Qed.

Lemma with_state_same p st sl : same_slice sl (with_state p st sl).
Proof. by destruct p. Qed.

Lemma get_with_state p q st sl :
  fstate (get_part q (with_state p st sl)) = if bool_decide (q = p) then st else fstate (get_part q sl).
Proof. by destruct p, q. Qed.

Lemma frame_put k sl sl' ms : files ms !! k = Some sl -> same_slice sl sl' -> frame ms (put k sl' ms).
Proof.
  intros H Hs. split; try done. intros k'. unfold put. cbn [files set_files].
  destruct (decide (k = k')) as [->|Hne]; [|rewrite lookup_insert_ne by done; reflexivity].
  rewrite lookup_insert_eq, H. by constructor.
Qed.

(** Some files that were open and not in use are closed. *)
Record closing (ms ms' : FileMsgStore) : Prop := {
  cl_frame : frame ms ms';
  cl_offset : wOffset ms' = wOffset ms;
  cl_wbuf : wbuf ms' = wbuf ms;
  cl_states : forall k sl sl' p, files ms !! k = Some sl -> files ms' !! k = Some sl' ->
    fstate (get_part p sl') = fstate (get_part p sl) \/
    fstate (get_part p sl) = fileOpened /\ fstate (get_part p sl') = fileClosed
}.

Lemma closing_refl ms : closing ms ms.
Proof. split; try done. intros k sl sl' p H H'. left. congruence. Qed.

Lemma closing_trans a b c : closing a b -> closing b c -> closing a c.
Proof.
  intros [F1 O1 W1 S1] [F2 O2 W2 S2]. split; [by etrans|congruence|congruence|].
  intros k sl sl' p H H'. destruct (frame_slice' _ _ _ _ F1 H) as (sl1 & H1 & _).
  destruct (S1 k sl sl1 p H H1) as [E1|[E1 E1']], (S2 k sl1 sl' p H1 H') as [E2|[E2 E2']];
    [left; congruence|right; split; congruence|right; split; congruence|congruence].
Qed.

Lemma closing_put p k sl ms :
  files ms !! k = Some sl -> fstate (get_part p sl) = fileOpened -> closing ms (put k (with_state p fileClosed sl) ms).
Proof.
  intros H Ho. split; try done; [eapply frame_put; [done|apply with_state_same]|].
  intros k' x x' q Hx Hx'. unfold put in Hx'. cbn [files set_files] in Hx'.
  apply lookup_insert_Some in Hx' as [[<- <-]|[Hne Hx']]; [|left; congruence].
  assert (x = sl) as -> by congruence. rewrite get_with_state. case_bool_decide; [subst; by right|by left].
Qed.

Lemma closing_states_ok lk ms ms' : closing ms ms' -> states lk ms -> states lk ms'.
Proof.
  intros C H k sl' p Hk'. destruct (frame_slice _ _ _ _ (cl_frame _ _ C) Hk') as (sl & Hk & _).
  specialize (H k sl p Hk). unfold state_ok in *. destruct (cl_states _ _ C k sl sl' p Hk Hk') as [->|[E ->]]; [done|].
  case_bool_decide; [congruence|by right].
Qed.

(** Nothing is buffered for a slice that is closed. *)
Definition unbuffered (k : Z) (ms : FileMsgStore) : Prop :=
  is_write_slice k ms = false \/ pend ms = [] /\ bufferedMsgs ms = ∅.

Lemma doClose_Some p k sl ms :
  files ms !! k = Some sl -> unbuffered k ms -> doClose opts p k ms = (Ok tt, put k (with_state p fileClosed sl) ms).
Proof.
  intros H U. unfold doClose. rewrite (run_bind _ _ ms tt ms); [by apply set_state_Some|].
  destruct p; unfold beforeDataFileCloseCb, beforeIndexFileCloseCb, when; rewrite run_get;
    destruct U as [->|[U1 U2]]; try done;
    destruct (is_write_slice k ms); try done; [unfold flush_buffer|unfold process_if_buffered];
    rewrite run_get; [|by rewrite U2]. unfold pend in U1. destruct (wbuf ms) as [w|]; [|done]. unfold Buffered. by rewrite U1.
Qed.

Lemma closeFileIfOpened_spec p k sl ms :
  files ms !! k = Some sl -> unbuffered k ms ->
  exists ms', closeFileIfOpened opts p k ms = (Ok tt, ms') /\ closing ms ms'.
Proof.
  intros H U. unfold closeFileIfOpened, when. rewrite (run_slice _ _ _ _ H).
  case_bool_decide as Ho; [|exists ms; split; [done|apply closing_refl]].
  rewrite (doClose_Some _ _ _ _ H U). eexists. split; [done|]. by apply closing_put.
Qed.

Lemma close_files_spec l ms :
  pend ms = [] -> bufferedMsgs ms = ∅ -> exists ms', close_files opts l ms = (Ok tt, ms') /\ closing ms ms'.
Proof.
  revert ms. induction l as [|[p k] l IH]; intros ms Hw Hb; [exists ms; split; [done|apply closing_refl]|].
  cbn [close_files]. unfold when. rewrite run_get. case_bool_decide as Hk.
  - destruct Hk as [sl Hk]. destruct (closeFileIfOpened_spec p k sl ms Hk) as (ms1 & E1 & C1); [by right|].
    rewrite (run_bind _ _ _ _ _ E1).
    destruct (IH ms1) as (ms2 & E2 & C2); [by rewrite (f_pend _ _ (cl_frame _ _ C1))|by rewrite (f_bufd _ _ (cl_frame _ _ C1))|].
    exists ms2. split; [done|]. by eapply closing_trans.
  - rewrite run_ret. by apply IH.
Qed.

Lemma closed_ok_elem m b r l k :
  closed_ok m b r l -> k ∈ l.*1 ->
  exists sl b' al r', m !! k = Some sl /\ slice_ok b' al r' (length al) (length al) sl.
Proof.
  revert b r. induction l as [|[k' al] l IH]; intros b r H Hk; [by apply elem_of_nil in Hk|].
  destruct H as [(sl & Hs & Ho & _) H]. apply elem_of_cons in Hk as [->|Hk]; [by eexists _, _, _, _|]. by eapply IH.
Qed.

(** Every slice holds some messages. *)
Lemma core_slice ms s l k sl :
  core ms s l -> files ms !! k = Some sl -> exists b al r d i, slice_ok b al r d i sl.
Proof.
  intros H Hk. assert (k ∈ keys s) as Hin.
  { assert (k ∈ dom (files ms)) as Hd by (apply elem_of_dom; by eexists).
    rewrite (c_dom _ _ _ H) in Hd. by apply elem_of_list_to_set in Hd. }
  apply elem_of_app in Hin as [Hin|Hin].
  - destruct (closed_ok_elem _ _ _ _ _ (c_closed _ _ _ H) Hin) as (sl' & b & al & r & Hk' & Ho).
    assert (sl' = sl) as -> by congruence. by eexists _, _, _, _, _.
  - apply list_elem_of_singleton in Hin as ->. destruct (c_write _ _ _ H) as (sl' & Hk' & Ho).
    assert (sl' = sl) as -> by congruence. by eexists _, _, _, _, _.
Qed.

Lemma write_bounds ms s l : core ms s l -> (ni s <= nd s <= length (all s))%nat /\ Forall msg_ok (all s).
Proof. intros H. destruct (c_write _ _ _ H) as (sl & _ & Ho). split; apply Ho. Qed.

Lemma core_unbuffered ms s l : core ms s l -> pend ms = [] -> nd s = length (all s).
Proof.
  intros H Hp. destruct (write_bounds _ _ _ H) as [Hb Hok]. pose proof (c_pending _ _ _ H) as E. rewrite Hp in E.
  symmetry in E. apply records_nil in E; [|by apply Forall_drop]. apply (f_equal length) in E. rewrite length_drop in E.
  simpl in E. lia.
Qed.

Lemma closing_writable ms ms' s l :
  core ms s l -> writable ms s -> closing ms ms' ->
  pend ms = [] \/ (forall sl sl', files ms !! key s = Some sl -> files ms' !! key s = Some sl' ->
    fstate (file sl') = fstate (file sl)) -> writable ms' s.
Proof.
  intros H W C Hor sl' Hk'. destruct (frame_slice _ _ _ _ (cl_frame _ _ C) Hk') as (sl & Hk & _).
  specialize (W sl Hk). rewrite (cl_offset _ _ C).
  destruct (cl_states _ _ C _ _ _ Dat Hk Hk') as [E|[E1 E2]]; cbn [get_part] in *; [by rewrite E|].
  destruct Hor as [Hw|Hf]; [|specialize (Hf _ _ Hk Hk'); congruence]. rewrite E2, bool_decide_true by done.
  by eapply core_unbuffered.
Qed.

Section Lock.
Context (pressure : nat -> list (part * Z)).

Lemma closeUnusedFiles_spec ms :
  mode ms ->
  exists ms', closeUnusedFiles opts pressure ms = (Ok tt, ms') /\ closing ms ms' /\
    (wbuf ms = None \/ files ms' = files ms).
Proof.
  intros Hm. unfold closeUnusedFiles, when. rewrite run_get, run_modify.
  assert (closing ms (set_opens (S (opens ms)) ms)) as C0.
  { split; try done. intros k sl sl' p H H'. left. cbn in H'. congruence. }
  destruct Hm as [->|(Hb & Hw & Hbm)].
  - eexists. split; [done|]. split; [done|by right].
  - destruct (hasFDsLimit opts); [|eexists; split; [done|]; split; [done|by right]].
    destruct (close_files_spec (pressure (opens ms)) (set_opens (S (opens ms)) ms)) as (ms' & E & C); [unfold pend; cbn; by rewrite Hw|done|].
    exists ms'. split_and!; [done|by eapply closing_trans|by left].
Qed.

Lemma content_version ms s l k sl p :
  core ms s l -> files ms !! k = Some sl -> Rec.openFile (Some (content (get_part p sl))) = Ok (content (get_part p sl)).
Proof.
  intros H Hk. destruct (core_slice _ _ _ _ _ H Hk) as (b & al & r & d & i & Ho).
  destruct p; cbn [get_part]; [rewrite (so_dat _ _ _ _ _ _ Ho)|rewrite (so_idx _ _ _ _ _ _ Ho)]; apply openFile_version.
Qed.

(** Taking the lock of a file: other files of this store may be closed. *)
Lemma lockFile_spec p k sl lk ms s l :
  core ms s l -> states lk ms -> files ms !! k = Some sl -> (p, k) ∉ lk ->
  exists b ms', lockFile opts pressure p k ms = (Ok b, ms') /\ frame ms ms' /\ states ((p, k) :: lk) ms' /\
    wOffset ms' = wOffset ms /\ wbuf ms' = wbuf ms /\
    fstate (get_part p sl) = (if b then fileOpened else fileClosed) /\
    (forall k' sl1 sl2 q, files ms !! k' = Some sl1 -> files ms' !! k' = Some sl2 -> (q, k') <> (p, k) ->
       fstate (get_part q sl2) = fstate (get_part q sl1) \/ fstate (get_part q sl2) = fileClosed /\ wbuf ms = None).
Proof.
  intros H Hst Hk Hlk. pose proof (Hst k sl p Hk) as Hs. unfold state_ok in Hs. rewrite bool_decide_false in Hs by done.
  unfold lockFile. rewrite (run_slice _ _ _ _ Hk).
  assert (forall ms1 sl1, frame ms ms1 -> files ms1 !! k = Some sl1 -> states lk ms1 ->
    states ((p, k) :: lk) (put k (with_state p fileInUse sl1) ms1)) as Hput.
  { intros ms1 sl1 F Hk1 Hst1 k' sl' q Hk'. unfold put in Hk'. cbn [files set_files] in Hk'. unfold state_ok.
    apply lookup_insert_Some in Hk' as [[<- <-]|[Hne Hk']].
    - rewrite get_with_state. destruct (decide (q = p)) as [->|Hq].
      + rewrite (bool_decide_true (p = p)), bool_decide_true by (done || (apply elem_of_cons; by left)). done.
      + rewrite (bool_decide_false (q = p)) by done. specialize (Hst1 k sl1 q Hk1). unfold state_ok in Hst1.
        erewrite bool_decide_ext; [exact Hst1|]. rewrite elem_of_cons. split; [intros [[= ->]|]; done|by right].
    - specialize (Hst1 k' sl' q Hk'). unfold state_ok in Hst1.
      erewrite bool_decide_ext; [exact Hst1|]. rewrite elem_of_cons. split; [intros [[= ->]|]; done|by right]. }
  destruct Hs as [Hs|Hs]; rewrite Hs.
  - exists true. eexists. rewrite (run_bind _ _ _ _ _ (set_state_Some _ _ _ _ _ Hk)). split; [done|].
    split_and!; try done; [eapply frame_put; [done|apply with_state_same]|by apply Hput|].
    intros k' sl1 sl2 q H1 H2 Hne. unfold put in H2. cbn [files set_files] in H2. left.
    apply lookup_insert_Some in H2 as [[<- <-]|[_ H2]]; [|congruence]. assert (sl1 = sl) as -> by congruence.
    rewrite get_with_state, bool_decide_false; [done|]. by intros ->.
  - destruct (closeUnusedFiles_spec ms (c_mode _ _ _ H)) as (ms1 & E1 & C1 & Hor).
    rewrite (run_bind _ _ _ _ _ E1). rewrite (content_version _ _ _ _ _ p H Hk), run_lift.
    destruct (frame_slice' _ _ _ _ (cl_frame _ _ C1) Hk) as (sl1 & Hk1 & Hss).
    rewrite (run_bind _ _ _ _ _ (set_state_Some _ _ _ _ _ Hk1)). exists false. eexists. split; [done|].
    split_and!; try done.
    + etrans; [apply C1|]. eapply frame_put; [done|apply with_state_same].
    + apply Hput; [apply C1|done|]. by eapply closing_states_ok.
    + exact (cl_offset _ _ C1).
    + exact (cl_wbuf _ _ C1).
    + intros k' x1 x2 q H1 H2 Hne. unfold put in H2. cbn [files set_files] in H2.
      assert (exists x, files ms1 !! k' = Some x /\ fstate (get_part q x2) = fstate (get_part q x)) as (x & Hx & ->).
      { apply lookup_insert_Some in H2 as [[<- <-]|[_ H2]]; [|by eexists]. exists sl1. split; [done|].
        rewrite get_with_state, bool_decide_false; [done|]. by intros ->. }
      destruct Hor as [Hw|Hf]; [|left; rewrite Hf in Hx; congruence].
      destruct (cl_states _ _ C1 k' x1 x q H1 Hx) as [?|[_ ?]]; [by left|by right].
Qed.

Lemma lockFile_writable p k sl (b : bool) lk ms ms' s l :
  core ms s l -> writable ms s -> files ms !! k = Some sl -> fstate (get_part p sl) = (if b then fileOpened else fileClosed) ->
  frame ms ms' -> wOffset ms' = wOffset ms -> states ((p, k) :: lk) ms' ->
  (forall k' sl1 sl2 q, files ms !! k' = Some sl1 -> files ms' !! k' = Some sl2 -> (q, k') <> (p, k) ->
     fstate (get_part q sl2) = fstate (get_part q sl1) \/ fstate (get_part q sl2) = fileClosed /\ wbuf ms = None) ->
  (p, k) <> (Dat, key s) \/ b = true -> writable ms' s.
Proof.
  intros H W Hk Hb F Ho Hlk Hst Hor sl' Hk'. destruct (frame_slice _ _ _ _ F Hk') as (sl0 & Hk0 & _).
  specialize (W sl0 Hk0). rewrite Ho. destruct (decide ((Dat, key s) = (p, k))) as [E|Hne].
  - injection E as <- <-. destruct Hor as [Hor| ->]; [done|]. assert (sl0 = sl) as -> by congruence. cbn in Hb.
    rewrite bool_decide_false in W by congruence. specialize (Hlk _ _ Dat Hk'). unfold state_ok in Hlk.
    rewrite bool_decide_true in Hlk by (apply elem_of_cons; by left). cbn in Hlk. by rewrite Hlk, bool_decide_false.
  - destruct (Hst _ _ _ _ Hk0 Hk' Hne) as [E|[E Hw]]; cbn [get_part] in E; [by rewrite E|].
    rewrite E, bool_decide_true by done. eapply core_unbuffered; [done|]. unfold pend. by rewrite Hw.
Qed.

(** Reopening the data file that is written to. *)
Lemma setFile_spec lk ms s l sl :
  core ms s l -> states lk ms -> files ms !! key s = Some sl -> nd s = length (all s) -> fstate (file sl) <> fileClosed ->
  exists ms', setFile (key s) (-1) ms = (Ok tt, ms') /\ frame ms ms' /\ files ms' = files ms /\ holds lk ms' s l.
Proof.
  intros H Hst Hk Hn Hs. unfold setFile. rewrite (run_slice _ _ _ _ Hk), run_modify. eexists. split; [done|].
  destruct (c_write _ _ _ H) as (sl' & Hk' & Ho). assert (sl' = sl) as -> by congruence.
  destruct (write_bounds _ _ _ H) as [_ Hok].
  assert (pend ms = []) as Hp by (rewrite (c_pending _ _ _ H), Hn, drop_all; done).
  match goal with |- frame _ ?x /\ _ => assert (frame ms x) as F end.
  { destruct (bw ms) as [b|] eqn:Eb; split; try done; try congruence; unfold pend in *; cbn; by rewrite ?Hp. }
  split; [done|]. split; [by destruct (bw ms)|]. split; [by eapply core_frame|]. split.
  - intros k x p Hx. apply (Hst k x p). by destruct (bw ms).
  - intros x Hx. assert (x = sl) as -> by (destruct (bw ms); cbn in Hx; congruence).
    rewrite bool_decide_false by done. cbn. rewrite (so_dat _ _ _ _ _ _ Ho), Hn, firstn_all. by apply dat_length.
Qed.

(** What locking leaves behind: the slice is marked as used. *)
Lemma touch_spec lk k sl ms s l (b : bool) (d : Z) :
  holds lk ms s l -> files ms !! k = Some sl ->
  exists ms', (_ ← when b (modify_store (set_checkSlices true));
     update_slice k (fun sl => set_lastUsed (if lastUsed sl =? 0 then d else lastUsed sl + 1) sl)) ms = (Ok tt, ms') /\
    frame ms ms' /\ holds lk ms' s l.
Proof.
  intros (H & Hst & W) Hk. set (ms1 := if b then set_checkSlices true ms else ms).
  assert (when b (modify_store (set_checkSlices true)) ms = (Ok tt, ms1)) as E by by destruct b.
  rewrite (run_bind _ _ _ _ _ E). assert (files ms1 = files ms) as Hf by by destruct b.
  assert (frame ms ms1) as F1. { destruct b; [|reflexivity]. split; try done. }
  rewrite (update_slice_Some _ _ sl) by by rewrite Hf. eexists. split; [done|].
  set (sl' := set_lastUsed _ sl).
  assert (frame ms (put k sl' ms1)) as F. { etrans; [done|]. eapply frame_put; [by rewrite Hf|done]. }
  assert (forall k' x' p, files (put k sl' ms1) !! k' = Some x' ->
    exists x, files ms !! k' = Some x /\ fstate (get_part p x') = fstate (get_part p x)) as Hx.
  { intros k' x' p Hx. unfold put in Hx. cbn [files set_files] in Hx. rewrite Hf in Hx.
    apply lookup_insert_Some in Hx as [[<- <-]|[_ Hx]]; [|by eexists]. exists sl. split; [done|]. by destruct p. }
  split; [done|]. split; [by eapply core_frame|]. split.
  - intros k' x' p Hk'. destruct (Hx _ _ p Hk') as (x & Hx' & ->). by apply (Hst k' x p).
  - intros x' Hk'. destruct (Hx _ _ Dat Hk') as (x & Hx' & E'). cbn in E'. rewrite E'.
    specialize (W x Hx'). by destruct b.
Qed.

Lemma is_write_key ms s l k : core ms s l -> is_write_slice k ms = bool_decide (k = key s).
Proof.
  intros H. unfold is_write_slice. rewrite (c_writeSlice _ _ _ H). apply bool_decide_ext. split; [by intros [=]|by intros ->].
Qed.

(** The end of [doLockFiles]. *)
Lemma lock_done lk k sl ms s l (b : bool) :
  holds lk ms s l -> files ms !! k = Some sl ->
  exists ms', (when (hasFDsLimit opts || negb (is_write_slice k ms))
     (_ ← when b (modify_store (set_checkSlices true));
      update_slice k (fun sl => set_lastUsed (if lastUsed sl =? 0 then timeTick ms else lastUsed sl + 1) sl))) ms = (Ok tt, ms') /\
    frame ms ms' /\ holds lk ms' s l.
Proof.
  intros H Hk. unfold when at 1. destruct (_ || _); [by eapply touch_spec|]. exists ms. split; [done|]. split; [reflexivity|done].
Qed.

Lemma lockIndexFile_spec lk k sl ms s l :
  holds lk ms s l -> files ms !! k = Some sl -> (Idx, k) ∉ lk ->
  exists ms', lockIndexFile opts pressure k ms = (Ok tt, ms') /\ frame ms ms' /\ holds ((Idx, k) :: lk) ms' s l.
Proof.
  intros (H & Hst & W) Hk Hlk. unfold lockIndexFile, doLockFiles. rewrite run_ret.
  destruct (lockFile_spec Idx k sl lk ms s l H Hst Hk Hlk) as (b & ms1 & E1 & F1 & S1 & O1 & B1 & P1 & R1).
  rewrite (run_bind _ _ _ _ _ (catch_Ok _ _ _ _ E1)), run_get. cbn [negb andb].
  change (when false (setFile k (-1))) with (mret (M := M) tt). rewrite run_ret, run_get.
  assert (holds ((Idx, k) :: lk) ms1 s l) as H1.
  { split; [by eapply core_frame|]. split; [done|]. eapply (lockFile_writable Idx k); try done. by left. }
  destruct (frame_slice' _ _ _ _ F1 Hk) as (sl1 & Hk1 & _).
  destruct (lock_done _ k sl1 ms1 s l true H1 Hk1) as (ms2 & E2 & F2 & H2). cbn [orb negb].
  exists ms2. split; [exact E2|]. split; [by etrans|done].
Qed.

Lemma lockFiles_spec lk k sl ms s l :
  holds lk ms s l -> files ms !! k = Some sl -> (Dat, k) ∉ lk -> (Idx, k) ∉ lk ->
  exists ms', lockFiles opts pressure k ms = (Ok tt, ms') /\ frame ms ms' /\ holds ((Idx, k) :: (Dat, k) :: lk) ms' s l.
Proof.
  intros (H & Hst & W) Hk Hd Hi. unfold lockFiles, doLockFiles.
  destruct (lockFile_spec Dat k sl lk ms s l H Hst Hk Hd) as (b & ms1 & E1 & F1 & S1 & O1 & B1 & P1 & R1).
  rewrite (run_bind _ _ _ _ _ E1). pose proof (core_frame _ _ _ _ F1 H) as H1.
  destruct (frame_slice' _ _ _ _ F1 Hk) as (sl1 & Hk1 & _).
  assert ((Idx, k) ∉ (Dat, k) :: lk) as Hi'. { rewrite elem_of_cons. by intros [|]. }
  destruct (lockFile_spec Idx k sl1 _ ms1 s l H1 S1 Hk1 Hi') as (b' & ms2 & E2 & F2 & S2 & O2 & B2 & P2 & R2).
  rewrite (run_bind _ _ _ _ _ (catch_Ok _ _ _ _ E2)), run_get. pose proof (core_frame _ _ _ _ F2 H1) as H2.
  destruct (frame_slice' _ _ _ _ F2 Hk1) as (sl2 & Hk2 & _). cbn [negb andb]. rewrite (is_write_key _ _ _ _ H2).
  assert (exists ms3, when (bool_decide (k = key s) && negb b) (setFile k (-1)) ms2 = (Ok tt, ms3) /\ frame ms2 ms3 /\
    files ms3 = files ms2 /\ holds ((Idx, k) :: (Dat, k) :: lk) ms3 s l) as (ms3 & E3 & F3 & Hf3 & H3).
  { destruct (bool_decide (k = key s) && negb b) eqn:Ew.
    - apply andb_true_iff in Ew as [Ek Eb]. apply bool_decide_eq_true_1 in Ek as ->. destruct b; [done|].
      eapply (setFile_spec _ ms2 s l sl2); [done|done|done| |].
      + specialize (W sl Hk). cbn in P1. by rewrite P1, bool_decide_true in W.
      + specialize (S2 _ _ Dat Hk2). unfold state_ok in S2. rewrite bool_decide_true in S2
          by (rewrite !elem_of_cons; tauto). cbn in S2. congruence.
    - exists ms2. split; [done|]. split; [reflexivity|]. split; [done|]. split; [done|]. split; [done|].
      eapply (lockFile_writable Idx k sl1 b'); [exact H1| |done|done|done|done|done|done|by left].
      apply (lockFile_writable Dat k sl b lk ms ms1 s l H W Hk P1 F1 O1 S1 R1). apply andb_false_iff in Ew as [Ew|Ew].
      + apply bool_decide_eq_false_1 in Ew. left. by intros [= ->].
      + right. by destruct b. }
  rewrite (run_bind _ _ _ _ _ E3), run_get.
  destruct (lock_done _ k sl2 ms3 s l (negb b || negb b') H3) as (ms4 & E4 & F4 & H4); [by rewrite Hf3|].
  exists ms4. split; [exact E4|]. split; [|done]. etrans; [exact F1|]. etrans; [exact F2|]. by etrans.
Qed.

Lemma unlockFile_spec p k lk lk' ms s l :
  holds lk ms s l -> k ∈ dom (files ms) -> (p, k) ∈ lk -> (forall x, x ∈ lk' <-> x ∈ lk /\ x <> (p, k)) ->
  exists ms', unlockFile p k ms = (Ok tt, ms') /\ frame ms ms' /\ holds lk' ms' s l.
Proof.
  intros (H & Hst & W) Hd Hin Hlk. apply elem_of_dom in Hd as [sl Hk].
  assert (forall q, state_ok lk q k (fstate (get_part q sl))) as Hs by (intros q; by apply Hst).
  pose proof (Hs p) as Hp. unfold state_ok in Hp. rewrite bool_decide_true in Hp by done.
  unfold unlockFile. rewrite (run_slice _ _ _ _ Hk), bool_decide_true by done.
  rewrite (set_state_Some _ _ _ _ _ Hk). eexists. split; [done|].
  assert (frame ms (put k (with_state p fileOpened sl) ms)) as F by (eapply frame_put; [done|apply with_state_same]).
  split; [done|]. split; [by eapply core_frame|]. split.
  - intros k' sl' q Hk'. unfold put in Hk'. cbn [files set_files] in Hk'. unfold state_ok.
    apply lookup_insert_Some in Hk' as [[<- <-]|[Hne Hk']].
    + rewrite get_with_state. destruct (decide (q = p)) as [->|Hq].
      * rewrite (bool_decide_true (p = p)), bool_decide_false by (done || (rewrite Hlk; tauto)). by left.
      * rewrite (bool_decide_false (q = p)) by done. specialize (Hs q). unfold state_ok in Hs.
        erewrite bool_decide_ext; [exact Hs|]. rewrite Hlk. split; [tauto|]. intros ?. split; [done|congruence].
    + specialize (Hst k' sl' q Hk'). unfold state_ok in Hst.
      erewrite bool_decide_ext; [exact Hst|]. rewrite Hlk. split; [tauto|]. intros ?. split; [done|congruence].
  - intros sl' Hk'. unfold put in Hk'. cbn [files set_files] in Hk'.
    apply lookup_insert_Some in Hk' as [[Ek <-]|[Hne Hk']]; [|by apply W]. rewrite Ek in *. specialize (W sl Hk).
    destruct p; cbn in *; [|done]. by rewrite Hp in W.
Qed.

Lemma unlockFiles_spec k lk ms s l :
  holds ((Idx, k) :: (Dat, k) :: lk) ms s l -> k ∈ dom (files ms) -> (Dat, k) ∉ lk -> (Idx, k) ∉ lk ->
  exists ms', unlockFiles k ms = (Ok tt, ms') /\ frame ms ms' /\ holds lk ms' s l.
Proof.
  intros H Hd H1 H2. unfold unlockFiles.
  destruct (unlockFile_spec Dat k _ ((Idx, k) :: lk) ms s l H Hd) as (ms1 & E1 & F1 & K1).
  { rewrite !elem_of_cons. tauto. }
  { intros x. rewrite !elem_of_cons. split; [|tauto]. intros [->|Hx]; [split; [tauto|done]|]. split; [tauto|]. by intros ->. }
  rewrite (run_bind _ _ _ _ _ E1).
  destruct (unlockFile_spec Idx k _ lk ms1 s l K1) as (ms2 & E2 & F2 & K2).
  { apply elem_of_dom in Hd as [sl Hd]. destruct (frame_slice' _ _ _ _ F1 Hd) as (sl' & Hd' & _). apply elem_of_dom. by eexists. }
  { rewrite !elem_of_cons. tauto. }
  { intros x. rewrite !elem_of_cons. split; [|tauto]. intros Hx. split; [tauto|]. by intros ->. }
  exists ms2. split_and!; [done|by etrans|done].
Qed.

End Lock.

(** ** Where messages are *)

Lemma closed_ok_app m b r l1 l2 :
  closed_ok m b r (l1 ++ l2) <->
  closed_ok m b r l1 /\
  closed_ok m (b + Z.of_nat (length (mjoin l1.*2))) (match l1 with [] => r | _ => 0%nat end) l2.
Proof.
  revert b r. induction l1 as [|[k al] l1 IH]; intros b r; cbn [app closed_ok].
  { cbn. rewrite Z.add_0_r. tauto. }
  rewrite IH. cbn [fmap list_fmap mjoin list_join snd]. rewrite length_app, Nat2Z.inj_add, Z.add_assoc. destruct l1; cbn; tauto.
Qed.

(** The slice [k] of the shape: its first sequence, its messages, how many are removed and
    how many are in the files. *)
Definition located (s : shape) (k b : Z) (al : list MsgProto) (r d i : nat) : Prop :=
  (exists pre post, segs s = pre ++ (k, al) :: post /\ b = base s + Z.of_nat (length (mjoin pre.*2)) /\
     r = (match pre with [] => rm s | _ => 0%nat end) /\ d = length al /\ i = length al) \/
  (k = key s /\ b = wbase s /\ al = all s /\ r = wrm s /\ d = nd s /\ i = ni s).

Lemma located_slice ms s l k b al r d i :
  core ms s l -> located s k b al r d i -> exists sl, files ms !! k = Some sl /\ slice_ok b al r d i sl.
Proof.
  intros H [(pre & post & Es & -> & -> & -> & ->)|(-> & -> & -> & -> & -> & ->)]; [|apply (c_write _ _ _ H)].
  pose proof (c_closed _ _ _ H) as Hc. rewrite Es in Hc. apply closed_ok_app in Hc as [_ [(sl & Hk & Ho & _) _]]. eauto.
Qed.

(** The messages of a slice among all messages. *)
Lemma located_stored s k b al r d i :
  located s k b al r d i ->
  exists l1 l2, stored s = l1 ++ al ++ l2 /\ b = base s + Z.of_nat (length l1) /\ (k <> key s -> all s = [] \/ l2 <> []).
Proof.
  intros [(pre & post & Es & -> & _)|(-> & -> & -> & _)].
  - exists (mjoin pre.*2), (mjoin post.*2 ++ all s). split_and!; [|done|].
    + unfold stored, before. rewrite Es, fmap_app, join_app. cbn. by rewrite <- !app_assoc.
    + intros _. destruct (all s); [by left|right]. by destruct (mjoin post.*2).
  - exists (before s), []. split_and!; [by rewrite app_nil_r|done|done].
Qed.

Lemma numbered_app b l1 l2 :
  MemSpec.numbered b (l1 ++ l2) <-> MemSpec.numbered b l1 /\ MemSpec.numbered (b + Z.of_nat (length l1)) l2.
Proof.
  split.
  - intros H. split; intros i m Hi.
    + apply H. by apply lookup_app_l_Some.
    + rewrite (H (length l1 + i)%nat m) by (rewrite lookup_app_r by lia; by rewrite Nat.add_sub').
      lia.
  - intros [H1 H2] i m Hi. apply lookup_app_Some in Hi as [Hi|[Hl Hi]]; [by apply H1|]. rewrite (H2 _ _ Hi). lia.
Qed.

Lemma closed_numbered m b r l : closed_ok m b r l -> MemSpec.numbered b (mjoin l.*2) /\ Forall msg_ok (mjoin l.*2).
Proof.
  revert b r. induction l as [|[k al] l IH]; intros b r H; [split; [intros ? ? ?; done|constructor]|].
  destruct H as [(sl & _ & Ho & _) H]. destruct (IH _ _ H) as [H1 H2]. cbn.
  split; [apply numbered_app; split; [apply Ho|done]|apply Forall_app; split; [apply Ho|done]].
Qed.

Lemma core_numbered ms s l : core ms s l -> MemSpec.numbered (base s) (stored s) /\ Forall msg_ok (stored s).
Proof.
  intros H. destruct (closed_numbered _ _ _ _ (c_closed _ _ _ H)) as [H1 H2]. destruct (c_write _ _ _ H) as (sl & _ & Ho).
  unfold stored. rewrite numbered_app, Forall_app. split_and!; [done|apply Ho|done|apply Ho].
Qed.

(** ** Finding index records *)

Lemma buffered_None off b l seq :
  MemSpec.numbered b l -> seq < b \/ b + Z.of_nat (length l) <= seq -> buffered off l !! seq = None.
Proof.
  revert off b. induction l as [|m l IH]; intros off b Hn Hs; [done|]. cbn [buffered].
  apply MemSpec.numbered_cons in Hn as [Hm Hn]. cbn [length] in Hs. rewrite lookup_insert_ne by lia.
  apply (IH _ (b + 1) Hn). lia.
Qed.

Lemma buffered_Some off b l j m :
  MemSpec.numbered b l -> l !! j = Some m -> buffered off l !! Sequence m = Some (mkBuffered m (index_of (off + rec_len (take j l)) m)).
Proof.
  revert off b j. induction l as [|m' l IH]; intros off b j Hn Hj; [done|]. cbn [buffered].
  pose proof (Hn j m Hj) as Hs. apply MemSpec.numbered_cons in Hn as [Hm Hn].
  destruct j as [|j]; [injection Hj as ->; cbn [take rec_len]; rewrite lookup_insert_eq, Z.add_0_r; done|].
  rewrite lookup_insert_ne by lia. rewrite (IH _ (b + 1) j Hn Hj). cbn [take rec_len]. do 3 f_equal. lia.
Qed.

Lemma idxFileOffset_ok b al r d i sl j m :
  slice_ok b al r d i sl -> al !! j = Some m -> (r <= j)%nat -> is_u64 (b + Z.of_nat j) -> Z.of_nat (length al) < two63 ->
  idxFileOffset sl (Sequence m) = 4 + Z.of_nat j * msgIndexRecSize.
Proof.
  intros Ho Hj Hr Hu Hlen. unfold idxFileOffset. apply lookup_lt_Some in Hj as Hlt.
  rewrite (so_first _ _ _ _ _ _ Ho), (so_rm _ _ _ _ _ _ Ho), (so_num _ _ _ _ _ _ Ho j m Hj) by (by intros ->).
  replace (b + Z.of_nat j - (b + Z.of_nat r)) with (Z.of_nat (j - r)) by lia.
  unfold is_u64, two63, two64 in *.
  rewrite u64_small, i64_small; [unfold msgIndexRecSize; lia|unfold is_i64, two63; lia|unfold is_u64, two64; lia].
Qed.

(** A list whose records fit in a file is not too long. *)
Lemma fits_length al : Forall msg_ok al -> fits al -> Z.of_nat (length al) < two63.
Proof.
  intros H Hf. unfold fits in Hf. assert (Z.of_nat (length al) <= rec_len al); [|lia].
  clear Hf. induction H as [|m al Hm _ IH]; [done|]. cbn [length rec_len]. pose proof (msize_pos m Hm). lia.
Qed.

Lemma readMsgIndex_spec ms k sl b al r d i j m :
  files ms !! k = Some sl -> slice_ok b al r d i sl -> fstate (idxFile sl) = fileInUse ->
  al !! j = Some m -> (r <= j < i)%nat -> is_u64 (b + Z.of_nat j) ->
  readMsgIndex opts k (Sequence m) ms = (Ok (Some (index_of (4 + rec_len (take j al)) m)), ms).
Proof.
  intros Hk Ho Hs Hj Hr Hu. pose proof (so_bounds _ _ _ _ _ _ Ho) as Hb. pose proof (so_msgs _ _ _ _ _ _ Ho) as Hok.
  pose proof (so_fits _ _ _ _ _ _ Ho) as Hf.
  unfold readMsgIndex. rewrite (run_slice _ _ _ _ Hk). cbv zeta.
  rewrite (idxFileOffset_ok b al r d i sl j m Ho Hj ltac:(lia) Hu (fits_length _ Hok Hf)).
  rewrite (index_at_ok sl (take i al) j m).
  - rewrite Z.eqb_refl, take_take, Nat.min_l by lia. done.
  - apply Ho.
  - done.
  - by apply Forall_take.
  - unfold fits in *. rewrite <- (take_drop i al), rec_len_app in Hf.
    pose proof (rec_len_nonneg (drop i al) (Forall_drop _ _ _ Hok)). lia.
  - rewrite lookup_take_lt by lia. done.
Qed.

(** A sequence of the slice [k] that is in its index file is not buffered; the others are. *)
Lemma located_buffered ms s l k b al r d i j m :
  core ms s l -> located s k b al r d i -> al !! j = Some m ->
  bufferedMsgs ms !! Sequence m =
    if (j <? i)%nat then None else Some (mkBuffered m (index_of (4 + rec_len (take j al)) m)).
Proof.
  intros H Hloc Hj. rewrite (c_bufd _ _ _ H). destruct (write_bounds _ _ _ H) as [Hb _].
  destruct (c_write _ _ _ H) as (slw & _ & How). pose proof (so_num _ _ _ _ _ _ How) as Hn.
  assert (MemSpec.numbered (wbase s + Z.of_nat (ni s)) (drop (ni s) (all s))) as Hn'.
  { rewrite <- (take_drop (ni s) (all s)) in Hn. apply numbered_app in Hn as [_ Hn].
    rewrite length_take, Nat.min_l in Hn by lia. done. }
  destruct (located_slice _ _ _ _ _ _ _ _ _ H Hloc) as (sl & _ & Ho). pose proof (so_num _ _ _ _ _ _ Ho j m Hj) as Hs.
  apply lookup_lt_Some in Hj as Hlt.
  destruct Hloc as [(pre & post & Es & -> & _ & _ & ->)|(_ & -> & -> & _ & _ & ->)].
  - destruct (Nat.ltb_spec j (length al)); [|lia]. apply (buffered_None _ _ _ _ Hn'). left.
    assert (length (mjoin pre.*2) + length al <= length (before s))%nat.
    { unfold before. rewrite Es, fmap_app, join_app, length_app. cbn. rewrite length_app. lia. }
    unfold wbase. lia.
  - destruct (Nat.ltb_spec j (ni s)).
    + apply (buffered_None _ _ _ _ Hn'). left. lia.
    + rewrite (buffered_Some _ _ _ (j - ni s) m Hn') by (rewrite lookup_drop; by rewrite Nat.add_sub_assoc, Nat.add_sub' by lia).
      do 2 f_equal. f_equal. rewrite <- Z.add_assoc, <- rec_len_app. do 2 f_equal.
      rewrite take_take_drop. f_equal. lia.
Qed.

Lemma located_seq ms s l k b al r d i j m :
  core ms s l -> located s k b al r d i -> al !! j = Some m -> Sequence m = b + Z.of_nat j /\ is_u64 (b + Z.of_nat j) /\ 0 < b + Z.of_nat j.
Proof.
  intros H Hloc Hj. destruct (located_slice _ _ _ _ _ _ _ _ _ H Hloc) as (sl & _ & Ho).
  pose proof (so_num _ _ _ _ _ _ Ho j m Hj) as Hs. pose proof (ok_seq _ (Forall_lookup_1 _ _ _ _ (so_msgs _ _ _ _ _ _ Ho) Hj)).
  unfold is_u64. split_and!; lia.
Qed.

Lemma getMsgIndex_spec ms s l k b al r d i sl j m :
  core ms s l -> located s k b al r d i -> files ms !! k = Some sl -> fstate (idxFile sl) = fileInUse ->
  al !! j = Some m -> (r <= j)%nat ->
  getMsgIndex opts k (Sequence m) ms = (Ok (Some (index_of (4 + rec_len (take j al)) m)), ms).
Proof.
  intros H Hloc Hk Hs Hj Hr. unfold getMsgIndex. rewrite run_get, (located_buffered _ _ _ _ _ _ _ _ _ _ _ H Hloc Hj).
  destruct (located_slice _ _ _ _ _ _ _ _ _ H Hloc) as (sl' & Hk' & Ho). assert (sl' = sl) as -> by congruence.
  destruct (Nat.ltb_spec j i); [|done]. eapply readMsgIndex_spec; try done. by eapply located_seq.
Qed.
End Files.
End FileMsgSpec.
