(* ===== verification/FileMsgsRemove.v ===== *)
(** * Removing messages from files

    [removeFirstMsg] of [FileMsgStore] with the slices it removes, and [enforceLimits]: they
    preserve the invariant of [FileMsgsSpec.v] and take messages from the front of the
    window, as many as the limits say. *)

From Stdlib Require Import ZArith Lia Ascii String Sorted.
From stdpp Require Import base list gmap strings.
From S2P Require Import Prelude Bytes Util GoLib Crc Proto ProtoSpec MemStore Records RecordsSpec FileSubs FilesManager Cache FileMsgs FileMsgsSpec.

Local Open Scope Z_scope.

Module FileMsgRemove.
Import Crc CrcSpec Proto ProtoSpec Buffer Rec RecSpec FileOptions FM Cache FileMsg FileMsgSpec.

Section Remove.
Context (opts : FileStoreOptions) (Hopts : FileOptions.valid opts) (limits : Mem.MsgStoreLimits).
Context (codec : codec MsgProto) (nonempty : forall m, 0 < Sequence m -> c_put codec m <> []) `{!Lawful codec}.
Context (pressure : nat -> list (part * Z)).
Local Abbreviation core := (core opts codec).
Local Abbreviation holds := (holds opts codec).
Local Abbreviation closed_ok := (closed_ok opts codec).
Local Abbreviation slice_ok := (slice_ok opts codec).
Local Abbreviation msg_ok := (msg_ok codec).
Local Abbreviation Size := (Size codec).

(** ** Shapes *)

(** Without the first message: a slice that becomes empty goes, unless it is the last. *)
Definition drop_first (s : shape) : shape :=
  match segs s with
  | (k, al) :: rest =>
      if (S (rm s) =? length al)%nat
      then mkShape (base s + Z.of_nat (length al)) 0 rest (key s) (all s) (nd s) (ni s)
      else mkShape (base s) (S (rm s)) (segs s) (key s) (all s) (nd s) (ni s)
  | [] => mkShape (base s) (S (rm s)) [] (key s) (all s) (nd s) (ni s)
  end.

Lemma drop_first_stored s :
  base (drop_first s) + Z.of_nat (length (stored (drop_first s))) = base s + Z.of_nat (length (stored s)) /\
  base (drop_first s) + Z.of_nat (rm (drop_first s)) = base s + Z.of_nat (rm s) + 1 /\
  ((rm s < length (stored s))%nat -> live (drop_first s) = drop 1 (live s)) /\
  wbase (drop_first s) = wbase s /\ key (drop_first s) = key s /\ all (drop_first s) = all s /\
  nd (drop_first s) = nd s /\ ni (drop_first s) = ni s.
Proof.
  unfold drop_first, live, stored, wbase, before. destruct s as [b r sg k al d i]; cbn -[Nat.eqb].
  destruct sg as [|[k0 al0] rest]; cbn -[Nat.eqb].
  { split_and!; try done; [lia|]. intros _. by rewrite drop_drop, Nat.add_1_r. }
  destruct (Nat.eqb_spec (S r) (length al0)) as [E|E]; cbn; rewrite ?length_app.
  - rewrite !Nat2Z.inj_add, !Z.add_assoc. split_and!; try done; try lia. intros _.
    rewrite drop_drop, Nat.add_1_r, E, <- app_assoc, drop_app_length. done.
  - split_and!; try done; try lia. intros _. rewrite drop_drop, Nat.add_1_r. done.
Qed.

Lemma closed_ok_other m m' b r l :
  (forall k, k ∈ l.*1 -> m' !! k = m !! k) -> closed_ok m b r l -> closed_ok m' b r l.
Proof.
  revert b r. induction l as [|[k al] l IH]; intros b r Hm H; [done|]. destruct H as [(sl & Hk & Ho) H].
  split; [exists sl; split; [|done]; rewrite Hm; [done|left]|]. apply IH; [|done]. intros k' Hk'. apply Hm. by right.
Qed.

Lemma keys_NoDup ms s l : core ms s l -> NoDup (keys s).
Proof.
  intros H. pose proof (c_keys _ _ _ _ _ H) as Hk. induction Hk as [|k ks _ IH Hf]; [apply NoDup_nil_2|].
  apply NoDup_cons. split; [|done]. intros Hin. rewrite Forall_forall in Hf. specialize (Hf _ Hin). lia.
Qed.

(** The first slice of the shape. *)
Definition first_slice (s : shape) : Z * list MsgProto :=
  match segs s with x :: _ => x | [] => (key s, all s) end.

Lemma first_slice_spec ms s l :
  core ms s l ->
  firstFSlSeq ms = (first_slice s).1 /\
  located s (first_slice s).1 (base s) (first_slice s).2 (rm s)
    (match segs s with [] => nd s | _ => length (first_slice s).2 end)
    (match segs s with [] => ni s | _ => length (first_slice s).2 end) /\
  exists rest, stored s = (first_slice s).2 ++ rest /\ (segs s = [] -> rest = []).
Proof.
  intros H. pose proof (c_firstSl _ _ _ _ _ H) as Hf. unfold first_slice, keys, located, stored, before, wbase, wrm in *.
  destruct (segs s) as [|[k al] rest] eqn:Es; cbn in *.
  - injection Hf as <-. split_and!; [done|right; unfold before; rewrite Es; cbn; split_and!; try done; lia|]. exists []. by rewrite app_nil_r.
  - injection Hf as <-. split_and!; [done|left; exists [], rest; cbn; split_and!; try done; lia|].
    exists (mjoin rest.*2 ++ all s). by rewrite <- app_assoc.
Qed.

Lemma rm_lt ms s l m q : core ms s l -> live s = m :: q -> (rm s < length (first_slice s).2)%nat /\ (first_slice s).2 !! rm s = Some m.
Proof.
  intros H Hl. destruct (first_slice_spec _ _ _ H) as (_ & _ & rest & Es & Hr). unfold live in Hl.
  assert (rm s < length (first_slice s).2)%nat as Hlt.
  { unfold first_slice in *. pose proof (c_closed _ _ _ _ _ H) as Hc. destruct (segs s) as [|[k al] sg]; cbn in *.
    - rewrite (Hr eq_refl), app_nil_r in Es. rewrite Es in Hl. apply (f_equal length) in Hl. rewrite length_drop in Hl. simpl in Hl. lia.
    - by destruct Hc as [(sl & _ & _ & ?) _]. }
  split; [done|]. assert (stored s !! rm s = Some m) as Hm.
  { rewrite <- (Nat.add_0_r (rm s)), <- lookup_drop, Hl. done. }
  rewrite Es, lookup_app_l in Hm by done. done.
Qed.

(** ** Removing the first message *)

(** What removal leaves as it is. *)
Record untouched (ms ms' : FileMsgStore) : Prop := {
  u_writeSlice : writeSlice ms' = writeSlice ms;
  u_lastSl : lastFSlSeq ms' = lastFSlSeq ms;
  u_bw : bw ms' = bw ms;
  u_wbuf : wbuf ms' = wbuf ms;
  u_offset : wOffset ms' = wOffset ms;
  u_seqs : bufferedSeqs ms' = bufferedSeqs ms;
  u_bufd : bufferedMsgs ms' = bufferedMsgs ms;
  u_cache : cache ms' = cache ms;
  u_stray : stray ms' = stray ms
}.

Lemma u64_minus a b : u64 (u64 a - b) = u64 (a - b).
Proof. unfold u64. apply Zminus_mod_idemp_l. Qed.

Lemma cached_drop_first s m q x :
  live s = m :: q -> (rm s < length (stored s))%nat -> cached_ok s x -> cached_ok (drop_first s) x.
Proof.
  intros Hl Hlt [H1 H2]. destruct (drop_first_stored s) as (E1 & E2 & E3 & _). split; [lia|]. intros Hge.
  unfold window in *. rewrite E2 in *. rewrite (E3 Hlt), Hl in *. specialize (H2 ltac:(lia)). cbn in H2.
  cbn. destruct (Z.leb_spec (base s + Z.of_nat (rm s)) (Sequence x)) as [Hle|]; [|lia].
  destruct (Z.leb_spec (base s + Z.of_nat (rm s) + 1) (Sequence x)); [|lia].
  replace (Z.to_nat (Sequence x - (base s + Z.of_nat (rm s)))) with (S (Z.to_nat (Sequence x - (base s + Z.of_nat (rm s) + 1)))) in H2 by lia.
  by rewrite drop_0.
Qed.

Lemma last_drop_1 {A : Type} (x y : A) l : list.last (x :: y :: l) = list.last (y :: l).
Proof. rewrite !last_cons. by destruct (list.last l). Qed.

Lemma core_drop_first ms ms' s l m q :
  core ms s l -> live s = m :: q -> untouched ms ms' ->
  first ms' = first ms + 1 -> FileMsg.last ms' = FileMsg.last ms -> totalCount ms' = totalCount ms - 1 ->
  totalBytes ms' = u64 (totalBytes ms - Size m) -> firstMsg ms' = None ->
  lastMsg ms' = (if FileMsg.last ms' <? first ms' then None else lastMsg ms) ->
  closed_ok (files ms') (base (drop_first s)) (rm (drop_first s)) (segs (drop_first s)) ->
  (exists sl, files ms' !! key s = Some sl /\ slice_ok (wbase s) (all s) (wrm (drop_first s)) (nd s) (ni s) sl) ->
  dom (files ms') = list_to_set (keys (drop_first s)) -> head (keys (drop_first s)) = Some (firstFSlSeq ms') ->
  core ms' (drop_first s) l.
Proof.
  intros H Hl U Hf Hla Hc Hb Hfm Hlm Hcl Hw Hd Hh. destruct (drop_first_stored s) as (E1 & E2 & E3 & E4 & E5 & E6 & E7 & E8).
  assert (rm s < length (stored s))%nat as Hlt.
  { unfold live in Hl. apply (f_equal length) in Hl. rewrite length_drop in Hl. simpl in Hl. lia. }
  specialize (E3 Hlt). rewrite Hl in E3. cbn in E3. rewrite drop_0 in E3.
  assert (exists k0, keys s = keys (drop_first s) \/ keys s = k0 :: keys (drop_first s)) as (k0 & Hkeys).
  { unfold drop_first, keys. destruct s as [b r [|[k1 al1] sg] kk al d i]; cbn -[Nat.eqb]; [by exists 0; left|]. exists k1.
    destruct (S r =? length al1)%nat; cbn; [by right|by left]. }
  pose proof (u_wbuf _ _ U) as Uw. pose proof (u_bufd _ _ U) as Ub. pose proof (u_bw _ _ U) as Ubw.
  destruct H as [c_closed c_write c_keys c_pos c_dom c_base c_writeSlice c_firstSl c_lastSl c_first c_last c_count c_bytes
    c_firstMsg c_lastMsg c_pending c_seqs c_bufd c_buf c_mode c_cache c_cached c_stray], U.
  split; rewrite ?E1, ?E2, ?E3, ?E4, ?E5, ?E6, ?E7, ?E8; try done; try congruence.
  - destruct Hkeys as [<-|Hk]; [done|]. rewrite Hk in c_keys. by inversion c_keys.
  - destruct Hkeys as [<-|Hk]; [done|]. rewrite Hk in c_pos. by inversion c_pos.
  - destruct c_base as [B1 B2]. split; [|done]. unfold drop_first. destruct (segs s) as [|[k1 al1] sg]; [done|]. destruct (S (rm s) =? length al1)%nat; cbn; lia.
  - rewrite Hc, c_count, Hl. cbn [length]. lia.
  - rewrite Hb, c_bytes, u64_minus, Hl. f_equal. cbn [Window.bytes foldr]. unfold Window.bytes. lia.
  - intros m' Hm'. rewrite Hlm in Hm'. destruct (Z.ltb_spec (FileMsg.last ms') (first ms')) as [|Hle]; [done|].
    specialize (c_lastMsg m' Hm'). rewrite Hl in c_lastMsg. destruct q as [|y q]; [|by rewrite last_drop_1 in c_lastMsg].
    exfalso. rewrite Hf, Hla, c_last, c_first in Hle. unfold live in Hl. apply (f_equal length) in Hl.
    rewrite length_drop in Hl. simpl in Hl. lia.
  - unfold pend in *. rewrite Uw. done.
  - by rewrite Ubw, Uw, Ub.
  - destruct c_mode as [?|(? & ? & ?)]; [by left|right]. split_and!; congruence.
  - eapply Forall_impl; [done|]. intros x. by eapply cached_drop_first.
  - rewrite u_stray0. done.
Qed.

Lemma set_files_id ms : set_files (files ms) ms = ms.
Proof. by destruct ms. Qed.

Lemma close_removed p k sl ms :
  files ms !! k = Some sl -> unbuffered k ms ->
  exists sl', closeLockedOrOpenedFile opts p k ms = (Ok tt, put k sl' ms).
Proof.
  intros H U. unfold closeLockedOrOpenedFile, when. rewrite (run_slice _ _ _ _ H). destruct (_ || _).
  - rewrite (doClose_Some _ _ _ _ _ H U). by eexists.
  - exists sl. unfold put. rewrite insert_id by done. by rewrite set_files_id.
Qed.

Lemma next_slice_spec k1 fuel ms :
  firstFSlSeq ms < k1 <= lastFSlSeq ms -> is_Some (files ms !! k1) ->
  (forall x, firstFSlSeq ms < x < k1 -> files ms !! x = None) -> (Z.to_nat (k1 - firstFSlSeq ms) <= fuel)%nat ->
  next_slice fuel ms = set_firstFSlSeq k1 ms.
Proof.
  revert ms. induction fuel as [|fuel IH]; intros ms Hk Hs Hn Hf; [lia|]. cbn [next_slice].
  destruct (Z.ltb_spec (firstFSlSeq ms) (lastFSlSeq ms)); [|lia]. cbn [files firstFSlSeq set_firstFSlSeq].
  destruct (decide (k1 = firstFSlSeq ms + 1)) as [->|Hne].
  - by rewrite bool_decide_true.
  - rewrite bool_decide_false by (rewrite Hn by lia; intros [? ?]; done). rewrite IH; cbn; [done|lia|done| |lia].
    intros x Hx. apply Hn. lia.
Qed.

(** Removing a slice that is not written to. *)
Lemma removeFirstSlice_spec ms k0 k1 sl :
  firstFSlSeq ms = k0 -> files ms !! k0 = Some sl -> is_write_slice k0 ms = false -> k0 < k1 <= lastFSlSeq ms ->
  is_Some (files ms !! k1) -> (forall x, k0 < x < k1 -> files ms !! x = None) ->
  removeFirstSlice opts ms = (Ok tt, set_firstFSlSeq k1 (set_files (delete k0 (files ms)) ms)).
Proof.
  intros <- Hk Hw Hk1 Hs Hn. unfold removeFirstSlice. rewrite run_get.
  destruct (close_removed Dat _ _ _ Hk (or_introl Hw)) as (sl1 & E1). rewrite (run_bind _ _ _ _ _ E1).
  destruct (close_removed Idx (firstFSlSeq ms) sl1 (put (firstFSlSeq ms) sl1 ms)) as (sl2 & E2).
  { unfold put. cbn. by rewrite lookup_insert_eq. } { by left. }
  rewrite (run_bind _ _ _ _ _ E2), !run_modify. cbn [firstFSlSeq lastFSlSeq set_files put].
  match goal with |- context [next_slice _ ?x] => assert (x = set_files (delete (firstFSlSeq ms) (files ms)) ms) as -> end.
  { unfold put. destruct ms; cbn. by rewrite !delete_insert_eq. }
  rewrite (next_slice_spec k1); [|cbn; lia|cbn; by rewrite lookup_delete_ne by lia| |cbn; lia].
  - rewrite run_get. cbn. destruct (Z.ltb_spec (lastFSlSeq ms) k1); [lia|done].
  - intros x Hx. cbn in *. rewrite lookup_delete_ne by lia. by apply Hn.
Qed.

Lemma slice_ok_removed b al r d i sl :
  slice_ok b al r d i sl -> (r < length al)%nat ->
  slice_ok b al (S r) d i (set_firstSeq (b + Z.of_nat r + 1) (set_rmCount (rmCount sl + 1) sl)).
Proof.
  intros [] Hr. split; cbn; try done; try lia. intros ->. simpl in Hr. lia.
Qed.

Lemma size_files ms s l : core ms s l -> size (files ms) = S (length (segs s)).
Proof.
  intros H. rewrite <- size_dom, (c_dom _ _ _ _ _ H), size_list_to_set by by eapply keys_NoDup.
  unfold keys. rewrite length_app, length_fmap. simpl. lia.
Qed.

(** The slices after the first one. *)
Lemma keys_tail ms s l k al rest :
  core ms s l -> segs s = (k, al) :: rest ->
  k ∉ rest.*1 /\ k <> key s /\ (forall k1, head (rest.*1 ++ [key s]) = Some k1 -> k < k1 <= key s /\ is_Some (files ms !! k1) /\
    (forall x, k < x < k1 -> files ms !! x = None)).
Proof.
  intros H Es. pose proof (c_keys _ _ _ _ _ H) as Hk. pose proof (c_dom _ _ _ _ _ H) as Hd. unfold keys in Hk, Hd. rewrite Es in Hk, Hd.
  cbn in Hk. inversion Hk as [|x xs Hs Hf]; subst x xs. rewrite Forall_forall in Hf.
  split; [intros Hin; assert (k < k); [apply Hf, elem_of_app; by left|lia]|].
  assert (k < key s) as Hlt by (apply Hf, elem_of_app; right; by left). split; [lia|]. intros k1 Hh.
  assert (exists t, rest.*1 ++ [key s] = k1 :: t) as [t Et].
  { destruct (rest.*1 ++ [key s]) as [|x t]; [done|]. cbn in Hh. injection Hh as ->. by exists t. }
  assert (k1 ∈ rest.*1 ++ [key s]) as Hin by (rewrite Et; by left).
  assert (forall x, x ∈ k1 :: t -> k1 <= x) as Hmin.
  { rewrite Et in Hs. inversion Hs as [|? ? _ Hf1]; subst. rewrite Forall_forall in Hf1. intros x Hx.
    apply elem_of_cons in Hx as [->|Hx]; [lia|]. apply Hf1 in Hx. lia. }
  split_and!; [by apply Hf|apply Hmin; rewrite <- Et; apply elem_of_app; right; by left| |].
  - apply elem_of_dom. rewrite Hd. apply elem_of_list_to_set. cbn. by right.
  - intros x Hx. apply not_elem_of_dom. rewrite Hd, elem_of_list_to_set. cbn. rewrite elem_of_cons, Et.
    intros [->|Hx']; [lia|]. apply Hmin in Hx'. lia.
Qed.

(** What [removeFirstMsg] counts. *)
Definition uncount (i : msgIndex) (ms : FileMsgStore) : FileMsgStore :=
  let ms := set_totalBytes (u64 (totalBytes ms - u32 (msgSize i + msgRecordOverhead))) (set_totalCount (totalCount ms - 1) ms) in
  let ms := set_firstMsg None (set_first (u64 (first ms + 1)) ms) in
  if FileMsg.last ms <? first ms then set_lastMsg None ms else ms.

(** What it changes. *)
Record counted (m : MsgProto) (ms ms' : FileMsgStore) : Prop := {
  n_untouched : untouched ms ms';
  n_first : first ms' = first ms + 1;
  n_last : FileMsg.last ms' = FileMsg.last ms;
  n_count : totalCount ms' = totalCount ms - 1;
  n_bytes : totalBytes ms' = u64 (totalBytes ms - Size m);
  n_firstMsg : firstMsg ms' = None;
  n_lastMsg : lastMsg ms' = (if FileMsg.last ms' <? first ms' then None else lastMsg ms)
}.

Lemma counted_files m ms ms' x : counted m ms ms' -> counted m ms (set_files x ms').
Proof. intros [[] ? ? ? ? ? ?]. by repeat split. Qed.
Lemma counted_first m ms ms' x : counted m ms ms' -> counted m ms (set_firstFSlSeq x ms').
Proof. intros [[] ? ? ? ? ? ?]. by repeat split. Qed.

Lemma uncount_spec i ms s l m q :
  core ms s l -> live s = m :: q -> msgSize i = msize codec m ->
  counted m ms (uncount i ms) /\ files (uncount i ms) = files ms /\ firstFSlSeq (uncount i ms) = firstFSlSeq ms.
Proof.
  intros H Hl Hi. assert (msg_ok m) as Hm.
  { destruct (core_numbered _ _ _ _ _ H) as [_ Hok]. apply (Forall_drop _ (rm s)) in Hok. fold (live s) in Hok. rewrite Hl in Hok.
    by inversion Hok. }
  assert (u64 (first ms + 1) = first ms + 1) as E.
  { apply u64_small. rewrite (c_first _ _ _ _ _ H). pose proof (c_base _ _ _ _ _ H) as [B1 B2]. unfold is_u64.
    assert (rm s < length (stored s))%nat; [|lia]. unfold live in Hl. apply (f_equal length) in Hl. rewrite length_drop in Hl. simpl in Hl. lia. }
  assert (u32 (msgSize i + msgRecordOverhead) = Size m) as E'.
  { rewrite Hi. pose proof (ok_size _ _ Hm) as Hs. unfold FileMsgSpec.Size in *. pose proof (msize_pos _ nonempty m Hm). rewrite u32_small; [done|].
    unfold msgRecordOverhead, recordHeaderSize, msgIndexRecSize in *. lia. }
  unfold uncount. cbn. rewrite E, E'. destruct (Z.ltb_spec (FileMsg.last ms) (first ms + 1)); cbn;
    (split; [split; cbn; [by split|done..|]|done]); destruct (Z.ltb_spec (FileMsg.last ms) (first ms + 1)); done || lia.
Qed.

Lemma first_dom ms s l : core ms s l -> exists sl, files ms !! (first_slice s).1 = Some sl /\
  slice_ok (base s) (first_slice s).2 (rm s) (match segs s with [] => nd s | _ => length (first_slice s).2 end)
    (match segs s with [] => ni s | _ => length (first_slice s).2 end) sl.
Proof. intros H. destruct (first_slice_spec _ _ _ H) as (_ & Hloc & _). by eapply located_slice. Qed.

(** The files once the first slice has lost a message. *)
Lemma core_kept ms ms' s l m q sl :
  core ms s l -> live s = m :: q -> files ms !! (first_slice s).1 = Some sl ->
  (segs s <> [] -> S (rm s) <> length (first_slice s).2) ->
  counted m ms ms' -> firstFSlSeq ms' = firstFSlSeq ms ->
  files ms' = <[(first_slice s).1 := set_firstSeq (first ms') (set_rmCount (rmCount sl + 1) sl)]> (files ms) ->
  core ms' (drop_first s) l.
Proof.
  intros H Hl Hk Hne [U Hf Hla Hc Hb Hfm Hlm] Hfs Hfiles. destruct (rm_lt _ _ _ _ _ H Hl) as [Hlt _].
  destruct (first_dom _ _ _ H) as (sl' & Hk' & Ho). assert (sl' = sl) as -> by congruence.
  pose proof (slice_ok_removed _ _ _ _ _ _ Ho Hlt) as Ho'. rewrite <- (c_first _ _ _ _ _ H), <- Hf in Ho'.
  pose proof (c_closed _ _ _ _ _ H) as Hcl. pose proof (c_write _ _ _ _ _ H) as (slw & Hkw & How).
  pose proof (c_dom _ _ _ _ _ H) as Hd. pose proof (c_firstSl _ _ _ _ _ H) as Hh.
  unfold first_slice, keys in *. destruct (segs s) as [|[k al] rest] eqn:Es; cbn -[Nat.eqb] in *.
  - assert (drop_first s = mkShape (base s) (S (rm s)) [] (key s) (all s) (nd s) (ni s)) as E by (unfold drop_first; by rewrite Es).
    eapply core_drop_first; try done; rewrite E; cbn; rewrite ?Hfiles; [done| | |].
    + eexists. rewrite lookup_insert_eq. split; [done|]. unfold wbase, before, wrm. rewrite Es. cbn. rewrite Z.add_0_r. done.
    + rewrite dom_insert_L, Hd. set_solver.
    + congruence.
  - specialize (Hne ltac:(done)). destruct (keys_tail _ _ _ _ _ _ H Es) as (Hk1 & Hk2 & _). destruct Hcl as [_ Hcl].
    assert (drop_first s = mkShape (base s) (S (rm s)) ((k, al) :: rest) (key s) (all s) (nd s) (ni s)) as E.
    { unfold drop_first. rewrite Es. by destruct (Nat.eqb_spec (S (rm s)) (length al)). }
    eapply core_drop_first; try done; rewrite E; cbn; rewrite ?Hfiles; [| | |].
    + split; [eexists; rewrite lookup_insert_eq; split; [done|]; split; [done|lia]|]. eapply closed_ok_other; [|done].
      intros x Hx. rewrite lookup_insert_ne; [done|]. by intros ->.
    + exists slw. rewrite lookup_insert_ne by done. split; [done|]. unfold wrm in *. rewrite Es in How. done.
    + rewrite dom_insert_L, Hd. set_solver.
    + by rewrite Hfs.
Qed.

(** The files without the first slice, which has no message left. *)
Lemma core_dropped ms ms' s l m q k al rest :
  core ms s l -> live s = m :: q -> segs s = (k, al) :: rest -> S (rm s) = length al ->
  counted m ms ms' ->
  head (rest.*1 ++ [key s]) = Some (firstFSlSeq ms') -> files ms' = delete k (files ms) ->
  core ms' (drop_first s) l.
Proof.
  intros H Hl Es Hr [U Hf Hla Hc Hb Hfm Hlm] Hfs Hfiles. destruct (keys_tail _ _ _ _ _ _ H Es) as (Hk1 & Hk2 & _).
  assert (drop_first s = mkShape (base s + Z.of_nat (length al)) 0 rest (key s) (all s) (nd s) (ni s)) as E.
  { unfold drop_first. rewrite Es, Hr. by rewrite Nat.eqb_refl. }
  pose proof (c_closed _ _ _ _ _ H) as Hcl. pose proof (c_write _ _ _ _ _ H) as (slw & Hkw & How).
  pose proof (c_dom _ _ _ _ _ H) as Hd. unfold keys in Hd. rewrite Es in Hcl, Hd. destruct Hcl as [_ Hcl].
  eapply core_drop_first; try done; rewrite E; cbn; rewrite ?Hfiles.
  - eapply closed_ok_other; [|done]. intros x Hx. rewrite lookup_delete_ne; [done|]. by intros ->.
  - exists slw. rewrite lookup_delete_ne by done. split; [done|]. unfold wrm in *. rewrite Es in How. cbn. by destruct rest.
  - rewrite dom_delete_L, Hd. unfold keys. cbn. apply set_eq. intros x. rewrite elem_of_difference, elem_of_singleton, elem_of_union, elem_of_singleton.
    split; [tauto|]. intros Hx. split; [tauto|]. intros ->. apply elem_of_list_to_set, elem_of_app in Hx as [Hx|Hx]; [done|].
    apply list_elem_of_singleton in Hx. done.
  - done.
Qed.

Lemma holds_dropped lk ms ms' s l m q k al rest :
  holds lk ms s l -> live s = m :: q -> segs s = (k, al) :: rest -> S (rm s) = length al -> counted m ms ms' ->
  head (rest.*1 ++ [key s]) = Some (firstFSlSeq ms') -> files ms' = delete k (files ms) -> holds lk ms' (drop_first s) l.
Proof.
  intros (H & Hst & W) Hl Es Hr C Hh Hf. split; [by eapply core_dropped|].
  destruct (drop_first_stored s) as (_ & _ & _ & _ & E5 & E6 & E7 & _). split.
  - intros k' x p Hx. rewrite Hf in Hx. apply lookup_delete_Some in Hx as [_ Hx]. by apply (Hst k' x p).
  - intros x Hx. rewrite Hf, E5 in Hx. apply lookup_delete_Some in Hx as [_ Hx]. rewrite E6, E7.
    specialize (W x Hx). by rewrite (u_offset _ _ (n_untouched _ _ _ C)).
Qed.

Lemma holds_kept lk ms ms' s l m q sl :
  holds lk ms s l -> live s = m :: q -> files ms !! (first_slice s).1 = Some sl ->
  (segs s <> [] -> S (rm s) <> length (first_slice s).2) -> counted m ms ms' -> firstFSlSeq ms' = firstFSlSeq ms ->
  files ms' = <[(first_slice s).1 := set_firstSeq (first ms') (set_rmCount (rmCount sl + 1) sl)]> (files ms) ->
  holds lk ms' (drop_first s) l.
Proof.
  intros (H & Hst & W) Hl Hk Hne C Hs Hf. split; [by eapply core_kept|].
  destruct (drop_first_stored s) as (_ & _ & _ & _ & E5 & E6 & E7 & _). split.
  - intros k' x p Hx. rewrite Hf in Hx. apply lookup_insert_Some in Hx as [[<- <-]|[_ Hx]]; [|by apply (Hst k' x p)].
    pose proof (Hst _ sl p Hk) as Hp. by destruct p.
  - intros x Hx. rewrite Hf, E5 in Hx. rewrite E6, E7, (u_offset _ _ (n_untouched _ _ _ C)).
    apply lookup_insert_Some in Hx as [[Ex <-]|[_ Hx]]; [|by apply W]. rewrite Ex in Hk. apply (W sl Hk).
Qed.

(** What [removeFirstMsg] does once it has counted. *)
Lemma drop_or_keep lk ms ms1 s l m q sl :
  holds lk ms s l -> live s = m :: q -> files ms !! (first_slice s).1 = Some sl -> counted m ms ms1 ->
  files ms1 = files ms -> firstFSlSeq ms1 = firstFSlSeq ms ->
  let sl1 := set_rmCount (rmCount sl + 1) sl in
  let ms2 := put (first_slice s).1 sl1 ms1 in
  exists ms', (if (msgsCount sl1 =? rmCount sl1) && (1 <? Z.of_nat (size (files ms2))) then removeFirstSlice opts
               else update_slice (first_slice s).1 (set_firstSeq (first ms2))) ms2 = (Ok tt, ms') /\ holds lk ms' (drop_first s) l.
Proof.
  intros K Hl Hk C Uf Us sl1 ms2. destruct K as (H & Hst & W). destruct (first_slice_spec _ _ _ H) as (Ek & _ & _).
  destruct (first_dom _ _ _ H) as (sl' & Hk' & Ho). assert (sl' = sl) as -> by congruence. clear Hk'.
  assert (size (files ms2) = S (length (segs s))) as ->.
  { rewrite <- (size_files _ _ _ H). unfold ms2, put. cbn [files set_files]. rewrite Uf, map_size_insert_Some by by eexists. done. }
  unfold sl1 at 1 2. cbn [msgsCount rmCount set_rmCount]. rewrite (so_count _ _ _ _ _ _ _ _ Ho), (so_rm _ _ _ _ _ _ _ _ Ho).
  assert (files ms2 !! (first_slice s).1 = Some sl1) as Hk2 by (unfold ms2, put; cbn; by rewrite lookup_insert_eq).
  pose proof (n_untouched _ _ _ C) as U.
  destruct ((Z.of_nat (length (first_slice s).2) =? Z.of_nat (rm s) + 1) && (1 <? Z.of_nat (S (length (segs s))))) eqn:Ec.
  - apply andb_true_iff in Ec as [Ec1 Ec2]. apply Z.eqb_eq in Ec1. apply Z.ltb_lt in Ec2.
    destruct (segs s) as [|[k0 al] rest] eqn:Es; [cbn in Ec2; lia|].
    assert (first_slice s = (k0, al)) as E0 by (unfold first_slice; by rewrite Es).
    assert (ms2 = put k0 sl1 ms1) as E2 by (unfold ms2; by rewrite E0). clearbody ms2. rewrite E0 in *. cbn [fst snd] in *.
    destruct (keys_tail _ _ _ _ _ _ H Es) as (_ & Hk3 & Hnext).
    assert (exists k1, head (rest.*1 ++ [key s]) = Some k1) as [k1 Hh] by (destruct (rest.*1); by eexists).
    destruct (Hnext k1 Hh) as (N1 & N2 & N3).
    assert (forall x, x <> k0 -> files ms2 !! x = files ms !! x) as Hx.
    { intros x Hx. rewrite E2. unfold put. cbn. by rewrite lookup_insert_ne, Uf. }
    rewrite (removeFirstSlice_spec ms2 k0 k1 sl1); [| |done| | | |].
    + eexists. split; [done|]. eapply (holds_dropped lk ms _ s l m q k0 al rest); try done; [lia| |].
      * rewrite E2. apply counted_first, counted_files. by apply counted_files.
      * rewrite E2. unfold put. cbn. by rewrite delete_insert_eq, Uf.
    + rewrite E2. unfold put. cbn. congruence.
    + rewrite E2. unfold is_write_slice, put. cbn. rewrite (u_writeSlice _ _ U), (c_writeSlice _ _ _ _ _ H). apply bool_decide_false. intros [=]. done.
    + rewrite E2. unfold put. cbn. rewrite (u_lastSl _ _ U), (c_lastSl _ _ _ _ _ H). lia.
    + rewrite Hx by lia. done.
    + intros x Hx'. rewrite Hx by lia. by apply N3.
  - rewrite (update_slice_Some _ _ sl1) by done. eexists. split; [done|].
    eapply (holds_kept lk ms _ s l m q sl); try done.
    + intros Hs Hr. rewrite <- Hr, andb_false_iff in Ec. destruct (segs s); [done|]. destruct Ec as [Ec|Ec]; [apply Z.eqb_neq in Ec|apply Z.ltb_ge in Ec]; simpl in Ec; lia.
    + by apply counted_files, counted_files.
    + unfold ms2, put. cbn. by rewrite insert_insert_eq, Uf.
Qed.

Lemma remove_indexed_spec lk ms s l m q i :
  holds lk ms s l -> live s = m :: q -> msgSize i = msize codec m ->
  exists ms', remove_indexed opts (firstFSlSeq ms) i ms = (Ok tt, ms') /\ holds lk ms' (drop_first s) l.
Proof.
  intros K Hl Hi. pose proof (proj1 K) as H. destruct (first_slice_spec _ _ _ H) as (Ek & _ & _).
  destruct (first_dom _ _ _ H) as (sl & Hk & _). rewrite Ek.
  destruct (uncount_spec i ms s l m q H Hl Hi) as (C & Uf & Us).
  destruct (drop_or_keep lk ms _ s l m q sl K Hl Hk C Uf Us) as (ms' & E & K'). exists ms'. split; [|done]. rewrite <- E.
  unfold remove_indexed. rewrite (run_bind _ _ _ _ _ (update_slice_Some _ _ _ _ Hk)), run_modify, run_get.
  assert (forall x sl0, (let ms := set_totalBytes (u64 (totalBytes (put x sl0 ms) - u32 (msgSize i + msgRecordOverhead)))
      (set_totalCount (totalCount (put x sl0 ms) - 1) (put x sl0 ms)) in
    let ms := set_firstMsg None (set_first (u64 (first ms + 1)) ms) in
    if FileMsg.last ms <? first ms then set_lastMsg None ms else ms) = put x sl0 (uncount i ms)) as ->.
  { intros x sl0. unfold put, uncount. cbn. by destruct (FileMsg.last ms <? _). }
  rewrite (run_slice _ (set_rmCount (rmCount sl + 1) sl)) by (unfold put; cbn; by rewrite lookup_insert_eq). done.
Qed.

(** The index file of the write slice is in use, unless the removal has to lock it. *)
Definition lock_ok (lock : bool) (lk : list (part * Z)) (s : shape) : Prop :=
  forall k, (Idx, k) ∈ lk <-> lock = false /\ k = key s.

Lemma first_seq ms s l m q sl :
  core ms s l -> live s = m :: q -> files ms !! (first_slice s).1 = Some sl ->
  firstSeq sl = Sequence m /\ firstSeq sl = first ms /\ (first_slice s).2 !! rm s = Some m.
Proof.
  intros H Hl Hk. destruct (rm_lt _ _ _ _ _ H Hl) as [Hlt Hm]. destruct (first_dom _ _ _ H) as (sl' & Hk' & Ho).
  assert (sl' = sl) as -> by congruence. rewrite (so_first _ _ _ _ _ _ _ _ Ho) by (intros E; rewrite E in Hlt; simpl in Hlt; lia).
  rewrite (so_num _ _ _ _ _ _ _ _ Ho _ _ Hm), (c_first _ _ _ _ _ H). done.
Qed.

Lemma removeFirstMsg_spec lk lock ms s l m q :
  holds lk ms s l -> live s = m :: q -> lock_ok lock lk s ->
  exists ms', removeFirstMsg opts pressure None lock ms = (Ok tt, ms') /\ holds lk ms' (drop_first s) l.
Proof.
  intros K Hl Hlk. pose proof (proj1 K) as H. destruct (first_slice_spec _ _ _ H) as (Ek & Hloc & _).
  destruct (first_dom _ _ _ H) as (sl & Hk & _). destruct (first_seq _ _ _ _ _ _ H Hl Hk) as (Es & Ef & Hm).
  unfold removeFirstMsg. rewrite run_get. cbv zeta. rewrite Ek. set (k := (first_slice s).1) in *.
  rewrite (run_slice _ _ _ _ Hk), (is_write_key _ _ _ _ _ k H). set (doLock := lock || negb (bool_decide (k = key s))).
  assert (exists ms1, when doLock (_ ← catch (lockIndexFile opts pressure k); mret tt) ms = (Ok tt, ms1) /\ frame ms ms1 /\
    exists lk1, holds lk1 ms1 s l /\ (Idx, k) ∈ lk1 /\ lk1 = if doLock then (Idx, k) :: lk else lk) as (ms1 & E1 & F1 & lk1 & K1 & Hin & Elk1).
  { unfold when. destruct doLock eqn:Ed.
    - destruct (lockIndexFile_spec opts codec nonempty pressure lk k sl ms s l K Hk) as (ms1 & E1 & F1 & K1).
      { intros Hx. apply Hlk in Hx as [-> ->]. unfold doLock in Ed. by rewrite bool_decide_true in Ed. }
      exists ms1. rewrite (run_bind _ _ _ _ _ (catch_Ok _ _ _ _ E1)). split; [done|]. split; [done|]. eexists. split; [done|]. split; [by left|done].
    - exists ms. split; [done|]. split; [reflexivity|]. exists lk. split; [done|]. split; [|done]. apply Hlk.
      apply orb_false_iff in Ed as [-> Ed]. apply negb_false_iff, bool_decide_eq_true_1 in Ed. done. }
  rewrite run_assoc, (run_bind _ _ _ _ _ E1). destruct (frame_slice' _ _ _ _ F1 Hk) as (sl1 & Hk1 & Hss).
  pose proof (proj1 K1) as H1. rewrite run_assoc. rewrite Es.
  rewrite (run_bind _ _ ms1 _ _ (catch_Ok _ _ _ _ (getMsgIndex_spec opts Hopts codec nonempty _ _ _ _ _ _ _ _ _ _ _ _ H1 Hloc Hk1
     ltac:(pose proof (proj1 (proj2 K1) k sl1 Idx Hk1) as Hs; unfold state_ok in Hs; by rewrite bool_decide_true in Hs) Hm (Nat.le_refl _)))).
  assert (exists ms2, when doLock (unlockIndexFile k) ms1 = (Ok tt, ms2) /\ frame ms1 ms2 /\ holds lk ms2 s l) as (ms2 & E2 & F2 & K2).
  { unfold when. destruct doLock eqn:Ed; subst lk1; [|exists ms1; split; [done|]; split; [reflexivity|done]].
    apply (unlockFile_spec _ _ _ _ _ lk _ _ _ K1); [apply elem_of_dom; by eexists|done|]. intros x. rewrite elem_of_cons.
    split; [|tauto]. intros Hx. split; [by right|]. intros ->. apply Hlk in Hx as [-> ->]. unfold doLock in Ed. by rewrite bool_decide_true in Ed. }
  rewrite run_assoc, (run_bind _ _ _ _ _ E2). destruct (frame_slice' _ _ _ _ F2 Hk1) as (sl2 & Hk2 & Hss2).
  rewrite run_assoc, (run_slice _ _ _ _ Hk2), run_assoc, run_modify, run_ret.
  rewrite (ss_first _ _ Hss2), (ss_first _ _ Hss), Ef, <- (f_first _ _ F1), <- (f_first _ _ F2).
  replace (set_first (first ms2) ms2) with ms2 by by destruct ms2.
  rewrite <- Ek, <- (f_firstSl _ _ F1), <- (f_firstSl _ _ F2). by eapply remove_indexed_spec.
Qed.

(** ** The limits *)

(** The last slice is the same, and so are the sequences that are stored. *)
Record same_end (s s' : shape) : Prop := {
  e_end : base s' + Z.of_nat (length (stored s')) = base s + Z.of_nat (length (stored s));
  e_key : key s' = key s;
  e_all : all s' = all s;
  e_nd : nd s' = nd s;
  e_ni : ni s' = ni s
}.

Lemma same_end_refl s : same_end s s.
Proof. by split. Qed.
Lemma same_end_trans a b c : same_end a b -> same_end b c -> same_end a c.
Proof. intros [] []. split; congruence. Qed.

Lemma same_end_drop s : same_end s (drop_first s).
Proof. destruct (drop_first_stored s) as (? & _ & _ & _ & ? & ? & ? & ?). by split. Qed.

Lemma window_drop s m q : live s = m :: q -> window (drop_first s) = (base s + Z.of_nat (rm s) + 1, q).
Proof.
  intros Hl. destruct (drop_first_stored s) as (_ & E2 & E3 & _). unfold window. rewrite E2, E3, Hl; [cbn; by rewrite drop_0|].
  unfold live in Hl. apply (f_equal length) in Hl. rewrite length_drop in Hl. simpl in Hl. lia.
Qed.

(** Changes of fields that the invariant does not mention. *)
Lemma holds_frame lk ms ms' s l :
  frame ms ms' -> files ms' = files ms -> wOffset ms' = wOffset ms -> holds lk ms s l -> holds lk ms' s l.
Proof.
  intros F Hf Ho (H & Hst & W). split; [by eapply core_frame|]. unfold states, writable in *. rewrite Hf, Ho. done.
Qed.

Lemma file_over_limits ms s l : core ms s l -> over_limits limits ms = Window.exceeds Size limits (live s).
Proof. intros H. unfold over_limits, Window.exceeds. by rewrite (c_count _ _ _ _ _ H), (c_bytes _ _ _ _ _ H). Qed.

Lemma enforce_loop_spec fuel report lock lk ms s l :
  holds lk ms s l -> lock_ok lock lk s -> (length (live s) <= fuel)%nat ->
  exists ms' s', enforce_loop opts limits pressure fuel report lock ms = (Ok tt, ms') /\ holds lk ms' s' l /\ same_end s s' /\
    window s' = Window.trim Size limits (base s + Z.of_nat (rm s)) (live s).
Proof.
  revert ms s. induction fuel as [|fuel IH]; intros ms s K Hlk Hf; cbn [enforce_loop]; rewrite run_get, (file_over_limits _ _ _ (proj1 K));
    destruct (live s) as [|m q] eqn:El.
  - cbn. exists ms, s. split_and!; [done|done|apply same_end_refl|]. unfold window. by rewrite El.
  - simpl in Hf. lia.
  - cbn. exists ms, s. split_and!; [done|done|apply same_end_refl|]. unfold window. by rewrite El.
  - cbn [Window.trim]. destruct (Window.exceeds Size limits (m :: q)) eqn:Ex.
    + destruct (removeFirstMsg_spec lk lock ms s l m q K El Hlk) as (ms1 & E1 & K1).
      rewrite (run_bind _ _ _ _ _ (catch_Ok _ _ _ _ E1)). set (ms2 := if report then set_hitLimit true ms1 else ms1).
      assert (when report (modify_store (set_hitLimit true)) ms1 = (Ok tt, ms2)) as E2 by by destruct report.
      rewrite (run_bind _ _ _ _ _ E2). pose proof (window_drop _ _ _ El) as Ew. injection Ew as Ew1 Ew2.
      destruct (IH ms2 (drop_first s)) as (ms' & s' & E' & K' & S' & W').
      * unfold ms2. destruct report; [|done]. by apply (holds_frame lk ms1).
      * intros k. rewrite (Hlk k). by rewrite (e_key _ _ (same_end_drop s)).
      * rewrite Ew2. simpl in Hf. lia.
      * exists ms', s'. split; [done|]. split; [done|]. split; [eapply same_end_trans; [apply same_end_drop|done]|].
        by rewrite W', Ew1, Ew2.
    + exists ms, s. split_and!; [done|done|apply same_end_refl|]. unfold window. by rewrite El.
Qed.

Lemma enforceLimits_spec report lock lk ms s l :
  holds lk ms s l -> lock_ok lock lk s ->
  exists ms' s', enforceLimits opts limits pressure report lock ms = (Ok tt, ms') /\ holds lk ms' s' l /\ same_end s s' /\
    window s' = Window.trim Size limits (base s + Z.of_nat (rm s)) (live s).
Proof.
  intros K Hlk. unfold enforceLimits. rewrite run_get. apply enforce_loop_spec; [done|done|].
  rewrite (c_count _ _ _ _ _ (proj1 K)). lia.
Qed.
End Remove.
End FileMsgRemove.
