(* ===== verification/FileMsgsWrite.v ===== *)
(** * Storing messages in files

    [Store] of [FileMsgStore], with the buffer, the slices it adds, the gaps it fills and the
    messages that the limits remove: it preserves the invariant of [FileMsgsSpec.v] and adds
    to the window as specified. *)

From Stdlib Require Import ZArith Lia Ascii String Sorted.
From stdpp Require Import base list gmap strings.
From S2P Require Import Prelude Bytes Util GoLib Crc Proto ProtoSpec MemStore Records RecordsSpec FileSubs FilesManager Cache FileMsgs FileMsgsSpec FileMsgsRemove.

Local Open Scope Z_scope.

Module FileMsgWrite.
Import Crc CrcSpec Proto ProtoSpec Buffer Rec RecSpec FileOptions FM Cache FileMsg FileMsgSpec FileMsgRemove.

Section Write.
Context (opts : FileStoreOptions) (Hopts : FileOptions.valid opts) (limits : Mem.MsgStoreLimits) (channelName : string).
Context (codec : codec MsgProto) (nonempty : forall m, 0 < Sequence m -> c_put codec m <> []) `{!Lawful codec}.
Context (pressure : nat -> list (part * Z)).
Local Abbreviation core := (core opts codec).
Local Abbreviation holds := (holds opts codec).
Local Abbreviation closed_ok := (closed_ok opts codec).
Local Abbreviation slice_ok := (slice_ok opts codec).
Local Abbreviation msg_ok := (msg_ok codec).
Local Abbreviation Size := (Size codec).
Local Abbreviation msize := (msize codec).
Local Abbreviation rec_len := (rec_len codec).
Local Abbreviation records := (records opts codec).
Local Abbreviation indexes := (indexes opts codec).
Local Abbreviation dat_of := (dat_of opts codec).
Local Abbreviation idx_of := (idx_of opts codec).
Local Abbreviation index_of := (index_of codec).
Local Abbreviation buffered := (buffered codec).

(** ** The slice that is written to *)

(** The messages [al] of the slice [k]: [d] of them are in the data file and [i] in the
    index file, the others are in the buffer. *)
Record wdisk (ms : FileMsgStore) (k : Z) (al : list MsgProto) (d i : nat) : Prop := {
  wd_slice : exists sl, files ms !! k = Some sl /\ content (file sl) = dat_of (take d al) /\ content (idxFile sl) = idx_of (take i al);
  wd_bounds : (i <= d <= length al)%nat;
  wd_pend : pend ms = records (drop d al);
  wd_seqs : bufferedSeqs ms = Sequence <$> drop i al;
  wd_bufd : bufferedMsgs ms = buffered (4 + rec_len (take i al)) (drop i al);
  wd_buf : match bw ms with Some _ => is_Some (wbuf ms) | None => wbuf ms = None /\ bufferedMsgs ms = ∅ end;
  wd_mode : mode opts ms
}.

(** The slice with other contents. *)
Definition set_contents (d i : list byte) (sl : fileSlice) : fileSlice :=
  set_files_of (mkDFile d (fstate (file sl))) (mkDFile i (fstate (idxFile sl))) sl.

(** Only the files of the slice [k] and the buffer change. *)
Record wrote (k : Z) (ms ms' : FileMsgStore) : Prop := {
  o_files : forall x, x <> k -> files ms' !! x = files ms !! x;
  o_slice : forall sl, files ms !! k = Some sl -> exists d i, files ms' !! k = Some (set_contents d i sl);
  o_closed : closed ms' = closed ms;
  o_first : first ms' = first ms;
  o_last : FileMsg.last ms' = FileMsg.last ms;
  o_count : totalCount ms' = totalCount ms;
  o_bytes : totalBytes ms' = totalBytes ms;
  o_writeSlice : writeSlice ms' = writeSlice ms;
  o_firstSl : firstFSlSeq ms' = firstFSlSeq ms;
  o_lastSl : lastFSlSeq ms' = lastFSlSeq ms;
  o_offset : wOffset ms' = wOffset ms;
  o_firstMsg : firstMsg ms' = firstMsg ms;
  o_lastMsg : lastMsg ms' = lastMsg ms;
  o_cache : cache ms' = cache ms;
  o_stray : stray ms' = stray ms
}.

Lemma wrote_refl k ms : wrote k ms ms.
Proof.
  split; try done. intros sl Hk. exists (content (file sl)), (content (idxFile sl)). rewrite Hk.
  by destruct sl as [[] []].
Qed.

Lemma wrote_trans k a b c : wrote k a b -> wrote k b c -> wrote k a c.
Proof.
  intros [] []. split; try congruence; [intros x Hx; rewrite o_files1, o_files0; done|].
  intros sl Hk. destruct (o_slice0 _ Hk) as (d & i & Hk'). destruct (o_slice1 _ Hk') as (d' & i' & Hk''). by exists d', i'.
Qed.

Lemma append_spec p k bytes sl ms :
  files ms !! k = Some sl ->
  exists ms', append p k bytes ms = (Ok tt, ms') /\ wrote k ms ms' /\
    ms' = put k (set_contents (match p with Dat => content (file sl) ++ bytes | Idx => content (file sl) end)
                  (match p with Dat => content (idxFile sl) | Idx => content (idxFile sl) ++ bytes end) sl) ms.
Proof.
  intros Hk. unfold append. rewrite (update_slice_Some _ _ _ _ Hk). eexists. split; [done|]. split; [split; try done|].
  - intros x Hx. unfold put. cbn. by rewrite lookup_insert_ne.
  - intros sl' Hk'. assert (sl' = sl) as -> by congruence. unfold put. cbn. rewrite lookup_insert_eq.
    destruct p, sl as [[] []]; cbn; by eexists _, _.
  - unfold put. by destruct p, sl as [[] []].
Qed.

Lemma pending_indexes_spec off b al :
  MemSpec.numbered b al -> pending_indexes opts (Sequence <$> al) (buffered off al) = (indexes off al, ∅).
Proof.
  revert off b. induction al as [|m al IH]; intros off b Hn; [done|]. cbn [fmap list_fmap pending_indexes FileMsgSpec.buffered].
  apply MemSpec.numbered_cons in Hn as [Hm Hn]. rewrite lookup_insert_eq, delete_insert_id.
  - rewrite (IH _ _ Hn). done.
  - apply (buffered_None _ _ _ _ _ Hn). lia.
Qed.

(** ** Flushing *)

Section Slice.
Context (k b : Z) (al : list MsgProto) (Hok : Forall msg_ok al) (Hnum : MemSpec.numbered b al).

Lemma dat_app d : (d <= length al)%nat -> dat_of (take d al) ++ records (drop d al) = dat_of al.
Proof. intros Hd. unfold FileMsgSpec.dat_of. rewrite <- app_assoc, <- records_app, take_drop. done. Qed.

Lemma idx_app i : (i <= length al)%nat -> idx_of (take i al) ++ indexes (4 + rec_len (take i al)) (drop i al) = idx_of al.
Proof. intros Hd. unfold FileMsgSpec.idx_of. rewrite <- app_assoc, <- indexes_app, take_drop. done. Qed.

Lemma drop_nil d : (d <= length al)%nat -> records (drop d al) = [] -> d = length al.
Proof.
  intros Hd E. apply records_nil in E; [|done|done|by apply Forall_drop]. apply (f_equal length) in E. rewrite length_drop in E. simpl in E. lia.
Qed.

Lemma flush_buffer_spec d i ms :
  wdisk ms k al d i ->
  exists ms', flush_buffer k ms = (Ok tt, ms') /\ wdisk ms' k al (length al) i /\ wrote k ms ms'.
Proof.
  intros W. pose proof (wd_bounds _ _ _ _ _ W) as Hb. pose proof (wd_pend _ _ _ _ _ W) as Hp.
  unfold flush_buffer. rewrite run_get.
  assert (pend ms = [] -> d = length al) as Hd by (rewrite Hp; apply drop_nil; lia).
  unfold pend in *. destruct (wbuf ms) as [w|] eqn:Ew; [|exists ms; rewrite Hd in W by done; split_and!; [done|done|apply wrote_refl]].
  destruct (Z.ltb_spec 0 (Buffered w)) as [Hlt|Hge].
  - destruct (wd_slice _ _ _ _ _ W) as (sl & Hk & Hc & Hi). destruct (append_spec Dat k (pending w) sl ms Hk) as (ms1 & E1 & O1 & ->).
    rewrite (run_bind _ _ _ _ _ E1). eexists. split; [done|]. split; [|destruct O1; by split].
    split; cbn; try apply W; [|lia| | |].
    + eexists. rewrite lookup_insert_eq. split; [done|]. cbn. rewrite Hc, Hp, firstn_all, dat_app by lia. done.
    + by rewrite drop_all.
    + pose proof (wd_buf _ _ _ _ _ W) as Hw. destruct (bw ms); [by eexists|]. by destruct Hw as [? _]; congruence.
    + destruct (wd_mode _ _ _ _ _ W) as [?|(? & ? & ?)]; [by left|congruence].
  - unfold Buffered in Hge. rewrite Hd in W by (destruct (pending w); [done|simpl in Hge; lia]).
    exists ms. split_and!; [done|done|apply wrote_refl].
Qed.

Lemma buffered_empty off l : buffered off l = ∅ -> l = [].
Proof. destruct l as [|m l]; [done|]. cbn. intros E. by apply insert_non_empty in E. Qed.

Lemma process_if_buffered_spec i ms :
  wdisk ms k al (length al) i ->
  exists ms', process_if_buffered opts k ms = (Ok tt, ms') /\ wdisk ms' k al (length al) (length al) /\ wrote k ms ms'.
Proof.
  intros W. pose proof (wd_bounds _ _ _ _ _ W) as Hb. pose proof (wd_bufd _ _ _ _ _ W) as Hbuf.
  unfold process_if_buffered, when. rewrite run_get. case_bool_decide as He; cbn [negb].
  - exists ms. split; [done|]. split; [|apply wrote_refl]. rewrite He in Hbuf. symmetry in Hbuf. apply buffered_empty in Hbuf.
    assert (i = length al) as ->; [|done]. apply (f_equal length) in Hbuf. rewrite length_drop in Hbuf. simpl in Hbuf. lia.
  - unfold processBufferedMsgs. rewrite run_get. cbv zeta.
    assert (MemSpec.numbered (b + Z.of_nat i) (drop i al)) as Hn'.
    { rewrite <- (take_drop i al) in Hnum. apply numbered_app in Hnum as [_ Hn]. rewrite length_take, Nat.min_l in Hn by lia. done. }
    rewrite Hbuf, (wd_seqs _ _ _ _ _ W), (pending_indexes_spec _ _ _ Hn'). cbn [fst snd].
    destruct (wd_slice _ _ _ _ _ W) as (sl & Hk & Hc & Hi).
    destruct (append_spec Idx k (indexes (4 + rec_len (take i al)) (drop i al)) sl ms Hk) as (ms1 & E1 & O1 & ->).
    rewrite (run_bind _ _ _ _ _ E1). eexists. split; [done|]. split; [|destruct O1; by split].
    split; cbn; try apply W; rewrite ?firstn_all, ?drop_all; try done.
    + eexists. rewrite lookup_insert_eq. split; [done|]. cbn. rewrite Hc, Hi, firstn_all, idx_app by lia. done.
    + pose proof (wd_buf _ _ _ _ _ W) as Hw. destruct (bw ms); [done|]. by destruct Hw.
    + destruct (wd_mode _ _ _ _ _ W) as [?|(? & ? & ?)]; [by left|by right].
Qed.

Lemma flush_spec d i sync ms :
  wdisk ms k al d i ->
  exists ms', flush opts k sync ms = (Ok tt, ms') /\ wdisk ms' k al (length al) (length al) /\ wrote k ms ms'.
Proof.
  intros W. unfold flush. destruct (flush_buffer_spec d i ms W) as (ms1 & E1 & W1 & O1). rewrite (run_bind _ _ _ _ _ E1).
  destruct (process_if_buffered_spec i ms1 W1) as (ms2 & E2 & W2 & O2). rewrite (run_bind _ _ _ _ _ E2), run_get.
  pose proof (wrote_trans _ _ _ _ O1 O2) as O. unfold when. destruct (_ && _); eexists; (split; [done|]); [|done].
  destruct W2, O. by split.
Qed.

(** ** Writing a message *)

(** Nothing is buffered for the slice. *)
Definition clean (ms : FileMsgStore) (d i : nat) : Prop := pend ms = [] /\ d = length al /\ i = length al.

Lemma make_room_spec required d i ms :
  wdisk ms k al d i ->
  exists ms' d' i', make_room opts k required ms = (Ok tt, ms') /\ wdisk ms' k al d' i' /\ wrote k ms ms' /\
    (clean ms' d' i' \/ exists w, wbuf ms' = Some w /\ required <= Available w).
Proof.
  intros W. pose proof (wd_bounds _ _ _ _ _ W) as Hb. pose proof (wd_pend _ _ _ _ _ W) as Hp. pose proof (wd_buf _ _ _ _ _ W) as Hbuf.
  unfold make_room. rewrite run_get. destruct (bw ms) as [b0|] eqn:Eb.
  2: { destruct Hbuf as [Hw Hm]. exists ms, d, i. split; [done|]. split; [done|]. split; [apply wrote_refl|left].
       pose proof (wd_bufd _ _ _ _ _ W) as Hd. rewrite Hm in Hd. symmetry in Hd. apply buffered_empty in Hd.
       assert (pend ms = []) as Hpe by (unfold pend; by rewrite Hw). split; [done|]. rewrite Hpe in Hp. split; [by apply drop_nil; [lia|]|].
       apply (f_equal length) in Hd. rewrite length_drop in Hd. simpl in Hd. lia. }
  destruct Hbuf as [w Ew]. rewrite Ew. destruct (Z.ltb_spec (Available w) required).
  2: { exists ms, d, i. split; [done|]. split; [done|]. split; [apply wrote_refl|right]. by exists w. }
  destruct (wd_slice _ _ _ _ _ W) as (sl & Hk & Hc & Hi). rewrite (run_slice _ _ _ _ Hk). cbv zeta.
  unfold expand. cbn [fst snd disk buf]. rewrite disk_flush_if_needed. unfold contents. cbn [disk buf].
  unfold pend in Hp. rewrite Ew in Hp. rewrite Hc, Hp, dat_app by lia.
  rewrite (run_bind _ _ _ _ _ (update_slice_Some _ _ _ _ Hk)), run_modify.
  match goal with |- context [process_if_buffered opts k ?x] => assert (wdisk x k al (length al) i /\ wrote k ms x) as [W1 O1] end.
  { split.
    - split; cbn; try apply W; [|lia| | |].
      + eexists. rewrite lookup_insert_eq. split; [done|]. cbn. by rewrite firstn_all.
      + by rewrite drop_all.
      + by eexists.
      + destruct (wd_mode _ _ _ _ _ W) as [?|(? & ? & ?)]; [by left|congruence].
    - split; try done.
      + intros x Hx. cbn. by rewrite lookup_insert_ne.
      + intros sl' Hk'. assert (sl' = sl) as -> by congruence. cbn. rewrite lookup_insert_eq.
        destruct sl as [[] []]; cbn; by eexists _, _. }
  destruct (process_if_buffered_spec i _ W1) as (ms2 & E2 & W2 & O2). exists ms2, (length al), (length al).
  split; [done|]. split; [done|]. split; [by eapply wrote_trans|left].
  split; [|done]. by rewrite (wd_pend _ _ _ _ _ W2), drop_all.
Qed.

Context (m : MsgProto) (Hm : msg_ok m) (Hseq : Sequence m = b + Z.of_nat (length al)).

Lemma buffered_snoc off b0 l x :
  MemSpec.numbered b0 (l ++ [x]) ->
  buffered off (l ++ [x]) = <[Sequence x := mkBuffered x (index_of (off + rec_len l) x)]> (buffered off l).
Proof.
  revert off b0. induction l as [|y l IH]; intros off b0 Hn; cbn [app FileMsgSpec.buffered FileMsgSpec.rec_len].
  - by rewrite Z.add_0_r.
  - pose proof (Hn (S (length l)) x) as Hx. pose proof (MemSpec.numbered_cons _ _ _ Hn) as [Hy Hn'].
    rewrite (IH _ _ Hn'), insert_insert_ne.
    + do 3 f_equal. lia.
    + rewrite Hx; [lia|]. by apply (list_lookup_middle (y :: l) [] x).
Qed.

Lemma writeRecord_kept (c : list byte) (w : option Writer) :
  (exists w0, w = Some w0 /\ recordHeaderSize + msize m <= Available w0) ->
  exists w0, w = Some w0 /\
    writeRecord (mkIO c w) recNoType codec m (crcTable opts) =
      Ok (mkIO c (Some (mkWriter (pending w0 ++ enc opts codec m) (bsize w0))), recordHeaderSize + msize m).
Proof.
  intros (w0 & -> & Hav). exists w0. split; [done|]. unfold writeRecord. cbn [negb Z.eqb recNoType andb buf].
  fold (msize m). destruct (Z.ltb_spec (Available w0) (recordHeaderSize + msize m)); [lia|]. rewrite andb_false_r.
  unfold Write. cbn [buf]. fold (enc opts codec m). rewrite (length_enc _ _ _ Hm).
  destruct (Z.leb_spec (8 + msize m) (Available w0)); [done|]. unfold recordHeaderSize in *. lia.
Qed.

Lemma writeRecord_through (c : list byte) (w : option Writer) :
  match w with Some w0 => pending w0 = [] /\ Available w0 < recordHeaderSize + msize m | None => True end ->
  writeRecord (mkIO c w) recNoType codec m (crcTable opts) = Ok (mkIO (c ++ enc opts codec m) w, recordHeaderSize + msize m).
Proof.
  intros Hw. unfold writeRecord. cbn [negb Z.eqb recNoType andb buf]. fold (msize m).
  destruct w as [w0|]; [|done]. destruct Hw as [Hw Hav].
  assert (Buffered w0 = 0) as E0 by (unfold Buffered; by rewrite Hw). rewrite E0. cbn [Z.ltb Z.compare andb].
  unfold Write. cbn [buf disk]. fold (enc opts codec m). rewrite (length_enc _ _ _ Hm).
  destruct (Z.leb_spec (8 + msize m) (Available w0)); [unfold recordHeaderSize in *; lia|]. by rewrite E0.
Qed.

Lemma take_snoc {A : Type} (l : list A) x n : (n <= length l)%nat -> take n (l ++ [x]) = take n l.
Proof. intros H. by rewrite take_app_le. Qed.
Lemma drop_snoc {A : Type} (l : list A) x n : (n <= length l)%nat -> drop n (l ++ [x]) = drop n l ++ [x].
Proof. intros H. by rewrite drop_app_le. Qed.

Lemma records_snoc l : records (l ++ [m]) = records l ++ enc opts codec m.
Proof. rewrite records_app. f_equal. unfold FileMsgSpec.records. rewrite bind_cons. apply app_nil_r. Qed.
Lemma indexes_snoc off l :
  indexes off (l ++ [m]) = indexes off l ++ addIndex opts (Sequence m) (index_of (off + rec_len l) m).
Proof. rewrite indexes_app. cbn [FileMsgSpec.indexes]. by rewrite app_nil_r. Qed.

Lemma numbered_all : MemSpec.numbered b (al ++ [m]).
Proof. apply MemSpec.numbered_snoc; [done|]. by rewrite Hseq. Qed.

(** The message goes to the buffer. *)
Lemma wdisk_kept d i ms ms' w0 :
  wdisk ms k al d i -> wbuf ms = Some w0 -> files ms' = files ms ->
  is_Some (bw ms) -> is_Some (bw ms') -> wbuf ms' = Some (mkWriter (pending w0 ++ enc opts codec m) (bsize w0)) ->
  bufferedSeqs ms' = bufferedSeqs ms ++ [Sequence m] ->
  bufferedMsgs ms' = <[Sequence m := mkBuffered m (index_of (4 + rec_len al) m)]> (bufferedMsgs ms) ->
  wdisk ms' k (al ++ [m]) d i.
Proof.
  intros W Hw Hf [b0 Hb0] [b1 Hb1] Hw' Hs Hb. pose proof (wd_bounds _ _ _ _ _ W) as Hbd. split.
  - rewrite Hf, !take_snoc by lia. apply W.
  - rewrite length_app. lia.
  - unfold pend. rewrite Hw', drop_snoc, records_snoc, <- (wd_pend _ _ _ _ _ W) by lia. unfold pend. by rewrite Hw.
  - rewrite Hs, (wd_seqs _ _ _ _ _ W), drop_snoc, fmap_app by lia. done.
  - rewrite Hb, (wd_bufd _ _ _ _ _ W), take_snoc, drop_snoc by lia.
    pose proof numbered_all as Hn. rewrite <- (take_drop i (al ++ [m])) in Hn. apply numbered_app in Hn as [_ Hn].
    rewrite drop_snoc in Hn by lia. rewrite (buffered_snoc _ _ _ _ Hn), <- Z.add_assoc, <- rec_len_app, take_drop. done.
  - rewrite Hb1, Hw'. by eexists.
  - destruct (wd_mode _ _ _ _ _ W) as [?|(? & ? & ?)]; [by left|congruence].
Qed.

(** The message goes to the files. *)
Lemma wdisk_through ms ms' sl sl' :
  wdisk ms k al (length al) (length al) -> pend ms = [] -> files ms !! k = Some sl -> files ms' !! k = Some sl' ->
  content (file sl') = content (file sl) ++ enc opts codec m ->
  content (idxFile sl') = content (idxFile sl) ++ addIndex opts (Sequence m) (index_of (4 + rec_len al) m) ->
  (bw ms = None -> bw ms' = None) -> (is_Some (bw ms) -> is_Some (bw ms')) ->
  wbuf ms' = wbuf ms -> bufferedSeqs ms' = bufferedSeqs ms -> bufferedMsgs ms' = bufferedMsgs ms ->
  wdisk ms' k (al ++ [m]) (S (length al)) (S (length al)).
Proof.
  intros W Hp Hk Hk' Hd Hi Hb0 Hb1 Hw Hs Hb. destruct (wd_slice _ _ _ _ _ W) as (sl0 & Hk0 & Hc & Hx).
  assert (sl0 = sl) as -> by congruence. rewrite firstn_all in Hc, Hx.
  assert (S (length al) = length (al ++ [m])) as E by (rewrite length_app; simpl; lia). rewrite E.
  split; rewrite ?firstn_all, ?drop_all.
  - exists sl'. split; [done|]. rewrite Hd, Hi, Hc, Hx. unfold FileMsgSpec.dat_of, FileMsgSpec.idx_of.
    by rewrite records_snoc, indexes_snoc, !app_assoc.
  - done.
  - unfold pend in *. by rewrite Hw.
  - by rewrite Hs, (wd_seqs _ _ _ _ _ W), drop_all.
  - by rewrite Hb, (wd_bufd _ _ _ _ _ W), drop_all.
  - pose proof (wd_buf _ _ _ _ _ W) as Hbuf. rewrite Hw, Hb. destruct (bw ms); [destruct Hb1 as [? ->]; [by eexists|done]|].
    rewrite Hb0 by done. done.
  - destruct (wd_mode _ _ _ _ _ W) as [?|(? & ? & ?)]; [by left|right]. rewrite Hw, Hb. auto.
Qed.

Lemma wrote_same ms ms' : wrote k ms ms' -> forall f : FileMsgStore -> FileMsgStore,
  (forall x, files (f x) = files x /\ closed (f x) = closed x /\ first (f x) = first x /\ FileMsg.last (f x) = FileMsg.last x /\
     totalCount (f x) = totalCount x /\ totalBytes (f x) = totalBytes x /\ writeSlice (f x) = writeSlice x /\
     firstFSlSeq (f x) = firstFSlSeq x /\ lastFSlSeq (f x) = lastFSlSeq x /\ wOffset (f x) = wOffset x /\
     firstMsg (f x) = firstMsg x /\ lastMsg (f x) = lastMsg x /\ cache (f x) = cache x /\ stray (f x) = stray x) -> wrote k ms (f ms').
Proof. intros [] f Hf. destruct (Hf ms') as (E & ? & ? & ? & ? & ? & ? & ? & ? & ? & ? & ? & ? & ?). split; rewrite ?E; try congruence; done. Qed.

Lemma index_kept i recSize ms b1 w :
  bw ms = Some b1 -> wbuf ms = Some w -> recSize <= Buffered w ->
  exists b2, index_msg opts k m i recSize ms =
    (Ok tt, set_bufferedSeqs (bufferedSeqs ms ++ [Sequence m])
              (set_bufferedMsgs (<[Sequence m := mkBuffered m i]> (bufferedMsgs ms)) (set_bw (Some b2) ms))).
Proof.
  intros Hb Hw Hle. unfold index_msg. rewrite run_get, Hb, Hw. apply Z.leb_le in Hle. rewrite Hle.
  unfold when. destruct (shrinkReq b1); [by eexists|]. exists b1. rewrite run_ret, <- Hb. by destruct ms.
Qed.

Lemma index_through i recSize ms sl :
  files ms !! k = Some sl -> pend ms = [] -> 0 < recSize ->
  exists b2 sl', (is_Some (bw ms) -> is_Some b2) /\ (bw ms = None -> b2 = None) /\
    sl' = set_contents (content (file sl)) (content (idxFile sl) ++ addIndex opts (Sequence m) i) sl /\
    index_msg opts k m i recSize ms = (Ok tt, put k sl' (set_bw b2 ms)).
Proof.
  intros Hk Hp Hr. assert (exists b2, (is_Some (bw ms) -> is_Some b2) /\ (bw ms = None -> b2 = None) /\
    index_msg opts k m i recSize ms = append Idx k (addIndex opts (Sequence m) i) (set_bw b2 ms)) as (b2 & H1 & H2 & ->).
  { assert (set_bw (bw ms) ms = ms) as Eid by by destruct ms. unfold index_msg, pend in *. rewrite run_get.
    destruct (bw ms) as [b1|] eqn:Eb1, (wbuf ms) as [w|] eqn:Ew; [|exists (Some b1)|exists None|exists None]; try by rewrite Eid.
    assert (Buffered w = 0) as -> by (unfold Buffered; by rewrite Hp). destruct (Z.leb_spec recSize 0); [lia|].
    unfold when. destruct (shrinkReq b1); [by exists (Some (checkShrinkRequest b1 w))|]. exists (Some b1). by rewrite run_ret, Eid. }
  destruct (append_spec Idx k (addIndex opts (Sequence m) i) sl (set_bw b2 ms) Hk) as (ms' & -> & _ & ->). by eexists b2, _.
Qed.

Lemma wrote_put ms sl d i : files ms !! k = Some sl -> wrote k ms (put k (set_contents d i sl) ms).
Proof.
  intros Hk. split; try done; [intros x Hx; unfold put; cbn; by rewrite lookup_insert_ne|].
  intros x Hx. assert (x = sl) as -> by congruence. unfold put. cbn. rewrite lookup_insert_eq. by eexists _, _.
Qed.

Lemma write_msg_spec d i ms :
  wdisk ms k al d i -> wOffset ms = 4 + rec_len al ->
  exists ms' d' i', write_msg opts codec k m ms = (Ok (8 + msize m), ms') /\ wdisk ms' k (al ++ [m]) d' i' /\ wrote k ms ms'.
Proof.
  intros W Ho. pose proof (msize_pos _ nonempty m Hm) as Hpos. unfold write_msg. fold (msize m). rewrite (Z.add_comm (msize m)).
  destruct (make_room_spec (recordHeaderSize + msize m) d i ms W) as (ms1 & d1 & i1 & E1 & W1 & O1 & Hroom).
  rewrite (run_bind _ _ _ _ _ E1), run_get, (o_offset _ _ _ O1), Ho, u32_small by lia. fold (index_of (4 + rec_len al) m).
  destruct (wd_slice _ _ _ _ _ W1) as (sl & Hk & Hc & Hi). rewrite (run_slice _ _ _ _ Hk).
  assert ((exists w, wbuf ms1 = Some w /\ recordHeaderSize + msize m <= Available w) \/
    clean ms1 d1 i1 /\ match wbuf ms1 with Some w => Available w < recordHeaderSize + msize m | None => True end) as [Hw|[(Hp & -> & ->) Hw]].
  { destruct Hroom as [Hcl|Hw]; [|by left]. destruct (wbuf ms1) as [w|] eqn:Ew; [|by right].
    destruct (Z.le_gt_cases (recordHeaderSize + msize m) (Available w)); [left; by exists w|right; by split]. }
  - destruct (writeRecord_kept (content (file sl)) (wbuf ms1) Hw) as (w & Ew & E). rewrite E, run_lift. cbn [fst snd disk buf].
    rewrite (run_bind _ _ _ _ _ (update_slice_Some _ _ _ _ Hk)), run_modify.
    replace (put k _ ms1) with ms1 by (unfold put; destruct sl as [[] []]; cbn; by rewrite insert_id, set_files_id).
    pose proof (wd_buf _ _ _ _ _ W1) as Hbuf. destruct (bw ms1) as [b1|] eqn:Eb1; [|destruct Hbuf; congruence].
    set (w' := mkWriter _ _).
    destruct (index_kept (index_of (4 + rec_len al) m) (recordHeaderSize + msize m) (set_wbuf (Some w') ms1) b1 w') as [b2 E2]; [done|done| |].
    { unfold Buffered, w'. cbn [pending]. rewrite length_app, Nat2Z.inj_add, (length_enc _ _ _ Hm). unfold recordHeaderSize. lia. }
    rewrite (run_bind _ _ _ _ _ E2). eexists _, d1, i1. split; [done|]. split; [by eapply (wdisk_kept d1 i1 ms1 _ w)|].
    apply (wrote_trans _ _ _ _ O1). by apply (wrote_same ms1 ms1 (wrote_refl _ _) (fun x => set_bufferedSeqs _ (set_bufferedMsgs _ (set_bw _ (set_wbuf _ x))))).
  - rewrite (writeRecord_through (content (file sl)) (wbuf ms1)) by (unfold pend in Hp; by destruct (wbuf ms1)).
    rewrite run_lift. cbn [fst snd disk buf]. rewrite (run_bind _ _ _ _ _ (update_slice_Some _ _ _ _ Hk)), run_modify.
    set (c := content (file sl) ++ _).
    replace (set_wbuf (wbuf ms1) _) with (put k (set_contents c (content (idxFile sl)) sl) ms1) by by destruct ms1, sl as [[] []].
    set (ms2 := put k _ ms1).
    destruct (index_through (index_of (4 + rec_len al) m) (recordHeaderSize + msize m) ms2 (set_contents c (content (idxFile sl)) sl))
      as (b2 & sl' & Hb2 & Hb2' & Esl & E2); [unfold ms2, put; cbn; by rewrite lookup_insert_eq|done|unfold recordHeaderSize; lia|].
    rewrite (run_bind _ _ _ _ _ E2). eexists _, (S (length al)), (S (length al)). split; [done|]. split.
    + eapply (wdisk_through ms1 _ sl sl' W1 Hp Hk); try done; [unfold put; cbn; by rewrite lookup_insert_eq|by subst sl'|by subst sl'].
    + apply (wrote_trans _ _ _ _ O1). eapply wrote_trans; [by apply (wrote_put ms1 sl c (content (idxFile sl)))|]. fold ms2.
      eapply wrote_trans; [by apply (wrote_same ms2 ms2 (wrote_refl _ _) (set_bw b2))|]. subst sl'. apply wrote_put.
      unfold ms2, put. cbn. by rewrite lookup_insert_eq.
Qed.
End Slice.

(** ** The invariant after a write *)

Definition with_files (d i : nat) (s : shape) : shape := mkShape (base s) (rm s) (segs s) (key s) (all s) d i.
Definition snoc (m : MsgProto) (d i : nat) (s : shape) : shape := mkShape (base s) (rm s) (segs s) (key s) (all s ++ [m]) d i.

Lemma core_wdisk ms s l : core ms s l -> wdisk ms (key s) (all s) (nd s) (ni s).
Proof.
  intros H. destruct (c_write _ _ _ _ _ H) as (sl & Hk & Ho). split; try apply H; [|apply Ho].
  exists sl. split; [done|]. split; apply Ho.
Qed.

Lemma wrote_dom k ms ms' : wrote k ms ms' -> k ∈ dom (files ms) -> dom (files ms') = dom (files ms).
Proof.
  intros O Hk. apply set_eq. intros x. destruct (decide (x = k)) as [->|Hne].
  - apply elem_of_dom in Hk as [sl Hk]. rewrite !elem_of_dom. destruct (o_slice _ _ _ O sl Hk) as (d & i & ->). rewrite Hk. done.
  - by rewrite !elem_of_dom, (o_files _ _ _ O).
Qed.

Lemma core_key ms s l : core ms s l -> key s ∈ dom (files ms) /\ key s ∉ (segs s).*1.
Proof.
  intros H. pose proof (keys_NoDup _ _ _ _ _ H) as Hn. unfold keys in Hn. apply NoDup_app in Hn as (_ & Hn & _). split.
  - destruct (c_write _ _ _ _ _ H) as (sl & Hk & _). apply elem_of_dom. by eexists.
  - intros Hin. apply (Hn _ Hin). by left.
Qed.

Lemma slice_ok_contents b al r d i sl d' i' c x :
  slice_ok b al r d i sl -> (i' <= d' <= length al)%nat -> c = dat_of (take d' al) -> x = idx_of (take i' al) ->
  slice_ok b al r d' i' (set_contents c x sl).
Proof. intros [] Hb -> ->. by split. Qed.

Lemma core_rewrote ms ms' s l d i :
  core ms s l -> wrote (key s) ms ms' -> wdisk ms' (key s) (all s) d i -> core ms' (with_files d i s) l.
Proof.
  intros H O W. destruct (core_key _ _ _ H) as [Hkd Hks]. destruct (c_write _ _ _ _ _ H) as (sl & Hk & Ho).
  destruct (o_slice _ _ _ O sl Hk) as (c & x & Hk'). destruct (wd_slice _ _ _ _ _ W) as (sl' & Hk'' & Hc & Hi).
  assert (sl' = set_contents c x sl) as -> by congruence.
  pose proof (wrote_dom _ _ _ O Hkd) as Hd. pose proof (wd_pend _ _ _ _ _ W). destruct O.
  split; cbn; try apply W; rewrite ?Hd, ?o_writeSlice0, ?o_firstSl0, ?o_lastSl0, ?o_first0, ?o_last0, ?o_count0, ?o_bytes0, ?o_firstMsg0,
    ?o_lastMsg0, ?o_cache0, ?o_stray0; try apply H.
  - eapply closed_ok_other; [|apply H]. intros y Hy. apply o_files0. by intros ->.
  - eexists. split; [done|]. eapply slice_ok_contents; [done|apply W|done|done].
Qed.

Lemma wrote_state k ms ms' x sl' :
  wrote k ms ms' -> k ∈ dom (files ms) -> files ms' !! x = Some sl' ->
  exists sl, files ms !! x = Some sl /\ forall p, fstate (get_part p sl') = fstate (get_part p sl).
Proof.
  intros O Hk Hx. destruct (decide (x = k)) as [->|Hne].
  - apply elem_of_dom in Hk as [sl Hk]. destruct (o_slice _ _ _ O sl Hk) as (d & i & E). exists sl. split; [done|].
    assert (sl' = set_contents d i sl) as -> by congruence. by intros [].
  - rewrite (o_files _ _ _ O) in Hx by done. by exists sl'.
Qed.

Lemma holds_rewrote lk ms ms' s l d i :
  holds lk ms s l -> wrote (key s) ms ms' -> wdisk ms' (key s) (all s) d i -> d = length (all s) \/ d = nd s ->
  holds lk ms' (with_files d i s) l.
Proof.
  intros (H & Hst & W) O Wd Hor. destruct (core_key _ _ _ H) as [Hkd _]. split; [by eapply core_rewrote|]. split.
  - intros x sl' p Hx. destruct (wrote_state _ _ _ _ _ O Hkd Hx) as (sl & Hx' & E). rewrite E. by apply (Hst x sl p).
  - intros sl' Hx. destruct (wrote_state _ _ _ _ _ O Hkd Hx) as (sl & Hx' & E). specialize (E Dat). cbn in E, Hx. rewrite E.
    specialize (W sl Hx'). cbn. rewrite (o_offset _ _ _ O). case_bool_decide; [|done]. by destruct Hor as [->| ->].
Qed.

Lemma rm_le ms s l : core ms s l -> (rm s <= length (stored s))%nat.
Proof.
  intros H. destruct (first_slice_spec _ _ _ _ _ H) as (_ & _ & rest & Es & _).
  destruct (first_dom _ _ _ _ _ H) as (sl & _ & Ho). pose proof (so_rm_le _ _ _ _ _ _ _ _ Ho). rewrite Es, length_app. lia.
Qed.

Lemma live_snoc m d i s : (rm s <= length (stored s))%nat -> live (snoc m d i s) = live s ++ [m].
Proof. intros H. unfold live, snoc, stored, before. cbn. rewrite app_assoc. by apply drop_app_le. Qed.

Lemma stored_snoc m d i s : stored (snoc m d i s) = stored s ++ [m].
Proof. unfold stored, snoc, before. cbn. by rewrite app_assoc. Qed.

Lemma cached_snoc m d i s x :
  (rm s <= length (stored s))%nat -> Sequence m = base s + Z.of_nat (length (stored s)) ->
  x = m \/ cached_ok s x -> cached_ok (snoc m d i s) x.
Proof.
  intros Hr Hs Hx. assert (base s + Z.of_nat (rm s) <= Sequence m) as Hle by lia.
  unfold cached_ok. rewrite stored_snoc, length_app. unfold window. rewrite live_snoc by done. cbn.
  assert (length (live s) = length (stored s) - rm s)%nat as El by (unfold live; by rewrite length_drop).
  destruct Hx as [->|[H1 H2]].
  - split; [lia|]. intros _. destruct (Z.leb_spec (base s + Z.of_nat (rm s)) (Sequence m)); [|lia].
    rewrite lookup_app_r by lia. replace (_ - length (live s))%nat with 0%nat by lia. done.
  - split; [lia|]. intros Hx. specialize (H2 Hx). unfold window in H2. cbn in H2.
    destruct (Z.leb_spec (base s + Z.of_nat (rm s)) (Sequence x)); [|lia]. by apply lookup_app_l_Some.
Qed.

(** A message at the end of the last slice. *)
Record added (m : MsgProto) (s : shape) (ms ms' : FileMsgStore) : Prop := {
  a_files : forall x, x <> key s -> files ms' !! x = files ms !! x;
  a_slice : forall sl, files ms !! key s = Some sl -> exists sl', files ms' !! key s = Some sl' /\
    firstSeq sl' = (if decide (all s = []) then Sequence m else firstSeq sl) /\ lastSeq sl' = Sequence m /\
    rmCount sl' = rmCount sl /\ msgsCount sl' = msgsCount sl + 1 /\ forall p, fstate (get_part p sl') = fstate (get_part p sl);
  a_writeSlice : writeSlice ms' = writeSlice ms;
  a_firstSl : firstFSlSeq ms' = firstFSlSeq ms;
  a_lastSl : lastFSlSeq ms' = lastFSlSeq ms;
  a_stray : stray ms' = stray ms;
  a_first : first ms' = first ms;
  a_last : FileMsg.last ms' = Sequence m;
  a_count : totalCount ms' = totalCount ms + 1;
  a_bytes : totalBytes ms' = u64 (totalBytes ms + Size m);
  a_firstMsg : forall x, firstMsg ms' = Some x -> head (live s ++ [m]) = Some x;
  a_lastMsg : forall x, lastMsg ms' = Some x -> x = m;
  a_offset : wOffset ms' = wOffset ms + 8 + msize m
}.

Lemma u64_plus a b : u64 (u64 a + b) = u64 (a + b).
Proof. unfold u64. apply Zplus_mod_idemp_l. Qed.

Lemma slice_ok_snoc b al r d i sl m d' i' sl' :
  slice_ok b al r d i sl -> msg_ok m -> Sequence m = b + Z.of_nat (length al) -> fits codec (al ++ [m]) ->
  (r = 0%nat \/ al <> []) -> (i' <= d' <= length (al ++ [m]))%nat ->
  content (file sl') = dat_of (take d' (al ++ [m])) -> content (idxFile sl') = idx_of (take i' (al ++ [m])) ->
  firstSeq sl' = (if decide (al = []) then Sequence m else firstSeq sl) -> lastSeq sl' = Sequence m ->
  rmCount sl' = rmCount sl -> msgsCount sl' = msgsCount sl + 1 ->
  slice_ok b (al ++ [m]) r d' i' sl'.
Proof.
  intros Ho Hm Hs Hf Hr Hb Hd Hi Hfs Hls Hrm Hc. split; try done.
  - rewrite length_app. pose proof (so_rm_le _ _ _ _ _ _ _ _ Ho). lia.
  - apply Forall_app. split; [apply Ho|by constructor].
  - apply MemSpec.numbered_snoc; [apply Ho|done].
  - intros _. rewrite Hfs. destruct (decide (al = [])) as [->|Hne]; [|by apply Ho]. destruct Hr as [->|]; [|done]. rewrite Hs. done.
  - intros _. rewrite Hls, Hs, length_app. simpl. lia.
  - intros E. by apply app_eq_nil in E as [_ ?].
  - rewrite Hrm. apply Ho.
  - rewrite Hc, (so_count _ _ _ _ _ _ _ _ Ho), length_app. simpl. lia.
Qed.

Lemma core_snoc ms ms' s l l' m d i :
  core ms s l -> msg_ok m -> Sequence m = base s + Z.of_nat (length (stored s)) -> fits codec (all s ++ [m]) ->
  added m s ms ms' -> wdisk ms' (key s) (all s ++ [m]) d i ->
  CacheSpec.repr (cache ms') l' -> (forall x, x ∈ l'.*2 -> x = m \/ x ∈ l.*2) -> core ms' (snoc m d i s) l'.
Proof.
  intros H Hm Hs Hf A W Hc Hl. pose proof (rm_le _ _ _ H) as Hr. destruct (c_write _ _ _ _ _ H) as (sl & Hk & Ho).
  destruct (core_key _ _ _ H) as [Hkd Hks]. destruct (a_slice _ _ _ _ A sl Hk) as (sl' & Hk' & S1 & S2 & S3 & S4 & _).
  destruct (wd_slice _ _ _ _ _ W) as (x & Hx & Hcd & Hci). assert (x = sl') as -> by congruence.
  pose proof (ok_seq _ _ Hm) as Hq. pose proof (c_base _ _ _ _ _ H) as [B1 B2].
  split; rewrite ?live_snoc, ?stored_snoc by done.
  - eapply closed_ok_other; [|apply H]. intros y Hy. apply (a_files _ _ _ _ A). by intros ->.
  - exists sl'. split; [done|]. change (wbase (snoc m d i s)) with (wbase s). change (wrm (snoc m d i s)) with (wrm s).
    eapply slice_ok_snoc; try done; [|unfold wrm|apply W].
    + rewrite Hs. unfold wbase, stored. rewrite length_app. lia.
    + destruct (segs s) eqn:Es; [|by left]. destruct (all s) as [|y t] eqn:Ea; [|by right]. left.
      pose proof (so_rm_le _ _ _ _ _ _ _ _ Ho) as Hle. unfold wrm in Hle. rewrite Es in Hle. simpl in Hle. lia.
  - apply H.
  - apply H.
  - change (keys (snoc m d i s)) with (keys s). rewrite <- (c_dom _ _ _ _ _ H). apply set_eq. intros y. rewrite !elem_of_dom.
    destruct (decide (y = key s)) as [->|Hne]; [rewrite Hk, Hk'; done|]. by rewrite (a_files _ _ _ _ A).
  - rewrite length_app. cbn [base snoc length]. lia.
  - rewrite (a_writeSlice _ _ _ _ A). apply H.
  - rewrite (a_firstSl _ _ _ _ A). apply H.
  - rewrite (a_lastSl _ _ _ _ A). apply H.
  - rewrite (a_first _ _ _ _ A). apply H.
  - rewrite (a_last _ _ _ _ A), length_app. cbn [base snoc length]. lia.
  - rewrite (a_count _ _ _ _ A), (c_count _ _ _ _ _ H), length_app. simpl. lia.
  - rewrite (a_bytes _ _ _ _ A), (c_bytes _ _ _ _ _ H), u64_plus, MemSpec.bytes_snoc. done.
  - apply (a_firstMsg _ _ _ _ A).
  - intros y Hy. rewrite (a_lastMsg _ _ _ _ A y Hy). apply last_snoc.
  - apply W.
  - apply W.
  - apply W.
  - apply W.
  - apply W.
  - done.
  - apply Forall_forall. intros y Hy. apply cached_snoc; [done|done|]. destruct (Hl y Hy) as [?|Hy']; [by left|right].
    pose proof (c_cached _ _ _ _ _ H) as Hall. rewrite Forall_forall in Hall. by apply Hall.
  - rewrite (a_stray _ _ _ _ A). apply H.
Qed.

(** Both files of the last slice are in use. *)
Definition in_use (lk : list (part * Z)) (s : shape) : Prop := forall p, (p, key s) ∈ lk.

Lemma holds_snoc lk ms ms' s l l' m d i :
  holds lk ms s l -> in_use lk s -> core ms' (snoc m d i s) l' -> added m s ms ms' -> holds lk ms' (snoc m d i s) l'.
Proof.
  intros (H & Hst & W) Hu H' A. destruct (c_write _ _ _ _ _ H) as (sl & Hk & Ho).
  destruct (a_slice _ _ _ _ A sl Hk) as (sl' & Hk' & _ & _ & _ & _ & Hp). split; [done|]. split.
  - intros x y p Hx. destruct (decide (x = key s)) as [->|Hne]; [|rewrite (a_files _ _ _ _ A) in Hx by done; by apply (Hst x y p)].
    assert (y = sl') as -> by congruence. rewrite Hp. by apply (Hst _ sl p).
  - intros y Hy. cbn in Hy. assert (y = sl') as -> by congruence. specialize (Hst _ _ Dat Hk). unfold state_ok in Hst.
    rewrite bool_decide_true in Hst by done. pose proof (Hp Dat) as E. rewrite Hst in E. cbn in E, Hst. rewrite E, bool_decide_false by done.
    specialize (W sl Hk). rewrite Hst in W. cbn in W. cbn. rewrite (a_offset _ _ _ _ A), W, rec_len_app. cbn. lia.
Qed.

(** ** Counting a message *)

Lemma on_cache_Ok {A : Type} (f : msgsCache -> outcome rec_error (A * msgsCache)) ms a c :
  f (cache ms) = Ok (a, c) -> on_cache f ms = (Ok a, set_cache c ms).
Proof. intros E. unfold on_cache. rewrite run_get, E, run_lift. done. Qed.

(** What [count_msg] does to the fields before the cache. *)
Definition begin_count (m : MsgProto) (ms : FileMsgStore) : FileMsgStore :=
  let ms := if (first ms =? 0) || (first ms =? Sequence m) then
              let ms := set_firstMsg (Some m) (set_first (Sequence m) ms) in
              if 0 <? Mem.MaxAge limits then set_expiration (i64 (Timestamp m + Mem.MaxAge limits)) ms else ms
            else ms in
  set_lastMsg (Some m) (set_last (Sequence m) ms).

Lemma begin_count_fields m ms :
  files (begin_count m ms) = files ms /\ writeSlice (begin_count m ms) = writeSlice ms /\
  firstFSlSeq (begin_count m ms) = firstFSlSeq ms /\ lastFSlSeq (begin_count m ms) = lastFSlSeq ms /\
  stray (begin_count m ms) = stray ms /\ totalCount (begin_count m ms) = totalCount ms /\ totalBytes (begin_count m ms) = totalBytes ms /\
  wOffset (begin_count m ms) = wOffset ms /\ cache (begin_count m ms) = cache ms /\ bw (begin_count m ms) = bw ms /\
  wbuf (begin_count m ms) = wbuf ms /\ bufferedSeqs (begin_count m ms) = bufferedSeqs ms /\
  bufferedMsgs (begin_count m ms) = bufferedMsgs ms /\ FileMsg.last (begin_count m ms) = Sequence m /\
  lastMsg (begin_count m ms) = Some m /\
  first (begin_count m ms) = (if (first ms =? 0) || (first ms =? Sequence m) then Sequence m else first ms) /\
  firstMsg (begin_count m ms) = (if (first ms =? 0) || (first ms =? Sequence m) then Some m else firstMsg ms).
Proof. unfold begin_count. destruct (_ || _); [destruct (0 <? _)|]; done. Qed.

Lemma count_msg_run k m n ms sl l :
  files ms !! k = Some sl -> CacheSpec.repr (cache ms) l -> Sequence m ∉ Lru.seqs l ->
  exists c ms', CacheSpec.repr c (Lru.add 0 m true false l) /\ count_msg limits codec k m n ms = (Ok tt, ms') /\
    ms' = put k (mkSlice (file sl) (idxFile sl) (if firstSeq sl =? 0 then Sequence m else firstSeq sl) (Sequence m) (rmCount sl)
             (msgsCount sl + 1) (u64 (msgsSize sl + u64 (c_size codec m + msgRecordOverhead)))
             (if firstWrite sl =? 0 then Timestamp m else firstWrite sl) (lastUsed sl))
      (set_wOffset (wOffset ms + n) (set_totalCount (totalCount ms + 1)
        (set_totalBytes (u64 (totalBytes ms + u64 (c_size codec m + msgRecordOverhead))) (set_cache c (begin_count m ms))))).
Proof.
  intros Hk Hc Hn. destruct (CacheSpec.add_holds 0 m true false (cache ms) l Hc (fun _ => Hn)) as (c & E & Hc').
  destruct (begin_count_fields m ms) as (F1 & _ & _ & _ & _ & F6 & F7 & F8 & F9 & _).
  exists c. eexists. split; [done|]. split; [|done]. unfold count_msg. rewrite !run_modify. fold (begin_count m ms).
  assert (on_cache (fun c => c ← add 0 (Sequence m) m true false c; Ok (tt, c)) (begin_count m ms) =
    (Ok tt, set_cache c (begin_count m ms))) as Ec by (apply on_cache_Ok; by rewrite F9, E).
  rewrite (run_bind _ _ _ _ _ Ec), run_modify.
  cbn [wOffset totalCount totalBytes set_cache]. rewrite F6, F7, F8.
  rewrite (update_slice_Some _ _ sl); [done|].
  cbn [files set_wOffset set_totalCount set_totalBytes set_cache]. by rewrite F1.
Qed.

Lemma append_msg_spec lk ms s l m f0 l0 :
  holds lk ms s l -> in_use lk s -> f0 = first ms \/ f0 = 0 /\ stored s = [] -> msg_ok m ->
  Sequence m = base s + Z.of_nat (length (stored s)) -> fits codec (all s ++ [m]) ->
  exists ms' d i l', (n ← write_msg opts codec (key s) m; count_msg limits codec (key s) m n) (set_first f0 (set_last l0 ms)) = (Ok tt, ms') /\
    holds lk ms' (snoc m d i s) l'.
Proof.
  intros K Hu Hf0 Hm Hs Hfit. destruct K as (H & Hst & W). pose proof (core_wdisk _ _ _ H) as Wd.
  destruct (c_write _ _ _ _ _ H) as (sl & Hk & Ho). pose proof (rm_le _ _ _ H) as Hr. pose proof (c_base _ _ _ _ _ H) as [B1 _].
  assert (wOffset ms = 4 + rec_len (all s)) as Hoff.
  { specialize (W sl Hk). specialize (Hst _ _ Dat Hk). unfold state_ok in Hst. rewrite bool_decide_true in Hst by done.
    cbn in Hst. by rewrite Hst, bool_decide_false in W. }
  assert (Sequence m = wbase s + Z.of_nat (length (all s))) as Hs' by (rewrite Hs; unfold wbase, stored; rewrite length_app; lia).
  destruct (write_msg_spec (key s) (wbase s) (all s) (so_msgs _ _ _ _ _ _ _ _ Ho) (so_num _ _ _ _ _ _ _ _ Ho) m Hm Hs' (nd s) (ni s)
    (set_first f0 (set_last l0 ms))) as (ms1 & d & i & E1 & W1 & O1); [destruct Wd; by split|done|].
  rewrite (run_bind _ _ _ _ _ E1). destruct (o_slice _ _ _ O1 sl Hk) as (c1 & x1 & Hk1).
  assert (Sequence m ∉ Lru.seqs l) as Hnew.
  { unfold Lru.seqs. intros Hin. apply list_elem_of_fmap in Hin as (y & Ey & Hy). pose proof (c_cached _ _ _ _ _ H) as Hall.
    rewrite Forall_forall in Hall. destruct (Hall y Hy). lia. }
  destruct (count_msg_run (key s) m (8 + msize m) ms1 _ l Hk1) as (c & ms' & Hc & E2 & Ems'); [rewrite (o_cache _ _ _ O1); apply H|done|].
  exists ms', d, i, (Lru.add 0 m true false l). split; [done|].
  destruct (begin_count_fields m ms1) as (F1 & F2 & F3 & F4 & F5 & _ & _ & _ & _ & F10 & F11 & F12 & F13 & F14 & F15 & F16 & F17).
  rewrite (o_first _ _ _ O1) in F16, F17. cbn [first set_first] in F16, F17. rewrite (o_firstMsg _ _ _ O1) in F17. cbn [firstMsg set_first set_last] in F17.
  assert ((f0 =? 0) || (f0 =? Sequence m) = true -> first ms = Sequence m /\ live s = []) as Hone.
  { rewrite (c_first _ _ _ _ _ H) in *. intros [E%Z.eqb_eq|E%Z.eqb_eq]%orb_true_iff; destruct Hf0 as [->|[-> E0]]; try lia.
    - unfold live. rewrite E0 in *. simpl in Hr. rewrite Hs. split; [simpl; lia|]. by destruct (rm s).
    - assert (rm s = length (stored s)) as Er by lia. split; [lia|]. unfold live. by rewrite Er, drop_all. }
  assert (added m s ms ms') as A.
  { subst ms'. split; cbn -[begin_count u64]; rewrite ?F1, ?F2, ?F3, ?F4, ?F5, ?F14, ?F15, ?F16, ?F17; try apply O1.
    - intros x Hx. rewrite lookup_insert_ne by done. by rewrite (o_files _ _ _ O1).
    - intros x Hx. assert (x = sl) as -> by congruence. eexists. rewrite lookup_insert_eq. split; [done|]. cbn. split_and!; try done; [|by intros []].
      pose proof (so_first _ _ _ _ _ _ _ _ Ho) as S1. pose proof (so_new _ _ _ _ _ _ _ _ Ho) as S2.
      destruct (decide (all s = [])) as [Ea|Ea]; [by rewrite (proj1 (S2 Ea))|]. rewrite (S1 Ea). unfold wbase.
      destruct (Z.eqb_spec (base s + Z.of_nat (length (before s)) + Z.of_nat (wrm s)) 0); [lia|done].
    - destruct ((f0 =? 0) || (f0 =? Sequence m)) eqn:E; [by destruct (Hone eq_refl)|]. destruct Hf0 as [->|[-> _]]; [done|]. cbn in E. done.
    - done.
    - by rewrite (o_count _ _ _ O1).
    - rewrite (o_bytes _ _ _ O1). cbn. fold (msize m). unfold u64. by rewrite Zplus_mod_idemp_r.
    - intros x Hx. destruct ((f0 =? 0) || (f0 =? Sequence m)) eqn:E; [destruct (Hone eq_refl) as [_ ->]; by injection Hx as <-|].
      apply (c_firstMsg _ _ _ _ _ H) in Hx. by destruct (live s).
    - by intros x [= ->].
    - rewrite (o_offset _ _ _ O1). cbn. lia. }
  eapply holds_snoc; [by split|done| |done]. eapply (core_snoc ms); try done.
  - destruct W1 as [[sl1 (Hs1 & Hd1 & Hi1)] ? ? ? ? ? ?]. assert (sl1 = set_contents c1 x1 sl) as -> by congruence. subst ms'.
    split; unfold pend, mode in *; cbn -[begin_count u64]; rewrite ?F10, ?F11, ?F12, ?F13; try done. eexists. rewrite lookup_insert_eq. split; [done|].
    by cbn.
  - by subst ms'.
  - intros x Hx. by eapply CacheSpec.lru_add_elems.
Qed.

(** ** Gaps *)

(** The messages that stand for the missing ones, from [seq] on. *)
Definition filler (ts seq : Z) : MsgProto := mkMsg seq channelName "" [] ts false 0 0.
Definition fillers (ts seq : Z) (n : nat) : list MsgProto := filler ts <$> seqZ seq (Z.of_nat n).

Definition extend (xs : list MsgProto) (s : shape) : shape :=
  mkShape (base s) (rm s) (segs s) (key s) (all s ++ xs) (length (all s ++ xs)) (length (all s ++ xs)).

Lemma fits_prefix a b : Forall msg_ok b -> fits codec (a ++ b) -> fits codec a.
Proof. intros Hb Hf. unfold fits in *. rewrite rec_len_app in Hf. pose proof (rec_len_nonneg _ nonempty _ Hb). lia. Qed.

(** A message that is written to the files at once. *)
Definition through (m : MsgProto) (off : Z) (sl : fileSlice) : fileSlice :=
  mkSlice (mkDFile (content (file sl) ++ enc opts codec m) (fstate (file sl)))
    (mkDFile (content (idxFile sl) ++ addIndex opts (Sequence m) (mkIndex off (Timestamp m) (msize m))) (fstate (idxFile sl)))
    (firstSeq sl) (Sequence m) (rmCount sl) (msgsCount sl + 1) (u64 (msgsSize sl + u64 (msize m + msgRecordOverhead)))
    (firstWrite sl) (lastUsed sl).

Definition count_filler (m : MsgProto) (ms : FileMsgStore) : FileMsgStore :=
  set_wOffset (wOffset ms + (recordHeaderSize + msize m)) (set_last (Sequence m) (set_totalCount (totalCount ms + 1)
    (set_totalBytes (u64 (totalBytes ms + u64 (msize m + msgRecordOverhead))) ms))).

Lemma through_holds lk ms s l m sl :
  holds lk ms s l -> in_use lk s -> all s <> [] -> nd s = length (all s) -> ni s = length (all s) -> lastMsg ms = None ->
  msg_ok m -> Sequence m = base s + Z.of_nat (length (stored s)) -> fits codec (all s ++ [m]) -> files ms !! key s = Some sl ->
  holds lk (count_filler m (put (key s) (through m (wOffset ms) sl) ms)) (extend [m] s) l.
Proof.
  intros K Hu Hne Hnd Hni Hlm Hm Hs Hfit Hk. destruct K as (H & Hst & W). set (ms' := count_filler _ _).
  assert (wOffset ms = 4 + rec_len (all s)) as Hoff.
  { specialize (W sl Hk). specialize (Hst _ _ Dat Hk). unfold state_ok in Hst. rewrite bool_decide_true in Hst by done.
    cbn in Hst. by rewrite Hst, bool_decide_false in W. }
  assert (added m s ms ms') as A.
  { split; try done; cbn.
    - intros x Hx. by rewrite lookup_insert_ne.
    - intros x Hx. assert (x = sl) as -> by congruence. rewrite lookup_insert_eq. eexists. split; [done|].
      destruct (decide (all s = [])); [done|]. split_and!; try done. by intros [].
    - unfold u64. by rewrite Zplus_mod_idemp_r.
    - intros x Hx. apply (c_firstMsg _ _ _ _ _ H) in Hx. by destruct (live s).
    - intros x. by rewrite Hlm.
    - unfold recordHeaderSize. lia. }
  pose proof (core_wdisk _ _ _ H) as Wd. rewrite Hnd, Hni in Wd.
  assert (wdisk ms' (key s) (all s ++ [m]) (S (length (all s))) (S (length (all s)))) as W'.
  { eapply (wdisk_through _ _ _ ms ms' sl (through m (wOffset ms) sl) Wd); [|exact Hk| |reflexivity| |done..].
    - rewrite (wd_pend _ _ _ _ _ Wd), drop_all. done.
    - cbn. by rewrite lookup_insert_eq.
    - unfold through. cbn [content idxFile]. by rewrite Hoff. }
  assert (extend [m] s = snoc m (S (length (all s))) (S (length (all s))) s) as ->.
  { unfold extend, snoc. rewrite length_app. cbn [length]. by rewrite Nat.add_1_r. }
  eapply holds_snoc; [by split|done| |done]. eapply (core_snoc ms); try done; [apply H|]. intros x Hx. by right.
Qed.

Lemma fill_loop_spec n lk ms s l e :
  holds lk ms s l -> in_use lk s -> all s <> [] -> nd s = length (all s) -> ni s = length (all s) -> lastMsg ms = None ->
  e = filler (Timestamp e) (Sequence e) ->
  Forall msg_ok (fillers (Timestamp e) (base s + Z.of_nat (length (stored s))) n) ->
  fits codec (all s ++ fillers (Timestamp e) (base s + Z.of_nat (length (stored s))) n) ->
  exists ms', fill_loop opts codec n (key s) e ms = (Ok tt, ms') /\ lastMsg ms' = None /\
    holds lk ms' (extend (fillers (Timestamp e) (base s + Z.of_nat (length (stored s))) n) s) l.
Proof.
  revert ms s. induction n as [|n IH]; intros ms s K Hu Hne Hnd Hni Hlm He Hok Hfit.
  { exists ms. cbn [fill_loop]. split; [done|]. split; [done|]. change (fillers _ _ 0) with (@nil MsgProto). unfold extend.
    rewrite app_nil_r. destruct s; cbn in *; congruence. }
  set (b := base s + Z.of_nat (length (stored s))) in *. unfold fillers in Hok, Hfit |- *.
  rewrite Nat2Z.inj_succ, seqZ_cons in Hok, Hfit |- * by lia. cbn [fmap list_fmap] in Hok, Hfit |- *.
  replace (Z.pred (Z.succ (Z.of_nat n))) with (Z.of_nat n) in * by lia.
  change (filler (Timestamp e) <$> seqZ (Z.succ b) (Z.of_nat n)) with (fillers (Timestamp e) (Z.succ b) n) in *.
  inversion Hok as [|x t Hm Hok']; subst x t. set (m := filler (Timestamp e) b) in *.
  assert (fits codec (all s ++ [m])) as Hfit1.
  { eapply (fits_prefix _ (fillers (Timestamp e) (Z.succ b) n)); [done|]. rewrite <- app_assoc. done. }
  pose proof (proj1 K) as H. destruct (c_write _ _ _ _ _ H) as (sl & Hk & Ho).
  assert (u64 (FileMsg.last ms + 1) = b) as Eb.
  { rewrite (c_last _ _ _ _ _ H). fold b. replace (b - 1 + 1) with b by lia. apply u64_small.
    pose proof (ok_seq _ _ Hm) as Hq. cbn in Hq. unfold is_u64. lia. }
  cbn [fill_loop]. rewrite run_get, Eb. cbv zeta. rewrite He. cbn [Subject Reply Data Timestamp Redelivered RedeliveryCount CRC32 filler].
  fold (filler (Timestamp e) b). fold m. rewrite (run_slice _ _ _ _ Hk), (writeRecord_through [] m Hm _ None I), run_lift.
  rewrite (run_bind _ _ _ _ _ (update_slice_Some _ _ _ _ Hk)), run_modify. cbn [fst snd disk].
  pose proof (through_holds lk ms s l m sl K Hu Hne Hnd Hni Hlm Hm eq_refl Hfit1 Hk) as K1.
  change (set_wOffset _ _) with (count_filler m (put (key s) (through m (wOffset ms) sl) ms)).
  assert (lastMsg (count_filler m (put (key s) (through m (wOffset ms) sl) ms)) = None) as Hlm1 by done.
  set (ms1 := count_filler _ _) in *. clearbody ms1.
  assert (base (extend [m] s) + Z.of_nat (length (stored (extend [m] s))) = Z.succ b) as Eb1.
  { unfold extend, stored, b. cbn [base all segs]. change (before (mkShape _ _ (segs s) _ _ _ _)) with (before s). unfold stored. rewrite !length_app. cbn [length]. lia. }
  destruct (IH ms1 (extend [m] s) K1) as (ms2 & E2 & L2 & K2); rewrite ?Eb1; try done.
  - cbn. by destruct (all s).
  - cbn. rewrite <- app_assoc. done.
  - exists ms2. rewrite He in E2. cbn [Timestamp Sequence filler] in E2. split; [exact E2|]. split; [done|].
    rewrite Eb1 in K2. replace (extend (m :: _) s) with (extend (fillers (Timestamp e) (Z.succ b) n) (extend [m] s)); [done|].
    unfold extend. cbn. by rewrite <- app_assoc.
Qed.

Lemma holds_flushed lk ms s l k sync :
  holds lk ms s l -> k = key s ->
  exists ms', flush opts k sync ms = (Ok tt, ms') /\ wrote k ms ms' /\
    holds lk ms' (with_files (length (all s)) (length (all s)) s) l.
Proof.
  intros K ->. pose proof (proj1 K) as H. destruct (c_write _ _ _ _ _ H) as (sl & Hk & Ho).
  destruct (flush_spec (key s) (wbase s) (all s) (so_msgs _ _ _ _ _ _ _ _ Ho) (so_num _ _ _ _ _ _ _ _ Ho) (nd s) (ni s) sync ms (core_wdisk _ _ _ H))
    as (ms' & E & W & O).
  exists ms'. split; [done|]. split; [done|]. eapply holds_rewrote; try done. by left.
Qed.

Lemma holds_no_last lk ms s l : holds lk ms s l -> holds lk (set_lastMsg None ms) s l.
Proof. intros ([] & Hst & W). split; [by split|]. by split. Qed.

(** The shape with the gap before the message [m] filled. *)
Definition gap (m : MsgProto) (s : shape) : list MsgProto :=
  fillers (Timestamp m) (base s + Z.of_nat (length (stored s))) (Z.to_nat (Sequence m - (base s + Z.of_nat (length (stored s))))).

Lemma fillGaps_spec lk ms s l m :
  holds lk ms s l -> in_use lk s -> all s <> [] -> Forall msg_ok (gap m s) -> fits codec (all s ++ gap m s) ->
  exists ms', fillGaps opts channelName codec (key s) m ms = (Ok tt, ms') /\ holds lk ms' (extend (gap m s) s) l.
Proof.
  intros K Hu Hne Hok Hfit. unfold fillGaps. destruct (holds_flushed lk ms s l (key s) false K eq_refl) as (ms1 & E1 & O1 & K1).
  rewrite (run_bind _ _ _ _ _ E1), run_modify, run_get. set (s1 := with_files _ _ s) in *.
  destruct (fill_loop_spec (Z.to_nat (Sequence m - (base s + Z.of_nat (length (stored s))))) lk (set_lastMsg None ms1) s1 l
    (filler (Timestamp m) 0)) as (ms2 & E2 & _ & K2); try done.
  - by apply holds_no_last.
  - exists ms2. split; [|done]. cbn [FileMsg.last set_lastMsg]. rewrite (c_last _ _ _ _ _ (proj1 K1)).
    change (base s1) with (base s). change (stored s1) with (stored s).
    replace (Sequence m - (base s + Z.of_nat (length (stored s)) - 1) - 1) with (Sequence m - (base s + Z.of_nat (length (stored s)))) by lia.
    done.
Qed.

(** ** New slices *)

Definition new_file : fileSlice -> Prop := fun sl =>
  content (file sl) = version /\ content (idxFile sl) = version /\ firstSeq sl = 0 /\ lastSeq sl = 0 /\ rmCount sl = 0 /\ msgsCount sl = 0.

Lemma new_slice_ok b sl : new_file sl -> slice_ok b [] 0 0 0 sl.
Proof. intros (? & ? & ? & ? & ? & ?). by split. Qed.

(** A store with one slice, which is empty. *)
Lemma core_fresh ms n b sl l :
  files ms = {[n := sl]} -> new_file sl -> 0 < n -> 0 < b < two64 -> writeSlice ms = Some n -> firstFSlSeq ms = n -> lastFSlSeq ms = n ->
  first ms = b -> FileMsg.last ms = b - 1 -> totalCount ms = 0 -> totalBytes ms = 0 -> firstMsg ms = None -> lastMsg ms = None ->
  pend ms = [] -> bufferedSeqs ms = [] -> bufferedMsgs ms = ∅ -> match bw ms with Some _ => is_Some (wbuf ms) | None => wbuf ms = None end ->
  mode opts ms -> CacheSpec.repr (cache ms) l -> Forall (fun x => Sequence x < b) l.*2 ->
  map_Forall (fun _ x => x = (version, version)) (stray ms) ->
  core ms (mkShape b 0 [] n [] 0 0) l.
Proof.
  intros Hf Hn Hpos Hb Hw H1 H2 H3 H4 H5 H6 H7 H8 H9 H10 H11 H12 H13 H14 H15 H16. split; cbn; try done.
  - exists sl. rewrite Hf, lookup_singleton_eq. split; [done|]. by apply new_slice_ok.
  - repeat constructor.
  - by repeat constructor.
  - rewrite Hf, dom_singleton_L. set_solver.
  - lia.
  - by rewrite H1.
  - lia.
  - unfold stored, before. cbn. lia.
  - intros m Hm. congruence.
  - intros m Hm. congruence.
  - destruct (bw ms); [done|]. by split.
  - eapply Forall_impl; [done|]. intros x Hx. cbn in Hx. unfold cached_ok, stored, before, window, live. cbn. split; [lia|]. intros. exfalso. lia.
Qed.

Definition push (n : Z) (s : shape) : shape := mkShape (base s) (rm s) (segs s ++ [(key s, all s)]) n [] 0 0.

Lemma push_facts n s :
  before (push n s) = stored s /\ stored (push n s) = stored s /\ live (push n s) = live s /\ keys (push n s) = keys s ++ [n] /\ wrm (push n s) = 0%nat.
Proof.
  assert (before (push n s) = stored s) as E.
  { unfold before, push, stored. cbn. rewrite fmap_app, join_app. cbn. by rewrite app_nil_r. }
  assert (stored (push n s) = stored s) as E2 by (unfold stored at 1; rewrite E; apply app_nil_r).
  split_and!; try done; [unfold live; by rewrite E2|unfold keys, push; cbn; by rewrite fmap_app|unfold wrm, push; cbn; by destruct (segs s)].
Qed.

(** A new slice to write to. *)
Record advanced (n : Z) (sl : fileSlice) (ms ms' : FileMsgStore) : Prop := {
  v_files : files ms' = <[n := sl]> (files ms);
  v_writeSlice : writeSlice ms' = Some n;
  v_firstSl : firstFSlSeq ms' = (if firstFSlSeq ms =? 0 then n else firstFSlSeq ms);
  v_lastSl : lastFSlSeq ms' = n;
  v_first : first ms' = first ms;
  v_last : FileMsg.last ms' = FileMsg.last ms;
  v_count : totalCount ms' = totalCount ms;
  v_bytes : totalBytes ms' = totalBytes ms;
  v_firstMsg : firstMsg ms' = firstMsg ms;
  v_lastMsg : lastMsg ms' = lastMsg ms;
  v_pend : pend ms' = [];
  v_seqs : bufferedSeqs ms' = bufferedSeqs ms;
  v_bufd : bufferedMsgs ms' = bufferedMsgs ms;
  v_buf : match bw ms' with Some _ => is_Some (wbuf ms') | None => wbuf ms' = None /\ bufferedMsgs ms' = ∅ end;
  v_mode : mode opts ms';
  v_cache : cache ms' = cache ms;
  v_stray : map_Forall (fun _ x => x = (version, version)) (stray ms')
}.

Lemma sorted_snoc (l : list Z) k : StronglySorted Z.lt (l ++ [k]) <-> StronglySorted Z.lt l /\ Forall (fun x => x < k) l.
Proof.
  induction l as [|x l IH]; cbn; [split; [by repeat constructor|intros _; repeat constructor]|]. split.
  - intros H. inversion H as [|? ? Hs Hf]; subst. apply IH in Hs as [Hs Hl]. apply Forall_app in Hf as [Hf1 Hf2].
    inversion Hf2; subst. split; by constructor.
  - intros [H1 H2]. inversion H1; inversion H2; subst. constructor; [apply IH; by split|]. apply Forall_app. split; [done|by constructor].
Qed.

Lemma keys_le ms s l x : core ms s l -> x ∈ keys s -> x <= key s.
Proof.
  intros H Hx. pose proof (c_keys _ _ _ _ _ H) as Hs. unfold keys in *. apply sorted_snoc in Hs as [_ Hs]. rewrite Forall_forall in Hs.
  apply elem_of_app in Hx as [Hx|Hx%list_elem_of_singleton]; [apply Hs in Hx|]; lia.
Qed.

Lemma core_push n sl ms ms' s l :
  core ms s l -> nd s = length (all s) -> ni s = length (all s) -> (wrm s < length (all s))%nat -> key s < n -> new_file sl ->
  advanced n sl ms ms' -> core ms' (push n s) l.
Proof.
  intros H Hnd Hni Hr Hn Hnew V. destruct (push_facts n s) as (P1 & P2 & P3 & P4 & P5).
  assert (files ms !! n = None) as Hfr.
  { apply not_elem_of_dom. rewrite (c_dom _ _ _ _ _ H), elem_of_list_to_set. intros Hin. apply (keys_le _ _ _ _ H) in Hin. lia. }
  assert (forall x, x ∈ keys s -> files ms' !! x = files ms !! x) as Hsame.
  { intros x Hx. rewrite (v_files _ _ _ _ V), lookup_insert_ne; [done|]. intros ->.
    assert (x ∈ dom (files ms)) as Hd by (rewrite (c_dom _ _ _ _ _ H); by apply elem_of_list_to_set). by apply not_elem_of_dom in Hd. }
  destruct (c_write _ _ _ _ _ H) as (slw & Hk & Ho). rewrite Hnd, Hni in Ho. pose proof (c_bufd _ _ _ _ _ H) as Hbd.
  pose proof (c_seqs _ _ _ _ _ H) as Hsq. rewrite Hni in Hbd, Hsq. rewrite drop_all in Hbd, Hsq.
  split; rewrite ?P2, ?P3, ?P4; try apply V.
  - unfold push. cbn. rewrite closed_ok_app. split.
    + eapply closed_ok_other; [|apply H]. intros x Hx. apply Hsame. unfold keys. apply elem_of_app. by left.
    + cbn. split; [|done]. exists slw. rewrite Hsame by (unfold keys; apply elem_of_app; right; by left). split; [done|].
      unfold wbase, before, wrm in *. by destruct (segs s).
  - exists sl. cbn. rewrite (v_files _ _ _ _ V), lookup_insert_eq, P5. split; [done|]. by apply new_slice_ok.
  - apply sorted_snoc. split; [apply H|]. apply Forall_forall. intros x Hx. apply (keys_le _ _ _ _ H) in Hx. lia.
  - apply Forall_app. split; [apply H|]. constructor; [|done]. pose proof (c_pos _ _ _ _ _ H) as Hp. unfold keys in Hp. apply Forall_app in Hp as [_ Hp].
    inversion Hp; lia.
  - rewrite (v_files _ _ _ _ V), dom_insert_L, (c_dom _ _ _ _ _ H), list_to_set_app_L. cbn. set_solver.
  - apply H.
  - rewrite (v_firstSl _ _ _ _ V). pose proof (c_firstSl _ _ _ _ _ H) as Hh. pose proof (c_pos _ _ _ _ _ H) as Hp.
    destruct (keys s) as [|x t]; [done|]. cbn in Hh |- *. injection Hh as <-. inversion Hp. destruct (Z.eqb_spec x 0); [lia|done].
  - rewrite (v_first _ _ _ _ V). apply H.
  - rewrite (v_last _ _ _ _ V). apply H.
  - rewrite (v_count _ _ _ _ V). apply H.
  - rewrite (v_bytes _ _ _ _ V). apply H.
  - intros m Hm. apply (c_firstMsg _ _ _ _ _ H). by rewrite <- (v_firstMsg _ _ _ _ V).
  - intros m Hm. apply (c_lastMsg _ _ _ _ _ H). by rewrite <- (v_lastMsg _ _ _ _ V).
  - by rewrite (v_seqs _ _ _ _ V), Hsq.
  - by rewrite (v_bufd _ _ _ _ V), Hbd.
  - rewrite (v_cache _ _ _ _ V). apply H.
  - eapply Forall_impl; [apply H|]. intros x [X1 X2]. split; [by rewrite P2|]. unfold window in *. by rewrite P3.
Qed.

(** ** Closing the files of the last slice *)

Lemma set_closed_spec p lk lk' ms s l :
  holds lk ms s l -> (p = Dat -> nd s = length (all s)) -> (forall x, x ∈ lk' <-> x ∈ lk /\ x <> (p, key s)) ->
  exists ms', set_state p (key s) fileClosed ms = (Ok tt, ms') /\ holds lk' ms' s l.
Proof.
  intros (H & Hst & W) Hp Hlk. destruct (c_write _ _ _ _ _ H) as (sl & Hk & _).
  rewrite (set_state_Some _ _ _ _ _ Hk). eexists. split; [done|].
  assert (frame ms (put (key s) (with_state p fileClosed sl) ms)) as F by (eapply frame_put; [done|apply with_state_same]).
  split; [by eapply core_frame|]. split.
  - intros k' sl' q Hk'. unfold put in Hk'. cbn [files set_files] in Hk'. unfold state_ok.
    apply lookup_insert_Some in Hk' as [[<- <-]|[Hne Hk']].
    + rewrite get_with_state. destruct (decide (q = p)) as [->|Hq].
      * rewrite (bool_decide_true (p = p)), bool_decide_false by (done || (rewrite Hlk; tauto)). by right.
      * rewrite (bool_decide_false (q = p)) by done. specialize (Hst _ _ q Hk). unfold state_ok in Hst.
        erewrite bool_decide_ext; [exact Hst|]. rewrite Hlk. split; [tauto|]. intros ?. split; [done|congruence].
    + specialize (Hst k' sl' q Hk'). unfold state_ok in Hst.
      erewrite bool_decide_ext; [exact Hst|]. rewrite Hlk. split; [tauto|]. intros ?. split; [done|congruence].
  - intros sl' Hk'. unfold put in Hk'. cbn [files set_files] in Hk'. rewrite lookup_insert_eq in Hk'. injection Hk' as <-.
    destruct p; cbn; [by rewrite bool_decide_true by done; apply Hp|]. apply (W sl Hk).
Qed.

Lemma closeLockedFiles_spec ms s l k :
  holds [(Idx, k); (Dat, k)] ms s l -> k = key s ->
  exists ms', closeLockedFiles opts k ms = (Ok tt, ms') /\ holds [] ms' (with_files (length (all s)) (length (all s)) s) l.
Proof.
  intros K ->. pose proof (proj1 K) as H. destruct (c_write _ _ _ _ _ H) as (sl & Hk & Ho).
  pose proof (so_msgs _ _ _ _ _ _ _ _ Ho) as Hok. pose proof (so_num _ _ _ _ _ _ _ _ Ho) as Hnum.
  assert (forall p lk ms s l sl, holds lk ms s l -> (p, key s) ∈ lk -> files ms !! key s = Some sl -> fstate (get_part p sl) = fileInUse) as Huse.
  { intros p lk x y z w (_ & Hst & _) Hin Hw. specialize (Hst _ _ p Hw). unfold state_ok in Hst. by rewrite bool_decide_true in Hst. }
  unfold closeLockedFiles, closeLockedFile. rewrite run_assoc, (run_slice _ _ _ _ Hk), bool_decide_true by (eapply Huse; [done| |done]; set_solver).
  unfold doClose. rewrite run_assoc. unfold beforeDataFileCloseCb, when. rewrite run_assoc, run_get, (is_write_key _ _ _ _ _ _ H), bool_decide_true by done.
  destruct (flush_buffer_spec (key s) (all s) Hok (nd s) (ni s) ms (core_wdisk _ _ _ H)) as (ms1 & E1 & W1 & O1).
  rewrite (run_bind _ _ _ _ _ E1). pose proof (holds_rewrote _ _ _ _ _ _ _ K O1 W1 (or_introl eq_refl)) as K1.
  destruct (set_closed_spec Dat [(Idx, key s); (Dat, key s)] [(Idx, key s)] ms1 _ l K1 (fun _ => eq_refl)) as (ms2 & E2 & K2).
  { intros x. rewrite !elem_of_cons. split; [intros [->|Hx%elem_of_nil]; [|done]; split; [by left|done]|]. intros [[->|[->|?%elem_of_nil]] Hne]; [by left|by destruct Hne|done]. }
  cbn [key with_files] in E2. rewrite (run_bind _ _ _ _ _ E2). destruct (c_write _ _ _ _ _ (proj1 K2)) as (sl2 & Hk2 & _). cbn [key with_files] in Hk2.
  rewrite (run_slice _ _ _ _ Hk2), bool_decide_true by (eapply (Huse Idx _ _ _ _ _ K2); [by left|done]).
  unfold doClose, beforeIndexFileCloseCb, when. rewrite run_assoc, run_get, (is_write_key _ _ _ _ _ _ (proj1 K2)), bool_decide_true by done.
  pose proof (core_wdisk _ _ _ (proj1 K2)) as W2. cbn [key all nd ni with_files] in W2.
  destruct (process_if_buffered_spec (key s) (wbase s) (all s) Hnum (ni s) ms2 W2) as (ms3 & E3 & W3 & O3). rewrite (run_bind _ _ _ _ _ E3).
  pose proof (holds_rewrote _ _ _ _ _ _ _ K2 O3 W3 (or_introl eq_refl)) as K3.
  destruct (set_closed_spec Idx [(Idx, key s)] [] ms3 _ l K3) as (ms4 & E4 & K4); [done| |by exists ms4].
  intros x. split; [intros Hx; by apply elem_of_nil in Hx|]. intros [->%list_elem_of_singleton ?]. done.
Qed.

(** ** Creating files *)

Lemma mode_closing ms ms' : mode opts ms -> closing ms ms' -> mode opts ms'.
Proof.
  intros [?|(B1 & B2 & B3)] C; [by left|right]. rewrite (f_bw _ _ (cl_frame _ _ C)), (cl_wbuf _ _ C), (f_bufd _ _ (cl_frame _ _ C)). done.
Qed.

Definition created : dfile * dfile := (mkDFile version fileInUse, mkDFile version fileInUse).

Lemma openFile_stray {A : Type} (f : A -> list byte) (x : option A) :
  (forall y, x = Some y -> f y = version) -> Rec.openFile (f <$> x) = Ok version.
Proof. intros H. destruct x as [y|]; [|done]. cbn [fmap option_fmap option_map]. by rewrite (H y eq_refl). Qed.

Lemma createFiles_spec n ms :
  mode opts ms -> map_Forall (fun _ x => x = (version, version)) (stray ms) ->
  exists ms1, createFiles opts pressure n ms = (Ok created, set_stray (delete n (stray ms)) ms1) /\ closing ms ms1 /\
    (wbuf ms = None \/ files ms1 = files ms).
Proof.
  intros Hm Hs. unfold createFiles. destruct (closeUnusedFiles_spec opts pressure ms Hm) as (a & Ea & Ca & Oa).
  rewrite (run_bind _ _ _ _ _ Ea), run_get, (f_stray _ _ (cl_frame _ _ Ca)).
  rewrite (openFile_stray fst), run_lift by (intros y Hy; by rewrite (Hs _ _ Hy)).
  destruct (closeUnusedFiles_spec opts pressure a (mode_closing _ _ Hm Ca)) as (c & Ec & Cc & Oc). rewrite (run_bind _ _ _ _ _ Ec).
  rewrite (openFile_stray snd), run_lift, run_modify by (intros y Hy; by rewrite (Hs _ _ Hy)).
  exists c. rewrite (f_stray _ _ (cl_frame _ _ Cc)), (f_stray _ _ (cl_frame _ _ Ca)). split; [done|]. split; [by eapply closing_trans|].
  rewrite (cl_wbuf _ _ Ca) in Oc. destruct Oa as [?|Oa]; [by left|]. destruct Oc as [?|Oc]; [by left|]. right. congruence.
Qed.

Lemma holds_closing lk ms ms' s l :
  holds lk ms s l -> closing ms ms' -> wbuf ms = None \/ files ms' = files ms -> holds lk ms' s l.
Proof.
  intros (H & Hst & W) C Hor. split; [eapply core_frame; [apply C|done]|]. split; [by eapply closing_states_ok|].
  eapply closing_writable; try done. destruct Hor as [Hw|E]; [left; unfold pend; by rewrite Hw|right]. intros x y Hx Hy. rewrite E in Hy. congruence.
Qed.

Lemma install_spec n ms :
  match bw ms with Some _ => True | None => wbuf ms = None /\ bufferedMsgs ms = ∅ end -> mode opts ms ->
  map_Forall (fun _ x => x = (version, version)) (stray ms) ->
  exists sl ms', install n created ms = (Ok tt, ms') /\ new_file sl /\ (forall p, fstate (get_part p sl) = fileInUse) /\
    advanced n sl ms ms' /\ wOffset ms' = 4.
Proof.
  intros Hb Hm Hs. set (sl := mkSlice (mkDFile version fileInUse) (mkDFile version fileInUse) 0 0 0 0 0 0 (timeTick ms)).
  unfold install. rewrite run_modify. cbn [firstFSlSeq set_writeSlice set_files fst snd created]. fold sl.
  set (ms1 := if firstFSlSeq ms =? 0 then _ else _).
  assert (files (set_lastFSlSeq n ms1) !! n = Some sl) as Hn.
  { unfold ms1. destruct (firstFSlSeq ms =? 0); cbn; by rewrite lookup_insert_eq. }
  unfold setFile. rewrite (run_slice _ _ _ _ Hn), run_modify. exists sl. eexists. split; [done|].
  assert (bw ms1 = bw ms /\ wbuf ms1 = wbuf ms /\ bufferedMsgs ms1 = bufferedMsgs ms) as (B1 & B2 & B3) by (unfold ms1; by destruct (_ =? _)).
  split; [done|]. split; [by intros []|]. cbn [bw set_lastFSlSeq]. rewrite B1. split; [|by destruct (bw ms)].
  unfold mode, pend in *. destruct (bw ms) as [b|] eqn:Eb.
  - split; unfold mode, pend; cbn; try (unfold ms1; by destruct (_ =? _)); [rewrite B1; by eexists|].
    destruct Hm as [?|(? & _)]; [by left|congruence].
  - destruct Hb as [Hb1 Hb2].
    split; unfold mode, pend; cbn; rewrite ?B1, ?B2, ?B3, ?Eb, ?Hb1, ?Hb2; try (unfold ms1; by destruct (_ =? _)); by right.
Qed.

Lemma holds_new n sl ms ms' s' l :
  states [] ms -> (forall x y, x <> n -> files ms' !! x = Some y -> files ms !! x = Some y) -> files ms' !! n = Some sl ->
  (forall p, fstate (get_part p sl) = fileInUse) -> wOffset ms' = 4 -> core ms' s' l -> key s' = n -> all s' = [] ->
  holds [(Idx, n); (Dat, n)] ms' s' l.
Proof.
  intros Hst Hf Hn Hu Ho H Hk Ha. split; [done|]. split.
  - intros x y p Hx. unfold state_ok. destruct (decide (x = n)) as [->|Hne].
    + assert (y = sl) as -> by congruence. rewrite Hu, bool_decide_true; [done|]. destruct p; set_solver.
    + rewrite bool_decide_false by set_solver. specialize (Hst x y p (Hf _ _ Hne Hx)). unfold state_ok in Hst.
      rewrite bool_decide_false in Hst by set_solver. done.
  - intros y Hy. rewrite Hk in Hy. assert (y = sl) as -> by congruence. pose proof (Hu Dat) as E. cbn in E.
    rewrite E, bool_decide_false by done. by rewrite Ho, Ha.
Qed.

(** The shape with a new slice: an old one without messages goes. *)
Definition next_shape (n : Z) (s : shape) : shape :=
  if bool_decide (segs s = []) && (rm s =? length (all s))%nat then mkShape (base s + Z.of_nat (length (all s))) 0 [] n [] 0 0 else push n s.

Lemma next_shape_facts n s : (rm s <= length (stored s))%nat ->
  window (next_shape n s) = window s /\ base (next_shape n s) + Z.of_nat (length (stored (next_shape n s))) = base s + Z.of_nat (length (stored s)) /\
  key (next_shape n s) = n /\ all (next_shape n s) = [] /\ base s <= base (next_shape n s).
Proof.
  intros Hr. unfold next_shape. case_bool_decide as Es; cbn [andb].
  - destruct (Nat.eqb_spec (rm s) (length (all s))) as [E|].
    + assert (stored s = all s) as Est by (unfold stored, before; by rewrite Es). unfold window, live. rewrite Est, E. cbn.
      rewrite drop_all. unfold stored. cbn. split_and!; try done; [f_equal; lia|unfold before; cbn; lia|lia].
    + destruct (push_facts n s) as (_ & P2 & P3 & _). unfold window. rewrite P2, P3. done.
  - destruct (push_facts n s) as (_ & P2 & P3 & _). unfold window. rewrite P2, P3. done.
Qed.

(** The last slice has lost all its messages. *)
Lemma core_restart n sl ms ms' s l :
  core ms s l -> segs s = [] -> rm s = length (all s) -> ni s = length (all s) -> 0 < n -> new_file sl -> advanced n sl ms ms' -> key s <> n ->
  core (set_firstFSlSeq n (set_files (delete (key s) (files ms')) ms')) (mkShape (base s + Z.of_nat (length (all s))) 0 [] n [] 0 0) l.
Proof.
  intros H Es Er Hni Hn Hnew V Hne. assert (stored s = all s) as Est by (unfold stored, before; by rewrite Es).
  assert (live s = []) as El by (unfold live; by rewrite Est, Er, drop_all). pose proof (c_base _ _ _ _ _ H) as [B1 B2]. rewrite Est in B2.
  assert (forall o : option MsgProto, (forall m, o = Some m -> False) -> o = None) as Hnone by (intros [m|] Ho; [by destruct (Ho m)|done]).
  destruct (c_write _ _ _ _ _ H) as (slw & Hk & _). assert (files ms = {[ key s := slw ]}) as Hf.
  { apply map_eq. intros x. destruct (decide (x = key s)) as [->|Hx]; [by rewrite lookup_singleton_eq|]. rewrite lookup_singleton_ne by done.
    apply not_elem_of_dom. rewrite (c_dom _ _ _ _ _ H). unfold keys. rewrite Es. cbn. set_solver. }
  eapply (core_fresh _ n _ sl); cbn; try done; try apply V; try lia.
  - rewrite (v_files _ _ _ _ V), Hf. apply map_eq. intros x. destruct (decide (x = key s)) as [->|Hx].
    + by rewrite lookup_delete_eq, lookup_singleton_ne.
    + rewrite lookup_delete_ne by done. destruct (decide (x = n)) as [->|Hx']; [by rewrite lookup_insert_eq, lookup_singleton_eq|].
      rewrite lookup_insert_ne by done. by rewrite !lookup_singleton_ne.
  - rewrite (v_first _ _ _ _ V), (c_first _ _ _ _ _ H). lia.
  - rewrite (v_last _ _ _ _ V), (c_last _ _ _ _ _ H), Est. lia.
  - by rewrite (v_count _ _ _ _ V), (c_count _ _ _ _ _ H), El.
  - by rewrite (v_bytes _ _ _ _ V), (c_bytes _ _ _ _ _ H), El.
  - rewrite (v_firstMsg _ _ _ _ V). apply Hnone. intros m Hm. apply (c_firstMsg _ _ _ _ _ H) in Hm. by rewrite El in Hm.
  - rewrite (v_lastMsg _ _ _ _ V). apply Hnone. intros m Hm. apply (c_lastMsg _ _ _ _ _ H) in Hm. by rewrite El in Hm.
  - by rewrite (v_seqs _ _ _ _ V), (c_seqs _ _ _ _ _ H), Hni, drop_all.
  - by rewrite (v_bufd _ _ _ _ V), (c_bufd _ _ _ _ _ H), Hni, drop_all.
  - pose proof (v_buf _ _ _ _ V) as Hb. destruct (bw ms'); [done|]. by destruct Hb.
  - rewrite (v_cache _ _ _ _ V). apply H.
  - eapply Forall_impl; [apply H|]. intros x [X _]. by rewrite Est in X.
Qed.

Lemma stray_delete n (m : gmap Z (list byte * list byte)) :
  map_Forall (fun _ x => x = (version, version)) m -> map_Forall (fun _ x => x = (version, version)) (delete n m).
Proof. intros H. by apply map_Forall_delete. Qed.

Lemma new_slice_spec ms s l k :
  holds [(Idx, k); (Dat, k)] ms s l -> k = key s -> all s <> [] ->
  exists ms', new_slice opts pressure (Some k) ms = (Ok (key s + 1), ms') /\
    holds [(Idx, key s + 1); (Dat, key s + 1)] ms' (next_shape (key s + 1) s) l.
Proof.
  intros K -> Hne. unfold new_slice. rewrite run_get, (c_lastSl _ _ _ _ _ (proj1 K)). cbv zeta. set (n := key s + 1) in *.
  destruct (closeLockedFiles_spec _ _ _ _ K eq_refl) as (ms1 & E1 & K1). rewrite (run_bind _ _ _ _ _ E1). set (s1 := with_files _ _ s) in *.
  destruct (createFiles_spec n ms1 (c_mode _ _ _ _ _ (proj1 K1)) (c_stray _ _ _ _ _ (proj1 K1))) as (ms2 & E2 & C2 & Hor).
  rewrite (run_bind _ _ _ _ _ E2). pose proof (holds_closing _ _ _ _ _ K1 C2 Hor) as K2. destruct K2 as (H2 & St2 & _).
  set (ms3 := set_stray _ ms2). pose proof (c_buf _ _ _ _ _ H2) as Hb2.
  destruct (install_spec n ms3) as (sl & ms4 & E4 & Hnew & Huse & V & Ho4).
  { unfold ms3. cbn. by destruct (bw ms2). } { apply H2. } { cbn. by apply stray_delete, (c_stray _ _ _ _ _ (proj1 K1)). }
  rewrite (run_bind _ _ _ _ _ E4), run_get.
  assert (advanced n sl ms2 ms4) as V' by (destruct V; by split). clear V. pose proof (c_pos _ _ _ _ _ H2) as Hpos.
  assert (0 < key s) as Hk0 by (unfold keys in Hpos; apply Forall_app in Hpos as [_ Hpos]; by inversion Hpos).
  destruct (c_write _ _ _ _ _ H2) as (slw & Hkw & How). cbn [key all s1 with_files] in Hkw, How.
  assert (files ms2 !! n = None) as Hfr.
  { apply not_elem_of_dom. rewrite (c_dom _ _ _ _ _ H2), elem_of_list_to_set. intros Hin. apply (keys_le _ _ _ _ H2) in Hin. cbn in Hin. lia. }
  assert (size (files ms4) = S (S (length (segs s)))) as Hsz.
  { rewrite (v_files _ _ _ _ V'), map_size_insert_None, (size_files _ _ _ _ _ H2) by done. done. }
  assert (files ms4 !! key s = Some slw) as Hkw4 by (rewrite (v_files _ _ _ _ V'), lookup_insert_ne by lia; done).
  assert (bool_decide (size (files ms4) = 2%nat) = bool_decide (segs s = [])) as Ebd.
  { apply bool_decide_ext. rewrite Hsz. destruct (segs s); simpl; split; try done; lia. }
  rewrite Ebd. unfold next_shape, when. destruct (bool_decide (segs s = [])) eqn:Es;
    [apply bool_decide_eq_true_1 in Es|apply bool_decide_eq_false_1 in Es]; cbn [andb].
  - rewrite run_assoc, (run_slice _ _ _ _ Hkw4), (so_count _ _ _ _ _ _ _ _ How), (so_rm _ _ _ _ _ _ _ _ How).
    assert (wrm s1 = rm s) as -> by (unfold wrm; cbn; by rewrite Es).
    destruct (Nat.eqb_spec (rm s) (length (all s))) as [Er|Er].
    + rewrite Er, Z.eqb_refl. rewrite (run_bind _ _ ms4 tt (set_firstFSlSeq n (set_files (delete (key s) (files ms4)) ms4))).
      * eexists. split; [done|]. eapply (holds_new n sl ms2); try done.
        -- intros x y Hx. cbn. intros Hy. apply lookup_delete_Some in Hy as [Hy1 Hy2].
           rewrite (v_files _ _ _ _ V'), lookup_insert_ne in Hy2 by done. done.
        -- cbn. rewrite lookup_delete_ne, (v_files _ _ _ _ V'), lookup_insert_eq by lia. done.
        -- by apply (core_restart n sl ms2 ms4 s1 l H2 Es Er eq_refl ltac:(lia) Hnew V' ltac:(cbn; lia)).
      * apply (removeFirstSlice_spec _ _ _ n slw).
        -- rewrite (v_firstSl _ _ _ _ V'). pose proof (c_firstSl _ _ _ _ _ H2) as Hh. unfold keys in Hh. cbn in Hh. rewrite Es in Hh. cbn in Hh.
           injection Hh as <-. destruct (Z.eqb_spec (key s) 0); [lia|done].
        -- done.
        -- unfold is_write_slice. rewrite (v_writeSlice _ _ _ _ V'). apply bool_decide_false. intros [= E]. lia.
        -- rewrite (v_lastSl _ _ _ _ V'). lia.
        -- rewrite (v_files _ _ _ _ V'), lookup_insert_eq. by eexists.
        -- intros x Hx. lia.
    + destruct (Z.eqb_spec (Z.of_nat (length (all s))) (Z.of_nat (rm s))); [lia|]. rewrite run_ret. eexists. split; [done|].
      eapply (holds_new n sl ms2); try done; [intros x y Hx; by rewrite (v_files _ _ _ _ V'), lookup_insert_ne by done
        |by rewrite (v_files _ _ _ _ V'), lookup_insert_eq|].
      eapply (core_push n sl ms2 ms4 s1); try done; [|cbn; lia]. pose proof (so_rm_le _ _ _ _ _ _ _ _ How). unfold wrm in *. cbn in *. rewrite Es in *. lia.
  - rewrite run_ret. eexists. split; [done|].
    eapply (holds_new n sl ms2); try done; [intros x y Hx; by rewrite (v_files _ _ _ _ V'), lookup_insert_ne by done
      |by rewrite (v_files _ _ _ _ V'), lookup_insert_eq|].
    eapply (core_push n sl ms2 ms4 s1); try done; [|cbn; lia]. unfold wrm. cbn. destruct (segs s); [done|]. destruct (all s); [done|simpl; lia].
Qed.
End Write.
End FileMsgWrite.
