(* ===== verification/FileMsgsStore.v ===== *)
(** * The message store in files as a window of messages

    [Store] adds a message to the window, with messages that fill the gap before it, and
    removes old ones as the limits say.  The store is empty, or it has a window; both are
    one predicate, [stable]. *)

From Stdlib Require Import ZArith Lia Ascii String Sorted.
From stdpp Require Import base list gmap strings.
From S2P Require Import Prelude Bytes Util GoLib Crc Proto ProtoSpec MemStore Records RecordsSpec FileSubs FilesManager Cache FileMsgs FileMsgsSpec FileMsgsRemove FileMsgsWrite.

Local Open Scope Z_scope.

Module FileMsgStoreSpec.
Import Crc CrcSpec Proto ProtoSpec Buffer Rec RecSpec FileOptions FM Cache FileMsg FileMsgSpec FileMsgRemove FileMsgWrite.

Section Store.
Context (opts : FileStoreOptions) (Hopts : FileOptions.valid opts) (limits : Mem.MsgStoreLimits) (channelName : string).
Context (codec : codec MsgProto) (nonempty : forall m, 0 < Sequence m -> c_put codec m <> []) `{!Lawful codec}.
Context (pressure : nat -> list (part * Z)).
Local Abbreviation core := (core opts codec).
Local Abbreviation holds := (holds opts codec).
Local Abbreviation msg_ok := (msg_ok codec).
Local Abbreviation Size := (Size codec).
Local Abbreviation msize := (msize codec).
Local Abbreviation fillers := (fillers channelName).

(** ** A store without messages *)

Record empty_ok (ms : FileMsgStore) : Prop := {
  z_files : files ms = ∅;
  z_writeSlice : writeSlice ms = None;
  z_firstSl : firstFSlSeq ms = 0;
  z_lastSl : lastFSlSeq ms = 0;
  z_first : first ms = 0;
  z_last : FileMsg.last ms = 0;
  z_count : totalCount ms = 0;
  z_bytes : totalBytes ms = 0;
  z_firstMsg : firstMsg ms = None;
  z_lastMsg : lastMsg ms = None;
  z_wbuf : wbuf ms = None;
  z_seqs : bufferedSeqs ms = [];
  z_bufd : bufferedMsgs ms = ∅;
  z_mode : mode opts ms;
  z_cache : CacheSpec.repr (cache ms) [];
  z_stray : map_Forall (fun _ x => x = (version, version)) (stray ms)
}.

Lemma new_slice_first ms b :
  empty_ok ms -> 0 < b < two64 ->
  exists ms', new_slice opts pressure None ms = (Ok 1, ms') /\ first ms' = 0 /\ FileMsg.last ms' = 0 /\
    holds [(Idx, 1); (Dat, 1)] (set_first b (set_last (b - 1) ms')) (mkShape b 0 [] 1 [] 0 0) [].
Proof.
  intros Z Hb. destruct Z. unfold new_slice. rewrite run_get, z_lastSl0, run_ret. cbv zeta. change (0 + 1) with 1.
  destruct (createFiles_spec opts pressure 1 ms z_mode0 z_stray0) as (ms2 & E2 & C2 & _). rewrite (run_bind _ _ _ _ _ E2).
  pose proof (mode_closing _ _ _ z_mode0 C2) as Hm2. destruct C2 as [F2 O2 B2 S2].
  assert (files ms2 = ∅) as Hf2.
  { apply map_empty. intros k. pose proof (f_files _ _ F2 k) as Hk. rewrite z_files0, lookup_empty in Hk. by inversion Hk. }
  set (ms3 := set_stray _ ms2).
  destruct (install_spec opts 1 ms3) as (sl & ms4 & E4 & Hnew & Huse & V & Ho4).
  { unfold ms3. cbn. rewrite B2, z_wbuf0, (f_bufd _ _ F2), z_bufd0. by destruct (bw ms2). } { done. } { cbn. by apply stray_delete. }
  rewrite (run_bind _ _ _ _ _ E4), run_get.
  assert (files ms4 = {[1 := sl]}) as Hf4 by (rewrite (v_files _ _ _ _ _ V); cbn; rewrite Hf2; apply insert_empty).
  unfold when. rewrite Hf4, map_size_singleton. cbn [bool_decide]. rewrite bool_decide_false by done. rewrite run_ret.
  exists ms4. destruct V. cbn [first FileMsg.last ms3 set_stray] in *. rewrite (f_first _ _ F2) in *. rewrite (f_last _ _ F2) in *.
  split; [done|]. split; [congruence|]. split; [congruence|].
  eapply holds_new with (n := 1) (sl := sl) (ms := ms2); try done.
  - intros k x p Hx. by rewrite Hf2 in Hx.
  - intros x y Hx. cbn. rewrite Hf4. rewrite lookup_singleton_ne by done. done.
  - cbn. by rewrite Hf4, lookup_singleton_eq.
  - eapply core_fresh with (sl := sl); cbn in *; rewrite ?(f_count _ _ F2), ?(f_bytes _ _ F2), ?(f_firstMsg _ _ F2), ?(f_lastMsg _ _ F2),
      ?(f_seqs _ _ F2), ?(f_bufd _ _ F2), ?(f_cache _ _ F2), ?(f_firstSl _ _ F2) in *; try done; try congruence.
    + by rewrite v_firstSl0, z_firstSl0.
    + destruct (bw ms4); [done|]. by destruct v_buf0.
Qed.

(** The write slice is locked, and unlocked. *)
Lemma lock_stable ms s l :
  holds [] ms s l -> exists ms', lockFiles opts pressure (key s) ms = (Ok tt, ms') /\ frame ms ms' /\ holds [(Idx, key s); (Dat, key s)] ms' s l.
Proof.
  intros K. destruct (c_write _ _ _ _ _ (proj1 K)) as (sl & Hk & _).
  apply (lockFiles_spec opts codec nonempty pressure [] (key s) sl ms s l K Hk); set_solver.
Qed.

Lemma unlock_stable ms s l :
  holds [(Idx, key s); (Dat, key s)] ms s l -> exists ms', unlockFiles (key s) ms = (Ok tt, ms') /\ holds [] ms' s l.
Proof.
  intros K. destruct (c_write _ _ _ _ _ (proj1 K)) as (sl & Hk & _).
  destruct (unlockFiles_spec opts codec (key s) [] ms s l K) as (ms' & E & _ & K'); [apply elem_of_dom; by eexists|set_solver..|].
  by exists ms'.
Qed.

(** ** Windows *)

Context (fillers_ok : forall ts seq, is_i64 ts -> 0 < seq < two64 - 1 -> msg_ok (filler channelName ts seq)).

(** The window after a message is stored. *)
Definition wstore (m : MsgProto) (w : option (Z * list MsgProto)) : option (Z * list MsgProto) :=
  if Sequence m <=? Window.wlast w then w
  else match w with
       | None => Some (Window.trim Size limits (Sequence m) [m])
       | Some (f, q) =>
           let next := Window.wlast w + 1 in
           Some (Window.trim Size limits f (q ++ fillers (Timestamp m) next (Z.to_nat (Sequence m - next)) ++ [m]))
       end.

(** The sequences that a store may get, from [low] on: those of a slice fit in a file. *)
Context (low : Z).
Definition in_range (m : MsgProto) : Prop := low <= Sequence m < low + 2147483647.

Definition stable (ms : FileMsgStore) (w : option (Z * list MsgProto)) : Prop :=
  match w with
  | None => empty_ok ms
  | Some (f, q) => exists s l, holds [] ms s l /\ all s <> [] /\ low <= wbase s /\ window s = (f, q)
  end.

Lemma stable_intro ms s l w : holds [] ms s l -> all s <> [] -> low <= wbase s -> window s = w -> stable ms (Some w).
Proof. intros K Hne Hlow <-. by exists s, l. Qed.

Lemma fits_count l : Forall msg_ok l -> Z.of_nat (length l) <= 2147483647 -> fits codec l.
Proof.
  intros Hl Hn. unfold fits. assert (rec_len codec l <= Z.of_nat (length l) * two32) as Hle.
  { clear Hn. induction Hl as [|m l Hm _ IH]; [done|]. cbn [rec_len length]. pose proof (msize_pos _ nonempty m Hm). unfold two32 in *. lia. }
  unfold two32, two63 in *. lia.
Qed.

Lemma wbase_end s : wbase s + Z.of_nat (length (all s)) = base s + Z.of_nat (length (stored s)).
Proof. unfold wbase, stored. rewrite length_app. lia. Qed.

Lemma window_last s : (rm s <= length (stored s))%nat -> Window.wlast (Some (window s)) = base s + Z.of_nat (length (stored s)) - 1.
Proof. intros H. unfold window, live. cbn. rewrite length_drop. lia. Qed.

Lemma length_fillers ts b n : length (fillers ts b n) = n.
Proof. unfold FileMsgWrite.fillers. rewrite length_fmap, length_seqZ. lia. Qed.

Lemma fillers_msg_ok ts b n : is_i64 ts -> 0 < b -> b + Z.of_nat n <= two64 - 1 -> Forall msg_ok (fillers ts b n).
Proof.
  intros Ht Hb Hn. apply Forall_forall. intros x Hx. unfold FileMsgWrite.fillers in Hx. apply list_elem_of_fmap in Hx as (i & -> & Hi).
  apply elem_of_seqZ in Hi. apply fillers_ok; [done|lia].
Qed.

Lemma trim_id f q : Mem.MaxMsgs limits <= 0 -> Mem.MaxBytes limits <= 0 -> Window.trim Size limits f q = (f, q).
Proof.
  intros H1 H2. destruct q as [|m q]; [done|]. cbn [Window.trim]. unfold Window.exceeds.
  destruct (Z.ltb_spec 0 (Mem.MaxMsgs limits)); [lia|]. destruct (Z.ltb_spec 0 (Mem.MaxBytes limits)); [lia|]. cbn. by rewrite andb_false_r.
Qed.

(** What follows once the slice to write to is known. *)
Lemma store_tail ms s l m f0 l0 :
  holds [(Idx, key s); (Dat, key s)] ms s l -> f0 = first ms \/ f0 = 0 /\ stored s = [] -> msg_ok m -> low <= wbase s -> in_range m ->
  Sequence m = base s + Z.of_nat (length (stored s)) ->
  exists ms' s' l',
    catch (recSize ← write_msg opts codec (key s) m;
           _ ← count_msg limits codec (key s) m recSize;
           when ((0 <? Mem.MaxMsgs limits) || (0 <? Mem.MaxBytes limits)) (enforceLimits opts limits pressure true false))
      (set_first f0 (set_last l0 ms)) = (Ok (inl tt), ms') /\
    holds [(Idx, key s); (Dat, key s)] ms' s' l' /\ key s' = key s /\ all s' <> [] /\ low <= wbase s' /\
    window s' = Window.trim Size limits (base s + Z.of_nat (rm s)) (live s ++ [m]).
Proof.
  intros K Hf0 Hm Hlow Hr Hs.
  assert (fits codec (all s ++ [m])) as Hfit.
  { apply fits_count; [apply Forall_app; split; [by eapply write_bounds, K|by constructor]|]. rewrite length_app. simpl.
    pose proof (wbase_end s). unfold in_range in Hr. lia. }
  destruct (append_msg_spec opts limits codec nonempty [(Idx, key s); (Dat, key s)] ms s l m f0 l0 K) as (ms1 & d & i & l' & E1 & K1);
    try done; [intros []; set_solver|].
  set (s1 := snoc m d i s) in *. assert (rm s <= length (stored s))%nat as Hrm by (eapply rm_le, K).
  assert (live s1 = live s ++ [m]) as El by by apply live_snoc.
  assert (exists ms2 s2, when ((0 <? Mem.MaxMsgs limits) || (0 <? Mem.MaxBytes limits)) (enforceLimits opts limits pressure true false) ms1 = (Ok tt, ms2) /\
    holds [(Idx, key s); (Dat, key s)] ms2 s2 l' /\ same_end s1 s2 /\ window s2 = Window.trim Size limits (base s + Z.of_nat (rm s)) (live s ++ [m]))
    as (ms2 & s2 & E2 & K2 & S2 & W2).
  { rewrite <- El. destruct ((0 <? Mem.MaxMsgs limits) || (0 <? Mem.MaxBytes limits)) eqn:Elim.
    - apply (enforceLimits_spec opts Hopts limits codec nonempty pressure true false _ ms1 s1 l' K1).
      intros k. cbn. split; [intros Hin; split; [done|]; set_solver|]. intros [_ ->]. set_solver.
    - apply orb_false_iff in Elim as [L1 L2]. apply Z.ltb_ge in L1, L2. exists ms1, s1. rewrite trim_id by done.
      split_and!; [done|done|apply same_end_refl|done]. }
  exists ms2, s2, l'. split.
  { apply catch_Ok. rewrite <- (run_assoc (write_msg opts codec (key s) m) (fun n => count_msg limits codec (key s) m n)
      (fun _ => when _ (enforceLimits opts limits pressure true false))). by rewrite (run_bind _ _ _ _ _ E1). }
  split; [done|]. pose proof (e_all _ _ S2) as Ea. pose proof (e_end _ _ S2) as Ee.
  split; [apply S2|]. rewrite Ea. split; [subst s1; cbn; by destruct (all s)|]. split; [|done].
  pose proof (wbase_end s2) as B2. rewrite Ea, Ee in B2. pose proof (wbase_end s1) as B1. change (wbase s1) with (wbase s) in B1. lia.
Qed.

Lemma set_first_last_id ms : set_first (first ms) (set_last (FileMsg.last ms) ms) = ms.
Proof. by destruct ms. Qed.

Lemma fill_spec ms s l m :
  holds [(Idx, key s); (Dat, key s)] ms s l -> all s <> [] -> low <= wbase s -> msg_ok m -> in_range m ->
  base s + Z.of_nat (length (stored s)) <= Sequence m ->
  exists ms' s', when ((0 <? FileMsg.last ms) && (u64 (FileMsg.last ms + 1) <? Sequence m)) (fillGaps opts channelName codec (key s) m) ms = (Ok tt, ms') /\
    holds [(Idx, key s); (Dat, key s)] ms' s' l /\ key s' = key s /\ all s' <> [] /\ wbase s' = wbase s /\
    window s' = (base s + Z.of_nat (rm s), live s ++ gap channelName m s) /\ base s' + Z.of_nat (length (stored s')) = Sequence m.
Proof.
  intros K Hne Hlow Hm Hr Hle. pose proof (proj1 K) as H. pose proof (c_base _ _ _ _ _ H) as [B1 B2].
  pose proof (ok_seq _ _ Hm) as Hq. set (e := base s + Z.of_nat (length (stored s))) in *.
  assert (1 < e) as He by (unfold e, stored; rewrite length_app; destruct (all s); [done|simpl; lia]).
  rewrite (c_last _ _ _ _ _ H). fold e. replace (e - 1 + 1) with e by lia. rewrite u64_small by (unfold is_u64; lia).
  destruct (Z.ltb_spec 0 (e - 1)); [cbn [andb]|lia]. assert (rm s <= length (stored s))%nat as Hrm by (eapply rm_le, K).
  destruct (Z.ltb_spec e (Sequence m)) as [Hlt|Hge]; cbn [when].
  - assert (Forall msg_ok (gap channelName m s)) as Hg.
    { unfold gap. fold e. apply fillers_msg_ok; [apply Hm|lia|lia]. }
    assert (length (gap channelName m s) = Z.to_nat (Sequence m - e)) as Hgl by (unfold gap; apply length_fillers).
    destruct (fillGaps_spec opts channelName codec nonempty _ ms s l m K) as (ms1 & E1 & K1); try done.
    { intros []; set_solver. }
    { apply fits_count; [apply Forall_app; split; [by eapply write_bounds, K|done]|]. rewrite length_app, Hgl.
      pose proof (wbase_end s). fold e in H0. unfold in_range in Hr. lia. }
    exists ms1, (extend (gap channelName m s) s). assert (stored (extend (gap channelName m s) s) = stored s ++ gap channelName m s) as Es.
    { unfold stored, extend. cbn. unfold before. cbn. by rewrite app_assoc. }
    split; [done|]. split; [done|]. split; [done|]. split; [cbn; by destruct (all s)|]. split; [done|]. split.
    + unfold window, live. rewrite Es, drop_app_le by done. done.
    + rewrite Es, length_app, Hgl. cbn. unfold e. lia.
  - exists ms, s. assert (gap channelName m s = []) as ->.
    { unfold gap. fold e. replace (Z.to_nat (Sequence m - e)) with 0%nat by lia. done. }
    rewrite app_nil_r. split_and!; try done. fold e. lia.
Qed.

Lemma current_slice_spec ms s l :
  holds [(Idx, key s); (Dat, key s)] ms s l -> all s <> [] -> low <= wbase s ->
  exists ms' s', current_slice opts limits pressure ms = (Ok (key s'), ms') /\
    holds [(Idx, key s'); (Dat, key s')] ms' s' l /\ low <= wbase s' /\ window s' = window s /\
    base s' + Z.of_nat (length (stored s')) = base s + Z.of_nat (length (stored s)).
Proof.
  intros K Hne Hlow. unfold current_slice. rewrite run_get, (c_writeSlice _ _ _ _ _ (proj1 K)).
  destruct (c_write _ _ _ _ _ (proj1 K)) as (sl & Hk & _). rewrite (run_slice _ _ _ _ Hk).
  destruct (slice_full _ _ _ _); [|exists ms, s; split_and!; done].
  destruct (new_slice_spec opts Hopts codec nonempty pressure ms s l (key s) K eq_refl Hne) as (ms' & E & K').
  assert (rm s <= length (stored s))%nat as Hrm by (eapply rm_le, K).
  destruct (next_shape_facts (key s + 1) s Hrm) as (N1 & N2 & N3 & N4 & _).
  exists ms', (next_shape (key s + 1) s). rewrite N3. split; [done|]. split; [done|]. split; [|done].
  pose proof (wbase_end (next_shape (key s + 1) s)) as B. rewrite N4, N2 in B. pose proof (wbase_end s). simpl in B. lia.
Qed.

Lemma holds_sync lk ms s l b : holds lk ms s l -> holds lk (set_needSync b ms) s l.
Proof. by apply holds_frame. Qed.

Lemma file_Store_spec ms w m :
  stable ms w -> msg_ok m -> in_range m -> exists ms', Store opts limits channelName codec pressure m ms = (Ok (Sequence m), ms') /\ stable ms' (wstore m w).
Proof.
  intros St Hm Hr. pose proof (ok_seq _ _ Hm) as Hq. unfold Store, wstore. rewrite run_get. destruct w as [[f q]|].
  - destruct St as (s & l & K & Hne & Hlow & Hw). assert (rm s <= length (stored s))%nat as Hrm by (eapply rm_le, K).
    rewrite <- Hw, window_last, (c_last _ _ _ _ _ (proj1 K)) by done.
    destruct (Z.leb_spec (Sequence m) (base s + Z.of_nat (length (stored s)) - 1)) as [Hle|Hgt].
    { exists ms. split; [done|]. rewrite Hw. by exists s, l. }
    rewrite (c_writeSlice _ _ _ _ _ (proj1 K)), <- (c_last _ _ _ _ _ (proj1 K)). destruct (lock_stable _ _ _ K) as (ms1 & E1 & F1 & K1).
    rewrite (run_bind _ _ _ _ _ E1), run_modify, <- (f_last _ _ F1). apply (holds_sync _ _ _ _ true) in K1.
    change (FileMsg.last ms1) with (FileMsg.last (set_needSync true ms1)).
    destruct (fill_spec _ _ _ m K1 Hne Hlow Hm Hr ltac:(lia)) as (ms2 & s2 & E2 & K2 & Ek2 & Hne2 & Hb2 & Hw2 & He2).
    rewrite (run_bind _ _ _ _ _ E2). rewrite <- Ek2 in K2.
    destruct (current_slice_spec _ _ _ K2 Hne2 ltac:(lia)) as (ms3 & s3 & E3 & K3 & Hlow3 & Hw3 & He3). rewrite (run_bind _ _ _ _ _ E3).
    destruct (store_tail ms3 s3 l m (first ms3) (FileMsg.last ms3) K3 (or_introl eq_refl) Hm Hlow3 Hr ltac:(lia))
      as (ms4 & s4 & l4 & E4 & K4 & Ek4 & Hne4 & Hlow4 & Hw4). rewrite set_first_last_id in E4. rewrite (run_bind _ _ _ _ _ E4).
    rewrite <- Ek4 in K4. destruct (unlock_stable _ _ _ K4) as (ms5 & E5 & K5). rewrite <- Ek4, (run_bind _ _ _ _ _ E5).
    exists ms5. split; [done|]. apply (stable_intro _ s4 l4); [done..|].
    rewrite Hw4. rewrite Hw2 in Hw3. unfold window in Hw3. injection Hw3 as -> ->. unfold window in Hw. injection Hw as -> <-.
    rewrite <- app_assoc, (c_last _ _ _ _ _ (proj1 K1)). unfold gap. do 3 f_equal. f_equal; [lia|f_equal; lia].
  - pose proof St as [? Zw ? ? Zf Zl ? ? ? ? ? ? ? ? ? ?]. rewrite Zl. cbn [Window.wlast]. destruct (Z.leb_spec (Sequence m) 0) as [|_]; [lia|].
    rewrite Zw, run_ret, run_modify. cbn [Z.ltb Z.compare andb when]. unfold when. rewrite run_ret.
    unfold current_slice. rewrite run_assoc, run_get. cbn [writeSlice set_needSync]. rewrite Zw.
    destruct (new_slice_first (set_needSync true ms) (Sequence m)) as (ms1 & E1 & F1 & L1 & K1); [by destruct St|lia|].
    rewrite (run_bind _ _ _ _ _ E1).
    destruct (store_tail _ _ _ m 0 0 K1) as (ms4 & s4 & l4 & E4 & K4 & Ek4 & Hne4 & Hlow4 & Hw4); try done; [by right|unfold in_range in Hr; unfold wbase; cbn; lia|unfold stored, before; cbn; lia|].
    replace (set_first 0 (set_last 0 _)) with ms1 in E4 by (rewrite <- F1 at 1; rewrite <- L1 at 1; by destruct ms1).
    rewrite (run_bind _ _ _ _ _ E4). rewrite <- Ek4 in K4. destruct (unlock_stable _ _ _ K4) as (ms5 & E5 & K5). cbn [key] in Ek4.
    rewrite <- Ek4, (run_bind _ _ _ _ _ E5). exists ms5. split; [done|]. apply (stable_intro _ s4 l4); [done..|].
    rewrite Hw4. cbn. by rewrite Z.add_0_r.
Qed.
End Store.
End FileMsgStoreSpec.
