(* ===== verification/FileMsgsLookup.v ===== *)
(** * Looking up messages in files

    [Lookup], [FirstMsg] and [LastMsg] of [FileMsgStore] find the messages of the window in
    the cache, in the buffer or in the files, one at a time or several at once, and keep
    the invariant of [FileMsgsSpec.v]. *)

From Stdlib Require Import ZArith Lia Ascii String Sorted.
From stdpp Require Import base list gmap strings.
From S2P Require Import Prelude Bytes Util GoLib Crc Proto ProtoSpec MemStore Records RecordsSpec FileSubs FilesManager Cache FileMsgs FileMsgsSpec FileMsgsRemove FileMsgsWrite FileMsgsStore.

Local Open Scope Z_scope.

Module FileMsgLookup.
Import Crc CrcSpec Proto ProtoSpec Buffer Rec RecSpec FileOptions FM Cache FileMsg FileMsgSpec FileMsgRemove FileMsgWrite FileMsgStoreSpec.

Section Lookup.
Context (opts : FileStoreOptions) (Hopts : FileOptions.valid opts).
Context (codec : codec MsgProto) (nonempty : forall m, 0 < Sequence m -> c_put codec m <> []) `{!Lawful codec}.
Context (pressure : nat -> list (part * Z)).
Local Abbreviation core := (core opts codec).
Local Abbreviation holds := (holds opts codec).
Local Abbreviation slice_ok := (slice_ok opts codec).
Local Abbreviation msg_ok := (msg_ok codec).
Local Abbreviation msize := (msize codec).

(** ** Where a sequence is *)

(** All slices, with their messages. *)
Definition slices (s : shape) : list (Z * list MsgProto) := segs s ++ [(key s, all s)].

Lemma slices_keys s : (slices s).*1 = keys s.
Proof. unfold slices, keys. by rewrite fmap_app. Qed.
Lemma slices_stored s : mjoin (slices s).*2 = stored s.
Proof. unfold slices, stored, before. rewrite fmap_app, join_app. cbn. by rewrite app_nil_r. Qed.

Lemma located_split s k b al r d i :
  located s k b al r d i ->
  exists pre post, slices s = pre ++ (k, al) :: post /\ b = base s + Z.of_nat (length (mjoin pre.*2)) /\
    r = (match pre with [] => rm s | _ => 0%nat end).
Proof.
  intros [(pre & post & Es & -> & -> & _)|(-> & -> & -> & -> & _)].
  - exists pre, (post ++ [(key s, all s)]). unfold slices. by rewrite Es, <- app_assoc.
  - exists (segs s), []. unfold slices, wbase, wrm, before. by split_and!.
Qed.

Lemma split_located s pre k al post :
  slices s = pre ++ (k, al) :: post ->
  exists d i, located s k (base s + Z.of_nat (length (mjoin pre.*2))) al (match pre with [] => rm s | _ => 0%nat end) d i.
Proof.
  intros E. unfold slices in E. destruct post as [|x post _] using rev_ind.
  - apply app_inj_tail in E as [E1 E2]. injection E2 as <- <-. exists (nd s), (ni s). right. rewrite <- E1. done.
  - change (pre ++ (k, al) :: post ++ [x]) with (pre ++ ((k, al) :: post) ++ [x]) in E. rewrite app_assoc in E.
    apply app_inj_tail in E as [E1 E2]. exists (length al), (length al). left. exists pre, post. done.
Qed.

(** The sequences of two slices are disjoint. *)
Lemma located_disjoint s k1 b1 al1 r1 d1 i1 k2 b2 al2 r2 d2 i2 :
  located s k1 b1 al1 r1 d1 i1 -> located s k2 b2 al2 r2 d2 i2 ->
  k1 = k2 \/ b1 + Z.of_nat (length al1) <= b2 \/ b2 + Z.of_nat (length al2) <= b1.
Proof.
  intros H1 H2. apply located_split in H1 as (p1 & q1 & E1 & -> & _). apply located_split in H2 as (p2 & q2 & E2 & -> & _).
  rewrite E1 in E2. apply app_eq_inv in E2 as [(t & -> & E)|(t & -> & E)]; destruct t as [|y t]; cbn in E; injection E as E; try (by left).
  - right. right. subst y. rewrite fmap_app, join_app. cbn. rewrite !length_app. lia.
  - right. left. subst y. rewrite fmap_app, join_app. cbn. rewrite !length_app. lia.
Qed.

Lemma covers_located ms s l k b al r d i sl seq :
  core ms s l -> located s k b al r d i -> files ms !! k = Some sl -> 0 < seq ->
  covers seq sl = true <-> b + Z.of_nat r <= seq < b + Z.of_nat (length al).
Proof.
  intros H Hloc Hk Hs. destruct (located_slice _ _ _ _ _ _ _ _ _ _ _ H Hloc) as (sl' & Hk' & Ho). assert (sl' = sl) as -> by congruence.
  unfold covers. rewrite andb_true_iff, !Z.leb_le. destruct (decide (al = [])) as [->|Hne].
  - destruct (so_new _ _ _ _ _ _ _ _ Ho eq_refl) as [-> ->]. pose proof (so_rm_le _ _ _ _ _ _ _ _ Ho). simpl in *. lia.
  - rewrite (so_first _ _ _ _ _ _ _ _ Ho Hne), (so_last _ _ _ _ _ _ _ _ Ho Hne). lia.
Qed.

(** Every slice of the map is in the shape. *)
Lemma files_located ms s l k sl :
  core ms s l -> files ms !! k = Some sl -> exists b al r d i, located s k b al r d i.
Proof.
  intros H Hk. assert (k ∈ (slices s).*1) as Hin.
  { rewrite slices_keys. assert (k ∈ dom (files ms)) as Hd by (apply elem_of_dom; by eexists).
    rewrite (c_dom _ _ _ _ _ H) in Hd. by apply elem_of_list_to_set in Hd. }
  apply list_elem_of_fmap in Hin as ([k' al] & -> & Hin). apply list_elem_of_split in Hin as (pre & post & E).
  destruct (split_located _ _ _ _ _ E) as (d & i & Hloc). by eexists _, _, _, _, _.
Qed.

Lemma lookup_join_split (t : list (Z * list MsgProto)) n m :
  mjoin t.*2 !! n = Some m ->
  exists pre k al post j, t = pre ++ (k, al) :: post /\ al !! j = Some m /\ n = (length (mjoin pre.*2) + j)%nat.
Proof.
  revert n. induction t as [|[k al] t IH]; intros n Hl; [done|]. cbn in Hl.
  apply lookup_app_Some in Hl as [Hl|[Hge Hl]]; [exists [], k, al, t, n; by split_and!|].
  destruct (IH _ Hl) as (pre & k' & al' & post & j & -> & Hj & En). exists ((k, al) :: pre), k', al', post, j.
  split; [done|]. split; [done|]. change (mjoin ((k, al) :: pre).*2) with (al ++ mjoin pre.*2). rewrite length_app. lia.
Qed.

(** The slice of a message of the window. *)
Lemma find_located s seq m :
  Window.lookup (Some (window s)) seq = Some m -> (rm s <= length (stored s))%nat ->
  exists k b al r d i j, located s k b al r d i /\ al !! j = Some m /\ b + Z.of_nat j = seq /\ base s + Z.of_nat (rm s) <= seq.
Proof.
  intros Hl Hr. unfold Window.lookup, window in Hl. destruct (Z.leb_spec (base s + Z.of_nat (rm s)) seq) as [Hle|]; [|done].
  unfold live in Hl. rewrite lookup_drop, <- slices_stored in Hl. set (n := (rm s + _)%nat) in Hl.
  destruct (lookup_join_split _ _ _ Hl) as (pre & k & al & post & j & E & Hj & En).
  destruct (split_located _ _ _ _ _ E) as (d & i & Hloc). eexists k, _, al, _, d, i, j. split; [done|]. split; [done|]. subst n. lia.
Qed.

(** The messages that were removed are before the window. *)
Lemma located_live ms s l k b al r d i j :
  core ms s l -> located s k b al r d i -> base s + Z.of_nat (rm s) <= b + Z.of_nat j -> (r <= j)%nat.
Proof. intros H Hloc Hle. apply located_split in Hloc as (pre & post & _ & -> & ->). destruct pre; simpl in *; lia. Qed.

Lemma getFileSliceForSeq_spec `{!RangeOrder Z} ms s l seq k b al r d i :
  core ms s l -> located s k b al r d i -> b + Z.of_nat r <= seq < b + Z.of_nat (length al) -> 0 < seq ->
  getFileSliceForSeq seq ms = (Ok (Some k), ms).
Proof.
  intros H Hloc Hs Hpos. destruct (located_slice _ _ _ _ _ _ _ _ _ _ _ H Hloc) as (sl & Hk & Ho).
  assert (forall k' sl', files ms !! k' = Some sl' -> covers seq sl' = true -> k' = k) as Huniq.
  { intros k' sl' Hk' Hc. destruct (files_located _ _ _ _ _ H Hk') as (b' & al' & r' & d' & i' & Hloc').
    apply (covers_located _ _ _ _ _ _ _ _ _ _ _ H Hloc' Hk' Hpos) in Hc.
    destruct (located_disjoint _ _ _ _ _ _ _ _ _ _ _ _ _ Hloc Hloc') as [->|[?|?]]; [done|lia|lia]. }
  unfold getFileSliceForSeq. rewrite run_get, bool_decide_false by (intros E; by rewrite E in Hk).
  rewrite (c_writeSlice _ _ _ _ _ H). destruct (c_write _ _ _ _ _ H) as (slw & Hw & _). rewrite (run_slice _ _ _ _ Hw).
  destruct (covers seq slw) eqn:Ec; [by rewrite (Huniq _ _ Hw Ec)|].
  assert (covers seq sl = true) as Hc by (by apply (covers_located _ _ _ _ _ _ _ _ _ _ _ H Hloc Hk Hpos)).
  unfold find_slice. destruct (filter _ _) as [|[k' sl'] t] eqn:Ef.
  - exfalso. assert ((k, sl) ∈ filter (fun kx : Z * fileSlice => covers seq kx.2 = true) (range (files ms))) as Hin.
    { apply list_elem_of_filter. split; [done|]. by apply elem_of_range. }
    rewrite Ef in Hin. by apply elem_of_nil in Hin.
  - assert ((k', sl') ∈ filter (fun kx : Z * fileSlice => covers seq kx.2 = true) (range (files ms))) as Hin by (rewrite Ef; by left).
    apply list_elem_of_filter in Hin as [Hc' Hin]. apply elem_of_range in Hin. cbn. by rewrite (Huniq _ _ Hin Hc').
Qed.

(** ** The cache *)

Lemma cached_stored s x :
  MemSpec.numbered (base s) (stored s) -> x ∈ stored s -> cached_ok s x.
Proof.
  intros Hn Hx. apply list_elem_of_lookup in Hx as [i Hi]. pose proof (Hn _ _ Hi) as Hs. apply lookup_lt_Some in Hi as Hlt.
  split; [lia|]. intros Hle. unfold window, Window.lookup, live. destruct (Z.leb_spec (base s + Z.of_nat (rm s)) (Sequence x)); [|lia].
  rewrite lookup_drop. rewrite <- Hi. f_equal. lia.
Qed.

Lemma located_elem ms s l k b al r d i x : core ms s l -> located s k b al r d i -> x ∈ al -> cached_ok s x.
Proof.
  intros H Hloc Hx. apply cached_stored; [by eapply core_numbered|]. destruct (located_stored _ _ _ _ _ _ _ Hloc) as (l1 & l2 & -> & _).
  apply elem_of_app. right. apply elem_of_app. by left.
Qed.

Lemma holds_cache lk ms s l l' c :
  holds lk ms s l -> CacheSpec.repr c l' -> Forall (cached_ok s) l'.*2 -> holds lk (set_cache c ms) s l'.
Proof. intros ([] & Hst & W) Hc Hf. split; [by split|]. by split. Qed.

Lemma cached_elem ms s l x : core ms s l -> x ∈ l.*2 -> cached_ok s x.
Proof. intros H Hx. pose proof (c_cached _ _ _ _ _ H) as Hf. rewrite Forall_forall in Hf. by apply Hf. Qed.

(** Adding a message that is stored. *)
Lemma add_spec lk ms s l now m isNew checkPresent :
  holds lk ms s l -> cached_ok s m -> (checkPresent = false -> Sequence m ∉ Lru.seqs l) ->
  exists ms', on_cache (fun c => c ← add now (Sequence m) m isNew checkPresent c; Ok (tt, c)) ms = (Ok tt, ms') /\
    holds lk ms' s (Lru.add now m isNew checkPresent l).
Proof.
  intros K Hm Hn. destruct (CacheSpec.add_holds now m isNew checkPresent (cache ms) l (c_cache _ _ _ _ _ (proj1 K)) Hn) as (c & E & Hc).
  exists (set_cache c ms). split; [apply on_cache_Ok; by rewrite E|]. eapply holds_cache; [done|done|].
  apply Forall_forall. intros x Hx. apply CacheSpec.lru_add_elems in Hx as [->|Hx]; [done|]. eapply cached_elem; [apply K|done].
Qed.

Lemma get_spec lk ms s l now seq :
  holds lk ms s l -> exists ms', on_cache (get now seq) ms = (Ok (Lru.get now seq l).1, ms') /\ holds lk ms' s (Lru.get now seq l).2 /\ frame (set_cache (cache ms') ms) ms' /\ bufferedMsgs ms' = bufferedMsgs ms.
Proof.
  intros K. destruct (CacheSpec.get_holds now seq (cache ms) l (c_cache _ _ _ _ _ (proj1 K))) as (c & E & Hc).
  exists (set_cache c ms). split; [by apply on_cache_Ok|]. split; [|split; [reflexivity|done]]. eapply holds_cache; [done|done|].
  rewrite CacheSpec.lru_get_elems. apply K.
Qed.

(** ** Reading one message *)

Lemma in_use_spec lk ms s l p k sl : holds lk ms s l -> (p, k) ∈ lk -> files ms !! k = Some sl -> fstate (get_part p sl) = fileInUse.
Proof. intros (_ & Hst & _) Hin Hk. specialize (Hst _ _ p Hk). unfold state_ok in Hst. by rewrite bool_decide_true in Hst. Qed.

Lemma record_at b al r d i sl j m :
  slice_ok b al r d i sl -> al !! j = Some m -> (j < d)%nat ->
  exists rest, drop (Z.to_nat (4 + rec_len codec (take j al))) (content (file sl)) = enc opts codec m ++ rest.
Proof.
  intros Ho Hj Hlt. pose proof (so_msgs _ _ _ _ _ _ _ _ Ho) as Hok. rewrite (so_dat _ _ _ _ _ _ _ _ Ho).
  replace (take j al) with (take j (take d al)) by (rewrite take_take; f_equal; lia).
  rewrite (drop_dat opts codec _ j (Forall_take _ _ _ Hok)).
  rewrite (drop_S _ m) by (by rewrite lookup_take_lt). unfold FileMsgSpec.records. rewrite bind_cons. by eexists.
Qed.

Lemma unlock_spec k ms s l : holds [(Idx, k); (Dat, k)] ms s l -> k ∈ dom (files ms) ->
  exists ms', unlockFiles k ms = (Ok tt, ms') /\ frame ms ms' /\ holds [] ms' s l.
Proof. intros K Hk. apply (unlockFiles_spec opts codec k [] ms s l K Hk); set_solver. Qed.

Lemma read_one_spec now ms s l k b al r d i j m :
  holds [(Idx, k); (Dat, k)] ms s l -> located s k b al r d i -> al !! j = Some m -> (r <= j < i)%nat -> Sequence m ∉ Lru.seqs l ->
  exists ms' l', read_one opts codec now k (Sequence m) ms = (Ok (Some m), ms') /\ holds [] ms' s l'.
Proof.
  intros K Hloc Hj Hr Hn. pose proof (proj1 K) as H. destruct (located_slice _ _ _ _ _ _ _ _ _ _ _ H Hloc) as (sl & Hk & Ho).
  destruct (located_seq _ _ _ _ _ _ _ _ _ _ _ _ _ H Hloc Hj) as (Hs & Hu & _). pose proof (so_msgs _ _ _ _ _ _ _ _ Ho) as Hok.
  pose proof (Forall_lookup_1 _ _ _ _ Hok Hj) as Hm. pose proof (so_bounds _ _ _ _ _ _ _ _ Ho) as Hb.
  unfold read_one. 
  assert ((i ← readMsgIndex opts k (Sequence m);
           match i with
           | None => mret None
           | Some i => sl ← slice_at k;
               if offset i <? 0 then fail InvalidSeek
               else payload ← lift (readMsgRecord opts (drop (Z.to_nat (offset i)) (content (file sl))) (msgSize i)); mret (Some payload)
           end : M (option (list byte))) ms = (Ok (Some (c_put codec m)), ms)) as E1.
  { rewrite (run_bind _ _ _ _ _ (readMsgIndex_spec opts Hopts codec nonempty ms k sl b al r d i j m Hk Ho
      (in_use_spec _ _ _ _ Idx k sl K ltac:(set_solver) Hk) Hj Hr Hu)).
    rewrite (run_slice _ _ _ _ Hk). cbn [offset msgSize index_of]. pose proof (rec_len_nonneg _ nonempty _ (Forall_take _ j _ Hok)).
    destruct (Z.ltb_spec (4 + rec_len codec (take j al)) 0); [lia|]. destruct (record_at _ _ _ _ _ _ _ _ Ho Hj ltac:(lia)) as [rest ->].
    rewrite (readMsgRecord_ok opts Hopts codec nonempty m rest Hm), run_lift. done. }
  rewrite (run_bind _ _ _ _ _ (catch_Ok _ _ _ _ E1)).
  destruct (unlock_spec k ms s l K) as (ms1 & E2 & F1 & K1); [apply elem_of_dom; by eexists|].
  rewrite (run_bind _ _ _ _ _ E2), (unmarshal_msg _ _ Hm), run_lift.
  destruct (add_spec [] ms1 s l now m false false K1) as (ms2 & E3 & K2); [|done|].
  { eapply (located_elem ms); [done|done|]. by eapply list_elem_of_lookup_2. }
  rewrite (run_bind _ _ _ _ _ E3). by eexists ms2, _.
Qed.

(** ** Reading several messages at once *)

Lemma readIndexFromBuffer_app a rest : length a = 32%nat -> readIndexFromBuffer opts (a ++ rest) = readIndexFromBuffer opts a.
Proof.
  intros Ha. unfold readIndexFromBuffer.
  rewrite !drop_app_le by lia. rewrite !take_app_le by (rewrite ?length_drop; lia). done.
Qed.

Lemma scan_indexes_spec xs n i off total rest b :
  Forall msg_ok xs -> MemSpec.numbered b xs -> 0 < b -> 0 <= off -> off + rec_len codec xs < two63 -> length xs = n ->
  exists t, (t <= n)%nat /\ ((i = 0)%nat -> (0 < n)%nat -> (0 < t)%nat) /\
    scan_indexes opts n i (indexes opts codec off xs ++ rest) b total = Ok ((if (t =? 0)%nat then 0 else off), msize <$> take t xs).
Proof.
  revert n i off total b. induction xs as [|m xs IH]; intros n i off total b Hok Hn Hb Hoff Hfit Hl.
  { destruct n; [|done]. exists 0%nat. by split_and!. }
  destruct n as [|n]; [done|]. injection Hl as Hl. inversion Hok as [|? ? Hm Hok']; subst.
  apply MemSpec.numbered_cons in Hn as [Hs Hn]. pose proof (msize_pos _ nonempty m Hm) as Hsz. pose proof (ok_seq _ _ Hm) as Hq.
  cbn [rec_len] in Hfit. pose proof (rec_len_nonneg _ nonempty _ Hok') as Hnn.
  cbn [FileMsgSpec.indexes scan_indexes]. rewrite <- app_assoc, readIndexFromBuffer_app by apply length_addIndex.
  rewrite (read_addIndex opts Hopts) by (unfold index_ok; cbn; split_and!; try lia; apply Hm).
  cbn [mbind outcome_bind fst snd offset msgSize index_of]. rewrite Hs, Z.eqb_refl. cbn [negb].
  rewrite u32_small by (unfold recordHeaderSize; lia).
  destruct ((0 <? i)%nat && (ReadBufferSize opts <? total + (msize m + recordHeaderSize))) eqn:Ec.
  - exists 0%nat. split_and!; [lia| |done]. intros -> _. done.
  - rewrite drop_app_length' by (by rewrite length_addIndex).
    destruct (IH (length xs) (S i) (off + 8 + msize m) (total + (msize m + recordHeaderSize)) (b + 1) Hok' Hn ltac:(lia) ltac:(lia) ltac:(lia) eq_refl)
      as (t & Ht & _ & E).
    assert (exists r, scan_indexes opts (length xs) (S i) (indexes opts codec (off + 8 + msize m) xs ++ rest) (u64 (b + 1)) (total + (msize m + recordHeaderSize)) = Ok r /\
      r.2 = msize <$> take t xs) as (r & -> & Er).
    { destruct xs as [|m' xs].
      - exists (0, []). split; [done|]. by rewrite take_nil.
      - rewrite u64_small; [eexists; split; [exact E|done]|]. pose proof (Hn 0%nat m' eq_refl). inversion Hok' as [|? ? Hm' _]; subst.
        pose proof (ok_seq _ _ Hm'). unfold is_u64. lia. }
    exists (S t). split_and!; [simpl; lia|lia|]. cbn [mbind outcome_bind fst snd]. rewrite Er. done.
Qed.

Lemma total_sizes xs : Forall msg_ok xs -> foldr (fun z t => u32 (z + recordHeaderSize) + t) 0 (msize <$> xs) = rec_len codec xs.
Proof.
  induction 1 as [|m xs Hm _ IH]; [done|]. cbn [fmap list_fmap foldr rec_len]. rewrite IH. pose proof (msize_pos _ nonempty m Hm).
  rewrite u32_small; unfold recordHeaderSize; lia.
Qed.

Lemma read_msgs_spec now lk ms s l xs b :
  holds lk ms s l -> Forall msg_ok xs -> MemSpec.numbered b xs -> Forall (cached_ok s) xs ->
  exists ms' l', read_msgs opts codec now (msize <$> xs) (records opts codec xs) b ms = (Ok (head xs), ms') /\ holds lk ms' s l'.
Proof.
  intros K Hok. revert ms l b K. induction Hok as [|m xs Hm Hok IH]; intros ms l b K Hn Hc; [by exists ms, l|].
  cbn [fmap list_fmap read_msgs head]. inversion Hc as [|? ? Hcm Hc']; subst. apply MemSpec.numbered_cons in Hn as [Hs Hn].
  pose proof (msize_pos _ nonempty m Hm) as Hsz. pose proof (ok_seq _ _ Hm) as Hq. pose proof (payload_length _ _ Hm) as Hpl.
  unfold FileMsgSpec.records. rewrite bind_cons. fold (records opts codec xs). rewrite (header_of opts codec nonempty m Hm), <- !app_assoc.
  set (h1 := put_le 4 (msize m)). set (h2 := put_le 4 (Checksum _ _)).
  rewrite (drop_app_length' h1 _ 4) by done. rewrite (take_app_length' h2) by done.
  rewrite (app_assoc h1 h2), (drop_app_length' (h1 ++ h2) _ 8) by done.
  rewrite (take_app_length' (c_put codec m)) by lia.
  assert (get_le h2 = Checksum (c_put codec m) (crcTable opts)) as -> by (apply get_checksum, (msgs_poly_word opts Hopts)).
  rewrite Z.eqb_refl, andb_false_r, (unmarshal_msg _ _ Hm), run_lift, <- Hs.
  destruct (add_spec lk ms s l now m false true K Hcm) as (ms1 & E1 & K1); [done|]. rewrite (run_bind _ _ _ _ _ E1).
  rewrite (app_assoc (h1 ++ h2)), drop_app_length' by (rewrite !length_app; unfold h1, h2; rewrite !length_put_le; lia).
  assert (exists ms2 l2, read_msgs opts codec now (msize <$> xs) (records opts codec xs) (u64 (Sequence m + 1)) ms1 = (Ok (head xs), ms2) /\ holds lk ms2 s l2)
    as (ms2 & l2 & E2 & K2).
  { destruct xs as [|m' xs]; [by exists ms1, (Lru.add now m false true l)|]. eapply IH; [done| |done]. rewrite u64_small; [by rewrite Hs|].
    pose proof (Hn 0%nat m' eq_refl). inversion Hok as [|? ? Hm' _]; subst. pose proof (ok_seq _ _ Hm'). unfold is_u64. lia. }
  rewrite (run_bind _ _ _ _ _ E2). by exists ms2, l2.
Qed.

(** The index records of the messages [j], ..., [j + n - 1] of a slice, and their records. *)
Lemma index_range b al r d i sl j n :
  slice_ok b al r d i sl -> (j + n <= i)%nat ->
  exists rest, drop (Z.to_nat (4 + Z.of_nat j * msgIndexRecSize)) (content (idxFile sl)) =
    indexes opts codec (4 + rec_len codec (take j al)) (take n (drop j al)) ++ rest.
Proof.
  intros Ho Hn. pose proof (so_bounds _ _ _ _ _ _ _ _ Ho) as Hb. rewrite (so_idx _ _ _ _ _ _ _ _ Ho).
  rewrite (drop_idx opts codec) by (rewrite length_take; lia). rewrite take_take, Nat.min_l by lia.
  rewrite <- (take_drop n (drop j (take i al))). rewrite indexes_app. eexists. f_equal. f_equal.
  apply list_eq. intros x. destruct (Nat.lt_ge_cases x n).
  - rewrite !lookup_take_lt, !lookup_drop by done. rewrite lookup_take_lt by lia. done.
  - rewrite !lookup_take_ge by done. done.
Qed.

Lemma data_range b al r d i sl j n :
  slice_ok b al r d i sl -> (j + n <= d)%nat ->
  exists rest, drop (Z.to_nat (4 + rec_len codec (take j al))) (content (file sl)) = records opts codec (take n (drop j al)) ++ rest.
Proof.
  intros Ho Hn. pose proof (so_bounds _ _ _ _ _ _ _ _ Ho) as Hb. pose proof (so_msgs _ _ _ _ _ _ _ _ Ho) as Hok.
  rewrite (so_dat _ _ _ _ _ _ _ _ Ho). replace (take j al) with (take j (take d al)) by (rewrite take_take; f_equal; lia).
  rewrite (drop_dat opts codec _ j (Forall_take _ _ _ Hok)). rewrite <- (take_drop n (drop j (take d al))), records_app. eexists. f_equal. f_equal.
  apply list_eq. intros x. destruct (Nat.lt_ge_cases x n).
  - rewrite !lookup_take_lt, !lookup_drop by done. rewrite lookup_take_lt by lia. done.
  - rewrite !lookup_take_ge by done. done.
Qed.

Lemma numbered_range b al j n : MemSpec.numbered b al -> (j <= length al)%nat -> MemSpec.numbered (b + Z.of_nat j) (take n (drop j al)).
Proof.
  intros Hn Hj. rewrite <- (take_drop j al) in Hn. apply numbered_app in Hn as [_ Hn]. rewrite length_take, Nat.min_l in Hn by lia.
  rewrite <- (take_drop n (drop j al)) in Hn. by apply numbered_app in Hn as [Hn _].
Qed.

Context (Hread : ReadBufferSize opts <= 0 \/ 32 <= ReadBufferSize opts).

Lemma readAheadMsgs_spec now ms s l k b al r d i j m :
  holds [(Idx, k); (Dat, k)] ms s l -> located s k b al r d i -> al !! j = Some m -> (r <= j < i)%nat -> 0 < ReadBufferSize opts ->
  (exists e, readAheadMsgs opts codec now k (Sequence m) ms = (Err e, ms)) \/
  exists ms' l', readAheadMsgs opts codec now k (Sequence m) ms = (Ok (Some m), ms') /\ holds [(Idx, k); (Dat, k)] ms' s l'.
Proof.
  intros K Hloc Hj Hr Hrb. pose proof (proj1 K) as H. destruct (located_slice _ _ _ _ _ _ _ _ _ _ _ H Hloc) as (sl & Hk & Ho).
  destruct (located_seq _ _ _ _ _ _ _ _ _ _ _ _ _ H Hloc Hj) as (Hs & Hu & Hp). pose proof (so_msgs _ _ _ _ _ _ _ _ Ho) as Hok.
  pose proof (so_bounds _ _ _ _ _ _ _ _ Ho) as Hb. apply lookup_lt_Some in Hj as Hlt. pose proof (so_fits _ _ _ _ _ _ _ _ Ho) as Hfit.
  pose proof (fits_length _ nonempty _ Hok Hfit) as Hlen. unfold readAheadMsgs. rewrite (run_slice _ _ _ _ Hk).
  rewrite (idxFileOffset_ok opts codec b al r d i sl j m Ho Hj ltac:(lia) Hu Hlen). cbv zeta.
  destruct (Z.ltb_spec (4 + Z.of_nat j * msgIndexRecSize) 0) as [Hneg|_]; [unfold msgIndexRecSize in Hneg; lia|].
  assert (al <> []) as Hne by by intros ->. rewrite (so_last _ _ _ _ _ _ _ _ Ho Hne), Hs.
  replace (b + Z.of_nat (length al) - 1 - (b + Z.of_nat j) + 1) with (Z.of_nat (length al - j)) by lia.
  rewrite u64_small, i64_small by (unfold is_i64, is_u64, two63, two64 in *; lia).
  assert (1 <= ReadBufferSize opts / msgIndexRecSize) as Hq by (apply Z.div_le_lower_bound; unfold msgIndexRecSize; lia).
  destruct (Z.eqb_spec (ReadBufferSize opts / msgIndexRecSize) 0) as [|_]; [lia|].
  set (z := if Z.of_nat (length al - j) <? ReadBufferSize opts / msgIndexRecSize then _ else _).
  assert (exists n, z = Z.of_nat n /\ (0 < n <= length al - j)%nat /\ Z.of_nat n <= ReadBufferSize opts / msgIndexRecSize) as (n & -> & Hn & Hnq).
  { subst z. destruct (Z.ltb_spec (Z.of_nat (length al - j)) (ReadBufferSize opts / msgIndexRecSize)).
    - exists (length al - j)%nat. lia.
    - exists (Z.to_nat (ReadBufferSize opts / msgIndexRecSize)). lia. }
  pose proof (Z.mul_div_le (ReadBufferSize opts) msgIndexRecSize ltac:(done)) as Hmul.
  destruct (Z.ltb_spec (ReadBufferSize opts) (Z.of_nat n * msgIndexRecSize)) as [|_]; [unfold msgIndexRecSize in *; lia|].
  destruct (Z.ltb_spec (Z.of_nat n * msgIndexRecSize) 0) as [|_]; [unfold msgIndexRecSize in *; lia|]. cbn [orb].
  replace (Z.to_nat (Z.of_nat n * msgIndexRecSize)) with (32 * n)%nat by (unfold msgIndexRecSize; lia). rewrite Nat2Z.id.
  destruct (Nat.le_gt_cases (j + n) i) as [Hle|Hgt].
  - destruct (index_range _ _ _ _ _ _ j n Ho Hle) as [rest ->]. set (xs := take n (drop j al)).
    assert (length xs = n) as Hxl by (unfold xs; rewrite length_take, length_drop; lia).
    assert (Forall msg_ok xs) as Hxok by (by apply Forall_take, Forall_drop).
    assert (MemSpec.numbered (b + Z.of_nat j) xs) as Hxn by (apply numbered_range; [apply Ho|lia]).
    rewrite ReadFull_app by (rewrite length_indexes; lia).
    assert (4 + rec_len codec (take j al) + rec_len codec xs < two63) as Hxf.
    { unfold fits in Hfit. rewrite <- (take_drop j al), rec_len_app, <- (take_drop n (drop j al)), rec_len_app in Hfit. fold xs in Hfit.
      pose proof (rec_len_nonneg _ nonempty _ (Forall_drop _ n _ (Forall_drop _ j _ Hok))). lia. }
    pose proof (rec_len_nonneg _ nonempty _ (Forall_take _ j _ Hok)) as Hpre.
    destruct (scan_indexes_spec xs n 0 (4 + rec_len codec (take j al)) 0 [] (b + Z.of_nat j) Hxok Hxn Hp ltac:(lia) Hxf Hxl) as (t & Ht & Htp & E).
    rewrite app_nil_r in E. rewrite E, run_lift. cbn [fst snd]. specialize (Htp eq_refl ltac:(lia)).
    destruct (Nat.eqb_spec t 0); [lia|]. destruct (Z.ltb_spec (4 + rec_len codec (take j al)) 0); [lia|].
    right. rewrite (total_sizes _ (Forall_take _ t _ Hxok)). unfold xs. rewrite take_take, Nat.min_l by lia.
    destruct (data_range _ _ _ _ _ _ j t Ho ltac:(lia)) as [rest' ->].
    pose proof (length_records opts codec _ (Forall_take _ t _ (Forall_drop _ j _ Hok))) as Hlr.
    rewrite ReadFull_app by lia.
    destruct (read_msgs_spec now _ ms s l (take t (drop j al)) (b + Z.of_nat j) K) as (ms' & l' & E' & K').
    { by apply Forall_take, Forall_drop. } { apply numbered_range; [apply Ho|lia]. }
    { apply Forall_forall. intros x Hx. eapply (located_elem ms); [done|done|]. rewrite <- (take_drop j al), <- (take_drop t (drop j al)).
      apply elem_of_app. right. apply elem_of_app. by left. }
    exists ms', l'. split; [|done]. rewrite E'. do 2 f_equal. destruct t; [lia|]. by rewrite (drop_S _ m) by done.
  - left. rewrite ReadFull_short; [by eexists|]. rewrite (so_idx _ _ _ _ _ _ _ _ Ho), (drop_idx opts codec) by (rewrite length_take; lia).
    rewrite length_indexes, length_drop, length_take. lia.
Qed.

(** ** [lookup] *)

Lemma pick_elem seq l m r : Lru.pick seq l = Some (m, r) -> m ∈ l.*2 /\ Sequence m = seq.
Proof. intros E. apply CacheSpec.pick_Some in E as [Hs ->]. split; [left|done]. Qed.

Lemma pick_miss seq l : Lru.pick seq l = None -> seq ∉ Lru.seqs l.
Proof.
  induction l as [|x l IH]; cbn; [set_solver|]. destruct (Z.eqb_spec (Sequence x.2) seq) as [|Hs]; [done|].
  destruct (Lru.pick seq l) as [[]|]; [done|]. intros _. apply not_elem_of_cons. split; [congruence|by apply IH].
Qed.

Lemma read_from_disk_spec `{!RangeOrder Z} now ms s l k b al r d i j m :
  holds [] ms s l -> located s k b al r d i -> al !! j = Some m -> (r <= j < i)%nat -> Sequence m ∉ Lru.seqs l ->
  exists ms' l', read_from_disk opts codec pressure now (Sequence m) ms = (Ok (Some m), ms') /\ holds [] ms' s l'.
Proof.
  intros K Hloc Hj Hr Hn. pose proof (proj1 K) as H. destruct (located_slice _ _ _ _ _ _ _ _ _ _ _ H Hloc) as (sl & Hk & _).
  destruct (located_seq _ _ _ _ _ _ _ _ _ _ _ _ _ H Hloc Hj) as (Hs & Hu & Hp). apply lookup_lt_Some in Hj as Hlt.
  unfold read_from_disk. rewrite (run_bind _ _ _ _ _ (getFileSliceForSeq_spec ms s l (Sequence m) k b al r d i H Hloc ltac:(lia) ltac:(lia))).
  destruct (lockFiles_spec opts codec nonempty pressure [] k sl ms s l K Hk) as (ms1 & E1 & F1 & K1); [set_solver..|].
  rewrite (run_bind _ _ _ _ _ E1). destruct (located_slice _ _ _ _ _ _ _ _ _ _ _ (proj1 K1) Hloc) as (sl1 & Hk1 & _).
  rewrite (run_slice _ _ _ _ Hk1). pose proof (read_one_spec now ms1 s l k b al r d i j m K1 Hloc Hj Hr Hn) as Hone.
  destruct (Z.ltb_spec 0 (ReadBufferSize opts)) as [Hrb|_]; [cbn [andb]|done]. destruct (negb _); [|done].
  destruct (readAheadMsgs_spec now ms1 s l k b al r d i j m K1 Hloc Hj Hr Hrb) as [[e E2]|(ms2 & l2 & E2 & K2)].
  - assert (catch (readAheadMsgs opts codec now k (Sequence m)) ms1 = (Ok (inr e), ms1)) as E3 by (unfold catch; by rewrite E2).
    by rewrite (run_bind _ _ _ _ _ E3).
  - rewrite (run_bind _ _ _ _ _ (catch_Ok _ _ _ _ E2)). destruct (located_slice _ _ _ _ _ _ _ _ _ _ _ (proj1 K2) Hloc) as (sl2 & Hk2 & _).
    destruct (unlock_spec k ms2 s l2 K2) as (ms3 & E3 & _ & K3); [apply elem_of_dom; by eexists|].
    rewrite (run_bind _ _ _ _ _ E3). by exists ms3, l2.
Qed.

Lemma lookup_spec `{!RangeOrder Z} now ms s l seq :
  holds [] ms s l -> exists ms' l', lookup opts codec pressure now seq ms = (Ok (Window.lookup (Some (window s)) seq), ms') /\ holds [] ms' s l'.
Proof.
  intros K. pose proof (proj1 K) as H. assert (rm s <= length (stored s))%nat as Hrm by (eapply rm_le, K).
  unfold lookup. rewrite run_get, (c_first _ _ _ _ _ H), (c_last _ _ _ _ _ H).
  destruct (Window.lookup (Some (window s)) seq) as [m|] eqn:Hl.
  - destruct (find_located s seq m Hl Hrm) as (k & b & al & r & d & i & j & Hloc & Hj & Hs & Hge).
    pose proof (located_live _ _ _ _ _ _ _ _ _ j H Hloc ltac:(lia)) as Hr.
    destruct (located_seq _ _ _ _ _ _ _ _ _ _ _ _ _ H Hloc Hj) as (Hs' & Hu & Hp). rewrite Hs in Hs'.
    assert (seq < base s + Z.of_nat (length (stored s))) as Hlt.
    { unfold Window.lookup, window in Hl. case_match; [|done]. apply lookup_lt_Some in Hl. unfold live in Hl. rewrite length_drop in Hl. lia. }
    destruct (Z.ltb_spec seq (base s + Z.of_nat (rm s))); [lia|]. destruct (Z.ltb_spec (base s + Z.of_nat (length (stored s)) - 1) seq); [lia|].
    cbn [orb]. destruct (get_spec [] ms s l now seq K) as (ms1 & E1 & K1 & _ & Eb). rewrite (run_bind _ _ _ _ _ E1).
    unfold Lru.get in *. destruct (Lru.pick seq l) as [[m' rest]|] eqn:Ep; cbn [fst snd] in *.
    + destruct (pick_elem _ _ _ _ Ep) as [Hin Hsm]. pose proof (cached_elem _ _ _ _ H Hin) as [_ Hc]. rewrite Hsm, Hl in Hc.
      eexists ms1, _. split; [|exact K1]. rewrite Hc by lia. done.
    + apply pick_miss in Ep. rewrite <- Hs', (located_buffered _ _ _ _ _ _ _ _ _ _ _ _ _ H Hloc Hj). rewrite <- Hs' in Ep.
      destruct (Nat.ltb_spec j i) as [Hji|_]; [by eapply read_from_disk_spec|]. cbn [bmsg].
      destruct (add_spec [] ms1 s l now m false false K1) as (ms2 & E2 & K2); [|done|].
      { eapply (located_elem ms); [done|done|]. by eapply list_elem_of_lookup_2. }
      rewrite (run_bind _ _ _ _ _ E2). by eexists ms2, _.
  - exists ms, l. assert ((seq <? base s + Z.of_nat (rm s)) || (base s + Z.of_nat (length (stored s)) - 1 <? seq) = true) as ->; [|done].
    rewrite orb_true_iff, !Z.ltb_lt. unfold Window.lookup, window in Hl. destruct (Z.leb_spec (base s + Z.of_nat (rm s)) seq); [|by left].
    right. apply lookup_ge_None in Hl. unfold live in Hl. rewrite length_drop in Hl. lia.
Qed.

(** ** The first and the last message *)

Lemma window_lookup_first s : Window.lookup (Some (window s)) (base s + Z.of_nat (rm s)) = head (live s).
Proof. unfold Window.lookup, window. rewrite Z.leb_refl, Z.sub_diag. cbn. by destruct (live s). Qed.

Lemma window_lookup_last s : (rm s <= length (stored s))%nat ->
  Window.lookup (Some (window s)) (base s + Z.of_nat (length (stored s)) - 1) = list.last (live s).
Proof.
  intros Hrm. unfold Window.lookup, window. rewrite last_lookup. unfold live. rewrite length_drop.
  destruct (Z.leb_spec (base s + Z.of_nat (rm s)) (base s + Z.of_nat (length (stored s)) - 1)) as [Hle|Hlt].
  - f_equal. lia.
  - symmetry. apply lookup_ge_None. rewrite length_drop. lia.
Qed.

Lemma FirstMsg_spec `{!RangeOrder Z} now ms s l :
  holds [] ms s l -> exists ms' l', FirstMsg opts codec pressure now ms = (Ok (head (live s)), ms') /\ holds [] ms' s l'.
Proof.
  intros K. unfold FirstMsg. rewrite run_get. destruct (firstMsg ms) as [m|] eqn:Ef.
  - exists ms, l. by rewrite (c_firstMsg _ _ _ _ _ (proj1 K) _ Ef).
  - destruct (lookup_spec now ms s l (first ms) K) as (ms1 & l1 & E1 & K1). rewrite (run_bind _ _ _ _ _ E1), run_modify.
    rewrite (c_first _ _ _ _ _ (proj1 K)), window_lookup_first. eexists _, l1. split; [done|]. destruct K1 as ([] & S1 & W1). by split; [split|split].
Qed.

Lemma LastMsg_spec `{!RangeOrder Z} now ms s l :
  holds [] ms s l -> exists ms' l', LastMsg opts codec pressure now ms = (Ok (list.last (live s)), ms') /\ holds [] ms' s l'.
Proof.
  intros K. unfold LastMsg. rewrite run_get. destruct (lastMsg ms) as [m|] eqn:Ef.
  - exists ms, l. by rewrite (c_lastMsg _ _ _ _ _ (proj1 K) _ Ef).
  - destruct (lookup_spec now ms s l (FileMsg.last ms) K) as (ms1 & l1 & E1 & K1). rewrite (run_bind _ _ _ _ _ E1), run_modify.
    rewrite (c_last _ _ _ _ _ (proj1 K)), window_lookup_last by (eapply rm_le, K). eexists _, l1. split; [done|]. destruct K1 as ([] & S1 & W1). by split; [split|split].
Qed.
End Lookup.
End FileMsgLookup.
