(* ===== verification/FileMsgsTime.v ===== *)
(** * Time and the message store in files

    [GetSequenceFromTimestamp] finds the position of a time in the window, slice by slice;
    [expireMsgs] removes the messages that are too old. *)

From Stdlib Require Import ZArith Lia Ascii String Sorted.
From stdpp Require Import base list gmap strings.
From S2P Require Import Prelude Bytes Util GoLib Crc Proto ProtoSpec MemStore Records RecordsSpec FileSubs FilesManager Cache FileMsgs FileMsgsSpec FileMsgsRemove FileMsgsWrite FileMsgsStore FileMsgsLookup.

Local Open Scope Z_scope.

Module FileMsgTime.
Import Crc CrcSpec Proto ProtoSpec Buffer Rec RecSpec FileOptions FM Cache FileMsg FileMsgSpec FileMsgRemove FileMsgWrite FileMsgStoreSpec FileMsgLookup.

Section Time.
Context (opts : FileStoreOptions) (Hopts : FileOptions.valid opts).
Context (codec : codec MsgProto) (nonempty : forall m, 0 < Sequence m -> c_put codec m <> []) `{!Lawful codec}.
Context (pressure : nat -> list (part * Z)).
Local Abbreviation core := (core opts codec).
Local Abbreviation holds := (holds opts codec).
Local Abbreviation slice_ok := (slice_ok opts codec).
Local Abbreviation msg_ok := (msg_ok codec).
Local Abbreviation msize := (msize codec).

(** ** Positions by time *)

(** Where a time is among messages: not after the messages from there on, not before the
    others. *)
Record from_ok (f : Z) (q : list MsgProto) (ts seq : Z) : Prop := {
  ft_range : f <= seq <= f + Z.of_nat (length q);
  ft_before : forall m, m ∈ q -> Sequence m < seq -> Timestamp m <= ts;
  ft_after : forall m, m ∈ q -> seq <= Sequence m -> ts <= Timestamp m
}.

Definition ordered (q : list MsgProto) : Prop :=
  forall m m', m ∈ q -> m' ∈ q -> Sequence m <= Sequence m' -> Timestamp m <= Timestamp m'.

Lemma sorted_ordered f q : MemSpec.numbered f q -> MemSpec.time_sorted q -> ordered q.
Proof.
  intros Hn Hs m m' Hm Hm' Hle. apply list_elem_of_lookup in Hm as [i Hi], Hm' as [j Hj].
  pose proof (Hn _ _ Hi). pose proof (Hn _ _ Hj). eapply (Hs i j); [lia|done|done].
Qed.

Lemma ordered_cut f q ts m :
  ordered q -> m ∈ q -> f <= Sequence m <= f + Z.of_nat (length q) -> ts <= Timestamp m ->
  (forall x, x ∈ q -> Sequence x < Sequence m -> Timestamp x <= ts) -> from_ok f q ts (Sequence m).
Proof. intros Ho Hm Hr Ht Hb. split; [done|done|]. intros x Hx Hle. pose proof (Ho _ _ Hm Hx Hle). lia. Qed.

Lemma live_numbered ms s l : core ms s l -> MemSpec.numbered (base s + Z.of_nat (rm s)) (live s) /\ Forall msg_ok (live s).
Proof.
  intros H. destruct (core_numbered _ _ _ _ _ H) as [Hn Hok]. split; [|by apply Forall_drop].
  intros i x Hi. unfold live in Hi. rewrite lookup_drop in Hi. rewrite (Hn _ _ Hi). lia.
Qed.

(** The messages of a slice that are not removed are in the window. *)
Lemma located_in_live s k b al r d i j m :
  located s k b al r d i -> al !! j = Some m -> (r <= j)%nat -> (rm s <= length (first_slice s).2)%nat -> m ∈ live s.
Proof.
  intros Hloc Hj Hr Hrm. apply located_split in Hloc as (pre & post & E & _ & ->). unfold live. rewrite <- slices_stored, E, fmap_app, join_app.
  cbn. destruct pre as [|[k0 al0] pre].
  - cbn. rewrite drop_app_le by (apply lookup_lt_Some in Hj; lia). apply elem_of_app. left. eapply (list_elem_of_lookup_2 _ (j - rm s)).
    rewrite lookup_drop. by replace (rm s + (j - rm s))%nat with j by lia.
  - assert (first_slice s = (k0, al0)) as E0.
    { unfold first_slice. unfold slices in E. destruct (segs s) as [|x sg]; cbn in E; [|by injection E as -> _].
      injection E as _ _ E. by destruct pre. }
    rewrite E0 in Hrm. change (mjoin ((k0, al0) :: pre).*2) with (al0 ++ mjoin pre.*2). rewrite <- app_assoc.
    rewrite drop_app_le by done. apply elem_of_app. right. apply elem_of_app. right. apply elem_of_app. left. by eapply list_elem_of_lookup_2.
Qed.

Lemma first_rm_le ms s l : core ms s l -> (rm s <= length (first_slice s).2)%nat.
Proof. intros H. destruct (first_dom _ _ _ _ _ H) as (sl & _ & Ho). apply Ho. Qed.

(** The time of a message of a slice whose index is locked. *)
Lemma time_at_spec ms s l k b al r d i j m :
  holds [(Idx, k)] ms s l -> located s k b al r d i -> al !! j = Some m -> (r <= j)%nat ->
  time_at opts k (b + Z.of_nat j) ms = (Ok (Timestamp m), ms).
Proof.
  intros K Hloc Hj Hr. pose proof (proj1 K) as H. destruct (located_slice _ _ _ _ _ _ _ _ _ _ _ H Hloc) as (sl & Hk & _).
  destruct (located_seq _ _ _ _ _ _ _ _ _ _ _ _ _ H Hloc Hj) as (<- & _ & _). unfold time_at.
  rewrite (run_bind _ _ _ _ _ (getMsgIndex_spec opts Hopts codec nonempty ms s l k b al r d i sl j m H Hloc Hk
    (in_use_spec _ _ _ _ _ _ Idx k sl K ltac:(set_solver) Hk) Hj Hr)). done.
Qed.

Lemma seek_loop_spec ms s l k b al r d i ts fuel j ml :
  holds [(Idx, k)] ms s l -> located s k b al r d i -> (r < j < length al)%nat -> list.last al = Some ml -> ts <= Timestamp ml ->
  (forall m, al !! (j - 1)%nat = Some m -> Timestamp m < ts) -> (length al - 1 - j <= fuel)%nat ->
  exists x m m', seek_loop opts fuel k (b + Z.of_nat j) (b + Z.of_nat (length al) - 2) ts ms = (Ok (b + Z.of_nat x), ms) /\
    (r < x)%nat /\ al !! (x - 1)%nat = Some m /\ Timestamp m < ts /\ al !! x = Some m' /\ ts <= Timestamp m'.
Proof.
  intros K Hloc. revert j. induction fuel as [|fuel IH]; intros j Hj Hl Ht Hb Hf; cbn [seek_loop].
  - destruct (lookup_lt_is_Some_2 al (j - 1)) as [m Hm]; [lia|]. rewrite last_lookup in Hl.
    destruct (Z.leb_spec (b + Z.of_nat j) (b + Z.of_nat (length al) - 2)); [lia|]. exists j, m, ml. split_and!; try done; [lia|by apply Hb|].
    rewrite <- Hl. f_equal. lia.
  - destruct (Z.leb_spec (b + Z.of_nat j) (b + Z.of_nat (length al) - 2)) as [Hle|Hgt].
    + destruct (lookup_lt_is_Some_2 al j) as [m Hm]; [lia|].
      rewrite (run_bind _ _ _ _ _ (time_at_spec _ _ _ _ _ _ _ _ _ _ _ K Hloc Hm ltac:(lia))).
      destruct (Z.leb_spec ts (Timestamp m)) as [Htm|Htm].
      * destruct (lookup_lt_is_Some_2 al (j - 1)) as [m0 Hm0]; [lia|]. exists j, m0, m. split_and!; try done; [lia|by apply Hb].
      * destruct (located_seq _ _ _ _ _ _ _ _ _ _ _ _ _ (proj1 K) Hloc Hm) as (_ & Hu & _).
        destruct (lookup_lt_is_Some_2 al (S j)) as [m1 Hm1]; [lia|].
        destruct (located_seq _ _ _ _ _ _ _ _ _ _ _ _ _ (proj1 K) Hloc Hm1) as (_ & Hu1 & _).
        rewrite u64_small by (replace (b + Z.of_nat j + 1) with (b + Z.of_nat (S j)) by lia; done).
        replace (b + Z.of_nat j + 1) with (b + Z.of_nat (S j)) by lia. apply IH; try done; [lia| |lia].
        intros x Hx. replace (S j - 1)%nat with j in Hx by lia. congruence.
    + destruct (lookup_lt_is_Some_2 al (j - 1)) as [m Hm]; [lia|]. rewrite last_lookup in Hl. exists j, m, ml. split_and!; try done; [lia|by apply Hb|].
      rewrite <- Hl. f_equal. lia.
Qed.

(** The position in a slice, when no message before the slice is too late. *)
Lemma seek_in_slice_spec ms s l k b al r d i ts :
  holds [(Idx, k)] ms s l -> located s k b al r d i -> (r < length al)%nat ->
  exists o, seek_in_slice opts k ts ms = (Ok o, ms) /\ (ordered (live s) ->
    (forall m, m ∈ live s -> Sequence m < b + Z.of_nat r -> Timestamp m < ts) ->
    match o with
    | Some seq => exists m, m ∈ live s /\ Sequence m = seq /\ ts <= Timestamp m /\ (forall x, x ∈ live s -> Sequence x < seq -> Timestamp x <= ts)
    | None => forall m, m ∈ live s -> Sequence m < b + Z.of_nat (length al) -> Timestamp m < ts
    end).
Proof.
  intros K Hloc Hr. pose proof (proj1 K) as H. destruct (located_slice _ _ _ _ _ _ _ _ _ _ _ H Hloc) as (sl & Hk & Ho).
  assert (al <> []) as Hne by (intros ->; simpl in Hr; lia). unfold seek_in_slice. rewrite (run_slice _ _ _ _ Hk).
  rewrite (so_first _ _ _ _ _ _ _ _ Ho Hne), (so_last _ _ _ _ _ _ _ _ Ho Hne).
  destruct (lookup_lt_is_Some_2 al r Hr) as [mf Hmf]. destruct (lookup_lt_is_Some_2 al (length al - 1)) as [ml Hml]; [lia|].
  assert (forall j m, al !! j = Some m -> (r <= j)%nat -> m ∈ live s /\ Sequence m = b + Z.of_nat j /\ is_u64 (b + Z.of_nat j)) as Hin.
  { intros j m Hj Hle. destruct (located_seq _ _ _ _ _ _ _ _ _ _ _ _ _ H Hloc Hj) as (? & ? & _). split; [|done].
    eapply located_in_live; try done. by eapply first_rm_le. }
  destruct (Hin _ _ Hmf ltac:(lia)) as (If & Sf & Uf). destruct (Hin _ _ Hml ltac:(lia)) as (Il & Sl & Ul).
  rewrite (run_bind _ _ _ _ _ (time_at_spec _ _ _ _ _ _ _ _ _ _ _ K Hloc Hmf ltac:(lia))).
  destruct (Z.ltb_spec (Timestamp mf) ts) as [Hlt|Hge].
  2:{ eexists. split; [done|]. intros _ Hb. exists mf. split_and!; try done. intros x Hx Hs. specialize (Hb x Hx ltac:(lia)). lia. }
  replace (b + Z.of_nat (length al) - 1) with (b + Z.of_nat (length al - 1)) by lia.
  rewrite (run_bind _ _ _ _ _ (time_at_spec _ _ _ _ _ _ _ _ _ _ _ K Hloc Hml ltac:(lia))).
  destruct (Z.ltb_spec (Timestamp ml) ts) as [Hlt'|Hge'].
  { eexists. split; [done|]. intros Hord _ m Hm Hs. pose proof (Hord m ml Hm Il ltac:(lia)). lia. }
  destruct (Z.ltb_spec ts (Timestamp ml)) as [Hlt''|Hge''].
  2:{ eexists. split; [done|]. intros Hord _. exists ml. split_and!; try done; try lia. intros x Hx Hs. pose proof (Hord x ml Hx Il ltac:(lia)). lia. }
  assert (r < length al - 1)%nat as Hr'.
  { destruct (decide (r = length al - 1)%nat) as [->|]; [|lia]. rewrite Hmf in Hml. injection Hml as ->. lia. }
  destruct (lookup_lt_is_Some_2 al (S r)) as [m1 Hm1]; [lia|]. destruct (Hin _ _ Hm1 ltac:(lia)) as (_ & _ & U1).
  replace (b + Z.of_nat r + 1) with (b + Z.of_nat (S r)) by lia. rewrite !u64_small by (done || (unfold is_u64 in *; lia)).
  replace (b + Z.of_nat (length al - 1) - 1) with (b + Z.of_nat (length al) - 2) by lia.
  destruct (seek_loop_spec ms s l k b al r d i ts (Z.to_nat (b + Z.of_nat (length al - 1) - (b + Z.of_nat r))) (S r) ml K Hloc)
    as (x & m & m' & E & Hx & Hm & Htm & Hm' & Htm'); try done; try lia.
  { rewrite last_lookup, <- Hml. f_equal. lia. } { intros m Hm. replace (S r - 1)%nat with r in Hm by lia. congruence. }
  rewrite (run_bind _ _ _ _ _ E). eexists. split; [done|]. destruct (Hin _ _ Hm ltac:(lia)) as (I1 & S1 & _). destruct (Hin _ _ Hm' ltac:(lia)) as (I2 & S2 & _).
  intros Hord _. exists m'. split_and!; try done. intros y Hy Hs. pose proof (Hord y m Hy I1 ltac:(lia)). lia.
Qed.

(** Every slice has messages that are not removed, in a window that is not empty. *)
Lemma located_alive ms s l k b al r d i :
  core ms s l -> all s <> [] -> live s <> [] -> located s k b al r d i -> (r < length al)%nat.
Proof.
  intros H Hne Hl Hloc. destruct (live s) as [|m q] eqn:El; [done|]. destruct (rm_lt _ _ _ _ _ _ _ H El) as [Hlt _].
  destruct Hloc as [(pre & post & Es & _ & -> & _)|(_ & _ & -> & -> & _)].
  - pose proof (c_closed _ _ _ _ _ H) as Hc. rewrite Es in Hc. by apply closed_ok_app in Hc as [_ [(sl & _ & _ & Hr) _]].
  - unfold wrm, first_slice in *. destruct (segs s); [done|]. destruct (all s); [done|simpl; lia].
Qed.

Lemma unlock_index k ms s l : holds [(Idx, k)] ms s l -> k ∈ dom (files ms) -> exists ms', unlockIndexFile k ms = (Ok tt, ms') /\ holds [] ms' s l.
Proof.
  intros K Hk. destruct (unlockFile_spec opts codec Idx k [(Idx, k)] [] ms s l K Hk) as (ms' & E & _ & K'); [set_solver..|]. by exists ms'.
Qed.

Lemma lock_index k sl ms s l : holds [] ms s l -> files ms !! k = Some sl ->
  exists ms', lockIndexFile opts pressure k ms = (Ok tt, ms') /\ frame ms ms' /\ holds [(Idx, k)] ms' s l.
Proof. intros K Hk. apply (lockIndexFile_spec opts codec nonempty pressure [] k sl ms s l K Hk). set_solver. Qed.

Lemma sorted_head (k : Z) (l : list Z) : StronglySorted Z.lt l -> k ∈ l -> (forall x, x ∈ l -> k <= x) -> exists l', l = k :: l'.
Proof.
  intros Hs Hk Hm. destruct l as [|x l]; [by apply elem_of_nil in Hk|]. exists l. f_equal. inversion Hs as [|? ? _ Hf]; subst.
  apply elem_of_cons in Hk as [->|Hk]; [done|]. rewrite Forall_forall in Hf. specialize (Hf _ Hk). pose proof (Hm x ltac:(by left)). lia.
Qed.

Lemma sorted_suffix (l1 l2 : list Z) : StronglySorted Z.lt (l1 ++ l2) -> StronglySorted Z.lt l2.
Proof. induction l1 as [|x l1 IH]; [done|]. cbn. intros H. inversion H; subst. by apply IH. Qed.

(** The loop over the slices: [pre] are those it has seen. *)
Lemma seek_slices_spec n k ts ms s l pre post :
  holds [] ms s l -> all s <> [] -> live s <> [] -> slices s = pre ++ post ->
  Forall (fun x => x < k) pre.*1 -> Forall (fun x => k <= x) post.*1 -> n = Z.to_nat (key s + 1 - k) ->
  exists ms' o, seek_slices opts pressure n k ts ms = (Ok o, ms') /\ holds [] ms' s l /\ (ordered (live s) ->
    (pre <> [] -> forall m, m ∈ live s -> Sequence m < base s + Z.of_nat (length (mjoin pre.*2)) -> Timestamp m < ts) ->
    from_ok (base s + Z.of_nat (rm s)) (live s) ts (default (base s + Z.of_nat (rm s) + Z.of_nat (length (live s))) o)).
Proof.
  intros K Hall Hl. revert k ms pre post K. induction n as [|n IH]; intros k ms pre post K Es Hpre Hpost Hn; cbn [seek_slices].
  - exists ms, None. split; [done|]. split; [done|]. intros _ Hseen. cbn.
    assert (post = []) as ->.
    { destruct post as [|x post _] using rev_ind; [done|]. unfold slices in Es. rewrite app_assoc in Es. apply app_inj_tail in Es as [_ <-].
      rewrite fmap_app, Forall_app in Hpost. destruct Hpost as [_ Hx]. inversion Hx; subst. cbn in *. lia. }
    rewrite app_nil_r in Es. destruct (live_numbered _ _ _ (proj1 K)) as [Hnum _]. split; [lia| |].
    + intros m Hm _. assert (Timestamp m < ts); [|lia]. apply Hseen; [intros ->; unfold slices in Es; by destruct (segs s)|done|].
      apply list_elem_of_lookup in Hm as [i Hi]. rewrite (Hnum _ _ Hi). apply lookup_lt_Some in Hi. unfold live in Hi.
      rewrite length_drop in Hi. rewrite <- Es, slices_stored. lia.
    + intros m Hm Hge. apply list_elem_of_lookup in Hm as [i Hi]. rewrite (Hnum _ _ Hi) in Hge. apply lookup_lt_Some in Hi. lia.
  - rewrite run_get. pose proof (c_dom _ _ _ _ _ (proj1 K)) as Hd. rewrite <- slices_keys, Es, fmap_app in Hd. rewrite Forall_forall in Hpre, Hpost.
    assert (post = [] \/ post <> []) as Hpe by (destruct post; [by left|by right]).
    destruct (files ms !! k) as [sl|] eqn:Hk.
    + rewrite bool_decide_true by by eexists.
      assert (k ∈ post.*1) as Hin.
      { assert (k ∈ dom (files ms)) as Hx by (apply elem_of_dom; by eexists). rewrite Hd, elem_of_list_to_set, elem_of_app in Hx.
        destruct Hx as [Hx|Hx]; [|done]. apply Hpre in Hx. lia. }
      pose proof (c_keys _ _ _ _ _ (proj1 K)) as Hs. rewrite <- slices_keys, Es, fmap_app in Hs. apply sorted_suffix in Hs.
      destruct (sorted_head k _ Hs Hin Hpost) as [t Et]. destruct post as [|[k' al] post]; [done|]. cbn in Et. injection Et as -> Et.
      destruct (split_located _ _ _ _ _ Es) as (d & i & Hloc). set (r := match pre with [] => rm s | _ => 0%nat end) in *.
      set (b := base s + Z.of_nat (length (mjoin pre.*2))) in *.
      destruct (lock_index k sl ms s l K Hk) as (ms1 & E1 & F1 & K1). rewrite (run_bind _ _ _ _ _ E1).
      destruct (seek_in_slice_spec ms1 s l k b al r d i ts K1 Hloc) as (o & E2 & Ho); [exact (located_alive _ _ _ _ _ _ _ _ _ (proj1 K) Hall Hl Hloc)|].
      assert ((pre <> [] -> forall m, m ∈ live s -> Sequence m < b -> Timestamp m < ts) ->
        forall m, m ∈ live s -> Sequence m < b + Z.of_nat r -> Timestamp m < ts) as Hb.
      { intros Hseen m Hm Hlt. destruct (live_numbered _ _ _ (proj1 K)) as [Hnum _]. destruct pre as [|p pre].
        - exfalso. apply list_elem_of_lookup in Hm as [x Hx]. rewrite (Hnum _ _ Hx) in Hlt. unfold b, r in Hlt. cbn in Hlt. lia.
        - apply Hseen; [done|done|]. unfold r in Hlt. lia. }
      rewrite (run_bind _ _ _ _ _ (catch_Ok _ _ _ _ E2)). destruct (frame_slice' _ _ _ _ F1 Hk) as (sl1 & Hk1 & _).
      destruct (unlock_index k ms1 s l K1) as (ms2 & E3 & K2); [apply elem_of_dom; by eexists|]. rewrite (run_bind _ _ _ _ _ E3).
      destruct o as [seq|].
      * exists ms2, (Some seq). split; [done|]. split; [done|]. intros Hord Hseen. destruct (Ho Hord (Hb Hseen)) as (m & Hm & <- & Htm & Hbe). cbn.
        destruct (live_numbered _ _ _ (proj1 K)) as [Hnum _]. apply ordered_cut; [done|done| |done|done].
        apply list_elem_of_lookup in Hm as [x Hx]. rewrite (Hnum _ _ Hx). apply lookup_lt_Some in Hx. lia.
      * destruct (IH (k + 1) ms2 (pre ++ [(k, al)]) post K2) as (ms3 & o & E4 & K3 & Ho3); [by rewrite <- app_assoc| | |lia|].
        -- apply Forall_forall. intros x Hx. rewrite fmap_app, elem_of_app in Hx. destruct Hx as [Hx|Hx]; [apply Hpre in Hx; lia|].
           apply list_elem_of_singleton in Hx. cbn in Hx. lia.
        -- apply Forall_forall. intros x Hx. cbn in Hs. inversion Hs as [|? ? _ Hf]; subst. rewrite Forall_forall in Hf. specialize (Hf x Hx). lia.
        -- exists ms3, o. split; [done|]. split; [done|]. intros Hord Hseen. apply Ho3; [done|]. intros _ m Hm Hlt. apply (Ho Hord (Hb Hseen)); [done|]. unfold b. rewrite fmap_app, join_app, length_app in Hlt. cbn in Hlt. rewrite app_nil_r in Hlt. lia.
    + rewrite bool_decide_false by (intros [? ?]; done).
      assert (k ∉ post.*1) as Hnin.
      { intros Hin. assert (k ∈ dom (files ms)) as Hx by (rewrite Hd, elem_of_list_to_set, elem_of_app; by right). apply elem_of_dom in Hx as [? Hx]. congruence. }
      apply (IH (k + 1) ms pre post K); [done| | |lia].
      * apply Forall_forall. intros x Hx. apply Hpre in Hx. lia.
      * apply Forall_forall. intros x Hx. assert (x <> k) by (by intros ->). apply Hpost in Hx. lia.
Qed.

Lemma seek_all ts ms s l :
  holds [] ms s l -> all s <> [] -> live s <> [] ->
  exists ms' seq, (r ← seek_slices opts pressure (Z.to_nat (lastFSlSeq ms - firstFSlSeq ms + 1)) (firstFSlSeq ms) ts;
      mret (match r with Some seq => seq | None => base s + Z.of_nat (rm s) + Z.of_nat (length (live s)) end) : M Z) ms = (Ok seq, ms') /\
    holds [] ms' s l /\ (ordered (live s) -> from_ok (base s + Z.of_nat (rm s)) (live s) ts seq).
Proof.
  intros K Hall Hl. pose proof (proj1 K) as H.
  destruct (seek_slices_spec (Z.to_nat (lastFSlSeq ms - firstFSlSeq ms + 1)) (firstFSlSeq ms) ts ms s l [] (slices s)) as (ms' & o & E & K' & Ho);
    try done; [|rewrite (c_lastSl _ _ _ _ _ H); f_equal; lia|].
  - rewrite slices_keys. pose proof (c_firstSl _ _ _ _ _ H) as Hh. pose proof (c_keys _ _ _ _ _ H) as Hs. destruct (keys s); [done|].
    injection Hh as ->. inversion Hs as [|? ? _ Hf]; subst. constructor; [lia|]. eapply Forall_impl; [done|cbn; lia].
  - rewrite (run_bind _ _ _ _ _ E). exists ms'. eexists. split; [done|]. split; [done|]. intros Hord. destruct o; by apply Ho.
Qed.

(** The answers that need no index: before the first message, at the last one, after it. *)
Lemma from_first f q ts m : ordered q -> MemSpec.numbered f q -> head q = Some m -> ts <= Timestamp m -> from_ok f q ts f.
Proof.
  intros Ho Hn Hh Ht. destruct q as [|m0 q]; [done|]. injection Hh as ->. pose proof (Hn 0%nat m eq_refl) as Hs. replace f with (Sequence m) at 2 by lia.
  apply ordered_cut; [done|by left|lia|done|]. intros x Hx Hlt. apply list_elem_of_lookup in Hx as [i Hi]. rewrite (Hn _ _ Hi) in Hlt. lia.
Qed.

Lemma from_last f q ts m :
  ordered q -> MemSpec.numbered f q -> list.last q = Some m -> Timestamp m <= ts ->
  from_ok f q ts (if ts =? Timestamp m then f + Z.of_nat (length q) - 1 else f + Z.of_nat (length q)).
Proof.
  intros Ho Hn Hl Ht. rewrite last_lookup in Hl. pose proof (Hn _ _ Hl) as Hs. apply lookup_lt_Some in Hl as Hlt.
  apply list_elem_of_lookup_2 in Hl as Hin.
  assert (forall x, x ∈ q -> f <= Sequence x <= Sequence m) as Hle.
  { intros x Hx. apply list_elem_of_lookup in Hx as [i Hi]. rewrite (Hn _ _ Hi). apply lookup_lt_Some in Hi. lia. }
  assert (forall x, x ∈ q -> Timestamp x <= ts) as Hts by (intros x Hx; pose proof (Ho x m Hx Hin ltac:(by apply Hle)); lia).
  destruct (Z.eqb_spec ts (Timestamp m)).
  - replace (f + Z.of_nat (length q) - 1) with (Sequence m) by lia. apply ordered_cut; [done|done|lia|lia|]. intros x Hx _. by apply Hts.
  - split; [lia|by intros x Hx _; apply Hts|]. intros x Hx Hge. apply Hle in Hx. lia.
Qed.

Lemma FromTimestamp_spec ts ms s l :
  holds [] ms s l -> all s <> [] ->
  exists ms' seq, GetSequenceFromTimestamp opts pressure ts ms = (Ok seq, ms') /\ holds [] ms' s l /\
    (MemSpec.time_sorted (live s) -> from_ok (base s + Z.of_nat (rm s)) (live s) ts seq).
Proof.
  intros K Hall. pose proof (proj1 K) as H. destruct (live_numbered _ _ _ H) as [Hnum _]. pose proof (sorted_ordered _ _ Hnum) as Hord.
  pose proof (c_base _ _ _ _ _ H) as [B1 B2]. assert (rm s <= length (stored s))%nat as Hrm by (eapply rm_le, K).
  assert (length (live s) = length (stored s) - rm s)%nat as Hlen by (unfold live; by rewrite length_drop).
  unfold GetSequenceFromTimestamp. rewrite run_get, (c_first _ _ _ _ _ H), (c_last _ _ _ _ _ H).
  destruct (Z.eqb_spec (base s + Z.of_nat (rm s)) 0); [lia|]. rewrite !u64_small by (unfold is_u64; lia).
  replace (base s + Z.of_nat (length (stored s)) - 1) with (base s + Z.of_nat (rm s) + Z.of_nat (length (live s)) - 1) by lia.
  replace (base s + Z.of_nat (rm s) + Z.of_nat (length (live s)) - 1 + 1) with (base s + Z.of_nat (rm s) + Z.of_nat (length (live s))) by lia.
  destruct (Z.ltb_spec (base s + Z.of_nat (rm s) + Z.of_nat (length (live s)) - 1) (base s + Z.of_nat (rm s))) as [Hlt|Hge].
  { exists ms. eexists. split; [done|]. split; [done|]. assert (live s = []) as -> by (destruct (live s); [done|simpl in Hlt; lia]).
    intros _. split; [simpl; lia| |]; intros m Hm; by apply elem_of_nil in Hm. }
  assert (live s <> []) as Hl by (intros E; rewrite E in Hge; simpl in Hge; lia).
  pose proof (seek_all ts ms s l K Hall Hl) as (ms' & seq & E & K' & Hseek).
  assert (MemSpec.time_sorted (live s) -> from_ok (base s + Z.of_nat (rm s)) (live s) ts seq) as Hdisk by auto.
  destruct (match firstMsg ms with Some m => ts <=? Timestamp m | None => false end) eqn:Ef.
  { destruct (firstMsg ms) as [m|] eqn:Em; [|done]. apply Z.leb_le in Ef. exists ms. eexists. split; [done|]. split; [done|].
    intros Hs. eapply from_first; [by apply Hord|done|by eapply c_firstMsg|done]. }
  destruct (lastMsg ms) as [m|] eqn:Em; [|by exists ms', seq]. pose proof (c_lastMsg _ _ _ _ _ H _ Em) as Hlast.
  pose proof (fun Hs => from_last _ _ ts m (Hord Hs) Hnum Hlast) as Hend. destruct (Z.eqb_spec ts (Timestamp m)).
  - exists ms. eexists. split; [done|]. split; [done|]. intros Hs. by apply Hend; [|lia].
  - destruct (Z.ltb_spec (Timestamp m) ts); [|by exists ms', seq]. exists ms. eexists. split; [done|]. split; [done|]. intros Hs. by apply Hend; [|lia].
Qed.

(** ** Expiration *)

(** When the next round is due. *)
Definition deadline (maxAge now : Z) (q : list MsgProto) : Z :=
  match q with
  | [] => 0
  | m :: _ =>
      let elapsed := i64 (now - Timestamp m) in
      if elapsed <? 0 then i64 (Timestamp m + maxAge) else i64 (now + (maxAge - elapsed))
  end.

(** Locks of slices that are not in the map do not matter. *)
Lemma holds_forget p k ms s l : holds [(p, k)] ms s l -> files ms !! k = None -> holds [] ms s l.
Proof.
  intros (H & Hst & W) Hk. split; [done|]. split; [|done]. intros k' sl q Hk'. specialize (Hst k' sl q Hk'). unfold state_ok in *.
  rewrite bool_decide_false by set_solver. rewrite bool_decide_false in Hst; [done|]. intros Hin. apply list_elem_of_singleton in Hin as [= -> ->]. congruence.
Qed.

(** Which slice is locked during a round: the first one, or one that is gone. *)
Definition at_slice (ms : FileMsgStore) (s : shape) (l : Lru.t) (slice : option (Z * Z)) : Prop :=
  match slice with
  | None => holds [] ms s l
  | Some (k, e) =>
      k = (first_slice s).1 /\ e = base s + Z.of_nat (length (first_slice s).2) - 1 /\ holds [(Idx, k)] ms s l \/
      e < base s + Z.of_nat (rm s) /\ live s <> [] /\ holds [] ms s l
  end.

Lemma at_slice_core ms s l o : at_slice ms s l o -> core ms s l.
Proof. destruct o as [[k e]|]; cbn; [|by intros []]. by intros [(_ & _ & [])|(_ & _ & [])]. Qed.

Lemma at_slice_expiration ms s l o z : at_slice ms s l o -> at_slice (set_expiration z ms) s l o.
Proof.
  assert (forall lk, holds lk ms s l -> holds lk (set_expiration z ms) s l) as E by (intros lk; by apply holds_frame).
  destruct o as [[k e]|]; cbn; [|by apply E]. intros [(? & ? & K)|(? & ? & K)]; [left|right]; (split_and!; [done..|by apply E]).
Qed.

Lemma slice_to_expire_spec `{!RangeOrder Z} ms s l m q :
  holds [] ms s l -> live s = m :: q -> all s <> [] ->
  exists ms', slice_to_expire opts pressure ms =
    (Ok (Some ((first_slice s).1, base s + Z.of_nat (length (first_slice s).2) - 1)), ms') /\ holds [(Idx, (first_slice s).1)] ms' s l.
Proof.
  intros K Hl Hne. pose proof (proj1 K) as H. destruct (first_slice_spec _ _ _ _ _ H) as (_ & Hloc & _). destruct (rm_lt _ _ _ _ _ _ _ H Hl) as [Hlt _].
  pose proof (c_base _ _ _ _ _ H) as [B1 _]. unfold slice_to_expire. rewrite run_get, (c_first _ _ _ _ _ H).
  rewrite (run_bind _ _ _ _ _ (getFileSliceForSeq_spec opts codec ms s l (base s + Z.of_nat (rm s)) _ (base s) (first_slice s).2 (rm s) _ _ H Hloc ltac:(lia) ltac:(lia))), run_ret.
  destruct (first_dom _ _ _ _ _ H) as (sl & Hk & _). destruct (lock_index _ sl ms s l K Hk) as (ms1 & E1 & F1 & K1).
  rewrite (run_bind _ _ _ _ _ E1). destruct (first_dom _ _ _ _ _ (proj1 K1)) as (sl1 & Hk1 & Ho1). rewrite (run_slice _ _ _ _ Hk1).
  exists ms1. split; [|done]. rewrite (so_last _ _ _ _ _ _ _ _ Ho1); [done|]. intros E. rewrite E in Hlt. simpl in Hlt. lia.
Qed.

(** Removing the first message moves to the next slice, or not. *)
Lemma at_slice_drop ms' s l m q :
  live s = m :: q -> all s <> [] -> holds [(Idx, (first_slice s).1)] ms' (drop_first s) l -> NoDup (keys s) ->
  (segs s <> [] -> (rm s < length (first_slice s).2)%nat) ->
  at_slice ms' (drop_first s) l (Some ((first_slice s).1, base s + Z.of_nat (length (first_slice s).2) - 1)).
Proof.
  intros Hl Hne K Hd Hlt. unfold at_slice, first_slice, drop_first in *. destruct (segs s) as [|[k al] rest] eqn:Es; [by left|].
  destruct (Nat.eqb_spec (S (rm s)) (length al)) as [E|E]; cbn in *; [|by left].
  right. split; [lia|]. split; [unfold live, stored; cbn; destruct (all s); [done|]; by destruct (mjoin rest.*2)|].
  eapply holds_forget; [done|]. apply not_elem_of_dom. rewrite (c_dom _ _ _ _ _ (proj1 K)). unfold keys in Hd |- *. cbn. rewrite Es in Hd. cbn in Hd.
  apply NoDup_cons in Hd as [Hd _]. by rewrite elem_of_list_to_set.
Qed.

(** The slice of the first message is locked before its index is read. *)
Lemma expire_ready `{!RangeOrder Z} ms s l slice m q :
  at_slice ms s l slice -> live s = m :: q -> all s <> [] ->
  exists ms', match slice with
              | Some (k, e) => if e <? base s + Z.of_nat (rm s) then catch (slice_to_expire opts pressure) else mret (inl slice)
              | None => catch (slice_to_expire opts pressure)
              end ms = (Ok (inl (Some ((first_slice s).1, base s + Z.of_nat (length (first_slice s).2) - 1))), ms') /\
    holds [(Idx, (first_slice s).1)] ms' s l.
Proof.
  intros A Hl Hne.
  assert (holds [] ms s l -> exists ms', catch (slice_to_expire opts pressure) ms =
    (Ok (inl (Some ((first_slice s).1, base s + Z.of_nat (length (first_slice s).2) - 1))), ms') /\ holds [(Idx, (first_slice s).1)] ms' s l) as Hgo.
  { intros K. destruct (slice_to_expire_spec ms s l m q K Hl Hne) as (ms' & E & K'). exists ms'. split; [by apply catch_Ok|done]. }
  destruct slice as [[k e]|]; [|by apply Hgo]. destruct A as [(-> & -> & K)|(He & _ & K)].
  - destruct (rm_lt _ _ _ _ _ _ _ (proj1 K) Hl) as [Hlt _]. destruct (Z.ltb_spec (base s + Z.of_nat (length (first_slice s).2) - 1) (base s + Z.of_nat (rm s))); [lia|].
    by exists ms.
  - destruct (Z.ltb_spec e (base s + Z.of_nat (rm s))); [by apply Hgo|lia].
Qed.

(** The index record of the first message. *)
Lemma first_index ms s l m q :
  holds [(Idx, (first_slice s).1)] ms s l -> live s = m :: q ->
  getMsgIndex opts (first_slice s).1 (first ms) ms = (Ok (Some (index_of codec (4 + rec_len codec (take (rm s) (first_slice s).2)) m)), ms).
Proof.
  intros K Hl. pose proof (proj1 K) as H. destruct (first_dom _ _ _ _ _ H) as (sl & Hk & _). destruct (first_slice_spec _ _ _ _ _ H) as (_ & Hloc & _).
  destruct (first_seq _ _ _ _ _ _ _ _ H Hl Hk) as (Es & <- & Hm). rewrite Es.
  eapply (getMsgIndex_spec opts Hopts codec nonempty); try done. by apply (in_use_spec _ _ _ _ _ _ Idx (first_slice s).1 sl K ltac:(left) Hk).
Qed.

Definition held (ms : FileMsgStore) (s : shape) (l : Lru.t) (o : option (Z * Z)) : Prop :=
  match o with Some (k, _) => k = (first_slice s).1 /\ holds [(Idx, k)] ms s l | None => holds [] ms s l end.

Lemma held_expiration ms s l o z : held ms s l o -> held (set_expiration z ms) s l o.
Proof. destruct o as [[k e]|]; cbn; [intros [-> K]; split; [done|]; revert K|]; by apply holds_frame. Qed.

Lemma expire_loop_spec `{!RangeOrder Z} now maxAge fuel ms s l slice :
  at_slice ms s l slice -> all s <> [] -> (length (live s) < fuel)%nat ->
  exists ms' s' o, expire_loop opts pressure fuel now maxAge slice ms = (Ok o, ms') /\ held ms' s' l o /\ same_end s s' /\
    window s' = Window.expire maxAge now (base s + Z.of_nat (rm s)) (live s) /\ expiration ms' = deadline maxAge now (live s').
Proof.
  revert ms s slice. induction fuel as [|fuel IH]; intros ms s slice A Hne Hf; [lia|]. cbn [expire_loop]. rewrite run_get.
  pose proof (at_slice_core _ _ _ _ A) as H. rewrite (c_first _ _ _ _ _ H), (c_last _ _ _ _ _ H).
  assert (rm s <= length (stored s))%nat as Hrm by by eapply rm_le.
  assert (length (live s) = length (stored s) - rm s)%nat as Hlen by (unfold live; by rewrite length_drop).
  destruct (live s) as [|m q] eqn:Hl; simpl in Hlen.
  - destruct (Z.ltb_spec (base s + Z.of_nat (length (stored s)) - 1) (base s + Z.of_nat (rm s))); [|lia].
    rewrite run_modify. eexists _, s, slice. split; [done|]. split.
    { apply held_expiration. destruct slice as [[k e]|]; [|done]. destruct A as [(-> & _ & K)|(_ & ? & _)]; done. }
    split; [apply same_end_refl|]. cbn. unfold window. by rewrite Hl.
  - destruct (Z.ltb_spec (base s + Z.of_nat (length (stored s)) - 1) (base s + Z.of_nat (rm s))); [lia|].
    destruct (expire_ready ms s l slice m q A Hl Hne) as (ms1 & E1 & K1). rewrite (run_bind _ _ _ _ _ E1), run_get.
    rewrite (run_bind _ _ _ _ _ (catch_Ok _ _ _ _ (first_index _ _ _ _ _ K1 Hl))). cbn [timestamp index_of Window.expire]. unfold Window.expired.
    destruct (Z.leb_spec maxAge (i64 (now - Timestamp m))) as [Hexp|Hkeep].
    + pose proof (proj1 K1) as H1. destruct (first_slice_spec _ _ _ _ _ H1) as (Ek & _ & _). destruct (first_dom _ _ _ _ _ H1) as (sl & Hk & _).
      destruct (remove_indexed_spec opts Hopts codec nonempty _ ms1 s l m q (index_of codec (4 + rec_len codec (take (rm s) (first_slice s).2)) m) K1 Hl eq_refl)
        as (ms2 & E2 & K2).
      assert (removeFirstMsg opts pressure (Some (index_of codec (4 + rec_len codec (take (rm s) (first_slice s).2)) m)) false ms1 = (Ok tt, ms2)) as E3.
      { unfold removeFirstMsg. rewrite run_get. cbv zeta. rewrite Ek in *. by rewrite (run_slice _ _ _ _ Hk), run_ret. }
      rewrite (run_bind _ _ _ _ _ (catch_Ok _ _ _ _ E3)). pose proof (window_drop _ _ _ Hl) as W. injection W as W1 W2.
      destruct (IH ms2 (drop_first s) (Some ((first_slice s).1, base s + Z.of_nat (length (first_slice s).2) - 1))) as (ms3 & s3 & o & E4 & A4 & S4 & W4 & X4).
      { eapply at_slice_drop; [done|done|done|by eapply keys_NoDup|]. intros _. by eapply rm_lt. }
      { by rewrite (e_all _ _ (same_end_drop s)). } { rewrite W2. simpl in Hf. lia. }
      exists ms3, s3, o. split_and!; [done|done|eapply same_end_trans; [apply same_end_drop|done]|by rewrite W4, W1, W2|done].
    + rewrite run_modify. eexists _, s, _. split; [done|]. split; [by apply held_expiration|]. split; [apply same_end_refl|]. split; [unfold window; by rewrite Hl|].
      by rewrite Hl.
Qed.
End Time.
End FileMsgTime.
