(* ===== verification/FileMsgsRefine.v ===== *)
(** * The message store in files refines a window of messages

    Every operation of [FileMsgStore] keeps a window of messages: storing, looking up,
    expiring, the background tasks, flushing and purging.  So does any sequence of them,
    whichever files the files manager closes between. *)

From Stdlib Require Import ZArith Lia Ascii String Sorted.
From stdpp Require Import base list gmap strings.
From S2P Require Import Prelude Bytes Util GoLib Crc Proto ProtoSpec MemStore MsgStore Records RecordsSpec FileSubs FilesManager Cache FileMsgs FileMsgsSpec FileMsgsRemove FileMsgsWrite FileMsgsStore FileMsgsLookup FileMsgsTime.

Local Open Scope Z_scope.

Module FileMsgRefine.
Import Crc CrcSpec Proto ProtoSpec Buffer Rec RecSpec FileOptions FM Cache FileMsg FileMsgSpec FileMsgRemove FileMsgWrite FileMsgStoreSpec FileMsgLookup FileMsgTime.

Section Tasks.
Context (opts : FileStoreOptions) (Hopts : FileOptions.valid opts).
Context (codec : codec MsgProto) (nonempty : forall m, 0 < Sequence m -> c_put codec m <> []) `{!Lawful codec}.
Context (pressure : nat -> list (part * Z)).
Local Abbreviation core := (core opts codec).
Local Abbreviation holds := (holds opts codec).
Local Abbreviation msg_ok := (msg_ok codec).

(** ** Background tasks *)

Lemma holds_closing_one ms ms' s l k :
  holds [] ms s l -> closing ms ms' -> (pend ms = [] \/ k <> key s) -> (forall x, x <> k -> files ms' !! x = files ms !! x) -> holds [] ms' s l.
Proof.
  intros (H & Hst & W) C Hor Hx. split; [eapply core_frame; [apply C|done]|]. split; [by eapply closing_states_ok|].
  eapply closing_writable; try done. destruct Hor as [?|Hk]; [by left|right]. intros x y Ex Ey. rewrite Hx in Ey by done. congruence.
Qed.

Lemma closeFileIfOpened_holds p k sl ms s l :
  holds [] ms s l -> files ms !! k = Some sl -> k <> key s \/ pend ms = [] /\ bufferedMsgs ms = ∅ ->
  exists ms' sl', closeFileIfOpened opts p k ms = (Ok tt, ms') /\ files ms' !! k = Some sl' /\ holds [] ms' s l.
Proof.
  intros K Hk Hor. pose proof (proj1 K) as H.
  assert (unbuffered k ms) as U.
  { unfold unbuffered. rewrite (is_write_key _ _ _ _ _ _ H). destruct Hor as [Hne|?]; [left; by apply bool_decide_false|by right]. }
  destruct (closeFileIfOpened_spec opts p k sl ms Hk U) as (ms' & E & C). destruct (frame_slice' _ _ _ _ (cl_frame _ _ C) Hk) as (sl' & Hk' & _).
  exists ms', sl'. split; [done|]. split; [done|]. eapply (holds_closing_one _ _ _ _ k); [done|done|tauto|].
  intros x Hx. revert E. unfold closeFileIfOpened, when. rewrite (run_slice _ _ _ _ Hk). case_bool_decide; [|by intros [= <-]].
  rewrite (doClose_Some _ _ _ _ _ Hk U). intros [= <-]. unfold put. cbn. by rewrite lookup_insert_ne.
Qed.

Lemma touch_holds lk k sl z ms s l : holds lk ms s l -> files ms !! k = Some sl -> holds lk (put k (set_lastUsed z sl) ms) s l.
Proof.
  intros (H & Hst & W) Hk. split; [eapply core_frame; [by eapply frame_put|done]|]. split.
  - intros k' x p Hx. unfold put in Hx. cbn in Hx. apply lookup_insert_Some in Hx as [[<- <-]|[_ Hx]]; [|by apply (Hst k' x p)].
    specialize (Hst k sl p Hk). by destruct p.
  - intros x Hx. unfold put in Hx. cbn in Hx. apply lookup_insert_Some in Hx as [[-> <-]|[_ Hx]]; [|by apply W]. by apply (W sl).
Qed.

Lemma close_slices_spec now ks ms s l :
  holds [] ms s l -> (forall k, k ∈ ks -> k ∈ dom (files ms)) ->
  exists n ms', close_slices opts ks now ms = (Ok n, ms') /\ holds [] ms' s l.
Proof.
  revert ms. induction ks as [|k ks IH]; intros ms K Hd; cbn [close_slices]; [by exists 0, ms|]. rewrite run_get.
  assert (forall ms', dom (files ms') = dom (files ms) -> forall x, x ∈ ks -> x ∈ dom (files ms')) as Hd'.
  { intros ms' -> x Hx. apply Hd. by right. }
  rewrite (is_write_key _ _ _ _ _ _ (proj1 K)). destruct (negb (hasFDsLimit opts) && bool_decide (k = key s)) eqn:Ec; [apply IH; [done|by apply Hd']|].
  assert (k ∈ dom (files ms)) as Hk by (apply Hd; by left). apply elem_of_dom in Hk as [sl Hk]. rewrite (run_slice _ _ _ _ Hk).
  destruct ((0 <? lastUsed sl) && _).
  - rewrite (run_bind _ _ _ _ _ (update_slice_Some _ _ _ _ Hk)).
    assert (forall ms', holds [] ms' s l -> k <> key s \/ pend ms' = [] /\ bufferedMsgs ms' = ∅) as Hor.
    { intros ms' K'. apply andb_false_iff in Ec as [Ec|Ec]; [right|left; by apply bool_decide_eq_false_1 in Ec].
      destruct (c_mode _ _ _ _ _ (proj1 K')) as [E|(_ & E & ?)]; [by rewrite E in Ec|]. split; [unfold pend; by rewrite E|done]. }
    assert (holds [] (put k (set_lastUsed 0 sl) ms) s l) as K1 by (by eapply touch_holds).
    destruct (closeFileIfOpened_holds Dat k (set_lastUsed 0 sl) _ s l K1) as (ms2 & sl2 & E2 & Hk2 & K2); [unfold put; cbn; by rewrite lookup_insert_eq|by apply Hor|].
    rewrite (run_bind _ _ _ _ _ E2). destruct (closeFileIfOpened_holds Idx k sl2 _ s l K2 Hk2 (Hor _ K2)) as (ms3 & sl3 & E3 & Hk3 & K3).
    rewrite (run_bind _ _ _ _ _ E3). apply IH; [done|]. apply Hd'. by rewrite (c_dom _ _ _ _ _ (proj1 K3)), (c_dom _ _ _ _ _ (proj1 K)).
  - destruct (IH ms K) as (n & ms' & E & K'); [by apply Hd'|]. rewrite (run_bind _ _ _ _ _ E). by eexists _, ms'.
Qed.

Lemma closeUnusedSlices_spec `{!RangeOrder Z} now ms s l :
  holds [] ms s l -> exists ms', closeUnusedSlices opts now ms = (Ok tt, ms') /\ holds [] ms' s l.
Proof.
  intros K. unfold closeUnusedSlices. rewrite run_modify, run_get. assert (holds [] (set_timeTick now ms) s l) as K1 by (by apply (holds_frame opts codec [] ms)).
  unfold when. destruct (checkSlices _); [|by eexists].
  destruct (close_slices_spec now (range (files (set_timeTick now ms))).*1 _ s l K1) as (n & ms2 & E & K2).
  { intros k Hk. apply list_elem_of_fmap in Hk as ([k' x] & -> & Hk). apply elem_of_range in Hk. apply elem_of_dom. by eexists. }
  rewrite (run_bind _ _ _ _ _ E). destruct (n =? 0); eexists; (split; [done|]); [by apply (holds_frame opts codec [] ms2)|done].
Qed.

(** Only what is in the files changes, and messages may be written there. *)
Record same_window (s s' : shape) : Prop := {
  w_window : window s' = window s;
  w_all : all s' = all s;
  w_base : wbase s' = wbase s
}.

Lemma same_window_refl s : same_window s s.
Proof. by split. Qed.
#[local] Hint Resolve same_window_refl : core.
Lemma same_window_files d i s : same_window s (with_files d i s).
Proof. by split. Qed.

(** The buffer is flushed when its size changes. *)
Lemma shrinkBuffer_spec ms s l :
  holds [] ms s l -> exists ms' s', shrinkBuffer ms = (Ok tt, ms') /\ holds [] ms' s' l /\ same_window s s'.
Proof.
  intros K. pose proof (proj1 K) as H. pose proof (core_wdisk _ _ _ _ _ H) as Wd. unfold shrinkBuffer. rewrite run_get.
  destruct (bw ms) as [b|] eqn:Eb; [|by exists ms, s]. destruct (wbuf ms) as [w|] eqn:Ew; [|by exists ms, s].
  rewrite (c_writeSlice _ _ _ _ _ H). destruct (wd_slice _ _ _ _ _ _ _ Wd) as (sl & Hk & Hc & Hi). rewrite (run_slice _ _ _ _ Hk). unfold when.
  case_bool_decide; [|by exists ms, s]. cbv zeta.
  assert (exists d w', disk (tryShrinkBuffer b (mkIO (content (file sl)) (Some w)) w).2 = dat_of opts codec (take d (all s)) /\
    buf (tryShrinkBuffer b (mkIO (content (file sl)) (Some w)) w).2 = Some w' /\ pending w' = records opts codec (drop d (all s)) /\
    (d = length (all s) \/ d = nd s) /\ (ni s <= d <= length (all s))%nat) as (d & w' & E1 & E2 & E3 & Hd & Hb).
  { pose proof (wd_bounds _ _ _ _ _ _ _ Wd) as Hb. pose proof (wd_pend _ _ _ _ _ _ _ Wd) as Hp. unfold pend in Hp. rewrite Ew in Hp.
    unfold tryShrinkBuffer. destruct (bufSize b =? minShrinkSize b); [exists (nd s), w; split_and!; (done || lia || by right)|].
    destruct (negb (shrinkReq b)); [exists (nd s), w; split_and!; (done || lia || by right)|]. exists (length (all s)). eexists.
    split_and!; [|done|by rewrite drop_all|by left|lia|lia]. cbn. rewrite Hc, Hp, firstn_all. apply dat_app. lia. }
  rewrite (run_bind _ _ _ _ _ (update_slice_Some _ _ _ _ Hk)). eexists _, (with_files d (ni s) s). split; [done|]. split; [|apply same_window_files].
  rewrite E1, E2. eapply holds_rewrote; [done| | |done].
  - split; try done; cbn.
    + intros x Hx. by rewrite lookup_insert_ne.
    + intros x Hx. assert (x = sl) as -> by congruence. rewrite lookup_insert_eq. eexists _, (content (idxFile sl)). unfold set_contents. by destruct (idxFile sl).
  - split; cbn; try done; try apply Wd.
    + eexists. rewrite lookup_insert_eq. by split_and!.
    + destruct (wd_mode _ _ _ _ _ _ _ Wd) as [?|(? & _)]; [by left|congruence].
Qed.

Lemma evictCache_spec now ms s l :
  holds [] ms s l -> exists ms' l', evictCache now ms = (Ok tt, ms') /\ holds [] ms' s l'.
Proof.
  intros K. unfold evictCache, when. rewrite run_get. destruct (tryEvict _); [|by exists ms, l].
  destruct (CacheSpec.evict_holds now (cache ms) l (c_cache _ _ _ _ _ (proj1 K))) as (c & E & Hc).
  exists (set_cache c ms), (Lru.evict now l). split; [apply on_cache_Ok; by rewrite E|]. eapply holds_cache; [done|done|].
  apply Forall_forall. intros x Hx. apply CacheSpec.lru_evict_elems in Hx. eapply cached_elem; [apply K|done].
Qed.

(** Flushing writes everything to the files. *)
Lemma Flush_spec ms s l :
  holds [] ms s l ->
  exists ms', FileMsg.Flush opts pressure ms = (Ok tt, ms') /\ holds [] ms' (with_files (length (all s)) (length (all s)) s) l.
Proof.
  intros K. unfold FileMsg.Flush. rewrite run_get, (c_writeSlice _ _ _ _ _ (proj1 K)).
  destruct (lock_stable opts Hopts codec nonempty pressure ms s l K) as (ms1 & E1 & _ & K1). rewrite (run_bind _ _ _ _ _ E1).
  destruct (holds_flushed opts codec nonempty _ ms1 s l (key s) false K1 eq_refl) as (ms2 & E2 & _ & K2). rewrite (run_bind _ _ _ _ _ E2).
  by apply (unlock_stable opts Hopts codec nonempty _ (with_files (length (all s)) (length (all s)) s)).
Qed.

Lemma autoSync_spec ms s l :
  holds [] ms s l -> exists ms' s', autoSync opts pressure ms = (Ok tt, ms') /\ holds [] ms' s' l /\ same_window s s'.
Proof.
  intros K. unfold autoSync. rewrite run_get, (c_writeSlice _ _ _ _ _ (proj1 K)). unfold when. destruct (_ && _); [|by exists ms, s].
  destruct (lock_stable opts Hopts codec nonempty pressure ms s l K) as (ms1 & E1 & _ & K1). rewrite (run_bind _ _ _ _ _ (catch_Ok _ _ _ _ E1)).
  destruct (holds_flushed opts codec nonempty _ ms1 s l (key s) true K1 eq_refl) as (ms2 & E2 & _ & K2). rewrite (run_bind _ _ _ _ _ (catch_Ok _ _ _ _ E2)).
  destruct (unlock_stable opts Hopts codec nonempty _ (with_files (length (all s)) (length (all s)) s) _ K2) as (ms3 & E3 & K3).
  exists ms3. eexists. split; [exact E3|]. split; [done|apply same_window_files].
Qed.
End Tasks.

(** ** Operations and what they mean for the window *)

Abbreviation win := (option (Z * list MsgProto)).

Inductive op :=
  | DoStore (m : MsgProto)
  | DoLookup (now seq : Z)
  | DoFirstMsg (now : Z)
  | DoLastMsg (now : Z)
  | DoState
  | DoBounds
  | DoFromTimestamp (ts : Z)
  | DoBackground (now : Z) (b : bkg)
  | DoFlush
  | DoEmpty.

Inductive answer :=
  | Seq (seq : Z)
  | Msg (m : option MsgProto)
  | Two (a b : Z)
  | Next (b : bkg)
  | Done.

Definition messages (w : win) : list MsgProto := match w with Some (_, q) => q | None => [] end.
Definition first_of (w : win) : Z := match w with Some (f, _) => f | None => 0 end.

Section Refine.
Context (opts : FileStoreOptions) (Hopts : FileOptions.valid opts) (limits : Mem.MsgStoreLimits) (channelName : string).
Context (codec : codec MsgProto) (nonempty : forall m, 0 < Sequence m -> c_put codec m <> []) `{!Lawful codec}.
Context (pressure : nat -> list (part * Z)) `{!RangeOrder Z}.
Context (fillers_ok : forall ts seq, is_i64 ts -> 0 < seq < two64 - 1 -> msg_ok codec (filler channelName ts seq)).
Context (Hread : ReadBufferSize opts <= 0 \/ 32 <= ReadBufferSize opts).
Context (low : Z).
Local Abbreviation holds := (holds opts codec).
Local Abbreviation stable := (stable opts codec low).
Local Abbreviation empty_ok := (empty_ok opts).
Local Abbreviation Size := (Size codec).

Definition exec (o : op) : M answer :=
  match o with
  | DoStore m => n ← Store opts limits channelName codec pressure m; mret (Seq n)
  | DoLookup now seq => m ← Lookup opts codec pressure now seq; mret (Msg m)
  | DoFirstMsg now => m ← FirstMsg opts codec pressure now; mret (Msg m)
  | DoLastMsg now => m ← LastMsg opts codec pressure now; mret (Msg m)
  | DoState => ms ← get_store; mret (Two (State ms).1 (State ms).2)
  | DoBounds => ms ← get_store; mret (Two (FirstAndLastSequence ms).1 (FirstAndLastSequence ms).2)
  | DoFromTimestamp ts => n ← GetSequenceFromTimestamp opts pressure ts; mret (Seq n)
  | DoBackground now b => b ← backgroundTasks opts limits pressure now b; mret (Next b)
  | DoFlush => _ ← FileMsg.Flush opts pressure; mret Done
  | DoEmpty => _ ← FileMsg.Empty opts; mret Done
  end.

(** A round of the background tasks looks for messages to expire. *)
Definition due (now : Z) (b : bkg) : bool :=
  (0 <? Mem.MaxAge limits) && (0 <? nextExpiration b) && (nextExpiration b <=? now).

Definition wexpire (now : Z) (w : win) : win :=
  match w with Some (f, q) => Some (Window.expire (Mem.MaxAge limits) now f q) | None => None end.

(** The answer of an operation, and the window after it. *)
Definition spec (o : op) (w : win) (a : answer) (w' : win) : Prop :=
  match o with
  | DoStore m => a = Seq (Sequence m) /\ w' = wstore limits channelName codec m w
  | DoLookup _ seq => a = Msg (Window.lookup w seq) /\ w' = w
  | DoFirstMsg _ => a = Msg (head (messages w)) /\ w' = w
  | DoLastMsg _ => a = Msg (list.last (messages w)) /\ w' = w
  | DoState => a = Two (Z.of_nat (length (messages w))) (u64 (Window.bytes Size (messages w))) /\ w' = w
  | DoBounds => a = Two (first_of w) (Window.wlast w) /\ w' = w
  | DoFromTimestamp ts =>
      w' = w /\ exists seq, a = Seq seq /\
        match w with None => seq = 0 | Some (f, q) => MemSpec.time_sorted q -> from_ok f q ts seq end
  | DoBackground now b =>
      w' = (if due now b then wexpire now w else w) /\
      exists b', a = Next b' /\ nextExpiration b' = if due now b then deadline (Mem.MaxAge limits) now (messages w') else nextExpiration b
  | DoFlush => a = Done /\ w' = w
  | DoEmpty => a = Done /\ w' = None
  end.

Definition op_ok (o : op) : Prop :=
  match o with DoStore m => msg_ok codec m /\ in_range low m | _ => True end.

(** *** Without messages *)

Lemma empty_lookup now seq ms : empty_ok ms -> exists ms', lookup opts codec pressure now seq ms = (Ok None, ms') /\ empty_ok ms'.
Proof.
  intros Z. pose proof Z as []. unfold lookup. rewrite run_get, z_first0, z_last0. destruct (_ || _); [by exists ms|].
  destruct (CacheSpec.get_holds now seq (cache ms) [] z_cache0) as (c & E & Hc). rewrite (run_bind _ _ _ _ _ (on_cache_Ok _ _ _ _ E)).
  cbn [Lru.get Lru.pick fst]. rewrite z_bufd0, lookup_empty. unfold read_from_disk, getFileSliceForSeq. rewrite run_assoc, run_get.
  rewrite bool_decide_true by done. rewrite run_ret. eexists. split; [done|]. by split.
Qed.

Lemma range_empty : range (∅ : gmap Z fileSlice) = [].
Proof.
  destruct (range (∅ : gmap Z fileSlice)) as [|[k x] t] eqn:E; [done|]. assert ((k, x) ∈ range (∅ : gmap Z fileSlice)) as H by (rewrite E; by left).
  by apply elem_of_range in H.
Qed.

Lemma empty_background now b ms :
  empty_ok ms -> exists ms' b', backgroundTasks opts limits pressure now b ms = (Ok b', ms') /\ empty_ok ms' /\
    nextExpiration b' = if due now b then 0 else nextExpiration b.
Proof.
  intros Z. unfold backgroundTasks.
  assert (exists ms1, closeUnusedSlices opts now ms = (Ok tt, ms1) /\ empty_ok ms1) as (ms1 & E1 & Z1).
  { unfold closeUnusedSlices. rewrite run_modify, run_get. cbn [files set_timeTick]. rewrite (z_files _ _ Z), range_empty. unfold when.
    destruct (checkSlices _); eexists; (split; [done|]); destruct Z; by split. }
  rewrite (run_bind _ _ _ _ _ E1), run_get.
  assert (shrinkBuffer ms1 = (Ok tt, ms1)) as E2.
  { unfold shrinkBuffer. rewrite run_get, (z_wbuf _ _ Z1). by destruct (bw ms1). }
  cbv zeta. rewrite (run_bind _ _ ms1 tt ms1) by (unfold when; by destruct (_ && _)).
  assert (exists n ms2, (if due now b then expireMsgs opts pressure now (Mem.MaxAge limits) else mret (nextExpiration b)) ms1 = (Ok n, ms2) /\
    empty_ok ms2 /\ n = if due now b then 0 else nextExpiration b) as (n & ms2 & E3 & Z2 & Hn).
  { destruct (due now b); [|by eexists _, ms1]. unfold expireMsgs. rewrite run_get, (z_first _ _ Z1). cbn [Z.eqb]. rewrite run_modify.
    eexists _, _. split; [done|]. split; [|done]. destruct Z1. by split. }
  rewrite (run_bind _ _ _ _ _ E3).
  assert (exists ms3, when (i64 (lastCacheCheck b + cacheTTL) <=? now) (evictCache now) ms2 = (Ok tt, ms3) /\ empty_ok ms3) as (ms3 & E4 & Z3).
  { unfold when. destruct (_ <=? _); [|by exists ms2]. unfold evictCache, when. rewrite run_get. destruct (tryEvict _); [|by exists ms2].
    destruct (CacheSpec.evict_holds now (cache ms2) [] (z_cache _ _ Z2)) as (c & E & Hc). exists (set_cache c ms2).
    split; [apply on_cache_Ok; by rewrite E|]. destruct Z2. by split. }
  rewrite (run_bind _ _ _ _ _ E4), (run_bind _ _ ms3 tt ms3).
  - eexists ms3, _. split; [done|]. by split.
  - unfold when. destruct (_ && _); [|done]. unfold autoSync. by rewrite run_get, (z_writeSlice _ _ Z3).
Qed.

(** *** With messages *)

Lemma stable_window ms s s' l f q :
  holds [] ms s' l -> same_window s s' -> all s <> [] -> low <= wbase s -> window s = (f, q) -> stable ms (Some (f, q)).
Proof.
  intros K [W1 W2 W3] Hne Hlow Hw. exists s', l. rewrite W1, W2, W3. by split_and!.
Qed.

Lemma window_head s f q : window s = (f, q) -> base s + Z.of_nat (rm s) = f /\ live s = q.
Proof. by intros [= <- <-]. Qed.

Lemma expireMsgs_spec now maxAge ms s l :
  holds [] ms s l -> all s <> [] ->
  exists ms' s', expireMsgs opts pressure now maxAge ms = (Ok (deadline maxAge now (live s')), ms') /\ holds [] ms' s' l /\ same_end s s' /\
    window s' = Window.expire maxAge now (base s + Z.of_nat (rm s)) (live s).
Proof.
  intros K Hne. unfold expireMsgs. rewrite run_get. pose proof (c_first _ _ _ _ _ (proj1 K)) as Hf. pose proof (c_base _ _ _ _ _ (proj1 K)) as [B1 _].
  destruct (Z.eqb_spec (first ms) 0); [lia|].
  destruct (expire_loop_spec opts Hopts codec nonempty pressure now maxAge (S (Z.to_nat (FileMsg.last ms - first ms + 1))) ms s l None)
    as (ms1 & s1 & o & E & A & S1 & W1 & X1); [done|done| |].
  { rewrite Hf, (c_last _ _ _ _ _ (proj1 K)). unfold live. rewrite length_drop. lia. }
  rewrite (run_bind _ _ _ _ _ E).
  assert (exists ms2, (match o with Some (k, _) => unlockIndexFile k | None => mret tt end) ms1 = (Ok tt, ms2) /\ holds [] ms2 s1 l /\ expiration ms2 = expiration ms1)
    as (ms2 & E2 & K2 & X2).
  { destruct o as [[k e]|]; [|by exists ms1]. destruct A as [-> A]. destruct (first_dom _ _ _ _ _ (proj1 A)) as (sl & Hk & _).
    destruct (unlock_index opts Hopts codec nonempty (first_slice s1).1 ms1 s1 l A) as (ms2 & E2 & K2); [apply elem_of_dom; by eexists|].
    exists ms2. split; [done|]. split; [done|]. revert E2. unfold unlockIndexFile, unlockFile. rewrite (run_slice _ _ _ _ Hk).
    case_bool_decide; [|done]. rewrite (set_state_Some _ _ _ _ _ Hk). by intros [= <-]. }
  rewrite (run_bind _ _ _ _ _ E2), run_get. exists ms2, s1. rewrite X2, X1. by split_and!.
Qed.

Lemma background_spec now b ms f q :
  stable ms (Some (f, q)) -> exists ms' b' w', backgroundTasks opts limits pressure now b ms = (Ok b', ms') /\ stable ms' w' /\
    w' = (if due now b then wexpire now (Some (f, q)) else Some (f, q)) /\
    nextExpiration b' = if due now b then deadline (Mem.MaxAge limits) now (messages w') else nextExpiration b.
Proof.
  intros (s & l & K & Hne & Hlow & Hw). unfold backgroundTasks.
  destruct (closeUnusedSlices_spec opts codec nonempty now ms s l K) as (ms1 & E1 & K1). rewrite (run_bind _ _ _ _ _ E1), run_get. cbv zeta.
  assert (exists ms2 s2, when (bool_decide (is_Some (bw ms1)) && (5000000000 <=? i64 (now - lastBufShrink b))) shrinkBuffer ms1 = (Ok tt, ms2) /\
    holds [] ms2 s2 l /\ same_window s s2) as (ms2 & s2 & E2 & K2 & [A1 A2 A3]).
  { unfold when. destruct (_ && _); [by apply shrinkBuffer_spec|exists ms1, s; split_and!; [done|done|apply same_window_refl]]. }
  rewrite (run_bind _ _ _ _ _ E2). rewrite Hw in A1. destruct (window_head _ _ _ A1) as [Ef Eq].
  assert (exists n ms3 s3, (if due now b then expireMsgs opts pressure now (Mem.MaxAge limits) else mret (nextExpiration b)) ms2 = (Ok n, ms3) /\
    holds [] ms3 s3 l /\ all s3 = all s /\ wbase s3 = wbase s /\
    Some (window s3) = (if due now b then wexpire now (Some (f, q)) else Some (f, q)) /\
    n = if due now b then deadline (Mem.MaxAge limits) now (live s3) else nextExpiration b) as (n & ms3 & s3 & E3 & K3 & A4 & A5 & A6 & A7).
  { destruct (due now b); [|exists (nextExpiration b), ms2, s2; rewrite A1; by split_and!].
    destruct (expireMsgs_spec now (Mem.MaxAge limits) ms2 s2 l K2) as (ms3 & s3 & E3 & K3 & S3 & W3); [by rewrite A2|].
    eexists _, ms3, s3. split; [done|]. split; [done|]. rewrite (e_all _ _ S3). split; [done|]. rewrite Ef, Eq in W3. rewrite W3.
    split_and!; [|done|done]. pose proof (wbase_end s3) as B3. rewrite (e_all _ _ S3), (e_end _ _ S3), <- (wbase_end s2) in B3. lia. }
  fold (due now b). rewrite (run_bind _ _ _ _ _ E3).
  assert (exists ms4 l4, when (i64 (lastCacheCheck b + cacheTTL) <=? now) (evictCache now) ms3 = (Ok tt, ms4) /\ holds [] ms4 s3 l4) as (ms4 & l4 & E4 & K4).
  { unfold when. destruct (i64 (lastCacheCheck b + cacheTTL) <=? now); [by eapply evictCache_spec|by exists ms3, l]. }
  rewrite (run_bind _ _ _ _ _ E4).
  assert (exists ms5 s5, when ((0 <? AutoSync opts) && (i64 (lastAutoSync b + AutoSync opts) <=? now)) (autoSync opts pressure) ms4 = (Ok tt, ms5) /\
    holds [] ms5 s5 l4 /\ same_window s3 s5) as (ms5 & s5 & E5 & K5 & S5).
  { unfold when. destruct ((0 <? AutoSync opts) && _); [by eapply autoSync_spec|exists ms4, s3; split_and!; [done|done|apply same_window_refl]]. }
  rewrite (run_bind _ _ _ _ _ E5). eexists ms5, _, (Some (window s3)). split; [done|]. split; [|split; [done|by rewrite A7]].
  destruct (window s3) as [f3 q3] eqn:W3. eapply stable_window; try done; [by rewrite A4|lia].
Qed.

Lemma empty_exec o ms :
  empty_ok ms -> op_ok o -> exists a ms' w', exec o ms = (Ok a, ms') /\ stable ms' w' /\ spec o None a w'.
Proof.
  intros Z Ho. destruct o as [m|now seq|now|now| | |ts|now b| |]; cbn [exec op_ok spec] in *.
  - destruct Ho as [Hm Hr]. destruct (file_Store_spec opts Hopts limits channelName codec nonempty pressure fillers_ok low ms None m Z Hm Hr) as (ms' & E & St).
    rewrite (run_bind _ _ _ _ _ E). by eexists _, ms', _.
  - destruct (empty_lookup now seq ms Z) as (ms' & E & Z'). unfold Lookup. rewrite (run_bind _ _ _ _ _ E). by exists (Msg None), ms', None.
  - unfold FirstMsg. rewrite run_assoc, run_get, (z_firstMsg _ _ Z). destruct (empty_lookup now (first ms) ms Z) as (ms' & E & Z').
    rewrite run_assoc, (run_bind _ _ _ _ _ E), run_assoc, run_modify, run_ret. exists (Msg None). eexists _, None. split; [done|].
    split; [|done]. destruct Z'. by split.
  - unfold LastMsg. rewrite run_assoc, run_get, (z_lastMsg _ _ Z). destruct (empty_lookup now (FileMsg.last ms) ms Z) as (ms' & E & Z').
    rewrite run_assoc, (run_bind _ _ _ _ _ E), run_assoc, run_modify, run_ret. exists (Msg None). eexists _, None. split; [done|].
    split; [|done]. destruct Z'. by split.
  - rewrite run_get. unfold State. rewrite (z_count _ _ Z), (z_bytes _ _ Z). by eexists _, ms, None.
  - rewrite run_get. unfold FirstAndLastSequence. rewrite (z_first _ _ Z), (z_last _ _ Z). by eexists _, ms, None.
  - unfold GetSequenceFromTimestamp. rewrite run_assoc, run_get, (z_first _ _ Z). cbn [Z.eqb]. rewrite run_ret. eexists _, ms, None.
    split; [done|]. split; [done|]. split; [done|]. by exists 0.
  - destruct (empty_background now b ms Z) as (ms' & b' & E & Z' & Hn). rewrite (run_bind _ _ _ _ _ E). exists (Next b'), ms', None.
    split; [done|]. split; [done|]. split; [by destruct (due now b)|]. by exists b'.
  - unfold FileMsg.Flush. rewrite run_assoc, run_get, (z_writeSlice _ _ Z), run_ret. by exists Done, ms, None.
  - unfold FileMsg.Empty. rewrite run_modify. eexists _, _, None. split; [done|]. split; [|done].
    destruct Z. split; cbn; try done; [by destruct (bw ms)|by destruct (bw ms)| |by eapply CacheSpec.empty_holds].
    destruct z_mode0 as [?|(-> & _ & ->)]; [by left|right]. done.
Qed.

Lemma Empty_spec ms s l : holds [] ms s l -> exists ms', FileMsg.Empty opts ms = (Ok tt, ms') /\ empty_ok ms'.
Proof.
  intros K. pose proof (proj1 K) as H. eexists. split; [done|]. pose proof (c_buf _ _ _ _ _ H) as Hb.
  assert (bw ms = None -> bufferedSeqs ms = []) as Hs.
  { intros E. rewrite E in Hb. destruct Hb as [_ Hb]. rewrite (c_bufd _ _ _ _ _ H) in Hb. apply buffered_empty in Hb. by rewrite (c_seqs _ _ _ _ _ H), Hb. }
  split; cbn; try done; [destruct (bw ms); [done|by apply Hs]|destruct (bw ms); [done|by apply Hb]| |eapply CacheSpec.empty_holds, H].
  destruct (c_mode _ _ _ _ _ H) as [?|(-> & _ & ->)]; [by left|by right].
Qed.

Lemma exec_stable o ms w :
  stable ms w -> op_ok o -> exists a ms' w', exec o ms = (Ok a, ms') /\ stable ms' w' /\ spec o w a w'.
Proof.
  intros St Ho. destruct w as [[f q]|]; [|by apply empty_exec]. pose proof St as (s & l & K & Hne & Hlow & Hw).
  destruct (window_head _ _ _ Hw) as [Ef Eq]. pose proof (proj1 K) as H.
  assert (forall ms' s' l', holds [] ms' s' l' -> same_window s s' -> stable ms' (Some (f, q))) as Hst.
  { intros ms' s' l' K' S'. by eapply stable_window. }
  pose proof (same_window_refl s) as Hrefl.
  destruct o as [m|now seq|now|now| | |ts|now b| |]; cbn [exec op_ok spec] in *.
  - destruct Ho as [Hm Hr]. destruct (file_Store_spec opts Hopts limits channelName codec nonempty pressure fillers_ok low ms (Some (f, q)) m St Hm Hr) as (ms' & E & St').
    rewrite (run_bind _ _ _ _ _ E). by eexists _, ms', _.
  - destruct (lookup_spec opts Hopts codec nonempty pressure Hread now ms s l seq K) as (ms' & l' & E & K'). unfold Lookup. rewrite (run_bind _ _ _ _ _ E).
    eexists _, ms', _. split; [done|]. split; [by eapply Hst|]. by rewrite Hw.
  - destruct (FirstMsg_spec opts Hopts codec nonempty pressure Hread now ms s l K) as (ms' & l' & E & K'). rewrite (run_bind _ _ _ _ _ E).
    eexists _, ms', _. split; [done|]. split; [by eapply Hst|]. by rewrite Eq.
  - destruct (LastMsg_spec opts Hopts codec nonempty pressure Hread now ms s l K) as (ms' & l' & E & K'). rewrite (run_bind _ _ _ _ _ E).
    eexists _, ms', _. split; [done|]. split; [by eapply Hst|]. by rewrite Eq.
  - rewrite run_get. unfold State. rewrite (c_count _ _ _ _ _ H), (c_bytes _ _ _ _ _ H), Eq. by eexists _, ms, _.
  - rewrite run_get. unfold FirstAndLastSequence. rewrite (c_first _ _ _ _ _ H), (c_last _ _ _ _ _ H), Ef. eexists _, ms, _.
    split; [done|]. split; [done|]. split; [|done]. assert (rm s <= length (stored s))%nat as Hrm by by eapply rm_le.
    cbn [fst snd first_of]. f_equal. rewrite <- Hw. by rewrite window_last.
  - destruct (FromTimestamp_spec opts Hopts codec nonempty pressure ts ms s l K Hne) as (ms' & seq & E & K' & Hf). rewrite (run_bind _ _ _ _ _ E).
    eexists _, ms', _. split; [done|]. split; [by eapply Hst|]. split; [done|]. exists seq. split; [done|]. by rewrite Ef, Eq in Hf.
  - destruct (background_spec now b ms f q St) as (ms' & b' & w' & E & St' & Ew & Hn). rewrite (run_bind _ _ _ _ _ E). exists (Next b'), ms', w'.
    split; [done|]. split; [done|]. split; [done|]. by exists b'.
  - destruct (Flush_spec opts Hopts codec nonempty pressure ms s l K) as (ms' & E & K'). rewrite (run_bind _ _ _ _ _ E). eexists _, ms', _. split; [done|].
    split; [eapply Hst; [done|apply same_window_files]|done].
  - destruct (Empty_spec ms s l K) as (ms' & E & Z'). rewrite (run_bind _ _ _ _ _ E). by eexists _, ms', None.
Qed.

(** *** Sequences of operations *)

Fixpoint exec_all (os : list op) : M (list answer) :=
  match os with
  | [] => mret []
  | o :: os => a ← exec o; l ← exec_all os; mret (a :: l)
  end.

Inductive spec_all : win -> list op -> list answer -> win -> Prop :=
  | spec_nil w : spec_all w [] [] w
  | spec_cons o os a l w w1 w2 : spec o w a w1 -> spec_all w1 os l w2 -> spec_all w (o :: os) (a :: l) w2.

Lemma exec_all_stable os ms w :
  stable ms w -> Forall op_ok os -> exists l ms' w', exec_all os ms = (Ok l, ms') /\ stable ms' w' /\ spec_all w os l w'.
Proof.
  intros St Hos. revert ms w St. induction Hos as [|o os Ho _ IH]; intros ms w St; [exists [], ms, w; by repeat constructor|].
  destruct (exec_stable o ms w St Ho) as (a & ms1 & w1 & E1 & St1 & S1). destruct (IH ms1 w1 St1) as (l & ms2 & w2 & E2 & St2 & S2).
  exists (a :: l), ms2, w2. cbn [exec_all]. rewrite (run_bind _ _ _ _ _ E1), (run_bind _ _ _ _ _ E2). split_and!; [done|done|by econstructor].
Qed.

(** A new store has no window. *)
Lemma new_store_stable now : FileDescriptorsLimit opts <= 0 \/ BufferSize opts <= 0 -> stable (new_store opts now) None.
Proof.
  intros Hm. split; try done; [|apply CacheSpec.init_repr]. unfold mode, hasFDsLimit, new_store. cbn. destruct Hm as [Hm|Hm].
  - left. by apply Z.ltb_ge.
  - right. by destruct (Z.ltb_spec 0 (BufferSize opts)); [lia|].
Qed.

(** [C13] The message store in files refines a window of messages.  On a store that starts
    empty, any sequence of [Store], [Lookup], [FirstMsg], [LastMsg], [State],
    [FirstAndLastSequence], [GetSequenceFromTimestamp], [Flush], [Empty] and rounds of the
    background tasks succeeds, with the answers of the window: a message is found under its
    sequence until the limits or its age remove it, however it is spread over the write
    buffer, the cache and the slices, and whichever files the files manager closes.  Files
    can be written and read; the options have a limit on file descriptors or a write buffer
    but not both, and a read buffer that is off or holds an index record of 32 bytes; see
    [index_closed_alone] and [small_read_buffer_panics] for the others.  Messages have less
    than 2^32 bytes and sequences from a range of 2^31 ([op_ok]), gaps included. *)
Theorem file_store_refines_window now os :
  FileDescriptorsLimit opts <= 0 \/ BufferSize opts <= 0 -> Forall op_ok os ->
  exists l ms' w', exec_all os (new_store opts now) = (Ok l, ms') /\ spec_all None os l w' /\ stable ms' w'.
Proof.
  intros Hm Hos. destruct (exec_all_stable os (new_store opts now) None (new_store_stable now Hm) Hos) as (l & ms' & w' & E & St & S).
  by exists l, ms', w'.
Qed.

(** [C15] The files of a store are well formed after any operations: each slice holds
    consecutive messages, its data file the records of a prefix of them after the version,
    its index file the index records of a prefix that is no longer, and its counters and its
    first and last sequences agree with them.  The store is as for the theorem above: no
    limit on file descriptors together with a write buffer, no read buffer of less than 32
    bytes, messages of less than 2^32 bytes with sequences from a range of 2^31. *)
Theorem file_slices_well_formed now os :
  FileDescriptorsLimit opts <= 0 \/ BufferSize opts <= 0 -> Forall op_ok os ->
  exists l ms', exec_all os (new_store opts now) = (Ok l, ms') /\
    map_Forall (fun _ sl => exists b al r d i, slice_ok opts codec b al r d i sl) (files ms').
Proof.
  intros Hm Hos. destruct (exec_all_stable os (new_store opts now) None (new_store_stable now Hm) Hos) as (l & ms' & w' & E & St & _).
  exists l, ms'. split; [done|]. intros k sl Hk. destruct w' as [[f q]|]; [|by rewrite (z_files _ _ St) in Hk].
  destruct St as (s & l' & K & _). by eapply core_slice; [apply K|].
Qed.

(** ** The interface of message stores *)

(** The answers of a store whose lookups happen at the time [now]. *)
Definition file_store (now : Z) : MsgStore.MsgStore FileMsgStore := {|
  MsgStore.Lookup ms seq := match (FileMsg.Lookup opts codec pressure now seq ms).1 with Ok m => inl m | _ => inr LookupError end;
  MsgStore.FirstAndLastSequence := FileMsg.FirstAndLastSequence;
  MsgStore.GetSequenceFromTimestamp ms ts :=
    match (FileMsg.GetSequenceFromTimestamp opts pressure ts ms).1 with Ok seq => Ok seq | Err _ => Err LookupError | Panic => Panic end
|}.

Lemma stable_wf ms w : stable ms w -> wf_window w.
Proof.
  destruct w as [[f q]|]; [|done]. intros (s & l & K & _ & _ & Hw). destruct (window_head _ _ _ Hw) as [<- <-].
  destruct (live_numbered _ _ _ _ _ (proj1 K)) as [Hn _]. pose proof (c_base _ _ _ _ _ (proj1 K)) as [B1 B2].
  assert (rm s <= length (stored s))%nat as Hrm by (eapply rm_le, K).
  assert (length (live s) = length (stored s) - rm s)%nat by (unfold live; by rewrite length_drop). cbn. split_and!; [lia|lia|done].
Qed.

Program Definition file_store_spec (now : Z) : @MsgStoreSpec FileMsgStore (file_store now) := {| view := stable |}.
Next Obligation. intros now ms w. apply stable_wf. Qed.
Next Obligation.
  intros now ms w seq St. destruct (exec_stable (DoLookup now seq) ms w St I) as (a & ms' & w' & E & _ & -> & _). cbn in E |- *.
  destruct (FileMsg.Lookup opts codec pressure now seq ms) as [r ms1] eqn:E1. unfold mbind, M_bind in E. rewrite E1 in E.
  destruct r; cbn in E; [|done|done]. by injection E as -> _.
Qed.
Next Obligation.
  intros now ms w St. destruct (exec_stable DoBounds ms w St I) as (a & ms' & w' & E & _ & -> & _). cbn in E |- *. injection E as E1 E2 _.
  unfold FileMsg.FirstAndLastSequence. rewrite E1, E2. by destruct w as [[f q]|].
Qed.
Next Obligation.
  intros now ms w ts St Hs. destruct (exec_stable (DoFromTimestamp ts) ms w St I) as (a & ms' & w' & E & _ & _ & seq & -> & Hseq). cbn in E |- *.
  destruct (FileMsg.GetSequenceFromTimestamp opts pressure ts ms) as [r ms1] eqn:E1. unfold mbind, M_bind in E. rewrite E1 in E.
  destruct r; cbn in E; [|done|done]. injection E as -> _. exists seq. split; [done|]. destruct w as [[f q]|]; [|done].
  destruct (Hseq (Hs f q eq_refl)) as [F1 F2 F3]. done.
Qed.
End Refine.
End FileMsgRefine.

(** ** Samples *)

Module FileMsgSample.
Import Crc CrcSpec Proto ProtoSpec Buffer Rec RecSpec FileOptions FM Cache FileMsg FileMsgSpec FileMsgWrite FileMsgStoreSpec FileMsgRefine.

(** Messages of the subject "foo" as bytes: the sequence, the time, the data. *)
Definition plain_put (m : MsgProto) : list byte := put_le 8 (Sequence m) ++ put_le 8 (u64 (Timestamp m)) ++ Data m.
Definition plain_get (_ : MsgProto) (d : list byte) : outcome proto_error MsgProto :=
  if (length d <? 16)%nat then Err UnexpectedEOF
  else Ok (mkMsg (get_le (take 8 d)) "foo" "" (drop 16 d) (i64 (get_le (take 8 (drop 8 d)))) false 0 0).
Definition plain : codec MsgProto :=
  mkCodec MsgProto (mkMsg 0 "" "" [] 0 false 0 0) plain_put (fun m => 16 + Z.of_nat (length (Data m))) plain_get
    (fun m => is_u64 (Sequence m) /\ is_i64 (Timestamp m) /\ m = mkMsg (Sequence m) "foo" "" (Data m) (Timestamp m) false 0 0).

Lemma length_plain m : length (plain_put m) = (16 + length (Data m))%nat.
Proof. unfold plain_put. by rewrite !length_app, !length_put_le. Qed.

#[export] Instance plain_lawful : Lawful plain.
Proof.
  split; cbn [c_typed c_size c_get plain]; [lia| |].
  - intros m (Hs & Ht & Em) _. split; cbn [c_get c_put c_size plain]; [|rewrite length_plain; lia]. unfold plain_get. rewrite length_plain. cbn [Nat.add Nat.ltb Nat.leb].
    unfold plain_put. rewrite (take_app_length' (put_le 8 _) _ 8), (drop_app_length' (put_le 8 _) _ 8) by by rewrite length_put_le.
    rewrite (take_app_length' (put_le 8 _) _ 8) by by rewrite length_put_le.
    rewrite (app_assoc (put_le 8 _)), (drop_app_length' _ _ 16) by by rewrite length_app, !length_put_le.
    rewrite !get_put_le_small by (apply Hs || apply u64_range). by rewrite i64_u64, <- Em.
  - intros m d _. unfold plain_get, returns. by destruct (length d <? 16)%nat.
Qed.

Lemma plain_nonempty m : 0 < Sequence m -> c_put plain m <> [].
Proof. intros _ E. apply (f_equal length) in E. cbn [c_put plain] in E. rewrite length_plain in E. simpl in E. lia. Qed.

Lemma plain_fillers ts seq : is_i64 ts -> 0 < seq < two64 - 1 -> msg_ok plain (filler "foo" ts seq).
Proof. intros Ht Hs. split; [split_and!; [unfold is_u64; cbn; lia|done|done]|done|by vm_compute|done]. Qed.

(** Slices of two messages, a small buffer, messages read in groups. *)
Definition sample_opts : FileStoreOptions := mkOptions 256 true 1 50 0 true IEEE true 2 0 0 "" 0 1 true 64 1000000000.
Definition sample_limits : Mem.MsgStoreLimits := Mem.mkLimits 4 0 100.
Definition foo (seq ts : Z) : MsgProto := mkMsg seq "foo" "" [byte_of seq] ts false 0 0.
#[local] Instance sample_Z_order : RangeOrder Z := default_order Z.

Definition sample_ops : list op :=
  [DoStore (foo 1 10); DoStore (foo 2 20); DoStore (foo 3 30); DoLookup 40 2; DoStore (foo 6 60); DoBounds; DoLookup 70 3; DoLookup 70 5;
   DoFromTimestamp 25; DoBackground 140 (mkBkg 130 0 0 0); DoFirstMsg 150; DoState; DoFlush; DoEmpty; DoLastMsg 160].

Lemma foo_ok seq ts : 0 < seq < two64 - 1 -> is_i64 ts -> msg_ok plain (foo seq ts).
Proof. intros Hs Ht. split; [split_and!; [unfold is_u64; cbn; lia|done|done]|done|by vm_compute|done]. Qed.

Lemma sample_ops_ok : Forall (op_ok plain 1) sample_ops.
Proof.
  repeat (apply Forall_cons; split); try exact I; try apply Forall_nil_2;
    (split; [apply foo_ok; [cbn; unfold two64; lia|by vm_compute]|unfold in_range; cbn; lia]).
Qed.

Lemma file_store_refines_window_witness :
  exists l ms' w', exec_all sample_opts sample_limits "foo" plain (fun _ => []) sample_ops (new_store sample_opts 0) = (Ok l, ms') /\
    spec_all sample_limits "foo" plain None sample_ops l w' /\ stable sample_opts plain 1 ms' w'.
Proof.
  apply (file_store_refines_window sample_opts ltac:(by vm_compute) sample_limits "foo" plain plain_nonempty (fun _ => []) plain_fillers
    ltac:(by vm_compute; right) 1 0 sample_ops ltac:(left; by vm_compute) sample_ops_ok).
Defined.

Lemma file_slices_well_formed_witness :
  exists l ms', exec_all sample_opts sample_limits "foo" plain (fun _ => []) sample_ops (new_store sample_opts 0) = (Ok l, ms') /\
    map_Forall (fun _ sl => exists b al r d i, slice_ok sample_opts plain b al r d i sl) (files ms').
Proof.
  apply (file_slices_well_formed sample_opts ltac:(by vm_compute) sample_limits "foo" plain plain_nonempty (fun _ => []) plain_fillers
    ltac:(by vm_compute; right) 1 0 sample_ops ltac:(left; by vm_compute) sample_ops_ok).
Defined.

(** What these operations answer. *)
Lemma sample_answers :
  (exec_all sample_opts sample_limits "foo" plain (fun _ => []) sample_ops (new_store sample_opts 0)).1 =
  Ok [Seq 1; Seq 2; Seq 3; Msg (Some (foo 2 20)); Seq 6; Two 3 6; Msg (Some (foo 3 30)); Msg (Some (filler "foo" 60 5));
      Seq 3; Next (mkBkg 160 0 0 0); Msg (Some (filler "foo" 60 4)); Two 3 169; Done; Done; Msg None].
Proof. vm_compute. reflexivity. Qed.
End FileMsgSample.
