(* ===== verification/FileMsgsRecover.v ===== *)
(** * Recovery of the message store in files

    What [recoverOneMsgFile] reads from the files of a slice, in whatever order the slices
    are found, and what [newFileMsgStore] makes of the directory of a store whose messages
    have been flushed: the messages of the slices, less what the limits and the age take. *)

From Stdlib Require Import ZArith Lia Ascii String Sorted.
From stdpp Require Import base list gmap strings.
From S2P Require Import Prelude Bytes Util GoLib Crc Proto ProtoSpec MemStore MsgStore Records RecordsSpec FileSubs FilesManager Cache FileMsgs FileMsgsSpec FileMsgsRemove FileMsgsWrite FileMsgsStore FileMsgsLookup FileMsgsTime FileMsgsRefine.

Local Open Scope Z_scope.

Module FileMsgRecover.
Import Crc CrcSpec Proto ProtoSpec Buffer Rec RecSpec FileOptions FM Cache FileMsg FileMsgSpec FileMsgRemove FileMsgWrite FileMsgStoreSpec FileMsgLookup FileMsgTime FileMsgRefine.

Section Recover.
Context (opts : FileStoreOptions) (Hopts : FileOptions.valid opts) (limits : Mem.MsgStoreLimits).
Context (codec : codec MsgProto) (nonempty : forall m, 0 < Sequence m -> c_put codec m <> []) `{!Lawful codec}.
Context (pressure : nat -> list (part * Z)).
Local Abbreviation core := (core opts codec).
Local Abbreviation holds := (holds opts codec).
Local Abbreviation slice_ok := (slice_ok opts codec).
Local Abbreviation msg_ok := (msg_ok codec).
Local Abbreviation Size := (Size codec).
Local Abbreviation dat_of := (dat_of opts codec).
Local Abbreviation idx_of := (idx_of opts codec).

(** ** One slice *)

Definition stats_of (s : stats) (al : list MsgProto) : stats :=
  foldl (fun s m => add_stats (Sequence m) (Timestamp m) (Size m) s) s al.

(** The last index record, as recovery sees it. *)
Definition last_index (off : Z) (lst : option (Z * msgIndex)) (al : list MsgProto) : option (Z * msgIndex) :=
  match list.last al with
  | Some m => Some (Sequence m, index_of codec (off + rec_len codec (take (length al - 1) al)) m)
  | None => lst
  end.

Lemma last_index_cons off lst m al :
  last_index off lst (m :: al) = last_index (off + 8 + msize codec m) (Some (Sequence m, index_of codec off m)) al.
Proof.
  unfold last_index. destruct al as [|m' al]; [cbn; by rewrite Z.add_0_r|]. rewrite last_drop_1. destruct (list.last (m' :: al)) as [x|] eqn:E; [|rewrite last_cons in E; by destruct (list.last al)].
  do 3 f_equal. replace (length (m :: m' :: al) - 1)%nat with (S (length al)) by (simpl; lia). replace (length (m' :: al) - 1)%nat with (length al) by (simpl; lia).
  cbn [take rec_len]. lia.
Qed.

Lemma recover_index_spec al fuel off trunc s lst :
  Forall msg_ok al -> 0 <= off -> off + rec_len codec al < two63 -> (length al <= fuel)%nat ->
  recover_index opts fuel trunc s lst (indexes opts codec off al) = Ok (stats_of s al, last_index off lst al, None).
Proof.
  intros Hok. revert fuel off trunc s lst. induction Hok as [|m al Hm Hok IH]; intros fuel off trunc s lst Hoff Hfit Hf; [by destruct fuel|].
  cbn [length rec_len] in *. destruct fuel as [|fuel]; [lia|]. pose proof (msize_pos _ nonempty m Hm) as Hsz. pose proof (ok_seq _ _ Hm) as Hq.
  pose proof (rec_len_nonneg _ nonempty _ Hok) as Hnn.
  cbn [FileMsgSpec.indexes recover_index]. rewrite (readIndex_ok opts Hopts) by (unfold index_ok; cbn; split_and!; try lia; apply Hm).
  rewrite drop_app_length' by by rewrite length_addIndex. cbn [timestamp msgSize index_of].
  rewrite (IH fuel (off + 8 + msize codec m)) by lia. rewrite last_index_cons. cbn [stats_of foldl]. do 4 f_equal.
  rewrite u32_small; [done|]. pose proof (ok_size _ _ Hm) as Hs. unfold FileMsgSpec.Size in Hs. unfold msgRecordOverhead, recordHeaderSize, msgIndexRecSize in *. lia.
Qed.

Lemma last_matches al m :
  Forall msg_ok al -> list.last al = Some m ->
  ensureLastMsgAndIndexMatch opts codec (dat_of al) (Sequence m) (index_of codec (4 + rec_len codec (take (length al - 1) al)) m) = Ok tt.
Proof.
  intros Hok Hl. unfold ensureLastMsgAndIndexMatch. cbn [offset msgSize index_of].
  pose proof (rec_len_nonneg _ nonempty _ (Forall_take _ (length al - 1) _ Hok)) as Hnn.
  destruct (Z.ltb_spec (4 + rec_len codec (take (length al - 1) al)) 0); [lia|]. rewrite last_lookup in Hl.
  assert (msg_ok m) as Hm by by eapply Forall_lookup_1. rewrite (drop_dat opts codec _ _ Hok).
  replace (pred (length al)) with (length al - 1)%nat in Hl by lia. rewrite (drop_S _ m) by done. unfold FileMsgSpec.records. rewrite bind_cons.
  pose proof (payload_length _ _ Hm) as Hp. pose proof (msize_pos _ nonempty m Hm) as Hsz. pose proof (ok_seq _ _ Hm) as Hq.
  unfold enc. rewrite (read_encode_untyped _ (msgs_poly_word opts Hopts)) by (try apply nonempty; lia). cbn [mbind outcome_bind fst].
  rewrite (unmarshal_msg _ _ Hm). cbn [mbind outcome_bind]. by rewrite Z.eqb_refl.
Qed.

Lemma stats_of_spec al b s :
  MemSpec.numbered b al -> 0 < b -> s_size s = u64 (s_size s) -> (s_first s = 0 -> s_last s = 0 /\ s_count s = 0) ->
  al <> [] ->
  s_first (stats_of s al) = (if s_first s =? 0 then b else s_first s) /\ s_last (stats_of s al) = b + Z.of_nat (length al) - 1 /\
  s_count (stats_of s al) = s_count s + Z.of_nat (length al) /\ s_size (stats_of s al) = u64 (s_size s + Window.bytes Size al).
Proof.
  revert b s. induction al as [|m al IH]; intros b s Hn Hb Hs Hf Hne; [done|]. apply MemSpec.numbered_cons in Hn as [Hm Hn].
  set (s1 := add_stats (Sequence m) (Timestamp m) (Size m) s). change (stats_of s (m :: al)) with (stats_of s1 al).
  assert (s_first s1 = if s_first s =? 0 then b else s_first s) as F1 by (cbn; by rewrite Hm).
  assert (s_first s1 <> 0) as F2 by (rewrite F1; destruct (Z.eqb_spec (s_first s) 0); lia).
  change (Window.bytes Size (m :: al)) with (Size m + Window.bytes Size al).
  destruct al as [|m' al].
  - cbn [stats_of foldl]. rewrite F1. cbn [length]. split_and!; [done|cbn; lia|cbn; lia|]. cbn. by rewrite Z.add_0_r.
  - destruct (IH (b + 1) s1 Hn ltac:(lia)) as (I1 & I2 & I3 & I4); [|done|done|].
    { cbn. symmetry. apply u64_small, u64_range. }
    rewrite I1, I2, I3, I4. destruct (Z.eqb_spec (s_first s1) 0) as [|_]; [done|]. cbn [length] in *. split_and!; [done|lia|cbn; lia|].
    cbn [s1 s_size add_stats]. rewrite u64_plus. f_equal. lia.
Qed.

(** The files of a slice whose messages have been flushed are recovered as they are. *)
Lemma recover_slice_spec al :
  Forall msg_ok al -> fits codec al -> recover_slice opts codec (dat_of al) (Some (idx_of al)) = Ok (stats_of no_stats al, dat_of al, idx_of al).
Proof.
  intros Hok Hfit. unfold recover_slice, FileMsgSpec.idx_of at 2. rewrite (drop_app_length' version _ 4) by done.
  rewrite (recover_index_spec al) by (done || lia || (unfold FileMsgSpec.idx_of; rewrite length_app, length_indexes; lia)).
  unfold last_index. destruct (list.last al) as [m|] eqn:El; [by rewrite (last_matches al m Hok El)|].
  apply last_None in El as ->. unfold recover_from_data. change (drop 4 (dat_of [])) with (@nil byte). cbn. done.
Qed.

(** ** All slices *)

(** A slice as recovery leaves it. *)
Definition recovered_slice (now : Z) (al : list MsgProto) : fileSlice :=
  let s := stats_of no_stats al in
  mkSlice (mkDFile (dat_of al) fileClosed) (mkDFile (idx_of al) fileClosed) (s_first s) (s_last s) 0 (s_count s) (s_size s) (s_write s) now.

Lemma recovered_slice_ok now b al :
  Forall msg_ok al -> fits codec al -> MemSpec.numbered b al -> 0 < b -> al <> [] ->
  slice_ok b al 0 (length al) (length al) (recovered_slice now al).
Proof.
  intros Hok Hfit Hn Hb Hne. destruct (stats_of_spec al b no_stats Hn Hb eq_refl (fun _ => conj eq_refl eq_refl) Hne) as (S1 & S2 & S3 & S4).
  split; cbn; rewrite ?firstn_all, ?S1, ?S2, ?S3; try done; try lia. by rewrite Z.add_0_r.
Qed.

(** Recovery opens files; none of those it has seen stays open. *)
Definition all_closed (ms : FileMsgStore) : Prop :=
  forall k sl p, files ms !! k = Some sl -> fstate (get_part p sl) = fileClosed.

Lemma closeUnused_closed ms : all_closed ms -> closeUnusedFiles opts pressure ms = (Ok tt, set_opens (S (opens ms)) ms).
Proof.
  intros Hc. unfold closeUnusedFiles, when. rewrite run_get, run_modify. destruct (hasFDsLimit opts); [|done].
  assert (all_closed (set_opens (S (opens ms)) ms)) as Hc' by done. revert Hc'. generalize (set_opens (S (opens ms)) ms). intros ms' Hc'.
  induction (pressure (opens ms)) as [|[p k] l IH]; [done|]. cbn [close_files]. rewrite run_get. unfold when. case_bool_decide as Hk; [|by rewrite run_ret].
  destruct Hk as [sl Hk]. rewrite (run_bind _ _ ms' tt ms'); [done|]. unfold closeFileIfOpened, when. rewrite (run_slice _ _ _ _ Hk).
  by rewrite bool_decide_false by (by rewrite (Hc' _ _ p Hk)).
Qed.

(** The smallest and the largest of what has been seen, 0 before. *)
Definition smallest (x : Z) (l : list Z) : Prop := if bool_decide (l = []) then x = 0 else x ∈ l /\ Forall (fun y => x <= y) l.
Definition largest (x : Z) (l : list Z) : Prop := if bool_decide (l = []) then x = 0 else x ∈ l /\ Forall (fun y => y <= x) l.

Lemma smallest_cons x y l :
  smallest x l -> Forall (fun z => 0 < z) (y :: l) -> smallest (if (x =? 0) || (y <? x) then y else x) (y :: l).
Proof.
  unfold smallest. intros H Hp. inversion Hp as [|? ? Hy Hl]; subst. rewrite (bool_decide_false (y :: l = [])) by done. case_bool_decide as E; [subst|].
  - cbn. split; [by left|]. constructor; [lia|constructor].
  - destruct H as [Hin Hf]. rewrite Forall_forall in Hl. specialize (Hl x Hin). destruct (Z.eqb_spec x 0); [lia|]. cbn [orb].
    destruct (Z.ltb_spec y x).
    + split; [left|]. constructor; [lia|]. eapply Forall_impl; [exact Hf|cbn; lia].
    + split; [by right|]. by constructor.
Qed.

Lemma largest_cons x y l : largest x l -> Forall (fun z => 0 < z) (y :: l) -> largest (if x <? y then y else x) (y :: l).
Proof.
  unfold largest. intros H Hp. inversion Hp as [|? ? Hy Hl]; subst. rewrite (bool_decide_false (y :: l = [])) by done. case_bool_decide as E; [subst|].
  - destruct (Z.ltb_spec 0 y); [|lia]. split; [by left|]. constructor; [lia|constructor].
  - destruct H as [Hin Hf]. destruct (Z.ltb_spec x y).
    + split; [left|]. constructor; [lia|]. eapply Forall_impl; [exact Hf|cbn; lia].
    + split; [by right|]. by constructor.
Qed.

(** A slice with messages: its number, its first sequence, its messages. *)
Abbreviation seen := (Z * Z * list MsgProto)%type.

Record seen_ok (x : seen) : Prop := {
  sn_key : 0 < x.1.1;
  sn_base : 0 < x.1.2;
  sn_msgs : Forall msg_ok x.2;
  sn_fits : fits codec x.2;
  sn_num : MemSpec.numbered x.1.2 x.2;
  sn_some : x.2 <> []
}.

Definition seen_end (x : seen) : Z := x.1.2 + Z.of_nat (length x.2) - 1.
Definition seen_slice (now : Z) (x : seen) : Z * fileSlice := (x.1.1, recovered_slice now x.2).

(** What recovery has found so far. *)
Record recovered (now : Z) (ms : FileMsgStore) (D : list seen) : Prop := {
  rv_files : files ms = list_to_map (seen_slice now <$> D);
  rv_first : smallest (first ms) ((fun x => x.1.2) <$> D);
  rv_last : largest (FileMsg.last ms) (seen_end <$> D);
  rv_firstSl : smallest (firstFSlSeq ms) D.*1.*1;
  rv_lastSl : largest (lastFSlSeq ms) D.*1.*1;
  rv_count : totalCount ms = foldr (fun x n => Z.of_nat (length x.2) + n) 0 D;
  rv_bytes : totalBytes ms = u64 (foldr (fun x n => Window.bytes Size x.2 + n) 0 D);
  rv_stray : map_Forall (fun _ x => x = (version, version)) (stray ms);
  rv_writeSlice : writeSlice ms = None;
  rv_bw : bw ms = bw (new_store opts now);
  rv_wbuf : wbuf ms = None;
  rv_firstMsg : firstMsg ms = None;
  rv_lastMsg : lastMsg ms = None;
  rv_seqs : bufferedSeqs ms = [];
  rv_bufd : bufferedMsgs ms = ∅;
  rv_cache : cache ms = initCache
}.

Lemma recovered_new now : recovered now (new_store opts now) [].
Proof. by split. Qed.

Lemma recovered_closed now ms D : recovered now ms D -> all_closed ms.
Proof.
  intros R k sl p Hk. rewrite (rv_files _ _ _ R) in Hk. apply elem_of_list_to_map_2 in Hk. apply list_elem_of_fmap in Hk as (x & [= _ ->] & _). by destruct p.
Qed.

Lemma recovered_opens now ms D n : recovered now ms D -> recovered now (set_opens n ms) D.
Proof. intros []. by split. Qed.

(** Both files of a slice are opened before they are read. *)
Lemma recover_open now k al ms D :
  recovered now ms D -> Forall msg_ok al -> fits codec al ->
  exists ms1, recovered now ms1 D /\ recoverOneMsgFile opts codec pressure now k (dat_of al) (Some (idx_of al)) ms =
    (let '(s, dat, idx) := (stats_of no_stats al, dat_of al, idx_of al) in
     if 0 <? s_count s then
       modify_store (fun ms =>
         let ms := if (first ms =? 0) || (s_first s <? first ms) then set_first (s_first s) ms else ms in
         let ms := if FileMsg.last ms <? s_last s then set_last (s_last s) ms else ms in
         let ms := set_totalCount (totalCount ms + s_count s) (set_totalBytes (u64 (totalBytes ms + s_size s)) ms) in
         let ms := set_files (<[k := recovered_slice now al]> (files ms)) ms in
         let ms := if (firstFSlSeq ms =? 0) || (k <? firstFSlSeq ms) then set_firstFSlSeq k ms else ms in
         if lastFSlSeq ms <? k then set_lastFSlSeq k ms else ms)
     else modify_store (fun ms => set_stray (<[k := (dat, idx)]> (stray ms)) ms)) ms1.
Proof.
  intros R Hok Hfit. unfold recoverOneMsgFile.
  rewrite (run_bind _ _ _ _ _ (closeUnused_closed _ (recovered_closed _ _ _ R))). 
  assert (Rec.openFile (Some (dat_of al)) = Ok (dat_of al)) as Ed by apply openFile_version.
  assert (Rec.openFile (Some (idx_of al)) = Ok (idx_of al)) as Ei by apply openFile_version. rewrite Ed, run_lift.
  pose proof (recovered_opens now ms D (S (opens ms)) R) as R1. rewrite (run_bind _ _ _ _ _ (closeUnused_closed _ (recovered_closed _ _ _ R1))).
  pose proof (recovered_opens now _ D (S (opens (set_opens (S (opens ms)) ms))) R1) as R2.
  rewrite Ei, run_lift, (recover_slice_spec al Hok Hfit), run_lift. eexists. split; [exact R2|]. done.
Qed.

Lemma recover_stray now k ms D :
  recovered now ms D -> exists ms', recoverOneMsgFile opts codec pressure now k (dat_of []) (Some (idx_of [])) ms = (Ok tt, ms') /\ recovered now ms' D.
Proof.
  intros R. destruct (recover_open now k [] ms D R) as (ms1 & R1 & E); [constructor|done|].
  rewrite E. cbn. eexists. split; [done|]. destruct R1. split; try done. by apply map_Forall_insert_2.
Qed.

Lemma recover_one now x ms D :
  recovered now ms D -> seen_ok x -> Forall seen_ok D -> x.1.1 ∉ D.*1.*1 ->
  exists ms', recoverOneMsgFile opts codec pressure now x.1.1 (dat_of x.2) (Some (idx_of x.2)) ms = (Ok tt, ms') /\ recovered now ms' (x :: D).
Proof.
  intros R Hx HD Hk. destruct (recover_open now x.1.1 x.2 ms D R (sn_msgs _ Hx) (sn_fits _ Hx)) as (ms1 & R1 & E). rewrite E. clear E R ms.
  destruct (stats_of_spec x.2 x.1.2 no_stats (sn_num _ Hx) (sn_base _ Hx) eq_refl (fun _ => conj eq_refl eq_refl) (sn_some _ Hx)) as (S1 & S2 & S3 & S4).
  set (s := stats_of no_stats x.2) in *. cbn in S1, S3, S4. assert (0 < s_count s) as Hc by (rewrite S3; pose proof (sn_some _ Hx); destruct x.2; [done|simpl; lia]).
  destruct (Z.ltb_spec 0 (s_count s)); [|lia]. eexists. split; [done|]. rewrite S1, S2, S3, S4.
  assert (Forall seen_ok (x :: D)) as HxD by by constructor.
  assert (forall f : seen -> Z, (forall y, seen_ok y -> 0 < f y) -> Forall (fun z => 0 < z) (f x :: (f <$> D))) as Hpos.
  { intros f Hf. change (f x :: (f <$> D)) with (f <$> (x :: D)). apply Forall_fmap. eapply Forall_impl; [exact HxD|done]. }
  pose proof (smallest_cons _ _ _ (rv_first _ _ _ R1) (Hpos (fun x => x.1.2) (fun y Hy => sn_base _ Hy))) as P1.
  pose proof (largest_cons _ _ _ (rv_last _ _ _ R1) (Hpos seen_end ltac:(intros y []; unfold seen_end; destruct y.2; [done|simpl length; lia]))) as P2.
  rewrite <- list_fmap_compose in *.
  destruct R1 as [Rf R1 R2 R3 R4 Rc Rb Rs Rw Rbw Rwb Rfm Rlm Rsq Rbd Rca]. rewrite <- list_fmap_compose in R3, R4.
  pose proof (smallest_cons _ _ _ R3 (Hpos (fst ∘ fst) (fun y Hy => sn_key _ Hy))) as P3.
  pose proof (largest_cons _ _ _ R4 (Hpos (fst ∘ fst) (fun y Hy => sn_key _ Hy))) as P4. cbv beta in P1.
  unfold seen_end in P2 at 1 2. cbn [compose] in P3, P4.
  destruct ((first ms1 =? 0) || (x.1.2 <? first ms1)); cbn;
  destruct (FileMsg.last ms1 <? x.1.2 + Z.of_nat (length x.2) - 1); cbn;
  destruct ((firstFSlSeq ms1 =? 0) || (x.1.1 <? firstFSlSeq ms1)); cbn;
  destruct (lastFSlSeq ms1 <? x.1.1); cbn; split; cbn; rewrite <- ?list_fmap_compose; try done;
    rewrite ?Rf, ?Rc, ?Rb, ?u64_plus; try done; try lia; rewrite Z.add_comm, u64_plus; f_equal; lia.
Qed.

(** The directory, in some order: slices with messages, and slices that were created but
    never written to. *)
Definition entry_of (x : Z + seen) : dir_entry :=
  match x with
  | inl k => (Some k, dat_of [], Some (idx_of []))
  | inr x => (Some x.1.1, dat_of x.2, Some (idx_of x.2))
  end.
Definition with_messages (l : list (Z + seen)) : list seen := omap (fun x => match x with inr x => Some x | inl _ => None end) l.

Lemma recover_files_spec now l ms D :
  recovered now ms D -> Forall seen_ok (with_messages l ++ D) -> NoDup (with_messages l ++ D).*1.*1 ->
  exists ms' D', recover_files opts codec pressure now (entry_of <$> l) ms = (Ok tt, ms') /\ recovered now ms' D' /\ D' ≡ₚ with_messages l ++ D.
Proof.
  revert ms D. induction l as [|[k|x] l IH]; intros ms D R Hok Hd; [by exists ms, D|..].
  - cbn [fmap list_fmap entry_of recover_files]. destruct (recover_stray now k ms D R) as (ms1 & E1 & R1). rewrite (run_bind _ _ _ _ _ E1). by apply IH.
  - cbn [fmap list_fmap entry_of recover_files]. change (with_messages (inr x :: l)) with (x :: with_messages l) in *. cbn [app] in Hok.
    inversion Hok as [|? ? Hx Hok']; subst. cbn [app fmap list_fmap] in Hd. apply NoDup_cons in Hd as [Hx' Hd'].
    destruct (recover_one now x ms D R Hx) as (ms1 & E1 & R1); [by apply Forall_app in Hok' as [_ ?]| |].
    { intros Hin. apply Hx'. rewrite !fmap_app. apply elem_of_app. by right. }
    rewrite (run_bind _ _ _ _ _ E1).
    assert (with_messages l ++ x :: D ≡ₚ x :: (with_messages l ++ D)) as Hp by (by rewrite Permutation_middle).
    destruct (IH ms1 (x :: D) R1) as (ms' & D' & E' & R' & P'); [by rewrite Hp|by rewrite Hp; cbn; apply NoDup_cons|].
    exists ms', D'. split; [done|]. split; [done|]. by rewrite P', Hp.
Qed.

(** ** The slices of a shape *)

Fixpoint triples (b : Z) (l : list (Z * list MsgProto)) : list seen :=
  match l with [] => [] | (k, al) :: l' => (k, b, al) :: triples (b + Z.of_nat (length al)) l' end.

Record shape_ok (s : shape) : Prop := {
  sh_seen : Forall seen_ok (triples (base s) (slices s));
  sh_keys : StronglySorted Z.lt (keys s);
  sh_end : base s + Z.of_nat (length (stored s)) < two64
}.

(** The shape with nothing removed and nothing buffered. *)
Definition restored (s : shape) : shape := mkShape (base s) 0 (segs s) (key s) (all s) (length (all s)) (length (all s)).

Lemma triples_keys b l : (triples b l).*1.*1 = l.*1.
Proof. revert b. induction l as [|[k al] l IH]; intros b; [done|]. cbn. by rewrite IH. Qed.

Lemma triples_app b l1 l2 : triples b (l1 ++ l2) = triples b l1 ++ triples (b + Z.of_nat (length (mjoin l1.*2))) l2.
Proof.
  revert b. induction l1 as [|[k al] l1 IH]; intros b; [cbn; by rewrite Z.add_0_r|]. cbn [app triples]. rewrite IH.
  change (mjoin ((k, al) :: l1).*2) with (al ++ mjoin l1.*2). by rewrite length_app, Nat2Z.inj_add, Z.add_assoc.
Qed.

Lemma triples_elem b l x : x ∈ triples b l -> (x.1.1, x.2) ∈ l /\ b <= x.1.2 /\ x.1.2 + Z.of_nat (length x.2) <= b + Z.of_nat (length (mjoin l.*2)).
Proof.
  revert b. induction l as [|[k al] l IH]; intros b Hx; [by apply elem_of_nil in Hx|]. change (mjoin ((k, al) :: l).*2) with (al ++ mjoin l.*2). rewrite length_app.
  cbn in Hx. apply elem_of_cons in Hx as [->|Hx]; [split; [by left|cbn; lia]|]. destruct (IH _ Hx) as (H1 & H2 & H3). split; [by right|lia].
Qed.

Lemma triples_count b l : foldr (fun x n => Z.of_nat (length x.2) + n) 0 (triples b l) = Z.of_nat (length (mjoin l.*2)).
Proof. revert b. induction l as [|[k al] l IH]; intros b; [done|]. cbn [triples foldr]. rewrite IH. change (mjoin ((k, al) :: l).*2) with (al ++ mjoin l.*2). rewrite length_app. cbn. lia. Qed.

Lemma bytes_app a b : Window.bytes Size (a ++ b) = Window.bytes Size a + Window.bytes Size b.
Proof. induction a as [|m a IH]; [done|]. cbn [app]. change (Window.bytes Size (m :: a ++ b)) with (Size m + Window.bytes Size (a ++ b)). rewrite IH. cbn. unfold Window.bytes. lia. Qed.

Lemma triples_bytes b l : foldr (fun x n => Window.bytes Size x.2 + n) 0 (triples b l) = Window.bytes Size (mjoin l.*2).
Proof. revert b. induction l as [|[k al] l IH]; intros b; [done|]. cbn [triples foldr]. rewrite IH. change (mjoin ((k, al) :: l).*2) with (al ++ mjoin l.*2). by rewrite bytes_app. Qed.

(** A least and a largest element are unique. *)
Lemma smallest_unique x y l : smallest x l -> y ∈ l -> Forall (fun z => y <= z) l -> x = y.
Proof.
  unfold smallest. intros H Hy Hf. rewrite bool_decide_false in H by (intros ->; by apply elem_of_nil in Hy). destruct H as [Hx Hf'].
  rewrite Forall_forall in Hf, Hf'. specialize (Hf _ Hx). specialize (Hf' _ Hy). lia.
Qed.

Lemma largest_unique x y l : largest x l -> y ∈ l -> Forall (fun z => z <= y) l -> x = y.
Proof.
  unfold largest. intros H Hy Hf. rewrite bool_decide_false in H by (intros ->; by apply elem_of_nil in Hy). destruct H as [Hx Hf'].
  rewrite Forall_forall in Hf, Hf'. specialize (Hf _ Hx). specialize (Hf' _ Hy). lia.
Qed.

Lemma sorted_NoDup (l : list Z) : StronglySorted Z.lt l -> NoDup l.
Proof.
  induction 1 as [|k ks _ IH Hf]; [apply NoDup_nil_2|]. apply NoDup_cons. split; [|done]. intros Hin. rewrite Forall_forall in Hf. specialize (Hf _ Hin). lia.
Qed.

Lemma sorted_first (l : list Z) k : StronglySorted Z.lt l -> head l = Some k -> Forall (fun x => k <= x) l.
Proof. intros Hs Hh. destruct l; [done|]. injection Hh as ->. inversion Hs as [|? ? _ Hf]; subst. constructor; [lia|]. eapply Forall_impl; [exact Hf|cbn; lia]. Qed.

Lemma sorted_max (l : list Z) k : StronglySorted Z.lt (l ++ [k]) -> Forall (fun x => x <= k) (l ++ [k]).
Proof.
  induction l as [|x l IH]; intros Hs; [by repeat constructor|]. cbn in *. inversion Hs as [|? ? Hs' Hf]; subst. constructor; [|by apply IH].
  rewrite Forall_forall in Hf. assert (x < k); [|lia]. apply Hf, elem_of_app. right. by left.
Qed.

Record summary (now : Z) (ms : FileMsgStore) (s : shape) : Prop := {
  su_slice : forall k al, (k, al) ∈ slices s -> files ms !! k = Some (recovered_slice now al);
  su_dom : dom (files ms) = list_to_set (keys s);
  su_first : first ms = base s;
  su_last : FileMsg.last ms = base s + Z.of_nat (length (stored s)) - 1;
  su_firstSl : head (keys s) = Some (firstFSlSeq ms);
  su_lastSl : lastFSlSeq ms = key s;
  su_count : totalCount ms = Z.of_nat (length (stored s));
  su_bytes : totalBytes ms = u64 (Window.bytes Size (stored s))
}.

Lemma recovered_summary now ms s D : recovered now ms D -> shape_ok s -> D ≡ₚ triples (base s) (slices s) -> summary now ms s.
Proof.
  intros R [Hok Hs He] P. pose proof (sorted_NoDup _ Hs) as Hd.
  assert (D.*1.*1 ≡ₚ keys s) as Pk by (rewrite P, triples_keys, slices_keys; done).
  assert (NoDup (seen_slice now <$> D).*1) as Hd1.
  { rewrite <- list_fmap_compose. change (fst ∘ seen_slice now) with (fst ∘ fst : seen -> Z). rewrite list_fmap_compose, Pk. done. }
  assert (exists t, triples (base s) (slices s) = t ++ [(key s, wbase s, all s)]) as [t Et].
  { unfold slices. rewrite triples_app. by eexists. }
  assert (exists k al t, slices s = (k, al) :: t) as (k0 & al0 & t0 & E0).
  { unfold slices. destruct (segs s) as [|[k al] sg]; by eexists _, _, _. }
  assert (forall x, x ∈ D -> base s <= x.1.2 /\ seen_end x <= base s + Z.of_nat (length (stored s)) - 1) as Hrange.
  { intros x Hx. rewrite P in Hx. apply triples_elem in Hx as (_ & H1 & H2). rewrite slices_stored in H2. unfold seen_end. lia. }
  split.
  - intros k al Hin. rewrite (rv_files _ _ _ R). apply elem_of_list_to_map_1; [done|]. apply list_elem_of_split in Hin as (pre & post & E).
    apply list_elem_of_fmap. exists (k, base s + Z.of_nat (length (mjoin pre.*2)), al). split; [done|]. rewrite P, E, triples_app. apply elem_of_app. right. left.
  - rewrite (rv_files _ _ _ R), dom_list_to_map_L, <- list_fmap_compose. change (fst ∘ seen_slice now) with (fst ∘ fst : seen -> Z).
    rewrite list_fmap_compose. apply set_eq. intros x. by rewrite !elem_of_list_to_set, Pk.
  - eapply smallest_unique; [apply R| |].
    + apply list_elem_of_fmap. exists (k0, base s, al0). split; [done|]. rewrite P, E0. left.
    + apply Forall_fmap, Forall_forall. intros x Hx. by apply Hrange.
  - eapply largest_unique; [apply R| |].
    + apply list_elem_of_fmap. exists (key s, wbase s, all s). split; [unfold seen_end; cbn; by rewrite wbase_end|]. rewrite P, Et. apply elem_of_app. right. by left.
    + apply Forall_fmap, Forall_forall. intros x Hx. by apply Hrange.
  - assert (head (keys s) = Some k0) as Hh by (by rewrite <- slices_keys, E0). rewrite Hh. f_equal. symmetry. eapply smallest_unique; [apply R| |].
    + rewrite Pk. destruct (keys s); [done|]. injection Hh as ->. left.
    + rewrite Pk. by apply sorted_first.
  - eapply largest_unique; [apply R| |]; rewrite Pk; unfold keys; [apply elem_of_app; right; by left|by apply sorted_max].
  - rewrite (rv_count _ _ _ R), <- slices_stored, <- (triples_count (base s)). clear -P.
    induction P as [|x l l' _ IH|x y l|l l' l'' _ IH1 _ IH2]; cbn [foldr]; lia.
  - rewrite (rv_bytes _ _ _ R), <- slices_stored, <- (triples_bytes (base s)). f_equal. clear -P.
    induction P as [|x l l' _ IH|x y l|l l' l'' _ IH1 _ IH2]; cbn [foldr]; lia.
Qed.

(** ** The store once the last slice is opened *)

Lemma closed_recovered now m b l :
  Forall seen_ok (triples b l) -> (forall k al, (k, al) ∈ l -> m !! k = Some (recovered_slice now al)) -> closed_ok opts codec m b 0 l.
Proof.
  revert b. induction l as [|[k al] l IH]; intros b Hok Hm; [done|]. cbn in Hok. inversion Hok as [|? ? [] Hok']; subst. cbn in *. split.
  - exists (recovered_slice now al). split; [apply Hm; by left|]. split; [by apply recovered_slice_ok|]. destruct al; [done|simpl; lia].
  - apply IH; [done|]. intros k' al' Hin. apply Hm. by right.
Qed.

(** The store with its last slice open for writing. *)
Definition with_writer (k off : Z) (sl : fileSlice) (ms : FileMsgStore) : FileMsgStore :=
  set_checkSlices true (set_files (<[k := with_state Dat fileOpened sl]> (files ms)) (set_wOffset off
    (match bw ms with Some b => set_wbuf (Some (NewWriterSize (bufSize b))) | None => id end (set_opens (S (opens ms)) (set_writeSlice (Some k) ms))))).

Lemma files_writer k off sl ms : files (with_writer k off sl ms) = <[k := with_state Dat fileOpened sl]> (files ms).
Proof. unfold with_writer. by destruct (bw ms). Qed.

Lemma core_restored now ms s D :
  recovered now ms D -> summary now ms s -> shape_ok s -> FileDescriptorsLimit opts <= 0 \/ BufferSize opts <= 0 ->
  core (with_writer (key s) (4 + rec_len codec (all s)) (recovered_slice now (all s)) ms) (restored s) [].
Proof.
  intros R S [Hseen Hsort Hend] Hmode. set (sl := recovered_slice now (all s)). set (ms' := with_writer _ _ sl ms).
  pose proof (files_writer (key s) (4 + rec_len codec (all s)) sl ms) as Hf. fold ms' in Hf.
  assert (seen_ok (key s, wbase s, all s)) as [K1 K2 K3 K4 K5 K6].
  { rewrite Forall_forall in Hseen. apply Hseen. unfold slices. rewrite triples_app. apply elem_of_app. right. by left. }
  cbn in K1, K2, K3, K4, K5, K6. pose proof (sorted_NoDup _ Hsort) as Hnd. unfold keys in Hnd. apply NoDup_app in Hnd as (_ & Hnd & _).
  assert (stored (restored s) = stored s /\ live (restored s) = stored s) as [Es El] by (split; [done|apply drop_0]).
  destruct R as [Rf R1 R2 R3 R4 Rc Rb Rs Rw Rbw Rwb Rfm Rlm Rsq Rbd Rca].
  split; rewrite ?Es, ?El; cbn [base rm segs key all nd ni restored]; rewrite ?Hf, ?firstn_all, ?drop_all; try (unfold ms', with_writer; by destruct (bw ms)); try done.
  - unfold slices in Hseen. rewrite triples_app in Hseen. apply Forall_app in Hseen as [Hseen _].
    eapply closed_recovered; [done|]. intros k al Hin. rewrite lookup_insert_ne.
    + apply (su_slice _ _ _ S). apply elem_of_app. by left.
    + intros <-. eapply Hnd; [|by left]. apply list_elem_of_fmap. by exists (key s, al).
  - eexists. rewrite lookup_insert_eq. split; [done|]. eapply slice_ok_same; [apply with_state_same|].
    replace (wrm (restored s)) with 0%nat by (unfold wrm; cbn; by destruct (segs s)). by apply recovered_slice_ok.
  - change (keys (restored s)) with (keys s). rewrite <- (slices_keys s), <- (triples_keys (base s)), <- list_fmap_compose. apply Forall_fmap. eapply Forall_impl; [exact Hseen|]. intros x Hx. apply Hx.
  - change (keys (restored s)) with (keys s). rewrite dom_insert_L, (su_dom _ _ _ S). unfold keys. set_solver.
  - split; [|done]. rewrite Forall_forall in Hseen. unfold slices in Hseen.
    destruct (segs s) as [|[k al] sg] eqn:Esg; cbn in Hseen; [apply (Hseen (key s, base s, all s)); by left|apply (Hseen (k, base s, al)); by left].
  - change (keys (restored s)) with (keys s). rewrite (su_firstSl _ _ _ S). unfold ms', with_writer. by destruct (bw ms).
  - rewrite <- (su_lastSl _ _ _ S). unfold ms', with_writer. by destruct (bw ms).
  - rewrite Z.add_0_r, <- (su_first _ _ _ S). unfold ms', with_writer. by destruct (bw ms).
  - rewrite <- (su_last _ _ _ S). unfold ms', with_writer. by destruct (bw ms).
  - rewrite <- (su_count _ _ _ S). unfold ms', with_writer. by destruct (bw ms).
  - rewrite <- (su_bytes _ _ _ S). unfold ms', with_writer. by destruct (bw ms).
  - intros m. unfold ms', with_writer. destruct (bw ms); cbn; by rewrite Rfm.
  - intros m. unfold ms', with_writer. destruct (bw ms); cbn; by rewrite Rlm.
  - unfold pend, ms', with_writer. destruct (bw ms); cbn; by rewrite ?Rwb.
  - unfold ms', with_writer. destruct (bw ms) eqn:Eb; cbn; rewrite Eb; [by eexists|done].
  - unfold mode, hasFDsLimit. destruct Hmode as [Hm|Hm]; [left; by apply Z.ltb_ge|right].
    assert (bw ms = None) as Eb by (rewrite Rbw; cbn; destruct (Z.ltb_spec 0 (BufferSize opts)); [lia|done]).
    unfold ms', with_writer. rewrite Eb. cbn. by rewrite Eb.
  - unfold ms', with_writer. destruct (bw ms); cbn; rewrite Rca; apply CacheSpec.init_repr.
Qed.

Lemma holds_restored now ms s D :
  recovered now ms D -> summary now ms s -> shape_ok s -> FileDescriptorsLimit opts <= 0 \/ BufferSize opts <= 0 ->
  holds [] (with_writer (key s) (4 + rec_len codec (all s)) (recovered_slice now (all s)) ms) (restored s) [].
Proof.
  intros R S Hs Hmode. split; [by eapply core_restored|]. set (sl := recovered_slice now (all s)). split.
  - intros k x p Hx. unfold state_ok. rewrite bool_decide_false by set_solver. rewrite files_writer in Hx. apply lookup_insert_Some in Hx as [[<- <-]|[_ Hx]].
    + rewrite get_with_state. destruct (bool_decide _); [by left|right]. by destruct p.
    + right. by eapply recovered_closed.
  - intros x Hx. cbn [key restored] in Hx. rewrite files_writer, lookup_insert_eq in Hx. injection Hx as <-. unfold with_writer. by destruct (bw ms).
Qed.

(** Opening the last slice for writing. *)
Lemma open_last now ms s D :
  recovered now ms D -> summary now ms s -> shape_ok s ->
  (_ ← modify_store (set_writeSlice (Some (key s)));
   _ ← lockFile opts pressure Dat (key s);
   _ ← setFile (key s) (-1);
   _ ← unlockFile Dat (key s);
   modify_store (set_checkSlices true)) ms =
  (Ok tt, with_writer (key s) (4 + rec_len codec (all s)) (recovered_slice now (all s)) ms).
Proof.
  intros R Su [Hseen _ _]. assert (files ms !! key s = Some (recovered_slice now (all s))) as Hk by (apply (su_slice _ _ _ Su), elem_of_app; right; by left).
  assert (Forall msg_ok (all s)) as Hok.
  { rewrite Forall_forall in Hseen. apply (Hseen (key s, wbase s, all s)). unfold slices. rewrite triples_app. apply elem_of_app. right. by left. }
  assert (Rec.openFile (Some (dat_of (all s))) = Ok (dat_of (all s))) as Ed by apply openFile_version.
  set (sl := recovered_slice now (all s)) in *. set (ms1 := set_opens (S (opens ms)) (set_writeSlice (Some (key s)) ms)).
  assert (lockFile opts pressure Dat (key s) (set_writeSlice (Some (key s)) ms) = (Ok false, put (key s) (with_state Dat fileInUse sl) ms1)) as E1.
  { unfold lockFile. rewrite (run_slice (key s) sl) by done. cbn [get_part sl recovered_slice file fstate].
    rewrite (run_bind _ _ _ _ _ (closeUnused_closed (set_writeSlice (Some (key s)) ms) (recovered_closed _ _ _ R))). cbn [content]. rewrite Ed, run_lift.
    fold ms1. by rewrite (run_bind _ _ _ _ _ (set_state_Some Dat (key s) fileInUse sl ms1 Hk)). }
  rewrite run_modify, (run_bind _ _ _ _ _ E1).
  set (ms2 := set_wOffset (4 + rec_len codec (all s)) (match bw ms with Some b => set_wbuf (Some (NewWriterSize (bufSize b))) | None => id end (put (key s) (with_state Dat fileInUse sl) ms1))).
  assert (setFile (key s) (-1) (put (key s) (with_state Dat fileInUse sl) ms1) = (Ok tt, ms2)) as E2.
  { unfold setFile. rewrite (run_slice _ (with_state Dat fileInUse sl)) by (cbn; by rewrite lookup_insert_eq). rewrite run_modify. cbn [Z.eqb Z.compare].
    unfold ms2. rewrite <- (dat_length opts codec _ Hok). by destruct (bw ms) eqn:Eb; cbn; rewrite Eb. }
  rewrite (run_bind _ _ _ _ _ E2). assert (files ms2 !! key s = Some (with_state Dat fileInUse sl)) as Hk2 by (unfold ms2; destruct (bw ms); cbn; by rewrite lookup_insert_eq).
  unfold unlockFile. rewrite run_assoc, (run_slice _ _ _ _ Hk2). cbn [get_part with_state file fstate set_part]. rewrite bool_decide_true by done.
  rewrite (run_bind _ _ _ _ _ (set_state_Some Dat _ _ _ _ Hk2)). unfold modify_store, with_writer, put, ms2, ms1. f_equal.
  destruct (bw ms); cbn; by rewrite insert_insert_eq.
Qed.

(** ** The whole store *)

(** What a restart keeps of messages: the limits apply again. *)
Definition wrestore (now : Z) (f : Z) (q : list MsgProto) : Z * list MsgProto :=
  let w := Window.trim Size limits f q in
  if 0 <? Mem.MaxAge limits then Window.expire (Mem.MaxAge limits) now w.1 w.2 else w.

Lemma shape_unbuffered ms s l :
  core ms s l -> nd s = length (all s) -> ni s = length (all s) -> pend ms = [] /\ bufferedMsgs ms = ∅.
Proof. intros H Hd Hi. rewrite (c_pending _ _ _ _ _ H), (c_bufd _ _ _ _ _ H), Hd, Hi, !drop_all. done. Qed.

Lemma close_write ms s l :
  holds [] ms s l -> nd s = length (all s) -> ni s = length (all s) ->
  exists ms', (_ ← closeFileIfOpened opts Dat (key s); closeFileIfOpened opts Idx (key s)) ms = (Ok tt, ms') /\ holds [] ms' s l.
Proof.
  intros K Hd Hi. destruct (c_write _ _ _ _ _ (proj1 K)) as (sl & Hk & _).
  destruct (closeFileIfOpened_holds opts codec nonempty Dat _ sl ms s l K Hk (or_intror (shape_unbuffered _ _ _ (proj1 K) Hd Hi))) as (ms1 & sl1 & E1 & Hk1 & K1).
  rewrite (run_bind _ _ _ _ _ E1).
  destruct (closeFileIfOpened_holds opts codec nonempty Idx _ sl1 ms1 s l K1 Hk1 (or_intror (shape_unbuffered _ _ _ (proj1 K1) Hd Hi))) as (ms2 & sl2 & E2 & _ & K2).
  by exists ms2.
Qed.

Lemma recover_store_spec `{!RangeOrder Z} now dir s l :
  shape_ok s -> FileDescriptorsLimit opts <= 0 \/ BufferSize opts <= 0 -> dir = entry_of <$> l -> with_messages l ≡ₚ triples (base s) (slices s) ->
  exists ms' s', recover_store opts limits codec pressure now dir (new_store opts now) = (Ok tt, ms') /\ holds [] ms' s' [] /\ same_end (restored s) s' /\
    window s' = wrestore now (base s) (stored s).
Proof.
  intros Hs Hmode -> P. unfold recover_store.
  destruct (recover_files_spec now l (new_store opts now) [] (recovered_new now)) as (ms1 & D & E1 & R1 & P1).
  { rewrite app_nil_r, P. apply Hs. } { rewrite app_nil_r, P, triples_keys, slices_keys. apply sorted_NoDup, Hs. }
  rewrite app_nil_r, P in P1. pose proof (recovered_summary now ms1 s D R1 Hs P1) as S1. rewrite (run_bind _ _ _ _ _ E1), run_get.
  assert (0 < key s) as Hkey.
  { pose proof (sh_seen _ Hs) as Hseen. rewrite Forall_forall in Hseen. apply (Hseen (key s, wbase s, all s)). unfold slices. rewrite triples_app. apply elem_of_app. right. by left. }
  rewrite (su_lastSl _ _ _ S1). destruct (Z.ltb_spec 0 (key s)) as [_|]; [|lia]. cbv zeta. unfold when at 1.
  rewrite (run_bind _ _ _ _ _ (open_last now ms1 s D R1 S1 Hs)).
  pose proof (holds_restored now ms1 s D R1 S1 Hs Hmode) as K2. set (ms2 := with_writer _ _ _ _) in *.
  destruct (enforceLimits_spec opts Hopts limits codec nonempty pressure false true [] ms2 (restored s) [] K2) as (ms3 & s3 & E3 & K3 & A3 & W3).
  { intros k. split; [intros Hx; by apply elem_of_nil in Hx|by intros [? _]]. }
  rewrite (run_bind _ _ _ _ _ E3), run_get. change (base (restored s) + Z.of_nat (rm (restored s))) with (base s + 0) in W3. rewrite Z.add_0_r in W3.
  change (live (restored s)) with (drop 0 (stored s)) in W3. rewrite drop_0 in W3.
  assert (all s <> []) as Hne.
  { pose proof (sh_seen _ Hs) as Hseen. rewrite Forall_forall in Hseen. apply (Hseen (key s, wbase s, all s)). unfold slices. rewrite triples_app. apply elem_of_app. right. by left. }
  assert (0 < totalCount ms3) as Hcount.
  { rewrite (c_count _ _ _ _ _ (proj1 K3)). destruct (Window.trim_suffix Size limits (base s) (stored s)) as (n & _ & Et & _ & _ & Hn).
    rewrite Et in W3. injection W3 as _ ->. rewrite length_drop. assert (stored s <> []) as Hst by (unfold stored; by destruct (before s), (all s)). specialize (Hn Hst). lia. }
  assert (exists ms4 s4, when ((0 <? Mem.MaxAge limits) && (0 <? totalCount ms3)) (_ ← expireMsgs opts pressure now (Mem.MaxAge limits); mret tt) ms3 = (Ok tt, ms4) /\
    holds [] ms4 s4 [] /\ same_end (restored s) s4 /\ window s4 = wrestore now (base s) (stored s)) as (ms4 & s4 & E4 & K4 & A4 & W4).
  { unfold when, wrestore. destruct (Z.ltb_spec 0 (totalCount ms3)); [|lia]. rewrite andb_true_r. rewrite <- W3. destruct (0 <? Mem.MaxAge limits); [|by exists ms3, s3].
    destruct (expireMsgs_spec opts Hopts codec nonempty pressure now (Mem.MaxAge limits) ms3 s3 [] K3) as (ms4 & s4 & E4 & K4 & A4 & W4); [by rewrite (e_all _ _ A3)|].
    exists ms4, s4. rewrite (run_bind _ _ _ _ _ E4). split_and!; [done|done|by eapply same_end_trans|done]. }
  rewrite (run_bind _ _ _ _ _ E4), (c_writeSlice _ _ _ _ _ (proj1 K3)).
  destruct (close_write ms4 s4 [] K4) as (ms5 & E5 & K5); [by rewrite (e_nd _ _ A4), (e_all _ _ A4)|by rewrite (e_ni _ _ A4), (e_all _ _ A4)|].
  exists ms5, s4. rewrite (e_key _ _ A3), <- (e_key _ _ A4). by split_and!.
Qed.

(** ** The directory of a store *)

(** The message files of a store: those of its slices, and those that were created for a
    slice that was never written to. *)
Definition directory (ms : FileMsgStore) : list dir_entry :=
  ((fun x => (Some x.1, content (file x.2), Some (content (idxFile x.2)))) <$> map_to_list (files ms)) ++
  ((fun x => (Some x.1, x.2.1, Some x.2.2)) <$> map_to_list (stray ms)).

Lemma stray_entries (m : gmap Z (list byte * list byte)) :
  map_Forall (fun _ x => x = (version, version)) m ->
  ((fun x => (Some x.1, x.2.1, Some x.2.2)) <$> map_to_list m : list dir_entry) = entry_of <$> (inl <$> (map_to_list m).*1).
Proof.
  intros Hm. rewrite <- !list_fmap_compose. apply list_fmap_ext. intros i [k x] Hx. apply list_elem_of_lookup_2, elem_of_map_to_list in Hx. cbn.
  by rewrite (Hm k x Hx).
Qed.

Lemma holds_shape ms s l : core ms s l -> all s <> [] -> shape_ok s.
Proof.
  intros H Hne. split; [|apply H|apply (c_base _ _ _ _ _ H)]. pose proof (c_base _ _ _ _ _ H) as [B1 _].
  apply Forall_forall. intros x Hx.
  assert (exists pre post, slices s = pre ++ (x.1.1, x.2) :: post /\ x.1.2 = base s + Z.of_nat (length (mjoin pre.*2))) as (pre & post & E & Eb).
  { clear -Hx. revert Hx. generalize (base s) (slices s). intros b t. revert b. induction t as [|[k al] t IH]; intros b Hx; [by apply elem_of_nil in Hx|].
    cbn in Hx. apply elem_of_cons in Hx as [->|Hx]; [exists [], t; cbn; split; [done|lia]|]. destruct (IH _ Hx) as (pre & post & -> & Eb).
    exists ((k, al) :: pre), post. split; [done|]. change (mjoin ((k, al) :: pre).*2) with (al ++ mjoin pre.*2). rewrite length_app. lia. }
  destruct (split_located _ _ _ _ _ E) as (d & i & Hloc). rewrite <- Eb in Hloc. destruct (located_slice _ _ _ _ _ _ _ _ _ _ _ H Hloc) as (sl & Hk & Ho).
  split; [|lia|apply Ho|apply Ho|apply Ho|].
  - pose proof (c_pos _ _ _ _ _ H) as Hp. rewrite <- slices_keys, E, fmap_app in Hp. apply Forall_app in Hp as [_ Hp]. by inversion Hp.
  - destruct Hloc as [(pre' & post' & Es & _)|(_ & _ & -> & _)]; [|done]. pose proof (c_closed _ _ _ _ _ H) as Hc. rewrite Es in Hc.
    apply closed_ok_app in Hc as [_ [(? & _ & _ & Hr) _]]. intros E2. rewrite E2 in Hr. simpl in Hr. lia.
Qed.

(** The contents of the slices, when everything is in the files. *)
Lemma slice_contents ms s l :
  core ms s l -> nd s = length (all s) -> ni s = length (all s) ->
  (fun sl => (content (file sl), content (idxFile sl))) <$> files ms =
  list_to_map ((fun x : seen => (x.1.1, (dat_of x.2, idx_of x.2))) <$> triples (base s) (slices s)).
Proof.
  intros H Hd Hi. set (t := _ <$> triples _ _).
  assert (t.*1 = keys s) as Hkeys by (unfold t; rewrite <- list_fmap_compose; change (fst ∘ _) with (fst ∘ fst : seen -> Z); by rewrite list_fmap_compose, triples_keys, slices_keys).
  assert (NoDup t.*1) as Hnd by (rewrite Hkeys; by eapply keys_NoDup).
  apply map_eq. intros k. rewrite lookup_fmap. destruct (files ms !! k) as [sl|] eqn:Hk; cbn.
  - symmetry. apply elem_of_list_to_map_1; [done|]. destruct (files_located _ _ _ _ _ _ _ H Hk) as (b & al & r & d & i & Hloc).
    destruct (located_slice _ _ _ _ _ _ _ _ _ _ _ H Hloc) as (sl' & Hk' & Ho). assert (sl' = sl) as -> by congruence.
    assert (take d al = al /\ take i al = al) as [E1 E2].
    { destruct Hloc as [(_ & _ & _ & _ & _ & -> & ->)|(_ & _ & -> & _ & -> & ->)]; [|rewrite Hd, Hi]; by rewrite firstn_all. }
    rewrite (so_dat _ _ _ _ _ _ _ _ Ho), (so_idx _ _ _ _ _ _ _ _ Ho), E1, E2. unfold t. apply list_elem_of_fmap.
    destruct (located_split _ _ _ _ _ _ _ Hloc) as (pre & post & E & -> & _). exists (k, base s + Z.of_nat (length (mjoin pre.*2)), al).
    split; [done|]. rewrite E, triples_app. apply elem_of_app. right. by left.
  - symmetry. apply not_elem_of_list_to_map_1. rewrite Hkeys. intros Hin. assert (k ∈ dom (files ms)) as Hx by (rewrite (c_dom _ _ _ _ _ H); by apply elem_of_list_to_set).
    apply elem_of_dom in Hx as [? Hx]. congruence.
Qed.

Lemma directory_spec ms s l :
  core ms s l -> nd s = length (all s) -> ni s = length (all s) ->
  directory ms ≡ₚ entry_of <$> ((inr <$> triples (base s) (slices s)) ++ (inl <$> (map_to_list (stray ms)).*1)).
Proof.
  intros H Hd Hi. unfold directory. rewrite fmap_app, (stray_entries _ (c_stray _ _ _ _ _ H)). apply Permutation_app_tail. rewrite <- list_fmap_compose.
  pose proof (slice_contents ms s l H Hd Hi) as E. set (f := fun sl => (content (file sl), content (idxFile sl))) in E.
  transitivity ((fun x : Z * (list byte * list byte) => (Some x.1, x.2.1, Some x.2.2) : dir_entry) <$> map_to_list (f <$> files ms)).
  - rewrite map_to_list_fmap, <- list_fmap_compose. done.
  - rewrite E, map_to_list_to_map; [by rewrite <- list_fmap_compose|]. rewrite <- list_fmap_compose. change (fst ∘ _) with (fst ∘ fst : seen -> Z).
    rewrite list_fmap_compose, triples_keys, slices_keys. by eapply keys_NoDup.
Qed.

Lemma with_messages_of (t : list seen) (ks : list Z) : with_messages ((inr <$> t) ++ (inl <$> ks)) = t.
Proof. unfold with_messages. induction t as [|x t IH]; cbn; [|by f_equal]. by induction ks. Qed.

Section Restart.
Context `{!RangeOrder Z} (low : Z) (Hmode : FileDescriptorsLimit opts <= 0 \/ BufferSize opts <= 0).
Local Abbreviation stable := (stable opts codec low).

Lemma recover_flushed now dir ms s l :
  holds [] ms s l -> all s <> [] -> nd s = length (all s) -> ni s = length (all s) -> dir ≡ₚ directory ms ->
  exists ms' s', newFileMsgStore opts limits codec pressure now (Some dir) = Ok ms' /\ holds [] ms' s' [] /\ same_end (restored s) s' /\
    window s' = wrestore now (base s) (stored s).
Proof.
  intros K Hne Hd Hi P. rewrite (directory_spec ms s l (proj1 K) Hd Hi) in P. destruct (Permutation_map_inv _ _ P) as (t & -> & P').
  destruct (recover_store_spec now (entry_of <$> t) s t (holds_shape _ _ _ (proj1 K) Hne) Hmode eq_refl) as (ms' & s' & E & K' & A & W).
  { unfold with_messages. rewrite <- P'. by rewrite <- (with_messages_of (triples (base s) (slices s)) (map_to_list (stray ms)).*1) at 2. }
  exists ms', s'. unfold newFileMsgStore. change (map entry_of t) with (entry_of <$> t). by rewrite E.
Qed.

Lemma recover_empty now dir ms :
  empty_ok opts ms -> dir ≡ₚ directory ms -> exists ms', newFileMsgStore opts limits codec pressure now (Some dir) = Ok ms' /\ empty_ok opts ms'.
Proof.
  intros Z P. unfold directory in P. rewrite (z_files _ _ Z), map_to_list_empty, (stray_entries _ (z_stray _ _ Z)) in P. cbn [fmap list_fmap app] in P.
  destruct (Permutation_map_inv _ _ P) as (t & -> & P').
  assert (with_messages t = []) as Ht.
  { apply Permutation_nil_r. unfold with_messages. rewrite <- P'. by rewrite <- (with_messages_of [] (map_to_list (stray ms)).*1). }
  destruct (recover_files_spec now t (new_store opts now) [] (recovered_new now)) as (ms1 & D & E1 & R1 & P1); [by rewrite Ht|rewrite Ht; apply NoDup_nil_2|].
  rewrite Ht in P1. apply Permutation_nil_r in P1 as ->. destruct R1 as [Rf R1 R2 R3 R4 Rc Rb Rs Rw Rbw Rwb Rfm Rlm Rsq Rbd Rca]. cbn in Rf, R1, R2, R3, R4, Rc, Rb.
  exists ms1. split.
  - unfold newFileMsgStore, recover_store. change (map entry_of t) with (entry_of <$> t). assert ((0 <? lastFSlSeq ms1) = false) as H1 by by rewrite R4.
    assert (enforceLimits opts limits pressure false true ms1 = (Ok tt, ms1)) as E2.
    { unfold enforceLimits. rewrite run_get. destruct (_ + _)%nat; cbn [enforce_loop]; rewrite run_get; unfold over_limits; by rewrite Rc. }
    unfold when. rewrite (run_bind _ _ _ _ _ E1), run_get, H1, run_ret, (run_bind _ _ _ _ _ E2), run_get, Rc, andb_false_r, run_ret, Rw. done.
  - split; try done; [|by rewrite Rca; apply CacheSpec.init_repr]. unfold mode, hasFDsLimit. destruct Hmode as [Hm|Hm]; [left; by apply Z.ltb_ge|right].
    rewrite Rbw. cbn. by destruct (Z.ltb_spec 0 (BufferSize opts)); [lia|].
Qed.

(** What a restart at any time finds in the files: the messages of the window, as far as the
    limits and the age allow. *)
Definition survives (ms : FileMsgStore) (w : option (Z * list MsgProto)) : Prop :=
  forall now dir, dir ≡ₚ directory ms ->
  exists ms2, newFileMsgStore opts limits codec pressure now (Some dir) = Ok ms2 /\
    match w with
    | None => stable ms2 None
    | Some (f, q) => exists front, stable ms2 (Some (wrestore now (f - Z.of_nat (length front)) (front ++ q)))
    end.

Lemma Flush_survives ms w :
  stable ms w -> exists ms1, FileMsg.Flush opts pressure ms = (Ok tt, ms1) /\ stable ms1 w /\ survives ms1 w.
Proof.
  destruct w as [[f q]|]; intros St.
  - destruct St as (s & l & K & Hne & Hlow & Hw). destruct (Flush_spec opts Hopts codec nonempty pressure ms s l K) as (ms1 & E1 & K1).
    set (s1 := with_files _ _ s) in K1. exists ms1. split; [done|]. split; [by eapply (stable_intro _ _ _ _ s1)|]. intros now dir P.
    destruct (recover_flushed now dir ms1 s1 l K1 Hne eq_refl eq_refl P) as (ms2 & s2 & E2 & K2 & A2 & W2). exists ms2. split; [done|].
    destruct (window_head _ _ _ Hw) as [<- <-]. assert (rm s <= length (stored s))%nat as Hrm by (eapply rm_le, K). exists (take (rm s) (stored s)).
    rewrite length_take, Nat.min_l by done. unfold live. rewrite take_drop. replace (base s + Z.of_nat (rm s) - Z.of_nat (rm s)) with (base s) by lia.
    eapply (stable_intro _ _ _ _ s2); [done|by rewrite (e_all _ _ A2)| |done].
    pose proof (wbase_end s2) as B2. rewrite (e_all _ _ A2), (e_end _ _ A2) in B2. pose proof (wbase_end (restored s1)) as B1.
    change (wbase (restored s1)) with (wbase s) in B1. lia.
  - exists ms. unfold FileMsg.Flush. rewrite run_get, (z_writeSlice _ _ St). split; [done|]. split; [done|]. intros now dir P. by apply (recover_empty now dir ms).
Qed.

(** [C14] Messages that have been flushed survive a restart.  After [Flush], a store that
    recovers from the directory, its slices found in any order, has every message of the
    window, as far as the limits and the age allow; messages that had been removed from a
    slice which is still there may be back in front of them. *)
Theorem flushed_messages_survive now ms w :
  stable ms w ->
  exists ms1, FileMsg.Flush opts pressure ms = (Ok tt, ms1) /\ stable ms1 w /\
    forall dir, dir ≡ₚ directory ms1 ->
    exists ms2, newFileMsgStore opts limits codec pressure now (Some dir) = Ok ms2 /\
      match w with
      | None => stable ms2 None
      | Some (f, q) => exists front, stable ms2 (Some (wrestore now (f - Z.of_nat (length front)) (front ++ q)))
      end.
Proof.
  intros St. destruct (Flush_survives ms w St) as (ms1 & E & St1 & Hs). exists ms1. split; [done|]. split; [done|]. by apply Hs.
Qed.
End Restart.
End Recover.
End FileMsgRecover.

(** ** Samples *)

Module FileMsgRecoverSample.
Import Proto ProtoSpec FileOptions Rec FileMsg FileMsgSpec FileMsgWrite FileMsgStoreSpec FileMsgRefine FileMsgSample FileMsgRecover.

#[local] Instance recover_Z_order : RangeOrder Z := default_order Z.

Definition three : list op := [DoStore (foo 1 10); DoStore (foo 2 20); DoStore (foo 3 30)].
Definition sample_store : FileMsgStore :=
  (exec_all sample_opts sample_limits "foo" plain (fun _ => []) three (new_store sample_opts 0)).2.

Lemma three_ok : Forall (op_ok plain 1) three.
Proof. repeat (apply Forall_cons; split); try apply Forall_nil_2; (split; [apply foo_ok; [cbn; unfold two64; lia|by vm_compute]|unfold in_range; cbn; lia]). Qed.

Lemma sample_stable : stable sample_opts plain 1 sample_store (Some (1, [foo 1 10; foo 2 20; foo 3 30])).
Proof.
  destruct (exec_all_stable sample_opts ltac:(by vm_compute) sample_limits "foo" plain plain_nonempty (fun _ => []) plain_fillers
    ltac:(right; by vm_compute) 1 three (new_store sample_opts 0) None) as (l & ms' & w' & E & St & Sp).
  { by apply new_store_stable; left; vm_compute. } { exact three_ok. }
  unfold sample_store. rewrite E. cbn [snd]. clear E.
  repeat match goal with
  | H : spec_all _ _ _ _ _ _ _ |- _ => inversion H; clear H; subst
  | H : spec _ _ _ (DoStore _) _ _ _ |- _ => destruct H as [_ ->]
  end. exact St.
Qed.

Lemma flushed_messages_survive_witness :
  exists ms1, FileMsg.Flush sample_opts (fun _ => []) sample_store = (Ok tt, ms1) /\ stable sample_opts plain 1 ms1 (Some (1, [foo 1 10; foo 2 20; foo 3 30])) /\
    forall dir, dir ≡ₚ directory ms1 ->
    exists ms2, newFileMsgStore sample_opts sample_limits plain (fun _ => []) 115 (Some dir) = Ok ms2 /\
      exists front, stable sample_opts plain 1 ms2 (Some (wrestore sample_limits plain 115 (1 - Z.of_nat (length front)) (front ++ [foo 1 10; foo 2 20; foo 3 30]))).
Proof.
  apply (flushed_messages_survive sample_opts ltac:(by vm_compute) sample_limits plain plain_nonempty (fun _ => []) 1 ltac:(left; by vm_compute) 115 sample_store
    (Some (1, [foo 1 10; foo 2 20; foo 3 30])) sample_stable).
Defined.

(** The store after a restart at the time 115: the first message is too old. *)
Lemma sample_restart :
  match FileMsg.Flush sample_opts (fun _ => []) sample_store with
  | (Ok _, ms1) =>
      match newFileMsgStore sample_opts sample_limits plain (fun _ => []) 115 (Some (reverse (directory ms1))) with
      | Ok ms2 => (exec_all sample_opts sample_limits "foo" plain (fun _ => []) [DoBounds; DoLookup 116 2; DoStore (foo 4 40); DoLookup 116 4] ms2).1
      | _ => Panic
      end
  | _ => Panic
  end = Ok [Two 2 3; Msg (Some (foo 2 20)); Seq 4; Msg (Some (foo 4 40))].
Proof. vm_compute. reflexivity. Qed.
End FileMsgRecoverSample.
