(* ===== verification/MsgRestore.v ===== *)
(** * Restoring a message store

    What the nodes of a cluster ask of a message store when one of them restores the
    messages of a channel from another one: the first message, and to drop all messages.
    The store in memory is an instance here, the store in files in [FileMsgsLog.v]. *)

From Stdlib Require Import ZArith Lia Ascii String.
From stdpp Require Import base list gmap strings.
From S2P Require Import Prelude GoLib MemStore MsgStore.

Local Open Scope Z_scope.

Class MsgRestore (S E : Type) := {
  FirstMsg : S -> option MsgProto + lookup_error;
  EmptyMsgs : S -> outcome E unit * S
}.

Definition win : Type := option (Z * list MsgProto).

Definition front (w : win) : option MsgProto :=
  match w with Some (_, m :: _) => Some m | _ => None end.

(** The first message that a store emptied is given may have any sequence; one that was
    stored before is ignored. *)
Class MsgRestoreSpec (S E : Type) `{MsgLogSpec S E} `{!MsgRestore S E} := {
  view_FirstMsg s w : view s w -> FirstMsg s = inl (front w);
  view_Empty s w : view s w -> exists s', EmptyMsgs s = (Ok tt, s') /\ view s' None;
  view_StoreFirst s m t :
    view s None -> 0 < Sequence m < two64 - 1 -> storable m ->
    (exists s' w', StoreMsg t m s = (Ok (Sequence m), s') /\ view s' w' /\ pushed m None w') \/
    (exists e s', StoreMsg t m s = (Err e, s') /\ view s' None);
  view_StoreSeen s w m t :
    view s w -> Sequence m <= Window.wlast w -> StoreMsg t m s = (Ok (Sequence m), s)
}.

(** ** Messages stored one after the other *)

Inductive pushed_all : list MsgProto -> win -> win -> Prop :=
| pushed_none w : pushed_all [] w w
| pushed_snoc l m w w1 w2 : pushed_all l w w1 -> pushed m w1 w2 -> pushed_all (l ++ [m]) w w2.

Lemma pushed_all_nil_inv w w' : pushed_all [] w w' -> w' = w.
Proof. inversion 1 as [|l m ? ? ? ? ? Hl]; [done|]. by destruct l. Qed.

(** A window whose messages are those of a history. *)
Definition agrees (h : Z -> MsgProto) (w : win) : Prop :=
  forall seq m, Window.lookup w seq = Some m -> m = h seq.

Lemma pushed_agrees h m w w' :
  (match w with Some _ => Sequence m = Window.wlast w + 1 | None => True end) -> m = h (Sequence m) ->
  pushed m w w' -> agrees h w -> agrees h w'.
Proof.
  unfold pushed, agrees. intros Hm Hh Hp Ha seq x Hx. destruct w as [[f q]|]; cbn in *; destruct Hp as (k & Hk & ->); cbn in Hx;
    destruct (Z.leb_spec (f + Z.of_nat k) seq) || destruct (Z.leb_spec (Sequence m + Z.of_nat k) seq); try done; rewrite lookup_drop in Hx.
  - apply lookup_app_Some in Hx as [Hx|[Hl Hx]].
    + apply Ha. destruct (Z.leb_spec f seq); [|lia]. rewrite <- Hx. f_equal. lia.
    + apply list_lookup_singleton_Some in Hx as [Hi <-]. rewrite Hh. f_equal. lia.
  - assert (k = 0)%nat as -> by (cbn in Hk; lia). apply list_lookup_singleton_Some in Hx as [Hi <-]. rewrite Hh. f_equal. lia.
Qed.

Lemma pushed_wlast m w w' :
  (match w with Some _ => Sequence m = Window.wlast w + 1 | None => True end) -> pushed m w w' -> Window.wlast w' = Sequence m /\ is_Some w'.
Proof.
  unfold pushed. destruct w as [[f q]|]; cbn; intros Hm (k & Hk & ->); (split; [|done]); cbn; rewrite length_drop, ?length_app; cbn in *; lia.
Qed.

(** ** The store in memory *)

Section Memory.
Context (Size : MsgProto -> Z) (E : Type).

#[export] Instance memory_restore : MsgRestore Mem.MemoryMsgStore E := {|
  FirstMsg ms := inl (Mem.FirstMsg ms);
  EmptyMsgs ms := (Ok tt, Mem.Empty ms)
|}.

#[local] Existing Instances memory_store_spec memory_log memory_log_spec.

#[export] Instance memory_restore_spec :
  @MsgRestoreSpec Mem.MemoryMsgStore E memory_store (memory_store_spec Size) (memory_log Size E) (memory_log_spec Size E) memory_restore.
Proof.
  split.
  { intros ms w Hr. cbn. f_equal. unfold Mem.FirstMsg. fold (Mem.Lookup ms (Mem.first ms)). rewrite (MemSpec.repr_Lookup Size ms w) by done.
  pose proof (view_FirstAndLast ms w Hr) as Hf. cbn in Hf. unfold Mem.FirstAndLastSequence in Hf. injection Hf as -> _.
  destruct w as [[f q]|]; [|done]. cbn. rewrite Z.leb_refl, Z.sub_diag. by destruct q. }
  { intros ms w Hr. by eexists. }
  2:{ intros ms w m t Hr Hm. pose proof (view_FirstAndLast ms w Hr) as Hf. cbn in Hf. unfold Mem.FirstAndLastSequence in Hf. injection Hf as _ Hl.
    cbn. unfold Mem.Store. by rewrite Hl, (proj2 (Z.leb_le _ _) Hm). }
  intros ms m t Hr Hm _. left. assert (Window.accepts None m) as Ha by (split; [lia|done]).
  pose proof (MemSpec.Store_holds Size t m ms None Hr Ha) as (Eq & Hr' & _). cbn.
  destruct (Mem.Store Size t m ms) as [r ms']. cbn in *. eexists _, _. split; [by rewrite Eq|]. split; [exact Hr'|].
  change (pushed m None (Window.store Size (Mem.limits ms) m None)). apply (trim_pushed Size (Mem.limits ms)). unfold Window.store. cbn. by destruct (Z.leb_spec (Sequence m) 0); [lia|].
Qed.
End Memory.
