(* ===== verification/FileMsgsLog.v ===== *)
(** * The message store in files, for publishing

    The message store in files is an instance of the interface that the publish loop writes
    through ([MsgLogSpec] of [MsgStore.v]): a stored message is added to the window, and what
    has been flushed is found again by a restart.  [FileMsgCases] has runs where a
    hypothesis of the refinement does not hold, or where the window does not say all. *)

From Stdlib Require Import ZArith Lia Ascii String Sorted.
From stdpp Require Import base list gmap strings.
From S2P Require Import Prelude Bytes Util GoLib MemStore MsgStore Proto ProtoSpec Crc Records RecordsSpec FileSubs Cache FilesManager FileMsgs FileMsgsSpec FileMsgsRemove FileMsgsWrite FileMsgsStore FileMsgsLookup FileMsgsTime FileMsgsRefine FileMsgsRecover MsgRestore.

Local Open Scope Z_scope.

Module FileMsgLog.
Import Proto ProtoSpec Rec FileOptions FM FileMsg FileMsgSpec FileMsgRemove FileMsgWrite FileMsgStoreSpec FileMsgRefine FileMsgRecover.

Section Log.
Context (opts : FileStoreOptions) (Hopts : FileOptions.valid opts) (limits : Mem.MsgStoreLimits) (channelName : string).
Context (codec : codec MsgProto) (nonempty : forall m, 0 < Sequence m -> c_put codec m <> []) `{!Lawful codec}.
Context (pressure : nat -> list (part * Z)) `{!RangeOrder Z}.
Context (fillers_ok : forall ts seq, is_i64 ts -> 0 < seq < two64 - 1 -> msg_ok codec (filler channelName ts seq)).
Context (Hread : ReadBufferSize opts <= 0 \/ 32 <= ReadBufferSize opts).
Context (Hmode : FileDescriptorsLimit opts <= 0 \/ BufferSize opts <= 0).
Context (low now : Z).

Definition file_log : MsgLog FileMsgStore rec_error := {|
  StoreMsg _ m ms := FileMsg.Store opts limits channelName codec pressure m ms;
  FlushMsgs ms := FileMsg.Flush opts pressure ms
|}.

Program Definition file_log_spec :
  @MsgLogSpec FileMsgStore rec_error (file_store opts codec pressure now)
    (file_store_spec opts Hopts limits channelName codec nonempty pressure fillers_ok Hread low now) file_log := {|
  storable m := msg_ok codec m /\ in_range low m;
  durable := survives opts limits codec pressure low
|}.
Next Obligation.
  intros ms w m t St Hm Hb Hok. left.
  destruct (exec_stable opts Hopts limits channelName codec nonempty pressure fillers_ok Hread low (DoStore m) ms w St Hok)
    as (a & ms' & w' & E & St' & -> & ->).
  cbn in E |- *. destruct (FileMsg.Store opts limits channelName codec pressure m ms) as [r ms1] eqn:E1. unfold mbind, M_bind in E. rewrite E1 in E.
  destruct r; cbn in E; [|done|done]. injection E as -> ->. eexists _, _. split; [done|]. split; [exact St'|].
  apply (trim_pushed (FileMsgSpec.Size codec) limits). unfold wstore. destruct (Z.leb_spec (Sequence m) (Window.wlast w)); [lia|].
  destruct w as [[f q]|]; [|done]. cbn [default]. rewrite Hm, Z.sub_diag. done.
Qed.
Next Obligation.
  intros ms w St. by apply Flush_survives.
Qed.

(** ** Restoring *)

Definition file_restore : MsgRestore FileMsgStore rec_error := {|
  MsgRestore.FirstMsg ms := match (FileMsg.FirstMsg opts codec pressure now ms).1 with Ok m => inl m | _ => inr LookupError end;
  EmptyMsgs ms := FileMsg.Empty opts ms
|}.

(** An operation returns what [exec] returns, without its wrapper. *)
Lemma log_exec_inv {A : Type} (m : FileMsg.M A) (f : A -> answer) ms a ms' :
  (r ← m; mret (f r)) ms = (Ok a, ms') -> exists r, m ms = (Ok r, ms') /\ a = f r.
Proof. unfold mbind, M_bind. destruct (m ms) as [[r| |] s]; intros [= <- <-]. by exists r. Qed.

Lemma file_restore_spec :
  @MsgRestoreSpec FileMsgStore rec_error (file_store opts codec pressure now)
    (file_store_spec opts Hopts limits channelName codec nonempty pressure fillers_ok Hread low now) file_log file_log_spec file_restore.
Proof.
  split.
  - intros ms w St.
    destruct (exec_stable opts Hopts limits channelName codec nonempty pressure fillers_ok Hread low (DoFirstMsg now) ms w St I) as (a & ms' & w' & E & _ & -> & ->).
    destruct (log_exec_inv _ Msg _ _ _ E) as (r & E1 & [= <-]). cbn. rewrite E1. cbn. destruct w as [[f [|m q]]|]; done.
  - intros ms w St.
    destruct (exec_stable opts Hopts limits channelName codec nonempty pressure fillers_ok Hread low DoEmpty ms w St I) as (a & ms' & w' & E & St' & -> & ->).
    destruct (log_exec_inv _ (fun _ => Done) _ _ _ E) as ([] & E1 & _). by exists ms'.
  - intros ms m t St Hm Hok. left.
    destruct (exec_stable opts Hopts limits channelName codec nonempty pressure fillers_ok Hread low (DoStore m) ms None St Hok) as (a & ms' & w' & E & St' & -> & ->).
    destruct (log_exec_inv _ Seq _ _ _ E) as (r & E1 & [= <-]). exists ms'. eexists. split; [exact E1|]. split; [exact St'|].
    apply (trim_pushed (FileMsgSpec.Size codec) limits). unfold wstore. cbn. by destruct (Z.leb_spec (Sequence m) 0); [lia|].
  - intros ms w m t St Hm. pose proof (view_FirstAndLast (MsgStoreSpec := file_store_spec opts Hopts limits channelName codec nonempty pressure fillers_ok Hread low now) ms w St) as Hf.
    cbn in Hf. injection Hf as _ Hl. cbn. unfold FileMsg.Store, mbind, M_bind, get_store. cbn. by rewrite Hl, (proj2 (Z.leb_le _ _) Hm).
Qed.
End Log.
End FileMsgLog.

Module FileMsgCases.
Import Crc Proto FileOptions Buffer Rec RecSpec Cache FileMsg FileMsgSpec FileMsgRefine FileMsgSample FileMsgRecover.

#[local] Instance cases_Z_order : RangeOrder Z := default_order Z.

Definition no_limits : Mem.MsgStoreLimits := Mem.mkLimits 0 0 0.

(** A round of the background tasks that empties the cache and does nothing else. *)
Definition evict_all (now : Z) : op := DoBackground now (mkBkg 0 0 now now).

(** A buffer for reading that is smaller than an index record: reading ahead slices the
    buffer past its capacity, and the lookup of a message that is in the files panics. *)
Definition tiny_reads : FileStoreOptions := mkOptions 256 true 1 50 0 true IEEE true 2 0 0 "" 0 1 true 16 0.

Theorem small_read_buffer_panics :
  (exec_all tiny_reads no_limits "foo" plain (fun _ => [])
     [DoStore (foo 1 10); DoStore (foo 2 20); DoStore (foo 3 30); evict_all 5000000000; DoLookup 5000000001 1] (new_store tiny_reads 0)).1 = Panic.
Proof. vm_compute. reflexivity. Qed.

(** Two messages per slice, a write buffer, at most ten files. *)
Definition few_files : FileStoreOptions := mkOptions 256 true 1 50 0 true IEEE true 2 0 0 "" 10 1 true 64 0.
Definition close_index (n : nat) : list (part * Z) := if (n =? 4)%nat then [(Idx, 2)] else [].

Definition index_ops : list op :=
  [DoStore (foo 1 10); DoStore (foo 2 20); DoStore (foo 3 30); evict_all 1000000040; DoLookup 1000000050 1; DoLookup 1000000060 3].

(** With a limit on file descriptors and a write buffer, the index file of the slice that
    is written to may be closed alone: its records are then in the file before the messages
    are, and the messages are not found any more. *)
Theorem index_closed_alone :
  (exec_all few_files no_limits "foo" plain close_index index_ops (new_store few_files 1000000000)).1 = Err AtEOF /\
  exists l, (exec_all few_files no_limits "foo" plain (fun _ => []) index_ops (new_store few_files 1000000000)).1 = Ok l /\
    list.last l = Some (Msg (Some (foo 3 30))).
Proof. split; [by vm_compute|]. eexists. split; vm_compute; reflexivity. Qed.

(** Removing a slice deletes messages that have been flushed, while the message that made
    the store exceed its limits is only in the buffer: a crash then leaves nothing, and the
    sequences start again. *)
Definition crash_opts : FileStoreOptions := mkOptions 256 true 1 50 0 true IEEE true 2 0 0 "" 0 1 true 64 0.
Definition one_message : Mem.MsgStoreLimits := Mem.mkLimits 1 0 0.

Theorem crash_restarts_sequences :
  let ms := (exec_all crash_opts one_message "foo" plain (fun _ => [])
               [DoStore (foo 1 10); DoStore (foo 2 20); DoFlush; DoStore (foo 3 30)] (new_store crash_opts 0)).2 in
  FirstAndLastSequence ms = (3, 3) /\
  match newFileMsgStore crash_opts one_message plain (fun _ => []) 50 (Some (directory ms)) with
  | Ok ms' => FirstAndLastSequence ms' = (0, 0)
  | _ => False
  end.
Proof. split; vm_compute; reflexivity. Qed.

(** Once all messages have expired, a message that is stored after a gap does not set the
    time of the next expiration: the store keeps it, with the messages that fill the gap,
    past its age. *)
Definition aged : Mem.MsgStoreLimits := Mem.mkLimits 0 0 100.

Theorem gap_after_expiration :
  let ms := (exec_all crash_opts aged "foo" plain (fun _ => [])
               [DoStore (foo 1 10); DoBackground 200 (mkBkg 110 200 200 200); DoStore (foo 4 300)] (new_store crash_opts 0)).2 in
  FirstAndLastSequence ms = (2, 4) /\ expiration ms = 0.
Proof. split; vm_compute; reflexivity. Qed.

(** An index file without records beside a data file that ends in the middle of a record:
    recovery truncates the index file where it means the data file, and fails, although
    it is asked to truncate. *)
Theorem torn_data_without_index :
  let whole := enc crash_opts plain (foo 1 10) in
  let torn := take 20 (enc crash_opts plain (foo 2 20)) in
  TruncateUnexpectedEOF crash_opts = true /\
  recover_slice crash_opts plain (version ++ whole ++ torn) (Some version) = Err InvalidFile /\
  exists s idx, recover_slice crash_opts plain (version ++ whole ++ torn) None = Ok (s, version ++ whole, idx).
Proof. split; [done|]. split; [by vm_compute|]. eexists _, _. vm_compute. reflexivity. Qed.
End FileMsgCases.
