(* ===== verification/Effects.v ===== *)
(** * Stateful handlers

    A handler of the server changes its state, and may fail or panic on the way: the
    state is what the handler made of it until then.  [catch] is a caller that looks at
    the error and goes on. *)

From stdpp Require Import base list.
From S2P Require Import Prelude.

Definition eff (St E A : Type) : Type := St -> outcome E A * St.

Section Monad.
Context {St E : Type}.

#[export] Instance eff_ret : MRet (eff St E) := fun A a s => (Ok a, s).
#[export] Instance eff_bind : MBind (eff St E) := fun A B f m s =>
  match m s with
  | (Ok a, s') => f a s'
  | (Err e, s') => (Err e, s')
  | (Panic, s') => (Panic, s')
  end.

Definition get : eff St E St := fun s => (Ok s, s).
Definition modify (f : St -> St) : eff St E unit := fun s => (Ok tt, f s).
Definition fail {A : Type} (e : E) : eff St E A := fun s => (Err e, s).
Definition panic {A : Type} : eff St E A := fun s => (Panic, s).
Definition when (b : bool) (m : eff St E unit) : eff St E unit := if b then m else mret tt.
Definition catch {A : Type} (m : eff St E A) : eff St E (A + E) := fun s =>
  match m s with
  | (Ok a, s') => (Ok (inl a), s')
  | (Err e, s') => (Ok (inr e), s')
  | (Panic, s') => (Panic, s')
  end.

Fixpoint each {A : Type} (f : A -> eff St E unit) (l : list A) : eff St E unit :=
  match l with
  | [] => mret tt
  | x :: l' => _ ← f x; each f l'
  end.

(** ** Running *)

Lemma eff_bind_Ok {A B : Type} (m : eff St E A) (f : A -> eff St E B) s a s' :
  m s = (Ok a, s') -> (m ≫= f) s = f a s'.
Proof. unfold mbind, eff_bind. by intros ->. Qed.
Lemma eff_bind_Err {A B : Type} (m : eff St E A) (f : A -> eff St E B) s e s' :
  m s = (Err e, s') -> (m ≫= f) s = (Err e, s').
Proof. unfold mbind, eff_bind. by intros ->. Qed.
Lemma eff_bind_Panic {A B : Type} (m : eff St E A) (f : A -> eff St E B) s s' :
  m s = (Panic, s') -> (m ≫= f) s = (Panic, s').
Proof. unfold mbind, eff_bind. by intros ->. Qed.
Lemma eff_get {B : Type} (f : St -> eff St E B) s : (get ≫= f) s = f s s.
Proof. done. Qed.
Lemma eff_modify {B : Type} g (f : unit -> eff St E B) s : (modify g ≫= f) s = f tt (g s).
Proof. done. Qed.
Lemma eff_catch {A B : Type} (m : eff St E A) (f : A + E -> eff St E B) s r s' :
  m s = (r, s') ->
  (catch m ≫= f) s = match r with Ok a => f (inl a) s' | Err e => f (inr e) s' | Panic => (Panic, s') end.
Proof. unfold catch, mbind, eff_bind. intros ->. by destruct r. Qed.
Lemma eff_assoc {A B C : Type} (m : eff St E A) (f : A -> eff St E B) (g : B -> eff St E C) s :
  ((m ≫= f) ≫= g) s = (m ≫= fun a => f a ≫= g) s.
Proof. unfold mbind, eff_bind. by destruct (m s) as [[| |] ?]. Qed.

(** A handler that returns goes through what it is composed of. *)
Lemma eff_bind_inv {A B : Type} (m : eff St E A) (f : A -> eff St E B) s b s' :
  (m ≫= f) s = (Ok b, s') -> exists a s1, m s = (Ok a, s1) /\ f a s1 = (Ok b, s').
Proof. unfold mbind, eff_bind. destruct (m s) as [[a| |] s1]; [|done|done]. by exists a, s1. Qed.

(** What holds of the state through a handler. *)
Definition keeps {A : Type} (I : St -> Prop) (m : eff St E A) : Prop := forall s, I s -> I (m s).2.

Lemma keeps_ret {A : Type} I (a : A) : keeps I (mret a : eff St E A).
Proof. by intros s Hs. Qed.
Lemma keeps_bind {A B : Type} I (m : eff St E A) (f : A -> eff St E B) :
  keeps I m -> (forall a, keeps I (f a)) -> keeps I (m ≫= f).
Proof.
  intros Hm Hf s Hs. specialize (Hm s Hs). unfold mbind, eff_bind.
  destruct (m s) as [[a|e|] s']; cbn in *; [by apply Hf|done|done].
Qed.
Lemma keeps_modify I g : (forall s, I s -> I (g s)) -> keeps I (modify g).
Proof. intros Hg s. apply Hg. Qed.
Lemma keeps_catch {A : Type} I (m : eff St E A) : keeps I m -> keeps I (catch m).
Proof. intros Hm s Hs. specialize (Hm s Hs). unfold catch. by destruct (m s) as [[| |] ?]. Qed.
Lemma keeps_when I b m : (b = true -> keeps I m) -> keeps I (when b m).
Proof. intros Hm s Hs. unfold when. destruct b; [by apply Hm|done]. Qed.
Lemma keeps_each {A : Type} I (f : A -> eff St E unit) l :
  (forall x, x ∈ l -> keeps I (f x)) -> keeps I (each f l).
Proof.
  induction l as [|x l IH]; intros Hf; [apply keeps_ret|].
  apply keeps_bind; [apply Hf; by left|]. intros _. apply IH. intros y Hy. apply Hf. by right.
Qed.
End Monad.

Create HintDb eff.
#[export] Hint Resolve keeps_ret keeps_bind keeps_modify keeps_catch : eff.
