(* ===== verification/ChannelStore.v ===== *)
(** * The channels of the server

    The channels that the server works with ([channelStore], [channel] and
    [channelActivity] of src/server/server.go): looking them up, creating them, and
    deleting those that have been inactive for long enough.  Channels are objects that
    other parts of the server keep pointers to, so they live in a heap and the maps hold
    pointers. *)

From Stdlib Require Import ZArith Lia Ascii String.
From stdpp Require Import base list gmap strings.
From S2P Require Import Prelude GoLib Effects MemStore MsgStore SubState SubStore.

Local Open Scope Z_scope.

(** ** What the channels rely on *)

(** [stores.Store]: a new channel comes with its message store; of the limits of a channel
    only [MaxInactivity] is used here. *)
Class Stores (D S E : Type) := {
  CreateChannel : string -> D -> outcome E S * D;
  DeleteChannel : string -> D -> outcome E unit * D;
  GetChannelLimits : string -> D -> option Z * D
}.

(** The store of the replicated log, which also keeps the identifiers of channels. *)
Class RaftStore (R E : Type) := {
  LastIndex : R -> outcome E Z;
  SetChannelID : string -> Z -> R -> outcome E unit * R;
  DeleteChannelID : string -> R -> outcome E unit * R
}.

Module Chan.
Import Sub Reg.

(** ** Time *)

(** [time.Time]: a value of [time.Now] has a monotonic reading, one of [time.Unix] has not. *)
Record time := mkTime { wall : Z; monotonic : option Z }.

(** A reading of the clocks of the machine. *)
Record reading := mkReading { wall_now : Z; monotonic_now : Z }.

Definition time_of (r : reading) : time := mkTime (wall_now r) (Some (monotonic_now r)).
Definition saturate (d : Z) : Z := Z.max (- two63) (Z.min (two63 - 1) d).
Definition Since (r : reading) (t : time) : Z :=
  saturate (match monotonic t with
            | Some m => monotonic_now r - m
            | None => wall_now r - wall t
            end).

(** ** Names in lower case *)

Definition is_ascii (c : ascii) : bool := Z.of_nat (nat_of_ascii c) <? 128.
Definition lower_ascii (c : ascii) : ascii :=
  let n := nat_of_ascii c in
  if ((65 <=? n) && (n <=? 90))%nat then ascii_of_nat (n + 32) else c.

(** [strings.ToLower]; the case tables of Unicode are a parameter. *)
Definition ToLower (unicode : list ascii -> list ascii) (s : string) : string :=
  let l := list_ascii_of_string s in
  string_of_list_ascii (if forallb is_ascii l then lower_ascii <$> l else unicode l).

(** ** Channels *)

Record channelActivity := mkActivity {
  last : time;
  maxInactivity : Z;
  delete_timer : option timer;
  deleteInProgress : bool;
  preventDelete : bool;
  timerSet : bool
}.

Definition set_last (v : time) (a : channelActivity) : channelActivity :=
  mkActivity v (maxInactivity a) (delete_timer a) (deleteInProgress a) (preventDelete a) (timerSet a).
Definition set_timer (v : option timer) (b : bool) (a : channelActivity) : channelActivity :=
  mkActivity (last a) (maxInactivity a) v (deleteInProgress a) (preventDelete a) b.
Definition set_deleteInProgress (v : bool) (a : channelActivity) : channelActivity :=
  mkActivity (last a) (maxInactivity a) (delete_timer a) v (preventDelete a) (timerSet a).
Definition set_preventDelete (v : bool) (a : channelActivity) : channelActivity :=
  mkActivity (last a) (maxInactivity a) (delete_timer a) (deleteInProgress a) v (timerSet a).

Inductive chan_error (E : Type) :=
| ErrInvalidPubReq
| ErrChanDelInProgress
| ErrDifferentCase (name other : string)
| StoreFailed (e : E).
Arguments ErrInvalidPubReq {E}.
Arguments ErrChanDelInProgress {E}.
Arguments ErrDifferentCase {E} name other.
Arguments StoreFailed {E} e.

(** What the handlers hand to Raft: messages of a channel, or its deletion. *)
Inductive raft_op :=
| PublishBatch (id : Z) (messages : list MsgProto)
| DeleteOp (name : string) (id : Z).

(** An answer to a publisher, on its reply subject: the identifier of its message and an
    error, if any. *)
Record pub_answer (E : Type) := mkAnswer { to : string; guid : string; pub_error : option (chan_error E) }.
Arguments mkAnswer {E} to guid pub_error.
Arguments to {E} p.
Arguments guid {E} p.
Arguments pub_error {E} p.

Section Server.
Context {S D R E : Type} `{MsgStore S} `{!MsgLog S E} `{!Stores D S E} `{!RaftStore R E}.
Context (unicode : list ascii -> list ascii).

Record channel := mkChannel {
  firstSeq : Z;
  nextSequence : Z;
  name : string;
  id : Z;
  msgs : S;
  ss : subStore;
  lTimestamp : Z;
  activity : option channelActivity;
  nextSubID : Z;
  lSeqChecked : bool
}.

Definition set_nextSequence (v : Z) (c : channel) : channel :=
  mkChannel (firstSeq c) v (name c) (id c) (msgs c) (ss c) (lTimestamp c) (activity c) (nextSubID c) (lSeqChecked c).
Definition set_id (v : Z) (c : channel) : channel :=
  mkChannel (firstSeq c) (nextSequence c) (name c) v (msgs c) (ss c) (lTimestamp c) (activity c) (nextSubID c) (lSeqChecked c).
Definition set_msgs (v : S) (c : channel) : channel :=
  mkChannel (firstSeq c) (nextSequence c) (name c) (id c) v (ss c) (lTimestamp c) (activity c) (nextSubID c) (lSeqChecked c).
Definition set_ss (v : subStore) (c : channel) : channel :=
  mkChannel (firstSeq c) (nextSequence c) (name c) (id c) (msgs c) v (lTimestamp c) (activity c) (nextSubID c) (lSeqChecked c).
Definition set_lTimestamp (v : Z) (c : channel) : channel :=
  mkChannel (firstSeq c) (nextSequence c) (name c) (id c) (msgs c) (ss c) v (activity c) (nextSubID c) (lSeqChecked c).
Definition set_activity (v : option channelActivity) (c : channel) : channel :=
  mkChannel (firstSeq c) (nextSequence c) (name c) (id c) (msgs c) (ss c) (lTimestamp c) v (nextSubID c) (lSeqChecked c).

(** The channels with the parts of the server that their handlers work on: the stores,
    the store of the replicated log, the subscriptions, how often the environment has been
    asked, and the answers to publishers, most recent last. *)
Record stan := mkStan {
  chans : gmap ptr channel;
  channels : gmap string ptr;
  channelsLC : gmap string ptr;
  store : D;
  raft : R;
  subscriptions : server;
  asked : nat;
  answers : list (pub_answer E)
}.

Definition set_chans (v : gmap ptr channel) (s : stan) : stan :=
  mkStan v (channels s) (channelsLC s) (store s) (raft s) (subscriptions s) (asked s) (answers s).
Definition set_names (v lc : gmap string ptr) (s : stan) : stan :=
  mkStan (chans s) v lc (store s) (raft s) (subscriptions s) (asked s) (answers s).
Definition set_store (v : D) (s : stan) : stan :=
  mkStan (chans s) (channels s) (channelsLC s) v (raft s) (subscriptions s) (asked s) (answers s).
Definition set_raft (v : R) (s : stan) : stan :=
  mkStan (chans s) (channels s) (channelsLC s) (store s) v (subscriptions s) (asked s) (answers s).
Definition set_subscriptions (v : server) (s : stan) : stan :=
  mkStan (chans s) (channels s) (channelsLC s) (store s) (raft s) v (asked s) (answers s).
Definition set_asked (v : nat) (s : stan) : stan :=
  mkStan (chans s) (channels s) (channelsLC s) (store s) (raft s) (subscriptions s) v (answers s).
Definition set_answers (v : list (pub_answer E)) (s : stan) : stan :=
  mkStan (chans s) (channels s) (channelsLC s) (store s) (raft s) (subscriptions s) (asked s) v.

(** What the environment answers when it is asked for the [n]-th time: the clocks, whether
    reading the last sequence of a message store fails, and whether flushing a
    subscription store does.  [raft_Apply] is Raft, with what it makes the server do. *)
Record environment := mkEnvironment {
  sub_env : env;
  isLeader : bool;
  clocks : nat -> reading;
  LastSequence_fails : nat -> option E;
  SubsFlush_fails : nat -> option E;
  raft_Apply : raft_op -> stan -> option E * stan
}.

Context (e : environment).

Definition isStandaloneOrLeader : bool := negb (isClustered (sub_env e)) || isLeader e.

Abbreviation M := (eff stan (chan_error E)).

(** *** Steps *)

Definition ask {A : Type} (f : nat -> A) : M A := fun s => (Ok (f (asked s)), set_asked (asked s + 1) s).
Definition clock : M reading := ask (clocks e).

(** Following a pointer to a channel, and to its activity. *)
Definition chan_at (p : ptr) : M channel := fun s =>
  match chans s !! p with Some c => (Ok c, s) | None => (Panic, s) end.
Definition update_chan (p : ptr) (f : channel -> channel) : M unit :=
  c ← chan_at p; modify (fun s => set_chans (<[p := f c]> (chans s)) s).
Definition activity_at (p : ptr) : M channelActivity :=
  c ← chan_at p; match activity c with Some a => mret a | None => panic end.
Definition update_activity (p : ptr) (f : channelActivity -> channelActivity) : M unit :=
  update_chan p (fun c => set_activity (f <$> activity c) c).

(** Calls to the stores. *)
Definition on_store {A : Type} (f : D -> outcome E A * D) : M A := fun s =>
  let '(r, d) := f (store s) in
  (match r with Ok a => Ok a | Err x => Err (StoreFailed x) | Panic => Panic end, set_store d s).
Definition on_raft {A : Type} (f : R -> outcome E A * R) : M A := fun s =>
  let '(r, d) := f (raft s) in
  (match r with Ok a => Ok a | Err x => Err (StoreFailed x) | Panic => Panic end, set_raft d s).

Definition deleting (c : channel) : bool :=
  match activity c with Some a => deleteInProgress a | None => false end.
Definition is_active (c : channel) (s : stan) : bool := hasActiveSubs (ss c, subscriptions s).

(** *** The delete timer *)

Definition resetDeleteTimer (p : ptr) (newDuration : Z) : M unit :=
  _ ← activity_at p;
  t ← clock;
  update_activity p (set_timer (Some (Armed (monotonic_now t + newDuration))) true).

Definition startDeleteTimer (p : ptr) : M unit :=
  _ ← activity_at p;
  t ← clock;
  _ ← update_activity p (set_last (time_of t));
  a ← activity_at p;
  resetDeleteTimer p (maxInactivity a).

Definition stopDeleteTimer (p : ptr) : M unit :=
  a ← activity_at p;
  match delete_timer a with
  | Some _ => update_activity p (set_timer (Some Idle) false)
  | None => mret tt
  end.

(** *** [channelStore] *)

Definition get_channel (nm : string) : M (option ptr) := s ← get; mret (channels s !! nm).

Definition getIfNotAboutToBeDeleted (nm : string) : M (option ptr) :=
  s ← get;
  match channels s !! nm with
  | None => mret None
  | Some p => c ← chan_at p; mret (if deleting c then None else Some p)
  end.

Definition checkCase (nm : string) : M unit :=
  s ← get;
  match channelsLC s !! ToLower unicode nm with
  | Some p => c ← chan_at p; fail (ErrDifferentCase nm (name c))
  | None => mret tt
  end.

Definition create (nm : string) (sc : S) : M ptr :=
  err ← ask (LastSequence_fails e);
  match err with
  | Some x => fail (StoreFailed x)
  | None =>
      s ← get;
      let p := fresh (dom (chans s)) in
      let c := mkChannel 0 (u64 (LastSequence sc + 1)) nm 0 sc createSubStore 0 None 1 false in
      _ ← modify (set_chans (<[p := c]> (chans s)));
      _ ← modify (fun s => set_names (<[nm := p]> (channels s)) (<[ToLower unicode nm := p]> (channelsLC s)) s);
      cl ← on_store (fun d => let '(cl, d) := GetChannelLimits nm d in (Ok cl, d));
      match cl with
      | None => panic
      | Some maxInactivity =>
          _ ← when (0 <? maxInactivity)
                (update_chan p (set_activity (Some (mkActivity (mkTime 0 None) maxInactivity None false false false))));
          mret p
      end
  end.

(** The identifier of a new channel, in a cluster. *)
Definition assign_id (nm : string) (i : Z) : M Z :=
  if isClustered (sub_env e) then
    i ← (if isLeader e && (i =? 0) then on_raft (fun r => (LastIndex r, r)) else mret i);
    _ ← on_raft (SetChannelID nm i);
    mret i
  else mret i.

Definition createChannelLocked (nm : string) (i : Z) : M ptr :=
  s ← get;
  match channels s !! nm with
  | Some p => c ← chan_at p; if deleting c then fail ErrChanDelInProgress else mret p
  | None =>
      _ ← checkCase nm;
      i ← assign_id nm i;
      sc ← on_store (CreateChannel nm);
      r ← catch (create nm sc);
      match r with
      | inr x => _ ← when (negb (i =? 0)) (_ ← catch (on_raft (DeleteChannelID nm)); mret tt); fail x
      | inl p =>
          _ ← update_chan p (set_id i);
          c ← chan_at p;
          _ ← when (isStandaloneOrLeader && bool_decide (is_Some (activity c))) (startDeleteTimer p);
          mret p
      end
  end.

Definition createChannel (nm : string) : M ptr := createChannelLocked nm 0.

Definition lookupOrCreateChannel (nm : string) : M ptr :=
  s ← get;
  match channels s !! nm with
  | Some p => c ← chan_at p; if deleting c then fail ErrChanDelInProgress else mret p
  | None => _ ← checkCase nm; createChannel nm
  end.

Definition lookupOrCreateChannelPreventDelete (nm : string) : M (ptr * bool) :=
  s ← get;
  p ← match channels s !! nm with
      | Some p => c ← chan_at p; if deleting c then fail ErrChanDelInProgress else mret p
      | None => _ ← checkCase nm; createChannelLocked nm 0
      end;
  c ← chan_at p;
  match activity c with
  | Some _ => _ ← update_activity p (set_preventDelete true); _ ← stopDeleteTimer p; mret (p, true)
  | None => mret (p, false)
  end.

Definition getAll : M (gmap string ptr) := s ← get; mret (channels s).
Definition count : M nat := s ← get; mret (size (channels s)).

Definition maybeStartChannelDeleteTimer (nm : string) (c : option ptr) : M unit :=
  s ← get;
  match (match c with Some p => Some p | None => channels s !! nm end) with
  | None => mret tt
  | Some p =>
      c ← chan_at p;
      when (bool_decide (is_Some (activity c)) && negb (deleting c) && negb (is_active c s)) (startDeleteTimer p)
  end.

(** The timer is stopped before the activity is tested: a nil pointer if there is none. *)
Definition stopDeleteTimer_locked (p : ptr) : M unit :=
  _ ← stopDeleteTimer p; update_activity p (set_deleteInProgress false).

Definition turnOffPreventDelete (c : option ptr) : M unit :=
  match c with Some p => update_activity p (set_preventDelete false) | None => mret tt end.

(** *** Deleting *)

Definition processDeleteChannel (nm : string) : M unit :=
  s ← get;
  match channels s !! nm with
  | None => mret tt
  | Some p =>
      c ← chan_at p;
      if match activity c with Some a => preventDelete a | None => false end then mret tt
      else
        r ← catch (_ ← on_store (DeleteChannel nm);
                   when (isClustered (sub_env e)) (on_raft (DeleteChannelID nm)));
        match r with
        | inr _ =>
            when (isStandaloneOrLeader && bool_decide (is_Some (activity c)))
              (_ ← update_activity p (set_deleteInProgress false); startDeleteTimer p)
        | inl _ => modify (fun s => set_names (delete nm (channels s)) (delete (ToLower unicode nm) (channelsLC s)) s)
        end
  end.

Definition replicateDeleteChannel (p : ptr) : M unit :=
  c ← chan_at p;
  s ← get;
  let '(err, s') := raft_Apply e (DeleteOp (name c) (id c)) s in
  _ ← modify (fun _ => s');
  match err with
  | Some _ => update_activity p (set_deleteInProgress false)
  | None => mret tt
  end.

(** The decision of [handleChannelDelete], under the lock of the channels. *)
Definition decide_delete (p : ptr) : M bool :=
  a ← activity_at p;
  c ← chan_at p;
  s ← get;
  if preventDelete a || deleteInProgress a || is_active c s then _ ← stopDeleteTimer p; mret false
  else
    t ← clock;
    let elapsed := Since t (last a) in
    if maxInactivity a <=? elapsed then
      _ ← stopDeleteTimer p; _ ← update_activity p (set_deleteInProgress true); mret true
    else
      _ ← resetDeleteTimer p (if elapsed <? 0 then maxInactivity a else i64 (maxInactivity a - elapsed));
      mret false.

Definition handleChannelDelete (p : ptr) : M unit :=
  delete ← decide_delete p;
  when delete (c ← chan_at p;
               if isClustered (sub_env e) then replicateDeleteChannel p else processDeleteChannel (name c)).
End Server.
End Chan.
