(* ===== verification/PublishLoop.v ===== *)
(** * Publishing

    The path of a published message through the server: [processClientPublish] checks the
    request and posts it on a channel; [ioLoop] takes requests from there in batches, stores
    them, flushes the stores, has the messages delivered, and acknowledges them to their
    publishers.  Requests to delete an inactive channel go through the same loop. *)

From Stdlib Require Import ZArith Lia Ascii String.
From stdpp Require Import base list gmap strings.
From S2P Require Import Prelude Bytes Util GoLib Effects Proto Spb MemStore MsgStore ClientStore SubState Delivery SubStore ChannelStore.

Local Open Scope Z_scope.

Module Publish.
Import Sub Reg Chan.

(** ** Requests *)

(** [nats.Msg] *)
Record nats_msg := mkNatsMsg { m_Subject : string; m_Reply : string; m_Data : list byte }.

(** The fields of [pb.PubMsg] that the server uses. *)
Record PubMsg := mkPubMsg {
  pm_ClientID : string;
  pm_Guid : string;
  pm_Subject : string;
  pm_Reply : string;
  pm_Data : list byte;
  pm_ConnID : string
}.

(** [ioPendingMsg]: a message, a request to delete the channel [c] ([dc]), or a request to
    synchronize with the loop ([sc]). *)
Record ioPendingMsg := mkPending {
  m : nats_msg;
  pm : PubMsg;
  c : option ptr;
  dc : bool;
  sc : option nat
}.

Definition set_c (v : ptr) (x : ioPendingMsg) : ioPendingMsg := mkPending (m x) (pm x) (Some v) (dc x) (sc x).
Definition no_msg : nats_msg := mkNatsMsg "" "" [].
Definition no_pub : PubMsg := mkPubMsg "" "" "" "" [] "".

Definition sendDeleteChannelRequest (p : ptr) : ioPendingMsg := mkPending no_msg no_pub (Some p) true None.
Definition sendSynchronziationRequest (n : nat) : ioPendingMsg := mkPending no_msg no_pub None false (Some n).

(** ** [processClientPublish] *)

Section Receive.
Context {E : Type}.
(** [Unmarshal] of [pb.PubMsg]: what it has decoded, and whether it succeeded. *)
Context (unmarshal : list byte -> PubMsg * bool).

Record stats := mkStats { inMsgs : Z; inBytes : Z }.

Inductive received :=
| Posted (x : ioPendingMsg)
| Refused (a : pub_answer E)
| Ignored.

Definition processCtrlMsg (msg : nats_msg) : bool :=
  match CtrlMsg.Unmarshal CtrlMsg.zero (m_Data msg) with Ok _ => true | _ => false end.

Definition refuse (msg : nats_msg) (pm : PubMsg) : received :=
  Refused (mkAnswer (m_Reply msg) (pm_Guid pm) (Some ErrInvalidPubReq)).

(** With partitions the client is waited for: [waited] is the answer of
    [isValidWithTimeout] then. *)
Definition processClientPublish (clients : clientStore) (waited : option bool) (msg : nats_msg) (st : stats)
  : received * stats :=
  let '(pm, ok) := unmarshal (m_Data msg) in
  if negb ok then (if processCtrlMsg msg then Ignored else refuse msg pm, st)
  else
    let st := mkStats (i64 (inMsgs st + 1)) (i64 (inBytes st + Z.of_nat (length (m_Data msg)))) in
    if String.eqb (pm_Guid pm) "" || negb (ChannelName.IsChannelNameValid (pm_Subject pm) false)
    then (refuse msg pm, st)
    else
      let valid := match waited with
                   | Some answer => answer
                   | None => isValid clients (pm_ClientID pm) (pm_ConnID pm)
                   end in
      (if negb valid then refuse msg pm else Posted (mkPending msg pm None false None), st).
End Receive.

(** ** [ioLoop] *)

Section Loop.
Context {S D R E : Type} `{MsgStore S} `{!MsgLog S E} `{!Stores D S E} `{!RaftStore R E}.
Context `{!RangeOrder ptr} `{!RangeOrder string}.
Context (unicode : list ascii -> list ascii).
Context (e : @environment S D R E).
Context (batchSize sleepTime : Z).
(** What the sender of a synchronization request does while the loop waits for it. *)
Context (synchronized : nat -> @stan S D R E -> @stan S D R E).

Abbreviation M := (eff (@stan S D R E) (chan_error E)).

Definition answer (x : ioPendingMsg) (err : option (chan_error E)) : M unit :=
  modify (fun s => set_answers (answers s ++ [mkAnswer (m_Reply (m x)) (pm_Guid (pm x)) err]) s).

Definition logErrAndSendPublishErr (x : ioPendingMsg) (err : chan_error E) : M unit := answer x (Some err).
Definition ackPublisher (x : ioPendingMsg) : M unit := answer x None.

Definition pubMsgToMsgProto (p : ptr) (pm : PubMsg) (seq : Z) : M MsgProto :=
  t ← clock e;
  c ← chan_at p;
  let now := wall_now t in
  let ts := if (0 <? lTimestamp c) && (now <? lTimestamp c) then lTimestamp c else now in
  _ ← update_chan p (set_lTimestamp ts);
  mret (mkMsg seq (pm_Subject pm) (pm_Reply pm) (pm_Data pm) ts false 0 0).

(** Calls to the message store of a channel. *)
Definition on_msgs {A : Type} (p : ptr) (f : S -> outcome E A * S) : M A :=
  c ← chan_at p;
  let '(r, ms) := f (msgs c) in
  _ ← update_chan p (set_msgs ms);
  match r with Ok a => mret a | Err x => fail (StoreFailed x) | Panic => panic end.

(** *** Without clustering *)

Definition store_one (x : ioPendingMsg) (acc : list ioPendingMsg * gset ptr) : M (list ioPendingMsg * gset ptr) :=
  r ← catch (p ← lookupOrCreateChannel unicode e (pm_Subject (pm x));
             c ← chan_at p;
             msg ← pubMsgToMsgProto p (pm x) (nextSequence c);
             t ← clock e;
             _ ← on_msgs p (StoreMsg (wall_now t) msg);
             mret p);
  match r with
  | inr err => _ ← logErrAndSendPublishErr x err; mret acc
  | inl p =>
      _ ← update_chan p (fun c => set_nextSequence (u64 (nextSequence c + 1)) c);
      mret (acc.1 ++ [x], {[p]} ∪ acc.2)
  end.

Fixpoint store_all (iopms : list ioPendingMsg) (acc : list ioPendingMsg * gset ptr)
  : M (list ioPendingMsg * gset ptr) :=
  match iopms with
  | [] => mret acc
  | x :: iopms' => acc ← store_one x acc; store_all iopms' acc
  end.

(** *** In a cluster *)

(** The messages of [replicate], by channel, and the requests with their channels. *)
Fixpoint batch_msgs (iopms : list ioPendingMsg) (batches : gmap ptr (list MsgProto))
  : M (list ioPendingMsg * gmap ptr (list MsgProto)) :=
  match iopms with
  | [] => mret ([], batches)
  | x :: iopms' =>
      p ← lookupOrCreateChannel unicode e (pm_Subject (pm x));
      c ← chan_at p;
      msg ← pubMsgToMsgProto p (pm x) (nextSequence c);
      _ ← update_chan p (fun c => set_nextSequence (u64 (nextSequence c + 1)) c);
      r ← batch_msgs iopms' (<[p := default [] (batches !! p) ++ [msg]]> batches);
      mret (set_c p x :: r.1, r.2)
  end.

Fixpoint apply_batches (batches : list (ptr * list MsgProto)) (futures : gmap ptr (option E))
  : M (gmap ptr (option E)) :=
  match batches with
  | [] => mret futures
  | (p, batch) :: batches' =>
      c ← chan_at p;
      s ← get;
      let '(err, s') := raft_Apply e (PublishBatch (id c) batch) s in
      _ ← modify (fun _ => s');
      apply_batches batches' (<[p := err]> futures)
  end.

Definition replicate (iopms : list ioPendingMsg) : M (list ioPendingMsg * gmap ptr (option E)) :=
  r ← batch_msgs iopms ∅;
  futures ← apply_batches (range r.2) ∅;
  mret (r.1, futures).

(** The loop over the futures: a channel is reset when its messages are not replicated. *)
Fixpoint wait_futures (futures : list (ptr * option E)) (flush : gset ptr) : M (gset ptr) :=
  match futures with
  | [] => mret flush
  | (p, None) :: l => wait_futures l ({[p]} ∪ flush)
  | (p, Some _) :: l =>
      lerr ← ask (LastSequence_fails e);
      match lerr with
      | Some _ => panic
      | None =>
          _ ← update_chan p (fun c => set_nextSequence (u64 (LastSequence (msgs c) + 1)) c);
          wait_futures l flush
      end
  end.

Fixpoint sort_out (iopms : list ioPendingMsg) (futures : gmap ptr (option E)) (pending : list ioPendingMsg)
  : M (list ioPendingMsg) :=
  match iopms with
  | [] => mret pending
  | x :: l =>
      match c x ≫= (fun p => futures !! p) with
      | None => panic
      | Some (Some err) => _ ← logErrAndSendPublishErr x (StoreFailed err); sort_out l futures pending
      | Some None => sort_out l futures (pending ++ [x])
      end
  end.

Definition replicate_all (iopms : list ioPendingMsg) : M (list ioPendingMsg * gset ptr) :=
  r ← catch (replicate iopms);
  match r with
  | inr err => _ ← each (fun x => logErrAndSendPublishErr x err) iopms; mret ([], ∅)
  | inl (iopms, futures) =>
      flush ← wait_futures (range futures) ∅;
      pending ← sort_out iopms futures [];
      mret (pending, flush)
  end.

(** *** A batch *)

Definition storeIOPendingMsgs (iopms : list ioPendingMsg) : M (list ioPendingMsg * gset ptr) :=
  if isClustered (sub_env e) then replicate_all iopms else store_all iopms ([], ∅).

(** [processMsg]: the messages of a channel go to its subscribers. *)
Definition deliver (p : ptr) : M unit :=
  c ← chan_at p;
  s ← get;
  match Dlv.processMsg (sub_env e) (msgs c) (psubs (ss c)) (range (qsubs (ss c))).*2 (subscriptions s) with
  | Ok st => modify (set_subscriptions st)
  | _ => panic
  end.

Definition flush_one (p : ptr) : M unit :=
  r ← catch (on_msgs p FlushMsgs);
  match r with
  | inr _ => panic
  | inl _ =>
      _ ← deliver p;
      err ← ask (SubsFlush_fails e);
      match err with
      | Some _ => panic
      | None =>
          c ← chan_at p;
          update_activity p (set_last (mkTime (lTimestamp c) None))
      end
  end.

Definition process_batch (batch : list ioPendingMsg) : M unit :=
  r ← storeIOPendingMsgs batch;
  _ ← each flush_one (order r.2);
  each ackPublisher r.1.

(** *** Taking a batch from the channel *)

(** The inner loop: the messages that are there, up to a request to delete a channel. *)
Fixpoint take_msgs (l : list ioPendingMsg) (batch : list ioPendingMsg)
  : M (list ioPendingMsg * option ioPendingMsg * list ioPendingMsg) :=
  match l with
  | [] => mret (batch, None, [])
  | x :: l' =>
      if dc x then mret (batch, Some x, l')
      else match sc x with
           | Some n => _ ← modify (synchronized n); take_msgs l' batch
           | None => take_msgs l' (batch ++ [x])
           end
  end.

(** The loop that fills a batch.  [queue] is what comes out of the channel, now or later;
    [polls] are the lengths of the channel that the loop will see. *)
Record filled := mkFilled {
  f_batch : list ioPendingMsg;
  f_delete : option ioPendingMsg;
  f_queue : list ioPendingMsg;
  f_polls : list nat;
  f_max : Z
}.

Definition poll (polls : list nat) (queue : list ioPendingMsg) : Z * list nat :=
  match polls with
  | [] => (0, [])
  | n :: polls' => (Z.of_nat (min n (length queue)), polls')
  end.

(** An empty channel is looked at again after a pause, if there is one. *)
Definition poll_again (polls : list nat) (queue : list ioPendingMsg) : Z * list nat :=
  let '(n, polls) := poll polls queue in
  if (n =? 0) && (0 <? sleepTime) then poll polls queue else (n, polls).

(** Each round takes one message at least: [fuel] is what [remaining] is at first. *)
Fixpoint fill (fuel : nat) (remaining : Z) (queue : list ioPendingMsg) (polls : list nat)
  (batch : list ioPendingMsg) (max : Z) : M filled :=
  match fuel with
  | O => mret (mkFilled batch None queue polls max)
  | Datatypes.S fuel' =>
      if 0 <? remaining then
        let '(ioChanLen, polls) := poll_again polls queue in
        if ioChanLen =? 0 then mret (mkFilled batch None queue polls max)
        else
          let ioChanLen := if remaining <? ioChanLen then remaining else ioChanLen in
          let n := Z.to_nat ioChanLen in
          r ← take_msgs (take n queue) batch;
          let '(batch, dciopm, rest) := r in
          match dciopm with
          | Some x => mret (mkFilled batch (Some x) (rest ++ drop n queue) polls max)
          | None =>
              fill fuel' (remaining - ioChanLen) (drop n queue) polls batch
                (if max <? ioChanLen then ioChanLen else max)
          end
      else mret (mkFilled batch None queue polls max)
  end.

Definition channel_of (x : ioPendingMsg) : M ptr :=
  match c x with Some p => mret p | None => panic end.

(** One round of the loop, on the first message of the channel [x] and what follows. *)
Definition io_round (x : ioPendingMsg) (queue : list ioPendingMsg) (polls : list nat) (max : Z)
  : M (list ioPendingMsg * list nat * Z) :=
  if dc x then p ← channel_of x; _ ← handleChannelDelete unicode e p; mret (queue, polls, max)
  else match sc x with
  | Some n => _ ← modify (synchronized n); mret (queue, polls, max)
  | None =>
      r ← fill (Z.to_nat (batchSize - 1)) (batchSize - 1) queue polls [x] max;
      _ ← process_batch (f_batch r);
      _ ← match f_delete r with
          | Some y => p ← channel_of y; handleChannelDelete unicode e p
          | None => mret tt
          end;
      mret (f_queue r, f_polls r, f_max r)
  end.

(** Until the channel is empty: each round takes a message at least. *)
Fixpoint io_rounds (fuel : nat) (queue : list ioPendingMsg) (polls : list nat) (max : Z) : M Z :=
  match fuel, queue with
  | Datatypes.S fuel', x :: queue =>
      r ← io_round x queue polls max;
      let '(queue, polls, max) := r in
      io_rounds fuel' queue polls max
  | _, _ => mret max
  end.

Definition ioLoop (queue : list ioPendingMsg) (polls : list nat) : M Z := io_rounds (length queue) queue polls 0.
End Loop.
End Publish.
