(* ===== verification/DeliveryTotal.v ===== *)
(** * Delivery always returns

    [processMsg] returns on every state whose pointers are followed by something, whatever
    the clocks, the NATS connection and the subscription store do, and only moves members of
    queue groups around: subscriptions are neither added nor removed. *)

From Stdlib Require Import ZArith Lia Ascii String.
From stdpp Require Import base list gmap strings.
From S2P Require Import Prelude GoLib MemStore MsgStore SubState Delivery SubStore.

Local Open Scope Z_scope.

Module DlvTotal.
Import Sub Dlv Reg.

(** ** Heaps with the same objects *)

Record same_heap (st st' : server) : Prop := {
  sh_subs : dom (subs st') = dom (subs st);
  sh_queues : dom (queues st') = dom (queues st);
  sh_members q qs qs' : queues st !! q = Some qs -> queues st' !! q = Some qs' -> members qs' ≡ₚ members qs
}.

#[export] Instance same_heap_preorder : PreOrder same_heap.
Proof.
  split.
  - intros st. split; [done|done|]. intros q qs qs' Hq Hq'. by simplify_eq.
  - intros st1 st2 st3 [S1 Q1 M1] [S2 Q2 M2]. split; [congruence|congruence|]. intros q qs qs' Hq Hq'.
    assert (q ∈ dom (queues st2)) as [qs2 Hq2]%elem_of_dom by (rewrite Q1; by eapply elem_of_dom_2).
    rewrite (M2 _ _ _ Hq2 Hq'). by apply (M1 q).
Qed.

#[local] Hint Extern 0 (same_heap _ _) => reflexivity : core.

Lemma same_heap_queues st st' : queues st' = queues st -> dom (subs st') = dom (subs st) -> same_heap st st'.
Proof. intros Eq Es. split; [done|by rewrite Eq|]. intros q qs qs' Hq. rewrite Eq, Hq. by intros [= <-]. Qed.

Lemma same_heap_put_sub p x st : p ∈ dom (subs st) -> same_heap st (put_sub p x st).
Proof. intros Hp. apply same_heap_queues; [done|]. cbn. set_solver. Qed.

Lemma same_heap_put_queue q qs x st : queues st !! q = Some qs -> members x ≡ₚ members qs -> same_heap st (put_queue q x st).
Proof.
  intros Hq Hm. split; [done|cbn; apply elem_of_dom_2 in Hq; set_solver|]. cbn. intros q' a b Ha Hb.
  apply lookup_insert_Some in Hb as [[<- <-]|[_ Hb]]; simplify_eq; done.
Qed.

Lemma same_heap_sub st st' p : same_heap st st' -> p ∈ dom (subs st') <-> p ∈ dom (subs st).
Proof. intros [-> _ _]. done. Qed.


Lemma collectSentOrAck_heap p sent seq st : same_heap st (collectSentOrAck p sent seq st).
Proof.
  unfold collectSentOrAck. destruct (subs st !! p) as [sub|] eqn:Hp; [|done]. apply elem_of_dom_2 in Hp.
  destruct (stopped _); [done|]. set (st' := put_sub p _ st). assert (same_heap st st') as H by by apply same_heap_put_sub.
  destruct (_ =? 1)%nat; [|destruct (_ =? maxSentOrAckSequences)%nat]; [| |done]; (etrans; [exact H|by apply same_heap_queues]).
Qed.

Lemma record_sent_heap e p m force ap st : same_heap st (record_sent e p m force ap st).2.
Proof.
  unfold record_sent. destruct (subs st !! p) as [sub|] eqn:Hp; [|done]. apply elem_of_dom_2 in Hp.
  set (sub1 := match ackTimer sub with None => _ | Some _ => _ end). set (st1 := put_sub p sub1 st).
  assert (same_heap st st1) as H1 by by apply same_heap_put_sub. etrans; [exact H1|].
  destruct (acksPending sub1 !! Sequence m); [cbn; apply same_heap_put_sub; by apply (same_heap_sub st)|].
  set (st2 := if isClustered e then _ else _). assert (same_heap st1 st2) as H2.
  { unfold st2. destruct (isClustered e); [apply collectSentOrAck_heap|done]. }
  destruct (persist_fails e _); [done|]. cbn zeta. change (subs (persist _ st2)) with (subs st2).
  etrans; [exact H2|]. set (st3 := persist _ st2). assert (same_heap st2 st3) as H3 by by apply same_heap_queues.
  destruct (subs st2 !! p) as [sub2|] eqn:Hp2; [|done]. apply elem_of_dom_2 in Hp2. etrans; [exact H3|].
  destruct (negb force && _); by apply same_heap_put_sub.
Qed.

Lemma updateRedeliveryCount_heap p sub m st : subs st !! p = Some sub -> same_heap st (updateRedeliveryCount p sub m st).2.
Proof.
  intros Hp%elem_of_dom_2. unfold updateRedeliveryCount. destruct (qstate sub) as [q|]; [|by apply same_heap_put_sub].
  destruct (queues st !! q) as [qs|] eqn:Hq; [|done]. by eapply same_heap_put_queue.
Qed.

Lemma updateRedeliveryCount_seq p sub m st : Sequence (updateRedeliveryCount p sub m st).1 = Sequence m.
Proof. unfold updateRedeliveryCount. destruct (qstate sub) as [q|]; [|done]. by destruct (queues st !! q). Qed.

(** ** Sending returns *)

Section Total.
Context (e : env) (marshals : forall m, 0 < Sequence m -> marshal e m <> []).

Lemma sendMsgToSub_total p m force st :
  0 < Sequence m -> exists r st', sendMsgToSub e p m force st = Ok (r, st') /\ same_heap st st'.
Proof.
  intros Hseq. unfold sendMsgToSub. destruct (subs st !! p) as [sub|] eqn:Hp; [|by eexists _, _].
  destruct (_ || _ || _); [by eexists _, _|]. destruct (_ && _).
  { eexists _, _. split; [done|]. apply same_heap_put_sub. by eapply elem_of_dom_2. }
  set (x := if Redelivered m then _ else _). assert (same_heap st x.2) as Hx.
  { unfold x. destruct (Redelivered m); [by apply updateRedeliveryCount_heap|done]. }
  assert (Sequence x.1 = Sequence m) as Hxm by (unfold x; destruct (Redelivered m); [apply updateRedeliveryCount_seq|done]).
  destruct x as [m' st1]. cbn in Hxm. destruct (marshal e m') eqn:Hm; [destruct (marshals m'); [by rewrite Hxm|done]|].
  destruct (publish_fails e _); [by eexists _, _|].
  destruct (record_sent e p m' force _ _) as [r st2] eqn:Hr. exists r, st2. split; [done|].
  etrans; [exact Hx|]. etrans; [by apply (same_heap_queues st1 (publish (Inbox sub) m' st1))|].
  pose proof (record_sent_heap e p m' force (i32 (Z.of_nat (size (acksPending sub)))) (publish (Inbox sub) m' st1)) as H.
  by rewrite Hr in H.
Qed.

Section Store.
Context {S : Type} `{MsgStoreSpec S} (c : S) (w : option (Z * list MsgProto)) (Hv : view c w).

Lemma getNextMsg_total n l :
  0 <= n -> exists o n' l', getNextMsg c n l = Ok (o, n', l') /\ n <= n' /\ (forall m, o = Some m -> 0 < Sequence m /\ n' <= Window.wlast w).
Proof.
  intros Hn. pose proof (view_wf c w Hv) as Hwf. unfold getNextMsg, next_fuel. rewrite Nat.add_comm. cbn [Nat.add getNextMsg_loop].
  rewrite (view_FirstAndLast c w Hv), !(view_Lookup c w _ Hv). destruct w as [[f q]|]; cbn [Window.lookup wfirst].
  2:{ destruct (Z.leb_spec (Window.wlast None) n); [|cbn in *; lia]. eexists _, _, _. split; [done|]. split; [lia|done]. }
  destruct Hwf as (Hf & Hq & Hnum).
  assert (Window.wlast (Some (f, q)) = f + Z.of_nat (length q) - 1) as Hl by done.
  destruct (Z.leb_spec f n) as [Hfn|Hfn].
  - destruct (q !! Z.to_nat (n - f)) as [m|] eqn:Hm.
    { eexists _, _, _. split; [done|]. pose proof (lookup_lt_Some _ _ _ Hm). split; [lia|intros x [= <-]]. rewrite (Hnum _ _ Hm). lia. }
    apply lookup_ge_None in Hm. destruct (Z.leb_spec (Window.wlast (Some (f, q))) n); [|lia].
    eexists _, _, _. split; [done|]. split; [lia|done].
  - destruct (Z.leb_spec (Window.wlast (Some (f, q))) n).
    { eexists _, _, _. split; [done|]. split; [lia|done]. }
    destruct (Z.ltb_spec n f); [|lia]. rewrite Z.leb_refl, Z.sub_diag. destruct q as [|m q].
    + cbn [Z.to_nat lookup list_lookup]. destruct (Z.leb_spec (Window.wlast (Some (f, []))) f); [|cbn in *; lia].
      eexists _, _, _. split; [done|]. split; [lia|done].
    + eexists _, _, _. split; [done|]. split; [lia|]. intros x [= <-]. rewrite (Hnum 0%nat m eq_refl). cbn in *. lia.
Qed.

Lemma send_loop_total p fuel n st :
  p ∈ dom (subs st) -> 0 <= n -> (Z.to_nat (Window.wlast w + 1 - n) < fuel)%nat ->
  exists st', send_loop fuel e c p n st = Ok st' /\ same_heap st st'.
Proof.
  revert n st. induction fuel as [|fuel IH]; intros n st Hp Hn Hf; [lia|]. cbn [send_loop]. pose proof Hp as [sub Hs]%elem_of_dom.
  rewrite Hs. destruct (stalled sub); [by exists st|].
  destruct (getNextMsg_total n (LastSent sub) Hn) as (o & n' & l' & -> & Hle & Ho). cbn [mbind outcome_bind].
  assert (same_heap st (put_sub p (set_LastSent l' sub) st)) as H1 by by apply same_heap_put_sub.
  destruct o as [m|]; [|by eexists]. destruct (Ho m eq_refl) as [Hseq Hn'].
  destruct (sendMsgToSub_total p m false (put_sub p (set_LastSent l' sub) st) Hseq) as ([sent more] & st2 & -> & H2). cbn [lift mbind outcome_bind].
  assert (same_heap st st2) as H12 by by etrans. destruct (negb sent || negb more); [by exists st2|].
  assert (Window.wlast w < two64 - 1) as Hw by (pose proof (view_wf c w Hv); destruct w as [[f q]|]; cbn in *; [lia|done]).
  rewrite u64_small by (unfold is_u64; lia). destruct (IH (n' + 1) st2) as (st3 & -> & H3); [by apply (same_heap_sub st)|lia|lia|].
  exists st3. split; [done|by etrans].
Qed.

Lemma send_fuel_enough n : (Z.to_nat (Window.wlast w + 1 - n) < send_fuel c n)%nat.
Proof. unfold send_fuel, LastSequence. rewrite (view_FirstAndLast c w Hv). cbn. lia. Qed.

Lemma sendAvailableMessages_total p st :
  p ∈ dom (subs st) -> exists st', sendAvailableMessages e c p st = Ok st' /\ same_heap st st'.
Proof.
  intros Hp. unfold sendAvailableMessages. pose proof Hp as [sub ->]%elem_of_dom.
  apply send_loop_total; [done|apply u64_range|apply send_fuel_enough].
Qed.

(** The picked member is one of the list. *)
Lemma best_scan_elem st sl least r p : best_scan st sl least r = Some p -> r = Some p \/ p ∈ sl.
Proof.
  revert least r. induction sl as [|x sl IH]; intros least r Hb; [by left|]. cbn in Hb. destruct (subs st !! x).
  - destruct (_ && _ && _); apply IH in Hb as [Hb|Hb]; simplify_eq; try (right; by left); try (right; by right); by left.
  - apply IH in Hb as [Hb|Hb]; [by left|right; by right].
Qed.

Lemma findBestQueueSub_elems st sl :
  (findBestQueueSub st sl).2 ≡ₚ sl /\ forall p, (findBestQueueSub st sl).1 = Some p -> p ∈ sl.
Proof.
  unfold findBestQueueSub. split; cbn.
  - set (r := match best_scan st sl _ _ with Some p => _ | None => _ end). destruct sl as [|x [|y sl]]; [done|done|].
    destruct r as [p|]; [|done]. destruct (p =? x)%nat; [|done]. symmetry. apply Permutation_cons_append.
  - intros p. destruct (best_scan st sl (two63 - 1) None) as [x|] eqn:Hb.
    + intros [= <-]. by apply best_scan_elem in Hb as [?|?].
    + destruct sl; [done|]. intros [= <-]. by left.
Qed.

Lemma sendMsgToQueueGroup_total q qs m st :
  0 < Sequence m -> queues st !! q = Some qs -> (forall p, p ∈ members qs -> p ∈ dom (subs st)) ->
  exists r st', sendMsgToQueueGroup e q m false st = Ok (r, st') /\ same_heap st st'.
Proof.
  intros Hseq Hq Hm. unfold sendMsgToQueueGroup. rewrite Hq. destruct (findBestQueueSub_elems st (members qs)) as [Hperm Hel].
  destruct (findBestQueueSub st (members qs)) as [pick sl]. cbn in Hperm, Hel.
  assert (same_heap st (put_queue q (set_members sl qs) st)) as H1 by by eapply same_heap_put_queue.
  destruct pick as [p|]; [|by eexists _, _]. pose proof (Hm p (Hel p eq_refl)) as [sub Hs]%elem_of_dom. cbn [subs put_queue set_queues].
  rewrite Hs. destruct (sendMsgToSub_total p m false (put_queue q (set_members sl qs) st) Hseq) as ([d x] & st2 & -> & H2). cbn [mbind outcome_bind].
  assert (same_heap st st2) as H12 by by etrans.
  assert (p ∈ dom (subs st2)) as [sub' ->]%elem_of_dom by (rewrite (sh_subs _ _ H12); by eapply elem_of_dom_2).
  assert (q ∈ dom (queues st2)) as [qs' Hq']%elem_of_dom by (rewrite (sh_queues _ _ H12); by eapply elem_of_dom_2). rewrite Hq'.
  eexists _, _. split; [done|]. etrans; [exact H12|]. eapply same_heap_put_queue; [exact Hq'|].
  by destruct (negb false && _ && _); destruct (d && _).
Qed.

Lemma same_heap_members q qs st st' :
  same_heap st st' -> queues st !! q = Some qs -> (forall p, p ∈ members qs -> p ∈ dom (subs st)) ->
  exists qs', queues st' !! q = Some qs' /\ forall p, p ∈ members qs' -> p ∈ dom (subs st').
Proof.
  intros Hh Hq Hm. assert (q ∈ dom (queues st')) as [qs' Hq']%elem_of_dom by (rewrite (sh_queues _ _ Hh); by eapply elem_of_dom_2).
  exists qs'. split; [done|]. intros p Hp. rewrite (sh_members _ _ Hh _ _ _ Hq Hq') in Hp. rewrite (sh_subs _ _ Hh). by apply Hm.
Qed.

Lemma queue_loop_total q fuel n st qs :
  queues st !! q = Some qs -> (forall p, p ∈ members qs -> p ∈ dom (subs st)) -> 0 <= n ->
  (Z.to_nat (Window.wlast w + 1 - n) < fuel)%nat -> exists st', queue_loop fuel e c q n st = Ok st' /\ same_heap st st'.
Proof.
  revert n st qs. induction fuel as [|fuel IH]; intros n st qs Hq Hm Hn Hf; [lia|]. cbn [queue_loop]. rewrite Hq.
  destruct (_ <? _); [|by exists st]. destruct (getNextMsg_total n (lastSent qs) Hn) as (o & n' & l' & -> & Hle & Ho). cbn [mbind outcome_bind].
  set (st1 := put_queue q _ st). assert (same_heap st st1) as H1 by by eapply same_heap_put_queue.
  destruct o as [m|]; [|by eexists]. destruct (Ho m eq_refl) as [Hseq Hn'].
  destruct (sendMsgToQueueGroup_total q (set_lastSent l' qs) m st1 Hseq) as ([x sent] & st2 & -> & H2); [apply lookup_insert_eq|done|]. cbn [lift mbind outcome_bind].
  assert (same_heap st st2) as H12 by by etrans. destruct (negb sent); [by exists st2|].
  assert (Window.wlast w < two64 - 1) as Hw by (pose proof (view_wf c w Hv); destruct w as [[f t]|]; cbn in *; [lia|done]).
  rewrite u64_small by (unfold is_u64; lia). destruct (same_heap_members q qs st st2 H12 Hq Hm) as (qs2 & Hq2 & Hm2).
  destruct (IH (n' + 1) st2 qs2 Hq2 Hm2) as (st3 & -> & H3); [lia|lia|]. exists st3. split; [done|by etrans].
Qed.

Lemma sendAvailableMessagesToQueue_total q st :
  (forall qs p, queues st !! q = Some qs -> p ∈ members qs -> p ∈ dom (subs st)) ->
  exists st', sendAvailableMessagesToQueue e c q st = Ok st' /\ same_heap st st'.
Proof.
  intros Hm. unfold sendAvailableMessagesToQueue. destruct (queues st !! q) as [qs|] eqn:Hq; [|by exists st].
  destruct (members qs); [by exists st|]. destruct (q_newOnHold qs); [by exists st|].
  eapply queue_loop_total; [done| |apply u64_range|apply send_fuel_enough]. intros x Hx. by apply (Hm qs).
Qed.

(** The pointers of a registry lead to subscriptions. *)
Definition heap_ok (ss : subStore) (st : server) : Prop :=
  (forall p, p ∈ psubs ss -> p ∈ dom (subs st)) /\
  (forall k q qs p, qsubs ss !! k = Some q -> queues st !! q = Some qs -> p ∈ members qs -> p ∈ dom (subs st)).

Lemma for_each_total {A : Type} (f : A -> server -> outcome Mem.fuel_error server) l st :
  (forall x st', x ∈ l -> same_heap st st' -> exists st'', f x st' = Ok st'' /\ same_heap st' st'') ->
  exists st', for_each f l st = Ok st' /\ same_heap st st'.
Proof.
  revert st. induction l as [|x l IH]; intros st Hf; cbn; [by exists st|].
  destruct (Hf x st) as (st1 & -> & H1); [by left|done|]. cbn [mbind outcome_bind].
  destruct (IH st1) as (st2 & -> & H2); [|exists st2; split; [done|by etrans]].
  intros y st' Hy Hh. apply Hf; [by right|by etrans].
Qed.

Lemma processMsg_total ss st (qs : list ptr) :
  heap_ok ss st -> (forall q, q ∈ qs -> exists k, qsubs ss !! k = Some q) ->
  exists st', processMsg e c (psubs ss) qs st = Ok st' /\ same_heap st st'.
Proof.
  intros [Hp Hq] Hqs. unfold processMsg.
  destruct (for_each_total (sendAvailableMessages e c) (psubs ss) st) as (st1 & -> & H1).
  { intros p st' Hin Hh. apply sendAvailableMessages_total. rewrite (sh_subs _ _ Hh). by apply Hp. }
  cbn [mbind outcome_bind]. destruct (for_each_total (sendAvailableMessagesToQueue e c) qs st1) as (st2 & -> & H2).
  { intros q st' Hin Hh. apply sendAvailableMessagesToQueue_total. intros x p Hx Hpx. assert (same_heap st st') as Hh' by by etrans.
    destruct (Hqs q Hin) as [k Hk]. rewrite (sh_subs _ _ Hh').
    assert (q ∈ dom (queues st)) as [y Hy]%elem_of_dom by (rewrite <- (sh_queues _ _ Hh'); by eapply elem_of_dom_2).
    eapply Hq; [done|done|]. by rewrite <- (sh_members _ _ Hh' _ _ _ Hy Hx). }
  exists st2. split; [done|by etrans].
Qed.
End Store.
End Total.

(** ** Registries on the same objects *)

Lemma same_heap_ok ss st st' : same_heap st st' -> heap_ok ss st -> heap_ok ss st'.
Proof.
  intros Hh [Hp Hq]. split; [intros p; rewrite (sh_subs _ _ Hh); apply Hp|]. intros k q x p Hk Hx Hpx. rewrite (sh_subs _ _ Hh).
  assert (q ∈ dom (queues st)) as [y Hy]%elem_of_dom by (rewrite <- (sh_queues _ _ Hh); by eapply elem_of_dom_2).
  eapply Hq; [done|done|]. by rewrite <- (sh_members _ _ Hh _ _ _ Hy Hx).
Qed.
End DlvTotal.
