(* ===== verification/ChannelStoreSpec.v ===== *)
(** * The channels stay consistent

    The maps of the channels agree: a live channel is under its name and under its name in
    lower case, its next sequence is the one after the last of its message store, and the
    times of its messages do not decrease.  Looking up and creating channels, and the timers
    that delete them, keep this. *)

From Stdlib Require Import ZArith Lia Ascii String.
From stdpp Require Import base list gmap strings.
From S2P Require Import Prelude GoLib Effects MemStore MsgStore SubState SubStore DeliveryTotal ChannelStore.

Local Open Scope Z_scope.

Abbreviation win := (option (Z * list MsgProto)).

(** A created channel is empty, and its limits can be read. *)
Class StoresSpec (D S E : Type) `{MsgStoreSpec S} `{Stores D S E} := {
  CreateChannel_returns nm d : (CreateChannel nm d).1 <> Panic;
  DeleteChannel_returns nm d : (DeleteChannel nm d).1 <> Panic;
  CreateChannel_new nm d sc d' :
    CreateChannel nm d = (Ok sc, d') -> view sc None /\ exists z d'', GetChannelLimits nm d' = (Some z, d'')
}.

Module ChanSpec.
Import Sub Reg Chan DlvTotal.

Section Spec.
Context {S D R E : Type} `{MsgStoreSpec S} `{!MsgLog S E} `{!Stores D S E} `{!StoresSpec D S E} `{!RaftStore R E}.
Context (unicode : list ascii -> list ascii).
Context (e : @environment S D R E).

Abbreviation stan := (@stan S D R E).
Abbreviation channel := (@channel S).
Abbreviation lower := (ToLower unicode).

(** ** Running *)

Definition put (p : ptr) (c : channel) (s : stan) : stan := set_chans (<[p := c]> (chans s)) s.

Lemma put_put p c c' s : put p c' (put p c s) = put p c' s.
Proof. unfold put, set_chans. cbn. by rewrite insert_insert_eq. Qed.
Lemma put_at p c s : chans (put p c s) !! p = Some c.
Proof. apply lookup_insert_eq. Qed.
Lemma put_asked p c n s : set_asked n (put p c s) = put p c (set_asked n s).
Proof. done. Qed.

Lemma set_asked_self (s : stan) : set_asked (asked s) s = s.
Proof. by destruct s. Qed.

Lemma run_at p c (s : stan) : chans s !! p = Some c -> chan_at p s = (Ok c, s).
Proof. unfold chan_at. by intros ->. Qed.
Lemma run_update p f c (s : stan) : chans s !! p = Some c -> update_chan p f s = (Ok tt, put p (f c) s).
Proof. intros Hc. unfold update_chan. by rewrite (eff_bind_Ok _ _ _ _ _ (run_at _ _ _ Hc)). Qed.
Lemma run_activity p c a (s : stan) : chans s !! p = Some c -> activity c = Some a -> activity_at p s = (Ok a, s).
Proof. intros Hc Ha. unfold activity_at. rewrite (eff_bind_Ok _ _ _ _ _ (run_at _ _ _ Hc)). by rewrite Ha. Qed.
Lemma run_update_activity p f c a (s : stan) :
  chans s !! p = Some c -> activity c = Some a ->
  update_activity p f s = (Ok tt, put p (set_activity (Some (f a)) c) s).
Proof. intros Hc Ha. unfold update_activity. rewrite (run_update _ _ _ _ Hc). by rewrite Ha. Qed.
Lemma run_ask {A : Type} (f : nat -> A) (s : stan) : ask f s = (Ok (f (asked s)), set_asked (asked s + 1) s).
Proof. done. Qed.
Lemma run_clock s : clock e s = (Ok (clocks e (asked s)), set_asked (asked s + 1) s).
Proof. done. Qed.

(** *** The timer *)

Definition armed (s : stan) (d : Z) : option timer := Some (Armed (monotonic_now (clocks e (asked s)) + d)).

Lemma run_reset p d c a s :
  chans s !! p = Some c -> activity c = Some a ->
  resetDeleteTimer e p d s =
    (Ok tt, put p (set_activity (Some (set_timer (armed s d) true a)) c) (set_asked (asked s + 1) s)).
Proof.
  intros Hc Ha. unfold resetDeleteTimer. rewrite (eff_bind_Ok _ _ _ _ _ (run_activity _ _ _ _ Hc Ha)).
  rewrite (eff_bind_Ok _ _ _ _ _ (run_clock s)). by apply run_update_activity.
Qed.

Definition started (s : stan) (a : channelActivity) : channelActivity :=
  set_timer (armed (set_asked (asked s + 1) s) (maxInactivity a)) true (set_last (time_of (clocks e (asked s))) a).

Lemma run_start p c a s :
  chans s !! p = Some c -> activity c = Some a ->
  startDeleteTimer e p s = (Ok tt, put p (set_activity (Some (started s a)) c) (set_asked (asked s + 1 + 1) s)).
Proof.
  intros Hc Ha. unfold startDeleteTimer. rewrite (eff_bind_Ok _ _ _ _ _ (run_activity _ _ _ _ Hc Ha)).
  rewrite (eff_bind_Ok _ _ _ _ _ (run_clock s)).
  rewrite (eff_bind_Ok _ _ _ _ _ (run_update_activity p _ c a (set_asked (asked s + 1) s) Hc Ha)).
  set (c1 := set_activity _ c). set (s1 := put p c1 _).
  rewrite (eff_bind_Ok _ _ _ _ _ (run_activity p c1 _ s1 (put_at _ _ _) eq_refl)).
  rewrite (run_reset p _ c1 _ s1 (put_at _ _ _) eq_refl). unfold s1. by rewrite put_asked, put_put.
Qed.

Definition stopped (a : channelActivity) : channelActivity :=
  match delete_timer a with Some _ => set_timer (Some Idle) false a | None => a end.

Lemma set_activity_self (c : channel) : set_activity (activity c) c = c.
Proof. by destruct c. Qed.
Lemma put_self p c s : chans s !! p = Some c -> put p c s = s.
Proof. intros Hc. unfold put. rewrite insert_id by done. by destruct s. Qed.

Lemma run_stop p c a (s : stan) :
  chans s !! p = Some c -> activity c = Some a ->
  stopDeleteTimer p s = (Ok tt, put p (set_activity (Some (stopped a)) c) s).
Proof.
  intros Hc Ha. unfold stopDeleteTimer, stopped. rewrite (eff_bind_Ok _ _ _ _ _ (run_activity _ _ _ _ Hc Ha)).
  destruct (delete_timer a); [by apply run_update_activity|]. rewrite <- Ha, set_activity_self, put_self by done. done.
Qed.

(** ** Consistent channels *)

Record chan_ok (c : channel) (w : win) (st : server) : Prop := {
  co_view : view (msgs c) w;
  co_next : nextSequence c = Window.wlast w + 1;
  co_time f q : w = Some (f, q) -> MemSpec.time_sorted q /\ Forall (fun m => Timestamp m <= lTimestamp c) q;
  co_start : 0 <= lTimestamp c < two63;
  co_heap : heap_ok (ss c) st
}.

(** The live channels, under their names, show the windows [a]; the others are marked as
    deleted. *)
Record state_ok (a : gmap string win) (s : stan) : Prop := {
  so_channel nm p : channels s !! nm = Some p ->
    exists c w, chans s !! p = Some c /\ name c = nm /\ a !! nm = Some w /\ chan_ok c w (subscriptions s) /\
      channelsLC s !! lower nm = Some p;
  so_lower l p : channelsLC s !! l = Some p -> exists nm, channels s !! nm = Some p /\ l = lower nm;
  so_windows nm : is_Some (a !! nm) -> is_Some (channels s !! nm);
  so_stale p c : chans s !! p = Some c -> channels s !! name c = Some p \/ deleting c = true
}.

Lemma state_ok_none a s nm : state_ok a s -> channels s !! nm = None -> a !! nm = None.
Proof. intros G Hn. destruct (a !! nm) eqn:Ha; [|done]. destruct (so_windows _ _ G nm) as [p Hp]; [by eexists|]. congruence. Qed.

Lemma state_ok_inj a s nm nm' p : state_ok a s -> channels s !! nm = Some p -> channels s !! nm' = Some p -> nm = nm'.
Proof.
  intros G (c & w & Hc & Hn & _)%(so_channel _ _ G) (c' & w' & Hc' & Hn' & _)%(so_channel _ _ G). congruence.
Qed.

(** What the channels are about is untouched. *)
Lemma state_ok_frame a s s' :
  chans s' = chans s -> channels s' = channels s -> channelsLC s' = channelsLC s -> subscriptions s' = subscriptions s ->
  state_ok a s -> state_ok a s'.
Proof. intros E1 E2 E3 E4 []. split; by rewrite ?E1, ?E2, ?E3, ?E4. Qed.

Lemma state_ok_put a s nm p c w :
  state_ok a s -> channels s !! nm = Some p -> name c = nm -> chan_ok c w (subscriptions s) ->
  state_ok (<[nm := w]> a) (put p c s).
Proof.
  intros G Hp Hn Hc. split; cbn.
  4:{ intros p' c' [[<- <-]|[_ Hc']]%lookup_insert_Some; [left; by rewrite Hn|by apply (so_stale _ _ G)]. }
  - intros nm' p' Hp'. destruct (so_channel _ _ G nm' p' Hp') as (c' & w' & Hc' & Hn' & Ha' & Hok' & Hl').
    destruct (decide (nm' = nm)) as [->|Hne].
    + assert (p' = p) as -> by congruence. exists c, w. rewrite !lookup_insert_eq. by split_and!.
    + assert (p' <> p) as Hpp by (intros ->; by eapply Hne, state_ok_inj). exists c', w'. rewrite !lookup_insert_ne by done. by split_and!.
  - apply (so_lower _ _ G).
  - intros nm' [->|[_ Hs]]%lookup_insert_is_Some; [by eexists|]. by apply (so_windows _ _ G).
Qed.

(** The parts of a channel that [chan_ok] does not depend on. *)
Lemma chan_ok_activity v c w st : chan_ok c w st -> chan_ok (set_activity v c) w st.
Proof. intros []. by split. Qed.
Lemma chan_ok_id v c w st : chan_ok c w st -> chan_ok (set_id v c) w st.
Proof. intros []. by split. Qed.

Lemma state_ok_same a s nm p c c' w :
  state_ok a s -> channels s !! nm = Some p -> chans s !! p = Some c -> a !! nm = Some w ->
  name c' = name c -> (chan_ok c w (subscriptions s) -> chan_ok c' w (subscriptions s)) -> state_ok a (put p c' s).
Proof.
  intros G Hp Hc Ha Hn Hok. destruct (so_channel _ _ G nm p Hp) as (c0 & w0 & Hc0 & Hn0 & Ha0 & Hok0 & _). simplify_eq.
  rewrite <- (insert_id a (name c) w) by done. by eapply state_ok_put; [done|done|done|apply Hok].
Qed.

(** ** Looking up and creating *)

(** [checkCase] refuses a name that only differs in case from that of a live channel. *)
Lemma checkCase_spec a s nm :
  state_ok a s ->
  match channelsLC s !! lower nm with
  | None => checkCase unicode nm s = (Ok tt, s)
  | Some p => exists nm', channels s !! nm' = Some p /\ lower nm' = lower nm /\
      checkCase unicode nm s = (Err (ErrDifferentCase nm nm'), s)
  end.
Proof.
  intros G. unfold checkCase. rewrite eff_get. destruct (channelsLC s !! lower nm) as [p|] eqn:Hl; [|done].
  destruct (so_lower _ _ G _ _ Hl) as (nm' & Hp & Heq). destruct (so_channel _ _ G _ _ Hp) as (c & w & Hc & Hn & _).
  exists nm'. split_and!; [done|done|]. rewrite (eff_bind_Ok _ _ _ _ _ (run_at _ _ _ Hc)). by rewrite Hn.
Qed.

(** A new channel, not yet in the store of channels. *)
Lemma state_ok_new a s nm p c :
  state_ok a s -> channels s !! nm = None -> channelsLC s !! lower nm = None -> chans s !! p = None ->
  name c = nm -> chan_ok c None (subscriptions s) ->
  state_ok (<[nm := None]> a) (set_names (<[nm := p]> (channels s)) (<[lower nm := p]> (channelsLC s)) (put p c s)).
Proof.
  intros G Hnm Hl Hp Hn Hc. split; cbn.
  4:{ intros p' c' [[<- <-]|[Hne Hc']]%lookup_insert_Some; [left; by rewrite Hn, lookup_insert_eq|].
      destruct (so_stale _ _ G p' c' Hc') as [?|?]; [left|by right]. rewrite lookup_insert_ne; [done|congruence]. }
  - intros nm' p' [[<- <-]|[Hne Hp']]%lookup_insert_Some.
    + exists c, None. rewrite !lookup_insert_eq. by split_and!.
    + destruct (so_channel _ _ G nm' p' Hp') as (c' & w' & Hc' & Hn' & Ha' & Hok' & Hl'). exists c', w'.
      rewrite !lookup_insert_ne by congruence. by split_and!.
  - intros l p' [[<- <-]|[Hne Hp']]%lookup_insert_Some.
    + exists nm. by rewrite lookup_insert_eq.
    + destruct (so_lower _ _ G l p' Hp') as (nm' & Hp1 & ->). exists nm'. rewrite lookup_insert_ne by congruence. done.
  - intros nm' [->|[_ Hs]]%lookup_insert_is_Some; [by rewrite lookup_insert_eq|].
    destruct (so_windows _ _ G nm' Hs) as [p' Hp']. rewrite lookup_insert_ne by congruence. by eexists.
Qed.

Lemma heap_ok_empty st : heap_ok createSubStore st.
Proof. split; [by intros p ?%not_elem_of_nil|]. intros k q qs p Hk. cbn in Hk. by rewrite lookup_empty in Hk. Qed.

(** Creating leaves the rest of the server alone. *)
Record apart (s s' : stan) : Prop := {
  ap_subs : subscriptions s' = subscriptions s;
  ap_answers : answers s' = answers s;
  ap_names : channels s ⊆ channels s';
  ap_objects : chans s ⊆ chans s';
  ap_raft : raft s' = raft s
}.
#[export] Instance apart_preorder : PreOrder apart.
Proof. split; [by split|]. intros x y z [] []. split; [congruence|congruence|by etrans|by etrans|congruence]. Qed.

Lemma objects_kept (s s' : stan) : (forall p, p ∈ dom (chans s) -> chans s' !! p = chans s !! p) -> chans s ⊆ chans s'.
Proof. intros Ho. apply map_subseteq_spec. intros p c Hp. rewrite Ho; [done|by eapply elem_of_dom_2]. Qed.

(** A channel that is being deleted. *)
Definition marked (s : stan) (nm : string) : Prop := exists p c, channels s !! nm = Some p /\ chans s !! p = Some c /\ deleting c = true.

Lemma marked_apart a a' s s' nm :
  state_ok a s -> state_ok a' s' -> apart s s' ->
  a' = a \/ a' = <[nm := default None (a !! nm)]> a /\ (exists p c, channels s' !! nm = Some p /\ chans s' !! p = Some c /\ deleting c = false) ->
  forall nm', marked s' nm' -> marked s nm'.
Proof.
  intros G G' Ap Ha nm' (p & c & Hp & Hc & Hd). assert (is_Some (a !! nm')) as [p' Hp']%(so_windows _ _ G).
  { destruct (so_channel _ _ G' _ _ Hp) as (_ & w & _ & _ & Hw & _). destruct Ha as [->|[-> (p1 & c1 & Hp1 & Hc1 & Hd1)]]; [by eexists|].
    apply lookup_insert_Some in Hw as [[<- _]|[_ Hw]]; [|by eexists]. simplify_eq. congruence. }
  destruct (so_channel _ _ G _ _ Hp') as (c' & _ & Hc' & _). pose proof (lookup_weaken _ _ _ _ Hp' (ap_names _ _ Ap)). simplify_eq.
  pose proof (lookup_weaken _ _ _ _ Hc' (ap_objects _ _ Ap)). simplify_eq. by eexists _, _.
Qed.

Lemma marked_put s p c c' nm n : chans s !! p = Some c -> (deleting c' = true -> deleting c = true) -> marked (put p c' (set_asked n s)) nm -> marked s nm.
Proof.
  intros Hc Hd (p' & x & Hp & Hx & Hm). cbn in Hp, Hx. apply lookup_insert_Some in Hx as [[<- <-]|[_ Hx]]; [exists p, c; auto|by exists p', x].
Qed.

(** The outcome of [create]: an error, or a new channel under its name. *)
Lemma create_spec a s nm sc :
  state_ok a s -> channels s !! nm = None -> channelsLC s !! lower nm = None -> view sc None ->
  (exists z d, GetChannelLimits nm (store s) = (Some z, d)) ->
  (exists x n s', create unicode e nm sc s = (Err (StoreFailed x), s') /\ LastSequence_fails e n = Some x /\ state_ok a s' /\ apart s s') \/
  (exists p s' c, create unicode e nm sc s = (Ok p, s') /\ state_ok (<[nm := None]> a) s' /\ apart s s' /\
     channels s' !! nm = Some p /\ chans s' !! p = Some c /\ deleting c = false /\ p ∉ dom (chans s) /\
     (forall p', p' ∈ dom (chans s) -> chans s' !! p' = chans s !! p')).
Proof.
  intros G Hnm Hl Hv (z & d & Hz). unfold create. set (s0 := set_asked (asked s + 1) s).
  assert (state_ok a s0) as G0 by by apply (state_ok_frame a s).
  rewrite (eff_bind_Ok _ _ _ _ _ (run_ask (LastSequence_fails e) s)). fold s0. destruct (LastSequence_fails e (asked s)) as [x|] eqn:Hx.
  { left. exists x, (asked s), s0. by split_and!. }
  right. rewrite eff_get. set (p := fresh (dom (chans s0))). set (c := mkChannel _ _ _ _ _ _ _ _ _ _). rewrite eff_modify.
  change (set_chans (<[p := c]> (chans s0)) s0) with (put p c s0). rewrite eff_modify. set (s1 := set_names _ _ (put p c s0)).
  assert (chans s0 !! p = None) as Hp by apply not_elem_of_dom, is_fresh.
  assert (chan_ok c None (subscriptions s)) as Hc.
  { split; [done| |done|done|apply heap_ok_empty]. cbn. unfold LastSequence. rewrite (view_FirstAndLast sc None Hv). done. }
  assert (state_ok (<[nm := None]> a) s1) as G1 by exact (state_ok_new a s0 nm p c G0 Hnm Hl Hp eq_refl Hc).
  assert (on_store (fun d => let '(cl, d) := GetChannelLimits nm d in (Prelude.Ok cl, d)) s1 = (Prelude.Ok (Some z), set_store d s1)) as Es.
  { unfold on_store. cbn. by rewrite Hz. }
  rewrite (eff_bind_Ok _ _ _ _ _ Es). assert (chans (set_store d s1) !! p = Some c) as Hpc by apply lookup_insert_eq.
  assert (forall p', p' ∈ dom (chans s) -> p <> p') as Hne by (intros p' Hp' <-; by apply not_elem_of_dom in Hp).
  assert (channels s1 !! nm = Some p) as Hn1 by apply lookup_insert_eq.
  assert (channels s ⊆ <[nm := p]> (channels s)) as Hsub by by apply insert_subseteq.
  unfold when. destruct (0 <? z).
  - rewrite (eff_bind_Ok _ _ _ _ _ (run_update _ _ _ _ Hpc)). eexists p, _, _. split; [done|].
    assert (forall p' x, p' ∈ dom (chans s) -> (<[p := x]> (<[p := c]> (chans s)) : gmap ptr channel) !! p' = chans s !! p') as Ho
      by (intros; by rewrite !lookup_insert_ne by auto).
    split_and!; [|split; [done|done|done|apply objects_kept; intros; by apply Ho|done]|done|apply put_at|done|by apply not_elem_of_dom|intros; by apply Ho].
    eapply state_ok_same; [|exact Hn1|exact Hpc|apply lookup_insert_eq|done|apply chan_ok_activity]. by apply (state_ok_frame _ s1).
  - assert (forall p', p' ∈ dom (chans s) -> (<[p := c]> (chans s) : gmap ptr channel) !! p' = chans s !! p') as Ho
      by (intros; by rewrite lookup_insert_ne by auto).
    eexists p, _, c. split; [done|]. split_and!; [by apply (state_ok_frame _ s1)|split; [done|done|done|by apply objects_kept|done]|done|done|done|by apply not_elem_of_dom|done].
Qed.

Context (standalone : isClustered (sub_env e) = false).

(** The store did not create the channel, or did not say what its last sequence is. *)
Definition not_created (nm : string) (x : E) : Prop :=
  (exists d, (CreateChannel nm d).1 = Err x) \/ exists n, LastSequence_fails e n = Some x.

(** The reasons to refuse a channel of that name, when those of [busy] are being deleted. *)
Definition reason (busy : string -> Prop) (a : gmap string win) (nm : string) (err : chan_error E) : Prop :=
  match err with
  | ErrChanDelInProgress => is_Some (a !! nm) /\ busy nm
  | ErrDifferentCase n other => n = nm /\ a !! nm = None /\ is_Some (a !! other) /\ lower other = lower nm
  | StoreFailed x => a !! nm = None /\ not_created nm x
  | ErrInvalidPubReq => False
  end.

Lemma createChannelLocked_new a s nm :
  state_ok a s -> channels s !! nm = None -> channelsLC s !! lower nm = None ->
  exists r s', createChannelLocked unicode e nm 0 s = (r, s') /\ apart s s' /\
    match r with
    | Prelude.Ok p => exists c, state_ok (<[nm := None]> a) s' /\ channels s' !! nm = Some p /\
        chans s' !! p = Some c /\ deleting c = false /\ (forall p', p' ∈ dom (chans s) -> chans s' !! p' = chans s !! p')
    | Err x => (exists y, x = StoreFailed y /\ not_created nm y) /\ state_ok a s'
    | Panic => False
    end.
Proof.
  intros G Hnm Hl. unfold createChannelLocked. rewrite eff_get, Hnm.
  pose proof (checkCase_spec a s nm G) as Hcc. rewrite Hl in Hcc. rewrite (eff_bind_Ok _ _ _ _ _ Hcc).
  unfold assign_id. rewrite standalone. rewrite (eff_bind_Ok (mret 0) _ s 0 s eq_refl).
  pose proof (CreateChannel_returns nm (store s)) as Hr. pose proof (CreateChannel_new nm (store s)) as Hn.
  destruct (CreateChannel nm (store s)) as [rc d'] eqn:Ec. set (s1 := set_store d' s).
  assert (state_ok a s1) as G1 by by apply (state_ok_frame _ s). assert (apart s s1) as Ap1 by by split.
  destruct rc as [sc|x|]; [| |done].
  2:{ rewrite (eff_bind_Err _ _ s (StoreFailed x) s1) by (unfold on_store; by rewrite Ec). eexists _, _. split; [done|]. split; [done|]. split; [|done]. exists x. split; [done|]. left. exists (store s). by rewrite Ec. }
  rewrite (eff_bind_Ok _ _ s sc s1) by (unfold on_store; by rewrite Ec). destruct (Hn sc d' eq_refl) as [Hv Hz].
  destruct (create_spec a s1 nm sc G1 Hnm Hl Hv Hz) as [(x & n & s2 & E2 & Hx & G2 & Ap)|(p & s2 & c & E2 & G2 & Ap & Hp & Hc & Hd & Hfr & Hother)];
    rewrite (eff_catch _ _ _ _ _ E2); cbv beta iota.
  { eexists _, _. split; [done|]. split; [by etrans|]. split; [|done]. exists x. split; [done|]. right. by exists n. }
  assert (forall p', p' ∈ dom (chans s) -> p <> p') as Hne by (intros p' Hp' <-; done).
  assert (forall c' n, name c' = name c -> deleting c' = false -> (forall w st, chan_ok c w st -> chan_ok c' w st) ->
    apart s (put p c' (set_asked n s2)) /\ exists c0, state_ok (<[nm := None]> a) (put p c' (set_asked n s2)) /\ channels s2 !! nm = Some p /\ chans (put p c' (set_asked n s2)) !! p = Some c0 /\
      deleting c0 = false /\ forall p', p' ∈ dom (chans s) -> chans (put p c' (set_asked n s2)) !! p' = chans s !! p') as Hfin.
  { intros c' n Hc' Hd' Hok'.
    assert (forall p', p' ∈ dom (chans s) -> chans (put p c' (set_asked n s2)) !! p' = chans s !! p') as Ho.
    { intros p' Hp'. cbn. rewrite lookup_insert_ne by auto. by apply Hother. }
    split; [destruct Ap; by split; try done; apply objects_kept|]. exists c'. split_and!; [|done|apply put_at|done|done].
    eapply (state_ok_same _ _ _ _ c); [by apply (state_ok_frame _ s2)|done|done|apply lookup_insert_eq|done|apply Hok']. }
  rewrite (eff_bind_Ok _ _ _ _ _ (run_update _ _ _ _ Hc)), (eff_bind_Ok _ _ _ _ _ (run_at p (set_id 0 c) _ (put_at _ _ _))). unfold when.
  assert (forall w st, chan_ok c w st -> chan_ok (set_id 0 c) w st) as Hid by (intros; by apply chan_ok_id).
  destruct (_ && _) eqn:Hb.
  - apply andb_prop in Hb as [_ [act Ha]%bool_decide_eq_true_1].
    rewrite (eff_bind_Ok _ _ _ _ _ (run_start p (set_id 0 c) act _ (put_at _ _ _) Ha)). eexists _, _. split; [done|]. rewrite put_asked, put_put.
    apply Hfin; [done| |intros w st Hw; apply chan_ok_activity; by apply Hid]. unfold deleting in *. cbn in Hd, Ha. rewrite Ha in Hd. done.
  - eexists _, _. split; [done|]. assert (put p (set_id 0 c) s2 = put p (set_id 0 c) (set_asked (asked s2) s2)) as -> by by destruct s2. by apply Hfin.
Qed.

(** [lookupOrCreateChannel] returns the live channel of that name, a new one, or an error
    with its reason. *)
Lemma lookupOrCreateChannel_spec a s nm :
  state_ok a s ->
  exists r s' a', lookupOrCreateChannel unicode e nm s = (r, s') /\ apart s s' /\ state_ok a' s' /\
    match r with
    | Ok p => channels s' !! nm = Some p /\ a' !! nm = Some (default None (a !! nm)) /\
        (exists c, chans s' !! p = Some c /\ deleting c = false) /\
        a' = <[nm := default None (a !! nm)]> a
    | Err err => reason (marked s) a nm err /\ a' = a
    | Panic => False
    end.
Proof.
  intros G. unfold lookupOrCreateChannel. rewrite eff_get. destruct (channels s !! nm) as [p|] eqn:Hp.
  - destruct (so_channel _ _ G nm p Hp) as (c & w & Hc & Hn & Ha & Hok & Hl). rewrite (eff_bind_Ok _ _ _ _ _ (run_at _ _ _ Hc)).
    destruct (deleting c) eqn:Hd; eexists _, _, a; (split; [done|]); (split; [done|]); (split; [done|]); [by split; [split; [by eexists|by exists p, c]|]|].
    rewrite Ha. cbn. rewrite insert_id by done. split_and!; eauto.
  - pose proof (checkCase_spec a s nm G) as Hcc. pose proof (state_ok_none a s nm G Hp) as Ha.
    destruct (channelsLC s !! lower nm) as [p|] eqn:Hl.
    + destruct Hcc as (nm' & Hp' & Hlow & Hcc). rewrite (eff_bind_Err _ _ _ _ _ Hcc). eexists _, _, a. split; [done|]. split; [done|]. split; [done|].
      split; [|done]. destruct (so_channel _ _ G nm' p Hp') as (c & w & _ & _ & Ha' & _). cbn. by split_and!; [|done|eexists|].
    + rewrite (eff_bind_Ok _ _ _ _ _ Hcc). destruct (createChannelLocked_new a s nm G Hp Hl) as (r & s' & Er & Ap & Hr). exists r, s'.
      destruct r as [p|x|]; [| |done].
      * destruct Hr as (c & G' & Hp' & Hc' & Hd & _). exists (<[nm := None]> a). rewrite Ha. cbn. rewrite lookup_insert_eq. split_and!; eauto.
      * destruct Hr as ((y & -> & Hy) & G'). exists a. by split_and!.
Qed.

(** ** Deleting *)

Lemma state_ok_delete a s nm p c :
  state_ok a s -> channels s !! nm = Some p -> chans s !! p = Some c -> deleting c = true ->
  state_ok (delete nm a) (set_names (delete nm (channels s)) (delete (lower nm) (channelsLC s)) s).
Proof.
  intros G Hp Hc Hd. destruct (so_channel _ _ G nm p Hp) as (c0 & w0 & Hc0 & Hn0 & _ & _ & Hl0). simplify_eq.
  assert (forall nm' p', channels s !! nm' = Some p' -> nm' <> name c -> lower nm' <> lower (name c)) as Hlow.
  { intros nm' p' Hp' Hne Heq. destruct (so_channel _ _ G nm' p' Hp') as (_ & _ & _ & _ & _ & _ & Hl'). rewrite Heq in Hl'. simplify_eq.
    by eapply Hne, (state_ok_inj a s). }
  split; cbn.
  - intros nm' p' [Hne Hp']%lookup_delete_Some. destruct (so_channel _ _ G nm' p' Hp') as (c' & w' & Hc' & Hn' & Ha' & Hok' & Hl').
    exists c', w'. rewrite !lookup_delete_ne by (try done; intros Heq; by eapply (Hlow nm' p')). by split_and!.
  - intros l p' [Hne Hp']%lookup_delete_Some. destruct (so_lower _ _ G l p' Hp') as (nm' & Hp1 & ->). exists nm'.
    rewrite lookup_delete_ne by congruence. done.
  - intros nm' [w Hw]. apply lookup_delete_Some in Hw as [Hne Hw]. destruct (so_windows _ _ G nm') as [p' Hp']; [by eexists|].
    rewrite lookup_delete_ne by done. by eexists.
  - intros p' c' Hc'. destruct (decide (name c' = name c)) as [Heq|Hne]; [right|].
    + destruct (so_stale _ _ G p' c' Hc') as [Hlive|?]; [|done]. rewrite Heq in Hlive. by simplify_eq.
    + destruct (so_stale _ _ G p' c' Hc') as [?|?]; [left|by right]. by rewrite lookup_delete_ne by done.
Qed.

(** A channel object that requests to delete may point to. *)
Definition deletable (s : stan) (p : ptr) : Prop := exists c, chans s !! p = Some c /\ is_Some (activity c).

Lemma deletable_put s p c0 c p' :
  chans s !! p = Some c0 -> (is_Some (activity c0) -> is_Some (activity c)) -> deletable s p' -> deletable (put p c s) p'.
Proof.
  intros Hc0 Hc (c' & Hc' & Ha). unfold deletable. cbn. destruct (decide (p' = p)) as [->|Hne].
  - exists c. rewrite lookup_insert_eq. simplify_eq. auto.
  - exists c'. by rewrite lookup_insert_ne.
Qed.

Lemma deletable_mono s s' p : chans s ⊆ chans s' -> deletable s p -> deletable s' p.
Proof. intros Hs (c & Hc & Ha). exists c. split; [by eapply lookup_weaken|done]. Qed.

(** [processDeleteChannel] of a channel that has been marked: it is gone, or the store failed
    and it is a live channel again. *)
Lemma processDeleteChannel_spec a s nm p c act :
  state_ok a s -> channels s !! nm = Some p -> chans s !! p = Some c -> activity c = Some act ->
  deleteInProgress act = true -> preventDelete act = false ->
  exists s' a', processDeleteChannel unicode e nm s = (Ok tt, s') /\ state_ok a' s' /\ answers s' = answers s /\
    (a' = a \/ a' = delete nm a) /\ subscriptions s' = subscriptions s /\ (forall p', deletable s p' -> deletable s' p') /\
    (forall nm', marked s' nm' -> nm' <> nm /\ marked s nm').
Proof.
  intros G Hp Hc Ha Hd Hpr. destruct (so_channel _ _ G nm p Hp) as (c0 & w & Hc0 & Hn & Hw & Hok & Hl). assert (c0 = c) as -> by congruence.
  unfold processDeleteChannel. rewrite eff_get, Hp, (eff_bind_Ok _ _ _ _ _ (run_at _ _ _ Hc)), Ha, Hpr, standalone. unfold when.
  pose proof (DeleteChannel_returns nm (store s)) as Hret. destruct (DeleteChannel nm (store s)) as [r d] eqn:Ed. set (s1 := set_store d s).
  assert (on_store (DeleteChannel nm) s = (match r with Ok a => Ok a | Err x => Err (StoreFailed x) | Panic => Panic end, s1)) as Es.
  { unfold on_store. by rewrite Ed. }
  assert (state_ok a s1) as G1 by by apply (state_ok_frame _ s).
  destruct r as [u|x|]; [| |done].
  - rewrite (eff_catch _ _ s (Ok tt) s1) by (by rewrite (eff_bind_Ok _ _ _ _ _ Es)). eexists _, _. split; [done|].
    split; [eapply (state_ok_delete a s1); [done|done|done|]; unfold deleting; by rewrite Ha|]. split; [done|]. split; [by right|]. split_and!; try done.
    intros nm' (p' & c' & Hp' & Hc' & Hd'). cbn in Hp'. apply lookup_delete_Some in Hp' as [Hne Hp']. split; [done|by exists p', c'].
  - rewrite (eff_catch _ _ s (Err (StoreFailed x)) s1) by (by rewrite (eff_bind_Err _ _ _ _ _ Es)). destruct (_ && _) eqn:Eb.
    2:{ unfold isStandaloneOrLeader in Eb. by rewrite standalone in Eb. }
    rewrite (eff_bind_Ok _ _ _ _ _ (run_update_activity p _ c act s1 Hc Ha)). set (c2 := set_activity _ c). set (s2 := put p c2 s1).
    rewrite (run_start p c2 (set_deleteInProgress false act) s2 (put_at _ _ _) eq_refl). eexists _, a. split; [done|]. unfold s2. rewrite put_asked, put_put.
    split; [eapply (state_ok_same _ _ _ _ c); [by apply (state_ok_frame _ s1)|done|done|done|done|]; intros Hx; by do 2 apply chan_ok_activity|].
    split; [done|]. split; [by left|]. split; [done|]. split; [intros p' Hp'; by eapply (deletable_put (set_asked _ s1)); [|by eexists|]|].
    intros nm' (p' & c' & Hp' & Hc' & Hd'). cbn in Hp', Hc'. apply lookup_insert_Some in Hc' as [[<- <-]|[Hne Hc']]; [done|].
    split; [|by exists p', c']. intros ->. by simplify_eq.
Qed.

(** A request to delete a channel marks it only when it is inactive for long enough, without
    active subscription, and no subscription is being created; otherwise the timer is stopped
    or set again. *)
Record decided (s : stan) (p : ptr) (c : channel) (act : channelActivity) (b : bool) (s' : stan) (act' : channelActivity) : Prop := {
  de_state : exists n, s' = put p (set_activity (Some act') c) (set_asked n s);
  de_prevent : preventDelete act' = preventDelete act;
  de_progress : deleteInProgress act' = if b then true else deleteInProgress act;
  de_yes : b = true -> deleteInProgress act = false /\ preventDelete act = false /\ is_active c s = false /\
    maxInactivity act <= Since (clocks e (asked s)) (last act)
}.

Lemma stopped_flags act : preventDelete (stopped act) = preventDelete act /\ deleteInProgress (stopped act) = deleteInProgress act.
Proof. unfold stopped. by destruct (delete_timer act). Qed.

Lemma decide_delete_effect s p c act :
  chans s !! p = Some c -> activity c = Some act ->
  exists b s' act', decide_delete e p s = (Ok b, s') /\ decided s p c act b s' act'.
Proof.
  intros Hc Ha. unfold decide_delete. rewrite (eff_bind_Ok _ _ _ _ _ (run_activity _ _ _ _ Hc Ha)), (eff_bind_Ok _ _ _ _ _ (run_at _ _ _ Hc)), eff_get.
  destruct (stopped_flags act) as [Hf1 Hf2]. destruct (preventDelete act || deleteInProgress act || is_active c s) eqn:Eg.
  - rewrite (eff_bind_Ok _ _ _ _ _ (run_stop _ _ _ _ Hc Ha)). eexists false, _, (stopped act). split; [done|].
    split; [exists (asked s); by rewrite set_asked_self|done..].
  - apply orb_false_elim in Eg as [[Hpr Hdp]%orb_false_elim Hact]. rewrite (eff_bind_Ok _ _ _ _ _ (run_clock s)). set (s1 := set_asked (asked s + 1) s). cbv zeta.
    destruct (Z.leb_spec (maxInactivity act) (Since (clocks e (asked s)) (last act))) as [Hle|Hgt].
    + rewrite (eff_bind_Ok _ _ _ _ _ (run_stop p c act s1 Hc Ha)). set (c2 := set_activity _ c). set (s2 := put p c2 s1).
      rewrite (eff_bind_Ok _ _ _ _ _ (run_update_activity p _ c2 (stopped act) s2 (put_at _ _ _) eq_refl)). unfold s2. rewrite put_put.
      eexists true, _, (set_deleteInProgress true (stopped act)). split; [done|]. split; [by eexists|done..].
    + rewrite (eff_bind_Ok _ _ _ _ _ (run_reset p _ c act s1 Hc Ha)). eexists false, _, (set_timer _ true act). split; [done|].
      split; [by exists (asked s1 + 1)%nat|done..].
Qed.

(** Any channel object may get other times and flags, as long as those that are not live stay
    marked. *)
Lemma state_ok_flags a s p c act' n :
  state_ok a s -> chans s !! p = Some c -> (deleting c = true -> deleteInProgress act' = true) ->
  state_ok a (put p (set_activity (Some act') c) (set_asked n s)).
Proof.
  intros G Hc Hkeep. destruct (so_stale _ _ G p c Hc) as [Hlive|Hst].
  - destruct (so_channel _ _ G _ _ Hlive) as (c0 & w & Hc0 & _ & Hw & _). eapply (state_ok_same _ _ _ _ c);
      [by apply (state_ok_frame _ s)|done|done|done|done|apply chan_ok_activity].
  - destruct G as [G1 G2 G3 G4]. split; cbn; try done.
    + intros nm p' Hp'. destruct (G1 nm p' Hp') as (c' & w & Hc' & Hn & Hw & Hok & Hl). destruct (decide (p' = p)) as [->|Hne].
      * exists (set_activity (Some act') c), w. rewrite lookup_insert_eq. simplify_eq. split_and!; try done. by apply chan_ok_activity.
      * exists c', w. by rewrite lookup_insert_ne by done.
    + intros p' c' [[<- <-]|[_ Hc']]%lookup_insert_Some; [right; by apply Hkeep|by apply G4].
Qed.

Lemma handleChannelDelete_spec a s p :
  state_ok a s -> deletable s p ->
  exists s' a', handleChannelDelete unicode e p s = (Ok tt, s') /\ state_ok a' s' /\ answers s' = answers s /\
    (a' = a \/ exists nm, channels s !! nm = Some p /\ a' = delete nm a) /\ subscriptions s' = subscriptions s /\
    (forall p', deletable s p' -> deletable s' p') /\ (forall nm, marked s' nm -> marked s nm).
Proof.
  intros G (c & Hc & act & Ha). unfold handleChannelDelete.
  destruct (decide_delete_effect s p c act Hc Ha) as (b & s1 & act' & E1 & [[n ->] Hp' Hd' Ht]). set (c1 := set_activity (Some act') c) in *.
  set (s1 := put p c1 (set_asked n s)) in *. rewrite (eff_bind_Ok _ _ _ _ _ E1).
  assert (forall p', deletable s p' -> deletable s1 p') as Hdl by (intros p' Hx; by eapply (deletable_put (set_asked n s)); [|by eexists|]).
  assert (state_ok a s1) as G1.
  { apply state_ok_flags; [done|done|]. unfold deleting. rewrite Ha, Hd'. by destruct b. }
  unfold when. destruct b.
  2:{ exists s1, a. split_and!; try done; [by left|]. intros nm Hm. eapply (marked_put s p c c1 nm n); [done| |done]. unfold deleting. cbn. by rewrite Ha, Hd'. } destruct (Ht eq_refl) as (Hd & Hpr & _). rewrite <- Hp' in Hpr.
  assert (chans s1 !! p = Some c1) as Hc1 by apply put_at.
  rewrite (eff_bind_Ok _ _ _ _ _ (run_at _ _ _ Hc1)), standalone. change (name c1) with (name c).
  destruct (so_stale _ _ G p c Hc) as [Hp|Hx]; [|unfold deleting in Hx; rewrite Ha in Hx; congruence].
  destruct (processDeleteChannel_spec a s1 (name c) p c1 act' G1) as (s2 & a2 & E2 & G2 & An2 & Ha2 & Su2 & Hdl2 & Hmk); try done.
  exists s2, a2. split; [done|]. split; [done|]. split; [done|]. split; [destruct Ha2 as [->| ->]; [by left|right; eauto]|]. split; [done|]. split; [auto|].
  intros nm Hm. destruct (Hmk nm Hm) as (Hne & p' & c' & Hp2 & Hc2 & Hd2). cbn in Hp2, Hc2. apply lookup_insert_Some in Hc2 as [[<- <-]|[_ Hc2]]; [|by exists p', c'].
  destruct (so_channel _ _ G nm p Hp2) as (c0 & _ & Hc0 & Hn0 & _). congruence.
Qed.
End Spec.
End ChanSpec.
