(* ===== verification/PublishSpec.v ===== *)
(** * Published messages are stored before they are acknowledged

    What a batch of requests does on a server that runs alone: every request gets one
    answer; a request that is acknowledged has its message in the message store of its
    channel, under the next sequence, and that store has been flushed. *)

From Stdlib Require Import ZArith Lia Ascii String.
From stdpp Require Import base list gmap strings.
From S2P Require Import Prelude GoLib Effects MemStore MsgStore SubState Delivery SubStore DeliveryTotal ChannelStore ChannelStoreSpec PublishLoop.

Local Open Scope Z_scope.

Module PublishSpec.
Import Sub Reg Chan DlvTotal ChanSpec Publish.

(** ** What requests mean *)

Inductive result (E : Type) := Acked (m : MsgProto) | Denied (err : chan_error E).
Arguments Acked {E} m.
Arguments Denied {E} err.

Definition msg_of (pm : PubMsg) (seq ts : Z) : MsgProto :=
  mkMsg seq (pm_Subject pm) (pm_Reply pm) (pm_Data pm) ts false 0 0.

Section Spec.
Context {S D R E : Type} `{MsgStoreSpec S} `{!MsgLog S E} `{!MsgLogSpec S E} `{!Stores D S E} `{!StoresSpec D S E} `{!RaftStore R E}.
Context `{!RangeOrder ptr} `{!RangeOrder string}.
Context (unicode : list ascii -> list ascii).
Context (e : @environment S D R E).
Context (standalone : isClustered (sub_env e) = false).
Context (marshals : forall m, 0 < Sequence m -> marshal (sub_env e) m <> []).
Context (times : forall n, 0 < wall_now (clocks e n) < two63).
Context (limit : Z) (Hlimit : limit < two64 - 1).

Abbreviation stan := (@stan S D R E).
Abbreviation state_ok := (state_ok (D := D) (R := R) (E := E) unicode).
Abbreviation subject x := (pm_Subject (pm x)).

(** The window of a channel; a channel that does not exist has none yet. *)
Definition window_of (a : gmap string win) (nm : string) : win := default None (a !! nm).

(** A request is served: its message gets the next sequence of its channel, and a time that
    is not before those of the channel's messages; or it is refused, because of its channel
    or because the store of the channel, which has the messages of the window, fails to
    store the message with the next sequence, and the channels keep their messages. *)
Inductive served (busy : string -> Prop) (a : gmap string win) (x : ioPendingMsg) : result E -> gmap string win -> Prop :=
| served_ack m ts w' :
    m = msg_of (pm x) (Window.wlast (window_of a (subject x)) + 1) ts ->
    (forall f q, window_of a (subject x) = Some (f, q) -> Forall (fun m => Timestamp m <= ts) q) ->
    pushed m (window_of a (subject x)) w' ->
    served busy a x (Acked m) (<[subject x := w']> a)
| served_deny err :
    reason unicode e busy a (subject x) err ->
    served busy a x (Denied err) a
| served_failed t ts ms err :
    view ms (window_of a (subject x)) ->
    (StoreMsg t (msg_of (pm x) (Window.wlast (window_of a (subject x)) + 1) ts) ms).1 = Err err ->
    served busy a x (Denied (StoreFailed err)) (<[subject x := window_of a (subject x)]> a).

Inductive served_all (busy : string -> Prop) : gmap string win -> list ioPendingMsg -> list (result E) -> gmap string win -> Prop :=
| served_nil a : served_all busy a [] [] a
| served_cons a x r a' xs rs a'' : served busy a x r a' -> served_all busy a' xs rs a'' -> served_all busy a (x :: xs) (r :: rs) a''.

Lemma served_weaken (busy busy' : string -> Prop) a x r a' : (forall nm, busy nm -> busy' nm) -> served busy a x r a' -> served busy' a x r a'.
Proof.
  intros Hb Hs. destruct Hs as [m ts w' Hm Hl Hp|err Hr|t ts ms err Hv Hf]; [by eapply served_ack| |by eapply served_failed].
  apply served_deny. destruct err; try done. destruct Hr. split; [done|by apply Hb].
Qed.
Lemma served_all_weaken (busy busy' : string -> Prop) a xs rs a' : (forall nm, busy nm -> busy' nm) -> served_all busy a xs rs a' -> served_all busy' a xs rs a'.
Proof. intros Hb. induction 1; [constructor|]. econstructor; [by eapply served_weaken|done]. Qed.

(** The answers: refusals as they occur, acknowledgements at the end. *)
Definition answer_to (x : ioPendingMsg) (err : option (chan_error E)) : pub_answer E :=
  mkAnswer (m_Reply (m x)) (pm_Guid (pm x)) err.
Definition denial (x : ioPendingMsg) (r : result E) : list (pub_answer E) :=
  match r with Denied err => [answer_to x (Some err)] | Acked _ => [] end.
Definition acked (x : ioPendingMsg) (r : result E) : list ioPendingMsg :=
  match r with Acked _ => [x] | Denied _ => [] end.
Definition denials (xs : list ioPendingMsg) (rs : list (result E)) : list (pub_answer E) :=
  concat (zip_with denial xs rs).
Definition ackeds (xs : list ioPendingMsg) (rs : list (result E)) : list ioPendingMsg :=
  concat (zip_with acked xs rs).

(** Messages that the store of any channel takes, up to the sequence [limit]. *)
Definition acceptable (x : ioPendingMsg) : Prop :=
  forall seq ts, 0 < seq <= limit -> 0 < ts < two63 -> storable (msg_of (pm x) seq ts).

Definition room (n : nat) (a : gmap string win) : Prop :=
  Z.of_nat n <= limit /\ forall nm w, a !! nm = Some w -> Window.wlast w + Z.of_nat n <= limit.

Lemma room_of n a nm : room n a -> Window.wlast (window_of a nm) + Z.of_nat n <= limit.
Proof. intros [Hn Hr]. unfold window_of. destruct (a !! nm) as [w|] eqn:Ha; [by apply (Hr nm)|done]. Qed.

Lemma room_served busy n a x r a' : room (Datatypes.S n) a -> served busy a x r a' -> room n a'.
Proof.
  intros Hr Hs. pose proof (room_of _ _ (subject x) Hr) as Hx. destruct Hr as [Hn Hr].
  assert (room n a) as Hr' by (split; [lia|]; intros nm w Hw; specialize (Hr nm w Hw); lia). destruct Hs as [m ts w' -> _ Hp|err _|t ts ms err _ _]; [|done|].
  - split; [lia|]. intros nm w [[<- <-]|[_ Hw]]%lookup_insert_Some; [|by apply Hr' in Hw]. apply pushed_last in Hp; [|done]. rewrite Hp. cbn. lia.
  - split; [lia|]. intros nm w [[<- <-]|[_ Hw]]%lookup_insert_Some; [lia|by apply Hr' in Hw].
Qed.

(** ** Storing *)

Lemma run_msgs {A : Type} p (f : S -> outcome E A * S) c (s : stan) :
  chans s !! p = Some c ->
  on_msgs (D := D) (R := R) p f s =
    (match (f (msgs c)).1 with Ok a => Ok a | Err x => Err (StoreFailed x) | Panic => Panic end, put p (set_msgs (f (msgs c)).2 c) s).
Proof.
  intros Hc. unfold on_msgs. rewrite (eff_bind_Ok _ _ _ _ _ (run_at _ _ _ Hc)). destruct (f (msgs c)) as [r ms].
  rewrite (eff_bind_Ok _ _ _ _ _ (run_update _ _ _ _ Hc)). by destruct r.
Qed.

(** The time that a message gets. *)
Definition stamp (s : stan) (c : @channel S) : Z :=
  let now := wall_now (clocks e (asked s)) in
  if (0 <? lTimestamp c) && (now <? lTimestamp c) then lTimestamp c else now.

Lemma stamp_bounds s c : 0 <= lTimestamp c < two63 -> lTimestamp c <= stamp s c /\ 0 < stamp s c < two63.
Proof.
  intros Hc. unfold stamp. pose proof (times (asked s)). destruct (Z.ltb_spec 0 (lTimestamp c)), (Z.ltb_spec (wall_now (clocks e (asked s))) (lTimestamp c)); cbn [andb]; lia.
Qed.

Lemma run_stamp p pm seq c s :
  chans s !! p = Some c ->
  pubMsgToMsgProto e p pm seq s =
    (Ok (msg_of pm seq (stamp s c)), put p (set_lTimestamp (stamp s c) c) (set_asked (asked s + 1) s)).
Proof.
  intros Hc. unfold pubMsgToMsgProto. rewrite (eff_bind_Ok _ _ _ _ _ (run_clock e s)).
  rewrite (eff_bind_Ok _ _ _ _ _ (run_at p c (set_asked (asked s + 1) s) Hc)).
  by rewrite (eff_bind_Ok _ _ _ _ _ (run_update p _ c (set_asked (asked s + 1) s) Hc)).
Qed.

(** The new message comes after the others. *)
Lemma pushed_sorted m w w' ts :
  (forall f q, w = Some (f, q) -> MemSpec.time_sorted q /\ Forall (fun m => Timestamp m <= ts) q) -> ts <= Timestamp m ->
  pushed m w w' -> forall f q, w' = Some (f, q) -> MemSpec.time_sorted q /\ Forall (fun x => Timestamp x <= Timestamp m) q.
Proof.
  intros Hw Hts Hp f q ->. unfold pushed in Hp. destruct (default (Sequence m, []) w) as [f0 q0] eqn:Ed.
  destruct Hp as (k & Hk & [= -> ->]).
  assert (MemSpec.time_sorted q0 /\ Forall (fun x => Timestamp x <= Timestamp m) q0) as [Hs Hf].
  { destruct w as [[f1 q1]|]; cbn in Ed; simplify_eq; [|split; [by intros i j|done]].
    destruct (Hw f0 q0 eq_refl) as [? Hq]. split; [done|]. eapply Forall_impl; [exact Hq|]. cbn. lia. }
  assert (Forall (fun x => Timestamp x <= Timestamp m) (q0 ++ [m])) as Hall by (apply Forall_app; split; [done|by repeat constructor]).
  split; [|by apply Forall_drop]. intros i j x y Hij Hx Hy. rewrite lookup_drop in Hx, Hy.
  apply lookup_app_Some in Hy as [Hy|[_ Hy]].
  - rewrite lookup_app_l in Hx by (apply lookup_lt_Some in Hy; lia). by eapply (Hs (k + i)%nat (k + j)%nat); [lia| |].
  - apply list_lookup_singleton_Some in Hy as [_ <-]. eapply Forall_lookup in Hall; [|exact Hx]. done.
Qed.

(** What a request leaves alone. *)
Record calm (s s' : stan) : Prop := {
  ca_subs : subscriptions s' = subscriptions s;
  ca_names : channels s ⊆ channels s';
  ca_marked nm : marked s' nm -> marked s nm;
  ca_deletable p : deletable s p -> deletable s' p
}.
#[export] Instance calm_preorder : PreOrder calm.
Proof. split; [by split|]. intros x y z [] []. split; [congruence|by etrans|auto|auto]. Qed.

Lemma calm_put p c c' s n : chans s !! p = Some c -> activity c' = activity c -> calm s (put p c' (set_asked n s)).
Proof.
  intros Hc Ha. split; [done|done|intros nm; apply (marked_put s p c); [done|unfold deleting; by rewrite Ha]|]. intros p' Hp'. eapply (deletable_put (set_asked n s)); [done|by rewrite Ha|done].
Qed.

(** What [store_one] has done when it goes on to the answer. *)
Lemma store_steps a s x :
  state_ok a s -> room 1 a -> acceptable x ->
  exists r s' a' res, (p ← lookupOrCreateChannel unicode e (subject x); c ← chan_at p;
      msg ← pubMsgToMsgProto e p (pm x) (nextSequence c); t ← clock e; _ ← on_msgs p (StoreMsg (wall_now t) msg); mret p) s = (r, s') /\
    calm s s' /\ answers s' = answers s /\ served (marked s) a x res a' /\
    match r with
    | Ok p => exists c m, res = Acked m /\ chans s' !! p = Some c /\ channels s' !! subject x = Some p /\
        state_ok a' (put p (set_nextSequence (u64 (nextSequence c + 1)) c) s')
    | Err err => res = Denied err /\ state_ok a' s'
    | Panic => False
    end.
Proof.
  intros G Hroom Hacc. destruct (lookupOrCreateChannel_spec unicode e standalone a s (subject x) G) as (r & s1 & a1 & E1 & Ap & G1 & Hr).
  assert (calm s s1) as C1.
  { split; [apply Ap|apply Ap| |intros p; apply deletable_mono, Ap]. eapply marked_apart; [done|done|done|]. destruct r as [p|err|]; [right|left; apply Hr|done].
    destruct Hr as (Hp & _ & (c & Hc & Hd) & ->). split; [done|by exists p, c]. }
  destruct r as [p|err|]; [| |done].
  2:{ rewrite (eff_bind_Err _ _ _ _ _ E1). destruct Hr as [Hr ->]. eexists _, _, a, (Denied err). split_and!; try done; [apply Ap|].
      by apply served_deny. }
  destruct Hr as (Hp & Ha1 & _ & Ea1). fold (window_of a (subject x)) in Ha1, Ea1.
  destruct (so_channel _ _ _ G1 _ _ Hp) as (c & w & Hc & Hn & Ha & Hok & _). assert (w = window_of a (subject x)) as -> by congruence.
  rewrite (eff_bind_Ok _ _ _ _ _ E1), (eff_bind_Ok _ _ _ _ _ (run_at _ _ _ Hc)), (eff_bind_Ok _ _ _ _ _ (run_stamp _ _ _ _ _ Hc)).
  destruct (stamp_bounds s1 c (co_start _ _ _ Hok)) as [Hle Hts]. set (ts := stamp s1 c) in *.
  set (c2 := set_lTimestamp ts c). set (s2 := put p c2 _). rewrite (eff_bind_Ok _ _ _ _ _ (run_clock e s2)). set (t := clocks e (asked s2)).
  assert (chans (set_asked (asked s2 + 1) s2) !! p = Some c2) as Hc2 by apply put_at.
  pose proof (run_msgs p (StoreMsg (wall_now t) (msg_of (pm x) (nextSequence c) ts)) c2 _ Hc2) as E3.
  pose proof (room_of 1 a (subject x) Hroom) as Hw. rewrite (co_next _ _ _ Hok) in *. set (w := window_of a (subject x)) in *.
  set (msg := msg_of (pm x) (Window.wlast w + 1) ts) in *.
  assert (forall f q, w = Some (f, q) -> Forall (fun m => Timestamp m <= ts) q) as Hlater.
  { intros f q Hq. eapply Forall_impl; [exact (proj2 (co_time _ _ _ Hok f q Hq))|]. cbn. lia. }
  assert (0 <= Window.wlast w) as Hw0.
  { pose proof (view_wf _ _ (co_view _ _ _ Hok)). destruct w as [[f q]|]; cbn in *; [lia|done]. }
  assert (forall ms', calm s (put p (set_msgs ms' c2) (set_asked (asked s2 + 1) s2))) as C3.
  { intros ms'. etrans; [exact C1|]. unfold s2. rewrite put_asked, put_put. exact (calm_put p c (set_msgs ms' c2) s1 (asked s1 + 1 + 1) Hc eq_refl). }
  destruct (view_Store (msgs c) w msg (wall_now t)) as [(ms' & w' & Est & Hv' & Hpu)|(x0 & ms' & Est & Hv')];
    [apply Hok|done|cbn; lia|by apply Hacc; lia| |]; cbn in E3; rewrite Est in E3; cbn in E3.
  - rewrite (eff_bind_Ok _ _ _ _ _ E3). eexists _, _, _, (Acked msg). split; [done|].
    split; [apply C3|]. split; [apply Ap|]. split; [by eapply served_ack|].
    eexists _, msg. split; [done|]. split; [apply put_at|]. split; [done|]. rewrite put_put.
    assert (<[subject x := w']> a = <[subject x := w']> a1) as -> by (by rewrite Ea1, insert_insert_eq).
    apply state_ok_put; [|done|done|].
    + unfold s2. rewrite put_asked. eapply (state_ok_same _ _ _ _ _ c); [by apply (state_ok_frame _ _ s1)|done|done|done|done|].
      intros []. split; try done; [|cbn; lia]. intros f q Hq. destruct (co_time0 f q Hq) as [? _]. split; [done|]. by apply (Hlater f q).
    + destruct Hok. split; cbn; try done; [| |lia].
      * apply pushed_last in Hpu; [|done]. rewrite Hpu. cbn. rewrite co_next0, u64_small by (unfold is_u64; lia). done.
      * intros f q Hq. eapply (pushed_sorted msg w w' (lTimestamp c)); [done|cbn; lia|done|done].
  - rewrite (eff_bind_Err _ _ _ _ _ E3). eexists _, _, a1, (Denied (StoreFailed x0)). split; [done|].
    split; [apply C3|]. split; [apply Ap|]. rewrite Ea1. split; [eapply (served_failed _ _ _ (wall_now t) ts (msgs c)); [apply Hok|]; fold w msg; by rewrite Est|]. split; [done|]. rewrite <- Ea1.
    unfold s2. rewrite put_asked, put_put. eapply (state_ok_same _ _ _ _ _ c); [by apply (state_ok_frame _ _ s1)|done|done|done|done|].
    intros []. split; try done; [|cbn; lia]. intros f q Hq. destruct (co_time0 f q Hq) as [? _]. split; [done|]. by apply (Hlater f q).
Qed.

(** The channels of the acknowledged requests. *)
Definition stored_in (s : stan) (xs : list ioPendingMsg) (ps : gset ptr) : Prop :=
  (forall x, x ∈ xs -> exists p, p ∈ ps /\ channels s !! subject x = Some p) /\
  (forall p, p ∈ ps -> exists nm, channels s !! nm = Some p).

Lemma stored_in_mono s s' xs ps : channels s ⊆ channels s' -> stored_in s xs ps -> stored_in s' xs ps.
Proof.
  intros Hsub [Hx Hp]. split.
  - intros x Hin. destruct (Hx x Hin) as (p & ? & ?). exists p. split; [done|]. by eapply lookup_weaken.
  - intros p Hin. destruct (Hp p Hin) as [nm ?]. exists nm. by eapply lookup_weaken.
Qed.

Lemma store_one_spec a s x acc :
  state_ok a s -> room 1 a -> acceptable x -> stored_in s acc.1 acc.2 ->
  exists res s' a' acc', store_one unicode e x acc s = (Ok acc', s') /\ calm s s' /\ state_ok a' s' /\ served (marked s) a x res a' /\
    answers s' = answers s ++ denial x res /\ acc'.1 = acc.1 ++ acked x res /\ stored_in s' acc'.1 acc'.2.
Proof.
  intros G Hroom Hacc Hin. destruct (store_steps a s x G Hroom Hacc) as (r & s1 & a1 & res & E1 & C1 & An & Hsv & Hr).
  unfold store_one. rewrite (eff_catch _ _ _ _ _ E1). destruct r as [p|err|]; [| |done].
  - destruct Hr as (c & m & -> & Hc & Hp & G1). rewrite (eff_bind_Ok _ _ _ _ _ (run_update _ _ _ _ Hc)).
    eexists (Acked m), _, a1, _. split; [done|].
    split; [etrans; [exact C1|]; rewrite <- (set_asked_self s1) at 2; by eapply calm_put|]. split; [done|]. split; [done|].
    split; [cbn; by rewrite app_nil_r, An|]. split; [done|]. destruct (stored_in_mono _ _ _ _ (ca_names _ _ C1) Hin) as [Hx Hps]. split; cbn.
    + intros y [Hy|Hy]%elem_of_app; [destruct (Hx y Hy) as (q & ? & ?); exists q; by split; [set_solver|]|].
      apply list_elem_of_singleton in Hy as ->. exists p. by split; [set_solver|].
    + intros q [->%elem_of_singleton|Hq]%elem_of_union; [by eexists|by apply Hps].
  - destruct Hr as [-> G1]. eexists (Denied err), _, a1, acc. split; [done|]. split; [etrans; [exact C1|by split]|].
    split; [by apply (state_ok_frame _ _ s1)|]. split; [done|]. split; [cbn; by rewrite An|]. split; [cbn; by rewrite app_nil_r|].
    by apply (stored_in_mono s); [apply C1|].
Qed.

Lemma store_all_spec xs : forall a s acc,
  state_ok a s -> room (length xs) a -> Forall acceptable xs -> stored_in s acc.1 acc.2 ->
  exists rs s' a' acc', store_all unicode e xs acc s = (Ok acc', s') /\ calm s s' /\ state_ok a' s' /\ served_all (marked s) a xs rs a' /\
    answers s' = answers s ++ denials xs rs /\ acc'.1 = acc.1 ++ ackeds xs rs /\ stored_in s' acc'.1 acc'.2.
Proof.
  induction xs as [|x xs IH]; intros a s acc G Hroom Hacc Hin; cbn [store_all].
  { eexists [], s, a, acc. cbn. rewrite !app_nil_r. by split_and!; [|done|done|constructor|done|done|..]. }
  apply Forall_cons in Hacc as [Hx Hxs]. assert (room 1 a) as Hr1.
  { destruct Hroom as [Hn Hr]. cbn in Hn. split; [lia|]. intros nm w Hw. specialize (Hr nm w Hw). cbn in Hr. lia. }
  destruct (store_one_spec a s x acc G Hr1 Hx Hin) as (res & s1 & a1 & acc1 & E1 & C1 & G1 & Sv1 & An1 & Ac1 & In1).
  rewrite (eff_bind_Ok _ _ _ _ _ E1).
  destruct (IH a1 s1 acc1 G1 (room_served _ _ _ _ _ _ Hroom Sv1) Hxs In1) as (rs & s2 & a2 & acc2 & E2 & C2 & G2 & Sv2 & An2 & Ac2 & In2).
  exists (res :: rs), s2, a2, acc2. split; [done|]. split; [by etrans|]. split; [done|].
  split; [econstructor; [done|by eapply served_all_weaken; [apply C1|]]|]. split; [by rewrite An2, An1, <- app_assoc|]. split; [by rewrite Ac2, Ac1, <- app_assoc|]. done.
Qed.

(** ** Flushing *)

(** A channel whose messages are durable. *)
Definition safe (a : gmap string win) (s : stan) (p : ptr) : Prop :=
  exists nm c w, channels s !! nm = Some p /\ chans s !! p = Some c /\ a !! nm = Some w /\ durable (msgs c) w.

Lemma state_ok_heap a s st : state_ok a s -> same_heap (subscriptions s) st -> state_ok a (set_subscriptions st s).
Proof.
  intros G Hh. split; cbn; try apply G. intros nm p Hp. destruct (so_channel _ _ _ G nm p Hp) as (c & w & ? & ? & ? & Hok & ?).
  exists c, w. split_and!; try done. destruct Hok. split; try done. by eapply same_heap_ok.
Qed.

(** The flush of the subscriptions of a channel may fail, and the server panics then. *)
Definition flush_fails : Prop := exists n x, SubsFlush_fails e n = Some x.

Lemma flush_one_spec a s nm p :
  state_ok a s -> channels s !! nm = Some p ->
  exists r s', flush_one e p s = (r, s') /\ answers s' = answers s /\
    match r with
    | Ok _ => exists c', state_ok a s' /\ channels s' = channels s /\ chans s' = <[p := c']> (chans s) /\ safe a s' p /\
        (forall p', deletable s p' -> deletable s' p') /\ (forall nm, marked s' nm -> marked s nm)
    | Err _ => False
    | Panic => flush_fails
    end.
Proof.
  intros G Hp. destruct (so_channel _ _ _ G nm p Hp) as (c & w & Hc & Hn & Ha & Hok & Hl).
  destruct (view_Flush (msgs c) w (co_view _ _ _ Hok)) as (ms' & Ef & Hv' & Hd).
  pose proof (run_msgs p FlushMsgs c s Hc) as E1. rewrite Ef in E1. cbn in E1. unfold flush_one. rewrite (eff_catch _ _ _ _ _ E1).
  set (c1 := set_msgs ms' c). set (s1 := put p c1 s).
  assert (state_ok a s1) as G1 by (eapply state_ok_same; [done|exact Hp|exact Hc|done|done|]; intros []; by split).
  assert (chans s1 !! p = Some c1) as Hc1 by apply put_at.
  destruct (processMsg_total (sub_env e) marshals ms' w Hv' (ss c) (subscriptions s) (range (qsubs (ss c))).*2) as (st & Est & Hh).
  { apply Hok. }
  { intros q Hq. apply list_elem_of_fmap in Hq as ([k q'] & -> & Hkq). exists k. by apply elem_of_range in Hkq. }
  assert (deliver e p s1 = (Ok tt, set_subscriptions st s1)) as E2.
  { unfold deliver. rewrite (eff_bind_Ok _ _ _ _ _ (run_at _ _ _ Hc1)), eff_get. cbn. by rewrite Est. }
  rewrite (eff_bind_Ok _ _ _ _ _ E2). set (s2 := set_subscriptions st s1).
  rewrite (eff_bind_Ok _ _ _ _ _ (run_ask (SubsFlush_fails e) s2)). destruct (SubsFlush_fails e (asked s2)) as [x|] eqn:Hx.
  { eexists Panic, _. split; [done|]. split; [done|by eexists _, _]. }
  set (s3 := set_asked (asked s2 + 1) s2). rewrite (eff_bind_Ok _ _ _ _ _ (run_at p c1 s3 Hc1)). unfold update_activity.
  rewrite (run_update p _ c1 s3 Hc1). eexists (Ok tt), _. split; [done|]. split; [done|]. eexists.
  assert (state_ok a s3) as G3 by (by apply (state_ok_frame _ _ s2), state_ok_heap).
  split; [eapply state_ok_same; [done|exact Hp|exact Hc1|done|done|apply chan_ok_activity]|]. split; [done|].
  split; [cbn; by rewrite insert_insert_eq|]. split; [eexists nm, _, w; split_and!; [done|apply put_at|done|done]|].
  split.
  - intros p' Hp'. eapply (deletable_put s3); [exact Hc1|intros [act Ha']; cbn in Ha' |- *; rewrite Ha'; by eexists|]. by eapply (deletable_put s).
  - intros nm' (p' & x & Hp' & Hx' & Hd'). cbn in Hp', Hx'. rewrite insert_insert_eq in Hx'. apply lookup_insert_Some in Hx' as [[<- <-]|[_ Hx']]; [|by exists p', x].
    exists p, c. split_and!; [done|done|]. revert Hd'. unfold deleting. cbn. by destruct (activity c).
Qed.

Lemma flush_all_spec a ps : forall s,
  state_ok a s -> (forall p, p ∈ ps -> exists nm, channels s !! nm = Some p) ->
  exists r s', each (flush_one e) ps s = (r, s') /\ answers s' = answers s /\
    match r with
    | Ok _ => state_ok a s' /\ channels s' = channels s /\ (forall p, p ∈ ps \/ safe a s p -> safe a s' p) /\
        (forall p, deletable s p -> deletable s' p) /\ (forall nm, marked s' nm -> marked s nm)
    | Err _ => False
    | Panic => flush_fails
    end.
Proof.
  induction ps as [|p ps IH]; intros s G Hps; cbn [each].
  { exists (Ok tt), s. split_and!; try done. by intros p [?%not_elem_of_nil|?]. }
  destruct (Hps p ltac:(by left)) as [nm Hp]. destruct (flush_one_spec a s nm p G Hp) as ([[]| |] & s1 & E1 & An1 & Hr1); [|done|].
  2:{ rewrite (eff_bind_Panic _ _ _ _ E1). by exists Panic, s1. }
  destruct Hr1 as (c1 & G1 & Ch1 & Hs1 & Sf1 & D1 & M1).
  rewrite (eff_bind_Ok _ _ _ _ _ E1). destruct (IH s1 G1) as (r & s2 & E2 & An2 & Hr2).
  { intros q Hq. rewrite Ch1. apply Hps. by right. }
  exists r, s2. split; [done|]. split; [congruence|]. destruct r as [u| |]; [|done|done]. destruct Hr2 as (G2 & Ch2 & Sf2 & D2 & M2).
  split; [done|]. split; [congruence|]. split; [|auto].
  intros q Hq. apply Sf2. destruct (decide (q = p)) as [->|Hne]; [by right|]. destruct Hq as [[?|?]%elem_of_cons|Hq]; [done|by left|right].
  destruct Hq as (nm' & c & w & Hq & Hc & Ha & Hd). exists nm', c, w. rewrite Ch1, Hs1, lookup_insert_ne by done. done.
Qed.

Lemma ack_all_spec xs : forall s : stan,
  each ackPublisher xs s = (Ok tt, set_answers (answers s ++ ((fun x => answer_to x None) <$> xs)) s).
Proof.
  induction xs as [|x xs IH]; intros s; cbn [each fmap list_fmap]; [rewrite app_nil_r; by destruct s|].
  rewrite (eff_bind_Ok _ _ s tt (set_answers (answers s ++ [answer_to x None]) s) eq_refl), IH. cbn. by rewrite <- app_assoc.
Qed.

(** ** A batch *)

(** A message is in a window, or the limits have moved the start of the window past it. *)
Definition kept (m : MsgProto) (w : win) : Prop := Window.lookup w (Sequence m) = Some m \/ Sequence m < wfirst w.

Lemma pushed_keeps m w w' x : Sequence m = Window.wlast w + 1 -> pushed m w w' -> kept x w -> kept x w'.
Proof.
  intros Hm Hp [Hx|Hx]; [exact (pushed_kept m w w' _ x Hm Hp Hx)|right]. unfold pushed in Hp. destruct w as [[f q]|]; cbn in *.
  - destruct Hp as (k & _ & ->). cbn. lia.
  - destruct Hp as (k & _ & ->). cbn. lia.
Qed.

Lemma served_keeps busy a x r a' nm m : served busy a x r a' -> kept m (window_of a nm) -> kept m (window_of a' nm).
Proof.
  intros Hs Hm. destruct Hs as [m' ts w' Em _ Hp|err _|t ts ms err _ _]; [|done|]; unfold window_of at 1; (destruct (decide (nm = subject x)) as [->|Hne];
    [rewrite lookup_insert_eq; cbn|by rewrite lookup_insert_ne by done]); [|done].
  eapply pushed_keeps; [|done|done]. by rewrite Em.
Qed.

Lemma served_all_keeps busy a xs rs a' : served_all busy a xs rs a' ->
  (forall nm m, kept m (window_of a nm) -> kept m (window_of a' nm)) /\
  (forall x m, (x, Acked m) ∈ zip xs rs -> kept m (window_of a' (subject x))).
Proof.
  induction 1 as [a|a x r a' xs rs a'' Hs Hall [IH1 IH2]]; [split; [done|by intros x m ?%not_elem_of_nil]|]. split.
  - intros nm m Hm. eapply IH1, served_keeps; [done|done].
  - intros y m [Heq|Hin]%elem_of_cons; [|by apply IH2]. injection Heq as -> <-. apply IH1. inversion Hs as [m' ts w' -> Hl Hp| |]; subst.
    left. unfold window_of at 1. rewrite lookup_insert_eq. cbn [default]. by eapply pushed_new.
Qed.

Lemma served_length busy a xs rs a' : served_all busy a xs rs a' -> length xs = length rs.
Proof. induction 1; cbn; congruence. Qed.

Lemma elem_of_ackeds x m xs rs : (x, Acked m) ∈ zip xs rs -> x ∈ ackeds xs rs.
Proof.
  revert rs. induction xs as [|y xs IH]; intros [|r rs]; try (by intros ?%not_elem_of_nil). intros [[= -> <-]|Hin]%elem_of_cons; apply elem_of_app; [left|right; by eapply IH].
  cbn. by left.
Qed.

Lemma process_batch_spec a s xs :
  state_ok a s -> room (length xs) a -> Forall acceptable xs ->
  exists rs a' r s', process_batch unicode e xs s = (r, s') /\ served_all (marked s) a xs rs a' /\
    match r with
    | Ok _ => state_ok a' s' /\ answers s' = answers s ++ denials xs rs ++ ((fun x => answer_to x None) <$> ackeds xs rs) /\
        (forall x m, (x, Acked m) ∈ zip xs rs -> exists p c w, channels s' !! subject x = Some p /\ chans s' !! p = Some c /\
           durable (msgs c) w /\ kept m w) /\
        (forall p, deletable s p -> deletable s' p) /\ (forall nm, marked s' nm -> marked s nm)
    | Err _ => False
    | Panic => flush_fails /\ answers s' = answers s ++ denials xs rs
    end.
Proof.
  intros G Hroom Hacc. unfold process_batch, storeIOPendingMsgs. rewrite standalone.
  destruct (store_all_spec xs a s ([], ∅) G Hroom Hacc) as (rs & s1 & a1 & [pend ps] & E1 & C1 & G1 & Sv & An1 & Ac & [Hx Hps]).
  { split; [by intros x ?%not_elem_of_nil|intros p Hp; cbn in Hp; set_solver]. }
  cbn in Ac, Hx, Hps. subst pend. rewrite (eff_bind_Ok _ _ _ _ _ E1).
  destruct (flush_all_spec a1 (order ps) s1 G1) as ([[]| |] & s2 & E2 & An2 & Hr2); [intros p Hp; apply Hps; by apply elem_of_order| |done|].
  2:{ cbn [fst snd]. rewrite (eff_bind_Panic _ _ _ _ E2). exists rs, a1, Panic, s2. split_and!; try done. congruence. }
  destruct Hr2 as (G2 & Ch2 & Sf & D2 & M2).
  cbn [fst snd]. rewrite (eff_bind_Ok _ _ _ _ _ E2), ack_all_spec. exists rs, a1. eexists (Ok tt), _. split; [done|]. split; [done|].
  split; [by apply (state_ok_frame _ _ s2)|]. split; [cbn; by rewrite An2, An1, app_assoc|].
  split; [|split; [intros p Hp; apply D2; by apply C1|intros nm Hm; by apply C1, M2]].
  intros x m Hxm. destruct (Hx x (elem_of_ackeds _ _ _ _ Hxm)) as (p & Hp & Hpx).
  destruct (Sf p) as (nm & c & w & Hnm & Hc & Ha & Hd); [left; by apply elem_of_order|]. rewrite Ch2 in Hnm.
  assert (nm = subject x) as -> by exact (state_ok_inj _ _ _ _ _ _ G1 Hnm Hpx). exists p, c, w. cbn. rewrite Ch2. split_and!; [done|done|done|].
  pose proof (proj2 (served_all_keeps _ _ _ _ _ Sv) x m Hxm) as Hk. unfold window_of in Hk. by rewrite Ha in Hk.
Qed.

(** [C2] Publishing.  A batch of requests on a server that runs alone is served in order:
    each message gets the next sequence of its channel, and a time that is not before those
    of the channel's messages, or is refused: because its channel is being deleted, has the
    name of another one but for the case, or cannot be created, or because the message
    cannot be stored.  Refusals are answered as they occur, and every other request is
    acknowledged at the end.  By then the message stores of the acknowledged messages have
    been flushed, and hold these messages as far as the limits of the channels allow.  When
    the flush of a subscription store fails, the server panics before any request has been
    acknowledged. *)
Theorem publish_durable_before_ack a s xs :
  state_ok a s -> room (length xs) a -> Forall acceptable xs ->
  exists rs a' r s', process_batch unicode e xs s = (r, s') /\ served_all (marked s) a xs rs a' /\
    match r with
    | Ok _ => state_ok a' s' /\ answers s' = answers s ++ denials xs rs ++ ((fun x => answer_to x None) <$> ackeds xs rs) /\
        forall x m, (x, Acked m) ∈ zip xs rs -> exists p c w, channels s' !! subject x = Some p /\ chans s' !! p = Some c /\
          durable (msgs c) w /\ kept m w
    | Err _ => False
    | Panic => flush_fails /\ answers s' = answers s ++ denials xs rs
    end.
Proof.
  intros G Hroom Hacc. destruct (process_batch_spec a s xs G Hroom Hacc) as (rs & a' & r & s' & E1 & Sv & Hr). exists rs, a', r, s'.
  split; [done|]. split; [done|]. destruct r; [|done|done]. destruct Hr as (G' & An & Hd & _). done.
Qed.

(** ** The loop *)

Context (subs_flush : forall n, SubsFlush_fails e n = None).
Context (batchSize sleepTime : Z) (synchronized : nat -> stan -> stan).

(** A server that runs alone gets messages and requests to delete channels. *)
Definition wanted (s : stan) (x : ioPendingMsg) : Prop :=
  sc x = None /\ if dc x then exists p, c x = Some p /\ deletable s p else acceptable x.

Lemma take_msgs_spec l : forall batch (s : stan), Forall (fun x => sc x = None) l ->
  exists pubs o rest, take_msgs synchronized l batch s = (Ok (batch ++ pubs, o, rest), s) /\
    l = pubs ++ option_list o ++ rest /\ Forall (fun x => dc x = false) pubs /\ (forall x, o = Some x -> dc x = true) /\
    (o = None -> rest = []).
Proof.
  induction l as [|x l IH]; intros batch s Hl; cbn [take_msgs].
  { exists [], None, []. by rewrite app_nil_r. }
  apply Forall_cons in Hl as [Hx Hl]. destruct (dc x) eqn:Hd.
  { exists [], (Some x), l. rewrite app_nil_r. split_and!; try done. by intros y [= <-]. }
  rewrite Hx. destruct (IH (batch ++ [x]) s Hl) as (pubs & o & rest & -> & -> & Hp & Ho & Hr). exists (x :: pubs), o, rest.
  rewrite <- app_assoc. split_and!; try done. by constructor.
Qed.

Lemma poll_bounds polls q : 0 <= (poll polls q).1 <= Z.of_nat (length q).
Proof. destruct polls; cbn; lia. Qed.

(** The batch is what comes next in the channel, up to a request to delete a channel. *)
Lemma fill_takes fuel : forall rem q polls batch mx (s : stan), Forall (fun x => sc x = None) q -> 0 <= rem ->
  exists f pubs, fill sleepTime synchronized fuel rem q polls batch mx s = (Ok f, s) /\
    f_batch f = batch ++ pubs /\ q = pubs ++ option_list (f_delete f) ++ f_queue f /\ Forall (fun x => dc x = false) pubs /\
    (forall x, f_delete f = Some x -> dc x = true) /\ Z.of_nat (length pubs) <= rem.
Proof.
  induction fuel as [|fuel IH]; intros rem q polls batch mx s Hq Hrem; cbn [fill].
  { eexists _, []. rewrite app_nil_r. split_and!; try done; lia || idtac. }
  destruct (Z.ltb_spec 0 rem); [|eexists _, []; rewrite app_nil_r; split_and!; done || lia].
  destruct (poll_again sleepTime polls q) as [n polls'] eqn:Epoll.
  assert (0 <= n <= Z.of_nat (length q)) as Hn.
  { revert Epoll. unfold poll_again. pose proof (poll_bounds polls q) as Hb1. destruct (poll polls q) as [n1 polls1]. cbn in Hb1.
    pose proof (poll_bounds polls1 q) as Hb2. destruct (_ && _); [intros E0; by rewrite E0 in Hb2|by intros [= <- _]]. }
  destruct (Z.eqb_spec n 0); [eexists _, []; rewrite app_nil_r; split_and!; done || lia|].
  set (k := if rem <? n then rem else n). assert (0 < k <= rem /\ k <= n) as Hk by (unfold k; destruct (Z.ltb_spec rem n); lia).
  destruct (take_msgs_spec (take (Z.to_nat k) q) batch s) as (pubs & o & rest & E1 & Eq & Hp & Ho & Hr); [by apply Forall_take|].
  rewrite (eff_bind_Ok _ _ _ _ _ E1). assert (q = pubs ++ option_list o ++ rest ++ drop (Z.to_nat k) q) as Hsplit.
  { rewrite <- (take_drop (Z.to_nat k) q) at 1. by rewrite Eq, <- !app_assoc. }
  assert (Z.of_nat (length pubs) <= k) as Hlen.
  { assert (length pubs <= length (take (Z.to_nat k) q))%nat by (rewrite Eq, length_app; lia). rewrite length_take in *. lia. }
  destruct o as [x|].
  - eexists _, pubs. split; [done|]. cbn [f_batch f_delete f_queue option_list] in *. split_and!; try done. lia.
  - rewrite (Hr eq_refl) in Hsplit. cbn [option_list app] in Hsplit.
    destruct (IH (rem - k) (drop (Z.to_nat k) q) polls' (batch ++ pubs) (if mx <? k then k else mx) s) as (f & pubs' & E2 & Eb & Eq2 & Hp2 & Hd2 & Hl2); [by apply Forall_drop|lia|].
    exists f, (pubs ++ pubs'). split; [done|]. rewrite Eb, <- !app_assoc. split_and!; try done; [by rewrite <- Eq2|by apply Forall_app|rewrite length_app; lia].
Qed.

(** *** What a run of the loop means *)

Inductive event := Served (x : ioPendingMsg) (r : result E) | Removed (nm : string).

Inductive history (busy : string -> Prop) : gmap string win -> list event -> gmap string win -> Prop :=
| history_nil a : history busy a [] a
| history_served a x r a' evs a'' : served busy a x r a' -> history busy a' evs a'' -> history busy a (Served x r :: evs) a''
| history_removed a nm evs a' : history busy (delete nm a) evs a' -> history busy a (Removed nm :: evs) a'.

Definition reply (x : ioPendingMsg) (r : result E) : pub_answer E :=
  answer_to x (match r with Acked _ => None | Denied err => Some err end).
Definition requests (evs : list event) : list ioPendingMsg :=
  omap (fun ev => match ev with Served x _ => Some x | Removed _ => None end) evs.
Definition replies (evs : list event) : list (pub_answer E) :=
  omap (fun ev => match ev with Served x r => Some (reply x r) | Removed _ => None end) evs.

Lemma history_app busy a evs a' evs' a'' : history busy a evs a' -> history busy a' evs' a'' -> history busy a (evs ++ evs') a''.
Proof. induction 1; intros; cbn; [done| |]; econstructor; eauto. Qed.
Lemma history_weaken (busy busy' : string -> Prop) a evs a' : (forall nm, busy nm -> busy' nm) -> history busy a evs a' -> history busy' a evs a'.
Proof. intros Hb. induction 1; econstructor; eauto using served_weaken. Qed.

Lemma served_all_history busy a xs rs a' : served_all busy a xs rs a' ->
  history busy a (zip_with Served xs rs) a' /\ requests (zip_with Served xs rs) = xs /\
  replies (zip_with Served xs rs) ≡ₚ denials xs rs ++ ((fun x => answer_to x None) <$> ackeds xs rs).
Proof.
  induction 1 as [a|a x r a' xs rs a'' Hs Hall (IH1 & IH2 & IH3)]; [split_and!; [constructor|done|done]|]. cbn. split_and!.
  - by econstructor.
  - f_equal. apply IH2.
  - change (reply x r :: replies (zip_with Served xs rs) ≡ₚ (denial x r ++ denials xs rs) ++ ((fun x => answer_to x None) <$> (acked x r ++ ackeds xs rs))).
    rewrite IH3. destruct r; cbn; [|done]. apply Permutation_middle.
Qed.

Lemma room_le n n' a : (n' <= n)%nat -> room n a -> room n' a.
Proof. intros Hle [Hn Hr]. split; [lia|]. intros nm w Hw. specialize (Hr nm w Hw). lia. Qed.
Lemma room_delete n nm a : room n a -> room n (delete nm a).
Proof. intros [Hn Hr]. split; [done|]. intros nm' w [_ Hw]%lookup_delete_Some. by apply (Hr nm'). Qed.
Lemma room_served_all busy n a xs rs a' : served_all busy a xs rs a' -> room (length xs + n) a -> room n a'.
Proof. induction 1; intros Hr; [done|]. apply IHserved_all. by eapply room_served. Qed.

Lemma wanted_mono s s' q : (forall p, deletable s p -> deletable s' p) -> Forall (wanted s) q -> Forall (wanted s') q.
Proof.
  intros Hd Hq. eapply Forall_impl; [exact Hq|]. intros x [Hs Hx]. split; [done|]. destruct (dc x); [|done].
  destruct Hx as (p & ? & ?). eauto.
Qed.

(** The requests that publish. *)
Abbreviation publishes q := (filter (fun x => dc x = false) q).

Lemma publishes_all l : Forall (fun x => dc x = false) l -> publishes l = l.
Proof. intros Hl. apply filter_all. intros x Hx. by eapply Forall_forall in Hl. Qed.

Lemma delete_round a s x : state_ok a s -> wanted s x -> dc x = true ->
  exists s' a' evs, (p ← channel_of x; handleChannelDelete unicode e p) s = (Ok tt, s') /\ state_ok a' s' /\ history (marked s) a evs a' /\
    requests evs = [] /\ replies evs = [] /\ answers s' = answers s /\ (forall p, deletable s p -> deletable s' p) /\ (forall n, room n a -> room n a') /\ (forall nm, marked s' nm -> marked s nm).
Proof.
  intros G [_ Hx] Hd. rewrite Hd in Hx. destruct Hx as (p & Hc & Hp). unfold channel_of. rewrite Hc, (eff_bind_Ok (mret p) _ s p s eq_refl).
  destruct (handleChannelDelete_spec unicode e standalone a s p G Hp) as (s' & a' & E1 & G' & An & Ha & _ & D1 & M1). exists s', a'.
  destruct Ha as [->|(nm & _ & ->)].
  - exists []. split_and!; try done. constructor.
  - exists [Removed nm]. split_and!; try done; [repeat constructor|intros n; apply room_delete].
Qed.

(** One round takes the first message and maybe more. *)
Lemma io_round_spec a s x q polls mx :
  state_ok a s -> room (length (x :: q)) a -> Forall (wanted s) (x :: q) ->
  exists q' polls' mx' s' a' evs took,
    io_round unicode e batchSize sleepTime synchronized x q polls mx s = (Ok (q', polls', mx'), s') /\ state_ok a' s' /\ history (marked s) a evs a' /\
    q = took ++ q' /\ requests evs = publishes (x :: took) /\ answers s' ≡ₚ answers s ++ replies evs /\
    room (length q') a' /\ Forall (wanted s') q' /\ (forall nm, marked s' nm -> marked s nm).
Proof.
  intros G Hroom Hw. pose proof Hw as [Hx Hq]%Forall_cons. unfold io_round. destruct (dc x) eqn:Hd.
  { destruct (delete_round a s x G Hx Hd) as (s' & a' & evs & E1 & G' & Hh & Hrq & Hrp & An & D1 & R1 & M1).
    rewrite <- eff_assoc, (eff_bind_Ok _ _ _ _ _ E1). exists q, polls, mx, s', a', evs, []. rewrite Hrp, app_nil_r, An. split_and!; try done.
    - rewrite Hrq, filter_cons_False by (by rewrite Hd). done.
    - apply R1. eapply room_le; [|done]. cbn. lia.
    - by eapply wanted_mono. }
  pose proof Hx as [Hs Hacc]. rewrite Hd in Hacc. rewrite Hs.
  assert (exists f pubs, fill sleepTime synchronized (Z.to_nat (batchSize - 1)) (batchSize - 1) q polls [x] mx s = (Ok f, s) /\
    f_batch f = [x] ++ pubs /\ q = pubs ++ option_list (f_delete f) ++ f_queue f /\ Forall (fun x => dc x = false) pubs /\
    (forall x, f_delete f = Some x -> dc x = true)) as (f & pubs & E1 & Eb & Eq & Hpub & Hdel).
  { destruct (Z.le_gt_cases 0 (batchSize - 1)) as [Hb|Hb].
    - destruct (fill_takes (Z.to_nat (batchSize - 1)) (batchSize - 1) q polls [x] mx s) as (f & pubs & ? & ? & ? & ? & ? & _); [|done|by exists f, pubs].
      eapply Forall_impl; [exact Hq|by intros y []].
    - replace (Z.to_nat (batchSize - 1)) with 0%nat by lia. by eexists _, []. }
  rewrite (eff_bind_Ok _ _ _ _ _ E1). assert (Forall acceptable (x :: pubs)) as Hacs.
  { constructor; [done|]. rewrite Eq in Hq. apply Forall_app in Hq as [Hq _]. apply Forall_forall. intros y Hy.
    eapply Forall_forall in Hq as [_ Hy1]; [|exact Hy]. eapply Forall_forall in Hpub; [|exact Hy]. cbn in Hpub. by rewrite Hpub in Hy1. }
  assert (room (length (x :: pubs) + length (f_queue f)) a) as Hroom'.
  { eapply room_le; [|done]. rewrite Eq. cbn. rewrite !length_app. lia. }
  destruct (process_batch_spec a s (x :: pubs) G) as (rs & a1 & r & s1 & E2 & Sv & Hr); [by eapply room_le; [|done]; lia|done|].
  destruct r as [[]| |]; [|done|by destruct Hr as [(n & y & Hn) _]; rewrite subs_flush in Hn]. destruct Hr as (G1 & An & _ & D1 & M1).
  rewrite Eb. change ([x] ++ pubs) with (x :: pubs). rewrite (eff_bind_Ok _ _ _ _ _ E2).
  destruct (served_all_history _ _ _ _ _ Sv) as (Hh & Hrq & Hrp). pose proof (room_served_all _ _ _ _ _ _ Sv Hroom') as R1.
  assert (publishes (x :: pubs) = x :: pubs) as Hpx by (apply publishes_all; by constructor).
  destruct (f_delete f) as [y|] eqn:Ey; cbn [option_list] in Eq.
  - assert (dc y = true) as Hdy by by apply Hdel. assert (Forall (wanted s1) (y :: f_queue f)) as [Hy Hqf]%Forall_cons.
    { eapply wanted_mono; [exact D1|]. rewrite Eq in Hq. by apply Forall_app in Hq as [_ Hq]. }
    destruct (delete_round a1 s1 y G1 Hy Hdy) as (s2 & a2 & evs & E3 & G2 & Hh2 & Hrq2 & Hrp2 & An2 & D2 & R2 & M2).
    rewrite (eff_bind_Ok _ _ _ _ _ E3). exists (f_queue f), (f_polls f), (f_max f), s2, a2, (zip_with Served (x :: pubs) rs ++ evs), (pubs ++ [y]).
    split; [done|]. split; [done|]. split; [eapply history_app; [done|by eapply history_weaken]|]. split; [by rewrite <- app_assoc|].
    unfold requests, replies in *. rewrite !omap_app, Hrq, Hrq2, Hrp2, Hrp, An2, An, !app_nil_r. split; [|split; [done|split; [by apply R2|split; [by eapply wanted_mono|auto]]]].
    change (x :: pubs ++ [y]) with ((x :: pubs) ++ [y]). rewrite filter_app, Hpx, filter_cons_False by (by rewrite Hdy). by rewrite app_nil_r.
  - rewrite (eff_bind_Ok (mret tt) _ s1 tt s1 eq_refl). exists (f_queue f), (f_polls f), (f_max f), s1, a1, (zip_with Served (x :: pubs) rs), pubs.
    split_and!; try done; [by rewrite Hrq|by rewrite An, Hrp|]. eapply wanted_mono; [exact D1|]. rewrite Eq in Hq. by apply Forall_app in Hq as [_ Hq].
Qed.

Lemma io_rounds_spec fuel : forall a s q polls mx,
  (length q <= fuel)%nat -> state_ok a s -> room (length q) a -> Forall (wanted s) q ->
  exists mx' s' a' evs, io_rounds unicode e batchSize sleepTime synchronized fuel q polls mx s = (Ok mx', s') /\ state_ok a' s' /\ history (marked s) a evs a' /\
    requests evs = publishes q /\ answers s' ≡ₚ answers s ++ replies evs.
Proof.
  induction fuel as [|fuel IH]; intros a s q polls mx Hf G Hroom Hw; (destruct q as [|x q]; [exists mx, s, a, []; cbn; rewrite app_nil_r; split_and!; try done; constructor|]);
    [cbn in Hf; lia|]. cbn [io_rounds].
  destruct (io_round_spec a s x q polls mx G Hroom Hw) as (q' & polls' & mx' & s1 & a1 & evs & took & E1 & G1 & Hh & Eq & Hrq & An & R1 & W1 & M1).
  rewrite (eff_bind_Ok _ _ _ _ _ E1). destruct (IH a1 s1 q' polls' mx') as (mx2 & s2 & a2 & evs2 & E2 & G2 & Hh2 & Hrq2 & An2); [|done|done|done|].
  { rewrite Eq in Hf. cbn in Hf. rewrite length_app in Hf. lia. }
  exists mx2, s2, a2, (evs ++ evs2). split; [done|]. split; [done|]. split; [eapply history_app; [done|by eapply history_weaken]|]. unfold requests, replies in *. rewrite !omap_app.
  split; [rewrite Hrq, Hrq2, Eq; change (x :: took ++ q') with ((x :: took) ++ q'); by rewrite filter_app|]. rewrite An2, An. by rewrite <- app_assoc.
Qed.

(** [C3] The publish loop.  On a server that runs alone, and on which the flushes succeed,
    whatever comes out of its channel, messages and requests to delete channels, in whatever
    batches: the loop goes through all of it, the messages are served in the order in which
    they were posted, and each of them gets exactly one answer. *)
Theorem every_request_answered a s q polls :
  state_ok a s -> room (length q) a -> Forall (wanted s) q ->
  exists mx s' a' evs, ioLoop unicode e batchSize sleepTime synchronized q polls s = (Ok mx, s') /\ state_ok a' s' /\ history (marked s) a evs a' /\
    requests evs = publishes q /\ answers s' ≡ₚ answers s ++ replies evs.
Proof. intros G Hroom Hw. by apply io_rounds_spec. Qed.
End Spec.
End PublishSpec.
