(* ===== verification/PublishPanic.v ===== *)
(** * Nothing is acknowledged when the server gives up

    The server panics when a store cannot be flushed.  By then it has only sent refusals:
    no publisher takes a message for stored that is not.  This holds of any stores, clocks
    and replies of Raft, on a server that runs alone and in a cluster. *)

From Stdlib Require Import ZArith Lia Ascii String.
From stdpp Require Import base list gmap strings.
From S2P Require Import Prelude Bytes GoLib Effects MemStore MsgStore SubState Delivery SubStore DeliveryTotal ChannelStore ChannelStoreSpec PublishLoop PublishSpec.

Local Open Scope Z_scope.

Module PublishPanic.
Import Sub Reg Chan Publish PublishSpec.

Section Panic.
Context {S D R E : Type} `{MsgStore S} `{!MsgLog S E} `{!Stores D S E} `{!RaftStore R E}.
Context `{!RangeOrder ptr} `{!RangeOrder string}.
Context (unicode : list ascii -> list ascii).
Context (e : @environment S D R E).
Context (raft_quiet : forall op s, answers (raft_Apply e op s).2 = answers s).

Abbreviation stan := (@stan S D R E).

(** A handler that neither answers publishers nor changes which channels there are. *)
Abbreviation still m := (forall X a, keeps (E := chan_error E) (fun s : stan => channels s = X /\ answers s = a) m).
(** One that does not answer publishers, and one that leaves the channel of a name. *)
Abbreviation quiet m := (forall a, keeps (E := chan_error E) (fun s : stan => answers s = a) m).
Abbreviation stays nm p m := (keeps (E := chan_error E) (fun s : stan => channels s !! nm = Some p) m).

Lemma quiet_still {A : Type} (m : eff stan (chan_error E) A) : still m -> quiet m.
Proof. intros Hm a s Hs. by apply (Hm (channels s) a). Qed.
Lemma stays_still {A : Type} nm p (m : eff stan (chan_error E) A) : still m -> stays nm p m.
Proof. intros Hm s Hs. by rewrite (proj1 (Hm (channels s) (answers s) s (conj eq_refl eq_refl))). Qed.

Lemma still_get : still get.
Proof. by intros X a s. Qed.
Lemma still_fail {A : Type} err : still (fail (A := A) err).
Proof. by intros X a s. Qed.
Lemma still_panic {A : Type} : still (panic (A := A)).
Proof. by intros X a s. Qed.
Lemma still_ask {A : Type} (f : nat -> A) : still (ask f).
Proof. by intros X a s. Qed.
Lemma still_at p : still (chan_at p).
Proof. intros X a s Hs. unfold chan_at. by destruct (chans s !! p). Qed.
Lemma still_store {A : Type} (f : D -> outcome E A * D) : still (on_store f).
Proof. intros X a s Hs. unfold on_store. by destruct (f (store s)). Qed.
Lemma still_raft {A : Type} (f : R -> outcome E A * R) : still (on_raft f).
Proof. intros X a s Hs. unfold on_raft. by destruct (f (raft s)). Qed.

#[local] Hint Resolve still_get still_fail still_panic still_ask still_at still_store still_raft : eff.
#[local] Hint Extern 3 (keeps (fun s => answers s = _) _) => (apply quiet_still; solve [auto with eff]) : eff.
#[local] Hint Extern 3 (keeps (fun s => channels s !! _ = Some _) _) => (apply stays_still; solve [auto with eff]) : eff.

(** The steps of a handler, one after the other. *)
Ltac quiet_steps := intros; repeat match goal with
  | |- keeps _ (_ ≫= _) => apply keeps_bind; [|intros]
  | |- keeps _ (modify _) => apply keeps_modify; intros; assumption
  | |- keeps _ (catch _) => apply keeps_catch
  | |- keeps _ (when _ _) => apply keeps_when; intros
  | |- keeps _ (match ?x with _ => _ end) => destruct x
  | |- keeps _ (let '(_, _) := ?x in _) => destruct x
  | |- _ => solve [auto with eff]
  end.

Lemma still_update p f : still (update_chan p f).
Proof. unfold update_chan. quiet_steps. Qed.
Lemma still_activity p : still (activity_at p).
Proof. unfold activity_at. quiet_steps. Qed.
#[local] Hint Resolve still_update still_activity : eff.
Lemma still_update_activity p f : still (update_activity p f).
Proof. unfold update_activity. quiet_steps. Qed.
#[local] Hint Resolve still_update_activity : eff.
Lemma still_start p : still (startDeleteTimer e p).
Proof. unfold startDeleteTimer, resetDeleteTimer, clock. quiet_steps. Qed.
Lemma still_checkCase nm : still (checkCase unicode nm).
Proof. unfold checkCase. quiet_steps. Qed.
Lemma still_assign nm i : still (assign_id e nm i).
Proof. unfold assign_id. quiet_steps. Qed.
Lemma still_pubMsg p pm seq : still (pubMsgToMsgProto e p pm seq).
Proof. unfold pubMsgToMsgProto, clock. quiet_steps. Qed.
Lemma still_msgs {A : Type} p (f : S -> outcome E A * S) : still (on_msgs p f).
Proof. unfold on_msgs. quiet_steps. Qed.
Lemma still_deliver p : still (deliver e p).
Proof. unfold deliver. quiet_steps. Qed.
#[local] Hint Resolve still_start still_checkCase still_assign still_pubMsg still_msgs still_deliver : eff.
Lemma still_flush_one p : still (flush_one e p).
Proof. unfold flush_one. quiet_steps. Qed.
Lemma still_wait l : forall flush, still (wait_futures e l flush).
Proof. induction l as [|[p [x|]] l IH]; cbn [wait_futures]; quiet_steps; apply IH. Qed.
#[local] Hint Resolve still_flush_one still_wait : eff.

Lemma quiet_create nm sc : quiet (create unicode e nm sc).
Proof. unfold create. quiet_steps. Qed.
#[local] Hint Resolve quiet_create : eff.
Lemma quiet_createChannel nm i : quiet (createChannelLocked unicode e nm i).
Proof. unfold createChannelLocked. quiet_steps. Qed.
#[local] Hint Resolve quiet_createChannel : eff.
Lemma quiet_lookupOrCreate nm : quiet (lookupOrCreateChannel unicode e nm).
Proof. unfold lookupOrCreateChannel, createChannel. quiet_steps. Qed.
#[local] Hint Resolve quiet_lookupOrCreate : eff.
Lemma quiet_batch_msgs xs : forall batches, quiet (batch_msgs unicode e xs batches).
Proof. induction xs as [|x xs IH]; cbn [batch_msgs]; quiet_steps. Qed.
Lemma quiet_apply_batches l : forall futures, quiet (apply_batches e l futures).
Proof.
  induction l as [|[p batch] l IH]; cbn [apply_batches]; intros futures a; [apply keeps_ret|]. apply keeps_bind; [apply quiet_still, still_at|]. intros c s Hs.
  rewrite eff_get. pose proof (raft_quiet (PublishBatch (id c) batch) s) as Hq. destruct (raft_Apply e (PublishBatch (id c) batch) s) as [err s']. rewrite eff_modify. apply IH. cbn in Hq. congruence.
Qed.
#[local] Hint Resolve quiet_batch_msgs quiet_apply_batches : eff.
Lemma quiet_replicate xs : quiet (replicate unicode e xs).
Proof. unfold replicate. quiet_steps. Qed.
#[local] Hint Resolve quiet_replicate : eff.

(** So far only refusals have been sent. *)
Definition only_refusals (a : list (pub_answer E)) (s : stan) : Prop :=
  exists l, answers s = a ++ l /\ Forall (fun x => is_Some (pub_error x)) l.

Lemma refusals_quiet {A : Type} a (m : eff stan (chan_error E) A) : quiet m -> keeps (only_refusals a) m.
Proof. intros Hm s (l & Hl & Hf). exists l. split; [|done]. by apply Hm. Qed.
Lemma refusals_deny a x err : keeps (only_refusals a) (logErrAndSendPublishErr (D := D) (R := R) x err).
Proof.
  intros s (l & Hl & Hf). exists (l ++ [answer_to x (Some err)]). split; [cbn; by rewrite Hl, <- app_assoc|]. apply Forall_app. split; [done|].
  constructor; [by eexists|done].
Qed.
#[local] Hint Resolve refusals_deny : eff.
#[local] Hint Extern 3 (keeps (only_refusals _) _) => (apply refusals_quiet; solve [auto with eff]) : eff.

Lemma refusals_store xs : forall acc a, keeps (only_refusals a) (store_all unicode e xs acc).
Proof.
  induction xs as [|x xs IH]; cbn [store_all]; intros acc a; [apply keeps_ret|]. apply keeps_bind; [|intros; apply IH]. unfold store_one.
  apply keeps_bind; [apply refusals_quiet; unfold clock; quiet_steps|]. quiet_steps.
Qed.
Lemma refusals_sort xs : forall futures pending a, keeps (only_refusals a) (sort_out xs futures pending).
Proof. induction xs as [|x xs IH]; cbn [sort_out]; quiet_steps; apply IH. Qed.
#[local] Hint Resolve refusals_store refusals_sort : eff.

Lemma refusals_batch xs a : keeps (only_refusals a) (r ← storeIOPendingMsgs unicode e xs; _ ← each (flush_one e) (order r.2); mret r.1).
Proof.
  unfold storeIOPendingMsgs, replicate_all. quiet_steps; apply keeps_each; auto with eff.
Qed.

(** [C18] When a batch makes the server panic, because a store cannot be flushed or for any
    other reason, none of its messages has been acknowledged. *)
Theorem no_ack_when_flush_fails xs s s' : process_batch unicode e xs s = (Panic, s') -> only_refusals (answers s) s'.
Proof.
  set (first := r ← storeIOPendingMsgs unicode e xs; _ ← each (flush_one e) (order r.2); mret r.1). intros Hp.
  assert ((first ≫= each ackPublisher) s = (Panic, s')) as Hp'.
  { rewrite <- Hp. unfold first, process_batch. rewrite eff_assoc. unfold mbind, eff_bind. destruct (storeIOPendingMsgs unicode e xs s) as [[r| |] s1]; [|done|done].
    cbn. by destruct (each (flush_one e) (order r.2) s1) as [[| |] ?]. }
  pose proof (refusals_batch xs (answers s) s (ex_intro _ [] (conj (eq_sym (app_nil_r _)) (Forall_nil_2 _)))) as Hr. fold first in Hr.
  unfold mbind, eff_bind in Hp'. destruct (first s) as [[r|err|] s1]; [|done|by simplify_eq]. by rewrite ack_all_spec in Hp'.
Qed.

(** ** In a cluster *)

Lemma stays_create nm p nm' sc : nm <> nm' -> stays nm p (create unicode e nm' sc).
Proof.
  intros Hne. unfold create. quiet_steps. apply keeps_modify. intros s Hs. cbn. by rewrite lookup_insert_ne.
Qed.
Lemma stays_createChannel nm p nm' i : stays nm p (createChannelLocked unicode e nm' i).
Proof.
  intros s Hs. unfold createChannelLocked. rewrite eff_get. destruct (channels s !! nm') as [q|] eqn:Hq.
  - refine ((_ : stays nm p (_ : eff stan (chan_error E) ptr)) s Hs). quiet_steps.
  - assert (nm <> nm') as Hne by congruence. pose proof (fun sc => stays_create nm p nm' sc Hne) as Hc.
    refine ((_ : stays nm p (_ : eff stan (chan_error E) ptr)) s Hs). quiet_steps.
Qed.
Lemma stays_lookupOrCreate nm p nm' : stays nm p (lookupOrCreateChannel unicode e nm').
Proof. unfold lookupOrCreateChannel, createChannel. pose proof (stays_createChannel nm p). quiet_steps. Qed.
#[local] Hint Resolve stays_lookupOrCreate : eff.

Lemma keeps_run {A : Type} (I : stan -> Prop) (m : eff stan (chan_error E) A) s r s' : keeps I m -> m s = (r, s') -> I s -> I s'.
Proof. intros Hm Hr Hs. specialize (Hm s Hs). by rewrite Hr in Hm. Qed.

Lemma stays_run {A : Type} nm p (m : eff stan (chan_error E) A) s r s' :
  stays nm p m -> m s = (r, s') -> channels s !! nm = Some p -> channels s' !! nm = Some p.
Proof. apply (keeps_run (fun s => channels s !! nm = Some p)). Qed.

(** The channel that is returned is the channel of the name. *)
Lemma create_named nm sc s p s' : create unicode e nm sc s = (Ok p, s') -> channels s' !! nm = Some p.
Proof.
  unfold create. intros ([err|] & s1 & _ & Hr)%eff_bind_inv; [done|]. rewrite eff_get in Hr. cbn zeta in Hr. rewrite !eff_modify in Hr.
  apply eff_bind_inv in Hr as ([x|] & s2 & H2 & Hr); [|done]. apply eff_bind_inv in Hr as (u & s3 & H3 & [= <- <-]).
  eapply stays_run; [|exact H3|eapply stays_run; [|exact H2|apply lookup_insert_eq]]; quiet_steps.
Qed.
Lemma lookupOrCreate_named nm s p s' : lookupOrCreateChannel unicode e nm s = (Ok p, s') -> channels s' !! nm = Some p.
Proof.
  assert (forall q s1, channels s1 !! nm = Some q -> (c ← chan_at q; if deleting c then fail ErrChanDelInProgress else mret q) s1 = (Ok p, s') -> channels s' !! nm = Some p) as Hold.
  { intros q s1 Hq (c & s2 & H1 & H2)%eff_bind_inv. unfold chan_at in H1. destruct (chans s1 !! q); [|done]. injection H1 as -> ->.
    destruct (deleting c); [done|]. by injection H2 as <- <-. }
  unfold lookupOrCreateChannel, createChannel, createChannelLocked. rewrite eff_get. destruct (channels s !! nm) as [q|] eqn:Hq; [by apply Hold|].
  intros (u & s1 & _ & Hr)%eff_bind_inv. rewrite eff_get in Hr. destruct (channels s1 !! nm) as [q|] eqn:Hq1; [by eapply Hold|].
  apply eff_bind_inv in Hr as (u2 & s2 & _ & Hr). apply eff_bind_inv in Hr as (i & s3 & _ & Hr). apply eff_bind_inv in Hr as (sc & s4 & _ & Hr).
  destruct (create unicode e nm sc s4) as [[q|x|] s5] eqn:Hc; rewrite (eff_catch _ _ _ _ _ Hc) in Hr; [|by apply eff_bind_inv in Hr as (? & ? & _ & ?)|done].
  apply create_named in Hc. assert (q = p) as ->.
  { apply eff_bind_inv in Hr as (? & ? & _ & Hr). apply eff_bind_inv in Hr as (? & ? & _ & Hr). apply eff_bind_inv in Hr as (? & ? & _ & Hr). by injection Hr. }
  eapply stays_run; [|exact Hr|exact Hc]. quiet_steps.
Qed.

(** What of a message comes from the request. *)
Definition requested (x : ioPendingMsg) : string * string * list byte := (pm_Subject (pm x), pm_Reply (pm x), pm_Data (pm x)).
Definition content (msg : MsgProto) : string * string * list byte := (Subject msg, Reply msg, Data msg).

(** A request with the channel of its subject. *)
Definition to_channel (s : stan) (x z : ioPendingMsg) : Prop := exists p, z = set_c p x /\ channels s !! pm_Subject (pm x) = Some p.

Definition on_channel (p : ptr) (zs : list ioPendingMsg) : list ioPendingMsg := filter (fun z => c z = Some p) zs.

Lemma stays_batch_msgs nm p xs : forall batches, stays nm p (batch_msgs unicode e xs batches).
Proof. induction xs as [|x xs IH]; cbn [batch_msgs]; quiet_steps. Qed.

Lemma batch_msgs_spec xs : forall batches s r s',
  batch_msgs unicode e xs batches s = (Ok r, s') ->
  Forall2 (to_channel s') xs r.1 /\
  forall p, content <$> default [] (r.2 !! p) = (content <$> default [] (batches !! p)) ++ (requested <$> on_channel p r.1).
Proof.
  induction xs as [|x xs IH]; cbn [batch_msgs]; intros batches s r s' Hr.
  { injection Hr as <- <-. split; [constructor|]. intros p. by rewrite app_nil_r. }
  apply eff_bind_inv in Hr as (p & s1 & Hp%lookupOrCreate_named & Hr). apply eff_bind_inv in Hr as (c & s2 & H2 & Hr).
  apply eff_bind_inv in Hr as (msg & s3 & H3 & Hr). apply eff_bind_inv in Hr as (u & s4 & H4 & Hr). apply eff_bind_inv in Hr as (r1 & s5 & H5 & [= <- <-]).
  destruct (IH _ _ _ _ H5) as [Hz Hb]. cbn [fst snd]. split.
  - constructor; [|done]. exists p. split; [done|]. eapply stays_run; [apply stays_batch_msgs|exact H5|]. eapply stays_run; [|exact H4|]; [quiet_steps|].
    eapply stays_run; [|exact H3|]; [quiet_steps|]. eapply stays_run; [|exact H2|exact Hp]. quiet_steps.
  - assert (content msg = requested x) as Hm.
    { unfold pubMsgToMsgProto in H3. apply eff_bind_inv in H3 as (? & ? & _ & H3). apply eff_bind_inv in H3 as (? & ? & _ & H3). apply eff_bind_inv in H3 as (? & ? & _ & H3).
      by injection H3 as <- _. }
    intros q. rewrite Hb. unfold on_channel. destruct (decide (p = q)) as [->|Hne].
    + rewrite lookup_insert_eq, filter_cons_True by done. cbn [from_option Datatypes.id]. rewrite fmap_app, <- app_assoc. cbn. by rewrite Hm.
    + rewrite lookup_insert_ne, filter_cons_False by (cbn; congruence). done.
Qed.

Lemma apply_batches_spec l : forall futures s r s' p,
  apply_batches e l futures s = (Ok r, s') -> r !! p = Some None ->
  futures !! p = Some None \/ exists batch c s1, (p, batch) ∈ l /\ chans s1 !! p = Some c /\ (raft_Apply e (PublishBatch (id c) batch) s1).1 = None.
Proof.
  induction l as [|[q batch] l IH]; cbn [apply_batches]; intros futures s r s' p Hr Hp; [left; by injection Hr as <- <-|].
  apply eff_bind_inv in Hr as (c & s1 & H1 & Hr). unfold chan_at in H1. destruct (chans s !! q) as [c'|] eqn:Hc; [|done]. injection H1 as -> ->. rewrite eff_get in Hr.
  destruct (raft_Apply e (PublishBatch (id c) batch) s1) as [err s2] eqn:Ha. rewrite eff_modify in Hr.
  destruct (IH _ _ _ _ _ Hr Hp) as [Hi|(b & c2 & s3 & Hin & Hx)]; [|right; exists b, c2, s3; split; [by right|done]].
  destruct (decide (p = q)) as [->|Hne]; [|left; by rewrite lookup_insert_ne in Hi]. rewrite lookup_insert_eq in Hi. injection Hi as ->.
  right. exists batch, c, s1. split; [by left|]. by rewrite Ha.
Qed.

(** What became of a request: nothing, or replicated with an error or without. *)
Definition future_of (futures : gmap ptr (option E)) (z : ioPendingMsg) : option (option E) := c z ≫= (fun p => futures !! p).
Definition refusal (futures : gmap ptr (option E)) (z : ioPendingMsg) : option (pub_answer E) :=
  match future_of futures z with Some (Some err) => Some (answer_to z (Some (StoreFailed err))) | _ => None end.
Definition accepted (futures : gmap ptr (option E)) (z : ioPendingMsg) : option ioPendingMsg :=
  match future_of futures z with Some None => Some z | _ => None end.

Lemma sort_out_spec zs futures : forall pending (s : stan) r (s' : stan),
  sort_out zs futures pending s = (Ok r, s') ->
  Forall (fun z => is_Some (future_of futures z)) zs /\
  r = pending ++ omap (accepted futures) zs /\
  answers s' = answers s ++ omap (refusal futures) zs.
Proof.
  induction zs as [|z zs IH]; cbn [sort_out]; intros pending s r s' Hr.
  { injection Hr as <- <-. by rewrite !app_nil_r. }
  fold (future_of futures z) in Hr. cbn [omap list_omap]. unfold refusal at 1, accepted at 1. destruct (future_of futures z) as [[err|]|] eqn:Hz; [| |done].
  - apply eff_bind_inv in Hr as (u & s1 & [= <- <-] & Hr). destruct (IH _ _ _ _ Hr) as (H1 & H2 & H3).
    split_and!; [constructor; [by rewrite Hz|done]|done|]. rewrite H3. cbn. by rewrite <- app_assoc.
  - destruct (IH _ _ _ _ Hr) as (H1 & H2 & H3).
    split_and!; [constructor; [by rewrite Hz|done]| |done]. by rewrite H2, <- app_assoc.
Qed.

Lemma deny_all_spec err xs : forall s : stan,
  each (fun x => logErrAndSendPublishErr x err) xs s = (Ok tt, set_answers (answers s ++ ((fun x => answer_to x (Some err)) <$> xs)) s).
Proof.
  induction xs as [|x xs IH]; intros s; cbn [each fmap list_fmap]; [rewrite app_nil_r; by destruct s|].
  rewrite (eff_bind_Ok _ _ s tt (set_answers (answers s ++ [answer_to x (Some err)]) s) eq_refl), IH. cbn. by rewrite <- app_assoc.
Qed.

(** [C36] In a cluster, a message is acknowledged only when Raft has applied its entry.  When a
    batch comes to its end, either one of its requests could not get a channel, and all
    requests have been refused with that error; or each request has its channel, the
    requests that were not replicated have been refused, and then the others have been
    acknowledged, in the order of the batch and once each.  For each channel with
    acknowledged requests Raft has applied one entry without an error: the messages of all
    requests of the batch for that channel, in their order. *)
Theorem replicated_before_ack xs s s' :
  isClustered (sub_env e) = true -> process_batch unicode e xs s = (Ok tt, s') ->
  (exists err, (replicate unicode e xs s).1 = Err err /\ answers s' = answers s ++ ((fun x => answer_to x (Some err)) <$> xs)) \/
  exists zs futures s1, Forall2 (to_channel s1) xs zs /\ Forall (fun z => is_Some (future_of futures z)) zs /\
    answers s' = answers s ++ omap (refusal futures) zs
      ++ ((fun z => answer_to z None) <$> omap (accepted futures) zs) /\
    forall p, futures !! p = Some None -> exists batch c s2,
      content <$> batch = requested <$> on_channel p zs /\ chans s2 !! p = Some c /\ (raft_Apply e (PublishBatch (id c) batch) s2).1 = None.
Proof.
  intros Hcl. unfold process_batch, storeIOPendingMsgs, replicate_all. rewrite Hcl. intros (r & s1 & H1 & H2)%eff_bind_inv.
  apply eff_bind_inv in H2 as (u & s2 & Hfl & H2). rewrite ack_all_spec in H2. injection H2 as <-.
  assert (answers s2 = answers s1) as ->.
  { eapply (keeps_run (fun s => answers s = answers s1)); [|exact Hfl|done]. apply keeps_each. auto with eff. }
  destruct (replicate unicode e xs s) as [[[zs futures]|err|] s3] eqn:Hrep; rewrite (eff_catch _ _ _ _ _ Hrep) in H1; [right|left|done].
  2:{ exists err. split; [done|]. assert (answers s3 = answers s) as Ha by (eapply (keeps_run (fun s0 => answers s0 = answers s)); [|exact Hrep|done]; auto with eff).
      apply eff_bind_inv in H1 as (v & s4 & H3 & [= <- <-]). rewrite deny_all_spec in H3. injection H3 as <- <-. cbn. by rewrite Ha, app_nil_r. }
  assert (answers s3 = answers s) as Ha by (eapply (keeps_run (fun s0 => answers s0 = answers s)); [|exact Hrep|done]; auto with eff).
  apply eff_bind_inv in H1 as (fl & s4 & H3 & H1). apply eff_bind_inv in H1 as (pend & s5 & H4 & [= <- <-]).
  assert (answers s4 = answers s3) as Hb by (eapply (keeps_run (fun s0 => answers s0 = answers s3)); [|exact H3|done]; auto with eff).
  destruct (sort_out_spec _ _ _ _ _ _ H4) as (F1 & -> & F3). unfold replicate in Hrep.
  apply eff_bind_inv in Hrep as ([zs' bs] & s6 & H5 & Hrep). apply eff_bind_inv in Hrep as (fs & s7 & H6 & [= <- <- <-]). destruct (batch_msgs_spec _ _ _ _ _ H5) as [G1 G2].
  exists zs', fs, s6. split_and!; [done|done| |].
  - cbn. by rewrite F3, Hb, Ha, <- app_assoc.
  - intros p Hp. destruct (apply_batches_spec _ _ _ _ _ _ H6 Hp) as [?|(batch & c & s8 & Hin & Hx)]; [done|]. exists batch, c, s8. split; [|done].
    apply elem_of_range in Hin. specialize (G2 p). cbn [fst snd] in *. rewrite Hin, lookup_empty in G2. exact G2.
Qed.
End Panic.
End PublishPanic.
