(* ===== verification/PublishCases.v ===== *)
(** * Servers with a memory store, and concrete runs

    The memory store discharges what the publish loop relies on.  The runs show the theorems
    at work, and what happens to the sequences of a clustered server when one of the requests
    of a batch is refused. *)

From Stdlib Require Import ZArith Lia Ascii String.
From stdpp Require Import base list gmap strings.
From S2P Require Import Prelude GoLib Limits Effects MemStore MsgStore GenericStore SubState Delivery SubStore DeliveryTotal ChannelStore ChannelStoreSpec PublishLoop PublishSpec PublishPanic.

Local Open Scope Z_scope.

(** ** The memory store *)

Module MemoryServer.
Section Memory.
Context `{!RangeOrder string} (Size : MsgProto -> Z).

Inductive memory_error := CreateFailed (e : store_error) | DeleteFailed.

Definition memory := @Generic.genericStore Mem.MemoryMsgStore SubStore.genericSubStore.

Definition close_msgs (ms : Mem.MemoryMsgStore) : Mem.MemoryMsgStore * option Empty_set := (Mem.Close ms, None).
Definition close_subs (s : SubStore.genericSubStore) : SubStore.genericSubStore * option Empty_set := (s, None).

#[export] Instance memory_stores : Stores memory Mem.MemoryMsgStore memory_error := {|
  CreateChannel nm d :=
    match MemoryStore.CreateChannel d nm with
    | (inl c, d') => (Ok (Generic.Msgs c), d')
    | (inr x, d') => (Err (CreateFailed x), d')
    end;
  DeleteChannel nm d :=
    match Generic.DeleteChannel close_msgs close_subs d nm with
    | (d', None) => (Ok tt, d')
    | (d', Some _) => (Err DeleteFailed, d')
    end;
  GetChannelLimits nm d := let '(cl, d') := Generic.GetChannelLimits d nm in (MaxInactivity <$> cl, d')
|}.

Lemma memory_stores_spec : @StoresSpec memory Mem.MemoryMsgStore memory_error _ (memory_store_spec Size) _.
Proof.
  split.
  - intros nm d. cbn. by destruct (MemoryStore.CreateChannel d nm) as [[|] ?].
  - intros nm d. cbn. by destruct (Generic.DeleteChannel close_msgs close_subs d nm) as [? [|]].
  - intros nm d sc d' Hc. cbn in Hc |- *. unfold MemoryStore.CreateChannel, Generic.CreateChannel in Hc. destruct (Generic.canAddChannel d nm); [done|].
    destruct (Generic.getChannelLimits d nm) as [cl g]. injection Hc as <- <-. split; [by split_and!|].
    unfold Generic.GetChannelLimits. cbn. rewrite lookup_insert_eq. destruct (Generic.getChannelLimits _ nm) as [cl' g']. by eexists _, _.
Qed.
End Memory.
End MemoryServer.

(** ** Runs *)

Module PublishSample.
Import Sub Reg Chan DlvTotal ChanSpec Publish PublishSpec PublishPanic MemoryServer.

#[local] Instance names_order : RangeOrder string := default_order string.
#[local] Instance ptr_order : RangeOrder ptr := default_order ptr.

Definition data_size (m : MsgProto) : Z := Z.of_nat (length (Data m)).
#[local] Existing Instance memory_stores_spec.
#[local] Instance sample_store_spec : MsgStoreSpec Mem.MemoryMsgStore := memory_store_spec data_size.
#[local] Instance sample_log : MsgLog Mem.MemoryMsgStore memory_error := memory_log data_size memory_error.
#[local] Instance sample_log_spec : MsgLogSpec Mem.MemoryMsgStore memory_error := memory_log_spec data_size memory_error.
#[local] Instance sample_stores_spec : StoresSpec memory Mem.MemoryMsgStore memory_error := memory_stores_spec data_size.

(** The identifiers of channels, with a log of seven entries. *)
#[local] Instance sample_raft : RaftStore (gmap string Z) memory_error := {|
  LastIndex _ := Ok 7;
  SetChannelID nm i r := (Ok tt, <[nm := i]> r);
  DeleteChannelID nm r := (Ok tt, delete nm r)
|}.

Abbreviation stan := (@stan Mem.MemoryMsgStore memory (gmap string Z) memory_error).
Abbreviation environment := (@environment Mem.MemoryMsgStore memory (gmap string Z) memory_error).

(** Channels may be inactive for 10 units of time. *)
Definition sample_memory : memory :=
  match MemoryStore.NewMemoryStore (Some (mkStoreLimits 5 (mkChannelLimits 2 0 0 0 10) ∅)) with
  | Ok (d, _) => d
  | _ => Generic.mkGenericStore false DefaultStoreLimits Sublist.NewSublist ∅
  end.

Definition empty_server : stan := mkStan ∅ ∅ ∅ sample_memory ∅ (mkServer ∅ ∅ ∅ ∅ false [] []) 0 [].

Definition delivery_env (clustered : bool) : env :=
  mkEnv (fun n => Z.of_nat n) (fun _ => false) (fun _ => false) clustered (fun _ => [Ascii.zero]).

Definition env_with (clustered : bool) (fails : nat -> option memory_error) : environment :=
  mkEnvironment (delivery_env clustered) true (fun n => mkReading (100 + Z.of_nat (min n 1000)) (Z.of_nat n)) (fun _ => None) fails (fun _ s => (None, s)).

Definition alone : environment := env_with false (fun _ => None).
Definition same (l : list ascii) : list ascii := l.

Definition request (guid nm : string) : ioPendingMsg :=
  mkPending (mkNatsMsg "pub" guid []) (mkPubMsg "me" guid nm "" [Ascii.zero] "") None false None.

Definition batch : list ioPendingMsg := [request "a" "foo"; request "b" "bar"; request "c" "Foo"; request "d" "foo"].

Lemma empty_ok : state_ok same ∅ empty_server.
Proof. split; by intros; cbn in *; simplify_map_eq. Qed.

Lemma alone_times n : 0 < wall_now (clocks alone n) < two63.
Proof. cbn. unfold two63. lia. Qed.
Lemma alone_marshals m : 0 < Sequence m -> marshal (sub_env alone) m <> [].
Proof. done. Qed.

Lemma room_empty n : Z.of_nat n <= 1000 -> room 1000 n ∅.
Proof. intros Hn. split; [done|]. intros nm w Hw. by rewrite lookup_empty in Hw. Qed.

Lemma batch_acceptable l : Forall (acceptable (E := memory_error) 1000) l.
Proof. apply Forall_forall. by intros x _ seq ts. Qed.

Lemma publish_durable_before_ack_witness :
  exists rs a' s', process_batch same alone batch empty_server = (Ok tt, s') /\ served_all same alone (marked empty_server) ∅ batch rs a' /\
    answers s' = [] ++ denials batch rs ++ ((fun x => answer_to x None) <$> ackeds batch rs) /\
    (forall x m, (x, Acked m) ∈ zip batch rs -> exists p c w, channels s' !! pm_Subject (pm x) = Some p /\ chans s' !! p = Some c /\
       durable (msgs c) w /\ kept m w).
Proof.
  destruct (publish_durable_before_ack same alone eq_refl alone_marshals alone_times 1000 ltac:(by vm_compute) ∅ empty_server batch empty_ok
    (room_empty 4 ltac:(done)) (batch_acceptable _)) as (rs & a' & r & s' & E1 & Sv & Hr).
  assert (r = Ok tt) as -> by (change r with (r, s').1; rewrite <- E1; vm_compute; reflexivity).
  destruct Hr as (_ & An & Hd). exists rs, a', s'. auto.
Defined.

(** The third request is refused for its case; it is answered first. *)
Lemma batch_answers :
  answers (process_batch same alone batch empty_server).2 =
  [mkAnswer "c" "c" (Some (ErrDifferentCase "Foo" "foo")); mkAnswer "a" "a" None; mkAnswer "b" "b" None; mkAnswer "d" "d" None].
Proof. vm_compute. reflexivity. Qed.

Definition after_batch : stan := (process_batch same alone batch empty_server).2.

(** The messages of the batch again, with a request to delete the channel of "foo" between. *)
Definition later : list ioPendingMsg := [request "e" "foo"; sendDeleteChannelRequest 0; request "f" "bar"; request "g" "foo"].

Lemma every_request_answered_witness :
  exists a mx s' a' evs, ioLoop same alone 1024 0 (fun _ s => s) later [2%nat; 7%nat] after_batch = (Ok mx, s') /\ state_ok same a' s' /\ history same alone (marked after_batch) a evs a' /\
    requests evs = filter (fun x => dc x = false) later /\ answers s' ≡ₚ answers after_batch ++ replies evs.
Proof.
  destruct (process_batch_spec same alone eq_refl alone_marshals alone_times 1000 ltac:(by vm_compute) ∅ empty_server batch empty_ok
    (room_empty 4 ltac:(done)) (batch_acceptable _)) as (rs & a & r & s1 & E1 & Sv & Hr).
  assert (r = Ok tt) as -> by (change r with (r, s1).1; rewrite <- E1; vm_compute; reflexivity). destruct Hr as [G1 _].
  assert (s1 = after_batch) as -> by (unfold after_batch; by rewrite E1). exists a.
  apply (every_request_answered same alone eq_refl alone_marshals alone_times 1000 ltac:(by vm_compute) ltac:(done) 1024 0 (fun _ s => s) a after_batch later [2%nat; 7%nat] G1).
  - eapply (room_served_all same alone 1000 (marked empty_server) 4 ∅ batch rs); [done|by apply room_empty].
  - repeat (apply Forall_cons; split); try apply Forall_nil_2; (split; [done|]); cbn [dc later request sendDeleteChannelRequest];
      try (by intros seq ts). exists 0%nat. split; [done|]. vm_compute. eexists. split; [done|by eexists].
Defined.

(** A subscription store that cannot be flushed. *)
Definition broken : environment := env_with false (fun _ => Some DeleteFailed).

Lemma no_ack_when_flush_fails_witness :
  (process_batch same broken batch empty_server).1 = Panic /\ only_refusals [] (process_batch same broken batch empty_server).2.
Proof.
  split; [by vm_compute|]. apply (no_ack_when_flush_fails same broken (fun _ _ => eq_refl) batch empty_server). by vm_compute.
Defined.

(** Two messages of one channel are replicated in one entry. *)
Definition in_cluster : environment := env_with true (fun _ => None).

Lemma replicated_before_ack_witness :
  exists s', process_batch same in_cluster [request "a" "foo"; request "b" "foo"] empty_server = (Ok tt, s') /\
    answers s' = [mkAnswer "a" "a" None; mkAnswer "b" "b" None] /\
    exists zs (futures : gmap ptr (option memory_error)) (s1 : stan), Forall2 (to_channel s1) [request "a" "foo"; request "b" "foo"] zs /\
      forall p, futures !! p = Some None -> exists batch c s2,
        content <$> batch = requested <$> on_channel p zs /\ chans s2 !! p = Some c /\ (raft_Apply in_cluster (PublishBatch (id c) batch) s2).1 = None.
Proof.
  eexists. split; [vm_compute; reflexivity|]. split; [vm_compute; reflexivity|].
  destruct (replicated_before_ack same in_cluster (fun _ _ => eq_refl) [request "a" "foo"; request "b" "foo"] empty_server
    (process_batch same in_cluster [request "a" "foo"; request "b" "foo"] empty_server).2) as [(err & He & _)|(zs & futures & s1 & H1 & _ & _ & H2)].
  - reflexivity.
  - vm_compute. reflexivity.
  - exfalso. revert He. vm_compute. discriminate.
  - exists zs, futures, s1. split; [exact H1|exact H2].
Defined.

(** A run.  In a cluster, a request of a batch that is refused makes all requests of the batch
    fail, but the sequences that the others had been given are not taken back: the next
    message of their channel leaves a gap. *)
Theorem refused_batch_loses_sequences :
  let s' := (process_batch same (env_with true (fun _ => None)) [request "a" "foo"; request "c" "Foo"] empty_server).2 in
  answers s' = [mkAnswer "a" "a" (Some (ErrDifferentCase "Foo" "foo")); mkAnswer "c" "c" (Some (ErrDifferentCase "Foo" "foo"))] /\
  (fun c => (nextSequence c, LastSequence (msgs c))) <$> (chans s' !! 0%nat) = Some (2, 0).
Proof. vm_compute. done. Qed.
End PublishSample.
