(* ===== verification/ChannelDelete.v ===== *)
(** * Deleting inactive channels against subscribing

    A channel is deleted in two steps of the publish loop, each under the lock of the
    channels: it is marked, then removed.  A subscription is created by another goroutine, in
    steps between these: the channel is looked up and protected, the subscription is added,
    the protection is lifted.  However the steps are interleaved, with publishing,
    unsubscribing and timers, a channel that has an active subscription, or is about to get
    one, is not deleted. *)

From Stdlib Require Import ZArith Lia Ascii String.
From stdpp Require Import base list gmap strings.
From S2P Require Import Prelude GoLib Effects MemStore MsgStore SubState Delivery SubStore DeliveryTotal ChannelStore ChannelStoreSpec PublishLoop PublishSpec PublishCases.

Local Open Scope Z_scope.

Module ChanDelete.
Import Sub Reg Chan DlvTotal ChanSpec Publish.

Section Delete.
Context {S D R E : Type} `{MsgStoreSpec S} `{!MsgLog S E} `{!Stores D S E} `{!RaftStore R E}.
Context `{!RangeOrder string}.
Context (unicode : list ascii -> list ascii).
Context (e : @environment S D R E).
Context (standalone : isClustered (sub_env e) = false).
Context (marshals : forall m, 0 < Sequence m -> marshal (sub_env e) m <> []).

Abbreviation stan := (@stan S D R E).
Abbreviation channel := (@channel S).

Definition prevented (c : channel) : bool := match activity c with Some a => preventDelete a | None => false end.

(** ** Steps *)

(** The server, the channel that the publish loop is about to remove, and the one on which a
    subscription is being created: requests to subscribe are handled one at a time. *)
Record config := mkConfig { srv : stan; removing : option ptr; subscribing : option ptr }.

(** The registry of the channel [p] is changed: the other channels keep their subscriptions. *)
Definition registry_changed (s : stan) (p : ptr) (st' : server) : Prop :=
  forall p' c', p' <> p -> chans s !! p' = Some c' -> hasActiveSubs (ss c', st') = is_active c' s.

Inductive step : config -> config -> Prop :=
| step_lookup s rm sb nm r s' :
    lookupOrCreateChannel unicode e nm s = (r, s') -> step (mkConfig s rm sb) (mkConfig s' rm sb)
| step_stamp s rm sb p pm seq r s' :
    pubMsgToMsgProto e p pm seq s = (r, s') -> step (mkConfig s rm sb) (mkConfig s' rm sb)
| step_msgs s rm sb p (A : Type) (f : S -> outcome E A * S) r s' :
    on_msgs p f s = (r, s') -> step (mkConfig s rm sb) (mkConfig s' rm sb)
| step_next s rm sb p n r s' :
    update_chan p (set_nextSequence n) s = (r, s') -> step (mkConfig s rm sb) (mkConfig s' rm sb)
| step_deliver s rm sb p c w r s' :
    chans s !! p = Some c -> view (msgs c) w -> heap_ok (ss c) (subscriptions s) ->
    deliver e p s = (r, s') -> step (mkConfig s rm sb) (mkConfig s' rm sb)
| step_last s rm sb p t r s' :
    update_activity p (set_last t) s = (r, s') -> step (mkConfig s rm sb) (mkConfig s' rm sb)
| step_decide s sb p b s' :
    decide_delete e p s = (Ok b, s') -> step (mkConfig s None sb) (mkConfig s' (if b then Some p else None) sb)
| step_delete s sb p c r s' :
    chans s !! p = Some c -> processDeleteChannel unicode e (name c) s = (r, s') ->
    step (mkConfig s (Some p) sb) (mkConfig s' None sb)
| step_subscribe s rm nm p b s' :
    lookupOrCreateChannelPreventDelete unicode e nm s = (Ok (p, b), s') -> step (mkConfig s rm None) (mkConfig s' rm (Some p))
| step_refused s rm nm err s' :
    lookupOrCreateChannelPreventDelete unicode e nm s = (Err err, s') -> step (mkConfig s rm None) (mkConfig s' rm None)
| step_add s rm p c ss' st' :
    chans s !! p = Some c -> registry_changed s p st' ->
    step (mkConfig s rm (Some p)) (mkConfig (set_subscriptions st' (put p (set_ss ss' c) s)) rm (Some p))
| step_lift s rm p r s' :
    turnOffPreventDelete (Some p) s = (r, s') -> step (mkConfig s rm (Some p)) (mkConfig s' rm None)
| step_unsubscribe s rm sb p c ss' st' :
    chans s !! p = Some c -> registry_changed s p st' -> (hasActiveSubs (ss', st') = true -> is_active c s = true) ->
    step (mkConfig s rm sb) (mkConfig (set_subscriptions st' (put p (set_ss ss' c) s)) rm sb)
| step_timer s rm sb nm c r s' :
    maybeStartChannelDeleteTimer e nm c s = (r, s') -> step (mkConfig s rm sb) (mkConfig s' rm sb).

(** ** The invariant *)

Record safe_channels (s : stan) (rm sb : option ptr) : Prop := {
  sc_names nm p : channels s !! nm = Some p -> exists c, chans s !! p = Some c /\ name c = nm;
  sc_stale p c : chans s !! p = Some c -> channels s !! name c = Some p \/ deleting c = true;
  sc_marked p c : chans s !! p = Some c -> deleting c = true -> prevented c = false /\ is_active c s = false;
  sc_removing p : rm = Some p -> exists c, chans s !! p = Some c /\ deleting c = true /\ channels s !! name c = Some p;
  sc_subscribing p : sb = Some p -> exists c, chans s !! p = Some c /\ deleting c = false /\ (is_Some (activity c) -> prevented c = true)
}.

(** *** Changes of one channel *)

(** A channel that keeps its name, and how much of its state matters here. *)
Record alike (c c' : channel) : Prop := {
  al_name : name c' = name c;
  al_ss : ss c' = ss c;
  al_deleting : deleting c' = deleting c;
  al_prevented : prevented c' = prevented c;
  al_activity : is_Some (activity c') <-> is_Some (activity c)
}.

Lemma safe_frame s s' rm sb :
  chans s' = chans s -> channels s' = channels s -> subscriptions s' = subscriptions s -> safe_channels s rm sb -> safe_channels s' rm sb.
Proof. intros E1 E2 E3 []. unfold is_active in *. split; rewrite ?E1, ?E2; unfold is_active; rewrite ?E3; done. Qed.

(** Flags may change too, as long as the channel that is being removed stays marked, and the
    one that is being subscribed to stays protected. *)
Lemma safe_change s rm rm' sb sb' p c c' :
  safe_channels s rm sb -> chans s !! p = Some c -> name c' = name c -> ss c' = ss c ->
  (deleting c' = true -> deleting c = true /\ prevented c' = false) ->
  (deleting c = true -> deleting c' = true \/ channels s !! name c = Some p) ->
  (rm' = None \/ rm' = rm /\ (rm = Some p -> deleting c' = true)) ->
  (forall q, sb' = Some q -> (q = p /\ deleting c' = false /\ (is_Some (activity c') -> prevented c' = true)) \/ (q <> p /\ sb = Some q)) ->
  safe_channels (put p c' s) rm' sb'.
Proof.
  intros [I1 I2 I3 I4 I5] Hc L1 L2 Hmark Hunmark Hrm Hsb. split; cbn.
  - intros nm q Hq. destruct (I1 nm q Hq) as (x & Hx & Hn). destruct (decide (q = p)) as [->|Hne]; [exists c'|exists x].
    + rewrite lookup_insert_eq. split; [done|]. rewrite L1. congruence.
    + by rewrite lookup_insert_ne.
  - intros q x [[<- <-]|[_ Hx]]%lookup_insert_Some; [|by apply I2]. rewrite L1. destruct (I2 p c Hc) as [?|[?|?]%Hunmark]; auto.
  - intros q x [[<- <-]|[_ Hx]]%lookup_insert_Some; [|by apply (I3 q)]. intros [Hd Hp]%Hmark. split; [done|]. unfold is_active. cbn. rewrite L2. by apply (I3 p).
  - intros q ->. destruct Hrm as [?|[<- Hrm]]; [done|]. destruct (I4 q eq_refl) as (x & Hx & Hd & Hl). destruct (decide (q = p)) as [->|Hne]; [|exists x; by rewrite lookup_insert_ne].
    exists c'. rewrite lookup_insert_eq, L1. simplify_eq. split_and!; [done|by apply Hrm|done].
  - intros q [(-> & Hd & Hp)|[Hne Hq]]%Hsb; [exists c'; by rewrite lookup_insert_eq|]. destruct (I5 q Hq) as (x & Hx & Hd & Hp). exists x. by rewrite lookup_insert_ne.
Qed.

Lemma safe_put s rm sb p c c' :
  safe_channels s rm sb -> chans s !! p = Some c -> alike c c' -> safe_channels (put p c' s) rm sb.
Proof.
  intros I Hc [L1 L2 L3 L4 L5]. eapply safe_change; [done|done|done|done| | | |].
  - rewrite L3, L4. intros Hd. split; [done|]. by eapply (sc_marked _ _ _ I).
  - rewrite L3. by left.
  - right. split; [done|]. intros ->. destruct (sc_removing _ _ _ I p eq_refl) as (x & Hx & Hd & _). simplify_eq. congruence.
  - intros q Hq. destruct (decide (q = p)) as [->|Hne]; [left|right; done]. destruct (sc_subscribing _ _ _ I p Hq) as (x & Hx & Hd & Hp). simplify_eq.
    split; [done|]. rewrite L3, L4, L5. done.
Qed.

(** The registry of a channel that is not marked, or that gets no subscription. *)
Lemma safe_registry s rm sb p c ss' st' :
  safe_channels s rm sb -> chans s !! p = Some c -> registry_changed s p st' ->
  (deleting c = true -> hasActiveSubs (ss', st') = false) -> safe_channels (set_subscriptions st' (put p (set_ss ss' c) s)) rm sb.
Proof.
  intros [I1 I2 I3 I4 I5] Hc Hreg Hact. split; cbn.
  - intros nm q Hq. destruct (I1 nm q Hq) as (x & Hx & Hn). destruct (decide (q = p)) as [->|Hne]; [|exists x; by rewrite lookup_insert_ne].
    exists (set_ss ss' c). rewrite lookup_insert_eq. split; [done|]. cbn. congruence.
  - intros q x [[<- <-]|[_ Hx]]%lookup_insert_Some; [|by apply I2]. exact (I2 p c Hc).
  - intros q x [[<- <-]|[Hne Hx]]%lookup_insert_Some Hd.
    + split; [exact (proj1 (I3 p c Hc Hd))|]. exact (Hact Hd).
    + destruct (I3 q x Hx Hd) as [? Ha]. split; [done|]. unfold is_active. cbn. by rewrite (Hreg q x ltac:(done) Hx).
  - intros q Hq. destruct (I4 q Hq) as (x & Hx & Hd & Hl). destruct (decide (q = p)) as [->|Hne]; [|exists x; by rewrite lookup_insert_ne].
    exists (set_ss ss' c). rewrite lookup_insert_eq. simplify_eq. done.
  - intros q Hq. destruct (I5 q Hq) as (x & Hx & Hd & Hp). destruct (decide (q = p)) as [->|Hne]; [|exists x; by rewrite lookup_insert_ne].
    exists (set_ss ss' c). rewrite lookup_insert_eq. simplify_eq. done.
Qed.

(** *** New channels *)

Inductive grown (nm : string) (s s' : stan) : option ptr -> Prop :=
| grown_same : chans s' = chans s -> channels s' = channels s -> subscriptions s' = subscriptions s -> grown nm s s' None
| grown_new p c :
    chans s !! p = None -> channels s !! nm = None -> chans s' = <[p := c]> (chans s) -> channels s' = <[nm := p]> (channels s) ->
    subscriptions s' = subscriptions s -> name c = nm -> ss c = createSubStore -> deleting c = false -> prevented c = false ->
    grown nm s s' (Some p).

Lemma safe_grown nm s s' o rm sb : grown nm s s' o -> safe_channels s rm sb -> safe_channels s' rm sb.
Proof.
  destruct 1 as [E1 E2 E3|p c Hp Hnm E1 E2 E3 Hn Hs Hd Hpr]; intros I; [by apply (safe_frame s)|]. destruct I as [I1 I2 I3 I4 I5].
  assert (forall q x, chans s !! q = Some x -> q <> p) as Hne by congruence. split; rewrite ?E1, ?E2.
  - intros nm' q [[<- <-]|[Hx Hq]]%lookup_insert_Some; [exists c; by rewrite lookup_insert_eq|]. destruct (I1 nm' q Hq) as (x & Hx' & ?). exists x.
    rewrite lookup_insert_ne by (intros ->; congruence). done.
  - intros q x [[<- <-]|[Hx Hq]]%lookup_insert_Some; [left; rewrite <- Hn; by rewrite lookup_insert_eq|]. destruct (I2 q x Hq) as [?|?]; [left|by right].
    rewrite lookup_insert_ne; [done|]. congruence.
  - intros q x [[<- <-]|[Hx Hq]]%lookup_insert_Some Hd'; [congruence|]. unfold is_active. rewrite E3. by apply (I3 q).
  - intros q Hq. destruct (I4 q Hq) as (x & Hx & Hd' & Hl). exists x. rewrite lookup_insert_ne by (intros ->; congruence). split_and!; [done|done|].
    rewrite lookup_insert_ne by congruence. done.
  - intros q Hq. destruct (I5 q Hq) as (x & Hx & ?). exists x. rewrite lookup_insert_ne by (intros ->; congruence). done.
Qed.

Lemma create_effect nm sc s r s' :
  channels s !! nm = None -> create unicode e nm sc s = (r, s') ->
  exists o, grown nm s s' o /\ forall p, r = Ok p -> o = Some p.
Proof.
  intros Hnm. unfold create. rewrite (eff_bind_Ok _ _ _ _ _ (run_ask (LastSequence_fails e) s)). set (s0 := set_asked (asked s + 1) s).
  destruct (LastSequence_fails e (asked s)) as [x|]; [intros [= <- <-]; exists None; split; [by constructor|done]|].
  rewrite eff_get. set (p := fresh (dom (chans s0))). set (c := mkChannel _ _ _ _ _ _ _ _ _ _). rewrite !eff_modify. set (s1 := set_names _ _ _).
  assert (chans s !! p = None) as Hp by (change (chans s) with (chans s0); apply not_elem_of_dom, is_fresh).
  unfold on_store at 1. unfold mbind at 1, eff_bind at 1. destruct (GetChannelLimits nm (store s1)) as [[z|] d] eqn:Ez; cbn [fst snd]; rewrite ?Ez.
  2:{ intros [= <- <-]. exists (Some p). split; [by econstructor|done]. }
  assert (chans (set_store d s1) !! p = Some c) as Hc by apply lookup_insert_eq. unfold when. destruct (0 <? z).
  - rewrite (eff_bind_Ok _ _ _ _ _ (run_update p _ c (set_store d s1) Hc)). intros [= <- <-]. exists (Some p). split; [|by intros ? [= <-]].
    econstructor; [done|done|cbn; by rewrite insert_insert_eq|done|done|done|done|done|done].
  - intros [= <- <-]. exists (Some p). split; [by econstructor|by intros ? [= <-]].
Qed.

Lemma checkCase_effect nm (s : stan) : exists r, checkCase unicode nm s = (r, s).
Proof.
  unfold checkCase. rewrite eff_get. destruct (channelsLC s !! _) as [p|]; [|by eexists]. unfold chan_at, mbind, eff_bind.
  destruct (chans s !! p); by eexists.
Qed.

Lemma grown_update nm s s1 p c c' s' :
  grown nm s s1 (Some p) -> chans s1 !! p = Some c -> alike c c' -> chans s' = <[p := c']> (chans s1) -> channels s' = channels s1 ->
  subscriptions s' = subscriptions s1 -> grown nm s s' (Some p).
Proof.
  intros G Hc [L1 L2 L3 L4 _] F1 F2 F3. inversion G as [|q x Hp Hnm E1 E2 E3 Hn Hs Hd Hpr]; subst. rewrite E1, lookup_insert_eq in Hc. simplify_eq.
  econstructor; [done|done|by rewrite F1, E1, insert_insert_eq|by rewrite F2|by rewrite F3|congruence..].
Qed.

Lemma grown_frame nm s s1 s' o :
  grown nm s s1 o -> chans s' = chans s1 -> channels s' = channels s1 -> subscriptions s' = subscriptions s1 -> grown nm s s' o.
Proof. intros [] F1 F2 F3; [constructor|econstructor]; try done; congruence. Qed.
Lemma grown_frame_l nm s s1 s' o :
  grown nm s1 s' o -> chans s1 = chans s -> channels s1 = channels s -> subscriptions s1 = subscriptions s -> grown nm s s' o.
Proof. intros [] F1 F2 F3; [constructor|econstructor]; try done; congruence. Qed.

Lemma alike_id i c : alike c (set_id i c).
Proof. by split. Qed.
Lemma alike_started s a c : activity c = Some a -> alike c (set_activity (Some (started e s a)) c).
Proof.
  intros Ha. assert (is_Some (activity c)) by (rewrite Ha; by eexists). split; unfold deleting, prevented; cbn; rewrite ?Ha; done.
Qed.

Lemma createChannelLocked_effect nm s r s' :
  channels s !! nm = None -> createChannelLocked unicode e nm 0 s = (r, s') ->
  exists o, grown nm s s' o /\ forall p, r = Ok p -> o = Some p.
Proof.
  intros Hnm. unfold createChannelLocked. rewrite eff_get, Hnm. destruct (checkCase_effect nm s) as [rc Ec].
  destruct rc as [[]|x|]; [|unfold mbind at 1, eff_bind at 1; rewrite Ec; intros [= <- <-]; exists None; split; [by constructor|done]..].
  rewrite (eff_bind_Ok _ _ _ _ _ Ec). unfold assign_id. rewrite standalone, (eff_bind_Ok (mret 0) _ s 0 s eq_refl).
  unfold on_store at 1, mbind at 1, eff_bind at 1. destruct (CreateChannel nm (store s)) as [[sc|x|] d]; [|intros [= <- <-]; exists None; split; [by constructor|done]..].
  set (s1 := set_store d s). destruct (create unicode e nm sc s1) as [r2 s2] eqn:E2. destruct (create_effect nm sc s1 r2 s2 Hnm E2) as (o & Hg & Ho).
  assert (grown nm s s2 o) as Hg' by by eapply (grown_frame_l nm s s1). rewrite (eff_catch _ _ _ _ _ E2). destruct r2 as [p|x|]; [| |intros [= <- <-]; by exists o].
  2:{ intros [= <- <-]. by exists o. }
  rewrite (Ho p eq_refl) in Hg'. assert (exists c, chans s2 !! p = Some c) as [c Hc] by (inversion Hg' as [|? x ? ? E1]; subst; rewrite E1, lookup_insert_eq; by eexists).
  rewrite (eff_bind_Ok _ _ _ _ _ (run_update _ _ _ _ Hc)). set (s3 := put p (set_id 0 c) s2).
  assert (grown nm s s3 (Some p)) as Hg3 by (eapply grown_update; [done|done|apply alike_id|done..]).
  rewrite (eff_bind_Ok _ _ _ _ _ (run_at p (set_id 0 c) s3 (put_at _ _ _))). unfold when. destruct (_ && _) eqn:Hb.
  - apply andb_prop in Hb as [_ [a Ha]%bool_decide_eq_true_1]. rewrite (eff_bind_Ok _ _ _ _ _ (run_start e p (set_id 0 c) a s3 (put_at _ _ _) Ha)).
    intros [= <- <-]. exists (Some p). split; [|by intros ? [= <-]]. eapply grown_update; [exact Hg3|apply put_at|by apply (alike_started s3)|done..].
  - intros [= <- <-]. exists (Some p). split; [done|by intros ? [= <-]].
Qed.

Lemma lookupOrCreate_effect nm s r s' :
  lookupOrCreateChannel unicode e nm s = (r, s') -> exists o, grown nm s s' o.
Proof.
  unfold lookupOrCreateChannel. rewrite eff_get. destruct (channels s !! nm) as [p|] eqn:Hnm.
  - unfold chan_at, mbind, eff_bind. destruct (chans s !! p) as [c|]; [destruct (deleting c)|]; intros [= <- <-]; exists None; by constructor.
  - destruct (checkCase_effect nm s) as [rc Ec]. unfold mbind, eff_bind. rewrite Ec. destruct rc as [[]|x|]; [|intros [= <- <-]; exists None; by constructor..].
    intros E1. destruct (createChannelLocked_effect nm s r s' Hnm E1) as (o & Hg & _). by exists o.
Qed.

(** *** Steps on one channel *)

Lemma update_cases p f (s : stan) r s' :
  update_chan p f s = (r, s') -> s' = s \/ exists c, chans s !! p = Some c /\ s' = put p (f c) s.
Proof.
  destruct (chans s !! p) as [c|] eqn:Hc; [rewrite (run_update _ _ _ _ Hc); intros [= _ <-]; right; by exists c|].
  unfold update_chan, chan_at, mbind, eff_bind. rewrite Hc. intros [= _ <-]. by left.
Qed.

Lemma safe_update p f s r s' rm sb :
  (forall c, alike c (f c)) -> update_chan p f s = (r, s') -> safe_channels s rm sb -> safe_channels s' rm sb.
Proof. intros Hf Hu I. destruct (update_cases _ _ _ _ _ Hu) as [->|(c & Hc & ->)]; [done|]. by eapply safe_put. Qed.

Lemma alike_last t c : alike c (set_activity (set_last t <$> activity c) c).
Proof. split; unfold deleting, prevented; cbn; destruct (activity c); done || by split; intros []; eexists. Qed.

Lemma safe_msgs {A : Type} p (f : S -> outcome E A * S) s r s' rm sb :
  on_msgs p f s = (r, s') -> safe_channels s rm sb -> safe_channels s' rm sb.
Proof.
  destruct (chans s !! p) as [c|] eqn:Hc; [rewrite (PublishSpec.run_msgs p f c s Hc); intros [= _ <-] I; by eapply safe_put|].
  unfold on_msgs, chan_at, mbind, eff_bind. rewrite Hc. by intros [= _ <-].
Qed.

Lemma safe_stamp p pm seq s r s' rm sb :
  pubMsgToMsgProto e p pm seq s = (r, s') -> safe_channels s rm sb -> safe_channels s' rm sb.
Proof.
  destruct (chans s !! p) as [c|] eqn:Hc.
  - rewrite (PublishSpec.run_stamp e p pm seq c s Hc). intros [= _ <-] I. eapply (safe_put _ _ _ _ c); [by apply (safe_frame s)|done|by split].
  - unfold pubMsgToMsgProto, chan_at. rewrite (eff_bind_Ok _ _ _ _ _ (run_clock e s)). unfold mbind, eff_bind. cbn. rewrite Hc. intros [= _ <-] I. by apply (safe_frame s).
Qed.

Lemma same_heap_active x st st' : same_heap st st' -> hasActiveSubs (x, st') = hasActiveSubs (x, st).
Proof.
  intros Hh. unfold hasActiveSubs. f_equal. cbn. induction (map_to_list (qsubs x)) as [|[k q] l IH]; [done|]. cbn. f_equal; [|done].
  destruct (queues st !! q) as [qs|] eqn:Hq, (queues st' !! q) as [qs'|] eqn:Hq'; [| | |done].
  - pose proof (sh_members _ _ Hh q qs qs' Hq Hq') as Hp. f_equal. apply bool_decide_ext.
    split; intros Hb; rewrite Hb in Hp; [by apply Permutation_nil_l in Hp|by apply Permutation_nil_r in Hp].
  - apply elem_of_dom_2 in Hq. rewrite <- (sh_queues _ _ Hh) in Hq. by apply not_elem_of_dom in Hq'.
  - apply elem_of_dom_2 in Hq'. rewrite (sh_queues _ _ Hh) in Hq'. by apply not_elem_of_dom in Hq.
Qed.

Lemma safe_deliver p c w s r s' rm sb :
  chans s !! p = Some c -> view (msgs c) w -> heap_ok (ss c) (subscriptions s) -> deliver e p s = (r, s') ->
  safe_channels s rm sb -> safe_channels s' rm sb.
Proof.
  intros Hc Hv Hh. destruct (processMsg_total (sub_env e) marshals (msgs c) w Hv (ss c) (subscriptions s) (range (qsubs (ss c))).*2 Hh) as (st & Est & Hsh).
  { intros q Hq. apply list_elem_of_fmap in Hq as ([k q'] & -> & Hkq). exists k. by apply elem_of_range in Hkq. }
  unfold deliver. rewrite (eff_bind_Ok _ _ _ _ _ (run_at _ _ _ Hc)), eff_get, Est. intros [= _ <-] [I1 I2 I3 I4 I5]. split; try done.
  intros q x Hx Hd. destruct (I3 q x Hx Hd) as [? Ha]. split; [done|]. unfold is_active. cbn. by rewrite (same_heap_active _ _ _ Hsh).
Qed.

Lemma safe_timer nm o s r s' rm sb :
  maybeStartChannelDeleteTimer e nm o s = (r, s') -> safe_channels s rm sb -> safe_channels s' rm sb.
Proof.
  unfold maybeStartChannelDeleteTimer. rewrite eff_get. destruct (match o with Some p => Some p | None => _ end) as [p|]; [|by intros [= _ <-]].
  destruct (chans s !! p) as [c|] eqn:Hc; [|unfold chan_at, mbind, eff_bind; rewrite Hc; by intros [= _ <-]].
  rewrite (eff_bind_Ok _ _ _ _ _ (run_at _ _ _ Hc)). unfold when. destruct (_ && _ && _) eqn:Hb; [|by intros [= _ <-]].
  apply andb_prop in Hb as [[[a Ha]%bool_decide_eq_true_1 _]%andb_prop _]. rewrite (run_start e p c a s Hc Ha). intros [= _ <-] I.
  eapply (safe_put _ _ _ _ c); [by apply (safe_frame s)|done|by apply alike_started].
Qed.

(** *** Deleting *)

Lemma safe_decide p s b s' sb :
  decide_delete e p s = (Ok b, s') -> safe_channels s None sb -> safe_channels s' (if b then Some p else None) sb.
Proof.
  intros Hd I. assert (exists c act, chans s !! p = Some c /\ activity c = Some act) as (c & act & Hc & Ha).
  { revert Hd. unfold decide_delete, activity_at, chan_at, mbind, eff_bind. destruct (chans s !! p) as [c|]; [|done]. destruct (activity c) as [act|] eqn:Ha; [|done]. intros _. by exists c, act. }
  destruct (decide_delete_effect e s p c act Hc Ha) as (b0 & s0 & act' & E0 & [[n ->] Hp Hpr Hy]). rewrite Hd in E0. injection E0 as <- ->.
  destruct b.
  - destruct (Hy eq_refl) as (Hdp & Hpv & Hact & _). destruct I as [I1 I2 I3 I4 I5]. split; cbn.
    + intros nm q Hq. destruct (I1 nm q Hq) as (x & Hx & Hn). destruct (decide (q = p)) as [->|Hne]; [|exists x; by rewrite lookup_insert_ne].
      eexists. rewrite lookup_insert_eq. split; [done|]. cbn. congruence.
    + intros q x [[<- <-]|[_ Hx]]%lookup_insert_Some; [by right|by apply I2].
    + intros q x [[<- <-]|[_ Hx]]%lookup_insert_Some; [|by apply (I3 q)]. intros _. unfold prevented. cbn. by rewrite Hp.
    + intros q [= <-]. eexists. rewrite lookup_insert_eq. split_and!; [done|done|]. destruct (I2 p c Hc) as [?|Hx]; [done|].
      unfold deleting in Hx. rewrite Ha in Hx. congruence.
    + intros q Hq. destruct (I5 q Hq) as (x & Hx & Hdx & Hpx). destruct (decide (q = p)) as [->|Hne]; [|exists x; by rewrite lookup_insert_ne].
      simplify_eq. unfold prevented in Hpx. rewrite Ha in Hpx. specialize (Hpx ltac:(by eexists)). congruence.
  - eapply (safe_put _ _ _ _ c); [by apply (safe_frame s)|done|]. split; unfold deleting, prevented; cbn; rewrite ?Ha, ?Hp, ?Hpr; done.
Qed.

Lemma safe_removed p c s d sb :
  safe_channels s (Some p) sb -> chans s !! p = Some c ->
  safe_channels (set_names (delete (name c) (channels s)) (delete (ToLower unicode (name c)) (channelsLC s)) (set_store d s)) None sb.
Proof.
  intros [I1 I2 I3 I4 I5] Hc. destruct (I4 p eq_refl) as (x & Hx & Hd & Hl). simplify_eq. split; cbn; [| |done|done|done].
  - intros nm q [_ Hq]%lookup_delete_Some. by apply I1.
  - intros q y Hy. destruct (decide (name y = name c)) as [Heq|Hne].
    + right. destruct (I2 q y Hy) as [Hq|?]; [|done]. rewrite Heq in Hq. by simplify_eq.
    + rewrite lookup_delete_ne by done. by apply I2.
Qed.

Lemma safe_delete p c s r s' sb :
  chans s !! p = Some c -> processDeleteChannel unicode e (name c) s = (r, s') -> safe_channels s (Some p) sb -> safe_channels s' None sb.
Proof.
  intros Hc Hp I. destruct (sc_removing _ _ _ I p eq_refl) as (x & Hx & Hd & Hl). assert (x = c) as -> by congruence.
  destruct (sc_marked _ _ _ I p c Hc Hd) as [Hpr _]. revert Hp. unfold processDeleteChannel. rewrite eff_get, Hl, (eff_bind_Ok _ _ _ _ _ (run_at _ _ _ Hc)).
  fold (prevented c). rewrite Hpr, standalone. unfold when. destruct (DeleteChannel (name c) (store s)) as [rd d] eqn:Ed. set (s1 := set_store d s).
  assert (on_store (DeleteChannel (name c)) s = (match rd with Ok a => Ok a | Err x => Err (StoreFailed x) | Panic => Panic end, s1)) as Es.
  { unfold on_store. by rewrite Ed. }
  assert (safe_channels s1 None sb) as I1 by (destruct I; by split).
  destruct rd as [[]|x|].
  - rewrite (eff_catch _ _ s (Ok tt) s1) by (by rewrite (eff_bind_Ok _ _ _ _ _ Es)). intros [= _ <-]. by apply (safe_removed p).
  - rewrite (eff_catch _ _ s (Err (StoreFailed x)) s1) by (by rewrite (eff_bind_Err _ _ _ _ _ Es)). destruct (_ && _) eqn:Hb; [|by intros [= _ <-]].
    apply andb_prop in Hb as [_ [a Ha]%bool_decide_eq_true_1]. rewrite (eff_bind_Ok _ _ _ _ _ (run_update_activity p _ c a s1 Hc Ha)).
    set (c2 := set_activity _ c). rewrite (run_start e p c2 (set_deleteInProgress false a) (put p c2 s1) (put_at _ _ _) eq_refl). intros [= _ <-].
    rewrite put_asked, put_put. eapply (safe_change _ None _ sb _ p c); [by apply (safe_frame s1)|done|done|done|done|by right|by left|].
    intros q Hq. right. split; [|done]. intros ->. destruct (sc_subscribing _ _ _ I p Hq) as (y & Hy & Hdy & _). congruence.
  - unfold catch, mbind, eff_bind. rewrite Es. by intros [= _ <-].
Qed.

(** *** Subscribing *)

Lemma found_channel nm s r s' :
  match channels s !! nm with
  | Some p => c ← chan_at p; if deleting c then fail ErrChanDelInProgress else mret p
  | None => _ ← checkCase unicode nm; createChannelLocked unicode e nm 0
  end s = (r, s') ->
  (exists o, grown nm s s' o) /\ forall p, r = Ok p -> exists c, chans s' !! p = Some c /\ deleting c = false.
Proof.
  destruct (channels s !! nm) as [p|] eqn:Hnm.
  - unfold chan_at, mbind, eff_bind. destruct (chans s !! p) as [c|] eqn:Hc; [destruct (deleting c) eqn:Hd|]; intros [= <- <-];
      (split; [exists None; by constructor|]); [done| |done]. intros q [= <-]. by exists c.
  - destruct (checkCase_effect nm s) as [rc Ec]. unfold mbind, eff_bind. rewrite Ec.
    destruct rc as [[]|x|]; [|intros [= <- <-]; (split; [exists None; by constructor|done])..]. intros E1.
    destruct (createChannelLocked_effect nm s r s' Hnm E1) as (o & Hg & Ho). split; [by exists o|]. intros p ->. rewrite (Ho p eq_refl) in Hg.
    inversion Hg as [|? c ? ? F1 ? ? ? ? Hd]; subst. exists c. by rewrite F1, lookup_insert_eq.
Qed.

Lemma safe_subscribe nm s r s' rm :
  lookupOrCreateChannelPreventDelete unicode e nm s = (r, s') -> safe_channels s rm None ->
  match r with Ok (p, _) => safe_channels s' rm (Some p) | _ => safe_channels s' rm None end.
Proof.
  unfold lookupOrCreateChannelPreventDelete. rewrite eff_get. set (m := match channels s !! nm with Some _ => _ | None => _ end).
  destruct (m s) as [r1 s1] eqn:E1. destruct (found_channel nm s r1 s1 E1) as [[o Hg] Hf]. intros Hr I. pose proof (safe_grown _ _ _ _ _ _ Hg I) as I1. revert Hr.
  unfold mbind at 1, eff_bind at 1. rewrite E1. destruct r1 as [p|x|]; [|by intros [= <- <-]..]. destruct (Hf p eq_refl) as (c & Hc & Hd).
  rewrite (eff_bind_Ok _ _ _ _ _ (run_at _ _ _ Hc)). assert (rm <> Some p) as Hrm.
  { intros ->. destruct (sc_removing _ _ _ I1 p eq_refl) as (x & Hx & ? & _). congruence. }
  destruct (activity c) as [a|] eqn:Ha.
  - rewrite (eff_bind_Ok _ _ _ _ _ (run_update_activity p _ c a s1 Hc Ha)). set (c2 := set_activity _ c).
    rewrite (eff_bind_Ok _ _ _ _ _ (run_stop p c2 (set_preventDelete true a) (put p c2 s1) (put_at _ _ _) eq_refl)). intros [= <- <-]. rewrite put_put.
    destruct (stopped_flags (set_preventDelete true a)) as [F1 F2]. unfold deleting in Hd. rewrite Ha in Hd.
    eapply (safe_change _ rm _ None _ p c); [done|done|done|done| | |by right|]; unfold deleting, prevented; cbn; rewrite ?F1, ?F2, ?Ha; cbn; rewrite ?Hd; try done.
    intros q [= <-]. by left.
  - intros [= <- <-]. rewrite <- (put_self p c s1) by done.
    eapply (safe_change _ rm _ None _ p c); [done|done|done|done| |by left|by right|]; [congruence|]. intros q [= <-]. left. rewrite Ha. by split_and!; [| |intros []].
Qed.

Lemma safe_lift s p r s' rm :
  turnOffPreventDelete (Some p) s = (r, s') -> safe_channels s rm (Some p) -> safe_channels s' rm None.
Proof.
  intros Hu I. assert (safe_channels s rm None) as I0 by (destruct I; by split). destruct (sc_subscribing _ _ _ I p eq_refl) as (x & Hx & Hd & _).
  destruct (update_cases _ _ _ _ _ Hu) as [->|(c & Hc & ->)]; [done|]. assert (x = c) as -> by congruence.
  assert (deleting (set_activity (set_preventDelete false <$> activity c) c) = deleting c) as Hd' by (unfold deleting; cbn; by destruct (activity c)).
  eapply (safe_change _ rm _ None _ p c); [done|done|done|done|rewrite Hd'; congruence|congruence| |done]. right. split; [done|]. intros ->.
  destruct (sc_removing _ _ _ I p eq_refl) as (y & Hy & ? & _). congruence.
Qed.

(** ** Safety *)

Definition invariant (x : config) : Prop := safe_channels (srv x) (removing x) (subscribing x).

Lemma step_safe x y : step x y -> invariant x -> invariant y.
Proof.
  unfold invariant. destruct 1; cbn [srv removing subscribing]; intros I.
  - match goal with Hs : lookupOrCreateChannel _ _ _ _ = _ |- _ => destruct (lookupOrCreate_effect _ _ _ _ Hs) as [o Hg] end. by eapply safe_grown.
  - by eapply safe_stamp.
  - by eapply safe_msgs.
  - eapply safe_update; [|done|done]. by split.
  - by eapply safe_deliver.
  - eapply (safe_update _ (fun c => set_activity (set_last t <$> activity c) c)); [|done|done]. apply alike_last.
  - by eapply safe_decide.
  - by eapply safe_delete.
  - by eapply (safe_subscribe nm s (Ok (p, b))).
  - by eapply (safe_subscribe nm s (Err err)).
  - eapply safe_registry; [done|done|done|]. destruct (sc_subscribing _ _ _ I p eq_refl) as (x & Hx & Hd & _). intros ?. congruence.
  - by eapply safe_lift.
  - eapply safe_registry; [done|done|done|]. intros Hd. destruct (hasActiveSubs (ss', st')) eqn:Hact; [|done].
    match goal with Hc : chans s !! p = Some ?x |- _ => destruct (sc_marked _ _ _ I p x Hc Hd) as [_ Hx] end. intuition congruence.
  - by eapply safe_timer.
Qed.

(** A server without channels. *)
Definition fresh_server (x : config) : Prop :=
  chans (srv x) = ∅ /\ channels (srv x) = ∅ /\ removing x = None /\ subscribing x = None.

(** [C16] On a server that runs alone, however the goroutines are interleaved, the channel of
    an active subscription is the live channel of its name and is not being deleted; neither
    is the channel on which a subscription is being created. *)
Theorem subscribed_channel_not_deleted x y p c :
  fresh_server x -> rtc step x y -> chans (srv y) !! p = Some c -> is_active c (srv y) = true \/ subscribing y = Some p ->
  channels (srv y) !! name c = Some p /\ deleting c = false.
Proof.
  intros (F1 & F2 & F3 & F4) Hr Hc Ha. assert (invariant y) as I.
  { assert (invariant x) as I by (unfold invariant; rewrite F3, F4; split; rewrite ?F1, ?F2; intros; simplify_map_eq).
    clear F1 F2 F3 F4 Hc Ha. induction Hr as [x|x z y Hs _ IH]; [done|]. apply IH. by apply (step_safe x). }
  assert (deleting c = false) as Hd.
  { destruct Ha as [Ha|Ha]; [|destruct (sc_subscribing _ _ _ I p Ha) as (z & Hz & Hd & _); congruence]. destruct (deleting c) eqn:Hd; [|done].
    destruct (sc_marked _ _ _ I p c Hc Hd) as [_ ?]. congruence. }
  split; [|done]. destruct (sc_stale _ _ _ I p c Hc) as [?|?]; congruence.
Qed.
End Delete.
End ChanDelete.

(** ** A run *)

Module DeleteSample.
Import Sub Reg Chan ChanSpec Publish MemoryServer PublishSample ChanDelete.
#[local] Existing Instances names_order sample_store_spec sample_log sample_raft.

(** A subscription is created on a new channel; the channel is protected then, and a request
    to delete it is turned down. *)
Definition looked_up := lookupOrCreateChannelPreventDelete same alone "foo" empty_server.
Definition with_sub : subStore := mkSubStore [0%nat] ∅ ∅ ∅ ∅.
Definition subscribed (c : @channel Mem.MemoryMsgStore) : stan :=
  set_subscriptions (subscriptions looked_up.2) (put 0%nat (set_ss with_sub c) looked_up.2).

Lemma subscribed_channel_not_deleted_witness :
  exists c, chans (subscribed c) !! 0%nat = Some (set_ss with_sub c) /\
    channels (subscribed c) !! name (set_ss with_sub c) = Some 0%nat /\ deleting (set_ss with_sub c) = false.
Proof.
  assert (exists c, chans looked_up.2 !! 0%nat = Some c) as [c Hc] by (eexists; vm_compute; reflexivity).
  exists c. split; [apply lookup_insert_eq|].
  apply (subscribed_channel_not_deleted same alone eq_refl alone_marshals (mkConfig empty_server None None) (mkConfig (subscribed c) None (Some 0%nat)) 0%nat).
  - by split_and!.
  - assert (looked_up.1 = Ok (0%nat, true)) as Hl by (vm_compute; reflexivity).
    eapply rtc_l; [apply (step_subscribe same alone empty_server None "foo" 0%nat true looked_up.2); rewrite <- Hl; apply surjective_pairing|].
    apply rtc_once, (step_add same alone looked_up.2 None 0%nat c with_sub); [exact Hc|]. intros p' c' _ _. reflexivity.
  - apply lookup_insert_eq.
  - right. reflexivity.
Defined.
End DeleteSample.
