(* ===== verification/Connect.v ===== *)
(** * Connections of clients

    Requests to connect and to close, heartbeats and pings ([connectCB], [processConnect],
    [checkClientHealth], [closeClient] and what they call, in src/server/server.go).  What
    waits for the answer of a client, or for the NATS barrier, is a separate step: the
    handler before it and the callback after it.  In a cluster the leader threads requests
    through Raft: an entry that is committed is applied by this server ([Apply] of
    src/server/clustering.go calls [processConnect] or [closeClient]), which gives the
    answer. *)

From Stdlib Require Import ZArith Lia Ascii String.
From stdpp Require Import base list gmap strings.
From S2P Require Import Prelude GoLib Effects MemStore MsgStore ClientStore SubState SubStore Replication ChannelStore.

Local Open Scope Z_scope.

Module Conn.
Import Sub Reg Chan.

(** ** Requests and answers *)

(** [pb.ConnectRequest] *)
Record ConnectRequest := mkConnect {
  r_ClientID : string;
  r_HeartbeatInbox : string;
  r_ConnID : string;
  r_Protocol : Z;
  r_PingInterval : Z;
  r_PingMaxOut : Z
}.

(** [pb.ConnectResponse], without its error. *)
Record ConnectResponse := mkConnected {
  PubPrefix : string;
  SubRequests : string;
  UnsubRequests : string;
  SubCloseRequests : string;
  CloseRequests : string;
  o_Protocol : Z;
  PingRequests : string;
  o_PingInterval : Z;
  o_PingMaxOut : Z
}.

(** The subjects of the server ([spb.ServerInfo]). *)
Record subjects := mkSubjects {
  Publish : string;
  Subscribe : string;
  Unsubscribe : string;
  SubClose : string;
  Close : string;
  Discovery : string
}.

Inductive conn_error (E : Type) :=
| ErrInvalidConnReq | ErrInvalidClientID | ErrDuplicateClient | ErrUnknownClient | ErrInvalidCloseReq
| ClientStoreFailed (e : E) | ReplicationFailed (e : E).
Arguments ErrInvalidConnReq {E}.
Arguments ErrInvalidClientID {E}.
Arguments ErrDuplicateClient {E}.
Arguments ErrUnknownClient {E}.
Arguments ErrInvalidCloseReq {E}.
Arguments ClientStoreFailed {E} e.
Arguments ReplicationFailed {E} e.

Inductive reply_msg (E : Type) :=
| Connected (r : ConnectResponse)
| ConnectRefused (err : conn_error E)
| Closed (err : option (conn_error E))
| Pinged (known : bool).
Arguments Connected {E} r.
Arguments ConnectRefused {E} err.
Arguments Closed {E} err.
Arguments Pinged {E} known.

(** [clientIDRegEx] *)
Definition id_char (c : ascii) : bool :=
  let n := nat_of_ascii c in
  ((97 <=? n) && (n <=? 122) || (65 <=? n) && (n <=? 90) || (48 <=? n) && (n <=? 57) || (n =? 95) || (n =? 45))%nat.
Definition matches_clientID (s : string) : bool :=
  negb (String.eqb s "") && forallb id_char (list_ascii_of_string s).

Definition protocolOne : Z := 1.

Section Server.
Context {S D R E : Type} `{MsgStore S} `{!MsgLog S E} `{!Stores D S E} `{!RaftStore R E}.
Context `{!RangeOrder Z} `{!RangeOrder string} `{!Sorter}.
Context (e : @environment S D R E).
Context (info : subjects) (ClientHBFailCount : Z).
(** The errors of the store of clients, and of Raft when it fails to commit an entry, when the
    environment is asked for the [n]-th time. *)
Context (AddClient_fails DeleteClient_fails raft_fails : nat -> option E).

(** The server with its clients, the identifiers for which a request is being checked
    ([cliDipCIDsMap]), and the replies, most recent last. *)
Record cserver := mkCServer {
  stan_of : @stan S D R E;
  clients_of : clientStore;
  cliDipCIDsMap : gset string;
  replies : list (string * reply_msg E)
}.

Definition set_stan (v : @stan S D R E) (s : cserver) : cserver := mkCServer v (clients_of s) (cliDipCIDsMap s) (replies s).
Definition set_clients (v : clientStore) (s : cserver) : cserver := mkCServer (stan_of s) v (cliDipCIDsMap s) (replies s).
Definition set_dups (v : gset string) (s : cserver) : cserver := mkCServer (stan_of s) (clients_of s) v (replies s).
Definition set_replies (v : list (string * reply_msg E)) (s : cserver) : cserver :=
  mkCServer (stan_of s) (clients_of s) (cliDipCIDsMap s) v.

Abbreviation M := (eff cserver (conn_error E)).

Definition send (to : string) (r : reply_msg E) : M unit := modify (fun s => set_replies (replies s ++ [(to, r)]) s).

(** A handler of the channels; those that are used here return no error. *)
Definition on_stan (m : eff (@stan S D R E) (chan_error E) unit) : M unit := fun s =>
  let '(r, st) := m (stan_of s) in
  (match r with Panic => Panic | _ => Ok tt end, set_stan st s).

Definition ask_stan {A : Type} (f : nat -> A) : M A := fun s =>
  let n := asked (stan_of s) in (Ok (f n), set_stan (set_asked (n + 1) (stan_of s)) s).

Definition client_at (p : ptr) : M client := fun s =>
  match heap (clients_of s) !! p with Some c => (Ok c, s) | None => (Panic, s) end.

(** ** Closing *)

(** One subscription of [removeAllNonDurableSubscribers]; an error of the flush that follows
    is only logged. *)
Definition remove_sub (q : ptr) (names : gset string) : M (gset string) := fun s =>
  let st := stan_of s in
  match subs (subscriptions st) !! q with
  | None => (Panic, s)
  | Some sub =>
      match channels st !! subject sub with
      | None => (Ok names, s)
      | Some p =>
          match chans st !! p with
          | None => (Panic, s)
          | Some c =>
              let '(ss', st') := Reg.Remove (sub_env e) (isStandaloneOrLeader e) q false (ss c, subscriptions st) in
              (Ok ({[subject sub]} ∪ names),
               set_stan (set_subscriptions st' (set_chans (<[p := set_ss ss' c]> (chans st)) st)) s)
          end
      end
  end.

Fixpoint remove_subs (l : list ptr) (names : gset string) : M (gset string) :=
  match l with
  | [] => mret names
  | q :: l' => names ← remove_sub q names; remove_subs l' names
  end.

Definition removeAllNonDurableSubscribers (p : ptr) : M unit :=
  c ← client_at p;
  names ← remove_subs (csubs c) ∅;
  each (fun nm => on_stan (maybeStartChannelDeleteTimer e nm None)) (order names).

Definition closeClient (clientID : string) : M unit :=
  s ← get;
  match ClientStore.lookup (clients_of s) clientID with
  | None => fail ErrUnknownClient
  | Some p =>
      err ← ask_stan DeleteClient_fails;
      _ ← modify (fun s => set_clients (unregister (clients_of s) clientID err).2 s);
      removeAllNonDurableSubscribers p
  end.

(** *** In a cluster *)

(** [waitForReplicationErrResponse] of an entry: the error of Raft, or what applying the entry
    returns. *)
Definition replicated (apply : M unit) : M unit :=
  err ← ask_stan raft_fails;
  match err with Some x => fail (ReplicationFailed x) | None => apply end.

(** What is left to replicate of a subscription goes to the followers; applying it changes
    nothing on the leader, and nobody waits for it. *)
Definition end_replication (q : ptr) : M unit :=
  modify (fun s =>
    let st := stan_of s in
    set_stan (set_subscriptions (Repl.endSubSentAndAckReplication q false (subscriptions st)).2 st) s).

Definition replicateConnClose (clientID : string) (flushSubAcks : bool) : M unit :=
  _ ← when flushSubAcks (s ← get; each end_replication (default [] (getSubs (clients_of s) clientID)));
  replicated (closeClient clientID).

Definition sendCloseResponse (to : string) (err : option (conn_error E)) : M unit := send to (Closed err).

(** [processCloseRequest] before the barrier: [None] is a request that cannot be decoded.
    After the barrier the client is closed. *)
Definition processCloseRequest (to : string) (req : option string) : M (option string) :=
  match req with
  | None => _ ← sendCloseResponse to (Some ErrInvalidCloseReq); mret None
  | Some clientID => mret (Some clientID)
  end.
Definition close_after_barrier (to : string) (clientID : string) : M unit :=
  r ← catch (if isClustered (sub_env e) then replicateConnClose clientID true else closeClient clientID);
  sendCloseResponse to (match r with inl _ => None | inr err => Some err end).

(** ** Connecting *)

Definition processConnect (req : ConnectRequest) (replaceOld : bool) : M unit :=
  _ ← when replaceOld (_ ← catch (closeClient (r_ClientID req)); mret tt);
  let i := mkClientInfo (r_ClientID req) (r_HeartbeatInbox req) (r_ConnID req) (r_Protocol req)
             (r_PingInterval req) (r_PingMaxOut req) in
  err ← ask_stan AddClient_fails;
  s ← get;
  let '(r, cl) := register (clients_of s) i err in
  _ ← modify (set_clients cl);
  match r with
  | inl _ => mret tt
  | inr ErrInvalidClient => fail ErrDuplicateClient
  | inr (ClientStoreError x) => fail (ClientStoreFailed x)
  end.

Definition replicateConnect (req : ConnectRequest) (refresh : bool) : M unit := replicated (processConnect req refresh).

Definition finishConnectRequest (req : ConnectRequest) (replyInbox : string) : M unit :=
  _ ← modify (fun s => set_clients (setClientHB (clients_of s) (r_ClientID req)) s);
  let pings := protocolOne <=? r_Protocol req in
  send replyInbox (Connected (mkConnected (Publish info) (Subscribe info) (Unsubscribe info) (SubClose info) (Close info) protocolOne
    (if pings then Discovery info ++ ".pings" else "")%string
    (if pings then r_PingInterval req else 0) (if pings then r_PingMaxOut req else 0))).

Definition sendConnectErr (replyInbox : string) (err : conn_error E) : M unit := send replyInbox (ConnectRefused err).

Definition handleConnect (req : ConnectRequest) (replyInbox : string) (replaceOld : bool) : M unit :=
  r ← catch (if isClustered (sub_env e) then replicateConnect req replaceOld else processConnect req replaceOld);
  match r with
  | inr err => sendConnectErr replyInbox err
  | inl _ => finishConnectRequest req replyInbox
  end.

(** [connectCB], up to the goroutine that it may start, which has the client to look for. *)
Definition connectCB (req : option ConnectRequest) (replyInbox : string) : M (option ptr) :=
  match req with
  | None => _ ← sendConnectErr replyInbox ErrInvalidConnReq; mret None
  | Some req =>
      if String.eqb (r_HeartbeatInbox req) "" then _ ← sendConnectErr replyInbox ErrInvalidConnReq; mret None
      else if negb (matches_clientID (r_ClientID req)) then _ ← sendConnectErr replyInbox ErrInvalidClientID; mret None
      else
        s ← get;
        match ClientStore.lookup (clients_of s) (r_ClientID req) with
        | Some p =>
            if bool_decide (r_ClientID req ∈ cliDipCIDsMap s)
            then _ ← sendConnectErr replyInbox ErrDuplicateClient; mret None
            else _ ← modify (fun s => set_dups ({[r_ClientID req]} ∪ cliDipCIDsMap s) s); mret (Some p)
        | None => _ ← handleConnect req replyInbox false; mret None
        end
  end.

(** The goroutine, when it knows whether the client answered ([isDuplicateConnect]). *)
Definition connect_checked (req : ConnectRequest) (replyInbox : string) (isDup : bool) : M unit :=
  _ ← (if isDup then sendConnectErr replyInbox ErrDuplicateClient else handleConnect req replyInbox true);
  modify (fun s => set_dups (cliDipCIDsMap s ∖ {[r_ClientID req]}) s).

(** ** Heartbeats *)

(** [checkClientHealth] up to the request, which goes to the client that is returned. *)
Definition checkClientHealth (clientID : string) : M (option ptr) :=
  s ← get;
  mret (match ClientStore.lookup (clients_of s) clientID with
        | None => None
        | Some p => if isClustered (sub_env e) && negb (isLeader e) then None else Some p
        end).

Definition set_failed (failed : bool) (q : ptr) : M unit := fun s =>
  let st := subscriptions (stan_of s) in
  match subs st !! q with
  | None => (Panic, s)
  | Some sub => (Ok tt, set_stan (set_subscriptions (put_sub q (set_hasFailedHB failed sub) st) (stan_of s)) s)
  end.

(** After the request: whether the client is to be closed, behind the barrier. *)
Definition heartbeat_done (p : ptr) (failed : bool) : M bool :=
  c ← client_at p;
  if negb (hbt c) then mret false
  else
    let hadFailed := 0 <? fhb c in
    let fhb' := if failed then fhb c + 1 else 0 in
    _ ← modify (fun s => set_clients (set_client (clients_of s) p (mkClient (ClientStore.info c) (hbt c) fhb' (csubs c))) s);
    if failed && (ClientHBFailCount <? fhb') then mret true
    else
      let hasFailedHB := 0 <? fhb' in
      _ ← when (xorb hadFailed hasFailedHB) (each (set_failed hasFailedHB) (csubs c));
      mret false.

(** Behind the barrier, a client without heartbeat is closed by its identifier. *)
Definition close_unhealthy (clientID : string) : M unit :=
  _ ← catch (if isClustered (sub_env e) then replicateConnClose clientID false else closeClient clientID); mret tt.

(** [processClientPings]: [None] is what cannot be decoded. *)
Definition processClientPings (to : string) (connID : option string) : M unit :=
  match connID with
  | None => mret tt
  | Some k => s ← get; send to (Pinged (bool_decide (is_Some (lookupByConnID (clients_of s) k))))
  end.
End Server.
End Conn.
