(* ===== verification/ConnectSpec.v ===== *)
(** * Connections are handled one request at a time

    Invariants of the connection handlers under any interleaving: every request to connect
    is answered once, clients that are registered have a valid identifier and a heartbeat
    timer, and closing a client takes its subscriptions away.  A run shows a client that is
    replaced although nobody asked whether it is alive. *)

From Stdlib Require Import ZArith Lia Ascii String.
From stdpp Require Import base list gmap strings.
From S2P Require Import Prelude GoLib MemStore MsgStore ClientStore SubState Delivery SubStore SubStoreSpec Effects ChannelStore ChannelStoreSpec PublishCases Connect.

Local Open Scope Z_scope.

Module ConnSpec.
Import Sub Reg Chan Conn.

Section Spec.
Context {S D R E : Type} `{MsgStore S} `{!MsgLog S E} `{!Stores D S E} `{!RaftStore R E}.
Context `{!RangeOrder Z} `{!RangeOrder string} `{!Sorter}.
Context (e : @environment S D R E).
Context (info : subjects) (ClientHBFailCount : Z).
Context (AddClient_fails DeleteClient_fails raft_fails : nat -> option E).
Abbreviation alone := (isClustered (sub_env e) = false).

Abbreviation cserver := (@cserver S D R E).
Abbreviation closeClient := (closeClient e DeleteClient_fails).
Abbreviation connectCB := (connectCB e info AddClient_fails DeleteClient_fails raft_fails).
Abbreviation connect_checked := (connect_checked e info AddClient_fails DeleteClient_fails raft_fails).
Abbreviation processConnect := (processConnect e AddClient_fails DeleteClient_fails).
Abbreviation handleConnect := (handleConnect e info AddClient_fails DeleteClient_fails raft_fails).
Abbreviation replicateConnClose := (replicateConnClose e DeleteClient_fails raft_fails).

(** ** What handlers leave alone *)

Definition same_clients (x : clientStore * gset string * list (string * reply_msg E)) (s : cserver) : Prop :=
  (clients_of s, cliDipCIDsMap s, replies s) = x.

Lemma on_stan_clients x m : keeps (same_clients x) (on_stan m).
Proof. intros s Hs. unfold on_stan. by destruct (m (stan_of s)). Qed.

Lemma remove_sub_clients x q names : keeps (same_clients x) (remove_sub e q names).
Proof.
  intros s Hs. unfold remove_sub. destruct (subs _ !! q) as [sub|]; [|done]. destruct (channels _ !! _) as [p|]; [|done].
  destruct (chans _ !! p) as [c|]; [|done]. by destruct (Reg.Remove _ _ _ _ _).
Qed.

Lemma removeAll_clients x p : keeps (same_clients x) (removeAllNonDurableSubscribers e p).
Proof.
  unfold removeAllNonDurableSubscribers. apply keeps_bind; [intros s Hs; unfold client_at; by destruct (heap _ !! p)|]. intros c.
  apply keeps_bind; [|intros names; apply keeps_each; intros; apply on_stan_clients]. generalize (∅ : gset string).
  induction (csubs c) as [|q l IH]; intros names; [apply keeps_ret|]. apply keeps_bind; [apply remove_sub_clients|]. intros; apply IH.
Qed.

(** Closing unregisters the client, if there is one. *)
Lemma closeClient_effect id s r s' :
  closeClient id s = (r, s') ->
  cliDipCIDsMap s' = cliDipCIDsMap s /\ replies s' = replies s /\
  exists err : option E, clients_of s' = (unregister (clients_of s) id err).2.
Proof.
  unfold Conn.closeClient. rewrite eff_get. unfold ClientStore.lookup. destruct (clients (clients_of s) !! id) as [p|] eqn:Hp.
  - intros Hr. unfold mbind at 1, eff_bind at 1, ask_stan in Hr. set (err := DeleteClient_fails _) in Hr. rewrite eff_modify in Hr.
    set (s1 := set_clients _ _) in Hr. pose proof (removeAll_clients (clients_of s1, cliDipCIDsMap s1, replies s1) p s1 eq_refl) as Hk. rewrite Hr in Hk.
    injection Hk as H1 H2 H3. split_and!; [done|done|]. by exists err.
  - intros [= <- <-]. split_and!; [done|done|]. exists None. unfold unregister. by rewrite Hp.
Qed.

Lemma end_replication_clients x q : keeps (same_clients x) (end_replication (S := S) (D := D) (R := R) (E := E) q).
Proof. by intros s Hs. Qed.

(** In a cluster this goes through Raft, which may fail. *)
Lemma close_effect flush id s r s' :
  (if isClustered (sub_env e) then replicateConnClose id flush else closeClient id) s = (r, s') ->
  cliDipCIDsMap s' = cliDipCIDsMap s /\ replies s' = replies s /\
  (clients_of s' = clients_of s \/ exists err : option E, clients_of s' = (unregister (clients_of s) id err).2).
Proof.
  destruct (isClustered (sub_env e)); [|intros (H1 & H2 & H3)%closeClient_effect; by auto]. unfold Conn.replicateConnClose.
  set (m := when flush _). assert (keeps (same_clients (clients_of s, cliDipCIDsMap s, replies s)) m) as Hm.
  { apply keeps_when. intros _. apply keeps_bind; [by intros s0 Hs0|]. intros s0. apply keeps_each. intros; apply end_replication_clients. }
  specialize (Hm s eq_refl). unfold mbind, eff_bind. destruct (m s) as [[u| |] s1]; cbn in Hm; injection Hm as F1 F2 F3.
  - unfold replicated. unfold mbind, eff_bind, ask_stan. destruct (raft_fails _); [intros [= _ <-]; cbn; by auto|].
    intros (H1 & H2 & H3)%closeClient_effect. cbn in H1, H2, H3. rewrite F1 in H3. rewrite H1, H2, F2, F3. auto.
  - intros [= _ <-]. by auto.
  - intros [= _ <-]. by auto.
Qed.

(** ** Connecting *)

(** A registered client has a valid identifier and, on a server that runs alone, a heartbeat
    timer, except one that is just being connected. *)
Definition alive (cl : clientStore) (but : option string) : Prop :=
  wf cl /\ forall id p, clients cl !! id = Some p -> matches_clientID id = true /\
    forall c, heap cl !! p = Some c -> alone -> but <> Some id -> hbt c = true.

Lemma wf_inj cl id id' p : wf cl -> clients cl !! id = Some p -> clients cl !! id' = Some p -> id = id'.
Proof. intros Hw (c & Hc & <-)%(wf_clients _ Hw) (c' & Hc' & <-)%(wf_clients _ Hw). congruence. Qed.

Lemma alive_unregister cl id err : alive cl None -> alive (unregister (E := E) cl id err).2 None.
Proof.
  intros [Hw Ha]. split; [by apply unregister_wf|]. unfold unregister. destruct (clients cl !! id) as [p|] eqn:Hp; [|done].
  destruct (wf_clients _ Hw _ _ Hp) as (c & Hc & Hid). rewrite Hc. cbn. intros id' p' [Hne Hp']%lookup_delete_Some. destruct (Ha id' p' Hp') as [Hm Hh].
  split; [done|]. intros c' Hc' Hal _. apply Hh; [|done|done]. rewrite lookup_insert_ne in Hc'; [done|]. intros <-. by eapply Hne, (wf_inj cl).
Qed.

Lemma register_effect cl i (err : option E) r cl' :
  register cl i err = (r, cl') -> alive cl None -> matches_clientID (ClientStore.ID i) = true ->
  match r with
  | inl p => alive cl' (Some (ClientStore.ID i)) /\ clients cl' !! ClientStore.ID i = Some p /\ exists c, heap cl' !! p = Some c /\ ClientStore.info c = i
  | inr _ => cl' = cl
  end.
Proof.
  intros Hr [Hw Ha] Hid. pose proof (register_wf cl i err Hw) as Hw'. rewrite Hr in Hw'. cbn in Hw'. revert Hr. unfold register.
  destruct (clients cl !! ClientStore.ID i) eqn:Hc; [by intros [= <- <-]|]. destruct err as [x|]; [by intros [= <- <-]|]. intros [= <- <-].
  split_and!; [split; [done|]|apply lookup_insert_eq|eexists; split; [apply lookup_insert_eq|done]]. cbn. intros id p [[<- <-]|[Hne Hp]]%lookup_insert_Some; [by split|].
  destruct (Ha id p Hp) as [Hm Hh]. split; [done|]. intros c Hc' Hal _. apply Hh; [|done|done]. rewrite lookup_insert_ne in Hc'; [done|].
  intros <-. destruct (wf_clients _ Hw _ _ Hp) as (d & Hd & _). by rewrite alloc_fresh in Hd.
Qed.

Lemma alive_HB cl id : alive cl (Some id) -> alive (setClientHB cl id) None.
Proof.
  intros [Hw Ha]. unfold setClientHB. destruct (clients cl !! id) as [p|] eqn:Hp; cbn.
  - destruct (wf_clients _ Hw _ _ Hp) as (c & Hc & Hid). rewrite Hc. cbn. split; [by eapply set_client_wf|]. cbn. intros id' p' Hp'.
    destruct (Ha id' p' Hp') as [Hm Hh]. split; [done|]. intros c' [[<- <-]|[Hne Hc']]%lookup_insert_Some Hal _; [done|]. apply Hh; [done|done|]. intros [= ->]. congruence.
  - split; [done|]. intros id' p' Hp'. destruct (Ha id' p' Hp') as [Hm Hh]. split; [done|]. intros c Hc Hal _. apply Hh; [done|done|]. intros [= ->]. congruence.
Qed.

(** The answers to requests to connect. *)
Definition is_connect (x : string * reply_msg E) : Prop :=
  match x.2 with Connected _ | ConnectRefused _ => True | _ => False end.
#[export] Instance is_connect_dec x : Decision (is_connect x).
Proof. unfold is_connect. destruct x.2; apply _. Defined.
Definition answered (s : cserver) : nat := length (filter is_connect (replies s)).

Lemma answered_snoc l x : length (filter is_connect (l ++ [x])) = (length (filter is_connect l) + if decide (is_connect x) then 1 else 0)%nat.
Proof.
  rewrite filter_app, length_app. f_equal. destruct (decide (is_connect x)); [by rewrite filter_cons_True|by rewrite filter_cons_False].
Qed.

(** A request that is accepted is registered, with its inbox and its connection. *)
Definition accepted (req : ConnectRequest) (to : string) (s : cserver) : Prop :=
  forall r, (to, Connected r) = default (to, Pinged false) (list.last (replies s)) ->
  exists p c, clients (clients_of s) !! r_ClientID req = Some p /\ heap (clients_of s) !! p = Some c /\
    ConnID (ClientStore.info c) = r_ConnID req /\ HbInbox (ClientStore.info c) = r_HeartbeatInbox req /\ hbt c = true.

Lemma processConnect_effect req replaceOld s r s' :
  processConnect req replaceOld s = (r, s') -> alive (clients_of s) None -> matches_clientID (r_ClientID req) = true ->
  cliDipCIDsMap s' = cliDipCIDsMap s /\ replies s' = replies s /\
  match r with
  | Ok _ => alive (clients_of s') (Some (r_ClientID req)) /\ exists p c, clients (clients_of s') !! r_ClientID req = Some p /\
      heap (clients_of s') !! p = Some c /\ ConnID (ClientStore.info c) = r_ConnID req /\ HbInbox (ClientStore.info c) = r_HeartbeatInbox req
  | _ => alive (clients_of s') None
  end.
Proof.
  intros Hr Ha Hid. revert Hr. unfold Conn.processConnect.
  assert (exists r1 s1, when replaceOld (_ ← catch (closeClient (r_ClientID req)); mret tt) s = (r1, s1) /\ cliDipCIDsMap s1 = cliDipCIDsMap s /\
    replies s1 = replies s /\ alive (clients_of s1) None /\ (r1 = Ok tt \/ r1 = Panic)) as (r1 & s1 & E1 & Hd1 & Hr1 & Ha1 & Ho).
  { destruct replaceOld; cbn [when]; [|by eexists _, _; split_and!; [|..|left]]. destruct (closeClient (r_ClientID req) s) as [r1 s1] eqn:E1.
    destruct (closeClient_effect _ _ _ _ E1) as (H1 & H2 & err & H3). rewrite (eff_catch _ _ _ _ _ E1).
    destruct r1; (eexists _, _; split; [done|]); (split; [done|]); (split; [done|]); (split; [rewrite H3; by apply alive_unregister|]); by (left + right). }
  destruct Ho as [->| ->]; [|rewrite (eff_bind_Panic _ _ _ _ E1); by intros [= <- <-]]. rewrite (eff_bind_Ok _ _ _ _ _ E1). set (i := mkClientInfo _ _ _ _ _ _).
  unfold ask_stan. unfold mbind at 1, eff_bind at 1. set (s2 := set_stan _ s1). rewrite eff_get. destruct (register (clients_of s2) i _) as [res cl] eqn:Er.
  pose proof (register_effect _ _ _ _ _ Er Ha1 Hid) as He. rewrite eff_modify. destruct res as [p|[|x]]; intros [= <- <-]; cbn; (split; [done|]); (split; [done|]).
  - destruct He as (H1 & H2 & c & H3 & H4). split; [done|]. exists p, c. rewrite H4. done.
  - by rewrite He.
  - by rewrite He.
Qed.

Lemma handleConnect_effect req to replaceOld s r s' :
  handleConnect req to replaceOld s = (r, s') -> alive (clients_of s) None -> matches_clientID (r_ClientID req) = true -> r <> Panic ->
  alive (clients_of s') None /\ cliDipCIDsMap s' = cliDipCIDsMap s /\ answered s' = Datatypes.S (answered s) /\ accepted req to s'.
Proof.
  intros Hr Ha Hid Hnp. revert Hr. unfold Conn.handleConnect. set (m := if isClustered (sub_env e) then _ else _). destruct (m s) as [r1 s1] eqn:E1.
  assert (exists s0, clients_of s0 = clients_of s /\ cliDipCIDsMap s0 = cliDipCIDsMap s /\ replies s0 = replies s /\
    (processConnect req replaceOld s0 = (r1, s1) \/ (exists x, r1 = Err x) /\ s1 = s0)) as (s0 & C0 & D0 & R0 & E0).
  { revert E1. unfold m. destruct (isClustered (sub_env e)); [|by exists s; auto]. unfold replicateConnect, replicated, mbind, eff_bind, ask_stan.
    set (s0 := set_stan _ s). exists s0. split_and!; [done|done|done|]. destruct (raft_fails _); [injection E1 as <- <-; right; eauto|by left]. }
  assert (cliDipCIDsMap s1 = cliDipCIDsMap s /\ replies s1 = replies s /\
    match r1 with
    | Ok _ => alive (clients_of s1) (Some (r_ClientID req)) /\ exists p c, clients (clients_of s1) !! r_ClientID req = Some p /\
        heap (clients_of s1) !! p = Some c /\ ConnID (ClientStore.info c) = r_ConnID req /\ HbInbox (ClientStore.info c) = r_HeartbeatInbox req
    | _ => alive (clients_of s1) None
    end) as (Hd & Hrep & Hr1).
  { rewrite <- D0, <- R0. destruct E0 as [E0|[[x ->] ->]]; [|by rewrite C0]. apply (processConnect_effect _ _ _ _ _ E0); [by rewrite C0|done]. }
  rewrite (eff_catch _ _ _ _ _ E1). unfold answered.
  destruct r1 as [u|err|]; [| |by intros [= <- <-]].
  - destruct Hr1 as (Ha1 & p & c & Hp & Hc & Hk & Hi). unfold finishConnectRequest. rewrite eff_modify. intros [= <- <-]. cbn. rewrite Hrep, answered_snoc, decide_True by done.
    split_and!; [by apply alive_HB|done|lia|]. intros res _. unfold setClientHB. rewrite Hp. cbn. rewrite Hc. cbn. eexists p, _. rewrite lookup_insert_eq. by split_and!.
  - intros [= <- <-]. cbn. rewrite Hrep, answered_snoc, decide_True by done. split_and!; [done|done|lia|]. intros res. cbn. by rewrite last_snoc.
Qed.

(** ** Interleaved handlers *)

(** The server, the requests whose client is being asked, and the number of requests so far. *)
Record conf := mkConf { cs : cserver; checking : list (ConnectRequest * string); received : nat }.

(** The handlers, in any order.  In a cluster, entries of the log that connect and close clients
    are applied as well ([Apply]), whose identifiers a leader has checked, and heartbeats are
    started and stopped when leadership is acquired and lost. *)
Inductive cstep : conf -> conf -> Prop :=
| c_connect s l n req to o s' :
    connectCB req to s = (Ok o, s') ->
    cstep (mkConf s l n) (mkConf s' (match o, req with Some _, Some r => (r, to) :: l | _, _ => l end) (Datatypes.S n))
| c_checked s l1 req to l2 n isDup s' :
    connect_checked req to isDup s = (Ok tt, s') -> cstep (mkConf s (l1 ++ (req, to) :: l2) n) (mkConf s' (l1 ++ l2) n)
| c_invalid s l n to o s' :
    processCloseRequest to None s = (Ok o, s') -> cstep (mkConf s l n) (mkConf s' l n)
| c_close s l n to id s' :
    close_after_barrier e DeleteClient_fails raft_fails to id s = (Ok tt, s') -> cstep (mkConf s l n) (mkConf s' l n)
| c_heartbeat s l n p failed b s' :
    heartbeat_done ClientHBFailCount p failed s = (Ok b, s') -> cstep (mkConf s l n) (mkConf s' l n)
| c_unhealthy s l n id s' :
    close_unhealthy e DeleteClient_fails raft_fails id s = (Ok tt, s') -> cstep (mkConf s l n) (mkConf s' l n)
| c_ping s l n to k s' :
    processClientPings to k s = (Ok tt, s') -> cstep (mkConf s l n) (mkConf s' l n)
| c_addSub s l n id q : cstep (mkConf s l n) (mkConf (set_clients (addSub (clients_of s) id q).2 s) l n)
| c_removeSub s l n id q : cstep (mkConf s l n) (mkConf (set_clients (removeSub (clients_of s) id q).2 s) l n)
| c_channels s l n st : cstep (mkConf s l n) (mkConf (set_stan st s) l n)
| c_log_connect s l n req refresh r s' :
    isClustered (sub_env e) = true -> matches_clientID (r_ClientID req) = true -> processConnect req refresh s = (r, s') -> r <> Panic ->
    cstep (mkConf s l n) (mkConf s' l n)
| c_log_close s l n id r s' :
    isClustered (sub_env e) = true -> closeClient id s = (r, s') -> cstep (mkConf s l n) (mkConf s' l n)
| c_acquired s l n id : isClustered (sub_env e) = true -> cstep (mkConf s l n) (mkConf (set_clients (setClientHB (clients_of s) id) s) l n)
| c_lost s l n p : isClustered (sub_env e) = true -> cstep (mkConf s l n) (mkConf (set_clients (removeClientHB (clients_of s) p) s) l n).

Definition ids (l : list (ConnectRequest * string)) : list string := (fun x => r_ClientID x.1) <$> l.

Record orderly (x : conf) : Prop := {
  or_alive : alive (clients_of (cs x)) None;
  or_valid : Forall (fun y => matches_clientID (r_ClientID y.1) = true) (checking x);
  or_once : NoDup (ids (checking x));
  or_dups : cliDipCIDsMap (cs x) = list_to_set (ids (checking x));
  or_answered : (answered (cs x) + length (checking x) = received x)%nat
}.

Lemma alive_object cl p c c' :
  heap cl !! p = Some c -> ClientStore.info c' = ClientStore.info c -> (alone -> hbt c = true -> hbt c' = true) -> alive cl None -> alive (set_client cl p c') None.
Proof.
  intros Hc Hi Hh [Hw Ha]. split; [by eapply set_client_wf|]. cbn. intros id q Hq. destruct (Ha id q Hq) as [Hm Hx]. split; [done|].
  intros d [[<- <-]|[_ Hd]]%lookup_insert_Some Hal _; [apply Hh; [done|]|]; by apply Hx.
Qed.

Lemma closed_orderly id s s' l n :
  cliDipCIDsMap s' = cliDipCIDsMap s -> replies s' = replies s ->
  clients_of s' = clients_of s \/ (exists err : option E, clients_of s' = (unregister (clients_of s) id err).2) ->
  orderly (mkConf s l n) -> orderly (mkConf s' l n).
Proof.
  intros H1 H2 H3 [I1 I2 I3 I4 I5]. unfold answered in *. cbn in *.
  split; cbn; unfold answered; rewrite ?H1, ?H2; try done. destruct H3 as [->|[err ->]]; [done|by apply alive_unregister].
Qed.

Lemma alive_weaken cl but : ~ alone -> alive cl but -> alive cl None.
Proof. intros Hc [Hw Ha]. split; [done|]. intros id p Hp. destruct (Ha id p Hp) as [Hm _]. by split. Qed.

Lemma clustered_orderly s s' l n :
  alive (clients_of s') None -> cliDipCIDsMap s' = cliDipCIDsMap s -> replies s' = replies s -> orderly (mkConf s l n) -> orderly (mkConf s' l n).
Proof. intros H1 H2 H3 [I1 I2 I3 I4 I5]. unfold answered in *. cbn in *. split; cbn; unfold answered; rewrite ?H2, ?H3; done. Qed.

Lemma reply_orderly to r s l n :
  ~ is_connect (to, r) -> orderly (mkConf s l n) -> orderly (mkConf (set_replies (replies s ++ [(to, r)]) s) l n).
Proof. intros Hr []. split; try done. unfold answered in *. cbn in *. rewrite answered_snoc, decide_False by done. lia. Qed.

Lemma heartbeat_orderly p failed b s s' l n :
  heartbeat_done ClientHBFailCount p failed s = (Ok b, s') -> orderly (mkConf s l n) -> orderly (mkConf s' l n).
Proof.
  unfold heartbeat_done, client_at. intros Hr I. revert Hr. unfold mbind at 1, eff_bind at 1. destruct (heap (clients_of s) !! p) as [c|] eqn:Hc; [|done].
  destruct (negb (hbt c)); [by intros [= _ <-]|]. rewrite eff_modify. set (s1 := set_clients _ s).
  assert (orderly (mkConf s1 l n)) as I1 by (destruct I; split; try done; by eapply alive_object).
  destruct (failed && _); [by intros [= _ <-]|].
  set (m := when _ _).
  assert (keeps (same_clients (clients_of s1, cliDipCIDsMap s1, replies s1)) m) as Hm.
  { apply keeps_when. intros _. apply keeps_each. intros q _ s0 Hs0. unfold set_failed. by destruct (subs _ !! q). }
  specialize (Hm s1 eq_refl). unfold mbind, eff_bind. destruct (m s1) as [[u| |] s2]; intros [= _ <-]. cbn in Hm. injection Hm as F1 F2 F3.
  destruct I1 as [J1 J2 J3 J4 J5]. unfold answered in *. split; cbn in *; unfold answered; rewrite ?F1, ?F2, ?F3; done.
Qed.

Lemma connect_orderly req to o s s' l n :
  connectCB req to s = (Ok o, s') -> orderly (mkConf s l n) ->
  orderly (mkConf s' (match o, req with Some _, Some r => (r, to) :: l | _, _ => l end) (Datatypes.S n)).
Proof.
  intros Hr I. pose proof I as [I1 I2 I3 I4 I5]. cbn in *.
  assert (forall err, orderly (mkConf (set_replies (replies s ++ [(to, ConnectRefused err)]) s) l (Datatypes.S n))) as Hrefuse.
  { intros err. split; try done. unfold answered in *. cbn. rewrite answered_snoc, decide_True by done. lia. }
  revert Hr. unfold Conn.connectCB. destruct req as [req|]; [|by intros [= <- <-]]. destruct (String.eqb _ _); [by intros [= <- <-]|].
  destruct (matches_clientID (r_ClientID req)) eqn:Hid; cbn [negb]; [|by intros [= <- <-]]. rewrite eff_get. unfold ClientStore.lookup.
  destruct (clients (clients_of s) !! r_ClientID req) as [p|] eqn:Hp.
  - case_bool_decide as Hin; [by intros [= <- <-]|]. intros [= <- <-]. rewrite I4 in Hin. apply not_elem_of_list_to_set in Hin.
    split; cbn; [done|by constructor|by constructor|by rewrite I4|]. unfold answered in *. cbn. lia.
  - destruct (handleConnect req to false s) as [r1 s1] eqn:E1. destruct r1 as [u|x|]; [rewrite (eff_bind_Ok _ _ _ _ _ E1)|by rewrite (eff_bind_Err _ _ _ _ _ E1)|by rewrite (eff_bind_Panic _ _ _ _ E1)].
    intros [= <- <-]. destruct (handleConnect_effect _ _ _ _ _ _ E1 I1 Hid) as (H1 & H2 & H3 & _); [done|]. split; cbn; try done; [by rewrite H2|lia].
Qed.

Lemma checked_orderly l1 req to l2 n isDup s s' :
  connect_checked req to isDup s = (Ok tt, s') -> orderly (mkConf s (l1 ++ (req, to) :: l2) n) -> orderly (mkConf s' (l1 ++ l2) n).
Proof.
  intros Hr [I1 I2 I3 I4 I5]. cbn in *. unfold ids in I3. rewrite fmap_app in I3. cbn in I3. rewrite Forall_app, Forall_cons in I2. destruct I2 as (V1 & V & V2).
  assert (list_to_set (ids (l1 ++ (req, to) :: l2)) ∖ {[r_ClientID req]} = (list_to_set (ids (l1 ++ l2)) : gset string)) as Hset.
  { unfold ids. rewrite !fmap_app. cbn. rewrite !list_to_set_app_L. cbn. apply NoDup_app in I3 as (_ & Hn1 & [Hn2 _]%NoDup_cons).
    assert (r_ClientID req ∉ (fun x : ConnectRequest * string => r_ClientID x.1) <$> l1) by (intros Hx; by eapply Hn1; [|left]).
    apply set_eq. intros x. rewrite elem_of_difference, !elem_of_union, !elem_of_list_to_set, elem_of_singleton. split; [set_solver|]. intros [Hx|Hx]; (split; [tauto|]); by intros ->. }
  assert (forall s1, alive (clients_of s1) None -> cliDipCIDsMap s1 = cliDipCIDsMap s -> answered s1 = Datatypes.S (answered s) ->
    orderly (mkConf (set_dups (cliDipCIDsMap s1 ∖ {[r_ClientID req]}) s1) (l1 ++ l2) n)) as Hfin.
  { intros s1 A1 A2 A3. split; cbn; [done|by apply Forall_app| |by rewrite A2, I4|].
    - unfold ids. rewrite fmap_app. apply NoDup_app in I3 as (N1 & N2 & [_ N3]%NoDup_cons). apply NoDup_app. split_and!; [done| |done].
      intros x Hx Hx2. eapply N2; [exact Hx|by right].
    - change (answered s1 + length (l1 ++ l2) = n)%nat. rewrite A3. rewrite !length_app in *. cbn in I5. lia. }
  revert Hr. unfold Conn.connect_checked. destruct isDup.
  - intros [= <-]. apply (Hfin (set_replies (replies s ++ [(to, ConnectRefused ErrDuplicateClient)]) s)); [done|done|].
    unfold answered. cbn. rewrite answered_snoc, decide_True by done. lia.
  - destruct (handleConnect req to true s) as [r1 s1] eqn:E1. destruct r1 as [u|x|]; [rewrite (eff_bind_Ok _ _ _ _ _ E1)|by rewrite (eff_bind_Err _ _ _ _ _ E1)|by rewrite (eff_bind_Panic _ _ _ _ E1)].
    intros [= <-]. destruct (handleConnect_effect _ _ _ _ _ _ E1 I1 V) as (H1 & H2 & H3 & _); [done|]. by apply Hfin.
Qed.

Lemma cstep_orderly x y : cstep x y -> orderly x -> orderly y.
Proof.
  destruct 1 as [s l n req to o s' Hs|s l1 req to l2 n d s' Hs|s l n to o s' Hs|s l n to id s' Hs|s l n p f b s' Hs|s l n id s' Hs|s l n to k s' Hs|s l n id q|s l n id q|s l n st|s l n req refresh r s' Hc Hid Hs Hnp|s l n id r s' Hc Hs|s l n id Hc|s l n p Hc]; intros I.
  - by eapply connect_orderly.
  - by eapply checked_orderly.
  - injection Hs as _ <-. apply reply_orderly; [by intros []|done].
  - revert Hs. unfold close_after_barrier. set (m := if isClustered (sub_env e) then _ else _). destruct (m s) as [r s1] eqn:E1. rewrite (eff_catch _ _ _ _ _ E1).
    apply close_effect in E1 as (H1 & H2 & H3). destruct r as [u|x|]; intros [= <-]; (apply reply_orderly; [by intros []|by eapply closed_orderly]).
  - by eapply heartbeat_orderly.
  - revert Hs. unfold close_unhealthy. set (m := if isClustered (sub_env e) then _ else _). destruct (m s) as [r s1] eqn:E1. rewrite (eff_catch _ _ _ _ _ E1).
    apply close_effect in E1 as (H1 & H2 & H3). destruct r as [u|x|]; intros [= <-]; by eapply closed_orderly.
  - destruct k as [k|]; [|by injection Hs as <-]. injection Hs as <-. apply reply_orderly; [by intros []|done].
  - destruct I. split; try done. cbn. unfold addSub. destruct (clients (clients_of s) !! id) as [p|]; [|done]. cbn. destruct (heap (clients_of s) !! p) eqn:Hc; [|done]. by eapply alive_object.
  - destruct I. split; try done. cbn. unfold removeSub. destruct (clients (clients_of s) !! id) as [p|]; [|done]. cbn. destruct (heap (clients_of s) !! p) as [c|] eqn:Hc; [|done]. cbn.
    destruct (Sublist.removeFromList q (csubs c)); [|done]. by eapply alive_object.
  - by destruct I.
  - destruct (processConnect_effect _ _ _ _ _ Hs (or_alive _ I) Hid) as (H1 & H2 & H3). apply (clustered_orderly s); [|done|done|done].
    destruct r; [|done|done]. destruct H3 as [H3 _]. eapply alive_weaken; [by rewrite Hc|done].
  - destruct (closeClient_effect _ _ _ _ Hs) as (H1 & H2 & H3). eapply closed_orderly; [done|done|right; done|done].
  - apply (clustered_orderly s); [|done|done|done]. cbn. apply alive_HB. destruct (or_alive _ I) as [Hw Ha]. split; [done|]. intros id' p Hp. destruct (Ha id' p Hp). by rewrite Hc.
  - apply (clustered_orderly s); [|done|done|done]. cbn. unfold removeClientHB. destruct (heap (clients_of s) !! p) as [c|] eqn:Hp; [|apply I].
    eapply alive_object; [done|done|by rewrite Hc|apply I].
Qed.

Definition no_clients (x : conf) : Prop :=
  clients_of (cs x) = newClientStore /\ cliDipCIDsMap (cs x) = ∅ /\ replies (cs x) = [] /\ checking x = [] /\ received x = 0%nat.

(** [C17] Under any interleaving of requests to connect and to close, checks of clients that
    are already known, heartbeats, pings and subscriptions, on a server that runs alone or on
    one of a cluster, which also applies such requests from the log and may acquire and lose
    leadership: every request to connect has been answered exactly once or its check is still
    going on, at most one check per client goes on, and each registered client is found under
    its identifier, which is valid, and has a heartbeat timer if the server runs alone. *)
Theorem connections_orderly x y :
  no_clients x -> rtc cstep x y ->
  (answered (cs y) + length (checking y) = received y)%nat /\ NoDup (ids (checking y)) /\ wf (clients_of (cs y)) /\
  (forall id p, clients (clients_of (cs y)) !! id = Some p -> matches_clientID id = true /\
     exists c, heap (clients_of (cs y)) !! p = Some c /\ ClientStore.ID (ClientStore.info c) = id /\ (isClustered (sub_env e) = false -> hbt c = true)).
Proof.
  intros (N1 & N2 & N3 & N4 & N5) Hr. assert (orderly y) as [I1 I2 I3 I4 I5].
  { assert (orderly x) as I.
    { split; unfold answered; rewrite ?N1, ?N2, ?N3, ?N4, ?N5; try done. apply NoDup_nil_2. }
    clear N1 N2 N3 N4 N5. induction Hr as [x|x z y Hs _ IH]; [done|]. apply IH. by apply (cstep_orderly x). }
  split_and!; [done|done|apply I1|]. intros id p Hp. destruct I1 as [Hw Ha]. destruct (Ha id p Hp) as [Hm Hh]. split; [done|].
  destruct (wf_clients _ Hw _ _ Hp) as (c & Hc & Hid). exists c. split_and!; [done|done|]. intros Hal. by apply Hh.
Qed.
End Spec.
End ConnSpec.

Module ConnectSample.
Import Sub Reg Chan ChanSpec MemoryServer PublishSample Conn ConnSpec.
#[local] Existing Instances names_order ptr_order sample_store_spec sample_log sample_raft insertion_sorter.
#[local] Instance Z_order : RangeOrder Z := default_order Z.

Definition no_failure (n : nat) : option memory_error := None.
Definition prefixes : subjects := mkSubjects "pub" "sub" "unsub" "subclose" "close" "discover".

Abbreviation cserver := (@cserver Mem.MemoryMsgStore memory (gmap string Z) memory_error).
Abbreviation connectCB := (connectCB alone prefixes no_failure no_failure no_failure).
Abbreviation connect_checked := (connect_checked alone prefixes no_failure no_failure no_failure).
Abbreviation close_after_barrier := (close_after_barrier alone no_failure no_failure).

Definition fresh_server : cserver := mkCServer empty_server newClientStore ∅ [].
Definition hello (connID : string) : ConnectRequest := mkConnect "me" ("hb." ++ connID) connID 1 5 3.
Definition welcome : reply_msg memory_error :=
  Connected (mkConnected "pub" "sub" "unsub" "subclose" "close" 1 "discover.pings" 5 3).

(** The second request finds the first client; while that one is asked, it closes, and a third
    client connects. *)
Definition three_connects : eff cserver (conn_error memory_error) (option ptr) :=
  _ ← connectCB (Some (hello "a")) "a";
  r ← connectCB (Some (hello "b")) "b";
  _ ← close_after_barrier "a.close" "me";
  _ ← connectCB (Some (hello "c")) "c";
  _ ← connect_checked (hello "b") "b" false;
  mret r.

Definition replaced : cserver := (three_connects fresh_server).2.

(** A run.  While a request waits for the check of a registered client, that client closes
    and another one connects under the same identifier, which is accepted although the
    check goes on.  When the first client does not answer, the new one is replaced: it was
    told that it is connected, nobody asked it, it has not closed, and it is not known to the
    server any more. *)
Theorem healthy_client_replaced :
  (three_connects fresh_server).1 = Ok (Some 0%nat) /\
  replies replaced = [("a", welcome); ("a.close", Closed None); ("c", welcome); ("b", welcome)] /\
  lookupByConnID (clients_of replaced) "c" = None /\ is_Some (lookupByConnID (clients_of replaced) "b") /\
  (fun c => ConnID (ClientStore.info c)) <$> heap (clients_of replaced) !! 0%nat = Some "a".
Proof. split_and!; try (eexists; vm_compute; reflexivity); vm_compute; reflexivity. Qed.

(** The configurations of a run with one check, which finds that the client is there. *)
Definition one := (connectCB (Some (hello "a")) "a" fresh_server).2.
Definition two := (connectCB (Some (hello "b")) "b" one).2.
Definition three := (connect_checked (hello "b") "b" true two).2.

Lemma connections_orderly_witness :
  (answered three + 0 = 2)%nat /\ is_Some (clients (clients_of three) !! "me").
Proof.
  assert (no_clients (mkConf fresh_server [] 0)) as Hn by (by split_and!).
  assert (rtc (cstep alone prefixes 2 no_failure no_failure no_failure) (mkConf fresh_server [] 0) (mkConf three [] 2)) as Hr.
  { eapply rtc_l; [apply (c_connect _ _ _ _ _ _ fresh_server [] 0 (Some (hello "a")) "a" None one); vm_compute; reflexivity|].
    eapply rtc_l; [apply (c_connect _ _ _ _ _ _ one [] 1 (Some (hello "b")) "b" (Some 0%nat) two); vm_compute; reflexivity|].
    apply rtc_once, (c_checked _ _ _ _ _ _ two [] (hello "b") "b" [] 2 true three). vm_compute. reflexivity. }
  destruct (connections_orderly alone prefixes 2 no_failure no_failure no_failure _ _ Hn Hr) as (H1 & _). split; [exact H1|]. eexists. vm_compute. reflexivity.
Defined.
End ConnectSample.
