(* ===== verification/RestoreMsgs.v ===== *)
(** * Restoring messages from the leader

    A node that falls behind asks the leader for the messages that it does not have
    ([restoreMsgsFromSnapshot] and what it calls, in src/server/snapshot.go); the leader
    answers such requests ([subToSnapshotRestoreRequests], in src/server/server.go).  The
    NATS connection between them is a parameter. *)

From Stdlib Require Import ZArith Lia Ascii String.
From stdpp Require Import base list gmap strings.
From S2P Require Import Prelude Bytes GoLib Effects MemStore MsgStore MsgRestore SubState SubStore ChannelStore.

Local Open Scope Z_scope.

Module Restore.
Import Sub Reg Chan.

Definition restoreMsgsV2 : string := "sfa".
Definition restoreMsgsFirstAvailSuffix : string := ".first".
Definition defaultSnapshotPrefix : string := "_STAN.snap".

(** [strings.HasSuffix] *)
Definition HasSuffix (s suffix : string) : bool :=
  let n := String.length s in
  let k := String.length suffix in
  (k <=? n)%nat && String.eqb (String.substring (n - k) k s) suffix.

Lemma substring_whole y : String.substring 0 (String.length y) y = y.
Proof. induction y as [|b y IH]; cbn; [done|]. by rewrite IH. Qed.
Lemma substring_app x y n : String.length y = n -> String.substring (String.length x) n (x ++ y) = y.
Proof. intros <-. induction x as [|a x IH]; [apply substring_whole|done]. Qed.
Lemma length_append x y : String.length (x ++ y) = (String.length x + String.length y)%nat.
Proof. induction x as [|a x IH]; [done|]. change (Datatypes.S (String.length (x ++ y)) = Datatypes.S (String.length x + String.length y)). by f_equal. Qed.
Lemma append_assoc_l x y z : (x ++ (y ++ z) = (x ++ y) ++ z)%string.
Proof. induction x as [|a x IH]; [done|]. change (String a (x ++ (y ++ z)) = String a ((x ++ y) ++ z))%string. by rewrite IH. Qed.
Lemma HasSuffix_append x y : HasSuffix (x ++ y) y = true.
Proof.
  unfold HasSuffix. rewrite length_append. replace (_ + _ - _)%nat with (String.length x) by lia.
  rewrite substring_app by done. rewrite String.eqb_refl, andb_true_r. apply Nat.leb_le. lia.
Qed.

(** An answer of the leader, which goes to the inbox of the request. *)
Record response := mkResponse { r_Reply : string; r_Data : list byte }.

Definition restore_subject (clusterID name : string) : string :=
  (defaultSnapshotPrefix ++ "." ++ clusterID ++ "." ++ name)%string.

(** ** The leader *)

Section Leader.
Context {S D R E : Type} `{MsgStore S} `{!MsgLog S E} `{!Stores D S E} `{!RaftStore R E} `{!MsgRestore S E}.
Context (marshal : MsgProto -> list byte) (clusterID : string).
(** Whether publishing the [n]-th answer fails, and whether the server is shut down after it. *)
Context (publish_fails shut_down : nat -> bool).

(** The message to send for [seq], and whether it is the first available one; [None] when
    the store fails. *)
Definition pick (ms : S) (v2 : bool) (seq : Z) : option (option MsgProto * bool) :=
  match MsgStore.Lookup ms seq with
  | inr _ => None
  | inl (Some m) => Some (Some m, false)
  | inl None =>
      if v2 then
        match FirstMsg ms with
        | inr _ => None
        | inl None => Some (None, false)
        | inl (Some m) => Some (if Sequence m <? seq then None else Some m, true)
        end
      else Some (None, false)
  end.

(** The loop, on the next sequence; [n] answers have been sent. *)
Fixpoint answer_range (fuel : nat) (ms : S) (v2 : bool) (seq last : Z) (n : nat) : list response :=
  match fuel with
  | O => []
  | Datatypes.S fuel' =>
      if last <? seq then []
      else match pick ms v2 seq with
      | None => []
      | Some (msg, sendingTheFirstAvail) =>
          if publish_fails n then []
          else
            let reply := if v2 then restoreMsgsV2 else "" in
            let replyFirstAvail := if v2 then (restoreMsgsV2 ++ restoreMsgsFirstAvailSuffix)%string else "" in
            let respReply := if sendingTheFirstAvail then replyFirstAvail else reply in
            match msg with
            | None => [mkResponse respReply []]
            | Some m =>
                mkResponse respReply (marshal m) ::
                (if shut_down n then [] else answer_range fuel' ms v2 (u64 (Sequence m + 1)) last (n + 1))
            end
      end
  end.

(** The handler of a request: the answers to [reply]. *)
Definition snapshotRestoreRequest (subject reply : string) (data : list byte) (s : @stan S D R E)
  : outcome (chan_error E) (list response) :=
  if negb (length data =? 16)%nat then Ok []
  else
    let v2 := HasSuffix reply ("." ++ restoreMsgsV2) in
    let prefixLen := String.length (restore_subject clusterID "") in
    match (getIfNotAboutToBeDeleted (String.substring prefixLen (String.length subject - prefixLen) subject) s).1 with
    | Ok None => Ok [mkResponse (if v2 then restoreMsgsV2 else "") []]
    | Ok (Some p) =>
        match chans s !! p with
        | None => Panic
        | Some c =>
            let start := get_le (take 8 data) in
            let last := get_le (drop 8 data) in
            Ok (answer_range (Z.to_nat (last - start + 1)) (msgs c) v2 start last 0)
        end
    | Err x => Err x
    | Panic => Panic
    end.
End Leader.

(** ** The NATS connection *)

(** Inboxes, requests and their answers; the clock, whether reading the last sequence of the
    store fails, and whether the server is shutting down, when they are asked for. *)
Class Wire (N E : Type) := {
  NewInbox : N -> string * N;
  SubscribeSync : string -> N -> option E * N;
  PublishRequest : string -> string -> list byte -> N -> option E * N;
  NextMsg : string -> N -> outcome E response * N;
  wall_time : N -> Z * N;
  last_fails : N -> option E * N;
  shutdownCh : N -> bool * N
}.

Inductive restore_error (E : Type) :=
| RestoreStore (e : E) | RestoreWire (e : E) | DecodeMsg | ExpectedMsg (seq got : Z) | ShuttingDown | NoFuel.
Arguments RestoreStore {E} e.
Arguments RestoreWire {E} e.
Arguments DecodeMsg {E}.
Arguments ExpectedMsg {E} seq got.
Arguments ShuttingDown {E}.
Arguments NoFuel {E}.

(** ** The node that restores *)

Section Follower.
Context {S N E : Type} `{MsgStore S} `{!MsgLog S E} `{!MsgRestore S E} `{!Wire N E}.
Context (unmarshal : list byte -> option MsgProto) (clusterID : string).

(** The channel and the connection. *)
Record rstate := mkR { ch : @channel S; wire : N }.

Abbreviation M := (eff rstate (restore_error E)).

Definition on_wire {A : Type} (f : N -> A * N) : M A := fun s =>
  let '(a, n) := f (wire s) in (Ok a, mkR (ch s) n).
Definition wire_call {A : Type} (f : N -> outcome E A * N) : M A :=
  r ← on_wire f;
  match r with Ok a => mret a | Err x => fail (RestoreWire x) | Panic => panic end.
Definition wire_ok (f : N -> option E * N) : M unit :=
  r ← on_wire f; match r with None => mret tt | Some x => fail (RestoreWire x) end.

Definition on_store_msgs {A : Type} (f : S -> outcome E A * S) : M A := fun s =>
  let '(r, ms) := f (msgs (ch s)) in
  (match r with Ok a => Ok a | Err x => Err (RestoreStore x) | Panic => Panic end, mkR (set_msgs ms (ch s)) (wire s)).

Definition set_firstSeq (v : Z) (c : @channel S) : @channel S :=
  mkChannel v (nextSequence c) (name c) (id c) (msgs c) (ss c) (lTimestamp c) (activity c) (nextSubID c) (lSeqChecked c).
Definition put_firstSeq (v : Z) : M unit := modify (fun s => mkR (set_firstSeq v (ch s)) (wire s)).

Definition store_msg (m : MsgProto) : M unit :=
  t ← on_wire wall_time; _ ← on_store_msgs (StoreMsg t m); mret tt.

Definition sendRestoreMsgRequest (subject inbox : string) (start last : Z) : M unit :=
  wire_ok (PublishRequest subject inbox (put_le 8 start ++ put_le 8 last)).

Definition restoreMsgsFetchOne (subject inbox : string) (seq : Z) : M response :=
  _ ← sendRestoreMsgRequest subject inbox seq seq; wire_call (NextMsg inbox).

Definition new_inbox : M string :=
  inbox ← on_wire NewInbox;
  let inbox := (inbox ++ "." ++ restoreMsgsV2)%string in
  _ ← wire_ok (SubscribeSync inbox);
  mret inbox.

Definition hasLeaderSentFirstAvail (subject : string) (reqSeq gotSeq : Z) : M bool :=
  inbox ← new_inbox;
  rawMsg ← restoreMsgsFetchOne subject inbox reqSeq;
  match r_Data rawMsg with
  | [] => mret false
  | data => match unmarshal data with Some msg => mret (Sequence msg =? gotSeq) | None => fail DecodeMsg end
  end.

(** The binary search halves the interval: its length is enough fuel. *)
Fixpoint find_loop (fuel : nat) (subject inbox : string) (l r : Z) : M Z :=
  if l <=? r then
    match fuel with
    | O => fail NoFuel
    | Datatypes.S fuel' =>
        let m := u64 (l + r) / 2 in
        resp ← restoreMsgsFetchOne subject inbox m;
        match r_Data resp with
        | [] => find_loop fuel' subject inbox (u64 (m + 1)) r
        | _ => find_loop fuel' subject inbox l (u64 (m - 1))
        end
    end
  else mret l.

Definition restoreMsgsFindFirstAvailSeqFromOldLeader (subject inbox : string) (start last : Z) : M Z :=
  resp ← restoreMsgsFetchOne subject inbox last;
  match r_Data resp with
  | [] => mret (u64 (last + 1))
  | _ => find_loop (Z.to_nat (last - start + 1)) subject inbox start last
  end.

(** The variables of the loop. *)
Record vars := mkVars { seq : Z; reqStart : Z; reqEnd : Z; stored : bool; cnfcount : Z }.

(** A request for the next sequences, when those asked for have come. *)
Definition ask_more (subject inbox : string) (last : Z) (v : vars) : M vars :=
  if seq v =? reqStart v then
    let e := u64 (u64 (reqStart v + 100) - 1) in
    let reqEnd := if last <? e then last else e in
    _ ← sendRestoreMsgRequest subject inbox (reqStart v) reqEnd;
    mret (mkVars (seq v) (if negb (reqEnd =? last) then u64 (reqEnd + 1) else reqStart v) reqEnd (stored v) (cnfcount v))
  else mret v.

(** A message: [None] ends the loop. *)
Definition got_msg (subject : string) (last : Z) (resp : response) (msg : MsgProto) (v : vars) : M (option vars) :=
  if Sequence msg =? seq v then
    _ ← store_msg msg;
    mret (Some (mkVars (seq v) (reqStart v) (reqEnd v) true 0))
  else
    _ ← (if negb (HasSuffix (r_Reply resp) restoreMsgsFirstAvailSuffix) && (seq v <=? reqEnd v) then
           r ← catch (hasLeaderSentFirstAvail subject (seq v) (Sequence msg));
           match r with inl true => mret tt | _ => fail (ExpectedMsg (seq v) (Sequence msg)) end
         else mret tt);
    _ ← on_store_msgs EmptyMsgs;
    if last <? Sequence msg then _ ← put_firstSeq (u64 (last + 1)); mret None
    else
      _ ← put_firstSeq (Sequence msg);
      let v := mkVars (Sequence msg) (if reqEnd v <? Sequence msg then u64 (Sequence msg + 1) else reqStart v) (reqEnd v) true 0 in
      _ ← store_msg msg;
      mret (Some v).

(** No message: it expired, or was removed because of limits. *)
Definition got_nothing (subject inbox : string) (first last : Z) (resp : response) (v : vars) : M (option vars) :=
  let clear := (seq v =? first) || stored v in
  _ ← when clear (on_store_msgs EmptyMsgs);
  let stored := if clear then false else stored v in
  _ ← put_firstSeq (u64 (seq v + 1));
  if String.eqb (r_Reply resp) restoreMsgsV2 then mret None
  else if 10 <=? cnfcount v + 1 then
    fseq ← restoreMsgsFindFirstAvailSeqFromOldLeader subject inbox (u64 (seq v + 1)) last;
    if last <? fseq then _ ← put_firstSeq (u64 (last + 1)); mret None
    else let seq := u64 (fseq - 1) in mret (Some (mkVars seq (u64 (seq + 1)) (reqEnd v) stored 0))
  else mret (Some (mkVars (seq v) (u64 (seq v + 1)) (reqEnd v) stored (cnfcount v + 1))).

(** One round of the loop, with the increment of [seq]. *)
Definition restore_step (subject inbox : string) (first last : Z) (v : vars) : M (option vars) :=
  v ← ask_more subject inbox last v;
  resp ← wire_call (NextMsg inbox);
  o ← match r_Data resp with
      | [] => got_nothing subject inbox first last resp v
      | data => match unmarshal data with
                | None => fail DecodeMsg
                | Some msg => got_msg subject last resp msg v
                end
      end;
  match o with
  | None => mret None
  | Some v =>
      closing ← on_wire shutdownCh;
      if closing : bool then fail ShuttingDown
      else mret (Some (mkVars (u64 (seq v + 1)) (reqStart v) (reqEnd v) (stored v) (cnfcount v)))
  end.

Fixpoint restore_loop (fuel : nat) (subject inbox : string) (first last : Z) (v : vars) : M unit :=
  if seq v <=? last then
    match fuel with
    | O => fail NoFuel
    | Datatypes.S fuel' =>
        o ← restore_step subject inbox first last v;
        match o with Some v => restore_loop fuel' subject inbox first last v | None => mret tt end
    end
  else mret tt.

(** Where to start; messages that cannot be continued are dropped. *)
Definition restore_from (first : Z) (fromApply : bool) (storeLast : Z) : M Z :=
  let first := if fromApply then u64 (storeLast + 1) else first in
  first ← (if u64 (storeLast + 1) <? first then _ ← when (negb (storeLast =? 0)) (on_store_msgs EmptyMsgs); mret first
           else if first <=? storeLast then mret (u64 (storeLast + 1)) else mret first);
  s ← get;
  mret (if first <? firstSeq (ch s) then firstSeq (ch s) else first).

Definition restoreMsgsFromSnapshot (fuel : nat) (first last : Z) (fromApply : bool) : M unit :=
  err ← on_wire last_fails;
  match err with
  | Some x => fail (RestoreStore x)
  | None =>
      s ← get;
      first ← restore_from first fromApply (LastSequence (msgs (ch s)));
      if last <? first then mret tt
      else
        inbox ← new_inbox;
        let subject := restore_subject clusterID (name (ch s)) in
        _ ← restore_loop fuel subject inbox first last (mkVars first first 0 false 0);
        on_store_msgs FlushMsgs
  end.
End Follower.

(** ** First and last sequences *)

(** [getChannelFirstAndlLastSeq]; [err] is an error of the store. *)
Definition getChannelFirstAndlLastSeq {S E : Type} `{MsgStore S} (isClustered : bool) (err : option E) (c : @channel S)
  : outcome E (Z * Z) :=
  match err with
  | Some x => Err x
  | None =>
      let '(first, last) := FirstAndLastSequence (msgs c) in
      Ok (if isClustered && (first =? 0) && (last =? 0) && negb (firstSeq c =? 0)
          then (firstSeq c, u64 (firstSeq c - 1)) else (first, last))
  end.

(** The sequence of the next message of a channel, when the node becomes leader. *)
Definition next_on_leadership {S E : Type} `{MsgStore S} (err : option E) (c : @channel S) : outcome E (@channel S) :=
  match getChannelFirstAndlLastSeq true err c with
  | Ok (_, lastSequence) => Ok (if nextSequence c <=? lastSequence then set_nextSequence (u64 (lastSequence + 1)) c else c)
  | Err x => Err x
  | Panic => Panic
  end.
End Restore.
