(* ===== verification/RestoreSpec.v ===== *)
(** * What a node restores from the leader

    A node that has restored the messages of a channel up to some sequence has stored, in
    order and without a gap, the messages of the channel from the end of what it had, or
    from a message such that all earlier ones are gone on the leader.  This holds for any
    loss of requests and answers, and with a leader whose oldest messages go meanwhile. *)

From Stdlib Require Import ZArith Lia Ascii String.
From stdpp Require Import base list gmap strings.
From S2P Require Import Prelude Bytes GoLib Effects MemStore MsgStore MsgRestore SubState SubStore ChannelStore RestoreMsgs.

Local Open Scope Z_scope.

Module RestoreSpec.
Import Sub Reg Chan Restore.

(** ** What the answers tell *)

Section Laws.
Context {N E : Type} `{!Wire N E}.
(** The messages of the channel by sequence, and the last one that the leader has. *)
Context (marshal : MsgProto -> list byte) (h : Z -> MsgProto) (top : Z) (subject : string).

(** [gone n]: the leader has removed the messages before it.  [asked n i k]: the inbox [i]
    was given for a request whose range has [k].  An answer without a message means that the
    leader has none; one that is not marked as the first available was asked for. *)
Definition genuine (gone : N -> Z) (asked : N -> string -> Z -> Prop) (n : N) (i : string) (r : response) : Prop :=
  (r_Data r = [] /\ r_Reply r = restoreMsgsV2 /\ top < gone n) \/
  (exists k, 0 < k < two64 - 1 /\ r_Data r = marshal (h k) /\
     ((r_Reply r = restoreMsgsV2 /\ asked n i k) \/ (r_Reply r = (restoreMsgsV2 ++ restoreMsgsFirstAvailSuffix)%string /\ k <= gone n))).

Class WireSpec := {
  live : N -> Prop;
  gone : N -> Z;
  asked : N -> string -> Z -> Prop;
  later (n n' : N) : Prop := live n' /\ gone n <= gone n' /\ (forall i k, asked n' i k -> asked n i k);
  NewInbox_law n : live n ->
    later n (NewInbox n).2 /\ (forall k, ~ asked (NewInbox n).2 ((NewInbox n).1 ++ "." ++ restoreMsgsV2)%string k);
  SubscribeSync_law n i : live n -> later n (SubscribeSync i n).2;
  PublishRequest_law n i a b : live n -> 0 < a <= top -> 0 < b <= top ->
    let n' := (PublishRequest subject i (put_le 8 a ++ put_le 8 b) n).2 in
    live n' /\ gone n <= gone n' /\ (forall j k, asked n' j k -> asked n j k \/ (j = i /\ a <= k <= b));
  NextMsg_law n i : live n ->
    later n (NextMsg i n).2 /\ (forall r, (NextMsg i n).1 = Ok r -> HasSuffix i ("." ++ restoreMsgsV2) = true -> genuine gone asked (NextMsg i n).2 i r);
  wall_time_law n : live n -> later n (wall_time n).2;
  last_fails_law n : live n -> later n (last_fails n).2;
  shutdownCh_law n : live n -> later n (shutdownCh n).2
}.
End Laws.
Arguments live {N E _ marshal h top subject _} n.
Arguments gone {N E _ marshal h top subject _} n.
Arguments asked {N E _ marshal h top subject _} n i k.
Arguments later {N E _ marshal h top subject _} n n'.
Arguments NewInbox_law {N E _ marshal h top subject _} n.
Arguments SubscribeSync_law {N E _ marshal h top subject _} n i.
Arguments PublishRequest_law {N E _ marshal h top subject _} n i a b.
Arguments NextMsg_law {N E _ marshal h top subject _} n i.
Arguments wall_time_law {N E _ marshal h top subject _} n.
Arguments last_fails_law {N E _ marshal h top subject _} n.
Arguments shutdownCh_law {N E _ marshal h top subject _} n.

Section Spec.
Context {S N E : Type} `{!MsgStore S} `{!MsgStoreSpec S} `{!MsgLog S E} `{!MsgLogSpec S E} `{!MsgRestore S E} `{!MsgRestoreSpec S E} `{!Wire N E}.
Context (marshal : MsgProto -> list byte) (unmarshal : list byte -> option MsgProto) (clusterID : string).
Context (h : Z -> MsgProto) (top : Z) (subject : string) `{W : !WireSpec marshal h top subject}.
Context (h_seq : forall k, 0 < k < two64 - 1 -> Sequence (h k) = k /\ storable (h k)).
Context (h_codec : forall k, 0 < k < two64 - 1 -> marshal (h k) <> [] /\ unmarshal (marshal (h k)) = Some (h k)).

Abbreviation rstate := (@rstate S N).
Abbreviation M := (eff rstate (restore_error E)).

(** ** Runs that return *)

(** The messages from [b] on, before [s]. *)
Definition msgs_from (b s : Z) : list MsgProto := h <$> seqZ b (s - b).

(** What the store has when the messages before [s] are restored, from a store with [w0]. *)
Definition restored (w0 : win) (g s : Z) (w : win) : Prop :=
  exists b base, (b = Window.wlast w0 + 1 /\ base = w0 \/ 0 < b <= g /\ base = None) /\ pushed_all (msgs_from b s) base w.

(** The same while the messages are restored: the next message is [s]. *)
Definition restoring (w0 : win) (g s : Z) (w : win) : Prop :=
  0 < s /\ (is_Some w -> Window.wlast w = s - 1) /\
  exists b base, (b = Window.wlast w0 + 1 /\ base = w0 \/ 0 < b <= g /\ base = None) /\ b <= s /\ pushed_all (msgs_from b s) base w.

Lemma restoring_restored w0 g s w : restoring w0 g s w -> restored w0 g s w.
Proof. intros (_ & _ & b & base & Hb & _ & Hp). by exists b, base. Qed.

Lemma restoring_le w0 g g' s w : g <= g' -> restoring w0 g s w -> restoring w0 g' s w.
Proof. intros Hg (Hs & Hl & b & base & [Hb|[Hb ->]] & Hp); (split; [done|split; [done|]]); exists b; [exists base|exists None]; (split; [|done]); [by left|right; split; [lia|done]]. Qed.

Lemma msgs_from_nil b s : s <= b -> msgs_from b s = [].
Proof. intros Hs. unfold msgs_from. by rewrite seqZ_nil by lia. Qed.

Lemma msgs_from_snoc b s : b <= s -> msgs_from b (s + 1) = msgs_from b s ++ [h s].
Proof.
  intros Hb. unfold msgs_from. replace (s + 1 - b) with (s - b + 1) by lia. rewrite seqZ_app by lia. rewrite fmap_app. f_equal.
  replace (b + (s - b)) with s by lia. done.
Qed.

(** Everything before [s] is gone. *)
Lemma restoring_none w0 g s : 0 < s <= g -> restoring w0 g s None.
Proof. intros Hs. split; [lia|]. split; [by intros []|]. exists s, None. split; [right; split; [lia|done]|]. split; [lia|]. rewrite msgs_from_nil by lia. constructor. Qed.

Lemma restored_none w0 g s f : 0 < f -> s <= f -> f <= g -> restored w0 g s None.
Proof. intros H0 Hs Hf. exists f, None. split; [by right|]. rewrite msgs_from_nil by done. constructor. Qed.

Lemma restoring_start w g : 0 <= Window.wlast w -> restoring w g (Window.wlast w + 1) w.
Proof. intros Hw. split; [lia|]. split; [lia|]. exists (Window.wlast w + 1), w. split; [by left|]. split; [lia|]. rewrite msgs_from_nil by lia. constructor. Qed.

(** The connection goes on, and nothing else changes. *)
Definition same_channel (st st' : rstate) : Prop := ch st' = ch st /\ later (wire st) (wire st').

Lemma later_trans n1 n2 n3 : later n1 n2 -> later n2 n3 -> later n1 n3.
Proof. intros (_ & ? & H1) (? & ? & H2). split_and!; [done|lia|auto]. Qed.

Lemma on_wire_inv {A : Type} (f : N -> A * N) (st : rstate) a st' :
  (on_wire f : M A) st = (Ok a, st') -> ch st' = ch st /\ (a, wire st') = f (wire st).
Proof. unfold on_wire. destruct (f (wire st)) as [x n] eqn:Ef. by intros [= <- <-]. Qed.

Lemma wire_ok_inv (f : N -> option E * N) (st : rstate) u st' : wire_ok f st = (Ok u, st') -> ch st' = ch st /\ wire st' = (f (wire st)).2.
Proof.
  unfold wire_ok. intros (a & s1 & H1 & H2)%eff_bind_inv. apply on_wire_inv in H1 as [H1 H3]. destruct a; [done|]. injection H2 as _ <-. by rewrite <- H3.
Qed.

Lemma wire_call_inv {A : Type} (f : N -> outcome E A * N) (st : rstate) a st' :
  wire_call f st = (Ok a, st') -> ch st' = ch st /\ f (wire st) = (Ok a, wire st').
Proof.
  unfold wire_call. intros (r & s1 & H1 & H2)%eff_bind_inv. apply on_wire_inv in H1 as [H1 H3]. destruct r; [|done|done]. injection H2 as -> <-. done.
Qed.

Lemma NextMsg_inv i (st : rstate) r st' :
  live (wire st) -> HasSuffix i ("." ++ restoreMsgsV2) = true -> wire_call (NextMsg i) st = (Ok r, st') -> same_channel st st' /\ genuine marshal h top gone asked (wire st') i r.
Proof.
  intros Hlive Hi [H1 H2]%wire_call_inv. destruct (NextMsg_law (wire st) i Hlive) as [Hl Hg]. rewrite H2 in *. split; [by split|]. by apply Hg.
Qed.

Lemma send_inv i a b (st : rstate) u st' :
  live (wire st) -> sendRestoreMsgRequest subject i a b st = (Ok u, st') -> 0 < a <= top -> 0 < b <= top ->
  ch st' = ch st /\ live (wire st') /\ gone (wire st) <= gone (wire st') /\ (forall j k, asked (wire st') j k -> asked (wire st) j k \/ (j = i /\ a <= k <= b)).
Proof. intros Hlive [H1 H2]%wire_ok_inv Ha Hb. rewrite H2. split; [done|]. by apply PublishRequest_law. Qed.

Lemma new_inbox_inv (st : rstate) i st' :
  live (wire st) -> new_inbox st = (Ok i, st') -> same_channel st st' /\ HasSuffix i ("." ++ restoreMsgsV2) = true /\ (forall k, ~ asked (wire st') i k).
Proof.
  unfold new_inbox. intros Hlive (x & s1 & H1 & H2)%eff_bind_inv. apply on_wire_inv in H1 as [H1 H3].
  apply eff_bind_inv in H2 as (u & s2 & H4 & [= <- <-]). apply wire_ok_inv in H4 as [H4 H5].
  destruct (NewInbox_law (wire st) Hlive) as [L1 Hn]. rewrite <- H3 in L1, Hn. cbn in L1, Hn.
  pose proof (SubscribeSync_law (wire s1) (x ++ "." ++ restoreMsgsV2) (proj1 L1)) as L2. rewrite <- H5 in L2. split; [split; [congruence|by eapply later_trans]|].
  split; [apply (HasSuffix_append x)|]. intros k Hk. apply (Hn k). by apply L2.
Qed.

(** A single message, asked for on an inbox of its own, that has another sequence is the
    first one that the leader has. *)
Lemma first_avail_inv (st : rstate) s k b st' :
  live (wire st) -> hasLeaderSentFirstAvail unmarshal subject s k st = (Ok b, st') -> 0 < s <= top -> s <> k ->
  ch st' = ch st /\ live (wire st') /\ gone (wire st) <= gone (wire st') /\ (b = true -> k <= gone (wire st')).
Proof.
  intros Hlive Hr Hs Hk. unfold hasLeaderSentFirstAvail in Hr. apply eff_bind_inv in Hr as (i & s1 & H1 & Hr).
  apply new_inbox_inv in H1 as ((C1 & L1 & G1 & _) & Hi & Hno); [|done].
  apply eff_bind_inv in Hr as (raw & s2 & H2 & Hr). unfold restoreMsgsFetchOne in H2. apply eff_bind_inv in H2 as (u & s3 & H3 & H4).
  apply send_inv in H3 as (C3 & L3 & G3 & A3); [|done..]. apply NextMsg_inv in H4 as ((C4 & L4 & G4 & A4) & Hg); [|done..].
  assert (st' = s2 /\ (b = true -> r_Data raw <> [] /\ exists m, unmarshal (r_Data raw) = Some m /\ Sequence m = k)) as [-> Hb].
  { destruct (r_Data raw) as [|x l]; [by injection Hr as <- <-|]. destruct (unmarshal (x :: l)) as [m|]; [|done]. injection Hr as <- <-.
    split; [done|]. intros Hb%Z.eqb_eq. split; [done|]. by exists m. }
  split; [congruence|]. split; [done|]. split; [lia|]. intros (Hne & m & Hm & Hsq)%Hb.
  destruct Hg as [(Hnil & _)|(k' & Hk' & Hd & Hor)]; [done|]. rewrite Hd in Hm. rewrite (proj2 (h_codec k' Hk')) in Hm. injection Hm as <-.
  rewrite (proj1 (h_seq k' Hk')) in Hsq. subst k'. destruct Hor as [[_ Ha]|[_ Hg]]; [|done].
  apply A4, A3 in Ha as [Ha|[_ Ha]]; [|lia]. by apply Hno in Ha.
Qed.

(** ** Storing *)

Lemma store_msg_inv w0 s w (st : rstate) u st' :
  live (wire st) -> store_msg (h s) st = (Ok u, st') -> 0 < s < two64 - 1 -> view (msgs (ch st)) w -> restoring w0 (gone (wire st)) s w ->
  exists w', view (msgs (ch st')) w' /\ is_Some w' /\ restoring w0 (gone (wire st')) (s + 1) w' /\ firstSeq (ch st') = firstSeq (ch st) /\
    later (wire st) (wire st').
Proof.
  intros Hlive Hr Hs Hv (H0 & Hl & b & base & Hb & Hle & Hp). destruct (h_seq s Hs) as [Hsq Hok]. unfold store_msg in Hr. apply eff_bind_inv in Hr as (t & s1 & H1 & Hr).
  apply on_wire_inv in H1 as [C1 H1]. apply eff_bind_inv in Hr as (n & s2 & H2 & [= _ <-]). unfold on_store_msgs in H2. rewrite C1 in H2.
  pose proof (wall_time_law (wire st) Hlive) as L. rewrite <- H1 in L. cbn in L.
  assert (exists ms' w', StoreMsg t (h s) (msgs (ch st)) = (Ok s, ms') /\ view ms' w' /\ pushed (h s) w w') as (ms' & w' & E1 & V1 & P1).
  { assert (forall ms', (exists x, StoreMsg t (h s) (msgs (ch st)) = (Err x, ms')) -> False) as Herr.
    { intros ms' [x Hx]. by rewrite Hx in H2. }
    destruct w as [q|].
    - destruct (view_Store (msgs (ch st)) (Some q) (h s) t Hv) as [(ms' & w' & Hx & ?)|(x & ms' & Hx & _)]; [|lia|done| |exfalso; eauto].
      { rewrite Hl by done. lia. } rewrite Hsq in Hx. by exists ms', w'.
    - destruct (view_StoreFirst (msgs (ch st)) (h s) t Hv) as [(ms' & w' & Hx & ?)|(x & ms' & Hx & _)]; [lia|done| |exfalso; eauto].
      rewrite Hsq in Hx. by exists ms', w'. }
  rewrite E1 in H2. injection H2 as <- <-. cbn. exists w'.
  destruct (pushed_wlast (h s) w w') as [Hw Hsome]; [destruct w; [|done]; rewrite Hl by done; lia|done|].
  split; [done|]. split; [done|]. split; [|done]. split; [lia|]. split; [rewrite Hw, Hsq; lia|]. exists b, base. destruct L as (_ & L & _).
  split; [destruct Hb as [?|[??]]; [by left|right; split; [lia|done]]|]. split; [lia|]. rewrite msgs_from_snoc by done. by econstructor.
Qed.

Lemma empty_inv (st : rstate) u st' w :
  on_store_msgs EmptyMsgs st = (Ok u, st') -> view (msgs (ch st)) w ->
  view (msgs (ch st')) None /\ firstSeq (ch st') = firstSeq (ch st) /\ wire st' = wire st.
Proof. unfold on_store_msgs. intros Hr Hv. destruct (view_Empty _ _ Hv) as (ms' & E1 & V1). rewrite E1 in Hr. by injection Hr as _ <-. Qed.

(** ** The loop *)

(** The next sequence has been asked for, or is asked for now. *)
Definition window_of (last : Z) (v : vars) : Prop :=
  seq v <= last -> reqEnd v <= last /\ (seq v = reqStart v \/ (seq v <= reqEnd v /\ (reqStart v = reqEnd v + 1 \/ reqEnd v = last))).

Lemma ask_more_inv i last v (st : rstate) v' st' :
  live (wire st) -> ask_more subject i last v st = (Ok v', st') -> 0 < seq v <= last -> last <= top -> last + 100 < two64 -> window_of last v ->
  ch st' = ch st /\ live (wire st') /\ gone (wire st) <= gone (wire st') /\ seq v' = seq v /\ stored v' = stored v /\
  seq v <= reqEnd v' <= last /\ (reqStart v' = reqEnd v' + 1 \/ reqEnd v' = last).
Proof.
  unfold ask_more, window_of. intros Hlive Hr Hs Ht Hl Hw. specialize (Hw ltac:(lia)) as [He Hw]. destruct (Z.eqb_spec (seq v) (reqStart v)) as [Eq|Hne].
  - rewrite <- Eq, !(u64_small (seq v + 100)), u64_small in Hr by (unfold is_u64; lia). set (e := if last <? _ then _ else _) in Hr.
    assert (seq v <= e <= last) as Hb by (subst e; destruct (Z.ltb_spec last (seq v + 100 - 1)); lia).
    apply eff_bind_inv in Hr as (u & s1 & K1 & [= <- <-]). cbn. destruct (send_inv _ _ _ _ _ _ Hlive K1 ltac:(lia) ltac:(lia)) as (C1 & L1 & G1 & _).
    split_and!; try (done || lia). destruct (Z.eqb_spec e last); [by right|left]. cbn. rewrite u64_small by (unfold is_u64; lia). done.
  - injection Hr as <- <-. destruct Hw as [?|[??]]; [done|]. split_and!; (done || lia).
Qed.

(** The channel, when the messages before [s] are restored. *)
Definition in_step (w0 : win) (s : Z) (w : win) (st : rstate) : Prop :=
  live (wire st) /\ view (msgs (ch st)) w /\ restoring w0 (gone (wire st)) s w /\ firstSeq (ch st) <= gone (wire st) /\ firstSeq (ch st) <= s.

Definition finished (w0 : win) (last : Z) (st : rstate) : Prop :=
  live (wire st) /\ exists w, view (msgs (ch st)) w /\ restored w0 (gone (wire st)) (last + 1) w /\ firstSeq (ch st) <= gone (wire st) /\
    (w = None \/ firstSeq (ch st) <= Window.wlast w + 1).

Definition loop_inv (w0 : win) (first last : Z) (v : vars) (st : rstate) : Prop :=
  window_of last v /\ exists w, in_step w0 (seq v) w st /\ (stored v = false -> seq v <> first -> w = None).

Lemma in_step_later w0 s w (st st' : rstate) :
  ch st' = ch st -> live (wire st') -> gone (wire st) <= gone (wire st') -> in_step w0 s w st -> in_step w0 s w st'.
Proof. unfold in_step. intros -> Hl Hg (_ & Hv & Hr & Hf & Hw). split; [done|]. split; [done|]. split; [by eapply restoring_le|]. split; [lia|done]. Qed.

Lemma finished_none w0 last (st : rstate) :
  0 <= last -> live (wire st) -> view (msgs (ch st)) None -> last < gone (wire st) -> firstSeq (ch st) <= gone (wire st) -> finished w0 last st.
Proof.
  intros H0 Hl Hv Hg Hf. split; [done|]. exists None. split; [done|]. split; [|by split; [|left]]. exists (last + 1), None. split; [right; split; [lia|done]|].
  rewrite msgs_from_nil by lia. constructor.
Qed.

(** The answer to a request whose message has another sequence is the first available. *)
Lemma jump_inv i last v k r w0 w (st : rstate) o st' :
  got_msg unmarshal subject last r (h k) v st = (Ok o, st') -> genuine marshal h top gone asked (wire st) i r -> r_Data r = marshal (h k) ->
  0 < k < two64 - 1 -> k <> seq v -> 0 < seq v <= reqEnd v -> reqEnd v <= last -> last <= top -> last + 100 < two64 -> in_step w0 (seq v) w st ->
  match o with
  | None => finished w0 last st'
  | Some v' => k <= last /\ v' = mkVars k (if reqEnd v <? k then k + 1 else reqStart v) (reqEnd v) true 0 /\ exists w', is_Some w' /\ in_step w0 (k + 1) w' st'
  end.
Proof.
  intros Hr Hg Hd Hk Hne Hs He Ht Hl (Hlive & Hv & Hres & Hf & Hw). unfold got_msg in Hr. rewrite (proj1 (h_seq k Hk)) in Hr. destruct (Z.eqb_spec k (seq v)); [done|].
  apply eff_bind_inv in Hr as (u & s1 & K1 & Hr).
  assert (ch s1 = ch st /\ live (wire s1) /\ gone (wire st) <= gone (wire s1) /\ k <= gone (wire s1)) as (C1 & L1 & G1 & Hgone).
  { destruct Hg as [(Hnil & _)|(k' & Hk' & Hd' & Hor)]; [rewrite Hnil in Hd; by destruct (h_codec k Hk)|]. assert (k' = k) as ->.
    { assert (Some (h k') = Some (h k)) as [= Heq] by (rewrite <- (proj2 (h_codec k' Hk')), <- (proj2 (h_codec k Hk)); congruence).
      rewrite <- (proj1 (h_seq k Hk)), <- (proj1 (h_seq k' Hk')), Heq. done. }
    destruct Hor as [[Hrep _]|[Hrep Hgone]]; rewrite Hrep in K1.
    - replace (HasSuffix restoreMsgsV2 restoreMsgsFirstAvailSuffix) with false in K1 by done. cbn [negb andb] in K1.
      destruct (Z.leb_spec (seq v) (reqEnd v)); [|lia]. apply eff_bind_inv in K1 as (b & s2 & K2 & K3).
      unfold catch in K2. destruct (hasLeaderSentFirstAvail unmarshal subject (seq v) k st) as [[b'| |] s3] eqn:E3; [|by injection K2 as <- _|done].
      injection K2 as <- <-. destruct b'; [|done]. injection K3 as _ <-. destruct (first_avail_inv _ _ _ _ _ Hlive E3) as (C & L & G & Hb); [lia|done|].
      split_and!; [done..|by apply Hb].
    - replace (HasSuffix _ _) with true in K1 by done. injection K1 as _ <-. split_and!; (done || lia). }
  apply eff_bind_inv in Hr as (u2 & s2 & K2 & Hr). rewrite <- C1 in Hv, Hf. destruct (empty_inv _ _ _ _ K2 Hv) as (V2 & F2 & W2).
  destruct (Z.ltb_spec last k) as [Hlt|Hle]; apply eff_bind_inv in Hr as (u3 & s3 & [= _ <-] & Hr).
  - injection Hr as <- <-. apply finished_none; cbn; [lia|by rewrite W2|done|rewrite W2; lia|]. rewrite W2, u64_small by (unfold is_u64; lia). lia.
  - apply eff_bind_inv in Hr as (u4 & s4 & K4 & [= <- <-]). split; [lia|]. split; [by rewrite u64_small by (unfold is_u64; lia)|].
    assert (live (wire s2)) as L2 by (by rewrite W2).
    destruct (store_msg_inv w0 k None (mkR (set_firstSeq k (ch s2)) (wire s2)) _ _ L2 K4) as (w' & V4 & S4 & R4 & F4 & L4 & G4 & _); [done|done|apply restoring_none; cbn; rewrite W2; lia|].
    exists w'. split; [done|]. cbn in F4, G4. rewrite W2 in G4. split_and!; try done; rewrite F4; lia.
Qed.

Lemma got_msg_inv i first last v k r w0 w (st : rstate) o st' :
  got_msg unmarshal subject last r (h k) v st = (Ok o, st') -> genuine marshal h top gone asked (wire st) i r -> r_Data r = marshal (h k) ->
  0 < k < two64 - 1 -> 0 < seq v <= reqEnd v -> reqEnd v <= last -> last <= top -> last + 100 < two64 -> (reqStart v = reqEnd v + 1 \/ reqEnd v = last) ->
  in_step w0 (seq v) w st ->
  match o with
  | None => finished w0 last st'
  | Some v' => seq v' <= last /\ loop_inv w0 first last (mkVars (seq v' + 1) (reqStart v') (reqEnd v') (stored v') (cnfcount v')) st'
  end.
Proof.
  intros Hr Hg Hd Hk Hs He Ht Hl Hq In. destruct (decide (k = seq v)) as [->|Hne].
  - unfold got_msg in Hr. rewrite (proj1 (h_seq _ Hk)), Z.eqb_refl in Hr. apply eff_bind_inv in Hr as (u & s1 & K1 & [= <- <-]). cbn. split; [lia|].
    destruct In as (Hlive & Hv & Hres & Hf & Hw). destruct (store_msg_inv w0 (seq v) w _ _ _ Hlive K1) as (w' & V1 & S1 & R1 & F1 & L1 & G1 & _); [done..|].
    split; [unfold window_of; cbn; intros; split; [lia|]; lia|]. exists w'. cbn. split; [|done]. split_and!; try done; rewrite F1; lia.
  - pose proof (jump_inv _ _ _ _ _ _ _ _ _ _ Hr Hg Hd Hk Hne Hs He Ht Hl In) as HJ. destruct o as [v'|]; [|done].
    destruct HJ as (Hkl & -> & w' & Hsome & In'). cbn. split; [done|]. split; [|by exists w'].
    unfold window_of. cbn. intros. split; [lia|]. destruct (Z.ltb_spec (reqEnd v) k); lia.
Qed.

Lemma got_nothing_inv i first last v r w0 w (st : rstate) o st' :
  got_nothing subject i first last r v st = (Ok o, st') -> r_Reply r = restoreMsgsV2 -> top < gone (wire st) -> last <= top ->
  0 < seq v <= last -> last + 100 < two64 -> in_step w0 (seq v) w st -> (stored v = false -> seq v <> first -> w = None) ->
  o = None /\ finished w0 last st'.
Proof.
  intros Hr Hrep Hg Ht Hs Hl (Hlive & Hv & _ & Hf & _) Hw. unfold got_nothing in Hr. rewrite Hrep in Hr. apply eff_bind_inv in Hr as (u & s1 & K1 & Hr).
  assert (view (msgs (ch s1)) None /\ wire s1 = wire st) as (V1 & W1).
  { unfold when in K1. destruct ((seq v =? first) || stored v) eqn:Ec.
    - destruct (empty_inv _ _ _ _ K1 Hv) as (? & _ & ?). done.
    - injection K1 as _ <-. apply orb_false_iff in Ec as [Ec1 Ec2]. apply Z.eqb_neq in Ec1. by rewrite (Hw Ec2 Ec1) in Hv. }
  apply eff_bind_inv in Hr as (u2 & s2 & [= _ <-] & [= <- <-]). split; [done|]. apply finished_none; cbn; [lia|by rewrite W1|done|rewrite W1; lia|].
  rewrite W1, u64_small by (unfold is_u64; lia). lia.
Qed.

Lemma restore_step_inv i first last v w0 (st : rstate) o st' :
  HasSuffix i ("." ++ restoreMsgsV2) = true -> restore_step unmarshal subject i first last v st = (Ok o, st') -> last <= top -> last + 100 < two64 -> 0 < seq v <= last ->
  loop_inv w0 first last v st ->
  match o with None => finished w0 last st' | Some v' => 0 < seq v' <= last + 1 /\ loop_inv w0 first last v' st' end.
Proof.
  intros Hi Hr Ht Hl Hs (Hwin & w & In & Hw). unfold restore_step in Hr. apply eff_bind_inv in Hr as (v1 & s1 & K1 & Hr).
  destruct (ask_more_inv _ _ _ _ _ _ (proj1 In) K1 Hs Ht Hl Hwin) as (C1 & L1 & G1 & Q1 & T1 & R1 & R2). apply eff_bind_inv in Hr as (r & s2 & K2 & Hr).
  apply NextMsg_inv in K2 as ((C2 & L2 & G2 & _) & Hg); [|done..]. assert (in_step w0 (seq v1) w s2) as In2 by (rewrite Q1; eapply in_step_later; [| | |done]; [congruence|done|lia]).
  apply eff_bind_inv in Hr as (o1 & s3 & K3 & Hr).
  assert (match o1 with None => finished w0 last s3 | Some v' => seq v' <= last /\ loop_inv w0 first last (mkVars (seq v' + 1) (reqStart v') (reqEnd v') (stored v') (cnfcount v')) s3 end) as HI.
  { pose proof Hg as Hg'. destruct Hg' as [(Hnil & Hrep & Htop)|(k & Hk & Hd & _)].
    - rewrite Hnil in K3. destruct (got_nothing_inv _ _ _ _ _ w0 w _ _ _ K3 Hrep Htop Ht) as [-> ?]; try (done || lia). by rewrite T1, Q1.
    - assert (match r_Data r with [] => got_nothing subject i first last r v1 | _ => match unmarshal (r_Data r) with None => fail DecodeMsg | Some msg => got_msg unmarshal subject last r msg v1 end end s2 = (Ok o1, s3)) as K4.
      { by destruct (r_Data r). }
      destruct (h_codec k Hk) as [Hne Hun]. rewrite Hd, Hun in K4. destruct (marshal (h k)) eqn:Em; [done|]. rewrite <- Em in Hd.
      eapply got_msg_inv; try done; rewrite ?Q1; try (done || lia). }
  destruct o1 as [v2|]; [|by injection Hr as <- <-]. apply eff_bind_inv in Hr as (b & s4 & K4 & Hr). apply on_wire_inv in K4 as [C4 W4].
  destruct b; [done|]. injection Hr as <- <-. destruct HI as [Hv2 (Hwin2 & w2 & In3 & Hw3)].
  pose proof (shutdownCh_law (wire s3) (proj1 In3)) as (L4 & L & _). rewrite <- W4 in L, L4. cbn in L, L4. pose proof In3 as (_ & _ & (H0 & _) & _). cbn in H0.
  rewrite u64_small by (unfold is_u64; lia). cbn. split; [lia|]. split; [done|]. exists w2. split; [|done]. by eapply in_step_later.
Qed.

Lemma loop_end w0 first last v (st : rstate) : seq v = last + 1 -> loop_inv w0 first last v st -> finished w0 last st.
Proof.
  intros Hs (_ & w & (Hlive & Hv & Hres & Hf & Hfs) & _). split; [done|]. exists w. rewrite Hs in *. split; [done|]. split; [by apply restoring_restored|]. split; [done|].
  destruct Hres as (_ & Hl & _). destruct w; [right; rewrite Hl by done; lia|by left].
Qed.

Lemma restore_loop_inv fuel i first last w0 : HasSuffix i ("." ++ restoreMsgsV2) = true -> forall v (st : rstate) st',
  restore_loop unmarshal fuel subject i first last v st = (Ok tt, st') -> last <= top -> last + 100 < two64 -> 0 < seq v <= last + 1 ->
  loop_inv w0 first last v st -> finished w0 last st'.
Proof.
  intros Hi. induction fuel as [|fuel IH]; intros v st st' Hr Ht Hl Hs I; cbn [restore_loop] in Hr; destruct (Z.leb_spec (seq v) last); [done| | |];
    try (injection Hr as <-; by eapply loop_end; [|done]; lia).
  apply eff_bind_inv in Hr as (o & s1 & K1 & Hr). pose proof (restore_step_inv _ _ _ _ _ _ _ _ Hi K1 Ht Hl ltac:(lia) I) as HI.
  destruct o as [v'|]; [|by injection Hr as <-]. destruct HI as [Hv' I']. by eapply IH.
Qed.

(** ** Where to start *)

Lemma restore_from_inv first fromApply w (st : rstate) f st' :
  live (wire st) -> restore_from first fromApply (Window.wlast w) st = (Ok f, st') -> view (msgs (ch st)) w -> (Window.wlast w = 0 -> w = None) ->
  0 < first < two64 -> 0 <= Window.wlast w < two64 - 1 -> firstSeq (ch st) <= gone (wire st) -> (fromApply = false -> first <= gone (wire st)) ->
  (w = None \/ firstSeq (ch st) <= Window.wlast w + 1 \/ (fromApply = false /\ firstSeq (ch st) <= first)) ->
  exists w1, in_step w f w1 st' /\ wire st' = wire st /\ 0 < f /\ (w1 = w \/ w1 = None) /\ (forall s, s <= f -> restored w (gone (wire st)) s w1).
Proof.
  intros Hlive Hr Hv H0 Hf Hw Hg Ha Hfl. unfold restore_from in Hr. rewrite (u64_small (Window.wlast w + 1)) in Hr by (unfold is_u64; lia).
  set (f1 := if fromApply then _ else first) in Hr. apply eff_bind_inv in Hr as (f2 & s1 & K1 & Hr). rewrite eff_get in Hr. injection Hr as <- <-.
  assert (wire s1 = wire st /\ firstSeq (ch s1) = firstSeq (ch st) /\ 0 < f2 /\
    ((f2 = Window.wlast w + 1 /\ view (msgs (ch s1)) w /\ (w = None \/ firstSeq (ch st) <= f2)) \/ (f2 <= gone (wire st) /\ view (msgs (ch s1)) None))) as (W1 & F1 & Hp & Hor).
  { destruct (Z.ltb_spec (Window.wlast w + 1) f1) as [Hlt|Hge].
    - assert (fromApply = false) as -> by (destruct fromApply; [subst f1; lia|done]). subst f1. apply eff_bind_inv in K1 as (u & s2 & K2 & [= <- <-]).
      unfold when in K2. destruct (Z.eqb_spec (Window.wlast w) 0) as [Hz|Hnz]; cbn [negb] in K2.
      + injection K2 as _ <-. split_and!; [done|done|lia|]. right. split; [by apply Ha|]. by rewrite (H0 Hz) in Hv.
      + destruct (empty_inv _ _ _ _ K2 Hv) as (V2 & F2 & W2). split_and!; [done|done|lia|]. right. split; [by apply Ha|done].
    - assert (s1 = st /\ f2 = Window.wlast w + 1) as [-> ->].
      { destruct (Z.leb_spec f1 (Window.wlast w)); injection K1 as <- <-; split; (done || lia). }
      split_and!; [done|done|lia|]. left. split_and!; [done|done|]. destruct Hfl as [?|[?|[-> ?]]]; [by left|by right|right; subst f1; lia]. }
  unfold in_step. rewrite W1, F1. destruct Hor as [(-> & V & Hwf)|(Hf2 & V)].
  - exists w. destruct (Z.ltb_spec (Window.wlast w + 1) (firstSeq (ch st))).
    + destruct Hwf as [->|?]; [|lia]. split_and!; try (done || lia); [apply restoring_none; lia|by left|]. intros s Hs. eapply restored_none; [|exact Hs|]; lia.
    + split_and!; try (done || lia); [apply restoring_start; lia|by left|]. intros s Hs. exists (Window.wlast w + 1), w. split; [by left|].
      rewrite msgs_from_nil by done. constructor.
  - exists None. destruct (Z.ltb_spec f2 (firstSeq (ch st))); (split_and!; try (done || lia); [apply restoring_none; lia|by right|]);
      intros s Hs; (eapply restored_none; [|exact Hs|]; lia).
Qed.

Lemma flush_inv w0 last (st : rstate) u st' :
  on_store_msgs FlushMsgs st = (Ok u, st') -> finished w0 last st ->
  live (wire st') /\ exists w, view (msgs (ch st')) w /\ durable (msgs (ch st')) w /\ restored w0 (gone (wire st')) (last + 1) w /\ firstSeq (ch st') <= gone (wire st') /\
    (w = None \/ firstSeq (ch st') <= Window.wlast w + 1).
Proof.
  unfold on_store_msgs. intros Hr (Hl & w & Hv & Hres & Hf & Hw). destruct (view_Flush _ _ Hv) as (ms' & E1 & V1 & D1). rewrite E1 in Hr. injection Hr as _ <-. cbn. split; [done|]. by exists w.
Qed.

(** What holds of a channel between restorations. *)
Definition channel_ok (w : win) (st : rstate) : Prop :=
  live (wire st) /\ view (msgs (ch st)) w /\ (Window.wlast w = 0 -> w = None) /\ 0 <= Window.wlast w < two64 - 1 /\ firstSeq (ch st) <= gone (wire st).

Lemma restore_inv fuel first last fromApply w c n st' :
  subject = restore_subject clusterID (name c) ->
  restoreMsgsFromSnapshot unmarshal clusterID fuel first last fromApply (mkR c n) = (Ok tt, st') ->
  channel_ok w (mkR c n) -> (w = None \/ firstSeq c <= Window.wlast w + 1 \/ (fromApply = false /\ firstSeq c <= first)) ->
  0 < first < two64 -> (fromApply = false -> first <= gone n) -> last <= top -> last + 100 < two64 ->
  live (wire st') /\ exists w', view (msgs (ch st')) w' /\ restored w (gone (wire st')) (last + 1) w' /\ (w' = w \/ w' = None \/ durable (msgs (ch st')) w') /\
    firstSeq (ch st') <= gone (wire st') /\ (w' = None \/ firstSeq (ch st') <= Window.wlast w' + 1).
Proof.
  intros Hsub Hr (Hlive & Hv & H0 & Hw & Hf) Hfl Hfi Ha Ht Hl. unfold restoreMsgsFromSnapshot in Hr. apply eff_bind_inv in Hr as (x & s1 & K1 & Hr).
  apply on_wire_inv in K1 as [C1 W1]. destruct x; [done|]. pose proof (last_fails_law n Hlive) as (Lv & L1 & _). cbn in W1. rewrite <- W1 in L1, Lv. cbn in L1, Lv, C1, Hv, Hf.
  rewrite eff_get, C1 in Hr. apply eff_bind_inv in Hr as (f & s2 & K2 & Hr).
  assert (LastSequence (msgs c) = Window.wlast w) as El by (unfold LastSequence; by rewrite (view_FirstAndLast _ _ Hv)). rewrite El in K2.
  destruct (restore_from_inv _ _ _ _ _ _ Lv K2) as (w1 & In2 & W2 & Hf2 & Hw1 & Hres); rewrite ?C1; try (done || lia); [intros; specialize (Ha ltac:(done)); lia|].
  destruct (Z.ltb_spec last f) as [Hlt|Hge].
  - injection Hr as <-. destruct In2 as (Lv2 & V2 & (_ & Hl2 & b & base & Hb & Hbs & Hp) & G2 & F2). split; [done|]. exists w1. split; [done|].
    rewrite W2 in *. split; [apply Hres; lia|]. split; [tauto|]. split; [done|].
    destruct w1; [right; rewrite Hl2 by done; lia|by left].
  - apply eff_bind_inv in Hr as (i & s3 & K3 & Hr). apply new_inbox_inv in K3 as ((C3 & L3 & G3 & _) & Hi & _); [|apply In2]. apply eff_bind_inv in Hr as ([] & s4 & K4 & Hr).
    rewrite <- Hsub in K4.
    destruct (flush_inv w last _ _ _ Hr) as (Lv' & w' & V' & D' & R' & F' & Fl').
    { eapply (restore_loop_inv _ _ _ _ _ Hi _ _ _ K4); [done|done|cbn; lia|]. split; [intros _; cbn; split; [lia|by left]|]. exists w1. cbn.
      split; [by eapply in_step_later; [| | |exact In2]; [congruence|done|lia]|done]. }
    split; [done|]. exists w'. split_and!; try done. by right; right.
Qed.

(** [C6] Restoring messages.  When a node has restored the messages of a channel up to [last],
    it has stored, in this order and without a gap, the messages from the end of what it had
    before, or, having dropped what it had, from a message such that the leader has removed
    all earlier ones.  What it stored is flushed.  Requests and answers may be lost, the
    leader may lose messages because of its limits at any time, and answers may come late. *)
Theorem restored_without_gap fuel first last fromApply w c n st' :
  subject = restore_subject clusterID (name c) ->
  restoreMsgsFromSnapshot unmarshal clusterID fuel first last fromApply (mkR c n) = (Ok tt, st') ->
  channel_ok w (mkR c n) -> (w = None \/ firstSeq c <= Window.wlast w + 1 \/ (fromApply = false /\ firstSeq c <= first)) ->
  0 < first < two64 -> (fromApply = false -> first <= gone n) -> last <= top -> last + 100 < two64 ->
  exists w', view (msgs (ch st')) w' /\ restored w (gone (wire st')) (last + 1) w' /\ (w' = w \/ w' = None \/ durable (msgs (ch st')) w') /\
    firstSeq (ch st') <= gone (wire st') /\ (w' = None \/ firstSeq (ch st') <= Window.wlast w' + 1).
Proof. intros. by eapply restore_inv. Qed.
End Spec.
End RestoreSpec.
