(* ===== verification/RestoreSys.v ===== *)
(** * A node and its leader

    The handler of the leader, behind a connection that may lose answers, satisfies what
    [RestoreSpec.v] relies on, while the leader may drop its oldest messages before it
    handles a request.  Without losses the node restores all messages. *)

From Stdlib Require Import ZArith Lia Ascii String.
From stdpp Require Import base list gmap strings.
From S2P Require Import Prelude Bytes GoLib Effects MemStore MsgStore MsgRestore SubState SubStore ChannelStore RestoreMsgs RestoreSpec.

Local Open Scope Z_scope.

Module RestoreSys.
Import Sub Reg Chan Restore RestoreSpec.

Section System.
Context {SL D R EL E : Type} `{!MsgStore SL} `{!MsgStoreSpec SL} `{!MsgLog SL EL} `{!MsgLogSpec SL EL} `{!Stores D SL EL} `{!RaftStore R EL}
  `{!MsgRestore SL EL} `{!MsgRestoreSpec SL EL}.
Context (marshal : MsgProto -> list byte) (clusterID nm : string) (timeout : E).
Context (publish_fails shut_down : nat -> bool).
(** What happens at the leader before it handles the [n]-th request, the answers to it that
    arrive, and the time of the node. *)
Context (evolve : nat -> @stan SL D R EL -> @stan SL D R EL) (lose : nat -> list response -> list response) (now : Z).
Context (h : Z -> MsgProto) (top : Z) (h_seq : forall k, 0 < k < two64 - 1 -> Sequence (h k) = k) (Htop : top + 100 < two64).

Abbreviation stan := (@stan SL D R EL).

(** ** The connection *)

(** The leader, the answers that wait in the inboxes, and the requests made with them. *)
Record net := mkNet { leader : stan; boxes : gmap string (list response); made : gmap string (list (Z * Z)); turn : nat }.

(** An inbox that is longer than all those in use. *)
Definition fresh_inbox (n : net) : string :=
  String.concat "" (List.repeat "." (Datatypes.S (list_max (String.length <$> elements (dom (made n)))))).

#[export] Instance direct : Wire net E := {|
  NewInbox n := (fresh_inbox n, n);
  SubscribeSync i n := (None, n);
  PublishRequest subject i data n :=
    let s := evolve (turn n) (leader n) in
    let rs := match snapshotRestoreRequest marshal clusterID publish_fails shut_down subject i data s with Ok rs => rs | _ => [] end in
    (None, mkNet s (<[i := default [] (boxes n !! i) ++ lose (turn n) rs]> (boxes n))
      (<[i := (get_le (take 8 data), get_le (drop 8 data)) :: default [] (made n !! i)]> (made n)) (turn n + 1));
  NextMsg i n :=
    match boxes n !! i with
    | Some (r :: rs) => (Ok r, mkNet (leader n) (<[i := rs]> (boxes n)) (made n) (turn n))
    | _ => (Err timeout, n)
    end;
  wall_time n := (now, n);
  last_fails n := (None, n);
  shutdownCh n := (false, n)
|}.

Definition asked_of (n : net) (i : string) (k : Z) : Prop :=
  exists a b, (a, b) ∈ default [] (made n !! i) /\ a <= k <= b.

(** ** The leader *)

(** The sequence of the first message that the leader has, or will have. *)
Definition first_avail (w : win) : Z := match front w with Some m => Sequence m | None => Window.wlast w + 1 end.

Definition leads (s : stan) (w : win) : Prop :=
  exists p c, channels s !! nm = Some p /\ chans s !! p = Some c /\ deleting c = false /\ view (msgs c) w /\
    agrees h w /\ top <= Window.wlast w.

Lemma front_first w : wf_window w -> first_avail w = match w with Some (f, _) => f | None => 1 end.
Proof.
  intros Hw. unfold first_avail. destruct w as [[f [|m q]]|]; cbn; [lia| |done]. destruct Hw as (_ & _ & Hn). specialize (Hn 0%nat m eq_refl). lia.
Qed.

(** What the leader answers for [seq]. *)
Inductive answer_for (w : win) (seq : Z) : response -> option Z -> Prop :=
| answer_msg : first_avail w <= seq -> answer_for w seq (mkResponse restoreMsgsV2 (marshal (h seq))) (Some seq)
| answer_first k : k = first_avail w -> seq < k -> k <= Window.wlast w ->
    answer_for w seq (mkResponse (restoreMsgsV2 ++ restoreMsgsFirstAvailSuffix) (marshal (h k))) (Some k)
| answer_none : Window.wlast w < first_avail w -> answer_for w seq (mkResponse restoreMsgsV2 []) None.

Lemma pick_spec ms w seq :
  view ms w -> agrees h w -> 0 < seq <= top -> top <= Window.wlast w ->
  exists msg b r o, pick ms true seq = Some (msg, b) /\ answer_for w seq r o /\
    r = mkResponse (if b then restoreMsgsV2 ++ restoreMsgsFirstAvailSuffix else restoreMsgsV2)%string (match msg with Some m => marshal m | None => [] end) /\
    msg = h <$> o /\ (forall k, o = Some k -> seq <= k /\ 0 < k < two64 - 1).
Proof.
  intros Hv Ha Hs Ht. pose proof (view_wf _ _ Hv) as Hwf. pose proof (front_first w Hwf) as Hf. unfold pick. rewrite (view_Lookup _ _ seq Hv).
  destruct w as [[f q]|]; [|cbn in Ht; lia]. destruct Hwf as (H0 & Hlen & Hn).
  destruct (Window.lookup (Some (f, q)) seq) as [m|] eqn:El.
  - rewrite (Ha _ _ El). assert (f <= seq) as Hle by (cbn in El; by destruct (Z.leb_spec f seq)).
    eexists _, _, _, (Some seq). split; [done|]. split; [apply answer_msg; lia|]. split; [done|]. split; [done|]. intros k [= <-]. cbn in Ht. lia.
  - assert (seq < f) as Hlt.
    { cbn in El, Ht. destruct (Z.leb_spec f seq); [|lia]. apply lookup_ge_None in El. lia. }
    rewrite (view_FirstMsg _ _ Hv). destruct q as [|m q]; cbn [front].
    + eexists _, _, _, None. split; [done|]. split; [apply answer_none; cbn in *; lia|]. done.
    + assert (Sequence m = f) as Hm by (specialize (Hn 0%nat m eq_refl); lia). rewrite Hm. destruct (Z.ltb_spec f seq); [lia|].
      assert (m = h f) as -> by (apply Ha; cbn; by rewrite Z.leb_refl, Z.sub_diag).
      eexists _, _, _, (Some f). split; [done|]. split; [apply (answer_first _ _ f); cbn in *; lia|]. split; [done|]. split; [done|].
      intros k [= <-]. cbn [length] in Hlen. lia.
Qed.

Lemma answer_range_in ms w last r : view ms w -> agrees h w -> last <= top -> top <= Window.wlast w ->
  forall fuel seq n, 0 < seq -> r ∈ answer_range marshal publish_fails shut_down fuel ms true seq last n ->
  exists s o, seq <= s <= last /\ answer_for w s r o /\ (forall k, o = Some k -> 0 < k < two64 - 1).
Proof.
  intros Hv Ha Hl Ht. induction fuel as [|fuel IH]; intros seq n Hs; cbn [answer_range]; [by intros ?%not_elem_of_nil|].
  destruct (Z.ltb_spec last seq); [by intros ?%not_elem_of_nil|].
  destruct (pick_spec ms w seq Hv Ha ltac:(lia) Ht) as (msg & b & r0 & o & -> & Har & Hr0 & -> & Ho).
  destruct (publish_fails n); [by intros ?%not_elem_of_nil|]. intros Hr. destruct o as [k|]; cbn in Hr, Hr0.
  - apply elem_of_cons in Hr as [->|Hr]; [exists seq, (Some k); rewrite <- Hr0; split_and!; [lia|lia|done|]; intros; by apply Ho|].
    destruct (shut_down n); [by apply not_elem_of_nil in Hr|]. destruct (Ho k eq_refl) as [? ?].
    rewrite h_seq, u64_small in Hr by (unfold is_u64; done || lia). destruct (IH (k + 1) _ ltac:(lia) Hr) as (s' & o' & ? & ?). exists s', o'. split; [lia|done].
  - apply list_elem_of_singleton in Hr as ->. exists seq, None. rewrite <- Hr0. split_and!; [lia|lia|done|done].
Qed.

Lemma restore_subject_app : restore_subject clusterID nm = (restore_subject clusterID "" ++ nm)%string.
Proof. unfold restore_subject. by rewrite <- !append_assoc_l. Qed.

(** The channel is found, and the range of the request is read back. *)
Lemma request_spec s w i a b :
  leads s w -> HasSuffix i ("." ++ restoreMsgsV2) = true -> 0 < a <= top -> 0 < b <= top ->
  exists ms, view ms w /\ agrees h w /\ top <= Window.wlast w /\
    snapshotRestoreRequest marshal clusterID publish_fails shut_down (restore_subject clusterID nm) i (put_le 8 a ++ put_le 8 b) s =
    Ok (answer_range marshal publish_fails shut_down (Z.to_nat (b - a + 1)) ms true a b 0).
Proof.
  intros (p & c & Hp & Hc & Hd & Hv & Ha & Ht) Hi Hra Hrb. exists (msgs c). split_and!; [done..|]. unfold snapshotRestoreRequest.
  assert (length (put_le 8 a ++ put_le 8 b) = 16%nat) as E1 by (by rewrite length_app, !length_put_le).
  assert (get_le (take 8 (put_le 8 a ++ put_le 8 b)) = a) as E2.
  { rewrite take_app_length' by (by rewrite length_put_le). apply get_put_le_small. unfold two64 in *. cbn. lia. }
  assert (get_le (drop 8 (put_le 8 a ++ put_le 8 b)) = b) as E3.
  { rewrite drop_app_length' by (by rewrite length_put_le). apply get_put_le_small. unfold two64 in *. cbn. lia. }
  revert E1 E2 E3. generalize (put_le 8 a ++ put_le 8 b). intros data -> -> ->. rewrite Hi, restore_subject_app, length_append.
  replace (_ + _ - _)%nat with (String.length nm) by lia. rewrite substring_app by done.
  unfold getIfNotAboutToBeDeleted. rewrite eff_get, Hp. unfold chan_at, mbind, eff_bind. cbn. rewrite Hc. cbn. by rewrite Hd, Hc.
Qed.

Definition leader_first (s : stan) : Z :=
  match channels s !! nm ≫= fun p => chans s !! p with
  | Some c => match FirstMsg (msgs c) with inl (Some m) => Sequence m | _ => LastSequence (msgs c) + 1 end
  | None => 0
  end.

Lemma leader_first_spec s w : leads s w -> leader_first s = first_avail w.
Proof.
  intros (p & c & Hp & Hc & _ & Hv & _). unfold leader_first, first_avail. rewrite Hp. cbn. rewrite Hc, (view_FirstMsg _ _ Hv).
  unfold LastSequence. by rewrite (view_FirstAndLast _ _ Hv).
Qed.

(** ** The laws *)

Definition gone_of (n : net) : Z := leader_first (leader n).

Definition good (n : net) : Prop :=
  (exists w, leads (leader n) w) /\ (forall i, made n !! i = None -> default [] (boxes n !! i) = []) /\
  (forall i r, HasSuffix i ("." ++ restoreMsgsV2) = true -> r ∈ default [] (boxes n !! i) -> genuine marshal h top gone_of asked_of n i r).

Lemma genuine_later n n' i r :
  gone_of n <= gone_of n' -> (forall k, asked_of n i k -> asked_of n' i k) ->
  genuine marshal h top gone_of asked_of n i r -> genuine marshal h top gone_of asked_of n' i r.
Proof.
  intros Hg Hk [(? & ? & ?)|(k & ? & ? & Hor)]; [left; split_and!; [done|done|lia]|]. right. exists k. split; [done|]. split; [done|].
  destruct Hor as [[? ?]|[? ?]]; [left; auto|right]. split; [done|lia].
Qed.

Lemma answer_genuine w n i a b s r o :
  gone_of n = first_avail w -> asked_of n i s -> top <= Window.wlast w -> a <= s <= b ->
  answer_for w s r o -> (forall k, o = Some k -> 0 < k < two64 - 1) -> genuine marshal h top gone_of asked_of n i r.
Proof.
  intros Hg Hs Ht Hab Har Ho. destruct Har as [Hf|k -> Hlt Hle|Hn].
  - right. exists s. split; [by apply Ho|]. split; [done|]. by left.
  - right. eexists. split; [by apply Ho|]. split; [done|]. right. split; [done|lia].
  - left. cbn. split_and!; [done|done|lia].
Qed.

Context (evolves : forall k s w, leads s w -> exists w', leads (evolve k s) w' /\ first_avail w <= first_avail w').
Context (loses : forall k l r, r ∈ lose k l -> r ∈ l).

Lemma length_fresh n : (list_max (String.length <$> elements (dom (made n))) < String.length (fresh_inbox n))%nat.
Proof.
  unfold fresh_inbox. generalize (list_max (String.length <$> elements (dom (made n)))). intros k.
  assert (forall j, String.length (String.concat "" (List.repeat "." j)) = j) as ->; [|lia].
  induction j as [|[|j] IH]; [done..|]. change (Datatypes.S (String.length (String.concat "" (List.repeat "." (Datatypes.S j)))) = Datatypes.S (Datatypes.S j)). by rewrite IH.
Qed.

Lemma fresh_not_made n x : made n !! (fresh_inbox n ++ x)%string = None.
Proof.
  destruct (made n !! _) as [l|] eqn:El; [|done]. exfalso. pose proof (length_fresh n) as Hlen.
  assert (String.length (fresh_inbox n ++ x) <= list_max (String.length <$> elements (dom (made n))))%nat as Hle; [|rewrite length_append in Hle; lia].
  assert (String.length (fresh_inbox n ++ x)%string ∈ String.length <$> elements (dom (made n))) as Hin.
  { apply list_elem_of_fmap. eexists. split; [done|]. apply elem_of_elements, elem_of_dom. by eexists. }
  pose proof (proj1 (list_max_le (String.length <$> elements (dom (made n))) _) (Nat.le_refl _)) as Hf. rewrite Forall_forall in Hf. by apply Hf.
Qed.

Lemma asked_request (n : net) lead bx t i a b j k :
  asked_of (mkNet lead bx (<[i := (a, b) :: default [] (made n !! i)]> (made n)) t) j k <-> asked_of n j k \/ (j = i /\ a <= k <= b).
Proof.
  unfold asked_of. cbn. destruct (decide (j = i)) as [->|Hne].
  - rewrite lookup_insert_eq. cbn. split.
    + intros (a' & b' & [[= -> ->]|Hin]%elem_of_cons & Hk); [by right|left; by exists a', b'].
    + intros [(a' & b' & Hin & Hk)|[_ Hk]]; [exists a', b'; split; [by right|done]|exists a, b; split; [by left|done]].
  - rewrite lookup_insert_ne by done. split; [by left|]. by intros [?|[? _]].
Qed.

Lemma good_pop n i r rs :
  good n -> boxes n !! i = Some (r :: rs) -> good (mkNet (leader n) (<[i := rs]> (boxes n)) (made n) (turn n)).
Proof.
  intros (Hw & Hm & Hb) Hi. split; [done|]. split.
  { intros j Hj. specialize (Hm j Hj). cbn. destruct (decide (j = i)) as [->|Hne]; [by rewrite Hi in Hm|]. by rewrite lookup_insert_ne. }
  intros j x Hj Hx. apply (Hb j x Hj). cbn in Hx. destruct (decide (j = i)) as [->|Hne].
  - rewrite lookup_insert_eq in Hx. rewrite Hi. by right.
  - by rewrite lookup_insert_ne in Hx.
Qed.

#[export] Program Instance direct_spec : WireSpec marshal h top (restore_subject clusterID nm) := {|
  live := good; gone := gone_of; asked := asked_of
|}.
Next Obligation.
  intros n Hg. split; [by split_and!|]. intros k (a & b & Hin & _). cbn in Hin. rewrite (fresh_not_made n) in Hin. by apply not_elem_of_nil in Hin.
Qed.
Next Obligation. intros n i Hg. by split_and!. Qed.
Next Obligation.
  intros n i a b ([w Hw] & Hm & Hb) Ha Hbt. cbn [direct PublishRequest snd].
  destruct (evolves (turn n) (leader n) w Hw) as (w' & Hw' & Hf).
  assert (get_le (take 8 (put_le 8 a ++ put_le 8 b)) = a /\ get_le (drop 8 (put_le 8 a ++ put_le 8 b)) = b) as [-> ->].
  { rewrite take_app_length', drop_app_length' by (by rewrite length_put_le). split; apply get_put_le_small; unfold two64 in *; cbn; lia. }
  set (n' := mkNet _ _ _ _). assert (gone_of n <= gone_of n') as Hgo.
  { unfold gone_of. cbn. by rewrite (leader_first_spec _ _ Hw), (leader_first_spec _ _ Hw'). }
  split; [|split; [done|intros j k Hk; by apply asked_request in Hk]]. split; [by exists w'|]. split.
  { intros j Hj. cbn in Hj |- *. apply lookup_insert_None in Hj as [Hj Hne]. rewrite lookup_insert_ne by done. by apply Hm. }
  intros j r Hj Hr. cbn in Hr.
  assert (r ∈ default [] (boxes n !! j) \/ (j = i /\ r ∈ match snapshotRestoreRequest marshal clusterID publish_fails shut_down (restore_subject clusterID nm) i (put_le 8 a ++ put_le 8 b) (evolve (turn n) (leader n)) with Ok rs => rs | _ => [] end)) as [Hold|[-> Hnew]].
  { destruct (decide (j = i)) as [->|Hne]; [|rewrite lookup_insert_ne in Hr by done; by left]. rewrite lookup_insert_eq in Hr. cbn in Hr.
    apply elem_of_app in Hr as [?|Hr]; [by left|right; split; [done|by eapply loses]]. }
  - eapply (genuine_later n); [done| |by apply Hb]. intros k Hk. apply asked_request. by left.
  - destruct (request_spec _ _ i a b Hw' Hj Ha Hbt) as (ms & Hv & Hag & Ht & Eq). rewrite Eq in Hnew.
    destruct (answer_range_in ms w' b r Hv Hag (proj2 Hbt) Ht _ _ _ (proj1 Ha) Hnew) as (s & o & Hs & Har & Ho).
    eapply (answer_genuine w' n' i a b s r o); try done; [unfold gone_of; cbn; by apply leader_first_spec|]. apply asked_request. by right.
Qed.
Next Obligation.
  intros n i Hg. cbn. destruct (boxes n !! i) as [[|r rs]|] eqn:Ei; cbn; [by split_and!| |by split_and!].
  split; [split_and!; [by eapply good_pop|done|done]|]. intros x [= <-] Hi. apply (genuine_later n); [done|done|]. apply Hg; [done|]. rewrite Ei. by left.
Qed.
Next Obligation. intros n Hg. by split_and!. Qed.
Next Obligation. intros n Hg. by split_and!. Qed.
Next Obligation. intros n Hg. by split_and!. Qed.
End System.
End RestoreSys.
