(* ===== verification/RestoreLive.v ===== *)
(** * A node restores all messages

    Without losses, and with a leader that keeps the channel, a restoration returns. *)

From Stdlib Require Import ZArith Lia Ascii String.
From stdpp Require Import base list gmap strings.
From S2P Require Import Prelude Bytes GoLib Effects MemStore MsgStore MsgRestore SubState SubStore ChannelStore RestoreMsgs RestoreSpec RestoreSys.

Local Open Scope Z_scope.

Module RestoreLive.
#[local] Arguments put_le : simpl never.
Import Sub Reg Chan Restore RestoreSpec RestoreSys.

Section Live.
Context {S SL D R EL E : Type} `{!MsgStore SL} `{!MsgStoreSpec SL} `{!MsgLog SL EL} `{!MsgLogSpec SL EL} `{!Stores D SL EL} `{!RaftStore R EL}
  `{!MsgRestore SL EL} `{!MsgRestoreSpec SL EL}.
Context `{!MsgStore S} `{!MsgStoreSpec S} `{!MsgLog S E} `{!MsgLogSpec S E} `{!MsgRestore S E} `{!MsgRestoreSpec S E}.
Context (marshal : MsgProto -> list byte) (unmarshal : list byte -> option MsgProto) (clusterID nm : string) (timeout : E).
Context (evolve : nat -> @stan SL D R EL -> @stan SL D R EL) (now : Z).
Context (h : Z -> MsgProto) (top : Z) (Htop : top + 100 < two64).
Context (h_seq : forall k, 0 < k < two64 - 1 -> Sequence (h k) = k /\ storable (S := S) (E := E) (h k)).
Context (h_codec : forall k, 0 < k < two64 - 1 -> marshal (h k) <> [] /\ unmarshal (marshal (h k)) = Some (h k)).
Context (evolves : forall k s w, leads nm h top s w -> exists w', leads nm h top (evolve k s) w' /\ first_avail w <= first_avail w').
(** The store of the node takes the messages. *)
Context (takes : forall t m (s : S) w x s', view s w -> storable (S := S) (E := E) m -> w = None \/ Sequence m = Window.wlast w + 1 -> StoreMsg t m s <> (Err x, s')).

Definition never (_ : nat) : bool := false.
Definition all_of (_ : nat) (l : list response) : list response := l.

Abbreviation net := (@net SL D R EL).
Abbreviation rstate := (@rstate S net).
#[local] Instance reliable : Wire net E := direct marshal clusterID timeout never never evolve all_of now.
#[local] Instance reliable_spec : WireSpec marshal h top (restore_subject clusterID nm) :=
  direct_spec marshal clusterID nm timeout never never evolve all_of now h top (fun k Hk => proj1 (h_seq k Hk)) Htop evolves (fun _ _ _ Hr => Hr).
Abbreviation subject := (restore_subject clusterID nm).
Abbreviation in_step := (in_step marshal h top subject).
Abbreviation answers := (answer_range marshal never never).

(** ** The answers in the inbox *)

(** The inbox has the answers for the sequences from [seq] to [last]. *)
Definition pending (i : string) (seq last : Z) (n : net) : Prop :=
  exists (ms : SL) w fuel j, view ms w /\ agrees h w /\ top <= Window.wlast w /\ (Z.to_nat (last - seq + 1) <= fuel)%nat /\
    default [] (boxes n !! i) = answers fuel ms true seq last j.

Lemma pending_end i seq last n : last < seq -> pending i seq last n -> default [] (boxes n !! i) = [].
Proof.
  intros Hs (ms & w & fuel & j & _ & _ & _ & _ & ->). destruct fuel; cbn; [done|]. by destruct (Z.ltb_spec last seq); [|lia].
Qed.

(** What comes next, and the answers after it. *)
Lemma pending_next i seq last n :
  pending i seq last n -> 0 < seq <= last -> last <= top ->
  exists w r o rs, boxes n !! i = Some (r :: rs) /\ answer_for marshal h w seq r o /\ (forall k, o = Some k -> seq <= k /\ 0 < k < two64 - 1) /\
    (forall k n', o = Some k -> default [] (boxes n' !! i) = rs -> pending i (k + 1) last n').
Proof.
  intros (ms & w & fuel & j & Hv & Ha & Ht & Hf & Hb) Hs Hl. destruct fuel as [|fuel]; [lia|]. cbn [answer_range] in Hb.
  destruct (Z.ltb_spec last seq); [lia|]. destruct (pick_spec marshal h top Htop ms w seq Hv Ha ltac:(lia) Ht) as (msg & b & r & o & Ep & Har & Hr & -> & Ho).
  rewrite Ep in Hb. cbn [never] in Hb.
  exists w, r, o. destruct o as [k|]; cbn in Hb, Hr; rewrite <- Hr in Hb.
  - destruct (Ho k eq_refl) as [Hk1 Hk2]. eexists. split_and!; [|done|done|].
    + destruct (boxes n !! i); [|done]. cbn in Hb. by rewrite Hb.
    + intros k' n' [= <-] Hn. exists ms, w, fuel, (j + 1)%nat. split_and!; [done..|lia|].
      rewrite Hn. rewrite (proj1 (h_seq k Hk2)), u64_small by (unfold is_u64; lia). done.
  - exists []. split_and!; [|done|done|done]. destruct (boxes n !! i); [|done]. cbn in Hb. by rewrite Hb.
Qed.

(** ** Steps that return *)

Lemma store_msg_ok s w (st : rstate) :
  view (msgs (ch st)) w -> (is_Some w -> Window.wlast w = s - 1) -> 0 < s < two64 - 1 ->
  exists st', store_msg (h s) st = (Ok tt, st') /\ wire st' = wire st.
Proof.
  intros Hv Hl Hs. destruct (h_seq s Hs) as [Hsq Hok].
  assert (exists y ms', StoreMsg now (h s) (msgs (ch st)) = (Ok y, ms')) as (y & ms' & E1).
  { assert (w = None \/ Sequence (h s) = Window.wlast w + 1) as Hw by (destruct w; [right; rewrite Hl by done; lia|by left]).
    pose proof (takes now (h s) (msgs (ch st)) w) as Ht. destruct w as [q|].
    - destruct (view_Store _ (Some q) (h s) now Hv) as [(ms' & w' & Hx & _)|(x & ms' & Hx & _)]; [|lia|done|by eauto|by apply Ht in Hx].
      destruct Hw as [?|?]; [done|lia].
    - destruct (view_StoreFirst _ (h s) now Hv) as [(ms' & w' & Hx & _)|(x & ms' & Hx & _)]; [lia|done|by eauto|by apply Ht in Hx]. }
  eexists. unfold store_msg, on_store_msgs, on_wire, mbind, eff_bind. cbn. by rewrite E1.
Qed.

Lemma emptied_ok w (st : rstate) :
  view (msgs (ch st)) w -> exists ms, on_store_msgs EmptyMsgs st = (Ok tt, mkR (set_msgs ms (ch st)) (wire st)) /\ view ms None.
Proof. intros Hv. destruct (view_Empty _ _ Hv) as (ms & E1 & V1). exists ms. unfold on_store_msgs. by rewrite E1. Qed.

(** All answers have come, or those to the last request are on their way. *)
Definition flow (i : string) (last : Z) (v : vars) (n : net) : Prop :=
  (seq v = reqStart v /\ default [] (boxes n !! i) = []) \/
  (seq v <= reqEnd v <= last /\ (reqStart v = reqEnd v + 1 \/ (reqEnd v = last /\ reqStart v < seq v)) /\ pending i (seq v) (reqEnd v) n).

Lemma ask_ok i last v (st : rstate) :
  HasSuffix i ("." ++ restoreMsgsV2) = true -> good marshal nm h top (wire st) -> flow i last v (wire st) -> 0 < seq v <= last -> last <= top ->
  exists v1 st1, ask_more subject i last v st = (Ok v1, st1) /\ seq v1 = seq v /\ stored v1 = stored v /\ seq v <= reqEnd v1 <= last /\
    (reqStart v1 = reqEnd v1 + 1 \/ (reqEnd v1 = last /\ reqStart v1 <= seq v)) /\ pending i (seq v) (reqEnd v1) (wire st1).
Proof.
  intros Hi Hg Hf Hs Hl. unfold ask_more. destruct Hf as [[Eq Hb]|(He & Hr & Hp)].
  - rewrite <- Eq, Z.eqb_refl, !(u64_small (seq v + 100)), u64_small by (unfold is_u64; lia). set (e := if last <? _ then _ else _).
    assert (seq v <= e <= last) as He by (subst e; destruct (Z.ltb_spec last (seq v + 100 - 1)); lia).
    destruct Hg as ([w Hw] & _). destruct (evolves (turn (wire st)) _ _ Hw) as (w' & Hw' & _).
    destruct (request_spec marshal clusterID nm never never h top Htop _ _ i (seq v) e Hw' Hi ltac:(lia) ltac:(lia)) as (ms & Hv & Ha & Ht & Eq1).
    eexists _, _. split; [reflexivity|]. cbn. split; [done|]. split; [done|]. split; [done|].
    split; [destruct (Z.eqb_spec e last); cbn; [right; lia|left; rewrite u64_small by (unfold is_u64; lia); done]|].
    exists ms, w'. eexists _, _. split; [done|]. split; [done|]. split; [done|]. split; [|cbn; rewrite lookup_insert_eq; cbn; rewrite Hb, Eq1; done]. lia.
  - destruct (Z.eqb_spec (seq v) (reqStart v)); [lia|]. exists v, st. split; [done|]. split_and!; try (done || lia).
Qed.

(** A message comes: the next sequence is after it. *)
Lemma got_msg_ok last r k w v wf (st : rstate) :
  answer_for marshal h w (seq v) r (Some k) -> 0 < k < two64 - 1 -> view (msgs (ch st)) wf -> (is_Some wf -> Window.wlast wf = seq v - 1) ->
  last + 100 < two64 -> seq v <= last ->
  exists o st', got_msg unmarshal subject last r (h k) v st = (Ok o, st') /\ wire st' = wire st /\
    (forall v', o = Some v' -> k <= last /\ seq v' = k /\ reqEnd v' = reqEnd v /\ reqStart v' = if (reqEnd v <? k) && negb (k =? seq v) then k + 1 else reqStart v).
Proof.
  intros Har Hk Hv Hl Hlast Hsl. unfold got_msg. rewrite (proj1 (h_seq k Hk)). destruct (Z.eqb_spec k (seq v)) as [->|Hne].
  - destruct (store_msg_ok (seq v) wf st Hv Hl Hk) as (st' & E1 & W1). exists (Some (mkVars (seq v) (reqStart v) (reqEnd v) true 0)), st'.
    rewrite (eff_bind_Ok _ _ _ _ _ E1). split_and!; [done|done|]. intros v' [= <-]. cbn. by rewrite andb_false_r.
  - inversion Har as [|? Hk' Hlt Hle|]; subst; [done|]. replace (HasSuffix _ _) with true by done. cbn [negb andb].
    rewrite (eff_bind_Ok (mret tt) _ st tt st) by done. destruct (emptied_ok wf st Hv) as (ms & E1 & V1). rewrite (eff_bind_Ok _ _ _ _ _ E1).
    destruct (Z.ltb_spec last (first_avail w)); [eexists None, _; split; [reflexivity|done]|].
    unfold put_firstSeq. rewrite eff_modify. cbn [ch wire].
    destruct (store_msg_ok (first_avail w) None (mkR (set_firstSeq (first_avail w) (set_msgs ms (ch st))) (wire st))) as (st' & E2 & W2); [done|by intros []|done|].
    rewrite (eff_bind_Ok _ _ _ _ _ E2). eexists _, st'. split; [reflexivity|]. split; [done|]. intros v' [= <-]. cbn. rewrite andb_true_r.
    split_and!; try done. destruct (_ <? _); [|done]. rewrite u64_small by (unfold is_u64; lia). done.
Qed.

Lemma got_nothing_ok i first last r v wf (st : rstate) :
  r_Reply r = restoreMsgsV2 -> view (msgs (ch st)) wf -> exists st', got_nothing subject i first last r v st = (Ok None, st').
Proof.
  intros Hr Hv. unfold got_nothing. rewrite Hr. unfold when. destruct ((seq v =? first) || stored v).
  - destruct (emptied_ok wf st Hv) as (ms & E1 & _). rewrite (eff_bind_Ok _ _ _ _ _ E1). unfold put_firstSeq. rewrite eff_modify. by eexists.
  - rewrite (eff_bind_Ok (mret tt) _ st tt st) by done. unfold put_firstSeq. rewrite eff_modify. by eexists.
Qed.

Lemma step_ok i first last v w0 (st : rstate) :
  HasSuffix i ("." ++ restoreMsgsV2) = true -> flow i last v (wire st) -> 0 < seq v <= last -> last <= top ->
  loop_inv marshal h top subject w0 first last v st ->
  exists o st', restore_step unmarshal subject i first last v st = (Ok o, st') /\ (forall v', o = Some v' -> seq v < seq v' /\ (seq v' <= last -> flow i last v' (wire st'))).
Proof.
  intros Hi Hf Hs Hl (_ & wf & (Hg & Hv & (_ & Hlast & _) & _) & _). unfold restore_step.
  destruct (ask_ok i last v st Hi Hg Hf Hs Hl) as (v1 & st1 & E1 & Q1 & T1 & Hr & Hq & Hp). rewrite (eff_bind_Ok _ _ _ _ _ E1).
  assert (ch st1 = ch st) as C1.
  { revert E1. unfold ask_more. destruct (_ =? _); [|by intros [= _ <-]]. intros (u & s2 & K2 & [= _ <-])%eff_bind_inv. by apply wire_ok_inv in K2 as [? _]. }
  destruct (pending_next i _ _ _ Hp ltac:(lia) ltac:(lia)) as (w & r & o & rs & Hb & Har & Ho & Hnext).
  set (n2 := mkNet (leader (wire st1)) (<[i := rs]> (boxes (wire st1))) (made (wire st1)) (turn (wire st1))).
  assert (wire_call (NextMsg i) st1 = (Ok r, mkR (ch st1) n2)) as E2.
  { unfold wire_call, on_wire, mbind, eff_bind. cbn. by rewrite Hb. }
  rewrite (eff_bind_Ok _ _ _ _ _ E2). rewrite <- Q1 in Har. destruct o as [k|].
  - destruct (Ho k eq_refl) as [Hk1 Hk2]. destruct (h_codec k Hk2) as [Hne Hun].
    assert (r_Data r = marshal (h k)) as Hd by (by inversion Har).
    destruct (got_msg_ok last r k w v1 wf (mkR (ch st1) n2) Har Hk2) as (o1 & st2 & E3 & W3 & Hv3); [by rewrite C1|by rewrite Q1|lia|lia|].
    rewrite Hd. destruct (marshal (h k)) as [|x l] eqn:Em; [done|]. rewrite Hun. rewrite (eff_bind_Ok _ _ _ _ _ E3).
    destruct o1 as [v2|]; [|by exists None, st2]. destruct (Hv3 v2 eq_refl) as (K1 & K2 & K3 & K4). eexists _, (mkR (ch st2) (wire st2)). split; [reflexivity|].
    intros v' [= <-]. cbn. rewrite K2, u64_small by (unfold is_u64; lia). split; [lia|]. intros Hle. rewrite K3, K4, W3. unfold flow. cbn [seq reqStart reqEnd].
    assert (pending i (k + 1) (reqEnd v1) n2) as Hp2 by (apply (Hnext k); [done|]; cbn; by rewrite lookup_insert_eq).
    destruct (Z.leb_spec (k + 1) (reqEnd v1)).
    + right. destruct (Z.ltb_spec (reqEnd v1) k); [lia|]. cbn [andb]. split_and!; try (done || lia).
    + left. apply pending_end in Hp2; [|lia]. split; [|done]. destruct (Z.ltb_spec (reqEnd v1) k); cbn [andb]; [|lia]. destruct (Z.eqb_spec k (seq v1)); cbn [negb]; lia.
  - assert (r = mkResponse restoreMsgsV2 []) as -> by (by inversion Har). cbn [r_Data].
    destruct (got_nothing_ok i first last (mkResponse restoreMsgsV2 []) v1 wf (mkR (ch st1) n2)) as (st2 & E3); [done|by rewrite C1|].
    rewrite (eff_bind_Ok _ _ _ _ _ E3). by exists None, st2.
Qed.

Lemma loop_ok i first last w0 : HasSuffix i ("." ++ restoreMsgsV2) = true -> last <= top ->
  forall fuel v (st : rstate), (Z.to_nat (last - seq v + 1) <= fuel)%nat -> 0 < seq v <= last + 1 -> (seq v <= last -> flow i last v (wire st)) ->
  loop_inv marshal h top subject w0 first last v st -> exists st', restore_loop unmarshal fuel subject i first last v st = (Ok tt, st').
Proof.
  intros Hi Hl. induction fuel as [|fuel IH]; intros v st Hfuel Hs Hf I; cbn [restore_loop]; destruct (Z.leb_spec (seq v) last); try lia; try (by eexists).
  destruct (step_ok i first last v w0 st Hi (Hf ltac:(done)) ltac:(lia) Hl I) as (o & st1 & E1 & Ho). rewrite (eff_bind_Ok _ _ _ _ _ E1).
  destruct o as [v'|]; [|by eexists]. destruct (Ho v' eq_refl) as [Hlt Hf'].
  pose proof (restore_step_inv marshal unmarshal h top subject h_seq h_codec _ _ _ _ _ _ _ _ Hi E1 Hl ltac:(lia) ltac:(lia) I) as [Hs' I'].
  apply IH; [lia|done|done|done].
Qed.

Lemma from_ok first fromApply w l (st : rstate) : view (msgs (ch st)) w -> exists f st', restore_from first fromApply l st = (Ok f, st') /\ wire st' = wire st.
Proof.
  intros Hv. unfold restore_from. set (f1 := if fromApply then _ else _). destruct (_ <? f1).
  - unfold when. destruct (negb _); [|by eexists _, _]. destruct (emptied_ok w st Hv) as (ms & E1 & _). eexists _, (mkR (set_msgs ms (ch st)) (wire st)). split; [|reflexivity].
    erewrite eff_bind_Ok; [|by rewrite (eff_bind_Ok _ _ _ _ _ E1)]. reflexivity.
  - destruct (f1 <=? l); by eexists _, _.
Qed.

Lemma restore_returns first last fromApply w c n :
  name c = nm -> channel_ok marshal h top subject w (mkR c n) ->
  (w = None \/ firstSeq c <= Window.wlast w + 1 \/ (fromApply = false /\ firstSeq c <= first)) ->
  0 < first < two64 -> (fromApply = false -> first <= leader_first nm (leader n)) -> last <= top ->
  exists st', restoreMsgsFromSnapshot unmarshal clusterID (Z.to_nat last) first last fromApply (mkR c n) = (Ok tt, st').
Proof.
  intros Hn (Hg & Hv & H0 & Hw & Hf) Hfl Hfi Ha Hl. unfold restoreMsgsFromSnapshot. cbn in Hv, Hf, Hg.
  rewrite (eff_bind_Ok _ _ _ None (mkR c n)) by done. rewrite eff_get. cbn [ch].
  assert (LastSequence (msgs c) = Window.wlast w) as -> by (unfold LastSequence; by rewrite (view_FirstAndLast _ _ Hv)).
  destruct (from_ok first fromApply w (Window.wlast w) (mkR c n) Hv) as (f & st2 & E2 & W2). rewrite (eff_bind_Ok _ _ _ _ _ E2).
  destruct (restore_from_inv marshal h top subject (W := reliable_spec) _ _ w (mkR c n) _ _ Hg E2 Hv H0 Hfi Hw Hf Ha Hfl) as (w1 & In2 & _ & Hf2 & _). cbn in W2.
  destruct (Z.ltb_spec last f); [by eexists|]. set (i := (fresh_inbox n ++ "." ++ restoreMsgsV2)%string).
  rewrite (eff_bind_Ok _ _ _ i (mkR (ch st2) (wire st2))); [|subst i; rewrite <- W2; reflexivity]. rewrite Hn.
  assert (loop_inv marshal h top subject w f last (mkVars f f 0 false 0) (mkR (ch st2) (wire st2))) as I.
  { split; [intros _; cbn; split; [lia|by left]|]. exists w1. split; [done|]. by cbn. }
  destruct (loop_ok i f last w (HasSuffix_append _ _) Hl (Z.to_nat last) (mkVars f f 0 false 0) (mkR (ch st2) (wire st2))) as (st3 & E3); [cbn; lia|cbn; lia| |done|].
  { intros _. left. cbn. rewrite W2. split; [done|]. destruct Hg as (_ & Hm & _). apply Hm, fresh_not_made. }
  rewrite (eff_bind_Ok _ _ _ _ _ E3).
  destruct (restore_loop_inv marshal unmarshal h top subject h_seq h_codec _ i f last w (HasSuffix_append _ _) _ _ _ E3) as (_ & w3 & V3 & _); [done|lia|cbn; lia|done|].
  destruct (view_Flush _ _ V3) as (ms & E4 & _). eexists. unfold on_store_msgs. by rewrite E4.
Qed.

(** [C7] A leader and a node.  When nothing is lost between them, the node asks for the messages
    of a channel up to [last] and gets them: the restoration returns, with one round per
    message at most, and what it has stored then is, in order and without a gap, what the
    leader has from the end of what the node had, or from its own first message on.  The
    leader may drop messages because of its limits before it handles a request. *)
Theorem leader_serves_restore first last fromApply w c n :
  name c = nm -> channel_ok marshal h top subject w (mkR c n) ->
  (w = None \/ firstSeq c <= Window.wlast w + 1 \/ (fromApply = false /\ firstSeq c <= first)) ->
  0 < first < two64 -> (fromApply = false -> first <= leader_first nm (leader n)) -> last <= top ->
  exists st' w', restoreMsgsFromSnapshot unmarshal clusterID (Z.to_nat last) first last fromApply (mkR c n) = (Ok tt, st') /\
    view (msgs (ch st')) w' /\ restored h w (leader_first nm (leader (wire st'))) (last + 1) w'.
Proof.
  intros Hn Hok Hfl Hfi Ha Hl.
  destruct (restore_returns first last fromApply w c n Hn Hok Hfl Hfi Ha Hl) as [st' Hr].
  exists st'.
  destruct (restore_inv marshal unmarshal clusterID h top subject h_seq h_codec _ _ _ _ w c n st' ltac:(by rewrite Hn) Hr Hok Hfl Hfi Ha Hl ltac:(lia)) as (_ & w' & V & Hres & _).
  by exists w'.
Qed.
End Live.
End RestoreLive.
