(* ===== verification/RestoreCases.v ===== *)
(** * Concrete restorations

    A leader and a node with stores in memory. *)

From Stdlib Require Import ZArith Lia Ascii String.
From stdpp Require Import base list gmap strings.
From S2P Require Import Prelude Bytes GoLib Effects MemStore MsgStore MsgRestore GenericStore SubState Delivery SubStore ChannelStore PublishCases RestoreMsgs RestoreSpec RestoreSys RestoreLive.

Local Open Scope Z_scope.

Module RestoreSample.
Import Sub Reg Chan MemoryServer PublishSample Restore RestoreSpec RestoreSys RestoreLive.
#[local] Existing Instances names_order ptr_order sample_store_spec sample_log sample_log_spec sample_raft.
#[local] Instance sample_restore : MsgRestore Mem.MemoryMsgStore memory_error := memory_restore memory_error.
#[local] Instance sample_restore_spec : MsgRestoreSpec Mem.MemoryMsgStore memory_error := memory_restore_spec data_size memory_error.

(** The messages of a channel, told apart by their sequence, which is all that is sent. *)
Definition history (k : Z) : MsgProto := mkMsg k "foo" "" ["x"%char] k false 0 0.
Definition encode_seq (m : MsgProto) : list byte := put_le 8 (Sequence m).
Definition decode_seq (bs : list byte) : option MsgProto := Some (history (get_le bs)).

Lemma history_seq k : 0 < k < two64 - 1 -> Sequence (history k) = k /\ storable (S := Mem.MemoryMsgStore) (E := memory_error) (history k).
Proof. done. Qed.
Lemma history_codec k : 0 < k < two64 - 1 -> encode_seq (history k) <> [] /\ decode_seq (encode_seq (history k)) = Some (history k).
Proof.
  intros Hk. split; [done|]. unfold decode_seq, encode_seq. cbn [Sequence history]. rewrite get_put_le_small by (unfold two64 in *; cbn; lia). done.
Qed.

(** The store of a leader that has messages 2 to 4, and one where all messages have expired. *)
Definition leader_msgs : Mem.MemoryMsgStore :=
  foldl (fun ms k => (Mem.Store data_size 0 (history k) ms).2) (Mem.init (Mem.mkLimits 3 0 0)) [1; 2; 3; 4].
Definition expired_msgs : Mem.MemoryMsgStore :=
  match Mem.expireMsgs data_size 100 (foldl (fun ms k => (Mem.Store data_size 0 (history k) ms).2) (Mem.init (Mem.mkLimits 0 0 10)) [1; 2; 3; 4]) with
  | Ok ms => ms
  | _ => Mem.init (Mem.mkLimits 0 0 10)
  end.

Definition on_leader (ms : Mem.MemoryMsgStore) : @channel Mem.MemoryMsgStore := mkChannel 0 5 "foo" 7 ms createSubStore 0 None 1 true.
Definition leading (ms : Mem.MemoryMsgStore) : stan :=
  mkStan {[0%nat := on_leader ms]} {["foo" := 0%nat]} {["foo" := 0%nat]} sample_memory ∅ (mkServer ∅ ∅ ∅ ∅ false [] []) 0 [].
Definition connected (ms : Mem.MemoryMsgStore) : @net Mem.MemoryMsgStore memory (gmap string Z) memory_error := mkNet (leading ms) ∅ ∅ 0.

(** A node whose store is new, with a snapshot of messages 1 to 4. *)
Definition behind : @channel Mem.MemoryMsgStore := mkChannel 1 1 "foo" 7 (Mem.init (Mem.mkLimits 0 0 0)) createSubStore 0 None 1 false.

Definition quiet (_ : nat) (s : stan) : stan := s.
#[local] Instance sample_wire : Wire (@net Mem.MemoryMsgStore memory (gmap string Z) memory_error) memory_error :=
  direct encode_seq "cluster" DeleteFailed never never quiet all_of 0.
Definition restoring_from (ms : Mem.MemoryMsgStore) (last : Z) :=
  restoreMsgsFromSnapshot decode_seq "cluster" (Z.to_nat last) 1 last false (mkR behind (connected ms)).

Lemma leader_msgs_view : view leader_msgs (Some (2, history <$> [2; 3; 4])).
Proof. constructor; try (vm_compute; reflexivity). intros [|[|[|i]]] m; cbn; intros [= <-]; reflexivity. Qed.

Lemma leader_leads : leads "foo" history 4 (leading leader_msgs) (Some (2, history <$> [2; 3; 4])).
Proof.
  exists 0%nat, (on_leader leader_msgs). split_and!; [done|done|done|apply leader_msgs_view| |done].
  intros s m. cbn. destruct (Z.leb_spec 2 s); [|done]. destruct (Z.to_nat (s - 2)) as [|[|[|i]]] eqn:Ei; cbn; intros [= <-]; f_equal; lia.
Qed.

Lemma quiet_evolves k (s : stan) w : leads "foo" history 4 s w -> exists w', leads "foo" history 4 (quiet k s) w' /\ first_avail w <= first_avail w'.
Proof. intros Hw. by exists w. Qed.

Lemma connected_good : good encode_seq "foo" history 4 (connected leader_msgs).
Proof. split; [eexists; apply leader_leads|]. split; [done|]. intros i r _ Hr. by apply not_elem_of_nil in Hr. Qed.

#[local] Instance sample_wire_spec : WireSpec encode_seq history 4 (restore_subject "cluster" "foo") :=
  direct_spec encode_seq "cluster" "foo" DeleteFailed never never quiet all_of 0 history 4 (fun k Hk => proj1 (history_seq k Hk)) ltac:(done) quiet_evolves (fun _ _ _ Hr => Hr).

Lemma behind_ok : channel_ok encode_seq history 4 (restore_subject "cluster" "foo") None (mkR behind (connected leader_msgs)).
Proof. split; [apply connected_good|]. split; [by split_and!|]. split; [done|]. split; [done|]. vm_compute. done. Qed.

Lemma restored_without_gap_witness :
  (restoring_from leader_msgs 4).1 = Ok tt /\ firstSeq (ch (restoring_from leader_msgs 4).2) = 2 /\
  exists w', view (msgs (ch (restoring_from leader_msgs 4).2)) w' /\
    restored history None (gone (wire (restoring_from leader_msgs 4).2)) 5 w'.
Proof.
  split; [vm_compute; reflexivity|]. split; [vm_compute; reflexivity|].
  destruct (restored_without_gap encode_seq decode_seq "cluster" history 4 (restore_subject "cluster" "foo") history_seq history_codec 4 1 4 false None behind
    (connected leader_msgs) (restoring_from leader_msgs 4).2) as (w' & V & Hres & _).
  - reflexivity.
  - vm_compute. reflexivity.
  - apply behind_ok.
  - by left.
  - done.
  - intros _. vm_compute. done.
  - done.
  - done.
  - exists w'. split; [exact V|exact Hres].
Defined.

Lemma memory_takes t m (s : Mem.MemoryMsgStore) (w : win) (x : memory_error) s' :
  view s w -> storable (S := Mem.MemoryMsgStore) (E := memory_error) m -> w = None \/ Sequence m = Window.wlast w + 1 -> StoreMsg t m s <> (Err x, s').
Proof. intros _ _ _. cbn. by destruct (Mem.Store data_size t m s). Qed.

Lemma leader_serves_restore_witness :
  exists st' w', restoring_from leader_msgs 4 = (Ok tt, st') /\ view (msgs (ch st')) w' /\ restored history None (leader_first "foo" (leader (wire st'))) 5 w'.
Proof.
  apply (leader_serves_restore encode_seq decode_seq "cluster" "foo" DeleteFailed quiet 0 history 4 ltac:(done) history_seq history_codec quiet_evolves memory_takes
    1 4 false None behind (connected leader_msgs)).
  - reflexivity.
  - apply behind_ok.
  - by left.
  - done.
  - intros _. vm_compute. done.
  - done.
Defined.

(** A run.  When all messages of the snapshot have expired on the leader by the time that a node
    restores them, the leader answers that it has none; the node takes the first sequence
    that it asked for as the last one of the channel, not the last sequence of the snapshot.
    If it becomes the leader, it gives the following sequences to new messages although
    they have been used. *)
Theorem expired_restore_reuses_sequences :
  getChannelFirstAndlLastSeq true (None : option memory_error) (on_leader expired_msgs) = Ok (5, 4) /\
  (restoring_from expired_msgs 4).1 = Ok tt /\
  getChannelFirstAndlLastSeq true (None : option memory_error) (ch (restoring_from expired_msgs 4).2) = Ok (2, 1) /\
  exists c, next_on_leadership (None : option memory_error) (ch (restoring_from expired_msgs 4).2) = Ok c /\ nextSequence c = 2.
Proof. split_and!; try (vm_compute; reflexivity). eexists. split; vm_compute; reflexivity. Qed.
End RestoreSample.
