(* ===== verification/Partitions.v ===== *)
(** * Partitioning

    Servers of a partitioned cluster serve the channels they are configured with
    (src/server/partitions.go).  A server sends the list of its channels to the others,
    which answer with a channel that both would serve.  The NATS connection is a
    parameter: what publishing returns, and the answers to the requests sent. *)

From Stdlib Require Import ZArith Lia Ascii String.
From stdpp Require Import base list strings gmap.
From S2P Require Import Prelude Bytes Subject Util Channels Sublist Proto ProtoSpec Spb.

Local Open Scope Z_scope.

#[local] Existing Instance SpbSpec.CtrlMsg_lawful.

Module Partitioning.
Definition channelInterest : Z := 1.

Record partitions := mkPartitions {
  serverID : string;
  channels : list string;
  sl : Sublist Z;
  isShutdown : bool
}.

Definition set_sl (x : Sublist Z) (p : partitions) : partitions :=
  mkPartitions (serverID p) (channels p) x (isShutdown p).

Section Partitions.
Context `{!RangeOrder string}.

Definition createChannelsMapAndSublist {L : Type} (storeChannels : gmap string L)
  : list string * Sublist Z :=
  foldl (fun x c => (x.1 ++ [c.1], (Insert x.2 c.1 channelInterest).1)) ([], NewSublist) (range storeChannels).

(** ** Requests of other servers *)

(** The channels of the request: the first one that this server has, or the sublist of all. *)
Fixpoint check_theirs (chs : list string) (mine theirs : Sublist Z) : option string * Sublist Z * Sublist Z :=
  match chs with
  | [] => (None, mine, theirs)
  | c :: chs' =>
      let r := Match mine c in
      match r.1 with
      | [] => check_theirs chs' r.2 (Insert theirs c channelInterest).1
      | _ => (Some c, r.2, theirs)
      end
  end.

(** The channels of this server: the first one that the request has. *)
Fixpoint check_mine (chs : list string) (theirs : Sublist Z) : option string :=
  match chs with
  | [] => None
  | c :: chs' =>
      let r := Match theirs c in
      match r.1 with [] => check_mine chs' r.2 | _ => Some c end
  end.

(** The answer that is published to [reply], if any. *)
Definition processChannelsListRequests (reply : string) (data : list byte) (p : partitions)
  : option (list byte) * partitions :=
  if (length data =? 0)%nat || String.eqb reply "" then (None, p)
  else match Spb.CtrlMsg.Unmarshal Spb.CtrlMsg.zero data with
  | Ok req =>
      if String.eqb (Spb.CtrlMsg.ServerID req) (serverID p) then (None, p)
      else match DecodeChannels (Spb.CtrlMsg.Data req) with
      | Some (inl chs) =>
          let '(conflict, mine, theirs) := check_theirs (string_of_list_ascii <$> chs) (sl p) NewSublist in
          let conflict := match conflict with Some c => Some c | None => check_mine (channels p) theirs end in
          let Data := match conflict with Some c => list_ascii_of_string c | None => [] end in
          (Some (Spb.CtrlMsg.Marshal (Spb.CtrlMsg.mk CtrlMsg.Partitioning (serverID p) Data "")), set_sl mine p)
      | _ => (None, p)
      end
  | _ => (None, p)
  end.

(** ** Checking the channels of this server *)

Section Check.
Context {E : Type} (PublishRequest : list CtrlMsg.CtrlMsg -> CtrlMsg.CtrlMsg -> option E)
  (Flush : list CtrlMsg.CtrlMsg -> option E) (maxPayload : Z).

(** What [NextMsg] returns one call after the other, before it times out, when the requests
    have been sent. *)
Context (network : list CtrlMsg.CtrlMsg -> list (list byte + E)).

Inductive part_error :=
| ErrNoChannel
| ConnFailed (e : E)
| UnableToSubscribe (e : E)
| UnableToSend (e : @send_error E)
| UnableToGetReply (e : E)
| UnableToDecode (e : Proto.proto_error)
| CausesConflict (channel server : string).

Fixpoint read_replies (replies : list (list byte + E)) : outcome part_error unit :=
  match replies with
  | [] => Ok tt
  | inr e :: _ => Err (UnableToGetReply e)
  | inl data :: replies' =>
      match Spb.CtrlMsg.Unmarshal Spb.CtrlMsg.zero data with
      | Ok resp =>
          match Spb.CtrlMsg.Data resp with
          | [] => read_replies replies'
          | c => Err (CausesConflict (string_of_list_ascii c) (Spb.CtrlMsg.ServerID resp))
          end
      | Err e => Err (UnableToDecode e)
      | Panic => Panic
      end
  end.

Definition checkChannelsUniqueInCluster (p : partitions) : outcome part_error unit :=
  match SendChannelsList PublishRequest Flush (list_ascii_of_string <$> channels p) maxPayload (list_ascii_of_string (serverID p)) with
  | Some (Ok (sent, None)) => read_replies (network sent)
  | Some (Ok (_, Some e)) => Err (UnableToSend e)
  | _ => Panic
  end.

(** A conflict ends the server. *)
Definition topologyChanged (p : partitions) : outcome part_error unit :=
  if isShutdown p then Ok tt
  else match checkChannelsUniqueInCluster p with Ok _ => Ok tt | _ => Panic end.

(** [conn], [sub_list] and [sub_inbox] are the errors of the connection and of its
    subscriptions.  The state is kept when the check fails. *)
Definition initPartitions {L : Type} (conn sub_list sub_inbox : option E) (id : string) (PerChannel : gmap string L)
  : outcome part_error unit * option partitions :=
  if (size PerChannel =? 0)%nat then (Err ErrNoChannel, None)
  else match conn with
  | Some e => (Err (ConnFailed e), None)
  | None =>
      let '(chs, l) := createChannelsMapAndSublist PerChannel in
      let p := mkPartitions id chs l false in
      match sub_list, sub_inbox with
      | Some e, _ => (Err (UnableToSubscribe e), Some p)
      | _, Some e => (Err (UnableToSubscribe e), Some p)
      | None, None => (checkChannelsUniqueInCluster p, Some p)
      end
  end.
End Check.

Definition shutdown (p : partitions) : partitions :=
  if isShutdown p then p else mkPartitions (serverID p) (channels p) (sl p) true.

(** ** What the exchange of lists shows *)

(** One of two channels, taken as a pattern, matches the name of the other one. *)
Definition overlap (a b : string) : Prop := matches (path a) (tokens b) \/ matches (path b) (tokens a).

Definition entries (chs : list string) : list (list key * Z) := (fun c => (path c, channelInterest)) <$> chs.

Lemma matching_entries toks chs : matching toks (entries chs) = [] <-> forall c, c ∈ chs -> ~ matches (path c) toks.
Proof.
  unfold matching, entries. induction chs as [|c chs IH]; [split; [intros _ c Hc; by apply elem_of_nil in Hc|done]|].
  cbn [fmap list_fmap]. rewrite filter_cons. cbn [fst]. destruct (decide (matches (path c) toks)) as [Hm|Hm].
  - split; [done|]. intros H. by destruct (H c ltac:(set_solver)).
  - rewrite IH. split; [|set_solver]. intros H x [->|Hx]%elem_of_cons; [done|by apply H].
Qed.

(** A match on the sublist of some channels. *)
Lemma Match_entries s chs c :
  refines s (entries chs) -> valid c ->
  refines (Match s c).2 (entries chs) /\
  match (Match s c).1 with
  | [] => forall x, x ∈ chs -> ~ matches (path x) (tokens c)
  | _ => exists x, x ∈ chs /\ matches (path x) (tokens c)
  end.
Proof.
  intros Hr Hv. destruct (Match_refines s _ c Hr Hv) as [Hp Hr']. split; [done|].
  destruct ((Match s c).1) as [|x l].
  - by apply matching_entries, Permutation_nil.
  - assert (x ∈ matching (tokens c) (entries chs)) as Hx by (rewrite <- Hp; set_solver).
    apply list_elem_of_fmap in Hx as ([q e] & -> & [Hq Hx]%list_elem_of_filter).
    apply list_elem_of_fmap in Hx as (y & [= -> ->] & Hy). by exists y.
Qed.

Lemma Insert_entries s chs c : refines s (entries chs) -> valid c -> refines (Insert s c channelInterest).1 (entries (chs ++ [c])).
Proof. intros Hr Hv. unfold entries. rewrite fmap_app. by apply Insert_refines. Qed.

Lemma check_theirs_spec chs ms ts mine theirs :
  refines mine (entries ms) -> refines theirs (entries ts) -> Forall valid chs ->
  let x := check_theirs chs mine theirs in
  refines x.1.2 (entries ms) /\
  match x.1.1 with
  | Some c => c ∈ chs /\ exists m, m ∈ ms /\ matches (path m) (tokens c)
  | None => refines x.2 (entries (ts ++ chs)) /\ forall c m, c ∈ chs -> m ∈ ms -> ~ matches (path m) (tokens c)
  end.
Proof.
  intros Hm Ht Hv. revert ts mine theirs Hm Ht. induction Hv as [|c chs Hc Hv IH]; intros ts mine theirs Hm Ht; cbn -[Match Insert].
  - rewrite app_nil_r. split_and!; [done..|]. intros c m Hc. by apply elem_of_nil in Hc.
  - destruct (Match_entries mine ms c Hm Hc) as [Hm' Hr]. destruct ((Match mine c).1) as [|z l].
    + specialize (IH (ts ++ [c]) (Match mine c).2 (Insert theirs c channelInterest).1 Hm' (Insert_entries _ _ _ Ht Hc)). cbn zeta in IH.
      destruct IH as [IH1 IH2]. split; [done|]. destruct (check_theirs _ _ _) as [[[d|] m1] t1]; cbn in *; [set_solver|].
      rewrite <- app_assoc in IH2. split; [apply IH2|]. intros x m [->|Hx]%elem_of_cons ?; [by apply Hr|by apply IH2].
    + split; [done|]. split; [set_solver|done].
Qed.

Lemma check_mine_spec chs ts theirs :
  refines theirs (entries ts) -> Forall valid chs ->
  match check_mine chs theirs with
  | Some c => c ∈ chs /\ exists t, t ∈ ts /\ matches (path t) (tokens c)
  | None => forall c t, c ∈ chs -> t ∈ ts -> ~ matches (path t) (tokens c)
  end.
Proof.
  intros Ht Hv. revert theirs Ht. induction Hv as [|c chs Hc Hv IH]; intros theirs Ht; cbn -[Match].
  - intros c t H. by apply elem_of_nil in H.
  - destruct (Match_entries theirs ts c Ht Hc) as [Ht' Hr]. destruct ((Match theirs c).1) as [|z l]; [|set_solver].
    specialize (IH _ Ht'). destruct (check_mine _ _); [set_solver|]. intros x t [->|Hx]%elem_of_cons; eauto.
Qed.

(** *** Requests on the wire *)

(** The bytes of a request. *)
Definition on_wire (m : Channels.CtrlMsg.CtrlMsg) : list byte :=
  Spb.CtrlMsg.Marshal (Spb.CtrlMsg.mk (Channels.CtrlMsg.MsgType m) (string_of_list_ascii (Channels.CtrlMsg.ServerID m))
    (Channels.CtrlMsg.Data m) (string_of_list_ascii (Channels.CtrlMsg.RefID m))).

Lemma unmarshal_ctrl id d r :
  Spb.CtrlMsg.Size (Spb.CtrlMsg.mk 4 id d r) < two63 ->
  let bs := Spb.CtrlMsg.Marshal (Spb.CtrlMsg.mk 4 id d r) in
  Spb.CtrlMsg.Unmarshal Spb.CtrlMsg.zero bs = Ok (Spb.CtrlMsg.mk 4 id d r) /\ length bs <> 0%nat.
Proof.
  intros Hs. destruct (ProtoSpec.lawful_ok (c := Spb.CtrlMsg.codec)  (Spb.CtrlMsg.mk 4 id d r)) as [Hu _]; [|done|].
  { repeat constructor; done. }
  split; [done|]. by cbn.
Qed.

(** The size that [SendChannelsList] computes. *)
Lemma ctrl_size m :
  Spb.CtrlMsg.Size (Spb.CtrlMsg.mk (Channels.CtrlMsg.MsgType m) (string_of_list_ascii (Channels.CtrlMsg.ServerID m))
    (Channels.CtrlMsg.Data m) (string_of_list_ascii (Channels.CtrlMsg.RefID m))) = Channels.CtrlMsg.Size m.
Proof.
  assert (forall l, String.length (string_of_list_ascii l) = length l) as Hl by (induction l; cbn; congruence).
  unfold Spb.CtrlMsg.Size, Proto.message_size, Channels.CtrlMsg.Size, Channels.CtrlMsg.size_field. cbn -[Z.add Channels.CtrlMsg.sovProtocol].
  rewrite !Hl. unfold Proto.size_int, Proto.size_bytes, Proto.size_delimited. lia.
Qed.

(** Every request has the header that the sending started with. *)
Lemma send_loop_header {E} (pr : list Channels.CtrlMsg.CtrlMsg -> Channels.CtrlMsg.CtrlMsg -> option E) fl fuel h hs mx chs sent sent' err :
  send_loop pr fl fuel h hs mx chs sent = Some (Ok (sent', err)) ->
  Forall (fun r => exists d, r = Channels.CtrlMsg.with_Data h d) sent ->
  Forall (fun r => exists d, r = Channels.CtrlMsg.with_Data h d) sent'.
Proof.
  revert h chs sent. induction fuel as [|fuel IH]; intros h chs sent He Hs; [done|]. cbn -[encodeChannelsRequest drop] in He.
  destruct chs as [|c chs]; [by injection He as <- _|].
  destruct (encodeChannelsRequest h (c :: chs) hs mx) as [[[r|] [|n]]| |] eqn:Er; try (by injection He as <- _ || done).
  destruct (pr sent r); [by injection He as <- _|].
  assert (exists d, r = Channels.CtrlMsg.with_Data h d) as [d ->].
  { unfold encodeChannelsRequest in Er. repeat case_match; simplify_eq. by eexists. }
  apply IH in He; [by destruct h|]. apply Forall_app. split; [by destruct h|]. apply Forall_singleton. by exists d.
Qed.

(** *** A server that answers *)

Definition small (s : string) : Prop := Z.of_nat (String.length s) < two16.

Record part_ok (p : partitions) : Prop := {
  ok_id : small (serverID p);
  ok_channels : Forall (fun c => valid c /\ small c) (channels p);
  ok_sl : refines (sl p) (entries (channels p))
}.

Definition reply_of (p : partitions) (conflict : option string) : list byte :=
  Spb.CtrlMsg.Marshal (Spb.CtrlMsg.mk Channels.CtrlMsg.Partitioning (serverID p) (match conflict with Some c => list_ascii_of_string c | None => [] end) "").

(** [conflict] tells whether channels of [theirs] and of [mine] overlap. *)
Definition tells (theirs mine : list string) (conflict : option string) : Prop :=
  match conflict with
  | Some c => exists a b, a ∈ theirs /\ b ∈ mine /\ overlap a b /\ (c = a \/ c = b)
  | None => forall a b, a ∈ theirs -> b ∈ mine -> ~ overlap a b
  end.

Lemma request_answered p m inbox part :
  part_ok p -> inbox <> ""%string ->
  Channels.CtrlMsg.MsgType m = Channels.CtrlMsg.Partitioning -> Channels.CtrlMsg.Size m < two63 ->
  string_of_list_ascii (Channels.CtrlMsg.ServerID m) <> serverID p ->
  DecodeChannels (Channels.CtrlMsg.Data m) = Some (inl part) -> Forall (fun c => valid c) (string_of_list_ascii <$> part) ->
  exists conflict p', processChannelsListRequests inbox (on_wire m) p = (Some (reply_of p conflict), p') /\
    part_ok p' /\ serverID p' = serverID p /\ channels p' = channels p /\ tells (string_of_list_ascii <$> part) (channels p) conflict.
Proof.
  intros [Hid Hch Hsl] Hin Ht Hs Hne Hd Hv. rewrite <- ctrl_size in Hs. rewrite Ht in Hs.
  destruct (unmarshal_ctrl _ _ _ Hs) as [Hu Hl]. unfold processChannelsListRequests, on_wire. rewrite Ht.
  change Channels.CtrlMsg.Partitioning with 4 in *. rewrite (proj2 (Nat.eqb_neq _ _) Hl), (proj2 (String.eqb_neq _ _) Hin), Hu. cbn [orb Spb.CtrlMsg.ServerID Spb.CtrlMsg.Data].
  rewrite (proj2 (String.eqb_neq _ _) Hne), Hd.
  destruct (check_theirs_spec _ _ [] _ NewSublist Hsl NewSublist_refines Hv) as [H1 H2].
  destruct (check_theirs _ _ _) as [[o mine] theirs]. cbn in H1, H2.
  eexists _, _. split; [reflexivity|]. split; [by constructor|]. split_and!; [done..|].
  destruct o as [c|]; cbn.
  - destruct H2 as (Hc & b & Hb & Hm). exists c, b. split_and!; [done..|by right|by left].
  - destruct H2 as [Ht' Hno]. assert (Forall valid (channels p)) as Hvm by (eapply Forall_impl; [exact Hch|by intros ? []]).
    pose proof (check_mine_spec _ _ _ Ht' Hvm) as Hm. destruct (check_mine (channels p) theirs) as [c|]; cbn.
    + destruct Hm as (Hc & a & Ha & Hm). exists a, c. split_and!; [done..|by left|by right].
    + intros a b Ha Hb [H|H]; [by apply (Hm b a)|by apply (Hno a b)].
Qed.

(** The server ignores its own requests. *)
Lemma own_request_ignored p m inbox :
  Channels.CtrlMsg.MsgType m = Channels.CtrlMsg.Partitioning -> Channels.CtrlMsg.Size m < two63 ->
  string_of_list_ascii (Channels.CtrlMsg.ServerID m) = serverID p ->
  processChannelsListRequests inbox (on_wire m) p = (None, p).
Proof.
  intros Ht Hs He. rewrite <- ctrl_size in Hs. rewrite Ht in Hs. destruct (unmarshal_ctrl _ _ _ Hs) as [Hu Hl].
  unfold processChannelsListRequests, on_wire. rewrite Ht. change Channels.CtrlMsg.Partitioning with 4. rewrite Hu.
  cbn [Spb.CtrlMsg.ServerID]. rewrite He, String.eqb_refl. by destruct (_ || _).
Qed.

(** Requests in order: the answers, and the server. *)
Fixpoint answers (inbox : string) (reqs : list (list byte)) (p : partitions) : list (list byte) * partitions :=
  match reqs with
  | [] => ([], p)
  | data :: reqs' =>
      let '(o, p') := processChannelsListRequests inbox data p in
      let '(l, p'') := answers inbox reqs' p' in
      (match o with Some r => r :: l | None => l end, p'')
  end.

(** The channels that a request carries, if any, have valid names. *)
Definition proper (data : list byte) : Prop := forall req chs,
  Spb.CtrlMsg.Unmarshal Spb.CtrlMsg.zero data = Ok req -> DecodeChannels (Spb.CtrlMsg.Data req) = Some (inl chs) ->
  Forall (fun c => valid c) (string_of_list_ascii <$> chs).

(** A server that was started with some channels and has answered requests since. *)
Inductive running {L : Type} (id : string) (PerChannel : gmap string L) : partitions -> Prop :=
| running_start : let x := createChannelsMapAndSublist PerChannel in running id PerChannel (mkPartitions id x.1 x.2 false)
| running_request p reply data :
    proper data -> running id PerChannel p -> running id PerChannel (processChannelsListRequests reply data p).2.

Lemma sublist_created {L : Type} (PerChannel : gmap string L) :
  map_Forall (fun c _ => valid c) PerChannel ->
  let x := createChannelsMapAndSublist PerChannel in x.1 = (range PerChannel).*1 /\ refines x.2 (entries x.1).
Proof.
  intros Hv. assert (Forall (fun c => valid c.1) (range PerChannel)) as Hr.
  { apply Forall_forall. intros [c l] Hc%elem_of_range. by apply Hv in Hc. }
  unfold createChannelsMapAndSublist. set (f := fun x c => _).
  cut (forall chs l, refines l (entries chs) ->
    let x := foldl f (chs, l) (range PerChannel) in x.1 = chs ++ (range PerChannel).*1 /\ refines x.2 (entries x.1)).
  { intros H. by destruct (H [] NewSublist NewSublist_refines). }
  induction Hr as [|[c l] cs Hc Hr IH]; intros chs s Hs; [by rewrite app_nil_r|].
  cbn [foldl fmap list_fmap fst]. destruct (IH (chs ++ [c]) (Insert s c channelInterest).1 (Insert_entries _ _ _ Hs Hc)) as [H1 H2].
  split; [etrans; [exact H1|by rewrite <- app_assoc]|done].
Qed.

Lemma running_ok {L : Type} id (PerChannel : gmap string L) p :
  running id PerChannel p -> small id -> map_Forall (fun c _ => valid c /\ small c) PerChannel ->
  part_ok p /\ serverID p = id /\ channels p = (range PerChannel).*1.
Proof.
  intros Hr Hid Hch. assert (map_Forall (fun c _ => valid c) PerChannel) as Hv by (intros c l [??]%Hch; done).
  induction Hr as [|p reply data Hp Hr (Hok & Hi & Hc)].
  - destruct (sublist_created _ Hv) as [H1 H2]. split_and!; [|done|done]. constructor; [done| |done].
    change (Forall (fun c => valid c /\ small c) (createChannelsMapAndSublist PerChannel).1). rewrite H1. apply Forall_forall. intros c ([c' l] & -> & Hc%elem_of_range)%list_elem_of_fmap. by apply Hch in Hc.
  - cut (forall mine, refines mine (entries (channels p)) -> part_ok (set_sl mine p)).
    { intros Hset. unfold processChannelsListRequests. destruct (_ || _); [done|].
      destruct (Spb.CtrlMsg.Unmarshal _ _) as [req| |] eqn:Eu; [|done..]. destruct (String.eqb _ _); [done|].
      destruct (DecodeChannels _) as [[chs|]|] eqn:Ed; [|done..]. specialize (Hp _ _ Eu Ed).
      destruct (check_theirs_spec _ _ [] _ NewSublist (ok_sl _ Hok) NewSublist_refines Hp) as [H1 _].
      destruct (check_theirs _ _ _) as [[o mine] theirs]. split_and!; [by apply Hset|done|done]. }
    intros mine Hm. by destruct Hok.
Qed.

Lemma valid_nonempty c : valid c -> list_ascii_of_string c <> [].
Proof. intros Hv. by destruct c. Qed.

Lemma size_bytes_small n : 0 <= n < two16 -> 0 <= Proto.size_bytes n < two32.
Proof.
  intros Hn. unfold Proto.size_bytes, Proto.size_delimited. rewrite (u64_small n) by (unfold is_u64, two64, two16 in *; lia).
  pose proof (sovProtocol_le n ltac:(unfold two16 in *; lia)). unfold two16, two32 in *. destruct (Z.ltb_spec 0 n); lia.
Qed.

(** The answers can be read. *)
Lemma reply_decoded p conflict :
  part_ok p -> match conflict with Some c => small c | None => True end ->
  Spb.CtrlMsg.Unmarshal Spb.CtrlMsg.zero (reply_of p conflict)
    = Ok (Spb.CtrlMsg.mk 4 (serverID p) (match conflict with Some c => list_ascii_of_string c | None => [] end) "").
Proof.
  intros [Hid _ _] Hc. apply unmarshal_ctrl. unfold Spb.CtrlMsg.Size, Proto.message_size.
  cbn -[Z.add Proto.size_int Proto.size_bytes].
  assert (forall s, length (list_ascii_of_string s) = String.length s) as Hl by (induction s; cbn; congruence).
  pose proof (size_bytes_small (Z.of_nat (String.length (serverID p))) ltac:(unfold small in Hid; lia)).
  assert (0 <= Z.of_nat (length (match conflict with Some c => list_ascii_of_string c | None => [] end)) < two16) as Hd%size_bytes_small
    by (destruct conflict; unfold small, two16 in *; rewrite ?Hl; cbn; lia).
  change (Proto.size_bytes (Z.of_nat 0)) with 0. change (Proto.size_int 4) with 2. unfold two32, two63 in *. lia.
Qed.

Lemma read_replies_spec {E : Type} (l : list (list byte + E)) :
  Forall (fun x => exists d resp, x = inl d /\ Spb.CtrlMsg.Unmarshal Spb.CtrlMsg.zero d = Ok resp) l ->
  match read_replies l with
  | Ok _ => forall d resp, inl d ∈ l -> Spb.CtrlMsg.Unmarshal Spb.CtrlMsg.zero d = Ok resp -> Spb.CtrlMsg.Data resp = []
  | Err (CausesConflict c s) => exists d resp, inl d ∈ l /\ Spb.CtrlMsg.Unmarshal Spb.CtrlMsg.zero d = Ok resp /\
      c = string_of_list_ascii (Spb.CtrlMsg.Data resp) /\ Spb.CtrlMsg.Data resp <> [] /\ s = Spb.CtrlMsg.ServerID resp
  | _ => False
  end.
Proof.
  induction 1 as [|x l (d & resp & -> & Hd) Hl IH]; cbn [read_replies]; [intros d resp H; by apply elem_of_nil in H|].
  rewrite Hd. destruct (Spb.CtrlMsg.Data resp) as [|b bs] eqn:Eb.
  - destruct (read_replies l) as [[]|[]|]; try done.
    + intros d' r [[= ->]|Hin]%elem_of_cons Hr; [congruence|by eapply IH].
    + destruct IH as (d' & r & ? & ?). exists d', r. split; [by right|done].
  - exists d, resp. rewrite Eb. split_and!; [by left|done..].
Qed.

(** The answers of a server to the requests of another one. *)
Lemma answers_spec inbox sent parts p :
  Forall2 (fun r part => DecodeChannels (Channels.CtrlMsg.Data r) = Some (inl part) /\ Forall (fun c => valid c) (string_of_list_ascii <$> part)) sent parts ->
  Forall (fun r => Channels.CtrlMsg.MsgType r = Channels.CtrlMsg.Partitioning /\ Channels.CtrlMsg.Size r < two63 /\
    string_of_list_ascii (Channels.CtrlMsg.ServerID r) <> serverID p) sent ->
  part_ok p -> inbox <> ""%string ->
  exists conflicts, (answers inbox (on_wire <$> sent) p).1 = reply_of p <$> conflicts /\
    Forall2 (fun part o => tells (string_of_list_ascii <$> part) (channels p) o) parts conflicts.
Proof.
  intros Hp. revert p. induction Hp as [|r part sent parts [Hd Hv] Hp IH]; intros p Hs Hok Hin; [by exists []|].
  apply Forall_cons in Hs as [(Ht & Hz & Hne) Hs].
  destruct (request_answered p r inbox part Hok Hin Ht Hz Hne Hd Hv) as (o & p' & E & Hok' & Hid & Hch & Htell).
  destruct (IH p') as (os & E' & Htells); [by rewrite Hid|done|done|]. rewrite Hch in Htells.
  exists (o :: os). split; [|by constructor]. cbn [answers fmap list_fmap]. rewrite E.
  destruct (answers inbox _ p') as [l p'']. cbn in E' |- *. rewrite E'. unfold reply_of. by rewrite Hid.
Qed.

Lemma own_answers inbox sent p :
  Forall (fun r => Channels.CtrlMsg.MsgType r = Channels.CtrlMsg.Partitioning /\ Channels.CtrlMsg.Size r < two63 /\
    string_of_list_ascii (Channels.CtrlMsg.ServerID r) = serverID p) sent ->
  (answers inbox (on_wire <$> sent) p).1 = [].
Proof.
  induction 1 as [|r sent (Ht & Hz & He) Hs IH]; [done|]. cbn [answers fmap list_fmap].
  rewrite own_request_ignored by done. by destruct (answers _ _ _).
Qed.

(** A connection that works has no errors. *)
Lemma send_loop_conn {E : Type} fuel h hs mx chs sent sent' (e : E) :
  send_loop (fun _ _ => None) (fun _ => None) fuel h hs mx chs sent <> Some (Ok (sent', Some (ConnError e))).
Proof.
  revert h chs sent. induction fuel as [|fuel IH]; intros h chs sent; [done|]. cbn -[encodeChannelsRequest drop].
  destruct chs as [|c chs]; [done|]. destruct (encodeChannelsRequest _ _ _ _) as [[[r|] [|n]]| |]; done || apply IH.
Qed.

(** *** A cluster *)

Section Cluster.
Context {E L : Type}.

(** A server, with its configuration and its state. *)
Record server := mkServer { s_id : string; s_PerChannel : gmap string L; s_state : partitions }.

Definition server_ok (x : server) : Prop :=
  running (s_id x) (s_PerChannel x) (s_state x) /\ small (s_id x) /\ map_Forall (fun c _ => valid c /\ small c) (s_PerChannel x).

(** What the servers answer to the requests that were sent. *)
Definition replies (inbox : string) (servers : list server) (sent : list Channels.CtrlMsg.CtrlMsg) : list (list byte) :=
  servers ≫= fun x => (answers inbox (on_wire <$> sent) (s_state x)).1.

(** The space that a request leaves for channels. *)
Definition header_size (id : string) : Z :=
  Channels.CtrlMsg.Size (Channels.CtrlMsg.mkCtrlMsg Channels.CtrlMsg.Partitioning (list_ascii_of_string id) [] []) + 1 + 8.

(** The channels of a server are sent. *)
Lemma list_sent (x : server) maxPayload :
  server_ok x -> header_size (s_id x) <= maxPayload < 2 ^ 56 ->
  map_Forall (fun c _ => header_size (s_id x) + 2 + Z.of_nat (String.length c) <= maxPayload) (s_PerChannel x) ->
  exists sent parts,
    SendChannelsList (fun _ _ => @None E) (fun _ => None) (list_ascii_of_string <$> channels (s_state x)) maxPayload (list_ascii_of_string (serverID (s_state x)))
      = Some (Ok (sent, None)) /\
    Forall2 (fun r part => DecodeChannels (Channels.CtrlMsg.Data r) = Some (inl part) /\ Forall (fun c => valid c) (string_of_list_ascii <$> part)) sent parts /\
    string_of_list_ascii <$> mjoin parts = channels (s_state x) /\
    Forall (fun r => Channels.CtrlMsg.MsgType r = Channels.CtrlMsg.Partitioning /\ Channels.CtrlMsg.Size r < two63 /\
      string_of_list_ascii (Channels.CtrlMsg.ServerID r) = s_id x) sent.
Proof.
  intros (Hr & Hid & Hc) Hmax Hfit. destruct (running_ok _ _ _ Hr Hid Hc) as ([_ Hch _] & -> & Hn).
  set (cs := list_ascii_of_string <$> channels (s_state x)).
  assert (forall s, length (list_ascii_of_string s) = String.length s) as Hl by (induction s; cbn; congruence).
  assert (Forall short cs) as Hshort.
  { apply Forall_fmap. eapply Forall_impl; [exact Hch|]. intros c [_ Hs]. unfold short, small in *. cbn. by rewrite Hl. }
  unfold SendChannelsList. set (h := Channels.CtrlMsg.mkCtrlMsg _ _ _ _).
  destruct (send_loop_spec (fun _ _ => @None E) (fun _ => None) (S (length cs)) h (Channels.CtrlMsg.Size h + 1 + 8) maxPayload cs [] [])
    as (sent & err & cs' & rest & He & (parts & Hp & ->) & Heq & Hb & H1 & H2); try done; [tauto|apply Hmax|lia|by exists []|].
  rewrite app_nil_l in Heq. pose proof (send_loop_header _ _ _ _ _ _ _ _ _ _ He (Forall_nil_2 _)) as Hh.
  assert (err = None) as ->.
  { destruct err as [[|e]|]; [|by apply send_loop_conn in He|done]. exfalso. destruct (H2 eq_refl) as (c & Hc' & Hbig).
    assert (c ∈ cs) as Hin by (rewrite Heq; destruct rest; [done|]; injection Hc' as ->; set_solver).
    apply list_elem_of_fmap in Hin as (c' & -> & Hin). rewrite Hn in Hin. apply list_elem_of_fmap in Hin as ([k v] & -> & Hin%elem_of_range).
    apply Hfit in Hin. rewrite Hl in Hbig. cbn in Hbig. unfold header_size in Hin. fold h in Hin. lia. }
  rewrite H1, app_nil_r in Heq by done.
  assert (string_of_list_ascii <$> mjoin parts = channels (s_state x)) as Hj.
  { rewrite <- Heq. unfold cs. rewrite <- list_fmap_compose. rewrite <- (list_fmap_id (channels (s_state x))) at 2.
    apply list_fmap_ext. intros i c _. apply string_of_list_ascii_of_string. }
  exists sent, parts. split_and!; [done| |done|].
  - assert (Forall (fun c => valid c) (string_of_list_ascii <$> mjoin parts)) as Hv by (rewrite Hj; eapply Forall_impl; [exact Hch|by intros ? []]).
    clear -Hp Hv. induction Hp as [|r part sent parts Hd Hp IH]; [constructor|]. cbn in Hv. rewrite fmap_app in Hv. apply Forall_app in Hv as [??].
    constructor; [done|by apply IH].
  - apply Forall_forall. intros r Hr'. rewrite Forall_forall in Hh, Hb. specialize (Hb r Hr'). destruct (Hh r Hr') as [d ->]. split_and!; [done| |apply string_of_list_ascii_of_string].
    unfold two63. lia.
Qed.

(** What a server answers to the requests of another one, as sets of answers. *)
Lemma answers_cover inbox sent parts (x y : server) :
  server_ok y -> inbox <> ""%string -> s_id y <> s_id x ->
  Forall2 (fun r part => DecodeChannels (Channels.CtrlMsg.Data r) = Some (inl part) /\ Forall (fun c => valid c) (string_of_list_ascii <$> part)) sent parts ->
  Forall (fun r => Channels.CtrlMsg.MsgType r = Channels.CtrlMsg.Partitioning /\ Channels.CtrlMsg.Size r < two63 /\
    string_of_list_ascii (Channels.CtrlMsg.ServerID r) = s_id x) sent ->
  let ds := (answers inbox (on_wire <$> sent) (s_state y)).1 in
  (forall d, d ∈ ds -> exists part o, part ∈ parts /\ d = reply_of (s_state y) o /\ tells (string_of_list_ascii <$> part) (channels (s_state y)) o) /\
  (forall part, part ∈ parts -> exists o, reply_of (s_state y) o ∈ ds /\ tells (string_of_list_ascii <$> part) (channels (s_state y)) o).
Proof.
  intros (Hr & Hid & Hc) Hin Hne Hp Hs ds. destruct (running_ok _ _ _ Hr Hid Hc) as (Hok & Hi & _).
  destruct (answers_spec inbox sent parts (s_state y) Hp) as (os & Ea & Ht); [|done|done|].
  { eapply Forall_impl; [exact Hs|]. intros r (? & ? & ->). by rewrite Hi. }
  unfold ds. rewrite Ea. split.
  - intros d (o & -> & [i Ho]%list_elem_of_lookup)%list_elem_of_fmap. destruct (Forall2_lookup_r _ _ _ _ _ Ht Ho) as (part & Hpart & Htell).
    exists part, o. split; [by eapply list_elem_of_lookup_2|done].
  - intros part [i Hpart]%list_elem_of_lookup. destruct (Forall2_lookup_l _ _ _ _ _ Ht Hpart) as (o & Ho & Htell).
    exists o. split; [|done]. by eapply list_elem_of_fmap_2, list_elem_of_lookup_2.
Qed.

(** The channel that an answer names is one of both servers'. *)
Lemma tells_named part mine o :
  Forall (fun c => valid c /\ small c) part -> Forall (fun c => valid c /\ small c) mine -> tells part mine o ->
  match o with Some c => valid c /\ small c | None => True end.
Proof. intros H1 H2 Ht. rewrite Forall_forall in H1, H2. destruct o as [c|]; [|done]. destruct Ht as (a & b & Ha & Hb & _ & [->| ->]); auto. Qed.

(** An answer that can be read. *)
Definition named (o : option string) : Prop := match o with Some c => valid c /\ small c | None => True end.

(** What a server sends, and what the others answer. *)
Lemma answers_heard inbox maxPayload (self : server) (others : list server) :
  Forall server_ok (self :: others) -> Forall (fun x => s_id x <> s_id self) others -> inbox <> ""%string ->
  header_size (s_id self) <= maxPayload < 2 ^ 56 ->
  map_Forall (fun c _ => header_size (s_id self) + 2 + Z.of_nat (String.length c) <= maxPayload) (s_PerChannel self) ->
  exists sent,
    SendChannelsList (fun _ _ => @None E) (fun _ => None) (list_ascii_of_string <$> channels (s_state self)) maxPayload (list_ascii_of_string (serverID (s_state self)))
      = Some (Ok (sent, None)) /\
    (forall d, d ∈ replies inbox (self :: others) sent -> exists y part o, y ∈ others /\ d = reply_of (s_state y) o /\ named o /\
       part ⊆ channels (s_state self) /\ tells part (channels (s_state y)) o) /\
    (forall y a, y ∈ others -> a ∈ channels (s_state self) -> exists part o, reply_of (s_state y) o ∈ replies inbox (self :: others) sent /\ named o /\
       a ∈ part /\ tells part (channels (s_state y)) o).
Proof.
  intros [Hself Hok]%Forall_cons Hne Hin Hmax Hfit. rewrite Forall_forall in Hne, Hok.
  destruct (list_sent self maxPayload Hself Hmax Hfit) as (sent & parts & Es & Hp & Hj & Hs).
  destruct Hself as (Hr & Hid & Hc). destruct (running_ok _ _ _ Hr Hid Hc) as ([_ Hcs _] & Hi & _).
  assert (forall part, part ∈ parts -> (string_of_list_ascii <$> part) ⊆ channels (s_state self)) as Hsub.
  { intros part Hpart c Hc'. rewrite <- Hj. apply list_elem_of_fmap in Hc' as (z & -> & Hz). apply list_elem_of_fmap_2. apply list_elem_of_join. eauto. }
  assert (forall y part o, y ∈ others -> part ∈ parts -> tells (string_of_list_ascii <$> part) (channels (s_state y)) o -> named o) as Hnamed.
  { intros y part o Hy Hpart. destruct (Hok y Hy) as (Hry & Hidy & Hcy). destruct (running_ok _ _ _ Hry Hidy Hcy) as ([_ Hcsy _] & _).
    apply tells_named; [|done]. rewrite Forall_forall in Hcs |- *. intros c Hc'. by apply Hcs, (Hsub part). }
  assert (replies inbox (self :: others) sent = replies inbox others sent) as Er.
  { unfold replies. cbn [mbind list_bind]. by rewrite own_answers by (by rewrite Hi). }
  exists sent. rewrite Er. split_and!; [done|..].
  - intros d (y & Hd & Hy)%list_elem_of_bind. destruct (answers_cover inbox sent parts self y (Hok y Hy) Hin (Hne y Hy) Hp Hs) as [H1 _].
    destruct (H1 d Hd) as (part & o & Hpart & -> & Ht). exists y, (string_of_list_ascii <$> part), o. split_and!; eauto.
  - intros y a Hy Ha. destruct (answers_cover inbox sent parts self y (Hok y Hy) Hin (Hne y Hy) Hp Hs) as [_ H2].
    rewrite <- Hj in Ha. apply list_elem_of_fmap in Ha as (z & -> & (part & Hz & Hpart)%list_elem_of_join).
    destruct (H2 part Hpart) as (o & Ho & Ht). exists (string_of_list_ascii <$> part), o. split_and!; [|eauto|by apply list_elem_of_fmap_2|done].
    apply list_elem_of_bind. eauto.
Qed.

(** [C34] Conflicts between servers.  A server sends its channels, in as many requests as it
    takes, to servers that have answered other requests before; the answers come back in any
    order.  If the check passes, then no channel of the server, taken as a pattern, matches
    the name of a channel of another server, or the other way round.  Otherwise the check
    names such a channel and the server that has it, and nothing else can go wrong. *)
Theorem partition_conflicts_detected inbox maxPayload network (self : server) (others : list server) :
  Forall server_ok (self :: others) -> Forall (fun x => s_id x <> s_id self) others -> inbox <> ""%string ->
  header_size (s_id self) <= maxPayload < 2 ^ 56 ->
  map_Forall (fun c _ => header_size (s_id self) + 2 + Z.of_nat (String.length c) <= maxPayload) (s_PerChannel self) ->
  (forall sent, network sent ≡ₚ inl <$> replies inbox (self :: others) sent) ->
  match checkChannelsUniqueInCluster (fun _ _ => @None E) (fun _ => None) maxPayload network (s_state self) with
  | Ok _ => forall x a b, x ∈ others -> a ∈ dom (s_PerChannel self) -> b ∈ dom (s_PerChannel x) -> ~ overlap a b
  | Err (CausesConflict c id) => exists x a b, x ∈ others /\ id = s_id x /\ a ∈ dom (s_PerChannel self) /\ b ∈ dom (s_PerChannel x) /\
      overlap a b /\ (c = a \/ c = b)
  | _ => False
  end.
Proof.
  intros Hall Hne Hin Hmax Hfit Hnet.
  destruct (answers_heard inbox maxPayload self others Hall Hne Hin Hmax Hfit) as (sent & Es & H1 & H2).
  assert (forall x, x ∈ self :: others -> part_ok (s_state x) /\ serverID (s_state x) = s_id x /\ forall c, c ∈ dom (s_PerChannel x) <-> c ∈ channels (s_state x)) as Hst.
  { intros x Hx. rewrite Forall_forall in Hall. destruct (Hall x Hx) as (Hr & Hid & Hc).
    destruct (running_ok _ _ _ Hr Hid Hc) as (Hpo & -> & ->). split_and!; [done..|]. intros c. by rewrite range_fst, elem_of_order. }
  assert (forall y o, y ∈ others -> named o -> Spb.CtrlMsg.Unmarshal Spb.CtrlMsg.zero (reply_of (s_state y) o)
    = Ok (Spb.CtrlMsg.mk 4 (s_id y) (match o with Some c => list_ascii_of_string c | None => [] end) "")) as Hdec.
  { intros y o Hy Ho. destruct (Hst y ltac:(by right)) as (Hpo & <- & _). apply reply_decoded; [done|]. by destruct o as [c|]; [destruct Ho|]. }
  assert (forall d, inl d ∈ network sent <-> d ∈ replies inbox (self :: others) sent) as Hel.
  { intros d. rewrite Hnet, list_elem_of_fmap. split; [by intros (? & [= ->] & ?)|eauto]. }
  unfold checkChannelsUniqueInCluster. rewrite Es.
  assert (Forall (fun x => exists d resp, x = inl d /\ Spb.CtrlMsg.Unmarshal Spb.CtrlMsg.zero d = Ok resp) (network sent)) as Hf%read_replies_spec.
  { apply Forall_forall. intros z. rewrite Hnet. intros (d & -> & Hd)%list_elem_of_fmap.
    destruct (H1 d Hd) as (y & part & o & Hy & -> & Ho & _). eexists _, _. split; [reflexivity|by apply Hdec]. }
  destruct (read_replies (network sent)) as [[]|[]|]; try done.
  - intros x a b Hx Ha%Hst Hb%Hst; [|by right|by left]. destruct (H2 x a Hx Ha) as (part & o & Hd & Ho & Hap & Ht).
    specialize (Hf _ _ (proj2 (Hel _) Hd) (Hdec x o Hx Ho)). destruct o as [c|]; [by destruct (valid_nonempty c (proj1 Ho))|by apply Ht].
  - destruct Hf as (d & resp & Hd%Hel & Hu & -> & Hne' & ->). destruct (H1 d Hd) as (y & part & o & Hy & -> & Ho & Hsub & Ht).
    rewrite Hdec in Hu by done. injection Hu as <-. cbn in Hne' |- *. destruct o as [c|]; [|done].
    destruct Ht as (a & b & Ha & Hb & Hov & Hc). exists y, a, b. rewrite string_of_list_ascii_of_string.
    split_and!; [done..|apply Hst; [by left|by apply Hsub]|apply Hst; [by right|done]|done|done].
Qed.
End Cluster.
End Partitions.
End Partitioning.

(** ** Runs *)

Module PartitionSample.
Import Partitioning.
#[local] Instance string_order : RangeOrder string := default_order string.

Definition configured (id : string) (chs : list string) : @server unit :=
  let conf := list_to_map ((fun c => (c, ())) <$> chs) in
  let x := createChannelsMapAndSublist conf in
  mkServer id conf (mkPartitions id x.1 x.2 false).

(** The check of one server of a cluster, with answers in the order of the servers. *)
Definition check_in (self : @server unit) (others : list server) : outcome (@part_error nat) unit :=
  checkChannelsUniqueInCluster (fun _ _ => None) (fun _ => None) 1048576 (fun sent => inl <$> replies "_INBOX" (self :: others) sent) (s_state self).

Lemma configured_ok id chs :
  small id -> Forall (fun c => valid c /\ small c) chs -> server_ok (configured id chs).
Proof.
  intros Hid Hc. split_and!; [apply running_start|done|]. intros c [] Hl%elem_of_list_to_map_2.
  apply list_elem_of_fmap in Hl as (c' & [= ->] & Hl). rewrite Forall_forall in Hc. by apply Hc.
Qed.

Definition server_a := configured "a" ["foo.bar"; "baz"].
Definition server_b := configured "b" ["bar"; "foo.*"].
Definition server_c := configured "c" ["bar.>"].

Lemma partition_conflicts_detected_witness :
  check_in server_a [server_b; server_c] = Err (CausesConflict "foo.bar" "b") /\
  match check_in server_a [server_b; server_c] with
  | Ok _ => forall x a b, x ∈ [server_b; server_c] -> a ∈ dom (s_PerChannel server_a) -> b ∈ dom (s_PerChannel x) -> ~ overlap a b
  | Err (CausesConflict c id) => exists x a b, x ∈ [server_b; server_c] /\ id = s_id x /\ a ∈ dom (s_PerChannel server_a) /\ b ∈ dom (s_PerChannel x) /\
      overlap a b /\ (c = a \/ c = b)
  | _ => False
  end.
Proof.
  split; [vm_compute; reflexivity|]. apply (partition_conflicts_detected "_INBOX").
  - repeat (apply Forall_cons; split; [apply configured_ok; [done|by repeat constructor]|]). constructor.
  - by repeat constructor.
  - done.
  - vm_compute. done.
  - intros c [] H. apply elem_of_list_to_map_2 in H. apply list_elem_of_fmap in H as (c' & [= ->] & H).
    repeat (apply elem_of_cons in H as [->|H]; [vm_compute; done|]). by apply elem_of_nil in H.
  - done.
Defined.

(** Wildcards on both sides.  Two servers, one with [foo.*.bar] and the other with
    [foo.baz.*], pass each other's checks although both subscribe to, and would store, the
    messages of [foo.baz.bar]. *)
Theorem overlapping_wildcards_undetected :
  let a := configured "a" ["foo.*.bar"] in let b := configured "b" ["foo.baz.*"] in
  check_in a [b] = Ok tt /\ check_in b [a] = Ok tt /\
  (Match (sl (s_state a)) "foo.baz.bar").1 = [channelInterest] /\ (Match (sl (s_state b)) "foo.baz.bar").1 = [channelInterest].
Proof. vm_compute. done. Qed.
End PartitionSample.
