(* ===== verification/Fsm.v ===== *)
(** * Applying the replicated log

    The state machine that every node of a cluster runs on the committed entries of the
    Raft log ([raftFSM.Apply] of src/server/clustering.go, with [lookupChannel] and
    [lookupOrCreateChannel]).  An entry is unmarshalled, and then a handler of the server
    does what the entry says; a message that cannot be stored makes the node panic.  What
    the Raft library does is not part of it: an entry is given when it is committed. *)

From Stdlib Require Import ZArith Lia Ascii String.
From stdpp Require Import base list gmap strings.
From S2P Require Import Prelude Bytes GoLib Effects Proto Spb MemStore MsgStore MsgRestore ClientStore SubState SubStore Replication ChannelStore Connect RestoreMsgs.

Local Open Scope Z_scope.

(** The fields of the messages of stan.go that the server reads. *)
Record UnsubscribeRequest := mkUnsub { u_ClientID : string; u_Subject : string; u_Inbox : string }.

Class StanFields `{StanProto} := {
  msg_fields : pb_MsgProto -> MsgProto;
  sub_fields : pb_SubscriptionRequest -> Reg.SubscriptionRequest;
  unsub_fields : pb_UnsubscribeRequest -> UnsubscribeRequest;
  connect_fields : pb_ConnectRequest -> Conn.ConnectRequest;
  close_fields : pb_CloseRequest -> string
}.

Module Fsm.
Import Chan.

Inductive fsm_error (E : Type) :=
| FsmChannel (x : chan_error E)
| FsmClient (x : Conn.conn_error E)
| FsmRestore (x : Restore.restore_error E)
| FsmSub (x : Reg.sub_error)
| FsmFlush (x : E)
| FsmWrongID (subject : string) (id : Z)
| FsmUnmarshal (x : Proto.proto_error)
| FsmRead
| FsmAborted (subject : string)
| FsmShutdown.
Arguments FsmChannel {E} x.
Arguments FsmClient {E} x.
Arguments FsmRestore {E} x.
Arguments FsmSub {E} x.
Arguments FsmFlush {E} x.
Arguments FsmWrongID {E} subject id.
Arguments FsmUnmarshal {E} x.
Arguments FsmRead {E}.
Arguments FsmAborted {E} subject.
Arguments FsmShutdown {E}.

(** [RaftOperation_Type] *)
Definition RaftOperation_Publish : Z := 0.
Definition RaftOperation_Subscribe : Z := 1.
Definition RaftOperation_RemoveSubscription : Z := 2.
Definition RaftOperation_CloseSubscription : Z := 3.
Definition RaftOperation_SendAndAck : Z := 4.
Definition RaftOperation_Connect : Z := 6.
Definition RaftOperation_Disconnect : Z := 7.
Definition RaftOperation_DeleteChannel : Z := 8.

Section Node.
Context {S D R E N : Type} `{MsgStore S} `{!MsgLog S E} `{!MsgRestore S E} `{!Stores D S E} `{!RaftStore R E}.
Context `{!Restore.Wire N E} `{!RangeOrder Z} `{!RangeOrder string} `{!Sorter}.
Context `{StanFields}.
Context (unicode : list ascii -> list ascii) (e : @environment S D R E) (clusterID : string).
(** The errors of the store of clients; the identifier that the store gives to a subscription
    and whether the subscription to its ack inbox succeeds, when the environment is asked. *)
Context (AddClient_fails DeleteClient_fails : nat -> option E) (newID : nat -> Z) (ackSub : nat -> bool).

(** ** Channels *)

(** The channel of this name, if it has the proper identifier. *)
Definition lookupChannel (nm : string) (i : Z) : eff (@stan S D R E) (chan_error E) (option ptr) :=
  s ← get;
  match channels s !! nm with
  | Some p => c ← chan_at p; mret (if (i =? 0) || (id c =? 0) || (id c =? i) then Some p else None)
  | None => mret None
  end.

(** [None] when the channel is of a more recent version; one of an older version is replaced. *)
Definition lookupOrCreateChannel (nm : string) (i : Z) : eff (@stan S D R E) (chan_error E) (option ptr) :=
  s ← get;
  match channels s !! nm with
  | Some p =>
      c ← chan_at p;
      if (i =? 0) || (id c =? 0) || (id c =? i) then mret (Some p)
      else if i <? id c then mret None
      else
        r ← catch (_ ← on_store (DeleteChannel nm); on_raft (DeleteChannelID nm));
        match r with
        | inr x =>
            _ ← when (isLeader e && bool_decide (is_Some (activity c)))
                  (_ ← update_activity p (set_deleteInProgress false); startDeleteTimer e p);
            fail x
        | inl _ =>
            _ ← modify (fun s => set_names (delete nm (channels s)) (delete (ToLower unicode nm) (channelsLC s)) s);
            p ← createChannelLocked unicode e nm i;
            mret (Some p)
        end
  | None => p ← createChannelLocked unicode e nm i; mret (Some p)
  end.

(** ** The node *)

(** The server, and its connection to the leader. *)
Record node := mkNode { server : @Conn.cserver S D R E; connection : N }.

Definition set_server (v : @Conn.cserver S D R E) (n : node) : node := mkNode v (connection n).

Abbreviation M := (eff node (fsm_error E)).

(** Handlers of the channels and of the clients. *)
Definition on_channels {A : Type} (m : eff (@stan S D R E) (chan_error E) A) : M A := fun n =>
  let '(r, st) := m (Conn.stan_of (server n)) in
  (match r with Ok a => Ok a | Err x => Err (FsmChannel x) | Panic => Panic end, set_server (Conn.set_stan st (server n)) n).

Definition on_clients {A : Type} (m : eff (@Conn.cserver S D R E) (Conn.conn_error E) A) : M A := fun n =>
  let '(r, st) := m (server n) in
  (match r with Ok a => Ok a | Err x => Err (FsmClient x) | Panic => Panic end, set_server st n).

(** A handler that works on a channel and on the connection. *)
Definition on_channel {A : Type} (p : ptr) (m : eff (@Restore.rstate S N) (Restore.restore_error E) A) : M A := fun n =>
  let st := Conn.stan_of (server n) in
  match chans st !! p with
  | None => (Panic, n)
  | Some c =>
      let '(r, x) := m (Restore.mkR c (connection n)) in
      (match r with Ok a => Ok a | Err err => Err (FsmRestore err) | Panic => Panic end,
       mkNode (Conn.set_stan (set_chans (<[p := Restore.ch x]> (chans st)) st) (server n)) (Restore.wire x))
  end.

(** ** Messages *)

Definition unmarshal (data : list byte) : option MsgProto :=
  match Proto.c_get MsgProto_codec (Proto.c_zero MsgProto_codec) data with Ok m => Some (msg_fields m) | _ => None end.

Definition set_lSeqChecked (v : bool) (c : @channel S) : @channel S :=
  mkChannel (firstSeq c) (nextSequence c) (name c) (id c) (msgs c) (ss c) (lTimestamp c) (activity c) (nextSubID c) v.

(** No gap before the first message of the batch. *)
Definition check_sequence (p : ptr) (seq : Z) : M unit :=
  c ← on_channels (chan_at p);
  if lSeqChecked c then mret tt
  else
    _ ← when (1 <? seq) (on_channel p (Restore.restoreMsgsFromSnapshot unmarshal clusterID (Z.to_nat (seq - 1)) 1 (u64 (seq - 1)) true));
    on_channels (update_chan p (set_lSeqChecked true)).

Definition store_replicated (p : ptr) (m : MsgProto) : M unit :=
  t ← on_channels (clock e);
  on_channel p (_ ← Restore.on_store_msgs (StoreMsg (wall_now t) m); mret tt).

(** The [FATAL_ERROR] label. *)
Definition or_fatal {A : Type} (m : M A) : M A :=
  r ← catch m; match r with inl a => mret a | inr _ => panic end.

Definition apply_publish (i : Z) (messages : list MsgProto) : M unit :=
  match messages with
  | [] => mret tt
  | msg :: _ =>
      o ← or_fatal (on_channels (lookupOrCreateChannel (Subject msg) i));
      match o with
      | None => mret tt
      | Some p =>
          _ ← or_fatal (check_sequence p (Sequence msg));
          _ ← or_fatal (each (store_replicated p) messages);
          on_channel p (Restore.on_store_msgs FlushMsgs)
      end
  end.

(** ** Subscriptions *)

Definition set_nextSubID (v : Z) (c : @channel S) : @channel S :=
  mkChannel (firstSeq c) (nextSequence c) (name c) (id c) (msgs c) (ss c) (lTimestamp c) (activity c) v (lSeqChecked c).

(** [processSub] and [unsubscribeSub] on the subscriptions of the channel at [p]. *)
Definition on_subscriptions {A : Type} (p : ptr)
  (f : @channel S -> clientStore -> Reg.state -> outcome Empty_set (A * Z * clientStore * Reg.state)) : M A := fun n =>
  let s := server n in let st := Conn.stan_of s in
  match chans st !! p with
  | None => (Panic, n)
  | Some c =>
      match f c (Conn.clients_of s) (ss c, subscriptions st) with
      | Ok (a, next, cl, (ss', subs')) =>
          (Ok a, set_server (Conn.set_clients cl (Conn.set_stan
             (set_subscriptions subs' (set_chans (<[p := set_nextSubID next (set_ss ss' c)]> (chans st)) st)) s)) n)
      | _ => (Panic, n)
      end
  end.

Definition apply_subscribe (sr : Reg.SubscriptionRequest) (ackInbox : string) (subID i : Z) : M ptr :=
  o ← on_channels (lookupOrCreateChannel (Reg.sr_Subject sr) i);
  match o with
  | None => fail (FsmWrongID (Reg.sr_Subject sr) i)
  | Some p =>
      nid ← on_channels (ask newID);
      ok ← on_channels (ask ackSub);
      r ← on_subscriptions p (fun c cl x =>
            Reg.processSub (sub_env e) (isStandaloneOrLeader e) ok (msgs c) nid sr ackInbox subID (nextSubID c) cl x);
      match r with inl q => mret q | inr err => fail (FsmSub err) end
  end.

(** The channel and the subscription of a request, by ack inbox or by inbox. *)
Definition getChannelAndSubForSubCloseOrUnsub (req : UnsubscribeRequest) : M (option ptr * option ptr) :=
  o ← on_channels (get_channel (u_Subject req));
  match o with
  | None => mret (None, None)
  | Some p =>
      c ← on_channels (chan_at p);
      match Reg.LookupByAckInbox (ss c) (u_Inbox req) with
      | Some q => mret (Some p, Some q)
      | None => mret (Some p, Reg.LookupByInbox (ss c) (u_Inbox req))
      end
  end.

Definition apply_unsubscribe (req : UnsubscribeRequest) (isSubClose : bool) : M unit :=
  r ← getChannelAndSubForSubCloseOrUnsub req;
  match r with
  | (Some p, Some q) =>
      err ← on_subscriptions p (fun c cl x =>
        let '(err, cl, x) := Reg.unsubscribeSub (sub_env e) (isStandaloneOrLeader e) (u_ClientID req) q isSubClose cl x in
        Ok (err, nextSubID c, cl, x));
      match err with
      | Some err => fail (FsmSub err)
      | None =>
          f ← on_channels (ask (SubsFlush_fails e));
          match f with Some x => fail (FsmFlush x) | None => mret tt end
      end
  | _ => mret tt
  end.

(** [processReplicatedSendAndAck], with the lookup of its channel and subscription. *)
Definition apply_sent_ack (ssa : Spb.SubSentAndAck.t) (p : ptr) : M unit :=
  c ← on_channels (chan_at p);
  on_channels (modify (fun st => set_subscriptions
    (Repl.processReplicatedSendAndAck (Reg.LookupByAckInbox (ss c) (Spb.SubSentAndAck.AckInbox ssa))
       (Repl.mkSentAck (Spb.SubSentAndAck.Channel ssa) (Spb.SubSentAndAck.AckInbox ssa) (Spb.SubSentAndAck.Sent ssa) (Spb.SubSentAndAck.Ack ssa))
       (subscriptions st)) st)).

Definition processReplicatedSendAndAck (ssa : Spb.SubSentAndAck.t) : M unit :=
  r ← catch (on_channels (Chan.lookupOrCreateChannel unicode e (Spb.SubSentAndAck.Channel ssa)));
  match r with
  | inr _ => mret tt
  | inl p => apply_sent_ack ssa p
  end.

(** ** [Apply] *)

(** A field that is a pointer. *)
Definition deref {A : Type} (o : option A) : M A := match o with Some a => mret a | None => panic end.

(** The result of an entry: nothing, or the subscription that was created. *)
Definition apply_op (op : RaftOperation.t) : M (option ptr) :=
  let t := RaftOperation.OpType op in
  let none (m : M unit) : M (option ptr) := _ ← m; mret None in
  if t =? RaftOperation_Publish then
    none (b ← deref (RaftOperation.PublishBatch op); apply_publish (RaftOperation.ChannelID op) (msg_fields <$> Batch.Messages b))
  else if t =? RaftOperation_Connect then
    none (c ← deref (RaftOperation.ClientConnect op);
          req ← deref (AddClient.Request c);
          on_clients (Conn.processConnect e AddClient_fails DeleteClient_fails (connect_fields req) (AddClient.Refresh c)))
  else if t =? RaftOperation_Disconnect then
    none (c ← deref (RaftOperation.ClientDisconnect op); on_clients (Conn.closeClient e DeleteClient_fails (close_fields c)))
  else if t =? RaftOperation_Subscribe then
    sub ← deref (RaftOperation.Sub op);
    req ← deref (AddSubscription.Request sub);
    q ← apply_subscribe (sub_fields req) (AddSubscription.AckInbox sub) (AddSubscription.ID sub) (RaftOperation.ChannelID op);
    mret (Some q)
  else if (t =? RaftOperation_RemoveSubscription) || (t =? RaftOperation_CloseSubscription) then
    none (req ← deref (RaftOperation.Unsub op); apply_unsubscribe (unsub_fields req) (t =? RaftOperation_CloseSubscription))
  else if t =? RaftOperation_SendAndAck then
    none (when (negb (isLeader e)) (ssa ← deref (RaftOperation.SubSentAck op); processReplicatedSendAndAck ssa))
  else if t =? RaftOperation_DeleteChannel then
    none (o ← on_channels (lookupChannel (RaftOperation.Channel op) (RaftOperation.ChannelID op));
          match o with
          | None => mret tt
          | Some _ => on_channels (processDeleteChannel unicode e (RaftOperation.Channel op))
          end)
  else panic.

Definition Apply (data : list byte) : M (option ptr) :=
  match RaftOperation.Unmarshal RaftOperation.zero data with
  | Ok op => apply_op op
  | Err x => fail (FsmUnmarshal x)
  | Panic => panic
  end.
End Node.
End Fsm.
