(* ===== verification/FsmSpec.v ===== *)
(** * Nodes that apply the same log agree

    The channels with their identifiers and the clients that a node has are a function of
    the log that it applied ([spec_op]), whatever the clocks, timers, stores and roles of
    the nodes are: nodes that apply the same entries agree on them. *)

From Stdlib Require Import ZArith Lia Ascii String.
From stdpp Require Import base list gmap strings.
From S2P Require Import Prelude Bytes GoLib Effects Proto Spb MemStore MsgStore MsgRestore ClientStore SubState SubStore Replication ChannelStore ChannelStoreSpec Connect RestoreMsgs Fsm.

Local Open Scope Z_scope.

(** Stores whose operations on channels succeed, as long as they are asked to create channels
    that they do not have, and to delete those that they have. *)
Class StoresWork (D S E : Type) `{Stores D S E} := {
  has_channels : D -> gset string -> Prop;
  CreateChannel_works nm d X : has_channels d X -> nm ∉ X ->
    exists sc d', CreateChannel nm d = (Ok sc, d') /\ has_channels d' ({[nm]} ∪ X);
  DeleteChannel_works nm d X : has_channels d X -> nm ∈ X -> exists d', DeleteChannel nm d = (Ok tt, d') /\ has_channels d' (X ∖ {[nm]});
  GetChannelLimits_works nm d X : has_channels d X -> nm ∈ X -> exists z d', GetChannelLimits nm d = (Some z, d') /\ has_channels d' X
}.
Class RaftStoreWorks (R E : Type) `{RaftStore R E} := {
  SetChannelID_works nm i r : exists r', SetChannelID nm i r = (Ok tt, r');
  DeleteChannelID_works nm r : exists r', DeleteChannelID nm r = (Ok tt, r')
}.

Module FsmSpec.
Import Chan Fsm.

(** ** What the log determines *)

Section Abstract.
Context `{StanFields} (unicode : list ascii -> list ascii).

Abbreviation lower := (ToLower unicode).
Abbreviation registry := (gmap string Z).

(** Another channel has this name but for the case. *)
Definition taken (nm : string) (m : registry) : bool := bool_decide (lower nm ∈ (set_map lower (dom m) : gset string)).

Definition spec_lookup (nm : string) (i : Z) (m : registry) : registry :=
  match m !! nm with
  | Some j => if (j =? 0) || (i <=? j) then m else <[nm := i]> m
  | None => if taken nm m then m else <[nm := i]> m
  end.

Definition spec_delete (nm : string) (i : Z) (m : registry) : registry :=
  match m !! nm with
  | Some j => if (i =? 0) || (j =? 0) || (j =? i) then delete nm m else m
  | None => m
  end.

Definition client_info (req : Conn.ConnectRequest) : ClientInfo :=
  mkClientInfo (Conn.r_ClientID req) (Conn.r_HeartbeatInbox req) (Conn.r_ConnID req) (Conn.r_Protocol req) (Conn.r_PingInterval req) (Conn.r_PingMaxOut req).

Definition spec_connect (req : Conn.ConnectRequest) (refresh : bool) (m : gmap string ClientInfo) : gmap string ClientInfo :=
  let m := if refresh then delete (Conn.r_ClientID req) m else m in
  match m !! Conn.r_ClientID req with Some _ => m | None => <[Conn.r_ClientID req := client_info req]> m end.

(** An entry of the log that was unmarshalled. *)
Definition spec_op (op : RaftOperation.t) (x : registry * gmap string ClientInfo) : registry * gmap string ClientInfo :=
  let t := RaftOperation.OpType op in
  if t =? RaftOperation_Publish then
    match RaftOperation.PublishBatch op with
    | Some (Batch.mk (m :: _)) => (spec_lookup (Subject (msg_fields m)) (RaftOperation.ChannelID op) x.1, x.2)
    | _ => x
    end
  else if t =? RaftOperation_Connect then
    match RaftOperation.ClientConnect op with
    | Some (AddClient.mk (Some req) refresh) => (x.1, spec_connect (connect_fields req) refresh x.2)
    | _ => x
    end
  else if t =? RaftOperation_Disconnect then
    match RaftOperation.ClientDisconnect op with Some c => (x.1, delete (close_fields c) x.2) | None => x end
  else if t =? RaftOperation_Subscribe then
    match RaftOperation.Sub op with
    | Some (AddSubscription.mk (Some req) _ _) => (spec_lookup (Reg.sr_Subject (sub_fields req)) (RaftOperation.ChannelID op) x.1, x.2)
    | _ => x
    end
  else if t =? RaftOperation_DeleteChannel then (spec_delete (RaftOperation.Channel op) (RaftOperation.ChannelID op) x.1, x.2)
  else x.

(** Entries that may create a channel carry its identifier, as those of a leader of this
    version do, and what was sent and acknowledged is of a channel that there is. *)
Definition op_ok (op : RaftOperation.t) (x : registry * gmap string ClientInfo) : Prop :=
  let t := RaftOperation.OpType op in
  (t = RaftOperation_Publish \/ t = RaftOperation_Subscribe -> 0 < RaftOperation.ChannelID op) /\
  (t = RaftOperation_SendAndAck -> forall ssa, RaftOperation.SubSentAck op = Some ssa -> is_Some (x.1 !! Spb.SubSentAndAck.Channel ssa)).
End Abstract.

(** ** The channels of a node *)

Section Channels.
Context {S D R E : Type} `{MsgStore S} `{!MsgLog S E} `{!Stores D S E} `{!StoresWork D S E} `{!RaftStore R E} `{!RaftStoreWorks R E}.
Context (unicode : list ascii -> list ascii) (e : @environment S D R E).
Context (clustered : Sub.isClustered (sub_env e) = true) (reads : forall n, LastSequence_fails e n = None).

Abbreviation stan := (@stan S D R E).
Abbreviation channel := (@channel S).
Abbreviation lower := (ToLower unicode).

Definition prevented (c : channel) : bool := match activity c with Some a => preventDelete a | None => false end.

Record reg_ok (s : stan) : Prop := {
  ro_channel nm p : channels s !! nm = Some p ->
    exists c, chans s !! p = Some c /\ name c = nm /\ channelsLC s !! lower nm = Some p /\ prevented c = false;
  ro_lower l p : channelsLC s !! l = Some p -> exists nm, channels s !! nm = Some p /\ l = lower nm;
  ro_store : has_channels (store s) (dom (channels s))
}.

(** The channels and their identifiers. *)
Definition ids (s : stan) : gmap string Z := omap (fun p => id <$> chans s !! p) (channels s).

Lemma ids_lookup s nm p c : channels s !! nm = Some p -> chans s !! p = Some c -> ids s !! nm = Some (id c).
Proof. intros Hp Hc. unfold ids. rewrite lookup_omap, Hp. cbn. by rewrite Hc. Qed.
Lemma ids_none s nm : channels s !! nm = None -> ids s !! nm = None.
Proof. intros Hp. unfold ids. by rewrite lookup_omap, Hp. Qed.
Lemma ids_is_Some s nm : reg_ok s -> is_Some (ids s !! nm) <-> is_Some (channels s !! nm).
Proof.
  intros G. destruct (channels s !! nm) as [p|] eqn:Hp; [|by rewrite ids_none].
  destruct (ro_channel _ G _ _ Hp) as (c & Hc & _). rewrite (ids_lookup _ _ _ _ Hp Hc). by split.
Qed.

Lemma taken_lower s nm : reg_ok s -> taken unicode nm (ids s) = bool_decide (is_Some (channelsLC s !! lower nm)).
Proof.
  intros G. unfold taken. apply bool_decide_ext. rewrite elem_of_map. setoid_rewrite elem_of_dom. setoid_rewrite ids_is_Some; [|done..]. split.
  - intros (nm' & El & [p Hp]). destruct (ro_channel _ G _ _ Hp) as (c & _ & _ & Hl & _). rewrite El. by eexists.
  - intros [p Hl]. destruct (ro_lower _ G _ _ Hl) as (nm' & Hp & El). exists nm'. split; [done|by eexists].
Qed.

(** What leaves the channels as they are, but for their content. *)
Record kept (s s' : stan) : Prop := {
  kept_names : channels s' = channels s;
  kept_lower : channelsLC s' = channelsLC s;
  kept_store : store s' = store s;
  kept_objects p c : chans s !! p = Some c ->
    exists c', chans s' !! p = Some c' /\ name c' = name c /\ id c' = id c /\ prevented c' = prevented c
}.

#[export] Instance kept_preorder : PreOrder kept.
Proof.
  split; [intros s; by split; eauto|]. intros s1 s2 s3 [N1 L1 S1 O1] [N2 L2 S2 O2]. split; [congruence..|].
  intros p c Hc. destruct (O1 p c Hc) as (c1 & Hc1 & ? & ? & ?). destruct (O2 p c1 Hc1) as (c2 & Hc2 & ? & ? & ?).
  exists c2. split_and!; [done|congruence..].
Qed.

Lemma kept_frame s s' : chans s' = chans s -> channels s' = channels s -> channelsLC s' = channelsLC s -> store s' = store s -> kept s s'.
Proof. intros E1 E2 E3 E4. split; [done..|]. rewrite E1. eauto. Qed.

Lemma kept_put s p c c' :
  chans s !! p = Some c -> name c' = name c -> id c' = id c -> prevented c' = prevented c -> kept s (set_chans (<[p := c']> (chans s)) s).
Proof.
  intros Hc E1 E2 E3. split; [done..|]. intros q d Hd. cbn. destruct (decide (q = p)) as [->|Hne].
  - exists c'. rewrite lookup_insert_eq. simplify_eq. by split_and!.
  - exists d. by rewrite lookup_insert_ne.
Qed.

Lemma kept_ids s s' : reg_ok s -> kept s s' -> reg_ok s' /\ ids s' = ids s.
Proof.
  intros G [En El Es Eo]. split.
  - split; rewrite ?En, ?El, ?Es; [|apply (ro_lower _ G)|apply (ro_store _ G)]. intros nm p Hp. destruct (ro_channel _ G _ _ Hp) as (c & Hc & Hn & Hl & Hpr).
    destruct (Eo p c Hc) as (c' & Hc' & ? & ? & ?). exists c'. split_and!; [done|congruence..].
  - apply map_eq. intros nm. destruct (channels s !! nm) as [p|] eqn:Hp; [|by rewrite !ids_none by congruence].
    destruct (ro_channel _ G _ _ Hp) as (c & Hc & _). destruct (Eo p c Hc) as (c' & Hc' & _ & Hi & _).
    by rewrite (ids_lookup s nm p c), (ids_lookup s' nm p c'), Hi by congruence.
Qed.

(** Handlers that only look, and that only change the content of a channel. *)
Abbreviation M := (eff stan (chan_error E)).

Lemma keeps_chan_at s0 p : keeps (kept s0) (chan_at p : M channel).
Proof. intros s Hs. unfold chan_at. by destruct (chans s !! p). Qed.
Lemma keeps_ask {A : Type} s0 (f : nat -> A) : keeps (kept s0) (ask f : M A).
Proof. intros s Hs. cbn. etrans; [exact Hs|by apply kept_frame]. Qed.
Lemma keeps_get s0 : keeps (kept s0) (get : M stan).
Proof. by intros s. Qed.
Lemma keeps_update s0 p f :
  (forall c : channel, name (f c) = name c /\ id (f c) = id c /\ prevented (f c) = prevented c) -> keeps (kept s0) (update_chan p f : M unit).
Proof.
  intros Hf s Hs. unfold update_chan, mbind, eff_bind, chan_at, modify. destruct (chans s !! p) as [c|] eqn:Hc; [|done]. cbn.
  etrans; [exact Hs|]. by eapply kept_put; [|apply Hf..].
Qed.
Lemma keeps_activity s0 p : keeps (kept s0) (activity_at p : M channelActivity).
Proof. apply keeps_bind; [apply keeps_chan_at|]. intros c. destruct (activity c); by intros s. Qed.
Lemma keeps_update_activity s0 p f : (forall a, preventDelete (f a) = preventDelete a) -> keeps (kept s0) (update_activity p f : M unit).
Proof. intros Hf. apply keeps_update. intros c. split_and!; [done..|]. unfold prevented. cbn. by destruct (activity c); cbn. Qed.
Lemma keeps_start s0 p : keeps (kept s0) (startDeleteTimer e p).
Proof.
  unfold startDeleteTimer. apply keeps_bind; [apply keeps_activity|intros _]. apply keeps_bind; [apply keeps_ask|intros t].
  apply keeps_bind; [by apply keeps_update_activity|intros _]. apply keeps_bind; [apply keeps_activity|intros a].
  unfold resetDeleteTimer. apply keeps_bind; [apply keeps_activity|intros _]. apply keeps_bind; [apply keeps_ask|intros t']. by apply keeps_update_activity.
Qed.
Lemma keeps_maybeStart s0 nm o : keeps (kept s0) (maybeStartChannelDeleteTimer e nm o).
Proof.
  apply keeps_bind; [apply keeps_get|]. intros s. destruct (match o with Some p => Some p | None => _ end) as [p|]; [|apply keeps_ret].
  apply keeps_bind; [apply keeps_chan_at|]. intros c. apply keeps_when. intros _. apply keeps_start.
Qed.

(** *** Creating a channel *)

(** A new channel [c] under the name [nm]. *)
Record created (nm : string) (i : Z) (p : ptr) (c : channel) (s s' : stan) : Prop := {
  cr_names : channels s' = <[nm := p]> (channels s);
  cr_lower : channelsLC s' = <[lower nm := p]> (channelsLC s);
  cr_chans : chans s' = <[p := c]> (chans s);
  cr_fresh : chans s !! p = None;
  cr_name : name c = nm;
  cr_id : id c = i;
  cr_prevented : prevented c = false;
  cr_unchecked : lSeqChecked c = false /\ firstSeq c = 0;
  cr_msgs : exists d d', CreateChannel nm d = (Ok (msgs c), d');
  cr_store : has_channels (store s') ({[nm]} ∪ dom (channels s));
  cr_subs : ss c = Reg.createSubStore /\ subscriptions s' = subscriptions s
}.

Lemma created_asked nm i p c c' n s s' :
  created nm i p c s s' -> (name c', id c', prevented c', lSeqChecked c', firstSeq c', msgs c', ss c') = (name c, id c, prevented c, lSeqChecked c, firstSeq c, msgs c, ss c) ->
  created nm i p c' s (ChanSpec.put p c' (set_asked n s')).
Proof.
  intros [] [= E1 E2 E3 E4 E5 E6 E7]. split; cbn; rewrite ?E1, ?E2, ?E3, ?E4, ?E5, ?E6, ?E7; try done. by rewrite cr_chans0, insert_insert_eq.
Qed.

Lemma create_run nm s sc :
  (exists d d', CreateChannel nm d = (Ok sc, d')) -> has_channels (store s) ({[nm]} ∪ dom (channels s)) ->
  exists p c s', create unicode e nm sc s = (Ok p, s') /\ created nm 0 p c s s'.
Proof.
  intros Hsc Hhas. unfold create. rewrite (eff_bind_Ok _ _ s None (set_asked (asked s + 1) s)) by (unfold ask; by rewrite reads).
  set (s0 := set_asked _ s). rewrite eff_get. set (p := fresh (dom (chans s0))). set (c := mkChannel _ _ _ _ _ _ _ _ _ _). rewrite !eff_modify.
  set (s1 := set_names _ _ _). destruct (GetChannelLimits_works nm (store s1) _ Hhas ltac:(set_solver)) as (z & d & Hz & Hd).
  rewrite (eff_bind_Ok _ _ s1 (Some z) (set_store d s1)) by (unfold on_store; by rewrite Hz).
  assert (chans s !! p = None) as Hf by apply not_elem_of_dom, is_fresh.
  assert (chans (set_store d s1) !! p = Some c) as Hc by apply lookup_insert_eq. unfold when. destruct (0 <? z).
  - rewrite (eff_bind_Ok _ _ _ _ _ (ChanSpec.run_update p _ c _ Hc)). eexists p, _, _. split; [reflexivity|].
    split; cbn; rewrite ?insert_insert_eq; done.
  - exists p, c, (set_store d s1). split; [reflexivity|]. by split.
Qed.

Lemma created_id nm i p c s s' : created nm 0 p c s s' -> created nm i p (set_id i c) s (ChanSpec.put p (set_id i c) s').
Proof. intros []. split; cbn; try done. by rewrite cr_chans0, insert_insert_eq. Qed.

Lemma createChannelLocked_run nm i s :
  reg_ok s -> channels s !! nm = None -> i <> 0 ->
  if taken unicode nm (ids s) then exists other, createChannelLocked unicode e nm i s = (Err (ErrDifferentCase nm other), s)
  else exists p c s', createChannelLocked unicode e nm i s = (Ok p, s') /\ created nm i p c s s'.
Proof.
  intros G Hnm Hi. rewrite taken_lower by done. unfold createChannelLocked. rewrite eff_get, Hnm. unfold checkCase.
  destruct (channelsLC s !! lower nm) as [q|] eqn:Hl.
  { rewrite bool_decide_true by by eexists. destruct (ro_lower _ G _ _ Hl) as (other & Hq & _). destruct (ro_channel _ G _ _ Hq) as (c & Hc & _).
    exists (name c). apply eff_bind_Err. rewrite eff_get, Hl. by rewrite (eff_bind_Ok _ _ _ _ _ (ChanSpec.run_at _ _ _ Hc)). }
  rewrite bool_decide_false by by intros []. rewrite (eff_bind_Ok _ _ s tt s) by (by rewrite eff_get, Hl).
  destruct (SetChannelID_works nm i (raft s)) as [r Hr]. rewrite (eff_bind_Ok _ _ s i (set_raft r s)).
  2:{ unfold assign_id. rewrite clustered, (proj2 (Z.eqb_neq i 0) Hi), andb_false_r. rewrite (eff_bind_Ok (mret i) _ s i s eq_refl).
      by rewrite (eff_bind_Ok _ _ s tt (set_raft r s)) by (unfold on_raft; by rewrite Hr). }
  destruct (CreateChannel_works nm (store (set_raft r s)) _ (ro_store _ G)) as (sc & d & Hc & Hhas); [by apply not_elem_of_dom|]. set (s1 := set_store d (set_raft r s)).
  rewrite (eff_bind_Ok _ _ _ sc s1) by (unfold on_store; by rewrite Hc).
  destruct (create_run nm s1 sc ltac:(by eexists _, _) Hhas) as (p & c & s2 & E2 & C2). rewrite (eff_catch _ _ _ _ _ E2). cbv beta iota.
  assert (chans s2 !! p = Some c) as Hp by (rewrite (cr_chans _ _ _ _ _ _ C2); apply lookup_insert_eq).
  apply (created_id nm i) in C2. assert (created nm i p (set_id i c) s (ChanSpec.put p (set_id i c) s2)) as C3 by (destruct C2; by split).
  rewrite (eff_bind_Ok _ _ _ _ _ (ChanSpec.run_update _ _ _ _ Hp)), (eff_bind_Ok _ _ _ _ _ (ChanSpec.run_at p (set_id i c) _ (ChanSpec.put_at _ _ _))). unfold when.
  destruct (_ && _) eqn:Hb; [|by eexists _, _, _].
  apply andb_prop in Hb as [_ [act Ha]%bool_decide_eq_true_1].
  rewrite (eff_bind_Ok _ _ _ _ _ (ChanSpec.run_start e p (set_id i c) act _ (ChanSpec.put_at _ _ _) Ha)). eexists _, _, _. split; [done|].
  apply (created_asked _ _ _ (set_id i c)); [done|]. unfold prevented. cbn in Ha |- *. by rewrite Ha.
Qed.

Lemma created_reg nm i p c s s' :
  reg_ok s -> channels s !! nm = None -> channelsLC s !! lower nm = None -> created nm i p c s s' ->
  reg_ok s' /\ ids s' = <[nm := i]> (ids s).
Proof.
  intros G Hn Hl [En El Eo Hf Hnm Hi Hpr _ _ Hst _].
  assert (forall nm' p', channels s !! nm' = Some p' -> p' <> p) as Hne.
  { intros nm' p' Hp' ->. destruct (ro_channel _ G _ _ Hp') as (c' & Hc' & _). congruence. }
  split.
  - split; rewrite ?En, ?El, ?Eo; [| |by rewrite dom_insert_L].
    + intros nm' p' [[<- <-]|[Hne' Hp']]%lookup_insert_Some.
      * exists c. rewrite !lookup_insert_eq. by split_and!.
      * destruct (ro_channel _ G _ _ Hp') as (c' & Hc' & Hn' & Hl' & Hpr'). exists c'.
        rewrite lookup_insert_ne by (intros <-; by eapply Hne). rewrite lookup_insert_ne by congruence. by split_and!.
    + intros l p' [[<- <-]|[Hne' Hp']]%lookup_insert_Some; [exists nm; by rewrite lookup_insert_eq|].
      destruct (ro_lower _ G _ _ Hp') as (nm' & Hp'' & ->). exists nm'. split; [|done]. rewrite lookup_insert_ne; [done|]. intros <-. congruence.
  - apply map_eq. intros nm'. unfold ids. rewrite En, Eo, lookup_omap. destruct (decide (nm' = nm)) as [->|Hne'].
    + rewrite !lookup_insert_eq. cbn. rewrite lookup_insert_eq. cbn. by rewrite Hi.
    + rewrite !lookup_insert_ne by done. rewrite lookup_omap. destruct (channels s !! nm') as [p'|] eqn:Hp'; [|done]. cbn.
      rewrite lookup_insert_ne; [done|]. intros <-. by eapply Hne.
Qed.

(** *** Removing a channel *)

Definition unlinked (nm : string) (s : stan) : stan := set_names (delete nm (channels s)) (delete (lower nm) (channelsLC s)) s.

(** Names and objects are the same. *)
Definition framed (s s' : stan) : Prop :=
  chans s' = chans s /\ channels s' = channels s /\ channelsLC s' = channelsLC s /\ subscriptions s' = subscriptions s.

Lemma unlinked_reg nm s s0 :
  reg_ok s -> is_Some (channels s !! nm) -> framed s s0 -> has_channels (store s0) (dom (channels s) ∖ {[nm]}) ->
  reg_ok (unlinked nm s0) /\ ids (unlinked nm s0) = delete nm (ids s) /\ channelsLC (unlinked nm s0) !! lower nm = None.
Proof.
  intros G [p Hp] (Eo & En & El & _) Hst. destruct (ro_channel _ G _ _ Hp) as (c & Hc & Hn & Hl & _). split_and!.
  - split; cbn; rewrite ?Eo, ?En, ?El.
    + intros nm' p' [Hne Hp']%lookup_delete_Some. destruct (ro_channel _ G _ _ Hp') as (c' & Hc' & Hn' & Hl' & Hpr'). exists c'. split_and!; try done.
      rewrite lookup_delete_ne; [done|]. intros El'. rewrite <- El', Hl in Hl'. congruence.
    + intros l p' [Hne Hp']%lookup_delete_Some. destruct (ro_lower _ G _ _ Hp') as (nm' & Hp'' & ->). exists nm'. split; [|done].
      rewrite lookup_delete_ne; [done|]. by intros ->.
    + by rewrite dom_delete_L.
  - apply map_eq. intros nm'. unfold ids. cbn. rewrite Eo, En, lookup_omap. destruct (decide (nm' = nm)) as [->|Hne]; [by rewrite !lookup_delete_eq|].
    rewrite !lookup_delete_ne by done. by rewrite lookup_omap.
  - apply lookup_delete_eq.
Qed.

Lemma delete_stores nm (s : stan) :
  reg_ok s -> is_Some (channels s !! nm) ->
  exists s', (_ ← on_store (DeleteChannel nm); on_raft (DeleteChannelID nm) : M unit) s = (Ok tt, s') /\ framed s s' /\ has_channels (store s') (dom (channels s) ∖ {[nm]}).
Proof.
  intros G Hs. destruct (DeleteChannel_works nm (store s) _ (ro_store _ G)) as (d & Hd & Hh); [by apply elem_of_dom|].
  destruct (DeleteChannelID_works nm (raft (set_store d s))) as [r Hr].
  exists (set_raft r (set_store d s)). split; [|done]. rewrite (eff_bind_Ok _ _ s tt (set_store d s)) by (unfold on_store; by rewrite Hd).
  unfold on_raft. by rewrite Hr.
Qed.

(** *** The channel of an entry *)

(** The outcome for an entry with the identifier [i]: the channel was there, the entry is
    of an older version, the channel is new, or its name is taken. *)
Inductive found (nm : string) (i : Z) (s : stan) : outcome (chan_error E) (option ptr) -> stan -> Prop :=
| found_there p c : channels s !! nm = Some p -> chans s !! p = Some c -> id c = 0 \/ id c = i -> found nm i s (Ok (Some p)) s
| found_old p c : channels s !! nm = Some p -> chans s !! p = Some c -> i < id c -> found nm i s (Ok None) s
| found_new s1 p c s' : (channels s !! nm = None /\ s1 = s \/ exists q d, channels s !! nm = Some q /\ chans s !! q = Some d /\ id d <> 0 /\ id d < i /\
      reg_ok s1 /\ ids s1 = delete nm (ids s) /\ channels s1 !! nm = None /\ chans s1 = chans s /\ channels s1 = delete nm (channels s) /\ subscriptions s1 = subscriptions s) ->
    channelsLC s1 !! lower nm = None -> created nm i p c s1 s' -> found nm i s (Ok (Some p)) s'
| found_taken other : channels s !! nm = None -> taken unicode nm (ids s) = true -> found nm i s (Err (ErrDifferentCase nm other)) s.

Lemma lookupOrCreateChannel_found nm i s :
  reg_ok s -> 0 < i -> let x := Fsm.lookupOrCreateChannel unicode e nm i s in found nm i s x.1 x.2.
Proof.
  intros G Hi. unfold Fsm.lookupOrCreateChannel. rewrite eff_get. destruct (channels s !! nm) as [q|] eqn:Hq.
  - destruct (ro_channel _ G _ _ Hq) as (d & Hd & _). rewrite (eff_bind_Ok _ _ _ _ _ (ChanSpec.run_at _ _ _ Hd)).
    destruct (Z.eqb_spec i 0) as [|_]; [lia|]. cbn [orb]. destruct (Z.eqb_spec (id d) 0) as [H0|H0]; [eapply found_there; eauto|]. cbn [orb].
    destruct (Z.eqb_spec (id d) i) as [H1|H1]; [eapply found_there; eauto|]. destruct (Z.ltb_spec i (id d)) as [H3|H3]; [eapply found_old; eauto|].
    destruct (delete_stores nm s G ltac:(by rewrite Hq)) as (s0 & E0 & F0 & Hh). rewrite (eff_catch _ _ _ _ _ E0). cbv beta iota. rewrite eff_modify.
    change (set_names (delete nm (channels s0)) (delete (lower nm) (channelsLC s0)) s0) with (unlinked nm s0).
    destruct (unlinked_reg nm s s0 G ltac:(by rewrite Hq) F0 Hh) as (G1 & I1 & L1).
    pose proof (createChannelLocked_run nm i (unlinked nm s0) G1 (lookup_delete_eq _ _) ltac:(lia)) as Hc. rewrite taken_lower, L1 in Hc by done.
    destruct Hc as (p & c & s' & Ec & C). rewrite (eff_bind_Ok _ _ _ _ _ Ec). cbn. eapply found_new; [right; exists q, d|done|done].
    destruct F0 as (F1 & F2 & _ & F4). split_and!; [done..|lia|done|done|apply lookup_delete_eq|done|cbn; by rewrite F2|done].
  - pose proof (createChannelLocked_run nm i s G Hq ltac:(lia)) as Hc. destruct (taken unicode nm (ids s)) eqn:Ht.
    + destruct Hc as (other & Ec). rewrite (eff_bind_Err _ _ _ _ _ Ec). by apply found_taken.
    + destruct Hc as (p & c & s' & Ec & C). rewrite (eff_bind_Ok _ _ _ _ _ Ec). cbn. eapply found_new; [by left| |done].
      rewrite taken_lower in Ht by done. apply bool_decide_eq_false in Ht. by apply eq_None_not_Some.
Qed.

Lemma found_reg nm i s r s' : reg_ok s -> 0 < i -> found nm i s r s' -> reg_ok s' /\ ids s' = spec_lookup unicode nm i (ids s).
Proof.
  intros G Hi. unfold spec_lookup. destruct 1 as [p c Hp Hc Hid|p c Hp Hc Hid|s1 p c s' H1 Hl C|other Hn Ht].
  - rewrite (ids_lookup _ _ _ _ Hp Hc). split; [done|]. destruct Hid as [-> | ->]; [done|]. by rewrite Z.leb_refl, orb_true_r.
  - rewrite (ids_lookup _ _ _ _ Hp Hc). split; [done|]. by rewrite (proj2 (Z.leb_le _ _)), orb_true_r by lia.
  - destruct H1 as [[Hn ->]|(q & d & Hq & Hd & H0 & Hlt & G1 & I1 & Hn1 & _)].
    + rewrite ids_none, taken_lower, Hl, bool_decide_false by (done || by intros []). by eapply created_reg.
    + rewrite (ids_lookup _ _ _ _ Hq Hd), (proj2 (Z.eqb_neq _ _) H0), (proj2 (Z.leb_gt _ _)) by lia. cbn [orb].
      destruct (created_reg nm i p c _ s' G1 Hn1 Hl C) as [G2 I2]. split; [done|]. by rewrite I2, I1, insert_delete_eq.
  - rewrite ids_none, Ht by done. done.
Qed.

Lemma processDelete_run nm s :
  reg_ok s -> is_Some (channels s !! nm) -> exists s0, processDeleteChannel unicode e nm s = (Ok tt, unlinked nm s0) /\ framed s s0 /\
    reg_ok (unlinked nm s0) /\ ids (unlinked nm s0) = delete nm (ids s).
Proof.
  intros G [q Hq]. destruct (ro_channel _ G _ _ Hq) as (c & Hc & Hn & Hl & Hpr). unfold processDeleteChannel. rewrite eff_get, Hq, (eff_bind_Ok _ _ _ _ _ (ChanSpec.run_at _ _ _ Hc)).
  unfold prevented in Hpr. rewrite Hpr, clustered. unfold when.
  destruct (delete_stores nm s G ltac:(by rewrite Hq)) as (s0 & E0 & F0 & Hh). rewrite (eff_catch _ _ _ _ _ E0). cbv beta iota. exists s0.
  destruct (unlinked_reg nm s s0 G ltac:(by rewrite Hq) F0 Hh) as (G1 & I1 & _). by split_and!.
Qed.

Lemma delete_reg nm i s :
  reg_ok s ->
  let x := (o ← lookupChannel nm i; match o with None => mret tt | Some _ => processDeleteChannel unicode e nm end : M unit) s in
  x.1 = Ok tt /\ reg_ok x.2 /\ ids x.2 = spec_delete nm i (ids s).
Proof.
  intros G. unfold lookupChannel, spec_delete. rewrite eff_assoc, eff_get. destruct (channels s !! nm) as [q|] eqn:Hq; [|by rewrite ids_none].
  destruct (ro_channel _ G _ _ Hq) as (c & Hc & Hn & Hl & Hpr). rewrite eff_assoc, (eff_bind_Ok _ _ _ _ _ (ChanSpec.run_at _ _ _ Hc)), (ids_lookup _ _ _ _ Hq Hc).
  destruct (_ || _); [|done]. rewrite (eff_bind_Ok (mret (Some q)) _ s (Some q) s eq_refl).
  destruct (processDelete_run nm s G ltac:(by rewrite Hq)) as (s0 & -> & _ & G1 & I1). by split_and!.
Qed.
End Channels.
End FsmSpec.
