(* ===== verification/FsmAgree.v ===== *)
(** * Nodes that apply the same log agree: the proof

    The handlers that entries of the log call, over the whole node: they change the
    channels and the clients as [FsmSpec.spec_op] says. *)

From Stdlib Require Import ZArith Lia Ascii String.
From stdpp Require Import base list gmap strings.
From S2P Require Import Prelude Bytes GoLib Effects Proto Spb MemStore MsgStore MsgRestore ClientStore SubState SubStore Replication ChannelStore ChannelStoreSpec Connect ConnectSpec RestoreMsgs Fsm FsmSpec.

Local Open Scope Z_scope.

Module FsmAgree.
Import Chan Fsm FsmSpec.

(** ** Clients *)

Definition infos (cl : clientStore) : gmap string ClientInfo := omap (fun p => info <$> heap cl !! p) (clients cl).

Lemma infos_set_client cl p c c' : heap cl !! p = Some c -> info c' = info c -> infos (set_client cl p c') = infos cl.
Proof.
  intros Hc Hi. apply map_eq. intros k. unfold infos. cbn. rewrite !lookup_omap. destruct (clients cl !! k) as [q|]; [|done]. cbn.
  destruct (decide (q = p)) as [->|Hne]; [by rewrite lookup_insert_eq, Hc; cbn; rewrite Hi|by rewrite lookup_insert_ne].
Qed.

Lemma infos_lookup cl k : wf cl -> infos cl !! k = None <-> clients cl !! k = None.
Proof.
  intros Hw. unfold infos. rewrite lookup_omap. destruct (clients cl !! k) as [p|] eqn:Hp; [|done]. cbn.
  destruct (wf_clients _ Hw _ _ Hp) as (c & -> & _). done.
Qed.

Lemma infos_register {E : Type} cl i : wf cl ->
  infos (register (E := E) cl i None).2 = match infos cl !! ClientStore.ID i with Some _ => infos cl | None => <[ClientStore.ID i := i]> (infos cl) end.
Proof.
  intros Hw. unfold register. destruct (clients cl !! ClientStore.ID i) as [p|] eqn:Hp.
  - destruct (infos cl !! ClientStore.ID i) eqn:Hi; [done|]. apply infos_lookup in Hi; [congruence|done].
  - rewrite (proj2 (infos_lookup cl _ Hw) Hp). cbn [snd]. apply map_eq. intros k. unfold infos. cbn. rewrite lookup_omap.
    destruct (decide (k = ClientStore.ID i)) as [->|Hne].
    + rewrite !lookup_insert_eq. cbn. by rewrite lookup_insert_eq.
    + rewrite !lookup_insert_ne by done. rewrite lookup_omap. destruct (clients cl !! k) as [q|] eqn:Hq; [|done]. cbn.
      rewrite lookup_insert_ne; [done|]. intros <-. destruct (wf_clients _ Hw _ _ Hq) as (c & Hc & _). by rewrite alloc_fresh in Hc.
Qed.

Lemma infos_unregister {E : Type} cl k (err : option E) : wf cl -> infos (unregister cl k err).2 = delete k (infos cl).
Proof.
  intros Hw. unfold unregister. destruct (clients cl !! k) as [p|] eqn:Hp.
  - destruct (wf_clients _ Hw _ _ Hp) as (c & Hc & Hid). rewrite Hc. cbn [snd]. apply map_eq. intros k'. unfold infos. cbn. rewrite lookup_omap.
    destruct (decide (k' = k)) as [->|Hne]; [by rewrite !lookup_delete_eq|]. rewrite !lookup_delete_ne by done. rewrite lookup_omap.
    destruct (clients cl !! k') as [q|] eqn:Hq; [|done]. cbn. rewrite lookup_insert_ne; [done|]. intros <-. destruct (wf_clients _ Hw _ _ Hq) as (c' & Hc' & Hid'). congruence.
  - cbn. rewrite delete_id; [done|]. by apply infos_lookup.
Qed.

(** Clients as they are, but for their subscriptions. *)
Definition same_infos (cl cl' : clientStore) : Prop := wf cl -> wf cl' /\ infos cl' = infos cl.

#[export] Instance same_infos_preorder : PreOrder same_infos.
Proof. split; [by intros cl|]. intros c1 c2 c3 H1 H2 Hw. destruct (H1 Hw) as [Hw2 E2]. destruct (H2 Hw2) as [Hw3 E3]. split; congruence. Qed.

Lemma addSub_infos cl k p : same_infos cl (addSub cl k p).2.
Proof.
  intros Hw. unfold addSub. destruct (clients cl !! k) as [q|] eqn:Hq; [|done]. cbn. destruct (heap cl !! q) as [c|] eqn:Hc; [|done]. cbn.
  split; [by eapply set_client_wf|by eapply infos_set_client].
Qed.
Lemma removeSub_infos cl k p : same_infos cl (removeSub cl k p).2.
Proof.
  intros Hw. unfold removeSub. destruct (clients cl !! k) as [q|] eqn:Hq; [|done]. cbn. destruct (heap cl !! q) as [c|] eqn:Hc; [|done]. cbn.
  case_match; [|done]. split; [by eapply set_client_wf|by eapply infos_set_client].
Qed.

Section Sub.
Context `{!RangeOrder Z} `{!Sorter} {S : Type} `{MsgStore S}.

Lemma create_sub_infos e (c : S) nid sr ai d sp sid cl x : same_infos cl (Reg.create_sub e c nid sr ai d sp sid cl x).1.2.
Proof.
  unfold Reg.create_sub. destruct x as [ss st]. destruct (if sp then _ else _) as [l| |]; [|done..]. unfold Reg.addSubscription. cbn [snd].
  destruct (Sub.subs _ !! _) as [sub|]; [|done]. pose proof (addSub_infos cl (Sub.ClientID sub) (fresh (dom (Sub.subs st)))) as Ha.
  destruct (addSub cl _ _) as [ok cl1]. cbn [snd] in Ha. destruct (negb ok); [done|]. destruct (Reg.Store _ _ _ _) as [ok' x']. destruct (negb ok'); [|done].
  cbn. etrans; [exact Ha|]. apply removeSub_infos.
Qed.

Lemma updateDurable_infos e p k cl x : same_infos cl (Reg.updateDurable e p k cl x).1.2.
Proof.
  unfold Reg.updateDurable. pose proof (addSub_infos cl k p) as Ha. destruct (addSub cl k p) as [ok cl1]. cbn [snd] in Ha.
  destruct (negb ok); [done|]. destruct x as [ss st]. destruct (Sub.subs st !! p); [|done]. destruct (Reg.try_persist _ _ _) as [ok' st']. by destruct (negb ok').
Qed.

Lemma processSub_infos e ld ak (c : S) nid sr ai sid nx cl x a nx' cl' x' :
  Reg.processSub e ld ak c nid sr ai sid nx cl x = Ok (a, nx', cl', x') -> same_infos cl cl'.
Proof.
  unfold Reg.processSub. destruct (Reg.remembered sr x) as [[[[[o sr'] d] sp] y]|err|]; [|by intros [= <- <- <- <-]|done].
  set (z := match o with Some p => _ | None => _ end). assert (same_infos cl z.1.2) as Hz.
  { unfold z. destruct o as [p|].
    - match goal with |- context [Reg.updateDurable ?a ?b ?k ?l ?v] => pose proof (updateDurable_infos a b k l v) as Hu end.
      by destruct (Reg.updateDurable _ _ _ _ _) as [[err cl1] x1].
    - pose proof (create_sub_infos e c nid sr' ai d sp sid cl y) as Hc. by destruct (Reg.create_sub _ _ _ _ _ _ _ _ _ _) as [[[p err] cl1] x1]. }
  destruct z as [[[[p err] nx1] cl1] x1]. cbn in Hz. destruct (if _ && _ && _ then _ else _) as [er|]; intros [= _ _ <- _]; [|done].
  etrans; [exact Hz|apply removeSub_infos].
Qed.

Lemma unsubscribeSub_infos e ld k p b cl x : same_infos cl (Reg.unsubscribeSub e ld k p b cl x).1.2.
Proof. unfold Reg.unsubscribeSub. pose proof (removeSub_infos cl k p) as Hr. destruct (removeSub cl k p) as [ok cl1]. by destruct (negb ok). Qed.
End Sub.

(** ** Restoring *)

Create HintDb restoring.

Section Restoring.
Context {S N E : Type} `{MsgStore S} `{!MsgLog S E} `{!MsgRestore S E} `{!Restore.Wire N E}.
Context (unm : list byte -> option MsgProto) (clusterID : string) (bound last : Z) (Hlast : 0 <= last < bound).

Abbreviation rstate := (@Restore.rstate S N).
Abbreviation M := (eff rstate (Restore.restore_error E)).

(** What restoring leaves alone in a channel, or sets to sequences up to [last + 1]. *)
Context (I : @channel S -> Prop) (I_msgs : forall ms c, I c -> I (set_msgs ms c)) (I_first : forall v c, v <= bound -> I c -> I (Restore.set_firstSeq v c)).
Definition within (st : rstate) : Prop := I (Restore.ch st).

Lemma keeps_post {A B : Type} (J : rstate -> Prop) (P : A -> Prop) (m : M A) (f : A -> M B) :
  keeps J m -> (forall s a s', m s = (Ok a, s') -> P a) -> (forall a, P a -> keeps J (f a)) -> keeps J (m ≫= f).
Proof.
  intros Hm Hp Hf s Hs. specialize (Hm s Hs). specialize (Hp s). unfold mbind, eff_bind. destruct (m s) as [[a|x|] s'] eqn:E1; [|done|done].
  apply Hf; [by eapply Hp|done].
Qed.

Lemma restoring_wire {A : Type} (f : N -> A * N) : keeps within (Restore.on_wire f : M A).
Proof. intros st Hs. unfold Restore.on_wire. by destruct (f _). Qed.
Lemma restoring_call {A : Type} (f : N -> outcome E A * N) : keeps within (Restore.wire_call f : M A).
Proof. apply keeps_bind; [apply restoring_wire|]. intros [a| |]; by intros st. Qed.
Lemma restoring_ok (f : N -> option E * N) : keeps within (Restore.wire_ok f : M unit).
Proof. apply keeps_bind; [apply restoring_wire|]. intros [a|]; by intros st. Qed.
Lemma restoring_store {A : Type} (f : S -> outcome E A * S) : keeps within (Restore.on_store_msgs f : M A).
Proof. intros st Hs. unfold Restore.on_store_msgs. destruct (f _). by apply I_msgs. Qed.
Lemma restoring_first v : v <= bound -> keeps within (Restore.put_firstSeq v : M unit).
Proof. intros Hv st. by apply I_first. Qed.
Lemma restoring_fail {A : Type} err : keeps within (fail err : M A).
Proof. by intros st. Qed.
Lemma restoring_store_msg m : keeps within (Restore.store_msg m : M unit).
Proof. apply keeps_bind; [apply restoring_wire|intros t]. apply keeps_bind; [apply restoring_store|intros ?]. apply keeps_ret. Qed.
Lemma restoring_fetch subj i k : keeps within (Restore.restoreMsgsFetchOne subj i k : M Restore.response).
Proof. apply keeps_bind; [apply restoring_ok|intros _]. apply restoring_call. Qed.
Lemma restoring_inbox : keeps within (Restore.new_inbox : M string).
Proof. apply keeps_bind; [apply restoring_wire|intros i]. apply keeps_bind; [apply restoring_ok|intros _]. apply keeps_ret. Qed.
#[local] Hint Resolve restoring_wire restoring_call restoring_ok restoring_store restoring_fail restoring_store_msg restoring_fetch restoring_inbox keeps_ret : restoring.

Lemma u64_le z : 0 <= z -> u64 z <= z.
Proof. intros Hz. unfold u64. apply Z.mod_le; [done|unfold two64; lia]. Qed.

Lemma restoring_find fuel subj i l r : keeps within (Restore.find_loop fuel subj i l r : M Z).
Proof.
  revert l r. induction fuel as [|fuel IH]; intros l r; cbn [Restore.find_loop]; (destruct (l <=? r); [|auto with restoring]); [auto with restoring|].
  apply keeps_bind; [auto with restoring|intros y]. destruct (Restore.r_Data y); apply IH.
Qed.
Lemma restoring_got_msg subj r m v : keeps within (Restore.got_msg unm subj last r m v : M (option Restore.vars)).
Proof.
  pose proof (u64_le (last + 1) ltac:(lia)) as Hu. unfold Restore.got_msg. destruct (_ =? _); [apply keeps_bind; auto with restoring|]. apply keeps_bind.
  { destruct (_ && _); [|auto with restoring]. apply keeps_bind; [|intros [[]|]; auto with restoring]. apply keeps_catch.
    apply keeps_bind; [auto with restoring|intros i]. apply keeps_bind; [auto with restoring|intros y]. destruct (Restore.r_Data y); [auto with restoring|]. destruct (unm _); auto with restoring. }
  intros _. apply keeps_bind; [auto with restoring|intros _].
  destruct (Z.ltb_spec last (Sequence m)); (apply keeps_bind; [apply restoring_first; lia|intros _]); [auto with restoring|apply keeps_bind; auto with restoring].
Qed.
Lemma restoring_got_nothing subj i first r v : 0 <= Restore.seq v <= last -> keeps within (Restore.got_nothing subj i first last r v : M (option Restore.vars)).
Proof.
  intros Hv. pose proof (u64_le (last + 1) ltac:(lia)). pose proof (u64_le (Restore.seq v + 1) ltac:(lia)).
  unfold Restore.got_nothing. apply keeps_bind; [apply keeps_when; auto with restoring|intros _]. apply keeps_bind; [apply restoring_first; lia|intros _].
  destruct (String.eqb _ _); [auto with restoring|]. destruct (_ <=? _); [|auto with restoring]. apply keeps_bind.
  - apply keeps_bind; [auto with restoring|intros y]. destruct (Restore.r_Data y); [auto with restoring|apply restoring_find].
  - intros f. destruct (_ <? _); [|auto with restoring]. apply keeps_bind; [apply restoring_first; lia|auto with restoring].
Qed.

Lemma restoring_loop fuel subj i first v : 0 <= Restore.seq v -> keeps within (Restore.restore_loop unm fuel subj i first last v : M unit).
Proof.
  revert v. induction fuel as [|fuel IH]; intros v Hv; cbn [Restore.restore_loop]; (destruct (Z.leb_spec (Restore.seq v) last); [|auto with restoring]); [auto with restoring|].
  apply (keeps_post within (fun o => match o with Some v' => 0 <= Restore.seq v' | None => True end)).
  - apply (keeps_post within (fun v' => Restore.seq v' = Restore.seq v)).
    + unfold Restore.ask_more. destruct (_ =? _); [apply keeps_bind; [apply restoring_ok|]|]; auto with restoring.
    + intros s v' s'. unfold Restore.ask_more. destruct (_ =? _); [|by intros [= <- _]]. intros ([] & s1 & _ & [= <- _])%eff_bind_inv. done.
    + intros v' Hv'. apply keeps_bind; [auto with restoring|intros r]. apply keeps_bind.
      * destruct (Restore.r_Data r) as [|b l]; [apply restoring_got_nothing; lia|]. destruct (unm (b :: l)); [apply restoring_got_msg|auto with restoring].
      * intros [v''|]; [|auto with restoring]. apply keeps_bind; [auto with restoring|]. intros [|]; auto with restoring.
  - intros s o s' (v1 & s1 & _ & (r & s2 & _ & (o2 & s3 & _ & Ho)%eff_bind_inv)%eff_bind_inv)%eff_bind_inv. destruct o2 as [v2|]; [|by injection Ho as <- _].
    apply eff_bind_inv in Ho as ([|] & s4 & _ & Ho); [done|]. injection Ho as <- _. apply u64_range.
  - intros [v'|] Hv'; [by apply IH|auto with restoring].
Qed.

Lemma restoring_restore fuel first ap : 0 <= first -> keeps within (Restore.restoreMsgsFromSnapshot unm clusterID fuel first last ap : M unit).
Proof.
  intros Hfi. apply keeps_bind; [auto with restoring|]. intros [err|]; [auto with restoring|]. apply keeps_bind; [by intros st|intros st].
  apply (keeps_post within (fun f => 0 <= f)).
  - unfold Restore.restore_from. apply keeps_bind.
    + destruct (_ <? _); [apply keeps_bind; [apply keeps_when|]; auto with restoring|]. destruct (_ <=? _); auto with restoring.
    + intros f. apply keeps_bind; [by intros ?|intros ?]. auto with restoring.
  - intros s f s' (f1 & s1 & K & Hf)%eff_bind_inv. rewrite eff_get in Hf. injection Hf as <- _.
    assert (0 <= f1); [|destruct (Z.ltb_spec f1 (firstSeq (Restore.ch s1))); lia].
    assert (forall z, 0 <= u64 z) as Hu by (intros z; apply u64_range). assert (0 <= (if ap then u64 (LastSequence (msgs (Restore.ch st)) + 1) else first)) by (by destruct ap).
    destruct (_ <? _); [apply eff_bind_inv in K as (? & ? & _ & [= <- _]); done|]. destruct (_ <=? _); injection K as <- _; [apply Hu|done].
  - intros f Hf0. destruct (_ <? _); [auto with restoring|]. apply keeps_bind; [auto with restoring|intros i]. apply keeps_bind; [|auto with restoring].
    by apply restoring_loop.
Qed.
End Restoring.

(** What restoring never changes in a channel. *)
Definition static {S N : Type} (x : string * Z * option channelActivity) (st : @Restore.rstate S N) : Prop :=
  (name (Restore.ch st), id (Restore.ch st), activity (Restore.ch st)) = x.

Lemma static_store {S N E A : Type} x (f : S -> outcome E A * S) : keeps (static (N := N) x) (Restore.on_store_msgs f).
Proof. intros st Hs. unfold Restore.on_store_msgs. by destruct (f _). Qed.

Lemma static_restore {S N E : Type} `{MsgStore S} `{!MsgLog S E} `{!MsgRestore S E} `{!Restore.Wire N E} unm clusterID x fuel last ap :
  0 <= last -> keeps (static x) (Restore.restoreMsgsFromSnapshot unm clusterID fuel 1 last ap : eff (@Restore.rstate S N) (Restore.restore_error E) unit).
Proof. intros Hl. by apply (restoring_restore unm clusterID (last + 1) last ltac:(lia) (fun c => (name c, id c, activity c) = x)). Qed.

(** ** The node *)

Section Node.
Context {S D R E N : Type} `{MsgStore S} `{!MsgLog S E} `{!MsgRestore S E} `{!Stores D S E} `{!StoresWork D S E} `{!RaftStore R E} `{!RaftStoreWorks R E}.
Context `{!Restore.Wire N E} `{!RangeOrder Z} `{!RangeOrder string} `{!Sorter}.
Context `{StanFields}.
Context (unicode : list ascii -> list ascii) (e : @environment S D R E) (clusterID : string).
Context (AddClient_fails DeleteClient_fails : nat -> option E) (newID : nat -> Z) (ackSub : nat -> bool).
Context (clustered : Sub.isClustered (sub_env e) = true) (reads : forall n, LastSequence_fails e n = None) (adds : forall n, AddClient_fails n = None).

Abbreviation node := (@node S D R E N).
Abbreviation M := (eff node (fsm_error E)).
Abbreviation stan_at n := (Conn.stan_of (server n)).
Abbreviation clients_at n := (Conn.clients_of (server n)).

Definition node_ok (n : node) : Prop := reg_ok unicode (stan_at n) /\ wf (clients_at n).
Definition abs (n : node) : gmap string Z * gmap string ClientInfo := (ids (stan_at n), infos (clients_at n)).

(** What changes neither the channels nor the clients. *)
Definition nkept (n n' : node) : Prop := kept (stan_at n) (stan_at n') /\ same_infos (clients_at n) (clients_at n').

#[export] Instance nkept_preorder : PreOrder nkept.
Proof. split; [by split|]. intros n1 n2 n3 [A1 B1] [A2 B2]. split; by etrans. Qed.

Lemma nkept_abs n n' : node_ok n -> nkept n n' -> node_ok n' /\ abs n' = abs n.
Proof.
  intros [G W] [K I]. destruct (kept_ids unicode _ _ G K) as [G' Ei]. destruct (I W) as [W' Ef]. split; [by split|]. unfold abs. by rewrite Ei, Ef.
Qed.

(** *** Handlers of a part of the node *)

Lemma keeps_channels {A : Type} n0 (m : eff (@stan S D R E) (chan_error E) A) :
  (forall s0, keeps (kept s0) m) -> keeps (nkept n0) (on_channels m : M A).
Proof.
  intros Hm n Hn. unfold on_channels. specialize (Hm (stan_at n) (stan_at n) (reflexivity _)). destruct (m (stan_at n)) as [r s'].
  etrans; [exact Hn|]. by split.
Qed.

Lemma keeps_channel {A : Type} n0 p (m : eff (@Restore.rstate S N) (Restore.restore_error E) A) :
  (forall x, keeps (static x) m) -> keeps (nkept n0) (on_channel p m : M A).
Proof.
  intros Hm n Hn. unfold on_channel. destruct (chans (stan_at n) !! p) as [c|] eqn:Hc; [|done].
  specialize (Hm _ (Restore.mkR c (connection n)) eq_refl). destruct (m _) as [r x]. injection Hm as E1 E2 E3. cbn in *.
  etrans; [exact Hn|]. split; [|done]. cbn. eapply kept_put; [done..|]. unfold prevented. by rewrite E3.
Qed.

Lemma keeps_subscriptions {A : Type} n0 p (f : @channel S -> clientStore -> Reg.state -> outcome Empty_set (A * Z * clientStore * Reg.state)) :
  (forall c cl x a nx cl' x', f c cl x = Ok (a, nx, cl', x') -> same_infos cl cl') -> keeps (nkept n0) (on_subscriptions p f : M A).
Proof.
  intros Hf n Hn. unfold on_subscriptions. destruct (chans (stan_at n) !! p) as [c|] eqn:Hc; [|done].
  destruct (f c _ _) as [[[[a nx] cl'] [ss' st']]| |] eqn:Ef; [|done..]. etrans; [exact Hn|]. split; [|by eapply Hf].
  cbn. etrans; [by eapply (kept_put _ p c (set_nextSubID nx (set_ss ss' c)))|]. by apply kept_frame.
Qed.

Lemma keeps_fatal {A : Type} n0 (m : M A) : keeps (nkept n0) m -> keeps (nkept n0) (or_fatal m).
Proof. intros Hm. apply keeps_bind; [by apply keeps_catch|]. intros [a|]; by intros n. Qed.

(** *** The entries *)

(** The rest of [Apply] for messages, once the channel is known. *)
Lemma publish_kept n0 p seq ms :
  keeps (nkept n0) (_ ← or_fatal (check_sequence clusterID p seq); _ ← or_fatal (each (store_replicated e p) ms);
                    on_channel p (Restore.on_store_msgs FlushMsgs) : M unit).
Proof.
  apply keeps_bind; [apply keeps_fatal|intros _; apply keeps_bind; [apply keeps_fatal, keeps_each|intros _]].
  - apply keeps_bind; [apply keeps_channels; intros; apply keeps_chan_at|intros c]. destruct (lSeqChecked c); [apply keeps_ret|].
    apply keeps_bind; [apply keeps_when; intros _; apply keeps_channel; intros; apply static_restore, u64_range|intros _].
    apply keeps_channels. intros. by apply keeps_update.
  - intros m _. apply keeps_bind; [apply keeps_channels; intros; apply keeps_ask|intros t]. apply keeps_channel. intros x.
    apply keeps_bind; [apply static_store|intros _; apply keeps_ret].
  - apply keeps_channel. intros x. apply static_store.
Qed.

Lemma lookup_step {A : Type} nm i (f : option ptr -> M A) n r n' :
  (o ← on_channels (Fsm.lookupOrCreateChannel unicode e nm i); f o) n = (r, n') -> node_ok n -> 0 < i ->
  (forall o n0, keeps (nkept n0) (f o)) -> node_ok n' /\ abs n' = (spec_lookup unicode nm i (abs n).1, (abs n).2).
Proof.
  intros Hr [G W] Hi Hf. pose proof (lookupOrCreateChannel_found unicode e clustered reads nm i (stan_at n) G Hi) as Hl. cbn zeta in Hl.
  unfold on_channels, mbind, eff_bind in Hr. destruct (Fsm.lookupOrCreateChannel unicode e nm i (stan_at n)) as [o s1]. cbn in Hl.
  destruct (found_reg unicode nm i _ _ _ G Hi Hl) as [G1 I1]. set (n1 := set_server _ n) in Hr.
  assert (node_ok n1) as O1 by done. assert (abs n1 = (spec_lookup unicode nm i (abs n).1, (abs n).2)) as A1 by (unfold abs; cbn; by rewrite I1).
  destruct o as [o| |]; [|by injection Hr as <- <-..]. specialize (Hf o n1 n1 (reflexivity _)). rewrite Hr in Hf. cbn in Hf.
  destruct (nkept_abs _ _ O1 Hf) as [O2 A2]. split; [done|congruence].
Qed.

Lemma fatal_inv {A B : Type} (m : M A) (f : A -> M B) n r n' :
  (o ← or_fatal m; f o) n = (r, n') -> r <> Panic -> (o ← m; f o) n = (r, n').
Proof.
  unfold or_fatal, catch, mbind, eff_bind. destruct (m n) as [[a|err|] n1]; cbn; [done|by intros [= <- _]..].
Qed.

Lemma publish_step i ms n r n' :
  apply_publish unicode e clusterID i ms n = (r, n') -> r <> Panic -> node_ok n -> 0 < i ->
  node_ok n' /\ abs n' = match ms with [] => abs n | m :: _ => (spec_lookup unicode (Subject m) i (abs n).1, (abs n).2) end.
Proof.
  unfold apply_publish. destruct ms as [|m ms]; [by intros [= _ <-]|]. intros Hr Hp Ho Hi. apply fatal_inv in Hr; [|done].
  eapply lookup_step; [exact Hr|done|done|]. intros [p|] n0; [apply publish_kept|apply keeps_ret].
Qed.

Lemma subscribe_step sr ai sid i n r n' :
  apply_subscribe unicode e newID ackSub sr ai sid i n = (r, n') -> node_ok n -> 0 < i ->
  node_ok n' /\ abs n' = (spec_lookup unicode (Reg.sr_Subject sr) i (abs n).1, (abs n).2).
Proof.
  intros Hr Ho Hi. eapply lookup_step; [exact Hr|done|done|]. intros [p|] n0; [|by intros ?].
  apply keeps_bind; [apply keeps_channels; intros; apply keeps_ask|intros nid]. apply keeps_bind; [apply keeps_channels; intros; apply keeps_ask|intros ok].
  apply keeps_bind; [apply keeps_subscriptions; intros *; apply processSub_infos|]. intros [q|err]; [apply keeps_ret|by intros ?].
Qed.

Lemma unsubscribe_kept n0 req b : keeps (nkept n0) (apply_unsubscribe e req b : M unit).
Proof.
  apply keeps_bind.
  - apply keeps_bind; [apply keeps_channels; intros s0 s; done|]. intros [p|]; [|apply keeps_ret].
    apply keeps_bind; [apply keeps_channels; intros; apply keeps_chan_at|intros c]. destruct (Reg.LookupByAckInbox _ _); apply keeps_ret.
  - intros [[p|] [q|]]; try apply keeps_ret. apply keeps_bind.
    + apply keeps_subscriptions. intros c cl x a nx cl' x'. pose proof (unsubscribeSub_infos (sub_env e) (isStandaloneOrLeader e) (u_ClientID req) q b cl x) as Hu.
      destruct (Reg.unsubscribeSub _ _ _ _ _ _ _) as [[err cl1] x1]. intros [= _ _ <- _]. exact Hu.
    + intros [err|]; [by intros n|]. apply keeps_bind; [apply keeps_channels; intros; apply keeps_ask|]. intros [x|]; [by intros n|apply keeps_ret].
Qed.

(** What was sent and acknowledged, for a channel that there is. *)
Lemma sent_kept ssa n :
  node_ok n -> is_Some ((abs n).1 !! Spb.SubSentAndAck.Channel ssa) -> nkept n (processReplicatedSendAndAck unicode e ssa n).2.
Proof.
  intros [G W] Hs%(ids_is_Some unicode); [|done]. destruct Hs as [p Hp]. destruct (ro_channel _ _ G _ _ Hp) as (c & Hc & _).
  assert (exists r : outcome (fsm_error E) ptr, on_channels (Chan.lookupOrCreateChannel unicode e (Spb.SubSentAndAck.Channel ssa)) n = (r, n)) as [r Er].
  { unfold on_channels, Chan.lookupOrCreateChannel. rewrite eff_get, Hp, (eff_bind_Ok _ _ _ _ _ (ChanSpec.run_at _ _ _ Hc)).
    destruct (deleting c); eexists; cbn; f_equal; by destruct n as [[] ?]. }
  unfold processReplicatedSendAndAck. rewrite (eff_catch _ _ _ _ _ Er). destruct r as [q| |]; [|done..].
  enough (forall n0, keeps (nkept n0) (apply_sent_ack ssa q : M unit)) as Hk by by apply Hk.
  intros n0. apply keeps_bind; [apply keeps_channels; intros; apply keeps_chan_at|intros c']. apply keeps_channels. intros s0 s Hs. cbn.
  etrans; [exact Hs|by apply kept_frame].
Qed.

Lemma delete_step nm i n :
  node_ok n ->
  let x := (o ← on_channels (lookupChannel nm i); match o with None => mret tt | Some _ => on_channels (processDeleteChannel unicode e nm) end : M unit) n in
  node_ok x.2 /\ abs x.2 = (spec_delete nm i (abs n).1, (abs n).2).
Proof.
  intros [G W]. pose proof (delete_reg unicode e clustered nm i (stan_at n) G) as Hd. cbn zeta in Hd |- *.
  unfold on_channels, mbind, eff_bind in *. destruct (lookupChannel nm i (stan_at n)) as [[[q|]| |] s1]; cbn in Hd |- *.
  - destruct (processDeleteChannel unicode e nm s1) as [r s2]. cbn in Hd |- *. destruct Hd as (_ & G2 & I2). split; [done|]. unfold abs. cbn. by rewrite I2.
  - destruct Hd as (_ & G2 & I2). split; [done|]. unfold abs. cbn. by rewrite I2.
  - by destruct Hd.
  - by destruct Hd.
Qed.

(** *** Clients *)

Abbreviation closeClient := (Conn.closeClient e DeleteClient_fails).

Lemma close_kept k s0 : keeps (fun s => kept s0 (Conn.stan_of s)) (closeClient k).
Proof.
  apply keeps_bind; [by intros s|intros s]. destruct (ClientStore.lookup _ _) as [p|]; [|by intros ?]. apply keeps_bind.
  { intros s1 Hs. cbn. etrans; [exact Hs|by apply kept_frame]. }
  intros err. apply keeps_bind; [by intros s1|intros _]. apply keeps_bind; [intros s1 Hs; unfold Conn.client_at; by destruct (heap _ !! p)|intros c].
  apply keeps_bind.
  - generalize (∅ : gset string). induction (csubs c) as [|q l IH]; intros names; [apply keeps_ret|]. apply keeps_bind; [|intros ?; apply IH].
    intros s1 Hs. unfold Conn.remove_sub. destruct (Sub.subs _ !! q) as [sub|]; [|done]. destruct (channels _ !! _) as [p'|]; [|done].
    destruct (chans _ !! p') as [c'|] eqn:Hc'; [|done]. destruct (Reg.Remove _ _ _ _ _) as [ss' st']. cbn. etrans; [exact Hs|].
    etrans; [by eapply (kept_put _ p' c' (set_ss ss' c'))|by apply kept_frame].
  - intros names. apply keeps_each. intros nm _ s1 Hs. unfold Conn.on_stan. pose proof (keeps_maybeStart e s0 nm None (Conn.stan_of s1) Hs) as Hk.
    by destruct (maybeStartChannelDeleteTimer e nm None (Conn.stan_of s1)).
Qed.

Lemma close_step k (s : Conn.cserver) r s' :
  closeClient k s = (r, s') -> wf (Conn.clients_of s) ->
  kept (Conn.stan_of s) (Conn.stan_of s') /\ wf (Conn.clients_of s') /\ infos (Conn.clients_of s') = delete k (infos (Conn.clients_of s)).
Proof.
  intros Hr Hw. pose proof (close_kept k (Conn.stan_of s) s (reflexivity _)) as Hk. cbn in Hk. rewrite Hr in Hk.
  apply ConnSpec.closeClient_effect in Hr as (_ & _ & err & ->). split_and!; [done|by apply unregister_wf|by apply infos_unregister].
Qed.

Lemma connect_step req refresh (s : Conn.cserver) r s' :
  Conn.processConnect e AddClient_fails DeleteClient_fails req refresh s = (r, s') -> r <> Panic -> wf (Conn.clients_of s) ->
  kept (Conn.stan_of s) (Conn.stan_of s') /\ wf (Conn.clients_of s') /\ infos (Conn.clients_of s') = spec_connect req refresh (infos (Conn.clients_of s)).
Proof.
  intros Hr Hp Hw. unfold Conn.processConnect in Hr.
  assert (exists s1, kept (Conn.stan_of s) (Conn.stan_of s1) /\ wf (Conn.clients_of s1) /\
    infos (Conn.clients_of s1) = (if refresh then delete (Conn.r_ClientID req) (infos (Conn.clients_of s)) else infos (Conn.clients_of s)) /\
    when refresh (_ ← catch (closeClient (Conn.r_ClientID req)); mret tt) s = (Ok tt, s1)) as (s1 & K1 & W1 & I1 & E1).
  { destruct refresh; [|by exists s]. unfold when in Hr |- *. destruct (closeClient (Conn.r_ClientID req) s) as [r1 s1] eqn:Ec.
    destruct (close_step _ _ _ _ Ec Hw) as (K1 & W1 & I1). exists s1. split_and!; [done..|].
    rewrite (eff_catch _ _ _ _ _ Ec). destruct r1; [done..|]. unfold mbind at 1, eff_bind at 1 in Hr. rewrite (eff_catch _ _ _ _ _ Ec) in Hr. by injection Hr as <- _. }
  rewrite (eff_bind_Ok _ _ _ _ _ E1) in Hr. unfold mbind at 1, eff_bind at 1, Conn.ask_stan in Hr. rewrite adds, eff_get in Hr. cbn in Hr.
  set (i := mkClientInfo _ _ _ _ _ _) in Hr. pose proof (register_wf (E := E) (Conn.clients_of s1) i None W1) as Wr. pose proof (infos_register (E := E) (Conn.clients_of s1) i W1) as Ir.
  destruct (register (Conn.clients_of s1) i None) as [x cl]. cbn [snd] in Wr, Ir.
  assert (s' = Conn.set_clients cl (Conn.set_stan (set_asked (asked (Conn.stan_of s1) + 1) (Conn.stan_of s1)) s1)) as ->
    by (rewrite eff_modify in Hr; by destruct x as [|[]]; injection Hr as _ <-).
  split_and!; [etrans; [exact K1|by apply kept_frame]|done|]. cbn. rewrite Ir, I1. unfold spec_connect. change (ClientStore.ID i) with (Conn.r_ClientID req). done.
Qed.

Lemma clients_step {A : Type} (m : eff Conn.cserver (Conn.conn_error E) A) (f : gmap string ClientInfo -> gmap string ClientInfo) n r n' :
  on_clients m n = (r, n') -> r <> Panic -> node_ok n ->
  (forall r1 s1, m (server n) = (r1, s1) -> r1 <> Panic ->
     kept (stan_at n) (Conn.stan_of s1) /\ wf (Conn.clients_of s1) /\ infos (Conn.clients_of s1) = f (infos (clients_at n))) ->
  node_ok n' /\ abs n' = ((abs n).1, f (abs n).2).
Proof.
  intros Hr Hp [G W] Hm. unfold on_clients in Hr. destruct (m (server n)) as [r1 s1]. injection Hr as <- <-.
  destruct (Hm r1 s1 eq_refl) as (K & W1 & I1); [by destruct r1|]. destruct (kept_ids unicode _ _ G K) as [G1 Ei]. split; [done|]. unfold abs. cbn. by rewrite Ei, I1.
Qed.

(** The results of the entries that return nothing. *)
Lemma none_inv (m : M unit) n r n' :
  (_ ← m; mret None : M (option ptr)) n = (r, n') -> r <> Panic -> exists r1, m n = (r1, n') /\ r1 <> Panic.
Proof. unfold mbind, eff_bind. destruct (m n) as [[a| |] n1]; intros [= <- <-] Hp; [by exists (Ok a)|by eexists|done]. Qed.

Lemma deref_inv {A B : Type} (o : option A) (f : A -> M B) n r n' :
  (a ← deref o; f a) n = (r, n') -> r <> Panic -> exists a, o = Some a /\ f a n = (r, n').
Proof. destruct o as [a|]; [by exists a|]. by intros [= <- _]. Qed.

Abbreviation apply_op := (Fsm.apply_op unicode e clusterID AddClient_fails DeleteClient_fails newID ackSub).
Abbreviation Apply := (Fsm.Apply unicode e clusterID AddClient_fails DeleteClient_fails newID ackSub).

Lemma apply_op_step op n r n' :
  apply_op op n = (r, n') -> r <> Panic -> node_ok n -> op_ok op (abs n) -> node_ok n' /\ abs n' = spec_op unicode op (abs n).
Proof.
  unfold Fsm.apply_op, spec_op, op_ok. cbv zeta. intros Hr Hp Ho [Hid Hsa].
  destruct (Z.eqb_spec (RaftOperation.OpType op) RaftOperation_Publish) as [Et|_].
  { apply none_inv in Hr as (r1 & Hr & Hp1); [|done]. apply deref_inv in Hr as ([ms] & -> & Hr); [|done].
    destruct (publish_step _ _ _ _ _ Hr Hp1 Ho (Hid (or_introl Et))) as [Ho' Ha]. split; [done|]. rewrite Ha. by destruct ms. }
  destruct (Z.eqb_spec (RaftOperation.OpType op) RaftOperation_Connect) as [Et|_].
  { apply none_inv in Hr as (r1 & Hr & Hp1); [|done]. apply deref_inv in Hr as ([oreq refresh] & -> & Hr); [|done]. apply deref_inv in Hr as (req & Er & Hr); [|done].
    cbn in Er. rewrite Er. eapply (clients_step _ (spec_connect (connect_fields req) refresh)); [exact Hr|done|done|]. intros r2 s2 Hm2 Hp2. eapply connect_step; [exact Hm2|done|apply Ho]. }
  destruct (Z.eqb_spec (RaftOperation.OpType op) RaftOperation_Disconnect) as [Et|_].
  { apply none_inv in Hr as (r1 & Hr & Hp1); [|done]. apply deref_inv in Hr as (c & -> & Hr); [|done].
    eapply (clients_step _ (delete (close_fields c))); [exact Hr|done|done|]. intros r2 s2 Hm2 Hp2. eapply close_step; [exact Hm2|apply Ho]. }
  destruct (Z.eqb_spec (RaftOperation.OpType op) RaftOperation_Subscribe) as [Et|_].
  { apply deref_inv in Hr as ([oreq ai sid] & -> & Hr); [|done]. apply deref_inv in Hr as (req & Er & Hr); [|done]. cbn in Er. rewrite Er.
    unfold mbind at 1, eff_bind at 1 in Hr. destruct (apply_subscribe _ _ _ _ _ _ _ _ n) as [r1 n1] eqn:Es.
    destruct (subscribe_step _ _ _ _ _ _ _ Es Ho (Hid (or_intror Et))) as [Ho1 Ha1]. by destruct r1; injection Hr as _ <-. }
  destruct (_ || _) eqn:Eu.
  { assert (RaftOperation.OpType op =? RaftOperation_DeleteChannel = false) as -> by (apply orb_prop in Eu as [->%Z.eqb_eq| ->%Z.eqb_eq]; done).
    apply none_inv in Hr as (r1 & Hr & Hp1); [|done]. apply deref_inv in Hr as (req & _ & Hr); [|done].
    apply nkept_abs; [done|]. pose proof (unsubscribe_kept n (unsub_fields req) (RaftOperation.OpType op =? RaftOperation_CloseSubscription) n (reflexivity _)) as Hk. by rewrite Hr in Hk. }
  destruct (Z.eqb_spec (RaftOperation.OpType op) RaftOperation_SendAndAck) as [Et|_].
  { rewrite Et. cbn [Z.eqb RaftOperation_SendAndAck RaftOperation_DeleteChannel]. apply none_inv in Hr as (r1 & Hr & Hp1); [|done]. unfold when in Hr.
    destruct (negb (isLeader e)); [|by injection Hr as _ <-]. apply deref_inv in Hr as (ssa & Es & Hr); [|done].
    apply nkept_abs; [done|]. pose proof (sent_kept ssa n Ho (Hsa Et ssa Es)) as Hk. by rewrite Hr in Hk. }
  destruct (Z.eqb_spec (RaftOperation.OpType op) RaftOperation_DeleteChannel) as [Et|_]; [|by injection Hr as <- _].
  apply none_inv in Hr as (r1 & Hr & Hp1); [|done]. pose proof (delete_step (RaftOperation.Channel op) (RaftOperation.ChannelID op) n Ho) as Hd. cbn zeta in Hd.
  by rewrite Hr in Hd.
Qed.

(** ** A log *)

(** The entries in order; a node that panics is gone. *)
Fixpoint apply_all (log : list (list byte)) (n : node) : option node :=
  match log with
  | [] => Some n
  | data :: log' => match Apply data n with (Panic, _) => None | (_, n') => apply_all log' n' end
  end.
End Node.

Section Log.
Context `{StanFields} (unicode : list ascii -> list ascii).

(** What an entry says; one that cannot be unmarshalled says nothing. *)
Definition spec_entry (x : gmap string Z * gmap string ClientInfo) (data : list byte) : gmap string Z * gmap string ClientInfo :=
  match RaftOperation.Unmarshal RaftOperation.zero data with Ok op => spec_op unicode op x | _ => x end.

Fixpoint log_ok (log : list (list byte)) (x : gmap string Z * gmap string ClientInfo) : Prop :=
  match log with
  | [] => True
  | data :: log' => (forall op, RaftOperation.Unmarshal RaftOperation.zero data = Ok op -> op_ok op x) /\ log_ok log' (spec_entry x data)
  end.
End Log.

Section Agreement.
Context {S D R E N : Type} `{MsgStore S} `{!MsgLog S E} `{!MsgRestore S E} `{!Stores D S E} `{!StoresWork D S E} `{!RaftStore R E} `{!RaftStoreWorks R E}.
Context `{!Restore.Wire N E} `{!RangeOrder Z} `{!RangeOrder string} `{!Sorter}.
Context `{StanFields}.

Lemma apply_all_abs (unicode : list ascii -> list ascii) (e : @environment S D R E) (clusterID : string)
  (AddClient_fails DeleteClient_fails : nat -> option E) (newID : nat -> Z) (ackSub : nat -> bool) (log : list (list byte)) (n n' : @node S D R E N) :
  Sub.isClustered (sub_env e) = true -> (forall k, LastSequence_fails e k = None) -> (forall k, AddClient_fails k = None) ->
  node_ok unicode n -> log_ok unicode log (abs n) ->
  apply_all unicode e clusterID AddClient_fails DeleteClient_fails newID ackSub log n = Some n' ->
  abs n' = foldl (spec_entry unicode) (abs n) log /\ node_ok unicode n'.
Proof.
  intros Hcl Hrd Had. revert n. induction log as [|data log IH]; intros n Ho Hok Hr; [by injection Hr as <-|].
  destruct Hok as [Hop Hok]. cbn [apply_all foldl] in *. destruct (Apply _ _ _ _ _ _ _ data n) as [r n1] eqn:Ea.
  assert (node_ok unicode n1 /\ abs n1 = spec_entry unicode (abs n) data \/ r = Panic) as [[Ho1 A1]| ->]; [|rewrite <- A1 in Hok |- *; apply IH; [done..|by destruct r]|done].
  unfold Fsm.Apply, spec_entry in *. destruct (RaftOperation.Unmarshal _ data) as [op| |]; [|left; by injection Ea as _ <-|right; by injection Ea as <- _].
  destruct r as [a|x|] eqn:Er; [left|left|by right]; (eapply apply_op_step; [done..|exact Ea|done|done|by apply Hop]).
Qed.

End Agreement.
End FsmAgree.
