(* ===== verification/FsmPublish.v ===== *)
(** * Applying messages leaves no gap

    What a node has of a channel after an entry of the log with messages
    ([Fsm.apply_publish]): everything before the entry that was missing is restored from the
    leader first, and messages that the node has already, because the log is replayed, are
    not stored again. *)

From Stdlib Require Import ZArith Lia Ascii String.
From stdpp Require Import base list gmap strings.
From S2P Require Import Prelude Bytes GoLib Effects Proto Spb MemStore MsgStore MsgRestore ClientStore SubState SubStore Replication ChannelStore ChannelStoreSpec Connect RestoreMsgs RestoreSpec Fsm FsmSpec FsmAgree.

Local Open Scope Z_scope.

Module FsmPublish.
Import Chan Fsm FsmSpec RestoreSpec.

(** ** Windows *)

Section History.
Context (h : Z -> MsgProto) (h_seq : forall k, 0 < k < two64 - 1 -> Sequence (h k) = k).

(** The messages before [s] are there, as far as they are not gone. *)
Definition caught (w : win) (g s : Z) (w' : win) : Prop :=
  0 < s /\ restored h w g s w' /\ (is_Some w' -> s - 1 <= Window.wlast w').

Lemma pushed_all_last b s base w' :
  pushed_all (msgs_from h b s) base w' -> 0 < b <= s -> s < two64 - 1 -> (is_Some base -> Window.wlast base = b - 1) ->
  (w' = base /\ b = s) \/ (is_Some w' /\ Window.wlast w' = s - 1).
Proof.
  intros Hp Hb Hs Hw. remember (Z.to_nat (s - b)) as n eqn:En. revert s w' Hp Hb Hs En. induction n as [|n IH]; intros s w' Hp Hb Hs En.
  - left. assert (s = b) as -> by lia. rewrite msgs_from_nil in Hp by lia. by apply pushed_all_nil_inv in Hp.
  - right. replace s with (s - 1 + 1) in Hp by lia. rewrite msgs_from_snoc in Hp by lia.
    inversion Hp as [? Hnil|l m ? w1 ? Hp1 Hm Hl]; [by destruct (msgs_from h b (s - 1))|]. subst. apply app_inj_tail in Hl as [-> ->].
    destruct (IH (s - 1) w1 Hp1 ltac:(lia) ltac:(lia) ltac:(lia)) as [[-> Hbs]|[Hw1 Hl1]].
    + destruct (pushed_wlast (h (s - 1)) base w') as [H1 H2]; [|done|split; [done|rewrite H1, h_seq by lia; lia]].
      destruct base; [|done]. rewrite h_seq, Hw by (lia || by eexists). lia.
    + destruct (pushed_wlast (h (s - 1)) w1 w') as [H1 H2]; [|done|split; [done|rewrite H1, h_seq by lia; lia]].
      destruct w1; [|done]. rewrite h_seq, Hl1 by lia. lia.
Qed.

(** The next message was stored before, or comes next. *)
Lemma caught_cases w g s w' :
  caught w g s w' -> s < two64 - 1 -> 0 <= Window.wlast w ->
  (is_Some w' /\ s <= Window.wlast w' /\ caught w g (s + 1) w') \/ restoring h w g s w'.
Proof.
  intros (Hs & (b & base & Hb & Hp) & Hl) Hs2 Hw. destruct (Z.leb_spec b s) as [Hbs|Hbs].
  - right. split; [done|]. split.
    + intros Hw'. assert (0 < b) as Hb0 by (destruct Hb as [[-> _]|[? _]]; lia).
      destruct (pushed_all_last b s base w' Hp ltac:(lia) Hs2) as [[-> ->]|[_ ?]]; [|specialize (Hl Hw')|done].
      * intros Hx. destruct Hb as [[-> ->]|[_ ->]]; [lia|by destruct Hx].
      * destruct Hb as [[? ->]|[_ ->]]; [lia|by destruct Hw'].
    + exists b, base. by split_and!.
  - rewrite msgs_from_nil in Hp by lia. apply pushed_all_nil_inv in Hp as ->. destruct Hb as [[-> ->]|[Hg ->]].
    + destruct w as [[f q]|]; [left|cbn in Hbs; lia]. split; [by eexists|]. split; [lia|]. split; [lia|]. split; [|lia].
      exists (Window.wlast (Some (f, q)) + 1), (Some (f, q)). split; [by left|]. rewrite msgs_from_nil by lia. constructor.
    + right. apply restoring_none. lia.
Qed.

Lemma restored_caught w g s w' : restored h w g s w' -> 0 < s < two64 - 1 -> 0 <= Window.wlast w -> caught w g s w'.
Proof.
  intros (b & base & Hb & Hp) Hs Hw. split; [lia|]. split; [by exists b, base|]. intros Hw'. destruct (Z.leb_spec b s) as [Hbs|Hbs].
  - assert (0 < b) as Hb0 by (destruct Hb as [[-> _]|[? _]]; lia).
    destruct (pushed_all_last b s base w' Hp ltac:(lia) ltac:(lia)) as [[-> ->]|[_ ->]]; [| |lia].
    + intros Hx. destruct Hb as [[-> ->]|[_ ->]]; [lia|by destruct Hx].
    + destruct Hb as [[? ->]|[_ ->]]; [lia|by destruct Hw'].
  - rewrite msgs_from_nil in Hp by lia. apply pushed_all_nil_inv in Hp as ->. destruct Hb as [[-> ->]|[_ ->]]; [lia|by destruct Hw'].
Qed.

Lemma restoring_caught w g s w' : restoring h w g s w' -> caught w g s w'.
Proof. intros (Hs & Hl & Hr). split; [done|]. split; [destruct Hr as (b & base & ? & _ & ?); by exists b, base|]. intros Hw. specialize (Hl Hw). lia. Qed.

(** Without restoring: the messages before [s] are there. *)
Lemma caught_start w g s : 0 < s -> 0 <= Window.wlast w -> s - 1 <= Window.wlast w -> caught w g s w.
Proof.
  intros Hs Hw Hl. split; [done|]. split; [|done]. exists (Window.wlast w + 1), w. split; [by left|]. rewrite msgs_from_nil by lia. constructor.
Qed.
End History.

(** ** The node *)

Section Node.
Context {S D R E N : Type} `{!MsgStore S} `{!MsgStoreSpec S} `{!MsgLog S E} `{!MsgLogSpec S E} `{!MsgRestore S E} `{!MsgRestoreSpec S E}.
Context `{!Stores D S E} `{!StoresWork D S E} `{!StoresSpec D S E} `{!RaftStore R E} `{!RaftStoreWorks R E}.
Context `{!Restore.Wire N E} `{!RangeOrder Z} `{!RangeOrder string} `{!Sorter} {SP : StanProto} {SF : StanFields}.
Context (unicode : list ascii -> list ascii) (e : @environment S D R E) (clusterID nm : string).
Context (clustered : Sub.isClustered (sub_env e) = true) (reads : forall n, LastSequence_fails e n = None).
(** The history of the channel, and the leader that the node restores from. *)
Context (marshal : MsgProto -> list byte) (h : Z -> MsgProto) (top : Z) `{W : !WireSpec marshal h top (Restore.restore_subject clusterID nm)}.
Context (h_seq : forall k, 0 < k < two64 - 1 -> Sequence (h k) = k /\ storable (h k)) (h_subject : forall k, Subject (h k) = nm).
Context (h_codec : forall k, 0 < k < two64 - 1 -> marshal (h k) <> [] /\ unmarshal (marshal (h k)) = Some (h k)).

Abbreviation node := (@node S D R E N).
Abbreviation stan_at n := (Conn.stan_of (server n)).

(** What a node has of the channel when it has applied entries up to the message [a]. *)
Record holds (a : Z) (c : @channel S) (w : win) (n : N) : Prop := {
  ho_live : live n;
  ho_view : view (msgs c) w;
  ho_last : 0 <= Window.wlast w < two64 - 1 /\ (Window.wlast w = 0 -> w = None);
  ho_first : firstSeq c <= gone n /\ (w = None \/ firstSeq c <= Window.wlast w + 1);
  ho_checked : lSeqChecked c = true -> a <= Window.wlast w
}.

(** One message. *)
Lemma store_caught w g s (c : @channel S) ws t ms r :
  caught h w g s ws -> s < two64 - 1 -> 0 <= Window.wlast w -> view (msgs c) ws -> StoreMsg t (h s) (msgs c) = (Ok r, ms) ->
  exists w', view ms w' /\ caught h w g (s + 1) w' /\ is_Some w' /\ (ws = None \/ Window.wlast ws <= Window.wlast w').
Proof.
  intros Hc Hs Hw Hv Hr. assert (0 < s) as Hs0 by apply Hc. destruct (h_seq s ltac:(lia)) as [Es Hst].
  destruct (caught_cases h (fun k Hk => proj1 (h_seq k Hk)) w g s ws Hc Hs Hw) as [(Hx & Hl & Hc')|Hres].
  - rewrite (view_StoreSeen (msgs c) ws (h s) t Hv) in Hr by lia. injection Hr as _ <-. exists ws. split_and!; [done..|right; lia].
  - assert (exists w', view ms w' /\ pushed (h s) ws w') as (w' & Hv' & Hp).
    { destruct ws as [x|].
      - destruct (view_Store (msgs c) (Some x) (h s) t Hv) as [(ms' & w' & E1 & V1 & P1)|(x' & ms' & E1 & _)]; [destruct Hres as (_ & Hl & _); rewrite Hl by (by eexists); lia|lia|done| |congruence].
        exists w'. split; [congruence|done].
      - destruct (view_StoreFirst (msgs c) (h s) t Hv ltac:(lia) Hst) as [(ms' & w' & E1 & V1 & P1)|(x' & ms' & E1 & _)]; [|congruence].
        exists w'. split; [congruence|done]. }
    destruct Hres as (_ & Hl & b & base & Hb & Hbs & Hpa).
    destruct (pushed_wlast (h s) ws w') as [Hlw Hsw]; [destruct ws; [rewrite Es, Hl by (by eexists); lia|done]|done|].
    exists w'. split_and!; [done| |done|destruct ws; [right; rewrite Hlw, Hl, Es by (by eexists); lia|by left]].
    split; [lia|]. split; [|rewrite Hlw, Es; lia]. exists b, base. split; [done|]. rewrite msgs_from_snoc by done. by econstructor.
Qed.

(** *** Runs *)

Lemma on_channel_inv {A : Type} p (m : eff (@Restore.rstate S N) (Restore.restore_error E) A) (n n' : node) a c :
  on_channel p m n = (Ok a, n') -> chans (stan_at n) !! p = Some c ->
  exists x, m (Restore.mkR c (connection n)) = (Ok a, x) /\ chans (stan_at n') !! p = Some (Restore.ch x) /\ channels (stan_at n') = channels (stan_at n) /\ connection n' = Restore.wire x.
Proof.
  unfold on_channel. intros Hr Hc. rewrite Hc in Hr. destruct (m _) as [[b| |] x]; [|done|done]. injection Hr as <- <-. exists x. split_and!; [done| |done|done].
  cbn. apply lookup_insert_eq.
Qed.

Lemma on_channels_inv {A : Type} (m : eff (@stan S D R E) (chan_error E) A) (n n' : node) a :
  on_channels m n = (Ok a, n') -> exists s', m (stan_at n) = (Ok a, s') /\ stan_at n' = s' /\ connection n' = connection n.
Proof. unfold on_channels. destruct (m (stan_at n)) as [[b| |] s']; intros [= <- <-]. by exists s'. Qed.

Lemma or_fatal_inv {A : Type} (m : eff node (fsm_error E) A) n a n' : or_fatal m n = (Ok a, n') -> m n = (Ok a, n').
Proof. unfold or_fatal, catch, mbind, eff_bind. destruct (m n) as [[b| |] n1]; by intros [= <- <-]. Qed.

(** Of the channel at [p], only the messages change. *)
Definition only_msgs (p : ptr) (c : @channel S) (n : node) (c' : @channel S) (n' : node) : Prop :=
  chans (stan_at n') !! p = Some c' /\ channels (stan_at n') = channels (stan_at n) /\ connection n' = connection n /\ c' = set_msgs (msgs c') c.

Lemma store_one_inv w g s p c ws (n n' : node) :
  store_replicated e p (h s) n = (Ok tt, n') -> chans (stan_at n) !! p = Some c ->
  caught h w g s ws -> s < two64 - 1 -> 0 <= Window.wlast w -> view (msgs c) ws ->
  exists c' w', only_msgs p c n c' n' /\ view (msgs c') w' /\ caught h w g (s + 1) w' /\ is_Some w' /\ (ws = None \/ Window.wlast ws <= Window.wlast w').
Proof.
  intros Hr Hp Hc Hs Hw Hv. unfold store_replicated in Hr. apply eff_bind_inv in Hr as (t & n1 & K1 & Hr).
  apply on_channels_inv in K1 as (s1 & [= _ <-] & Es & Ec). assert (chans (stan_at n1) !! p = Some c) as Hp1 by (by rewrite Es).
  destruct (on_channel_inv _ _ _ _ _ _ Hr Hp1) as (x & Hm & Hp' & Hn' & Hc'). apply eff_bind_inv in Hm as (r & y & Hm & [= <-]).
  unfold Restore.on_store_msgs in Hm. cbn in Hm. destruct (StoreMsg (wall_now t) (h s) (msgs c)) as [[r'| |] ms] eqn:Est; [|done|done]. injection Hm as _ <-.
  destruct (store_caught w g s c ws _ ms r' Hc Hs Hw Hv Est) as (w' & V' & C' & S' & L'). exists (set_msgs ms c), w'. split_and!; try done.
  split; [done|]. split; [by rewrite Hn', Es|]. split; [by rewrite Hc'|by destruct c].
Qed.

Lemma store_all_inv w g cnt k p c ws (n n' : node) :
  each (store_replicated e p) (h <$> seqZ k (Z.of_nat cnt)) n = (Ok tt, n') -> chans (stan_at n) !! p = Some c ->
  caught h w g k ws -> k + Z.of_nat cnt < two64 -> 0 <= Window.wlast w -> view (msgs c) ws ->
  exists c' w', only_msgs p c n c' n' /\ view (msgs c') w' /\ caught h w g (k + Z.of_nat cnt) w' /\ (is_Some ws \/ cnt <> 0%nat -> is_Some w') /\ (ws = None \/ Window.wlast ws <= Window.wlast w').
Proof.
  revert k c ws n. induction cnt as [|cnt IH]; intros k c ws n Hr Hp Hc Hk Hw Hv.
  - cbn in Hr. injection Hr as <-. exists c, ws. rewrite Z.add_0_r. split_and!; try done; [|by intros [?|?]|right; lia]. split_and!; try done. by destruct c.
  - rewrite seqZ_cons in Hr by lia. cbn [fmap list_fmap each] in Hr. apply eff_bind_inv in Hr as ([] & n1 & K1 & Hr).
    destruct (store_one_inv w g k p c ws n n1 K1 Hp Hc ltac:(lia) Hw Hv) as (c1 & w1 & (P1 & N1 & W1 & E1) & V1 & C1 & S1 & L1).
    replace (Z.pred (Z.of_nat (Datatypes.S cnt))) with (Z.of_nat cnt) in Hr by lia.
    destruct (IH (Z.succ k) c1 w1 n1 Hr P1) as (c2 & w2 & (P2 & N2 & W2 & E2) & V2 & C2 & S2 & L2); [by replace (Z.succ k) with (k + 1) by lia|lia|done|done|].
    exists c2, w2. replace (Z.succ k + Z.of_nat cnt) with (k + Z.of_nat (Datatypes.S cnt)) in C2 by lia.
    split_and!; [|done|done| |].
    + split; [done|]. split; [congruence|]. split; [congruence|]. rewrite E2, E1. by destruct c.
    + intros _. apply S2. by left.
    + destruct L1 as [->|L1]; [by left|]. destruct L2 as [->|L2]; [by destruct S1|right; lia].
Qed.

(** *** The sequence is checked *)

Lemma view_last (ms : S) w : view ms w -> 0 <= Window.wlast w < two64 - 1.
Proof. intros Hv%view_wf. unfold two64 in *. destruct w as [[f q]|]; cbn in *; unfold two64 in *; lia. Qed.

Lemma check_inv a w k p c (n n' : node) :
  check_sequence clusterID p k n = (Ok tt, n') -> chans (stan_at n) !! p = Some c -> name c = nm -> holds a c w (connection n) ->
  0 < k <= a + 1 -> k - 1 <= top -> k + 100 < two64 ->
  exists c' ws, chans (stan_at n') !! p = Some c' /\ channels (stan_at n') = channels (stan_at n) /\ id c' = id c /\ lSeqChecked c' = true /\
    live (connection n') /\ view (msgs c') ws /\ caught h w (gone (connection n')) k ws /\
    firstSeq c' <= gone (connection n') /\ (ws = None \/ firstSeq c' <= Window.wlast ws + 1) /\ firstSeq c' <= Z.max (firstSeq c) k.
Proof.
  intros Hr Hp Hn [Hl Hv [Hw Hw0] [Hf Hfw] Hch] Hk Ht Hb. unfold check_sequence in Hr. apply eff_bind_inv in Hr as (c0 & n1 & K1 & Hr).
  apply on_channels_inv in K1 as (s1 & E1 & Es & Ec). unfold chan_at in E1. rewrite Hp in E1. injection E1 as <- <-.
  destruct (lSeqChecked c) eqn:Hlc.
  { injection Hr as <-. exists c, w. rewrite Es, Ec. split_and!; try done; [|lia]. apply caught_start; [lia..|]. specialize (Hch eq_refl). lia. }
  apply eff_bind_inv in Hr as ([] & n2 & K2 & Hr). apply on_channels_inv in Hr as (s3 & E3 & Es3 & Ec3).
  assert (exists c2 ws, chans (stan_at n2) !! p = Some c2 /\ channels (stan_at n2) = channels (stan_at n) /\ id c2 = id c /\ live (connection n2) /\ view (msgs c2) ws /\
    caught h w (gone (connection n2)) k ws /\ firstSeq c2 <= gone (connection n2) /\ (ws = None \/ firstSeq c2 <= Window.wlast ws + 1) /\ firstSeq c2 <= Z.max (firstSeq c) k)
    as (c2 & ws & P2 & N2 & I2 & L2 & V2 & C2 & F2 & G2 & M2).
  { unfold when in K2. destruct (Z.ltb_spec 1 k) as [Hk1|Hk1].
    - assert (chans (stan_at n1) !! p = Some c) as Hp1 by (by rewrite Es). destruct (on_channel_inv _ _ _ _ _ _ K2 Hp1) as (x & Hm & P2 & N2 & W2).
      rewrite Ec in Hm. pose proof (FsmAgree.static_restore unmarshal clusterID _ (Z.to_nat (k - 1)) (u64 (k - 1)) true ltac:(apply u64_range) (Restore.mkR c (connection n)) eq_refl) as Hst.
      rewrite Hm in Hst. injection Hst as _ Hi _. cbn in Hi. rewrite u64_small in Hm by (split; lia).
      pose proof (FsmAgree.restoring_restore unmarshal clusterID (Z.max (firstSeq c) k) (k - 1) ltac:(lia) (fun c' => firstSeq c' <= Z.max (firstSeq c) k)
        ltac:(done) ltac:(done) (Z.to_nat (k - 1)) 1 true ltac:(lia) (Restore.mkR c (connection n)) ltac:(unfold FsmAgree.within; cbn; lia)) as Hbd. rewrite Hm in Hbd.
      destruct (restore_inv marshal unmarshal clusterID h top (Restore.restore_subject clusterID nm) h_seq h_codec (Z.to_nat (k - 1)) 1 (k - 1) true w c (connection n) x)
        as (Lv & ws & V & Hres & _ & F & G); [by rewrite Hn|exact Hm|by (unfold channel_ok; split_and!; [| | |apply Hw..|])|tauto|done|done|lia|lia|].
      exists (Restore.ch x), ws. rewrite W2. split_and!; try done; [by rewrite N2, Es|..]. replace (k - 1 + 1) with k in Hres by lia.
      apply restored_caught; [intros; by apply h_seq|done|unfold two64 in *; lia|lia].
    - injection K2 as <-. exists c, w. rewrite Es, Ec. split_and!; try done; [apply caught_start; lia|lia]. }
  rewrite (ChanSpec.run_update p _ c2 _ P2) in E3. injection E3 as <-. exists (set_lSeqChecked true c2), ws. rewrite Es3, Ec3. split_and!; try done. apply lookup_insert_eq.
Qed.

(** *** An entry *)

(** What the node had of this version of the channel. *)
Definition had (n : node) (i : Z) (w : win) : Prop :=
  match channels (stan_at n) !! nm ≫= fun p => chans (stan_at n) !! p with
  | Some c => if (id c =? 0) || (id c =? i) then view (msgs c) w else w = None
  | None => w = None
  end.

(** The channel of an entry, and what it has. *)
Lemma channel_found i a k (n : node) s1 o :
  reg_ok unicode (stan_at n) -> live (connection n) -> 0 <= gone (connection n) -> 0 < i -> 0 < k ->
  (forall p c, channels (stan_at n) !! nm = Some p -> chans (stan_at n) !! p = Some c ->
     id c <= i /\ (id c = 0 \/ id c = i -> exists w, holds a c w (connection n) /\ firstSeq c <= k)) ->
  found unicode nm i (stan_at n) (Ok o) s1 ->
  exists p c w, o = Some p /\ channels s1 !! nm = Some p /\ chans s1 !! p = Some c /\ name c = nm /\ (id c = 0 \/ id c = i) /\ had n i w /\
    holds a c w (connection n) /\ firstSeq c <= k.
Proof.
  intros G Hl Hg Hi Hk Hold Hf. unfold had. inversion Hf as [p c Hp Hc Hid E1 E2|p c Hp Hc Hid E1 E2|s0 p c s' Hs0 Hlow C E1 E2|]; subst.
  - destruct (ro_channel _ _ G _ _ Hp) as (c0 & Hc0 & Hn & _). simplify_eq. destruct (Hold p c Hp Hc) as [_ Hw]. destruct (Hw Hid) as (w & Hh & Hk').
    exists p, c, w. split_and!; try done. rewrite Hp. cbn. rewrite Hc. assert ((id c =? 0) || (id c =? i) = true) as -> by (destruct Hid as [-> | ->]; [done|by rewrite Z.eqb_refl, orb_true_r]). apply Hh.
  - destruct (Hold p c Hp Hc) as [Hle _]. lia.
  - exists p, c, None. destruct C as [En El Eo Hfr Hn Hii Hpr [Hu Hfs] (d & d' & Hcr) _]. split_and!; try done; [by rewrite En, lookup_insert_eq|by rewrite Eo, lookup_insert_eq|by right| | |rewrite Hfs; lia].
    + destruct Hs0 as [[Hn0 ->]|(q & d0 & Hq & Hd0 & H3 & H4 & _)]; [by rewrite Hn0|]. rewrite Hq. cbn. rewrite Hd0, (proj2 (Z.eqb_neq _ _) H3), (proj2 (Z.eqb_neq (id d0) i)) by lia. done.
    + split; [done|by apply CreateChannel_new in Hcr as [? _]|done|rewrite Hfs; split; [done|by left]|by rewrite Hu].
Qed.

(** [C9] Applying messages.  When a node has applied an entry with the messages from [k] on, the
    channel of that version has them, flushed, and before them, in order and without a gap,
    the messages from the end of what the node had, or from one such that the leader has
    removed all earlier ones; a channel of an older version was replaced.  That is so for a
    new channel, for one that the node is catching up with, and when entries are replayed
    that the node applied before. *)
Theorem applied_without_gap i a k cnt (n n' : node) :
  reg_ok unicode (stan_at n) -> live (connection n) -> 0 <= gone (connection n) -> 0 < i ->
  (forall p c, channels (stan_at n) !! nm = Some p -> chans (stan_at n) !! p = Some c ->
     id c <= i /\ (id c = 0 \/ id c = i -> exists w, holds a c w (connection n) /\ firstSeq c <= k)) ->
  0 < k <= a + 1 -> k - 1 <= top -> (0 < cnt)%nat -> k + Z.of_nat cnt + 100 < two64 ->
  apply_publish unicode e clusterID i (h <$> seqZ k (Z.of_nat cnt)) n = (Ok tt, n') ->
  exists p c w w', channels (stan_at n') !! nm = Some p /\ chans (stan_at n') !! p = Some c /\ (id c = 0 \/ id c = i) /\
    had n i w /\ restored h w (gone (connection n')) (k + Z.of_nat cnt) w' /\ durable (msgs c) w' /\
    holds (k + Z.of_nat cnt - 1) c w' (connection n') /\ firstSeq c <= k.
Proof.
  intros G Hl Hg Hi Hold Hk Ht Hcnt Hb Hr. unfold apply_publish in Hr.
  destruct (h <$> seqZ k (Z.of_nat cnt)) as [|m ms] eqn:Em; [apply (f_equal length) in Em; rewrite length_fmap, length_seqZ in Em; cbn in Em; lia|].
  assert (m = h k) as -> by (rewrite seqZ_cons in Em by lia; by injection Em). destruct (h_seq k ltac:(lia)) as [Es _]. rewrite h_subject, Es, <- Em in Hr. clear Em.
  apply eff_bind_inv in Hr as (o & n1 & K1%or_fatal_inv & Hr). apply on_channels_inv in K1 as (s1 & E1 & Es1 & Ec1).
  pose proof (lookupOrCreateChannel_found unicode e clustered reads nm i (stan_at n) G Hi) as Hf. cbn zeta in Hf. rewrite E1 in Hf. cbn [fst snd] in Hf.
  destruct (channel_found i a k n s1 o G Hl Hg Hi ltac:(lia) Hold Hf) as (p & c & w & -> & Hp & Hc & Hnm & Hid & Hhad & Hh & Hfk).
  apply eff_bind_inv in Hr as ([] & n2 & K2%or_fatal_inv & Hr). apply eff_bind_inv in Hr as ([] & n3 & K3%or_fatal_inv & Hr).
  rewrite <- Es1 in Hp, Hc. pose proof Hh as [_ _ [Hw _] _ _]. rewrite <- Ec1 in Hh.
  destruct (check_inv a w k p c n1 n2 K2 Hc Hnm Hh ltac:(lia) Ht ltac:(lia)) as (c2 & ws & P2 & N2 & I2 & Lc2 & L2 & V2 & C2 & F2 & G2 & M2).
  destruct (store_all_inv w _ cnt k p c2 ws n2 n3 K3 P2 C2 ltac:(lia) ltac:(lia) V2) as (c3 & w3 & (P3 & N3 & W3 & E3) & V3 & (_ & Hres & Hl3) & S3 & Lw3).
  specialize (S3 ltac:(right; lia)). specialize (Hl3 S3).
  destruct (on_channel_inv _ _ _ _ _ _ Hr P3) as (x & Hm & P4 & N4 & W4). unfold Restore.on_store_msgs in Hm. cbn in Hm.
  destruct (view_Flush (msgs c3) w3 V3) as (ms' & Efl & V4 & D4). rewrite Efl in Hm. injection Hm as <-. cbn in P4, W4.
  assert (firstSeq c3 = firstSeq c2 /\ lSeqChecked c3 = true /\ id c3 = id c) as (F3 & Lc3 & I3) by (rewrite E3; by cbn; rewrite Lc2).
  exists p, (set_msgs ms' c3), w, w3. rewrite W4, W3. split_and!; [by rewrite N4, N3, N2|done|cbn; by rewrite I3|done|done|done| |cbn; lia].
  pose proof (view_last _ _ V3) as Hv3. split; [done|done|split; [done|lia]| |lia]. cbn. rewrite F3. split; [done|]. right. lia.
Qed.
End Node.
End FsmPublish.
