(* ===== verification/FsmCases.v ===== *)
(** * Nodes that apply a log: concrete runs

    Nodes with stores in memory, which implement what [FsmSpec] relies on. *)

From Stdlib Require Import ZArith Lia Ascii String.
From stdpp Require Import base list gmap strings.
From S2P Require Import Prelude Bytes GoLib Limits Effects Proto Spb MemStore MsgStore MsgRestore GenericStore ClientStore SubState Delivery SubStore ChannelStore ChannelStoreSpec PublishCases Connect RestoreMsgs RestoreSpec RestoreSys RestoreLive RestoreCases Fsm FsmSpec FsmAgree FsmPublish.

Local Open Scope Z_scope.

Module FsmSample.
Import Chan MemoryServer PublishSample RestoreSample RestoreSpec Fsm FsmSpec FsmAgree FsmPublish.
#[local] Existing Instances names_order ptr_order sample_store_spec sample_log sample_log_spec sample_stores_spec sample_raft sample_restore sample_restore_spec sample_wire sample_wire_spec insertion_sorter.
#[local] Instance Z_order : RangeOrder Z := default_order Z.

(** ** Stores *)

Definition memory_has (d : memory) (X : gset string) : Prop := dom (Generic.channels d) = X /\ MaxChannels (Generic.limits d) = 0.

#[local] Instance memory_works : StoresWork memory Mem.MemoryMsgStore memory_error.
Proof.
  refine {| has_channels := memory_has |}.
  - intros nm d X [<- Hm] Hn. apply not_elem_of_dom in Hn. cbn. unfold MemoryStore.CreateChannel, Generic.CreateChannel, Generic.canAddChannel. rewrite Hn, Hm. cbn.
    unfold Generic.getChannelLimits. destruct (Sublist.Match _ _) as [r sl]. eexists _, _. split; [reflexivity|]. split; [|done]. cbn. by rewrite dom_insert_L.
  - intros nm d X [<- Hm] [c Hc]%elem_of_dom. cbn. unfold Generic.DeleteChannel, Generic.deleteChannel. rewrite Hc. cbn.
    eexists. split; [reflexivity|]. split; [|done]. cbn. by rewrite dom_delete_L.
  - intros nm d X [<- Hm] [c Hc]%elem_of_dom. cbn. unfold Generic.GetChannelLimits. rewrite Hc. unfold Generic.getChannelLimits.
    destruct (Sublist.Match _ _) as [r sl]. eexists _, _. split; [reflexivity|]. done.
Defined.

#[local] Instance raft_works : RaftStoreWorks (gmap string Z) memory_error.
Proof. split; intros; by eexists. Qed.

(** ** Messages of the client library *)

(** Messages are sent by their sequence, requests by the identifier of the client. *)
Definition seq_codec : Proto.codec MsgProto :=
  Proto.mkCodec MsgProto (history 0) encode_seq (fun _ => 8) (fun _ d => Ok (history (get_le d))) (fun _ => True).

#[local] Instance sample_proto : StanProto := {|
  MsgProto_codec := seq_codec; SubscriptionRequest_codec := SpbSample.raw_codec; UnsubscribeRequest_codec := SpbSample.raw_codec;
  ConnectRequest_codec := SpbSample.raw_codec; CloseRequest_codec := SpbSample.raw_codec
|}.

#[local] Instance sample_fields : @StanFields sample_proto := {|
  msg_fields m := m;
  sub_fields d := Reg.mkSR (string_of_list_ascii d) "foo" "" "inbox" 1 30 "" Dlv.NewOnly;
  unsub_fields d := mkUnsub (string_of_list_ascii d) "foo" "inbox";
  connect_fields d := Conn.mkConnect (string_of_list_ascii d) "hb" "" 0 0 0;
  close_fields d := string_of_list_ascii d
|}.

(** ** Nodes *)

Abbreviation node := (@node Mem.MemoryMsgStore memory (gmap string Z) memory_error (@RestoreSys.net Mem.MemoryMsgStore memory (gmap string Z) memory_error)).

Definition node_env (leader : bool) : environment :=
  mkEnvironment (delivery_env true) leader (fun n => mkReading (100 + Z.of_nat (min n 1000)) (Z.of_nat n)) (fun _ => None) (fun _ => None) (fun _ s => (None, s)).

Definition unlimited : memory := Generic.mkGenericStore false (mkStoreLimits 0 (mkChannelLimits 0 0 0 0 10) ∅) Sublist.NewSublist ∅.

Definition new_node : node := mkNode (Conn.mkCServer (mkStan ∅ ∅ ∅ unlimited ∅ (Sub.mkServer ∅ ∅ ∅ ∅ false [] []) 0 []) newClientStore ∅ []) (connected leader_msgs).

Definition run (leader : bool) (log : list RaftOperation.t) : option node :=
  apply_all same (node_env leader) "cluster" (fun _ => None) (fun _ => None) (fun _ => 1) (fun _ => true) (RaftOperation.Marshal <$> log) new_node.

Definition op_publish (i : Z) (seqs : list Z) : RaftOperation.t := RaftOperation.mk RaftOperation_Publish (Some (Batch.mk (history <$> seqs))) None None None None None "" i.
Definition op_connect (k : string) : RaftOperation.t :=
  RaftOperation.mk RaftOperation_Connect None None None None (Some (AddClient.mk (Some (list_ascii_of_string k)) false)) None "" 0.
Definition op_subscribe (k : string) (i : Z) : RaftOperation.t :=
  RaftOperation.mk RaftOperation_Subscribe None (Some (AddSubscription.mk (Some (list_ascii_of_string k)) "ack" 1)) None None None None "" i.
Definition op_delete (nm : string) (i : Z) : RaftOperation.t := RaftOperation.mk RaftOperation_DeleteChannel None None None None None None nm i.
Definition op_acked (nm : string) : RaftOperation.t :=
  RaftOperation.mk RaftOperation_SendAndAck None None None (Some (SubSentAndAck.mk nm "ack" [1] [1])) None None "" 0.

(** Two versions of a channel, with an entry of the first one after the second. *)
Definition sample_ops : list RaftOperation.t :=
  [op_connect "me"; op_publish 3 [1]; op_subscribe "me" 3; op_publish 5 [1; 2]; op_publish 3 [2]; op_acked "foo"].
Definition sample_entries : list (list byte) := RaftOperation.Marshal <$> sample_ops.

Lemma new_node_ok : node_ok same new_node.
Proof. split; [|apply newClientStore_wf]. split; [by intros; cbn in *; simplify_map_eq..|]. by split. Qed.

(** Whether the entries of a log are as they should be can be decided. *)
Section Entries.
Context {F : @StanFields sample_proto}.

Definition entry_ok_b (x : gmap string Z * gmap string ClientInfo) (data : list byte) : bool :=
  match RaftOperation.Unmarshal RaftOperation.zero data with
  | Ok op =>
      let t := RaftOperation.OpType op in
      ((negb ((t =? RaftOperation_Publish) || (t =? RaftOperation_Subscribe))) || (0 <? RaftOperation.ChannelID op)) &&
      (negb (t =? RaftOperation_SendAndAck) || match RaftOperation.SubSentAck op with Some ssa => bool_decide (is_Some (x.1 !! Spb.SubSentAndAck.Channel ssa)) | None => true end)
  | _ => true
  end.
Fixpoint log_ok_b (log : list (list byte)) (x : gmap string Z * gmap string ClientInfo) : bool :=
  match log with [] => true | data :: log' => entry_ok_b x data && log_ok_b log' (spec_entry same x data) end.

Lemma log_ok_dec log x : log_ok_b log x = true -> log_ok same log x.
Proof.
  revert x. induction log as [|data log IH]; intros x; [done|]. cbn [log_ok_b log_ok]. intros [He Hl]%andb_prop. split; [|by apply IH].
  intros op Hop. unfold entry_ok_b in He. rewrite Hop in He. apply andb_prop in He as [H1 H2]. split.
  - intros Ht. apply Z.ltb_lt. by destruct Ht as [Ht|Ht]; rewrite Ht in H1.
  - intros Ht ssa Hs. rewrite Ht, Hs in H2. by apply bool_decide_eq_true in H2.
Qed.
End Entries.


(** A node whose channel has no messages yet applies an entry with message 5; the leader has
    messages 2 to 4. *)
Definition with_foo : memory := (MemoryStore.CreateChannel unlimited "foo").2.
Definition catching_up : node :=
  mkNode (Conn.mkCServer (mkStan {[0%nat := behind]} {["foo" := 0%nat]} {["foo" := 0%nat]} with_foo ∅ (Sub.mkServer ∅ ∅ ∅ ∅ false [] []) 0 []) newClientStore ∅ [])
    (connected leader_msgs).
Definition caught_up : outcome (fsm_error memory_error) unit * node :=
  apply_publish same (node_env false) "cluster" 7 (history <$> [5]) catching_up.

Lemma catching_up_ok : reg_ok same (Conn.stan_of (server catching_up)).
Proof.
  split; cbn.
  - intros nm p [<- <-]%lookup_singleton_Some. exists behind. split_and!; done.
  - intros l p [<- <-]%lookup_singleton_Some. exists "foo"%string. done.
  - split; [|done]. vm_compute. reflexivity.
Qed.

Lemma behind_holds : holds "cluster" "foo" encode_seq history 4 4 behind None (connected leader_msgs).
Proof. split; [apply connected_good|by split_and!|done| |done]. split; [vm_compute; done|by left]. Qed.

Lemma history_unmarshal k : 0 < k < two64 - 1 -> encode_seq (history k) <> [] /\ unmarshal (encode_seq (history k)) = Some (history k).
Proof. apply history_codec. Qed.

Lemma applied_without_gap_witness :
  caught_up.1 = Ok tt /\
  exists p c w w', channels (Conn.stan_of (server caught_up.2)) !! "foo" = Some p /\ chans (Conn.stan_of (server caught_up.2)) !! p = Some c /\ (id c = 0 \/ id c = 7) /\
    had "foo" catching_up 7 w /\ restored history w (gone (connection caught_up.2)) 6 w' /\ durable (msgs c) w' /\
    holds "cluster" "foo" encode_seq history 4 5 c w' (connection caught_up.2) /\ firstSeq c <= 5.
Proof.
  split; [vm_compute; reflexivity|].
  apply (applied_without_gap same (node_env false) "cluster" "foo" eq_refl (fun _ => eq_refl) encode_seq history 4 history_seq (fun _ => eq_refl) history_unmarshal 7 4 5 1 catching_up).
  - apply catching_up_ok.
  - apply connected_good.
  - vm_compute. done.
  - done.
  - intros p c [= <-] [= <-]. split; [done|]. intros _. exists None. split; [apply behind_holds|done].
  - done.
  - done.
  - lia.
  - done.
  - vm_compute. reflexivity.
Defined.

(** A run in which a channel comes back.  An entry with what a subscription was sent, behind the
    deletion of its channel in the log, makes the followers create the channel again,
    without an identifier, while the leader does not: they no longer agree. *)
Theorem late_acks_revive_channel :
  let log := [op_publish 3 [1]; op_delete "foo" 3; op_acked "foo"] in
  (fun n => ids (Conn.stan_of (server n))) <$> run true log = Some ∅ /\
  (fun n => ids (Conn.stan_of (server n))) <$> run false log = Some {["foo" := 0]}.
Proof. split; vm_compute; reflexivity. Qed.
End FsmSample.
