(* ===== verification/Snapshot.v ===== *)
(** * Snapshots of the state machine

    A node writes its clients, channels and subscriptions to a snapshot, so that the log
    can be compacted, and a node that is behind, or starts, restores them from one
    ([Persist] and [Restore] of src/server/snapshot.go, with [recoverOneSub] of
    src/server/server.go).  Messages are not part of a snapshot: a node gets those that it
    does not have from the leader. *)

From Stdlib Require Import ZArith Lia Ascii String.
From stdpp Require Import base list gmap strings.
From S2P Require Import Prelude Bytes GoLib Effects Proto Spb MemStore MsgStore MsgRestore ClientStore SubState SubStore Replication ChannelStore Connect RestoreMsgs Fsm.

Local Open Scope Z_scope.

Module Snap.
Import Sub Reg.

(** ** A subscription *)

Definition state_of (sub : subState) : Spb.SubState.t :=
  Spb.SubState.mk (ID sub) (ClientID sub) (QGroup sub) (Inbox sub) (AckInbox sub) (MaxInFlight sub) (AckWaitInSecs sub)
    (DurableName sub) (LastSent sub) (IsDurable sub) (IsClosed sub).

Definition set_position (v : Z) (s : Spb.SubState.t) : Spb.SubState.t :=
  Spb.SubState.mk (Spb.SubState.ID s) (Spb.SubState.ClientID s) (Spb.SubState.QGroup s) (Spb.SubState.Inbox s) (Spb.SubState.AckInbox s)
    (Spb.SubState.MaxInFlight s) (Spb.SubState.AckWaitInSecs s) (Spb.SubState.DurableName s) v (Spb.SubState.IsDurable s) (Spb.SubState.IsClosed s).

Section Subscriptions.
Context `{!RangeOrder Z} `{!RangeOrder string}.

(** The members of a group have the position of the group. *)
Definition snapshotASub (st : server) (sub : subState) : SubscriptionSnapshot.t :=
  let state := state_of sub in
  let pending := (range (acksPending sub)).*1 in
  let state := match q ← qstate sub; queues st !! q with
               | Some qs => if LastSent sub <? lastSent qs then set_position (lastSent qs) state else state
               | None => state
               end in
  SubscriptionSnapshot.mk (Some state) pending.

(** A list of subscriptions; [None] is a nil pointer. *)
Definition snapshot_list (st : server) (l : list ptr) : option (list SubscriptionSnapshot.t) :=
  mapM (fun p => snapshotASub st <$> subs st !! p) l.

(** The closed durables, which get the identifier of their client back while they are copied. *)
Fixpoint snapshot_durables (l : list (string * ptr)) (st : server) : option (list SubscriptionSnapshot.t * server) :=
  match l with
  | [] => Some ([], st)
  | (_, p) :: l' =>
      dur ← subs st !! p;
      if IsClosed dur then
        let s := snapshotASub st (set_ClientID (savedClientID dur) dur) in
        '(r, st) ← snapshot_durables l' (put_sub p (set_ClientID "" dur) st);
        Some (s :: r, st)
      else snapshot_durables l' st
  end.

(** The members of a group, and its shadow. *)
Definition snapshot_group (st : server) (q : ptr) : option (list SubscriptionSnapshot.t) :=
  qs ← queues st !! q;
  snapshot_list st (members qs ++ match shadow qs with Some p => [p] | None => [] end).

Definition snapshot_subs (x : state) : option (list SubscriptionSnapshot.t * server) :=
  let '(ss, st) := x in
  plain ← snapshot_list st (psubs ss);
  '(closed, st) ← snapshot_durables (range (durables ss)) st;
  grouped ← mapM (fun gq => snapshot_group st gq.2) (range (qsubs ss));
  Some (plain ++ closed ++ concat grouped, st).
End Subscriptions.

(** ** Recovering a subscription *)

(** The new object. *)
Definition recovered (nm : string) (recSub : Spb.SubState.t) (pendingAcksAsMap : gset Z) (pendingAcksAsArray : list Z) : subState :=
  let pending : gmap Z Z :=
    if (size pendingAcksAsMap =? 0)%nat then gset_to_gmap 0 (list_to_set pendingAcksAsArray) else gset_to_gmap 0 pendingAcksAsMap in
  let hold := (0 <? size pending)%nat in
  mkSub (Spb.SubState.ID recSub) (Spb.SubState.ClientID recSub) (Spb.SubState.QGroup recSub) (Spb.SubState.Inbox recSub) (Spb.SubState.AckInbox recSub)
    (Spb.SubState.MaxInFlight recSub) (Spb.SubState.AckWaitInSecs recSub) (Spb.SubState.DurableName recSub) (Spb.SubState.LastSent recSub)
    (Spb.SubState.IsDurable recSub) (Spb.SubState.IsClosed recSub) nm None (computeAckWait (Spb.SubState.AckWaitInSecs recSub)) None pending "" None ∅ false
    (hold && (Spb.SubState.MaxInFlight recSub <=? i32 (Z.of_nat (size pending)))) hold false.

(** An offline durable is in the map of durables only. *)
Definition processOfflineSub (p : ptr) (sub : subState) (x : state) : state :=
  (set_durables (<[durableKey sub := p]> (durables x.1)) x.1,
   put_sub p (set_ClientID "" (set_savedClientID (ClientID sub) sub)) x.2).

(** The result is the subscription, if it is an active one. *)
Definition recoverOneSub (e : env) (nm : string) (recSub : Spb.SubState.t) (pendingAcksAsMap : gset Z) (pendingAcksAsArray : list Z)
  (cl : clientStore) (x : state) : option ptr * clientStore * state :=
  let '(ss, st) := x in
  let sub := recovered nm recSub pendingAcksAsMap pendingAcksAsArray in
  let p := fresh (dom (subs st)) in
  let durableSub := isDurableSubscriber sub in
  let sub := if durableSub then set_IsDurable true sub else sub in
  let x := (ss, put_sub p sub st) in
  if durableSub && IsClosed sub then (None, cl, processOfflineSub p sub x)
  else
    let '(added, cl) := addSub cl (ClientID sub) p in
    if added || IsDurable sub then
      if negb added && isQueueDurableSubscriber sub && negb (isShadowQueueDurable sub) then
        (None, cl, (x.1, (try_persist e (DeleteSub (ID sub)) x.2).2))
      else if durableSub && negb added then (None, cl, processOfflineSub p sub x)
      else (if isShadowQueueDurable sub then None else Some p, cl, updateState p x)
    else (None, cl, x).

(** ** The node *)

Section Node.
Import Chan Fsm.
Context {S D R E N : Type} `{MsgStore S} `{!MsgLog S E} `{!MsgRestore S E} `{!Stores D S E} `{!RaftStore R E}.
Context `{!Restore.Wire N E} `{!RangeOrder Z} `{!RangeOrder string} `{!Sorter}.
Context `{StanFields}.
Context (unicode : list ascii -> list ascii) (e : @environment S D R E) (clusterID : string).

Abbreviation node := (@node S D R E N).
Abbreviation M := (eff node (fsm_error E)).

(** *** Taking a snapshot *)

Definition client_record (i : ClientStore.ClientInfo) : Spb.ClientInfo.t :=
  Spb.ClientInfo.mk (ClientStore.ID i) (HbInbox i) (list_ascii_of_string (ConnID i)) (Protocol i) (PingInterval i) (PingMaxOut i).

Definition snapshotClients : M (list Spb.ClientInfo.t) :=
  n ← get;
  let cl := Conn.clients_of (server n) in
  match mapM (fun kp => client_record ∘ info <$> heap cl !! kp.2) (range (clients cl)) with
  | Some l => mret l
  | None => panic
  end.

Definition snapshot_channel (p : ptr) : M ChannelSnapshot.t :=
  f ← on_channels (ask (SubsFlush_fails e));
  match f with
  | Some x => fail (FsmFlush x)
  | None =>
      _ ← on_channel p (Restore.on_store_msgs FlushMsgs);
      err ← on_channels (ask (LastSequence_fails e));
      c ← on_channels (chan_at p);
      match Restore.getChannelFirstAndlLastSeq (isClustered (sub_env e)) err c with
      | Ok (first, last) =>
          l ← on_subscriptions p (fun c cl x =>
                match snapshot_subs x with Some (l, st) => Ok (l, nextSubID c, cl, (x.1, st)) | None => Panic end);
          mret (ChannelSnapshot.mk (name c) first last l (nextSubID c) (id c))
      | Err x => fail (FsmChannel (StoreFailed x))
      | Panic => panic
      end
  end.

Fixpoint snapshot_each (l : list ptr) : M (list ChannelSnapshot.t) :=
  match l with
  | [] => mret []
  | p :: l' => s ← snapshot_channel p; r ← snapshot_each l'; mret (s :: r)
  end.

Definition snapshotChannels : M (list ChannelSnapshot.t) :=
  n ← get; snapshot_each (range (channels (Conn.stan_of (server n)))).*2.

(** The size of a snapshot is the timeout of those who restore it: it is at least 1800 bytes. *)
Definition padded (snap : RaftSnapshot.t) : list byte :=
  let b := RaftSnapshot.Marshal snap in
  if (length b <? 1800)%nat
  then RaftSnapshot.Marshal (RaftSnapshot.mk (RaftSnapshot.Clients snap) (RaftSnapshot.Channels snap) (repeat Ascii.zero (1800 - length b)%nat))
  else b.

(** [raft.SnapshotSink]: what was written, and how it ended; [sink_fails] are the errors of its
    calls. *)
Inductive sink_end := SinkClosed | SinkCancelled.
Record sink := mkSink { written : list byte; ended : sink_end }.

Definition write_snapshot (sink_fails : nat -> option E) (snap : RaftSnapshot.t) : option E * sink :=
  let b := padded snap in
  let sizeBuf := put_le 4 (u32 (Z.of_nat (length b))) in
  match sink_fails 0%nat with
  | Some x => (Some x, mkSink [] SinkCancelled)
  | None =>
      match sink_fails 1%nat with
      | Some x => (Some x, mkSink sizeBuf SinkCancelled)
      | None =>
          match sink_fails 2%nat with
          | Some x => (Some x, mkSink (sizeBuf ++ b) SinkCancelled)
          | None => (None, mkSink (sizeBuf ++ b) SinkClosed)
          end
      end
  end.

Definition take_snapshot : M RaftSnapshot.t :=
  cl ← snapshotClients; ch ← snapshotChannels; mret (RaftSnapshot.mk cl ch []).

Definition Persist (sink_fails : nat -> option E) (n : node) : outcome (fsm_error E) unit * sink * node :=
  let '(r, n) := take_snapshot n in
  match r with
  | Ok snap =>
      let '(err, k) := write_snapshot sink_fails snap in
      (match err with Some x => Err (FsmFlush x) | None => Ok tt end, k, n)
  | Err x => (Err x, mkSink [] SinkCancelled, n)
  | Panic => (Panic, mkSink [] SinkCancelled, n)
  end.

(** *** Restoring *)

Context (AddClient_fails DeleteClient_fails : nat -> option E).
(** [restoreMsgsAttempts], and [ProceedOnRestoreFailure] of the options. *)
Context (restoreMsgsAttempts : nat) (proceed : bool).

(** The subscriptions of a channel are removed; an error of the flush is ignored. *)
Definition drop_sub (p q : ptr) : M unit :=
  err ← on_subscriptions p (fun c cl x =>
          match subs x.2 !! q with
          | None => Panic
          | Some sub => let '(err, cl, x) := unsubscribeSub (sub_env e) (isStandaloneOrLeader e) (ClientID sub) q false cl x in Ok (err, nextSubID c, cl, x)
          end);
  match err with Some x => fail (FsmSub x) | None => mret tt end.

Definition drop_channel (p : ptr) : M unit :=
  c ← on_channels (chan_at p);
  n ← get;
  _ ← each (drop_sub p) (getAllSubs (ss c, subscriptions (Conn.stan_of (server n))));
  _ ← on_channels (ask (SubsFlush_fails e));
  mret tt.

Definition drop_client (k : string) : M unit :=
  err ← on_channels (ask DeleteClient_fails);
  n ← get;
  let '((_, err), cl) := unregister (Conn.clients_of (server n)) k err in
  _ ← modify (fun n => set_server (Conn.set_clients cl (server n)) n);
  match err with Some x => fail (FsmClient (Conn.ClientStoreFailed x)) | None => mret tt end.

(** [getClients]: by the identifiers in the clients. *)
Definition client_names (cl : clientStore) : gset string :=
  list_to_set (omap (fun kp => ClientStore.ID ∘ info <$> heap cl !! kp.2) (map_to_list (clients cl))).

Definition drop_state : M unit :=
  n ← get;
  _ ← each drop_channel (range (channels (Conn.stan_of (server n)))).*2;
  n ← get;
  each drop_client (order (client_names (Conn.clients_of (server n)))).

Definition client_of (i : Spb.ClientInfo.t) : ClientStore.ClientInfo :=
  mkClientInfo (Spb.ClientInfo.ID i) (Spb.ClientInfo.HbInbox i) (string_of_list_ascii (Spb.ClientInfo.ConnID i)) (Spb.ClientInfo.Protocol i)
    (Spb.ClientInfo.PingInterval i) (Spb.ClientInfo.PingMaxOut i).

Definition restoreClientsFromSnapshot (snap : RaftSnapshot.t) : M unit :=
  each (fun sc =>
    err ← on_channels (ask AddClient_fails);
    n ← get;
    let '(r, cl) := register (Conn.clients_of (server n)) (client_of sc) err in
    _ ← modify (fun n => set_server (Conn.set_clients cl (server n)) n);
    match r with
    | inl _ => mret tt
    | inr ErrInvalidClient => fail (FsmClient Conn.ErrDuplicateClient)
    | inr (ClientStoreError x) => fail (FsmClient (Conn.ClientStoreFailed x))
    end) (RaftSnapshot.Clients snap).

(** The messages of a channel, in a number of attempts. *)
Fixpoint restore_attempts (i : nat) (p : ptr) (first last : Z) : M bool :=
  match i with
  | O => mret false
  | Datatypes.S i' =>
      r ← catch (on_channel p (Restore.restoreMsgsFromSnapshot unmarshal clusterID (Z.to_nat last) first last false));
      match r with
      | inl _ => mret true
      | inr _ =>
          closing ← on_channel p (Restore.on_wire Restore.shutdownCh);
          if closing : bool then fail FsmShutdown else restore_attempts i' p first last
      end
  end.

Definition restore_sub (p : ptr) (s : SubscriptionSnapshot.t) : M unit :=
  recSub ← deref (SubscriptionSnapshot.State s);
  on_subscriptions p (fun c cl x =>
    let '(_, cl, x) := recoverOneSub (sub_env e) (name c) recSub ∅ (SubscriptionSnapshot.AcksPending s) cl x in
    Ok (tt, if nextSubID c <=? Spb.SubState.ID recSub then u64 (Spb.SubState.ID recSub + 1) else nextSubID c, cl, x)).

(** The messages and the subscriptions of a channel; the result is whether the sequence of its
    first message changed. *)
Definition fill_channel (p : ptr) (sc : ChannelSnapshot.t) : M bool :=
  let first := ChannelSnapshot.First sc in
  _ ← on_channels (update_chan p (Restore.set_firstSeq first));
  ok ← restore_attempts restoreMsgsAttempts p first (ChannelSnapshot.Last sc);
  if negb ok && negb proceed then fail (FsmAborted (ChannelSnapshot.Channel sc))
  else
    c ← on_channels (chan_at p);
    _ ← on_channels (update_chan p (set_lSeqChecked false));
    _ ← each (restore_sub p) (ChannelSnapshot.Subscriptions sc);
    _ ← on_channels (update_chan p (fun c => if nextSubID c <? ChannelSnapshot.NextSubID sc then set_nextSubID (ChannelSnapshot.NextSubID sc) c else c));
    mret (negb (firstSeq c =? first)).

(** A channel of the snapshot; a nil pointer is dereferenced when the one of the node is more
    recent.  The result is [None] when the channel is not restored. *)
Definition restore_channel (inNewRaftCall : bool) (sc : ChannelSnapshot.t) : M (option bool) :=
  o ← on_channels (if inNewRaftCall then lookupChannel (ChannelSnapshot.Channel sc) (ChannelSnapshot.ChannelID sc)
                   else Fsm.lookupOrCreateChannel unicode e (ChannelSnapshot.Channel sc) (ChannelSnapshot.ChannelID sc));
  match o with
  | None => if inNewRaftCall then mret None else panic
  | Some p => b ← fill_channel p sc; mret (Some b)
  end.

(** Whether a new snapshot should be taken, which the last channel decides. *)
Fixpoint restore_channels (inNewRaftCall : bool) (l : list ChannelSnapshot.t) (shouldSnapshot : bool) : M bool :=
  match l with
  | [] => mret shouldSnapshot
  | sc :: l' =>
      o ← restore_channel inNewRaftCall sc;
      restore_channels inNewRaftCall l' (match o with Some b => b | None => shouldSnapshot end)
  end.

Definition restoreChannelsFromSnapshot (snap : RaftSnapshot.t) (inNewRaftCall : bool) : M bool :=
  n ← get;
  let before := channels (Conn.stan_of (server n)) in
  b ← restore_channels inNewRaftCall (RaftSnapshot.Channels snap) false;
  let old := foldr (fun sc => delete (ChannelSnapshot.Channel sc)) before (RaftSnapshot.Channels snap) in
  _ ← when (negb inNewRaftCall) (each (fun nm => on_channels (processDeleteChannel unicode e nm)) (range old).*1);
  mret b.

(** [Restore], from the bytes of a snapshot; the result is whether to take a new snapshot. *)
Definition Restore (restoreFromInit : bool) (snapshot : list byte) : M bool :=
  _ ← drop_state;
  match snapshot with
  | [] => mret false
  | _ =>
      if (length snapshot <? 4)%nat then fail FsmRead
      else
        let size := Z.to_nat (get_le (take 4 snapshot)) in
        let buf := drop 4 snapshot in
        if (length buf <? size)%nat then fail FsmRead
        else match RaftSnapshot.Unmarshal RaftSnapshot.zero (take size buf) with
        | Ok snap => _ ← restoreClientsFromSnapshot snap; restoreChannelsFromSnapshot snap restoreFromInit
        | Err x => fail (FsmUnmarshal x)
        | Panic => panic
        end
  end.
End Node.
End Snap.
