(* ===== verification/SnapshotSpec.v ===== *)
(** * What a snapshot keeps of the subscriptions of a channel

    The subscriptions of a channel, up to the objects that represent them ([view]), and
    their list in a snapshot ([listed]): the channel that the list is taken from and the
    channel that is recovered from it look the same.  The objects that [recoverOneSub]
    makes of the list, one after the other, are those of the list ([SnapRecover]). *)

From Stdlib Require Import ZArith Lia Ascii String.
From stdpp Require Import base list gmap strings.
From S2P Require Import Prelude Bytes GoLib ClientStore SubState SubStore Spb FsmAgree Snapshot.

Local Open Scope Z_scope.

Module SnapSpec.
Import Sub Reg Snap.

(** ** What the clients of a channel see *)

(** A subscription as a snapshot has it, with its pending messages. *)
Definition sview : Type := Spb.SubState.t * gset Z.

Definition snap_state (st : server) (sub : subState) : Spb.SubState.t :=
  match q ← qstate sub; queues st !! q with
  | Some qs => if LastSent sub <? lastSent qs then set_position (lastSent qs) (state_of sub) else state_of sub
  | None => state_of sub
  end.
Definition view_sub (st : server) (sub : subState) : sview := (snap_state st sub, dom (acksPending sub)).
Definition view_at (st : server) (p : ptr) : option sview := view_sub st <$> subs st !! p.

(** A durable, with whether it is offline; the identifier of its client is part of its key. *)
Definition durable_view (st : server) (sub : subState) : bool * sview :=
  (String.eqb (ClientID sub) "", view_sub st (if IsClosed sub then set_ClientID (savedClientID sub) sub else sub)).
Definition durable_at (st : server) (p : ptr) : option (bool * sview) := durable_view st <$> subs st !! p.

(** A group: its position, its members in order, and its shadow. *)
Definition group_at (st : server) (q : ptr) : option (Z * list sview * option sview) :=
  (fun qs => (lastSent qs, omap (view_at st) (members qs), shadow qs ≫= view_at st)) <$> queues st !! q.

Record view := mkView {
  v_plain : list sview;
  v_durables : gmap string (bool * sview);
  v_groups : gmap string (Z * list sview * option sview);
  v_acks : gmap string sview;
  v_inboxes : gmap string sview
}.
Definition view_of (x : state) : view :=
  let '(ss, st) := x in
  mkView (omap (view_at st) (psubs ss)) (omap (durable_at st) (durables ss)) (omap (group_at st) (qsubs ss)) (omap (view_at st) (acks ss)) (omap (view_at st) (inboxes ss)).

(** ** Subscriptions in a list *)

Definition item : Type := Spb.SubState.t * list Z.
Definition to_snap (i : item) : SubscriptionSnapshot.t := SubscriptionSnapshot.mk (Some i.1) i.2.
Definition of_item (i : item) : sview := (i.1, list_to_set i.2).

Inductive kind := Plain | Closed | Member (g : string) | Shadow (g : string).
#[export] Instance kind_eq_dec : EqDecision kind.
Proof. solve_decision. Defined.

Definition kind_of (s : Spb.SubState.t) : kind :=
  if String.eqb (Spb.SubState.QGroup s) "" then
    if negb (String.eqb (Spb.SubState.DurableName s) "") && Spb.SubState.IsClosed s then Closed else Plain
  else if String.eqb (Spb.SubState.ClientID s) "" then Shadow (Spb.SubState.QGroup s) else Member (Spb.SubState.QGroup s).

Definition key_of (nm : string) (s : Spb.SubState.t) : string := durable_key (Spb.SubState.ClientID s) nm (Spb.SubState.DurableName s).
Definition is_active (k : kind) : Prop := match k with Plain | Member _ => True | _ => False end.
Definition is_durable (s : Spb.SubState.t) : Prop := Spb.SubState.QGroup s = "" /\ Spb.SubState.DurableName s <> "".

(** The object at [p] is the one of the item. *)
Definition entry (nm : string) (x : state) (p : ptr) (i : item) : Prop :=
  exists sub, subs x.2 !! p = Some sub /\ dom (acksPending sub) = list_to_set i.2 /\ subject sub = nm /\
  match kind_of i.1 with
  | Plain => state_of sub = i.1 /\ qstate sub = None /\ ClientID sub <> "" /\ IsClosed sub = false
  | Closed => state_of (set_ClientID (savedClientID sub) sub) = i.1 /\ qstate sub = None /\ ClientID sub = ""
  | Member g | Shadow g => exists q qs, qstate sub = Some q /\ qsubs x.1 !! g = Some q /\ queues x.2 !! q = Some qs /\
      LastSent sub <= lastSent qs /\ set_position (lastSent qs) (state_of sub) = i.1
  end.

Definition pick (k : kind) (l : list (ptr * item)) : list (ptr * item) := filter (fun pi => kind_of pi.2.1 = k) l.

(** The channel has the subscriptions of the list and no others. *)
Record listed (nm : string) (l : list (ptr * item)) (x : state) : Prop := {
  li_entry p i : (p, i) ∈ l -> entry nm x p i;
  li_plain : psubs x.1 = (pick Plain l).*1;
  li_durable k p : durables x.1 !! k = Some p <-> exists i, (p, i) ∈ l /\ is_durable i.1 /\ key_of nm i.1 = k;
  li_acks k p : acks x.1 !! k = Some p <-> exists i, (p, i) ∈ l /\ is_active (kind_of i.1) /\ Spb.SubState.AckInbox i.1 = k;
  li_inboxes k p : inboxes x.1 !! k = Some p <-> exists i, (p, i) ∈ l /\ is_active (kind_of i.1) /\ Spb.SubState.Inbox i.1 = k;
  li_group g q : qsubs x.1 !! g = Some q -> exists qs, queues x.2 !! q = Some qs /\ members qs = (pick (Member g) l).*1 /\
    shadow qs = fst <$> head (pick (Shadow g) l) /\ g <> "" /\ exists p i, (p, i) ∈ l /\ (kind_of i.1 = Member g \/ kind_of i.1 = Shadow g)
}.

Lemma set_position_id s : set_position (Spb.SubState.LastSent s) s = s.
Proof. by destruct s. Qed.

(** The view of an entry is that of the item. *)
Lemma entry_view nm x p i : entry nm x p i -> kind_of i.1 <> Closed -> view_at x.2 p = Some (of_item i).
Proof.
  intros (sub & Hs & Hd & _ & Hk) Hc. unfold view_at, view_sub. rewrite Hs. cbn. rewrite Hd. f_equal. unfold of_item. f_equal. unfold snap_state.
  destruct (kind_of i.1); [by destruct Hk as (? & -> & _)|done|..]; destruct Hk as (q & qs & Hq & _ & Hqs & Hle & <-); rewrite Hq; cbn; rewrite Hqs;
    (destruct (Z.ltb_spec (LastSent sub) (lastSent qs)); [done|]; replace (lastSent qs) with (LastSent sub) by lia; symmetry; apply (set_position_id (state_of sub))).
Qed.

Lemma durable_kind s : is_durable s -> kind_of s = if Spb.SubState.IsClosed s then Closed else Plain.
Proof. unfold kind_of. intros [-> Hn]. cbn. rewrite (proj2 (String.eqb_neq _ _) Hn). by destruct (Spb.SubState.IsClosed s). Qed.

Lemma entry_durable nm x p i : entry nm x p i -> is_durable i.1 -> durable_at x.2 p = Some (Spb.SubState.IsClosed i.1, of_item i).
Proof.
  intros He Hi. pose proof (durable_kind _ Hi) as Hk. destruct He as (sub & Hs & Hd & _ & Hm). unfold durable_at, durable_view. rewrite Hs. cbn. f_equal.
  rewrite Hk in Hm. unfold of_item. destruct (Spb.SubState.IsClosed i.1) eqn:Hcl.
  - destruct Hm as (Hst & Hq & ->). assert (IsClosed sub = true) as -> by (by rewrite <- Hst in Hcl).
    unfold view_sub, snap_state. cbn [qstate set_ClientID acksPending]. rewrite Hq. cbn. by rewrite Hst, Hd.
  - destruct Hm as (Hst & Hq & Hcn & ->). rewrite (proj2 (String.eqb_neq _ _) Hcn). unfold view_sub, snap_state. rewrite Hq. cbn. by rewrite Hst, Hd.
Qed.

(** ** The same list *)

Section Same.
Context (nm : string) (l l' : list (ptr * item)) (same : l.*2 = l'.*2).

Lemma same_pick k : (pick k l).*2 = (pick k l').*2.
Proof.
  revert l' same. induction l as [|[p i] l1 IH]; intros [|[p' i'] l2] Hs; [done..|]. injection Hs as <- Hs. unfold pick. rewrite !filter_cons. cbn.
  destruct (decide _); cbn; [f_equal|]; by apply IH.
Qed.

Lemma same_in p i : (p, i) ∈ l -> exists p', (p', i) ∈ l'.
Proof.
  intros Hi. assert (i ∈ l'.*2) as ([p' i'] & -> & Hi')%list_elem_of_fmap; [rewrite <- same; apply list_elem_of_fmap; by exists (p, i)|]. by exists p'.
Qed.
End Same.

Lemma pick_view nm l x k : listed nm l x -> k <> Closed -> omap (view_at x.2) (pick k l).*1 = of_item <$> (pick k l).*2.
Proof.
  intros Hl Hk. assert (forall p i, (p, i) ∈ pick k l -> view_at x.2 p = Some (of_item i)) as Hv.
  { intros p i [Hi Hin]%list_elem_of_filter. cbn in Hi. eapply entry_view; [by apply (li_entry _ _ _ Hl)|congruence]. }
  induction (pick k l) as [|[p i] l1 IH]; [done|]. cbn. rewrite (Hv p i) by left. f_equal. apply IH. intros. apply Hv. by right.
Qed.

(** Maps whose entries correspond have the same views. *)
Lemma same_map {V : Type} nm l l' x x' (Q : Spb.SubState.t -> Prop) (key : Spb.SubState.t -> string) (m m' : gmap string ptr)
  (f f' : ptr -> option V) (g : item -> V) :
  listed nm l x -> listed nm l' x' -> l.*2 = l'.*2 ->
  (forall k p, m !! k = Some p <-> exists i, (p, i) ∈ l /\ Q i.1 /\ key i.1 = k) ->
  (forall k p, m' !! k = Some p <-> exists i, (p, i) ∈ l' /\ Q i.1 /\ key i.1 = k) ->
  (forall p i, (p, i) ∈ l -> Q i.1 -> f p = Some (g i)) -> (forall p i, (p, i) ∈ l' -> Q i.1 -> f' p = Some (g i)) ->
  omap f m = omap f' m'.
Proof.
  intros Hl Hl' Hs Hm Hm' Hf Hf'. apply map_eq. intros k. rewrite !lookup_omap. destruct (m !! k) as [p|] eqn:Hp.
  - apply Hm in Hp as (i & Hi & HQ & Hk). destruct (same_in _ _ Hs _ _ Hi) as [p' Hi']. assert (m' !! k = Some p') as -> by (apply Hm'; by exists i).
    cbn. by rewrite (Hf p i), (Hf' p' i).
  - destruct (m' !! k) as [p'|] eqn:Hp'; [|done]. apply Hm' in Hp' as (i & Hi & HQ & Hk). destruct (same_in _ _ (eq_sym Hs) _ _ Hi) as [p Hi'].
    assert (m !! k = Some p) by (apply Hm; by exists i). congruence.
Qed.

Lemma group_member nm l x p i g : listed nm l x -> (p, i) ∈ l -> kind_of i.1 = Member g \/ kind_of i.1 = Shadow g ->
  exists q qs, qsubs x.1 !! g = Some q /\ queues x.2 !! q = Some qs /\ lastSent qs = Spb.SubState.LastSent i.1.
Proof.
  intros Hl Hi Hk. destruct (li_entry _ _ _ Hl _ _ Hi) as (sub & _ & _ & _ & Hm).
  destruct Hk as [Hk|Hk]; rewrite Hk in Hm; destruct Hm as (q & qs & _ & Hq & Hqs & _ & <-); by exists q, qs.
Qed.

Lemma head_fst {A B : Type} (l : list (A * B)) : (fst <$> head l) = head l.*1.
Proof. by destruct l. Qed.

Lemma same_group nm l l' x x' g q :
  listed nm l x -> listed nm l' x' -> l.*2 = l'.*2 -> qsubs x.1 !! g = Some q ->
  exists q', qsubs x'.1 !! g = Some q' /\ group_at x.2 q = group_at x'.2 q'.
Proof.
  intros Hl Hl' Hs Hq. destruct (li_group _ _ _ Hl _ _ Hq) as (qs & Hqs & Hm & Hsh & _ & p & i & Hi & Hk).
  destruct (same_in _ _ Hs _ _ Hi) as [p' Hi']. destruct (group_member _ _ _ _ _ _ Hl' Hi' Hk) as (q' & qs' & Hq' & Hqs' & Hla').
  destruct (group_member _ _ _ _ _ _ Hl Hi Hk) as (q1 & qs1 & Hq1 & Hqs1 & Hla). simplify_eq.
  destruct (li_group _ _ _ Hl' _ _ Hq') as (qs1 & Hqs1' & Hm' & Hsh' & _). simplify_eq. exists q'. split; [done|]. unfold group_at. rewrite Hqs, Hqs'. cbn. f_equal.
  f_equal; [f_equal|]; [congruence|by rewrite Hm, Hm', !(pick_view nm) by done; rewrite (same_pick l l')|].
  rewrite Hsh, Hsh'. pose proof (pick_view nm l x (Shadow g) Hl ltac:(done)) as E1. pose proof (pick_view nm l' x' (Shadow g) Hl' ltac:(done)) as E2.
  pose proof (same_pick l l' Hs (Shadow g)) as E3. destruct (pick (Shadow g) l) as [|[p1 i1] r1] eqn:P1, (pick (Shadow g) l') as [|[p2 i2] r2] eqn:P2; [done..|].
  injection E3 as <- _. assert (forall nm l x p i r, listed nm l x -> pick (Shadow g) l = (p, i) :: r -> view_at x.2 p = Some (of_item i)) as Hv.
  { intros nm0 l0 x0 p0 i0 r0 Hl0 Hp0. assert ((p0, i0) ∈ pick (Shadow g) l0) as [Hk0 Hin]%list_elem_of_filter by (rewrite Hp0; left).
    cbn in Hk0. eapply entry_view; [by apply (li_entry _ _ _ Hl0)|congruence]. }
  cbn. by rewrite (Hv _ _ _ _ _ _ Hl P1), (Hv _ _ _ _ _ _ Hl' P2).
Qed.

(** Channels with the same list look the same. *)
Lemma listed_view nm l l' x x' : listed nm l x -> listed nm l' x' -> l.*2 = l'.*2 -> view_of x = view_of x'.
Proof.
  intros Hl Hl' Hs. destruct x as [ss st], x' as [ss' st']. unfold view_of. f_equal.
  - pose proof (li_plain _ _ _ Hl) as E1. pose proof (li_plain _ _ _ Hl') as E2. cbn in E1, E2. rewrite E1, E2.
    rewrite (pick_view nm l (ss, st)), (pick_view nm l' (ss', st')) by done. by rewrite (same_pick l l').
  - eapply (same_map nm l l' _ _ is_durable (key_of nm) _ _ _ _ (fun i => (Spb.SubState.IsClosed i.1, of_item i)) Hl Hl' Hs (li_durable _ _ _ Hl) (li_durable _ _ _ Hl')).
    + intros p i Hi. by apply (entry_durable nm (ss, st)), (li_entry _ _ _ Hl).
    + intros p i Hi. by apply (entry_durable nm (ss', st')), (li_entry _ _ _ Hl').
  - apply map_eq. intros g. rewrite !lookup_omap. destruct (qsubs ss !! g) as [q|] eqn:Hq.
    + destruct (same_group nm l l' (ss, st) (ss', st') g q Hl Hl' Hs Hq) as (q' & Hq' & Hg). cbn in Hq', Hg |- *. by rewrite Hq'.
    + destruct (qsubs ss' !! g) as [q'|] eqn:Hq'; [|done]. destruct (same_group nm l' l (ss', st') (ss, st) g q' Hl' Hl (eq_sym Hs) Hq') as (q & Hq2 & _). cbn in Hq2. congruence.
  - eapply (same_map nm l l' _ _ (fun s => is_active (kind_of s)) Spb.SubState.AckInbox _ _ _ _ of_item Hl Hl' Hs (li_acks _ _ _ Hl) (li_acks _ _ _ Hl')).
    + intros p i Hi Ha. eapply (entry_view nm (ss, st)); [by apply (li_entry _ _ _ Hl)|by intros Hc; rewrite Hc in Ha].
    + intros p i Hi Ha. eapply (entry_view nm (ss', st')); [by apply (li_entry _ _ _ Hl')|by intros Hc; rewrite Hc in Ha].
  - eapply (same_map nm l l' _ _ (fun s => is_active (kind_of s)) Spb.SubState.Inbox _ _ _ _ of_item Hl Hl' Hs (li_inboxes _ _ _ Hl) (li_inboxes _ _ _ Hl')).
    + intros p i Hi Ha. eapply (entry_view nm (ss, st)); [by apply (li_entry _ _ _ Hl)|by intros Hc; rewrite Hc in Ha].
    + intros p i Hi Ha. eapply (entry_view nm (ss', st')); [by apply (li_entry _ _ _ Hl')|by intros Hc; rewrite Hc in Ha].
Qed.
End SnapSpec.

Module SnapRecover.
Import Sub Reg Snap SnapSpec.
#[local] Existing Instance FsmAgree.same_infos_preorder.

(** A client is registered. *)
Definition registered (cl : clientStore) (k : string) : Prop := is_Some (FsmAgree.infos cl !! k).

Lemma addSub_registered cl k p : (addSub cl k p).1 = bool_decide (registered cl k).
Proof.
  unfold addSub, registered, FsmAgree.infos. rewrite lookup_omap. destruct (clients cl !! k) as [q|]; [|done]. cbn. by destruct (heap cl !! q).
Qed.

(** What a snapshot has of a subscription. *)
Definition item_ok (cl : clientStore) (s : Spb.SubState.t) : Prop :=
  0 <= Spb.SubState.LastSent s /\
  match kind_of s with
  | Plain => Spb.SubState.ClientID s <> "" /\ registered cl (Spb.SubState.ClientID s) /\ Spb.SubState.IsClosed s = false /\
      (Spb.SubState.DurableName s <> "" -> Spb.SubState.IsDurable s = true)
  | Closed => Spb.SubState.IsDurable s = true
  | Member _ => registered cl (Spb.SubState.ClientID s) /\ Spb.SubState.DurableName s = ""
  | Shadow _ => Spb.SubState.DurableName s = "" /\ Spb.SubState.IsDurable s = true
  end.

Definition in_group (g : string) (s : Spb.SubState.t) : Prop := kind_of s = Member g \/ kind_of s = Shadow g.

(** A subscription that has nothing in common with those of the list. *)
Record fits (nm : string) (l : list item) (s : Spb.SubState.t) : Prop := {
  fit_durable i : i ∈ l -> is_durable s -> is_durable i.1 -> key_of nm i.1 <> key_of nm s;
  fit_active i : i ∈ l -> is_active (kind_of s) -> is_active (kind_of i.1) ->
    Spb.SubState.AckInbox i.1 <> Spb.SubState.AckInbox s /\ Spb.SubState.Inbox i.1 <> Spb.SubState.Inbox s;
  fit_group i g : i ∈ l -> in_group g s -> in_group g i.1 -> Spb.SubState.LastSent i.1 = Spb.SubState.LastSent s;
  fit_shadow i g : i ∈ l -> kind_of s = Shadow g -> kind_of i.1 <> Shadow g
}.

(** ** One object more *)

Lemma entry_mono nm (x x' : state) p i :
  entry nm x p i -> subs x'.2 !! p = subs x.2 !! p ->
  (forall g q qs, in_group g i.1 -> qsubs x.1 !! g = Some q -> queues x.2 !! q = Some qs ->
     qsubs x'.1 !! g = Some q /\ exists qs', queues x'.2 !! q = Some qs' /\ lastSent qs' = lastSent qs) ->
  entry nm x' p i.
Proof.
  intros (sub & Hs & Hd & Hn & Hk) Es Hg. exists sub. rewrite Es. split_and!; [done..|]. unfold in_group in Hg.
  destruct (kind_of i.1) as [| |g|g] eqn:Ek; [done..| |]; destruct Hk as (q & qs & Hq & Hgq & Hqs & Hle & Hst);
    (destruct (Hg g q qs ltac:(auto) Hgq Hqs) as (Hgq' & qs' & Hqs' & El); exists q, qs'; rewrite El; by split_and!).
Qed.

Lemma entry_dom nm x p i : entry nm x p i -> p ∈ dom (subs x.2).
Proof. intros (sub & Hs & _). apply elem_of_dom. by eexists. Qed.

(** Objects of a list lie before those that are new. *)
Lemma listed_fresh nm l x p i : listed nm l x -> (p, i) ∈ l -> p <> fresh (dom (subs x.2)).
Proof. intros Hl Hi ->. apply (li_entry _ _ _ Hl), entry_dom in Hi. by apply is_fresh in Hi. Qed.

Lemma pick_snoc k l p i : (pick k (l ++ [(p, i)])).*1 = (pick k l).*1 ++ (if decide (kind_of i.1 = k) then [p] else []).
Proof. unfold pick. rewrite filter_app, fmap_app, filter_cons. cbn. by destruct (decide _). Qed.

Lemma group_entry nm l x p i g q :
  listed nm l x -> (p, i) ∈ l -> in_group g i.1 -> qsubs x.1 !! g = Some q -> exists sub, subs x.2 !! p = Some sub /\ qstate sub = Some q /\ QGroup sub = g.
Proof.
  intros Hl Hi Hg Hq. destruct (li_entry _ _ _ Hl _ _ Hi) as (sub & Hs & _ & _ & Hm). exists sub.
  assert (Spb.SubState.QGroup i.1 = g) as Eg.
  { unfold in_group, kind_of in Hg. destruct (String.eqb _ ""); [by destruct (_ && _), Hg|]. by destruct (String.eqb _ ""), Hg; simplify_eq. }
  destruct Hg as [Hg|Hg]; rewrite Hg in Hm; destruct Hm as (q' & qs & Hq' & Hgq & _ & _ & Hst); simplify_eq; (split_and!; [done..|]); by rewrite <- Hst.
Qed.

(** Different groups are different objects. *)
Lemma listed_inj nm l x g g' q : listed nm l x -> qsubs x.1 !! g = Some q -> qsubs x.1 !! g' = Some q -> g = g'.
Proof.
  intros Hl Hg Hg'. destruct (li_group _ _ _ Hl _ _ Hg) as (qs & Hqs & Hm & Hs & _ & p & i & Hi & Hk).
  destruct (li_group _ _ _ Hl _ _ Hg') as (qs' & Hqs' & Hm' & Hs' & _). simplify_eq.
  assert (exists p i', (p, i') ∈ l /\ in_group g i'.1 /\ exists i2, (p, i2) ∈ l /\ in_group g' i2.1) as (p0 & i0 & H0 & Hk0 & i2 & H2 & Hk2).
  { destruct Hk as [Hk|Hk].
    - assert (p ∈ (pick (Member g) l).*1) as Hp by (apply list_elem_of_fmap; exists (p, i); split; [done|by apply list_elem_of_filter]).
      rewrite <- Hm, Hm' in Hp. apply list_elem_of_fmap in Hp as ([p2 i2] & -> & [Hk2 H2]%list_elem_of_filter). exists p2, i. split_and!; [done|by left|]. exists i2. split; [done|by left].
    - assert ((p, i) ∈ pick (Shadow g) l) as Hp by by apply list_elem_of_filter. rewrite Hs in Hs'.
      destruct (pick (Shadow g) l) as [|[p1 i1] r1] eqn:E1; [by apply not_elem_of_nil in Hp|]. destruct (pick (Shadow g') l) as [|[p2 i2] r2] eqn:E2; [done|].
      injection Hs' as <-. assert ((p1, i1) ∈ pick (Shadow g) l) as [K1 M1]%list_elem_of_filter by (rewrite E1; left).
      assert ((p1, i2) ∈ pick (Shadow g') l) as [K2 M2]%list_elem_of_filter by (rewrite E2; left).
      exists p1, i1. split_and!; [done|by right|]. exists i2. split; [done|by right]. }
  destruct (group_entry _ _ _ _ _ _ _ Hl H0 Hk0 Hg) as (sub & Hs1 & _ & <-). destruct (group_entry _ _ _ _ _ _ _ Hl H2 Hk2 Hg') as (sub' & Hs2 & _ & <-). by simplify_eq.
Qed.

(** A map of the registry, with or without the new object. *)
Lemma map_snoc (m : gmap string ptr) (l : list (ptr * item)) (Q : Spb.SubState.t -> Prop) (key : Spb.SubState.t -> string) p i (m' : gmap string ptr) :
  (forall k p, m !! k = Some p <-> exists i, (p, i) ∈ l /\ Q i.1 /\ key i.1 = k) ->
  (Q i.1 -> m' = <[key i.1 := p]> m) -> (~ Q i.1 -> m' = m) -> Decision (Q i.1) -> (forall j, j ∈ l.*2 -> Q i.1 -> Q j.1 -> key j.1 <> key i.1) ->
  forall k p', m' !! k = Some p' <-> exists j, (p', j) ∈ l ++ [(p, i)] /\ Q j.1 /\ key j.1 = k.
Proof.
  intros Hm Hy Hn [HQ|HQ] Hf k p'.
  - rewrite (Hy HQ), lookup_insert_Some, Hm. split.
    + intros [[<- <-]|[Hne (j & Hj & HQj & Hk)]]; [exists i|exists j]; (split; [|done]); apply elem_of_app; [right; left|by left].
    + intros (j & [Hj|[= -> ->]%list_elem_of_singleton]%elem_of_app & HQj & <-); [right|by left]. split; [|by exists j].
      intros Hk. eapply (Hf j); [apply list_elem_of_fmap; by exists (p', j)|done..].
  - rewrite (Hn HQ), Hm. split; intros (j & Hj & HQj & Hk); exists j; (split; [|done]); [apply elem_of_app; by left|].
    apply elem_of_app in Hj as [Hj|[= -> ->]%list_elem_of_singleton]; done.
Qed.

(** The maps of the registry after an object has been added. *)
Record added (nm : string) (p : ptr) (s : Spb.SubState.t) (ss ss' : subStore) : Prop := {
  ad_psubs : psubs ss' = psubs ss ++ (if decide (kind_of s = Plain) then [p] else []);
  ad_durables : (is_durable s -> durables ss' = <[key_of nm s := p]> (durables ss)) /\ (~ is_durable s -> durables ss' = durables ss);
  ad_active : is_active (kind_of s) -> acks ss' = <[Spb.SubState.AckInbox s := p]> (acks ss) /\ inboxes ss' = <[Spb.SubState.Inbox s := p]> (inboxes ss);
  ad_passive : ~ is_active (kind_of s) -> acks ss' = acks ss /\ inboxes ss' = inboxes ss
}.

#[export] Instance is_durable_dec s : Decision (is_durable s).
Proof. unfold is_durable. apply _. Defined.
#[export] Instance is_active_dec k : Decision (is_active k).
Proof. destruct k; cbn; apply _. Defined.

(** Adding an object to the list, given what becomes of the groups. *)
Lemma listed_snoc nm l (x x' : state) p i :
  listed nm l x -> fits nm l.*2 i.1 -> added nm p i.1 x.1 x'.1 ->
  (forall p' i', (p', i') ∈ l -> entry nm x' p' i') -> entry nm x' p i ->
  (forall g q, qsubs x'.1 !! g = Some q -> exists qs, queues x'.2 !! q = Some qs /\ members qs = (pick (Member g) (l ++ [(p, i)])).*1 /\
     shadow qs = fst <$> head (pick (Shadow g) (l ++ [(p, i)])) /\ g <> "" /\ exists p' i', (p', i') ∈ l ++ [(p, i)] /\ in_group g i'.1) ->
  listed nm (l ++ [(p, i)]) x'.
Proof.
  intros Hl Hf [A1 [A2 A3] A4 A5] Ho Hn Hg. split; [..|exact Hg].
  - intros p' i' [Hi|[= -> ->]%list_elem_of_singleton]%elem_of_app; [by apply Ho|done].
  - rewrite A1, (li_plain _ _ _ Hl), pick_snoc. done.
  - apply (map_snoc (durables x.1)); [apply (li_durable _ _ _ Hl)|done|done|apply _|]. intros j Hj. by apply (fit_durable _ _ _ Hf).
  - apply (map_snoc (acks x.1) l (fun s => is_active (kind_of s))); [apply (li_acks _ _ _ Hl)|by intros ?; apply A4|by intros ?; apply A5|apply _|].
    intros j Hj ? ?. by apply (fit_active _ _ _ Hf).
  - apply (map_snoc (inboxes x.1) l (fun s => is_active (kind_of s))); [apply (li_inboxes _ _ _ Hl)|by intros ?; apply A4|by intros ?; apply A5|apply _|].
    intros j Hj ? ?. by apply (fit_active _ _ _ Hf).
Qed.

(** ** One subscription *)

Section One.
Context (e : env) (nm : string) (s : Spb.SubState.t) (a : list Z).

Abbreviation sub := (recovered nm s ∅ a).

Lemma recovered_fields :
  state_of sub = s /\ dom (acksPending sub) = list_to_set a /\ subject sub = nm /\ qstate sub = None.
Proof. split_and!; [by destruct s| |done|done]. apply (dom_gset_to_gmap (list_to_set a) 0). Qed.

Lemma group_kind : Spb.SubState.QGroup s <> "" -> in_group (Spb.SubState.QGroup s) s.
Proof. intros Hg. unfold in_group, kind_of. rewrite (proj2 (String.eqb_neq _ _) Hg). destruct (String.eqb _ ""); auto. Qed.
Lemma kind_group g : in_group g s -> g = Spb.SubState.QGroup s /\ g <> "".
Proof.
  unfold in_group, kind_of. destruct (String.eqb_spec (Spb.SubState.QGroup s) ""); [by destruct (_ && _); intros []|].
  destruct (String.eqb _ ""); intros []; by simplify_eq.
Qed.

Lemma recover_run cl ss st :
  item_ok cl s -> ~ registered cl "" ->
  let p := fresh (dom (subs st)) in
  exists o cl', FsmAgree.same_infos cl cl' /\
    recoverOneSub e nm s ∅ a cl (ss, st) =
      (o, cl', (if decide (kind_of s = Closed) then processOfflineSub p sub else updateState p) (ss, put_sub p sub st)).
Proof.
  intros [_ Hok] Hno p. unfold recoverOneSub.
  assert ((if isDurableSubscriber sub then set_IsDurable true sub else sub) = sub) as ->.
  { unfold isDurableSubscriber. destruct (String.eqb_spec (DurableName sub) "") as [|Hd]; [done|]. cbn in Hd. assert (Spb.SubState.IsDurable s = true) as Hi.
    { destruct (kind_of s); [by apply Hok|done|by destruct Hok|by destruct Hok]. }
    unfold set_IsDurable, recovered. cbn. by rewrite Hi. }
  assert (isDurableSubscriber sub && IsClosed sub = bool_decide (kind_of s = Closed)) as ->.
  { unfold isDurableSubscriber, kind_of in *. cbn in *. destruct (String.eqb_spec (Spb.SubState.QGroup s) "") as [Hq|Hq].
    - by destruct (_ && _).
    - destruct (String.eqb (Spb.SubState.ClientID s) ""); [destruct Hok as [-> _]|destruct Hok as [_ ->]]; done. }
  case_bool_decide as Hc; [rewrite decide_True by done; by exists None, cl|]. rewrite decide_False by done.
  pose proof (addSub_registered cl (ClientID sub) p) as Ha. pose proof (FsmAgree.addSub_infos cl (ClientID sub) p) as Hi.
  change (fresh (dom (subs st))) with p. destruct (addSub cl (ClientID sub) p) as [added cl']. cbn [fst snd] in Ha, Hi. subst added.
  assert (registered cl (ClientID sub) \/ isShadowQueueDurable sub = true /\ isDurableSubscriber sub = false) as [Hr|[Hs Hd]].
  { unfold isShadowQueueDurable, isDurableSubscriber, kind_of in *. cbn in *. destruct (String.eqb_spec (Spb.SubState.QGroup s) "") as [Hq|Hq].
    - destruct (_ && _); [done|]. left. by apply Hok.
    - destruct (String.eqb (Spb.SubState.ClientID s) ""); [right; by destruct Hok as [-> ->]|left; apply Hok]. }
  - rewrite bool_decide_true by done. cbn [orb negb andb]. rewrite andb_false_r. by eexists _, cl'.
  - assert (ClientID sub = "") as Hn by (unfold isShadowQueueDurable in Hs; apply andb_prop in Hs as [_ Hs]; by apply String.eqb_eq in Hs).
    rewrite bool_decide_false by (by rewrite Hn). assert (IsDurable sub = true) as Hd' by (unfold isShadowQueueDurable in Hs; by destruct (IsDurable sub)).
    rewrite Hd', Hs, Hd. cbn [orb negb andb]. rewrite andb_false_r. by eexists _, cl'.
Qed.
End One.

(** Objects that were there before the channel was restored are left alone. *)
Record above (st0 : server) (x : state) : Prop := {
  ab_subs p sub : subs st0 !! p = Some sub -> subs x.2 !! p = Some sub;
  ab_queues q qs : queues st0 !! q = Some qs -> queues x.2 !! q = Some qs;
  ab_groups g q : qsubs x.1 !! g = Some q -> queues st0 !! q = None
}.

Section Step.
Context (e : env) (nm : string) (l : list (ptr * item)) (s : Spb.SubState.t) (a : list Z) (ss : subStore) (st st0 : server).
Context (Hl : listed nm l (ss, st)) (Hf : fits nm l.*2 s) (Hab : above st0 (ss, st)).

Abbreviation sub := (recovered nm s ∅ a).
Abbreviation p := (fresh (dom (subs st))).

Lemma fresh_sub : subs st !! p = None.
Proof. apply not_elem_of_dom, is_fresh. Qed.

Lemma above_sub (ss' : subStore) (st' : server) :
  (forall q, q <> p -> subs st' !! q = subs st !! q) -> (forall q qs, queues st0 !! q = Some qs -> queues st' !! q = Some qs) ->
  (forall g q, qsubs ss' !! g = Some q -> queues st0 !! q = None) -> above st0 (ss', st').
Proof.
  intros Hs Hq Hg. split; [|done..]. intros p' sub' H'. cbn. pose proof (ab_subs _ _ Hab _ _ H') as H2. cbn in H2. rewrite Hs; [done|]. intros ->. by rewrite fresh_sub in H2.
Qed.

(** A subscription that is in no group. *)
Lemma alone_step (ss' : subStore) (st' : server) :
  (forall g, ~ in_group g s) -> added nm p s ss ss' -> qsubs ss' = qsubs ss -> queues st' = queues st ->
  (forall q, q <> p -> subs st' !! q = subs st !! q) -> entry nm (ss', st') p (s, a) ->
  listed nm (l ++ [(p, (s, a))]) (ss', st') /\ above st0 (ss', st').
Proof.
  intros Hk Ha Eq Es Hs He. split.
  - apply (listed_snoc nm l (ss, st)); [done..| |done|].
    + intros p' i' Hi. eapply entry_mono; [by apply (li_entry _ _ _ Hl)| |].
      * apply Hs. by apply (listed_fresh _ _ _ _ _ Hl Hi).
      * cbn. rewrite Eq, Es. intros g q qs _ Hg Hq. split; [done|by exists qs].
    + cbn [fst snd]. rewrite Eq, Es. intros g q Hq. destruct (li_group _ _ _ Hl _ _ Hq) as (qs & Hqs & Hm & Hsh & Hg & p1 & i1 & Hi1 & Hk1). exists qs.
      assert (kind_of s <> Member g /\ kind_of s <> Shadow g) as [K1 K2] by (split; intros ?; apply (Hk g); [by left|by right]).
      unfold pick in *. rewrite !filter_app, !fmap_app. rewrite !(filter_cons_False _ (p, (s, a))), !filter_nil, !app_nil_r by done. split_and!; [done..|].
      exists p1, i1. split; [apply elem_of_app; by left|done].
  - apply above_sub; [done|rewrite Es; apply (ab_queues _ _ Hab)|rewrite Eq; apply (ab_groups _ _ Hab)].
Qed.

(** The object of a group once the subscription is in it; [q] is new if the group is. *)
Definition joined (g : string) (q : ptr) (qs' : queueState) : Prop :=
  match qsubs ss !! g with
  | Some q0 => q0 = q /\ exists qs, queues st !! q = Some qs /\ lastSent qs' = lastSent qs /\
      members qs' = members qs ++ (if decide (kind_of s = Member g) then [p] else []) /\ shadow qs' = (if decide (kind_of s = Shadow g) then Some p else shadow qs)
  | None => queues st !! q = None /\ members qs' = (if decide (kind_of s = Member g) then [p] else []) /\ shadow qs' = (if decide (kind_of s = Shadow g) then Some p else None)
  end.

Lemma joined_fields g q qs' :
  joined g q qs' ->
  members qs' = (pick (Member g) l).*1 ++ (if decide (kind_of s = Member g) then [p] else []) /\
  shadow qs' = (if decide (kind_of s = Shadow g) then Some p else fst <$> head (pick (Shadow g) l)).
Proof.
  unfold joined. intros Hg. destruct (qsubs ss !! g) as [q0|] eqn:Hq0.
  - destruct Hg as (-> & qs & Hqs & _ & -> & ->). destruct (li_group _ _ _ Hl _ _ Hq0) as (qs1 & Hqs1 & Hm & Hsh & _). cbn in Hqs1. simplify_eq. by rewrite Hm, Hsh.
  - destruct Hg as (_ & -> & ->). assert (forall k, k = Member g \/ k = Shadow g -> pick k l = []) as Hp; [|by rewrite !Hp by auto].
    intros k Hk'. destruct (pick k l) as [|[p1 i1] r] eqn:E1; [done|]. assert ((p1, i1) ∈ pick k l) as [K1 M1]%list_elem_of_filter by (rewrite E1; left).
    cbn in K1. destruct (group_member nm l (ss, st) p1 i1 g Hl M1) as (q1 & _ & Hq1 & _); [by destruct Hk'; [left|right]; subst|]. cbn in Hq1. congruence.
Qed.

(** A member of a group, or its shadow. *)
Lemma group_step (ss' : subStore) (st' : server) g q (qs' : queueState) :
  in_group g s -> added nm p s ss ss' -> qsubs ss' = <[g := q]> (qsubs ss) -> queues st' = <[q := qs']> (queues st) ->
  (forall q, q <> p -> subs st' !! q = subs st !! q) -> entry nm (ss', st') p (s, a) ->
  joined g q qs' ->
  listed nm (l ++ [(p, (s, a))]) (ss', st') /\ above st0 (ss', st').
Proof.
  intros Hk Ha Eq Es Hs He Hg. pose proof Hg as Hg0. unfold joined in Hg.
  assert (forall g' q', g' <> g -> qsubs ss !! g' = Some q' -> q' <> q) as Hne.
  { intros g' q' Hn Hq' ->. destruct (qsubs ss !! g) as [q0|] eqn:Hq0.
    - destruct Hg as [-> _]. apply Hn. by apply (listed_inj nm l (ss, st) _ _ _ Hl Hq').
    - destruct (li_group _ _ _ Hl _ _ Hq') as (qs & Hqs & _). cbn in Hqs. destruct Hg as [Hg _]. congruence. }
  assert (forall q1 qs1, qsubs ss !! g = Some q1 -> queues st !! q1 = Some qs1 -> q1 = q /\ lastSent qs' = lastSent qs1) as Hold.
  { intros q1 qs1 Hq1 Hqs1. rewrite Hq1 in Hg. destruct Hg as (-> & qs & Hqs & El & _). split; congruence. }
  destruct (joined_fields g q qs' Hg0) as [Em Eh].
  split.
  - apply (listed_snoc nm l (ss, st)); [done..| |done|].
    + intros p' i' Hi. eapply entry_mono; [by apply (li_entry _ _ _ Hl)| |].
      * apply Hs. by apply (listed_fresh _ _ _ _ _ Hl Hi).
      * cbn. rewrite Eq, Es. intros g' q' qs _ Hg' Hq'. destruct (decide (g' = g)) as [->|Hn].
        -- destruct (Hold _ _ Hg' Hq') as [-> El]. rewrite !lookup_insert_eq. split; [done|]. by exists qs'.
        -- rewrite !lookup_insert_ne by (done || by apply not_eq_sym, (Hne g')). split; [done|]. by exists qs.
    + cbn [fst snd]. rewrite Eq, Es. intros g' q' [[<- <-]|[Hn Hq']]%lookup_insert_Some.
      * exists qs'. rewrite lookup_insert_eq, pick_snoc. split_and!; [done|done| |by apply (kind_group s)|exists p, (s, a); split; [apply elem_of_app; right; left|done]].
        rewrite Eh, (head_fst (pick (Shadow g) (l ++ _))), pick_snoc. cbn [fst]. destruct (decide (kind_of s = Shadow g)) as [Hsh|_]; [|by rewrite app_nil_r, head_fst].
        destruct (pick (Shadow g) l) as [|[p1 i1] r] eqn:E1; [done|]. assert ((p1, i1) ∈ pick (Shadow g) l) as [K1 M1]%list_elem_of_filter by (rewrite E1; left).
        exfalso. eapply (fit_shadow _ _ _ Hf i1 g); [apply list_elem_of_fmap; by exists (p1, i1)|done..].
      * destruct (li_group _ _ _ Hl _ _ Hq') as (qs & Hqs & Hm & Hsh & Hg' & p1 & i1 & Hi1 & Hk1). exists qs. rewrite lookup_insert_ne by (by apply not_eq_sym, (Hne g')).
        assert (kind_of s <> Member g' /\ kind_of s <> Shadow g') as [K1 K2] by (split; intros E1; apply Hn; destruct Hk; congruence).
        unfold pick in *. rewrite !filter_app, !fmap_app. rewrite !(filter_cons_False _ (p, (s, a))), !filter_nil, !app_nil_r by done. split_and!; [done..|].
        exists p1, i1. split; [apply elem_of_app; by left|done].
  - assert (queues st0 !! q = None) as Hq0.
    { destruct (qsubs ss !! g) as [q0|] eqn:Hq0; [destruct Hg as [-> _]; by apply (ab_groups _ _ Hab g)|].
      destruct (queues st0 !! q) as [qs0|] eqn:E0; [|done]. apply (ab_queues _ _ Hab) in E0. destruct Hg as [Hg _]. cbn in E0. congruence. }
    apply above_sub; [done|..].
    + rewrite Es. intros q1 qs1 H1. rewrite lookup_insert_ne by congruence. by apply (ab_queues _ _ Hab).
    + rewrite Eq. intros g1 q1 [[<- <-]|[_ H1]]%lookup_insert_Some; [done|by apply (ab_groups _ _ Hab g1)].
Qed.

Lemma plain_added : isQueueSubscriber sub = false -> kind_of s = Plain ->
  added nm p s ss (let ss1 := set_psubs (psubs ss ++ [p]) (add_lookups p sub ss) in
                   if isDurableSubscriber sub then set_durables (<[durableKey sub := p]> (durables ss1)) ss1 else ss1).
Proof.
  intros Hq Hk. unfold isQueueSubscriber, isDurableSubscriber, is_durable in *. cbn in Hq. apply negb_false_iff, String.eqb_eq in Hq.
  destruct (String.eqb_spec (DurableName sub) "") as [Hd|Hd]; cbn in Hd |- *; split; rewrite ?Hk; cbn; try done; unfold is_durable.
  - split; [by intros [_ ?]|done].
  - split; [done|]. intros Hn. by contradict Hn.
Qed.

Lemma offline_added : kind_of s = Closed -> is_durable s -> added nm p s ss (set_durables (<[durableKey sub := p]> (durables ss)) ss).
Proof. intros Hk Hd. split; rewrite ?Hk; cbn; [by rewrite app_nil_r|by split|done|done]. Qed.

Lemma member_added g (ss' : subStore) :
  in_group g s -> (psubs ss', durables ss') = (psubs ss, durables ss) ->
  (acks ss', inboxes ss') = (if String.eqb (Spb.SubState.ClientID s) "" then (acks ss, inboxes ss) else (<[Spb.SubState.AckInbox s := p]> (acks ss), <[Spb.SubState.Inbox s := p]> (inboxes ss))) ->
  added nm p s ss ss'.
Proof.
  intros Hg [= E1 E2] E3. destruct (kind_group s g Hg) as [Eg Hne].
  assert (kind_of s = if String.eqb (Spb.SubState.ClientID s) "" then Shadow g else Member g) as Hk by (unfold kind_of; by rewrite (proj2 (String.eqb_neq _ "")), Eg by congruence).
  assert (~ is_durable s) as Hd by (intros [? _]; congruence).
  destruct (String.eqb (Spb.SubState.ClientID s) ""); injection E3 as E3 E4; split; rewrite ?Hk; cbn; try done; by rewrite app_nil_r.
Qed.

(** What [updateState] makes of the group. *)
Lemma join_joined g q (qs : queueState) :
  in_group g s -> 0 <= Spb.SubState.LastSent s ->
  match qsubs ss !! g with Some q0 => q0 = q /\ queues st !! q = Some qs | None => queues st !! q = None /\ qs = mkQueue 0 [] ∅ None 0 false end ->
  joined g q (join_group p sub qs) /\ lastSent (join_group p sub qs) = Spb.SubState.LastSent s.
Proof.
  intros Hg H0 Hq.
  assert (lastSent qs <= Spb.SubState.LastSent s /\ (qsubs ss !! g = None \/ lastSent qs = Spb.SubState.LastSent s) /\ (kind_of s = Shadow g -> shadow qs = None)) as (Hle & Hls & Hsh).
  { destruct (qsubs ss !! g) as [q0|] eqn:Hq0; [|destruct Hq as [_ ->]; by auto]. destruct Hq as [-> Hqs].
    destruct (li_group _ _ _ Hl _ _ Hq0) as (qs1 & Hqs1 & _ & Hs1 & _ & p1 & i1 & Hi1 & Hk1). cbn in Hqs1. simplify_eq.
    destruct (group_member nm l (ss, st) p1 i1 g Hl Hi1 Hk1) as (q2 & qs2 & Hq2 & Hqs2 & El). cbn in *. simplify_eq. rewrite El.
    rewrite (fit_group _ _ _ Hf i1 g) by (done || (apply list_elem_of_fmap; by exists (p1, i1))). split_and!; [lia|by right|]. intros Hk. rewrite Hs1.
    destruct (pick (Shadow g) l) as [|[p2 i2] r] eqn:E1; [done|]. assert ((p2, i2) ∈ pick (Shadow g) l) as [K2 M2]%list_elem_of_filter by (rewrite E1; left).
    exfalso. eapply (fit_shadow _ _ _ Hf i2 g); [apply list_elem_of_fmap; by exists (p2, i2)|done..]. }
  assert (lastSent (join_group p sub qs) = Spb.SubState.LastSent s /\
          members (join_group p sub qs) = members qs ++ (if decide (kind_of s = Member g) then [p] else []) /\
          shadow (join_group p sub qs) = (if decide (kind_of s = Shadow g) then Some p else shadow qs)) as (J1 & J2 & J3).
  { destruct (kind_group s g Hg) as [Eg Hne]. unfold in_group in Hg. unfold join_group. cbn [ClientID recovered LastSent].
    unfold kind_of in Hg, Hsh |- *. rewrite (proj2 (String.eqb_neq (Spb.SubState.QGroup s) "")) in * by congruence.
    destruct (String.eqb (Spb.SubState.ClientID s) "").
    - assert (Shadow (Spb.SubState.QGroup s) = Shadow g) as Ek by (by rewrite Eg). rewrite (Hsh Ek), bool_decide_true by done. cbn [orb].
      rewrite (decide_False (P := Shadow _ = Member g)), (decide_True (P := Shadow _ = Shadow g)), app_nil_r by done. cbn. destruct (Z.ltb_spec (lastSent qs) (Spb.SubState.LastSent s)); cbn; split_and!; (done || lia).
    - rewrite (decide_True (P := Member _ = Member g)), (decide_False (P := Member _ = Shadow g)) by (done || by rewrite Eg).
      destruct (newOnHold sub), (stalled sub); cbn; (destruct (Z.ltb_spec (lastSent qs) (Spb.SubState.LastSent s)); cbn; split_and!; (done || lia)). }
  split; [|done]. unfold joined. destruct (qsubs ss !! g) as [q0|].
  - destruct Hq as [-> Hqs]. split; [done|]. exists qs. split_and!; [done| |done..]. destruct Hls as [?|Hls]; [done|]. congruence.
  - destruct Hq as [Hq ->]. by split_and!.
Qed.

Lemma closed_durable : kind_of s = Closed -> is_durable s.
Proof.
  unfold kind_of, is_durable. destruct (String.eqb_spec (Spb.SubState.QGroup s) ""); [|by destruct (String.eqb _ "")].
  destruct (String.eqb_spec (Spb.SubState.DurableName s) ""); [done|]. by destruct (Spb.SubState.IsClosed s).
Qed.

Lemma queue_kind : isQueueSubscriber sub = false -> forall g, ~ in_group g s.
Proof. intros Hq g [-> Hn]%kind_group. unfold isQueueSubscriber in Hq. by apply negb_false_iff, String.eqb_eq in Hq. Qed.

Lemma offline_step : kind_of s = Closed ->
  let x' := processOfflineSub p sub (ss, put_sub p sub st) in listed nm (l ++ [(p, (s, a))]) x' /\ above st0 x'.
Proof.
  intros Hk. cbn. pose proof (closed_durable Hk) as Hd. apply alone_step; [|by apply offline_added|done|done| |].
  - intros g [Hg|Hg]; congruence.
  - intros q Hq. cbn. by rewrite !lookup_insert_ne.
  - eexists. cbn [snd subs put_sub set_subs]. rewrite lookup_insert_eq. split; [done|]. cbn [fst snd]. rewrite Hk. destruct (recovered_fields nm s a) as (_ & Ed & _). by destruct s.
Qed.

Lemma plain_step cl : item_ok cl s -> kind_of s = Plain ->
  let x' := updateState p (ss, put_sub p sub st) in listed nm (l ++ [(p, (s, a))]) x' /\ above st0 x'.
Proof.
  intros Hok Hk. cbn zeta. unfold updateState. cbn [snd subs put_sub set_subs fst]. rewrite lookup_insert_eq.
  assert (isQueueSubscriber sub = false) as Hq.
  { unfold isQueueSubscriber. apply negb_false_iff. cbn. unfold kind_of in Hk. destruct (String.eqb _ ""); [done|]. by destruct (String.eqb _ ""). }
  rewrite Hq. apply alone_step; [by apply queue_kind|by apply plain_added|by destruct (isDurableSubscriber sub)|done| |].
  - intros q Hq'. cbn. by rewrite lookup_insert_ne.
  - eexists. cbn [snd subs put_sub set_subs]. rewrite lookup_insert_eq. split; [done|]. cbn [fst snd]. rewrite Hk. destruct (recovered_fields nm s a) as (Es & Ed & _).
    destruct Hok as [_ Hok]. rewrite Hk in Hok. split_and!; [done|done|done|done|apply Hok|apply Hok].
Qed.

Lemma member_step cl g : item_ok cl s -> in_group g s ->
  let x' := updateState p (ss, put_sub p sub st) in listed nm (l ++ [(p, (s, a))]) x' /\ above st0 x'.
Proof.
  intros [H0 _] Hg. destruct (kind_group s g Hg) as [Eg Hne]. cbn zeta. unfold updateState. cbn [snd subs put_sub set_subs fst]. rewrite lookup_insert_eq.
  assert (isQueueSubscriber sub = true) as -> by (unfold isQueueSubscriber; cbn; by rewrite (proj2 (String.eqb_neq _ _)) by congruence).
  change (QGroup sub) with (Spb.SubState.QGroup s). rewrite <- Eg.
  assert (exists q ss1 st1 qs, group_of g (ss, put_sub p sub st) = (q, (ss1, st1)) /\ queues st1 !! q = Some qs /\ qsubs ss1 = <[g := q]> (qsubs ss) /\
    (forall qs', <[q := qs']> (queues st1) = <[q := qs']> (queues st)) /\ subs st1 = <[p := sub]> (subs st) /\
    (psubs ss1, durables ss1, acks ss1, inboxes ss1) = (psubs ss, durables ss, acks ss, inboxes ss) /\
    match qsubs ss !! g with Some q0 => q0 = q /\ queues st !! q = Some qs | None => queues st !! q = None /\ qs = mkQueue 0 [] ∅ None 0 false end)
    as (q & ss1 & st1 & qs & Eo & Hqs & Eq & Ei & Es & [= P1 P2 P3 P4] & Hm).
  { unfold group_of. destruct (qsubs ss !! g) as [q0|] eqn:Hq0.
    - destruct (li_group _ _ _ Hl _ _ Hq0) as (qs & Hqs & _). cbn in Hqs. exists q0, ss, (put_sub p sub st), qs. split_and!; try done. by rewrite insert_id.
    - assert (queues st !! fresh (dom (queues st)) = None) by apply not_elem_of_dom, is_fresh. eexists _, _, _, _. split; [reflexivity|].
      cbn. rewrite lookup_insert_eq. split_and!; try done. intros qs'. by rewrite insert_insert_eq. }
  rewrite Eo. cbn [fst snd]. rewrite Hqs. destruct (join_joined g q qs Hg H0 Hm) as [Hj El]. set (qs' := join_group p sub qs) in *.
  apply (group_step _ _ g q qs' Hg); [|by destruct (String.eqb (ClientID sub) "")|cbn; apply Ei| | |exact Hj].
  - apply (member_added g); [done|by destruct (String.eqb (ClientID sub) ""); cbn; rewrite P1, P2|].
    change (ClientID sub) with (Spb.SubState.ClientID s). destruct (String.eqb (Spb.SubState.ClientID s) ""); cbn; by rewrite P3, P4.
  - intros q1 Hq1. cbn. by rewrite lookup_insert_ne, Es, lookup_insert_ne.
  - exists (set_qstate (Some q) sub). cbn [snd subs put_sub set_subs]. rewrite lookup_insert_eq. destruct (recovered_fields nm s a) as (E1 & E2 & _).
    split_and!; [done|done|done|]. cbn [fst].
    assert (exists q0 qs0, qstate (set_qstate (Some q) sub) = Some q0 /\ qsubs (if String.eqb (ClientID sub) "" then ss1 else add_lookups p sub ss1) !! g = Some q0 /\
      queues (put_sub p (set_qstate (Some q) sub) (put_queue q qs' st1)) !! q0 = Some qs0 /\ LastSent (set_qstate (Some q) sub) <= lastSent qs0 /\
      set_position (lastSent qs0) (state_of (set_qstate (Some q) sub)) = s) as Hent.
    { exists q, qs'. split_and!; [done|by destruct (String.eqb _ _); cbn; rewrite Eq, lookup_insert_eq|cbn; by rewrite lookup_insert_eq|rewrite El; cbn; lia|].
      rewrite El. change (state_of (set_qstate (Some q) sub)) with (state_of sub). rewrite E1. apply set_position_id. }
    by destruct Hg as [-> | ->].
Qed.

Lemma recover_listed cl : item_ok cl s -> ~ registered cl "" ->
  exists o cl' x', recoverOneSub e nm s ∅ a cl (ss, st) = (o, cl', x') /\ FsmAgree.same_infos cl cl' /\ listed nm (l ++ [(p, (s, a))]) x' /\ above st0 x'.
Proof.
  intros Hok Hno. destruct (recover_run e nm s a cl ss st Hok Hno) as (o & cl' & Hi & ->). eexists o, cl', _. split; [done|]. split; [done|].
  destruct (decide (kind_of s = Closed)) as [Hc|Hc]; [by apply offline_step|]. destruct (kind_of s) as [| |g|g] eqn:Hk; [by eapply plain_step|done|..].
  - eapply (member_step cl g); [done|by left].
  - eapply (member_step cl g); [done|by right].
Qed.
End Step.

(** ** All of them *)

Fixpoint recover_all (e : env) (nm : string) (l : list item) (cl : clientStore) (x : state) : clientStore * state :=
  match l with
  | [] => (cl, x)
  | i :: l' => let '(_, cl, x) := recoverOneSub e nm i.1 ∅ i.2 cl x in recover_all e nm l' cl x
  end.

(** Every subscription fits those before it. *)
Definition all_fit (nm : string) (l : list item) : Prop := forall l1 i l2, l = l1 ++ i :: l2 -> fits nm l1 i.1.

Lemma same_infos_registered cl cl' k : wf cl -> FsmAgree.same_infos cl cl' -> registered cl' k <-> registered cl k.
Proof. intros Hw Hi. unfold registered. by destruct (Hi Hw) as [_ ->]. Qed.
Lemma same_infos_item cl cl' s : wf cl -> FsmAgree.same_infos cl cl' -> item_ok cl s -> item_ok cl' s.
Proof. intros Hw Hi. unfold item_ok. destruct (kind_of s); rewrite ?(same_infos_registered cl cl') by done; done. Qed.

Lemma recover_all_listed e nm st0 l2 : forall l1 cl x,
  wf cl -> ~ registered cl "" -> listed nm l1 x -> above st0 x -> all_fit nm (l1.*2 ++ l2) -> (forall i, i ∈ l2 -> item_ok cl i.1) ->
  exists l cl' x', recover_all e nm l2 cl x = (cl', x') /\ FsmAgree.same_infos cl cl' /\ listed nm l x' /\ above st0 x' /\ l.*2 = l1.*2 ++ l2.
Proof.
  induction l2 as [|[s a] l2 IH]; intros l1 cl [ss st] Hw Hno Hl Hab Hfit Hok.
  { exists l1, cl, (ss, st). by rewrite app_nil_r. }
  cbn [recover_all fst snd]. assert (fits nm l1.*2 s) as Hf by (by eapply (Hfit l1.*2 (s, a))).
  destruct (recover_listed e nm l1 s a ss st st0 Hl Hf Hab cl) as (o & cl1 & x1 & -> & Hi & Hl1 & Ha1); [apply (Hok (s, a)); left|done|].
  destruct (Hi Hw) as [Hw1 _]. destruct (IH (l1 ++ [(fresh (dom (subs st)), (s, a))]) cl1 x1) as (l & cl' & x' & E1 & Hi' & Hl' & Ha' & El); [done|..|done|done| | |].
  - by rewrite same_infos_registered.
  - rewrite fmap_app, <- app_assoc. done.
  - intros i Hin. eapply same_infos_item; [exact Hw|done|]. apply Hok. by right.
  - exists l, cl', x'. split_and!; [done|by etrans|done|done|]. by rewrite El, fmap_app, <- app_assoc.
Qed.

Lemma empty_listed nm st : listed nm [] (createSubStore, st).
Proof. split; cbn; try done; [intros p i Hi; by apply not_elem_of_nil in Hi|..]; intros k p; (split; [done|]); intros (i & Hi & _); by apply not_elem_of_nil in Hi. Qed.
Lemma empty_above st : above st (createSubStore, st).
Proof. by split. Qed.
End SnapRecover.
