(* ===== verification/SnapshotTake.v ===== *)
(** * The subscriptions of a channel in a snapshot

    When the maps of a channel and the subscriptions that they lead to are consistent
    ([subs_ok]), the list that [snapshotChannels] writes for the channel is that of its
    subscriptions.  A snapshot has the clients of the node, its channels and these lists;
    the bytes that are written are at least as many as the timeout of those who restore it
    needs, and the snapshot is read from them ([SnapPersist]). *)

From Stdlib Require Import ZArith Lia Ascii String.
From stdpp Require Import base list gmap strings.
From S2P Require Import Prelude Bytes GoLib Channels MemStore MsgStore ClientStore SubState SubStore Proto ProtoSpec Spb MsgRestore Effects ChannelStore ChannelStoreSpec Connect RestoreMsgs Fsm FsmSpec FsmAgree Snapshot SnapshotSpec.

Local Open Scope Z_scope.

Module SnapTake.
Import Sub Reg Snap SnapSpec SnapRecover.

(** ** Consistent subscriptions *)

(** The client has the subscription. *)
Definition client_has (cl : clientStore) (k : string) (p : ptr) : Prop :=
  exists q c, clients cl !! k = Some q /\ heap cl !! q = Some c /\ p ∈ csubs c.

Record online (nm : string) (cl : clientStore) (ss : subStore) (p : ptr) (sub : subState) : Prop := {
  on_client : ClientID sub <> "";
  on_open : IsClosed sub = false;
  on_subject : subject sub = nm;
  on_position : 0 <= LastSent sub;
  on_ack : acks ss !! AckInbox sub = Some p;
  on_inbox : inboxes ss !! Inbox sub = Some p;
  on_registered : client_has cl (ClientID sub) p
}.

Definition plain_ok (nm : string) (cl : clientStore) (ss : subStore) (p : ptr) (sub : subState) : Prop :=
  online nm cl ss p sub /\ QGroup sub = "" /\ qstate sub = None /\
  (DurableName sub <> "" -> IsDurable sub = true /\ durables ss !! durableKey sub = Some p).

Definition closed_ok (nm k : string) (sub : subState) : Prop :=
  QGroup sub = "" /\ qstate sub = None /\ DurableName sub <> "" /\ IsDurable sub = true /\ IsClosed sub = true /\ ClientID sub = "" /\ subject sub = nm /\
  0 <= LastSent sub /\ durable_key (savedClientID sub) nm (DurableName sub) = k.

Definition grouped (g : string) (q : ptr) (qs : queueState) (sub : subState) : Prop :=
  QGroup sub = g /\ DurableName sub = "" /\ qstate sub = Some q /\ LastSent sub <= lastSent qs.

Definition member_ok (nm : string) (cl : clientStore) (ss : subStore) (g : string) (q : ptr) (qs : queueState) (p : ptr) (sub : subState) : Prop :=
  online nm cl ss p sub /\ grouped g q qs sub.
Definition shadow_ok (nm g : string) (q : ptr) (qs : queueState) (sub : subState) : Prop :=
  ClientID sub = "" /\ IsDurable sub = true /\ subject sub = nm /\ 0 <= LastSent sub /\ grouped g q qs sub.

(** Subscribers that get messages. *)
Definition running (x : state) (p : ptr) : Prop :=
  p ∈ psubs x.1 \/ exists g q qs, qsubs x.1 !! g = Some q /\ queues x.2 !! q = Some qs /\ p ∈ members qs.

Record subs_ok (nm : string) (cl : clientStore) (x : state) : Prop := {
  so_psubs : NoDup (psubs x.1);
  so_plain p : p ∈ psubs x.1 -> exists sub, subs x.2 !! p = Some sub /\ plain_ok nm cl x.1 p sub;
  so_durable k p : durables x.1 !! k = Some p -> exists sub, subs x.2 !! p = Some sub /\
    (p ∈ psubs x.1 /\ DurableName sub <> "" /\ durableKey sub = k \/ closed_ok nm k sub);
  so_group g q : qsubs x.1 !! g = Some q -> g <> "" /\ exists qs, queues x.2 !! q = Some qs /\ NoDup (members qs) /\
    (forall p, p ∈ members qs -> exists sub, subs x.2 !! p = Some sub /\ member_ok nm cl x.1 g q qs p sub) /\
    match shadow qs with
    | Some p => members qs = [] /\ exists sub, subs x.2 !! p = Some sub /\ shadow_ok nm g q qs sub
    | None => members qs <> []
    end;
  so_acks k p : acks x.1 !! k = Some p -> running x p /\ exists sub, subs x.2 !! p = Some sub /\ AckInbox sub = k;
  so_inboxes k p : inboxes x.1 !! k = Some p -> running x p /\ exists sub, subs x.2 !! p = Some sub /\ Inbox sub = k
}.

(** ** The list *)

Section Take.
Context `{!RangeOrder Z} `{!RangeOrder string}.

Definition item_of (st : server) (sub : subState) : item := (snap_state st sub, (range (acksPending sub)).*1).
Definition sub_item (st : server) (p : ptr) : option (ptr * item) := (fun sub => (p, item_of st sub)) <$> subs st !! p.
Definition closed_item (st : server) (p : ptr) : option (ptr * item) :=
  dur ← subs st !! p; if IsClosed dur then Some (p, item_of st (set_ClientID (savedClientID dur) dur)) else None.
Definition group_ptrs (qs : queueState) : list ptr := members qs ++ match shadow qs with Some p => [p] | None => [] end.
Definition group_items (st : server) (q : ptr) : list (ptr * item) :=
  match queues st !! q with Some qs => omap (sub_item st) (group_ptrs qs) | None => [] end.
Definition entries (x : state) : list (ptr * item) :=
  omap (sub_item x.2) (psubs x.1) ++ omap (closed_item x.2) (range (durables x.1)).*2 ++ ((range (qsubs x.1)).*2 ≫= group_items x.2).

Lemma snapshotASub_item st sub : snapshotASub st sub = to_snap (item_of st sub).
Proof. done. Qed.

Lemma snapshot_list_items st l :
  (forall p, p ∈ l -> is_Some (subs st !! p)) -> snapshot_list st l = Some (to_snap <$> (omap (sub_item st) l).*2).
Proof.
  intros Hl. unfold snapshot_list. induction l as [|p l IH]; [done|]. destruct (Hl p ltac:(left)) as [sub Hs]. cbn. unfold sub_item at 1. rewrite Hs. cbn.
  unfold snapshot_list in IH. rewrite IH; [done|]. intros p' Hp'. apply Hl. by right.
Qed.

Lemma snapshot_durables_items st l :
  (forall k p, (k, p) ∈ l -> exists sub, subs st !! p = Some sub /\ (IsClosed sub = true -> ClientID sub = "")) ->
  snapshot_durables l st = Some (to_snap <$> (omap (closed_item st) l.*2).*2, st).
Proof.
  induction l as [|[k p] l IH]; intros Hl; [done|]. destruct (Hl k p ltac:(left)) as (dur & Hs & Hc). cbn. unfold closed_item at 1. rewrite Hs. cbn.
  assert (snapshot_durables l st = Some (to_snap <$> (omap (closed_item st) l.*2).*2, st)) as Hr by (apply IH; intros k' p' Hp'; apply (Hl k'); by right).
  destruct (IsClosed dur); [|done]. assert (put_sub p (set_ClientID "" dur) st = st) as ->; [|by rewrite Hr].
  assert (set_ClientID "" dur = dur) as -> by (rewrite <- (Hc eq_refl); by destruct dur).
  unfold put_sub. rewrite insert_id by done. by destruct st.
Qed.

Section Channel.
Context (nm : string) (cl : clientStore) (x : state) (Hok : subs_ok nm cl x).

Lemma group_ptrs_ok g q qs p : qsubs x.1 !! g = Some q -> queues x.2 !! q = Some qs -> p ∈ group_ptrs qs ->
  exists sub, subs x.2 !! p = Some sub /\ (p ∈ members qs /\ member_ok nm cl x.1 g q qs p sub \/ shadow qs = Some p /\ shadow_ok nm g q qs sub).
Proof.
  intros Hq Hqs Hp. destruct (so_group _ _ _ Hok _ _ Hq) as (_ & qs1 & Hqs1 & _ & Hm & Hsh). simplify_eq. apply elem_of_app in Hp as [Hp|Hp].
  - destruct (Hm p Hp) as (sub & Hs & Ho). exists sub. eauto.
  - destruct (shadow qs) as [p'|]; [|by apply not_elem_of_nil in Hp]. apply list_elem_of_singleton in Hp as ->. destruct Hsh as (_ & sub & Hs & Ho). exists sub. eauto.
Qed.

Lemma snapshot_groups_items l : (forall g q, (g, q) ∈ l -> qsubs x.1 !! g = Some q) ->
  exists ls, mapM (fun gq => snapshot_group x.2 gq.2) l = Some ls /\ concat ls = to_snap <$> (l.*2 ≫= group_items x.2).*2.
Proof.
  induction l as [|[g q] l IH]; intros Hl; [by exists []|]. destruct IH as (ls & El & Ec); [intros; apply Hl; by right|].
  assert (qsubs x.1 !! g = Some q) as Hq by (apply Hl; left). destruct (so_group _ _ _ Hok _ _ Hq) as (_ & qs & Hqs & _).
  assert (snapshot_group x.2 q = Some (to_snap <$> (group_items x.2 q).*2)) as Eg.
  { unfold snapshot_group, group_items. rewrite Hqs. cbn. apply snapshot_list_items. intros p Hp. destruct (group_ptrs_ok g q qs p Hq Hqs Hp) as (sub & Hs & _). by eexists. }
  eexists. split; [cbn; rewrite Eg; cbn; by rewrite El|]. cbn. by rewrite Ec, fmap_app, fmap_app.
Qed.

Lemma durable_objects k p : durables x.1 !! k = Some p -> exists sub, subs x.2 !! p = Some sub /\ (IsClosed sub = true -> closed_ok nm k sub).
Proof.
  intros Hp. destruct (so_durable _ _ _ Hok _ _ Hp) as (sub & Hs & [(Hin & _)|Hc]); exists sub; (split; [done|]); [|done].
  destruct (so_plain _ _ _ Hok _ Hin) as (sub' & Hs' & Ho & _). simplify_eq. intros Hc. by rewrite (on_open _ _ _ _ _ Ho) in Hc.
Qed.

Lemma snapshot_subs_entries : snapshot_subs x = Some (to_snap <$> (entries x).*2, x.2).
Proof.
  destruct (snapshot_groups_items (range (qsubs x.1))) as (ls & El & Ec); [intros g q Hq; by apply elem_of_range|].
  pose proof durable_objects as Hdo. pose proof (so_plain _ _ _ Hok) as Hpl.
  unfold entries. rewrite !fmap_app, <- Ec. destruct x as [ss st]. unfold snapshot_subs. cbn [fst snd] in *.
  rewrite snapshot_list_items by (intros p Hp; destruct (Hpl p Hp) as (sub & Hs & _); by eexists). cbn [option_bind mbind].
  rewrite snapshot_durables_items; [|intros k p Hp%elem_of_range; destruct (Hdo k p Hp) as (sub & Hs & Hc); exists sub; split; [done|intros H'; apply (Hc H')]].
  cbn [option_bind mbind]. by rewrite El.
Qed.

(** ** What is in it *)

Definition has_item (sub : subState) (i : item) : Prop := list_to_set i.2 = dom (acksPending sub).

Lemma item_of_pending st sub : has_item sub (item_of st sub).
Proof. unfold has_item, item_of. cbn. rewrite range_fst. apply set_eq. intros k. rewrite elem_of_list_to_set. apply elem_of_order. Qed.

Lemma plain_entry p i : (p, i) ∈ omap (sub_item x.2) (psubs x.1) -> p ∈ psubs x.1 /\ exists sub, subs x.2 !! p = Some sub /\
  plain_ok nm cl x.1 p sub /\ i = item_of x.2 sub /\ i.1 = state_of sub /\ kind_of i.1 = Plain.
Proof.
  intros (p' & Hp & Hi)%list_elem_of_omap. unfold sub_item in Hi. destruct (so_plain _ _ _ Hok _ Hp) as (sub & Hs & Ho). rewrite Hs in Hi. injection Hi as -> <-.
  split; [done|]. exists sub. destruct Ho as (Ho & Hq & Hqs & Hd). assert (snap_state x.2 sub = state_of sub) as Es by (unfold snap_state; by rewrite Hqs).
  split_and!; [done..|]. cbn [fst item_of]. rewrite Es. unfold kind_of. cbn. rewrite Hq, (on_open _ _ _ _ _ Ho). cbn. by rewrite andb_false_r.
Qed.

Lemma closed_entry p i : (p, i) ∈ omap (closed_item x.2) (range (durables x.1)).*2 -> exists k sub, durables x.1 !! k = Some p /\ subs x.2 !! p = Some sub /\
  closed_ok nm k sub /\ has_item sub i /\ i.1 = state_of (set_ClientID (savedClientID sub) sub) /\ kind_of i.1 = Closed.
Proof.
  intros (p' & ([k p1] & -> & Hp%elem_of_range)%list_elem_of_fmap & Hi)%list_elem_of_omap. cbn in Hi. unfold closed_item in Hi. destruct (durable_objects _ _ Hp) as (sub & Hs & Hc).
  rewrite Hs in Hi. cbn in Hi. destruct (IsClosed sub) eqn:Ec; [|done]. injection Hi as -> <-. exists k, sub. specialize (Hc eq_refl). pose proof Hc as (Hq & Hqs & Hd & _).
  assert (snap_state x.2 (set_ClientID (savedClientID sub) sub) = state_of (set_ClientID (savedClientID sub) sub)) as Es by (unfold snap_state; cbn [qstate set_ClientID]; by rewrite Hqs).
  split_and!; [done..|apply (item_of_pending x.2 (set_ClientID (savedClientID sub) sub))|done|]. cbn [fst item_of]. rewrite Es. unfold kind_of. cbn. rewrite Hq, Ec. cbn. by rewrite (proj2 (String.eqb_neq _ _) Hd).
Qed.

Definition group_item (g : string) (q : ptr) (p : ptr) (i : item) : Prop := exists qs sub, queues x.2 !! q = Some qs /\
  subs x.2 !! p = Some sub /\ has_item sub i /\ i.1 = set_position (lastSent qs) (state_of sub) /\
  (p ∈ members qs /\ member_ok nm cl x.1 g q qs p sub /\ kind_of i.1 = Member g \/ shadow qs = Some p /\ shadow_ok nm g q qs sub /\ kind_of i.1 = Shadow g).

Lemma group_item_of g q p i : qsubs x.1 !! g = Some q -> (p, i) ∈ group_items x.2 q -> group_item g q p i.
Proof.
  intros Hq Hi. unfold group_items in Hi.
  destruct (so_group _ _ _ Hok _ _ Hq) as (Hg & qs & Hqs & _). rewrite Hqs in Hi. apply list_elem_of_omap in Hi as (p' & Hp & Hi). unfold sub_item in Hi.
  destruct (group_ptrs_ok g q qs p' Hq Hqs Hp) as (sub & Hs & Ho). rewrite Hs in Hi. injection Hi as -> <-. exists qs, sub.
  assert (grouped g q qs sub) as (Eg & Hdn & Hqst & Hle) by (destruct Ho as [(_ & _ & ?)|(_ & _ & _ & _ & _ & ?)]; done).
  assert (snap_state x.2 sub = set_position (lastSent qs) (state_of sub)) as Es.
  { unfold snap_state. rewrite Hqst. cbn. rewrite Hqs. destruct (Z.ltb_spec (LastSent sub) (lastSent qs)); [done|]. replace (lastSent qs) with (LastSent sub) by lia. symmetry. apply (set_position_id (state_of sub)). }
  split_and!; [done..|apply item_of_pending|done|]. cbn [fst item_of]. rewrite Es. unfold kind_of. cbn. rewrite Eg, (proj2 (String.eqb_neq _ _) Hg).
  destruct Ho as [(Hm & Ho)|(Hm & Ho)]; [left|right]; (split_and!; [done..|]).
  - by rewrite (proj2 (String.eqb_neq _ _) (on_client _ _ _ _ _ (proj1 Ho))).
  - destruct Ho as (-> & _). done.
Qed.

Lemma group_item_kind g q p i : group_item g q p i -> in_group g i.1.
Proof. intros (qs & sub & _ & _ & _ & _ & [(_ & _ & Hk)|(_ & _ & Hk)]); [by left|by right]. Qed.

Lemma group_entry_of p i : (p, i) ∈ (range (qsubs x.1)).*2 ≫= group_items x.2 -> exists g q, qsubs x.1 !! g = Some q /\ group_item g q p i.
Proof.
  intros (q' & Hi & ([g q] & -> & Hq%elem_of_range)%list_elem_of_fmap)%list_elem_of_bind. exists g, q. split; [done|by apply group_item_of].
Qed.

Lemma entries_elem p i : (p, i) ∈ entries x <->
  (p, i) ∈ omap (sub_item x.2) (psubs x.1) \/ (p, i) ∈ omap (closed_item x.2) (range (durables x.1)).*2 \/ (p, i) ∈ (range (qsubs x.1)).*2 ≫= group_items x.2.
Proof. unfold entries. by rewrite !elem_of_app. Qed.

Lemma plain_in p sub : p ∈ psubs x.1 -> subs x.2 !! p = Some sub -> (p, item_of x.2 sub) ∈ entries x.
Proof. intros Hp Hs. apply entries_elem. left. apply list_elem_of_omap. exists p. split; [done|]. unfold sub_item. by rewrite Hs. Qed.
Lemma closed_in k p sub : durables x.1 !! k = Some p -> subs x.2 !! p = Some sub -> IsClosed sub = true -> (p, item_of x.2 (set_ClientID (savedClientID sub) sub)) ∈ entries x.
Proof.
  intros Hp Hs Hc. apply entries_elem. right. left. apply list_elem_of_omap. exists p. split; [apply list_elem_of_fmap; exists (k, p); split; [done|by apply elem_of_range]|].
  unfold closed_item. rewrite Hs. cbn. by rewrite Hc.
Qed.
Lemma member_in g q qs p sub : qsubs x.1 !! g = Some q -> queues x.2 !! q = Some qs -> p ∈ members qs -> subs x.2 !! p = Some sub -> (p, item_of x.2 sub) ∈ entries x.
Proof.
  intros Hq Hqs Hp Hs. apply entries_elem. do 2 right. apply list_elem_of_bind. exists q. split; [|apply list_elem_of_fmap; exists (g, q); split; [done|by apply elem_of_range]].
  unfold group_items. rewrite Hqs. apply list_elem_of_omap. exists p. split; [apply elem_of_app; by left|]. unfold sub_item. by rewrite Hs.
Qed.

Lemma entries_entry p i : (p, i) ∈ entries x -> entry nm x p i.
Proof.
  intros [Hi|[Hi|Hi]]%entries_elem.
  - apply plain_entry in Hi as (_ & sub & Hs & (Ho & _ & Hq & _) & Ei & Es & Hk). exists sub. rewrite Hk.
    split_and!; [done|rewrite Ei; symmetry; apply item_of_pending|apply Ho|done|done|apply Ho|apply Ho].
  - apply closed_entry in Hi as (k & sub & _ & Hs & (_ & Hq & _ & _ & _ & Hc & Hn & _) & Hd & Es & Hk). exists sub. rewrite Hk. by split_and!.
  - apply group_entry_of in Hi as (g & q & Hq & qs & sub & Hqs & Hs & Hd & Es & Ho). exists sub.
    split; [done|]. split; [done|]. destruct Ho as [(_ & (Ho & _ & _ & Hst & Hle) & ->)|(_ & (_ & _ & Hsj & _ & _ & _ & Hst & Hle) & ->)];
      (split; [done || apply Ho|]; exists q, qs; by split_and!).
Qed.

(** ** By kind *)

Lemma pick_all k (l : list (ptr * item)) : (forall p i, (p, i) ∈ l -> kind_of i.1 = k) -> pick k l = l.
Proof.
  induction l as [|[p i] l IH]; intros Hl; [done|]. unfold pick in *. rewrite filter_cons_True by (apply (Hl p); left). f_equal. apply IH. intros p' i' Hi. apply (Hl p'). by right.
Qed.
Lemma pick_none k (l : list (ptr * item)) : (forall p i, (p, i) ∈ l -> kind_of i.1 <> k) -> pick k l = [].
Proof.
  induction l as [|[p i] l IH]; intros Hl; [done|]. unfold pick in *. rewrite filter_cons_False by (apply (Hl p); left). apply IH. intros p' i' Hi. apply (Hl p'). by right.
Qed.
Lemma pick_app k (l1 l2 : list (ptr * item)) : pick k (l1 ++ l2) = pick k l1 ++ pick k l2.
Proof. apply filter_app. Qed.

Lemma sub_items_fst st l : (forall p, p ∈ l -> is_Some (subs st !! p)) -> (omap (sub_item st) l).*1 = l.
Proof.
  intros Hl. induction l as [|p l IH]; [done|]. destruct (Hl p ltac:(left)) as [sub Hs]. cbn. unfold sub_item at 1. rewrite Hs. cbn. f_equal. apply IH. intros p' Hp'. apply Hl. by right.
Qed.

Lemma entries_plain : psubs x.1 = (pick Plain (entries x)).*1.
Proof.
  unfold entries. rewrite !pick_app, pick_all, !pick_none, !app_nil_r.
  - symmetry. apply sub_items_fst. intros p Hp. destruct (so_plain _ _ _ Hok p Hp) as (sub & Hs & _). by eexists.
  - intros p i (g & q & _ & [Hk|Hk]%group_item_kind)%group_entry_of; congruence.
  - intros p i (k & sub & _ & _ & _ & _ & _ & Hk)%closed_entry. congruence.
  - intros p i (_ & sub & _ & _ & _ & _ & Hk)%plain_entry. done.
Qed.

Lemma pick_bind l g q k :
  NoDup l.*1 -> (g, q) ∈ l -> (forall g' q', (g', q') ∈ l -> qsubs x.1 !! g' = Some q') -> k = Member g \/ k = Shadow g ->
  pick k (l.*2 ≫= group_items x.2) = pick k (group_items x.2 q).
Proof.
  intros Hnd Hin Hl Hk.
  assert (forall g' q', (g', q') ∈ l -> g' <> g -> pick k (group_items x.2 q') = []) as Hoth.
  { intros g' q' Hi Hne. apply pick_none. intros p i [Hk'|Hk']%(group_item_of g')%group_item_kind; [| |by apply Hl]; destruct Hk; congruence. }
  induction l as [|[g1 q1] l IH]; [by apply not_elem_of_nil in Hin|]. cbn in Hnd. apply NoDup_cons in Hnd as [Hn1 Hnd].
  change (((g1, q1) :: l).*2 ≫= group_items x.2) with (group_items x.2 q1 ++ (l.*2 ≫= group_items x.2)). rewrite pick_app.
  assert (forall g' q', (g', q') ∈ l -> qsubs x.1 !! g' = Some q') as Hl' by (intros; apply Hl; by right).
  assert (forall g' q', (g', q') ∈ l -> g' <> g -> pick k (group_items x.2 q') = []) as Hoth' by (intros g' q' Hi; apply Hoth; by right).
  destruct (decide (g1 = g)) as [->|Hne].
  - assert (q1 = q) as -> by (apply (inj Some); rewrite <- (Hl g q1), <- (Hl g q) by (done || left); done).
    assert (pick k (l.*2 ≫= group_items x.2) = []) as ->; [|apply app_nil_r]. apply pick_none.
    intros p i (q' & Hi & ([g' q2] & -> & Hq')%list_elem_of_fmap)%list_elem_of_bind Hk'. cbn in Hi.
    assert (g' <> g) as Hne by (intros ->; apply Hn1, list_elem_of_fmap; by exists (g, q2)). specialize (Hoth' g' q2 Hq' Hne).
    assert ((p, i) ∈ pick k (group_items x.2 q2)) as Hx by by apply list_elem_of_filter. rewrite Hoth' in Hx. by apply not_elem_of_nil in Hx.
  - rewrite (Hoth g1 q1) by (done || left). cbn. apply IH; [done| |done..]. apply elem_of_cons in Hin as [[= <- <-]|Hin]; done.
Qed.

Lemma entries_group g q : qsubs x.1 !! g = Some q ->
  exists qs, queues x.2 !! q = Some qs /\ members qs = (pick (Member g) (entries x)).*1 /\ shadow qs = fst <$> head (pick (Shadow g) (entries x)) /\
    g <> "" /\ exists p i, (p, i) ∈ entries x /\ in_group g i.1.
Proof.
  intros Hq. destruct (so_group _ _ _ Hok _ _ Hq) as (Hg & qs & Hqs & _ & Hm & Hsh). exists qs. split; [done|].
  assert (forall k, k = Member g \/ k = Shadow g -> pick k (entries x) = pick k (group_items x.2 q)) as Ek.
  { intros k Hk. unfold entries. rewrite !pick_app, (pick_none k (omap (sub_item _) _)), (pick_none k (omap (closed_item _) _)).
    - apply (pick_bind _ g); [apply NoDup_range_fst|by apply elem_of_range|intros g' q'; apply elem_of_range|done].
    - intros p i (? & sub & _ & _ & _ & _ & _ & Hk')%closed_entry. destruct Hk; congruence.
    - intros p i (_ & sub & _ & _ & _ & _ & Hk')%plain_entry. destruct Hk; congruence. }
  rewrite !Ek by auto. assert (forall p i, (p, i) ∈ group_items x.2 q -> (p, i) ∈ entries x) as Hin.
  { intros p i Hi. apply entries_elem. do 2 right. apply list_elem_of_bind. exists q. split; [done|]. apply list_elem_of_fmap. exists (g, q). split; [done|by apply elem_of_range]. }
  pose proof (fun p i => group_item_of g q p i Hq) as Hgi. unfold group_items, group_ptrs in *. rewrite Hqs in *. destruct (shadow qs) as [p|] eqn:Es.
  - destruct Hsh as (Em & sub & Hs & Ho). rewrite Em in *.
    assert (omap (sub_item x.2) ([] ++ [p]) = [(p, item_of x.2 sub)]) as Eo by (cbn; unfold sub_item; by rewrite Hs). rewrite Eo in *. unfold pick.
    destruct (Hgi p (item_of x.2 sub)) as (qs' & sub' & Hqs' & Hs' & _ & _ & [(Hp & _)|(_ & _ & Hk)]); [left|simplify_eq; rewrite Em in Hp; by apply not_elem_of_nil in Hp|].
    rewrite filter_cons_False by (cbn [snd]; congruence). rewrite filter_cons_True by exact Hk. split_and!; [done..|]. exists p, (item_of x.2 sub). split; [apply Hin; left|by right].
  - rewrite app_nil_r in *. assert (forall p i, (p, i) ∈ omap (sub_item x.2) (members qs) -> kind_of i.1 = Member g) as Hk.
    { intros p i (qs' & sub' & Hqs' & _ & _ & _ & [(_ & _ & Hk)|(Hp & _)])%Hgi; [done|simplify_eq; congruence]. }
    rewrite (pick_all (Member g)), (pick_none (Shadow g)) by (done || (intros p i Hi; rewrite (Hk p i Hi); done)). split_and!; [|done|done|].
    + symmetry. apply sub_items_fst. intros p Hp. destruct (Hm p Hp) as (sub & Hs & _). by eexists.
    + destruct (members qs) as [|p l] eqn:Em; [done|]. destruct (Hm p ltac:(left)) as (sub & Hs & _). exists p, (item_of x.2 sub).
      assert ((p, item_of x.2 sub) ∈ omap (sub_item x.2) (p :: l)) as Hp by (apply list_elem_of_omap; exists p; split; [left|unfold sub_item; by rewrite Hs]).
      split; [by apply Hin|left; by eapply Hk].
Qed.

(** ** The list is that of the channel *)

Lemma entries_durable k p : durables x.1 !! k = Some p <-> exists i, (p, i) ∈ entries x /\ is_durable i.1 /\ key_of nm i.1 = k.
Proof.
  split.
  - intros Hp. destruct (so_durable _ _ _ Hok _ _ Hp) as (sub & Hs & [(Hin & Hd & Hk)|Hc]).
    + exists (item_of x.2 sub). pose proof (plain_in p sub Hin Hs) as Hi. split; [done|]. destruct (so_plain _ _ _ Hok _ Hin) as (sub' & Hs' & Ho & Hq & Hqs & _). simplify_eq.
      unfold item_of, snap_state. rewrite Hqs. cbn. unfold is_durable, key_of. cbn. split; [done|]. unfold durableKey. by rewrite (on_subject _ _ _ _ _ Ho).
    + pose proof Hc as (Hq & Hqs & Hd & _ & Hcl & _ & _ & _ & Hk). eexists. split; [by apply (closed_in k)|].
      unfold item_of, snap_state. cbn [qstate set_ClientID]. rewrite Hqs. cbn. unfold is_durable, key_of. cbn. done.
  - intros (i & [Hi|[Hi|Hi]]%entries_elem & Hd & <-).
    + apply plain_entry in Hi as (_ & sub & _ & (Ho & _ & _ & Hdk) & _ & Es & _). rewrite Es in *. destruct Hd as [_ Hd]. destruct (Hdk Hd) as [_ <-].
      unfold key_of, durableKey. cbn. by rewrite (on_subject _ _ _ _ _ Ho).
    + apply closed_entry in Hi as (k & sub & Hp & _ & Hc & _ & Es & _). rewrite Es. by replace (key_of _ _) with k by (symmetry; apply Hc).
    + apply group_entry_of in Hi as (g & q & _ & [-> Hn]%group_item_kind%kind_group). by destruct Hd as [? _].
Qed.

Lemma running_in p : running x p -> exists sub, subs x.2 !! p = Some sub /\ online nm cl x.1 p sub /\ (p, item_of x.2 sub) ∈ entries x /\ is_active (kind_of (item_of x.2 sub).1).
Proof.
  intros [Hp|(g & q & qs & Hq & Hqs & Hp)].
  - destruct (so_plain _ _ _ Hok _ Hp) as (sub & Hs & Ho). exists sub. split; [done|]. split; [apply Ho|]. split; [by apply plain_in|].
    assert ((p, item_of x.2 sub) ∈ omap (sub_item x.2) (psubs x.1)) as (_ & _ & _ & _ & _ & _ & ->)%plain_entry; [|done].
    apply list_elem_of_omap. exists p. split; [done|]. unfold sub_item. by rewrite Hs.
  - destruct (so_group _ _ _ Hok _ _ Hq) as (_ & qs' & Hqs' & _ & Hm & Hsh). simplify_eq. destruct (Hm p Hp) as (sub & Hs & Ho). exists sub. split; [done|]. split; [apply Ho|].
    split; [by eapply member_in|]. assert (group_item g q p (item_of x.2 sub)) as (qs' & sub' & Hqs' & _ & _ & _ & [(_ & _ & ->)|(Hs' & _)]); [|done|].
    + apply group_item_of; [done|]. unfold group_items. rewrite Hqs. apply list_elem_of_omap. exists p. split; [apply elem_of_app; by left|]. unfold sub_item. by rewrite Hs.
    + simplify_eq. rewrite Hs' in Hsh. destruct Hsh as [Em _]. rewrite Em in Hp. by apply not_elem_of_nil in Hp.
Qed.

Lemma active_online p i : (p, i) ∈ entries x -> is_active (kind_of i.1) -> exists sub, subs x.2 !! p = Some sub /\ online nm cl x.1 p sub /\
  Spb.SubState.AckInbox i.1 = AckInbox sub /\ Spb.SubState.Inbox i.1 = Inbox sub /\ Spb.SubState.ClientID i.1 = ClientID sub.
Proof.
  intros [Hi|[Hi|Hi]]%entries_elem Ha.
  - apply plain_entry in Hi as (_ & sub & Hs & (Ho & _) & _ & -> & _). by exists sub.
  - apply closed_entry in Hi as (k & sub & _ & _ & _ & _ & _ & Hk). by rewrite Hk in Ha.
  - apply group_entry_of in Hi as (g & q & _ & qs & sub & _ & Hs & _ & Es & [(_ & [Ho _] & _)|(_ & _ & Hk)]); [|by rewrite Hk in Ha]. exists sub. by rewrite Es.
Qed.

Lemma item_of_inboxes st sub : Spb.SubState.AckInbox (item_of st sub).1 = AckInbox sub /\ Spb.SubState.Inbox (item_of st sub).1 = Inbox sub.
Proof. unfold item_of, snap_state. cbn. destruct (_ ≫= _) as [qs|]; [|done]. by destruct (_ <? _). Qed.

Lemma entries_listed : listed nm (entries x) x.
Proof.
  split; [apply entries_entry|apply entries_plain|apply entries_durable|..|apply entries_group].
  - intros k p. split.
    + intros Hp. destruct (so_acks _ _ _ Hok _ _ Hp) as (Hr & sub & Hs & <-). destruct (running_in _ Hr) as (sub' & Hs' & _ & Hi & Ha). simplify_eq.
      eexists. split_and!; [exact Hi|done|apply item_of_inboxes].
    + intros (i & Hi & Ha & <-). destruct (active_online _ _ Hi Ha) as (sub & _ & Ho & -> & _). apply Ho.
  - intros k p. split.
    + intros Hp. destruct (so_inboxes _ _ _ Hok _ _ Hp) as (Hr & sub & Hs & <-). destruct (running_in _ Hr) as (sub' & Hs' & _ & Hi & Ha). simplify_eq.
      eexists. split_and!; [exact Hi|done|apply item_of_inboxes].
    + intros (i & Hi & Ha & <-). destruct (active_online _ _ Hi Ha) as (sub & _ & Ho & _ & -> & _). apply Ho.
Qed.

(** ** Every object once *)

Lemma NoDup_omap_fst (f : ptr -> option (ptr * item)) l : (forall p y, f p = Some y -> y.1 = p) -> NoDup l -> NoDup (omap f l).*1.
Proof.
  intros Hf Hnd. induction Hnd as [|p l Hp Hnd IH]; [constructor|]. cbn. destruct (f p) as [y|] eqn:Ey; [|done]. cbn. apply NoDup_cons. split; [|done].
  rewrite (Hf p y Ey). intros (y' & Ep & (p' & Hp' & Hy')%list_elem_of_omap)%list_elem_of_fmap. apply Hf in Hy'. congruence.
Qed.

Lemma group_items_nodup l : NoDup l.*1 -> (forall g q, (g, q) ∈ l -> qsubs x.1 !! g = Some q) -> NoDup (l.*2 ≫= group_items x.2).*1.
Proof.
  induction l as [|[g q] l IH]; intros Hnd Hl; [constructor|]. cbn in Hnd. apply NoDup_cons in Hnd as [Hn Hnd].
  change (((g, q) :: l).*2 ≫= group_items x.2) with (group_items x.2 q ++ (l.*2 ≫= group_items x.2)). rewrite fmap_app. apply NoDup_app.
  assert (qsubs x.1 !! g = Some q) as Hq by (apply Hl; left). split_and!; [| |apply IH; [done|intros; apply Hl; by right]].
  - destruct (so_group _ _ _ Hok _ _ Hq) as (_ & qs & Hqs & Hmn & _ & Hsh). unfold group_items. rewrite Hqs. apply NoDup_omap_fst.
    + intros p y. unfold sub_item. by destruct (subs x.2 !! p); intros [= <-].
    + unfold group_ptrs. destruct (shadow qs); [|by rewrite app_nil_r]. destruct Hsh as [-> _]. apply NoDup_singleton.
  - intros p ([p1 i1] & -> & H1)%list_elem_of_fmap ([p2 i2] & E2 & H2)%list_elem_of_fmap. cbn in E2. subst p2.
    apply list_elem_of_bind in H2 as (q' & H2 & ([g' q2] & -> & Hq')%list_elem_of_fmap). cbn in H2.
    assert (forall g q i, qsubs x.1 !! g = Some q -> (p1, i) ∈ group_items x.2 q -> exists sub, subs x.2 !! p1 = Some sub /\ QGroup sub = g) as Hg.
    { intros g0 q0 i0 Hq0 (qs & sub & _ & Hs & _ & _ & [(_ & [_ [Hg _]] & _)|(_ & (_ & _ & _ & _ & [Hg _]) & _)])%(group_item_of g0 q0 p1 i0 Hq0); by exists sub. }
    destruct (Hg g q i1 Hq H1) as (sub & Hs & <-). destruct (Hg g' q2 i2 ltac:(apply Hl; by right) H2) as (sub' & Hs' & <-). simplify_eq.
    apply Hn, list_elem_of_fmap. by exists (QGroup sub, q2).
Qed.

Lemma durable_inj k k' p : durables x.1 !! k = Some p -> durables x.1 !! k' = Some p -> k = k'.
Proof.
  intros Hp Hp'. destruct (so_durable _ _ _ Hok _ _ Hp) as (sub & Hs & Ho). destruct (so_durable _ _ _ Hok _ _ Hp') as (sub' & Hs' & Ho'). assert (sub' = sub) as -> by congruence.
  assert (forall k, closed_ok nm k sub -> p ∉ psubs x.1) as Hc.
  { intros k0 (_ & _ & _ & _ & Hc & _) Hin. destruct (so_plain _ _ _ Hok _ Hin) as (sub1 & Hs1 & Hon & _). assert (sub1 = sub) as -> by congruence. by rewrite (on_open _ _ _ _ _ Hon) in Hc. }
  destruct Ho as [(Hin & _ & <-)|Ho], Ho' as [(Hin' & _ & <-)|Ho']; [done|by destruct (Hc _ Ho')|by destruct (Hc _ Ho)|].
  destruct Ho as (_ & _ & _ & _ & _ & _ & _ & _ & <-). by destruct Ho' as (_ & _ & _ & _ & _ & _ & _ & _ & <-).
Qed.

Lemma entries_nodup : NoDup (entries x).*1.
Proof.
  assert (forall p i, (p, i) ∈ entries x -> exists sub, subs x.2 !! p = Some sub /\ (QGroup sub = "" <-> kind_of i.1 = Plain \/ kind_of i.1 = Closed) /\ (kind_of i.1 = Plain -> IsClosed sub = false) /\ (kind_of i.1 = Closed -> IsClosed sub = true)) as Hk.
  { intros p i [Hi|[Hi|Hi]]%entries_elem.
    - apply plain_entry in Hi as (_ & sub & Hs & (Ho & Hq & _) & _ & _ & ->). exists sub. split_and!; [done|by split; auto|intros _; apply Ho|done].
    - apply closed_entry in Hi as (k & sub & _ & Hs & Hc & _ & _ & ->). exists sub. destruct Hc as (Hq & _ & _ & _ & Hc & _). split_and!; [done|by split; auto|done|done].
    - apply group_entry_of in Hi as (g & q & Hq & Hi). destruct (so_group _ _ _ Hok _ _ Hq) as (Hn & _). pose proof (group_item_kind _ _ _ _ Hi) as Hg.
      destruct Hi as (qs & sub & _ & Hs & _ & _ & Ho). exists sub. split; [done|].
      assert (QGroup sub = g) as -> by (destruct Ho as [(_ & [_ [? _]] & _)|(_ & (_ & _ & _ & _ & [? _]) & _)]; done).
      split_and!; [split; [done|]| |]; destruct Hg as [-> | ->]; intros; by naive_solver. }
  unfold entries. rewrite !fmap_app. apply NoDup_app. split_and!; [|intros p Hp Hp'|apply NoDup_app; split_and!; [|intros p Hp Hp'|]].
  - apply NoDup_omap_fst; [|apply Hok]. intros p y. unfold sub_item. by destruct (subs x.2 !! p); intros [= <-].
  - apply list_elem_of_fmap in Hp as ([p1 i1] & -> & H1). rewrite <- fmap_app in Hp'. apply list_elem_of_fmap in Hp' as ([p2 i2] & E2 & H2). cbn in E2. subst p2.
    destruct (Hk p1 i1) as (s1 & Hs1 & Q1 & C1 & _); [apply entries_elem; by left|]. destruct (Hk p1 i2) as (s2 & Hs2 & Q2 & _ & C2); [apply entries_elem; right; by apply elem_of_app|]. simplify_eq.
    apply plain_entry in H1 as (_ & _ & _ & _ & _ & _ & K1). rewrite K1 in *. apply elem_of_app in H2 as [H2|H2].
    + apply closed_entry in H2 as (_ & _ & _ & _ & _ & _ & _ & K2). rewrite K2 in *. by rewrite C1 in C2; [specialize (C2 eq_refl)|].
    + apply group_entry_of in H2 as (g & q & _ & Hg%group_item_kind). assert (kind_of i2.1 = Plain \/ kind_of i2.1 = Closed) as [K2|K2] by (apply Q2, Q1; auto); destruct Hg; congruence.
  - apply NoDup_omap_fst.
    + intros p y. unfold closed_item. destruct (subs x.2 !! p) as [sub|]; [|done]. cbn. by destruct (IsClosed sub); intros [= <-].
    + apply NoDup_fmap_2_strong; [|apply NoDup_range]. intros [k p] [k' p'] H1%elem_of_range H2%elem_of_range Ep. cbn in Ep. subst p'. f_equal. by eapply durable_inj.
  - apply list_elem_of_fmap in Hp as ([p1 i1] & -> & H1). apply list_elem_of_fmap in Hp' as ([p2 i2] & E2 & H2). cbn in E2. subst p2.
    destruct (Hk p1 i1) as (s1 & Hs1 & Q1 & _); [apply entries_elem; auto|]. destruct (Hk p1 i2) as (s2 & Hs2 & Q2 & _); [apply entries_elem; auto|]. simplify_eq.
    apply closed_entry in H1 as (_ & _ & _ & _ & _ & _ & _ & K1). apply group_entry_of in H2 as (g & q & _ & Hg%group_item_kind).
    assert (kind_of i2.1 = Plain \/ kind_of i2.1 = Closed) as [K2|K2] by (apply Q2, Q1; auto); destruct Hg; congruence.
  - apply group_items_nodup; [apply NoDup_range_fst|]. intros g q. apply elem_of_range.
Qed.

Lemma shadow_unique p p' i i' g : (p, i) ∈ entries x -> (p', i') ∈ entries x -> kind_of i.1 = Shadow g -> kind_of i'.1 = Shadow g -> p = p'.
Proof.
  assert (forall p i, (p, i) ∈ entries x -> kind_of i.1 = Shadow g -> exists q qs, qsubs x.1 !! g = Some q /\ queues x.2 !! q = Some qs /\ shadow qs = Some p) as Hs.
  { intros p0 i0 [Hi|[Hi|Hi]]%entries_elem Hk.
    - apply plain_entry in Hi as (_ & _ & _ & _ & _ & _ & K). congruence.
    - apply closed_entry in Hi as (_ & _ & _ & _ & _ & _ & _ & K). congruence.
    - apply group_entry_of in Hi as (g' & q & Hq & qs & sub & Hqs & _ & _ & _ & [(_ & _ & K)|(Hs & _ & K)]); [congruence|]. assert (g' = g) as -> by congruence. by exists q, qs. }
  intros Hi Hi' Hk Hk'. destruct (Hs p i Hi Hk) as (q & qs & Hq & Hqs & Es). destruct (Hs p' i' Hi' Hk') as (q' & qs' & Hq' & Hqs' & Es'). simplify_eq. congruence.
Qed.

Lemma entries_fit : all_fit nm (entries x).*2.
Proof.
  intros l1 i l2 El. apply fmap_app_inv in El as (l1' & l2' & -> & El2 & E). destruct l2' as [|[p i'] l2']; [done|]. injection El2 as -> _. cbn in *.
  pose proof entries_nodup as Hnd. rewrite E, fmap_app in Hnd. apply NoDup_app in Hnd as (_ & Hnd & _).
  assert (forall j, j ∈ l1'.*2 -> exists p', (p', j) ∈ entries x /\ p' <> p) as Hj.
  { intros j ([p' j'] & -> & Hj)%list_elem_of_fmap. exists p'. split; [rewrite E; apply elem_of_app; by left|]. intros ->. apply (Hnd p); [apply list_elem_of_fmap; by exists (p, j')|left]. }
  assert ((p, i') ∈ entries x) as Hi by (rewrite E; apply elem_of_app; right; left). pose proof entries_listed as Hl. split.
  - intros j (p' & Hp' & Hne)%Hj Hd Hd' Hk. apply Hne. apply (inj Some). rewrite <- (proj2 (li_durable _ _ _ Hl (key_of nm i'.1) p)), <- (proj2 (li_durable _ _ _ Hl (key_of nm i'.1) p')); [done|by exists j|by exists i'].
  - intros j (p' & Hp' & Hne)%Hj Ha Ha'. split; intros Hk; apply Hne, (inj Some).
    + rewrite <- (proj2 (li_acks _ _ _ Hl (Spb.SubState.AckInbox i'.1) p)), <- (proj2 (li_acks _ _ _ Hl (Spb.SubState.AckInbox i'.1) p')); [done|by exists j|by exists i'].
    + rewrite <- (proj2 (li_inboxes _ _ _ Hl (Spb.SubState.Inbox i'.1) p)), <- (proj2 (li_inboxes _ _ _ Hl (Spb.SubState.Inbox i'.1) p')); [done|by exists j|by exists i'].
  - intros j g (p' & Hp' & _)%Hj Hg Hg'. destruct (group_member _ _ _ _ _ _ Hl Hi Hg) as (q & qs & Hq & Hqs & <-). destruct (group_member _ _ _ _ _ _ Hl Hp' Hg') as (q' & qs' & Hq' & Hqs' & <-). by simplify_eq.
  - intros j g (p' & Hp' & Hne)%Hj Hk Hk'. apply Hne. by eapply shadow_unique.
Qed.

Lemma client_registered k p : client_has cl k p -> registered cl k.
Proof. intros (q & c & Hq & Hc & _). unfold registered, FsmAgree.infos. rewrite lookup_omap, Hq. cbn. rewrite Hc. by eexists. Qed.

Lemma entries_ok i : i ∈ (entries x).*2 -> item_ok cl i.1.
Proof.
  intros ([p i'] & -> & [Hi|[Hi|Hi]]%entries_elem)%list_elem_of_fmap; cbn.
  - apply plain_entry in Hi as (_ & sub & _ & (Ho & _ & _ & Hd) & _ & Es & Hk). unfold item_ok. rewrite Hk, Es. cbn. destruct Ho as [H1 H2 H3 H4 H5 H6 H7].
    split_and!; [done|done|by eapply client_registered|done|]. intros Hn. apply (Hd Hn).
  - apply closed_entry in Hi as (k & sub & _ & _ & (_ & _ & _ & Hd & _ & _ & _ & H0 & _) & _ & Es & Hk). unfold item_ok. by rewrite Hk, Es.
  - apply group_entry_of in Hi as (g & q & _ & qs & sub & _ & _ & _ & Es & [(_ & (Ho & _ & Hd & _ & Hle) & Hk)|(_ & (_ & Hd & _ & H0 & _ & Hn & _ & Hle) & Hk)]);
      unfold item_ok; rewrite Hk, Es; cbn; [|split_and!; (done || lia)]. destruct Ho as [H1 H2 H3 H4 H5 H6 H7]. split_and!; [lia|by eapply client_registered|done].
Qed.
End Channel.
End Take.
End SnapTake.

Module SnapPersist.
Import Chan Fsm FsmSpec FsmAgree Snap SnapSpec SnapRecover SnapTake.

Section Node.
Context {S D R E N : Type} `{MsgStore S} `{!MsgLog S E} `{!MsgRestore S E} `{!Stores D S E} `{!StoresWork D S E} `{!RaftStore R E} `{!RaftStoreWorks R E}.
Context `{!Restore.Wire N E} `{!RangeOrder Z} `{!RangeOrder string} `{!Sorter}.
Context `{StanFields}.
Context (unicode : list ascii -> list ascii) (e : @environment S D R E).

Abbreviation node := (@Fsm.node S D R E N).
Abbreviation M := (eff node (fsm_error E)).
Abbreviation stan_at n := (Conn.stan_of (server n)).
Abbreviation clients_at n := (Conn.clients_of (server n)).
Abbreviation subs_at n := (subscriptions (stan_at n)).

(** The subscriptions of every channel are consistent. *)
Definition node_subs_ok (n : node) : Prop := forall nm p c, channels (stan_at n) !! nm = Some p -> chans (stan_at n) !! p = Some c ->
  subs_ok nm (clients_at n) (ss c, subs_at n).

(** ** Channels *)

(** Flushes may change the message stores, and nothing else that a snapshot has. *)
Record calm (n n' : node) : Prop := {
  ca_names : channels (stan_at n') = channels (stan_at n) /\ channelsLC (stan_at n') = channelsLC (stan_at n) /\ store (stan_at n') = store (stan_at n);
  ca_subs : subs_at n' = subs_at n;
  ca_clients : clients_at n' = clients_at n;
  ca_chans p c : chans (stan_at n) !! p = Some c -> exists ms, chans (stan_at n') !! p = Some (set_msgs ms c)
}.

Lemma set_msgs_id (c : @channel S) : set_msgs (msgs c) c = c.
Proof. by destruct c. Qed.

#[export] Instance calm_preorder : PreOrder calm.
Proof.
  split; [intros n; split; try done; intros p c Hc; exists (msgs c); by rewrite set_msgs_id|].
  intros n1 n2 n3 [(A1 & A1' & A1'') A2 A3 A4] [(B1 & B1' & B1'') B2 B3 B4]. split; [split_and!; congruence|congruence..|]. intros p c Hc. destruct (A4 p c Hc) as [ms Hc2]. destruct (B4 p _ Hc2) as [ms' Hc3]. by exists ms'.
Qed.

Lemma calm_kept n n' : calm n n' -> nkept n n'.
Proof.
  intros [(A1 & A2 & A3) _ A4 A5]. split; [|intros Hw; by rewrite A4]. split; [done..|]. intros p c Hc. destruct (A5 p c Hc) as [ms Hc']. by exists (set_msgs ms c).
Qed.

Lemma calm_ask {A : Type} (f : nat -> A) n a n' : on_channels (ask f) n = (Ok a, n') -> calm n n'.
Proof. intros [= _ <-]. split; try done. intros p c Hc. exists (msgs c). by rewrite set_msgs_id. Qed.

Lemma calm_flush p n n' : on_channel p (Restore.on_store_msgs FlushMsgs) n = (Ok tt, n') -> calm n n'.
Proof.
  unfold on_channel, Restore.on_store_msgs. destruct (chans (stan_at n) !! p) as [c|] eqn:Hc; [|done]. cbn. destruct (FlushMsgs (msgs c)) as [r ms]. intros [= _ <-].
  split; try done. intros q d Hd. cbn. destruct (decide (q = p)) as [->|Hne].
  - rewrite lookup_insert_eq. simplify_eq. by exists ms.
  - rewrite lookup_insert_ne by done. exists (msgs d). by rewrite set_msgs_id.
Qed.

(** What a snapshot has of a channel. *)
Definition channel_item (n : node) (c : @channel S) (sc : ChannelSnapshot.t) : Prop :=
  ChannelSnapshot.Channel sc = name c /\ ChannelSnapshot.ChannelID sc = id c /\ ChannelSnapshot.NextSubID sc = nextSubID c /\
  ChannelSnapshot.Subscriptions sc = to_snap <$> (entries (ss c, subs_at n)).*2.

Lemma calm_subs (p : Sub.ptr) (c : @channel S) (n : node) :
  chans (stan_at n) !! p = Some c ->
  calm n (set_server (Conn.set_clients (clients_at n) (Conn.set_stan (set_subscriptions (subs_at n) (set_chans (<[p := set_nextSubID (nextSubID c) (set_ss (ss c) c)]> (chans (stan_at n))) (stan_at n))) (server n))) n).
Proof.
  intros Hc. split; try done. intros q d Hd. cbn. exists (msgs d). rewrite set_msgs_id. destruct (decide (q = p)) as [->|Hne].
  - rewrite lookup_insert_eq. assert (d = c) as -> by congruence. by destruct c.
  - by rewrite lookup_insert_ne.
Qed.

Lemma snapshot_channel_run nm p c n sc n' :
  snapshot_channel e p n = (Ok sc, n') -> chans (stan_at n) !! p = Some c -> subs_ok nm (clients_at n) (ss c, subs_at n) ->
  calm n n' /\ channel_item n c sc.
Proof.
  intros Hr Hc Hok. apply eff_bind_inv in Hr as (f & n1 & E1%calm_ask & Hr). destruct f; [done|]. apply eff_bind_inv in Hr as ([] & n2 & E2%calm_flush & Hr).
  apply eff_bind_inv in Hr as (err & n3 & E3%calm_ask & Hr). assert (calm n n3) as C3 by (by do 2 (etrans; [eassumption|])). destruct (ca_chans _ _ C3 _ _ Hc) as [ms Hc3].
  apply eff_bind_inv in Hr as (c3 & n4 & E4 & Hr). unfold on_channels, chan_at in E4. rewrite Hc3 in E4. injection E4 as <- <-. assert (set_server (Conn.set_stan (stan_at n3) (server n3)) n3 = n3) as En by by destruct n3 as [[] ?]. rewrite En in Hr. clear En.
  destruct (Restore.getChannelFirstAndlLastSeq _ _ _) as [[first last]| |]; [|done|done]. apply eff_bind_inv in Hr as (l & n5 & E5 & [= <- <-]).
  unfold on_subscriptions in E5. rewrite Hc3 in E5. cbn [ss set_msgs] in E5. rewrite (ca_subs _ _ C3), (snapshot_subs_entries nm (clients_at n)) in E5 by done.
  injection E5 as <- <-. split; [|done]. etrans; [exact C3|]. pose proof (calm_subs p (set_msgs ms c) n3 Hc3) as Hs. cbn [snd]. rewrite <- (ca_subs _ _ C3) at 1. exact Hs.
Qed.

Definition channel_ready (n : node) (nm : string) (p : Sub.ptr) : Prop :=
  exists c, chans (stan_at n) !! p = Some c /\ name c = nm /\ subs_ok nm (clients_at n) (ss c, subs_at n).

Lemma calm_ready n n' nm p : calm n n' -> channel_ready n nm p -> channel_ready n' nm p.
Proof.
  intros C (c & Hc & Hn & Hok). destruct (ca_chans _ _ C _ _ Hc) as [ms Hc']. exists (set_msgs ms c). by rewrite (ca_subs _ _ C), (ca_clients _ _ C).
Qed.

Definition named_item (n : node) (np : string * Sub.ptr) (sc : ChannelSnapshot.t) : Prop :=
  exists c, chans (stan_at n) !! np.2 = Some c /\ name c = np.1 /\ channel_item n c sc.

Lemma calm_named n n' np sc nm : calm n n' -> channel_ready n nm np.2 -> named_item n' np sc -> named_item n np sc.
Proof.
  intros C (c & Hc & _) (c' & Hc' & Hn & I1 & I2 & I3 & I4). destruct (ca_chans _ _ C _ _ Hc) as [ms Hc2]. simplify_eq. exists c.
  rewrite (ca_subs _ _ C) in I4. by split_and!.
Qed.

Lemma snapshot_each_run n0 l : forall n scs n', snapshot_each e l.*2 n = (Ok scs, n') -> calm n0 n -> (forall nm p, (nm, p) ∈ l -> channel_ready n0 nm p) ->
  calm n0 n' /\ Forall2 (named_item n0) l scs.
Proof.
  induction l as [|[nm p] l IH]; intros n scs n' Hr C0 Hl; cbn in Hr; [injection Hr as <- <-; by split|].
  apply eff_bind_inv in Hr as (sc & n1 & E1 & (r & n2 & E2 & [= <- <-])%eff_bind_inv).
  pose proof (Hl nm p ltac:(left)) as Hrd. destruct (calm_ready _ _ _ _ C0 Hrd) as (c & Hc & Hn & Hok).
  destruct (snapshot_channel_run nm p c n sc n1 E1 Hc Hok) as [C1 I1].
  destruct (IH n1 r n2 E2) as [C2 I2]; [by etrans|intros; apply Hl; by right|].
  split; [done|]. constructor; [|done]. eapply (calm_named n0 n (nm, p) _ nm); [done|done|]. by exists c.
Qed.

(** ** The snapshot *)

Record snapshot_of (n : node) (snap : RaftSnapshot.t) : Prop := {
  sn_ids : NoDup ((fun i => ClientStore.ID (client_of i)) <$> RaftSnapshot.Clients snap);
  sn_clients k i : infos (clients_at n) !! k = Some i <-> ClientStore.ID i = k /\ exists r, r ∈ RaftSnapshot.Clients snap /\ client_of r = i;
  sn_names : NoDup (ChannelSnapshot.Channel <$> RaftSnapshot.Channels snap);
  sn_channel sc : sc ∈ RaftSnapshot.Channels snap -> exists p c, channels (stan_at n) !! ChannelSnapshot.Channel sc = Some p /\ chans (stan_at n) !! p = Some c /\ channel_item n c sc;
  sn_all nm : is_Some (channels (stan_at n) !! nm) -> nm ∈ ChannelSnapshot.Channel <$> RaftSnapshot.Channels snap
}.

Lemma client_of_record i : client_of (client_record i) = i.
Proof. destruct i. unfold client_of, client_record. cbn. by rewrite string_of_list_ascii_of_string. Qed.

Lemma client_records cl : wf cl -> forall l, (forall k p, (k, p) ∈ l -> clients cl !! k = Some p) ->
  exists rs, mapM (fun kp => client_record ∘ info <$> heap cl !! kp.2) l = Some rs /\ (fun i => ClientStore.ID (client_of i)) <$> rs = l.*1 /\
    forall r, r ∈ rs <-> exists k p i, (k, p) ∈ l /\ infos cl !! k = Some i /\ r = client_record i.
Proof.
  intros Hw. induction l as [|[k p] l IH]; intros Hl; [exists []; split_and!; [done|done|]; intros r; split; [by intros ?%not_elem_of_nil|by intros (? & ? & ? & ?%not_elem_of_nil & _)]|].
  destruct IH as (rs & E1 & E2 & E3); [intros; apply Hl; by right|]. assert (clients cl !! k = Some p) as Hp by (apply Hl; left). destruct (wf_clients _ Hw _ _ Hp) as (c & Hc & Hi).
  exists (client_record (info c) :: rs).
  split_and!; [cbn; rewrite Hc; cbn; by rewrite E1|rewrite !fmap_cons, client_of_record, E2; cbn [fst]; by rewrite Hi|].
  assert (infos cl !! k = Some (info c)) as Hk by (unfold infos; rewrite lookup_omap, Hp; cbn; by rewrite Hc).
  intros r. rewrite elem_of_cons, E3. split.
  - intros [->|(k' & p' & i & Hin & Hi' & ->)]; [exists k, p, (info c); split_and!; [left|done|done]|exists k', p', i; split_and!; [by right|done|done]].
  - intros (k' & p' & i & [[= -> ->]|Hin]%elem_of_cons & Hi' & ->); [left; congruence|right; by exists k', p', i].
Qed.

Lemma infos_id cl k i : wf cl -> infos cl !! k = Some i -> ClientStore.ID i = k.
Proof.
  intros Hw. unfold infos. rewrite lookup_omap. destruct (clients cl !! k) as [p|] eqn:Hp; [|done]. cbn. destruct (wf_clients _ Hw _ _ Hp) as (c & Hc & Hi). rewrite Hc. by intros [= <-].
Qed.

Lemma take_snapshot_run n snap n' : take_snapshot e n = (Ok snap, n') -> node_ok unicode n -> node_subs_ok n ->
  snapshot_of n snap /\ calm n n' /\ RaftSnapshot.Padding snap = [].
Proof.
  intros Hr [G Hw] Hso. apply eff_bind_inv in Hr as (rs & n1 & E1 & (scs & n2 & E2 & [= <- <-])%eff_bind_inv).
  unfold snapshotClients in E1. rewrite eff_get in E1. destruct (client_records (clients_at n) Hw (range (clients (clients_at n)))) as (rs' & Em & Ei & Hin); [intros k p; by apply elem_of_range|].
  rewrite Em in E1. injection E1 as <- <-. unfold snapshotChannels in E2. rewrite eff_get in E2.
  destruct (snapshot_each_run n (range (channels (stan_at n))) n scs n2 E2 (reflexivity n)) as [C2 I2].
  { intros nm p Hp%elem_of_range. destruct (ro_channel _ _ G _ _ Hp) as (c & Hc & Hn & _). exists c. split_and!; [done|done|by eapply Hso]. }
  split; [|by split].
  assert (ChannelSnapshot.Channel <$> scs = (range (channels (stan_at n))).*1) as En.
  { clear - I2. induction I2 as [|np sc l l' (c & _ & Hn & I1 & _) _ IH]; [done|]. cbn. by rewrite I1, Hn, IH. }
  split; cbn [RaftSnapshot.Clients RaftSnapshot.Channels RaftSnapshot.Padding].
  - rewrite Ei. apply NoDup_range_fst.
  - intros k i. split.
    + intros Hi. split; [by eapply infos_id|]. exists (client_record i). rewrite client_of_record. split; [|done]. apply Hin.
      assert (is_Some (clients (clients_at n) !! k)) as [p Hp]. { unfold infos in Hi. rewrite lookup_omap in Hi. destruct (clients _ !! k); [by eexists|done]. }
      exists k, p, i. split_and!; [by apply elem_of_range|done|done].
    + intros (<- & r & (k' & p & i' & _ & Hi & ->)%Hin & <-). rewrite client_of_record. by rewrite (infos_id _ _ _ Hw Hi).
  - rewrite En. apply NoDup_range_fst.
  - intros sc Hsc. apply list_elem_of_lookup in Hsc as [j Hj]. destruct (Forall2_lookup_r _ _ _ _ _ I2 Hj) as ([nm p] & Hnp & c & Hc & Hn & Hit).
    assert ((nm, p) ∈ range (channels (stan_at n))) as Hp%elem_of_range by by eapply list_elem_of_lookup_2. exists p, c. split_and!; [|done|done]. cbn in *. destruct Hit as (-> & _). by rewrite Hn.
  - rewrite En. intros nm [p Hp]. apply list_elem_of_fmap. exists (nm, p). split; [done|by apply elem_of_range].
Qed.

(** ** The bytes *)

Lemma sov_small v : 0 <= v <= 1800 -> 0 <= Channels.CtrlMsg.sovProtocol (u64 v) <= 2.
Proof.
  intros Hv. rewrite u64_small by (unfold is_u64, two64; lia). unfold Channels.CtrlMsg.sovProtocol, Channels.CtrlMsg.Len64.
  assert (0 < Z.lor v 1 < 2 ^ 11) as Hl.
  { assert (0 <= Z.lor v 1) by (apply Z.lor_nonneg; lia). split.
    - assert (Z.lor v 1 <> 0) by (intros [_ ?]%Z.lor_eq_0_iff; lia). lia.
    - apply Z.log2_lt_cancel. rewrite Z.log2_lor by lia. assert (Z.log2 v < 11) by (destruct (Z.eq_dec v 0) as [->|]; [done|apply Z.log2_lt_pow2; lia]). change (Z.log2 (2 ^ 11)) with 11. change (Z.log2 1) with 0. lia. }
  rewrite (proj2 (Z.eqb_neq _ _)) by lia. assert (0 <= Z.log2 (Z.lor v 1) < 11) by (split; [apply Z.log2_nonneg|apply Z.log2_lt_pow2; lia]). 
  split; [apply Z.div_pos; lia|]. apply Z.lt_succ_r, Z.div_lt_upper_bound; lia.
Qed.

Definition same_records (snap snap' : RaftSnapshot.t) : Prop :=
  RaftSnapshot.Clients snap' = RaftSnapshot.Clients snap /\ RaftSnapshot.Channels snap' = RaftSnapshot.Channels snap.

Lemma size_padding cs ch pd : RaftSnapshot.Size (RaftSnapshot.mk cs ch pd) = RaftSnapshot.Size (RaftSnapshot.mk cs ch []) + Proto.size_bytes (Z.of_nat (length pd)).
Proof.
  unfold RaftSnapshot.Size, Proto.message_size, RaftSnapshot.fields. cbn [fmap list_fmap Proto.field_size RaftSnapshot.Clients RaftSnapshot.Channels RaftSnapshot.Padding length].
  set (a := Proto.sum (_ <$> cs)). set (b := Proto.sum (_ <$> ch)). change (Proto.size_bytes (Z.of_nat 0)) with 0. cbn. lia.
Qed.

Lemma padded_run snap :
  RaftSnapshot.Padding snap = [] -> Proto.c_typed RaftSnapshot.codec snap -> RaftSnapshot.Size snap < two32 ->
  1800 <= Z.of_nat (length (padded snap)) < two32 /\ exists snap', RaftSnapshot.Unmarshal RaftSnapshot.zero (padded snap) = Ok snap' /\ same_records snap snap'.
Proof.
  intros Hp Ht Hz. destruct (SpbSpec.snapshot_roundtrip snap Ht) as [R1 R2]; [unfold two32, two63 in *; lia|]. unfold padded. destruct (Nat.ltb_spec (length (RaftSnapshot.Marshal snap)) 1800) as [Hl|Hl].
  - set (pad := repeat Ascii.zero _). set (snap' := RaftSnapshot.mk _ _ pad).
    assert (Proto.c_typed RaftSnapshot.codec snap') as Ht' by (destruct snap; unfold RaftSnapshot.codec, RaftSnapshot.fields in *; cbn [Proto.c_typed] in *; rewrite !Forall_cons in *; destruct Ht as (T1 & T2 & _); split_and!; [exact T1|exact T2|exact I|constructor]).
    assert (length pad = (1800 - length (RaftSnapshot.Marshal snap))%nat) as Hpl by apply repeat_length.
    assert (RaftSnapshot.Size snap' = RaftSnapshot.Size snap + Proto.size_bytes (Z.of_nat (length pad))) as Hz'.
    { destruct snap as [cs ch pd]. cbn in Hp. subst pd. apply size_padding. }
    unfold Proto.size_bytes in Hz'. rewrite (proj2 (Z.ltb_lt _ _)) in Hz' by lia. unfold Proto.size_delimited in Hz'. pose proof (sov_small (Z.of_nat (length pad)) ltac:(lia)).
    destruct (SpbSpec.snapshot_roundtrip snap' Ht') as [R1' R2']; [unfold two63; lia|]. split; [unfold two32; lia|]. by exists snap'.
  - split; [lia|]. by exists snap.
Qed.

Definition sequences_ok (snap : RaftSnapshot.t) : Prop :=
  forall sc, sc ∈ RaftSnapshot.Channels snap -> 0 <= ChannelSnapshot.First sc /\ 0 <= ChannelSnapshot.Last sc.

Lemma typed_sequences snap : Proto.c_typed RaftSnapshot.codec snap -> sequences_ok snap.
Proof.
  unfold RaftSnapshot.codec, RaftSnapshot.fields. cbn [Proto.c_typed]. rewrite !Forall_cons. intros (_ & Ht & _) sc Hsc. cbn in Ht.
  rewrite Forall_forall in Ht. specialize (Ht sc Hsc). unfold ChannelSnapshot.fields in Ht. rewrite !Forall_cons in Ht. destruct Ht as (_ & [H1' _] & [H2' _] & _). by split.
Qed.

(** The snapshot in the bytes, as [Restore] reads it. *)
Definition holds_snapshot (b : list byte) (snap : RaftSnapshot.t) : Prop :=
  (4 <= length b)%nat /\ Z.to_nat (get_le (take 4 b)) = length (drop 4 b) /\ RaftSnapshot.Unmarshal RaftSnapshot.zero (drop 4 b) = Ok snap.

Lemma snapshot_of_same n snap snap' : same_records snap snap' -> snapshot_of n snap -> snapshot_of n snap'.
Proof. intros [E1 E2] []. split; by rewrite ?E1, ?E2. Qed.

Lemma Persist_run sink_fails n k n' :
  Persist e sink_fails n = (Ok tt, k, n') -> node_ok unicode n -> node_subs_ok n ->
  (forall snap n1, take_snapshot e n = (Ok snap, n1) -> Proto.c_typed RaftSnapshot.codec snap /\ RaftSnapshot.Size snap < two32) ->
  ended k = SinkClosed /\ 1804 <= Z.of_nat (length (written k)) /\ calm n n' /\ exists snap, snapshot_of n snap /\ holds_snapshot (written k) snap /\ sequences_ok snap.
Proof.
  intros Hr Ho Hso Hf. unfold Persist in Hr. destruct (take_snapshot e n) as [r n1] eqn:Et. destruct r as [snap| |]; [|done|done].
  destruct (take_snapshot_run _ _ _ Et Ho Hso) as (Hs & Hca & Hp). destruct (Hf snap n1 eq_refl) as [Ht Hz]. destruct (padded_run snap Hp Ht Hz) as (Hl & snap' & Hu & Hsame).
  unfold write_snapshot in Hr. destruct (sink_fails 0%nat); [done|]. destruct (sink_fails 1%nat); [done|]. destruct (sink_fails 2%nat); [done|].
  assert (k = mkSink (put_le 4 (u32 (Z.of_nat (length (padded snap)))) ++ padded snap) SinkClosed /\ n' = n1) as [-> ->] by (split; congruence).
  cbn [written ended]. rewrite length_app, length_put_le. split; [done|]. split; [lia|]. split; [done|]. exists snap'. split; [by eapply snapshot_of_same|].
  split; [|unfold sequences_ok; rewrite (proj2 Hsame); by apply typed_sequences]. unfold holds_snapshot.
  rewrite length_app, length_put_le, take_app_length', drop_app_length' by (by rewrite length_put_le). rewrite get_put_le_small.
  - split_and!; [lia| |done]. unfold u32. rewrite Z.mod_small by lia. lia.
  - pose proof (u32_range (Z.of_nat (length (padded snap)))). change (256 ^ Z.of_nat 4) with two32. lia.
Qed.
End Node.
End SnapPersist.
