(* ===== verification/SnapshotDrop.v ===== *)
(** * Dropping the subscriptions of a channel

    [Restore] first unsubscribes every subscriber of every channel.  When no durable is
    offline, nothing is left of the subscriptions of the channel, and those of the other
    channels are as they were. *)

From Stdlib Require Import ZArith Lia Ascii String.
From stdpp Require Import base list gmap strings.
From S2P Require Import Prelude Bytes GoLib Spb Sublist ClientStore SubState SubStore SubStoreSpec FsmAgree Snapshot SnapshotSpec SnapshotTake.

Local Open Scope Z_scope.

Module SnapDrop.
Import Sub Reg Snap SnapSpec SnapRecover SnapTake.

(** No durable and no durable group is without a subscriber. *)
Definition all_online (x : state) : Prop :=
  (forall k p sub, durables x.1 !! k = Some p -> subs x.2 !! p = Some sub -> IsClosed sub = false) /\
  (forall g q qs, qsubs x.1 !! g = Some q -> queues x.2 !! q = Some qs -> shadow qs = None).

(** ** One subscription less *)

(** The state without the subscriber [p]; another member may get the position of its group. *)
Record dropped (p : ptr) (sub : subState) (x x' : state) : Prop := {
  dr_nodup : NoDup (psubs x'.1);
  dr_psubs p' : p' ∈ psubs x'.1 <-> p' ∈ psubs x.1 /\ p' <> p;
  dr_lookups : acks x'.1 = delete (AckInbox sub) (acks x.1) /\ inboxes x'.1 = delete (Inbox sub) (inboxes x.1);
  dr_durables : durables x'.1 = if String.eqb (DurableName sub) "" then durables x.1 else delete (durableKey sub) (durables x.1);
  dr_groups g q : qsubs x'.1 !! g = Some q -> qsubs x.1 !! g = Some q /\ exists qs qs', queues x.2 !! q = Some qs /\ queues x'.2 !! q = Some qs' /\
    lastSent qs' = lastSent qs /\ shadow qs' = shadow qs /\ NoDup (members qs') /\ (forall p', p' ∈ members qs' <-> p' ∈ members qs /\ p' <> p) /\ members qs' <> [];
  dr_others g q qs p' : qsubs x.1 !! g = Some q -> queues x.2 !! q = Some qs -> p' ∈ members qs -> p' <> p -> qsubs x'.1 !! g = Some q;
  dr_subs p' s : p' <> p -> subs x.2 !! p' = Some s -> exists v, subs x'.2 !! p' = Some (set_LastSent v s) /\ LastSent s <= v /\
    (v = LastSent s \/ exists q qs, qstate s = Some q /\ queues x.2 !! q = Some qs /\ v = lastSent qs)
}.

Lemma running_sub nm cl x p : subs_ok nm cl x -> running x p ->
  exists sub, subs x.2 !! p = Some sub /\ online nm cl x.1 p sub /\ (DurableName sub <> "" -> durables x.1 !! durableKey sub = Some p).
Proof.
  intros Hok [Hp|(g & q & qs & Hq & Hqs & Hp)].
  - destruct (so_plain _ _ _ Hok _ Hp) as (sub & Hs & Ho & _ & _ & Hd). exists sub. split_and!; [done..|]. apply Hd.
  - destruct (so_group _ _ _ Hok _ _ Hq) as (_ & qs' & Hqs' & _ & Hm & _). simplify_eq. destruct (Hm p Hp) as (sub & Hs & Ho & _ & Hd & _). exists sub. by split_and!.
Qed.

Section Dropped.
Context (nm : string) (cl cl' : clientStore) (p : ptr) (sub : subState) (x x' : state).
Context (Hok : subs_ok nm cl x) (Hon : all_online x) (Hs : subs x.2 !! p = Some sub) (Ho : online nm cl x.1 p sub).
Context (Hdur : DurableName sub <> "" -> durables x.1 !! durableKey sub = Some p) (Hd : dropped p sub x x').
Context (Hcl : forall k p', client_has cl k p' -> p' <> p -> client_has cl' k p').

Lemma dropped_running p' : running x' p' <-> running x p' /\ p' <> p.
Proof.
  unfold running. split.
  - intros [Hp|(g & q & qs' & Hq & Hqs & Hp)].
    + apply (dr_psubs _ _ _ _ Hd) in Hp as [Hp Hne]. auto.
    + destruct (dr_groups _ _ _ _ Hd g q Hq) as (Hq0 & qs & qs1 & Hqs0 & Hqs1 & _ & _ & _ & Hm & _). simplify_eq. apply Hm in Hp as [Hp Hne]. split; [|done]. right. by exists g, q, qs.
  - intros [[Hp|(g & q & qs & Hq & Hqs & Hp)] Hne]; [left; by apply (dr_psubs _ _ _ _ Hd)|]. right.
    pose proof (dr_others _ _ _ _ Hd g q qs p' Hq Hqs Hp Hne) as Hq'. destruct (dr_groups _ _ _ _ Hd g q Hq') as (_ & qs1 & qs' & Hqs1 & Hqs' & _ & _ & _ & Hm & _). simplify_eq.
    exists g, q, qs'. split_and!; [done|done|]. by apply Hm.
Qed.

Lemma dropped_online p' s v : p' <> p -> 0 <= v -> online nm cl x.1 p' s -> online nm cl' x'.1 p' (set_LastSent v s).
Proof.
  intros Hne Hv [H1 H2 H3 H4 H5 H6 H7]. destruct (dr_lookups _ _ _ _ Hd) as [Ea Ei]. split; [done..| | |by apply Hcl].
  - rewrite Ea. cbn. rewrite lookup_delete_ne; [done|]. intros Hk. rewrite <- Hk, (on_ack _ _ _ _ _ Ho) in H5. congruence.
  - rewrite Ei. cbn. rewrite lookup_delete_ne; [done|]. intros Hk. rewrite <- Hk, (on_inbox _ _ _ _ _ Ho) in H6. congruence.
Qed.

Lemma dropped_durable k p' : p' <> p -> durables x.1 !! k = Some p' -> durables x'.1 !! k = Some p'.
Proof.
  intros Hne Hk. rewrite (dr_durables _ _ _ _ Hd). destruct (String.eqb_spec (DurableName sub) "") as [|Hn]; [done|].
  rewrite lookup_delete_ne; [done|]. intros <-. rewrite Hdur in Hk by done. congruence.
Qed.

Lemma dropped_plain p' : p' ∈ psubs x'.1 -> exists s, subs x'.2 !! p' = Some s /\ plain_ok nm cl' x'.1 p' s.
Proof.
  intros [Hp Hne]%(dr_psubs _ _ _ _ Hd). destruct (so_plain _ _ _ Hok _ Hp) as (s & Hs' & Ho' & Hq & Hqs & Hds).
  destruct (dr_subs _ _ _ _ Hd _ _ Hne Hs') as (v & Hv & Hle & _). exists (set_LastSent v s). split; [done|]. pose proof (on_position _ _ _ _ _ Ho').
  split; [apply dropped_online; [done|lia|done]|]. split_and!; [done..|]. intros Hn. cbn in Hn. destruct (Hds Hn) as [Hi Hk]. split; [done|].
  by apply dropped_durable.
Qed.

Lemma durableKey_name s : DurableName s <> "" -> durableKey s <> "".
Proof. intros Hn. unfold durableKey, durable_key. rewrite (proj2 (String.eqb_neq _ _) Hn). by destruct (ClientID s). Qed.

(** A lookup that is left leads to another subscriber. *)
Lemma dropped_lookup (m : gmap string ptr) (key : subState -> string) k p' :
  (forall k p, m !! k = Some p -> running x p /\ exists s, subs x.2 !! p = Some s /\ key s = k) -> (forall v s, key (set_LastSent v s) = key s) ->
  delete (key sub) m !! k = Some p' -> running x' p' /\ exists s, subs x'.2 !! p' = Some s /\ key s = k.
Proof.
  intros Hm Hkey [Hne Hp]%lookup_delete_Some. destruct (Hm k p' Hp) as (Hr & s & Hs' & <-).
  assert (p' <> p) as Hnp by (intros ->; congruence). destruct (dr_subs _ _ _ _ Hd _ _ Hnp Hs') as (v & Hv & _). split; [by apply dropped_running|]. exists (set_LastSent v s). by rewrite Hkey.
Qed.

Lemma dropped_ok : subs_ok nm cl' x' /\ all_online x'.
Proof.
  split.
  - split; [apply Hd|apply dropped_plain|..].
    + intros k p' Hk. rewrite (dr_durables _ _ _ _ Hd) in Hk.
      assert (durables x.1 !! k = Some p' /\ (DurableName sub <> "" -> k <> durableKey sub)) as [Hk0 Hne].
      { destruct (String.eqb_spec (DurableName sub) ""); [done|]. by apply lookup_delete_Some in Hk as [? ?]. }
      destruct (so_durable _ _ _ Hok _ _ Hk0) as (s & Hs' & [(Hin & Hdn & Ek)|Hc]).
      * assert (p' <> p) as Hnp by (intros ->; simplify_eq; by apply Hne). destruct (dr_subs _ _ _ _ Hd _ _ Hnp Hs') as (v & Hv & _). exists (set_LastSent v s). split; [done|].
        left. split_and!; [by apply (dr_psubs _ _ _ _ Hd)|done|done].
      * destruct Hc as (_ & _ & _ & _ & Hc & _). by rewrite (proj1 Hon k p' s) in Hc.
    + intros g q Hq. destruct (dr_groups _ _ _ _ Hd g q Hq) as (Hq0 & qs & qs' & Hqs & Hqs' & El & Esh & Hnd & Hm & Hne).
      destruct (so_group _ _ _ Hok _ _ Hq0) as (Hg & qs1 & Hqs1 & _ & Hmem & _). simplify_eq. split; [done|]. exists qs'. split_and!; [done..| |by rewrite Esh, (proj2 Hon g q qs)].
      intros p' [Hp Hnp]%Hm. destruct (Hmem p' Hp) as (s & Hs' & Ho' & Hgr). destruct (dr_subs _ _ _ _ Hd _ _ Hnp Hs') as (v & Hv & Hle & Hcase). exists (set_LastSent v s).
      pose proof (on_position _ _ _ _ _ Ho'). split; [done|]. split; [apply dropped_online; [done|lia|done]|]. destruct Hgr as (G1 & G2 & G3 & G4). split_and!; [done..|]. cbn. rewrite El.
      destruct Hcase as [->|(q2 & qs2 & Hq2 & Hqs2 & ->)]; [done|]. simplify_eq. lia.
    + destruct (dr_lookups _ _ _ _ Hd) as [-> _]. intros k p'. apply (dropped_lookup _ AckInbox); [apply (so_acks _ _ _ Hok)|done].
    + destruct (dr_lookups _ _ _ _ Hd) as [_ ->]. intros k p'. apply (dropped_lookup _ Inbox); [apply (so_inboxes _ _ _ Hok)|done].
  - split.
    + intros k p' s Hk Hs'. rewrite (dr_durables _ _ _ _ Hd) in Hk. assert (durables x.1 !! k = Some p' /\ (DurableName sub <> "" -> k <> durableKey sub)) as [Hk0 Hne].
      { destruct (String.eqb_spec (DurableName sub) ""); [done|]. by apply lookup_delete_Some in Hk as [? ?]. }
      destruct (so_durable _ _ _ Hok _ _ Hk0) as (s0 & Hs0 & Hcase). assert (p' <> p) as Hnp.
      { intros ->. simplify_eq. destruct Hcase as [(_ & Hdn & Ek)|(_ & _ & _ & _ & Hc & _)]; [by apply Hne|]. by rewrite (on_open _ _ _ _ _ Ho) in Hc. }
      destruct (dr_subs _ _ _ _ Hd _ _ Hnp Hs0) as (v & Hv & _). simplify_eq. cbn. by apply (proj1 Hon k p').
    + intros g q qs' Hq Hqs'. destruct (dr_groups _ _ _ _ Hd g q Hq) as (Hq0 & qs & qs1 & Hqs & Hqs1 & _ & Esh & _). simplify_eq. rewrite Esh. by apply (proj2 Hon g q).
Qed.
End Dropped.

(** ** [unsubscribeSub] *)

Lemma perm_less {A : Type} (p : A) l l' : l ≡ₚ p :: l' -> NoDup l -> NoDup l' /\ forall p', p' ∈ l' <-> p' ∈ l /\ p' <> p.
Proof.
  intros E Hnd. assert (NoDup (p :: l')) as Hnd' by by rewrite <- E. apply NoDup_cons in Hnd' as [Hn Hnd']. split; [done|]. intros p'. rewrite E, elem_of_cons. naive_solver.
Qed.

Lemma persist_subs e o st : subs (try_persist e o st).2 = subs st.
Proof. unfold try_persist. by destruct (persist_fails e _). Qed.

Lemma set_LastSent_id s : set_LastSent (LastSent s) s = s.
Proof. by destruct s. Qed.

Section Unsubscribe.
Context `{!RangeOrder Z} `{!Sorter}.
Context (e : env) (nm : string) (cl : clientStore) (p : ptr) (sub : subState) (ss : subStore) (st : server).
Context (Hok : subs_ok nm cl (ss, st)) (Hon : all_online (ss, st)) (Hs : subs st !! p = Some sub).

(** What is the same for all subscribers. *)
Definition lookups_less : subStore :=
  let ss := set_lookups (delete (AckInbox sub) (acks ss)) (delete (Inbox sub) (inboxes ss)) ss in
  if String.eqb (DurableName sub) "" then ss else set_durables (delete (durableKey sub) (durables ss)) ss.

Lemma Remove_plain : p ∈ psubs ss -> exists st', Remove e false p true (ss, st) = (set_psubs (deleteFromList p (psubs ss)).1 lookups_less, st') /\
  queues st' = queues st /\ (forall p', p' <> p -> subs st' !! p' = subs st !! p').
Proof.
  intros Hp. destruct (so_plain _ _ _ Hok _ Hp) as (sub' & Hs' & Ho & Hq & Hqs & _). cbn in Hs'. assert (sub' = sub) as -> by congruence.
  unfold Remove. rewrite Hs. cbv zeta. set (st1 := if negb _ || _ then _ else _).
  assert (queues st1 = queues st /\ subs st1 = <[p := set_ClientID "" (set_savedClientID (ClientID sub) sub)]> (subs st)) as [E1 E2].
  { unfold st1. destruct (_ || _); [|done]. by rewrite RegSpec.queues_persist, persist_subs. }
  cbn [qstate clearAckTimer set_ackTimer set_ClientID set_savedClientID]. rewrite Hqs. cbn [IsDurable negb andb]. rewrite andb_false_r. cbn [andb].
  eexists. split; [|split].
  - f_equal. unfold lookups_less, isDurableSubscriber. destruct (String.eqb_spec (DurableName sub) "") as [|Hn]; [done|]. cbn.
    by rewrite (proj2 (String.eqb_neq _ _) (durableKey_name _ Hn)).
  - cbn. done.
  - intros p' Hne. cbn. by rewrite lookup_insert_ne, E2, lookup_insert_ne.
Qed.

(** The position of a group that goes to its first member. *)
Lemma update_position_subs qs st1 :
  shadow qs = None -> let st' := update_position e qs st1 in
  queues st' = queues st1 /\ forall p' s, subs st1 !! p' = Some s -> exists v, subs st' !! p' = Some (set_LastSent v s) /\ (v = LastSent s \/ p' ∈ members qs /\ v = lastSent qs).
Proof.
  intros Hsh. cbn. assert (forall p' s, subs st1 !! p' = Some s -> exists v, subs st1 !! p' = Some (set_LastSent v s) /\ (v = LastSent s \/ p' ∈ members qs /\ v = lastSent qs)) as Hid.
  { intros p' s Hs'. exists (LastSent s). rewrite set_LastSent_id. auto. }
  unfold update_position. rewrite Hsh. destruct (head (members qs)) as [p1|] eqn:Hh; [|by split]. destruct (subs st1 !! p1) as [s1|] eqn:Hs1; [|by split].
  rewrite RegSpec.queues_persist, persist_subs. split; [done|]. intros p' s Hs'. cbn. destruct (decide (p' = p1)) as [->|Hne].
  - rewrite lookup_insert_eq. simplify_eq. eexists. split; [done|]. right. split; [|done]. destruct (members qs); [done|]. injection Hh as ->. left.
  - rewrite lookup_insert_ne by done. by apply Hid.
Qed.

Record left_group (g : string) (q : ptr) (qs : queueState) (ss' : subStore) (st' : server) : Prop := {
  lg_maps : (psubs ss', acks ss', inboxes ss', durables ss') = (psubs lookups_less, acks lookups_less, inboxes lookups_less, durables lookups_less);
  lg_group : let ms := (deleteFromList p (members qs)).1 in ms = [] /\ qsubs ss' = delete g (qsubs ss) \/ ms <> [] /\ qsubs ss' = qsubs ss;
  lg_queue : exists qs', queues st' = <[q := qs']> (queues st) /\ members qs' = (deleteFromList p (members qs)).1 /\ lastSent qs' = lastSent qs /\ shadow qs' = shadow qs;
  lg_subs p' s : p' <> p -> subs st !! p' = Some s -> exists v, subs st' !! p' = Some (set_LastSent v s) /\ (v = LastSent s \/ p' ∈ (deleteFromList p (members qs)).1 /\ v = lastSent qs)
}.

Lemma leave_group_left g q qs sub0 ss1 st1 :
  queues st1 = queues st -> subs st1 = <[p := sub0]> (subs st) -> QGroup sub0 = g -> shadow qs = None ->
  (psubs ss1, acks ss1, inboxes ss1, durables ss1) = (psubs lookups_less, acks lookups_less, inboxes lookups_less, durables lookups_less) -> qsubs ss1 = qsubs ss ->
  let x' := (leave_group e false true p sub0 q qs ss1 st1).2 in left_group g q qs x'.1 x'.2.
Proof.
  intros E1 E2 Eg Hsh Em Eq. cbn zeta. unfold leave_group. cbn [members set_members].
  assert (forall p' s, p' <> p -> subs st !! p' = Some s -> subs st1 !! p' = Some s) as Hk by (intros p' s Hne Hs'; by rewrite E2, lookup_insert_ne).
  destruct (deleteFromList p (members qs)).1 as [|p0 ms'] eqn:Ems.
  - rewrite orb_true_r. cbn [fst snd]. split; [done|left; split; [done|cbn; by rewrite Eg, Eq]|..].
    + rewrite RegSpec.queues_persist. eexists. cbn. rewrite E1. split_and!; [done|by rewrite Ems|done|done].
    + rewrite persist_subs. intros p' s Hne Hs'. exists (LastSent s). rewrite set_LastSent_id. split; [by apply Hk|by left].
  - set (qs1 := if stalled sub0 && _ then _ else _).
    assert (members qs1 = p0 :: ms' /\ lastSent qs1 = lastSent qs /\ shadow qs1 = shadow qs) as (M1 & L1 & S1) by (unfold qs1; by destruct (_ && _)).
    cbn [fst snd]. set (st2 := if IsDurable sub0 then _ else _).
    assert (queues st2 = <[q := qs1]> (queues st) /\ subs st2 = subs st1) as [Q2 S2].
    { unfold st2. destruct (IsDurable sub0); rewrite ?RegSpec.queues_persist, ?persist_subs; cbn; by rewrite E1. }
    destruct (update_position_subs qs1 st2) as [Q3 S3]; [by rewrite S1|]. rewrite M1, L1 in S3. split; [done|right; by rewrite Ems|..].
    + exists qs1. destruct (_ =? _); rewrite ?Q3, Q2; split_and!; try done; by rewrite M1, Ems.
    + intros p' s Hne Hs'. apply Hk in Hs'; [|done]. rewrite <- S2 in Hs'. destruct (_ =? _); [rewrite Ems; by apply S3|]. exists (LastSent s). rewrite set_LastSent_id. auto.
Qed.

Lemma Remove_member g q qs : qsubs ss !! g = Some q -> queues st !! q = Some qs -> p ∈ members qs ->
  let x' := Remove e false p true (ss, st) in left_group g q qs x'.1 x'.2.
Proof.
  intros Hq Hqs Hp. destruct (so_group _ _ _ Hok _ _ Hq) as (Hg & qs' & Hqs' & _ & Hm & _). cbn in Hqs'. assert (qs' = qs) as -> by congruence.
  destruct (Hm p Hp) as (sub' & Hs' & _ & Eg & Hdn & Hst & _). cbn in Hs'. assert (sub' = sub) as -> by congruence.
  pose proof (proj2 Hon g q qs Hq Hqs) as Hsh. cbn zeta. unfold Remove. rewrite Hs. cbv zeta. set (st1 := if negb _ || _ then _ else _).
  assert (queues st1 = queues st /\ subs st1 = <[p := set_ClientID "" (set_savedClientID (ClientID sub) sub)]> (subs st)) as [E1 E2].
  { unfold st1. destruct (_ || _); [|done]. by rewrite RegSpec.queues_persist, persist_subs. }
  set (sub0 := clearAckTimer _). assert (qstate sub0 = Some q) as -> by done. set (ss1 := if true && _ then _ else _). assert (queues (put_sub p sub0 st1) !! q = Some qs) as -> by (cbn; by rewrite E1).
  destruct (leave_group e false true p sub0 q qs ss1 (put_sub p sub0 st1)) as [moved [ss2 st2]] eqn:El. cbn [fst snd].
  pose proof (leave_group_left g q qs sub0 ss1 (put_sub p sub0 st1)) as Hl. cbn zeta in Hl. rewrite El in Hl. apply Hl; [done|cbn; by rewrite E2, insert_insert_eq|done|done|..].
  - unfold ss1, lookups_less, isDurableSubscriber. by rewrite Hdn.
  - unfold ss1. by destruct (_ && _).
Qed.

(** What belongs to other channels stays. *)
Record aside (st' : server) : Prop := {
  as_subs p' s : subs st !! p' = Some s -> subject s <> nm -> subs st' !! p' = Some s;
  as_queues q qs m s : queues st !! q = Some qs -> m ∈ members qs -> subs st !! m = Some s -> subject s <> nm -> queues st' !! q = Some qs
}.

Lemma lookups_less_maps :
  acks lookups_less = delete (AckInbox sub) (acks ss) /\ inboxes lookups_less = delete (Inbox sub) (inboxes ss) /\
  durables lookups_less = (if String.eqb (DurableName sub) "" then durables ss else delete (durableKey sub) (durables ss)) /\
  psubs lookups_less = psubs ss /\ qsubs lookups_less = qsubs ss.
Proof. unfold lookups_less. by destruct (String.eqb _ _). Qed.

Lemma group_of_member g q qs p' : qsubs ss !! g = Some q -> queues st !! q = Some qs -> p' ∈ members qs ->
  exists s, subs st !! p' = Some s /\ QGroup s = g /\ g <> "" /\ subject s = nm /\ qstate s = Some q /\ LastSent s <= lastSent qs /\ NoDup (members qs) /\ shadow qs = None.
Proof.
  intros Hq Hqs Hp. destruct (so_group _ _ _ Hok _ _ Hq) as (Hg & qs' & Hqs' & Hnd & Hm & _). cbn in Hqs'. assert (qs' = qs) as -> by congruence.
  destruct (Hm p' Hp) as (s & Hs' & Ho & G1 & G2 & G3 & G4). exists s. split_and!; try done; [apply Ho|by apply (proj2 Hon g q)].
Qed.

Lemma groups_nonempty g q qs : qsubs ss !! g = Some q -> queues st !! q = Some qs -> members qs <> [].
Proof.
  intros Hq Hqs. destruct (so_group _ _ _ Hok _ _ Hq) as (_ & qs' & Hqs' & _ & _ & Hsh). cbn in Hqs'. assert (qs' = qs) as -> by congruence. by rewrite (proj2 Hon g q qs Hq Hqs) in Hsh.
Qed.

Lemma plain_dropped : p ∈ psubs ss -> let x' := Remove e false p true (ss, st) in dropped p sub (ss, st) x' /\ aside x'.2.
Proof.
  intros Hp. destruct (Remove_plain Hp) as (st' & -> & Eq & Es). destruct lookups_less_maps as (M1 & M2 & M3 & M4 & M5). cbn zeta.
  destruct (so_plain _ _ _ Hok _ Hp) as (sub' & Hs' & Ho & Hq0 & _). cbn in Hs'. assert (sub' = sub) as -> by congruence.
  destruct (perm_less p (psubs ss) _ (RegSpec.deleteFromList_perm _ _ Hp) (so_psubs _ _ _ Hok)) as [Hnd Hin].
  split; split; cbn; rewrite ?M5, ?Eq; try done.
  - intros g q Hq. destruct (so_group _ _ _ Hok _ _ Hq) as (Hg & qs & Hqs & Hmn & _). cbn in Hqs. split; [done|]. exists qs, qs. split_and!; try done; [|by apply (groups_nonempty g q)].
    intros p'. split; [|by intros []]. intros Hp'. split; [done|]. intros ->. destruct (group_of_member g q qs p Hq Hqs Hp') as (s & Hs2 & Hg2 & _). congruence.
  - intros p' s Hne Hs2. exists (LastSent s). rewrite set_LastSent_id, Es by done. split_and!; [done|lia|by left].
  - intros p' s Hs2 Hsj. rewrite Es; [done|]. intros ->. simplify_eq. apply Hsj, Ho.
Qed.

Lemma member_dropped g q qs : qsubs ss !! g = Some q -> queues st !! q = Some qs -> p ∈ members qs ->
  let x' := Remove e false p true (ss, st) in dropped p sub (ss, st) x' /\ aside x'.2.
Proof.
  intros Hq Hqs Hp. pose proof (Remove_member g q qs Hq Hqs Hp) as [L1 L2 (qs' & Eq & Em & El & Esh) L4]. cbn zeta in *. set (x' := Remove e false p true (ss, st)) in *.
  destruct lookups_less_maps as (M1 & M2 & M3 & M4 & M5). rewrite M1, M2, M3, M4 in L1. injection L1 as P1 P2 P3 P4.
  destruct (group_of_member g q qs p Hq Hqs Hp) as (s & Hs' & Hg & Hne & Hsj & _ & _ & Hmn & Hsn). assert (s = sub) as -> by congruence.
  destruct (perm_less p (members qs) _ (RegSpec.deleteFromList_perm _ _ Hp) Hmn) as [Hnd Hin].
  assert (forall g' q', qsubs ss !! g' = Some q' -> g' <> g -> q' <> q) as Hqne.
  { intros g' q' Hq' Hn ->. destruct (group_of_member g' q qs p Hq' Hqs Hp) as (s & Hs2 & Hg2 & _). congruence. }
  split; split; cbn [fst snd].
  - rewrite P1. apply Hok.
  - intros p'. rewrite P1. split; [|by intros []]. intros Hp'. split; [done|]. intros ->. destruct (so_plain _ _ _ Hok _ Hp') as (s & Hs2 & _ & Hq2 & _). cbn in Hs2. congruence.
  - done.
  - done.
  - intros g' q' Hq'. assert (qsubs ss !! g' = Some q' /\ (g' = g -> (deleteFromList p (members qs)).1 <> [])) as [Hq0 Hmne].
    { destruct L2 as [[_ E2]|[E2 E3]]; [|rewrite E3 in Hq'; by split]. rewrite E2 in Hq'. apply lookup_delete_Some in Hq' as [? ?]. split; [done|congruence]. }
    split; [done|]. rewrite Eq. destruct (decide (g' = g)) as [->|Hn].
    + assert (q' = q) as -> by congruence. exists qs, qs'. rewrite lookup_insert_eq, Em. split_and!; try done. by apply Hmne.
    + destruct (so_group _ _ _ Hok _ _ Hq0) as (_ & qs2 & Hqs2 & Hmn2 & _). cbn in Hqs2. exists qs2, qs2. rewrite lookup_insert_ne by (by apply not_eq_sym, (Hqne g')).
      split_and!; try done; [|by apply (groups_nonempty g' q')]. intros p'. split; [|by intros []]. intros Hp'. split; [done|]. intros ->.
      destruct (group_of_member g' q' qs2 p Hq0 Hqs2 Hp') as (s & Hs2 & Hg2 & _). congruence.
  - intros g' q' qs2 p' Hq' Hqs2 Hp' Hn. destruct L2 as [[E2 E3]|[_ ->]]; [|done]. rewrite E3, lookup_delete_ne; [done|]. intros <-. assert (q' = q) as -> by congruence. assert (qs2 = qs) as -> by congruence.
    assert (p' ∈ (deleteFromList p (members qs)).1) as Hx by by apply Hin. rewrite E2 in Hx. by apply not_elem_of_nil in Hx.
  - intros p' s Hn Hs2. destruct (L4 p' s Hn Hs2) as (v & Hv & Hcase). exists v. split; [done|]. destruct Hcase as [->|[Hp' ->]]; [split; [lia|by left]|].
    apply Hin in Hp' as [Hp' _]. destruct (group_of_member g q qs p' Hq Hqs Hp') as (s2 & Hs3 & _ & _ & _ & Hst & Hle & _). assert (s2 = s) as -> by congruence. split; [done|]. right. by exists q, qs.
  - intros p' s Hs2 Hsj'. assert (p' <> p) as Hn by congruence. destruct (L4 p' s Hn Hs2) as (v & Hv & Hcase). rewrite Hv. f_equal. destruct Hcase as [->|[Hp' _]]; [apply set_LastSent_id|].
    apply Hin in Hp' as [Hp' _]. destruct (group_of_member g q qs p' Hq Hqs Hp') as (s2 & Hs3 & _ & _ & Hsj2 & _). congruence.
  - intros q' qs2 m s Hqs2 Hm Hs2 Hsj'. rewrite Eq, lookup_insert_ne; [done|]. intros <-. assert (qs2 = qs) as -> by congruence.
    destruct (group_of_member g q qs m Hq Hqs Hm) as (s2 & Hs3 & _ & _ & Hsj2 & _). congruence.
Qed.

(** ** The client *)

Lemma removeSub_run k : client_has cl k p ->
  exists cl', removeSub cl k p = (true, cl') /\ forall k' p', client_has cl k' p' -> p' <> p -> client_has cl' k' p'.
Proof.
  intros (q & c & Hq & Hc & Hp). unfold removeSub. rewrite Hq. cbn. rewrite Hc. cbn. destruct (removeFromList p (csubs c)) as [l|] eqn:Hr; [|by apply removeFromList_None in Hr].
  eexists. split; [done|]. apply removeFromList_Some in Hr. intros k' p' (q' & c' & Hq' & Hc' & Hp') Hne. unfold client_has. cbn. destruct (decide (q' = q)) as [->|Hn].
  - exists q, (mkClient (info c) (hbt c) (fhb c) l). rewrite lookup_insert_eq. split_and!; [done..|]. cbn. assert (c' = c) as -> by congruence. rewrite Hr in Hp'. apply elem_of_cons in Hp' as [?|?]; [congruence|done].
  - exists q', c'. by rewrite lookup_insert_ne.
Qed.

Lemma unsubscribe_dropped : running (ss, st) p ->
  exists cl' x', unsubscribeSub e false (ClientID sub) p false cl (ss, st) = (None, cl', x') /\ FsmAgree.same_infos cl cl' /\
    (forall k' p', client_has cl k' p' -> p' <> p -> client_has cl' k' p') /\
    subs_ok nm cl' x' /\ all_online x' /\ (forall p', running x' p' <-> running (ss, st) p' /\ p' <> p) /\ aside x'.2.
Proof.
  intros Hr. destruct (running_sub _ _ _ _ Hok Hr) as (sub' & Hs' & Ho & Hdur). cbn in Hs'. assert (sub' = sub) as -> by congruence.
  destruct (removeSub_run _ (on_registered _ _ _ _ _ Ho)) as (cl' & Er & Hcl). unfold unsubscribeSub. rewrite Er. cbn [negb]. eexists cl', _. split; [done|].
  split; [pose proof (FsmAgree.removeSub_infos cl (ClientID sub) p) as Hi; by rewrite Er in Hi|]. split; [done|].
  assert (dropped p sub (ss, st) (Remove e false p true (ss, st)) /\ aside (Remove e false p true (ss, st)).2) as [Hd Ha].
  { destruct Hr as [Hp|(g & q & qs & Hq & Hqs & Hp)]; [by apply plain_dropped|by apply (member_dropped g q qs)]. }
  destruct (dropped_ok nm cl cl' p sub (ss, st) _ Hok Hon Hs Ho Hdur Hd Hcl) as [H1 H2]. split_and!; [done|done| |done].
  intros p'. by apply (dropped_running p sub).
Qed.
End Unsubscribe.

(** ** All of them *)

Lemma nothing_left nm cl x : subs_ok nm cl x -> all_online x -> (forall p, ~ running x p) -> x.1 = createSubStore.
Proof.
  intros Hok Hon Hr. assert (psubs x.1 = []) as E1 by (apply elem_of_nil_inv; intros p Hp; apply (Hr p); by left).
  assert (forall m : gmap string ptr, (forall k p, m !! k = Some p -> running x p) -> m = ∅) as He.
  { intros m Hm. apply map_empty. intros k. destruct (m !! k) as [p|] eqn:Hp; [|done]. by destruct (Hr p (Hm k p Hp)). }
  assert (durables x.1 = ∅ /\ acks x.1 = ∅ /\ inboxes x.1 = ∅ /\ qsubs x.1 = ∅) as (E2 & E3 & E4 & E5).
  { split_and!.
    - apply He. intros k p Hp. destruct (so_durable _ _ _ Hok _ _ Hp) as (sub & Hs & [(Hin & _)|(_ & _ & _ & _ & Hc & _)]); [by left|]. by rewrite (proj1 Hon k p sub) in Hc.
    - apply He. intros k p Hp. apply (so_acks _ _ _ Hok _ _ Hp).
    - apply He. intros k p Hp. apply (so_inboxes _ _ _ Hok _ _ Hp).
    - apply map_empty. intros g. destruct (qsubs x.1 !! g) as [q|] eqn:Hq; [|done]. destruct (so_group _ _ _ Hok _ _ Hq) as (_ & qs & Hqs & _ & _ & Hsh).
      rewrite (proj2 Hon g q qs Hq Hqs) in Hsh. destruct (members qs) as [|p l] eqn:Em; [done|]. destruct (Hr p). right. exists g, q, qs. rewrite Em. split_and!; [done|done|left]. }
  destruct x as [[] st]. cbn in *. by subst.
Qed.

(** The other channels. *)
Lemma aside_ok nm nm' cl cl' p sub ss st st' :
  subs st !! p = Some sub -> subject sub = nm -> nm' <> nm -> aside nm st st' -> (forall k p', client_has cl k p' -> p' <> p -> client_has cl' k p') ->
  subs_ok nm' cl (ss, st) -> all_online (ss, st) -> subs_ok nm' cl' (ss, st') /\ all_online (ss, st').
Proof.
  intros Hs Hsj Hne [As Aq] Hcl Hok Hon.
  assert (forall p' s, subs st !! p' = Some s -> online nm' cl ss p' s -> subs st' !! p' = Some s /\ online nm' cl' ss p' s) as Hkeep.
  { intros p' s Hs' Ho. pose proof (on_subject _ _ _ _ _ Ho) as Hsj'. split; [apply As; [done|congruence]|]. destruct Ho as [H1 H2 H3 H4 H5 H6 H7]. split; try done. apply Hcl; [done|]. intros ->. congruence. }
  assert (forall g q, qsubs ss !! g = Some q -> exists qs, queues st !! q = Some qs /\ queues st' !! q = Some qs) as Hq.
  { intros g q Hq. destruct (so_group _ _ _ Hok _ _ Hq) as (_ & qs & Hqs & _ & Hm & Hsh). cbn in Hqs. exists qs. split; [done|]. rewrite (proj2 Hon g q qs Hq Hqs) in Hsh.
    destruct (members qs) as [|m l] eqn:Em; [done|]. destruct (Hm m ltac:(left)) as (s & Hs' & Ho & _). eapply Aq; [done|rewrite Em; left|exact Hs'|]. rewrite (on_subject _ _ _ _ _ Ho). done. }
  assert (forall p', running (ss, st) p' -> running (ss, st') p') as Hrun.
  { intros p' [Hp|(g & q & qs & Hgq & Hqs & Hp)]; [by left|]. right. exists g, q, qs. destruct (Hq g q Hgq) as (qs' & Hqs' & Hqs2). cbn in Hqs. by simplify_eq. }
  assert (forall p', running (ss, st) p' -> exists s, subs st !! p' = Some s /\ subs st' !! p' = Some s) as Hrs.
  { intros p' Hr. destruct (running_sub _ _ _ _ Hok Hr) as (s & Hs' & Ho & _). exists s. split; [done|by apply Hkeep]. }
  split.
  - split; [apply Hok|..]; cbn.
    + intros p' Hp. destruct (so_plain _ _ _ Hok _ Hp) as (s & Hs' & Ho & Hrest). exists s. destruct (Hkeep p' s Hs' Ho) as [? ?]. split; [done|]. by split.
    + intros k p' Hp. destruct (so_durable _ _ _ Hok _ _ Hp) as (s & Hs' & [Hl|(_ & _ & _ & _ & Hc & _)]); [|by rewrite (proj1 Hon k p' s) in Hc].
      destruct (Hrs p' ltac:(left; apply Hl)) as (s2 & Hs2 & Hs3). cbn in Hs'. assert (s2 = s) as -> by congruence. exists s. split; [done|by left].
    + intros g q Hgq. destruct (so_group _ _ _ Hok _ _ Hgq) as (Hg & qs & Hqs & Hnd & Hm & Hsh). cbn in Hqs. destruct (Hq g q Hgq) as (qs' & Hqs' & Hqs2). assert (qs' = qs) as -> by congruence.
      split; [done|]. exists qs. rewrite (proj2 Hon g q qs Hgq Hqs) in *. split_and!; try done. intros p' Hp. destruct (Hm p' Hp) as (s & Hs' & Ho & Hgr). exists s. destruct (Hkeep p' s Hs' Ho). by split.
    + intros k p' Hp. destruct (so_acks _ _ _ Hok _ _ Hp) as (Hr & s & Hs' & Hk). split; [by apply Hrun|]. destruct (Hrs p' Hr) as (s2 & Hs2 & Hs3). cbn in Hs'. exists s2. split; [done|congruence].
    + intros k p' Hp. destruct (so_inboxes _ _ _ Hok _ _ Hp) as (Hr & s & Hs' & Hk). split; [by apply Hrun|]. destruct (Hrs p' Hr) as (s2 & Hs2 & Hs3). cbn in Hs'. exists s2. split; [done|congruence].
  - split; cbn.
    + intros k p' s Hp Hs'. destruct (so_durable _ _ _ Hok _ _ Hp) as (s0 & Hs0 & [Hl|(_ & _ & _ & _ & Hc & _)]); [|by rewrite (proj1 Hon k p' s0) in Hc].
      destruct (Hrs p' ltac:(left; apply Hl)) as (s2 & Hs2 & Hs3). assert (s2 = s) as -> by congruence. by apply (proj1 Hon k p').
    + intros g q qs Hgq Hqs. destruct (Hq g q Hgq) as (qs' & Hqs' & Hqs2). assert (qs' = qs) as -> by congruence. by apply (proj2 Hon g q).
Qed.

Section All.
Context `{!RangeOrder Z} `{!RangeOrder string}.

Lemma getAllSubs_running nm cl x p : subs_ok nm cl x -> p ∈ getAllSubs x <-> running x p.
Proof.
  intros Hok. unfold getAllSubs, running. rewrite elem_of_app, list_elem_of_bind. split; (intros [Hp|Hp]; [by left|right]).
  - destruct Hp as ([g q] & Hp & Hq%elem_of_range). cbn in Hp. destruct (queues x.2 !! q) as [qs|] eqn:Hqs; [|by apply not_elem_of_nil in Hp]. by exists g, q, qs.
  - destruct Hp as (g & q & qs & Hq & Hqs & Hp). exists (g, q). cbn. rewrite Hqs. split; [done|by apply elem_of_range].
Qed.

(** The subscribers are those of the list for a snapshot. *)
Lemma getAllSubs_entries nm cl x : subs_ok nm cl x -> all_online x -> getAllSubs x = (entries x).*1.
Proof.
  intros Hok Hon. unfold getAllSubs, entries. rewrite !fmap_app. f_equal.
  { symmetry. apply sub_items_fst. intros p Hp. destruct (so_plain _ _ _ Hok _ Hp) as (sub & Hs & _). by eexists. }
  assert (omap (closed_item x.2) (range (durables x.1)).*2 = []) as ->.
  { apply elem_of_nil_inv. intros [p i] (k & sub & Hp & Hs & Hc & _)%(closed_entry nm cl x Hok). destruct Hc as (_ & _ & _ & _ & Hc & _). by rewrite (proj1 Hon k p sub) in Hc. }
  cbn. assert (forall g q, (g, q) ∈ range (qsubs x.1) -> qsubs x.1 !! g = Some q) as Hr by (intros g q; by apply elem_of_range).
  induction (range (qsubs x.1)) as [|[g q] l IH]; [done|]. cbn. assert (qsubs x.1 !! g = Some q) as Hq by (apply Hr; left).
  rewrite fmap_app, <- IH by (intros; apply Hr; by right). f_equal. destruct (so_group _ _ _ Hok _ _ Hq) as (_ & qs & Hqs & _). unfold group_items. rewrite Hqs.
  unfold group_ptrs. rewrite (proj2 Hon g q qs), app_nil_r by done. symmetry. apply sub_items_fst. intros p Hp.
  destruct (group_ptrs_ok nm cl x Hok g q qs p Hq Hqs) as (sub & Hs & _); [apply elem_of_app; by left|by eexists].
Qed.

Lemma getAllSubs_nodup nm cl x : subs_ok nm cl x -> all_online x -> NoDup (getAllSubs x).
Proof. intros Hok Hon. rewrite (getAllSubs_entries nm cl) by done. by apply (entries_nodup nm cl). Qed.
End All.
End SnapDrop.
