(* ===== verification/SnapshotNode.v ===== *)
(** * Restoring clients and messages

    [Restore] starts by dropping the subscriptions and the clients of the node, and then
    registers the clients of the snapshot ([SnapNode]).  The attempts to get the messages
    of a channel change nothing of the channel but its messages, and end without a panic
    ([SnapMsgs]). *)

From Stdlib Require Import ZArith Lia Ascii String.
From stdpp Require Import base list gmap strings.
From S2P Require Import Prelude Bytes GoLib MemStore MsgStore ClientStore SubState SubStore Proto Spb MsgRestore Effects ChannelStore ChannelStoreSpec Connect RestoreMsgs Fsm FsmSpec FsmAgree Snapshot SnapshotSpec SnapshotTake SnapshotDrop.

Local Open Scope Z_scope.

Module SnapNode.
Import Chan Fsm FsmSpec FsmAgree Snap SnapSpec SnapRecover SnapTake SnapDrop SnapPersist.

Section Node.
Context {S D R E N : Type} `{MsgStore S} `{!MsgLog S E} `{!MsgRestore S E} `{!Stores D S E} `{!StoresWork D S E} `{!RaftStore R E} `{!RaftStoreWorks R E}.
Context `{!Restore.Wire N E} `{!RangeOrder Z} `{!RangeOrder string} `{!Sorter}.
Context `{StanFields}.
Context (unicode : list ascii -> list ascii) (e : @environment S D R E).
Context (AddClient_fails DeleteClient_fails : nat -> option E).
Context (follower : isStandaloneOrLeader e = false) (adds : forall n, AddClient_fails n = None) (deletes : forall n, DeleteClient_fails n = None).

Abbreviation node := (@Fsm.node S D R E N).
Abbreviation M := (eff node (fsm_error E)).
Abbreviation stan_at n := (Conn.stan_of (server n)).
Abbreviation clients_at n := (Conn.clients_of (server n)).
Abbreviation subs_at n := (subscriptions (stan_at n)).

(** No durable of any channel is offline. *)
Definition node_online (n : node) : Prop := forall nm p c, channels (stan_at n) !! nm = Some p -> chans (stan_at n) !! p = Some c -> all_online (ss c, subs_at n).

(** ** Subscriptions *)

(** The channels are consistent, and those of [done] have no subscriptions. *)
Definition dropping (done : gset string) (n : node) : Prop := forall nm p c, channels (stan_at n) !! nm = Some p -> chans (stan_at n) !! p = Some c ->
  subs_ok nm (clients_at n) (ss c, subs_at n) /\ all_online (ss c, subs_at n) /\ (nm ∈ done -> ss c = Reg.createSubStore).

Lemma drop_sub_kept n0 p q : keeps (nkept n0) (drop_sub e p q : M unit).
Proof.
  apply keeps_bind.
  - apply keeps_subscriptions. intros c cl x a nx cl' x'. destruct (Sub.subs x.2 !! q) as [sub|]; [|done].
    pose proof (unsubscribeSub_infos (sub_env e) (isStandaloneOrLeader e) (Sub.ClientID sub) q false cl x) as Hu.
    destruct (Reg.unsubscribeSub _ _ _ _ _ _ _) as [[err cl1] x1]. intros [= _ _ <- _]. exact Hu.
  - intros [err|]; [by intros n|apply keeps_ret].
Qed.

Lemma drop_sub_run done nm p c q n :
  reg_ok unicode (stan_at n) -> dropping done n -> nm ∉ done -> channels (stan_at n) !! nm = Some p -> chans (stan_at n) !! p = Some c -> running (ss c, subs_at n) q ->
  exists n' c', drop_sub e p q n = (Ok tt, n') /\ dropping done n' /\ chans (stan_at n') !! p = Some c' /\
    forall q', running (ss c', subs_at n') q' <-> running (ss c, subs_at n) q' /\ q' <> q.
Proof.
  intros G Hd Hnm Hp Hc Hr. destruct (Hd _ _ _ Hp Hc) as (Hok & Hon & _). destruct (running_sub _ _ _ _ Hok Hr) as (sub & Hs & Ho & _). cbn in Hs.
  destruct (unsubscribe_dropped (sub_env e) nm (clients_at n) q sub (ss c) (subs_at n) Hok Hon Hs Hr) as (cl' & [ss' st'] & Eu & _ & Hcl & Hok' & Hon' & Hrun & Has).
  unfold drop_sub, on_subscriptions, mbind, eff_bind. rewrite Hc. cbn [snd]. rewrite Hs, follower, Eu. eexists _, _. split; [reflexivity|]. cbn [stan_at Conn.stan_of].
  split; [|split; [cbn; apply lookup_insert_eq|exact Hrun]].
  intros nm' p' c' Hp' Hc'. cbn in Hp', Hc' |- *. destruct (decide (p' = p)) as [->|Hne].
  - rewrite lookup_insert_eq in Hc'. injection Hc' as <-. assert (nm' = nm) as ->.
    { destruct (ro_channel _ _ G _ _ Hp') as (c1 & Hc1 & <- & _). destruct (ro_channel _ _ G _ _ Hp) as (c2 & Hc2 & <- & _). congruence. }
    by split_and!.
  - rewrite lookup_insert_ne in Hc' by done. destruct (Hd _ _ _ Hp' Hc') as (Hok2 & Hon2 & Hdone).
    destruct (aside_ok nm nm' (clients_at n) cl' q sub (ss c') (subs_at n) st') as [? ?]; try done; [apply Ho|congruence].
Qed.

Lemma drop_subs_run done nm p : forall l c n,
  node_ok unicode n -> dropping done n -> nm ∉ done -> channels (stan_at n) !! nm = Some p -> chans (stan_at n) !! p = Some c -> NoDup l -> (forall q, running (ss c, subs_at n) q <-> q ∈ l) ->
  exists n', each (drop_sub e p) l n = (Ok tt, n') /\ nkept n n' /\ dropping ({[nm]} ∪ done) n'.
Proof.
  induction l as [|q l IH]; intros c n Ho Hd Hnm Hp Hc Hnd Hl.
  - exists n. split; [done|]. split; [done|]. intros nm' p' c' Hp' Hc'. destruct (Hd _ _ _ Hp' Hc') as (Hok & Hon & Hdone). split_and!; [done..|].
    intros [->%elem_of_singleton|Hin]%elem_of_union; [|by apply Hdone]. assert (p' = p) as -> by congruence. assert (c' = c) as -> by congruence.
    apply (nothing_left nm _ _ Hok Hon). intros q. rewrite Hl. apply not_elem_of_nil.
  - apply NoDup_cons in Hnd as [Hq Hnd]. destruct (drop_sub_run done nm p c q n (proj1 Ho) Hd Hnm Hp Hc) as (n1 & c1 & E1 & Hd1 & Hc1 & Hr1); [apply Hl; left|].
    assert (nkept n n1) as K1 by (pose proof (drop_sub_kept n p q n (reflexivity n)) as K; by rewrite E1 in K).
    destruct (nkept_abs unicode _ _ Ho K1) as [Ho1 _]. destruct (IH c1 n1 Ho1 Hd1 Hnm) as (n' & E2 & K2 & Hd2); [|done|done| |].
    + rewrite (kept_names _ _ (proj1 K1)). done.
    + intros q'. rewrite Hr1, Hl, elem_of_cons. naive_solver.
    + exists n'. split; [cbn; by rewrite (eff_bind_Ok _ _ _ _ _ E1)|]. split; [by etrans|done].
Qed.

(** Asking the environment changes nothing else. *)
Definition asked_only (n n' : node) : Prop := exists k, n' = set_server (Conn.set_stan (set_asked k (stan_at n)) (server n)) n.

Lemma ask_run {A : Type} (f : nat -> A) (n : node) : exists a n', (on_channels (ask f) : M A) n = (Ok a, n') /\ asked_only n n'.
Proof. eexists _, _. split; [reflexivity|]. by eexists. Qed.

Lemma asked_kept n n' : asked_only n n' -> nkept n n'.
Proof. intros [k ->]. split; [by apply kept_frame|done]. Qed.

Lemma asked_dropping done n n' : asked_only n n' -> dropping done n -> dropping done n'.
Proof. by intros [k ->]. Qed.

Lemma chan_at_run (n : node) p c : chans (stan_at n) !! p = Some c -> (on_channels (chan_at p) : M (@channel S)) n = (Ok c, n).
Proof. intros Hc. unfold on_channels, chan_at. rewrite Hc. by destruct n as [[] ?]. Qed.

Lemma drop_channel_run done nm p n :
  node_ok unicode n -> dropping done n -> nm ∉ done -> channels (stan_at n) !! nm = Some p ->
  exists n', drop_channel e p n = (Ok tt, n') /\ nkept n n' /\ dropping ({[nm]} ∪ done) n'.
Proof.
  intros Ho Hd Hnm Hp. destruct (ro_channel _ _ (proj1 Ho) _ _ Hp) as (c & Hc & _). destruct (Hd _ _ _ Hp Hc) as (Hok & Hon & _).
  unfold drop_channel. rewrite (eff_bind_Ok _ _ _ _ _ (chan_at_run n p c Hc)), eff_get.
  destruct (drop_subs_run done nm p (Reg.getAllSubs (ss c, subs_at n)) c n Ho Hd Hnm Hp Hc) as (n1 & E1 & K1 & D1).
  - by apply (getAllSubs_nodup nm (clients_at n)).
  - intros q. symmetry. by apply (getAllSubs_running nm (clients_at n)).
  - rewrite (eff_bind_Ok _ _ _ _ _ E1). destruct (ask_run (SubsFlush_fails e) n1) as (a & n2 & E2 & A2). rewrite (eff_bind_Ok _ _ _ _ _ E2).
    exists n2. split; [done|]. split; [etrans; [exact K1|by apply asked_kept]|by eapply asked_dropping].
Qed.

Lemma drop_channels_run : forall l done n,
  node_ok unicode n -> dropping done n -> NoDup l.*1 -> (forall nm p, (nm, p) ∈ l -> nm ∉ done /\ channels (stan_at n) !! nm = Some p) ->
  exists n', each (drop_channel e) l.*2 n = (Ok tt, n') /\ nkept n n' /\ dropping (list_to_set l.*1 ∪ done) n'.
Proof.
  induction l as [|[nm p] l IH]; intros done n Ho Hd Hnd Hl; cbn in *; [exists n; by rewrite union_empty_l_L|]. apply NoDup_cons in Hnd as [Hn Hnd].
  destruct (Hl nm p ltac:(left)) as [Hnm Hp]. destruct (drop_channel_run done nm p n Ho Hd Hnm Hp) as (n1 & E1 & K1 & D1). destruct (nkept_abs unicode _ _ Ho K1) as [Ho1 _].
  destruct (IH ({[nm]} ∪ done) n1 Ho1 D1 Hnd) as (n2 & E2 & K2 & D2).
  - intros nm' p' Hi. destruct (Hl nm' p' ltac:(by right)) as [H1' H2']. rewrite (kept_names _ _ (proj1 K1)). split; [|done]. intros [->%elem_of_singleton|?]%elem_of_union; [|done].
    apply Hn, list_elem_of_fmap. by exists (nm, p').
  - exists n2. rewrite (eff_bind_Ok _ _ _ _ _ E1). split; [done|]. split; [by etrans|]. replace ({[nm]} ∪ list_to_set l.*1 ∪ done) with (list_to_set l.*1 ∪ ({[nm]} ∪ done)) by set_solver. done.
Qed.

(** ** Clients *)

(** Only the clients change. *)
Record clients_only (n n' : node) : Prop := {
  co_kept : kept (stan_at n) (stan_at n');
  co_chans : chans (stan_at n') = chans (stan_at n);
  co_subs : subs_at n' = subs_at n
}.
#[export] Instance clients_only_preorder : PreOrder clients_only.
Proof. split; [by split|]. intros n1 n2 n3 [A1 A2 A3] [B1 B2 B3]. split; [by etrans|congruence..]. Qed.

Lemma asked_clients n n' cl : asked_only n n' -> clients_only n (set_server (Conn.set_clients cl (server n')) n').
Proof. intros [k ->]. split; [by apply kept_frame|done|done]. Qed.

Lemma drop_client_run k n :
  wf (clients_at n) -> exists n', drop_client DeleteClient_fails k n = (Ok tt, n') /\ clients_only n n' /\ wf (clients_at n') /\ infos (clients_at n') = delete k (infos (clients_at n)).
Proof.
  intros Hw. unfold drop_client. destruct (ask_run DeleteClient_fails n) as (a & n1 & E1 & A1). rewrite (eff_bind_Ok _ _ _ _ _ E1), eff_get.
  assert (a = None) as -> by (unfold on_channels, ask in E1; rewrite deletes in E1; by injection E1 as <- _). assert (clients_at n1 = clients_at n) as Ec by (by destruct A1 as [k1 ->]).
  rewrite Ec. pose proof (unregister_wf (E := E) (clients_at n) k None Hw) as W. pose proof (infos_unregister (E := E) (clients_at n) k None Hw) as I.
  destruct (unregister (clients_at n) k None) as [[o err] cl] eqn:Eu. rewrite eff_modify. assert (err = None) as ->.
  { unfold unregister in Eu. destruct (clients _ !! k) as [q|]; [|by injection Eu]. destruct (heap _ !! q); by injection Eu. }
  eexists. split; [reflexivity|]. split; [by apply asked_clients|]. by split.
Qed.

Lemma drop_clients_run : forall l n, wf (clients_at n) ->
  exists n', each (drop_client DeleteClient_fails) l n = (Ok tt, n') /\ clients_only n n' /\ wf (clients_at n') /\
    forall k, infos (clients_at n') !! k = if decide (k ∈ l) then None else infos (clients_at n) !! k.
Proof.
  induction l as [|k l IH]; intros n Hw; [by exists n|]. destruct (drop_client_run k n Hw) as (n1 & E1 & C1 & W1 & I1). destruct (IH n1 W1) as (n2 & E2 & C2 & W2 & I2).
  exists n2. split; [cbn; by rewrite (eff_bind_Ok _ _ _ _ _ E1)|]. split; [by etrans|]. split; [done|]. intros k'. rewrite I2, I1. destruct (decide (k' ∈ l)) as [Hi|Hi].
  - rewrite decide_True by (by right). done.
  - destruct (decide (k' = k)) as [->|Hne]; [rewrite lookup_delete_eq, decide_True by left; done|]. rewrite lookup_delete_ne, decide_False by (done || (rewrite elem_of_cons; naive_solver)). done.
Qed.

Lemma client_names_infos cl k : wf cl -> is_Some (infos cl !! k) -> k ∈ client_names cl.
Proof.
  intros Hw [i Hi]. pose proof (infos_id _ _ _ Hw Hi) as Hk. unfold infos in Hi. rewrite lookup_omap in Hi. destruct (clients cl !! k) as [p|] eqn:Hp; [|done]. cbn in Hi.
  destruct (heap cl !! p) as [c|] eqn:Hc; [|done]. injection Hi as <-. unfold client_names. apply elem_of_list_to_set, list_elem_of_omap. exists (k, p). split; [by apply elem_of_map_to_list|].
  cbn. rewrite Hc. cbn. by rewrite Hk.
Qed.

(** A node without subscriptions. *)
Definition bare (n : node) : Prop := forall nm p c, channels (stan_at n) !! nm = Some p -> chans (stan_at n) !! p = Some c -> ss c = Reg.createSubStore.

Lemma clients_only_bare n n' : clients_only n n' -> bare n -> bare n'.
Proof. intros [K Ec _] Hb nm p c. rewrite (kept_names _ _ K), Ec. apply Hb. Qed.

Lemma drop_state_run n :
  node_ok unicode n -> node_subs_ok n -> node_online n ->
  exists n', drop_state e DeleteClient_fails n = (Ok tt, n') /\ node_ok unicode n' /\ abs n' = ((abs n).1, ∅) /\ bare n'.
Proof.
  intros Ho Hso Hon. unfold drop_state. rewrite eff_get. destruct (drop_channels_run (range (channels (stan_at n))) ∅ n Ho) as (n1 & E1 & K1 & D1).
  - intros nm p c Hp Hc. split_and!; [by eapply Hso|by eapply Hon|by intros ?%elem_of_empty].
  - apply NoDup_range_fst.
  - intros nm p Hp. split; [apply not_elem_of_empty|by apply elem_of_range].
  - rewrite (eff_bind_Ok _ _ _ _ _ E1), eff_get. destruct (nkept_abs unicode _ _ Ho K1) as [[G1 W1] A1].
    destruct (drop_clients_run (order (client_names (clients_at n1))) n1 W1) as (n2 & E2 & C2 & W2 & I2). exists n2. split; [done|].
    destruct (kept_ids unicode _ _ G1 (co_kept _ _ C2)) as [G2 Ei]. split; [by split|]. split.
    + unfold abs in *. injection A1 as A1 _. cbn. rewrite Ei, A1. f_equal. apply map_eq. intros k. rewrite I2, lookup_empty. destruct (decide _) as [|Hk]; [done|].
      destruct (infos (clients_at n1) !! k) eqn:Hi; [|done]. destruct Hk. apply elem_of_order, client_names_infos; [done|by rewrite Hi].
    + eapply clients_only_bare; [exact C2|]. intros nm p c Hp Hc. destruct (D1 _ _ _ Hp Hc) as (_ & _ & Hdone). apply Hdone, elem_of_union. left. apply elem_of_list_to_set.
      rewrite (kept_names _ _ (proj1 K1)) in Hp. apply list_elem_of_fmap. exists (nm, p). split; [done|by apply elem_of_range].
Qed.

(** ** The clients of the snapshot *)

Lemma restore_clients_run : forall l ch pd n,
  wf (clients_at n) -> NoDup ((fun i => ClientStore.ID (client_of i)) <$> l) -> (forall r, r ∈ l -> infos (clients_at n) !! ClientStore.ID (client_of r) = None) ->
  exists n', restoreClientsFromSnapshot AddClient_fails (RaftSnapshot.mk l ch pd) n = (Ok tt, n') /\ clients_only n n' /\ wf (clients_at n') /\
    forall k i, infos (clients_at n') !! k = Some i <-> infos (clients_at n) !! k = Some i \/ ClientStore.ID i = k /\ exists r, r ∈ l /\ client_of r = i.
Proof.
  induction l as [|r l IH]; intros ch pd n Hw Hnd Hl.
  { exists n. split_and!; [done..|]. intros k i. split; [by left|]. intros [?|(_ & r & ?%not_elem_of_nil & _)]; done. }
  rewrite fmap_cons in Hnd. apply NoDup_cons in Hnd as [Hr Hnd]. unfold restoreClientsFromSnapshot in *. cbn [RaftSnapshot.Clients each] in *. rewrite eff_assoc.
  destruct (ask_run AddClient_fails n) as (a & n1 & E1 & A1). rewrite (eff_bind_Ok _ _ _ _ _ E1).
  assert (a = None) as -> by (unfold on_channels, ask in E1; rewrite adds in E1; by injection E1 as <- _). assert (clients_at n1 = clients_at n) as Ec by (by destruct A1 as [k1 ->]).
  rewrite eff_assoc, eff_get, Ec. pose proof (register_wf (E := E) (clients_at n) (client_of r) None Hw) as W. pose proof (infos_register (E := E) (clients_at n) (client_of r) Hw) as I.
  assert (infos (clients_at n) !! ClientStore.ID (client_of r) = None) as Hn by (apply Hl; left). rewrite Hn in I.
  assert (exists q cl, register (clients_at n) (client_of r) (None : option E) = (inl q, cl)) as (q & cl & Er).
  { apply infos_lookup in Hn; [|done]. unfold register. rewrite Hn. by eexists _, _. }
  rewrite Er in W, I |- *. cbn [snd] in W, I. rewrite eff_assoc, eff_modify. set (n2 := set_server _ n1).
  assert (clients_only n n2) as C2 by by apply asked_clients.
  destruct (IH ch pd n2 W Hnd) as (n' & E2 & C3 & W3 & I3).
  { intros r' Hr'. cbn. rewrite I, lookup_insert_ne; [apply Hl; by right|]. intros Heq. apply Hr, list_elem_of_fmap. by exists r'. }
  exists n'. split; [exact E2|]. split; [by etrans|]. split; [done|]. intros k i. rewrite I3. cbn. rewrite I, lookup_insert_Some. split.
  - intros [[[<- <-]|[Hne Hi]]|(Hk & r' & Hr' & Hi)]; [right; split; [done|]; exists r; split; [left|done]|by left|right; split; [done|]; exists r'; split; [by right|done]].
  - intros [Hi|(<- & r' & [->|Hr']%elem_of_cons & <-)]; [left; right; split; [|done]; intros <-; congruence|by left; left|right; split; [done|by exists r']].
Qed.
End Node.
End SnapNode.

(** Stores and connections report what goes wrong as errors. *)
Class NoPanic (S N E : Type) `{MsgStore S} `{!MsgLog S E} `{!MsgRestore S E} `{!Restore.Wire N E} : Prop := {
  StoreMsg_returns t m (s : S) : (StoreMsg t m s).1 <> Panic;
  EmptyMsgs_returns (s : S) : (EmptyMsgs s).1 <> Panic;
  FlushMsgs_returns (s : S) : (FlushMsgs s).1 <> Panic;
  NextMsg_returns i (n : N) : (Restore.NextMsg i n).1 <> Panic
}.

Module SnapMsgs.
Import Chan Fsm FsmSpec FsmAgree Snap.

Create HintDb safe.

Section Safe.
Context {S N E : Type} `{MsgStore S} `{!MsgLog S E} `{!MsgRestore S E} `{!Restore.Wire N E} `{!NoPanic S N E}.
Context (unm : list byte -> option MsgProto) (clusterID : string).

Abbreviation M := (eff (@Restore.rstate S N) (Restore.restore_error E)).

Definition safe {A : Type} (m : M A) : Prop := forall st, (m st).1 <> Panic.

Lemma safe_ret {A : Type} (a : A) : safe (mret a).
Proof. done. Qed.
Lemma safe_fail {A : Type} err : safe (fail err : M A).
Proof. done. Qed.
Lemma safe_get : safe get.
Proof. done. Qed.
Lemma safe_modify f : safe (modify f).
Proof. done. Qed.
Lemma safe_bind {A B : Type} (m : M A) (f : A -> M B) : safe m -> (forall a, safe (f a)) -> safe (m ≫= f).
Proof. intros Hm Hf st. specialize (Hm st). unfold mbind, eff_bind. destruct (m st) as [[a| |] s']; [apply Hf|done|done]. Qed.
Lemma safe_catch {A : Type} (m : M A) : safe m -> safe (catch m).
Proof. intros Hm st. specialize (Hm st). unfold catch. by destruct (m st) as [[a| |] s']. Qed.
Lemma safe_when b m : safe m -> safe (when b m).
Proof. intros Hm. by destruct b. Qed.
Lemma safe_wire {A : Type} (f : N -> A * N) : safe (Restore.on_wire f : M A).
Proof. intros st. unfold Restore.on_wire. by destruct (f _). Qed.
Lemma safe_store {A : Type} (f : S -> outcome E A * S) : (forall s, (f s).1 <> Panic) -> safe (Restore.on_store_msgs f : M A).
Proof. intros Hf st. specialize (Hf (msgs (Restore.ch st))). unfold Restore.on_store_msgs. by destruct (f _) as [[| |] ?]. Qed.
#[local] Hint Resolve safe_ret safe_fail safe_get safe_modify safe_bind safe_catch safe_when safe_wire safe_store StoreMsg_returns EmptyMsgs_returns FlushMsgs_returns : safe.

Lemma safe_next i : safe (Restore.wire_call (Restore.NextMsg i) : M Restore.response).
Proof.
  intros st. unfold Restore.wire_call, Restore.on_wire, mbind, eff_bind. pose proof (NextMsg_returns i (Restore.wire st)) as Hn. by destruct (Restore.NextMsg i _) as [[| |] ?].
Qed.
Lemma safe_ok f : safe (Restore.wire_ok f : M unit).
Proof. apply safe_bind; [auto with safe|]. intros []; auto with safe. Qed.
#[local] Hint Resolve safe_next safe_ok : safe.
Lemma safe_fetch subj i k : safe (Restore.restoreMsgsFetchOne subj i k : M Restore.response).
Proof. apply safe_bind; [apply safe_ok|auto with safe]. Qed.
Lemma safe_inbox : safe (Restore.new_inbox : M string).
Proof. apply safe_bind; [auto with safe|]. intros i. apply safe_bind; auto with safe. Qed.
Lemma safe_store_msg m : safe (Restore.store_msg m : M unit).
Proof. apply safe_bind; [auto with safe|]. intros t. apply safe_bind; [apply safe_store, StoreMsg_returns|auto with safe]. Qed.
#[local] Hint Resolve safe_fetch safe_inbox safe_store_msg : safe.

Lemma safe_find fuel subj i l r : safe (Restore.find_loop fuel subj i l r : M Z).
Proof.
  revert l r. induction fuel as [|fuel IH]; intros l r; cbn [Restore.find_loop]; (destruct (l <=? r); [|auto with safe]); [auto with safe|].
  apply safe_bind; [auto with safe|]. intros y. destruct (Restore.r_Data y); apply IH.
Qed.

Lemma safe_got_msg subj last r m v : safe (Restore.got_msg unm subj last r m v : M (option Restore.vars)).
Proof.
  unfold Restore.got_msg. destruct (_ =? _); [apply safe_bind; auto with safe|]. apply safe_bind.
  { destruct (_ && _); [|auto with safe]. apply safe_bind; [|intros [[]|]; auto with safe]. apply safe_catch, safe_bind; [auto with safe|intros i].
    apply safe_bind; [auto with safe|intros y]. destruct (Restore.r_Data y); [auto with safe|]. destruct (unm _); auto with safe. }
  intros _. apply safe_bind; [apply safe_store, EmptyMsgs_returns|intros _]. destruct (_ <? _); (apply safe_bind; [apply safe_modify|intros _]); [auto with safe|apply safe_bind; auto with safe].
Qed.

Lemma safe_got_nothing subj i first last r v : safe (Restore.got_nothing subj i first last r v : M (option Restore.vars)).
Proof.
  unfold Restore.got_nothing. apply safe_bind; [apply safe_when, safe_store, EmptyMsgs_returns|intros _]. apply safe_bind; [apply safe_modify|intros _].
  destruct (String.eqb _ _); [auto with safe|]. destruct (_ <=? _); [|auto with safe]. apply safe_bind.
  - apply safe_bind; [auto with safe|intros y]. destruct (Restore.r_Data y); [auto with safe|apply safe_find].
  - intros f. destruct (_ <? _); [|auto with safe]. apply safe_bind; [apply safe_modify|auto with safe].
Qed.

Lemma safe_loop fuel subj i first last v : safe (Restore.restore_loop unm fuel subj i first last v : M unit).
Proof.
  revert v. induction fuel as [|fuel IH]; intros v; cbn [Restore.restore_loop]; (destruct (_ <=? _); [|auto with safe]); [auto with safe|].
  apply safe_bind; [|intros [v'|]; [apply IH|auto with safe]]. apply safe_bind.
  - unfold Restore.ask_more. destruct (_ =? _); [apply safe_bind; [apply safe_ok|]|]; auto with safe.
  - intros v'. apply safe_bind; [auto with safe|intros r]. apply safe_bind.
    + destruct (Restore.r_Data r) as [|b l]; [apply safe_got_nothing|]. destruct (unm (b :: l)); [apply safe_got_msg|auto with safe].
    + intros [v''|]; [|auto with safe]. apply safe_bind; [auto with safe|]. intros [|]; auto with safe.
Qed.

Lemma safe_restore fuel first last ap : safe (Restore.restoreMsgsFromSnapshot unm clusterID fuel first last ap : M unit).
Proof.
  apply safe_bind; [auto with safe|]. intros [err|]; [auto with safe|]. apply safe_bind; [apply safe_get|intros st]. apply safe_bind.
  - unfold Restore.restore_from. apply safe_bind; [|intros f; apply safe_bind; auto with safe].
    destruct (_ <? _); [apply safe_bind; [apply safe_when, safe_store, EmptyMsgs_returns|auto with safe]|]. destruct (_ <=? _); auto with safe.
  - intros f. destruct (_ <? _); [auto with safe|]. apply safe_bind; [auto with safe|intros i]. apply safe_bind; [apply safe_loop|intros _]. apply safe_store, FlushMsgs_returns.
Qed.
End Safe.

Section Node.
Context {S D R E N : Type} `{MsgStore S} `{!MsgLog S E} `{!MsgRestore S E} `{!Stores D S E} `{!RaftStore R E} `{!Restore.Wire N E} `{!NoPanic S N E}.
Context `{StanFields} (clusterID : string).

Abbreviation node := (@Fsm.node S D R E N).
Abbreviation stan_at n := (Conn.stan_of (server n)).

Definition put_chan (p : Sub.ptr) (c : @channel S) (w : N) (n : node) : node :=
  mkNode (Conn.set_stan (set_chans (<[p := c]> (chans (stan_at n))) (stan_at n)) (server n)) w.

(** What a snapshot has of a channel, and the delete timer. *)
Definition content (c : @channel S) : string * Z * Reg.subStore * Z * option channelActivity := (name c, id c, ss c, nextSubID c, activity c).

(** An error that stops [Restore]. *)
Definition shutting_down (err : fsm_error E) : Prop := err = FsmShutdown /\ exists w : N, (Restore.shutdownCh w).1 = true.

Lemma put_chan_put p c c' w w' n : put_chan p c' w' (put_chan p c w n) = put_chan p c' w' n.
Proof. unfold put_chan. cbn. by rewrite insert_insert_eq. Qed.
Lemma put_chan_id p c n : chans (stan_at n) !! p = Some c -> put_chan p c (connection n) n = n.
Proof. intros Hc. unfold put_chan. rewrite insert_id by done. by destruct n as [[[] ? ? ?] ?]. Qed.

Lemma attempts_run i p first last : forall c n, 0 <= first -> 0 <= last -> chans (stan_at n) !! p = Some c ->
  let x := restore_attempts clusterID i p first last n in
  exists c' w', x.2 = put_chan p c' w' n /\ content c' = content c /\ match x.1 with Ok _ => True | Err err => shutting_down err | Panic => False end.
Proof.
  induction i as [|i IH]; intros c n Hf Hl Hc; cbn zeta.
  { exists c, (connection n). by rewrite put_chan_id. }
  destruct (restore_attempts clusterID (Datatypes.S i) p first last n) as [r n'] eqn:Hr. cbn [fst snd]. cbn [restore_attempts] in Hr.
  pose proof (restoring_restore unmarshal clusterID (last + 1) last ltac:(lia) (fun c0 => content c0 = content c) ltac:(done) ltac:(done) (Z.to_nat last) first false Hf
    (Restore.mkR c (connection n)) eq_refl) as Hk.
  pose proof (safe_restore (E := E) unmarshal clusterID (Z.to_nat last) first last false (Restore.mkR c (connection n))) as Hs.
  unfold catch, mbind at 1, eff_bind at 1, on_channel in Hr. rewrite Hc in Hr. destruct (Restore.restoreMsgsFromSnapshot _ _ _ _ _ _ _) as [r1 [c1 w1]]. change (content c1 = content c) in Hk. cbn in Hs.
  cbn [Restore.ch Restore.wire] in Hr. change (mkNode _ w1) with (put_chan p c1 w1 n) in Hr. destruct r1 as [[]|err|]; [injection Hr as <- <-; by exists c1, w1| |done].
  unfold mbind at 1, eff_bind at 1 in Hr. assert (chans (stan_at (put_chan p c1 w1 n)) !! p = Some c1) as Hc1 by apply lookup_insert_eq. rewrite Hc1 in Hr.
  unfold Restore.on_wire in Hr. cbn [Restore.wire connection put_chan] in Hr. destruct (Restore.shutdownCh w1) as [b w2] eqn:Ew. cbn [Restore.ch Restore.wire] in Hr.
  change (mkNode _ w2) with (put_chan p c1 w2 (put_chan p c1 w1 n)) in Hr. rewrite put_chan_put in Hr. destruct b.
  - injection Hr as <- <-. exists c1, w2. split_and!; [done|done|]. split; [done|]. exists w1. by rewrite Ew.
  - destruct (IH c1 (put_chan p c1 w2 n) Hf Hl) as (c2 & w3 & E2 & Hc2 & Hr2); [cbn; apply lookup_insert_eq|]. rewrite Hr in E2, Hr2. cbn in E2, Hr2. exists c2, w3. rewrite E2, put_chan_put. split_and!; [done|congruence|done].
Qed.
End Node.
End SnapMsgs.
