(* ===== verification/SnapshotSys.v ===== *)
(** * From one node to another

    A node that restores the snapshot of another one has its clients, its channels and
    their subscriptions. *)

From Stdlib Require Import ZArith Lia Ascii String.
From stdpp Require Import base list gmap strings.
From S2P Require Import Prelude Bytes GoLib Effects Proto Spb MemStore MsgStore MsgRestore ClientStore SubState SubStore ChannelStore ChannelStoreSpec Connect RestoreMsgs Fsm FsmSpec FsmAgree Snapshot SnapshotSpec SnapshotTake SnapshotDrop SnapshotNode.

Local Open Scope Z_scope.

Module SnapSys.
Import Chan Fsm FsmSpec FsmAgree Snap SnapSpec SnapRecover SnapTake SnapDrop SnapPersist SnapNode SnapMsgs.

Section Node.
Context {S D R E N : Type} `{MsgStore S} `{!MsgLog S E} `{!MsgRestore S E} `{!Stores D S E} `{!StoresWork D S E} `{!RaftStore R E} `{!RaftStoreWorks R E}.
Context `{!Restore.Wire N E} `{!NoPanic S N E} `{!RangeOrder Z} `{!RangeOrder string} `{!Sorter}.
Context `{StanFields}.
Context (unicode : list ascii -> list ascii) (e : @environment S D R E) (clusterID : string).
Context (AddClient_fails DeleteClient_fails : nat -> option E) (attempts : nat) (proceed : bool).
Context (clustered : Sub.isClustered (sub_env e) = true) (reads : forall n, LastSequence_fails e n = None).

Abbreviation node := (@Fsm.node S D R E N).
Abbreviation M := (eff node (fsm_error E)).
Abbreviation stan_at n := (Conn.stan_of (server n)).
Abbreviation clients_at n := (Conn.clients_of (server n)).
Abbreviation subs_at n := (subscriptions (stan_at n)).
Abbreviation lower := (ToLower unicode).

(** ** The channel of a snapshot *)

(** The channel is there, or has been created; the others are as they were. *)
Record opened (nm : string) (i : Z) (p : Sub.ptr) (c : @channel S) (s s' : @stan S D R E) : Prop := {
  op_reg : reg_ok unicode s';
  op_ids : ids s' = <[nm := i]> (ids s);
  op_at : channels s' !! nm = Some p /\ chans s' !! p = Some c /\ name c = nm /\ id c = i;
  op_new : channels s !! nm = Some p /\ chans s !! p = Some c \/ ss c = Reg.createSubStore;
  op_subs : subscriptions s' = subscriptions s;
  op_others nm' : nm' <> nm -> channels s' !! nm' = channels s !! nm' /\ forall p' c', channels s !! nm' = Some p' -> chans s !! p' = Some c' -> chans s' !! p' = Some c' /\ p' <> p
}.

Lemma reg_inj (s : @stan S D R E) nm nm' p : reg_ok unicode s -> channels s !! nm = Some p -> channels s !! nm' = Some p -> nm = nm'.
Proof. intros G Hp Hp'. destruct (ro_channel _ _ G _ _ Hp) as (c & Hc & <- & _). destruct (ro_channel _ _ G _ _ Hp') as (c' & Hc' & <- & _). congruence. Qed.

Lemma created_opened nm i p c (s s1 s' : @stan S D R E) :
  reg_ok unicode s -> chans s1 = chans s -> subscriptions s1 = subscriptions s -> (forall nm', nm' <> nm -> channels s1 !! nm' = channels s !! nm') ->
  created unicode nm i p c s1 s' -> reg_ok unicode s' -> ids s' = <[nm := i]> (ids s) -> opened nm i p c s s'.
Proof.
  intros G E1 E2 E3 [Cn Cl Cc Cf Cnm Cid Cpr Cun Cms Cst Csu] G' I'. split; [done|done|..].
  - rewrite Cn, Cc, !lookup_insert_eq. done.
  - right. apply Csu.
  - by rewrite (proj2 Csu).
  - intros nm' Hne. rewrite Cn, lookup_insert_ne, E3 by done. split; [done|]. intros p' c' Hp' Hc'. rewrite Cc, E1.
    assert (p' <> p) as Hn by (intros ->; rewrite E1 in Cf; congruence). by rewrite lookup_insert_ne.
Qed.

Lemma lookup_opened nm i (s : @stan S D R E) :
  reg_ok unicode s -> 0 < i -> (forall j, ids s !! nm = Some j -> 0 < j <= i) -> (forall nm', is_Some (ids s !! nm') -> lower nm' = lower nm -> nm' = nm) ->
  exists p c s', Fsm.lookupOrCreateChannel unicode e nm i s = (Ok (Some p), s') /\ opened nm i p c s s'.
Proof.
  intros G Hi Hj Hlo. pose proof (lookupOrCreateChannel_found unicode e clustered reads nm i s G Hi) as Hf. cbn zeta in Hf.
  destruct (Fsm.lookupOrCreateChannel unicode e nm i s) as [r s'] eqn:Er. cbn in Hf. pose proof (found_reg unicode nm i _ _ _ G Hi Hf) as [G' I'].
  inversion Hf as [p c Hp Hc Hid|p c Hp Hc Hid|s1 p c s2 H1' Hl C|other Hn Ht]; subst.
  - exists p, c, s'. split; [done|]. pose proof (ids_lookup _ _ _ _ Hp Hc) as Hids. pose proof (Hj _ Hids). assert (id c = i) as Ei by (destruct Hid; lia).
    destruct (ro_channel _ _ G _ _ Hp) as (c' & Hc' & Hn & _). split; [done|by rewrite insert_id by congruence|split_and!; [done..|congruence|done]|by left|done|].
    intros nm' Hne. split; [done|]. intros p' c2 Hp' Hc2. split; [done|]. intros ->. apply Hne. by eapply reg_inj.
  - pose proof (Hj _ (ids_lookup _ _ _ _ Hp Hc)). lia.
  - exists p, c, s'. split; [done|]. assert (ids s' = <[nm := i]> (ids s)) as Ei.
    { rewrite I'. unfold spec_lookup. destruct (ids s !! nm) as [j|] eqn:Hjs.
      - destruct H1' as [[Hn _]|(q & d & Hq & Hd & H0' & Hlt & _)]; [by rewrite ids_none in Hjs|]. rewrite (ids_lookup _ _ _ _ Hq Hd) in Hjs. injection Hjs as <-.
        by rewrite (proj2 (Z.eqb_neq _ _) H0'), (proj2 (Z.leb_gt _ _)) by lia.
      - destruct (taken unicode nm (ids s)) eqn:Ht; [|done]. exfalso. unfold taken in Ht. apply bool_decide_eq_true in Ht. apply elem_of_map in Ht as (nm' & El & Hin%elem_of_dom).
        rewrite (Hlo nm' Hin (eq_sym El)), Hjs in Hin. by destruct Hin. }
    destruct H1' as [[Hn ->]|(q & d & Hq & Hd & H0' & Hlt & G1 & I1 & Hn1 & F1 & F2 & F3)]; [by eapply created_opened|].
    eapply created_opened; [done|exact F1|exact F3| |done|done|done]. intros nm' Hne. by rewrite F2, lookup_delete_ne.
  - exfalso. unfold taken in Ht. apply bool_decide_eq_true in Ht. apply elem_of_map in Ht as (nm' & El & Hin%elem_of_dom).
    pose proof (Hlo nm' Hin (eq_sym El)) as ->. rewrite ids_none in Hin by done. by destruct Hin.
Qed.

(** ** The subscriptions of the channel *)

Definition put_all (p : Sub.ptr) (c : @channel S) (st : Sub.server) (cl : clientStore) (n : node) : node :=
  set_server (Conn.set_clients cl (Conn.set_stan (set_subscriptions st (set_chans (<[p := c]> (chans (stan_at n))) (stan_at n))) (server n))) n.

Lemma restore_subs_run p nm : forall l c n, chans (stan_at n) !! p = Some c -> name c = nm ->
  let '(cl', (ss', st')) := recover_all (sub_env e) nm l (clients_at n) (ss c, subs_at n) in
  exists c', each (restore_sub e p) (to_snap <$> l) n = (Ok tt, put_all p c' st' cl' n) /\ ss c' = ss' /\ (name c', id c', activity c') = (name c, id c, activity c).
Proof.
  induction l as [|[s a] l IH]; intros c n Hc Hn; cbn [recover_all].
  - exists c. split; [|done]. cbn. unfold put_all. rewrite insert_id by done. by destruct n as [[[] ? ? ?] ?].
  - cbn [fst snd]. destruct (recoverOneSub (sub_env e) nm s ∅ a (clients_at n) (ss c, subs_at n)) as [[o cl1] [ss1 st1]] eqn:Er.
    set (c1 := set_nextSubID (if nextSubID c <=? Spb.SubState.ID s then u64 (Spb.SubState.ID s + 1) else nextSubID c) (set_ss ss1 c)).
    assert (restore_sub e p (to_snap (s, a)) n = (Ok tt, put_all p c1 st1 cl1 n)) as E1.
    { unfold restore_sub. cbn [to_snap SubscriptionSnapshot.State SubscriptionSnapshot.AcksPending fst snd deref]. unfold mbind, eff_bind. cbn [deref mret eff_ret]. unfold on_subscriptions. rewrite Hc, Hn, Er. done. }
    specialize (IH c1 (put_all p c1 st1 cl1 n)). cbn [put_all set_server server Conn.set_clients Conn.set_stan Conn.clients_of Conn.stan_of subscriptions set_subscriptions chans set_chans] in IH.
    specialize (IH (lookup_insert_eq _ _ _) Hn). change (ss c1) with ss1 in IH. destruct (recover_all (sub_env e) nm l cl1 (ss1, st1)) as [cl' [ss' st']].
    destruct IH as (c' & E2 & Hss & Hst). exists c'. split; [|by split]. rewrite fmap_cons. cbn [each]. rewrite (eff_bind_Ok _ _ _ _ _ E1), E2. f_equal. unfold put_all. cbn. by rewrite insert_insert_eq.
Qed.

(** Objects of other channels are still there. *)
Lemma listed_frame nm l ss2 st st' :
  listed nm l (ss2, st) -> (forall p s, Sub.subs st !! p = Some s -> Sub.subs st' !! p = Some s) -> (forall q qs, Sub.queues st !! q = Some qs -> Sub.queues st' !! q = Some qs) ->
  listed nm l (ss2, st').
Proof.
  intros [L1 L2 L3 L4 L5 L6] Hs Hq. split; [|done..|].
  - intros p i Hi. destruct (L1 p i Hi) as (sub & Hsub & Hd & Hn & Hk). exists sub. cbn in *. split_and!; [by apply Hs|done|done|].
    destruct (kind_of i.1); [done..| |]; destruct Hk as (q & qs & K1 & K2 & K3 & K4 & K5); exists q, qs; by split_and!; try apply Hq.
  - intros g q Hg. destruct (L6 g q Hg) as (qs & Hqs & Hrest). exists qs. split; [by apply Hq|done].
Qed.

(** ** A channel *)

Definition stopped (err : fsm_error E) : Prop := shutting_down (N := N) err \/ proceed = false /\ exists nm, err = FsmAborted nm.

Record channel_restored (nm : string) (i next : Z) (l : list item) (n n' : node) : Prop := {
  re_ok : node_ok unicode n';
  re_abs : abs n' = (<[nm := i]> (abs n).1, (abs n).2);
  re_at : exists p c l', channels (stan_at n') !! nm = Some p /\ chans (stan_at n') !! p = Some c /\ next <= nextSubID c /\ listed nm l' (ss c, subs_at n') /\ l'.*2 = l;
  re_others nm' : nm' <> nm -> channels (stan_at n') !! nm' = channels (stan_at n) !! nm' /\
    forall p c, channels (stan_at n) !! nm' = Some p -> chans (stan_at n) !! p = Some c -> chans (stan_at n') !! p = Some c;
  re_subs p s : Sub.subs (subs_at n) !! p = Some s -> Sub.subs (subs_at n') !! p = Some s;
  re_queues q qs : Sub.queues (subs_at n) !! q = Some qs -> Sub.queues (subs_at n') !! q = Some qs
}.

Lemma update_run (n : node) p c f : chans (stan_at n) !! p = Some c -> (on_channels (update_chan p f) : M unit) n = (Ok tt, put_chan p (f c) (connection n) n).
Proof. intros Hc. unfold on_channels, update_chan, chan_at, mbind, eff_bind. rewrite Hc. done. Qed.

(** A channel with other content, and the objects of its subscriptions. *)
Lemma put_all_kept (n : node) p c c' st cl w :
  chans (stan_at n) !! p = Some c -> (name c', id c', activity c') = (name c, id c, activity c) -> same_infos (clients_at n) cl ->
  nkept n (put_all p c' st cl (put_chan p c w n)).
Proof.
  intros Hc [= E1 E2 E3] Hi. split; [|done]. cbn. rewrite insert_insert_eq.
  etrans; [eapply (kept_put _ p c c' Hc); [done|done|unfold prevented; by rewrite E3]|by apply kept_frame].
Qed.

(** The channel is open as [c]: its messages, and then its subscriptions. *)
Lemma fill_run nm p c l sc n1 :
  node_ok unicode n1 -> channels (stan_at n1) !! nm = Some p -> chans (stan_at n1) !! p = Some c -> name c = nm -> ss c = Reg.createSubStore ->
  0 <= ChannelSnapshot.First sc -> 0 <= ChannelSnapshot.Last sc -> ChannelSnapshot.Subscriptions sc = to_snap <$> l ->
  ~ registered (clients_at n1) "" -> all_fit nm l -> (forall i, i ∈ l -> item_ok (clients_at n1) i.1) ->
  let x := fill_channel e clusterID attempts proceed p sc n1 in
  match x.1 with
  | Ok _ => exists c' st' cl' w l', x.2 = put_all p c' st' cl' (put_chan p c w n1) /\ same_infos (clients_at n1) cl' /\ (name c', id c', activity c') = (name c, id c, activity c) /\
      ChannelSnapshot.NextSubID sc <= nextSubID c' /\ listed nm l' (ss c', st') /\ l'.*2 = l /\ above (subs_at n1) (ss c', st')
  | Err err => stopped err
  | Panic => False
  end.
Proof.
  intros [G1 W1] Hp Hc Hn Hss Hf0 Hl0 Hsub Hno Hfit Hiok. cbn zeta.
  destruct (fill_channel e clusterID attempts proceed p sc n1) as [r n'] eqn:Hx. cbn [fst snd]. unfold fill_channel in Hx.
  rewrite (eff_bind_Ok _ _ _ _ _ (update_run n1 p c _ Hc)) in Hx. set (c1 := Restore.set_firstSeq _ c) in Hx. set (n2 := put_chan p c1 (connection n1) n1) in Hx.
  assert (chans (stan_at n2) !! p = Some c1) as Hc1 by apply lookup_insert_eq.
  destruct (attempts_run clusterID attempts p (ChannelSnapshot.First sc) (ChannelSnapshot.Last sc) c1 n2 Hf0 Hl0 Hc1) as (c2 & w & E2 & Hct & Hr2).
  unfold mbind at 1, eff_bind at 1 in Hx. destruct (restore_attempts clusterID attempts p _ _ n2) as [[ok|err|] n3]; cbn in E2, Hr2; [|injection Hx as <- <-; by left|done].
  destruct (negb ok && negb proceed) eqn:Hpr.
  { injection Hx as <- <-. right. split; [by destruct ok, proceed|by eexists]. }
  unfold n2 in E2. rewrite put_chan_put in E2. subst n3. assert (chans (stan_at (put_chan p c2 w n1)) !! p = Some c2) as Hc2 by apply lookup_insert_eq.
  rewrite (eff_bind_Ok _ _ _ _ _ (chan_at_run _ p c2 Hc2)), (eff_bind_Ok _ _ _ _ _ (update_run _ p c2 _ Hc2)), put_chan_put in Hx. set (c3 := set_lSeqChecked false c2) in Hx. cbn [connection put_chan] in Hx.
  assert (chans (stan_at (put_chan p c3 w n1)) !! p = Some c3) as Hc3 by apply lookup_insert_eq. unfold content in Hct. injection Hct as N2 I2 S2 _ A2.
  destruct (recover_all_listed (sub_env e) nm (subs_at n1) l [] (clients_at n1) (ss c3, subs_at n1)) as (l' & cl' & [ss' st'] & Er & Hi & Hl & Hab & El); [done|done|..|done|done|].
  { change (ss c3) with (ss c2). rewrite S2, Hss. apply empty_listed. }
  { change (ss c3) with (ss c2). rewrite S2, Hss. apply empty_above. }
  pose proof (restore_subs_run p nm l c3 (put_chan p c3 w n1) Hc3) as Hrun. cbn [put_chan server Conn.set_stan Conn.stan_of Conn.clients_of subscriptions set_chans] in Hrun.
  rewrite Er in Hrun. destruct Hrun as (c4 & E4 & S4 & Hst4); [unfold c3; cbn; congruence|]. rewrite Hsub, (eff_bind_Ok _ _ _ _ _ E4) in Hx. set (n4 := put_all p c4 st' cl' _) in Hx.
  assert (chans (stan_at n4) !! p = Some c4) as Hc4 by apply lookup_insert_eq. rewrite (eff_bind_Ok _ _ _ _ _ (update_run n4 p c4 _ Hc4)) in Hx. set (c5 := (if nextSubID c4 <? ChannelSnapshot.NextSubID sc then _ else c4)) in Hx. injection Hx as <- <-.
  injection Hst4 as N4 I4 A4. exists c5, st', cl', w, l'. cbn in El. split_and!; [|done| | | |done|].
  - unfold n4, put_all, put_chan. cbn. by rewrite !insert_insert_eq.
  - unfold c5. destruct (_ <? _); cbn; rewrite N4, I4, A4; cbn; by rewrite N2, I2, A2.
  - unfold c5. destruct (Z.ltb_spec (nextSubID c4) (ChannelSnapshot.NextSubID sc)); cbn; lia.
  - unfold c5. destruct (_ <? _); cbn; by rewrite S4.
  - unfold c5. destruct (_ <? _); cbn; by rewrite S4.
Qed.

(** What is known of a channel of the snapshot when it is restored on [n]. *)
Record channel_fits (sc : ChannelSnapshot.t) (l : list item) (n : node) : Prop := {
  cf_id : 0 < ChannelSnapshot.ChannelID sc;
  cf_older j : (abs n).1 !! ChannelSnapshot.Channel sc = Some j -> 0 < j <= ChannelSnapshot.ChannelID sc;
  cf_lower nm' : is_Some ((abs n).1 !! nm') -> lower nm' = lower (ChannelSnapshot.Channel sc) -> nm' = ChannelSnapshot.Channel sc;
  cf_bare p c : channels (stan_at n) !! ChannelSnapshot.Channel sc = Some p -> chans (stan_at n) !! p = Some c -> ss c = Reg.createSubStore;
  cf_sequences : 0 <= ChannelSnapshot.First sc /\ 0 <= ChannelSnapshot.Last sc;
  cf_subs : ChannelSnapshot.Subscriptions sc = to_snap <$> l;
  cf_nobody : ~ registered (clients_at n) "";
  cf_fit : all_fit (ChannelSnapshot.Channel sc) l;
  cf_items i : i ∈ l -> item_ok (clients_at n) i.1
}.

Lemma restore_channel_run sc l n :
  node_ok unicode n -> channel_fits sc l n ->
  let x := restore_channel unicode e clusterID attempts proceed false sc n in
  match x.1 with
  | Ok _ => channel_restored (ChannelSnapshot.Channel sc) (ChannelSnapshot.ChannelID sc) (ChannelSnapshot.NextSubID sc) l n x.2
  | Err err => stopped err
  | Panic => False
  end.
Proof.
  intros [G W] [F1 F2 F3 F4 [F5 F5'] F6 F7 F8 F9]. cbn zeta. set (nm := ChannelSnapshot.Channel sc) in *.
  destruct (restore_channel unicode e clusterID attempts proceed false sc n) as [r n'] eqn:Hx. cbn [fst snd]. unfold restore_channel in Hx.
  destruct (lookup_opened nm _ (stan_at n) G F1 F2 F3) as (p & c & s' & El & [O1 O2 (O3 & O4 & O5 & O6) O7 O8 O9]). fold nm in Hx.
  unfold mbind at 1, eff_bind at 1, on_channels in Hx. rewrite El in Hx. set (n1 := set_server _ n) in Hx.
  assert (ss c = Reg.createSubStore) as Hss by (destruct O7 as [[? ?]|?]; [by eapply F4|done]).
  assert (node_ok unicode n1) as Ho1 by done.
  pose proof (fill_run nm p c l sc n1 Ho1 O3 O4 O5 Hss F5 F5' F6 F7 F8 F9) as Hf. cbn zeta in Hf.
  unfold mbind, eff_bind in Hx. destruct (fill_channel e clusterID attempts proceed p sc n1) as [[b|err|] n2]; cbn [fst snd] in Hf; [|by injection Hx as <- <-|done].
  injection Hx as <- <-. destruct Hf as (c' & st' & cl' & w & l' & -> & Hi & Hst & Hnx & Hl & El' & Hab).
  pose proof (put_all_kept n1 p c c' st' cl' w O4 Hst Hi) as K. destruct (nkept_abs unicode _ _ Ho1 K) as [Ho2 A2]. split.
  - done.
  - rewrite A2. unfold abs. cbn. by rewrite O2.
  - exists p, c', l'. split_and!; [done|cbn; apply lookup_insert_eq|done|done|done].
  - intros nm' Hne. destruct (O9 nm' Hne) as [En Ec]. split; [done|]. intros p' c2 Hp' Hc'. destruct (Ec p' c2 Hp' Hc') as [Hc2 Hpp]. cbn. by rewrite !lookup_insert_ne.
  - intros q s0 Hs. cbn in Hs |- *. apply (ab_subs _ _ Hab). cbn. by rewrite O8.
  - intros q qs Hq. cbn in Hq |- *. apply (ab_queues _ _ Hab). cbn. by rewrite O8.
Qed.

(** ** All channels *)

(** The channel of a snapshot, on a node that has restored it. *)
Definition has_channel (n : node) (sc : ChannelSnapshot.t) : Prop :=
  (abs n).1 !! ChannelSnapshot.Channel sc = Some (ChannelSnapshot.ChannelID sc) /\
  exists p c l, channels (stan_at n) !! ChannelSnapshot.Channel sc = Some p /\ chans (stan_at n) !! p = Some c /\ ChannelSnapshot.NextSubID sc <= nextSubID c /\
    listed (ChannelSnapshot.Channel sc) l (ss c, subs_at n) /\ ChannelSnapshot.Subscriptions sc = to_snap <$> l.*2.

Lemma has_channel_frame n n' sc :
  has_channel n sc -> (abs n').1 !! ChannelSnapshot.Channel sc = (abs n).1 !! ChannelSnapshot.Channel sc -> channels (stan_at n') !! ChannelSnapshot.Channel sc = channels (stan_at n) !! ChannelSnapshot.Channel sc ->
  (forall p c, channels (stan_at n) !! ChannelSnapshot.Channel sc = Some p -> chans (stan_at n) !! p = Some c -> chans (stan_at n') !! p = Some c) ->
  (forall p s, Sub.subs (subs_at n) !! p = Some s -> Sub.subs (subs_at n') !! p = Some s) -> (forall q qs, Sub.queues (subs_at n) !! q = Some qs -> Sub.queues (subs_at n') !! q = Some qs) ->
  has_channel n' sc.
Proof.
  intros (Hi & p & c & l & Hp & Hc & Hn & Hl & Hs) Ei Ep Ec Es Eq. split; [by rewrite Ei|]. exists p, c, l. split_and!; [by rewrite Ep|by apply Ec|done| |done]. by eapply listed_frame.
Qed.

(** What the channels to come need of the node. *)
Definition pending (scs : list ChannelSnapshot.t) (n : node) : Prop :=
  NoDup (ChannelSnapshot.Channel <$> scs) /\
  (forall sc sc', sc ∈ scs -> sc' ∈ scs -> lower (ChannelSnapshot.Channel sc') = lower (ChannelSnapshot.Channel sc) -> ChannelSnapshot.Channel sc' = ChannelSnapshot.Channel sc) /\
  forall sc, sc ∈ scs -> exists l, channel_fits sc l n.

Lemma pending_step sc scs l n n' :
  pending (sc :: scs) n -> node_ok unicode n -> channel_restored (ChannelSnapshot.Channel sc) (ChannelSnapshot.ChannelID sc) (ChannelSnapshot.NextSubID sc) l n n' -> pending scs n'.
Proof.
  intros (Hnd & Hlo & Hfit) Ho [R1 R2 R3 R4 R5 R6]. cbn in Hnd. apply NoDup_cons in Hnd as [Hnew Hnd]. split; [done|]. split; [intros sc1 sc2 H1' H2'; by apply Hlo; right|].
  intros sc' Hsc'. destruct (Hfit sc' ltac:(by right)) as [l' [F1 F2 F3 F4 F5 F6 F7 F8 F9]]. exists l'.
  assert (ChannelSnapshot.Channel sc' <> ChannelSnapshot.Channel sc) as Hne by (intros Heq; apply Hnew, list_elem_of_fmap; by exists sc').
  unfold abs in R2. injection R2 as R2 R2'. cbn in R2, R2'.
  assert (forall k, registered (clients_at n') k <-> registered (clients_at n) k) as Hreg by (intros k; unfold registered; by rewrite R2'). split; [done|..|done|done| |done|].
  - intros j. cbn. rewrite R2, lookup_insert_ne by done. apply F2.
  - intros nm'. cbn. rewrite R2. intros [j Hj] Hl. apply lookup_insert_Some in Hj as [[<- <-]|[_ Hj]]; [apply Hlo; [by right|left|done]|apply F3; [by eexists|done]].
  - destruct (R4 _ Hne) as [En Ec]. intros p c. rewrite En. intros Hp Hc. destruct (ro_channel _ _ (proj1 Ho) _ _ Hp) as (c' & Hc' & _). rewrite (Ec p c' Hp Hc') in Hc. injection Hc as <-. by eapply F4.
  - by rewrite Hreg.
  - intros i Hi. specialize (F9 i Hi). unfold item_ok in *. destruct (kind_of i.1); rewrite ?Hreg; done.
Qed.

Lemma restore_channels_run : forall scs done b n,
  node_ok unicode n -> pending scs n -> (forall sc, sc ∈ done -> has_channel n sc /\ ChannelSnapshot.Channel sc ∉ ChannelSnapshot.Channel <$> scs) ->
  let x := restore_channels unicode e clusterID attempts proceed false scs b n in
  match x.1 with
  | Ok _ => node_ok unicode x.2 /\ (abs x.2).2 = (abs n).2 /\ (forall sc, sc ∈ done ++ scs -> has_channel x.2 sc) /\
      forall nm, nm ∉ ChannelSnapshot.Channel <$> scs -> (abs x.2).1 !! nm = (abs n).1 !! nm
  | Err err => stopped err
  | Panic => False
  end.
Proof.
  induction scs as [|sc scs IH]; intros done b n Ho Hpe Hdone; cbn zeta.
  { cbn. split_and!; [done|done| |done]. intros sc Hsc. rewrite app_nil_r in Hsc. by apply Hdone. }
  destruct (restore_channels unicode e clusterID attempts proceed false (sc :: scs) b n) as [r n'] eqn:Hx. cbn [fst snd]. cbn [restore_channels] in Hx.
  pose proof Hpe as (_ & _ & Hfit). destruct (Hfit sc ltac:(left)) as [l Hf]. pose proof (restore_channel_run sc l n Ho Hf) as Hr. cbn zeta in Hr.
  unfold mbind, eff_bind in Hx. destruct (restore_channel unicode e clusterID attempts proceed false sc n) as [[o|err|] n1]; cbn [fst snd] in Hr; [|by injection Hx as <- <-|done].
  pose proof (pending_step _ _ _ _ _ Hpe Ho Hr) as Hpe1. pose proof Hpe as (Hnd & _). cbn in Hnd. apply NoDup_cons in Hnd as [Hnew _]. destruct Hr as [R1 R2 R3 R4 R5 R6].
  assert ((abs n1).1 = <[ChannelSnapshot.Channel sc := ChannelSnapshot.ChannelID sc]> (abs n).1 /\ (abs n1).2 = (abs n).2) as [I1 I2] by by rewrite R2.
  assert (forall sc', sc' ∈ done ++ [sc] -> has_channel n1 sc' /\ ChannelSnapshot.Channel sc' ∉ ChannelSnapshot.Channel <$> scs) as Hd1.
  { intros sc' [Hsc'| ->%list_elem_of_singleton]%elem_of_app.
    - destruct (Hdone sc' Hsc') as [Hh Hn]. rewrite fmap_cons in Hn. apply not_elem_of_cons in Hn as [Hne Hn]. split; [|done]. destruct (R4 _ Hne) as [En Ec].
      eapply has_channel_frame; [exact Hh|rewrite I1; by rewrite lookup_insert_ne|done|done|done|done].
    - split; [|done]. split; [rewrite I1; apply lookup_insert_eq|]. destruct R3 as (p & c & l' & Hp & Hc & Hnx & Hl & El). exists p, c, l'. rewrite El. split_and!; try done. apply Hf. }
  pose proof (IH (done ++ [sc]) (match o with Some b0 => b0 | None => b end) n1 R1 Hpe1 Hd1) as Hi. cbn zeta in Hi.
  rewrite Hx in Hi. cbn [fst snd] in Hi. destruct r as [b'|err|]; [|done|done]. destruct Hi as (H1' & H2' & H3' & H4'). split_and!; [done|congruence| |].
  - intros sc' Hsc'. apply H3'. by rewrite <- app_assoc.
  - intros nm Hnm. rewrite fmap_cons in Hnm. apply not_elem_of_cons in Hnm as [Hne Hnm]. rewrite H4' by done. rewrite I1. by rewrite lookup_insert_ne.
Qed.

(** ** Channels that are not in the snapshot *)

Lemma delete_old_run : forall l n,
  node_ok unicode n -> NoDup l -> (forall nm, nm ∈ l -> is_Some (channels (stan_at n) !! nm)) ->
  exists n', each (fun nm => on_channels (processDeleteChannel unicode e nm)) l n = (Ok tt, n') /\ node_ok unicode n' /\ (abs n').2 = (abs n).2 /\
    (forall nm, (abs n').1 !! nm = if decide (nm ∈ l) then None else (abs n).1 !! nm) /\
    (forall sc, has_channel n sc -> ChannelSnapshot.Channel sc ∉ l -> has_channel n' sc).
Proof.
  induction l as [|nm l IH]; intros n Ho Hnd Hl; [by exists n|]. apply NoDup_cons in Hnd as [Hnm Hnd]. destruct Ho as [G W].
  destruct (processDelete_run unicode e clustered nm (stan_at n) G (Hl nm ltac:(left))) as (s0 & E1 & (F1 & F2 & F3 & F4) & G1 & I1).
  set (n1 := set_server (Conn.set_stan (unlinked unicode nm s0) (server n)) n).
  assert (on_channels (processDeleteChannel unicode e nm) n = (Ok tt, n1) :> outcome (fsm_error E) unit * node) as En by (unfold on_channels; by rewrite E1).
  assert (forall nm', nm' <> nm -> channels (stan_at n1) !! nm' = channels (stan_at n) !! nm') as Hch by (intros nm' Hne; cbn; by rewrite F2, lookup_delete_ne).
  assert ((abs n1).1 = delete nm (abs n).1) as Ia by done.
  destruct (IH n1) as (n' & E2 & Ho' & A2 & A1 & Hh); [done|done|intros nm' Hi; rewrite Hch by (by intros ->); apply Hl; by right|].
  exists n'. split; [cbn; by rewrite (eff_bind_Ok _ _ _ _ _ En)|]. split; [done|]. split; [done|]. split.
  - intros nm'. rewrite A1, Ia. destruct (decide (nm' ∈ l)) as [Hi|Hi]; [by rewrite decide_True by by right|]. destruct (decide (nm' = nm)) as [->|Hne].
    + by rewrite lookup_delete_eq, decide_True by left.
    + by rewrite lookup_delete_ne, decide_False by (done || (rewrite elem_of_cons; naive_solver)).
  - intros sc Hsc [Hne Hni]%not_elem_of_cons. apply Hh; [|done]. eapply has_channel_frame; [exact Hsc|rewrite Ia; by rewrite lookup_delete_ne|by apply Hch|..]; cbn; rewrite ?F1, ?F4; done.
Qed.

Lemma old_lookup (m : gmap string Sub.ptr) (l : list ChannelSnapshot.t) nm :
  foldr (fun sc => delete (ChannelSnapshot.Channel sc)) m l !! nm = if decide (nm ∈ ChannelSnapshot.Channel <$> l) then None else m !! nm.
Proof.
  induction l as [|sc l IH]; [by rewrite decide_False by apply not_elem_of_nil|]. cbn. destruct (decide (nm = ChannelSnapshot.Channel sc)) as [->|Hne].
  - rewrite lookup_delete_eq, decide_True; [done|left].
  - rewrite lookup_delete_ne, IH by done. destruct (decide (nm ∈ _ <$> l)); [rewrite decide_True by (by right)|rewrite decide_False by (rewrite elem_of_cons; naive_solver)]; done.
Qed.

Lemma restoreChannels_run snap n :
  node_ok unicode n -> pending (RaftSnapshot.Channels snap) n ->
  let x := restoreChannelsFromSnapshot unicode e clusterID attempts proceed snap false n in
  match x.1 with
  | Ok _ => node_ok unicode x.2 /\ (abs x.2).2 = (abs n).2 /\ (forall sc, sc ∈ RaftSnapshot.Channels snap -> has_channel x.2 sc) /\
      forall nm, nm ∉ ChannelSnapshot.Channel <$> RaftSnapshot.Channels snap -> (abs x.2).1 !! nm = None
  | Err err => stopped err
  | Panic => False
  end.
Proof.
  intros Ho Hpe. cbn zeta. destruct (restoreChannelsFromSnapshot unicode e clusterID attempts proceed snap false n) as [r n'] eqn:Hx. cbn [fst snd].
  unfold restoreChannelsFromSnapshot in Hx. rewrite eff_get in Hx. pose proof (restore_channels_run (RaftSnapshot.Channels snap) [] false n Ho Hpe) as Hr. cbn zeta in Hr.
  unfold mbind at 1, eff_bind at 1 in Hx. destruct (restore_channels _ _ _ _ _ _ _ _ n) as [[b|err|] n1]; cbn [fst snd] in Hr; [|injection Hx as <- <-; by apply Hr; intros ? ?%not_elem_of_nil|destruct Hr; by intros ? ?%not_elem_of_nil].
  destruct Hr as (Ho1 & A1 & Hh & Hrest); [by intros ? ?%not_elem_of_nil|]. cbn [negb] in Hx. unfold when in Hx. set (old := foldr _ _ _) in Hx.
  destruct (delete_old_run (range old).*1 n1 Ho1 (NoDup_range_fst old)) as (n2 & E2 & Ho2 & A2 & I2 & Hh2).
  { intros nm ([nm' p] & -> & Hp%elem_of_range)%list_elem_of_fmap. cbn. unfold old in Hp. rewrite old_lookup in Hp. destruct (decide _) as [|Hn]; [done|].
    rewrite <- (ids_is_Some unicode) by apply Ho1. change (ids (stan_at n1)) with (abs n1).1. rewrite Hrest by done. cbn. rewrite (ids_is_Some unicode) by apply Ho. by eexists. }
  rewrite (eff_bind_Ok _ _ _ _ _ E2) in Hx. injection Hx as <- <-. split_and!; [done|congruence| |].
  - intros sc Hsc. apply Hh2; [by apply Hh|]. intros ([nm' p] & Enm & Hp%elem_of_range)%list_elem_of_fmap. cbn in Enm. unfold old in Hp. rewrite old_lookup, decide_True in Hp; [done|].
    rewrite <- Enm. apply list_elem_of_fmap. by exists sc.
  - intros nm Hnm. rewrite I2. destruct (decide _) as [|Hn]; [done|]. rewrite Hrest by done. cbn. apply ids_none. destruct (channels (stan_at n) !! nm) as [p|] eqn:Hp; [|done].
    destruct Hn. apply list_elem_of_fmap. exists (nm, p). split; [done|]. apply elem_of_range. unfold old. rewrite old_lookup. by rewrite decide_False.
Qed.

(** ** A snapshot *)

Context (follower : isStandaloneOrLeader e = false) (adds : forall k, AddClient_fails k = None) (deletes : forall k, DeleteClient_fails k = None).

Lemma Restore_run (b : list byte) snap n :
  holds_snapshot b snap -> node_ok unicode n -> node_subs_ok n -> node_online n -> NoDup ((fun i => ClientStore.ID (client_of i)) <$> RaftSnapshot.Clients snap) ->
  (forall n', node_ok unicode n' -> (abs n').1 = (abs n).1 -> (forall k i, (abs n').2 !! k = Some i <-> ClientStore.ID i = k /\ exists r, r ∈ RaftSnapshot.Clients snap /\ client_of r = i) ->
     bare n' -> pending (RaftSnapshot.Channels snap) n') ->
  let x := Restore unicode e clusterID AddClient_fails DeleteClient_fails attempts proceed false b n in
  match x.1 with
  | Ok _ => node_ok unicode x.2 /\ (forall k i, (abs x.2).2 !! k = Some i <-> ClientStore.ID i = k /\ exists r, r ∈ RaftSnapshot.Clients snap /\ client_of r = i) /\
      (forall sc, sc ∈ RaftSnapshot.Channels snap -> has_channel x.2 sc) /\ forall nm, nm ∉ ChannelSnapshot.Channel <$> RaftSnapshot.Channels snap -> (abs x.2).1 !! nm = None
  | Err err => stopped err
  | Panic => False
  end.
Proof.
  intros (Hlen & Hsize & Hu) Ho Hso Hon Hnd Hpe. cbn zeta. destruct (drop_state_run unicode e AddClient_fails DeleteClient_fails follower adds deletes n Ho Hso Hon) as (n1 & E1 & Ho1 & A1 & B1).
  unfold Restore. rewrite (eff_bind_Ok _ _ _ _ _ E1). destruct b as [|b0 b]; [cbn in Hlen; lia|]. set (bb := b0 :: b) in *. rewrite (proj2 (Nat.ltb_ge _ _) Hlen), Hsize, Nat.ltb_irrefl, firstn_all, Hu.
  destruct snap as [cs ch pd]. cbn [RaftSnapshot.Clients RaftSnapshot.Channels] in *.
  assert (infos (clients_at n1) = ∅) as Hi1 by (unfold abs in A1; by injection A1).
  destruct (restore_clients_run AddClient_fails adds cs ch pd n1 (proj2 Ho1) Hnd) as (n2 & E2 & C2 & W2 & I2); [intros r Hr; by rewrite Hi1|].
  rewrite (eff_bind_Ok _ _ _ _ _ E2). destruct (kept_ids unicode _ _ (proj1 Ho1) (co_kept _ _ C2)) as [G2 Ei].
  assert (forall k i, (abs n2).2 !! k = Some i <-> ClientStore.ID i = k /\ exists r, r ∈ cs /\ client_of r = i) as I2'.
  { intros k i. cbn. rewrite I2, Hi1, lookup_empty. split; [by intros [?|?]|by right]. }
  assert (node_ok unicode n2) as Ho2 by done.
  pose proof (restoreChannels_run (RaftSnapshot.mk cs ch pd) n2 Ho2) as Hr. cbn zeta in Hr. cbn [RaftSnapshot.Channels] in Hr.
  assert (pending ch n2) as Hpe2.
  { apply Hpe; [done| |done|by eapply clients_only_bare]. change (abs n2).1 with (ids (stan_at n2)). rewrite Ei. change (ids (stan_at n1)) with (abs n1).1. by rewrite A1. }
  specialize (Hr Hpe2). destruct (restoreChannelsFromSnapshot _ _ _ _ _ _ _ n2) as [[r|err|] n3]; cbn [fst snd] in *; [|done|done].
  destruct Hr as (R1 & R2 & R3 & R4). split_and!; [done| |done|done]. intros k i. rewrite R2. apply I2'.
Qed.
End Node.

(** ** Two nodes *)

Section Transfer.
Context {S D R E N : Type} `{MsgStore S} `{!MsgLog S E} `{!MsgRestore S E} `{!Stores D S E} `{!StoresWork D S E} `{!RaftStore R E} `{!RaftStoreWorks R E}.
Context `{!Restore.Wire N E} `{!NoPanic S N E} `{!Sorter} `{StanFields} (unicode : list ascii -> list ascii).

Abbreviation node := (@Fsm.node S D R E N).
Abbreviation stan_at n := (Conn.stan_of (server n)).
Abbreviation clients_at n := (Conn.clients_of (server n)).
Abbreviation subs_at n := (subscriptions (stan_at n)).
Abbreviation lower := (ToLower unicode).

(** The node has no channel that is newer than that of the snapshot, or that has the name of
    another one but for the case; clients and channels have identifiers. *)
Record behind (n n2 : node) : Prop := {
  be_ids nm i : (abs n).1 !! nm = Some i -> 0 < i;
  be_older nm i j : (abs n).1 !! nm = Some i -> (abs n2).1 !! nm = Some j -> 0 < j <= i;
  be_lower nm nm' : is_Some ((abs n).1 !! nm) -> is_Some ((abs n2).1 !! nm') -> lower nm' = lower nm -> nm' = nm;
  be_clients : (abs n).2 !! "" = None
}.

(** Clients and channels are the same, and the subscriptions of each channel look the same. *)
Definition same_state (n n' : node) : Prop :=
  abs n' = abs n /\
  forall nm p c, channels (stan_at n) !! nm = Some p -> chans (stan_at n) !! p = Some c ->
    exists p' c', channels (stan_at n') !! nm = Some p' /\ chans (stan_at n') !! p' = Some c' /\
      view_of (ss c', subs_at n') = view_of (ss c, subs_at n) /\ nextSubID c <= nextSubID c'.

Section Snapshot.
Context (oz : RangeOrder Z) (os : RangeOrder string) (n : node) (snap : RaftSnapshot.t).
Context (Ho : node_ok unicode n) (Hso : node_subs_ok n) (Hs : snapshot_of (RangeOrder0 := oz) (RangeOrder1 := os) n snap) (Hq : sequences_ok snap).

Lemma snapshot_clients (n' : node) :
  (forall k i, (abs n').2 !! k = Some i <-> ClientStore.ID i = k /\ exists r, r ∈ RaftSnapshot.Clients snap /\ client_of r = i) -> (abs n').2 = (abs n).2.
Proof. intros Hi. apply map_eq_iff. intros k. apply option_eq. intros i. rewrite Hi. symmetry. apply (sn_clients _ _ Hs). Qed.

Lemma snapshot_ids sc p c : channels (stan_at n) !! ChannelSnapshot.Channel sc = Some p -> chans (stan_at n) !! p = Some c -> (abs n).1 !! ChannelSnapshot.Channel sc = Some (id c).
Proof. apply ids_lookup. Qed.

Lemma snapshot_pending (n2 n' : node) :
  behind n n2 -> node_ok unicode n' -> (abs n').1 = (abs n2).1 ->
  (forall k i, (abs n').2 !! k = Some i <-> ClientStore.ID i = k /\ exists r, r ∈ RaftSnapshot.Clients snap /\ client_of r = i) ->
  bare n' -> pending unicode (RaftSnapshot.Channels snap) n'.
Proof.
  intros [B1 B2 B3 B4] Ho' E1 Hi Hb. pose proof (snapshot_clients _ Hi) as E2. assert (forall k, registered (clients_at n') k <-> registered (clients_at n) k) as Hreg.
  { intros k. unfold registered. change (infos (clients_at n')) with (abs n').2. by rewrite E2. }
  split; [apply Hs|]. split.
  - intros sc sc' Hsc Hsc' Hl. destruct (sn_channel _ _ Hs _ Hsc) as (p & c & Hp & _). destruct (sn_channel _ _ Hs _ Hsc') as (p' & c' & Hp' & _).
    destruct (ro_channel _ _ (proj1 Ho) _ _ Hp) as (_ & _ & _ & L1 & _). destruct (ro_channel _ _ (proj1 Ho) _ _ Hp') as (_ & _ & _ & L2 & _). rewrite Hl, L1 in L2. injection L2 as ->.
    by eapply reg_inj; [apply Ho|..].
  - intros sc Hsc. destruct (sn_channel _ _ Hs _ Hsc) as (p & c & Hp & Hc & I1 & I2 & I3 & I4). exists (entries (ss c, subs_at n)).*2.
    pose proof (snapshot_ids sc p c Hp Hc) as Hid. pose proof (Hso _ _ _ Hp Hc) as Hok. split.
    + rewrite I2. by eapply B1.
    + intros j. rewrite E1, I2. by apply B2.
    + intros nm'. rewrite E1. apply B3. by eexists.
    + intros p' c'. apply Hb.
    + by apply Hq.
    + done.
    + rewrite Hreg. unfold registered. change (infos (clients_at n)) with (abs n).2. rewrite B4. by intros [].
    + by apply (entries_fit _ (clients_at n)).
    + intros i Hin. pose proof (entries_ok _ _ _ Hok i Hin) as Hit. unfold item_ok in *. destruct (kind_of i.1); by rewrite ?Hreg.
Qed.

#[local] Instance to_snap_inj : Inj (=) (=) to_snap.
Proof. by intros [s a] [s' a'] [= -> ->]. Qed.

(** What [Restore_run] shows is the state of the node that the snapshot was taken from. *)
Lemma restored_same (n' : node) :
  (forall k i, (abs n').2 !! k = Some i <-> ClientStore.ID i = k /\ exists r, r ∈ RaftSnapshot.Clients snap /\ client_of r = i) ->
  (forall sc, sc ∈ RaftSnapshot.Channels snap -> has_channel n' sc) -> (forall nm, nm ∉ ChannelSnapshot.Channel <$> RaftSnapshot.Channels snap -> (abs n').1 !! nm = None) ->
  same_state n n'.
Proof.
  intros Hi Hh Hno. assert (forall nm p c, channels (stan_at n) !! nm = Some p -> chans (stan_at n) !! p = Some c -> exists sc, sc ∈ RaftSnapshot.Channels snap /\ ChannelSnapshot.Channel sc = nm /\ channel_item n c sc) as Hex.
  { intros nm p c Hp Hc. assert (nm ∈ ChannelSnapshot.Channel <$> RaftSnapshot.Channels snap) as (sc & -> & Hsc)%list_elem_of_fmap by (apply (sn_all _ _ Hs); by eexists).
    destruct (sn_channel _ _ Hs _ Hsc) as (p' & c' & Hp' & Hc' & Hit). assert (c' = c) as -> by congruence. by exists sc. }
  split.
  - rewrite (surjective_pairing (abs n')), (surjective_pairing (abs n)). f_equal; [|by apply snapshot_clients]. apply map_eq. intros nm. cbn. destruct (channels (stan_at n) !! nm) as [p|] eqn:Hp.
    + destruct (ro_channel _ _ (proj1 Ho) _ _ Hp) as (c & Hc & _). destruct (Hex nm p c Hp Hc) as (sc & Hsc & <- & Hit). rewrite (ids_lookup _ _ _ _ Hp Hc).
      destruct (Hh sc Hsc) as [Hid _]. destruct Hit as (_ & <- & _). exact Hid.
    + rewrite (ids_none (stan_at n)) by done. apply (Hno nm). intros (sc & -> & Hsc)%list_elem_of_fmap. destruct (sn_channel _ _ Hs _ Hsc) as (p & c & Hp' & _). congruence.
  - intros nm p c Hp Hc. destruct (Hex nm p c Hp Hc) as (sc & Hsc & <- & I1 & I2 & I3 & I4). destruct (Hh sc Hsc) as (_ & p' & c' & l & Hp' & Hc' & Hnx & Hl & Hsub).
    exists p', c'. split_and!; [done|done| |by rewrite <- I3]. rewrite Hsub in I4. apply (inj (fmap to_snap)) in I4. eapply listed_view; [exact Hl|by eapply entries_listed, Hso|exact I4].
Qed.
End Snapshot.

(** The node that takes a snapshot, with its environment. *)
Section Nodes.
Context (oz1 oz2 : RangeOrder Z) (os1 os2 : RangeOrder string) (e1 e2 : @environment S D R E) (clusterID : string).
Context (sink_fails AddClient_fails DeleteClient_fails : nat -> option E) (attempts : nat) (proceed : bool) (n1 n1' n2 : node) (k : sink).

Abbreviation take1 := (take_snapshot (RangeOrder0 := oz1) (RangeOrder1 := os1) e1).
Abbreviation Persist1 := (Persist (RangeOrder0 := oz1) (RangeOrder1 := os1) e1 sink_fails).
Abbreviation Restore2 := (Restore (RangeOrder0 := oz2) (RangeOrder1 := os2) unicode e2 clusterID AddClient_fails DeleteClient_fails attempts proceed false).

Lemma transfer_run :
  Sub.isClustered (sub_env e2) = true -> isLeader e2 = false -> (forall i, LastSequence_fails e2 i = None) -> (forall i, AddClient_fails i = None) -> (forall i, DeleteClient_fails i = None) ->
  node_ok unicode n1 -> node_subs_ok n1 -> node_ok unicode n2 -> node_subs_ok n2 -> node_online n2 -> behind n1 n2 ->
  (forall snap n, take1 n1 = (Ok snap, n) -> Proto.c_typed RaftSnapshot.codec snap /\ RaftSnapshot.Size snap < two32) ->
  Persist1 n1 = (Ok tt, k, n1') ->
  ended k = SinkClosed /\ 1804 <= Z.of_nat (length (written k)) /\ nkept n1 n1' /\
  let x := Restore2 (written k) n2 in
  match x.1 with
  | Ok _ => same_state n1 x.2 /\ node_ok unicode x.2
  | Err err => shutting_down (N := N) err \/ proceed = false /\ exists nm, err = FsmAborted nm
  | Panic => False
  end.
Proof.
  intros Hcl Hld Hrd Had Hde Ho1 Hs1 Ho2 Hs2 Hon Hbe Hty Hp.
  destruct (Persist_run (RangeOrder0 := oz1) (RangeOrder1 := os1) unicode e1 sink_fails n1 k n1' Hp Ho1 Hs1 Hty) as (K1 & K2 & K3%calm_kept & snap & Hsn & Hh & Hq). split_and!; [done..|]. cbn zeta.
  assert (isStandaloneOrLeader e2 = false) as Hfo by (unfold isStandaloneOrLeader; by rewrite Hcl, Hld).
  pose proof (Restore_run (RangeOrder0 := oz2) (RangeOrder1 := os2) unicode e2 clusterID AddClient_fails DeleteClient_fails attempts proceed Hcl Hrd Hfo Had Hde (written k) snap n2 Hh Ho2 Hs2 Hon (sn_ids _ _ Hsn)) as Hr.
  cbn zeta in Hr. specialize (Hr (fun n' => snapshot_pending oz1 os1 n1 snap Ho1 Hs1 Hsn Hq n2 n' Hbe)).
  destruct (Restore2 (written k) n2) as [[b|err|] n2']; cbn [fst snd] in *; [|done|done]. destruct Hr as (R0 & R1 & R2 & R3). split; [|done]. by apply (restored_same oz1 os1 n1 snap Ho1 Hs1 Hsn).
Qed.

(** [C10] A snapshot carries the state of a node to another one.  When [Persist] succeeds, the
    snapshot is closed and large enough for the timeout of those who restore it.  A follower
    that restores it at runtime drops its own subscriptions and clients, and then has the
    clients and the channels of the first node, with their identifiers, no other channels,
    and for each channel the same subscribers, durables, groups, pending messages and
    lookups by inbox.  It never panics, and fails only when it is shut down or cannot get
    the messages of a channel.
    This is for nodes whose subscriptions are consistent ([node_subs_ok]) and whose stores
    create, delete and read channels, and store and delete clients, without failing; the
    snapshot has less than 2^32 bytes.  The restoring node has no channel newer than that of
    the snapshot, none that differs from one of the snapshot only in case ([behind]), and no
    durable that is offline ([node_online]); [leftover_channel_blocks_restore] and
    [stale_durable_survives_restore] show what happens otherwise. *)
Theorem snapshot_transfers_state :
  Sub.isClustered (sub_env e2) = true -> isLeader e2 = false -> (forall i, LastSequence_fails e2 i = None) -> (forall i, AddClient_fails i = None) -> (forall i, DeleteClient_fails i = None) ->
  node_ok unicode n1 -> node_subs_ok n1 -> node_ok unicode n2 -> node_subs_ok n2 -> node_online n2 -> behind n1 n2 ->
  (forall snap n, take1 n1 = (Ok snap, n) -> Proto.c_typed RaftSnapshot.codec snap /\ RaftSnapshot.Size snap < two32) ->
  Persist1 n1 = (Ok tt, k, n1') ->
  ended k = SinkClosed /\ 1804 <= Z.of_nat (length (written k)) /\
  let x := Restore2 (written k) n2 in
  match x.1 with
  | Ok _ => same_state n1 x.2
  | Err err => shutting_down (N := N) err \/ proceed = false /\ exists nm, err = FsmAborted nm
  | Panic => False
  end.
Proof.
  intros Hcl Hld Hrd Had Hde Ho1 Hs1 Ho2 Hs2 Hon Hbe Hty Hp. destruct (transfer_run Hcl Hld Hrd Had Hde Ho1 Hs1 Ho2 Hs2 Hon Hbe Hty Hp) as (K1 & K2 & _ & Hr).
  split; [done|]. split; [done|]. cbn zeta in *. destruct (Restore2 (written k) n2) as [[b|err|] n2']; [apply Hr|done|done].
Qed.

End Nodes.
End Transfer.
End SnapSys.
