(* ===== verification/SnapshotCases.v ===== *)
(** * Snapshots: concrete runs

    Nodes with stores in memory take snapshots and restore them. *)

From Stdlib Require Import ZArith Lia Ascii String.
From stdpp Require Import base list gmap strings.
From S2P Require Import Prelude Bytes GoLib Limits Effects Proto Spb MemStore MsgStore MsgRestore GenericStore ClientStore SubState Delivery SubStore ChannelStore ChannelStoreSpec PublishCases Connect RestoreMsgs RestoreSpec RestoreSys RestoreLive RestoreCases Fsm FsmSpec FsmAgree FsmPublish FsmCases Snapshot SnapshotSpec SnapshotTake SnapshotDrop SnapshotNode SnapshotSys.

Local Open Scope Z_scope.

Module SnapSample.
Import Chan MemoryServer PublishSample RestoreSample RestoreSpec Fsm FsmSpec FsmAgree FsmPublish FsmSample Snap SnapSpec SnapTake SnapDrop SnapPersist SnapNode SnapMsgs SnapSys.
#[local] Existing Instances names_order ptr_order sample_store_spec sample_log sample_log_spec sample_stores_spec sample_raft sample_restore sample_restore_spec sample_wire sample_wire_spec insertion_sorter Z_order memory_works raft_works sample_proto.

#[local] Instance sample_no_panic : NoPanic Mem.MemoryMsgStore (@RestoreSys.net Mem.MemoryMsgStore memory (gmap string Z) memory_error) memory_error.
Proof.
  split.
  - intros t m s. cbn. by destruct (Mem.Store _ _ _ _).
  - intros s. cbn. done.
  - done.
  - intros i n. cbn. by destruct (RestoreSys.boxes n !! i) as [[|]|].
Qed.

(** ** Nodes *)

(** The subscriptions of client "d" are durable, those of client "q" are in a group, and those
    of client "F" are of another channel. *)
Definition request (k : string) : Reg.SubscriptionRequest :=
  Reg.mkSR k (if String.eqb k "F" then "Foo" else "foo") (if String.eqb k "q" then "group" else "") ("inbox." ++ k) 1 30 (if String.eqb k "d" then "dur" else "") Dlv.NewOnly.

#[local] Instance snap_fields : @StanFields sample_proto := {|
  msg_fields m := m;
  sub_fields d := request (string_of_list_ascii d);
  unsub_fields d := mkUnsub (string_of_list_ascii d) "foo" ("ack." ++ string_of_list_ascii d);
  connect_fields d := Conn.mkConnect (string_of_list_ascii d) "hb" "" 0 0 0;
  close_fields d := string_of_list_ascii d
|}.

Definition subscribe (k : string) (i : Z) : RaftOperation.t :=
  RaftOperation.mk RaftOperation_Subscribe None (Some (AddSubscription.mk (Some (list_ascii_of_string k)) ("ack." ++ k) 1)) None None None None "" i.
Definition sub_op (t : Z) (k : string) : RaftOperation.t := RaftOperation.mk t None None (Some (list_ascii_of_string k)) None None None "" 0.
Definition close_sub := sub_op RaftOperation_CloseSubscription.
Definition remove_sub := sub_op RaftOperation_RemoveSubscription.

Definition follow (log : list RaftOperation.t) (n : node) : option node :=
  apply_all same (node_env false) "cluster" (fun _ => None) (fun _ => None) (fun _ => 1) (fun _ => true) (RaftOperation.Marshal <$> log) n.
Definition after (log : list RaftOperation.t) : node := default new_node (follow log new_node).

Definition persist (n : node) : outcome (fsm_error memory_error) unit * sink * node := Persist (node_env false) (fun _ => None) n.
Definition restore (n1 n2 : node) : outcome (fsm_error memory_error) bool * node :=
  Restore same (node_env false) "cluster" (fun _ => None) (fun _ => None) 3 false false (written (persist n1).1.2) n2.

Definition before_ops : list RaftOperation.t :=
  [op_connect "p"; op_connect "d"; op_connect "q"; op_publish 3 [1; 2]; subscribe "p" 3; subscribe "d" 3; subscribe "q" 3; close_sub "d"].
Definition older_ops : list RaftOperation.t := [op_connect "x"; op_publish 2 [1]; subscribe "x" 2].
Definition after_ops : list RaftOperation.t := [op_connect "z"; op_publish 3 [3]; op_publish 4 [1]].

(** ** Consistency can be decided *)

#[local] Instance found_dec {A} (o : option A) (P : A -> Prop) `{!forall a, Decision (P a)} : Decision (exists a, o = Some a /\ P a).
Proof. refine (match o as o return Decision (exists a, o = Some a /\ P a) with Some a => cast_if (decide (P a)) | None => right _ end); abstract naive_solver. Defined.
#[local] Instance if_found_dec {A} (o : option A) (P : A -> Prop) `{!forall a, Decision (P a)} : Decision (forall a, o = Some a -> P a).
Proof. refine (match o as o return Decision (forall a, o = Some a -> P a) with Some a => cast_if (decide (P a)) | None => left _ end); abstract naive_solver. Defined.
#[local] Instance entries_dec {A} (m : gmap string A) (P : string -> A -> Prop) `{!forall k a, Decision (P k a)} : Decision (forall k a, m !! k = Some a -> P k a) :=
  map_Forall_dec P m.
#[local] Instance elements_dec (l : list ptr) (P : ptr -> Prop) `{!forall a, Decision (P a)} : Decision (forall a, a ∈ l -> P a).
Proof. refine (cast_if (decide (Forall P l))); abstract (by rewrite <- Forall_forall). Defined.

Section Decide.
Context (nm : string) (cl : clientStore).

#[local] Instance client_has_dec k p : Decision (client_has cl k p).
Proof. refine (cast_if (decide (exists q, clients cl !! k = Some q /\ exists c, heap cl !! q = Some c /\ p ∈ csubs c))); abstract (unfold client_has; naive_solver). Defined.
#[local] Instance online_dec ss p sub : Decision (online nm cl ss p sub).
Proof.
  refine (cast_if (decide (Sub.ClientID sub <> "" /\ Sub.IsClosed sub = false /\ Sub.subject sub = nm /\ 0 <= Sub.LastSent sub /\
    Reg.acks ss !! Sub.AckInbox sub = Some p /\ Reg.inboxes ss !! Sub.Inbox sub = Some p /\ client_has cl (Sub.ClientID sub) p)));
    abstract (first [split; naive_solver | intros []; naive_solver]).
Defined.
#[local] Instance plain_ok_dec ss p sub : Decision (plain_ok nm cl ss p sub) := ltac:(unfold plain_ok; apply _).
#[local] Instance closed_ok_dec k sub : Decision (closed_ok nm k sub) := ltac:(unfold closed_ok; apply _).
#[local] Instance member_ok_dec ss g q qs p sub : Decision (member_ok nm cl ss g q qs p sub) := ltac:(unfold member_ok, grouped; apply _).
#[local] Instance shadow_ok_dec g q qs sub : Decision (shadow_ok nm g q qs sub) := ltac:(unfold shadow_ok, grouped; apply _).
Lemma running_listed (x : Reg.state) p :
  running x p <-> p ∈ Reg.psubs x.1 \/ Exists (fun gq => exists qs, Sub.queues x.2 !! gq.2 = Some qs /\ p ∈ Sub.members qs) (map_to_list (Reg.qsubs x.1)).
Proof.
  rewrite Exists_exists. split; (intros [Hp|Hp]; [by left|right]).
  - destruct Hp as (g & q & qs & Hq & Hqs). exists (g, q). rewrite elem_of_map_to_list. eauto.
  - destruct Hp as ([g q] & Hq%elem_of_map_to_list & qs & Hqs). exists g, q, qs. eauto.
Qed.
#[local] Instance running_dec (x : Reg.state) p : Decision (running x p).
Proof.
  refine (cast_if (decide (p ∈ Reg.psubs x.1 \/ Exists (fun gq => exists qs, Sub.queues x.2 !! gq.2 = Some qs /\ p ∈ Sub.members qs) (map_to_list (Reg.qsubs x.1)))));
    abstract by rewrite running_listed.
Defined.

#[local] Instance shadows_dec g q qs (x : Reg.state) :
  Decision match Sub.shadow qs with
           | Some p => Sub.members qs = [] /\ exists sub, Sub.subs x.2 !! p = Some sub /\ shadow_ok nm g q qs sub
           | None => Sub.members qs <> []
           end.
Proof. destruct (Sub.shadow qs); apply _. Defined.

#[local] Instance subs_ok_dec (x : Reg.state) : Decision (subs_ok nm cl x).
Proof.
  refine (cast_if (decide (NoDup (Reg.psubs x.1) /\
    (forall p, p ∈ Reg.psubs x.1 -> exists sub, Sub.subs x.2 !! p = Some sub /\ plain_ok nm cl x.1 p sub) /\
    (forall k p, Reg.durables x.1 !! k = Some p -> exists sub, Sub.subs x.2 !! p = Some sub /\
      (p ∈ Reg.psubs x.1 /\ Sub.DurableName sub <> "" /\ Sub.durableKey sub = k \/ closed_ok nm k sub)) /\
    (forall g q, Reg.qsubs x.1 !! g = Some q -> g <> "" /\ exists qs, Sub.queues x.2 !! q = Some qs /\ NoDup (Sub.members qs) /\
      (forall p, p ∈ Sub.members qs -> exists sub, Sub.subs x.2 !! p = Some sub /\ member_ok nm cl x.1 g q qs p sub) /\
      match Sub.shadow qs with
      | Some p => Sub.members qs = [] /\ exists sub, Sub.subs x.2 !! p = Some sub /\ shadow_ok nm g q qs sub
      | None => Sub.members qs <> []
      end) /\
    (forall k p, Reg.acks x.1 !! k = Some p -> running x p /\ exists sub, Sub.subs x.2 !! p = Some sub /\ Sub.AckInbox sub = k) /\
    (forall k p, Reg.inboxes x.1 !! k = Some p -> running x p /\ exists sub, Sub.subs x.2 !! p = Some sub /\ Sub.Inbox sub = k))));
    [abstract (destruct_and!; split; assumption)|abstract (intros []; match goal with H : ~ _ |- _ => apply H end; split_and!; assumption)].
Defined.
End Decide.
#[local] Existing Instance subs_ok_dec.

#[local] Instance node_subs_ok_dec (n : node) : Decision (node_subs_ok n).
Proof.
  refine (cast_if (decide (forall nm p, channels (Conn.stan_of (server n)) !! nm = Some p -> forall c, chans (Conn.stan_of (server n)) !! p = Some c ->
    subs_ok nm (Conn.clients_of (server n)) (ss c, subscriptions (Conn.stan_of (server n)))))); abstract (unfold node_subs_ok; naive_solver).
Defined.

Lemma all_online_found (x : Reg.state) : all_online x <->
  (forall k p, Reg.durables x.1 !! k = Some p -> forall sub, Sub.subs x.2 !! p = Some sub -> Sub.IsClosed sub = false) /\
  (forall g q, Reg.qsubs x.1 !! g = Some q -> forall qs, Sub.queues x.2 !! q = Some qs -> Sub.shadow qs = None).
Proof. unfold all_online. naive_solver. Qed.

#[local] Instance all_online_dec (x : Reg.state) : Decision (all_online x).
Proof.
  refine (cast_if (decide ((forall k p, Reg.durables x.1 !! k = Some p -> forall sub, Sub.subs x.2 !! p = Some sub -> Sub.IsClosed sub = false) /\
    (forall g q, Reg.qsubs x.1 !! g = Some q -> forall qs, Sub.queues x.2 !! q = Some qs -> Sub.shadow qs = None)))); abstract by rewrite all_online_found.
Defined.
#[local] Instance node_online_dec (n : node) : Decision (node_online n).
Proof.
  refine (cast_if (decide (forall nm p, channels (Conn.stan_of (server n)) !! nm = Some p -> forall c, chans (Conn.stan_of (server n)) !! p = Some c ->
    all_online (ss c, subscriptions (Conn.stan_of (server n)))))); abstract (unfold node_online; naive_solver).
Defined.

#[local] Instance behind_dec (n n2 : node) : Decision (SnapSys.behind same n n2).
Proof.
  refine (cast_if (decide ((forall nm i, (abs n).1 !! nm = Some i -> 0 < i) /\
    (forall nm i, (abs n).1 !! nm = Some i -> forall j, (abs n2).1 !! nm = Some j -> 0 < j <= i) /\
    (forall nm i, (abs n).1 !! nm = Some i -> forall nm' j, (abs n2).1 !! nm' = Some j -> ToLower same nm' = ToLower same nm -> nm' = nm) /\
    (abs n).2 !! ""%string = None))).
  - abstract (destruct_and!; split; [done|by eauto|intros ?? [? ?] [? ?]; by eauto|done]).
  - abstract (intros [? ? Hl ?]; match goal with H : ~ _ |- _ => apply H end; split_and!; [done|by eauto|intros; apply Hl; by eauto|done]).
Defined.

Lemma after_ok log : follow log new_node <> None -> log_ok_b (RaftOperation.Marshal <$> log) (abs new_node) = true -> node_ok same (after log).
Proof.
  intros Hn Hl%log_ok_dec. unfold after. destruct (follow log new_node) as [n|] eqn:Hf; [|done].
  eapply (apply_all_abs same (node_env false) "cluster" (fun _ => None) (fun _ => None) (fun _ => 1) (fun _ => true) (RaftOperation.Marshal <$> log) new_node n); done || apply new_node_ok.
Qed.
Lemma before_ok : node_ok same (after before_ops).
Proof. apply after_ok; vm_compute; done. Qed.
Lemma older_ok : node_ok same (after older_ops).
Proof. apply after_ok; vm_compute; done. Qed.

Lemma before_subs_ok : node_subs_ok (after before_ops).
Proof. eapply (proj1 (bool_decide_eq_true _)). vm_compute. reflexivity. Qed.
Lemma older_subs_ok : node_subs_ok (after older_ops).
Proof. eapply (proj1 (bool_decide_eq_true _)). vm_compute. reflexivity. Qed.
Lemma older_online : node_online (after older_ops).
Proof. eapply (proj1 (bool_decide_eq_true _)). vm_compute. reflexivity. Qed.
Lemma older_behind : SnapSys.behind same (after before_ops) (after older_ops).
Proof. eapply (proj1 (bool_decide_eq_true _)). vm_compute. reflexivity. Qed.

Lemma before_typed snap n : take_snapshot (node_env false) (after before_ops) = (Ok snap, n) -> Proto.c_typed RaftSnapshot.codec snap /\ RaftSnapshot.Size snap < two32.
Proof.
  intros Hs. assert ((take_snapshot (node_env false) (after before_ops)).1 = Ok snap) as Hs1 by by rewrite Hs.
  vm_compute in Hs1. injection Hs1 as <-. split; [|vm_compute; done]. repeat constructor; by vm_compute.
Qed.

Lemma pair_fst {A B} (x : A * B) a : x.1 = a -> x = (a, x.2).
Proof. intros <-. by destruct x. Qed.
Lemma default_some {A} (d : A) o : is_Some o -> o = Some (default d o).
Proof. by intros [a ->]. Qed.

(** ** Witnesses *)

Lemma snapshot_transfers_state_witness :
  (restore (after before_ops) (after older_ops)).1 = Ok true /\ same_state (after before_ops) (restore (after before_ops) (after older_ops)).2 /\
  ended (persist (after before_ops)).1.2 = SinkClosed.
Proof.
  assert ((restore (after before_ops) (after older_ops)).1 = Ok true) as Hr by (vm_compute; reflexivity).
  assert ((persist (after before_ops)).1 = (Ok tt, (persist (after before_ops)).1.2)) as Hp by (apply pair_fst; vm_compute; reflexivity).
  split; [exact Hr|].
  pose proof (snapshot_transfers_state same Z_order Z_order names_order names_order (node_env false) (node_env false) "cluster" (fun _ => None) (fun _ => None) (fun _ => None) 3 false
    (after before_ops) (persist (after before_ops)).2 (after older_ops) (persist (after before_ops)).1.2 eq_refl eq_refl (fun _ => eq_refl) (fun _ => eq_refl) (fun _ => eq_refl)
    before_ok before_subs_ok older_ok older_subs_ok older_online older_behind before_typed (pair_fst _ _ Hp)) as (Hc & _ & Hs).
  split; [|exact Hc]. cbn zeta in Hs. fold (restore (after before_ops) (after older_ops)) in Hs. rewrite Hr in Hs. exact Hs.
Defined.

Definition went_on : option node := follow after_ops (persist (after before_ops)).2.
Definition joined : option node := follow after_ops (restore (after before_ops) (after older_ops)).2.


(** ** What is left of the state of a node *)

(** The names of the durables of the channel, and the positions of its subscribers. *)
Definition foo_of (n : node) : option (list string * list Z) :=
  p ← channels (Conn.stan_of (server n)) !! "foo"%string;
  c ← chans (Conn.stan_of (server n)) !! p;
  l ← mapM (fun q => Sub.LastSent <$> Sub.subs (subscriptions (Conn.stan_of (server n))) !! q) (Reg.psubs (ss c));
  Some ((map_to_list (Reg.durables (ss c))).*1, l).

Definition lagging : list RaftOperation.t := [op_connect "d"; op_publish 3 [1]; subscribe "d" 3; close_sub "d"].
Definition unsubscribed : list RaftOperation.t := lagging ++ [subscribe "d" 3; remove_sub "d"; op_publish 3 [2]].

(** A run with a durable that does not go away.  A durable is unsubscribed while a node, on which it
    is closed, is behind.  The node restores a snapshot, without the durable, and still has
    it.  When the durable is created again, it starts after the last message on the node
    with the snapshot, and at its old position on the other one. *)
Theorem stale_durable_survives_restore :
  let n1 := after unsubscribed in
  let x := restore n1 (after lagging) in
  x.1 = Ok false /\ foo_of n1 = Some ([], []) /\ foo_of x.2 = Some (["d-foo-dur"%string], []) /\
  follow [subscribe "d" 3] (persist n1).2 ≫= foo_of = Some (["d-foo-dur"%string], [2]) /\
  follow [subscribe "d" 3] x.2 ≫= foo_of = Some (["d-foo-dur"%string], [1]).
Proof. cbn zeta. split_and!; vm_compute; reflexivity. Qed.

Definition renamed : list RaftOperation.t := [op_connect "F"; subscribe "F" 2; op_delete "Foo" 2; op_publish 4 [1]].

(** A snapshot that a node cannot restore.  A channel is deleted, and another one is
    created whose name differs in case.  A node that is behind still has the first one,
    which [Restore] would delete after the channels of the snapshot, and fails to create
    the second one. *)
Theorem leftover_channel_blocks_restore :
  ids (Conn.stan_of (server (after renamed))) = {["foo" := 4]} /\
  (restore (after renamed) (after (take 2 renamed))).1 = Err (FsmChannel (ErrDifferentCase "foo" "Foo")) /\
  (restore (after renamed) new_node).1 = Ok true.
Proof. split_and!; vm_compute; reflexivity. Qed.
End SnapSample.
